(* ===== verification/_CoqProject ===== *)
-Q . S2P
Prelude.v
PyText.v
Errors.v
Lifecycles.v
Conditions.v
WorkflowGraph.v
ScheduleSpec.v
Calendar.v
Recurrence.v
RecurrenceLaws.v
MessagingStore.v
CustomerStore.v
Normalization.v
CampaignStore.v
Store.v
Tables.v
CustomerService.v
Identity.v
IdentityLaws.v
StoreLemmas.v
CustomerSafety.v
Messages.v
MessagingRepository.v
MessagingService.v
MessagingSend.v
MessagingInbound.v
MessagingEffects.v
MessagingSystem.v
SmsProvider.v
MessagingSafety.v
MessagingDemo.v
WorkflowRepository.v
WorkflowService.v
AdvanceLemmas.v
RunUpdate.v
RunInvariant.v
WorkflowOps.v
WorkflowStart.v
WorkflowSystem.v
WorkflowDemo.v
WorkflowSafety.v
WorkflowTenancy.v
SchedulerRepository.v
SchedulerService.v
SchedulerInvariant.v
SchedulerOps.v
SchedulerSteps.v
SchedulerMaterialize.v
SchedulerSystem.v
SchedulerDemo.v
SchedulerSafety.v
SchedulerDispatch.v
SchedulerMisfire.v
CampaignRepository.v
CampaignService.v
CampaignSpec.v
CampaignEffects.v
CampaignOps.v
CampaignSends.v
CampaignSystem.v
CampaignTrace.v
CampaignDemo.v
CampaignSafety.v
CampaignProgress.v
CampaignThrottle.v
EventPlatform.v
EventOutbox.v
EventRelay.v
EventConsumer.v
EventDelivery.v
Resilience.v
IntegrationHub.v
IntegrationSafety.v
Otp.v
OtpSafety.v
AuthTokens.v
Auth.v
AuthSafety.v
AuthLogin.v
AuthDemo.v
