(* ===== verification/Prelude.v ===== *)
(** * Nexus AI: a verification development

    Nexus AI is a multi-tenant Python service (package [nexus_ai] under [src/src])
    that runs durable workflows, schedules, campaigns and conversations over
    PostgreSQL, NATS JetStream and external integrations. This library models its
    execution core, from the source, as executable Rocq definitions and proves the
    properties that make it correct.

    ** Parts and files

    Shared vocabulary. [Prelude] holds results of fallible code, automation and list
    lemmas, [PyText] the methods of Python strings. [Errors] is the error taxonomy
    ([core/errors.py], [workflows/errors.py], [scheduler/errors.py],
    [campaigns/errors.py], [messaging/errors.py], [cells/errors.py]). [Lifecycles] gives
    the closed state machines (workflow runs and steps, schedules, occurrences,
    campaigns, attempts, work items, assignments, organizations) as instances of one
    class with its laws.

    Workflow engine. [Conditions] (the JSON values and [workflows/conditions.py]),
    [WorkflowGraph] ([workflows/entities.py]: specs and graph validation), [Store] (the
    tables of [domain/*/models.py], the world, the transaction monad of
    [infrastructure/database.py] and admission of [cells/admission.py]),
    [WorkflowRepository] ([domain/workflows/repository.py]) and [WorkflowService]
    ([workflows/service.py]). [AdvanceLemmas], [RunUpdate], [RunInvariant],
    [WorkflowOps] and [WorkflowStart] relate the operations to the invariant of a run;
    [WorkflowSystem] is the transition system of all transactions in any order;
    [WorkflowDemo] a concrete execution; [WorkflowSafety] and [WorkflowTenancy] the
    guarantees.

    Scheduler. [ScheduleSpec] ([scheduler/entities.py]), [Calendar] (Python's dates),
    [Recurrence] and [RecurrenceLaws] ([scheduler/recurrence.py]), [Identity] and
    [IdentityLaws] ([scheduler/identity.py]), [SchedulerRepository]
    ([domain/scheduler/repository.py]), [SchedulerService] ([scheduler/service.py]);
    then [SchedulerInvariant], [SchedulerOps], [SchedulerSteps],
    [SchedulerMaterialize] and [SchedulerSystem] (the invariant and the transition
    system), [SchedulerDemo], and the guarantees in [SchedulerSafety],
    [SchedulerDispatch] (composition with the workflow engine) and [SchedulerMisfire].

    Campaigns. [CampaignStore] and [Tables] (the tables of [domain/campaigns/models.py]
    and the rows of other domains campaigns read), [CampaignRepository]
    ([domain/campaigns/repository.py], [campaigns/identity.py]) and [CampaignService]
    ([campaigns/service.py], [campaigns/entities.py]), which calls the workflow engine
    and the scheduler above. [CampaignSpec] is the abstract specification, a set of
    effects on campaigns, runs, recipients, attempts and permits; [CampaignEffects]
    proves its invariant and what each effect preserves; [CampaignOps] and
    [CampaignSends] that every repository operation is a sequence of effects;
    [CampaignSystem] is the transition system of all transactions, with the refinement;
    [CampaignTrace] what follows along executions; [CampaignDemo] a concrete execution;
    [CampaignSafety], [CampaignProgress] and [CampaignThrottle] the guarantees.

    Customers. [CustomerStore] ([domain/customers/models.py], [entities.py]),
    [Normalization] ([domain/customers/normalization.py], [domain/auth/identity.py],
    [messaging/addresses.py]), [CustomerService] ([domain/customers/repository.py],
    [service.py], [compliance.py]) and [CustomerSafety] (the race-recovery contract).

    Messaging. [MessagingStore] ([messaging/entities.py], [domain/messaging/models.py]),
    [Messages] ([messaging/delivery.py], [content.py], [idempotency.py]),
    [MessagingRepository] ([domain/messaging/repository.py]), [MessagingService]
    (accounts: [messaging/service.py], [account_config.py]; the provider protocol of
    [providers/base.py]), [MessagingSend] ([MessagingService.send] and its helpers),
    [MessagingInbound] ([messaging/webhooks.py], which calls the customer services
    above) and [SmsProvider] ([providers/sms.py]). [MessagingEffects] describes the
    operations by their effects, [MessagingSystem] is the transition system of senders
    in stages, webhooks and administrators, [MessagingSafety] has the guarantees and
    [MessagingDemo] a concrete execution.

    Event platform. [EventPlatform] ([events/errors.py], [events/backoff.py],
    [events/subjects.py]), [EventOutbox] ([infrastructure/event_outbox.py],
    [infrastructure/event_dead_letter.py], [events/publisher.py]), [EventRelay] (the
    relay as a transition system and its guarantees), [EventConsumer]
    ([events/idempotency.py], [events/registry.py], [events/consumer.py]) and
    [EventDelivery] (its guarantees).

    Integration hub and throttling. [Resilience] ([integrations/backoff.py],
    [integrations/circuit.py], [integrations/ratelimit.py], [domain/auth/ratelimit.py]),
    [IntegrationHub] ([integrations/errors.py], [integrations/result.py],
    [integrations/service.py], the idempotency repository of
    [domain/integrations/repository.py]) and [IntegrationSafety].

    Passcodes. [Otp] ([otp/service.py], [otp/codes.py], [otp/purposes.py],
    [otp/entities.py], [otp/errors.py], [domain/otp/repository.py]) and [OtpSafety].

    Authentication (all under [domain/auth]). [AuthTokens] ([tokens.py]: refresh and access
    tokens, with their round trips), [Auth] ([entities.py], [models.py], [repository.py],
    the authorization of [rbac.py], the gate of [ratelimit.py], [service.py], [state.py] and
    [administration.py]), [AuthSafety] (what every operation keeps of the refresh sessions;
    [refresh] in stages, the transition system of its callers and the guarantees of token
    rotation), [AuthLogin] (the failure counter and the guarantees of login); [AuthDemo]
    gives the libraries concrete functions and runs them.

    ** How state and operations correspond

    A table is a list of records with the columns of the model class; a repository
    method is a function on the tables, in the state-and-exception monad [M] of [Store]
    for the workflow, scheduler, campaign, customer and messaging services and in plain
    state passing for the others.
    A unit of work commits on success and restores the tables on any exception. A
    transaction that locks the rows it reads, as those of the workflow engine, the
    scheduler and campaigns do, is one atomic step, and concurrency is the interleaving of
    transactions: the relations [sys_step], [sched_step], [camp_step], [msg_step],
    [pool_step], [relay_step], [delivery_step], [otp_step] and [auth_step] let any caller
    take any step, stale claims and crashed workers included. (Two steps of [camp_step] take
    an argument that another operation produced: [seal_preparation] a revision of its
    campaign, as [prepare] returned it, [authorize_permit] a claim that [claim_recipient]
    handed out; [campaigns_refine_spec] shows that what those two hand out stays
    admissible.)
    The code also reads without a lock, and there another transaction may commit between
    the read and the write. The operations that recover from a lost race
    ([resolve_or_create], [link_identity], [open_or_resolve]) are cut between their read and
    their insert, [send] at each of its transactions and at the provider call, and [refresh]
    between its read, its checks and its conditional update. A delivery callback commits
    what it decided on a version of the message it read before ([commit_status]), a change
    of a verification state likewise ([change_verification]), and an issuance of a passcode
    what it counted before ([persist_txn]); the theorems say which guarantees need that
    nothing was overtaken in this way. Timestamps are
    integers in microseconds read from the world's clock, and UUIDs are numbers drawn
    from a supply. Seconds computed by the code as floats
    (backoff, circuit windows) are rationals.

    Third-party code is a parameter with the documented behaviour the proofs use as a
    hypothesis: zoneinfo's offsets, sha256 and HMAC (distinct digests where keys or codes
    are compared),
    pydantic's dump and validation (a dumped value validates to itself), jsonschema,
    json, HMAC, base64 and urlsplit, the Unicode normal forms and httpx's exception
    classes; for authentication the random source (distinct draws), Argon2, PyJWT (a signed
    payload decodes to itself) and the reader of UUIDs. The message broker, the executor of workflow steps, message handlers, the
    secret vault, the messaging providers and the transport are oracles or arguments; no
    theorem on messaging assumes anything of them. The SMS adapter is one instance of the
    provider protocol.

    ** What the theorems show

    Workflows: graph validation accepts exactly the acyclic well-formed graphs; in every
    reachable state claims respect dependencies, a claim has one outcome, a running run
    can always make progress, terminal and cancelled runs stay so, starts are idempotent,
    tenants never touch each other's rows and nothing runs without admission.

    Scheduler: the next slot is the least admissible one and is found within the search
    bound; due slots become occurrences exactly once per revision with every omitted slot
    accounted for; claims are exclusive, a dispatch has one outcome and names the run it
    started, and a repeated dispatch returns the same run.

    Campaigns: every transaction refines the abstract specification; in every reachable
    state a recipient of a campaign is sent at most one message whatever is retried,
    claims and permits need a running campaign, a permit needs consent on record and no
    suppression at that moment, every permit is counted in a throttle window that never
    exceeds its limit per minute, a consumed permit is replayed without sending, and
    preparation and cancellation end.

    Customers: callers that present one identity at the same time converge on one
    customer, of which at most one reports to be the creator, unless the identity is revoked
    or its owner suspended meanwhile; an identity keeps its owner; a revoked identity cannot
    be read any more; normalization is idempotent.

    Messaging: a provider is called at most once under an idempotency key whatever
    crashes and is retried, and a later request under the key gets the outcome of the
    first; no message is lost and one that was sent stays sent; its delivery state only
    advances, in whatever order callbacks arrive, as long as none is overtaken between its
    read and its write; folding a callback never fails.

    Events: an enqueued event is never lost and never stuck; a handler's effect is
    committed at most once per consumer and event whatever is redelivered; messages are
    acknowledged, returned or terminated only when that is safe; subjects survive the
    broker.

    Hub: executions end within the attempt bound; a NON_IDEMPOTENT operation is repeated
    only after failures classified as not sent; an idempotency key runs once and replays
    its result; an open circuit sheds load; repeated login failures lock a key out.

    Passcodes: guesses per challenge are bounded, and issuances per window when they do not
    overlap; a code works once, and the issued code is the one accepted.

    Authentication: a refresh token buys one session pair however many callers present it
    at once; presenting a superseded token revokes its session for good; [refresh] decides
    exactly the admissible sessions and fails alike otherwise; a login needs the password
    of the newest credential, an active user and membership and an operating organization,
    and its refusals do not tell the reason; tokens are read back as they were issued.

    Some theorems record where the code falls short of its intent; their comments say so
    (for example [one_time_fires_twice], [processed_event_dead_lettered],
    [half_open_trial_lost], [read_error_resends], [settled_run_never_completes],
    [unknown_customer_blocks_preparation], [stranded_key], [callbacks_regress],
    [overlapping_exceeds_limit], [revoked_identity_unreadable], [late_verification_unrevokes],
    [suspended_organization_refreshes], [revoked_manager_restores]).

    ** Bounds and fuel

    Kahn's loop gets one unit of fuel per step, and each step is popped once. The
    dependency resolver's loop stops when a pass changes nothing; its fuel is the number
    of steps and one, and each changing pass settles a step. The searches of the
    scheduler use the source's own bound [MAX_SEARCH_STEPS] = 525,600 and raise the
    source's error beyond it. The retry loop of the hub has [retry_max_attempts] units:
    the policy refuses a retry at that attempt, and [execution_terminates] proves that
    the fuel is enough. The loop of [prepare_campaign] has one unit per audience member
    and one more, since every batch advances the cursor; [preparation_terminates] proves
    that it never runs out, and [cancellation_completes] bounds the number of calls of
    [cancel_campaign] by the batches there are. The loops of messaging and customers are
    structural on lists. Text has the characters up to U+00FF; UUIDs are natural numbers,
    and where one is printed and read back it is below 2^128.

    ** Not modelled

    Check constraints, row-lock timeouts and 32-bit column limits of the database, and
    the foreign keys of the workflow and scheduler tables; reads that only page or
    format; logging, metrics and human-readable error texts; of pydantic's field
    validators only those a theorem needs. Global events and the replay script of the
    event platform; the Valkey-backed counter of outbound calls; DNS, redirects and
    streaming of the HTTP executor. The e-mail and WhatsApp adapters, whose payloads are MIME and the Graph
    API's, and the encryption of stored secrets. Password hashing and key storage, which
    wrap Argon2 and Ed25519, and the catalogue that seeds roles and permissions. The
    remaining services (agents, humans, telephony, voice, tools, compliance, sentinel,
    provisioning) are outside the library, except for the state machines in
    [Lifecycles]: they drive external media, model and SIP services, or would each be a
    development of this kind over their own tables. *)

From stdpp Require Export base decidable option list strings gmap sorting.
From Stdlib Require Export ZArith Lia Ascii.

#[global] Open Scope Z_scope.

(** ** Results: fallible Python code

    A Python function that may raise is a function into [result E A]: [Ok]
    carries the returned value and [Err] the exception. *)

Inductive result (E A : Type) : Type :=
| Ok (a : A)
| Err (e : E).
Arguments Ok {E A} a.
Arguments Err {E A} e.

#[export] Instance result_ret E : MRet (result E) := λ A a, Ok a.
#[export] Instance result_bind E : MBind (result E) :=
  λ A B f r, match r with Ok a => f a | Err e => Err e end.
#[export] Instance result_fmap E : FMap (result E) :=
  λ A B f r, match r with Ok a => Ok (f a) | Err e => Err e end.

(** [require b e]: the guard [if not b: raise e]. *)
Definition require {E} (b : bool) (e : E) : result E unit :=
  if b then Ok tt else Err e.

(** [of_option o e]: [raise e] when a lookup finds nothing. *)
Definition of_option {E A} (o : option A) (e : E) : result E A :=
  match o with Some a => Ok a | None => Err e end.

Lemma bind_Ok {E A B} (r : result E A) (f : A → result E B) b :
  r ≫= f = Ok b ↔ ∃ a, r = Ok a ∧ f a = Ok b.
Proof.
  split.
  - destruct r as [a|e]; simpl; [eauto|discriminate].
  - intros (a & -> & Hf). exact Hf.
Qed.

Lemma bind_Err {E A B} (r : result E A) (f : A → result E B) e :
  r ≫= f = Err e ↔ r = Err e ∨ ∃ a, r = Ok a ∧ f a = Err e.
Proof.
  destruct r as [a|e']; simpl; split.
  - eauto.
  - intros [?|(a' & ? & ?)]; congruence.
  - intros [= ->]. by left.
  - by intros [[= ->]|(a' & ? & ?)].
Qed.

Lemma require_Ok {E} (b : bool) (e : E) u : require b e = Ok u ↔ b = true.
Proof. destruct b, u; simpl; split; congruence. Qed.

Lemma of_option_Ok {E A} (o : option A) (e : E) a :
  of_option o e = Ok a ↔ o = Some a.
Proof. destruct o; simpl; split; congruence. Qed.

(** ** Automation *)

Create HintDb nexus.
Create Rewrite HintDb nexus_result.
#[export] Hint Rewrite @bind_Ok @require_Ok @of_option_Ok : nexus_result.

(** Open every [Ok] equation and existential of the context. *)
Ltac inv_ok :=
  repeat (progress (autorewrite with nexus_result in *; destruct_and?;
    repeat match goal with H : ∃ _, _ |- _ => destruct H end; simplify_eq/=)).

(** Case analysis on every [match] or [if] of the goal, then close. *)
Ltac split_matches :=
  repeat (case_match || case_decide || case_bool_decide); simplify_eq/=.

(** Boolean tests into propositions. *)
Ltac booleans :=
  repeat match goal with
  | H : bool_decide _ = true |- _ => apply bool_decide_eq_true in H
  | H : bool_decide _ = false |- _ => apply bool_decide_eq_false in H
  | H : (_ && _)%bool = true |- _ => apply andb_true_iff in H as [? ?]
  | H : (_ || _)%bool = false |- _ => apply orb_false_iff in H as [? ?]
  | H : negb _ = true |- _ => apply negb_true_iff in H
  | H : negb _ = false |- _ => apply negb_false_iff in H
  end.

(** ** Loops

    [for a in l: f(a)] when [f] may raise, and [for a in l: s = f(s, a)]. *)

Fixpoint iterM {E A} (f : A → result E unit) (l : list A) : result E unit :=
  match l with
  | [] => Ok tt
  | a :: l => match f a with Ok _ => iterM f l | Err e => Err e end
  end.

Fixpoint foldM {E S A} (f : S → A → result E S) (l : list A) (s : S) : result E S :=
  match l with
  | [] => Ok s
  | a :: l => match f s a with Ok s => foldM f l s | Err e => Err e end
  end.

Lemma iterM_Ok {E A} (f : A → result E unit) l :
  iterM f l = Ok tt ↔ Forall (λ a, f a = Ok tt) l.
Proof.
  induction l as [|a l IH]; simpl; [by split; auto|].
  rewrite Forall_cons, <- IH. destruct (f a) as [[]|e]; naive_solver.
Qed.

Lemma iterM_Err {E A} (f : A → result E unit) l e :
  iterM f l = Err e → ∃ a, a ∈ l ∧ f a = Err e.
Proof.
  induction l as [|a l IH]; simpl; [done|].
  destruct (f a) as [[]|e'] eqn:Hfa.
  - intros (a' & ? & ?)%IH. exists a'. split; [by constructor|done].
  - intros [= ->]. exists a. split; [by constructor|done].
Qed.

Lemma iterM_total {E A} (f : A → result E unit) l e :
  (∀ a, a ∈ l → f a = Ok tt ∨ f a = Err e) → iterM f l = Ok tt ∨ iterM f l = Err e.
Proof.
  induction l as [|a l IH]; intros Hf; simpl; [by left|].
  destruct (Hf a) as [-> | ->]; [by constructor| |by right].
  apply IH. intros b ?. apply Hf. by constructor.
Qed.

(** ** Occurrences in a list *)

Abbreviation occ l k := (count_occ String.string_dec l k).

Lemma occ_elem_of (l : list string) k : k ∈ l ↔ (0 < occ l k)%nat.
Proof. rewrite list_elem_of_In. apply count_occ_In. Qed.

Lemma occ_not_elem_of (l : list string) k : k ∉ l ↔ occ l k = 0%nat.
Proof. rewrite occ_elem_of. lia. Qed.

Lemma occ_replicate n (x k : string) :
  occ (replicate n x) k = if String.eqb x k then n else 0%nat.
Proof.
  destruct (String.eqb_spec x k) as [->|Hne].
  - induction n as [|n IH]; [done|]. simpl.
    destruct (String.string_dec k k); [by rewrite IH|done].
  - induction n as [|n IH]; [done|]. simpl.
    destruct (String.string_dec x k); [done|by rewrite IH].
Qed.

Lemma NoDup_submseteq_length (l k : list string) :
  NoDup l → l ⊆ k → (length l ≤ length k)%nat.
Proof. intros Hl Hlk. apply submseteq_length, NoDup_submseteq; [done|]. auto. Qed.

(** Identifiers: a UUID is its 128-bit integer. *)
Abbreviation uuid := N.

(** Position of the first occurrence of [k], [length l] when absent. *)
Fixpoint index_of (k : string) (l : list string) : nat :=
  match l with
  | [] => 0
  | x :: l => if String.eqb x k then 0 else S (index_of k l)
  end.

Lemma index_of_app_in k l1 l2 : k ∈ l1 → (index_of k (l1 ++ l2) < length l1)%nat.
Proof.
  induction l1 as [|x l1 IH]; [by intros ?%not_elem_of_nil|].
  rewrite elem_of_cons. simpl. destruct (String.eqb_spec x k); [lia|].
  intros [->|Hin]; [done|]. specialize (IH Hin). lia.
Qed.

Lemma index_of_app_notin k l1 l2 : k ∉ l1 → index_of k (l1 ++ k :: l2) = length l1.
Proof.
  induction l1 as [|x l1 IH]; simpl; [by rewrite String.eqb_refl|].
  rewrite not_elem_of_cons. intros [Hne Hin].
  rewrite (proj2 (String.eqb_neq x k)) by congruence. by rewrite IH.
Qed.

(** ** Related lists *)

Lemma Forall2_in_l {A B} (R : A → B → Prop) l k x :
  Forall2 R l k → x ∈ l → ∃ y, y ∈ k ∧ R x y.
Proof.
  intros Hlk (i & Hi)%list_elem_of_lookup.
  destruct (Forall2_lookup_l _ _ _ _ _ Hlk Hi) as (y & Hy & HR).
  exists y. split; [by eapply list_elem_of_lookup_2|done].
Qed.

Lemma Forall2_in_r {A B} (R : A → B → Prop) l k y :
  Forall2 R l k → y ∈ k → ∃ x, x ∈ l ∧ R x y.
Proof.
  intros Hlk (i & Hi)%list_elem_of_lookup.
  destruct (Forall2_lookup_r _ _ _ _ _ Hlk Hi) as (x & Hx & HR).
  exists x. split; [by eapply list_elem_of_lookup_2|done].
Qed.

(** ** Rows with a key *)

Lemma NoDup_map_inj {A B} (f : A → B) l x y :
  NoDup (map f l) → x ∈ l → y ∈ l → f x = f y → x = y.
Proof.
  induction l as [|z l IH]; simpl; [by intros _ ?%not_elem_of_nil|].
  rewrite NoDup_cons, !elem_of_cons. intros [Hz Hnd] [->|Hx] [->|Hy] Heq; auto.
  - contradict Hz. rewrite Heq. by apply list_elem_of_fmap_2.
  - contradict Hz. rewrite <- Heq. by apply list_elem_of_fmap_2.
Qed.

Lemma NoDup_map_filter {A B} (f : A → B) (p : A → bool) l :
  NoDup (map f l) → NoDup (map f (List.filter p l)).
Proof.
  induction l as [|x l IH]; cbn [map List.filter]; [done|].
  rewrite NoDup_cons. intros [Hx Hl]. destruct (p x); cbn [map]; [|auto].
  rewrite NoDup_cons. split; [|auto]. contradict Hx.
  apply list_elem_of_fmap in Hx as (y & -> & Hy). apply list_elem_of_fmap_2.
  rewrite list_elem_of_In, List.filter_In in Hy. destruct Hy. by apply list_elem_of_In.
Qed.

Lemma forallb_false {A} (p : A → bool) l : forallb p l = false ↔ ∃ x, x ∈ l ∧ p x = false.
Proof.
  induction l as [|a l IH]; simpl.
  - split; [done|]. by intros (x & ?%not_elem_of_nil & _).
  - rewrite andb_false_iff, IH. setoid_rewrite elem_of_cons. naive_solver.
Qed.

Lemma Forall2_impl_in_l {A B} (R S : A → B → Prop) l k :
  Forall2 R l k → (∀ x y, x ∈ l → R x y → S x y) → Forall2 S l k.
Proof.
  induction 1 as [|x y l k Hxy _ IH]; intros HRS; constructor.
  - apply HRS; [by constructor|done].
  - apply IH. intros a b ? ?. apply HRS; [by constructor|done].
Qed.

Lemma filter_nil_not_elem_of {A} (p : A → bool) l :
  (∀ x, x ∈ l → p x = false) → List.filter p l = [].
Proof.
  induction l as [|x l IH]; intros Hp; simpl; [done|].
  rewrite (Hp x) by constructor. apply IH. intros y ?. apply Hp. by constructor.
Qed.

Lemma filter_id {A} (p : A → bool) l : (∀ x, x ∈ l → p x = true) → List.filter p l = l.
Proof.
  induction l as [|x l IH]; intros Hp; simpl; [done|].
  rewrite (Hp x) by constructor. f_equal. apply IH. intros y ?. apply Hp. by constructor.
Qed.

Lemma find_app {A} (p : A → bool) l k :
  List.find p (l ++ k) = match List.find p l with Some x => Some x | None => List.find p k end.
Proof. induction l as [|x l IH]; simpl; [done|]. by destruct (p x). Qed.
