(* ===== verification/PyText.v ===== *)
(** * PyText: Python strings

    The methods of [str] the code uses, on strings whose characters have codes below
    256: a character is its code point. *)

From S2P Require Import Prelude.

Definition slen (s : string) : Z := Z.of_nat (String.length s).

Definition between (a b c : ascii) : bool :=
  (N_of_ascii a <=? N_of_ascii c)%N && (N_of_ascii c <=? N_of_ascii b)%N.

(** [any(p(c) for c in s)] and [all(p(c) for c in s)] *)
Fixpoint has_char (p : ascii → bool) (s : string) : bool :=
  match s with EmptyString => false | String c s => p c || has_char p s end.

Fixpoint all_chars (p : ascii → bool) (s : string) : bool :=
  match s with EmptyString => true | String c s => p c && all_chars p s end.

(** What [re.sub] leaves of [s] when it removes every character outside [p]. *)
Fixpoint keep_chars (p : ascii → bool) (s : string) : string :=
  match s with
  | EmptyString => EmptyString
  | String c s => if p c then String c (keep_chars p s) else keep_chars p s
  end.

Fixpoint map_chars (f : ascii → ascii) (s : string) : string :=
  match s with EmptyString => EmptyString | String c s => String (f c) (map_chars f s) end.

(** [str.isspace] of a character *)
Definition is_space (c : ascii) : bool :=
  let n := N_of_ascii c in
  ((9 <=? n) && (n <=? 13) || (28 <=? n) && (n <=? 32) || (n =? 133) || (n =? 160))%N.

Fixpoint lstrip (s : string) : string :=
  match s with
  | EmptyString => EmptyString
  | String c s' => if is_space c then lstrip s' else s
  end.

Fixpoint rstrip (s : string) : string :=
  match s with
  | EmptyString => EmptyString
  | String c s =>
      match rstrip s with
      | EmptyString => if is_space c then EmptyString else String c EmptyString
      | s => String c s
      end
  end.

Definition strip (s : string) : string := rstrip (lstrip s).

(** [s.lstrip(x)] and [s.rstrip(x)] for one character *)
Fixpoint lstrip_char (x : ascii) (s : string) : string :=
  match s with
  | EmptyString => EmptyString
  | String c s' => if Ascii.eqb c x then lstrip_char x s' else s
  end.

Fixpoint rstrip_char (x : ascii) (s : string) : string :=
  match s with
  | EmptyString => EmptyString
  | String c s =>
      match rstrip_char x s with
      | EmptyString => if Ascii.eqb c x then EmptyString else String c EmptyString
      | s => String c s
      end
  end.

(** [str.lower] and [str.upper]: the letters of ASCII and of the Latin-1 supplement.
    The two letters whose upper case lies beyond it, and the sharp s, whose upper case
    is two letters, are left alone by [upper]. *)
Definition lower_char (c : ascii) : ascii :=
  let n := N_of_ascii c in
  if ((65 <=? n) && (n <=? 90) || (192 <=? n) && (n <=? 222) && negb (n =? 215))%N
  then ascii_of_N (n + 32) else c.

Definition lower : string → string := map_chars lower_char.

Definition upper_char (c : ascii) : ascii :=
  let n := N_of_ascii c in
  if ((97 <=? n) && (n <=? 122) || (224 <=? n) && (n <=? 254) && negb (n =? 247))%N
  then ascii_of_N (n - 32) else c.

Definition upper : string → string := map_chars upper_char.

(** [s[:n]] *)
Fixpoint stake (n : nat) (s : string) : string :=
  match n, s with S n, String c s => String c (stake n s) | _, _ => EmptyString end.

(** [s[n:]] *)
Fixpoint sdrop (n : nat) (s : string) : string :=
  match n, s with S n, String _ s => sdrop n s | _, _ => s end.

(** [s.split(sep)] for a separator of one character *)
Fixpoint split_on (sep : ascii) (s : string) : list string :=
  match s with
  | EmptyString => [EmptyString]
  | String c s =>
      if Ascii.eqb c sep then EmptyString :: split_on sep s
      else match split_on sep s with
           | [] => [String c EmptyString]
           | w :: ws => String c w :: ws
           end
  end.

(** [s.startswith(p)] *)
Fixpoint starts_with (p s : string) : bool :=
  match p, s with
  | EmptyString, _ => true
  | String a p, String b s => Ascii.eqb a b && starts_with p s
  | _, EmptyString => false
  end.

(** [len(s.encode('utf-8'))] *)
Fixpoint utf8_length (s : string) : Z :=
  match s with
  | EmptyString => 0
  | String c s => (if (N_of_ascii c <? 128)%N then 1 else 2) + utf8_length s
  end.

(** ** Characters of a string *)

Lemma between_bounds a b c : between a b c = true → (N_of_ascii a ≤ N_of_ascii c ≤ N_of_ascii b)%N.
Proof. unfold between. rewrite andb_true_iff, !N.leb_le. done. Qed.

Lemma has_char_impl (p q : ascii → bool) s :
  (∀ c, p c = true → q c = true) → has_char q s = false → has_char p s = false.
Proof.
  intros Hpq. induction s as [|c s IH]; [done|]. cbn. rewrite !orb_false_iff. intros [H1 H2].
  split; [|auto]. apply not_true_iff_false. intros Hp%Hpq. congruence.
Qed.

Lemma all_chars_impl (p q : ascii → bool) s :
  (∀ c, p c = true → q c = true) → all_chars p s = true → all_chars q s = true.
Proof.
  intros Hpq. induction s as [|c s IH]; [done|]. cbn. rewrite !andb_true_iff. intros [H1 H2]. auto.
Qed.

Lemma all_chars_has (p q : ascii → bool) s :
  (∀ c, p c = true → q c = false) → all_chars p s = true → has_char q s = false.
Proof.
  intros Hpq. induction s as [|c s IH]; [done|]. cbn. rewrite andb_true_iff, orb_false_iff. intros [H1 H2]. auto.
Qed.

Lemma all_chars_app p s t : all_chars p (s +:+ t) = all_chars p s && all_chars p t.
Proof.
  induction s as [|c s IH]; [done|]. change (String c s +:+ t) with (String c (s +:+ t)).
  cbn [all_chars]. by rewrite IH, andb_assoc.
Qed.

Lemma all_chars_keep p s : all_chars p (keep_chars p s) = true.
Proof. induction s as [|c s IH]; [done|]. cbn. destruct (p c) eqn:Hc; cbn; [by rewrite Hc|done]. Qed.

Lemma keep_chars_all p s : all_chars p s = true → keep_chars p s = s.
Proof. induction s as [|c s IH]; [done|]. cbn. rewrite andb_true_iff. intros [-> H]. by rewrite IH. Qed.

Lemma keep_chars_app p s t : keep_chars p (s +:+ t) = keep_chars p s +:+ keep_chars p t.
Proof.
  induction s as [|c s IH]; [done|]. change (String c s +:+ t) with (String c (s +:+ t)).
  cbn [keep_chars]. rewrite IH. by destruct (p c).
Qed.

Lemma slen_app s t : slen (s +:+ t) = slen s + slen t.
Proof.
  unfold slen. induction s as [|c s IH]; [done|]. change (String c s +:+ t) with (String c (s +:+ t)).
  cbn [String.length]. lia.
Qed.

Lemma map_chars_id f s : all_chars (λ c, Ascii.eqb (f c) c) s = true → map_chars f s = s.
Proof.
  induction s as [|c s IH]; [done|]. cbn. rewrite andb_true_iff. intros [->%Ascii.eqb_eq H]. by rewrite IH.
Qed.

(** ** Stripping *)

Lemma lstrip_plain s : has_char is_space s = false → lstrip s = s.
Proof. destruct s as [|c s]; [done|]. cbn. rewrite orb_false_iff. by intros [-> _]. Qed.

Lemma rstrip_plain s : has_char is_space s = false → rstrip s = s.
Proof.
  induction s as [|c s IH]; [done|]. cbn. rewrite orb_false_iff. intros [Hc Hs].
  rewrite IH by done. rewrite Hc. by destruct s.
Qed.

Lemma strip_plain s : has_char is_space s = false → strip s = s.
Proof. intros H. unfold strip. rewrite lstrip_plain by done. by apply rstrip_plain. Qed.

Lemma rstrip_idem s : rstrip (rstrip s) = rstrip s.
Proof.
  induction s as [|c s IH]; [done|]. cbn. destruct (rstrip s) as [|d t] eqn:E; cbn.
  - destruct (is_space c) eqn:Hc; cbn; [done|]. by rewrite Hc.
  - cbn in IH. by rewrite IH.
Qed.

Lemma lstrip_head s : lstrip s = EmptyString ∨ ∃ c t, lstrip s = String c t ∧ is_space c = false.
Proof. induction s as [|c s IH]; [by left|]. cbn. destruct (is_space c) eqn:Hc; [done|]. right. eauto. Qed.

Lemma rstrip_head c s : is_space c = false → ∃ t, rstrip (String c s) = String c t.
Proof. intros Hc. cbn. destruct (rstrip s); [rewrite Hc|]; eauto. Qed.

Lemma strip_idem s : strip (strip s) = strip s.
Proof.
  unfold strip. destruct (lstrip_head s) as [-> | (c & t & -> & Hc)]; [done|].
  destruct (rstrip_head c t Hc) as [u Hu]. rewrite Hu. cbn [lstrip]. rewrite Hc, <- Hu. apply rstrip_idem.
Qed.
