(* ===== verification/Errors.v ===== *)
(** * Errors: the NXS error taxonomy

    Every application error of the modelled components ([core/errors.py] and the
    [errors.py] of each component) with its stable public code, HTTP status and
    retryability, and [exn], the exceptions a modelled function can raise: an
    [NxsError] or one of the Python or driver exceptions the code lets escape. *)

From S2P Require Import Prelude.

(** [workflows/errors.py] *)
Inductive WorkflowError : Type :=
| WorkflowNotFoundError
| WorkflowVersionNotFoundError
| WorkflowRunNotFoundError
| WorkflowInvalidDefinitionError
| WorkflowInvalidStateError
| WorkflowConflictError
| WorkflowExecutionFencedError
| WorkflowStepFailedError (upstream_code : string).

Definition workflow_error_code (e : WorkflowError) : string :=
  match e with
  | WorkflowNotFoundError => "NXS_WORKFLOW_NOT_FOUND"
  | WorkflowVersionNotFoundError => "NXS_WORKFLOW_VERSION_NOT_FOUND"
  | WorkflowRunNotFoundError => "NXS_WORKFLOW_RUN_NOT_FOUND"
  | WorkflowInvalidDefinitionError => "NXS_WORKFLOW_INVALID_DEFINITION"
  | WorkflowInvalidStateError => "NXS_WORKFLOW_INVALID_STATE"
  | WorkflowConflictError => "NXS_WORKFLOW_CONFLICT"
  | WorkflowExecutionFencedError => "NXS_WORKFLOW_EXECUTION_FENCED"
  | WorkflowStepFailedError _ => "NXS_WORKFLOW_STEP_FAILED"
  end.

Definition workflow_error_status (e : WorkflowError) : Z :=
  match e with
  | WorkflowNotFoundError | WorkflowVersionNotFoundError | WorkflowRunNotFoundError => 404
  | WorkflowInvalidDefinitionError => 422
  | WorkflowInvalidStateError | WorkflowConflictError | WorkflowExecutionFencedError => 409
  | WorkflowStepFailedError _ => 502
  end.

(** [scheduler/errors.py] *)
Inductive ScheduleError : Type :=
| ScheduleNotFoundError
| OccurrenceNotFoundError
| ScheduleInvalidStateError
| ScheduleConflictError
| ScheduleInvalidRecurrenceError
| ScheduleTargetRejectedError
| ScheduleExecutionFencedError
| ScheduleDispatchFailedError.

Definition schedule_error_code (e : ScheduleError) : string :=
  match e with
  | ScheduleNotFoundError => "NXS_SCHED_NOT_FOUND"
  | OccurrenceNotFoundError => "NXS_SCHED_OCCURRENCE_NOT_FOUND"
  | ScheduleInvalidStateError => "NXS_SCHED_INVALID_STATE"
  | ScheduleConflictError => "NXS_SCHED_CONFLICT"
  | ScheduleInvalidRecurrenceError => "NXS_SCHED_INVALID_RECURRENCE"
  | ScheduleTargetRejectedError => "NXS_SCHED_TARGET_REJECTED"
  | ScheduleExecutionFencedError => "NXS_SCHED_EXECUTION_FENCED"
  | ScheduleDispatchFailedError => "NXS_SCHED_DISPATCH_FAILED"
  end.

Definition schedule_error_status (e : ScheduleError) : Z :=
  match e with
  | ScheduleNotFoundError | OccurrenceNotFoundError => 404
  | ScheduleInvalidStateError | ScheduleConflictError | ScheduleExecutionFencedError => 409
  | ScheduleInvalidRecurrenceError | ScheduleTargetRejectedError => 422
  | ScheduleDispatchFailedError => 503
  end.

Definition schedule_error_retryable (e : ScheduleError) : bool :=
  match e with ScheduleDispatchFailedError => true | _ => false end.

(** [campaigns/errors.py] *)
Inductive CampaignError : Type :=
| CampaignNotFoundError
| CampaignRunNotFoundError
| CampaignInvalidStateError
| CampaignConflictError
| CampaignInvalidAudienceError
| CampaignEligibilityDeniedError
| CampaignExecutionFencedError
| CampaignDispatchFailedError (upstream_code : string).

Definition campaign_error_code (e : CampaignError) : string :=
  match e with
  | CampaignNotFoundError => "NXS_CAMPAIGN_NOT_FOUND"
  | CampaignRunNotFoundError => "NXS_CAMPAIGN_RUN_NOT_FOUND"
  | CampaignInvalidStateError => "NXS_CAMPAIGN_INVALID_STATE"
  | CampaignConflictError => "NXS_CAMPAIGN_CONFLICT"
  | CampaignInvalidAudienceError => "NXS_CAMPAIGN_INVALID_AUDIENCE"
  | CampaignEligibilityDeniedError => "NXS_CAMPAIGN_ELIGIBILITY_DENIED"
  | CampaignExecutionFencedError => "NXS_CAMPAIGN_EXECUTION_FENCED"
  | CampaignDispatchFailedError _ => "NXS_CAMPAIGN_DISPATCH_FAILED"
  end.

Definition campaign_error_status (e : CampaignError) : Z :=
  match e with
  | CampaignNotFoundError | CampaignRunNotFoundError => 404
  | CampaignInvalidAudienceError => 422
  | CampaignDispatchFailedError _ => 503
  | _ => 409
  end.

Definition campaign_error_retryable (e : CampaignError) : bool :=
  match e with CampaignDispatchFailedError _ => true | _ => false end.

(** [cells/errors.py] *)
Inductive CellError : Type :=
| PlacementRequiredError
| PlacementFencedError
| PlacementConflictError
| CellUnavailableError.

Definition cell_error_code (e : CellError) : string :=
  match e with
  | PlacementRequiredError => "NXS_CELL_PLACEMENT_REQUIRED"
  | PlacementFencedError => "NXS_CELL_PLACEMENT_FENCED"
  | PlacementConflictError => "NXS_CELL_PLACEMENT_CONFLICT"
  | CellUnavailableError => "NXS_CELL_UNAVAILABLE"
  end.

(** [messaging/errors.py]; [MessagingProviderError] carries the provider's own code and
    its [retryable] flag per instance. *)
Inductive MessagingError : Type :=
| MessagingAccountNotFoundError
| MessagingAccountDisabledError
| MessagingAccountConflictError
| MessagingConfigInvalidError
| MessageNotFoundError
| MessagingConversationInvalidError
| MessagingRecipientInvalidError
| MessagingPayloadInvalidError
| MessagingAuthFailedError
| MessagingSignatureInvalidError
| MessagingReplayRejectedError
| MessagingChallengeFailedError
| MessagingIdempotencyConflictError
| MessagingSendInProgressError
| MessagingProviderError (provider_code : option string) (provider_retryable : bool)
| MessagingDeliveryFailedError (original_error_code : option string)
| MessagingTimeoutError
| MessagingRateLimitedError
| MessagingStateConflictError.

Definition messaging_error_code (e : MessagingError) : string :=
  match e with
  | MessagingAccountNotFoundError => "NXS_MSG_ACCOUNT_NOT_FOUND"
  | MessagingAccountDisabledError => "NXS_MSG_ACCOUNT_DISABLED"
  | MessagingAccountConflictError => "NXS_MSG_ACCOUNT_CONFLICT"
  | MessagingConfigInvalidError => "NXS_MSG_CONFIG_INVALID"
  | MessageNotFoundError => "NXS_MSG_MESSAGE_NOT_FOUND"
  | MessagingConversationInvalidError => "NXS_MSG_CONVERSATION_INVALID"
  | MessagingRecipientInvalidError => "NXS_MSG_RECIPIENT_INVALID"
  | MessagingPayloadInvalidError => "NXS_MSG_PAYLOAD_INVALID"
  | MessagingAuthFailedError => "NXS_MSG_AUTH_FAILED"
  | MessagingSignatureInvalidError => "NXS_MSG_SIGNATURE_INVALID"
  | MessagingReplayRejectedError => "NXS_MSG_REPLAY_REJECTED"
  | MessagingChallengeFailedError => "NXS_MSG_CHALLENGE_FAILED"
  | MessagingIdempotencyConflictError => "NXS_MSG_IDEMPOTENCY_CONFLICT"
  | MessagingSendInProgressError => "NXS_MSG_SEND_IN_PROGRESS"
  | MessagingProviderError _ _ => "NXS_MSG_PROVIDER_ERROR"
  | MessagingDeliveryFailedError _ => "NXS_MSG_DELIVERY_FAILED"
  | MessagingTimeoutError => "NXS_MSG_TIMEOUT"
  | MessagingRateLimitedError => "NXS_MSG_RATE_LIMITED"
  | MessagingStateConflictError => "NXS_MSG_STATE_CONFLICT"
  end.

Definition messaging_error_status (e : MessagingError) : Z :=
  match e with
  | MessagingAccountNotFoundError | MessageNotFoundError => 404
  | MessagingAccountDisabledError | MessagingAccountConflictError
  | MessagingConversationInvalidError | MessagingReplayRejectedError
  | MessagingIdempotencyConflictError | MessagingSendInProgressError
  | MessagingStateConflictError => 409
  | MessagingConfigInvalidError | MessagingRecipientInvalidError
  | MessagingPayloadInvalidError => 422
  | MessagingAuthFailedError | MessagingSignatureInvalidError => 401
  | MessagingChallengeFailedError => 403
  | MessagingProviderError _ _ | MessagingDeliveryFailedError _ => 502
  | MessagingTimeoutError => 504
  | MessagingRateLimitedError => 429
  end.

Definition messaging_error_retryable (e : MessagingError) : bool :=
  match e with
  | MessagingSendInProgressError | MessagingRateLimitedError => true
  | MessagingProviderError _ r => r
  | _ => false
  end.

(** The errors of customers and conversations in [core/errors.py] *)
Inductive CustomerError : Type :=
| IdentityConflictError
| IdentityNormalizationError
| UnsupportedIdentityTypeError
| CustomerNotFoundError
| ConversationNotFoundError
| ConversationStateConflictError
| ConversationExternalKeyConflictError
| ConversationCustomerConflictError
| CoreNotFoundError.

Definition customer_error_code (e : CustomerError) : string :=
  match e with
  | IdentityConflictError => "NXS_CUSTOMER_IDENTITY_CONFLICT"
  | IdentityNormalizationError => "NXS_CUSTOMER_IDENTITY_INVALID"
  | UnsupportedIdentityTypeError => "NXS_CUSTOMER_IDENTITY_UNSUPPORTED"
  | CustomerNotFoundError => "NXS_CUSTOMER_NOT_FOUND"
  | ConversationNotFoundError => "NXS_CONVERSATION_NOT_FOUND"
  | ConversationStateConflictError => "NXS_CONVERSATION_STATE_CONFLICT"
  | ConversationExternalKeyConflictError => "NXS_CONVERSATION_EXTERNAL_CONFLICT"
  | ConversationCustomerConflictError => "NXS_CONVERSATION_CUSTOMER_CONFLICT"
  | CoreNotFoundError => "NXS_CORE_NOT_FOUND"
  end.

(** The [NxsError] hierarchy. [OtherNxsError] stands for a subclass raised by a
    component that is a parameter of the model (the tool engine, the agent
    runtime), known only through its [code] and [retryable] attributes. *)
Inductive NxsError : Type :=
| WorkflowErr (e : WorkflowError)
| ScheduleErr (e : ScheduleError)
| CellErr (e : CellError)
| CampaignErr (e : CampaignError)
| MessagingErr (e : MessagingError)
| CustomerErr (e : CustomerError)
| ValidationFailedError
| HumanInvalidStateError
| OrganizationInvalidStateError
| OrganizationVersionConflictError
| IntegrationCircuitOpenError
| IntegrationOutboundRateLimitedError
| RateLimitedError
| OtherNxsError (other_code : string) (other_retryable : bool).

Definition code (e : NxsError) : string :=
  match e with
  | WorkflowErr e => workflow_error_code e
  | ScheduleErr e => schedule_error_code e
  | CellErr e => cell_error_code e
  | CampaignErr e => campaign_error_code e
  | MessagingErr e => messaging_error_code e
  | CustomerErr e => customer_error_code e
  | ValidationFailedError => "NXS_CORE_VALIDATION_FAILED"
  | HumanInvalidStateError => "NXS_HUMAN_INVALID_STATE"
  | OrganizationInvalidStateError => "NXS_ORG_INVALID_STATE"
  | OrganizationVersionConflictError => "NXS_ORG_VERSION_CONFLICT"
  | IntegrationCircuitOpenError => "NXS_INT_CIRCUIT_OPEN"
  | IntegrationOutboundRateLimitedError => "NXS_INT_OUTBOUND_RATE_LIMITED"
  | RateLimitedError => "NXS_CORE_RATE_LIMITED"
  | OtherNxsError c _ => c
  end.

(** [NxsError.retryable]: a class attribute, [False] unless a subclass overrides it. *)
Definition retryable (e : NxsError) : bool :=
  match e with
  | WorkflowErr _ | CellErr _ | CustomerErr _ => false
  | ScheduleErr e => schedule_error_retryable e
  | CampaignErr e => campaign_error_retryable e
  | MessagingErr e => messaging_error_retryable e
  | ValidationFailedError | HumanInvalidStateError | OrganizationInvalidStateError => false
  | IntegrationCircuitOpenError | IntegrationOutboundRateLimitedError | RateLimitedError
  | OrganizationVersionConflictError => true
  | OtherNxsError _ r => r
  end.

(** Exceptions: an [NxsError], or a Python or driver exception. [OutOfFuel] is no
    exception of the program: it marks a modelled [while] loop that ran out of
    the bound given to it, and the theorems show it is never returned. *)
Inductive exn : Type :=
| Nxs (e : NxsError)
| KeyError
| ValueError
| OverflowError
| IntegrityError
| NoResultFound
| MultipleResultsFound
| PendingRollbackError
| StopIteration
| AssertionError
| DeferStatus
| OutOfFuel.

#[export] Instance WorkflowError_eq : EqDecision WorkflowError.
Proof. solve_decision. Defined.
#[export] Instance ScheduleError_eq : EqDecision ScheduleError.
Proof. solve_decision. Defined.
#[export] Instance CampaignError_eq : EqDecision CampaignError.
Proof. solve_decision. Defined.
#[export] Instance CellError_eq : EqDecision CellError.
Proof. solve_decision. Defined.
#[export] Instance MessagingError_eq : EqDecision MessagingError.
Proof. solve_decision. Defined.
#[export] Instance CustomerError_eq : EqDecision CustomerError.
Proof. solve_decision. Defined.
#[export] Instance NxsError_eq : EqDecision NxsError.
Proof. solve_decision. Defined.
#[export] Instance exn_eq : EqDecision exn.
Proof. solve_decision. Defined.
