(* ===== verification/Lifecycles.v ===== *)
(** * Lifecycles: the closed state machines

    The transition tables of organizations, workflows, schedules, campaigns and
    human work items, and the interface [Lifecycle] they share: a table of allowed
    targets, a set of terminal states, and the laws the tables promise to their
    clients (terminal states are absorbing; a terminal state is always reachable).
    Each enumeration is a [Module] named after the Python [StrEnum], so a member
    is written as in the source ([WorkflowRunState.RUNNING]). *)

From S2P Require Import Prelude.
From S2P Require Import Errors.

(** ** The interface of a transition table *)

Class Lifecycle (St : Type) `{EqDecision St} := {
  transitions : St → list St;
  terminal : St → bool;
}.

(** One step along the table. *)
Definition legal {St} `{Lifecycle St} (s t : St) : Prop := t ∈ transitions s.

(** What a table promises: a terminal state is absorbing, and from every state
    some terminal state can still be reached. *)
Class LifecycleLaws (St : Type) `{Lifecycle St} : Prop := {
  lifecycle_absorbing : ∀ s, terminal s = true → transitions s = [];
  lifecycle_exits : ∀ s, ∃ t, rtc legal s t ∧ terminal t = true;
}.

(** A terminal state within [n] transitions, by search. *)
Fixpoint can_exit {St} `{Lifecycle St} (n : nat) (s : St) : bool :=
  terminal s ||
  match n with
  | O => false
  | S n => existsb (can_exit n) (transitions s)
  end.

(** The guard shared by every [require_*_transition]: raise unless the target is
    in the table's set. *)
Definition guard_transition {St} `{Lifecycle St} (err : NxsError) (s t : St) : result exn unit :=
  if bool_decide (t ∈ transitions s) then Ok tt else Err (Nxs err).

(** A lifecycle whose every transition lowers a measure: no cycles, so an entity
    takes boundedly many transitions. *)
Class BoundedLifecycle (St : Type) `{Lifecycle St} := {
  measure : St → nat;
  measure_decreases : ∀ s t, legal s t → (measure t < measure s)%nat;
}.

Module OrganizationStatus.
Inductive OrganizationStatus : Type := PROVISIONING | ACTIVE | SUSPENDED | ARCHIVED.
End OrganizationStatus.
Abbreviation OrganizationStatus := OrganizationStatus.OrganizationStatus.

Module WorkflowDefinitionStatus.
Inductive WorkflowDefinitionStatus : Type := DRAFT | ACTIVE | ARCHIVED.
End WorkflowDefinitionStatus.
Abbreviation WorkflowDefinitionStatus := WorkflowDefinitionStatus.WorkflowDefinitionStatus.

Module WorkflowRunState.
Inductive WorkflowRunState : Type :=
| PENDING | RUNNING | PAUSED | COMPLETED | FAILED | CANCELLED.
End WorkflowRunState.
Abbreviation WorkflowRunState := WorkflowRunState.WorkflowRunState.

Module WorkflowStepState.
Inductive WorkflowStepState : Type :=
| PENDING | READY | RUNNING | COMPLETED | FAILED | SKIPPED | CANCELLED.
End WorkflowStepState.
Abbreviation WorkflowStepState := WorkflowStepState.WorkflowStepState.

Module DependencyMode.
Inductive DependencyMode : Type := ALL | ANY.
End DependencyMode.
Abbreviation DependencyMode := DependencyMode.DependencyMode.

Module ScheduleState.
Inductive ScheduleState : Type := DRAFT | ACTIVE | PAUSED | COMPLETED | CANCELLED.
End ScheduleState.
Abbreviation ScheduleState := ScheduleState.ScheduleState.

Module OccurrenceState.
Inductive OccurrenceState : Type :=
| PENDING | CLAIMED | DISPATCHED | FAILED | SKIPPED | CANCELLED.
End OccurrenceState.
Abbreviation OccurrenceState := OccurrenceState.OccurrenceState.

Module CampaignState.
Inductive CampaignState : Type :=
| DRAFT | PREPARING | READY | SCHEDULED | RUNNING | PAUSED | CANCELLING
| COMPLETED | FAILED | CANCELLED.
End CampaignState.
Abbreviation CampaignState := CampaignState.CampaignState.

Module RecipientAttemptState.
Inductive RecipientAttemptState : Type :=
| PENDING | CLAIMED | WORKFLOW_RUNNING | READY_TO_SEND | DISPATCH_AUTHORIZED
| DISPATCHED | SUPPRESSED | FAILED | CANCELLED.
End RecipientAttemptState.
Abbreviation RecipientAttemptState := RecipientAttemptState.RecipientAttemptState.

Module WorkItemState.
Inductive WorkItemState : Type :=
| QUEUED | CLAIMED | ACCEPTED | ACTIVE | AI_RETURN_PENDING | WRAP_UP | COMPLETED | CANCELLED.
End WorkItemState.
Abbreviation WorkItemState := WorkItemState.WorkItemState.

Module AssignmentState.
Inductive AssignmentState : Type :=
| CLAIMED | ACCEPTED | ACTIVE | RELEASED | TRANSFERRED | COMPLETED.
End AssignmentState.
Abbreviation AssignmentState := AssignmentState.AssignmentState.

#[export] Instance OrganizationStatus_eq : EqDecision OrganizationStatus.
Proof. solve_decision. Defined.
#[export] Instance WorkflowDefinitionStatus_eq : EqDecision WorkflowDefinitionStatus.
Proof. solve_decision. Defined.
#[export] Instance WorkflowRunState_eq : EqDecision WorkflowRunState.
Proof. solve_decision. Defined.
#[export] Instance WorkflowStepState_eq : EqDecision WorkflowStepState.
Proof. solve_decision. Defined.
#[export] Instance DependencyMode_eq : EqDecision DependencyMode.
Proof. solve_decision. Defined.
#[export] Instance ScheduleState_eq : EqDecision ScheduleState.
Proof. solve_decision. Defined.
#[export] Instance OccurrenceState_eq : EqDecision OccurrenceState.
Proof. solve_decision. Defined.
#[export] Instance CampaignState_eq : EqDecision CampaignState.
Proof. solve_decision. Defined.
#[export] Instance RecipientAttemptState_eq : EqDecision RecipientAttemptState.
Proof. solve_decision. Defined.
#[export] Instance WorkItemState_eq : EqDecision WorkItemState.
Proof. solve_decision. Defined.
#[export] Instance AssignmentState_eq : EqDecision AssignmentState.
Proof. solve_decision. Defined.

(** ** The tables *)

Definition organization_transitions (s : OrganizationStatus) : list OrganizationStatus :=
  match s with
  | OrganizationStatus.PROVISIONING => [OrganizationStatus.ACTIVE; OrganizationStatus.ARCHIVED]
  | OrganizationStatus.ACTIVE => [OrganizationStatus.SUSPENDED; OrganizationStatus.ARCHIVED]
  | OrganizationStatus.SUSPENDED => [OrganizationStatus.ACTIVE; OrganizationStatus.ARCHIVED]
  | OrganizationStatus.ARCHIVED => []
  end.

Definition can_transition (current target : OrganizationStatus) : bool :=
  bool_decide (target ∈ organization_transitions current).

(** [OPERATIONAL_STATUSES] and [is_operational]. *)
Definition is_operational (s : OrganizationStatus) : bool :=
  bool_decide (s ∈ [OrganizationStatus.ACTIVE]).

Definition assert_transition (current target : OrganizationStatus) : result exn unit :=
  if bool_decide (current = target) then Err (Nxs OrganizationInvalidStateError)
  else if negb (can_transition current target) then Err (Nxs OrganizationInvalidStateError)
  else Ok tt.

(** [WORKFLOW_TERMINAL] and [STEP_TERMINAL] *)
Definition WORKFLOW_TERMINAL : list WorkflowRunState :=
  [WorkflowRunState.COMPLETED; WorkflowRunState.FAILED; WorkflowRunState.CANCELLED].
Definition STEP_TERMINAL : list WorkflowStepState :=
  [WorkflowStepState.COMPLETED; WorkflowStepState.FAILED;
   WorkflowStepState.SKIPPED; WorkflowStepState.CANCELLED].

Definition workflow_transitions (s : WorkflowRunState) : list WorkflowRunState :=
  match s with
  | WorkflowRunState.PENDING => [WorkflowRunState.RUNNING; WorkflowRunState.CANCELLED]
  | WorkflowRunState.RUNNING =>
      [WorkflowRunState.PAUSED; WorkflowRunState.COMPLETED;
       WorkflowRunState.FAILED; WorkflowRunState.CANCELLED]
  | WorkflowRunState.PAUSED =>
      [WorkflowRunState.RUNNING; WorkflowRunState.FAILED; WorkflowRunState.CANCELLED]
  | WorkflowRunState.COMPLETED | WorkflowRunState.FAILED | WorkflowRunState.CANCELLED => []
  end.

Definition step_transitions (s : WorkflowStepState) : list WorkflowStepState :=
  match s with
  | WorkflowStepState.PENDING =>
      [WorkflowStepState.READY; WorkflowStepState.SKIPPED; WorkflowStepState.CANCELLED]
  | WorkflowStepState.READY =>
      [WorkflowStepState.RUNNING; WorkflowStepState.SKIPPED; WorkflowStepState.CANCELLED]
  | WorkflowStepState.RUNNING =>
      [WorkflowStepState.READY; WorkflowStepState.COMPLETED;
       WorkflowStepState.FAILED; WorkflowStepState.CANCELLED]
  | WorkflowStepState.COMPLETED | WorkflowStepState.FAILED
  | WorkflowStepState.SKIPPED | WorkflowStepState.CANCELLED => []
  end.

Definition SCHEDULE_TERMINAL : list ScheduleState :=
  [ScheduleState.COMPLETED; ScheduleState.CANCELLED].
Definition OCCURRENCE_TERMINAL : list OccurrenceState :=
  [OccurrenceState.DISPATCHED; OccurrenceState.FAILED;
   OccurrenceState.SKIPPED; OccurrenceState.CANCELLED].

Definition schedule_transitions (s : ScheduleState) : list ScheduleState :=
  match s with
  | ScheduleState.DRAFT => [ScheduleState.ACTIVE; ScheduleState.CANCELLED]
  | ScheduleState.ACTIVE =>
      [ScheduleState.PAUSED; ScheduleState.COMPLETED; ScheduleState.CANCELLED]
  | ScheduleState.PAUSED => [ScheduleState.ACTIVE; ScheduleState.CANCELLED]
  | ScheduleState.COMPLETED | ScheduleState.CANCELLED => []
  end.

Definition occurrence_transitions (s : OccurrenceState) : list OccurrenceState :=
  match s with
  | OccurrenceState.PENDING =>
      [OccurrenceState.CLAIMED; OccurrenceState.SKIPPED; OccurrenceState.CANCELLED]
  | OccurrenceState.CLAIMED => [OccurrenceState.DISPATCHED; OccurrenceState.FAILED]
  | OccurrenceState.DISPATCHED | OccurrenceState.FAILED
  | OccurrenceState.SKIPPED | OccurrenceState.CANCELLED => []
  end.

Definition CAMPAIGN_TERMINAL : list CampaignState :=
  [CampaignState.COMPLETED; CampaignState.FAILED; CampaignState.CANCELLED].

Definition campaign_transitions (s : CampaignState) : list CampaignState :=
  match s with
  | CampaignState.DRAFT => [CampaignState.PREPARING; CampaignState.CANCELLING]
  | CampaignState.PREPARING =>
      [CampaignState.READY; CampaignState.DRAFT; CampaignState.CANCELLING]
  | CampaignState.READY =>
      [CampaignState.SCHEDULED; CampaignState.RUNNING; CampaignState.CANCELLING]
  | CampaignState.SCHEDULED =>
      [CampaignState.RUNNING; CampaignState.FAILED; CampaignState.CANCELLING]
  | CampaignState.RUNNING =>
      [CampaignState.PAUSED; CampaignState.COMPLETED; CampaignState.FAILED;
       CampaignState.CANCELLING]
  | CampaignState.PAUSED =>
      [CampaignState.RUNNING; CampaignState.FAILED; CampaignState.CANCELLING]
  | CampaignState.CANCELLING => [CampaignState.CANCELLED]
  | CampaignState.COMPLETED | CampaignState.FAILED | CampaignState.CANCELLED => []
  end.

(** The table local to [resolve_attempt_transition]. *)
Definition attempt_transitions (s : RecipientAttemptState) : list RecipientAttemptState :=
  match s with
  | RecipientAttemptState.PENDING =>
      [RecipientAttemptState.CLAIMED; RecipientAttemptState.SUPPRESSED;
       RecipientAttemptState.CANCELLED]
  | RecipientAttemptState.CLAIMED =>
      [RecipientAttemptState.WORKFLOW_RUNNING; RecipientAttemptState.SUPPRESSED;
       RecipientAttemptState.FAILED; RecipientAttemptState.CANCELLED]
  | RecipientAttemptState.WORKFLOW_RUNNING =>
      [RecipientAttemptState.READY_TO_SEND; RecipientAttemptState.SUPPRESSED;
       RecipientAttemptState.FAILED; RecipientAttemptState.CANCELLED]
  | RecipientAttemptState.READY_TO_SEND =>
      [RecipientAttemptState.DISPATCH_AUTHORIZED; RecipientAttemptState.SUPPRESSED;
       RecipientAttemptState.FAILED; RecipientAttemptState.CANCELLED]
  | RecipientAttemptState.DISPATCH_AUTHORIZED =>
      [RecipientAttemptState.DISPATCHED; RecipientAttemptState.FAILED]
  | RecipientAttemptState.DISPATCHED | RecipientAttemptState.SUPPRESSED
  | RecipientAttemptState.FAILED | RecipientAttemptState.CANCELLED => []
  end.

Definition work_transitions (s : WorkItemState) : list WorkItemState :=
  match s with
  | WorkItemState.QUEUED => [WorkItemState.CLAIMED; WorkItemState.CANCELLED]
  | WorkItemState.CLAIMED =>
      [WorkItemState.ACCEPTED; WorkItemState.QUEUED; WorkItemState.CANCELLED]
  | WorkItemState.ACCEPTED =>
      [WorkItemState.ACTIVE; WorkItemState.QUEUED; WorkItemState.CANCELLED]
  | WorkItemState.ACTIVE =>
      [WorkItemState.AI_RETURN_PENDING; WorkItemState.WRAP_UP; WorkItemState.QUEUED;
       WorkItemState.CANCELLED]
  | WorkItemState.AI_RETURN_PENDING => [WorkItemState.QUEUED; WorkItemState.COMPLETED]
  | WorkItemState.WRAP_UP => [WorkItemState.COMPLETED; WorkItemState.QUEUED]
  | WorkItemState.COMPLETED | WorkItemState.CANCELLED => []
  end.

Definition assignment_transitions (s : AssignmentState) : list AssignmentState :=
  match s with
  | AssignmentState.CLAIMED =>
      [AssignmentState.ACCEPTED; AssignmentState.RELEASED; AssignmentState.TRANSFERRED]
  | AssignmentState.ACCEPTED =>
      [AssignmentState.ACTIVE; AssignmentState.RELEASED; AssignmentState.TRANSFERRED]
  | AssignmentState.ACTIVE =>
      [AssignmentState.RELEASED; AssignmentState.TRANSFERRED; AssignmentState.COMPLETED]
  | AssignmentState.RELEASED | AssignmentState.TRANSFERRED | AssignmentState.COMPLETED => []
  end.

(** ** Instances: the tables are lifecycles

    The terminal set of each instance is the source's own [*_TERMINAL] constant
    where it has one, and the states with an empty row otherwise. *)

#[export] Instance organization_lifecycle : Lifecycle OrganizationStatus := {|
  transitions := organization_transitions;
  terminal s := bool_decide (s = OrganizationStatus.ARCHIVED) |}.
#[export] Instance workflow_lifecycle : Lifecycle WorkflowRunState := {|
  transitions := workflow_transitions; terminal s := bool_decide (s ∈ WORKFLOW_TERMINAL) |}.
#[export] Instance step_lifecycle : Lifecycle WorkflowStepState := {|
  transitions := step_transitions; terminal s := bool_decide (s ∈ STEP_TERMINAL) |}.
#[export] Instance schedule_lifecycle : Lifecycle ScheduleState := {|
  transitions := schedule_transitions; terminal s := bool_decide (s ∈ SCHEDULE_TERMINAL) |}.
#[export] Instance occurrence_lifecycle : Lifecycle OccurrenceState := {|
  transitions := occurrence_transitions; terminal s := bool_decide (s ∈ OCCURRENCE_TERMINAL) |}.
#[export] Instance campaign_lifecycle : Lifecycle CampaignState := {|
  transitions := campaign_transitions; terminal s := bool_decide (s ∈ CAMPAIGN_TERMINAL) |}.
#[export] Instance attempt_lifecycle : Lifecycle RecipientAttemptState := {|
  transitions := attempt_transitions;
  terminal s := bool_decide (attempt_transitions s = []) |}.
#[export] Instance work_lifecycle : Lifecycle WorkItemState := {|
  transitions := work_transitions; terminal s := bool_decide (work_transitions s = []) |}.
#[export] Instance assignment_lifecycle : Lifecycle AssignmentState := {|
  transitions := assignment_transitions;
  terminal s := bool_decide (assignment_transitions s = []) |}.

(** ** The guards *)

Definition require_workflow_transition (current target : WorkflowRunState) : result exn unit :=
  guard_transition (WorkflowErr WorkflowInvalidStateError) current target.
Definition require_step_transition (current target : WorkflowStepState) : result exn unit :=
  guard_transition (WorkflowErr WorkflowInvalidStateError) current target.
Definition require_schedule_transition (current target : ScheduleState) : result exn unit :=
  guard_transition (ScheduleErr ScheduleInvalidStateError) current target.
Definition require_occurrence_transition (current target : OccurrenceState) : result exn unit :=
  guard_transition (ScheduleErr ScheduleInvalidStateError) current target.
Definition require_campaign_transition (current target : CampaignState) : result exn unit :=
  guard_transition (CampaignErr CampaignInvalidStateError) current target.
Definition resolve_attempt_transition (current target : RecipientAttemptState) : result exn unit :=
  guard_transition (CampaignErr CampaignInvalidStateError) current target.
Definition require_work_transition (current target : WorkItemState) : result exn unit :=
  guard_transition HumanInvalidStateError current target.
Definition require_assignment_transition (current target : AssignmentState) : result exn unit :=
  guard_transition HumanInvalidStateError current target.

(** ** The laws of the interface *)

Lemma can_exit_sound {St} `{Lifecycle St} n (s : St) :
  can_exit n s = true → ∃ t, rtc legal s t ∧ terminal t = true.
Proof.
  revert s; induction n as [|n IH]; intros s; simpl; rewrite orb_true_iff.
  - intros [?|?]; [by exists s; split; [apply rtc_refl|]|done].
  - intros [?|(u & Hu & Hexit)%existsb_exists]; [by exists s; split; [apply rtc_refl|]|].
    destruct (IH u Hexit) as (t & ? & ?). exists t; split; [|done].
    eapply rtc_l; [|done]. by apply list_elem_of_In.
Qed.

Ltac solve_lifecycle_laws :=
  split; [intros []; vm_compute; congruence | intros []; apply (can_exit_sound 5); reflexivity].

#[export] Instance organization_laws : LifecycleLaws OrganizationStatus.
Proof. solve_lifecycle_laws. Qed.
#[export] Instance workflow_laws : LifecycleLaws WorkflowRunState.
Proof. solve_lifecycle_laws. Qed.
#[export] Instance step_laws : LifecycleLaws WorkflowStepState.
Proof. solve_lifecycle_laws. Qed.
#[export] Instance schedule_laws : LifecycleLaws ScheduleState.
Proof. solve_lifecycle_laws. Qed.
#[export] Instance occurrence_laws : LifecycleLaws OccurrenceState.
Proof. solve_lifecycle_laws. Qed.
#[export] Instance campaign_laws : LifecycleLaws CampaignState.
Proof. solve_lifecycle_laws. Qed.
#[export] Instance attempt_laws : LifecycleLaws RecipientAttemptState.
Proof. solve_lifecycle_laws. Qed.
#[export] Instance work_laws : LifecycleLaws WorkItemState.
Proof. solve_lifecycle_laws. Qed.
#[export] Instance assignment_laws : LifecycleLaws AssignmentState.
Proof. solve_lifecycle_laws. Qed.

(** ** Consequences for every lifecycle *)

Section lifecycle.
Context {St : Type} `{LifecycleLaws St}.

Lemma guard_transition_Ok err (s t : St) :
  guard_transition err s t = Ok tt ↔ legal s t.
Proof. unfold guard_transition, legal. case_bool_decide; naive_solver. Qed.

Lemma guard_transition_Err err (s t : St) x :
  guard_transition err s t = Err x ↔ ¬ legal s t ∧ x = Nxs err.
Proof.
  unfold guard_transition, legal.
  case_bool_decide; (split; [intros [=]; subst; done|intros [? ?]; subst; done]).
Qed.

Lemma terminal_no_step (s t : St) : terminal s = true → ¬ legal s t.
Proof. unfold legal. intros ->%lifecycle_absorbing. by apply not_elem_of_nil. Qed.

Lemma terminal_rtc (s t : St) : terminal s = true → rtc legal s t → t = s.
Proof.
  intros Hs Hst. inversion Hst as [|? u ? Hu]; subst; [done|].
  by apply terminal_no_step in Hu.
Qed.

(** A guard is sound for a set of terminal states when it refuses every
    transition out of one and never locks an entity out of all of them. *)
Definition guard_sound (guard : St → St → result exn unit) : Prop :=
  (∀ s t, terminal s = true → ∃ e, guard s t = Err e) ∧
  (∀ s, ∃ t, rtc (λ a b, guard a b = Ok tt) s t ∧ terminal t = true).

Lemma guard_transition_sound err : guard_sound (guard_transition err).
Proof.
  split.
  - intros s t Hs. exists (Nxs err). apply guard_transition_Err.
    eauto using terminal_no_step.
  - intros s. destruct (lifecycle_exits s) as (t & Hst & Ht). exists t; split; [|done].
    revert Hst. clear Ht. induction 1 as [|s u t Hsu _ IH]; [apply rtc_refl|].
    eapply rtc_l; [by apply guard_transition_Ok|done].
Qed.

End lifecycle.

Lemma bounded_steps {St} `{BoundedLifecycle St} n (s t : St) :
  nsteps legal n s t → (n + measure t ≤ measure s)%nat.
Proof.
  induction 1 as [s|n s u t Hsu _ IH]; [lia|].
  apply measure_decreases in Hsu. lia.
Qed.

Lemma guard_steps_bounded {St} `{BoundedLifecycle St} err n (s t : St) :
  nsteps (λ a b, guard_transition err a b = Ok tt) n s t → (n ≤ measure s)%nat.
Proof.
  intros Hn. enough (nsteps legal n s t) as Hl%bounded_steps by lia.
  induction Hn as [|n s u t Hsu _ IH]; [constructor|].
  econstructor; [|done]. revert Hsu. unfold guard_transition, legal.
  by case_bool_decide.
Qed.

Ltac solve_bounded :=
  intros s t Hst; destruct s, t;
  first [ simpl; lia
        | contradict Hst; unfold legal; refine (bool_decide_eq_false_1 _ _); reflexivity ].

Definition attempt_measure (s : RecipientAttemptState) : nat :=
  match s with
    | RecipientAttemptState.PENDING => 5
    | RecipientAttemptState.CLAIMED => 4
    | RecipientAttemptState.WORKFLOW_RUNNING => 3
    | RecipientAttemptState.READY_TO_SEND => 2
    | RecipientAttemptState.DISPATCH_AUTHORIZED => 1
    | _ => 0 end%nat.
#[export] Instance attempt_bounded : BoundedLifecycle RecipientAttemptState.
Proof. refine {| measure := attempt_measure |}. solve_bounded. Defined.
Definition occurrence_measure (s : OccurrenceState) : nat :=
  match s with
    | OccurrenceState.PENDING => 2 | OccurrenceState.CLAIMED => 1 | _ => 0 end%nat.
#[export] Instance occurrence_bounded : BoundedLifecycle OccurrenceState.
Proof. refine {| measure := occurrence_measure |}. solve_bounded. Defined.
Definition assignment_measure (s : AssignmentState) : nat :=
  match s with
    | AssignmentState.CLAIMED => 3 | AssignmentState.ACCEPTED => 2
    | AssignmentState.ACTIVE => 1 | _ => 0 end%nat.
#[export] Instance assignment_bounded : BoundedLifecycle AssignmentState.
Proof. refine {| measure := assignment_measure |}. solve_bounded. Defined.

Lemma assert_transition_guard s t :
  assert_transition s t = guard_transition OrganizationInvalidStateError s t.
Proof. by destruct s, t. Qed.

(** Every transition guard of the platform is closed and never traps an
    entity: it raises on each transition out of a terminal state, and from every
    state some terminal state is reachable through transitions it accepts. *)
Theorem lifecycle_guards_sound :
  guard_sound assert_transition ∧
  guard_sound require_workflow_transition ∧
  guard_sound require_step_transition ∧
  guard_sound require_schedule_transition ∧
  guard_sound require_occurrence_transition ∧
  guard_sound require_campaign_transition ∧
  guard_sound resolve_attempt_transition ∧
  guard_sound require_work_transition ∧
  guard_sound require_assignment_transition.
Proof.
  repeat split_and; try apply guard_transition_sound.
  destruct (guard_transition_sound (St := OrganizationStatus) OrganizationInvalidStateError)
    as [H1 H2]. split.
  - intros s t. rewrite assert_transition_guard. apply H1.
  - intros s. destruct (H2 s) as (t & Hst & Ht). exists t; split; [|done].
    eapply rtc_congruence with (f := id); [|exact Hst].
    intros a b Hab. by rewrite assert_transition_guard.
Qed.

(** Recipient attempts, schedule occurrences and human assignments make
    boundedly many transitions: at most 5, 2 and 3 from their initial states, so
    no retry loop can cycle one of them. *)
Theorem lifecycle_transition_bounds :
  (∀ n t, nsteps (λ a b, resolve_attempt_transition a b = Ok tt) n
            RecipientAttemptState.PENDING t → (n ≤ 5)%nat) ∧
  (∀ n t, nsteps (λ a b, require_occurrence_transition a b = Ok tt) n
            OccurrenceState.PENDING t → (n ≤ 2)%nat) ∧
  (∀ n t, nsteps (λ a b, require_assignment_transition a b = Ok tt) n
            AssignmentState.CLAIMED t → (n ≤ 3)%nat).
Proof.
  repeat split_and; intros n t Hn;
    apply guard_steps_bounded in Hn; exact Hn.
Qed.
