(* ===== verification/Conditions.v ===== *)
(** * Conditions: JSON values and the workflow condition language

    [json] is the data a workflow carries (run inputs, step outputs, condition
    operands): the JSON values PostgreSQL's JSONB stores, with Python's [==], [in]
    and ordering on them. On top of it, [workflows/conditions.py]: path
    resolution and the eight operators of a CONDITION step. *)

From S2P Require Import Prelude.
From S2P Require Import Errors.

(** ** JSON values

    A float is the exact dyadic [m * 2^e] (JSONB holds no infinity and no NaN);
    an object is its list of members, in document order. *)
Inductive json : Type :=
| JNull
| JBool (b : bool)
| JInt (z : Z)
| JFloat (m e : Z)
| JStr (s : string)
| JArr (l : list json)
| JObj (l : list (string * json)).

(** Member lookup, [d[k]] and [k in d] of a Python dict. *)
Fixpoint assoc {A} (k : string) (l : list (string * A)) : option A :=
  match l with
  | [] => None
  | (k', a) :: l => if String.eqb k k' then Some a else assoc k l
  end.

(** Truth of a decoded JSON value. *)
Definition json_truthy (j : json) : bool :=
  match j with
  | JNull => false
  | JBool b => b
  | JInt z => negb (z =? 0)
  | JFloat m _ => negb (m =? 0)
  | JStr s => negb (String.eqb s EmptyString)
  | JArr l => negb (bool_decide (length l = 0%nat))
  | JObj l => negb (bool_decide (length l = 0%nat))
  end.

(** Exact comparison of [m1 * 2^e1] with [m2 * 2^e2]. *)
Definition dyadic_compare (m1 e1 m2 e2 : Z) : comparison :=
  let e := Z.min e1 e2 in
  Z.compare (m1 * 2 ^ (e1 - e)) (m2 * 2 ^ (e2 - e)).

(** The numeric value of a JSON scalar; [bool] is a subclass of [int]. *)
Definition numeric (v : json) : option (Z * Z) :=
  match v with
  | JBool b => Some (if b then 1 else 0, 0)
  | JInt z => Some (z, 0)
  | JFloat m e => Some (m, e)
  | _ => None
  end.

(** Python's [a == b]. *)
Fixpoint py_eq (a b : json) {struct a} : bool :=
  match a, b with
  | JNull, JNull => true
  | JStr s, JStr t => String.eqb s t
  | JArr l, JArr m =>
      (fix go (l m : list json) : bool :=
         match l, m with
         | [], [] => true
         | x :: l, y :: m => py_eq x y && go l m
         | _, _ => false
         end) l m
  | JObj l, JObj m =>
      Nat.eqb (length l) (length m) &&
      (fix go (l : list (string * json)) : bool :=
         match l with
         | [] => true
         | (k, x) :: l =>
             match assoc k m with Some y => py_eq x y | None => false end && go l
         end) l
  | _, _ =>
      match numeric a, numeric b with
      | Some (m1, e1), Some (m2, e2) =>
          match dyadic_compare m1 e1 m2 e2 with Eq => true | _ => false end
      | _, _ => false
      end
  end.

(** ** The condition language *)

Module ConditionOperator.
Inductive ConditionOperator : Type :=
| EQUALS | NOT_EQUALS | EXISTS | NOT_EXISTS | IN | NOT_IN | GREATER_THAN | LESS_THAN.
End ConditionOperator.
Abbreviation ConditionOperator := ConditionOperator.ConditionOperator.
#[export] Instance ConditionOperator_eq : EqDecision ConditionOperator.
Proof. solve_decision. Defined.

(** [ConditionStepConfig]: an absent [value] is Python's [None], JSON null. *)
Record ConditionStepConfig : Type := {
  path : string;
  operator : ConditionOperator;
  value : json;
  then_steps : list string;
  else_steps : list string;
}.

(** [path.split(".")] *)
Fixpoint split_dots (s : string) : list string :=
  match s with
  | EmptyString => [EmptyString]
  | String c s =>
      if Ascii.eqb c "."%char then EmptyString :: split_dots s
      else match split_dots s with
           | [] => [String c EmptyString]
           | w :: ws => String c w :: ws
           end
  end.

(** The loop of [_resolve]; [None] is [_MISSING]. *)
Fixpoint resolve_parts (current : json) (parts : list string) : option json :=
  match parts with
  | [] => Some current
  | part :: parts =>
      match current with
      | JObj members =>
          match assoc part members with
          | Some next => resolve_parts next parts
          | None => None
          end
      | _ => None
      end
  end.

Definition resolve (root : json) (path : string) : option json :=
  resolve_parts root (split_dots path).

(** [_ordered]: [isinstance] tests on the left operand's type, in the source's
    order; a [bool] on either side is refused first. *)
Definition ordered (left right : json) (greater : bool) : bool :=
  let pick (c : comparison) : bool :=
    match c with Gt => greater | Lt => negb greater | Eq => false end in
  match left, right with
  | JBool _, _ | _, JBool _ => false
  | JInt a, JInt b => pick (Z.compare a b)
  | JFloat m1 e1, JFloat m2 e2 => pick (dyadic_compare m1 e1 m2 e2)
  | JStr s, JStr t => pick (String.compare s t)
  | _, _ => false
  end.

Definition evaluate_condition (condition : ConditionStepConfig)
    (workflow_input : json) (step_outputs : list (string * json)) : bool :=
  let root := JObj [("input", workflow_input); ("steps", JObj step_outputs)] in
  let found := resolve root (path condition) in
  match operator condition with
  | ConditionOperator.EXISTS => match found with Some _ => true | None => false end
  | ConditionOperator.NOT_EXISTS => match found with Some _ => false | None => true end
  | op =>
      match found with
      | None => false
      | Some v =>
          let expected := value condition in
          match op with
          | ConditionOperator.EQUALS => py_eq v expected
          | ConditionOperator.NOT_EQUALS => negb (py_eq v expected)
          | ConditionOperator.IN =>
              match expected with JArr l => existsb (py_eq v) l | _ => false end
          | ConditionOperator.NOT_IN =>
              match expected with JArr l => negb (existsb (py_eq v) l) | _ => false end
          | ConditionOperator.GREATER_THAN => ordered v expected true
          | ConditionOperator.LESS_THAN => ordered v expected false
          | ConditionOperator.EXISTS | ConditionOperator.NOT_EXISTS => false
          end
      end
  end.

(** The validator [ConditionStepConfig._coherent]. *)
Definition coherent_condition (c : ConditionStepConfig) : bool :=
  match operator c with
  | ConditionOperator.EXISTS | ConditionOperator.NOT_EXISTS =>
      match value c with JNull => true | _ => false end
  | _ => match value c with JNull => false | _ => true end
  end &&
  bool_decide (Forall (λ k, k ∉ else_steps c) (then_steps c)).

Definition with_operator (c : ConditionStepConfig) (op : ConditionOperator) : ConditionStepConfig :=
  {| path := path c; operator := op; value := value c;
     then_steps := then_steps c; else_steps := else_steps c |}.

(** Whether a key contains a dot ([StepKey] allows them, a [ContextPath] segment
    does not). *)
Fixpoint has_dot (s : string) : bool :=
  match s with
  | EmptyString => false
  | String c s => Ascii.eqb c "."%char || has_dot s
  end.

(** The operand types [_ordered] compares: two ints, two floats or two strings. *)
Definition same_kind (left right : json) : bool :=
  match left, right with
  | JInt _, JInt _ | JFloat _ _, JFloat _ _ | JStr _, JStr _ => true
  | _, _ => false
  end.

(** ** Theorems *)

Lemma split_dots_no_dot s : Forall (λ w, has_dot w = false) (split_dots s).
Proof.
  induction s as [|c s IH]; simpl; [by repeat constructor|].
  destruct (Ascii.eqb c "."%char) eqn:Hc; [by constructor|].
  destruct (split_dots s) as [|w ws]; [by repeat constructor; simpl; rewrite Hc|].
  inversion IH; subst. constructor; [|done]. simpl. by rewrite Hc.
Qed.

Lemma split_dots_not_nil s : split_dots s ≠ [].
Proof. destruct s as [|c s]; simpl; [done|]. by destruct (Ascii.eqb _ _), (split_dots s). Qed.

Lemma assoc_filter {A} (P : string → bool) k (l : list (string * A)) :
  P k = true → assoc k (filter (λ kv, P kv.1 = true) l) = assoc k l.
Proof.
  intros HPk. induction l as [|[k' a] l IH]; [done|]. rewrite filter_cons. simpl.
  destruct (String.eqb_spec k k') as [<-|Hne].
  - rewrite decide_True by done. simpl. by rewrite String.eqb_refl.
  - destruct (decide (P k' = true)); simpl; [|done].
    by rewrite (proj2 (String.eqb_neq _ _) Hne).
Qed.

Lemma pick_exclusive (c : comparison) :
  match c with Gt => true | Lt => false | Eq => false end = true →
  match c with Gt => false | Lt => true | Eq => false end = true → False.
Proof. by destruct c. Qed.

Lemma ordered_exclusive l r : ordered l r true = true → ordered l r false = true → False.
Proof. destruct l, r; simpl; try done; apply pick_exclusive. Qed.

Definition exactly_one (a b c : bool) : Prop :=
  (a = true ∧ b = false ∧ c = false) ∨ (a = false ∧ b = true ∧ c = false) ∨
  (a = false ∧ b = false ∧ c = true).

Lemma string_compare_refl s : String.compare s s = Eq.
Proof.
  induction s as [|c s IH]; simpl; [done|].
  unfold Ascii.compare. by rewrite N.compare_refl.
Qed.

Lemma string_compare_eqb s t :
  match String.compare s t with Eq => true | _ => false end = String.eqb s t.
Proof.
  destruct (String.eqb_spec s t) as [->|Hne]; [by rewrite string_compare_refl|].
  destruct (String.compare s t) eqn:E; try done. by apply String.compare_eq_iff in E.
Qed.

(** The ordering operators on operands of one kind (two ints, two floats,
    two strings) are a strict total order compatible with [==]: exactly one of
    [>], [<] and [==] holds. On every other pair of operands, an int against a
    float included, both operators answer [False] whatever the values. *)
Theorem ordered_spec (l r : json) :
  if same_kind l r then exactly_one (ordered l r true) (ordered l r false) (py_eq l r)
  else ordered l r true = false ∧ ordered l r false = false.
Proof.
  unfold exactly_one. destruct l, r; simpl; try done.
  - unfold dyadic_compare. simpl. rewrite !Z.mul_1_r.
    destruct (Z.compare z z0); naive_solver.
  - destruct (dyadic_compare m e m0 e0); naive_solver.
  - rewrite <- string_compare_eqb. destruct (String.compare s s0); naive_solver.
Qed.

(** The operators of a condition are coherent for every path and operand:
    NOT_EXISTS is the negation of EXISTS; on a missing value every other operator
    answers [False]; on a present one NOT_EQUALS negates EQUALS, NOT_IN negates IN
    over a list operand, and GREATER_THAN and LESS_THAN are never both true. *)
Theorem condition_operators_coherent (c : ConditionStepConfig) (input : json)
    (outputs : list (string * json)) :
  let ev op := evaluate_condition (with_operator c op) input outputs in
  ev ConditionOperator.NOT_EXISTS = negb (ev ConditionOperator.EXISTS) ∧
  (ev ConditionOperator.EXISTS = false →
     ∀ op, op ≠ ConditionOperator.NOT_EXISTS → ev op = false) ∧
  (ev ConditionOperator.EXISTS = true →
     ev ConditionOperator.NOT_EQUALS = negb (ev ConditionOperator.EQUALS) ∧
     (∀ l, value c = JArr l →
        ev ConditionOperator.NOT_IN = negb (ev ConditionOperator.IN)) ∧
     (ev ConditionOperator.GREATER_THAN = true → ev ConditionOperator.LESS_THAN = false)).
Proof.
  unfold evaluate_condition; simpl.
  destruct (resolve _ (path c)) as [v|]; simpl; repeat split_and; try done.
  - intros _. repeat split_and; [done| |].
    + by intros l ->.
    + intros Hgt. apply not_true_iff_false. intros Hlt. by eapply ordered_exclusive.
  - by intros _ [].
Qed.

(** The output of a step whose key contains a dot is invisible to every
    condition path into [steps]: resolution splits the path at dots, so removing
    all such outputs changes nothing. *)
Theorem dotted_step_outputs_invisible (p : string) (input : json)
    (outputs : list (string * json)) :
  let root outs := JObj [("input", input); ("steps", JObj outs)] in
  resolve (root outputs) ("steps." ++ p) =
  resolve (root (filter (λ kv, negb (has_dot kv.1) = true) outputs)) ("steps." ++ p).
Proof.
  intros root. unfold resolve, root.
  change (split_dots ("steps." ++ p)) with ("steps"%string :: split_dots p).
  destruct (split_dots p) as [|w ws] eqn:Hp; [by apply split_dots_not_nil in Hp|].
  cbn [resolve_parts assoc String.eqb Ascii.eqb Bool.eqb].
  rewrite (assoc_filter (λ k, negb (has_dot k))); [done|].
  pose proof (split_dots_no_dot p) as Hf. rewrite Hp in Hf.
  inversion Hf as [|? ? Hw]; subst. by rewrite Hw.
Qed.
