(* ===== verification/WorkflowGraph.v ===== *)
(** * WorkflowGraph: workflow definitions and their dependency graph

    The step specifications of [workflows/entities.py] with their Pydantic
    validators, and [validate_workflow_graph], the check every definition passes
    before it is stored or published. The order it returns is the topological
    order the repository writes with a published version. *)

From S2P Require Import Prelude.
From S2P Require Import Errors.
From S2P Require Import Lifecycles.
From S2P Require Import Conditions.

(** ** Step specifications *)

Module WorkflowStepType.
Inductive WorkflowStepType : Type := TOOL | AGENT | CONDITION | NOOP.
End WorkflowStepType.
Abbreviation WorkflowStepType := WorkflowStepType.WorkflowStepType.
#[export] Instance WorkflowStepType_eq : EqDecision WorkflowStepType.
Proof. solve_decision. Defined.

Record RetryPolicy : Type := {
  max_attempts : Z;
  retryable_codes : list string;
}.

(** The field constraint [Field(ge=1, le=16)]. *)
Definition retry_valid (r : RetryPolicy) : bool :=
  (1 <=? max_attempts r) && (max_attempts r <=? 16).

Record ToolStepConfig : Type := {
  tool_key : string;
  arguments : list (string * json);
}.

Record AgentStepConfig : Type := {
  agent_id : uuid;
  prompt : string;
}.

Record NoopStepConfig : Type := {
  noop_output : list (string * json);
}.

(** The discriminated union [StepConfig]. *)
Inductive StepConfig : Type :=
| ToolConfig (c : ToolStepConfig)
| AgentConfig (c : AgentStepConfig)
| ConditionConfig (c : ConditionStepConfig)
| NoopConfig (c : NoopStepConfig).

Definition config_kind (c : StepConfig) : WorkflowStepType :=
  match c with
  | ToolConfig _ => WorkflowStepType.TOOL
  | AgentConfig _ => WorkflowStepType.AGENT
  | ConditionConfig _ => WorkflowStepType.CONDITION
  | NoopConfig _ => WorkflowStepType.NOOP
  end.

Record WorkflowStepSpec : Type := {
  key : string;
  step_type : WorkflowStepType;
  depends_on : list string;
  dependency_mode : DependencyMode;
  config : StepConfig;
  retry : RetryPolicy;
}.

(** The model validator [WorkflowStepSpec._matching_type]. *)
Definition matching_type (s : WorkflowStepSpec) : bool :=
  bool_decide (step_type s = config_kind (config s)) &&
  bool_decide (key s ∉ depends_on s) &&
  bool_decide (NoDup (depends_on s)) &&
  negb (bool_decide (dependency_mode s = DependencyMode.ANY) &&
        (length (depends_on s) <? 2)%nat).

(** Everything Pydantic checks of a step before the graph is looked at. *)
Definition spec_valid (s : WorkflowStepSpec) : bool :=
  matching_type s && retry_valid (retry s) &&
  match config s with ConditionConfig c => coherent_condition c | _ => true end.

(** ** [validate_workflow_graph] *)

Abbreviation InvalidDefinition := (Nxs (WorkflowErr WorkflowInvalidDefinitionError)).

(** [next(candidate for candidate in steps if candidate.key == branch)] *)
Definition find_step (steps : list WorkflowStepSpec) (k : string) : option WorkflowStepSpec :=
  List.find (λ s, String.eqb (key s) k) steps.

Definition check_branch (steps : list WorkflowStepSpec) (s : WorkflowStepSpec)
    (branch : string) : result exn unit :=
  match find_step steps branch with
  | None => Err StopIteration
  | Some target =>
      if bool_decide (key s ∈ depends_on target) then Ok tt else Err InvalidDefinition
  end.

(** The body of the first loop, for one step. *)
Definition check_step (steps : list WorkflowStepSpec) (known : list string)
    (s : WorkflowStepSpec) : result exn unit :=
  if bool_decide (Forall (λ d, d ∈ known) (depends_on s)) then
    match config s with
    | ConditionConfig c =>
        if bool_decide (Forall (λ b, b ∈ known) (then_steps c ++ else_steps c)) then
          iterM (check_branch steps s) (then_steps c ++ else_steps c)
        else Err InvalidDefinition
    | _ => Ok tt
    end
  else Err InvalidDefinition.

(** [indegree = {step.key: len(step.depends_on) for step in steps}] *)
Definition indegree_of (steps : list WorkflowStepSpec) : gmap string Z :=
  list_to_map (map (λ s, (key s, Z.of_nat (length (depends_on s)))) steps).

(** [children[dependency].append(step.key)] *)
Definition add_child (child : string) (children : gmap string (list string))
    (dependency : string) : result exn (gmap string (list string)) :=
  match children !! dependency with
  | None => Err KeyError
  | Some l => Ok (<[dependency := l ++ [child]]> children)
  end.

Definition children_of (steps : list WorkflowStepSpec)
    : result exn (gmap string (list string)) :=
  foldM (λ children s, foldM (add_child (key s)) (depends_on s) children) steps
    (list_to_map (map (λ s, (key s, [])) steps)).

(** The inner [for child in sorted(children[key])] loop. *)
Fixpoint relax (cs : list string) (ready : list string) (indegree : gmap string Z)
    : result exn (list string * gmap string Z) :=
  match cs with
  | [] => Ok (ready, indegree)
  | c :: cs =>
      match indegree !! c with
      | None => Err KeyError
      | Some d =>
          let indegree := <[c := d - 1]> indegree in
          let ready := if d - 1 =? 0 then merge_sort String.le (ready ++ [c]) else ready in
          relax cs ready indegree
      end
  end.

(** The [while ready] loop. [fuel] bounds its iterations; a step is popped at
    most once, so [length steps] is enough. *)
Fixpoint kahn (fuel : nat) (children : gmap string (list string)) (ready : list string)
    (indegree : gmap string Z) (ordered : list string) : result exn (list string) :=
  match ready with
  | [] => Ok ordered
  | k :: rest =>
      match fuel with
      | O => Err OutOfFuel
      | S fuel =>
          match children !! k with
          | None => Err KeyError
          | Some cs =>
              match relax (merge_sort String.le cs) rest indegree with
              | Err e => Err e
              | Ok (ready, indegree) => kahn fuel children ready indegree (ordered ++ [k])
              end
          end
      end
  end.

Definition validate_workflow_graph (steps : list WorkflowStepSpec) : result exn (list string) :=
  match steps with
  | [] => Err InvalidDefinition
  | _ =>
      if (256 <? Z.of_nat (length steps)) then Err InvalidDefinition
      else
        let keys := map key steps in
        if bool_decide (NoDup keys) then
          match iterM (check_step steps keys) steps with
          | Err e => Err e
          | Ok _ =>
              let indegree := indegree_of steps in
              match children_of steps with
              | Err e => Err e
              | Ok children =>
                  let ready := merge_sort String.le
                    (filter (λ k, indegree !! k = Some 0) keys) in
                  match kahn (length steps) children ready indegree [] with
                  | Err e => Err e
                  | Ok ordered =>
                      if (length ordered =? length steps)%nat then Ok ordered
                      else Err InvalidDefinition
                  end
              end
          end
        else Err InvalidDefinition
  end.

(** ** What a correct graph is

    [graph_ok]: the size, uniqueness and reference conditions; [acyclic]: the
    dependencies admit a rank; [topological]: every step of the order comes after
    all the steps it depends on. *)

Definition branches (s : WorkflowStepSpec) : list string :=
  match config s with
  | ConditionConfig c => then_steps c ++ else_steps c
  | _ => []
  end.

Record graph_ok (steps : list WorkflowStepSpec) : Prop := {
  graph_nonempty : steps ≠ [];
  graph_bounded : Z.of_nat (length steps) ≤ 256;
  graph_keys : NoDup (map key steps);
  graph_deps : ∀ s d, s ∈ steps → d ∈ depends_on s → d ∈ map key steps;
  graph_branches : ∀ s b, s ∈ steps → b ∈ branches s →
    ∃ t, t ∈ steps ∧ key t = b ∧ key s ∈ depends_on t;
}.

Definition acyclic (steps : list WorkflowStepSpec) : Prop :=
  ∃ rank : string → nat, ∀ s d, s ∈ steps → d ∈ depends_on s → (rank d < rank (key s))%nat.

Definition topological (steps : list WorkflowStepSpec) (order : list string) : Prop :=
  ∀ pre k post s, order = pre ++ k :: post → s ∈ steps → key s = k → depends_on s ⊆ pre.

Lemma key_inj steps s t :
  NoDup (map key steps) → s ∈ steps → t ∈ steps → key s = key t → s = t.
Proof.
  induction steps as [|u steps IH]; simpl; [by intros _ ?%not_elem_of_nil|].
  rewrite NoDup_cons, !elem_of_cons. intros [Hu Hnd] [->|Hs] [->|Ht] Heq; auto.
  - contradict Hu. rewrite Heq. by apply list_elem_of_fmap_2.
  - contradict Hu. rewrite <- Heq. by apply list_elem_of_fmap_2.
Qed.

Lemma find_step_spec steps s :
  NoDup (map key steps) → s ∈ steps → find_step steps (key s) = Some s.
Proof.
  intros Hnd Hs. unfold find_step. destruct (List.find _ steps) as [t|] eqn:Hf.
  - apply List.find_some in Hf as [Ht Heq%String.eqb_eq]. f_equal.
    by apply (key_inj steps); [|apply list_elem_of_In| |].
  - apply (List.find_none _ _) with (x := s) in Hf; [|by apply list_elem_of_In].
    by rewrite String.eqb_refl in Hf.
Qed.

Lemma find_step_In steps k s : find_step steps k = Some s → s ∈ steps ∧ key s = k.
Proof. intros [? ?%String.eqb_eq]%List.find_some. by rewrite list_elem_of_In. Qed.

(** The reference checks raise nothing but [WorkflowInvalidDefinitionError], and
    pass exactly when the reference conditions hold. *)
Lemma check_branch_total steps s b :
  b ∈ map key steps →
  check_branch steps s b = Ok tt ∨ check_branch steps s b = Err InvalidDefinition.
Proof.
  intros (t & -> & Ht)%list_elem_of_fmap. unfold check_branch.
  destruct (find_step steps (key t)) as [u|] eqn:Hf; [case_bool_decide; auto|].
  apply (List.find_none _ _) with (x := t) in Hf; [|by apply list_elem_of_In].
  by rewrite String.eqb_refl in Hf.
Qed.

Lemma check_step_total steps s :
  check_step steps (map key steps) s = Ok tt ∨
  check_step steps (map key steps) s = Err InvalidDefinition.
Proof.
  unfold check_step. case_bool_decide as Hdeps; [|by right].
  destruct (config s); auto. case_bool_decide as Hb; [|by right].
  apply iterM_total. intros b Hin. apply check_branch_total.
  rewrite Forall_forall in Hb. auto.
Qed.

Lemma check_branch_Ok steps s b :
  NoDup (map key steps) →
  check_branch steps s b = Ok tt ↔ ∃ t, t ∈ steps ∧ key t = b ∧ key s ∈ depends_on t.
Proof.
  intros Hnd. unfold check_branch. split.
  - destruct (find_step steps b) as [t|] eqn:Hf; [|done].
    apply find_step_In in Hf as [? ?]. case_bool_decide; [eauto|done].
  - intros (t & Ht & <- & Hin). rewrite find_step_spec by done. by rewrite bool_decide_true.
Qed.

Lemma check_step_Ok steps s :
  NoDup (map key steps) →
  check_step steps (map key steps) s = Ok tt ↔
  (∀ d, d ∈ depends_on s → d ∈ map key steps) ∧
  (∀ b, b ∈ branches s → ∃ t, t ∈ steps ∧ key t = b ∧ key s ∈ depends_on t).
Proof.
  intros Hnd. unfold check_step, branches. rewrite <- Forall_forall.
  case_bool_decide as Hdeps; [|naive_solver].
  destruct (config s) as [c|c|c|c];
    try (split; [intros _; split; [done|by intros b ?%not_elem_of_nil]|done]).
  case_bool_decide as Hb.
  - rewrite iterM_Ok, Forall_forall. split.
    + intros Hall. split; [done|]. intros b Hin. by apply check_branch_Ok, Hall.
    + intros [_ Hall] b Hin. by apply check_branch_Ok, Hall.
  - split; [done|]. intros [_ Hall]. contradict Hb. apply Forall_forall. intros b Hin.
    destruct (Hall b Hin) as (t & Ht & <- & _). by apply list_elem_of_fmap_2.
Qed.

(** ** Building the graph *)

Lemma indegree_lookup steps s :
  NoDup (map key steps) → s ∈ steps →
  indegree_of steps !! key s = Some (Z.of_nat (length (depends_on s))).
Proof.
  intros Hnd Hs. apply elem_of_list_to_map_1.
  - by rewrite <- list_fmap_compose.
  - apply list_elem_of_fmap. by exists s.
Qed.

(** The children of [k] after the steps of [done] have been processed: each step
    once per occurrence of [k] among its dependencies. *)
Definition children_after (done : list WorkflowStepSpec) (k : string) : list string :=
  concat (map (λ s, replicate (occ (depends_on s) k) (key s)) done).

Lemma add_children_spec child deps m :
  (∀ d, d ∈ deps → is_Some (m !! d)) →
  ∃ m', foldM (add_child child) deps m = Ok m' ∧
    ∀ k, m' !! k = (λ l, l ++ replicate (occ deps k) child) <$> m !! k.
Proof.
  revert m; induction deps as [|d deps IH]; intros m Hm; simpl.
  - exists m. split; [done|]. intros k. destruct (m !! k); simpl; by rewrite ?app_nil_r.
  - destruct (Hm d) as [l Hl]; [by constructor|]. unfold add_child at 1. rewrite Hl.
    destruct (IH (<[d:=l ++ [child]]> m)) as (m' & -> & Hm').
    { intros k Hk. rewrite lookup_insert. case_decide; [by eexists|]. apply Hm. by constructor. }
    exists m'. split; [done|]. intros k. rewrite Hm', lookup_insert.
    case_decide as Hdk.
    + subst. rewrite Hl. simpl. destruct (String.string_dec k k); [|done].
      simpl. by rewrite <- app_assoc.
    + destruct (String.string_dec d k); [done|]. done.
Qed.

Lemma children_fold_spec (ks : list string) todo done m :
  (∀ s d, s ∈ todo → d ∈ depends_on s → d ∈ ks) →
  (∀ k, k ∈ ks → m !! k = Some (children_after done k)) →
  ∃ m', foldM (λ m s, foldM (add_child (key s)) (depends_on s) m) todo m = Ok m' ∧
    ∀ k, k ∈ ks → m' !! k = Some (children_after (done ++ todo) k).
Proof.
  revert done m; induction todo as [|s todo IH]; intros done m Hks Hm; simpl.
  - exists m. by rewrite app_nil_r.
  - destruct (add_children_spec (key s) (depends_on s) m) as (m1 & -> & Hm1).
    { intros d Hd. rewrite (Hm d); [done|]. apply (Hks s); [by constructor|done]. }
    destruct (IH (done ++ [s]) m1) as (m' & -> & Hm').
    { intros t d ?. apply Hks. by constructor. }
    { intros k Hk. rewrite Hm1, Hm by done. simpl. f_equal.
      unfold children_after. by rewrite map_app, concat_app; simpl; rewrite app_nil_r. }
    exists m'. split; [done|]. intros k Hk. rewrite Hm' by done.
    by rewrite <- app_assoc.
Qed.

Lemma children_of_spec steps :
  graph_ok steps → ∃ children, children_of steps = Ok children ∧
    ∀ k, k ∈ map key steps → children !! k = Some (children_after steps k).
Proof.
  intros Hok. unfold children_of. apply (children_fold_spec (map key steps) steps []).
  - apply (graph_deps _ Hok).
  - intros k (s & -> & Hs)%list_elem_of_fmap. apply elem_of_list_to_map_1.
    + rewrite <- list_fmap_compose. apply (graph_keys _ Hok).
    + apply list_elem_of_fmap. by exists s.
Qed.

Lemma children_after_keys steps k : children_after steps k ⊆ map key steps.
Proof.
  unfold children_after. intros c Hc. apply list_elem_of_In, in_concat in Hc as (l & Hl & Hc).
  apply list_elem_of_In, list_elem_of_fmap in Hl as (s & -> & Hs).
  apply list_elem_of_In, elem_of_replicate in Hc as [-> _]. by apply list_elem_of_fmap_2.
Qed.

Lemma children_after_occ steps s k :
  NoDup (map key steps) → s ∈ steps →
  occ (children_after steps k) (key s) = occ (depends_on s) k.
Proof.
  unfold children_after. induction steps as [|u steps IH]; simpl; [by intros _ ?%not_elem_of_nil|].
  rewrite NoDup_cons, elem_of_cons, count_occ_app, occ_replicate. intros [Hu Hnd] [->|Hs].
  - rewrite String.eqb_refl. enough (occ (children_after steps k) (key u) = 0%nat) as H.
    { unfold children_after in H. lia. }
    apply occ_not_elem_of. by intros ?%children_after_keys.
  - rewrite IH by done. destruct (String.eqb_spec (key u) (key s)) as [Heq|]; [|done].
    contradict Hu. rewrite Heq. by apply list_elem_of_fmap_2.
Qed.

(** ** Kahn's loop *)

Section kahn.
Context (steps : list WorkflowStepSpec) (Hok : graph_ok steps).

(** Dependencies of [s] (with multiplicity) not yet in the order. *)
Definition unmet (ordered : list string) (s : WorkflowStepSpec) : nat :=
  length (filter (λ d, d ∉ ordered) (depends_on s)).

(** The loop invariant. [pending] holds the decrements the inner loop still owes
    for the step popped last; between iterations of the outer loop it is empty. *)
Record kahn_inv (ordered ready : list string) (ind : gmap string Z)
    (pending : list string) : Prop := {
  ki_nodup : NoDup (ordered ++ ready);
  ki_keys : ordered ++ ready ⊆ map key steps;
  ki_ind : ∀ s, s ∈ steps →
    ind !! key s = Some (Z.of_nat (unmet ordered s + occ pending (key s)));
  ki_zero : ∀ s, s ∈ steps →
    key s ∈ ordered ++ ready ↔ (unmet ordered s + occ pending (key s) = 0)%nat;
  ki_topo : topological steps ordered;
}.

Lemma unmet_zero ordered s : unmet ordered s = 0%nat ↔ depends_on s ⊆ ordered.
Proof.
  unfold unmet. rewrite length_zero_iff_nil. split.
  - intros Hf d Hd. apply dec_stable. intros Hn.
    assert (d ∈ filter (λ d, d ∉ ordered) (depends_on s)) as Hin
      by (by apply list_elem_of_filter).
    rewrite Hf in Hin. by apply not_elem_of_nil in Hin.
  - intros Hsub. apply elem_of_nil_inv. intros d [Hn Hd]%list_elem_of_filter.
    by apply Hn, Hsub.
Qed.

Lemma unmet_pop ordered k s :
  k ∉ ordered → unmet ordered s = (unmet (ordered ++ [k]) s + occ (depends_on s) k)%nat.
Proof.
  intros Hk. unfold unmet. induction (depends_on s) as [|d l IH]; [done|].
  rewrite !filter_cons. simpl.
  destruct (String.string_dec d k) as [->|Hdk].
  - rewrite decide_True by done. rewrite decide_False by set_solver. simpl. lia.
  - destruct (decide (d ∉ ordered)).
    + rewrite decide_True by set_solver. simpl. lia.
    + rewrite decide_False by set_solver. lia.
Qed.

Lemma sorted_append ordered ready c :
  ordered ++ merge_sort String.le (ready ++ [c]) ≡ₚ c :: (ordered ++ ready).
Proof. rewrite merge_sort_Permutation. solve_Permutation. Qed.

(** One decrement of the inner loop: the entry of [sc] loses one pending unit,
    every other entry is untouched. *)
Lemma decrement_ind ordered ready ind sc cs :
  sc ∈ steps → kahn_inv ordered ready ind (key sc :: cs) →
  ∀ s, s ∈ steps →
    <[key sc := Z.of_nat (unmet ordered sc + occ cs (key sc))]> ind !! key s =
    Some (Z.of_nat (unmet ordered s + occ cs (key s))).
Proof.
  intros Hsc Hinv s Hs. destruct (decide (key s = key sc)) as [He|He].
  - apply (key_inj _ _ _ (graph_keys _ Hok) Hs Hsc) in He as ->. by rewrite lookup_insert_eq.
  - rewrite lookup_insert_ne, (ki_ind _ _ _ _ Hinv) by done. simpl.
    destruct (String.string_dec (key sc) (key s)); congruence.
Qed.

Lemma decrement_zero ordered ready ind sc cs s :
  sc ∈ steps → kahn_inv ordered ready ind (key sc :: cs) → s ∈ steps →
  if decide (key s = key sc) then s = sc ∧ key s ∉ ordered ++ ready
  else key s ∈ ordered ++ ready ↔ (unmet ordered s + occ cs (key s) = 0)%nat.
Proof.
  intros Hsc Hinv Hs. pose proof (ki_zero _ _ _ _ Hinv s Hs) as Hz. simpl in Hz.
  destruct (String.string_dec (key sc) (key s)) as [He|He], (decide (key s = key sc)) as [He'|He'];
    try congruence.
  split; [by apply (key_inj _ _ _ (graph_keys _ Hok))|]. rewrite Hz. lia.
Qed.

Lemma relax_spec ordered cs : ∀ ready ind,
  cs ⊆ map key steps → kahn_inv ordered ready ind cs →
  ∃ ready' ind', relax cs ready ind = Ok (ready', ind') ∧ kahn_inv ordered ready' ind' [].
Proof.
  induction cs as [|c cs IH]; intros ready ind Hcs Hinv; simpl; [eauto|].
  assert (c ∈ map key steps) as (sc & -> & Hsc)%list_elem_of_fmap by set_solver.
  rewrite (ki_ind _ _ _ _ Hinv sc Hsc). simpl.
  destruct (String.string_dec (key sc) (key sc)) as [_|]; [|done].
  replace (Z.of_nat (unmet ordered sc + S (occ cs (key sc))) - 1)
    with (Z.of_nat (unmet ordered sc + occ cs (key sc))) by lia.
  pose proof (decrement_ind _ _ _ _ _ Hsc Hinv) as Hind.
  pose proof (λ s, decrement_zero _ _ _ _ _ s Hsc Hinv) as Hzero.
  pose proof (Hzero sc Hsc) as Hnot.
  rewrite decide_True in Hnot by done. destruct Hnot as [_ Hnot].
  apply IH; [set_solver|]. destruct Hinv as [Hnd Hkeys _ _ Htopo].
  destruct (Z.eqb_spec (Z.of_nat (unmet ordered sc + occ cs (key sc))) 0) as [Hv|Hv];
    split; try done.
  - rewrite sorted_append. by apply NoDup_cons.
  - rewrite sorted_append. set_solver.
  - intros s Hs. rewrite sorted_append, elem_of_cons. specialize (Hzero s Hs).
    case_decide; [|naive_solver]. destruct Hzero as [-> _]. split; [lia|by left].
  - intros s Hs. specialize (Hzero s Hs). case_decide; [|done].
    destruct Hzero as [-> ?]. split; [done|lia].
Qed.

(** Popping the head of [ready] owes one decrement per edge out of it. *)
Lemma pop_inv ordered k rest ind cs :
  kahn_inv ordered (k :: rest) ind [] → cs ≡ₚ children_after steps k →
  kahn_inv (ordered ++ [k]) rest ind cs.
Proof.
  intros [Hnd Hkeys Hind Hzero Htopo] Hcs.
  assert (Hk : k ∉ ordered).
  { apply NoDup_app in Hnd as (_ & Hd & _). intros Hin. apply (Hd k Hin). by constructor. }
  assert (Hocc : ∀ s, s ∈ steps → (unmet ordered s + occ [] (key s) =
    unmet (ordered ++ [k]) s + occ cs (key s))%nat).
  { intros s Hs. rewrite (unmet_pop ordered k s Hk), <- (children_after_occ steps s k)
      by (done || apply (graph_keys _ Hok)).
    rewrite (proj1 (Permutation_count_occ String.string_dec _ _) Hcs). simpl. lia. }
  split.
  - by rewrite <- app_assoc.
  - by rewrite <- app_assoc.
  - intros s Hs. by rewrite Hind, Hocc.
  - intros s Hs. by rewrite <- app_assoc, Hzero, Hocc.
  - intros pre k' post s Heq Hs <-. destruct post as [|x post _] using rev_ind.
    + apply app_inj_tail in Heq as [<- ->]. apply unmet_zero.
      specialize (Hzero s Hs). simpl in Hzero. rewrite Nat.add_0_r in Hzero.
      apply Hzero. set_solver.
    + rewrite app_comm_cons, app_assoc in Heq. apply app_inj_tail in Heq as [-> _].
      by eapply Htopo.
Qed.

Lemma kahn_spec children : ∀ fuel ready ind ordered,
  (∀ k, k ∈ map key steps → children !! k = Some (children_after steps k)) →
  kahn_inv ordered ready ind [] → (length steps ≤ fuel + length ordered)%nat →
  ∃ order ind', kahn fuel children ready ind ordered = Ok order ∧ kahn_inv order [] ind' [].
Proof.
  induction fuel as [|fuel IH]; intros [|k rest] ind ordered Hch Hinv Hfuel; simpl; eauto.
  - pose proof (NoDup_submseteq_length _ _ (ki_nodup _ _ _ _ Hinv) (ki_keys _ _ _ _ Hinv)) as Hl.
    rewrite length_app, length_map in Hl. simpl in Hl. lia.
  - assert (k ∈ map key steps) as Hk by (apply (ki_keys _ _ _ _ Hinv); set_solver).
    rewrite (Hch k Hk).
    destruct (relax_spec (ordered ++ [k]) (merge_sort String.le (children_after steps k)) rest ind)
      as (ready' & ind' & -> & Hinv').
    + rewrite merge_sort_Permutation. apply children_after_keys.
    + apply pop_inv; [done|]. apply merge_sort_Permutation.
    + apply IH; [done|done|]. rewrite length_app. simpl. lia.
Qed.

Lemma initial_inv :
  kahn_inv [] (merge_sort String.le (filter (λ k, indegree_of steps !! k = Some 0) (map key steps)))
    (indegree_of steps) [].
Proof.
  assert (Hlen : ∀ s, unmet [] s = length (depends_on s)).
  { intros s. unfold unmet. induction (depends_on s) as [|d l IH]; [done|].
    rewrite filter_cons_True by apply not_elem_of_nil. cbn [length]. f_equal. exact IH. }
  split; simpl; rewrite ?merge_sort_Permutation.
  - apply NoDup_filter, (graph_keys _ Hok).
  - by intros k [_ ?]%list_elem_of_filter.
  - intros s Hs. rewrite indegree_lookup, Hlen, Nat.add_0_r by (done || apply (graph_keys _ Hok)).
    done.
  - intros s Hs. rewrite merge_sort_Permutation, list_elem_of_filter.
    rewrite indegree_lookup, Hlen, Nat.add_0_r by (done || apply (graph_keys _ Hok)).
    split; [intros [[= ?] _]; lia|]. intros ->. split; [done|]. by apply list_elem_of_fmap_2.
  - by intros [].
Qed.

(** Progress: with no step left to pop, an acyclic graph is fully ordered. *)
Lemma exhausted_complete order ind :
  kahn_inv order [] ind [] → acyclic steps → map key steps ⊆ order.
Proof.
  intros Hinv [rank Hrank] k (s & -> & Hs)%list_elem_of_fmap.
  remember (rank (key s)) as n eqn:Hn. revert s Hs Hn.
  induction (lt_wf n) as [n _ IH]. intros s Hs ->.
  rewrite <- (app_nil_r order). apply (ki_zero _ _ _ _ Hinv s Hs). simpl. rewrite Nat.add_0_r.
  apply unmet_zero. intros d Hd.
  destruct (proj1 (list_elem_of_fmap _ _ _) (graph_deps _ Hok s d Hs Hd)) as (t & -> & Ht).
  apply (IH (rank (key t))); [by apply Hrank|done|done].
Qed.

Lemma complete_length order ind :
  kahn_inv order [] ind [] →
  length order = length steps ↔ map key steps ⊆ order.
Proof.
  intros [Hnd Hkeys _ _ _]. rewrite app_nil_r in Hnd, Hkeys. split.
  - intros Hlen. apply NoDup_submseteq in Hkeys; [|done].
    assert (order ≡ₚ map key steps) as ->; [|done].
    apply submseteq_length_Permutation; [done|]. rewrite length_map. lia.
  - intros Hsub.
    pose proof (NoDup_submseteq_length _ _ Hnd Hkeys).
    pose proof (NoDup_submseteq_length _ _ (graph_keys _ Hok) Hsub).
    rewrite length_map in *. lia.
Qed.

Lemma order_permutation order ind :
  kahn_inv order [] ind [] → map key steps ⊆ order → order ≡ₚ map key steps.
Proof.
  intros [Hnd Hkeys _ _ _] Hsub. rewrite app_nil_r in Hnd, Hkeys.
  apply NoDup_Permutation; [done|apply (graph_keys _ Hok)|]. set_solver.
Qed.

(** The loops run to the end on every well-formed graph: no lookup fails and the
    fuel suffices. *)
Lemma validate_runs :
  ∃ order ind, kahn_inv order [] ind [] ∧
    validate_workflow_graph steps =
      if (length order =? length steps)%nat then Ok order else Err InvalidDefinition.
Proof.
  destruct (children_of_spec steps Hok) as (children & Hch & Hlookup).
  destruct (kahn_spec children (length steps) _ _ [] Hlookup initial_inv) as (order & ind & Hk & Hinv);
    [simpl; lia|].
  exists order, ind. split; [done|]. unfold validate_workflow_graph.
  destruct steps as [|s0 ss] eqn:Hsteps; [by destruct (graph_nonempty _ Hok)|].
  rewrite <- Hsteps in *. pose proof (graph_bounded _ Hok).
  rewrite (proj2 (Z.ltb_ge _ _)) by done. rewrite bool_decide_true by apply (graph_keys _ Hok).
  assert (iterM (check_step steps (map key steps)) steps = Ok tt) as ->.
  { apply iterM_Ok, Forall_forall. intros s Hs. apply check_step_Ok; [apply (graph_keys _ Hok)|].
    split; [intros d; by apply (graph_deps _ Hok)|intros b; by apply (graph_branches _ Hok)]. }
  by rewrite Hch, Hk.
Qed.

End kahn.

(** ** Correctness of [validate_workflow_graph] *)

Lemma topological_acyclic steps order :
  order ≡ₚ map key steps → NoDup (map key steps) → topological steps order → acyclic steps.
Proof.
  intros Hp Hnd Htopo. exists (λ k, index_of k order). intros s d Hs Hd.
  assert (key s ∈ order) as (pre & post & ->)%list_elem_of_split
    by (rewrite Hp; by apply list_elem_of_fmap_2).
  rewrite <- Hp in Hnd. apply NoDup_app in Hnd as (_ & Hdisj & _).
  rewrite (index_of_app_notin (key s)); [|intros Hin; apply (Hdisj _ Hin); by constructor].
  apply index_of_app_in. by eapply Htopo.
Qed.

Lemma not_graph_ok_rejected steps :
  graph_ok steps ∨ validate_workflow_graph steps = Err InvalidDefinition.
Proof.
  unfold validate_workflow_graph. destruct steps as [|s0 ss] eqn:Hsteps; [by right|].
  rewrite <- Hsteps in *. destruct (Z.ltb_spec 256 (Z.of_nat (length steps))); [by right|].
  case_bool_decide as Hnd; [|by right].
  destruct (iterM_total (check_step steps (map key steps)) steps InvalidDefinition) as [Hc|Hc].
  { intros s _. apply check_step_total. }
  - left. rewrite iterM_Ok, Forall_forall in Hc. split; try done; [by rewrite Hsteps| |].
    + intros s d Hs. by apply check_step_Ok, Hc.
    + intros s b Hs. by apply check_step_Ok, Hc.
  - right. by rewrite Hc.
Qed.

Lemma validate_decides (steps : list WorkflowStepSpec) :
  match validate_workflow_graph steps with
  | Ok _ => graph_ok steps ∧ acyclic steps
  | Err e => e = InvalidDefinition ∧ ¬ (graph_ok steps ∧ acyclic steps)
  end.
Proof.
  destruct (not_graph_ok_rejected steps) as [Hok|Hrej].
  - destruct (validate_runs steps Hok) as (order & ind & Hinv & ->).
    destruct (Nat.eqb_spec (length order) (length steps)) as [Hlen|Hlen].
    + split; [done|]. apply (complete_length steps Hok _ _ Hinv) in Hlen.
      apply (topological_acyclic _ order); [by eapply order_permutation|apply (graph_keys _ Hok)|].
      apply (ki_topo _ _ _ _ _ Hinv).
    + split; [done|]. intros [_ Hacyc]. apply Hlen, (complete_length steps Hok _ _ Hinv).
      by eapply exhausted_complete.
  - rewrite Hrej. split; [done|]. intros [Hok Hacyc].
    destruct (validate_runs steps Hok) as (order & ind & Hinv & Hrun).
    rewrite Hrej in Hrun. destruct (Nat.eqb_spec (length order) (length steps)) as [|Hlen]; [done|].
    apply Hlen, (complete_length steps Hok _ _ Hinv). by eapply exhausted_complete.
Qed.

Lemma validate_order steps order :
  validate_workflow_graph steps = Ok order →
  order ≡ₚ map key steps ∧ topological steps order.
Proof.
  intros Hv. destruct (not_graph_ok_rejected steps) as [Hok|Hrej]; [|congruence].
  destruct (validate_runs steps Hok) as (order' & ind & Hinv & Hrun). rewrite Hv in Hrun.
  destruct (Nat.eqb_spec (length order') (length steps)) as [Hlen|]; [|done].
  injection Hrun as <-. apply (complete_length steps Hok _ _ Hinv) in Hlen.
  split; [by eapply order_permutation|apply (ki_topo _ _ _ _ _ Hinv)].
Qed.

Lemma validate_graph_ok steps order :
  validate_workflow_graph steps = Ok order → graph_ok steps ∧ acyclic steps.
Proof. intros Hv. pose proof (validate_decides steps). by rewrite Hv in *. Qed.

(** C1. [validate_workflow_graph] decides well-formedness: on every list of steps
    it terminates; it accepts exactly the graphs that are non-empty, at most 256
    steps, uniquely keyed, closed under dependencies and condition branches and
    acyclic; and every other list is refused with
    [WorkflowInvalidDefinitionError], never with a lookup error. *)
Theorem validate_workflow_graph_decides (steps : list WorkflowStepSpec) :
  match validate_workflow_graph steps with
  | Ok _ => graph_ok steps ∧ acyclic steps
  | Err e => e = InvalidDefinition ∧ ¬ (graph_ok steps ∧ acyclic steps)
  end.
Proof. apply validate_decides. Qed.

(** The order an accepted graph is given lists every step exactly once, each
    after all the steps it depends on. *)
Theorem validate_workflow_graph_order (steps : list WorkflowStepSpec) (order : list string) :
  validate_workflow_graph steps = Ok order →
  order ≡ₚ map key steps ∧ NoDup order ∧ topological steps order.
Proof.
  intros Hv. destruct (validate_order _ _ Hv) as [Hp Htopo].
  split; [done|]. split; [|done]. rewrite Hp.
  by apply graph_keys, (validate_graph_ok _ order).
Qed.

(** ** Examples *)

Definition noop_step (k : string) (deps : list string) : WorkflowStepSpec := {|
  key := k; step_type := WorkflowStepType.NOOP; depends_on := deps;
  dependency_mode := DependencyMode.ALL; config := NoopConfig {| noop_output := [] |};
  retry := {| max_attempts := 1; retryable_codes := [] |} |}.

Definition diamond : list WorkflowStepSpec :=
  [noop_step "d" ["b"; "c"]; noop_step "b" ["a"]; noop_step "c" ["a"]; noop_step "a" []].

Lemma validate_workflow_graph_order_witness :
  validate_workflow_graph diamond = Ok ["a"; "b"; "c"; "d"]%string ∧
  (["a"; "b"; "c"; "d"]%string ≡ₚ map key diamond ∧ NoDup ["a"; "b"; "c"; "d"]%string ∧
   topological diamond ["a"; "b"; "c"; "d"]%string).
Proof.
  split; [vm_compute; reflexivity|].
  apply (validate_workflow_graph_order diamond). vm_compute. reflexivity.
Defined.

Example cycle_rejected :
  validate_workflow_graph [noop_step "a" ["b"]; noop_step "b" ["a"]] = Err InvalidDefinition.
Proof. vm_compute. reflexivity. Qed.
