(* ===== verification/ScheduleSpec.v ===== *)
(** * ScheduleSpec: the vocabulary of schedules

    The enumerations and the recurrence specification of [scheduler/entities.py]
    with the validator of [RecurrenceSpec], and the slot a recurrence yields
    ([scheduler/recurrence.py]). Instants are microseconds since
    1970-01-01T00:00Z; a naive local time is the same count on the local clock
    face, so local = UTC + offset. *)

From S2P Require Import Prelude.

Module ScheduleType.
Inductive ScheduleType : Type := ONE_TIME | RECURRING.
End ScheduleType.
Abbreviation ScheduleType := ScheduleType.ScheduleType.

Module RecurrenceFrequency.
Inductive RecurrenceFrequency : Type := MINUTELY | HOURLY | DAILY | WEEKLY | MONTHLY.
End RecurrenceFrequency.
Abbreviation RecurrenceFrequency := RecurrenceFrequency.RecurrenceFrequency.

Module MisfirePolicy.
Inductive MisfirePolicy : Type := SKIP | FIRE_ONCE | CATCH_UP_BOUNDED.
End MisfirePolicy.
Abbreviation MisfirePolicy := MisfirePolicy.MisfirePolicy.

#[export] Instance ScheduleType_eq : EqDecision ScheduleType.
Proof. solve_decision. Defined.
#[export] Instance RecurrenceFrequency_eq : EqDecision RecurrenceFrequency.
Proof. solve_decision. Defined.
#[export] Instance MisfirePolicy_eq : EqDecision MisfirePolicy.
Proof. solve_decision. Defined.

(** Microseconds. *)
Definition SECOND : Z := 1000000.
Definition MINUTE : Z := 60 * SECOND.
Definition HOUR : Z := 60 * MINUTE.
Definition DAY : Z := 24 * HOUR.

(** [local_time] is a naive [dt.time]: microseconds since midnight. *)
Record RecurrenceSpec : Type := {
  frequency : RecurrenceFrequency;
  interval : Z;
  weekdays : list Z;
  month_days : list Z;
  local_time : option Z;
}.
#[export] Instance RecurrenceSpec_eq : EqDecision RecurrenceSpec.
Proof. solve_decision. Defined.

Definition is_nil {A} (l : list A) : bool := match l with [] => true | _ => false end.

Definition is_none {A} (o : option A) : bool := match o with None => true | _ => false end.

(** The field bounds of [RecurrenceSpec] ([dt.time] holds a time of day). *)
Definition recurrence_fields (r : RecurrenceSpec) : bool :=
  (1 <=? interval r) && (interval r <=? 10000) &&
  forallb (λ d, (0 <=? d) && (d <=? 6)) (weekdays r) &&
  forallb (λ d, (1 <=? d) && (d <=? 31)) (month_days r) &&
  match local_time r with None => true | Some t => (0 <=? t) && (t <? DAY) end.

(** The model validator [RecurrenceSpec._coherent]. *)
Definition recurrence_coherent (r : RecurrenceSpec) : bool :=
  bool_decide (NoDup (weekdays r)) && bool_decide (NoDup (month_days r)) &&
  match frequency r with
  | RecurrenceFrequency.MINUTELY | RecurrenceFrequency.HOURLY =>
      is_nil (weekdays r) && is_nil (month_days r) && is_none (local_time r)
  | RecurrenceFrequency.DAILY =>
      negb (is_none (local_time r)) && is_nil (weekdays r) && is_nil (month_days r)
  | RecurrenceFrequency.WEEKLY =>
      negb (is_none (local_time r)) && negb (is_nil (weekdays r)) && is_nil (month_days r)
  | RecurrenceFrequency.MONTHLY =>
      negb (is_none (local_time r)) && negb (is_nil (month_days r)) && is_nil (weekdays r)
  end.

Definition recurrence_valid (r : RecurrenceSpec) : bool :=
  recurrence_fields r && recurrence_coherent r.

Record TemporalSlot : Type := {
  intended_local_time : Z;
  scheduled_for : Z;
  utc_offset_seconds : Z;
  fold : Z;
  nonexistent : bool;
}.
