(* ===== verification/Calendar.v ===== *)
(** * Calendar: Python's naive [datetime] and [date]

    The proleptic Gregorian calendar of [datetime] and [calendar], as the scheduler
    uses it ([scheduler/recurrence.py]): the ordinal of a date and its inverse by
    CPython's algorithm, weekdays, month lengths, range-checked addition of a
    [timedelta] and [datetime.replace]. A naive datetime is a count of
    microseconds since 1970-01-01T00:00 on the local clock face; a date is its
    ordinal (day 1 is 0001-01-01, a Monday). The lemmas show the two directions of
    the date conversion inverse and dates ordered as (month, day). *)

From S2P Require Import Prelude.
From S2P Require Import Errors.
From S2P Require Import ScheduleSpec.

(** ** Dates *)

Definition is_leap (y : Z) : bool :=
  (y mod 4 =? 0) && (negb (y mod 100 =? 0) || (y mod 400 =? 0)).

(** Days before January 1st of year [y]. *)
Definition days_before_year (y : Z) : Z :=
  let y := y - 1 in y * 365 + y / 4 - y / 100 + y / 400.

(** [calendar.monthrange(y, m)[1]] *)
Definition days_in_month (y m : Z) : Z :=
  if m =? 2 then (if is_leap y then 29 else 28)
  else if (m =? 4) || (m =? 6) || (m =? 9) || (m =? 11) then 30 else 31.

(** [_DAYS_BEFORE_MONTH]: in a common year. *)
Definition common_days_before_month (m : Z) : Z :=
  match m with
  | 0 => -1 | 1 => 0 | 2 => 31 | 3 => 59 | 4 => 90 | 5 => 120 | 6 => 151 | 7 => 181
  | 8 => 212 | 9 => 243 | 10 => 273 | 11 => 304 | _ => 334
  end.

Definition days_before_month (y m : Z) : Z :=
  common_days_before_month m + (if (2 <? m) && is_leap y then 1 else 0).

Definition ymd2ord (y m d : Z) : Z := days_before_year y + days_before_month y m + d.

(** The month and day of the zero-based day [n] of a year. *)
Definition month_day (leap : bool) (n : Z) : Z * Z :=
  let month := Z.shiftr (n + 50) 5 in
  let preceding := common_days_before_month month +
    (if (2 <? month) && leap then 1 else 0) in
  if n <? preceding
  then let month := month - 1 in
       let preceding := preceding -
         (if month =? 2 then (if leap then 29 else 28)
          else if (month =? 4) || (month =? 6) || (month =? 9) || (month =? 11) then 30 else 31) in
       (month, n - preceding + 1)
  else (month, n - preceding + 1).

(** [_ord2ymd] *)
Definition ord2ymd (n : Z) : Z * Z * Z :=
  let n := n - 1 in
  let n400 := n / 146097 in let n := n mod 146097 in
  let n100 := n / 36524 in let n := n mod 36524 in
  let n4 := n / 1461 in let n := n mod 1461 in
  let n1 := n / 365 in let n := n mod 365 in
  let year := n400 * 400 + 1 + n100 * 100 + n4 * 4 + n1 in
  if (n1 =? 4) || (n100 =? 4) then (year - 1, 12, 31)
  else
    let leap := (n1 =? 3) && (negb (n4 =? 24) || (n100 =? 3)) in
    let '(m, d) := month_day leap n in (year, m, d).

Definition valid_ymd (y m d : Z) : bool :=
  (1 <=? m) && (m <=? 12) && (1 <=? d) && (d <=? days_in_month y m).

(** ** Naive datetimes *)

(** The ordinal of 1970-01-01. *)
Definition EPOCH_ORDINAL : Z := 719163.

Definition MAX_ORDINAL : Z := 3652059.

(** [datetime.min] and [datetime.max] *)
Definition in_range (t : Z) : bool :=
  ((1 - EPOCH_ORDINAL) * DAY <=? t) && (t <? (MAX_ORDINAL + 1 - EPOCH_ORDINAL) * DAY).

(** [t + timedelta]: OverflowError outside [datetime.min .. datetime.max]. *)
Definition dt_add (t delta : Z) : result exn Z :=
  if in_range (t + delta) then Ok (t + delta) else Err OverflowError.

(** [t.date().toordinal()], [t.time()] and [datetime.combine]. *)
Definition ordinal (t : Z) : Z := t / DAY + EPOCH_ORDINAL.

Definition time_of (t : Z) : Z := t mod DAY.

Definition combine (ord time : Z) : Z := (ord - EPOCH_ORDINAL) * DAY + time.

(** [date.weekday()]: Monday is 0. *)
Definition weekday_of (ord : Z) : Z := (ord + 6) mod 7.

Definition weekday (t : Z) : Z := weekday_of (ordinal t).

(** The ordinal of the Monday of the week: [t.date() - timedelta(days=t.weekday())].
    0001-01-01 is a Monday, so the subtraction never leaves the range. *)
Definition week_of (t : Z) : Z := ordinal t - weekday t.

Definition ymd (t : Z) : Z * Z * Z := ord2ymd (ordinal t).

Definition year (t : Z) : Z := fst (fst (ymd t)).

Definition month (t : Z) : Z := snd (fst (ymd t)).

Definition day (t : Z) : Z := snd (ymd t).

(** [t.replace(year=y, month=m, day=d)] *)
Definition dt_replace (t y m d : Z) : result exn Z :=
  if (1 <=? y) && (y <=? 9999) && valid_ymd y m d
  then Ok (combine (ymd2ord y m d) (time_of t)) else Err ValueError.

(** ** The year part *)

Lemma split_year a b c d :
  0 ≤ b ≤ 3 → 0 ≤ c ≤ 24 → 0 ≤ d ≤ 3 →
  let y := 400 * a + 100 * b + 4 * c + d in
  y / 4 = 100 * a + 25 * b + c ∧ y / 100 = 4 * a + b ∧ y / 400 = a ∧
  (y + 1) mod 4 = (if d =? 3 then 0 else d + 1) ∧
  ((y + 1) mod 100 = 0 ↔ c = 24 ∧ d = 3) ∧ ((y + 1) mod 400 = 0 ↔ b = 3 ∧ c = 24 ∧ d = 3).
Proof.
  intros Hb Hc Hd y. subst y.
  repeat split; try (intros; lia); try (Z.to_euclidean_division_equations; lia).
  destruct (Z.eqb_spec d 3); Z.to_euclidean_division_equations; lia.
Qed.

Lemma dby_split a b c d :
  0 ≤ b ≤ 3 → 0 ≤ c ≤ 24 → 0 ≤ d ≤ 3 →
  days_before_year (400 * a + 100 * b + 4 * c + d + 1) =
  146097 * a + 36524 * b + 1461 * c + 365 * d.
Proof.
  intros Hb Hc Hd. destruct (split_year a b c d Hb Hc Hd) as (H4 & H100 & H400 & _).
  unfold days_before_year.
  replace (400 * a + 100 * b + 4 * c + d + 1 - 1) with (400 * a + 100 * b + 4 * c + d) by lia.
  rewrite H4, H100, H400. lia.
Qed.

Lemma leap_split a b c d :
  0 ≤ b ≤ 3 → 0 ≤ c ≤ 24 → 0 ≤ d ≤ 3 →
  is_leap (400 * a + 100 * b + 4 * c + d + 1) = (d =? 3) && (negb (c =? 24) || (b =? 3)).
Proof.
  intros Hb Hc Hd. destruct (split_year a b c d Hb Hc Hd) as (_ & _ & _ & H4 & H100 & H400).
  unfold is_leap. rewrite H4. apply eq_bool_prop_intro.
  rewrite !andb_True, !orb_True, !negb_True, !Is_true_true, !Z.eqb_eq, H100, H400.
  destruct (Z.eqb_spec d 3); lia.
Qed.

Definition year_length (y : Z) : Z := if is_leap y then 366 else 365.

(** Every year is written once as a quadruple of cycle positions. *)
Lemma year_split y : ∃ a b c d,
  y = 400 * a + 100 * b + 4 * c + d + 1 ∧ 0 ≤ b ≤ 3 ∧ 0 ≤ c ≤ 24 ∧ 0 ≤ d ≤ 3.
Proof.
  exists ((y - 1) / 400), ((y - 1) mod 400 / 100), ((y - 1) mod 100 / 4), ((y - 1) mod 4).
  Z.to_euclidean_division_equations. lia.
Qed.

Lemma next_year y : days_before_year (y + 1) = days_before_year y + year_length y.
Proof.
  unfold year_length. destruct (year_split y) as (a & b & c & d & -> & Hb & Hc & Hd).
  rewrite (leap_split a b c d), (dby_split a b c d) by done.
  destruct (Z.eqb_spec d 3) as [->|]; simpl.
  - destruct (Z.eqb_spec c 24) as [->|]; simpl.
    + destruct (Z.eqb_spec b 3) as [->|].
      * replace (400 * a + 100 * 3 + 4 * 24 + 3 + 1 + 1) with (400 * (a + 1) + 100 * 0 + 4 * 0 + 0 + 1) by lia.
        rewrite dby_split; lia.
      * replace (400 * a + 100 * b + 4 * 24 + 3 + 1 + 1) with (400 * a + 100 * (b + 1) + 4 * 0 + 0 + 1) by lia.
        rewrite dby_split; lia.
    + replace (400 * a + 100 * b + 4 * c + 3 + 1 + 1) with (400 * a + 100 * b + 4 * (c + 1) + 0 + 1) by lia.
      rewrite dby_split; lia.
  - replace (400 * a + 100 * b + 4 * c + d + 1 + 1) with (400 * a + 100 * b + 4 * c + (d + 1) + 1) by lia.
    rewrite dby_split; lia.
Qed.

(** ** The month part, by enumeration of the days of a year *)

Definition month_ok (leap : bool) (n : Z) : bool :=
  let '(m, d) := month_day leap n in
  (1 <=? m) && (m <=? 12) && (1 <=? d) &&
  (d <=? (if m =? 2 then (if leap then 29 else 28)
          else if (m =? 4) || (m =? 6) || (m =? 9) || (m =? 11) then 30 else 31)) &&
  (common_days_before_month m + (if (2 <? m) && leap then 1 else 0) + d =? n + 1).

Lemma month_day_table :
  forallb (λ n, month_ok false n && month_ok true n) (seqZ 0 365) && month_ok true 365 = true.
Proof. vm_compute. reflexivity. Qed.

Lemma month_day_ok y n :
  0 ≤ n < year_length y →
  valid_ymd y (month_day (is_leap y) n).1 (month_day (is_leap y) n).2 = true ∧
  days_before_month y (month_day (is_leap y) n).1 + (month_day (is_leap y) n).2 = n + 1.
Proof.
  intros Hn. assert (Hok : month_ok (is_leap y) n = true).
  { pose proof month_day_table as Ht. apply andb_true_iff in Ht as [Ht Hlast].
    destruct (decide (n = 365)) as [->|Hne].
    { unfold year_length in Hn. destruct (is_leap y); [done|lia]. }
    rewrite forallb_forall in Ht. assert (Hin : In n (seqZ 0 365)).
    { apply list_elem_of_In, elem_of_seqZ. unfold year_length in Hn. destruct (is_leap y); lia. }
    apply Ht, andb_true_iff in Hin as [Hf Htr]. by destruct (is_leap y). }
  unfold month_ok in Hok. unfold valid_ymd, days_before_month, days_in_month.
  destruct (month_day (is_leap y) n) as [m d]. cbn [fst snd].
  rewrite !andb_true_iff in Hok. destruct Hok as [[[[? ?] ?] ?] Heq].
  apply Z.eqb_eq in Heq. rewrite !andb_true_iff. tauto.
Qed.

Lemma month_cases m : 1 ≤ m ≤ 12 →
  m = 12 ∨ m = 1 ∨ m = 2 ∨ m = 3 ∨ m = 4 ∨ m = 5 ∨ m = 6 ∨ m = 7 ∨ m = 8 ∨ m = 9 ∨ m = 10 ∨ m = 11.
Proof. lia. Qed.

(** The position of the [d]-th of month [m] inside its year. *)
Lemma yday_range y m d :
  valid_ymd y m d = true → 0 ≤ days_before_month y m + d - 1 < year_length y.
Proof.
  unfold valid_ymd, days_before_month, days_in_month, year_length, common_days_before_month.
  rewrite !andb_true_iff, !Z.leb_le. intros [[[H1 H12] Hd] Hl].
  destruct (month_cases m) as [->|Hm]; [lia|destruct (is_leap y); cbn in *; lia|].
  destruct_or! Hm; subst m; destruct (is_leap y); cbn in *; lia.
Qed.

Definition date_inv_ok (leap : bool) (m : Z) : bool :=
  let len := if m =? 2 then (if leap then 29 else 28)
             else if (m =? 4) || (m =? 6) || (m =? 9) || (m =? 11) then 30 else 31 in
  forallb (λ d, bool_decide (month_day leap
    (common_days_before_month m + (if (2 <? m) && leap then 1 else 0) + d - 1) = (m, d))) (seqZ 1 len).

Lemma month_day_inv y m d :
  valid_ymd y m d = true → month_day (is_leap y) (days_before_month y m + d - 1) = (m, d).
Proof.
  assert (Ht : forallb (λ m, date_inv_ok false m && date_inv_ok true m) (seqZ 1 12) = true)
    by (vm_compute; reflexivity).
  unfold valid_ymd. rewrite !andb_true_iff, !Z.leb_le. intros [[[H1 H12] Hd] Hl].
  rewrite forallb_forall in Ht. assert (Hin : In m (seqZ 1 12)).
  { apply list_elem_of_In, elem_of_seqZ. lia. }
  apply Ht, andb_true_iff in Hin as [Hf Htr].
  assert (Hok : date_inv_ok (is_leap y) m = true) by (by destruct (is_leap y)).
  unfold date_inv_ok in Hok. rewrite forallb_forall in Hok.
  apply (bool_decide_eq_true_1 _), Hok, list_elem_of_In, elem_of_seqZ. unfold days_in_month in Hl. lia.
Qed.

(** ** The conversions are inverse *)

Lemma divmod_add k q r : 0 ≤ r < k → (k * q + r) / k = q ∧ (k * q + r) mod k = r.
Proof. Z.to_euclidean_division_equations. nia. Qed.

(** CPython's cycle decomposition: the year and the zero-based day in it. *)
Lemma ord2ymd_year y n :
  0 ≤ n < year_length y →
  ord2ymd (days_before_year y + n + 1) = (y, (month_day (is_leap y) n).1, (month_day (is_leap y) n).2).
Proof.
  destruct (year_split y) as (a & b & c & d & -> & Hb & Hc & Hd). unfold year_length.
  pose proof (leap_split a b c d Hb Hc Hd) as Hleap. rewrite Hleap.
  rewrite dby_split by done. intros Hn. unfold ord2ymd.
  assert (Hcase : n < 365 ∨ n = 365 ∧ d = 3 ∧ (c ≠ 24 ∨ b = 3)).
  { destruct (Z.eqb_spec d 3), (Z.eqb_spec c 24), (Z.eqb_spec b 3); cbn in Hn; lia. }
  replace (146097 * a + 36524 * b + 1461 * c + 365 * d + n + 1 - 1)
    with (146097 * a + (36524 * b + (1461 * c + (365 * d + n)))) by lia.
  destruct (divmod_add 146097 a (36524 * b + (1461 * c + (365 * d + n)))) as [-> ->]; [lia|].
  destruct Hcase as [Hlt | [-> [-> Hcb]]].
  - destruct (divmod_add 36524 b (1461 * c + (365 * d + n))) as [-> ->]; [lia|].
    destruct (divmod_add 1461 c (365 * d + n)) as [-> ->]; [lia|].
    destruct (divmod_add 365 d n) as [-> ->]; [lia|].
    rewrite (proj2 (Z.eqb_neq d 4)), (proj2 (Z.eqb_neq b 4)) by lia. cbn [orb].
    destruct (month_day _ n). cbn. do 2 f_equal. lia.
  - assert (Hl : (3 =? 3) && (negb (c =? 24) || (b =? 3)) = true).
    { destruct (Z.eqb_spec c 24), (Z.eqb_spec b 3); cbn; lia. }
    rewrite Hl. change (month_day true 365) with (12, 31). cbn [fst snd].
    destruct (decide (c = 24)) as [->|Hc24].
    + destruct Hcb as [Hne | ->]; [done|].
      change (36524 * 3 + (1461 * 24 + (365 * 3 + 365))) with 146096.
      change (146096 / 36524) with 4. change (146096 mod 36524) with 0.
      change (0 / 1461) with 0. change (0 mod 1461 / 365) with 0. cbn. do 2 f_equal. lia.
    + destruct (divmod_add 36524 b (1461 * c + (365 * 3 + 365))) as [-> ->]; [lia|].
      destruct (divmod_add 1461 c (365 * 3 + 365)) as [-> ->]; [lia|].
      change ((365 * 3 + 365) / 365) with 4. cbn. do 2 f_equal. lia.
Qed.

Lemma ord2ymd_ymd2ord y m d : valid_ymd y m d = true → ord2ymd (ymd2ord y m d) = (y, m, d).
Proof.
  intros Hv. pose proof (yday_range _ _ _ Hv) as Hr. unfold ymd2ord.
  replace (days_before_year y + days_before_month y m + d)
    with (days_before_year y + (days_before_month y m + d - 1) + 1) by lia.
  rewrite ord2ymd_year by done. by rewrite month_day_inv.
Qed.

(** Every ordinal is a day of some year. *)
Lemma ordinal_year n : ∃ y, days_before_year y < n ≤ days_before_year (y + 1).
Proof.
  assert (Hgrow : ∀ k y, (0 ≤ k) → days_before_year y + 365 * k ≤ days_before_year (y + k)).
  { intros k y Hk. pattern k. apply natlike_ind; [rewrite (Z.add_0_r y); lia| |done].
    clear k Hk. intros k Hk IH. rewrite (Z.add_succ_r y k), <- (Z.add_1_r (y + k)), next_year. unfold year_length.
    destruct (is_leap _); lia. }
  assert (Hup : ∀ k, 0 ≤ k → ∀ y, days_before_year y < n ≤ days_before_year (y + k) →
    ∃ y, days_before_year y < n ≤ days_before_year (y + 1)).
  { intros k Hk. pattern k. apply natlike_ind; [intros y; rewrite Z.add_0_r; lia| |done].
    clear k Hk. intros k Hk IH y Hy. destruct (decide (n ≤ days_before_year (y + 1))); [exists y; lia|].
    apply (IH (y + 1)). replace (y + 1 + k) with (y + Z.succ k) by lia. lia. }
  pose proof (Hgrow (Z.abs n + 1) 1). pose proof (Hgrow (Z.abs n + 1) (1 - (Z.abs n + 1))) as H2.
  replace (1 - (Z.abs n + 1) + (Z.abs n + 1)) with 1 in H2 by lia.
  change (days_before_year 1) with 0 in *.
  apply (Hup (2 * (Z.abs n + 1)) ltac:(lia) (1 - (Z.abs n + 1))).
  replace (1 - (Z.abs n + 1) + 2 * (Z.abs n + 1)) with (1 + (Z.abs n + 1)) by lia. lia.
Qed.

Lemma ymd2ord_ord2ymd n :
  ∃ y m d, ord2ymd n = (y, m, d) ∧ valid_ymd y m d = true ∧ ymd2ord y m d = n.
Proof.
  destruct (ordinal_year n) as (y & Hy). rewrite next_year in Hy.
  pose proof (ord2ymd_year y (n - days_before_year y - 1)) as Ho.
  replace (days_before_year y + (n - days_before_year y - 1) + 1) with n in Ho by lia.
  destruct (month_day_ok y (n - days_before_year y - 1)) as [Hv He]; [lia|].
  do 3 eexists. split; [apply Ho; lia|]. split; [done|]. unfold ymd2ord. lia.
Qed.

(** ** Months in order *)

(** The month of a date as one number, [year * 12 + month - 1]. *)
Definition month_index (t : Z) : Z := year t * 12 + month t - 1.

(** The ordinal before the first day of a month. *)
Definition month_start (i : Z) : Z :=
  days_before_year (i / 12) + days_before_month (i / 12) (i mod 12 + 1).

Definition month_length (i : Z) : Z := days_in_month (i / 12) (i mod 12 + 1).

Lemma days_before_next_month y m :
  1 ≤ m ≤ 11 → days_before_month y (m + 1) = days_before_month y m + days_in_month y m.
Proof.
  unfold days_before_month, days_in_month. intros Hm.
  destruct (month_cases m) as [->|Hc]; [lia..|].
  destruct_or! Hc; subst m; destruct (is_leap y); reflexivity.
Qed.

Lemma month_start_next i : month_start (i + 1) = month_start i + month_length i.
Proof.
  unfold month_start, month_length.
  destruct (month_cases (i mod 12 + 1)) as [Hm|Hm]; [Z.to_euclidean_division_equations; lia|..].
  - assert (E : (i + 1) / 12 = i / 12 + 1 ∧ (i + 1) mod 12 = 0)
      by (Z.to_euclidean_division_equations; lia).
    destruct E as [-> ->]. rewrite Hm, next_year. change (0 + 1) with 1.
    unfold year_length, days_before_month, days_in_month.
    destruct (is_leap (i / 12)), (is_leap (i / 12 + 1)); cbn; lia.
  - assert (E : (i + 1) / 12 = i / 12 ∧ (i + 1) mod 12 + 1 = i mod 12 + 1 + 1)
      by (Z.to_euclidean_division_equations; lia).
    destruct E as [-> ->].
    rewrite (days_before_next_month (i / 12) (i mod 12 + 1)) by lia. lia.
Qed.

Lemma month_length_bounds i : 28 ≤ month_length i ≤ 31.
Proof. unfold month_length, days_in_month. repeat case_match; lia. Qed.

Lemma month_start_lt i j : i < j → month_start i + month_length i ≤ month_start j.
Proof.
  intros Hij. replace j with (i + 1 + (j - i - 1)) by lia.
  assert (Hk : 0 ≤ j - i - 1) by lia. pattern (j - i - 1).
  apply natlike_ind; [rewrite Z.add_0_r, month_start_next; lia| |done].
  clear Hk. intros k Hk IH. rewrite (Z.add_succ_r (i + 1) k), <- (Z.add_1_r (i + 1 + k)), month_start_next.
  pose proof (month_length_bounds (i + 1 + k)). lia.
Qed.

Lemma ymd2ord_month y m d : 1 ≤ m ≤ 12 → ymd2ord y m d = month_start (y * 12 + m - 1) + d.
Proof.
  intros Hm. unfold ymd2ord, month_start.
  assert (E : (y * 12 + m - 1) / 12 = y ∧ (y * 12 + m - 1) mod 12 + 1 = m)
    by (Z.to_euclidean_division_equations; lia).
  by destruct E as [-> ->].
Qed.

(** ** Datetimes by month and day *)

Lemma combine_split t : combine (ordinal t) (time_of t) = t.
Proof. unfold combine, ordinal, time_of. pose proof (Z.div_mod t DAY). unfold DAY, HOUR, MINUTE, SECOND in *. lia. Qed.

Lemma time_of_range t : 0 ≤ time_of t < DAY.
Proof. apply Z.mod_pos_bound. done. Qed.

Lemma ordinal_combine o t : 0 ≤ t < DAY → ordinal (combine o t) = o ∧ time_of (combine o t) = t.
Proof.
  intros Ht. unfold ordinal, time_of, combine.
  destruct (divmod_add DAY (o - EPOCH_ORDINAL) t Ht) as [E1 E2].
  rewrite (Z.mul_comm (o - EPOCH_ORDINAL)), E1, E2. lia.
Qed.

(** A date is the [day]-th day of its month. *)
Lemma ordinal_month t :
  ordinal t = month_start (month_index t) + day t ∧
  1 ≤ day t ≤ month_length (month_index t) ∧ 1 ≤ month t ≤ 12.
Proof.
  unfold month_index, day, month, year, ymd.
  destruct (ymd2ord_ord2ymd (ordinal t)) as (y & m & d & -> & Hv & <-). cbn [fst snd].
  unfold valid_ymd in Hv. rewrite !andb_true_iff, !Z.leb_le in Hv. destruct Hv as [[[? ?] ?] ?].
  split; [by apply ymd2ord_month|]. split; [|lia]. unfold month_length.
  assert (E : (y * 12 + m - 1) / 12 = y ∧ (y * 12 + m - 1) mod 12 + 1 = m)
    by (Z.to_euclidean_division_equations; lia).
  destruct E as [-> ->]. lia.
Qed.

(** Dates are ordered by month, then by day. *)
Lemma ordinal_month_lt t u : month_index t < month_index u → ordinal t < ordinal u.
Proof.
  intros H. destruct (ordinal_month t) as (-> & Ht & _), (ordinal_month u) as (-> & Hu & _).
  apply month_start_lt in H. lia.
Qed.

Lemma month_index_combine y m d t :
  valid_ymd y m d = true → 0 ≤ t < DAY →
  month_index (combine (ymd2ord y m d) t) = y * 12 + m - 1 ∧ day (combine (ymd2ord y m d) t) = d.
Proof.
  intros Hv Ht. unfold month_index, day, month, year, ymd.
  by rewrite (proj1 (ordinal_combine _ _ Ht)), ord2ymd_ymd2ord.
Qed.

Lemma ordinal_lt t u : ordinal t < ordinal u → t < u.
Proof. unfold ordinal. intros H. apply Z.lt_nge. intros Hle. apply (Z.div_le_mono _ _ DAY) in Hle; [lia|done]. Qed.

(** Dates survive CPython's conversion both ways: every calendar date is
    recovered from its ordinal, and every ordinal denotes exactly one valid date. *)
Theorem calendar_roundtrip :
  (∀ y m d, valid_ymd y m d = true ↔ ord2ymd (ymd2ord y m d) = (y, m, d)) ∧
  (∀ n, let '(y, m, d) := ord2ymd n in valid_ymd y m d = true ∧ ymd2ord y m d = n).
Proof.
  split.
  - intros y m d. split; [apply ord2ymd_ymd2ord|]. intros Heq.
    destruct (ymd2ord_ord2ymd (ymd2ord y m d)) as (y' & m' & d' & E & Hv & _). congruence.
  - intros n. destruct (ymd2ord_ord2ymd n) as (y & m & d & -> & ? & ?). done.
Qed.
