(* ===== verification/Recurrence.v ===== *)
(** * Recurrence: bounded, deterministic recurrence and timezones

    The functions of [scheduler/recurrence.py] over the calendar of [Calendar]:
    the resolution of a local time in an IANA zone, [_advance], [next_slot] and
    [first_slot]. The timezone database is not part of the program: [zoneinfo]
    is a parameter that maps an identifier to its zone, and a zone is its two
    offset functions, of a local time (with [fold=0]) and of an instant. *)

From S2P Require Import Prelude.
From S2P Require Import Errors.
From S2P Require Import ScheduleSpec.
From S2P Require Import Calendar.

Definition MAX_SEARCH_STEPS : nat := Z.to_nat 525600.

(** A [ZoneInfo]: [utcoffset] of a naive local time read with [fold=0], and of an
    instant, both in microseconds. *)
Record ZoneInfo : Type := {
  offset_of_local : Z → Z;
  offset_at : Z → Z;
}.

(** [ZoneInfo(key)] raises ZoneInfoNotFoundError, a KeyError, on an unknown key. *)
Definition zone_of (zoneinfo : string → option ZoneInfo) (key : string) : result exn ZoneInfo :=
  of_option (zoneinfo key) KeyError.

(** [aware.astimezone(UTC)] of a local time and [utc.astimezone(zone)] of an
    instant: additions of an offset, range-checked. *)
Definition to_utc (zone : ZoneInfo) (local : Z) : result exn Z :=
  dt_add local (- offset_of_local zone local).

Definition to_local (zone : ZoneInfo) (utc : Z) : result exn Z :=
  dt_add utc (offset_at zone utc).

(** [int(offset.total_seconds())] truncates towards zero. *)
Definition whole_seconds (offset : Z) : Z := Z.quot offset SECOND.

(** [_resolve_local] *)
Definition resolve_local (local : Z) (zone : ZoneInfo) : result exn TemporalSlot :=
  utc ← to_utc zone local;
  round_trip ← to_local zone utc;
  Ok {| intended_local_time := local;
        scheduled_for := utc;
        utc_offset_seconds := whole_seconds (offset_of_local zone local);
        fold := 0;
        nonexistent := negb (round_trip =? local) |}.

(** ** [_advance] *)

Definition invalid_recurrence : exn := Nxs (ScheduleErr ScheduleInvalidRecurrenceError).

Definition week_index (anchor_week candidate : Z) : Z := (week_of candidate - anchor_week) / 7.

Definition weekly_match (r : RecurrenceSpec) (anchor_week candidate : Z) : bool :=
  bool_decide (weekday candidate ∈ weekdays r) &&
  (week_index anchor_week candidate mod interval r =? 0).

(** The loop over [range(366 * 5)] days. *)
Fixpoint advance_weekly (fuel : nat) (r : RecurrenceSpec) (anchor_week candidate : Z) : result exn Z :=
  match fuel with
  | O => Err invalid_recurrence
  | S fuel =>
      candidate ← dt_add candidate DAY;
      if weekly_match r anchor_week candidate then Ok candidate
      else advance_weekly fuel r anchor_week candidate
  end.

(** The inner loop over the sorted days of one month: [Ok None] when none fits. *)
Fixpoint advance_days (value y m last_day : Z) (days : list Z) : result exn (option Z) :=
  match days with
  | [] => Ok None
  | d :: days =>
      if d <=? last_day
      then candidate ← dt_replace value y m d;
           if value <? candidate then Ok (Some candidate)
           else advance_days value y m last_day days
      else advance_days value y m last_day days
  end.

(** The loop over [range(0, 12 * 5 + 1)] month offsets. *)
Fixpoint advance_monthly (offsets : list Z) (value : Z) (r : RecurrenceSpec) (allowed_days : list Z)
    : result exn Z :=
  match offsets with
  | [] => Err invalid_recurrence
  | offset :: offsets =>
      if negb (offset =? 0) && negb (offset mod interval r =? 0)
      then advance_monthly offsets value r allowed_days
      else
        let index := month_index value + offset in
        let y := index / 12 in
        let m := index mod 12 + 1 in
        found ← advance_days value y m (days_in_month y m) allowed_days;
        match found with
        | Some candidate => Ok candidate
        | None => advance_monthly offsets value r allowed_days
        end
  end.

Definition advance (value : Z) (r : RecurrenceSpec) : result exn Z :=
  match frequency r with
  | RecurrenceFrequency.MINUTELY => dt_add value (interval r * MINUTE)
  | RecurrenceFrequency.HOURLY => dt_add value (interval r * HOUR)
  | RecurrenceFrequency.DAILY => dt_add value (interval r * DAY)
  | RecurrenceFrequency.WEEKLY => advance_weekly (366 * 5) r (week_of value) value
  | RecurrenceFrequency.MONTHLY =>
      advance_monthly (seqZ 0 61) value r (merge_sort Z.le (month_days r))
  end.

(** ** [next_slot] and [first_slot] *)

Fixpoint search_slot (fuel : nat) (candidate after_utc : Z) (zone : ZoneInfo) (r : RecurrenceSpec)
    : result exn TemporalSlot :=
  match fuel with
  | O => Err invalid_recurrence
  | S fuel =>
      candidate ← advance candidate r;
      slot ← resolve_local candidate zone;
      if after_utc <? scheduled_for slot then Ok slot else search_slot fuel candidate after_utc zone r
  end.

Section zones.
Context (zoneinfo : string → option ZoneInfo).

Definition next_slot (previous_local after_utc : Z) (timezone : string) (r : RecurrenceSpec)
    : result exn TemporalSlot :=
  zone ← zone_of zoneinfo timezone;
  search_slot MAX_SEARCH_STEPS previous_local after_utc zone r.

Definition selector_matches (r : RecurrenceSpec) (anchor : Z) : bool :=
  match frequency r with
  | RecurrenceFrequency.DAILY => true
  | RecurrenceFrequency.WEEKLY => bool_decide (weekday anchor ∈ weekdays r)
  | RecurrenceFrequency.MONTHLY => bool_decide (day anchor ∈ month_days r)
  | _ => false
  end.

Definition is_calendar (f : RecurrenceFrequency) : bool :=
  match f with
  | RecurrenceFrequency.DAILY | RecurrenceFrequency.WEEKLY | RecurrenceFrequency.MONTHLY => true
  | _ => false
  end.

(** The last lines of [first_slot]. *)
Definition slot_from (anchor start_at : Z) (timezone : string) (zone : ZoneInfo) (r : RecurrenceSpec)
    : result exn TemporalSlot :=
  slot ← resolve_local anchor zone;
  if scheduled_for slot <? start_at then next_slot anchor start_at timezone r else Ok slot.

Definition first_slot (start_at : Z) (timezone : string) (recurrence : option RecurrenceSpec)
    : result exn TemporalSlot :=
  zone ← zone_of zoneinfo timezone;
  local ← to_local zone start_at;
  match recurrence with
  | None => resolve_local local zone
  | Some r =>
      let anchor := local - local mod MINUTE in
      if is_calendar (frequency r) then
        match local_time r with
        | None => Err invalid_recurrence
        | Some time =>
            let anchor := combine (ordinal anchor) time in
            if negb (selector_matches r anchor) then next_slot anchor start_at timezone r
            else
              slot ← resolve_local anchor zone;
              if scheduled_for slot <? start_at then next_slot anchor start_at timezone r
              else slot_from anchor start_at timezone zone r
        end
      else slot_from anchor start_at timezone zone r
  end.
End zones.
