(* ===== verification/RecurrenceLaws.v ===== *)
(** * RecurrenceLaws: what [_advance] and [next_slot] compute

    The declarative meaning of a recurrence, [recurs r v c]: the local time [c]
    belongs to the recurrence [r] counted from [v]. [_advance] returns the least
    such time after [v]; [next_slot] the least one whose instant is after a bound;
    both succeed within their search bounds for every recurrence whose interval the
    horizon covers. *)

From S2P Require Import Prelude.
From S2P Require Import Errors.
From S2P Require Import ScheduleSpec.
From S2P Require Import Calendar.
From S2P Require Import Recurrence.

(** ** The meaning of a recurrence *)

Definition recurs (r : RecurrenceSpec) (v c : Z) : Prop :=
  match frequency r with
  | RecurrenceFrequency.MINUTELY => (interval r * MINUTE | c - v)
  | RecurrenceFrequency.HOURLY => (interval r * HOUR | c - v)
  | RecurrenceFrequency.DAILY => (interval r * DAY | c - v)
  | RecurrenceFrequency.WEEKLY =>
      time_of c = time_of v ∧ weekday c ∈ weekdays r ∧ (7 * interval r | week_of c - week_of v)
  | RecurrenceFrequency.MONTHLY =>
      time_of c = time_of v ∧ day c ∈ month_days r ∧ (interval r | month_index c - month_index v)
  end.

(** The next local time of the recurrence after [v]. *)
Definition follows (r : RecurrenceSpec) (v c : Z) : Prop :=
  v < c ∧ recurs r v c ∧ ∀ x, v < x < c → ¬ recurs r v x.

Lemma DAY_pos : 0 < DAY.
Proof. done. Qed.

Ltac units := pose proof DAY_pos; unfold DAY, HOUR, MINUTE, SECOND in *.

(** Times of the recurrence counted from [v] recur from one another. *)
Lemma recurs_shift r v c x : recurs r v c → recurs r v x → recurs r c x.
Proof.
  unfold recurs. destruct (frequency r).
  1-3: intros Hc Hx; replace (x - c) with ((x - v) - (c - v)) by lia; by apply Z.divide_sub_r.
  - intros (-> & _ & Hc) (-> & Hw & Hx). repeat split; [done..|].
    replace (week_of x - week_of c) with ((week_of x - week_of v) - (week_of c - week_of v)) by lia.
    by apply Z.divide_sub_r.
  - intros (-> & _ & Hc) (-> & Hd & Hx). repeat split; [done..|].
    replace (month_index x - month_index c)
      with ((month_index x - month_index v) - (month_index c - month_index v)) by lia.
    by apply Z.divide_sub_r.
Qed.

Lemma recurs_trans r v c x : recurs r v c → recurs r c x → recurs r v x.
Proof.
  unfold recurs. destruct (frequency r).
  1-3: intros Hc Hx; replace (x - v) with ((x - c) + (c - v)) by lia; by apply Z.divide_add_r.
  - intros (Ht & _ & Hc) (-> & Hw & Hx). repeat split; [done..|].
    replace (week_of x - week_of v) with ((week_of x - week_of c) + (week_of c - week_of v)) by lia.
    by apply Z.divide_add_r.
  - intros (Ht & _ & Hc) (-> & Hd & Hx). repeat split; [done..|].
    replace (month_index x - month_index v)
      with ((month_index x - month_index c) + (month_index c - month_index v)) by lia.
    by apply Z.divide_add_r.
Qed.

(** ** Fixed periods *)

Lemma dt_add_Ok t delta c : dt_add t delta = Ok c ↔ c = t + delta ∧ in_range (t + delta) = true.
Proof. unfold dt_add. destruct (in_range (t + delta)); split; [intros [=]|intros [-> _]|intros [=]|intros [_ ?]]; done. Qed.

Lemma period_least p v x : 0 < p → v < x < v + p → ¬ (p | x - v).
Proof. intros Hp Hx [k Hk]. assert (0 < k) by nia. assert (k < 1) by nia. lia. Qed.

(** ** Weeks *)

Lemma time_of_days v k : time_of (v + k * DAY) = time_of v.
Proof. unfold time_of. by rewrite Z.mod_add. Qed.

Lemma same_time_days v x : time_of x = time_of v → ∃ k, x = v + k * DAY.
Proof.
  unfold time_of. intros H. exists (x / DAY - v / DAY).
  pose proof (Z.div_mod x DAY). pose proof (Z.div_mod v DAY). units. lia.
Qed.

Lemma week_of_mod t : week_of t mod 7 = 1.
Proof. unfold week_of, weekday, weekday_of. Z.to_euclidean_division_equations. lia. Qed.

Lemma week_distance v c n : 0 < n → (week_of c - week_of v) / 7 mod n = 0 ↔ (7 * n | week_of c - week_of v).
Proof.
  intros Hn. pose proof (week_of_mod c) as Hc. pose proof (week_of_mod v) as Hv.
  assert (E : week_of c - week_of v = 7 * ((week_of c - week_of v) / 7))
    by (Z.to_euclidean_division_equations; lia).
  set (q := (week_of c - week_of v) / 7) in *. rewrite E. rewrite Z.mod_divide by lia. split.
  - intros [k ->]. exists k. lia.
  - intros [k Hk]. exists k. nia.
Qed.

Lemma weekly_match_spec r v c :
  0 < interval r →
  weekly_match r (week_of v) c = true ↔ weekday c ∈ weekdays r ∧ (7 * interval r | week_of c - week_of v).
Proof.
  intros Hi. unfold weekly_match, week_index.
  by rewrite andb_true_iff, bool_decide_eq_true, Z.eqb_eq, week_distance.
Qed.

Lemma advance_weekly_Ok fuel r w cand c :
  advance_weekly fuel r w cand = Ok c →
  ∃ k, 1 ≤ k ≤ Z.of_nat fuel ∧ c = cand + k * DAY ∧ weekly_match r w c = true ∧
       ∀ j, 1 ≤ j < k → weekly_match r w (cand + j * DAY) = false.
Proof.
  revert cand. induction fuel as [|fuel IH]; intros cand; cbn [advance_weekly]; [done|].
  rewrite bind_Ok. intros (c1 & [-> _]%dt_add_Ok & H).
  destruct (weekly_match r w (cand + DAY)) eqn:Hm.
  - injection H as <-. exists 1. rewrite Z.mul_1_l. split_and!; [lia..|done|lia].
  - apply IH in H as (k & Hk & -> & Hmk & Hj). exists (k + 1).
    split_and!; [lia..|by replace (cand + (k + 1) * DAY) with (cand + DAY + k * DAY) by lia|].
    intros j Hjk. destruct (decide (j = 1)) as [->|]; [by rewrite Z.mul_1_l|].
    replace (cand + j * DAY) with (cand + DAY + (j - 1) * DAY) by lia. apply Hj. lia.
Qed.

Lemma advance_weekly_follows r v c fuel :
  frequency r = RecurrenceFrequency.WEEKLY → 0 < interval r →
  advance_weekly fuel r (week_of v) v = Ok c → follows r v c.
Proof.
  intros Hf Hi (k & Hk & -> & Hm & Hj)%advance_weekly_Ok. unfold follows, recurs. rewrite Hf.
  apply weekly_match_spec in Hm as [Hw Hd]; [|done]. split; [units; lia|]. split.
  { split; [apply time_of_days|done]. }
  intros x Hx (Ht & Hxw & Hxd). destruct (same_time_days _ _ Ht) as (j & ->).
  assert (Hjk : 1 ≤ j < k) by (clear Hk; units; nia). specialize (Hj j Hjk).
  apply not_true_iff_false in Hj. apply Hj, weekly_match_spec; done.
Qed.

(** ** Months *)

(** The time of [v] on day [d] of the month [i]. *)
Definition on_day (v i d : Z) : Z := combine (month_start i + d) (time_of v).

Lemma on_day_spec v i d :
  1 ≤ d ≤ month_length i →
  month_index (on_day v i d) = i ∧ day (on_day v i d) = d ∧ time_of (on_day v i d) = time_of v.
Proof.
  intros Hd. unfold on_day. pose proof (time_of_range v) as Ht.
  assert (E : month_start i + d = ymd2ord (i / 12) (i mod 12 + 1) d).
  { rewrite ymd2ord_month by (Z.to_euclidean_division_equations; lia). f_equal. f_equal.
    Z.to_euclidean_division_equations. lia. }
  assert (Hv : valid_ymd (i / 12) (i mod 12 + 1) d = true).
  { unfold valid_ymd, month_length in *. rewrite !andb_true_iff, !Z.leb_le.
    Z.to_euclidean_division_equations. lia. }
  rewrite E. destruct (month_index_combine _ _ _ _ Hv Ht) as [-> ->].
  repeat split; [Z.to_euclidean_division_equations; lia|apply (ordinal_combine _ _ Ht)].
Qed.

Lemma on_day_self v x : time_of x = time_of v → x = on_day v (month_index x) (day x).
Proof.
  intros Ht. unfold on_day. destruct (ordinal_month x) as [<- _]. by rewrite <- Ht, combine_split.
Qed.

Lemma on_day_mono v i d d' : d < d' → on_day v i d < on_day v i d'.
Proof. unfold on_day, combine. units. lia. Qed.

Lemma dt_replace_Ok v i d c :
  dt_replace v (i / 12) (i mod 12 + 1) d = Ok c → c = on_day v i d ∧ 1 ≤ d ≤ month_length i.
Proof.
  unfold dt_replace. destruct (_ && _) eqn:Hb; [|done]. intros [= <-].
  unfold valid_ymd in Hb. rewrite !andb_true_iff, !Z.leb_le in Hb.
  rewrite ymd2ord_month by lia. split; [|unfold month_length; lia]. unfold on_day.
  do 2 f_equal. f_equal. Z.to_euclidean_division_equations. lia.
Qed.

Lemma advance_days_Ok v i days res :
  StronglySorted Z.le days → Forall (λ d, 1 ≤ d) days →
  advance_days v (i / 12) (i mod 12 + 1) (month_length i) days = Ok res →
  match res with
  | Some c => ∃ d, d ∈ days ∧ 1 ≤ d ≤ month_length i ∧ c = on_day v i d ∧ v < c ∧
      ∀ d', d' ∈ days → d' ≤ month_length i → v < on_day v i d' → c ≤ on_day v i d'
  | None => ∀ d, d ∈ days → d ≤ month_length i → on_day v i d ≤ v
  end.
Proof.
  intros Hs Hpos. induction Hs as [|d days Hs IH Hle]; cbn [advance_days].
  { intros [= <-] d ?%not_elem_of_nil. done. }
  apply Forall_cons in Hpos as [Hd1 Hpos]. specialize (IH Hpos).
  assert (Hskip : month_length i < d ∨ on_day v i d ≤ v →
    advance_days v (i / 12) (i mod 12 + 1) (month_length i) days = Ok res →
    match res with
    | Some c => ∃ d0, d0 ∈ d :: days ∧ 1 ≤ d0 ≤ month_length i ∧ c = on_day v i d0 ∧ v < c ∧
        ∀ d', d' ∈ d :: days → d' ≤ month_length i → v < on_day v i d' → c ≤ on_day v i d'
    | None => ∀ d0, d0 ∈ d :: days → d0 ≤ month_length i → on_day v i d0 ≤ v
    end).
  { intros Hno H. specialize (IH H). destruct res as [c|].
    - destruct IH as (d0 & Hin & Hr & Hc & Hv & Hmin). exists d0. rewrite elem_of_cons.
      repeat split; [by right|lia..|done|done|]. intros d'. rewrite elem_of_cons.
      intros [->|Hin'] ? ?; [lia|auto].
    - intros d0. rewrite elem_of_cons. intros [->|Hin] ?; [lia|auto]. }
  destruct (Z.leb_spec d (month_length i)) as [Hdl|Hdl]; [|apply Hskip; lia].
  rewrite bind_Ok. intros (c & [-> Hr]%dt_replace_Ok & H).
  destruct (Z.ltb_spec v (on_day v i d)); [|apply Hskip; [lia|done]].
  injection H as <-. exists d. repeat split; [constructor|lia..|done|].
  intros d'. rewrite elem_of_cons. intros [->|Hin] ? ?; [lia|].
  rewrite Forall_forall in Hle. specialize (Hle _ Hin).
  destruct (decide (d = d')) as [->|]; [lia|]. apply Z.lt_le_incl, on_day_mono. lia.
Qed.

Lemma advance_monthly_Ok r v days offsets c k n :
  offsets = seqZ k n → StronglySorted Z.le days → Forall (λ d, 1 ≤ d) days →
  advance_monthly offsets v r days = Ok c →
  ∃ o d, k ≤ o < k + n ∧ (o = 0 ∨ o mod interval r = 0) ∧ d ∈ days ∧
    1 ≤ d ≤ month_length (month_index v + o) ∧
    c = on_day v (month_index v + o) d ∧ v < c ∧
    (∀ d', d' ∈ days → d' ≤ month_length (month_index v + o) →
       v < on_day v (month_index v + o) d' → c ≤ on_day v (month_index v + o) d') ∧
    (∀ o' d', k ≤ o' < o → o' = 0 ∨ o' mod interval r = 0 → d' ∈ days →
       d' ≤ month_length (month_index v + o') → on_day v (month_index v + o') d' ≤ v).
Proof.
  intros Ho Hs Hpos. revert k n Ho. induction offsets as [|o offsets IH]; intros k n Ho;
    cbn [advance_monthly]; [done|].
  assert (Hn : 0 < n).
  { apply Z.lt_nge. intros Hn. rewrite seqZ_nil in Ho by done. done. }
  rewrite seqZ_cons in Ho by done. injection Ho as -> Ho.
  destruct (negb (k =? 0) && negb (k mod interval r =? 0)) eqn:Hskip.
  - intros H. destruct (IH _ _ Ho H) as (o & d & Hk & Hm & Hd & Hl & Hc & Hv & Hmin & Hprev).
    exists o, d. split_and!; [lia|lia|done|done|lia|lia|done|done|done|].
    intros o' d' Ho'. destruct (decide (o' = k)) as [->|]; [|apply Hprev; lia].
    apply andb_true_iff in Hskip as [H1 H2].
    rewrite negb_true_iff, Z.eqb_neq in H1, H2. tauto.
  - rewrite bind_Ok. intros (found & Hf & H). apply (advance_days_Ok _ (month_index v + k)) in Hf; [|done..].
    assert (Hk : k = 0 ∨ k mod interval r = 0).
    { apply andb_false_iff in Hskip as [Hz|Hz]; rewrite negb_false_iff, Z.eqb_eq in Hz; tauto. }
    destruct found as [c'|].
    + injection H as <-. destruct Hf as (d & Hd & Hl & Hc & Hv & Hmin).
      exists k, d. split_and!; [lia|lia|done|done|lia|lia|done|done|done|]. lia.
    + destruct (IH _ _ Ho H) as (o & d & Hko & Hm & Hd & Hl & Hc & Hv & Hmin & Hprev).
      exists o, d. split_and!; [lia|lia|done|done|lia|lia|done|done|done|].
      intros o' d' Ho' Hmo Hd' Hl'. destruct (decide (o' = k)) as [->|]; [by apply Hf|].
      apply Hprev; [lia|done..].
Qed.

Lemma month_index_mono t u : t < u → month_index t ≤ month_index u.
Proof.
  intros Htu. apply Z.le_ngt. intros Hlt. apply ordinal_month_lt, ordinal_lt in Hlt. lia.
Qed.

Lemma advance_monthly_follows r v c n :
  frequency r = RecurrenceFrequency.MONTHLY → 0 < interval r → Forall (λ d, 1 ≤ d) (month_days r) →
  advance_monthly (seqZ 0 n) v r (merge_sort Z.le (month_days r)) = Ok c → follows r v c.
Proof.
  intros Hf Hi Hpos H. pose proof (merge_sort_Permutation Z.le (month_days r)) as Hperm.
  assert (Hs : StronglySorted Z.le (merge_sort Z.le (month_days r))).
  { apply (StronglySorted_merge_sort Z.le). }
  assert (Hp : Forall (λ d, 1 ≤ d) (merge_sort Z.le (month_days r))) by (by rewrite Hperm).
  destruct (advance_monthly_Ok _ _ _ _ _ 0 n eq_refl Hs Hp H)
    as (o & d & Ho & Hm & Hd & Hl & -> & Hv & Hmin & Hprev).
  assert (Hdiv : ∀ o, o = 0 ∨ o mod interval r = 0 ↔ (interval r | o)).
  { intros o'. rewrite Z.mod_divide by lia. split; [|by right]. intros [->|?]; [apply Z.divide_0_r|done]. }
  destruct (on_day_spec v (month_index v + o) d Hl) as (E1 & E2 & E3).
  unfold follows, recurs. rewrite Hf. split; [done|]. split.
  { rewrite E1, E2, E3, <- Hperm. repeat split; [done|].
    replace (month_index v + o - month_index v) with o by lia. by apply Hdiv. }
  intros x Hx (Ht & Hxd & Hxm). rewrite <- Hperm in Hxd.
  pose proof (month_index_mono _ _ (proj1 Hx)) as Hvx.
  pose proof (month_index_mono _ _ (proj2 Hx)) as Hxc. rewrite E1 in Hxc.
  destruct (ordinal_month x) as (_ & Hdx & _). pose proof (on_day_self v x Ht) as Ex.
  set (o' := month_index x - month_index v) in *.
  assert (Eo : month_index x = month_index v + o') by (unfold o'; lia). rewrite Eo in Ex, Hdx.
  destruct (decide (o' = o)) as [->|Hne].
  - specialize (Hmin _ Hxd (proj2 Hdx)). rewrite <- Ex in Hmin. lia.
  - assert (o' < o) by lia. specialize (Hprev o' (day x)). rewrite <- Ex in Hprev.
    assert (x ≤ v); [|lia]. apply Hprev; [lia|by apply Hdiv|done|lia].
Qed.

(** ** [_advance] *)

Lemma recurrence_valid_facts r :
  recurrence_valid r = true →
  1 ≤ interval r ≤ 10000 ∧ Forall (λ d, 1 ≤ d) (month_days r) ∧
  Forall (λ d, 0 ≤ d ≤ 6) (weekdays r).
Proof.
  unfold recurrence_valid, recurrence_fields. rewrite !andb_true_iff, !Z.leb_le, !forallb_forall.
  intros [[[[[? ?] Hw] Hm] _] _]. split; [lia|]. rewrite !Forall_forall.
  split; intros d Hd%list_elem_of_In; [apply Hm in Hd|apply Hw in Hd]; lia.
Qed.

Lemma advance_follows r v c : recurrence_valid r = true → advance v r = Ok c → follows r v c.
Proof.
  intros (Hi & Hm & _)%recurrence_valid_facts. unfold advance.
  destruct (frequency r) eqn:Hf.
  1-3: rewrite dt_add_Ok; intros [-> _]; unfold follows, recurs; rewrite Hf;
       (split; [units; lia|split; [exists 1; lia|]]); intros x Hx; apply period_least; units; lia.
  - apply advance_weekly_follows; [done|lia].
  - apply advance_monthly_follows; [done|lia|done].
Qed.

(** ** [_advance] returns *)

(** The recurrences the five-year horizon covers: of the monthly ones those that recur
    in every month they name. *)
Definition searchable (r : RecurrenceSpec) : bool :=
  match frequency r with
  | RecurrenceFrequency.WEEKLY => interval r <=? 260
  | RecurrenceFrequency.MONTHLY => (interval r <=? 60) && existsb (λ d, d <=? 28) (month_days r)
  | _ => true
  end.

Lemma in_range_between a b t : in_range a = true → in_range b = true → a ≤ t ≤ b → in_range t = true.
Proof. unfold in_range. rewrite !andb_true_iff, !Z.leb_le, !Z.ltb_lt. lia. Qed.

Lemma advance_weekly_total fuel r w cand k :
  1 ≤ k ≤ Z.of_nat fuel → in_range cand = true → in_range (cand + k * DAY) = true →
  weekly_match r w (cand + k * DAY) = true →
  ∃ c, advance_weekly fuel r w cand = Ok c ∧ c ≤ cand + k * DAY.
Proof.
  revert cand k. induction fuel as [|fuel IH]; intros cand k Hk Hr Hrk Hm; [lia|].
  cbn [advance_weekly]. assert (Hadd : dt_add cand DAY = Ok (cand + DAY)).
  { apply dt_add_Ok. split; [done|]. eapply in_range_between; [exact Hr|exact Hrk|]. units. nia. }
  rewrite Hadd. cbn [mbind result_bind].
  destruct (weekly_match r w (cand + DAY)) eqn:Hm1; [exists (cand + DAY); split; [done|units; nia]|].
  assert (Hk1 : k ≠ 1) by (intros ->; rewrite Z.mul_1_l in Hm; congruence).
  assert (E : cand + k * DAY = cand + DAY + (k - 1) * DAY) by lia.
  destruct (IH (cand + DAY) (k - 1)) as (c & Hc & Hle); [lia| | | |].
  - eapply in_range_between; [exact Hr|exact Hrk|]. units. nia.
  - by rewrite <- E.
  - by rewrite <- E.
  - exists c. split; [done|lia].
Qed.

Lemma weekday_range t : 0 ≤ weekday t ≤ 6.
Proof. unfold weekday, weekday_of. Z.to_euclidean_division_equations. lia. Qed.

Lemma ordinal_days t k : ordinal (t + k * DAY) = ordinal t + k.
Proof. unfold ordinal. rewrite Z.div_add by done. lia. Qed.

(** The day with weekday [d] in the next week of the recurrence. *)
Lemma weekly_target r v d :
  1 ≤ interval r → d ∈ weekdays r → 0 ≤ d ≤ 6 →
  weekly_match r (week_of v) (v + (7 * interval r + d - weekday v) * DAY) = true.
Proof.
  intros Hi Hd Hr. apply weekly_match_spec; [lia|]. pose proof (weekday_range v) as Hv.
  assert (E : weekday (v + (7 * interval r + d - weekday v) * DAY) = d).
  { unfold weekday at 1. unfold weekday_of. rewrite ordinal_days. unfold weekday, weekday_of in *.
    Z.to_euclidean_division_equations. lia. }
  unfold week_of. rewrite E, ordinal_days. split; [done|]. exists 1. lia.
Qed.

Lemma month_start_growth i n : 0 ≤ n → month_start i ≤ month_start (i + n) ≤ month_start i + 31 * n.
Proof.
  intros Hn. pattern n. apply natlike_ind; [rewrite (Z.add_0_r i); lia| |done].
  clear n Hn. intros n Hn IH. rewrite (Z.add_succ_r i n), <- (Z.add_1_r (i + n)), month_start_next.
  pose proof (month_length_bounds (i + n)). lia.
Qed.

Lemma month_index_range v o :
  in_range v = true → in_range (v + 10001 * DAY) = true → 0 ≤ o ≤ 60 →
  1 ≤ (month_index v + o) / 12 ≤ 9999.
Proof.
  unfold in_range. rewrite !andb_true_iff, !Z.leb_le, !Z.ltb_lt. intros [Hlo _] [_ Hhi] Ho.
  assert (H1 : 1 ≤ ordinal v) by (unfold ordinal; units; unfold EPOCH_ORDINAL, MAX_ORDINAL in *; Z.to_euclidean_division_equations; lia).
  assert (H2 : ordinal v + 10001 ≤ MAX_ORDINAL).
  { rewrite <- ordinal_days. unfold ordinal; units; unfold EPOCH_ORDINAL, MAX_ORDINAL in *; Z.to_euclidean_division_equations; lia. }
  destruct (ordinal_month v) as (Hv & Hd & _).
  pose proof (month_start_growth (month_index v) o (proj1 Ho)) as Hg.
  assert (12 ≤ month_index v).
  { apply Z.le_ngt. intros Hlt. apply month_start_lt in Hlt. change (month_start 12) with 0 in Hlt. lia. }
  assert (month_index v + o < 120000); [|Z.to_euclidean_division_equations; lia].
  apply Z.lt_nge. intros Hge.
  pose proof (month_start_growth 120000 (month_index v + o - 120000) ltac:(lia)) as Hg2.
  replace (120000 + (month_index v + o - 120000)) with (month_index v + o) in Hg2 by lia.
  change (month_start 120000) with 3652059 in Hg2. unfold MAX_ORDINAL in H2. lia.
Qed.

Lemma advance_days_total v i days :
  1 ≤ i / 12 ≤ 9999 → Forall (λ d, 1 ≤ d) days →
  ∃ res, advance_days v (i / 12) (i mod 12 + 1) (month_length i) days = Ok res.
Proof.
  intros Hy Hpos. induction Hpos as [|d days Hd Hpos (res & IH)]; cbn [advance_days]; [by eexists|].
  destruct (Z.leb_spec d (month_length i)) as [Hl|Hl]; [|by eexists].
  assert (Hrep : dt_replace v (i / 12) (i mod 12 + 1) d =
    Ok (combine (ymd2ord (i / 12) (i mod 12 + 1) d) (time_of v))).
  { unfold dt_replace, valid_ymd, month_length in *.
    rewrite !(proj2 (Z.leb_le _ _)) by (Z.to_euclidean_division_equations; lia). done. }
  rewrite Hrep. cbn [mbind result_bind]. destruct (_ <? _); by eexists.
Qed.

Lemma advance_monthly_total r v days o k n :
  (∀ o, 0 ≤ o < k + n → 1 ≤ (month_index v + o) / 12 ≤ 9999) → 0 ≤ k →
  StronglySorted Z.le days → Forall (λ d, 1 ≤ d) days → k ≤ o < k + n → o mod interval r = 0 →
  (∃ d, d ∈ days ∧ d ≤ month_length (month_index v + o) ∧ v < on_day v (month_index v + o) d) →
  ∃ c, advance_monthly (seqZ k n) v r days = Ok c.
Proof.
  intros Hy Hk Hs Hpos Ho Hom (d & Hd & Hl & Hv). remember (seqZ k n) as offsets eqn:Eo.
  revert k n Eo Hy Hk Ho. induction offsets as [|k' offsets IH]; intros k n Eo Hy Hk Ho.
  { symmetry in Eo. assert (Hn : (0 < n)) by lia. by rewrite seqZ_cons in Eo. }
  rewrite seqZ_cons in Eo by lia. injection Eo as -> Eo. cbn [advance_monthly].
  assert (Hnext : o ≠ k → ∃ c, advance_monthly offsets v r days = Ok c).
  { intros Hne. apply (IH (Z.succ k) (Z.pred n)); [done|intros o' ?; apply Hy; lia|lia|lia]. }
  destruct (negb (k =? 0) && negb (k mod interval r =? 0)) eqn:Hskip.
  { apply Hnext. intros ->. rewrite Hom in Hskip. by rewrite andb_false_r in Hskip. }
  destruct (advance_days_total v (month_index v + k) days) as (res & Hres); [apply Hy; lia|done|].
  unfold month_length in Hres. rewrite Hres. cbn [mbind result_bind].
  destruct res as [c|]; [by eexists|]. apply Hnext. intros ->.
  apply (advance_days_Ok v (month_index v + k)) in Hres; [|done..]. specialize (Hres d Hd Hl). lia.
Qed.

Lemma advance_total_weekly r v :
  recurrence_valid r = true → searchable r = true → frequency r = RecurrenceFrequency.WEEKLY →
  in_range v = true → in_range (v + 10001 * DAY) = true →
  ∃ c, advance v r = Ok c ∧ c ≤ v + 10000 * DAY.
Proof.
  intros Hval Hsearch Hf Hv Hv2. pose proof (recurrence_valid_facts r Hval) as (Hi & _ & Hw).
  unfold searchable in Hsearch. rewrite Hf in Hsearch. apply Z.leb_le in Hsearch.
  assert (Hne : ∃ d, d ∈ weekdays r).
  { unfold recurrence_valid, recurrence_coherent in Hval. rewrite Hf, !andb_true_iff in Hval.
    destruct (weekdays r) as [|d ?]; [by destruct Hval as (_ & _ & (_ & ?) & _)|].
    exists d. constructor. }
  destruct Hne as (d & Hd). rewrite Forall_forall in Hw. pose proof (Hw _ Hd) as Hd6.
  pose proof (weekday_range v). unfold advance. rewrite Hf.
  destruct (advance_weekly_total (366 * 5) r (week_of v) v (7 * interval r + d - weekday v))
    as (c & Hc & Hle); [lia|done| |apply weekly_target; [lia|done..]|].
  { apply (in_range_between _ _ _ Hv Hv2). units. nia. }
  exists c. split; [done|]. units. nia.
Qed.

(** An allowed day that every month has, one interval later, is a candidate. *)
Lemma advance_total_monthly r v :
  recurrence_valid r = true → searchable r = true → frequency r = RecurrenceFrequency.MONTHLY →
  in_range v = true → in_range (v + 10001 * DAY) = true →
  ∃ c, advance v r = Ok c ∧ c ≤ v + 10000 * DAY.
Proof.
  intros Hval Hsearch Hf Hv Hv2. pose proof (recurrence_valid_facts r Hval) as (Hi & Hm & _).
  unfold searchable in Hsearch. rewrite Hf in Hsearch.
  apply andb_true_iff in Hsearch as [Hi60%Z.leb_le (d & Hd & Hd28%Z.leb_le)%existsb_exists].
  apply list_elem_of_In in Hd. rewrite Forall_forall in Hm. pose proof (Hm _ Hd) as Hd1.
  set (o := month_index v + interval r). pose proof (month_length_bounds o) as Hlen.
  destruct (on_day_spec v o d) as (E1 & E2 & E3); [lia|].
  assert (Hlt : v < on_day v o d) by (apply ordinal_lt, ordinal_month_lt; unfold o in *; lia).
  assert (Hc : ∃ c, advance v r = Ok c).
  { unfold advance. rewrite Hf. apply (advance_monthly_total r v _ (interval r)); [|lia|..].
    - intros o' Ho'. apply month_index_range; [done|done|lia].
    - apply (StronglySorted_merge_sort Z.le).
    - rewrite merge_sort_Permutation. by apply Forall_forall.
    - lia.
    - by apply Z_mod_same_full.
    - exists d. rewrite merge_sort_Permutation. split; [done|]. split; [unfold o in *; lia|done]. }
  destruct Hc as (c & Hc). exists c. split; [done|].
  destruct (advance_follows _ _ _ Hval Hc) as (_ & _ & Hleast).
  assert (c ≤ on_day v o d).
  { apply Z.le_ngt. intros Hbad. apply (Hleast (on_day v o d)); [lia|]. unfold recurs. rewrite Hf.
    repeat split; [done|by rewrite E2|]. rewrite E1. exists 1. unfold o. lia. }
  assert (on_day v o d ≤ v + 10000 * DAY); [|lia].
  destruct (ordinal_month v) as (Ho & Hdv & _).
  pose proof (month_start_growth (month_index v) (interval r) ltac:(lia)) as Hg. fold o in Hg.
  rewrite <- (combine_split v) at 2. unfold on_day, combine. units. lia.
Qed.

Lemma advance_total r v :
  recurrence_valid r = true → searchable r = true →
  in_range v = true → in_range (v + 10001 * DAY) = true →
  ∃ c, advance v r = Ok c ∧ c ≤ v + 10000 * DAY.
Proof.
  intros Hval Hsearch Hv Hv2. destruct (frequency r) eqn:Hf.
  4: by apply advance_total_weekly. 4: by apply advance_total_monthly.
  all: pose proof (recurrence_valid_facts r Hval) as (Hi & _); unfold advance; rewrite Hf;
       eexists; (split; [apply dt_add_Ok; split; [reflexivity|];
       apply (in_range_between _ _ _ Hv Hv2); units; nia|units; nia]).
Qed.

(** ** [next_slot] *)

Lemma resolve_local_Ok local zone slot :
  resolve_local local zone = Ok slot →
  intended_local_time slot = local ∧ scheduled_for slot = local - offset_of_local zone local ∧
  fold slot = 0.
Proof.
  unfold resolve_local, to_utc. rewrite bind_Ok. intros (utc & [-> _]%dt_add_Ok & H).
  apply bind_Ok in H as (rt & _ & [= <-]). done.
Qed.

(** Local times between [prev] and the result belong to instants not after the bound. *)
Lemma search_slot_spec r zone after fuel prev slot :
  recurrence_valid r = true → search_slot fuel prev after zone r = Ok slot →
  prev < intended_local_time slot ∧ recurs r prev (intended_local_time slot) ∧
  resolve_local (intended_local_time slot) zone = Ok slot ∧ after < scheduled_for slot ∧
  ∀ x, prev < x < intended_local_time slot → recurs r prev x →
       ∃ s, resolve_local x zone = Ok s ∧ scheduled_for s ≤ after.
Proof.
  intros Hval. revert prev. induction fuel as [|fuel IH]; intros prev; cbn [search_slot]; [done|].
  rewrite bind_Ok. intros (c & Hc & H). apply bind_Ok in H as (s & Hs & H).
  destruct (advance_follows _ _ _ Hval Hc) as (Hlt & Hrec & Hleast).
  pose proof (resolve_local_Ok _ _ _ Hs) as (El & _ & _).
  destruct (Z.ltb_spec after (scheduled_for s)) as [Ha|Ha].
  - injection H as <-. rewrite El. split_and!; [done..|]. intros x Hx Hrx. by destruct (Hleast x Hx).
  - apply IH in H as (Hlt2 & Hrec2 & Hres & Haft & Hbet).
    split_and!; [lia|by eapply recurs_trans|done..|]. intros x Hx Hrx.
    destruct (Z.lt_trichotomy x c) as [Hxc|[->|Hxc]].
    + destruct (Hleast x); [lia|done].
    + by exists s.
    + apply Hbet; [lia|]. by eapply recurs_shift.
Qed.

(** The offsets [utcoffset] may return: strictly within a day. *)
Record zone_bounded (zone : ZoneInfo) : Prop := {
  local_bounded : ∀ t, - DAY < offset_of_local zone t < DAY;
  instant_bounded : ∀ t, - DAY < offset_at zone t < DAY;
}.

Lemma resolve_local_total zone local :
  zone_bounded zone → in_range (local - 2 * DAY) = true → in_range (local + 2 * DAY) = true →
  ∃ slot, resolve_local local zone = Ok slot.
Proof.
  intros [Hl Hi] H1 H2. specialize (Hl local). unfold resolve_local, to_utc, to_local.
  assert (Hr : ∀ t, local - 2 * DAY ≤ t ≤ local + 2 * DAY → in_range t = true)
    by (intros t Ht; by apply (in_range_between _ _ _ H1 H2)).
  assert (Hutc : dt_add local (- offset_of_local zone local) = Ok (local + - offset_of_local zone local))
    by (apply dt_add_Ok; split; [done|apply Hr; units; lia]).
  rewrite Hutc. cbn [mbind result_bind]. set (utc := local + - offset_of_local zone local) in *.
  specialize (Hi utc).
  assert (Hrt : dt_add utc (offset_at zone utc) = Ok (utc + offset_at zone utc))
    by (apply dt_add_Ok; split; [done|apply Hr; units; lia]).
  rewrite Hrt. by eexists.
Qed.

(** Every step of the search moves on by at least a minute. *)
Lemma advance_minute r v c : recurrence_valid r = true → advance v r = Ok c → v + MINUTE ≤ c.
Proof.
  intros Hval Hc. pose proof (recurrence_valid_facts r Hval) as (Hi & _).
  destruct (advance_follows _ _ _ Hval Hc) as (Hlt & Hrec & _). unfold recurs in Hrec.
  unfold advance in Hc. destruct (frequency r).
  1-3: apply dt_add_Ok in Hc as [-> _]; units; nia.
  all: destruct Hrec as (Ht & _); destruct (same_time_days _ _ Ht) as (k & ->); units; nia.
Qed.

Lemma search_slot_total zone r start after fuel v :
  zone_bounded zone → recurrence_valid r = true → searchable r = true →
  in_range (start - 2 * DAY) = true → in_range (start + 20010 * DAY) = true →
  after ≤ start + DAY → start ≤ v ≤ start + 2 * DAY →
  start + 2 * DAY - v < Z.of_nat fuel * MINUTE →
  ∃ slot, search_slot fuel v after zone r = Ok slot.
Proof.
  intros Hz Hval Hse Hr1 Hr2 Haft. revert v.
  assert (Hr : ∀ t, start - 2 * DAY ≤ t ≤ start + 20010 * DAY → in_range t = true)
    by (intros t Ht; by apply (in_range_between _ _ _ Hr1 Hr2)).
  induction fuel as [|fuel IH]; intros v Hv Hfuel; [units; lia|]. cbn [search_slot].
  destruct (advance_total r v Hval Hse) as (c & Hc & Hle); [apply Hr; units; lia..|].
  pose proof (advance_minute _ _ _ Hval Hc) as Hmin.
  rewrite Hc. cbn [mbind result_bind].
  destruct (resolve_local_total zone c Hz) as (s & Hs); [apply Hr; units; lia..|].
  rewrite Hs. cbn [mbind result_bind]. destruct (Z.ltb_spec after (scheduled_for s)) as [|Ha]; [by eexists|].
  apply resolve_local_Ok in Hs as (_ & Es & _). pose proof (local_bounded _ Hz c).
  apply IH; [|]; units; lia.
Qed.

(** ** The slots of a recurrence *)

(** C18. [_advance] refines the calendar meaning of a recurrence: from any local
    time it returns the least later local time that belongs to the recurrence --
    same clock time, an allowed weekday or day of month, a whole number of
    intervals of weeks or months (or of minutes, hours, days) away -- and skips
    none. *)
Theorem advance_next_recurrence r v c :
  recurrence_valid r = true → advance v r = Ok c →
  v < c ∧ recurs r v c ∧ ∀ x, v < x < c → ¬ recurs r v x.
Proof. apply advance_follows. Qed.

Section slots.
Context (zoneinfo : string → option ZoneInfo).

(** C19. [next_slot] returns a slot of the recurrence that fires strictly after the
    bound, and every slot of the recurrence it passed over fires at or before the
    bound: no occurrence is lost between two slots. *)
Theorem next_slot_spec prev after timezone r slot :
  recurrence_valid r = true → next_slot zoneinfo prev after timezone r = Ok slot →
  ∃ zone, zoneinfo timezone = Some zone ∧
    resolve_local (intended_local_time slot) zone = Ok slot ∧
    prev < intended_local_time slot ∧ recurs r prev (intended_local_time slot) ∧
    after < scheduled_for slot ∧
    ∀ x, prev < x < intended_local_time slot → recurs r prev x →
         ∃ s, resolve_local x zone = Ok s ∧ scheduled_for s ≤ after.
Proof.
  intros Hval. unfold next_slot, zone_of. rewrite bind_Ok. intros (zone & Hz%of_option_Ok & H).
  exists zone. apply search_slot_spec in H as (? & ? & ? & ? & ?); [|done]. done.
Qed.

(** C38. The search of [next_slot] ends: from a slot whose instant is within a day of
    its local time and in every zone with offsets below a day, it finds the next slot
    within its 525,600 steps, short of the end of the calendar, for every valid
    recurrence that is [searchable]: any minutely, hourly or daily one, a weekly one of at most 260
    weeks, and a monthly one of at most 60 months that allows some day every month has
    (up to the 28th; days that only some months have may lie beyond the horizon). *)
Theorem next_slot_total prev after timezone r zone :
  zoneinfo timezone = Some zone → zone_bounded zone →
  recurrence_valid r = true → searchable r = true →
  in_range (prev - 2 * DAY) = true → in_range (prev + 20010 * DAY) = true → after ≤ prev + DAY →
  ∃ slot, next_slot zoneinfo prev after timezone r = Ok slot.
Proof.
  intros Hz Hb Hval Hse H1 H2 Ha. unfold next_slot, zone_of. rewrite Hz. cbn [of_option mbind result_bind].
  apply (search_slot_total zone r prev); [done..|units; lia|]. unfold MAX_SEARCH_STEPS. units. lia.
Qed.

Lemma next_slot_after prev after timezone r slot :
  next_slot zoneinfo prev after timezone r = Ok slot → after < scheduled_for slot.
Proof.
  unfold next_slot. rewrite bind_Ok. intros (zone & _ & H). revert prev H.
  generalize MAX_SEARCH_STEPS. intros fuel. induction fuel as [|fuel IH]; intros prev; cbn [search_slot]; [done|].
  rewrite bind_Ok. intros (c & _ & H). apply bind_Ok in H as (s & _ & H).
  destruct (Z.ltb_spec after (scheduled_for s)); [congruence|eauto].
Qed.

Lemma slot_from_after anchor start timezone zone r slot :
  slot_from zoneinfo anchor start timezone zone r = Ok slot → start ≤ scheduled_for slot.
Proof.
  unfold slot_from. rewrite bind_Ok. intros (s & _ & H).
  destruct (Z.ltb_spec (scheduled_for s) start); [|injection H as <-; lia].
  apply next_slot_after in H. lia.
Qed.

Lemma first_slot_start start timezone r slot :
  first_slot zoneinfo start timezone (Some r) = Ok slot → start ≤ scheduled_for slot.
Proof.
  unfold first_slot. rewrite bind_Ok. intros (zone & _ & H). apply bind_Ok in H as (local & _ & H).
  destruct (is_calendar _); [|by eapply slot_from_after].
  destruct (local_time r) as [time|]; [|done]. destruct (negb _); [apply next_slot_after in H; lia|].
  apply bind_Ok in H as (s & _ & H). destruct (_ <? start); [apply next_slot_after in H; lia|].
  by eapply slot_from_after.
Qed.

(** Every slot of a calendar recurrence matches its selectors. *)
Lemma recurs_selects r v c :
  is_calendar (frequency r) = true → recurs r v c → selector_matches r c = true ∧ time_of c = time_of v.
Proof.
  unfold recurs, selector_matches. destruct (frequency r); [done..| | |]; intros _.
  - intros [k Hk]. split; [done|]. replace c with (v + (k * interval r) * DAY) by lia. apply time_of_days.
  - intros (? & ? & _). by rewrite bool_decide_eq_true_2.
  - intros (? & ? & _). by rewrite bool_decide_eq_true_2.
Qed.

Lemma next_slot_selects prev after timezone r slot :
  recurrence_valid r = true → is_calendar (frequency r) = true →
  next_slot zoneinfo prev after timezone r = Ok slot →
  selector_matches r (intended_local_time slot) = true ∧
  time_of (intended_local_time slot) = time_of prev.
Proof.
  intros Hval Hcal. unfold next_slot. rewrite bind_Ok. intros (zone & _ & H).
  apply search_slot_spec in H as (_ & Hrec & _); [|done]. by apply recurs_selects.
Qed.

(** The first slot of a recurring schedule is on the recurrence and not early:
    it fires at or after [start_at], and for a calendar recurrence at the declared
    local time on an allowed weekday or day of month. *)
Theorem first_slot_correct start timezone r slot :
  recurrence_valid r = true → first_slot zoneinfo start timezone (Some r) = Ok slot →
  start ≤ scheduled_for slot ∧
  (is_calendar (frequency r) = true →
     selector_matches r (intended_local_time slot) = true ∧
     Some (time_of (intended_local_time slot)) = local_time r).
Proof.
  intros Hval Hf. split; [by eapply first_slot_start|]. intros Hcal.
  unfold first_slot in Hf. apply bind_Ok in Hf as (zone & _ & H). apply bind_Ok in H as (local & _ & H).
  rewrite Hcal in H. destruct (local_time r) as [time|] eqn:Ht; [|done].
  assert (Htime : 0 ≤ time < DAY).
  { unfold recurrence_valid, recurrence_fields in Hval. rewrite Ht in Hval. booleans. lia. }
  set (anchor := combine _ time) in H.
  assert (Ea : time_of anchor = time) by (by apply ordinal_combine).
  assert (Hnext : next_slot zoneinfo anchor start timezone r = Ok slot →
    selector_matches r (intended_local_time slot) = true ∧ Some (time_of (intended_local_time slot)) = Some time).
  { intros Hn. apply next_slot_selects in Hn as [? ->]; [|done..]. by rewrite Ea. }
  destruct (selector_matches r anchor) eqn:Hsel; [|by apply Hnext]. cbn [negb] in H.
  apply bind_Ok in H as (s & Hs & H). destruct (_ <? start); [by apply Hnext|].
  unfold slot_from in H. rewrite Hs in H. cbn [mbind result_bind] in H.
  destruct (_ <? start); [by apply Hnext|]. injection H as <-.
  apply resolve_local_Ok in Hs as (-> & _). by rewrite Ea.
Qed.

(** Where a one-time schedule fires: at the instant the zone assigns to the
    local reading of [start_at] with [fold=0]. That is [start_at] exactly when the
    zone reads that local time with the offset in force at [start_at]; in the
    second pass of a repeated hour it is earlier. *)
Theorem one_time_slot start timezone zone slot :
  zoneinfo timezone = Some zone → first_slot zoneinfo start timezone None = Ok slot →
  let local := start + offset_at zone start in
  intended_local_time slot = local ∧
  scheduled_for slot = start + (offset_at zone start - offset_of_local zone local) ∧
  (scheduled_for slot = start ↔ offset_of_local zone local = offset_at zone start) ∧
  (scheduled_for slot = start → nonexistent slot = false).
Proof.
  intros Hz. unfold first_slot, zone_of. rewrite Hz. cbn [of_option mbind result_bind].
  unfold to_local. rewrite bind_Ok. intros (local & [-> _]%dt_add_Ok & H). cbv zeta.
  set (local := start + offset_at zone start) in *.
  pose proof (resolve_local_Ok _ _ _ H) as (-> & Es & _). split; [done|]. split; [lia|]. split; [lia|].
  intros Heq. unfold resolve_local, to_utc, to_local in H.
  apply bind_Ok in H as (utc & [-> _]%dt_add_Ok & H). apply bind_Ok in H as (rt & [-> _]%dt_add_Ok & [= <-]).
  cbn in Heq |- *. rewrite negb_false_iff, Z.eqb_eq, Heq. unfold local. lia.
Qed.
End slots.

(** ** Beyond the horizon *)

Lemma small_multiple a q n : a = q * n → 0 ≤ a < n → a = 0.
Proof. intros -> Ha. assert (q < 1) by nia. assert (0 ≤ q) by nia. nia. Qed.

(** Intervals the validator accepts but the search cannot reach: a weekly
    recurrence on one weekday every 262 weeks or more, or a monthly one on one day
    every 61 months or more, has no successor -- after an occurrence [_advance]
    always raises. *)
Theorem interval_beyond_horizon r v :
  recurrence_valid r = true →
  frequency r = RecurrenceFrequency.WEEKLY ∧ 262 ≤ interval r ∧ weekdays r = [weekday v] ∨
  frequency r = RecurrenceFrequency.MONTHLY ∧ 61 ≤ interval r ∧ month_days r = [day v] →
  ∃ e, advance v r = Err e.
Proof.
  intros Hval Hcase. destruct (advance v r) as [c|e] eqn:Hc; [|by eexists]. exfalso.
  destruct (advance_follows _ _ _ Hval Hc) as (Hlt & Hrec & _).
  unfold advance in Hc. unfold recurs in Hrec.
  destruct Hcase as [(Hf & Hi & Hw)|(Hf & Hi & Hm)]; rewrite Hf in Hc, Hrec.
  - apply advance_weekly_Ok in Hc as (k & Hk & -> & _). rewrite Hw in Hrec.
    destruct Hrec as (_ & Hd%list_elem_of_singleton & [q Hq]). unfold week_of in Hq.
    rewrite Hd, ordinal_days in Hq. apply small_multiple in Hq; lia.
  - rewrite Hm in Hc. destruct (recurrence_valid_facts r Hval) as (_ & Hpos & _). rewrite Hm in Hpos.
    apply (advance_monthly_Ok _ _ _ _ _ 0 61 eq_refl) in Hc as (o & d & Ho & _ & Hd & Hl & -> & _ & _).
    2: apply (StronglySorted_merge_sort Z.le). 2: by rewrite merge_sort_Permutation.
    destruct (on_day_spec v (month_index v + o) d Hl) as (E1 & _ & _).
    destruct Hrec as (_ & _ & [q Hq]). rewrite E1 in Hq.
    apply small_multiple in Hq; [|lia]. assert (o = 0) as -> by lia.
    rewrite merge_sort_Permutation, list_elem_of_singleton in Hd. subst d.
    rewrite Z.add_0_r, <- (on_day_self v v eq_refl) in Hlt. lia.
Qed.

(** ** Instances *)

(** New York around the transitions of 2024: 10 March, 07:00Z, and 3 November, 06:00Z. *)
Definition spring_forward : Z := 1710054000 * SECOND.

Definition fall_back : Z := 1730613600 * SECOND.

Definition new_york : ZoneInfo := {|
  offset_of_local := λ t, if (spring_forward - 4 * HOUR <=? t) && (t <? fall_back - 4 * HOUR)
                          then - 4 * HOUR else - 5 * HOUR;
  offset_at := λ t, if (spring_forward <=? t) && (t <? fall_back) then - 4 * HOUR else - 5 * HOUR |}.

Definition tz_demo (key : string) : option ZoneInfo :=
  if String.eqb key "America/New_York" then Some new_york else None.

Lemma new_york_bounded : zone_bounded new_york.
Proof. split; intros t; cbn [offset_of_local offset_at new_york]; destruct (_ && _); units; lia. Qed.

Definition at_time (y m d hour minute : Z) : Z := combine (ymd2ord y m d) (hour * HOUR + minute * MINUTE).

Definition monthly_31 : RecurrenceSpec := {|
  frequency := RecurrenceFrequency.MONTHLY; interval := 1; weekdays := [];
  month_days := [31]; local_time := Some (9 * HOUR) |}.

Definition daily_0230 : RecurrenceSpec := {|
  frequency := RecurrenceFrequency.DAILY; interval := 1; weekdays := [];
  month_days := []; local_time := Some (2 * HOUR + 30 * MINUTE) |}.

Definition every_300_weeks : RecurrenceSpec := {|
  frequency := RecurrenceFrequency.WEEKLY; interval := 300; weekdays := [0];
  month_days := []; local_time := Some (9 * HOUR) |}.

(** From 31 January the 31st recurs on 31 March. *)
Lemma advance_next_recurrence_witness :
  at_time 2024 1 31 9 0 < at_time 2024 3 31 9 0 ∧
  recurs monthly_31 (at_time 2024 1 31 9 0) (at_time 2024 3 31 9 0) ∧
  ∀ x, at_time 2024 1 31 9 0 < x < at_time 2024 3 31 9 0 →
       ¬ recurs monthly_31 (at_time 2024 1 31 9 0) x.
Proof.
  exact (advance_next_recurrence monthly_31 (at_time 2024 1 31 9 0) (at_time 2024 3 31 9 0)
    ltac:(vm_compute; reflexivity) ltac:(vm_compute; reflexivity)).
Defined.

(** The slot of 10 March, 02:30 does not exist on the clock face. *)
Definition gap_slot : TemporalSlot := {|
  intended_local_time := at_time 2024 3 10 2 30; scheduled_for := at_time 2024 3 10 7 30;
  utc_offset_seconds := -18000; fold := 0; nonexistent := true |}.

Lemma next_slot_spec_witness :
  ∃ zone, tz_demo "America/New_York" = Some zone ∧
    resolve_local (intended_local_time gap_slot) zone = Ok gap_slot ∧
    at_time 2024 3 9 2 30 < intended_local_time gap_slot ∧
    recurs daily_0230 (at_time 2024 3 9 2 30) (intended_local_time gap_slot) ∧
    at_time 2024 3 9 7 30 < scheduled_for gap_slot ∧
    ∀ x, at_time 2024 3 9 2 30 < x < intended_local_time gap_slot →
         recurs daily_0230 (at_time 2024 3 9 2 30) x →
         ∃ s, resolve_local x zone = Ok s ∧ scheduled_for s ≤ at_time 2024 3 9 7 30.
Proof.
  exact (next_slot_spec tz_demo (at_time 2024 3 9 2 30) (at_time 2024 3 9 7 30) "America/New_York"
    daily_0230 gap_slot ltac:(vm_compute; reflexivity) ltac:(vm_compute; reflexivity)).
Defined.

Lemma next_slot_total_witness :
  ∃ slot, next_slot tz_demo (at_time 2024 3 9 2 30) (at_time 2024 3 9 7 30) "America/New_York" daily_0230
          = Ok slot.
Proof.
  exact (next_slot_total tz_demo (at_time 2024 3 9 2 30) (at_time 2024 3 9 7 30) "America/New_York"
    daily_0230 new_york eq_refl new_york_bounded ltac:(vm_compute; reflexivity)
    ltac:(vm_compute; reflexivity) ltac:(vm_compute; reflexivity) ltac:(vm_compute; reflexivity)
    ltac:(vm_compute; discriminate)).
Defined.

(** Started on 10 March, 00:00Z, the daily recurrence first fires on the 10th. *)
Lemma first_slot_correct_witness :
  at_time 2024 3 10 0 0 ≤ scheduled_for gap_slot ∧
  (is_calendar (frequency daily_0230) = true →
     selector_matches daily_0230 (intended_local_time gap_slot) = true ∧
     Some (time_of (intended_local_time gap_slot)) = local_time daily_0230).
Proof.
  exact (first_slot_correct tz_demo (at_time 2024 3 10 0 0) "America/New_York" daily_0230 gap_slot
    ltac:(vm_compute; reflexivity) ltac:(vm_compute; reflexivity)).
Defined.

Lemma mondays_only :
  frequency every_300_weeks = RecurrenceFrequency.WEEKLY ∧ 262 ≤ interval every_300_weeks ∧
  weekdays every_300_weeks = [weekday (at_time 2024 3 11 9 0)].
Proof. split; [done|]. split; [done|]. vm_compute. reflexivity. Qed.

Lemma interval_beyond_horizon_witness : ∃ e, advance (at_time 2024 3 11 9 0) every_300_weeks = Err e.
Proof.
  exact (interval_beyond_horizon every_300_weeks (at_time 2024 3 11 9 0) ltac:(vm_compute; reflexivity)
    (or_introl mondays_only)).
Defined.

(** 06:30Z on 3 November is 01:30 for the second time; the schedule fires at 05:30Z. *)
Definition repeated_slot : TemporalSlot := {|
  intended_local_time := at_time 2024 11 3 1 30; scheduled_for := at_time 2024 11 3 5 30;
  utc_offset_seconds := -14400; fold := 0; nonexistent := false |}.

Lemma one_time_slot_witness :
  scheduled_for repeated_slot =
    at_time 2024 11 3 6 30 + (offset_at new_york (at_time 2024 11 3 6 30) -
      offset_of_local new_york (at_time 2024 11 3 6 30 + offset_at new_york (at_time 2024 11 3 6 30))) ∧
  scheduled_for repeated_slot = at_time 2024 11 3 6 30 - HOUR.
Proof.
  split; [|vm_compute; reflexivity].
  exact (proj1 (proj2 (one_time_slot tz_demo (at_time 2024 11 3 6 30) "America/New_York" new_york
    repeated_slot eq_refl ltac:(vm_compute; reflexivity)))).
Defined.
