(* ===== verification/MessagingStore.v ===== *)
(** * MessagingStore: the data of messaging

    The values of [messaging/entities.py], [messaging/providers/base.py] and
    [messaging/idempotency.py], and the rows of the messaging tables
    ([domain/messaging/models.py]). *)

From S2P Require Import Prelude.
From S2P Require Import Conditions.

(** ** Enumerations *)

(** [messaging/entities.py] *)
Module MessageChannel.
Inductive MessageChannel : Type :=
| WHATSAPP | EMAIL | SMS.
End MessageChannel.
Abbreviation MessageChannel := MessageChannel.MessageChannel.
#[export] Instance MessageChannel_eq : EqDecision MessageChannel.
Proof. solve_decision. Defined.

(** [messaging/entities.py] *)
Module MessageDirection.
Inductive MessageDirection : Type :=
| INBOUND | OUTBOUND.
End MessageDirection.
Abbreviation MessageDirection := MessageDirection.MessageDirection.
#[export] Instance MessageDirection_eq : EqDecision MessageDirection.
Proof. solve_decision. Defined.

(** [messaging/entities.py] *)
Module MessageStatus.
Inductive MessageStatus : Type :=
| RECEIVED | QUEUED | SENDING | SENT | DELIVERED | READ | FAILED.
End MessageStatus.
Abbreviation MessageStatus := MessageStatus.MessageStatus.
#[export] Instance MessageStatus_eq : EqDecision MessageStatus.
Proof. solve_decision. Defined.

(** [messaging/entities.py] *)
Module MessageContentType.
Inductive MessageContentType : Type :=
| TEXT | HTML | MEDIA.
End MessageContentType.
Abbreviation MessageContentType := MessageContentType.MessageContentType.
#[export] Instance MessageContentType_eq : EqDecision MessageContentType.
Proof. solve_decision. Defined.

(** [messaging/entities.py] *)
Module AccountStatus.
Inductive AccountStatus : Type :=
| ACTIVE | DISABLED.
End AccountStatus.
Abbreviation AccountStatus := AccountStatus.AccountStatus.
#[export] Instance AccountStatus_eq : EqDecision AccountStatus.
Proof. solve_decision. Defined.

(** [messaging/entities.py] *)
Module AddressKind.
Inductive AddressKind : Type :=
| PHONE | EMAIL.
End AddressKind.
Abbreviation AddressKind := AddressKind.AddressKind.
#[export] Instance AddressKind_eq : EqDecision AddressKind.
Proof. solve_decision. Defined.

(** [messaging/idempotency.py] *)
Module SendIdempotencyStatus.
Inductive SendIdempotencyStatus : Type :=
| PENDING | COMPLETED | FAILED.
End SendIdempotencyStatus.
Abbreviation SendIdempotencyStatus := SendIdempotencyStatus.SendIdempotencyStatus.
#[export] Instance SendIdempotencyStatus_eq : EqDecision SendIdempotencyStatus.
Proof. solve_decision. Defined.

(** ** Values *)

(** [MessageAddress] *)
Record MessageAddress : Type := mkAddress {
  ad_kind : AddressKind;
  ad_value : string;
  ad_display : option string;
}.
#[export] Instance MessageAddress_eq : EqDecision MessageAddress.
Proof. solve_decision. Defined.

(** [MediaMetadata] *)
Record MediaMetadata : Type := mkMedia {
  media_provider_media_id : option string;
  media_declared_mime_type : option string;
  media_declared_filename : option string;
  media_declared_byte_size : option Z;
  media_caption : option string;
}.
#[export] Instance MediaMetadata_eq : EqDecision MediaMetadata.
Proof. solve_decision. Defined.

(** [MessageContent] *)
Record MessageContent : Type := mkContent {
  body_content_type : MessageContentType;
  body_text : option string;
  body_html : option string;
  body_media : list MediaMetadata;
}.

Definition set_body_text (v : option string) (r : MessageContent) : MessageContent :=
  mkContent (body_content_type r) v (body_html r) (body_media r).
Definition set_body_html (v : option string) (r : MessageContent) : MessageContent :=
  mkContent (body_content_type r) (body_text r) v (body_media r).
#[export] Instance MessageContent_eq : EqDecision MessageContent.
Proof. solve_decision. Defined.

(** [EmailEnvelopeFields] *)
Record EmailEnvelopeFields : Type := mkEmail {
  em_subject : option string;
  em_cc : list MessageAddress;
  em_bcc : list MessageAddress;
  em_message_id_header : option string;
  em_in_reply_to : option string;
  em_references : list string;
}.
#[export] Instance EmailEnvelopeFields_eq : EqDecision EmailEnvelopeFields.
Proof. solve_decision. Defined.

(** [SmsSegmentInfo] *)
Record SmsSegmentInfo : Type := mkSegments {
  sg_encoding : option string;
  sg_segment_count : option Z;
}.
#[export] Instance SmsSegmentInfo_eq : EqDecision SmsSegmentInfo.
Proof. solve_decision. Defined.

(** [OutboundAddressInput] *)
Record OutboundAddressInput : Type := mkOutbound {
  oa_value : string;
  oa_display : option string;
}.

(** [SendMessageRequest] *)
Record SendMessageRequest : Type := mkSend {
  sm_account_id : uuid;
  sm_conversation_id : uuid;
  sm_to : list OutboundAddressInput;
  sm_content : MessageContent;
  sm_subject : option string;
  sm_reply_to_message_id : option uuid;
  sm_idempotency_key : option string;
  sm_correlation_id : option string;
}.

(** [PreparedSend]: what a provider is given *)
Record PreparedSend : Type := mkPrepared {
  pr_sender : MessageAddress;
  pr_recipients : list MessageAddress;
  pr_content : MessageContent;
  pr_subject : option string;
  pr_email : option EmailEnvelopeFields;
  pr_reply_provider_message_id : option string;
}.

(** [ProviderSendResult] *)
Record ProviderSendResult : Type := mkSendResult {
  res_provider_message_id : string;
  res_status : MessageStatus;
  res_provider_timestamp : option Z;
  res_sms : option SmsSegmentInfo;
}.

(** ** Rows *)

(** [messaging_accounts] *)
Record MessagingAccountRecord : Type := mkAccount {
  ma_id : uuid;
  ma_organization_id : uuid;
  ma_channel : MessageChannel;
  ma_provider : string;
  ma_slug : string;
  ma_external_account_id : string;
  ma_sender_identity : string;
  ma_credential_ref : option string;
  ma_status : AccountStatus;
  ma_configuration : list (string * json);
  ma_webhook_token : string;
  ma_created_at : Z;
  ma_updated_at : Z;
}.

Definition set_ma_credential_ref (v : option string) (r : MessagingAccountRecord) : MessagingAccountRecord :=
  mkAccount (ma_id r) (ma_organization_id r) (ma_channel r) (ma_provider r) (ma_slug r)
    (ma_external_account_id r) (ma_sender_identity r) v (ma_status r) (ma_configuration r)
    (ma_webhook_token r) (ma_created_at r) (ma_updated_at r).
Definition set_ma_status (v : AccountStatus) (r : MessagingAccountRecord) : MessagingAccountRecord :=
  mkAccount (ma_id r) (ma_organization_id r) (ma_channel r) (ma_provider r) (ma_slug r)
    (ma_external_account_id r) (ma_sender_identity r) (ma_credential_ref r) v
    (ma_configuration r) (ma_webhook_token r) (ma_created_at r) (ma_updated_at r).
Definition set_ma_configuration (v : list (string * json)) (r : MessagingAccountRecord) : MessagingAccountRecord :=
  mkAccount (ma_id r) (ma_organization_id r) (ma_channel r) (ma_provider r) (ma_slug r)
    (ma_external_account_id r) (ma_sender_identity r) (ma_credential_ref r) (ma_status r) v
    (ma_webhook_token r) (ma_created_at r) (ma_updated_at r).
Definition set_ma_updated_at (v : Z) (r : MessagingAccountRecord) : MessagingAccountRecord :=
  mkAccount (ma_id r) (ma_organization_id r) (ma_channel r) (ma_provider r) (ma_slug r)
    (ma_external_account_id r) (ma_sender_identity r) (ma_credential_ref r) (ma_status r)
    (ma_configuration r) (ma_webhook_token r) (ma_created_at r) v.

(** [messaging_messages]: the row and the [Message] it is read as have the same fields, the
    JSONB columns holding dumped values *)
Record MessagingMessageRecord : Type := mkMessage {
  mm_id : uuid;
  mm_organization_id : uuid;
  mm_conversation_id : uuid;
  mm_customer_id : option uuid;
  mm_account_id : uuid;
  mm_channel : MessageChannel;
  mm_direction : MessageDirection;
  mm_status : MessageStatus;
  mm_provider : string;
  mm_provider_message_id : option string;
  mm_sender : MessageAddress;
  mm_recipients : list MessageAddress;
  mm_content : MessageContent;
  mm_email : option EmailEnvelopeFields;
  mm_sms : option SmsSegmentInfo;
  mm_reply_to_message_id : option uuid;
  mm_correlation_id : option string;
  mm_idempotency_key : option string;
  mm_error_code : option string;
  mm_provider_timestamp : option Z;
  mm_sent_at : option Z;
  mm_delivered_at : option Z;
  mm_read_at : option Z;
  mm_failed_at : option Z;
  mm_created_at : Z;
  mm_updated_at : Z;
}.

Definition set_mm_status (v : MessageStatus) (r : MessagingMessageRecord) : MessagingMessageRecord :=
  mkMessage (mm_id r) (mm_organization_id r) (mm_conversation_id r) (mm_customer_id r)
    (mm_account_id r) (mm_channel r) (mm_direction r) v (mm_provider r)
    (mm_provider_message_id r) (mm_sender r) (mm_recipients r) (mm_content r) (mm_email r)
    (mm_sms r) (mm_reply_to_message_id r) (mm_correlation_id r) (mm_idempotency_key r)
    (mm_error_code r) (mm_provider_timestamp r) (mm_sent_at r) (mm_delivered_at r)
    (mm_read_at r) (mm_failed_at r) (mm_created_at r) (mm_updated_at r).
Definition set_mm_provider_message_id (v : option string) (r : MessagingMessageRecord) : MessagingMessageRecord :=
  mkMessage (mm_id r) (mm_organization_id r) (mm_conversation_id r) (mm_customer_id r)
    (mm_account_id r) (mm_channel r) (mm_direction r) (mm_status r) (mm_provider r) v
    (mm_sender r) (mm_recipients r) (mm_content r) (mm_email r) (mm_sms r)
    (mm_reply_to_message_id r) (mm_correlation_id r) (mm_idempotency_key r) (mm_error_code r)
    (mm_provider_timestamp r) (mm_sent_at r) (mm_delivered_at r) (mm_read_at r) (mm_failed_at r)
    (mm_created_at r) (mm_updated_at r).
Definition set_mm_sms (v : option SmsSegmentInfo) (r : MessagingMessageRecord) : MessagingMessageRecord :=
  mkMessage (mm_id r) (mm_organization_id r) (mm_conversation_id r) (mm_customer_id r)
    (mm_account_id r) (mm_channel r) (mm_direction r) (mm_status r) (mm_provider r)
    (mm_provider_message_id r) (mm_sender r) (mm_recipients r) (mm_content r) (mm_email r) v
    (mm_reply_to_message_id r) (mm_correlation_id r) (mm_idempotency_key r) (mm_error_code r)
    (mm_provider_timestamp r) (mm_sent_at r) (mm_delivered_at r) (mm_read_at r) (mm_failed_at r)
    (mm_created_at r) (mm_updated_at r).
Definition set_mm_error_code (v : option string) (r : MessagingMessageRecord) : MessagingMessageRecord :=
  mkMessage (mm_id r) (mm_organization_id r) (mm_conversation_id r) (mm_customer_id r)
    (mm_account_id r) (mm_channel r) (mm_direction r) (mm_status r) (mm_provider r)
    (mm_provider_message_id r) (mm_sender r) (mm_recipients r) (mm_content r) (mm_email r)
    (mm_sms r) (mm_reply_to_message_id r) (mm_correlation_id r) (mm_idempotency_key r) v
    (mm_provider_timestamp r) (mm_sent_at r) (mm_delivered_at r) (mm_read_at r) (mm_failed_at r)
    (mm_created_at r) (mm_updated_at r).
Definition set_mm_provider_timestamp (v : option Z) (r : MessagingMessageRecord) : MessagingMessageRecord :=
  mkMessage (mm_id r) (mm_organization_id r) (mm_conversation_id r) (mm_customer_id r)
    (mm_account_id r) (mm_channel r) (mm_direction r) (mm_status r) (mm_provider r)
    (mm_provider_message_id r) (mm_sender r) (mm_recipients r) (mm_content r) (mm_email r)
    (mm_sms r) (mm_reply_to_message_id r) (mm_correlation_id r) (mm_idempotency_key r)
    (mm_error_code r) v (mm_sent_at r) (mm_delivered_at r) (mm_read_at r) (mm_failed_at r)
    (mm_created_at r) (mm_updated_at r).
Definition set_mm_sent_at (v : option Z) (r : MessagingMessageRecord) : MessagingMessageRecord :=
  mkMessage (mm_id r) (mm_organization_id r) (mm_conversation_id r) (mm_customer_id r)
    (mm_account_id r) (mm_channel r) (mm_direction r) (mm_status r) (mm_provider r)
    (mm_provider_message_id r) (mm_sender r) (mm_recipients r) (mm_content r) (mm_email r)
    (mm_sms r) (mm_reply_to_message_id r) (mm_correlation_id r) (mm_idempotency_key r)
    (mm_error_code r) (mm_provider_timestamp r) v (mm_delivered_at r) (mm_read_at r)
    (mm_failed_at r) (mm_created_at r) (mm_updated_at r).
Definition set_mm_delivered_at (v : option Z) (r : MessagingMessageRecord) : MessagingMessageRecord :=
  mkMessage (mm_id r) (mm_organization_id r) (mm_conversation_id r) (mm_customer_id r)
    (mm_account_id r) (mm_channel r) (mm_direction r) (mm_status r) (mm_provider r)
    (mm_provider_message_id r) (mm_sender r) (mm_recipients r) (mm_content r) (mm_email r)
    (mm_sms r) (mm_reply_to_message_id r) (mm_correlation_id r) (mm_idempotency_key r)
    (mm_error_code r) (mm_provider_timestamp r) (mm_sent_at r) v (mm_read_at r) (mm_failed_at r)
    (mm_created_at r) (mm_updated_at r).
Definition set_mm_read_at (v : option Z) (r : MessagingMessageRecord) : MessagingMessageRecord :=
  mkMessage (mm_id r) (mm_organization_id r) (mm_conversation_id r) (mm_customer_id r)
    (mm_account_id r) (mm_channel r) (mm_direction r) (mm_status r) (mm_provider r)
    (mm_provider_message_id r) (mm_sender r) (mm_recipients r) (mm_content r) (mm_email r)
    (mm_sms r) (mm_reply_to_message_id r) (mm_correlation_id r) (mm_idempotency_key r)
    (mm_error_code r) (mm_provider_timestamp r) (mm_sent_at r) (mm_delivered_at r) v
    (mm_failed_at r) (mm_created_at r) (mm_updated_at r).
Definition set_mm_failed_at (v : option Z) (r : MessagingMessageRecord) : MessagingMessageRecord :=
  mkMessage (mm_id r) (mm_organization_id r) (mm_conversation_id r) (mm_customer_id r)
    (mm_account_id r) (mm_channel r) (mm_direction r) (mm_status r) (mm_provider r)
    (mm_provider_message_id r) (mm_sender r) (mm_recipients r) (mm_content r) (mm_email r)
    (mm_sms r) (mm_reply_to_message_id r) (mm_correlation_id r) (mm_idempotency_key r)
    (mm_error_code r) (mm_provider_timestamp r) (mm_sent_at r) (mm_delivered_at r)
    (mm_read_at r) v (mm_created_at r) (mm_updated_at r).
Definition set_mm_updated_at (v : Z) (r : MessagingMessageRecord) : MessagingMessageRecord :=
  mkMessage (mm_id r) (mm_organization_id r) (mm_conversation_id r) (mm_customer_id r)
    (mm_account_id r) (mm_channel r) (mm_direction r) (mm_status r) (mm_provider r)
    (mm_provider_message_id r) (mm_sender r) (mm_recipients r) (mm_content r) (mm_email r)
    (mm_sms r) (mm_reply_to_message_id r) (mm_correlation_id r) (mm_idempotency_key r)
    (mm_error_code r) (mm_provider_timestamp r) (mm_sent_at r) (mm_delivered_at r)
    (mm_read_at r) (mm_failed_at r) (mm_created_at r) v.

(** [messaging_inbound_receipts] *)
Record MessagingInboundReceiptRecord : Type := mkInboundReceipt {
  ib_id : uuid;
  ib_organization_id : uuid;
  ib_account_id : uuid;
  ib_event_id : string;
  ib_message_id : option uuid;
  ib_status : string;
  ib_created_at : Z;
}.

Definition set_ib_status (v : string) (r : MessagingInboundReceiptRecord) : MessagingInboundReceiptRecord :=
  mkInboundReceipt (ib_id r) (ib_organization_id r) (ib_account_id r) (ib_event_id r) (ib_message_id r)
    v (ib_created_at r).
Definition set_ib_message_id (v : option uuid) (r : MessagingInboundReceiptRecord) : MessagingInboundReceiptRecord :=
  mkInboundReceipt (ib_id r) (ib_organization_id r) (ib_account_id r) (ib_event_id r) v
    (ib_status r) (ib_created_at r).

(** [messaging_send_idempotency]: [result_json] is the dumped view of the message, which
    validates back to it, and is modelled by the message *)
Record MessagingSendIdempotencyRecord : Type := mkSendClaim {
  sd_id : uuid;
  sd_organization_id : uuid;
  sd_account_id : uuid;
  sd_idempotency_key : string;
  sd_request_fingerprint : string;
  sd_status : SendIdempotencyStatus;
  sd_message_id : option uuid;
  sd_result : option MessagingMessageRecord;
  sd_error_code : option string;
  sd_created_at : Z;
  sd_updated_at : Z;
  sd_expires_at : Z;
}.

Definition set_sd_status (v : SendIdempotencyStatus) (r : MessagingSendIdempotencyRecord) : MessagingSendIdempotencyRecord :=
  mkSendClaim (sd_id r) (sd_organization_id r) (sd_account_id r) (sd_idempotency_key r)
    (sd_request_fingerprint r) v (sd_message_id r) (sd_result r) (sd_error_code r)
    (sd_created_at r) (sd_updated_at r) (sd_expires_at r).
Definition set_sd_message_id (v : option uuid) (r : MessagingSendIdempotencyRecord) : MessagingSendIdempotencyRecord :=
  mkSendClaim (sd_id r) (sd_organization_id r) (sd_account_id r) (sd_idempotency_key r)
    (sd_request_fingerprint r) (sd_status r) v (sd_result r) (sd_error_code r) (sd_created_at r)
    (sd_updated_at r) (sd_expires_at r).
Definition set_sd_result (v : option MessagingMessageRecord) (r : MessagingSendIdempotencyRecord) : MessagingSendIdempotencyRecord :=
  mkSendClaim (sd_id r) (sd_organization_id r) (sd_account_id r) (sd_idempotency_key r)
    (sd_request_fingerprint r) (sd_status r) (sd_message_id r) v (sd_error_code r)
    (sd_created_at r) (sd_updated_at r) (sd_expires_at r).
Definition set_sd_error_code (v : option string) (r : MessagingSendIdempotencyRecord) : MessagingSendIdempotencyRecord :=
  mkSendClaim (sd_id r) (sd_organization_id r) (sd_account_id r) (sd_idempotency_key r)
    (sd_request_fingerprint r) (sd_status r) (sd_message_id r) (sd_result r) v (sd_created_at r)
    (sd_updated_at r) (sd_expires_at r).
Definition set_sd_updated_at (v : Z) (r : MessagingSendIdempotencyRecord) : MessagingSendIdempotencyRecord :=
  mkSendClaim (sd_id r) (sd_organization_id r) (sd_account_id r) (sd_idempotency_key r)
    (sd_request_fingerprint r) (sd_status r) (sd_message_id r) (sd_result r) (sd_error_code r)
    (sd_created_at r) v (sd_expires_at r).

(** A request that reached a provider: what leaves the system and cannot be rolled back. *)
Record ProviderCall : Type := mkCall {
  pc_organization_id : uuid;
  pc_account_id : uuid;
  pc_idempotency_key : option string;
  pc_message_id : uuid;
  pc_prepared : PreparedSend;
}.

(** ** Tables *)

(** The tables of messaging, each a list of rows in insertion order. *)
Record MessagingDB : Type := mkMessagingDB {
  mdb_accounts : list MessagingAccountRecord;
  mdb_messages : list MessagingMessageRecord;
  mdb_receipts : list MessagingInboundReceiptRecord;
  mdb_sends : list MessagingSendIdempotencyRecord;
}.

Definition set_mdb_accounts (v : list MessagingAccountRecord) (r : MessagingDB) : MessagingDB :=
  mkMessagingDB v (mdb_messages r) (mdb_receipts r) (mdb_sends r).
Definition set_mdb_messages (v : list MessagingMessageRecord) (r : MessagingDB) : MessagingDB :=
  mkMessagingDB (mdb_accounts r) v (mdb_receipts r) (mdb_sends r).
Definition set_mdb_receipts (v : list MessagingInboundReceiptRecord) (r : MessagingDB) : MessagingDB :=
  mkMessagingDB (mdb_accounts r) (mdb_messages r) v (mdb_sends r).
Definition set_mdb_sends (v : list MessagingSendIdempotencyRecord) (r : MessagingDB) : MessagingDB :=
  mkMessagingDB (mdb_accounts r) (mdb_messages r) (mdb_receipts r) v.

Definition empty_messaging_db : MessagingDB := mkMessagingDB [] [] [] [].
