(* ===== verification/CustomerStore.v ===== *)
(** * CustomerStore: the data of customers and conversations

    The enumerations of [domain/customers/entities.py] and the rows of
    [domain/customers/models.py]. The columns that the code reads back through an
    enumeration ([status], [identity_type], [verification_state]) are the strings the
    database stores. *)

From S2P Require Import Prelude.
From S2P Require Import Conditions.

(** ** Enumerations *)

(** [domain/customers/entities.py] *)
Module IdentityType.
Inductive IdentityType : Type :=
| EMAIL | PHONE | EXTERNAL_ID.
End IdentityType.
Abbreviation IdentityType := IdentityType.IdentityType.
#[export] Instance IdentityType_eq : EqDecision IdentityType.
Proof. solve_decision. Defined.

(** [domain/customers/entities.py] *)
Module IdentityVerificationState.
Inductive IdentityVerificationState : Type :=
| UNVERIFIED | VERIFIED | REVOKED.
End IdentityVerificationState.
Abbreviation IdentityVerificationState := IdentityVerificationState.IdentityVerificationState.
#[export] Instance IdentityVerificationState_eq : EqDecision IdentityVerificationState.
Proof. solve_decision. Defined.

(** [domain/customers/entities.py] *)
Module CustomerStatus.
Inductive CustomerStatus : Type :=
| ACTIVE | SUSPENDED.
End CustomerStatus.
Abbreviation CustomerStatus := CustomerStatus.CustomerStatus.
#[export] Instance CustomerStatus_eq : EqDecision CustomerStatus.
Proof. solve_decision. Defined.

(** [domain/customers/entities.py] *)
Module IdentityStatus.
Inductive IdentityStatus : Type :=
| ACTIVE | REVOKED.
End IdentityStatus.
Abbreviation IdentityStatus := IdentityStatus.IdentityStatus.
#[export] Instance IdentityStatus_eq : EqDecision IdentityStatus.
Proof. solve_decision. Defined.

(** [domain/customers/entities.py] *)
Module ConversationStatus.
Inductive ConversationStatus : Type :=
| PENDING | OPEN | CLOSED.
End ConversationStatus.
Abbreviation ConversationStatus := ConversationStatus.ConversationStatus.
#[export] Instance ConversationStatus_eq : EqDecision ConversationStatus.
Proof. solve_decision. Defined.

(** [domain/customers/entities.py] *)
Module ParticipantType.
Inductive ParticipantType : Type :=
| CUSTOMER | HUMAN_AGENT | AI_AGENT | SYSTEM.
End ParticipantType.
Abbreviation ParticipantType := ParticipantType.ParticipantType.
#[export] Instance ParticipantType_eq : EqDecision ParticipantType.
Proof. solve_decision. Defined.

(** [domain/customers/entities.py] *)
Module ActivityType.
Inductive ActivityType : Type :=
| CUSTOMER_CREATED | IDENTITY_LINKED | IDENTITY_STATUS_CHANGED | CONVERSATION_OPENED |
CONVERSATION_CLOSED | MESSAGE_INBOUND | MESSAGE_OUTBOUND.
End ActivityType.
Abbreviation ActivityType := ActivityType.ActivityType.
#[export] Instance ActivityType_eq : EqDecision ActivityType.
Proof. solve_decision. Defined.

(** ** Rows *)

(** [customers] *)
Record CustomerRecord : Type := mkCustomer {
  cu_id : uuid;
  cu_organization_id : uuid;
  cu_display_name : string;
  cu_status : string;
  cu_preferred_locale : option string;
  cu_version : Z;
  cu_created_at : Z;
  cu_updated_at : Z;
}.

Definition set_cu_display_name (v : string) (r : CustomerRecord) : CustomerRecord :=
  mkCustomer (cu_id r) (cu_organization_id r) v (cu_status r) (cu_preferred_locale r)
    (cu_version r) (cu_created_at r) (cu_updated_at r).
Definition set_cu_status (v : string) (r : CustomerRecord) : CustomerRecord :=
  mkCustomer (cu_id r) (cu_organization_id r) (cu_display_name r) v (cu_preferred_locale r)
    (cu_version r) (cu_created_at r) (cu_updated_at r).
Definition set_cu_preferred_locale (v : option string) (r : CustomerRecord) : CustomerRecord :=
  mkCustomer (cu_id r) (cu_organization_id r) (cu_display_name r) (cu_status r) v (cu_version r)
    (cu_created_at r) (cu_updated_at r).
Definition set_cu_version (v : Z) (r : CustomerRecord) : CustomerRecord :=
  mkCustomer (cu_id r) (cu_organization_id r) (cu_display_name r) (cu_status r)
    (cu_preferred_locale r) v (cu_created_at r) (cu_updated_at r).

(** [customer_identities] *)
Record CustomerIdentityRecord : Type := mkIdentity {
  ci_id : uuid;
  ci_organization_id : uuid;
  ci_customer_id : uuid;
  ci_identity_type : string;
  ci_normalized_value : string;
  ci_verification_state : string;
  ci_is_primary : bool;
  ci_source : string;
  ci_status : string;
  ci_created_at : Z;
  ci_updated_at : Z;
}.

Definition set_ci_verification_state (v : string) (r : CustomerIdentityRecord) : CustomerIdentityRecord :=
  mkIdentity (ci_id r) (ci_organization_id r) (ci_customer_id r) (ci_identity_type r)
    (ci_normalized_value r) v (ci_is_primary r) (ci_source r) (ci_status r) (ci_created_at r)
    (ci_updated_at r).
Definition set_ci_status (v : string) (r : CustomerIdentityRecord) : CustomerIdentityRecord :=
  mkIdentity (ci_id r) (ci_organization_id r) (ci_customer_id r) (ci_identity_type r)
    (ci_normalized_value r) (ci_verification_state r) (ci_is_primary r) (ci_source r) v
    (ci_created_at r) (ci_updated_at r).
Definition set_ci_updated_at (v : Z) (r : CustomerIdentityRecord) : CustomerIdentityRecord :=
  mkIdentity (ci_id r) (ci_organization_id r) (ci_customer_id r) (ci_identity_type r)
    (ci_normalized_value r) (ci_verification_state r) (ci_is_primary r) (ci_source r)
    (ci_status r) (ci_created_at r) v.

(** [conversations] *)
Record ConversationRecord : Type := mkConversation {
  cn_id : uuid;
  cn_organization_id : uuid;
  cn_customer_id : option uuid;
  cn_channel : string;
  cn_status : string;
  cn_provider_namespace : option string;
  cn_external_thread_id : option string;
  cn_subject : option string;
  cn_version : Z;
  cn_opened_at : Z;
  cn_last_activity_at : Z;
  cn_closed_at : option Z;
}.

Definition set_cn_status (v : string) (r : ConversationRecord) : ConversationRecord :=
  mkConversation (cn_id r) (cn_organization_id r) (cn_customer_id r) (cn_channel r) v
    (cn_provider_namespace r) (cn_external_thread_id r) (cn_subject r) (cn_version r)
    (cn_opened_at r) (cn_last_activity_at r) (cn_closed_at r).
Definition set_cn_version (v : Z) (r : ConversationRecord) : ConversationRecord :=
  mkConversation (cn_id r) (cn_organization_id r) (cn_customer_id r) (cn_channel r)
    (cn_status r) (cn_provider_namespace r) (cn_external_thread_id r) (cn_subject r) v
    (cn_opened_at r) (cn_last_activity_at r) (cn_closed_at r).
Definition set_cn_last_activity_at (v : Z) (r : ConversationRecord) : ConversationRecord :=
  mkConversation (cn_id r) (cn_organization_id r) (cn_customer_id r) (cn_channel r)
    (cn_status r) (cn_provider_namespace r) (cn_external_thread_id r) (cn_subject r)
    (cn_version r) (cn_opened_at r) v (cn_closed_at r).
Definition set_cn_closed_at (v : option Z) (r : ConversationRecord) : ConversationRecord :=
  mkConversation (cn_id r) (cn_organization_id r) (cn_customer_id r) (cn_channel r)
    (cn_status r) (cn_provider_namespace r) (cn_external_thread_id r) (cn_subject r)
    (cn_version r) (cn_opened_at r) (cn_last_activity_at r) v.

(** [conversation_participants] *)
Record ConversationParticipantRecord : Type := mkParticipant {
  pt_id : uuid;
  pt_organization_id : uuid;
  pt_conversation_id : uuid;
  pt_participant_type : ParticipantType;
  pt_participant_ref : string;
  pt_joined_at : Z;
  pt_left_at : option Z;
}.

(** [conversation_activities] *)
Record ConversationActivityRecord : Type := mkActivity {
  av_id : uuid;
  av_organization_id : uuid;
  av_customer_id : option uuid;
  av_conversation_id : option uuid;
  av_activity_type : ActivityType;
  av_dedup_key : option string;
  av_occurred_at : Z;
  av_data : list (string * json);
  av_created_at : Z;
}.

(** ** Tables *)

(** The tables of customers and conversations, each a list of rows in insertion order. *)
Record CustomerDB : Type := mkCustomerDB {
  cdb_customers : list CustomerRecord;
  cdb_identities : list CustomerIdentityRecord;
  cdb_conversations : list ConversationRecord;
  cdb_participants : list ConversationParticipantRecord;
  cdb_activities : list ConversationActivityRecord;
}.

Definition set_cdb_customers (v : list CustomerRecord) (r : CustomerDB) : CustomerDB :=
  mkCustomerDB v (cdb_identities r) (cdb_conversations r) (cdb_participants r)
    (cdb_activities r).
Definition set_cdb_identities (v : list CustomerIdentityRecord) (r : CustomerDB) : CustomerDB :=
  mkCustomerDB (cdb_customers r) v (cdb_conversations r) (cdb_participants r) (cdb_activities r).
Definition set_cdb_conversations (v : list ConversationRecord) (r : CustomerDB) : CustomerDB :=
  mkCustomerDB (cdb_customers r) (cdb_identities r) v (cdb_participants r) (cdb_activities r).
Definition set_cdb_participants (v : list ConversationParticipantRecord) (r : CustomerDB) : CustomerDB :=
  mkCustomerDB (cdb_customers r) (cdb_identities r) (cdb_conversations r) v (cdb_activities r).
Definition set_cdb_activities (v : list ConversationActivityRecord) (r : CustomerDB) : CustomerDB :=
  mkCustomerDB (cdb_customers r) (cdb_identities r) (cdb_conversations r) (cdb_participants r) v.

Definition empty_customer_db : CustomerDB := mkCustomerDB [] [] [] [] [].
