(* ===== verification/Normalization.v ===== *)
(** * Normalization: canonical identity values

    [domain/customers/normalization.py], the e-mail rules of [domain/auth/identity.py]
    and [messaging/addresses.py]: what uniqueness and resolution of customer identities
    operate on. Unicode normalisation ([unicodedata.normalize]) is a parameter with the
    properties the standard states; on ASCII text it is the identity. *)

From S2P Require Import Prelude.
From S2P Require Import PyText.
From S2P Require Import Errors.
From S2P Require Import MessagingStore.
From S2P Require Import CustomerStore.

Definition is_ascii (c : ascii) : bool := (N_of_ascii c <? 128)%N.

(** [unicodedata.normalize('NFC', ·)] and [('NFKC', ·)]: both leave ASCII text alone;
    NFC is idempotent, a part of a normalised text is normalised, and it makes no white
    space out of other characters. *)
Class UnicodeForms : Type := {
  nfc : string → string;
  nfkc : string → string;
  nfc_ascii s : all_chars is_ascii s = true → nfc s = s;
  nfkc_ascii s : all_chars is_ascii s = true → nfkc s = s;
  nfc_idem s : nfc (nfc s) = nfc s;
  nfc_part s : nfc s = s → nfc (strip s) = strip s;
  nfc_strip s : strip (nfc (strip s)) = nfc (strip s);
}.

Definition digit (c : ascii) : bool := between "0" "9" c.
Definition letter (c : ascii) : bool := between "a" "z" c || between "A" "Z" c.
Definition alnum (c : ascii) : bool := letter c || digit c.

(** The line feed, which [$] of a pattern allows at the end of the text. *)
Definition newline : ascii := ascii_of_N 10.

Fixpoint chop_newline (s : string) : string :=
  match s with
  | EmptyString => EmptyString
  | String c EmptyString => if Ascii.eqb c newline then EmptyString else s
  | String c s => String c (chop_newline s)
  end.

(** [_EXTERNAL_CONTROL] *)
Definition control (c : ascii) : bool := ((N_of_ascii c <? 32) || (N_of_ascii c =? 127))%N.

(** ** E-mail addresses *)

(** [_LOCAL_PART]: one character of the class or more, and possibly a line feed. *)
Definition local_char (c : ascii) : bool :=
  alnum c || has_char (Ascii.eqb c) ".!#$%&'*+/=?^_`{|}~-".

Definition local_part_match (s : string) : bool :=
  let body := chop_newline s in negb (String.eqb body EmptyString) && all_chars local_char body.

(** One label of [_DOMAIN]: at most 63 letters, digits and hyphens, no hyphen at the ends. *)
Fixpoint last_char (s : string) : option ascii :=
  match s with
  | EmptyString => None
  | String c EmptyString => Some c
  | String _ s => last_char s
  end.

Definition label_match (s : string) : bool :=
  match s with
  | EmptyString => false
  | String c _ =>
      alnum c && all_chars (λ c, alnum c || Ascii.eqb c "-") s &&
      match last_char s with Some d => alnum d | None => false end && (slen s <=? 63)
  end.

Definition domain_match (s : string) : bool :=
  let labels := split_on "." (chop_newline s) in
  (2 <=? length labels)%nat && forallb label_match labels.

Definition MAX_LOCAL_LENGTH : Z := 64.
Definition MAX_DOMAIN_LENGTH : Z := 255.
Definition MAX_TOTAL_LENGTH : Z := 254.
Definition MAX_EXTERNAL_LENGTH : Z := 160.

Section normalization.
Context `{UnicodeForms}.

Definition normalize_email (raw : string) : result exn string :=
  let candidate := lower (nfc (strip raw)) in
  if (slen candidate =? 0) || (MAX_TOTAL_LENGTH <? slen candidate) then Err (Nxs ValidationFailedError)
  else
    match split_on "@" candidate with
    | [local; domain] =>
        if (slen local =? 0) || (MAX_LOCAL_LENGTH <? slen local) || (MAX_DOMAIN_LENGTH <? slen domain) ||
           negb (local_part_match local) || negb (domain_match domain)
        then Err (Nxs ValidationFailedError) else Ok candidate
    | _ => Err (Nxs ValidationFailedError)
    end.

(** ** Telephone numbers *)

(** [_COUNTRY_CODE] *)
Definition country_code_match (s : string) : bool :=
  match s with
  | EmptyString => false
  | String c rest => between "1" "9" c && all_chars digit rest && (slen rest <=? 2)
  end.

(** [_PLUS_DIGITS] of a plus sign and the given text *)
Definition e164_digits (digits : string) : bool :=
  all_chars digit digits && (8 <=? slen digits) && (slen digits <=? 15).

Definition Malformed : exn := Nxs (CustomerErr IdentityNormalizationError).

Definition normalize_phone (raw : string) (default_country : option string) : result exn string :=
  let candidate := strip (nfkc raw) in
  let candidate := if starts_with "00" candidate then String "+" (sdrop 2 candidate) else candidate in
  match candidate with
  | EmptyString => Err Malformed
  | String c rest =>
      if has_char control candidate then Err Malformed
      else if Ascii.eqb c "+" then
        let digits := keep_chars digit rest in
        if e164_digits digits then Ok (String "+" digits) else Err Malformed
      else
        let digits := keep_chars digit candidate in
        if String.eqb digits EmptyString then Err Malformed
        else
          match default_country with
          | None => Err Malformed
          | Some country =>
              if negb (country_code_match country) then Err Malformed
              else if e164_digits (country +:+ digits) then Ok (String "+" (country +:+ digits))
              else Err Malformed
          end
  end.

Definition normalize_external_id (raw : string) : result exn string :=
  let candidate := strip (nfc raw) in
  if (slen candidate =? 0) || (MAX_EXTERNAL_LENGTH <? slen candidate) then Err Malformed
  else if has_char control candidate then Err Malformed else Ok candidate.

Definition normalize_identity_value (identity_type : IdentityType) (raw : string)
    (default_country : option string) : result exn string :=
  match identity_type with
  | IdentityType.EMAIL =>
      match normalize_email raw with
      | Err (Nxs ValidationFailedError) => Err Malformed
      | r => r
      end
  | IdentityType.PHONE => normalize_phone raw default_country
  | IdentityType.EXTERNAL_ID => normalize_external_id raw
  end.

(** ** Channel addresses *)

(** [_CHANNEL_KIND] and [_KIND_IDENTITY] *)
Definition address_kind_for (channel : MessageChannel) : AddressKind :=
  match channel with
  | MessageChannel.WHATSAPP | MessageChannel.SMS => AddressKind.PHONE
  | MessageChannel.EMAIL => AddressKind.EMAIL
  end.

Definition identity_type_for (channel : MessageChannel) : IdentityType :=
  match address_kind_for channel with
  | AddressKind.PHONE => IdentityType.PHONE
  | AddressKind.EMAIL => IdentityType.EMAIL
  end.

Definition clean_display (display : option string) : option string :=
  match display with
  | None => None
  | Some d =>
      let stripped := strip d in
      if String.eqb stripped EmptyString || has_char (λ c, (N_of_ascii c <? 32)%N) stripped
      then None else Some (stake 200 stripped)
  end.

Definition normalize_address (channel : MessageChannel) (raw : string)
    (default_country display : option string) : result exn MessageAddress :=
  match normalize_identity_value (identity_type_for channel) raw default_country with
  | Ok normalized => Ok (mkAddress (address_kind_for channel) normalized (clean_display display))
  | Err (Nxs (CustomerErr IdentityNormalizationError)) =>
      Err (Nxs (MessagingErr MessagingRecipientInvalidError))
  | Err e => Err e
  end.

(** ** Normalisation is idempotent *)

Lemma all_chars_split p sep s :
  p sep = true → forallb (all_chars p) (split_on sep s) = true → all_chars p s = true.
Proof.
  intros Hp. induction s as [|c s IH]; [done|]. cbn. destruct (Ascii.eqb_spec c sep) as [->|_]; cbn.
  - intros Hs. rewrite Hp. by apply IH.
  - destruct (split_on sep s) as [|w ws]; cbn.
    + rewrite !andb_true_r. intros ->. by apply IH.
    + rewrite !andb_true_iff. intros [[-> Hw] Hws]. split; [done|]. apply IH. cbn. by rewrite Hw.
Qed.

Lemma all_chars_chop p s : p newline = true → all_chars p (chop_newline s) = true → all_chars p s = true.
Proof.
  intros Hp. induction s as [|c s IH]; [done|]. destruct s as [|d s].
  - cbn [chop_newline all_chars]. destruct (Ascii.eqb_spec c newline) as [-> |_]; [by rewrite Hp|done].
  - change (chop_newline (String c (String d s))) with (String c (chop_newline (String d s))).
    change (all_chars p (String c (String d s))) with (p c && all_chars p (String d s)).
    cbn [all_chars]. intros [-> Hs]%andb_true_iff. by apply IH.
Qed.

Lemma local_char_ascii c : local_char c = true → is_ascii c = true.
Proof. destruct c as [[] [] [] [] [] [] [] []]; vm_compute; done. Qed.

Lemma label_char_ascii c : alnum c || Ascii.eqb c "-" = true → is_ascii c = true.
Proof. destruct c as [[] [] [] [] [] [] [] []]; vm_compute; done. Qed.

Lemma digit_ascii c : digit c = true → is_ascii c = true.
Proof. destruct c as [[] [] [] [] [] [] [] []]; vm_compute; done. Qed.

Lemma digit_plain c : digit c = true → control c = false ∧ is_space c = false.
Proof. destruct c as [[] [] [] [] [] [] [] []]; vm_compute; done. Qed.

Lemma lower_char_idem c : lower_char (lower_char c) = lower_char c.
Proof. destruct c as [[] [] [] [] [] [] [] []]; vm_compute; done. Qed.

Lemma lower_char_space c : is_space (lower_char c) = is_space c.
Proof. destruct c as [[] [] [] [] [] [] [] []]; vm_compute; done. Qed.

Lemma lower_idem s : lower (lower s) = lower s.
Proof. unfold lower. induction s as [|c s IH]; [done|]. cbn. by rewrite lower_char_idem, IH. Qed.

Lemma strip_lower s : strip (lower s) = lower (strip s).
Proof.
  unfold strip, lower. assert (Hl : ∀ s, lstrip (map_chars lower_char s) = map_chars lower_char (lstrip s)).
  { clear. induction s as [|c s IH]; [done|]. cbn. rewrite lower_char_space. by destruct (is_space c). }
  rewrite Hl. induction (lstrip s) as [|c t IH]; [done|]. cbn. rewrite IH. destruct (rstrip t); cbn; [|done].
  rewrite lower_char_space. by destruct (is_space c).
Qed.

Lemma local_part_ascii s : local_part_match s = true → all_chars is_ascii s = true.
Proof.
  unfold local_part_match. rewrite andb_true_iff. intros [_ Hl]. apply all_chars_chop; [done|].
  eapply all_chars_impl; [exact local_char_ascii|done].
Qed.

Lemma label_ascii s : label_match s = true → all_chars is_ascii s = true.
Proof.
  destruct s as [|c s]; [done|]. unfold label_match. rewrite !andb_true_iff. intros [[[_ Hl] _] _].
  eapply all_chars_impl; [exact label_char_ascii|done].
Qed.

Lemma domain_ascii s : domain_match s = true → all_chars is_ascii s = true.
Proof.
  unfold domain_match. rewrite andb_true_iff. intros [_ Hl]. apply all_chars_chop; [done|].
  apply (all_chars_split _ "."); [done|]. rewrite forallb_forall in Hl |- *. intros w Hw. by apply label_ascii, Hl.
Qed.

Lemma normalize_email_idem raw v : normalize_email raw = Ok v → normalize_email v = Ok v.
Proof.
  unfold normalize_email. set (u := nfc (strip raw)). intros Hr.
  assert (Hv : v = lower u ∧ all_chars is_ascii v = true).
  { destruct (_ || _) eqn:H1; [done|]. destruct (split_on "@" (lower u)) as [|l [|d [|]]] eqn:Hs; try done.
    destruct (_ || _ || _ || _ || _) eqn:H2; [done|]. injection Hr as <-. split; [done|].
    rewrite !orb_false_iff, !negb_false_iff in H2. destruct H2 as [[_ Hl] Hd].
    apply (all_chars_split _ "@"); [done|]. rewrite Hs. cbn.
    by rewrite (local_part_ascii _ Hl), (domain_ascii _ Hd). }
  destruct Hv as [-> Ha]. assert (E : lower (nfc (strip (lower u))) = lower u); [|by rewrite E].
  rewrite strip_lower. unfold u at 1. rewrite nfc_strip. fold u. by rewrite (nfc_ascii _ Ha), lower_idem.
Qed.

Lemma e164_idem d country : e164_digits d = true → normalize_phone (String "+" d) country = Ok (String "+" d).
Proof.
  intros Hd. unfold normalize_phone. pose proof Hd as Hc. unfold e164_digits in Hc. rewrite !andb_true_iff in Hc.
  destruct Hc as [[Hc _] _].
  rewrite nfkc_ascii; [|cbn; by eapply all_chars_impl; [exact digit_ascii|]].
  rewrite strip_plain; [|cbn; eapply all_chars_has; [|exact Hc]; by intros c [_ ?]%digit_plain].
  cbn [starts_with]. change (Ascii.eqb "0" "+") with false. cbn [andb].
  change (has_char control (String "+" d)) with (has_char control d).
  rewrite (all_chars_has digit control); [|by intros c [? _]%digit_plain|done].
  change (Ascii.eqb "+" "+") with true. cbv iota. by rewrite (keep_chars_all _ _ Hc), Hd.
Qed.

Lemma normalize_phone_e164 raw country v :
  normalize_phone raw country = Ok v → ∃ d, v = String "+" d ∧ e164_digits d = true.
Proof.
  unfold normalize_phone. set (cand := if starts_with _ _ then _ else _). destruct cand as [|c rest]; [done|].
  destruct (has_char _ _); [done|]. destruct (Ascii.eqb c "+").
  - destruct (e164_digits _) eqn:E; [|done]. intros [= <-]. eauto.
  - destruct (String.eqb _ _); [done|]. destruct country as [k|]; [|done]. destruct (negb _); [done|].
    destruct (e164_digits _) eqn:E; [|done]. intros [= <-]. eauto.
Qed.

Lemma normalize_external_idem raw v : normalize_external_id raw = Ok v → normalize_external_id v = Ok v.
Proof.
  unfold normalize_external_id. destruct (_ || _) eqn:H1; [done|]. destruct (has_char _ _) eqn:H2; [done|].
  intros [= <-]. rewrite (nfc_part (nfc raw)) by apply nfc_idem. rewrite strip_idem. by rewrite H1, H2.
Qed.

Lemma normalize_identity_idem t raw country v country' :
  normalize_identity_value t raw country = Ok v → normalize_identity_value t v country' = Ok v.
Proof.
  destruct t; cbn.
  - destruct (normalize_email raw) as [v'|e] eqn:E; [|by destruct e as [[]| | | | | | | | | | | ]].
    intros [= <-]. by rewrite (normalize_email_idem _ _ E).
  - intros (d & -> & Hd)%normalize_phone_e164. by apply e164_idem.
  - apply normalize_external_idem.
Qed.


Lemma normalize_address_idem ch raw country d a country' :
  normalize_address ch raw country d = Ok a →
  normalize_address ch (ad_value a) country' None = Ok (mkAddress (ad_kind a) (ad_value a) None).
Proof.
  unfold normalize_address. destruct (normalize_identity_value _ raw _) as [v|e] eqn:E.
  - intros [= <-]. cbn. by rewrite (normalize_identity_idem _ _ _ _ country' E).
  - destruct e as [[]| | | | | | | | | | | ]; try done. by destruct e.
Qed.
End normalization.

(** ** Examples *)

(** Python's normalisation restricted to the characters it leaves alone. *)
Definition plain_forms : UnicodeForms.
Proof. refine {| nfc := λ s, s; nfkc := λ s, s |}; intros; try done. apply strip_idem. Defined.



(** [$] matches before a final line feed: the local part of an accepted address may end
    with one, which the comment on conservative validation excludes. *)
Definition split_address : string :=
  "eve" +:+ String newline ("@example.com").

Lemma email_with_line_feed : @normalize_email plain_forms split_address = Ok split_address.
Proof. vm_compute. reflexivity. Qed.
