(* ===== verification/CampaignStore.v ===== *)
(** * CampaignStore: the data of campaigns

    The enumerations and policies of [campaigns/entities.py] and
    [campaigns/state_machine.py], and the rows of the thirteen campaign tables
    ([domain/campaigns/models.py]) with their assignments. The JSONB columns
    [draft_specification] and [specification] hold dumped drafts; they are modelled
    by the drafts themselves, Pydantic's dump and validate being inverse. *)

From S2P Require Import Prelude.
From S2P Require Import Lifecycles.
From S2P Require Import Conditions.
From S2P Require Import MessagingStore.

(** ** Enumerations *)

(** [campaigns/entities.py] *)
Module AudienceSourceType.
Inductive AudienceSourceType : Type :=
| EXPLICIT_CUSTOMERS | SAVED_SEGMENT | IMPORT_ARTIFACT.
End AudienceSourceType.
Abbreviation AudienceSourceType := AudienceSourceType.AudienceSourceType.
#[export] Instance AudienceSourceType_eq : EqDecision AudienceSourceType.
Proof. solve_decision. Defined.

(** [campaigns/entities.py] *)
Module EligibilityReason.
Inductive EligibilityReason : Type :=
| ELIGIBLE | DEFERRED_QUIET_HOURS | SUPPRESSED_GLOBAL | SUPPRESSED_CAMPAIGN | NO_CONSENT |
UNSUBSCRIBED | DO_NOT_CONTACT | CUSTOMER_INACTIVE | IDENTITY_INACTIVE |
INVALID_DESTINATION | NO_CHANNEL | DUPLICATE | TENANT_MISMATCH | CANCELLED.
End EligibilityReason.
Abbreviation EligibilityReason := EligibilityReason.EligibilityReason.
#[export] Instance EligibilityReason_eq : EqDecision EligibilityReason.
Proof. solve_decision. Defined.

(** [campaigns/entities.py] *)
Module SuppressionScope.
Inductive SuppressionScope : Type :=
| GLOBAL | CAMPAIGN | CUSTOMER | IDENTITY.
End SuppressionScope.
Abbreviation SuppressionScope := SuppressionScope.SuppressionScope.
#[export] Instance SuppressionScope_eq : EqDecision SuppressionScope.
Proof. solve_decision. Defined.

(** [campaigns/state_machine.py] *)
Module SnapshotState.
Inductive SnapshotState : Type :=
| OPEN | SEALED | FAILED.
End SnapshotState.
Abbreviation SnapshotState := SnapshotState.SnapshotState.
#[export] Instance SnapshotState_eq : EqDecision SnapshotState.
Proof. solve_decision. Defined.

(** [campaigns/state_machine.py] *)
Module RecipientState.
Inductive RecipientState : Type :=
| PENDING | ELIGIBLE | DEFERRED | SUPPRESSED | CANCELLED.
End RecipientState.
Abbreviation RecipientState := RecipientState.RecipientState.
#[export] Instance RecipientState_eq : EqDecision RecipientState.
Proof. solve_decision. Defined.

(** [campaigns/state_machine.py] *)
Module CampaignRunState.
Inductive CampaignRunState : Type :=
| PENDING_RELEASE | MATERIALIZING | RUNNING | PAUSED | CANCELLING | COMPLETED | FAILED |
CANCELLED.
End CampaignRunState.
Abbreviation CampaignRunState := CampaignRunState.CampaignRunState.
#[export] Instance CampaignRunState_eq : EqDecision CampaignRunState.
Proof. solve_decision. Defined.

(** [campaigns/state_machine.py] *)
Module SendPermitState.
Inductive SendPermitState : Type :=
| PENDING | AUTHORIZED | CONSUMED | FAILED | EXPIRED.
End SendPermitState.
Abbreviation SendPermitState := SendPermitState.SendPermitState.
#[export] Instance SendPermitState_eq : EqDecision SendPermitState.
Proof. solve_decision. Defined.

(** ** Policies and drafts *)

(** [start_local] and [end_local] are naive [dt.time]s: microseconds since midnight. *)
Record QuietHoursPolicy : Type := {
  qh_enabled : bool;
  qh_timezone : string;
  qh_start_local : Z;
  qh_end_local : Z;
}.

Record ThrottlePolicy : Type := {
  th_recipients_per_tick : Z;
  th_messages_per_minute : Z;
  th_campaign_limit : Z;
  th_organization_messages_per_minute : Z;
}.

Record AudienceMemberInput : Type := {
  am_customer_id : uuid;
  am_identity_id : uuid;
  am_conversation_id : uuid;
}.

Record CampaignDraft : Type := {
  cd_release_workflow_version_id : uuid;
  cd_recipient_workflow_version_id : uuid;
  cd_account_id : uuid;
  cd_channel : MessageChannel;
  cd_content : MessageContent;
  cd_subject : option string;
  cd_audience_source : AudienceSourceType;
  cd_audience : list AudienceMemberInput;
  cd_source_reference : option string;
  cd_quiet_hours : QuietHoursPolicy;
  cd_throttle : ThrottlePolicy;
}.

(** ** Rows *)

(** [campaigns] *)
Record CampaignRecord : Type := mkCampaign {
  cp_id : uuid;
  cp_organization_id : uuid;
  cp_campaign_key : string;
  cp_name : string;
  cp_state : CampaignState;
  cp_revision : Z;
  cp_draft_specification : CampaignDraft;
  cp_prepared_revision_id : option uuid;
  cp_created_at : Z;
  cp_updated_at : Z;
}.

Definition set_cp_name (v : string) (r : CampaignRecord) : CampaignRecord :=
  mkCampaign (cp_id r) (cp_organization_id r) (cp_campaign_key r) v (cp_state r) (cp_revision r)
    (cp_draft_specification r) (cp_prepared_revision_id r) (cp_created_at r) (cp_updated_at r).
Definition set_cp_state (v : CampaignState) (r : CampaignRecord) : CampaignRecord :=
  mkCampaign (cp_id r) (cp_organization_id r) (cp_campaign_key r) (cp_name r) v (cp_revision r)
    (cp_draft_specification r) (cp_prepared_revision_id r) (cp_created_at r) (cp_updated_at r).
Definition set_cp_revision (v : Z) (r : CampaignRecord) : CampaignRecord :=
  mkCampaign (cp_id r) (cp_organization_id r) (cp_campaign_key r) (cp_name r) (cp_state r) v
    (cp_draft_specification r) (cp_prepared_revision_id r) (cp_created_at r) (cp_updated_at r).
Definition set_cp_draft_specification (v : CampaignDraft) (r : CampaignRecord) : CampaignRecord :=
  mkCampaign (cp_id r) (cp_organization_id r) (cp_campaign_key r) (cp_name r) (cp_state r)
    (cp_revision r) v (cp_prepared_revision_id r) (cp_created_at r) (cp_updated_at r).
Definition set_cp_prepared_revision_id (v : option uuid) (r : CampaignRecord) : CampaignRecord :=
  mkCampaign (cp_id r) (cp_organization_id r) (cp_campaign_key r) (cp_name r) (cp_state r)
    (cp_revision r) (cp_draft_specification r) v (cp_created_at r) (cp_updated_at r).
Definition set_cp_updated_at (v : Z) (r : CampaignRecord) : CampaignRecord :=
  mkCampaign (cp_id r) (cp_organization_id r) (cp_campaign_key r) (cp_name r) (cp_state r)
    (cp_revision r) (cp_draft_specification r) (cp_prepared_revision_id r) (cp_created_at r) v.

(** [campaign_revisions] *)
Record CampaignRevisionRecord : Type := mkRevision {
  cv_id : uuid;
  cv_organization_id : uuid;
  cv_campaign_id : uuid;
  cv_revision_number : Z;
  cv_content_hash : string;
  cv_release_workflow_version_id : uuid;
  cv_recipient_workflow_version_id : uuid;
  cv_account_id : uuid;
  cv_channel : MessageChannel;
  cv_specification : CampaignDraft;
  cv_published_at : Z;
}.

(** [campaign_audience_snapshots] *)
Record CampaignAudienceSnapshotRecord : Type := mkSnapshot {
  sn_id : uuid;
  sn_organization_id : uuid;
  sn_campaign_revision_id : uuid;
  sn_state : SnapshotState;
  sn_source_type : AudienceSourceType;
  sn_source_reference : option string;
  sn_source_digest : string;
  sn_cursor : Z;
  sn_resolved_count : Z;
  sn_eligible_count : Z;
  sn_rejected_count : Z;
  sn_sealed_at : option Z;
  sn_created_at : Z;
}.

Definition set_sn_state (v : SnapshotState) (r : CampaignAudienceSnapshotRecord) : CampaignAudienceSnapshotRecord :=
  mkSnapshot (sn_id r) (sn_organization_id r) (sn_campaign_revision_id r) v (sn_source_type r)
    (sn_source_reference r) (sn_source_digest r) (sn_cursor r) (sn_resolved_count r)
    (sn_eligible_count r) (sn_rejected_count r) (sn_sealed_at r) (sn_created_at r).
Definition set_sn_cursor (v : Z) (r : CampaignAudienceSnapshotRecord) : CampaignAudienceSnapshotRecord :=
  mkSnapshot (sn_id r) (sn_organization_id r) (sn_campaign_revision_id r) (sn_state r)
    (sn_source_type r) (sn_source_reference r) (sn_source_digest r) v (sn_resolved_count r)
    (sn_eligible_count r) (sn_rejected_count r) (sn_sealed_at r) (sn_created_at r).
Definition set_sn_resolved_count (v : Z) (r : CampaignAudienceSnapshotRecord) : CampaignAudienceSnapshotRecord :=
  mkSnapshot (sn_id r) (sn_organization_id r) (sn_campaign_revision_id r) (sn_state r)
    (sn_source_type r) (sn_source_reference r) (sn_source_digest r) (sn_cursor r) v
    (sn_eligible_count r) (sn_rejected_count r) (sn_sealed_at r) (sn_created_at r).
Definition set_sn_eligible_count (v : Z) (r : CampaignAudienceSnapshotRecord) : CampaignAudienceSnapshotRecord :=
  mkSnapshot (sn_id r) (sn_organization_id r) (sn_campaign_revision_id r) (sn_state r)
    (sn_source_type r) (sn_source_reference r) (sn_source_digest r) (sn_cursor r)
    (sn_resolved_count r) v (sn_rejected_count r) (sn_sealed_at r) (sn_created_at r).
Definition set_sn_rejected_count (v : Z) (r : CampaignAudienceSnapshotRecord) : CampaignAudienceSnapshotRecord :=
  mkSnapshot (sn_id r) (sn_organization_id r) (sn_campaign_revision_id r) (sn_state r)
    (sn_source_type r) (sn_source_reference r) (sn_source_digest r) (sn_cursor r)
    (sn_resolved_count r) (sn_eligible_count r) v (sn_sealed_at r) (sn_created_at r).
Definition set_sn_sealed_at (v : option Z) (r : CampaignAudienceSnapshotRecord) : CampaignAudienceSnapshotRecord :=
  mkSnapshot (sn_id r) (sn_organization_id r) (sn_campaign_revision_id r) (sn_state r)
    (sn_source_type r) (sn_source_reference r) (sn_source_digest r) (sn_cursor r)
    (sn_resolved_count r) (sn_eligible_count r) (sn_rejected_count r) v (sn_created_at r).

(** [campaign_recipients] *)
Record CampaignRecipientRecord : Type := mkRecipient {
  rc_id : uuid;
  rc_organization_id : uuid;
  rc_snapshot_id : uuid;
  rc_customer_id : uuid;
  rc_identity_id : uuid;
  rc_conversation_id : uuid;
  rc_channel : MessageChannel;
  rc_destination_fingerprint : string;
  rc_state : RecipientState;
  rc_eligibility_reason : EligibilityReason;
  rc_next_eligible_at : option Z;
  rc_evaluated_consent_epoch : Z;
  rc_evaluated_suppression_epoch : Z;
  rc_created_at : Z;
}.

Definition set_rc_state (v : RecipientState) (r : CampaignRecipientRecord) : CampaignRecipientRecord :=
  mkRecipient (rc_id r) (rc_organization_id r) (rc_snapshot_id r) (rc_customer_id r)
    (rc_identity_id r) (rc_conversation_id r) (rc_channel r) (rc_destination_fingerprint r) v
    (rc_eligibility_reason r) (rc_next_eligible_at r) (rc_evaluated_consent_epoch r)
    (rc_evaluated_suppression_epoch r) (rc_created_at r).
Definition set_rc_eligibility_reason (v : EligibilityReason) (r : CampaignRecipientRecord) : CampaignRecipientRecord :=
  mkRecipient (rc_id r) (rc_organization_id r) (rc_snapshot_id r) (rc_customer_id r)
    (rc_identity_id r) (rc_conversation_id r) (rc_channel r) (rc_destination_fingerprint r)
    (rc_state r) v (rc_next_eligible_at r) (rc_evaluated_consent_epoch r)
    (rc_evaluated_suppression_epoch r) (rc_created_at r).
Definition set_rc_next_eligible_at (v : option Z) (r : CampaignRecipientRecord) : CampaignRecipientRecord :=
  mkRecipient (rc_id r) (rc_organization_id r) (rc_snapshot_id r) (rc_customer_id r)
    (rc_identity_id r) (rc_conversation_id r) (rc_channel r) (rc_destination_fingerprint r)
    (rc_state r) (rc_eligibility_reason r) v (rc_evaluated_consent_epoch r)
    (rc_evaluated_suppression_epoch r) (rc_created_at r).
Definition set_rc_evaluated_consent_epoch (v : Z) (r : CampaignRecipientRecord) : CampaignRecipientRecord :=
  mkRecipient (rc_id r) (rc_organization_id r) (rc_snapshot_id r) (rc_customer_id r)
    (rc_identity_id r) (rc_conversation_id r) (rc_channel r) (rc_destination_fingerprint r)
    (rc_state r) (rc_eligibility_reason r) (rc_next_eligible_at r) v
    (rc_evaluated_suppression_epoch r) (rc_created_at r).
Definition set_rc_evaluated_suppression_epoch (v : Z) (r : CampaignRecipientRecord) : CampaignRecipientRecord :=
  mkRecipient (rc_id r) (rc_organization_id r) (rc_snapshot_id r) (rc_customer_id r)
    (rc_identity_id r) (rc_conversation_id r) (rc_channel r) (rc_destination_fingerprint r)
    (rc_state r) (rc_eligibility_reason r) (rc_next_eligible_at r)
    (rc_evaluated_consent_epoch r) v (rc_created_at r).

(** [campaign_runs] *)
Record CampaignRunRecord : Type := mkCampaignRun {
  rn_id : uuid;
  rn_organization_id : uuid;
  rn_campaign_id : uuid;
  rn_campaign_revision_id : uuid;
  rn_audience_snapshot_id : uuid;
  rn_state : CampaignRunState;
  rn_idempotency_key : string;
  rn_release_workflow_run_id : option uuid;
  rn_release_schedule_occurrence_id : option uuid;
  rn_schedule_id : option uuid;
  rn_claimed_count : Z;
  rn_dispatched_count : Z;
  rn_suppressed_count : Z;
  rn_failed_count : Z;
  rn_authorized_count : Z;
  rn_attempt_materialization_cursor : Z;
  rn_attempt_materialization_complete : bool;
  rn_cancellation_processed_count : Z;
  rn_cancellation_complete : bool;
  rn_created_at : Z;
  rn_updated_at : Z;
}.

Definition set_rn_state (v : CampaignRunState) (r : CampaignRunRecord) : CampaignRunRecord :=
  mkCampaignRun (rn_id r) (rn_organization_id r) (rn_campaign_id r) (rn_campaign_revision_id r)
    (rn_audience_snapshot_id r) v (rn_idempotency_key r) (rn_release_workflow_run_id r)
    (rn_release_schedule_occurrence_id r) (rn_schedule_id r) (rn_claimed_count r)
    (rn_dispatched_count r) (rn_suppressed_count r) (rn_failed_count r) (rn_authorized_count r)
    (rn_attempt_materialization_cursor r) (rn_attempt_materialization_complete r)
    (rn_cancellation_processed_count r) (rn_cancellation_complete r) (rn_created_at r)
    (rn_updated_at r).
Definition set_rn_release_workflow_run_id (v : option uuid) (r : CampaignRunRecord) : CampaignRunRecord :=
  mkCampaignRun (rn_id r) (rn_organization_id r) (rn_campaign_id r) (rn_campaign_revision_id r)
    (rn_audience_snapshot_id r) (rn_state r) (rn_idempotency_key r) v
    (rn_release_schedule_occurrence_id r) (rn_schedule_id r) (rn_claimed_count r)
    (rn_dispatched_count r) (rn_suppressed_count r) (rn_failed_count r) (rn_authorized_count r)
    (rn_attempt_materialization_cursor r) (rn_attempt_materialization_complete r)
    (rn_cancellation_processed_count r) (rn_cancellation_complete r) (rn_created_at r)
    (rn_updated_at r).
Definition set_rn_release_schedule_occurrence_id (v : option uuid) (r : CampaignRunRecord) : CampaignRunRecord :=
  mkCampaignRun (rn_id r) (rn_organization_id r) (rn_campaign_id r) (rn_campaign_revision_id r)
    (rn_audience_snapshot_id r) (rn_state r) (rn_idempotency_key r)
    (rn_release_workflow_run_id r) v (rn_schedule_id r) (rn_claimed_count r)
    (rn_dispatched_count r) (rn_suppressed_count r) (rn_failed_count r) (rn_authorized_count r)
    (rn_attempt_materialization_cursor r) (rn_attempt_materialization_complete r)
    (rn_cancellation_processed_count r) (rn_cancellation_complete r) (rn_created_at r)
    (rn_updated_at r).
Definition set_rn_schedule_id (v : option uuid) (r : CampaignRunRecord) : CampaignRunRecord :=
  mkCampaignRun (rn_id r) (rn_organization_id r) (rn_campaign_id r) (rn_campaign_revision_id r)
    (rn_audience_snapshot_id r) (rn_state r) (rn_idempotency_key r)
    (rn_release_workflow_run_id r) (rn_release_schedule_occurrence_id r) v (rn_claimed_count r)
    (rn_dispatched_count r) (rn_suppressed_count r) (rn_failed_count r) (rn_authorized_count r)
    (rn_attempt_materialization_cursor r) (rn_attempt_materialization_complete r)
    (rn_cancellation_processed_count r) (rn_cancellation_complete r) (rn_created_at r)
    (rn_updated_at r).
Definition set_rn_claimed_count (v : Z) (r : CampaignRunRecord) : CampaignRunRecord :=
  mkCampaignRun (rn_id r) (rn_organization_id r) (rn_campaign_id r) (rn_campaign_revision_id r)
    (rn_audience_snapshot_id r) (rn_state r) (rn_idempotency_key r)
    (rn_release_workflow_run_id r) (rn_release_schedule_occurrence_id r) (rn_schedule_id r) v
    (rn_dispatched_count r) (rn_suppressed_count r) (rn_failed_count r) (rn_authorized_count r)
    (rn_attempt_materialization_cursor r) (rn_attempt_materialization_complete r)
    (rn_cancellation_processed_count r) (rn_cancellation_complete r) (rn_created_at r)
    (rn_updated_at r).
Definition set_rn_dispatched_count (v : Z) (r : CampaignRunRecord) : CampaignRunRecord :=
  mkCampaignRun (rn_id r) (rn_organization_id r) (rn_campaign_id r) (rn_campaign_revision_id r)
    (rn_audience_snapshot_id r) (rn_state r) (rn_idempotency_key r)
    (rn_release_workflow_run_id r) (rn_release_schedule_occurrence_id r) (rn_schedule_id r)
    (rn_claimed_count r) v (rn_suppressed_count r) (rn_failed_count r) (rn_authorized_count r)
    (rn_attempt_materialization_cursor r) (rn_attempt_materialization_complete r)
    (rn_cancellation_processed_count r) (rn_cancellation_complete r) (rn_created_at r)
    (rn_updated_at r).
Definition set_rn_suppressed_count (v : Z) (r : CampaignRunRecord) : CampaignRunRecord :=
  mkCampaignRun (rn_id r) (rn_organization_id r) (rn_campaign_id r) (rn_campaign_revision_id r)
    (rn_audience_snapshot_id r) (rn_state r) (rn_idempotency_key r)
    (rn_release_workflow_run_id r) (rn_release_schedule_occurrence_id r) (rn_schedule_id r)
    (rn_claimed_count r) (rn_dispatched_count r) v (rn_failed_count r) (rn_authorized_count r)
    (rn_attempt_materialization_cursor r) (rn_attempt_materialization_complete r)
    (rn_cancellation_processed_count r) (rn_cancellation_complete r) (rn_created_at r)
    (rn_updated_at r).
Definition set_rn_authorized_count (v : Z) (r : CampaignRunRecord) : CampaignRunRecord :=
  mkCampaignRun (rn_id r) (rn_organization_id r) (rn_campaign_id r) (rn_campaign_revision_id r)
    (rn_audience_snapshot_id r) (rn_state r) (rn_idempotency_key r)
    (rn_release_workflow_run_id r) (rn_release_schedule_occurrence_id r) (rn_schedule_id r)
    (rn_claimed_count r) (rn_dispatched_count r) (rn_suppressed_count r) (rn_failed_count r) v
    (rn_attempt_materialization_cursor r) (rn_attempt_materialization_complete r)
    (rn_cancellation_processed_count r) (rn_cancellation_complete r) (rn_created_at r)
    (rn_updated_at r).
Definition set_rn_attempt_materialization_cursor (v : Z) (r : CampaignRunRecord) : CampaignRunRecord :=
  mkCampaignRun (rn_id r) (rn_organization_id r) (rn_campaign_id r) (rn_campaign_revision_id r)
    (rn_audience_snapshot_id r) (rn_state r) (rn_idempotency_key r)
    (rn_release_workflow_run_id r) (rn_release_schedule_occurrence_id r) (rn_schedule_id r)
    (rn_claimed_count r) (rn_dispatched_count r) (rn_suppressed_count r) (rn_failed_count r)
    (rn_authorized_count r) v (rn_attempt_materialization_complete r)
    (rn_cancellation_processed_count r) (rn_cancellation_complete r) (rn_created_at r)
    (rn_updated_at r).
Definition set_rn_attempt_materialization_complete (v : bool) (r : CampaignRunRecord) : CampaignRunRecord :=
  mkCampaignRun (rn_id r) (rn_organization_id r) (rn_campaign_id r) (rn_campaign_revision_id r)
    (rn_audience_snapshot_id r) (rn_state r) (rn_idempotency_key r)
    (rn_release_workflow_run_id r) (rn_release_schedule_occurrence_id r) (rn_schedule_id r)
    (rn_claimed_count r) (rn_dispatched_count r) (rn_suppressed_count r) (rn_failed_count r)
    (rn_authorized_count r) (rn_attempt_materialization_cursor r) v
    (rn_cancellation_processed_count r) (rn_cancellation_complete r) (rn_created_at r)
    (rn_updated_at r).
Definition set_rn_cancellation_processed_count (v : Z) (r : CampaignRunRecord) : CampaignRunRecord :=
  mkCampaignRun (rn_id r) (rn_organization_id r) (rn_campaign_id r) (rn_campaign_revision_id r)
    (rn_audience_snapshot_id r) (rn_state r) (rn_idempotency_key r)
    (rn_release_workflow_run_id r) (rn_release_schedule_occurrence_id r) (rn_schedule_id r)
    (rn_claimed_count r) (rn_dispatched_count r) (rn_suppressed_count r) (rn_failed_count r)
    (rn_authorized_count r) (rn_attempt_materialization_cursor r)
    (rn_attempt_materialization_complete r) v (rn_cancellation_complete r) (rn_created_at r)
    (rn_updated_at r).
Definition set_rn_cancellation_complete (v : bool) (r : CampaignRunRecord) : CampaignRunRecord :=
  mkCampaignRun (rn_id r) (rn_organization_id r) (rn_campaign_id r) (rn_campaign_revision_id r)
    (rn_audience_snapshot_id r) (rn_state r) (rn_idempotency_key r)
    (rn_release_workflow_run_id r) (rn_release_schedule_occurrence_id r) (rn_schedule_id r)
    (rn_claimed_count r) (rn_dispatched_count r) (rn_suppressed_count r) (rn_failed_count r)
    (rn_authorized_count r) (rn_attempt_materialization_cursor r)
    (rn_attempt_materialization_complete r) (rn_cancellation_processed_count r) v
    (rn_created_at r) (rn_updated_at r).
Definition set_rn_updated_at (v : Z) (r : CampaignRunRecord) : CampaignRunRecord :=
  mkCampaignRun (rn_id r) (rn_organization_id r) (rn_campaign_id r) (rn_campaign_revision_id r)
    (rn_audience_snapshot_id r) (rn_state r) (rn_idempotency_key r)
    (rn_release_workflow_run_id r) (rn_release_schedule_occurrence_id r) (rn_schedule_id r)
    (rn_claimed_count r) (rn_dispatched_count r) (rn_suppressed_count r) (rn_failed_count r)
    (rn_authorized_count r) (rn_attempt_materialization_cursor r)
    (rn_attempt_materialization_complete r) (rn_cancellation_processed_count r)
    (rn_cancellation_complete r) (rn_created_at r) v.

(** [campaign_recipient_attempts] *)
Record CampaignRecipientAttemptRecord : Type := mkAttempt {
  ra_id : uuid;
  ra_organization_id : uuid;
  ra_campaign_run_id : uuid;
  ra_recipient_id : uuid;
  ra_logical_identity : string;
  ra_state : RecipientAttemptState;
  ra_attempt_number : Z;
  ra_owner_id : option uuid;
  ra_claim_token : option uuid;
  ra_claimed_at : option Z;
  ra_p14_idempotency_key : string;
  ra_workflow_run_id : option uuid;
  ra_p09_idempotency_key : string;
  ra_message_id : option uuid;
  ra_error_code : option string;
  ra_created_at : Z;
  ra_updated_at : Z;
}.

Definition set_ra_state (v : RecipientAttemptState) (r : CampaignRecipientAttemptRecord) : CampaignRecipientAttemptRecord :=
  mkAttempt (ra_id r) (ra_organization_id r) (ra_campaign_run_id r) (ra_recipient_id r)
    (ra_logical_identity r) v (ra_attempt_number r) (ra_owner_id r) (ra_claim_token r)
    (ra_claimed_at r) (ra_p14_idempotency_key r) (ra_workflow_run_id r)
    (ra_p09_idempotency_key r) (ra_message_id r) (ra_error_code r) (ra_created_at r)
    (ra_updated_at r).
Definition set_ra_owner_id (v : option uuid) (r : CampaignRecipientAttemptRecord) : CampaignRecipientAttemptRecord :=
  mkAttempt (ra_id r) (ra_organization_id r) (ra_campaign_run_id r) (ra_recipient_id r)
    (ra_logical_identity r) (ra_state r) (ra_attempt_number r) v (ra_claim_token r)
    (ra_claimed_at r) (ra_p14_idempotency_key r) (ra_workflow_run_id r)
    (ra_p09_idempotency_key r) (ra_message_id r) (ra_error_code r) (ra_created_at r)
    (ra_updated_at r).
Definition set_ra_claim_token (v : option uuid) (r : CampaignRecipientAttemptRecord) : CampaignRecipientAttemptRecord :=
  mkAttempt (ra_id r) (ra_organization_id r) (ra_campaign_run_id r) (ra_recipient_id r)
    (ra_logical_identity r) (ra_state r) (ra_attempt_number r) (ra_owner_id r) v
    (ra_claimed_at r) (ra_p14_idempotency_key r) (ra_workflow_run_id r)
    (ra_p09_idempotency_key r) (ra_message_id r) (ra_error_code r) (ra_created_at r)
    (ra_updated_at r).
Definition set_ra_claimed_at (v : option Z) (r : CampaignRecipientAttemptRecord) : CampaignRecipientAttemptRecord :=
  mkAttempt (ra_id r) (ra_organization_id r) (ra_campaign_run_id r) (ra_recipient_id r)
    (ra_logical_identity r) (ra_state r) (ra_attempt_number r) (ra_owner_id r)
    (ra_claim_token r) v (ra_p14_idempotency_key r) (ra_workflow_run_id r)
    (ra_p09_idempotency_key r) (ra_message_id r) (ra_error_code r) (ra_created_at r)
    (ra_updated_at r).
Definition set_ra_workflow_run_id (v : option uuid) (r : CampaignRecipientAttemptRecord) : CampaignRecipientAttemptRecord :=
  mkAttempt (ra_id r) (ra_organization_id r) (ra_campaign_run_id r) (ra_recipient_id r)
    (ra_logical_identity r) (ra_state r) (ra_attempt_number r) (ra_owner_id r)
    (ra_claim_token r) (ra_claimed_at r) (ra_p14_idempotency_key r) v (ra_p09_idempotency_key r)
    (ra_message_id r) (ra_error_code r) (ra_created_at r) (ra_updated_at r).
Definition set_ra_message_id (v : option uuid) (r : CampaignRecipientAttemptRecord) : CampaignRecipientAttemptRecord :=
  mkAttempt (ra_id r) (ra_organization_id r) (ra_campaign_run_id r) (ra_recipient_id r)
    (ra_logical_identity r) (ra_state r) (ra_attempt_number r) (ra_owner_id r)
    (ra_claim_token r) (ra_claimed_at r) (ra_p14_idempotency_key r) (ra_workflow_run_id r)
    (ra_p09_idempotency_key r) v (ra_error_code r) (ra_created_at r) (ra_updated_at r).
Definition set_ra_error_code (v : option string) (r : CampaignRecipientAttemptRecord) : CampaignRecipientAttemptRecord :=
  mkAttempt (ra_id r) (ra_organization_id r) (ra_campaign_run_id r) (ra_recipient_id r)
    (ra_logical_identity r) (ra_state r) (ra_attempt_number r) (ra_owner_id r)
    (ra_claim_token r) (ra_claimed_at r) (ra_p14_idempotency_key r) (ra_workflow_run_id r)
    (ra_p09_idempotency_key r) (ra_message_id r) v (ra_created_at r) (ra_updated_at r).
Definition set_ra_updated_at (v : Z) (r : CampaignRecipientAttemptRecord) : CampaignRecipientAttemptRecord :=
  mkAttempt (ra_id r) (ra_organization_id r) (ra_campaign_run_id r) (ra_recipient_id r)
    (ra_logical_identity r) (ra_state r) (ra_attempt_number r) (ra_owner_id r)
    (ra_claim_token r) (ra_claimed_at r) (ra_p14_idempotency_key r) (ra_workflow_run_id r)
    (ra_p09_idempotency_key r) (ra_message_id r) (ra_error_code r) (ra_created_at r) v.

(** [campaign_send_permits] *)
Record CampaignSendPermitRecord : Type := mkPermit {
  pm_id : uuid;
  pm_organization_id : uuid;
  pm_recipient_attempt_id : uuid;
  pm_state : SendPermitState;
  pm_permit_token : uuid;
  pm_consent_epoch : Z;
  pm_suppression_epoch : Z;
  pm_p09_idempotency_key : string;
  pm_authorized_at : Z;
  pm_consumed_at : option Z;
  pm_message_id : option uuid;
}.

Definition set_pm_state (v : SendPermitState) (r : CampaignSendPermitRecord) : CampaignSendPermitRecord :=
  mkPermit (pm_id r) (pm_organization_id r) (pm_recipient_attempt_id r) v (pm_permit_token r)
    (pm_consent_epoch r) (pm_suppression_epoch r) (pm_p09_idempotency_key r)
    (pm_authorized_at r) (pm_consumed_at r) (pm_message_id r).
Definition set_pm_consumed_at (v : option Z) (r : CampaignSendPermitRecord) : CampaignSendPermitRecord :=
  mkPermit (pm_id r) (pm_organization_id r) (pm_recipient_attempt_id r) (pm_state r)
    (pm_permit_token r) (pm_consent_epoch r) (pm_suppression_epoch r) (pm_p09_idempotency_key r)
    (pm_authorized_at r) v (pm_message_id r).
Definition set_pm_message_id (v : option uuid) (r : CampaignSendPermitRecord) : CampaignSendPermitRecord :=
  mkPermit (pm_id r) (pm_organization_id r) (pm_recipient_attempt_id r) (pm_state r)
    (pm_permit_token r) (pm_consent_epoch r) (pm_suppression_epoch r) (pm_p09_idempotency_key r)
    (pm_authorized_at r) (pm_consumed_at r) v.

(** [campaign_contact_preferences] *)
Record CampaignContactPreferenceRecord : Type := mkPreference {
  pf_id : uuid;
  pf_organization_id : uuid;
  pf_customer_id : uuid;
  pf_identity_id : uuid;
  pf_channel : MessageChannel;
  pf_consent_granted : bool;
  pf_unsubscribed : bool;
  pf_do_not_contact : bool;
  pf_consent_epoch : Z;
  pf_evidence_ref : option string;
  pf_updated_at : Z;
}.

Definition set_pf_consent_granted (v : bool) (r : CampaignContactPreferenceRecord) : CampaignContactPreferenceRecord :=
  mkPreference (pf_id r) (pf_organization_id r) (pf_customer_id r) (pf_identity_id r)
    (pf_channel r) v (pf_unsubscribed r) (pf_do_not_contact r) (pf_consent_epoch r)
    (pf_evidence_ref r) (pf_updated_at r).
Definition set_pf_unsubscribed (v : bool) (r : CampaignContactPreferenceRecord) : CampaignContactPreferenceRecord :=
  mkPreference (pf_id r) (pf_organization_id r) (pf_customer_id r) (pf_identity_id r)
    (pf_channel r) (pf_consent_granted r) v (pf_do_not_contact r) (pf_consent_epoch r)
    (pf_evidence_ref r) (pf_updated_at r).
Definition set_pf_do_not_contact (v : bool) (r : CampaignContactPreferenceRecord) : CampaignContactPreferenceRecord :=
  mkPreference (pf_id r) (pf_organization_id r) (pf_customer_id r) (pf_identity_id r)
    (pf_channel r) (pf_consent_granted r) (pf_unsubscribed r) v (pf_consent_epoch r)
    (pf_evidence_ref r) (pf_updated_at r).
Definition set_pf_consent_epoch (v : Z) (r : CampaignContactPreferenceRecord) : CampaignContactPreferenceRecord :=
  mkPreference (pf_id r) (pf_organization_id r) (pf_customer_id r) (pf_identity_id r)
    (pf_channel r) (pf_consent_granted r) (pf_unsubscribed r) (pf_do_not_contact r) v
    (pf_evidence_ref r) (pf_updated_at r).
Definition set_pf_evidence_ref (v : option string) (r : CampaignContactPreferenceRecord) : CampaignContactPreferenceRecord :=
  mkPreference (pf_id r) (pf_organization_id r) (pf_customer_id r) (pf_identity_id r)
    (pf_channel r) (pf_consent_granted r) (pf_unsubscribed r) (pf_do_not_contact r)
    (pf_consent_epoch r) v (pf_updated_at r).

(** [campaign_policy_epochs] *)
Record CampaignPolicyEpochRecord : Type := mkEpoch {
  pe_id : uuid;
  pe_organization_id : uuid;
  pe_channel : MessageChannel;
  pe_suppression_epoch : Z;
  pe_updated_at : Z;
}.

Definition set_pe_suppression_epoch (v : Z) (r : CampaignPolicyEpochRecord) : CampaignPolicyEpochRecord :=
  mkEpoch (pe_id r) (pe_organization_id r) (pe_channel r) v (pe_updated_at r).

(** [campaign_suppressions] *)
Record CampaignSuppressionRecord : Type := mkSuppression {
  sp_id : uuid;
  sp_organization_id : uuid;
  sp_channel : MessageChannel;
  sp_scope : SuppressionScope;
  sp_campaign_id : option uuid;
  sp_customer_id : option uuid;
  sp_identity_id : option uuid;
  sp_reason_code : string;
  sp_active : bool;
  sp_created_at : Z;
}.

(** [campaign_throttle_windows] *)
Record CampaignThrottleWindowRecord : Type := mkWindow {
  tw_id : uuid;
  tw_organization_id : uuid;
  tw_campaign_run_id : uuid;
  tw_channel : MessageChannel;
  tw_window_start : Z;
  tw_reserved_count : Z;
}.

Definition set_tw_reserved_count (v : Z) (r : CampaignThrottleWindowRecord) : CampaignThrottleWindowRecord :=
  mkWindow (tw_id r) (tw_organization_id r) (tw_campaign_run_id r) (tw_channel r)
    (tw_window_start r) v.

(** [campaign_organization_throttle_windows] *)
Record CampaignOrganizationThrottleWindowRecord : Type := mkOrgWindow {
  ow_id : uuid;
  ow_organization_id : uuid;
  ow_channel : MessageChannel;
  ow_window_start : Z;
  ow_reserved_count : Z;
}.

Definition set_ow_reserved_count (v : Z) (r : CampaignOrganizationThrottleWindowRecord) : CampaignOrganizationThrottleWindowRecord :=
  mkOrgWindow (ow_id r) (ow_organization_id r) (ow_channel r) (ow_window_start r) v.

(** [campaign_transition_history] *)
Record CampaignTransitionHistoryRecord : Type := mkCampaignTransition {
  ch_id : uuid;
  ch_organization_id : uuid;
  ch_entity_type : string;
  ch_entity_id : uuid;
  ch_from_state : option string;
  ch_to_state : string;
  ch_reason_code : string;
  ch_source : string;
  ch_correlation_id : option string;
  ch_created_at : Z;
}.

(** ** Tables *)

(** The tables campaigns own, each a list of rows in insertion order. *)
Record CampaignDB : Type := mkCampaignDB {
  cdb_campaigns : list CampaignRecord;
  cdb_revisions : list CampaignRevisionRecord;
  cdb_snapshots : list CampaignAudienceSnapshotRecord;
  cdb_recipients : list CampaignRecipientRecord;
  cdb_runs : list CampaignRunRecord;
  cdb_attempts : list CampaignRecipientAttemptRecord;
  cdb_permits : list CampaignSendPermitRecord;
  cdb_preferences : list CampaignContactPreferenceRecord;
  cdb_epochs : list CampaignPolicyEpochRecord;
  cdb_suppressions : list CampaignSuppressionRecord;
  cdb_windows : list CampaignThrottleWindowRecord;
  cdb_org_windows : list CampaignOrganizationThrottleWindowRecord;
  cdb_history : list CampaignTransitionHistoryRecord;
}.

Definition set_cdb_campaigns (v : list CampaignRecord) (r : CampaignDB) : CampaignDB :=
  mkCampaignDB v (cdb_revisions r) (cdb_snapshots r) (cdb_recipients r) (cdb_runs r)
    (cdb_attempts r) (cdb_permits r) (cdb_preferences r) (cdb_epochs r) (cdb_suppressions r)
    (cdb_windows r) (cdb_org_windows r) (cdb_history r).
Definition set_cdb_revisions (v : list CampaignRevisionRecord) (r : CampaignDB) : CampaignDB :=
  mkCampaignDB (cdb_campaigns r) v (cdb_snapshots r) (cdb_recipients r) (cdb_runs r)
    (cdb_attempts r) (cdb_permits r) (cdb_preferences r) (cdb_epochs r) (cdb_suppressions r)
    (cdb_windows r) (cdb_org_windows r) (cdb_history r).
Definition set_cdb_snapshots (v : list CampaignAudienceSnapshotRecord) (r : CampaignDB) : CampaignDB :=
  mkCampaignDB (cdb_campaigns r) (cdb_revisions r) v (cdb_recipients r) (cdb_runs r)
    (cdb_attempts r) (cdb_permits r) (cdb_preferences r) (cdb_epochs r) (cdb_suppressions r)
    (cdb_windows r) (cdb_org_windows r) (cdb_history r).
Definition set_cdb_recipients (v : list CampaignRecipientRecord) (r : CampaignDB) : CampaignDB :=
  mkCampaignDB (cdb_campaigns r) (cdb_revisions r) (cdb_snapshots r) v (cdb_runs r)
    (cdb_attempts r) (cdb_permits r) (cdb_preferences r) (cdb_epochs r) (cdb_suppressions r)
    (cdb_windows r) (cdb_org_windows r) (cdb_history r).
Definition set_cdb_runs (v : list CampaignRunRecord) (r : CampaignDB) : CampaignDB :=
  mkCampaignDB (cdb_campaigns r) (cdb_revisions r) (cdb_snapshots r) (cdb_recipients r) v
    (cdb_attempts r) (cdb_permits r) (cdb_preferences r) (cdb_epochs r) (cdb_suppressions r)
    (cdb_windows r) (cdb_org_windows r) (cdb_history r).
Definition set_cdb_attempts (v : list CampaignRecipientAttemptRecord) (r : CampaignDB) : CampaignDB :=
  mkCampaignDB (cdb_campaigns r) (cdb_revisions r) (cdb_snapshots r) (cdb_recipients r)
    (cdb_runs r) v (cdb_permits r) (cdb_preferences r) (cdb_epochs r) (cdb_suppressions r)
    (cdb_windows r) (cdb_org_windows r) (cdb_history r).
Definition set_cdb_permits (v : list CampaignSendPermitRecord) (r : CampaignDB) : CampaignDB :=
  mkCampaignDB (cdb_campaigns r) (cdb_revisions r) (cdb_snapshots r) (cdb_recipients r)
    (cdb_runs r) (cdb_attempts r) v (cdb_preferences r) (cdb_epochs r) (cdb_suppressions r)
    (cdb_windows r) (cdb_org_windows r) (cdb_history r).
Definition set_cdb_preferences (v : list CampaignContactPreferenceRecord) (r : CampaignDB) : CampaignDB :=
  mkCampaignDB (cdb_campaigns r) (cdb_revisions r) (cdb_snapshots r) (cdb_recipients r)
    (cdb_runs r) (cdb_attempts r) (cdb_permits r) v (cdb_epochs r) (cdb_suppressions r)
    (cdb_windows r) (cdb_org_windows r) (cdb_history r).
Definition set_cdb_epochs (v : list CampaignPolicyEpochRecord) (r : CampaignDB) : CampaignDB :=
  mkCampaignDB (cdb_campaigns r) (cdb_revisions r) (cdb_snapshots r) (cdb_recipients r)
    (cdb_runs r) (cdb_attempts r) (cdb_permits r) (cdb_preferences r) v (cdb_suppressions r)
    (cdb_windows r) (cdb_org_windows r) (cdb_history r).
Definition set_cdb_suppressions (v : list CampaignSuppressionRecord) (r : CampaignDB) : CampaignDB :=
  mkCampaignDB (cdb_campaigns r) (cdb_revisions r) (cdb_snapshots r) (cdb_recipients r)
    (cdb_runs r) (cdb_attempts r) (cdb_permits r) (cdb_preferences r) (cdb_epochs r) v
    (cdb_windows r) (cdb_org_windows r) (cdb_history r).
Definition set_cdb_windows (v : list CampaignThrottleWindowRecord) (r : CampaignDB) : CampaignDB :=
  mkCampaignDB (cdb_campaigns r) (cdb_revisions r) (cdb_snapshots r) (cdb_recipients r)
    (cdb_runs r) (cdb_attempts r) (cdb_permits r) (cdb_preferences r) (cdb_epochs r)
    (cdb_suppressions r) v (cdb_org_windows r) (cdb_history r).
Definition set_cdb_org_windows (v : list CampaignOrganizationThrottleWindowRecord) (r : CampaignDB) : CampaignDB :=
  mkCampaignDB (cdb_campaigns r) (cdb_revisions r) (cdb_snapshots r) (cdb_recipients r)
    (cdb_runs r) (cdb_attempts r) (cdb_permits r) (cdb_preferences r) (cdb_epochs r)
    (cdb_suppressions r) (cdb_windows r) v (cdb_history r).
Definition set_cdb_history (v : list CampaignTransitionHistoryRecord) (r : CampaignDB) : CampaignDB :=
  mkCampaignDB (cdb_campaigns r) (cdb_revisions r) (cdb_snapshots r) (cdb_recipients r)
    (cdb_runs r) (cdb_attempts r) (cdb_permits r) (cdb_preferences r) (cdb_epochs r)
    (cdb_suppressions r) (cdb_windows r) (cdb_org_windows r) v.

Definition empty_campaign_db : CampaignDB := mkCampaignDB [] [] [] [] [] [] [] [] [] [] [] [] [].
