(* ===== verification/Store.v ===== *)
(** * Store: the PostgreSQL tables and the transaction monad

    The rows of the workflow, scheduler and cell tables ([domain/*/models.py]; those
    of campaigns are in [CampaignStore]), the world a transaction runs in, and the state-and-exception monad [M] the
    repositories are written in. A transaction commits on success and restores the
    tables on any exception; an execution transaction first passes placement
    admission ([cells/admission.py], [infrastructure/database.py]). Row locks
    serialise the transactions that touch one run or schedule, so a transaction is
    one atomic step and interleavings are sequences of transactions. *)

From S2P Require Import Prelude.
From S2P Require Import Errors.
From S2P Require Import Lifecycles.
From S2P Require Import Conditions.
From S2P Require Import WorkflowGraph.
From S2P Require Import ScheduleSpec.
From S2P Require Import MessagingStore.
From S2P Require Import CustomerStore.
From S2P Require Import CampaignStore.

(** ** Rows *)

Module CellState.
Inductive CellState : Type := REGISTERED | RETIRED.
End CellState.
Abbreviation CellState := CellState.CellState.
#[export] Instance CellState_eq : EqDecision CellState.
Proof. solve_decision. Defined.

Module PlacementState.
Inductive PlacementState : Type := ACTIVE | SUSPENDED.
End PlacementState.
Abbreviation PlacementState := PlacementState.PlacementState.
#[export] Instance PlacementState_eq : EqDecision PlacementState.
Proof. solve_decision. Defined.

(** [cells/contracts.py]: the routing snapshot a worker was handed. *)
Record PlacementSnapshot : Type := {
  ps_organization_id : uuid;
  ps_placement_id : uuid;
  ps_cell_id : uuid;
  ps_assignment_generation : Z;
  ps_state : PlacementState;
}.

(** The document [record_misfire_accounting] stores in [detail]; [md_first] and
    [md_last] are the local time, fold and instant of the first and last omitted
    slot. *)
Record MisfireDetail : Type := {
  md_accounting_key : string;
  md_accounted_count : Z;
  md_coalesced_count : Z;
  md_skipped_count : Z;
  md_disposition : string;
  md_policy : MisfirePolicy;
  md_schedule_revision : Z;
  md_timezone : string;
  md_timezone_data_version : string;
  md_first : Z * Z * Z;
  md_last : Z * Z * Z;
}.
#[export] Instance MisfireDetail_eq : EqDecision MisfireDetail.
Proof. solve_decision. Defined.

(** [WorkflowDefinitionRecord], the table [workflow_definitions]. The JSONB column
    [draft_steps] holds the dumped step specifications; it is modelled by the
    specifications themselves, Pydantic's dump and validate being inverse. *)
Record WorkflowDefinitionRecord : Type := mkDefinition {
  wd_id : uuid;
  wd_organization_id : uuid;
  wd_workflow_key : string;
  wd_name : string;
  wd_description : option string;
  wd_status : WorkflowDefinitionStatus;
  wd_revision : Z;
  wd_draft_steps : list WorkflowStepSpec;
  wd_created_at : Z;
  wd_updated_at : Z;
}.

Definition set_wd_name (v : string) (r : WorkflowDefinitionRecord) : WorkflowDefinitionRecord :=
  mkDefinition (wd_id r) (wd_organization_id r) (wd_workflow_key r) v (wd_description r)
    (wd_status r) (wd_revision r) (wd_draft_steps r) (wd_created_at r) (wd_updated_at r).
Definition set_wd_description (v : option string) (r : WorkflowDefinitionRecord) : WorkflowDefinitionRecord :=
  mkDefinition (wd_id r) (wd_organization_id r) (wd_workflow_key r) (wd_name r) v (wd_status r)
    (wd_revision r) (wd_draft_steps r) (wd_created_at r) (wd_updated_at r).
Definition set_wd_status (v : WorkflowDefinitionStatus) (r : WorkflowDefinitionRecord) : WorkflowDefinitionRecord :=
  mkDefinition (wd_id r) (wd_organization_id r) (wd_workflow_key r) (wd_name r)
    (wd_description r) v (wd_revision r) (wd_draft_steps r) (wd_created_at r) (wd_updated_at r).
Definition set_wd_revision (v : Z) (r : WorkflowDefinitionRecord) : WorkflowDefinitionRecord :=
  mkDefinition (wd_id r) (wd_organization_id r) (wd_workflow_key r) (wd_name r)
    (wd_description r) (wd_status r) v (wd_draft_steps r) (wd_created_at r) (wd_updated_at r).
Definition set_wd_draft_steps (v : list WorkflowStepSpec) (r : WorkflowDefinitionRecord) : WorkflowDefinitionRecord :=
  mkDefinition (wd_id r) (wd_organization_id r) (wd_workflow_key r) (wd_name r)
    (wd_description r) (wd_status r) (wd_revision r) v (wd_created_at r) (wd_updated_at r).
Definition set_wd_updated_at (v : Z) (r : WorkflowDefinitionRecord) : WorkflowDefinitionRecord :=
  mkDefinition (wd_id r) (wd_organization_id r) (wd_workflow_key r) (wd_name r)
    (wd_description r) (wd_status r) (wd_revision r) (wd_draft_steps r) (wd_created_at r) v.

(** [workflow_versions] *)
Record WorkflowVersionRecord : Type := mkVersion {
  wv_id : uuid;
  wv_organization_id : uuid;
  wv_definition_id : uuid;
  wv_version_number : Z;
  wv_content_hash : string;
  wv_published_at : Z;
  wv_created_at : Z;
}.

(** [workflow_version_steps] *)
Record WorkflowVersionStepRecord : Type := mkVersionStep {
  vs_id : uuid;
  vs_organization_id : uuid;
  vs_version_id : uuid;
  vs_step_key : string;
  vs_step_type : WorkflowStepType;
  vs_dependencies : list string;
  vs_dependency_mode : DependencyMode;
  vs_configuration : StepConfig;
  vs_retry_policy : RetryPolicy;
  vs_topological_order : Z;
  vs_created_at : Z;
}.

(** [workflow_runs] *)
Record WorkflowRunRecord : Type := mkRun {
  wr_id : uuid;
  wr_organization_id : uuid;
  wr_definition_id : uuid;
  wr_version_id : uuid;
  wr_state : WorkflowRunState;
  wr_state_version : Z;
  wr_input_payload : list (string * json);
  wr_output_payload : option (list (string * json));
  wr_idempotency_key : option string;
  wr_request_fingerprint : string;
  wr_correlation_id : option string;
  wr_error_code : option string;
  wr_terminal_reason : option string;
  wr_started_at : Z;
  wr_ended_at : option Z;
  wr_created_at : Z;
  wr_updated_at : Z;
}.

Definition set_wr_state (v : WorkflowRunState) (r : WorkflowRunRecord) : WorkflowRunRecord :=
  mkRun (wr_id r) (wr_organization_id r) (wr_definition_id r) (wr_version_id r) v
    (wr_state_version r) (wr_input_payload r) (wr_output_payload r) (wr_idempotency_key r)
    (wr_request_fingerprint r) (wr_correlation_id r) (wr_error_code r) (wr_terminal_reason r)
    (wr_started_at r) (wr_ended_at r) (wr_created_at r) (wr_updated_at r).
Definition set_wr_state_version (v : Z) (r : WorkflowRunRecord) : WorkflowRunRecord :=
  mkRun (wr_id r) (wr_organization_id r) (wr_definition_id r) (wr_version_id r) (wr_state r) v
    (wr_input_payload r) (wr_output_payload r) (wr_idempotency_key r) (wr_request_fingerprint r)
    (wr_correlation_id r) (wr_error_code r) (wr_terminal_reason r) (wr_started_at r)
    (wr_ended_at r) (wr_created_at r) (wr_updated_at r).
Definition set_wr_output_payload (v : option (list (string * json))) (r : WorkflowRunRecord) : WorkflowRunRecord :=
  mkRun (wr_id r) (wr_organization_id r) (wr_definition_id r) (wr_version_id r) (wr_state r)
    (wr_state_version r) (wr_input_payload r) v (wr_idempotency_key r)
    (wr_request_fingerprint r) (wr_correlation_id r) (wr_error_code r) (wr_terminal_reason r)
    (wr_started_at r) (wr_ended_at r) (wr_created_at r) (wr_updated_at r).
Definition set_wr_error_code (v : option string) (r : WorkflowRunRecord) : WorkflowRunRecord :=
  mkRun (wr_id r) (wr_organization_id r) (wr_definition_id r) (wr_version_id r) (wr_state r)
    (wr_state_version r) (wr_input_payload r) (wr_output_payload r) (wr_idempotency_key r)
    (wr_request_fingerprint r) (wr_correlation_id r) v (wr_terminal_reason r) (wr_started_at r)
    (wr_ended_at r) (wr_created_at r) (wr_updated_at r).
Definition set_wr_terminal_reason (v : option string) (r : WorkflowRunRecord) : WorkflowRunRecord :=
  mkRun (wr_id r) (wr_organization_id r) (wr_definition_id r) (wr_version_id r) (wr_state r)
    (wr_state_version r) (wr_input_payload r) (wr_output_payload r) (wr_idempotency_key r)
    (wr_request_fingerprint r) (wr_correlation_id r) (wr_error_code r) v (wr_started_at r)
    (wr_ended_at r) (wr_created_at r) (wr_updated_at r).
Definition set_wr_ended_at (v : option Z) (r : WorkflowRunRecord) : WorkflowRunRecord :=
  mkRun (wr_id r) (wr_organization_id r) (wr_definition_id r) (wr_version_id r) (wr_state r)
    (wr_state_version r) (wr_input_payload r) (wr_output_payload r) (wr_idempotency_key r)
    (wr_request_fingerprint r) (wr_correlation_id r) (wr_error_code r) (wr_terminal_reason r)
    (wr_started_at r) v (wr_created_at r) (wr_updated_at r).
Definition set_wr_updated_at (v : Z) (r : WorkflowRunRecord) : WorkflowRunRecord :=
  mkRun (wr_id r) (wr_organization_id r) (wr_definition_id r) (wr_version_id r) (wr_state r)
    (wr_state_version r) (wr_input_payload r) (wr_output_payload r) (wr_idempotency_key r)
    (wr_request_fingerprint r) (wr_correlation_id r) (wr_error_code r) (wr_terminal_reason r)
    (wr_started_at r) (wr_ended_at r) (wr_created_at r) v.

(** [workflow_step_runs] *)
Record WorkflowStepRunRecord : Type := mkStepRun {
  sr_id : uuid;
  sr_organization_id : uuid;
  sr_run_id : uuid;
  sr_version_step_id : uuid;
  sr_step_key : string;
  sr_step_type : WorkflowStepType;
  sr_state : WorkflowStepState;
  sr_attempt_count : Z;
  sr_max_attempts : Z;
  sr_execution_owner_id : option uuid;
  sr_claim_token : option uuid;
  sr_claimed_at : option Z;
  sr_lease_expires_at : option Z;
  sr_next_eligible_at : option Z;
  sr_input_payload : list (string * json);
  sr_output_payload : option (list (string * json));
  sr_error_code : option string;
  sr_external_execution_ref : option string;
  sr_created_at : Z;
  sr_updated_at : Z;
}.

Definition set_sr_state (v : WorkflowStepState) (r : WorkflowStepRunRecord) : WorkflowStepRunRecord :=
  mkStepRun (sr_id r) (sr_organization_id r) (sr_run_id r) (sr_version_step_id r)
    (sr_step_key r) (sr_step_type r) v (sr_attempt_count r) (sr_max_attempts r)
    (sr_execution_owner_id r) (sr_claim_token r) (sr_claimed_at r) (sr_lease_expires_at r)
    (sr_next_eligible_at r) (sr_input_payload r) (sr_output_payload r) (sr_error_code r)
    (sr_external_execution_ref r) (sr_created_at r) (sr_updated_at r).
Definition set_sr_attempt_count (v : Z) (r : WorkflowStepRunRecord) : WorkflowStepRunRecord :=
  mkStepRun (sr_id r) (sr_organization_id r) (sr_run_id r) (sr_version_step_id r)
    (sr_step_key r) (sr_step_type r) (sr_state r) v (sr_max_attempts r)
    (sr_execution_owner_id r) (sr_claim_token r) (sr_claimed_at r) (sr_lease_expires_at r)
    (sr_next_eligible_at r) (sr_input_payload r) (sr_output_payload r) (sr_error_code r)
    (sr_external_execution_ref r) (sr_created_at r) (sr_updated_at r).
Definition set_sr_execution_owner_id (v : option uuid) (r : WorkflowStepRunRecord) : WorkflowStepRunRecord :=
  mkStepRun (sr_id r) (sr_organization_id r) (sr_run_id r) (sr_version_step_id r)
    (sr_step_key r) (sr_step_type r) (sr_state r) (sr_attempt_count r) (sr_max_attempts r) v
    (sr_claim_token r) (sr_claimed_at r) (sr_lease_expires_at r) (sr_next_eligible_at r)
    (sr_input_payload r) (sr_output_payload r) (sr_error_code r) (sr_external_execution_ref r)
    (sr_created_at r) (sr_updated_at r).
Definition set_sr_claim_token (v : option uuid) (r : WorkflowStepRunRecord) : WorkflowStepRunRecord :=
  mkStepRun (sr_id r) (sr_organization_id r) (sr_run_id r) (sr_version_step_id r)
    (sr_step_key r) (sr_step_type r) (sr_state r) (sr_attempt_count r) (sr_max_attempts r)
    (sr_execution_owner_id r) v (sr_claimed_at r) (sr_lease_expires_at r)
    (sr_next_eligible_at r) (sr_input_payload r) (sr_output_payload r) (sr_error_code r)
    (sr_external_execution_ref r) (sr_created_at r) (sr_updated_at r).
Definition set_sr_claimed_at (v : option Z) (r : WorkflowStepRunRecord) : WorkflowStepRunRecord :=
  mkStepRun (sr_id r) (sr_organization_id r) (sr_run_id r) (sr_version_step_id r)
    (sr_step_key r) (sr_step_type r) (sr_state r) (sr_attempt_count r) (sr_max_attempts r)
    (sr_execution_owner_id r) (sr_claim_token r) v (sr_lease_expires_at r)
    (sr_next_eligible_at r) (sr_input_payload r) (sr_output_payload r) (sr_error_code r)
    (sr_external_execution_ref r) (sr_created_at r) (sr_updated_at r).
Definition set_sr_output_payload (v : option (list (string * json))) (r : WorkflowStepRunRecord) : WorkflowStepRunRecord :=
  mkStepRun (sr_id r) (sr_organization_id r) (sr_run_id r) (sr_version_step_id r)
    (sr_step_key r) (sr_step_type r) (sr_state r) (sr_attempt_count r) (sr_max_attempts r)
    (sr_execution_owner_id r) (sr_claim_token r) (sr_claimed_at r) (sr_lease_expires_at r)
    (sr_next_eligible_at r) (sr_input_payload r) v (sr_error_code r)
    (sr_external_execution_ref r) (sr_created_at r) (sr_updated_at r).
Definition set_sr_error_code (v : option string) (r : WorkflowStepRunRecord) : WorkflowStepRunRecord :=
  mkStepRun (sr_id r) (sr_organization_id r) (sr_run_id r) (sr_version_step_id r)
    (sr_step_key r) (sr_step_type r) (sr_state r) (sr_attempt_count r) (sr_max_attempts r)
    (sr_execution_owner_id r) (sr_claim_token r) (sr_claimed_at r) (sr_lease_expires_at r)
    (sr_next_eligible_at r) (sr_input_payload r) (sr_output_payload r) v
    (sr_external_execution_ref r) (sr_created_at r) (sr_updated_at r).
Definition set_sr_external_execution_ref (v : option string) (r : WorkflowStepRunRecord) : WorkflowStepRunRecord :=
  mkStepRun (sr_id r) (sr_organization_id r) (sr_run_id r) (sr_version_step_id r)
    (sr_step_key r) (sr_step_type r) (sr_state r) (sr_attempt_count r) (sr_max_attempts r)
    (sr_execution_owner_id r) (sr_claim_token r) (sr_claimed_at r) (sr_lease_expires_at r)
    (sr_next_eligible_at r) (sr_input_payload r) (sr_output_payload r) (sr_error_code r) v
    (sr_created_at r) (sr_updated_at r).
Definition set_sr_updated_at (v : Z) (r : WorkflowStepRunRecord) : WorkflowStepRunRecord :=
  mkStepRun (sr_id r) (sr_organization_id r) (sr_run_id r) (sr_version_step_id r)
    (sr_step_key r) (sr_step_type r) (sr_state r) (sr_attempt_count r) (sr_max_attempts r)
    (sr_execution_owner_id r) (sr_claim_token r) (sr_claimed_at r) (sr_lease_expires_at r)
    (sr_next_eligible_at r) (sr_input_payload r) (sr_output_payload r) (sr_error_code r)
    (sr_external_execution_ref r) (sr_created_at r) v.

(** [workflow_transition_history] *)
Record WorkflowTransitionHistoryRecord : Type := mkRunTransition {
  wh_id : uuid;
  wh_organization_id : uuid;
  wh_run_id : uuid;
  wh_entity_type : string;
  wh_entity_id : uuid;
  wh_from_state : option string;
  wh_to_state : string;
  wh_reason_code : string;
  wh_source : string;
  wh_correlation_id : option string;
  wh_detail : option string;
  wh_created_at : Z;
}.

(** [scheduler_schedules] *)
Record SchedulerScheduleRecord : Type := mkSchedule {
  ss_id : uuid;
  ss_organization_id : uuid;
  ss_schedule_key : string;
  ss_target_type : string;
  ss_workflow_version_id : uuid;
  ss_schedule_type : ScheduleType;
  ss_timezone : string;
  ss_recurrence_spec : option RecurrenceSpec;
  ss_input_payload : list (string * json);
  ss_start_at : Z;
  ss_end_at : option Z;
  ss_next_fire_at : option Z;
  ss_next_local_time : option Z;
  ss_state : ScheduleState;
  ss_misfire_policy : MisfirePolicy;
  ss_max_catch_up : Z;
  ss_revision : Z;
  ss_timezone_data_version : string;
  ss_created_at : Z;
  ss_updated_at : Z;
}.

Definition set_ss_timezone (v : string) (r : SchedulerScheduleRecord) : SchedulerScheduleRecord :=
  mkSchedule (ss_id r) (ss_organization_id r) (ss_schedule_key r) (ss_target_type r)
    (ss_workflow_version_id r) (ss_schedule_type r) v (ss_recurrence_spec r)
    (ss_input_payload r) (ss_start_at r) (ss_end_at r) (ss_next_fire_at r)
    (ss_next_local_time r) (ss_state r) (ss_misfire_policy r) (ss_max_catch_up r)
    (ss_revision r) (ss_timezone_data_version r) (ss_created_at r) (ss_updated_at r).
Definition set_ss_recurrence_spec (v : option RecurrenceSpec) (r : SchedulerScheduleRecord) : SchedulerScheduleRecord :=
  mkSchedule (ss_id r) (ss_organization_id r) (ss_schedule_key r) (ss_target_type r)
    (ss_workflow_version_id r) (ss_schedule_type r) (ss_timezone r) v (ss_input_payload r)
    (ss_start_at r) (ss_end_at r) (ss_next_fire_at r) (ss_next_local_time r) (ss_state r)
    (ss_misfire_policy r) (ss_max_catch_up r) (ss_revision r) (ss_timezone_data_version r)
    (ss_created_at r) (ss_updated_at r).
Definition set_ss_input_payload (v : list (string * json)) (r : SchedulerScheduleRecord) : SchedulerScheduleRecord :=
  mkSchedule (ss_id r) (ss_organization_id r) (ss_schedule_key r) (ss_target_type r)
    (ss_workflow_version_id r) (ss_schedule_type r) (ss_timezone r) (ss_recurrence_spec r) v
    (ss_start_at r) (ss_end_at r) (ss_next_fire_at r) (ss_next_local_time r) (ss_state r)
    (ss_misfire_policy r) (ss_max_catch_up r) (ss_revision r) (ss_timezone_data_version r)
    (ss_created_at r) (ss_updated_at r).
Definition set_ss_start_at (v : Z) (r : SchedulerScheduleRecord) : SchedulerScheduleRecord :=
  mkSchedule (ss_id r) (ss_organization_id r) (ss_schedule_key r) (ss_target_type r)
    (ss_workflow_version_id r) (ss_schedule_type r) (ss_timezone r) (ss_recurrence_spec r)
    (ss_input_payload r) v (ss_end_at r) (ss_next_fire_at r) (ss_next_local_time r) (ss_state r)
    (ss_misfire_policy r) (ss_max_catch_up r) (ss_revision r) (ss_timezone_data_version r)
    (ss_created_at r) (ss_updated_at r).
Definition set_ss_end_at (v : option Z) (r : SchedulerScheduleRecord) : SchedulerScheduleRecord :=
  mkSchedule (ss_id r) (ss_organization_id r) (ss_schedule_key r) (ss_target_type r)
    (ss_workflow_version_id r) (ss_schedule_type r) (ss_timezone r) (ss_recurrence_spec r)
    (ss_input_payload r) (ss_start_at r) v (ss_next_fire_at r) (ss_next_local_time r)
    (ss_state r) (ss_misfire_policy r) (ss_max_catch_up r) (ss_revision r)
    (ss_timezone_data_version r) (ss_created_at r) (ss_updated_at r).
Definition set_ss_next_fire_at (v : option Z) (r : SchedulerScheduleRecord) : SchedulerScheduleRecord :=
  mkSchedule (ss_id r) (ss_organization_id r) (ss_schedule_key r) (ss_target_type r)
    (ss_workflow_version_id r) (ss_schedule_type r) (ss_timezone r) (ss_recurrence_spec r)
    (ss_input_payload r) (ss_start_at r) (ss_end_at r) v (ss_next_local_time r) (ss_state r)
    (ss_misfire_policy r) (ss_max_catch_up r) (ss_revision r) (ss_timezone_data_version r)
    (ss_created_at r) (ss_updated_at r).
Definition set_ss_next_local_time (v : option Z) (r : SchedulerScheduleRecord) : SchedulerScheduleRecord :=
  mkSchedule (ss_id r) (ss_organization_id r) (ss_schedule_key r) (ss_target_type r)
    (ss_workflow_version_id r) (ss_schedule_type r) (ss_timezone r) (ss_recurrence_spec r)
    (ss_input_payload r) (ss_start_at r) (ss_end_at r) (ss_next_fire_at r) v (ss_state r)
    (ss_misfire_policy r) (ss_max_catch_up r) (ss_revision r) (ss_timezone_data_version r)
    (ss_created_at r) (ss_updated_at r).
Definition set_ss_state (v : ScheduleState) (r : SchedulerScheduleRecord) : SchedulerScheduleRecord :=
  mkSchedule (ss_id r) (ss_organization_id r) (ss_schedule_key r) (ss_target_type r)
    (ss_workflow_version_id r) (ss_schedule_type r) (ss_timezone r) (ss_recurrence_spec r)
    (ss_input_payload r) (ss_start_at r) (ss_end_at r) (ss_next_fire_at r)
    (ss_next_local_time r) v (ss_misfire_policy r) (ss_max_catch_up r) (ss_revision r)
    (ss_timezone_data_version r) (ss_created_at r) (ss_updated_at r).
Definition set_ss_misfire_policy (v : MisfirePolicy) (r : SchedulerScheduleRecord) : SchedulerScheduleRecord :=
  mkSchedule (ss_id r) (ss_organization_id r) (ss_schedule_key r) (ss_target_type r)
    (ss_workflow_version_id r) (ss_schedule_type r) (ss_timezone r) (ss_recurrence_spec r)
    (ss_input_payload r) (ss_start_at r) (ss_end_at r) (ss_next_fire_at r)
    (ss_next_local_time r) (ss_state r) v (ss_max_catch_up r) (ss_revision r)
    (ss_timezone_data_version r) (ss_created_at r) (ss_updated_at r).
Definition set_ss_max_catch_up (v : Z) (r : SchedulerScheduleRecord) : SchedulerScheduleRecord :=
  mkSchedule (ss_id r) (ss_organization_id r) (ss_schedule_key r) (ss_target_type r)
    (ss_workflow_version_id r) (ss_schedule_type r) (ss_timezone r) (ss_recurrence_spec r)
    (ss_input_payload r) (ss_start_at r) (ss_end_at r) (ss_next_fire_at r)
    (ss_next_local_time r) (ss_state r) (ss_misfire_policy r) v (ss_revision r)
    (ss_timezone_data_version r) (ss_created_at r) (ss_updated_at r).
Definition set_ss_revision (v : Z) (r : SchedulerScheduleRecord) : SchedulerScheduleRecord :=
  mkSchedule (ss_id r) (ss_organization_id r) (ss_schedule_key r) (ss_target_type r)
    (ss_workflow_version_id r) (ss_schedule_type r) (ss_timezone r) (ss_recurrence_spec r)
    (ss_input_payload r) (ss_start_at r) (ss_end_at r) (ss_next_fire_at r)
    (ss_next_local_time r) (ss_state r) (ss_misfire_policy r) (ss_max_catch_up r) v
    (ss_timezone_data_version r) (ss_created_at r) (ss_updated_at r).
Definition set_ss_updated_at (v : Z) (r : SchedulerScheduleRecord) : SchedulerScheduleRecord :=
  mkSchedule (ss_id r) (ss_organization_id r) (ss_schedule_key r) (ss_target_type r)
    (ss_workflow_version_id r) (ss_schedule_type r) (ss_timezone r) (ss_recurrence_spec r)
    (ss_input_payload r) (ss_start_at r) (ss_end_at r) (ss_next_fire_at r)
    (ss_next_local_time r) (ss_state r) (ss_misfire_policy r) (ss_max_catch_up r)
    (ss_revision r) (ss_timezone_data_version r) (ss_created_at r) v.

(** [scheduler_occurrences] *)
Record SchedulerOccurrenceRecord : Type := mkOccurrence {
  so_id : uuid;
  so_organization_id : uuid;
  so_schedule_id : uuid;
  so_workflow_version_id : uuid;
  so_schedule_revision : Z;
  so_occurrence_key : string;
  so_scheduled_for : Z;
  so_intended_local_time : Z;
  so_timezone : string;
  so_utc_offset_seconds : Z;
  so_fold : Z;
  so_timezone_data_version : string;
  so_misfire_policy : MisfirePolicy;
  so_state : OccurrenceState;
  so_claim_owner_id : option uuid;
  so_claim_token : option uuid;
  so_claimed_at : option Z;
  so_dispatch_started_at : option Z;
  so_dispatch_attempt_count : Z;
  so_p14_idempotency_key : string;
  so_workflow_run_id : option uuid;
  so_workflow_input : list (string * json);
  so_error_code : option string;
  so_created_at : Z;
  so_updated_at : Z;
}.

Definition set_so_state (v : OccurrenceState) (r : SchedulerOccurrenceRecord) : SchedulerOccurrenceRecord :=
  mkOccurrence (so_id r) (so_organization_id r) (so_schedule_id r) (so_workflow_version_id r)
    (so_schedule_revision r) (so_occurrence_key r) (so_scheduled_for r)
    (so_intended_local_time r) (so_timezone r) (so_utc_offset_seconds r) (so_fold r)
    (so_timezone_data_version r) (so_misfire_policy r) v (so_claim_owner_id r)
    (so_claim_token r) (so_claimed_at r) (so_dispatch_started_at r)
    (so_dispatch_attempt_count r) (so_p14_idempotency_key r) (so_workflow_run_id r)
    (so_workflow_input r) (so_error_code r) (so_created_at r) (so_updated_at r).
Definition set_so_claim_owner_id (v : option uuid) (r : SchedulerOccurrenceRecord) : SchedulerOccurrenceRecord :=
  mkOccurrence (so_id r) (so_organization_id r) (so_schedule_id r) (so_workflow_version_id r)
    (so_schedule_revision r) (so_occurrence_key r) (so_scheduled_for r)
    (so_intended_local_time r) (so_timezone r) (so_utc_offset_seconds r) (so_fold r)
    (so_timezone_data_version r) (so_misfire_policy r) (so_state r) v (so_claim_token r)
    (so_claimed_at r) (so_dispatch_started_at r) (so_dispatch_attempt_count r)
    (so_p14_idempotency_key r) (so_workflow_run_id r) (so_workflow_input r) (so_error_code r)
    (so_created_at r) (so_updated_at r).
Definition set_so_claim_token (v : option uuid) (r : SchedulerOccurrenceRecord) : SchedulerOccurrenceRecord :=
  mkOccurrence (so_id r) (so_organization_id r) (so_schedule_id r) (so_workflow_version_id r)
    (so_schedule_revision r) (so_occurrence_key r) (so_scheduled_for r)
    (so_intended_local_time r) (so_timezone r) (so_utc_offset_seconds r) (so_fold r)
    (so_timezone_data_version r) (so_misfire_policy r) (so_state r) (so_claim_owner_id r) v
    (so_claimed_at r) (so_dispatch_started_at r) (so_dispatch_attempt_count r)
    (so_p14_idempotency_key r) (so_workflow_run_id r) (so_workflow_input r) (so_error_code r)
    (so_created_at r) (so_updated_at r).
Definition set_so_claimed_at (v : option Z) (r : SchedulerOccurrenceRecord) : SchedulerOccurrenceRecord :=
  mkOccurrence (so_id r) (so_organization_id r) (so_schedule_id r) (so_workflow_version_id r)
    (so_schedule_revision r) (so_occurrence_key r) (so_scheduled_for r)
    (so_intended_local_time r) (so_timezone r) (so_utc_offset_seconds r) (so_fold r)
    (so_timezone_data_version r) (so_misfire_policy r) (so_state r) (so_claim_owner_id r)
    (so_claim_token r) v (so_dispatch_started_at r) (so_dispatch_attempt_count r)
    (so_p14_idempotency_key r) (so_workflow_run_id r) (so_workflow_input r) (so_error_code r)
    (so_created_at r) (so_updated_at r).
Definition set_so_dispatch_started_at (v : option Z) (r : SchedulerOccurrenceRecord) : SchedulerOccurrenceRecord :=
  mkOccurrence (so_id r) (so_organization_id r) (so_schedule_id r) (so_workflow_version_id r)
    (so_schedule_revision r) (so_occurrence_key r) (so_scheduled_for r)
    (so_intended_local_time r) (so_timezone r) (so_utc_offset_seconds r) (so_fold r)
    (so_timezone_data_version r) (so_misfire_policy r) (so_state r) (so_claim_owner_id r)
    (so_claim_token r) (so_claimed_at r) v (so_dispatch_attempt_count r)
    (so_p14_idempotency_key r) (so_workflow_run_id r) (so_workflow_input r) (so_error_code r)
    (so_created_at r) (so_updated_at r).
Definition set_so_dispatch_attempt_count (v : Z) (r : SchedulerOccurrenceRecord) : SchedulerOccurrenceRecord :=
  mkOccurrence (so_id r) (so_organization_id r) (so_schedule_id r) (so_workflow_version_id r)
    (so_schedule_revision r) (so_occurrence_key r) (so_scheduled_for r)
    (so_intended_local_time r) (so_timezone r) (so_utc_offset_seconds r) (so_fold r)
    (so_timezone_data_version r) (so_misfire_policy r) (so_state r) (so_claim_owner_id r)
    (so_claim_token r) (so_claimed_at r) (so_dispatch_started_at r) v (so_p14_idempotency_key r)
    (so_workflow_run_id r) (so_workflow_input r) (so_error_code r) (so_created_at r)
    (so_updated_at r).
Definition set_so_workflow_run_id (v : option uuid) (r : SchedulerOccurrenceRecord) : SchedulerOccurrenceRecord :=
  mkOccurrence (so_id r) (so_organization_id r) (so_schedule_id r) (so_workflow_version_id r)
    (so_schedule_revision r) (so_occurrence_key r) (so_scheduled_for r)
    (so_intended_local_time r) (so_timezone r) (so_utc_offset_seconds r) (so_fold r)
    (so_timezone_data_version r) (so_misfire_policy r) (so_state r) (so_claim_owner_id r)
    (so_claim_token r) (so_claimed_at r) (so_dispatch_started_at r)
    (so_dispatch_attempt_count r) (so_p14_idempotency_key r) v (so_workflow_input r)
    (so_error_code r) (so_created_at r) (so_updated_at r).
Definition set_so_error_code (v : option string) (r : SchedulerOccurrenceRecord) : SchedulerOccurrenceRecord :=
  mkOccurrence (so_id r) (so_organization_id r) (so_schedule_id r) (so_workflow_version_id r)
    (so_schedule_revision r) (so_occurrence_key r) (so_scheduled_for r)
    (so_intended_local_time r) (so_timezone r) (so_utc_offset_seconds r) (so_fold r)
    (so_timezone_data_version r) (so_misfire_policy r) (so_state r) (so_claim_owner_id r)
    (so_claim_token r) (so_claimed_at r) (so_dispatch_started_at r)
    (so_dispatch_attempt_count r) (so_p14_idempotency_key r) (so_workflow_run_id r)
    (so_workflow_input r) v (so_created_at r) (so_updated_at r).
Definition set_so_updated_at (v : Z) (r : SchedulerOccurrenceRecord) : SchedulerOccurrenceRecord :=
  mkOccurrence (so_id r) (so_organization_id r) (so_schedule_id r) (so_workflow_version_id r)
    (so_schedule_revision r) (so_occurrence_key r) (so_scheduled_for r)
    (so_intended_local_time r) (so_timezone r) (so_utc_offset_seconds r) (so_fold r)
    (so_timezone_data_version r) (so_misfire_policy r) (so_state r) (so_claim_owner_id r)
    (so_claim_token r) (so_claimed_at r) (so_dispatch_started_at r)
    (so_dispatch_attempt_count r) (so_p14_idempotency_key r) (so_workflow_run_id r)
    (so_workflow_input r) (so_error_code r) (so_created_at r) v.

(** [scheduler_transition_history]; [detail] holds the misfire accounting document. *)
Record SchedulerTransitionHistoryRecord : Type := mkScheduleTransition {
  sh_id : uuid;
  sh_organization_id : uuid;
  sh_schedule_id : uuid;
  sh_occurrence_id : option uuid;
  sh_entity_type : string;
  sh_entity_id : uuid;
  sh_from_state : option string;
  sh_to_state : string;
  sh_reason_code : string;
  sh_source : string;
  sh_correlation_id : option string;
  sh_detail : option MisfireDetail;
  sh_created_at : Z;
}.

(** [cells], the columns admission reads. *)
Record CellRecord : Type := mkCell {
  cell_id : uuid;
  cell_state : CellState;
}.

(** [organization_placements] *)
Record OrganizationPlacementRecord : Type := mkPlacement {
  op_id : uuid;
  op_organization_id : uuid;
  op_cell_id : uuid;
  op_assignment_generation : Z;
  op_state : PlacementState;
}.

(** The tenant-scoped event envelope of [events/envelope.py]: the fields
    [EventEnvelope.create] fills from its arguments. *)
Record EventEnvelope : Type := mkEnvelope {
  ev_event_id : uuid;
  ev_event_type : string;
  ev_event_version : Z;
  ev_occurred_at : Z;
  ev_organization_id : uuid;
  ev_aggregate_type : string;
  ev_aggregate_id : string;
  ev_correlation_id : string;
  ev_producer : string;
  ev_payload : list (string * json);
}.

(** ** The world *)

(** The tables, each a list of rows in insertion order. *)
Record DB : Type := mkDB {
  db_definitions : list WorkflowDefinitionRecord;
  db_versions : list WorkflowVersionRecord;
  db_version_steps : list WorkflowVersionStepRecord;
  db_runs : list WorkflowRunRecord;
  db_step_runs : list WorkflowStepRunRecord;
  db_run_history : list WorkflowTransitionHistoryRecord;
  db_schedules : list SchedulerScheduleRecord;
  db_occurrences : list SchedulerOccurrenceRecord;
  db_schedule_history : list SchedulerTransitionHistoryRecord;
  db_cells : list CellRecord;
  db_placements : list OrganizationPlacementRecord;
  db_outbox : list EventEnvelope;
  db_campaign : CampaignDB;
  db_customer : CustomerDB;
  db_messaging : MessagingDB;
}.

Definition set_db_definitions (v : list WorkflowDefinitionRecord) (r : DB) : DB :=
  mkDB v (db_versions r) (db_version_steps r) (db_runs r) (db_step_runs r) (db_run_history r)
    (db_schedules r) (db_occurrences r) (db_schedule_history r) (db_cells r) (db_placements r)
    (db_outbox r) (db_campaign r)
    (db_customer r) (db_messaging r).
Definition set_db_versions (v : list WorkflowVersionRecord) (r : DB) : DB :=
  mkDB (db_definitions r) v (db_version_steps r) (db_runs r) (db_step_runs r) (db_run_history r)
    (db_schedules r) (db_occurrences r) (db_schedule_history r) (db_cells r) (db_placements r)
    (db_outbox r) (db_campaign r)
    (db_customer r) (db_messaging r).
Definition set_db_version_steps (v : list WorkflowVersionStepRecord) (r : DB) : DB :=
  mkDB (db_definitions r) (db_versions r) v (db_runs r) (db_step_runs r) (db_run_history r)
    (db_schedules r) (db_occurrences r) (db_schedule_history r) (db_cells r) (db_placements r)
    (db_outbox r) (db_campaign r)
    (db_customer r) (db_messaging r).
Definition set_db_runs (v : list WorkflowRunRecord) (r : DB) : DB :=
  mkDB (db_definitions r) (db_versions r) (db_version_steps r) v (db_step_runs r)
    (db_run_history r) (db_schedules r) (db_occurrences r) (db_schedule_history r) (db_cells r)
    (db_placements r) (db_outbox r) (db_campaign r)
    (db_customer r) (db_messaging r).
Definition set_db_step_runs (v : list WorkflowStepRunRecord) (r : DB) : DB :=
  mkDB (db_definitions r) (db_versions r) (db_version_steps r) (db_runs r) v (db_run_history r)
    (db_schedules r) (db_occurrences r) (db_schedule_history r) (db_cells r) (db_placements r)
    (db_outbox r) (db_campaign r)
    (db_customer r) (db_messaging r).
Definition set_db_run_history (v : list WorkflowTransitionHistoryRecord) (r : DB) : DB :=
  mkDB (db_definitions r) (db_versions r) (db_version_steps r) (db_runs r) (db_step_runs r) v
    (db_schedules r) (db_occurrences r) (db_schedule_history r) (db_cells r) (db_placements r)
    (db_outbox r) (db_campaign r)
    (db_customer r) (db_messaging r).
Definition set_db_schedules (v : list SchedulerScheduleRecord) (r : DB) : DB :=
  mkDB (db_definitions r) (db_versions r) (db_version_steps r) (db_runs r) (db_step_runs r)
    (db_run_history r) v (db_occurrences r) (db_schedule_history r) (db_cells r)
    (db_placements r) (db_outbox r) (db_campaign r)
    (db_customer r) (db_messaging r).
Definition set_db_occurrences (v : list SchedulerOccurrenceRecord) (r : DB) : DB :=
  mkDB (db_definitions r) (db_versions r) (db_version_steps r) (db_runs r) (db_step_runs r)
    (db_run_history r) (db_schedules r) v (db_schedule_history r) (db_cells r) (db_placements r)
    (db_outbox r) (db_campaign r)
    (db_customer r) (db_messaging r).
Definition set_db_schedule_history (v : list SchedulerTransitionHistoryRecord) (r : DB) : DB :=
  mkDB (db_definitions r) (db_versions r) (db_version_steps r) (db_runs r) (db_step_runs r)
    (db_run_history r) (db_schedules r) (db_occurrences r) v (db_cells r) (db_placements r)
    (db_outbox r) (db_campaign r)
    (db_customer r) (db_messaging r).
Definition set_db_outbox (v : list EventEnvelope) (r : DB) : DB :=
  mkDB (db_definitions r) (db_versions r) (db_version_steps r) (db_runs r) (db_step_runs r)
    (db_run_history r) (db_schedules r) (db_occurrences r) (db_schedule_history r) (db_cells r)
    (db_placements r) v (db_campaign r) (db_customer r) (db_messaging r).
Definition set_db_campaign (v : CampaignDB) (r : DB) : DB :=
  mkDB (db_definitions r) (db_versions r) (db_version_steps r) (db_runs r) (db_step_runs r)
    (db_run_history r) (db_schedules r) (db_occurrences r) (db_schedule_history r) (db_cells r)
    (db_placements r) (db_outbox r) v (db_customer r) (db_messaging r).
Definition set_db_customer (v : CustomerDB) (r : DB) : DB :=
  mkDB (db_definitions r) (db_versions r) (db_version_steps r) (db_runs r) (db_step_runs r)
    (db_run_history r) (db_schedules r) (db_occurrences r) (db_schedule_history r) (db_cells r)
    (db_placements r) (db_outbox r) (db_campaign r) v (db_messaging r).
Definition set_db_messaging (v : MessagingDB) (r : DB) : DB :=
  mkDB (db_definitions r) (db_versions r) (db_version_steps r) (db_runs r) (db_step_runs r)
    (db_run_history r) (db_schedules r) (db_occurrences r) (db_schedule_history r) (db_cells r)
    (db_placements r) (db_outbox r) (db_campaign r) (db_customer r) v.

(** The state a transaction runs in: the external clock (its [n]-th reading is
    [w_clock n]), the timestamp of the current transaction ([func.now()]), the
    supply of UUIDs (each is issued once), the ambient request context, the
    worker's placement configuration, the database, and the requests that reached a
    messaging provider. *)
Record World : Type := mkWorld {
  w_clock : nat → Z;
  w_reads : nat;
  w_txn_now : Z;
  w_next_uuid : uuid;
  w_correlation : option string;
  w_service_name : string;
  w_worker_cell_id : option uuid;
  w_route : option PlacementSnapshot;
  w_db : DB;
  w_calls : list ProviderCall;
}.

Definition set_w_reads (v : nat) (r : World) : World :=
  mkWorld (w_clock r) v (w_txn_now r) (w_next_uuid r) (w_correlation r) (w_service_name r)
    (w_worker_cell_id r) (w_route r) (w_db r) (w_calls r).
Definition set_w_txn_now (v : Z) (r : World) : World :=
  mkWorld (w_clock r) (w_reads r) v (w_next_uuid r) (w_correlation r) (w_service_name r)
    (w_worker_cell_id r) (w_route r) (w_db r) (w_calls r).
Definition set_w_next_uuid (v : uuid) (r : World) : World :=
  mkWorld (w_clock r) (w_reads r) (w_txn_now r) v (w_correlation r) (w_service_name r)
    (w_worker_cell_id r) (w_route r) (w_db r) (w_calls r).
Definition set_w_db (v : DB) (r : World) : World :=
  mkWorld (w_clock r) (w_reads r) (w_txn_now r) (w_next_uuid r) (w_correlation r)
    (w_service_name r) (w_worker_cell_id r) (w_route r) v (w_calls r).
Definition set_w_calls (v : list ProviderCall) (r : World) : World :=
  mkWorld (w_clock r) (w_reads r) (w_txn_now r) (w_next_uuid r) (w_correlation r)
    (w_service_name r) (w_worker_cell_id r) (w_route r) (w_db r) v.

(** ** The monad *)

Definition M (A : Type) : Type := World → result exn A * World.

#[export] Instance M_ret : MRet M := λ A a w, (Ok a, w).
#[export] Instance M_bind : MBind M := λ A B f m w,
  match m w with
  | (Ok a, w') => f a w'
  | (Err e, w') => (Err e, w')
  end.

Definition raise {A} (e : exn) : M A := λ w, (Err e, w).

Definition lift {A} (r : result exn A) : M A := λ w, (r, w).

Definition gets {A} (f : World → A) : M A := λ w, (Ok (f w), w).

Definition modify_db (f : DB → DB) : M unit := λ w, (Ok tt, set_w_db (f (w_db w)) w).

(** [_utcnow()], [clock_timestamp()]: the next reading of the clock. *)
Definition utcnow : M Z := λ w,
  (Ok (w_clock w (w_reads w)), set_w_reads (S (w_reads w)) w).

(** [func.now()]: the timestamp of the transaction. *)
Definition txn_now : M Z := gets w_txn_now.

(** [uuid.uuid7()], [uuid.uuid4()]: an identifier not issued before. *)
Definition fresh_uuid : M uuid := λ w,
  (Ok (w_next_uuid w), set_w_next_uuid (N.succ (w_next_uuid w)) w).

Fixpoint forM_ {A} (f : A → M unit) (l : list A) : M unit :=
  match l with
  | [] => mret tt
  | a :: l => f a ≫= λ _, forM_ f l
  end.

Fixpoint mapM_list {A B} (f : A → M B) (l : list A) : M (list B) :=
  match l with
  | [] => mret []
  | a :: l => b ← f a; bs ← mapM_list f l; mret (b :: bs)
  end.

(** [update ... where p] and the assignment to a row object, both by predicate. *)
Definition update_where {A} (p : A → bool) (f : A → A) (l : list A) : list A :=
  map (λ a, if p a then f a else a) l.

Definition try_with {A} (m : M A) (h : exn → M A) : M A := λ w,
  match m w with
  | (Err e, w') => h e w'
  | r => r
  end.

(** A unit of work: [session.begin()] commits on success and rolls the tables back
    on any exception; the clock has moved and issued UUIDs stay issued. *)
Definition tenant_transaction {A} (m : M A) : M A := λ w,
  let w0 := set_w_txn_now (w_clock w (w_reads w)) (set_w_reads (S (w_reads w)) w) in
  match m w0 with
  | (Ok a, w') => (Ok a, w')
  | (Err e, w') => (Err e, set_w_db (w_db w) w')
  end.

(** ** Placement admission *)

Definition snapshot (row : OrganizationPlacementRecord) : PlacementSnapshot := {|
  ps_organization_id := op_organization_id row;
  ps_placement_id := op_id row;
  ps_cell_id := op_cell_id row;
  ps_assignment_generation := op_assignment_generation row;
  ps_state := op_state row |}.

Definition placement_of (org : uuid) (d : DB) : option OrganizationPlacementRecord :=
  List.find (λ p, N.eqb (op_organization_id p) org) (db_placements d).

Definition cell_of (cell : uuid) (d : DB) : option CellRecord :=
  List.find (λ c, N.eqb (cell_id c) cell) (db_cells d).

(** [PlacementAdmission] of a worker cell: its only method, on the tenant and the expected snapshot *)
Definition placement_admit (worker : uuid) (org : uuid) (expected : PlacementSnapshot) : M unit :=
  if negb (N.eqb (ps_organization_id expected) org) || negb (N.eqb (ps_cell_id expected) worker)
  then raise (Nxs (CellErr PlacementFencedError))
  else
    d ← gets w_db;
    match cell_of worker d with
    | None => raise (Nxs (CellErr CellUnavailableError))
    | Some cell =>
        if negb (bool_decide (cell_state cell = CellState.REGISTERED))
        then raise (Nxs (CellErr CellUnavailableError))
        else
          match placement_of org d with
          | None => raise (Nxs (CellErr PlacementRequiredError))
          | Some placement =>
              if negb (N.eqb (op_id placement) (ps_placement_id expected)) ||
                 negb (N.eqb (op_cell_id placement) worker) ||
                 negb (Z.eqb (op_assignment_generation placement)
                         (ps_assignment_generation expected)) ||
                 negb (bool_decide (op_state placement = PlacementState.ACTIVE)) ||
                 negb (bool_decide (ps_state expected = PlacementState.ACTIVE))
              then raise (Nxs (CellErr PlacementFencedError))
              else mret tt
          end
    end.

(** The guard [_execution_transaction] runs before it yields the session. *)
Definition execution_guard (org : uuid) : M unit :=
  d ← gets w_db;
  worker ← gets w_worker_cell_id;
  match worker, placement_of org d with
  | None, Some _ => raise (Nxs (CellErr PlacementFencedError))
  | None, None => mret tt
  | Some _, None => raise (Nxs (CellErr PlacementRequiredError))
  | Some cell, Some placement =>
      route ← gets w_route;
      placement_admit cell org (match route with Some s => s | None => snapshot placement end)
  end.

Definition execution_transaction {A} (org : uuid) (m : M A) : M A :=
  tenant_transaction (execution_guard org ≫= λ _, m).

(** ** Events: the transactional outbox

    [EventEnvelope.create] followed by [publisher.enqueue(session, envelope)]: the
    envelope is written in the caller's transaction. [correlation_id or
    event_id.hex]: an absent correlation falls back to the event's own id. *)

Definition hex_digit (n : N) : ascii :=
  ascii_of_N (if (n <? 10)%N then 48 + n else 87 + n)%N.

Fixpoint hex_digits (k : nat) (n : N) (acc : string) : string :=
  match k with
  | O => acc
  | S k => hex_digits k (n / 16)%N (String (hex_digit (n mod 16)%N) acc)
  end.

(** [uuid.hex] and [str(uuid)] *)
Definition uuid_hex (u : uuid) : string := hex_digits 32 u EmptyString.

Definition uuid_str (u : uuid) : string :=
  let h := uuid_hex u in
  String.substring 0 8 h +:+ "-" +:+ String.substring 8 4 h +:+ "-" +:+
  String.substring 12 4 h +:+ "-" +:+ String.substring 16 4 h +:+ "-" +:+
  String.substring 20 12 h.

Definition enqueue_event (event_type aggregate_type : string) (aggregate_id organization_id : uuid)
    (payload : list (string * json)) : M unit :=
  event_id ← fresh_uuid;
  occurred_at ← utcnow;
  correlation ← gets w_correlation;
  producer ← gets w_service_name;
  let envelope := mkEnvelope event_id event_type 1 occurred_at organization_id aggregate_type
    (uuid_str aggregate_id)
    (match correlation with
     | Some (String _ _ as c) => c
     | _ => uuid_hex event_id
     end) producer payload in
  modify_db (λ d, set_db_outbox (db_outbox d ++ [envelope]) d).
