(* ===== verification/Tables.v ===== *)
(** * Tables: lists of rows under a primary key

    Replacing a row under its key, counting rows and uniqueness, for the components
    whose tables are lists of records ([Store], [CampaignStore]). *)

From S2P Require Import Prelude.
From S2P Require Import Store.

(** ** Membership *)

Lemma find_elem {A} (p : A → bool) l x : List.find p l = Some x → x ∈ l ∧ p x = true.
Proof. intros H%find_some. by rewrite list_elem_of_In. Qed.

Lemma find_none_elem {A} (p : A → bool) l x : List.find p l = None → x ∈ l → p x = false.
Proof. intros H Hx. eapply find_none; [done|]. by apply list_elem_of_In. Qed.

Lemma existsb_elem {A} (p : A → bool) l : existsb p l = true ↔ ∃ x, x ∈ l ∧ p x = true.
Proof. rewrite existsb_exists. by setoid_rewrite list_elem_of_In. Qed.

Lemma existsb_none {A} (p : A → bool) l : existsb p l = false ↔ ∀ x, x ∈ l → p x = false.
Proof.
  rewrite <- not_true_iff_false, existsb_elem. split.
  - intros Hn x Hx. apply not_true_iff_false. intros Hp. apply Hn. eauto.
  - intros Hn (x & Hx & Hp). rewrite (Hn x Hx) in Hp. done.
Qed.

Lemma elem_of_filterb {A} (p : A → bool) l x : x ∈ List.filter p l ↔ x ∈ l ∧ p x = true.
Proof. by rewrite !list_elem_of_In, filter_In. Qed.

Lemma filterb_app {A} (p : A → bool) l k : List.filter p (l ++ k) = List.filter p l ++ List.filter p k.
Proof. induction l as [|x l IH]; simpl; [done|]. destruct (p x); simpl; by rewrite IH. Qed.

Lemma filterb_ext {A} (p q : A → bool) l :
  (∀ x, x ∈ l → p x = q x) → List.filter p l = List.filter q l.
Proof.
  induction l as [|x l IH]; intros Hpq; simpl; [done|]. rewrite (Hpq x) by constructor.
  rewrite IH; [done|]. intros y Hy. apply Hpq. by constructor.
Qed.

(** A page is as long as it is. *)
Lemma take_self {A} n (l : list A) : take n l = take (length (take n l)) l.
Proof.
  rewrite length_take. destruct (Nat.min_spec n (length l)) as [[_ ->]|[? ->]]; [done|].
  by rewrite !take_ge.
Qed.

(** ** Unique columns *)

Lemma NoDup_map_app {A B} (f : A → B) l k :
  NoDup (map f (l ++ k)) ↔
  NoDup (map f l) ∧ (∀ x y, x ∈ l → y ∈ k → f x ≠ f y) ∧ NoDup (map f k).
Proof.
  rewrite map_app, NoDup_app. split; intros (H1 & H2 & H3); (split; [done|]); (split; [|done]).
  - intros x y Hx Hy Heq. eapply H2; [by apply (list_elem_of_fmap_2 f)|].
    rewrite Heq. by apply (list_elem_of_fmap_2 f).
  - intros z (x & -> & Hx)%list_elem_of_fmap (y & Heq & Hy)%list_elem_of_fmap. by eapply H2.
Qed.

Lemma NoDup_map_app_intro {A B} (f : A → B) l k :
  NoDup (map f l) → NoDup (map f k) → (∀ x y, x ∈ l → y ∈ k → f x ≠ f y) → NoDup (map f (l ++ k)).
Proof. intros Hl Hk Hne. by apply NoDup_map_app. Qed.

Lemma NoDup_map_snoc {A B} (f : A → B) l x :
  NoDup (map f l) → (∀ y, y ∈ l → f y ≠ f x) → NoDup (map f (l ++ [x])).
Proof.
  intros Hl Hx. apply NoDup_map_app. split; [done|]. split; [|apply NoDup_singleton].
  intros y z Hy ->%list_elem_of_singleton. auto.
Qed.

(** ** Rows under a key *)

Section keyed.
Context {A : Type} (key : A → uuid).

(** The keys are distinct and all of them were issued before [n]. *)
Definition keyed (n : uuid) (l : list A) : Prop :=
  NoDup (map key l) ∧ ∀ x, x ∈ l → (key x < n)%N.

(** Flush of an assigned row. *)
Definition upd (row : A) (l : list A) : list A :=
  update_where (λ r, N.eqb (key r) (key row)) (λ _, row) l.

Lemma keyed_mono n n' l : (n ≤ n')%N → keyed n l → keyed n' l.
Proof. intros Hn [H1 H2]. split; [done|]. intros x Hx%H2. lia. Qed.

Lemma keyed_inj n l x y : keyed n l → x ∈ l → y ∈ l → key x = key y → x = y.
Proof. intros [H _]. by apply NoDup_map_inj. Qed.

Lemma keyed_snoc n n' l x :
  keyed n l → (n ≤ key x)%N → (key x < n')%N → keyed n' (l ++ [x]).
Proof.
  intros [H1 H2] Hn Hn'. split.
  - apply NoDup_map_snoc; [done|]. intros y Hy%H2. lia.
  - intros y [Hy%H2| ->%list_elem_of_singleton]%elem_of_app; lia.
Qed.

Lemma elem_of_upd row l x : x ∈ upd row l → x = row ∨ x ∈ l ∧ key x ≠ key row.
Proof.
  unfold upd, update_where. intros (y & -> & Hy)%list_elem_of_fmap.
  destruct (N.eqb_spec (key y) (key row)); auto.
Qed.

Lemma upd_self row l x : x ∈ l → key x = key row → row ∈ upd row l.
Proof.
  intros Hx Hk. unfold upd, update_where. apply list_elem_of_fmap. exists x.
  by rewrite (proj2 (N.eqb_eq _ _) Hk).
Qed.

Lemma upd_other row l x : x ∈ l → key x ≠ key row → x ∈ upd row l.
Proof.
  intros Hx Hk. unfold upd, update_where. apply list_elem_of_fmap. exists x.
  by rewrite (proj2 (N.eqb_neq _ _) Hk).
Qed.

(** A row survives an update, as itself or as the new version. *)
Lemma upd_lives row l x : x ∈ l → ∃ y, y ∈ upd row l ∧ key y = key x ∧ (y = x ∨ y = row ∧ key x = key row).
Proof.
  intros Hx. destruct (decide (key x = key row)) as [Hk|Hk].
  - exists row. split; [by eapply upd_self|]. auto.
  - exists x. split; [by apply upd_other|]. auto.
Qed.

Lemma map_upd {B} (f : A → B) row row0 l :
  (∀ x, x ∈ l → key x = key row → f x = f row0) → f row = f row0 → map f (upd row l) = map f l.
Proof.
  intros Hl Hf. unfold upd, update_where. rewrite map_map. apply map_ext_in.
  intros x Hx%list_elem_of_In. destruct (N.eqb_spec (key x) (key row)); [|done].
  rewrite Hf. symmetry. auto.
Qed.

Lemma map_upd_keyed {B} n (f : A → B) row row0 l :
  keyed n l → row0 ∈ l → key row = key row0 → f row = f row0 → map f (upd row l) = map f l.
Proof.
  intros Hl H0 Hk Hf. apply (map_upd f row row0); [|done]. intros x Hx Hkx. f_equal.
  eapply keyed_inj; [done..|]. congruence.
Qed.

Lemma keyed_upd n row l : keyed n l → keyed n (upd row l).
Proof.
  intros [H1 H2]. assert (E : map key (upd row l) = map key l).
  { unfold upd, update_where. rewrite map_map. apply map_ext_in. intros x _.
    by destruct (N.eqb_spec (key x) (key row)). }
  split; [by rewrite E|]. intros x Hx. apply (list_elem_of_fmap_2 key) in Hx.
  change (key <$> upd row l) with (map key (upd row l)) in Hx. rewrite E in Hx.
  apply list_elem_of_fmap in Hx as (y & -> & Hy). auto.
Qed.

(** A filter that the old and the new version both pass, or both fail. *)
Lemma filter_upd_out n (p : A → bool) row row0 l :
  keyed n l → row0 ∈ l → key row = key row0 → p row0 = false → p row = false →
  List.filter p (upd row l) = List.filter p l.
Proof.
  intros Hl H0 Hk Hp0 Hp. assert (Hall : ∀ x, x ∈ l → key x = key row → x = row0).
  { intros x Hx Hkx. eapply keyed_inj; [done..|]. congruence. }
  clear Hl H0. induction l as [|x l IH]; [done|]. simpl.
  rewrite IH by (intros y Hy; apply Hall; by constructor).
  destruct (N.eqb_spec (key x) (key row)) as [E|E]; [|done].
  rewrite (Hall x ltac:(constructor) E). by rewrite Hp, Hp0.
Qed.

Lemma filter_upd_in n (p : A → bool) row row0 l :
  keyed n l → row0 ∈ l → key row = key row0 → p row = p row0 →
  List.filter p (upd row l) = upd row (List.filter p l).
Proof.
  intros Hl H0 Hk Hp. assert (Hall : ∀ x, x ∈ l → key x = key row → x = row0).
  { intros x Hx Hkx. eapply keyed_inj; [done..|]. congruence. }
  clear Hl H0. induction l as [|x l IH]; [done|]. simpl.
  rewrite IH by (intros y Hy; apply Hall; by constructor).
  destruct (N.eqb_spec (key x) (key row)) as [E|E].
  - rewrite (Hall x ltac:(constructor) E), Hp. destruct (p row0) eqn:Hp0; [|done]. simpl.
    by rewrite <- Hk, N.eqb_refl.
  - destruct (p x); [|done]. simpl. by rewrite (proj2 (N.eqb_neq _ _) E).
Qed.

(** ** Counting *)

Definition countb (p : A → bool) (l : list A) : Z := Z.of_nat (length (List.filter p l)).

Lemma countb_app p l k : countb p (l ++ k) = countb p l + countb p k.
Proof. unfold countb. rewrite filterb_app, length_app. lia. Qed.

Lemma countb_ext p q l : (∀ x, x ∈ l → p x = q x) → countb p l = countb q l.
Proof. intros H. unfold countb. by rewrite (filterb_ext p q). Qed.

Lemma countb_nonneg p l : 0 ≤ countb p l.
Proof. unfold countb. lia. Qed.

Lemma countb_zero p l : countb p l = 0 ↔ ∀ x, x ∈ l → p x = false.
Proof.
  unfold countb. split.
  - intros H x Hx. apply not_true_iff_false. intros Hp.
    assert (Hin : x ∈ List.filter p l) by by apply elem_of_filterb.
    destruct (List.filter p l); [by apply not_elem_of_nil in Hin|simpl in H; lia].
  - intros H. by rewrite filter_nil_not_elem_of.
Qed.

Lemma countb_upd n p row row0 l :
  keyed n l → row0 ∈ l → key row = key row0 →
  countb p (upd row l) = countb p l + Z.b2z (p row) - Z.b2z (p row0).
Proof.
  intros Hl H0 Hk. apply list_elem_of_split in H0 as (l1 & l2 & ->).
  assert (Hout : ∀ x, x ∈ l1 ++ l2 → key x ≠ key row).
  { intros x Hx Hkx. destruct Hl as [Hnd _]. rewrite map_app in Hnd. simpl in Hnd.
    apply NoDup_app in Hnd as (_ & Hd & Hnd). apply NoDup_cons in Hnd as [Hn _].
    apply elem_of_app in Hx as [Hx|Hx].
    - apply (Hd (key x)); [by apply (list_elem_of_fmap_2 key)|]. apply elem_of_cons. left. congruence.
    - apply Hn. rewrite <- Hk, <- Hkx. by apply (list_elem_of_fmap_2 key). }
  assert (Hid : ∀ k, (∀ x, x ∈ k → key x ≠ key row) → upd row k = k).
  { induction k as [|x k IH]; intros Hx; [done|]. simpl.
    rewrite (proj2 (N.eqb_neq _ _)) by (apply Hx; constructor). f_equal. apply IH.
    intros y Hy. apply Hx. by constructor. }
  unfold upd, update_where in *. rewrite map_app. simpl. rewrite (proj2 (N.eqb_eq _ _)) by congruence.
  rewrite !Hid by (intros x Hx; apply Hout, elem_of_app; auto).
  rewrite !countb_app. unfold countb. simpl. destruct (p row), (p row0); simpl; lia.
Qed.
End keyed.

Create HintDb tables.
#[export] Hint Resolve keyed_upd keyed_mono : tables.
