(* ===== verification/CustomerService.v ===== *)
(** * CustomerService: customers, identities and conversations

    [domain/customers/repository.py] and [domain/customers/service.py] over the tables
    of [CustomerStore], and the profile adapter of [domain/customers/compliance.py].
    Row-level security confines every query to the organization.

    The bodies of the three duplicate-safe operations are split where another
    transaction may commit: at read committed, what was read (no owner, no thread) may
    no longer hold when the row is inserted, and the unique constraint decides. *)

From stdpp Require Import pretty.
From S2P Require Import Prelude.
From S2P Require Import PyText.
From S2P Require Import Errors.
From S2P Require Import Lifecycles.
From S2P Require Import Conditions.
From S2P Require Import ScheduleSpec.
From S2P Require Import MessagingStore.
From S2P Require Import CustomerStore.
From S2P Require Import Normalization.
From S2P Require Import CampaignStore.
From S2P Require Import Store.

Abbreviation customer_error e := (Nxs (CustomerErr e)).

(** ** Stored values of the enumerations *)

Definition identity_type_value (t : IdentityType) : string :=
  match t with
  | IdentityType.EMAIL => "EMAIL" | IdentityType.PHONE => "PHONE" | IdentityType.EXTERNAL_ID => "EXTERNAL_ID"
  end.

Definition identity_type_of (s : string) : option IdentityType :=
  List.find (λ t, String.eqb s (identity_type_value t))
    [IdentityType.EMAIL; IdentityType.PHONE; IdentityType.EXTERNAL_ID].

Definition verification_value (v : IdentityVerificationState) : string :=
  match v with
  | IdentityVerificationState.UNVERIFIED => "UNVERIFIED"
  | IdentityVerificationState.VERIFIED => "VERIFIED"
  | IdentityVerificationState.REVOKED => "REVOKED"
  end.

Definition verification_of (s : string) : option IdentityVerificationState :=
  List.find (λ v, String.eqb s (verification_value v))
    [IdentityVerificationState.UNVERIFIED; IdentityVerificationState.VERIFIED; IdentityVerificationState.REVOKED].

Definition customer_status_value (s : CustomerStatus) : string :=
  match s with CustomerStatus.ACTIVE => "ACTIVE" | CustomerStatus.SUSPENDED => "SUSPENDED" end.

Definition customer_status_of (s : string) : option CustomerStatus :=
  List.find (λ v, String.eqb s (customer_status_value v)) [CustomerStatus.ACTIVE; CustomerStatus.SUSPENDED].

Definition identity_status_value (s : IdentityStatus) : string :=
  match s with IdentityStatus.ACTIVE => "ACTIVE" | IdentityStatus.REVOKED => "REVOKED" end.

Definition identity_status_of (s : string) : option IdentityStatus :=
  List.find (λ v, String.eqb s (identity_status_value v)) [IdentityStatus.ACTIVE; IdentityStatus.REVOKED].

Definition conversation_status_value (s : ConversationStatus) : string :=
  match s with
  | ConversationStatus.PENDING => "PENDING" | ConversationStatus.OPEN => "OPEN" | ConversationStatus.CLOSED => "CLOSED"
  end.

Definition conversation_status_of (s : string) : option ConversationStatus :=
  List.find (λ v, String.eqb s (conversation_status_value v))
    [ConversationStatus.PENDING; ConversationStatus.OPEN; ConversationStatus.CLOSED].

(** ** Rows as entities

    [_to_customer] reads the status column as an [IdentityStatus], which the model then
    converts by value to its field's [CustomerStatus]; [_to_identity] the other way
    round. A value that is not in both enumerations raises a [ValueError]. *)
Definition to_customer (row : CustomerRecord) : result exn CustomerRecord :=
  match identity_status_of (cu_status row) with
  | None => Err ValueError
  | Some s =>
      match customer_status_of (identity_status_value s) with None => Err ValueError | Some _ => Ok row end
  end.

Definition to_identity (row : CustomerIdentityRecord) : result exn CustomerIdentityRecord :=
  match identity_type_of (ci_identity_type row), verification_of (ci_verification_state row),
        customer_status_of (ci_status row) with
  | Some _, Some _, Some s =>
      match identity_status_of (customer_status_value s) with None => Err ValueError | Some _ => Ok row end
  | _, _, _ => Err ValueError
  end.

Definition to_conversation (row : ConversationRecord) : result exn ConversationRecord :=
  match conversation_status_of (cn_status row) with None => Err ValueError | Some _ => Ok row end.

Definition read_optional {A} (f : A → result exn A) (row : option A) : M (option A) :=
  match row with None => mret None | Some row => row ← lift (f row); mret (Some row) end.

(** ** Tables *)

Definition pgets {A} (f : CustomerDB → A) : M A := gets (λ w, f (db_customer (w_db w))).

Definition pmodify (f : CustomerDB → CustomerDB) : M unit :=
  modify_db (λ d, set_db_customer (f (db_customer d)) d).

Definition owned_customer (org id : uuid) (r : CustomerRecord) : bool :=
  N.eqb (cu_organization_id r) org && N.eqb (cu_id r) id.
Definition owned_identity (org id : uuid) (r : CustomerIdentityRecord) : bool :=
  N.eqb (ci_organization_id r) org && N.eqb (ci_id r) id.
Definition owned_conversation (org id : uuid) (r : ConversationRecord) : bool :=
  N.eqb (cn_organization_id r) org && N.eqb (cn_id r) id.

(** *** [CustomerRepository] *)

Definition customer_by_id (org customer_id : uuid) : M (option CustomerRecord) :=
  row ← pgets (λ c, List.find (owned_customer org customer_id) (cdb_customers c));
  read_optional to_customer row.

Definition insert_customer (org customer_id : uuid) (display_name : string) (preferred_locale : option string)
    : M CustomerRecord :=
  now ← utcnow;
  let record := mkCustomer customer_id org display_name "ACTIVE" preferred_locale 1 now now in
  _ ← pmodify (λ c, set_cdb_customers (cdb_customers c ++ [record]) c);
  lift (to_customer record).

(** *** [CustomerIdentityRepository] *)

(** [uq_customer_identities_canonical] *)
Definition is_canonical (org : uuid) (identity_type : IdentityType) (value : string)
    (r : CustomerIdentityRecord) : bool :=
  N.eqb (ci_organization_id r) org && String.eqb (ci_identity_type r) (identity_type_value identity_type) &&
  String.eqb (ci_normalized_value r) value.

Definition resolve_identity (org : uuid) (identity_type : IdentityType) (value : string)
    : M (option CustomerIdentityRecord) :=
  row ← pgets (λ c, List.find (is_canonical org identity_type value) (cdb_identities c));
  read_optional to_identity row.

Definition identity_by_id (org identity_id : uuid) : M (option CustomerIdentityRecord) :=
  row ← pgets (λ c, List.find (owned_identity org identity_id) (cdb_identities c));
  read_optional to_identity row.

(** The identities of a customer, oldest first. *)
Definition identity_before (a b : CustomerIdentityRecord) : Prop := (ci_created_at a ≤ ci_created_at b)%Z.
#[export] Instance identity_before_dec : RelDecision identity_before := λ a b, Z_le_dec _ _.

Definition identities_for_customer (org customer_id : uuid) : M (list CustomerIdentityRecord) :=
  rows ← pgets (λ c, merge_sort identity_before (List.filter (λ r, N.eqb (ci_organization_id r) org &&
    N.eqb (ci_customer_id r) customer_id) (cdb_identities c)));
  mapM_list (λ r, lift (to_identity r)) rows.

Definition insert_identity (org identity_id customer_id : uuid) (identity_type : IdentityType)
    (value source : string) (is_primary : bool) : M CustomerIdentityRecord :=
  now ← utcnow;
  let record := mkIdentity identity_id org customer_id (identity_type_value identity_type) value
    "UNVERIFIED" is_primary source "ACTIVE" now now in
  c ← pgets (λ c, c);
  if existsb (is_canonical org identity_type value) (cdb_identities c)
  then raise (customer_error IdentityConflictError)
  else if negb (existsb (owned_customer org customer_id) (cdb_customers c)) then raise IntegrityError
  else
    _ ← pmodify (λ c, set_cdb_identities (cdb_identities c ++ [record]) c);
    lift (to_identity record).

Definition write_verification (org identity_id : uuid) (state : IdentityVerificationState) : M unit :=
  now ← utcnow;
  let status := match state with IdentityVerificationState.REVOKED => IdentityStatus.REVOKED | _ => IdentityStatus.ACTIVE end in
  pmodify (λ c, set_cdb_identities (update_where (owned_identity org identity_id)
    (λ r, set_ci_updated_at now (set_ci_status (identity_status_value status)
       (set_ci_verification_state (verification_value state) r))) (cdb_identities c)) c).

(** *** [ConversationRepository] *)

Definition conversation_by_id (org conversation_id : uuid) : M (option ConversationRecord) :=
  row ← pgets (λ c, List.find (owned_conversation org conversation_id) (cdb_conversations c));
  read_optional to_conversation row.

(** [uq_conversations_external_thread]: a thread key with a null is no key. *)
Definition is_thread (org : uuid) (channel namespace thread : string) (r : ConversationRecord) : bool :=
  N.eqb (cn_organization_id r) org && String.eqb (cn_channel r) channel &&
  bool_decide (cn_provider_namespace r = Some namespace) && bool_decide (cn_external_thread_id r = Some thread).

Definition by_external_key (org : uuid) (channel namespace thread : string) : M (option ConversationRecord) :=
  row ← pgets (λ c, List.find (is_thread org channel namespace thread) (cdb_conversations c));
  read_optional to_conversation row.

Definition violates_thread (row : ConversationRecord) (c : CustomerDB) : bool :=
  match cn_provider_namespace row, cn_external_thread_id row with
  | Some namespace, Some thread =>
      existsb (is_thread (cn_organization_id row) (cn_channel row) namespace thread) (cdb_conversations c)
  | _, _ => false
  end.

(** [fk_conversations_org_customer_customers]; a null is no reference. *)
Definition customer_reference (org : uuid) (customer_id : option uuid) (c : CustomerDB) : bool :=
  match customer_id with
  | None => true
  | Some id => existsb (owned_customer org id) (cdb_customers c)
  end.

Definition insert_conversation (org conversation_id : uuid) (customer_id : option uuid) (channel : string)
    (provider_namespace external_thread_id subject : option string) : M ConversationRecord :=
  now ← utcnow;
  let record := mkConversation conversation_id org customer_id channel "PENDING" provider_namespace
    external_thread_id subject 1 now now None in
  c ← pgets (λ c, c);
  if violates_thread record c then raise (customer_error ConversationExternalKeyConflictError)
  else if negb (customer_reference org customer_id c) then raise IntegrityError
  else
    _ ← pmodify (λ c, set_cdb_conversations (cdb_conversations c ++ [record]) c);
    lift (to_conversation record).

(** Newest first, as the listings order conversations. *)
Definition conversation_before (a b : ConversationRecord) : Prop :=
  (cn_opened_at b < cn_opened_at a)%Z ∨ (cn_opened_at a = cn_opened_at b ∧ (cn_id b ≤ cn_id a)%N).
#[export] Instance conversation_before_dec : RelDecision conversation_before := λ a b, ltac:(unfold conversation_before; apply _).

Definition conversations_for_customer (org customer_id : uuid) (after_id : option uuid) (limit : Z)
    : M (list ConversationRecord) :=
  rows ← pgets (λ c, take (Z.to_nat (limit + 1)) (merge_sort conversation_before
    (List.filter (λ r, N.eqb (cn_organization_id r) org && bool_decide (cn_customer_id r = Some customer_id) &&
       match after_id with Some id => N.ltb (cn_id r) id | None => true end) (cdb_conversations c))));
  mapM_list (λ r, lift (to_conversation r)) rows.

(** [transition]: an UPDATE by id. *)
Definition write_transition (org : uuid) (conversation : ConversationRecord) (target : ConversationStatus)
    : M (option ConversationRecord) :=
  last ← utcnow;
  closed ← match target with
           | ConversationStatus.CLOSED => now ← utcnow; mret (λ _, Some now)
           | ConversationStatus.OPEN => mret (λ _, None)
           | ConversationStatus.PENDING => mret (λ r, cn_closed_at r)
           end;
  _ ← pmodify (λ c, set_cdb_conversations (update_where (owned_conversation org (cn_id conversation))
        (λ r, set_cn_closed_at (closed r) (set_cn_last_activity_at last (set_cn_version (cn_version conversation + 1)
           (set_cn_status (conversation_status_value target) r)))) (cdb_conversations c)) c);
  row ← pgets (λ c, List.find (owned_conversation org (cn_id conversation)) (cdb_conversations c));
  read_optional to_conversation row.

(** *** [ConversationParticipantRepository] *)

Definition insert_participant (org conversation_id : uuid) (participant_type : ParticipantType) (ref : string)
    : M ConversationParticipantRecord :=
  id ← fresh_uuid;
  now ← utcnow;
  let record := mkParticipant id org conversation_id participant_type ref now None in
  c ← pgets (λ c, c);
  if existsb (λ p, N.eqb (pt_organization_id p) org && N.eqb (pt_conversation_id p) conversation_id &&
       bool_decide (pt_participant_type p = participant_type) && String.eqb (pt_participant_ref p) ref)
       (cdb_participants c) || negb (existsb (owned_conversation org conversation_id) (cdb_conversations c))
  then raise IntegrityError
  else
    _ ← pmodify (λ c, set_cdb_participants (cdb_participants c ++ [record]) c);
    mret record.

(** *** [ConversationActivityRepository] *)

(** [append] answers a duplicate [dedup_key] with [None], but the flush that failed has
    ended the transaction: its next statement, or its commit, raises. *)
Definition append_activity (org : uuid) (customer_id conversation_id : option uuid) (activity_type : ActivityType)
    (dedup_key : option string) (data : list (string * json)) : M unit :=
  id ← fresh_uuid;
  now ← utcnow;
  created ← txn_now;
  c ← pgets (λ c, c);
  if match dedup_key with
     | None => false
     | Some k => existsb (λ a, N.eqb (av_organization_id a) org && bool_decide (av_dedup_key a = Some k))
                   (cdb_activities c)
     end
  then raise PendingRollbackError
  else if negb (customer_reference org customer_id c &&
       match conversation_id with
       | None => true
       | Some id => existsb (owned_conversation org id) (cdb_conversations c)
       end)
  then raise IntegrityError
  else pmodify (λ c, set_cdb_activities (cdb_activities c ++
         [mkActivity id org customer_id conversation_id activity_type dedup_key now data created]) c).

(** Rows of the timeline in the order of [(occurred_at, id)]. *)
Definition activity_key_le (a b : Z * uuid) : Prop := (a.1 < b.1)%Z ∨ (a.1 = b.1 ∧ (a.2 ≤ b.2)%N).
#[export] Instance activity_key_le_dec : RelDecision activity_key_le := λ a b, ltac:(unfold activity_key_le; apply _).
Definition activity_key (a : ConversationActivityRecord) : Z * uuid := (av_occurred_at a, av_id a).
Definition activity_le (a b : ConversationActivityRecord) : Prop := activity_key_le (activity_key a) (activity_key b).
#[export] Instance activity_le_dec : RelDecision activity_le := λ a b, decide (activity_key_le _ _).

Definition timeline_rows (org customer_id : uuid) (after : option (Z * uuid)) (limit : Z)
    : M (list ConversationActivityRecord) :=
  pgets (λ c, take (Z.to_nat (limit + 1)) (merge_sort activity_le
    (List.filter (λ a, N.eqb (av_organization_id a) org && bool_decide (av_customer_id a = Some customer_id) &&
       match after with Some k => negb (bool_decide (activity_key_le (activity_key a) k)) | None => true end)
       (cdb_activities c)))).

(** ** Requests *)

Record CreateCustomerRequest : Type := {
  nc_display_name : string;
  nc_preferred_locale : option string;
  nc_identity_type : IdentityType;
  nc_identity_value : string;
  nc_identity_source : string;
  nc_default_country : option string;
}.

Record LinkIdentityRequest : Type := {
  li_identity_type : IdentityType;
  li_identity_value : string;
  li_identity_source : string;
  li_default_country : option string;
}.

Record CreateConversationRequest : Type := {
  cv_customer_id : option uuid;
  cv_channel_name : string;
  cv_provider_namespace : option string;
  cv_external_thread_id : option string;
  cv_subject : option string;
}.

(** ** Events *)

Definition customer_event (org : uuid) (event_type : string) (aggregate_id : uuid)
    (payload : list (string * json)) : M unit :=
  enqueue_event event_type "customer" aggregate_id org payload.

Definition conversation_event (org : uuid) (event_type : string) (row : ConversationRecord) : M unit :=
  enqueue_event event_type "conversation" (cn_id row) org
    [("conversation_id", JStr (uuid_str (cn_id row)));
     ("customer_id", match cn_customer_id row with Some id => JStr (uuid_str id) | None => JNull end);
     ("channel", JStr (cn_channel row))].

(** ** Customers *)

Section service.
Context `{UnicodeForms}.

Definition load_owner (org customer_id : uuid) : M CustomerRecord :=
  row ← customer_by_id org customer_id;
  match row with None => raise (customer_error CustomerNotFoundError) | Some row => mret row end.

(** What the transaction of [resolve_or_create] reads first. *)
Definition find_owner (org : uuid) (identity_type : IdentityType) (normalized : string)
    : M (option CustomerRecord) :=
  existing ← resolve_identity org identity_type normalized;
  match existing with
  | None => mret None
  | Some identity => owner ← load_owner org (ci_customer_id identity); mret (Some owner)
  end.

Definition linked_data (identity : CustomerIdentityRecord) : list (string * json) :=
  [("identity_id", JStr (uuid_str (ci_id identity))); ("identity_type", JStr (ci_identity_type identity))].

(** What it writes when there is no owner. *)
Definition create_customer (org : uuid) (request : CreateCustomerRequest) (normalized : string)
    : M CustomerRecord :=
  customer_id ← fresh_uuid;
  customer ← insert_customer org customer_id (nc_display_name request) (nc_preferred_locale request);
  identity_id ← fresh_uuid;
  identity ← insert_identity org identity_id customer_id (nc_identity_type request) normalized
               (nc_identity_source request) true;
  _ ← append_activity org (Some customer_id) None ActivityType.CUSTOMER_CREATED
        (Some ("customer.created:" +:+ uuid_str customer_id))
        [("display_name", JStr (cu_display_name customer))];
  _ ← append_activity org (Some customer_id) None ActivityType.IDENTITY_LINKED
        (Some ("identity.linked:" +:+ uuid_str (ci_id identity))) (linked_data identity);
  _ ← customer_event org "customers.created" customer_id
        [("customer_id", JStr (uuid_str customer_id));
         ("initial_identity_id", JStr (uuid_str (ci_id identity)));
         ("identity_type", JStr (ci_identity_type identity))];
  mret customer.

Definition converge_on_identity_owner (org : uuid) (identity_type : IdentityType) (normalized : string)
    : M CustomerRecord :=
  tenant_transaction (
    winner ← resolve_identity org identity_type normalized;
    match winner with
    | None => raise (customer_error IdentityConflictError)
    | Some winner => load_owner org (ci_customer_id winner)
    end).

Definition resolve_or_create (org : uuid) (request : CreateCustomerRequest) : M (CustomerRecord * bool) :=
  normalized ← lift (normalize_identity_value (nc_identity_type request) (nc_identity_value request)
                       (nc_default_country request));
  try_with
    (tenant_transaction (
       found ← find_owner org (nc_identity_type request) normalized;
       match found with
       | Some owner => mret (owner, false)
       | None => customer ← create_customer org request normalized; mret (customer, true)
       end))
    (λ e, match e with
          | customer_error IdentityConflictError =>
              owner ← converge_on_identity_owner org (nc_identity_type request) normalized;
              mret (owner, false)
          | e => raise e
          end).

Definition get_customer (org customer_id : uuid) : M CustomerRecord :=
  tenant_transaction (load_owner org customer_id).

Definition list_identities (org customer_id : uuid) : M (list CustomerIdentityRecord) :=
  tenant_transaction (_ ← load_owner org customer_id; identities_for_customer org customer_id).

(** The rest of the transaction of [link_identity] when the identity has no owner. *)
Definition create_link (org customer_id : uuid) (request : LinkIdentityRequest) (normalized : string)
    : M CustomerIdentityRecord :=
  identity_id ← fresh_uuid;
  identity ← insert_identity org identity_id customer_id (li_identity_type request) normalized
               (li_identity_source request) false;
  _ ← append_activity org (Some customer_id) None ActivityType.IDENTITY_LINKED
        (Some ("identity.linked:" +:+ uuid_str (ci_id identity))) (linked_data identity);
  _ ← customer_event org "customers.identity.linked" customer_id
        (("customer_id", JStr (uuid_str customer_id)) :: linked_data identity);
  mret identity.

Definition find_link (org customer_id : uuid) (identity_type : IdentityType) (normalized : string)
    : M (option CustomerIdentityRecord) :=
  _ ← load_owner org customer_id;
  existing ← resolve_identity org identity_type normalized;
  match existing with
  | None => mret None
  | Some identity =>
      if N.eqb (ci_customer_id identity) customer_id then mret (Some identity)
      else raise (customer_error IdentityConflictError)
  end.

Definition converge_on_link (org customer_id : uuid) (identity_type : IdentityType) (normalized : string)
    : M CustomerIdentityRecord :=
  tenant_transaction (
    winner ← resolve_identity org identity_type normalized;
    match winner with
    | Some winner =>
        if N.eqb (ci_customer_id winner) customer_id then mret winner
        else raise (customer_error IdentityConflictError)
    | None => raise (customer_error IdentityConflictError)
    end).

Definition link_identity (org customer_id : uuid) (request : LinkIdentityRequest) : M CustomerIdentityRecord :=
  normalized ← lift (normalize_identity_value (li_identity_type request) (li_identity_value request)
                       (li_default_country request));
  try_with
    (tenant_transaction (
       found ← find_link org customer_id (li_identity_type request) normalized;
       match found with
       | Some identity => mret identity
       | None => create_link org customer_id request normalized
       end))
    (λ e, match e with
          | customer_error IdentityConflictError =>
              converge_on_link org customer_id (li_identity_type request) normalized
          | e => raise e
          end).

(** What [set_verification_state] does with the identity it read, without a lock: the
    UPDATE is by id. *)
Definition change_verification (org identity_id : uuid) (state : IdentityVerificationState)
    (identity : option CustomerIdentityRecord) : M unit :=
  match identity with
  | None => raise (customer_error CoreNotFoundError)
  | Some identity =>
      _ ← write_verification org identity_id state;
      customer_event org "customers.identity.status_changed" identity_id
        [("customer_id", JStr (uuid_str (ci_customer_id identity)));
         ("identity_id", JStr (uuid_str identity_id));
         ("verification_state", JStr (verification_value state))]
  end.

Definition set_verification_state (org identity_id : uuid) (state : IdentityVerificationState) : M unit :=
  tenant_transaction (
    identity ← identity_by_id org identity_id;
    change_verification org identity_id state identity).

Definition timeline (org customer_id : uuid) (after : option (Z * uuid)) (limit : Z)
    : M (list ConversationActivityRecord) :=
  tenant_transaction (_ ← load_owner org customer_id; timeline_rows org customer_id after limit).
End service.

(** ** Conversations *)

(** [bool(request.provider_namespace and request.external_thread_id)] *)
Definition thread_key (request : CreateConversationRequest) : option (string * string) :=
  match cv_provider_namespace request, cv_external_thread_id request with
  | Some (String _ _ as namespace), Some (String _ _ as thread) => Some (namespace, thread)
  | _, _ => None
  end.

Definition assert_thread_compatible (existing : ConversationRecord) (request : CreateConversationRequest)
    : M unit :=
  match cv_customer_id request with
  | None => mret tt
  | Some id =>
      if bool_decide (cn_customer_id existing = Some id) then mret tt
      else raise (customer_error ConversationCustomerConflictError)
  end.

Definition find_thread (org : uuid) (request : CreateConversationRequest) : M (option ConversationRecord) :=
  match thread_key request with
  | None => mret None
  | Some (namespace, thread) =>
      existing ← by_external_key org (cv_channel_name request) namespace thread;
      match existing with
      | None => mret None
      | Some existing => _ ← assert_thread_compatible existing request; mret (Some existing)
      end
  end.

Definition open_conversation (org : uuid) (request : CreateConversationRequest) : M ConversationRecord :=
  conversation_id ← fresh_uuid;
  conversation ← insert_conversation org conversation_id (cv_customer_id request) (cv_channel_name request)
                   (cv_provider_namespace request) (cv_external_thread_id request) (cv_subject request);
  _ ← match cv_customer_id request with
      | None => mret tt
      | Some id =>
          _ ← insert_participant org (cn_id conversation) ParticipantType.CUSTOMER
                ("customer:" +:+ uuid_str id);
          mret tt
      end;
  _ ← append_activity org (cv_customer_id request) (Some (cn_id conversation)) ActivityType.CONVERSATION_OPENED
        (Some ("conversation.opened:" +:+ uuid_str (cn_id conversation)))
        [("channel", JStr (cn_channel conversation))];
  _ ← conversation_event org "conversations.opened" conversation;
  mret conversation.

Definition converge_on_thread (org : uuid) (request : CreateConversationRequest) (namespace thread : string)
    : M ConversationRecord :=
  tenant_transaction (
    winner ← by_external_key org (cv_channel_name request) namespace thread;
    match winner with
    | None => raise (customer_error ConversationExternalKeyConflictError)
    | Some winner => _ ← assert_thread_compatible winner request; mret winner
    end).

Definition open_or_resolve (org : uuid) (request : CreateConversationRequest) : M (ConversationRecord * bool) :=
  try_with
    (tenant_transaction (
       found ← find_thread org request;
       match found with
       | Some existing => mret (existing, false)
       | None => conversation ← open_conversation org request; mret (conversation, true)
       end))
    (λ e, match e, thread_key request with
          | customer_error ConversationExternalKeyConflictError, Some (namespace, thread) =>
              winner ← converge_on_thread org request namespace thread;
              mret (winner, false)
          | e, _ => raise e
          end).

Definition found_conversation (org conversation_id : uuid) : M ConversationRecord :=
  row ← conversation_by_id org conversation_id;
  match row with None => raise (customer_error ConversationNotFoundError) | Some row => mret row end.

Definition get_conversation (org conversation_id : uuid) : M ConversationRecord :=
  tenant_transaction (found_conversation org conversation_id).

Definition list_for_customer (org customer_id : uuid) (after_id : option uuid) (limit : Z)
    : M (list ConversationRecord) :=
  rows ← tenant_transaction (conversations_for_customer org customer_id after_id limit);
  mret (take (Z.to_nat limit) rows).

(** [_ALLOWED_CONVERSATION_TRANSITIONS] *)
Definition conversation_transitions (s : ConversationStatus) : list ConversationStatus :=
  match s with
  | ConversationStatus.PENDING => [ConversationStatus.OPEN; ConversationStatus.CLOSED]
  | ConversationStatus.OPEN => [ConversationStatus.CLOSED]
  | ConversationStatus.CLOSED => [ConversationStatus.OPEN]
  end.

Definition transition_conversation (org : uuid) (conversation : ConversationRecord) (target : ConversationStatus)
    (event_type : string) : M ConversationRecord :=
  match conversation_status_of (cn_status conversation) with
  | None => raise ValueError
  | Some current =>
      if negb (bool_decide (target ∈ conversation_transitions current))
      then raise (customer_error ConversationStateConflictError)
      else
        updated ← write_transition org conversation target;
        match updated with
        | None => raise (customer_error ConversationNotFoundError)
        | Some updated =>
            _ ← append_activity org (cn_customer_id updated) (Some (cn_id updated))
                  (if bool_decide (target = ConversationStatus.CLOSED)
                   then ActivityType.CONVERSATION_CLOSED else ActivityType.CONVERSATION_OPENED)
                  (Some (event_type +:+ ":" +:+ uuid_str (cn_id updated) +:+ ":" +:+ pretty (cn_version updated)))
                  [("channel", JStr (cn_channel updated))];
            _ ← conversation_event org event_type updated;
            mret updated
        end
  end.

Definition close_conversation (org conversation_id : uuid) : M ConversationRecord :=
  tenant_transaction (
    conversation ← found_conversation org conversation_id;
    if bool_decide (conversation_status_of (cn_status conversation) = Some ConversationStatus.CLOSED)
    then mret conversation
    else transition_conversation org conversation ConversationStatus.CLOSED "conversations.closed").

Definition reopen_conversation (org conversation_id : uuid) : M ConversationRecord :=
  tenant_transaction (
    conversation ← found_conversation org conversation_id;
    transition_conversation org conversation ConversationStatus.OPEN "conversations.opened").

(** ** Profile restriction ([domain/customers/compliance.py])

    The adapter assigns the locked row; the caller's transaction flushes it. *)
Definition restrict_profile (org customer_id : uuid) (expected_version : Z) : M unit :=
  row ← pgets (λ c, List.find (owned_customer org customer_id) (cdb_customers c));
  match row with
  | None => raise (customer_error CoreNotFoundError)
  | Some row =>
      if negb (cu_version row =? expected_version) then raise (Nxs OrganizationVersionConflictError)
      else pmodify (λ c, set_cdb_customers (update_where (owned_customer org customer_id)
             (λ _, set_cu_version (cu_version row + 1) (set_cu_status "SUSPENDED" row)) (cdb_customers c)) c)
  end.

Definition anonymize_profile (org customer_id : uuid) (expected_version : Z) : M unit :=
  row ← pgets (λ c, List.find (owned_customer org customer_id) (cdb_customers c));
  match row with
  | None => raise (customer_error CoreNotFoundError)
  | Some row =>
      if negb (cu_version row =? expected_version) then raise (Nxs OrganizationVersionConflictError)
      else pmodify (λ c, set_cdb_customers (update_where (owned_customer org customer_id)
             (λ _, set_cu_version (cu_version row + 1) (set_cu_preferred_locale None
                     (set_cu_display_name "Anonymized profile" row))) (cdb_customers c)) c)
  end.
