(* ===== verification/Identity.v ===== *)
(** * Identity: stable identities of occurrences

    [scheduler/identity.py]: the canonical JSON of an occurrence (or of a misfire
    range), hashed, under a versioned prefix. SHA-256 is not part of the program:
    [digest] is a parameter. Also [datetime.isoformat] as the scheduler prints it. *)

From stdpp Require Import pretty.
From S2P Require Import Prelude.
From S2P Require Import Errors.
From S2P Require Import Store.
From S2P Require Import ScheduleSpec.
From S2P Require Import Calendar.

(** ** Printing *)

Definition digit (n : Z) : ascii := ascii_of_N (48 + Z.to_N (n mod 10)).

(** [f"{n:0kd}"] for a number of at most [k] digits. *)
Fixpoint digits (k : nat) (n : Z) (acc : string) : string :=
  match k with
  | O => acc
  | S k => digits k (n / 10) (String (digit n) acc)
  end.

Definition padded (k : nat) (n : Z) : string := digits k n EmptyString.

(** [t.isoformat(timespec="microseconds")] of a naive datetime. *)
Definition isoformat (t : Z) : string :=
  let time := time_of t in
  padded 4 (year t) +:+ "-" +:+ padded 2 (month t) +:+ "-" +:+ padded 2 (day t) +:+ "T" +:+
  padded 2 (time / HOUR) +:+ ":" +:+ padded 2 (time / MINUTE mod 60) +:+ ":" +:+
  padded 2 (time / SECOND mod 60) +:+ "." +:+ padded 6 (time mod SECOND).

(** [t.isoformat()] of an aware UTC datetime: whole seconds print no fraction. *)
Definition isoformat_utc (t : Z) : string :=
  (if time_of t mod SECOND =? 0 then String.substring 0 19 (isoformat t) else isoformat t) +:+ "+00:00".

(** A string literal of [json.dumps(..., ensure_ascii=True)] for ASCII text. *)
Definition json_char (c : ascii) : string :=
  let n := N_of_ascii c in
  if (n =? 34)%N then String "\" (String c EmptyString)
  else if (n =? 92)%N then "\\"
  else if (n =? 8)%N then "\b" else if (n =? 9)%N then "\t" else if (n =? 10)%N then "\n"
  else if (n =? 12)%N then "\f" else if (n =? 13)%N then "\r"
  else if (n <? 32)%N || (n =? 127)%N
  then "\u00" +:+ String (hex_digit (n / 16)) (String (hex_digit (n mod 16)) EmptyString)
  else String c EmptyString.

Fixpoint json_chars (s : string) : string :=
  match s with
  | EmptyString => EmptyString
  | String c s => json_char c +:+ json_chars s
  end.

Definition quote : string := String (ascii_of_N 34) EmptyString.

Definition json_string (s : string) : string := quote +:+ json_chars s +:+ quote.

(** [json.dumps] of an object with sorted keys and compact separators; the values
    are printed already. *)
Fixpoint json_members (members : list (string * string)) : string :=
  match members with
  | [] => EmptyString
  | [(k, v)] => json_string k +:+ ":" +:+ v
  | (k, v) :: members => json_string k +:+ ":" +:+ v +:+ "," +:+ json_members members
  end.

Definition json_object (members : list (string * string)) : string :=
  "{" +:+ json_members members +:+ "}".

(** ** Keys *)

Definition OCCURRENCE_KEY_VERSION : string := "v1".

Definition MISFIRE_ACCOUNTING_KEY_VERSION : string := "v1".

Definition occurrence_canonical (schedule_id : uuid) (revision : Z) (timezone : string)
    (local fold : Z) : string :=
  json_object [("fold", pretty fold); ("intended_local_time", json_string (isoformat local));
               ("schedule_id", json_string (uuid_str schedule_id));
               ("schedule_revision", pretty revision); ("timezone", json_string timezone)].

Section keys.
Context (digest : string → string).

Definition build_occurrence_key (schedule_id : uuid) (revision : Z) (timezone : string)
    (local fold : Z) : result exn string :=
  if revision <? 1 then Err ValueError
  else if negb ((fold =? 0) || (fold =? 1)) then Err ValueError
  else Ok (OCCURRENCE_KEY_VERSION +:+ ":r" +:+ pretty revision +:+ ":f" +:+ pretty fold +:+ ":" +:+
           digest (occurrence_canonical schedule_id revision timezone local fold)).

Definition build_misfire_accounting_key (organization_id schedule_id : uuid) (revision : Z)
    (timezone policy : string) (first_local first_fold last_local last_fold : Z)
    : result exn string :=
  if revision <? 1 then Err ValueError
  else if negb ((first_fold =? 0) || (first_fold =? 1)) || negb ((last_fold =? 0) || (last_fold =? 1))
  then Err ValueError
  else Ok (MISFIRE_ACCOUNTING_KEY_VERSION +:+ ":r" +:+ pretty revision +:+ ":" +:+
    digest (json_object [
      ("first_fold", pretty first_fold); ("first_local_time", json_string (isoformat first_local));
      ("last_fold", pretty last_fold); ("last_local_time", json_string (isoformat last_local));
      ("organization_id", json_string (uuid_str organization_id)); ("policy", json_string policy);
      ("schedule_id", json_string (uuid_str schedule_id));
      ("schedule_revision", pretty revision); ("timezone", json_string timezone)])).
End keys.

(** 2024-03-10T02:30:00.000001 and the canonical form of a concrete occurrence. *)
Example isoformat_example :
  isoformat (combine (ymd2ord 2024 3 10) (2 * HOUR + 30 * MINUTE + 1)) = "2024-03-10T02:30:00.000001"%string.
Proof. vm_compute. reflexivity. Qed.
