(* ===== verification/IdentityLaws.v ===== *)
(** * IdentityLaws: an occurrence key identifies its slot

    The canonical form of an occurrence is injective: fixed-width fields
    (timestamps, UUIDs), delimited numbers and quoted strings can be read back from
    it. Under a digest that does not collide on the two documents, equal keys
    therefore mean equal schedule, revision, timezone, local time and fold. *)

From stdpp Require Import pretty.
From S2P Require Import Prelude.
From S2P Require Import Errors.
From S2P Require Import Store.
From S2P Require Import ScheduleSpec.
From S2P Require Import Calendar.
From S2P Require Import Identity.

(** ** Strings *)

Lemma append_cons c (a b : string) : String c a +:+ b = String c (a +:+ b).
Proof. reflexivity. Qed.

Lemma append_nil_r (s : string) : s +:+ EmptyString = s.
Proof. induction s as [|c s IH]; [done|]. by rewrite append_cons, IH. Qed.

Lemma append_assoc (a b c : string) : (a +:+ b) +:+ c = a +:+ (b +:+ c).
Proof. induction a as [|x a IH]; [done|]. by rewrite !append_cons, IH. Qed.

Lemma length_append (a b : string) : String.length (a +:+ b) = (String.length a + String.length b)%nat.
Proof. induction a as [|x a IH]; [done|]. rewrite append_cons. cbn. by rewrite IH. Qed.

(** Prefixes of equal length are equal. *)
Lemma append_inj_width (a b x y : string) :
  String.length a = String.length b → a +:+ x = b +:+ y → a = b ∧ x = y.
Proof.
  revert b. induction a as [|c a IH]; intros [|d b]; try done. rewrite !append_cons. cbn. intros [= Hl] [= <- H].
  by destruct (IH b Hl H) as [-> ->].
Qed.

(** Prefixes free of a delimiter are equal. *)
Fixpoint free (c : ascii) (s : string) : Prop :=
  match s with EmptyString => True | String d s => d ≠ c ∧ free c s end.

Lemma free_append c a b : free c a → free c b → free c (a +:+ b).
Proof. induction a as [|d a IH]; [done|]. rewrite append_cons. cbn. intros [? ?] ?. auto. Qed.

Lemma append_inj_delimited c (a b x y : string) :
  free c a → free c b → a +:+ String c x = b +:+ String c y → a = b ∧ x = y.
Proof.
  revert b. induction a as [|d a IH]; intros [|e b]; rewrite ?append_cons; cbn [free].
  - by intros _ _ [= <-].
  - intros _ [Hne _] [= E _]. by destruct Hne.
  - intros [Hne _] _ [= E _]. by destruct Hne.
  - intros [_ Ha] [_ Hb] [= <- H]. by destruct (IH b Ha Hb H) as [-> ->].
Qed.

(** ** Numbers *)

Lemma pretty_go_free c x s : (∀ n, pretty_N_char n ≠ c) → free c s → free c (pretty_N_go x s).
Proof.
  intros Hc. revert s. induction (N.lt_wf_0 x) as [x _ IH]; intros s Hs.
  assert (x = 0 ∨ 0 < x)%N as [->|Hx] by lia; [by rewrite pretty_N_go_0|].
  rewrite pretty_N_go_step by done. apply IH; [by apply N.div_lt|]. by split.
Qed.

(** A delimiter is no digit and no sign. *)
Definition delimiter (c : ascii) : Prop := (∀ n, pretty_N_char n ≠ c) ∧ c ≠ "-"%char.

Lemma comma_delimiter : delimiter ",".
Proof. split; [|done]. intros n. unfold pretty_N_char. by repeat case_match. Qed.

Lemma colon_delimiter : delimiter ":".
Proof. split; [|done]. intros n. unfold pretty_N_char. by repeat case_match. Qed.

Lemma pretty_free c (z : Z) : delimiter c → free c (pretty z).
Proof.
  intros [Hc Hd]. destruct z as [|p|p]; cbn.
  - split; [exact (Hc 0%N)|done].
  - by apply pretty_go_free.
  - split; [done|by apply pretty_go_free].
Qed.

Lemma pretty_inj_delimited c (z z' : Z) x y :
  delimiter c → pretty z +:+ String c x = pretty z' +:+ String c y → z = z' ∧ x = y.
Proof.
  intros Hc H. apply append_inj_delimited in H as [E ->]; [|by apply pretty_free..].
  by apply (inj pretty) in E as ->.
Qed.

Lemma digits_append k n acc : digits k n acc = padded k n +:+ acc.
Proof.
  unfold padded. revert n acc. induction k as [|k IH]; intros n acc; [done|]. cbn [digits].
  rewrite IH, (IH _ (String (digit n) EmptyString)), append_assoc. done.
Qed.

Lemma padded_S k n : padded (S k) n = padded k (n / 10) +:+ String (digit n) EmptyString.
Proof. unfold padded at 1. cbn [digits]. apply digits_append. Qed.

Lemma padded_length k n : String.length (padded k n) = k.
Proof. revert n. induction k as [|k IH]; intros n; [done|]. rewrite padded_S, length_append, IH. cbn. lia. Qed.

Lemma digit_inj n m : digit n = digit m → n mod 10 = m mod 10.
Proof.
  unfold digit. intros H. apply (f_equal N_of_ascii) in H.
  pose proof (Z.mod_pos_bound n 10 ltac:(done)). pose proof (Z.mod_pos_bound m 10 ltac:(done)).
  rewrite !N_ascii_embedding in H by lia. lia.
Qed.

Lemma padded_inj k n m :
  0 ≤ n < 10 ^ Z.of_nat k → 0 ≤ m < 10 ^ Z.of_nat k → padded k n = padded k m → n = m.
Proof.
  revert n m. induction k as [|k IH]; intros n m Hn Hm; [cbn in *; lia|]. rewrite !padded_S. intros H.
  apply append_inj_width in H as [H1 H2]; [|by rewrite !padded_length]. injection H2 as H2%digit_inj.
  assert (E : 10 ^ Z.of_nat (S k) = 10 * 10 ^ Z.of_nat k).
  { rewrite Nat2Z.inj_succ, Z.pow_succ_r by lia. done. }
  rewrite E in Hn, Hm. apply IH in H1.
  - rewrite (Z.div_mod n 10), (Z.div_mod m 10) by done. lia.
  - split; [apply Z.div_pos; lia|]. apply Z.div_lt_upper_bound; lia.
  - split; [apply Z.div_pos; lia|]. apply Z.div_lt_upper_bound; lia.
Qed.

(** ** UUIDs *)

Lemma hex_append k n acc : hex_digits k n acc = hex_digits k n EmptyString +:+ acc.
Proof.
  revert n acc. induction k as [|k IH]; intros n acc; [done|]. cbn [hex_digits].
  rewrite IH, (IH _ (String _ EmptyString)), append_assoc. done.
Qed.

Lemma hex_length k n : String.length (hex_digits k n EmptyString) = k.
Proof.
  revert n. induction k as [|k IH]; intros n; [done|]. cbn [hex_digits].
  rewrite hex_append, length_append, IH. cbn. lia.
Qed.

Lemma hex_digit_inj n m : (n < 16)%N → (m < 16)%N → hex_digit n = hex_digit m → n = m.
Proof.
  unfold hex_digit. intros Hn Hm H. apply (f_equal N_of_ascii) in H. revert H.
  destruct (N.ltb_spec n 10), (N.ltb_spec m 10); rewrite !N_ascii_embedding by lia; lia.
Qed.

Lemma hex_inj k n m :
  (n < 16 ^ N.of_nat k)%N → (m < 16 ^ N.of_nat k)%N →
  hex_digits k n EmptyString = hex_digits k m EmptyString → n = m.
Proof.
  revert n m. induction k as [|k IH]; intros n m Hn Hm; [cbn in *; lia|]. cbn [hex_digits].
  rewrite (hex_append k (n / 16)), (hex_append k (m / 16)). intros H.
  apply append_inj_width in H as [H1 H2]; [|by rewrite !hex_length].
  injection H2 as H2%hex_digit_inj; [|by apply N.mod_lt..].
  assert (E : (16 ^ N.of_nat (S k) = 16 * 16 ^ N.of_nat k)%N) by (by rewrite Nat2N.inj_succ, N.pow_succ_r').
  rewrite E in Hn, Hm. apply IH in H1; [|by apply N.Div0.div_lt_upper_bound..].
  rewrite (N.div_mod n 16), (N.div_mod m 16) by done. lia.
Qed.

Lemma uuid_str_inj u v : (u < 2 ^ 128)%N → (v < 2 ^ 128)%N → uuid_str u = uuid_str v → u = v.
Proof.
  intros Hu Hv H. apply (hex_inj 32); [exact Hu|exact Hv|].
  assert (Hl : ∀ w, String.length (uuid_hex w) = 32%nat) by (intros w; unfold uuid_hex; apply hex_length).
  change (uuid_hex u = uuid_hex v). revert H. unfold uuid_str. cbv zeta.
  pose proof (Hl u) as H1. pose proof (Hl v) as H2. revert H1 H2.
  generalize (uuid_hex u) (uuid_hex v). clear.
  intros a b Ha Hb.
  do 32 (destruct a as [|? a]; [discriminate Ha|]; apply eq_add_S in Ha).
  do 32 (destruct b as [|? b]; [discriminate Hb|]; apply eq_add_S in Hb).
  destruct a; [|discriminate Ha]. destruct b; [|discriminate Hb].
  intros H. injection H. intros. subst. reflexivity.
Qed.

(** ** Timestamps *)

Lemma ymd_of t :
  ∃ y m d, ymd t = (y, m, d) ∧ valid_ymd y m d = true ∧ ymd2ord y m d = ordinal t.
Proof. apply ymd2ord_ord2ymd. Qed.

Lemma year_range t : in_range t = true → 1 ≤ year t ≤ 9999.
Proof.
  unfold in_range. rewrite andb_true_iff, Z.leb_le, Z.ltb_lt. intros [H1 H2].
  assert (Ho : 1 ≤ ordinal t ≤ MAX_ORDINAL).
  { unfold ordinal. split.
    - assert (1 - EPOCH_ORDINAL ≤ t / DAY) by (apply Z.div_le_lower_bound; [done|lia]). lia.
    - assert (t / DAY < MAX_ORDINAL + 1 - EPOCH_ORDINAL) by (apply Z.div_lt_upper_bound; [done|lia]). lia. }
  unfold year. destruct (ymd_of t) as (y & m & d & -> & Hv & Hord). cbn [fst].
  apply yday_range in Hv. unfold ymd2ord in Hord.
  assert (Hl : year_length y ≤ 366) by (unfold year_length; case_match; lia).
  unfold MAX_ORDINAL, days_before_year in *. Z.to_euclidean_division_equations. lia.
Qed.

Lemma isoformat_inj t u :
  in_range t = true → in_range u = true → isoformat t = isoformat u → t = u.
Proof.
  intros Ht%year_range Hu%year_range H. unfold isoformat in H.
  pose proof (time_of_range t) as Rt. pose proof (time_of_range u) as Ru.
  apply append_inj_width in H as [Ey H]; [|by rewrite !padded_length]. apply (append_inj_width "-" "-") in H as [_ H]; [|done].
  apply append_inj_width in H as [Em H]; [|by rewrite !padded_length]. apply (append_inj_width "-" "-") in H as [_ H]; [|done].
  apply append_inj_width in H as [Ed H]; [|by rewrite !padded_length]. apply (append_inj_width "T" "T") in H as [_ H]; [|done].
  apply append_inj_width in H as [Eh H]; [|by rewrite !padded_length]. apply (append_inj_width ":" ":") in H as [_ H]; [|done].
  apply append_inj_width in H as [En H]; [|by rewrite !padded_length]. apply (append_inj_width ":" ":") in H as [_ H]; [|done].
  apply append_inj_width in H as [Es H]; [|by rewrite !padded_length]. apply (append_inj_width "." ".") in H as [_ Ef]; [|done].
  apply padded_inj in Ey; [|lia..].
  assert (Eo : ordinal t = ordinal u).
  { unfold year, month, day in *. destruct (ymd_of t) as (y & m & d & Et & Hv & <-).
    destruct (ymd_of u) as (y' & m' & d' & Eu & Hv' & <-). rewrite Et, Eu in *. cbn [fst snd] in *.
    assert (Hdays : ∀ y m d, valid_ymd y m d = true → 0 ≤ m < 10 ^ 2 ∧ 0 ≤ d < 10 ^ 2).
    { intros y0 m0 d0. unfold valid_ymd, days_in_month. rewrite !andb_true_iff, !Z.leb_le. repeat case_match; lia. }
    apply Hdays in Hv as [? ?], Hv' as [? ?]. apply padded_inj in Em, Ed; [|done..]. congruence. }
  assert (Etime : time_of t = time_of u).
  { unfold DAY, HOUR, MINUTE, SECOND in *.
    apply padded_inj in Eh, En, Es, Ef; [|Z.to_euclidean_division_equations; lia..].
    revert Eh En Es Ef Rt Ru. generalize (time_of t) (time_of u). clear. intros a b.
    Z.to_euclidean_division_equations. lia. }
  rewrite <- (combine_split t), <- (combine_split u). congruence.
Qed.

(** ** String literals *)

(** Reading one character back. *)
Definition hex_value (c : ascii) : N :=
  let n := N_of_ascii c in if (n <? 58)%N then (n - 48)%N else (n - 87)%N.

Definition read_char (s : string) : option (ascii * string) :=
  match s with
  | String "\" (String "u" (String _ (String _ (String h (String l x))))) =>
      Some (ascii_of_N (16 * hex_value h + hex_value l), x)
  | String "\" (String e x) =>
      Some (match e with
            | "b" => "008" | "t" => "009" | "n" => "010" | "f" => "012" | "r" => "013" | e => e
            end%char, x)
  | String c x => if Ascii.eqb c (ascii_of_N 34) then None else Some (c, x)
  | EmptyString => None
  end.

Lemma read_json_char c x : read_char (json_char c +:+ x) = Some (c, x).
Proof. destruct c as [[] [] [] [] [] [] [] []]; reflexivity. Qed.

Lemma read_quote x : read_char (quote +:+ x) = None.
Proof. reflexivity. Qed.

Lemma json_chars_inj a b x y :
  json_chars a +:+ quote +:+ x = json_chars b +:+ quote +:+ y → a = b ∧ x = y.
Proof.
  revert b. induction a as [|c a IH]; intros [|d b] H; cbn [json_chars] in H; rewrite ?append_assoc in H.
  - by apply (append_inj_width quote quote) in H as [_ ->].
  - apply (f_equal read_char) in H. rewrite read_json_char in H. discriminate H.
  - apply (f_equal read_char) in H. rewrite read_json_char in H. discriminate H.
  - apply (f_equal read_char) in H. rewrite !read_json_char in H. injection H as -> H.
    by apply IH in H as [-> ->].
Qed.

Lemma json_string_inj a b x y : json_string a +:+ x = json_string b +:+ y → a = b ∧ x = y.
Proof.
  unfold json_string. rewrite !append_assoc. intros H.
  apply (append_inj_width quote quote) in H as [_ H]; [|done]. by apply json_chars_inj in H.
Qed.

(** ** Keys *)

Lemma occurrence_canonical_inj id id' rev rev' tz tz' local local' fold fold' :
  (id < 2 ^ 128)%N → (id' < 2 ^ 128)%N → in_range local = true → in_range local' = true →
  occurrence_canonical id rev tz local fold = occurrence_canonical id' rev' tz' local' fold' →
  id = id' ∧ rev = rev' ∧ tz = tz' ∧ local = local' ∧ fold = fold'.
Proof.
  intros Hid Hid' Hl Hl'. unfold occurrence_canonical, json_object, json_members. rewrite !append_assoc.
  intros H. apply (append_inj_width "{" "{") in H as [_ H]; [|done].
  apply json_string_inj in H as [_ H]. apply (append_inj_width ":" ":") in H as [_ H]; [|done].
  apply (pretty_inj_delimited ",") in H as [Ef H]; [|apply comma_delimiter].
  apply json_string_inj in H as [_ H]. apply (append_inj_width ":" ":") in H as [_ H]; [|done].
  apply json_string_inj in H as [El H]. apply (append_inj_width "," ",") in H as [_ H]; [|done].
  apply json_string_inj in H as [_ H]. apply (append_inj_width ":" ":") in H as [_ H]; [|done].
  apply json_string_inj in H as [Ei H]. apply (append_inj_width "," ",") in H as [_ H]; [|done].
  apply json_string_inj in H as [_ H]. apply (append_inj_width ":" ":") in H as [_ H]; [|done].
  apply (pretty_inj_delimited ",") in H as [Er H]; [|apply comma_delimiter].
  apply json_string_inj in H as [_ H]. apply (append_inj_width ":" ":") in H as [_ H]; [|done].
  apply json_string_inj in H as [Et _].
  apply uuid_str_inj in Ei; [|done..]. apply isoformat_inj in El; [|done..]. done.
Qed.

(** An occurrence key identifies its slot. Keys exist exactly for a positive
    revision and a fold of 0 or 1; and if two requests yield the same key, under a
    digest that does not map their two documents to one value, they are for the same
    schedule, revision, timezone, local time and fold. *)
Theorem occurrence_key_identifies digest id id' rev rev' tz tz' local local' fold fold' k :
  (id < 2 ^ 128)%N → (id' < 2 ^ 128)%N → in_range local = true → in_range local' = true →
  (digest (occurrence_canonical id rev tz local fold) =
     digest (occurrence_canonical id' rev' tz' local' fold') →
   occurrence_canonical id rev tz local fold = occurrence_canonical id' rev' tz' local' fold') →
  build_occurrence_key digest id rev tz local fold = Ok k →
  build_occurrence_key digest id' rev' tz' local' fold' = Ok k →
  id = id' ∧ rev = rev' ∧ tz = tz' ∧ local = local' ∧ fold = fold' ∧ 1 ≤ rev ∧ (fold = 0 ∨ fold = 1).
Proof.
  intros Hid Hid' Hl Hl' Hdig. unfold build_occurrence_key.
  destruct (Z.ltb_spec rev 1) as [|Hrev]; [done|]. destruct (negb _) eqn:Hf; [done|]. intros [= <-].
  destruct (Z.ltb_spec rev' 1) as [|_]; [done|]. destruct (negb ((fold' =? 0) || _)); [done|]. intros [= H].
  apply negb_false_iff, orb_true_iff in Hf. rewrite !Z.eqb_eq in Hf.
  apply (append_inj_width EmptyString EmptyString) in H as [_ H]; [|done].
  apply (pretty_inj_delimited ":") in H as [_ H]; [|apply colon_delimiter].
  apply (append_inj_width "f" "f") in H as [_ H]; [|done].
  apply (pretty_inj_delimited ":") in H as [_ H]; [|apply colon_delimiter].
  symmetry in H. apply Hdig, occurrence_canonical_inj in H as (-> & -> & -> & -> & ->); done.
Qed.

(** Two consecutive days of one schedule, under the identity digest. *)
Definition key_day (d : Z) : result exn string :=
  build_occurrence_key (λ s, s) 12 3 "Europe/Berlin" (combine (ymd2ord 2024 5 d) (9 * HOUR)) 0.

Lemma occurrence_key_identifies_witness :
  (∃ k, key_day 6 = Ok k ∧ key_day 7 ≠ Ok k) ∧ 1 ≤ 3 ∧ (0 = 0 ∨ 0 = 1).
Proof.
  split; [eexists; split; [vm_compute; reflexivity|vm_compute; discriminate]|].
  exact (proj2 (proj2 (proj2 (proj2 (proj2 (occurrence_key_identifies (λ s, s) 12 12 3 3 "Europe/Berlin" "Europe/Berlin"
    (combine (ymd2ord 2024 5 6) (9 * HOUR)) (combine (ymd2ord 2024 5 6) (9 * HOUR)) 0 0 _
    ltac:(done) ltac:(done) ltac:(vm_compute; reflexivity) ltac:(vm_compute; reflexivity) (λ E, E)
    eq_refl eq_refl)))))).
Defined.
