(* ===== verification/StoreLemmas.v ===== *)
(** * StoreLemmas: reasoning about transactions

    [runs m w Q]: the operation [m] returns normally from [w], in a result and a
    world that satisfy [Q] (total correctness). [ran] inverts a normal return;
    [Monotone] says that an operation never takes a UUID back, whatever its outcome. *)

From S2P Require Import Prelude.
From S2P Require Import Errors.
From S2P Require Import Lifecycles.
From S2P Require Import ScheduleSpec.
From S2P Require Import Store.

(** ** Normal returns *)

Definition runs {A} (m : M A) (w : World) (Q : A → World → Prop) : Prop :=
  ∃ a w', m w = (Ok a, w') ∧ Q a w'.

Lemma runs_bind {A B} (m : M A) (f : A → M B) w Q :
  runs m w (λ a w', runs (f a) w' Q) → runs (m ≫= f) w Q.
Proof.
  intros (a & w1 & Hm & b & w2 & Hf & HQ). exists b, w2. split; [|done].
  unfold mbind, M_bind. by rewrite Hm.
Qed.

Lemma runs_mono {A} (m : M A) w (P Q : A → World → Prop) :
  runs m w P → (∀ a w', P a w' → Q a w') → runs m w Q.
Proof. intros (a & w' & ? & ?) HPQ. exists a, w'. auto. Qed.

Lemma runs_ret {A} (a : A) w (Q : A → World → Prop) : Q a w → runs (mret a) w Q.
Proof. intros. by exists a, w. Qed.
Lemma runs_gets {A} (f : World → A) w (Q : A → World → Prop) : Q (f w) w → runs (gets f) w Q.
Proof. intros. by exists (f w), w. Qed.
Lemma runs_lift {A} (r : result exn A) a w (Q : A → World → Prop) :
  r = Ok a → Q a w → runs (lift r) w Q.
Proof. intros -> ?. by exists a, w. Qed.
Lemma runs_modify f w (Q : unit → World → Prop) :
  Q tt (set_w_db (f (w_db w)) w) → runs (modify_db f) w Q.
Proof. intros. by eexists tt, _. Qed.

Lemma bind_runs {A B} (m : M A) (f : A → M B) w a w1 b w2 :
  m w = (Ok a, w1) → f a w1 = (Ok b, w2) → (m ≫= f) w = (Ok b, w2).
Proof. unfold mbind, M_bind. intros ->. done. Qed.

Lemma ran_bind {A B} (m : M A) (f : A → M B) w b w' :
  (m ≫= f) w = (Ok b, w') ↔ ∃ a w1, m w = (Ok a, w1) ∧ f a w1 = (Ok b, w').
Proof.
  unfold mbind, M_bind. destruct (m w) as [[a|e] w1].
  - split; [eauto|]. by intros (? & ? & [= <- <-] & ?).
  - split; [done|]. by intros (? & ? & ? & ?).
Qed.

Lemma ran_runs {A} (m : M A) w a w' Q : runs m w Q → m w = (Ok a, w') → Q a w'.
Proof. intros (a' & w1 & Hm & HQ) Hm'. congruence. Qed.

(** Opens a normal return of a monadic program into the returns of its parts. *)
Tactic Notation "ran" hyp(H) "as" ident(a) ident(w) ident(H1) :=
  apply ran_bind in H as (a & w & H1 & H).

(** ** UUIDs are issued once *)

Create HintDb monotone discriminated.
#[export] Hint Constants Opaque : monotone.

Class Monotone {A} (m : M A) : Prop :=
  monotone : ∀ w, (w_next_uuid w ≤ w_next_uuid (snd (m w)))%N.

Lemma ran_monotone {A} (m : M A) `{!Monotone m} w r w' :
  m w = (r, w') → (w_next_uuid w ≤ w_next_uuid w')%N.
Proof. intros Hm. specialize (monotone w). by rewrite Hm. Qed.

#[export] Instance monotone_ret {A} (a : A) : Monotone (mret a).
Proof. intros w. simpl. lia. Qed.
#[export] Instance monotone_raise {A} e : Monotone (@raise A e).
Proof. intros w. simpl. lia. Qed.
#[export] Instance monotone_lift {A} (r : result exn A) : Monotone (lift r).
Proof. intros w. simpl. lia. Qed.
#[export] Instance monotone_gets {A} (f : World → A) : Monotone (gets f).
Proof. intros w. simpl. lia. Qed.
#[export] Instance monotone_txn_now : Monotone txn_now.
Proof. intros w. simpl. lia. Qed.
#[export] Instance monotone_modify f : Monotone (modify_db f).
Proof. intros w. simpl. lia. Qed.
#[export] Instance monotone_utcnow : Monotone utcnow.
Proof. intros w. simpl. lia. Qed.
#[export] Instance monotone_fresh : Monotone fresh_uuid.
Proof. intros w. simpl. lia. Qed.

#[export] Instance monotone_bind {A B} (m : M A) (f : A → M B) :
  Monotone m → (∀ a, Monotone (f a)) → Monotone (m ≫= f).
Proof.
  intros Hm Hf w. specialize (Hm w). unfold mbind, M_bind.
  destruct (m w) as [[a|e] w1]; simpl in *; [|done]. specialize (Hf a w1). lia.
Qed.

#[export] Instance monotone_forM {A} (f : A → M unit) l :
  (∀ a, Monotone (f a)) → Monotone (forM_ f l).
Proof. intros Hf. induction l; simpl; apply _. Qed.

#[export] Instance monotone_mapM {A B} (f : A → M B) l :
  (∀ a, Monotone (f a)) → Monotone (mapM_list f l).
Proof. intros Hf. induction l; simpl; apply _. Qed.

#[export] Instance monotone_txn {A} (m : M A) : Monotone m → Monotone (tenant_transaction m).
Proof.
  intros Hm w. unfold tenant_transaction.
  specialize (Hm (set_w_txn_now (w_clock w (w_reads w)) (set_w_reads (S (w_reads w)) w))).
  destruct (m _) as [[a|e] w1]; done.
Qed.

#[export] Instance monotone_enqueue t a i o p : Monotone (enqueue_event t a i o p).
Proof. unfold enqueue_event. repeat (apply monotone_bind; intros; [apply _|]). apply _. Qed.

#[export] Hint Resolve monotone_ret monotone_raise monotone_lift monotone_gets monotone_txn_now
  monotone_modify monotone_utcnow monotone_fresh monotone_enqueue : monotone.

(** Monotonicity of a program, by its structure. *)
Ltac monotonicity :=
  repeat (intros; lazymatch goal with
  | |- Monotone (_ ≫= _) => apply monotone_bind
  | |- Monotone (match ?x with _ => _ end) => destruct x
  | |- Monotone (tenant_transaction _) => apply monotone_txn
  | |- Monotone (execution_transaction _ _) => unfold execution_transaction
  | |- Monotone (forM_ _ _) => apply monotone_forM
  | |- Monotone (mapM_list _ _) => apply monotone_mapM
  | |- Monotone _ => solve [eauto with monotone nocore]
  end).

#[export] Instance monotone_admit worker org s : Monotone (placement_admit worker org s).
Proof. unfold placement_admit. monotonicity. Qed.
#[export] Hint Resolve monotone_admit : monotone.
#[export] Instance monotone_guard org : Monotone (execution_guard org).
Proof. unfold execution_guard. monotonicity. Qed.
#[export] Instance monotone_execution {A} org (m : M A) :
  Monotone m → Monotone (execution_transaction org m).
Proof. intros. apply monotone_txn, monotone_bind; intros; apply _. Qed.
#[export] Hint Resolve monotone_guard : monotone.

#[export] Instance monotone_try {A} (m : M A) h :
  Monotone m → (∀ e, Monotone (h e)) → Monotone (try_with m h).
Proof.
  intros Hm Hh w. specialize (Hm w). unfold try_with.
  destruct (m w) as [[a|e] w1]; simpl in *; [done|]. specialize (Hh e w1). lia.
Qed.

(** Monotonicity of an operation: unfold it and what it calls. *)
Ltac mono :=
  repeat (intros; lazymatch goal with
  | |- Monotone (_ ≫= _) => apply monotone_bind
  | |- Monotone (match ?x with _ => _ end) => destruct x
  | |- Monotone (tenant_transaction _) => apply monotone_txn
  | |- Monotone (try_with _ _) => apply monotone_try
  | |- Monotone (forM_ _ _) => apply monotone_forM
  | |- Monotone (mapM_list _ _) => apply monotone_mapM
  | |- Monotone ?m => first [solve [eauto with monotone nocore] | let h := get_head m in unfold h]
  end).

(** ** Transactions *)

(** What a transaction leaves in the database: the body's writes when it returns,
    nothing when it raises. *)
Lemma txn_committed {A} (m : M A) w a w' :
  tenant_transaction m w = (Ok a, w') →
  m (set_w_txn_now (w_clock w (w_reads w)) (set_w_reads (S (w_reads w)) w)) = (Ok a, w').
Proof. unfold tenant_transaction. case_match; case_match; congruence. Qed.

Lemma txn_rolled_back {A} (m : M A) w e w' :
  tenant_transaction m w = (Err e, w') → w_db w' = w_db w.
Proof. unfold tenant_transaction. case_match; case_match; intros [= <- <-]; done. Qed.

(** Any property of the database and of the UUID supply that the body preserves on
    a normal return, and that survives issuing more UUIDs, holds after the
    transaction. *)
Lemma txn_preserves {A} (P : DB → uuid → Prop) (m : M A) `{!Monotone m} w :
  (∀ d n n', (n ≤ n')%N → P d n → P d n') →
  (∀ w0 a w', w_db w0 = w_db w → w_next_uuid w0 = w_next_uuid w → m w0 = (Ok a, w') →
     P (w_db w') (w_next_uuid w')) →
  P (w_db w) (w_next_uuid w) →
  let w' := snd (tenant_transaction m w) in P (w_db w') (w_next_uuid w').
Proof.
  intros Hup Hbody HP w'. subst w'. unfold tenant_transaction.
  destruct (m _) as [[a|e] w1] eqn:Hm; simpl.
  - by eapply Hbody, Hm.
  - eapply Hup, HP. by apply ran_monotone in Hm.
Qed.

(** Admission writes nothing. *)
Lemma ran_guard org w u w' : execution_guard org w = (Ok u, w') → w' = w.
Proof.
  unfold execution_guard, placement_admit. intros H. ran H as d w1 Hd. injection Hd as <- <-.
  ran H as wk w2 Hw. injection Hw as <- <-.
  destruct (w_worker_cell_id w), (placement_of org (w_db w)); try done; [|by injection H as _ <-].
  ran H as route w3 Hr. injection Hr as <- <-. destruct (negb _ || negb _); [done|].
  ran H as d' w4 Hd. injection Hd as <- <-. destruct (cell_of _ _); [|done].
  destruct (negb _); [done|]. destruct (placement_of _ _); [|done].
  destruct (negb _ || negb _ || negb _ || negb _ || negb _); [done|]. by injection H as _ <-.
Qed.
