(* ===== verification/CustomerSafety.v ===== *)
(** * CustomerSafety: identities converge

    The race-recovery contract of [domain/customers/service.py]. A step of the system is
    an operation of the customer and conversation services, the second half of one that
    read without a lock, a change of a profile by the compliance workflow, or activity
    elsewhere that leaves their tables alone; [CustomerInv] holds throughout. The callers of
    [resolve_or_create] that present one identity are a pool whose transactions
    interleave with each other and with the rest of the system. *)

From S2P Require Import Prelude.
From S2P Require Import PyText.
From S2P Require Import Errors.
From S2P Require Import Lifecycles.
From S2P Require Import Conditions.
From S2P Require Import ScheduleSpec.
From S2P Require Import MessagingStore.
From S2P Require Import CustomerStore.
From S2P Require Import Normalization.
From S2P Require Import CampaignStore.
From S2P Require Import Store.
From S2P Require Import Tables.
From S2P Require Import IdentityLaws.
From S2P Require Import StoreLemmas.
From S2P Require Import CustomerService.

(** ** The invariant *)

Abbreviation customers_in w := (db_customer (w_db w)).

Definition canonical_key (r : CustomerIdentityRecord) : uuid * string * string :=
  (ci_organization_id r, ci_identity_type r, ci_normalized_value r).

(** The dedup keys that name a UUID issued for a creation. *)
Definition creation_prefix (p : string) : Prop := p = "customer.created:" ∨ p = "identity.linked:".

Record CustomerInv (c : CustomerDB) (n : uuid) : Prop := {
  inv_canonical : NoDup (map canonical_key (cdb_identities c));
  inv_owner : ∀ r, r ∈ cdb_identities c →
    ∃ u, u ∈ cdb_customers c ∧ owned_customer (ci_organization_id r) (ci_customer_id r) u = true;
  inv_customer_ids : keyed cu_id n (cdb_customers c);
  inv_identity_ids : keyed ci_id n (cdb_identities c);
  inv_customer : ∀ u, u ∈ cdb_customers c → to_customer u = Ok u ∨ cu_status u = "SUSPENDED";
  inv_identity : ∀ r, r ∈ cdb_identities c → to_identity r = Ok r ∨ ci_status r = "REVOKED";
  inv_type : ∀ r, r ∈ cdb_identities c → identity_type_of (ci_identity_type r) ≠ None;
  inv_dedup : ∀ a p v, a ∈ cdb_activities c → creation_prefix p → (v < 2 ^ 128)%N →
    av_dedup_key a = Some (p +:+ uuid_str v) → (v < n)%N;
}.

(** No identity changes its owner, no revocation and no suspension is taken back. *)
Definition identity_kept (r r' : CustomerIdentityRecord) : Prop :=
  canonical_key r' = canonical_key r ∧ ci_customer_id r' = ci_customer_id r ∧ ci_id r' = ci_id r ∧
  (ci_status r = "REVOKED" → ci_status r' = "REVOKED").

Definition customer_kept (u u' : CustomerRecord) : Prop :=
  cu_organization_id u' = cu_organization_id u ∧ cu_id u' = cu_id u ∧
  (cu_status u = "SUSPENDED" → cu_status u' = "SUSPENDED").

Record keeps_owners (c c' : CustomerDB) : Prop := {
  ko_identity : ∀ r, r ∈ cdb_identities c → ∃ r', r' ∈ cdb_identities c' ∧ identity_kept r r';
  ko_customer : ∀ u, u ∈ cdb_customers c → ∃ u', u' ∈ cdb_customers c' ∧ customer_kept u u';
}.

#[export] Instance identity_kept_preorder : PreOrder identity_kept.
Proof.
  split; [by intros r|]. intros r1 r2 r3 (? & ? & ? & ?) (? & ? & ? & ?).
  unfold identity_kept. split_and!; [congruence..|by auto].
Qed.

#[export] Instance customer_kept_preorder : PreOrder customer_kept.
Proof.
  split; [by intros u|]. intros u1 u2 u3 (? & ? & ?) (? & ? & ?). unfold customer_kept. split_and!; [congruence..|by auto].
Qed.

#[export] Instance keeps_owners_preorder : PreOrder keeps_owners.
Proof.
  split; [by intros c; split; intros x Hx; exists x|]. intros c1 c2 c3 [H1 H2] [H3 H4]. split.
  - intros r (r2 & (r3 & ? & ?)%H3 & ?)%H1. exists r3. split; [done|by etrans].
  - intros u (u2 & (u3 & ? & ?)%H4 & ?)%H2. exists u3. split; [done|by etrans].
Qed.

(** The same without the status of identities: what holds also when a verification that
    was overtaken by a revocation commits. *)
Definition same_owners (c c' : CustomerDB) : Prop :=
  ∀ r, r ∈ cdb_identities c →
    ∃ r', r' ∈ cdb_identities c' ∧ canonical_key r' = canonical_key r ∧ ci_customer_id r' = ci_customer_id r.

Lemma keeps_same_owners c c' : keeps_owners c c' → same_owners c c'.
Proof. intros [Hk _] r (r' & ? & ? & ? & _)%Hk. by exists r'. Qed.

(** Tables that only grew. *)
Lemma keeps_owners_grown c c' ids us :
  cdb_identities c' = cdb_identities c ++ ids → cdb_customers c' = cdb_customers c ++ us → keeps_owners c c'.
Proof.
  intros E1 E2. split; [intros x Hx; exists x; rewrite E1|intros x Hx; exists x; rewrite E2]; split; try done; apply elem_of_app; by left.
Qed.

Lemma CustomerInv_mono c n n' : (n ≤ n')%N → CustomerInv c n → CustomerInv c n'.
Proof.
  intros Hn []. constructor; try done; try by eapply keyed_mono.
  intros a p v Ha Hp Hv E. enough (v < n)%N by lia. by eapply inv_dedup0.
Qed.

(** ** Operations that keep it

    [tame n m]: run where the UUIDs below [n] have been issued, [m] keeps the invariant
    and every owner, whether it returns or raises. *)

Definition leads (w w' : World) : Prop :=
  (w_next_uuid w ≤ w_next_uuid w')%N ∧ CustomerInv (customers_in w') (w_next_uuid w') ∧
  keeps_owners (customers_in w) (customers_in w').

Definition tame {A} (n : uuid) (m : M A) : Prop := ∀ w,
  (n ≤ w_next_uuid w)%N → CustomerInv (customers_in w) (w_next_uuid w) → leads w (snd (m w)).

Create HintDb tame discriminated.
#[export] Hint Constants Opaque : tame.

Lemma leads_trans w1 w2 w3 : leads w1 w2 → leads w2 w3 → leads w1 w3.
Proof. intros (? & _ & ?) (? & ? & ?). split_and!; [lia|done|by etrans]. Qed.

(** A step that leaves the customer tables alone. *)
Lemma leads_same w w' :
  customers_in w' = customers_in w → (w_next_uuid w ≤ w_next_uuid w')%N →
  CustomerInv (customers_in w) (w_next_uuid w) → leads w w'.
Proof. intros E Hn HI. split_and!; [done| |]; rewrite E; [by eapply CustomerInv_mono|done]. Qed.

Lemma tame_bind {A B} n (m : M A) (f : A → M B) : tame n m → (∀ a, tame n (f a)) → tame n (m ≫= f).
Proof.
  intros Hm Hf w Hn HI. specialize (Hm w Hn HI). unfold mbind, M_bind.
  destruct (m w) as [[a|e] w1]; simpl in *; [|done].
  eapply leads_trans; [done|]. destruct Hm as (? & ? & ?). apply Hf; [lia|done].
Qed.

Lemma tame_ret {A} n (a : A) : tame n (mret a).
Proof. intros w _ HI. by apply leads_same. Qed.
Lemma tame_raise {A} n e : tame n (@raise A e).
Proof. intros w _ HI. by apply leads_same. Qed.
Lemma tame_lift {A} n (r : result exn A) : tame n (lift r).
Proof. intros w _ HI. by apply leads_same. Qed.
Lemma tame_gets {A} n (f : World → A) : tame n (gets f).
Proof. intros w _ HI. by apply leads_same. Qed.
Lemma tame_utcnow n : tame n utcnow.
Proof. intros w _ HI. by apply leads_same. Qed.

(** An issued UUID is below the bound from then on. *)
Lemma tame_fresh {A} n (f : uuid → M A) :
  (∀ u, (n ≤ u)%N → tame (N.succ u) (f u)) → tame n (fresh_uuid ≫= f).
Proof.
  intros Hf w Hn HI. eapply (leads_trans _ (set_w_next_uuid (N.succ (w_next_uuid w)) w)).
  - apply leads_same; [done|simpl; lia|done].
  - apply (Hf (w_next_uuid w)); [done|simpl; lia|]. eapply CustomerInv_mono, HI. simpl. lia.
Qed.

Lemma tame_modify n (f : CustomerDB → CustomerDB) :
  (∀ c k, (n ≤ k)%N → CustomerInv c k → CustomerInv (f c) k ∧ keeps_owners c (f c)) → tame n (pmodify f).
Proof.
  intros Hf w Hn HI. destruct (Hf _ _ Hn HI) as [H1 H2].
  split_and!; [simpl; lia|exact H1|exact H2].
Qed.

Lemma tame_txn {A} n (m : M A) : tame n m → tame n (tenant_transaction m).
Proof.
  intros Hm w Hn HI. unfold tenant_transaction.
  specialize (Hm (set_w_txn_now (w_clock w (w_reads w)) (set_w_reads (S (w_reads w)) w)) Hn HI).
  destruct (m _) as [[a|e] w1]; [done|]. destruct Hm as (Hle & _ & _). by apply leads_same.
Qed.

Lemma tame_try {A} n (m : M A) h : tame n m → (∀ e, tame n (h e)) → tame n (try_with m h).
Proof.
  intros Hm Hh w Hn HI. specialize (Hm w Hn HI). unfold try_with.
  destruct (m w) as [[a|e] w1]; simpl in *; [done|].
  eapply leads_trans; [done|]. destruct Hm as (? & ? & ?). apply Hh; [lia|done].
Qed.

Lemma tame_mapM {A B} n (f : A → M B) l : (∀ a, tame n (f a)) → tame n (mapM_list f l).
Proof.
  intros Hf. induction l; simpl; [apply tame_ret|].
  apply tame_bind; [done|]. intros b. apply tame_bind; [done|]. intros bs. apply tame_ret.
Qed.

Lemma tame_enqueue n t a i o p : tame n (enqueue_event t a i o p).
Proof.
  unfold enqueue_event. apply tame_fresh. intros u _ w _ HI. by apply leads_same.
Qed.

#[export] Hint Resolve tame_ret tame_raise tame_lift tame_gets tame_utcnow tame_enqueue : tame.

(** Tameness of a program, by its structure; what is left needs the operation's own
    lemma. *)
Ltac tameness :=
  repeat (intros; lazymatch goal with
  | |- tame _ (fresh_uuid ≫= _) => apply tame_fresh
  | |- tame _ (_ ≫= _) => apply tame_bind
  | |- tame _ (match ?x with _ => _ end) => destruct x
  | |- tame _ (tenant_transaction _) => apply tame_txn
  | |- tame _ (try_with _ _) => apply tame_try
  | |- tame _ (mapM_list _ _) => apply tame_mapM
  | |- tame _ (pmodify _) => solve [eauto with tame nocore]
  | |- tame _ ?m => first [solve [eauto with tame nocore] | let h := get_head m in unfold h]
  end).

(** Conversations and participants are not constrained by it. *)
Lemma tame_frame n f :
  (∀ c, cdb_customers (f c) = cdb_customers c ∧ cdb_identities (f c) = cdb_identities c ∧
        cdb_activities (f c) = cdb_activities c) → tame n (pmodify f).
Proof.
  intros Hf. apply tame_modify. intros c k _ []. destruct (Hf c) as (E1 & E2 & E3).
  split; [constructor; rewrite ?E1, ?E2, ?E3; done|]. by apply (keeps_owners_grown _ _ [] []); rewrite app_nil_r.
Qed.

Lemma tame_set_conversations n f : tame n (pmodify (λ c, set_cdb_conversations (f c) c)).
Proof. by apply tame_frame. Qed.
Lemma tame_set_participants n f : tame n (pmodify (λ c, set_cdb_participants (f c) c)).
Proof. by apply tame_frame. Qed.
#[export] Hint Resolve tame_set_conversations tame_set_participants : tame.

Lemma insert_customer_spec org id name locale w :
  let now := w_clock w (w_reads w) in
  let record := mkCustomer id org name "ACTIVE" locale 1 now now in
  insert_customer org id name locale w =
    (Ok record, set_w_db (set_db_customer (set_cdb_customers (cdb_customers (customers_in w) ++ [record])
      (customers_in w)) (w_db w)) (set_w_reads (S (w_reads w)) w)).
Proof. reflexivity. Qed.

(** A customer is inserted under the identifier that was just issued. *)
Lemma tame_new_customer {A} n org name locale (f : uuid → CustomerRecord → M A) :
  (∀ id u, (n ≤ id)%N → tame (N.succ id) (f id u)) →
  tame n (fresh_uuid ≫= λ id, insert_customer org id name locale ≫= f id).
Proof.
  intros Hf w Hn HI. unfold fresh_uuid, mbind, M_bind. cbv beta iota. rewrite insert_customer_spec. cbv zeta iota beta.
  eapply leads_trans; [|apply Hf; [exact Hn|simpl; lia|]];
    [split_and!; [simpl; lia| |eapply (keeps_owners_grown _ _ []); simpl; [by rewrite app_nil_r|done]]|].
  all: destruct HI; constructor; simpl; try done.
  all: try (intros r (u & Hu & ?)%inv_owner0; exists u; split; [apply elem_of_app; by left|done]).
  all: try (apply (keyed_snoc _ _ _ _ _ inv_customer_ids0); simpl; lia).
  all: try (eapply keyed_mono; [|done]; simpl; lia).
  all: try (intros u [Hu| ->%list_elem_of_singleton]%elem_of_app; [auto|by left]).
  all: intros a p v Ha Hp Hv E; enough (v < w_next_uuid w)%N by lia; by eapply inv_dedup0.
Qed.

Lemma identity_type_value_of t : identity_type_of (identity_type_value t) = Some t.
Proof. by destruct t. Qed.

Lemma fresh_identity_reads org id customer t v source primary now :
  let record := mkIdentity id org customer (identity_type_value t) v "UNVERIFIED" primary source "ACTIVE" now now in
  to_identity record = Ok record.
Proof. by destruct t. Qed.

Lemma is_canonical_key org t v r :
  is_canonical org t v r = true ↔ canonical_key r = (org, identity_type_value t, v).
Proof.
  unfold is_canonical, canonical_key. rewrite !andb_true_iff, N.eqb_eq, !String.eqb_eq. split; [by intros [[-> ->] ->]|by intros [= -> -> ->]].
Qed.

(** What [insert_identity] does: one of three outcomes. *)
Lemma insert_identity_spec org id customer t v source primary w :
  let record now := mkIdentity id org customer (identity_type_value t) v "UNVERIFIED" primary source "ACTIVE" now now in
  let w1 := set_w_reads (S (w_reads w)) w in
  let now := w_clock w (w_reads w) in
  insert_identity org id customer t v source primary w =
    if existsb (is_canonical org t v) (cdb_identities (customers_in w))
    then (Err (customer_error IdentityConflictError), w1)
    else if negb (existsb (owned_customer org customer) (cdb_customers (customers_in w)))
    then (Err IntegrityError, w1)
    else (Ok (record now),
          set_w_db (set_db_customer (set_cdb_identities (cdb_identities (customers_in w) ++ [record now])
            (customers_in w)) (w_db w)) w1).
Proof.
  cbv zeta. unfold insert_identity, utcnow, pgets, gets, mbind, M_bind. cbn -[existsb to_identity].
  destruct (existsb (is_canonical _ _ _) _); [done|]. destruct (negb _); [done|].
  cbn -[to_identity]. unfold lift. by rewrite fresh_identity_reads.
Qed.

Lemma tame_new_identity {A} n org customer t v source primary (f : uuid → CustomerIdentityRecord → M A) :
  (∀ id r, (n ≤ id)%N → ci_id r = id → tame (N.succ id) (f id r)) →
  tame n (fresh_uuid ≫= λ id, insert_identity org id customer t v source primary ≫= f id).
Proof.
  intros Hf w Hn HI. unfold fresh_uuid, mbind, M_bind. cbv beta iota. rewrite insert_identity_spec. cbv zeta. cbn [w_db set_w_next_uuid].
  destruct (existsb (is_canonical _ _ _) _) eqn:Hc; [apply leads_same; simpl; [done|lia|done]|].
  destruct (existsb (owned_customer _ _) _) eqn:Ho; [|apply leads_same; simpl; [done|lia|done]]. cbn [negb].
  rewrite existsb_none in Hc. apply existsb_elem in Ho as (u & Hu & Hou).
  eapply leads_trans; [|apply Hf; [exact Hn|done|simpl; lia|]];
    [split_and!; [simpl; lia| |eapply (keeps_owners_grown _ _ _ []); simpl; [done|by rewrite app_nil_r]]|]; simpl.
  all: destruct HI; constructor; simpl; try done.
  all: try (apply NoDup_map_snoc; [done|]; intros r Hr E; apply Hc in Hr; apply not_true_iff_false in Hr;
    by apply Hr, is_canonical_key).
  all: try (apply (keyed_snoc _ _ _ _ _ inv_identity_ids0); simpl; lia).
  all: try (eapply keyed_mono; [|done]; simpl; lia).
  all: try (intros r [Hr| ->%list_elem_of_singleton]%elem_of_app; [by auto|]; first [by exists u|left; apply fresh_identity_reads|by destruct t]).
  all: intros a p v' Ha Hp Hv E; enough (v' < w_next_uuid w)%N by lia; by eapply inv_dedup0.
Qed.

(** A dedup key that names no UUID from [n] on. *)
Definition issued_key (n : uuid) (k : option string) : Prop :=
  ∀ p v, creation_prefix p → (v < 2 ^ 128)%N → k = Some (p +:+ uuid_str v) → (v < n)%N.

Lemma issued_own n p u : creation_prefix p → (u < n)%N → issued_key n (Some (p +:+ uuid_str u)).
Proof.
  intros Hp Hu p' v Hp' Hv E. enough (uuid_str u = uuid_str v) as Euv.
  - destruct (decide (u < 2 ^ 128)%N); [|lia]. by apply uuid_str_inj in Euv as <-.
  - revert E. generalize (uuid_str u) (uuid_str v). clear -Hp Hp'. intros s t [= E].
    by destruct Hp as [-> | ->], Hp' as [-> | ->]; injection E.
Qed.

(** The keys of conversations start otherwise. *)
Lemma issued_other n s t : issued_key n (Some ("conversation" +:+ s +:+ t)).
Proof. intros p v Hp _. generalize (uuid_str v). intros r E. by destruct Hp as [-> | ->]. Qed.

Lemma tame_append n org customer conversation ty k data :
  issued_key n k → tame n (append_activity org customer conversation ty k data).
Proof.
  intros Hk. unfold append_activity. apply tame_bind; [by intros w _ HI; apply leads_same; simpl; [|lia|]|].
  intros id. repeat (apply tame_bind; intros; [by eauto with tame nocore|]).
  tameness; try done. apply tame_modify. intros c' m Hm []. split; [|by apply (keeps_owners_grown _ _ [] []); rewrite app_nil_r].
  constructor; simpl; try done. intros b p v [Hb| ->%list_elem_of_singleton]%elem_of_app Hp Hv E; [by eapply inv_dedup0|].
  enough (v < n)%N by lia. by eapply Hk.
Qed.

Lemma revoked_unreadable x : ci_status x = "REVOKED" → to_identity x = Err ValueError.
Proof. intros E. unfold to_identity. rewrite E. by destruct (identity_type_of (ci_identity_type x)), (verification_of (ci_verification_state x)). Qed.

Lemma suspended_unreadable u : cu_status u = "SUSPENDED" → to_customer u = Err ValueError.
Proof. intros E. unfold to_customer. by rewrite E. Qed.

Lemma in_update_where {A} p (g : A → A) l x : x ∈ update_where p g l ↔ ∃ y, y ∈ l ∧ x = if p y then g y else y.
Proof. unfold update_where. rewrite list_elem_of_fmap. naive_solver. Qed.

(** An UPDATE by id changes the row that was found and no other. *)
Lemma identity_ident n l org id x y :
  keyed ci_id n l → x ∈ l → y ∈ l → owned_identity org id x = true → owned_identity org id y = true → y = x.
Proof.
  intros Hk Hx Hy [_ Ex%N.eqb_eq]%andb_true_iff [_ Ey%N.eqb_eq]%andb_true_iff. eapply (keyed_inj ci_id); [done..|congruence].
Qed.

Lemma customer_ident n l org id x y :
  keyed cu_id n l → x ∈ l → y ∈ l → owned_customer org id x = true → owned_customer org id y = true → y = x.
Proof.
  intros Hk Hx Hy [_ Ex%N.eqb_eq]%andb_true_iff [_ Ey%N.eqb_eq]%andb_true_iff. eapply (keyed_inj cu_id); [done..|congruence].
Qed.

(** The columns a change of the verification state writes. *)
Definition verified_row (state : IdentityVerificationState) (now : Z) (r : CustomerIdentityRecord) : CustomerIdentityRecord :=
  set_ci_updated_at now (set_ci_status
    (identity_status_value match state with IdentityVerificationState.REVOKED => IdentityStatus.REVOKED | _ => IdentityStatus.ACTIVE end)
    (set_ci_verification_state (verification_value state) r)).

Lemma write_verification_spec org id state w :
  write_verification org id state w =
    (Ok tt, set_w_db (set_db_customer (set_cdb_identities (update_where (owned_identity org id)
       (verified_row state (w_clock w (w_reads w))) (cdb_identities (customers_in w))) (customers_in w)) (w_db w))
       (set_w_reads (S (w_reads w)) w)).
Proof. reflexivity. Qed.

(** Whatever was read: the invariant and the owners. *)
Lemma write_verification_safe org id state w :
  CustomerInv (customers_in w) (w_next_uuid w) →
  let w' := snd (write_verification org id state w) in
  CustomerInv (customers_in w') (w_next_uuid w') ∧ same_owners (customers_in w) (customers_in w').
Proof.
  intros HI. rewrite write_verification_spec. cbv zeta. cbn [snd w_db set_w_db w_next_uuid set_w_reads db_customer set_db_customer].
  set (g := verified_row state _).
  assert (∀ r, let r' := if owned_identity org id r then g r else r in
    canonical_key r' = canonical_key r ∧ ci_id r' = ci_id r ∧ ci_customer_id r' = ci_customer_id r) as Hg.
  { intros r. by destruct (owned_identity org id r). }
  split.
  - destruct HI; constructor; simpl; try done.
    + unfold update_where. rewrite map_map. erewrite map_ext; [done|]. intros r. apply Hg.
    + intros r (r0 & Hr0 & ->)%in_update_where. destruct (inv_owner0 r0 Hr0) as (u & Hu & E). exists u. split; [done|].
      by destruct (owned_identity _ _ r0).
    + unfold keyed, update_where. rewrite map_map. split.
      * erewrite map_ext; [apply inv_identity_ids0|]. intros r. apply Hg.
      * intros r (r0 & Hr0 & ->)%in_update_where. destruct (Hg r0) as (_ & -> & _). by apply inv_identity_ids0.
    + intros r (r0 & Hr0 & ->)%in_update_where. destruct (owned_identity org id r0); [|auto].
      pose proof (inv_type0 r0 Hr0) as Ht. unfold to_identity, g. cbn -[identity_type_of verification_of].
      destruct (identity_type_of _); [|done].
      destruct state; first [by left|by right].
    + intros r (r0 & Hr0 & ->)%in_update_where. destruct (owned_identity org id r0); by apply (inv_type0 r0).
  - intros r Hr. exists (if owned_identity org id r then g r else r). split; [apply in_update_where; eauto|].
    destruct (Hg r) as (? & _ & ?). done.
Qed.

(** Of an identity that could be read: nothing revoked changes either. *)
Lemma write_verification_leads org id state x w :
  CustomerInv (customers_in w) (w_next_uuid w) → x ∈ cdb_identities (customers_in w) →
  owned_identity org id x = true → to_identity x = Ok x → leads w (snd (write_verification org id state w)).
Proof.
  intros HI Hx Hox Hread. destruct (write_verification_safe org id state w HI) as [HI' _]. rewrite write_verification_spec in HI' |- *.
  split; [simpl; lia|]. split; [exact HI'|]. split; simpl; [|by intros u Hu; exists u].
  intros r Hr. eexists. split; [apply in_update_where; by exists r|]. destruct (owned_identity org id r) eqn:Hor; [|done].
  rewrite (identity_ident _ _ _ _ _ _ (inv_identity_ids _ _ HI) Hx Hr Hox Hor).
  split_and!; try done. intros E%revoked_unreadable. congruence.
Qed.

(** An assignment to a profile that was found. *)
Lemma profile_leads org id row row' w :
  CustomerInv (customers_in w) (w_next_uuid w) → row ∈ cdb_customers (customers_in w) → owned_customer org id row = true →
  customer_kept row row' → cu_status row' = cu_status row ∨ cu_status row' = "SUSPENDED" →
  leads w (snd (pmodify (λ c, set_cdb_customers (update_where (owned_customer org id) (λ _, row') (cdb_customers c)) c) w)).
Proof.
  intros HI Hrow Hown (Ko & Ki & Ks) Hst. split; [simpl; lia|]. simpl.
  assert (∀ u, u ∈ cdb_customers (customers_in w) → customer_kept u (if owned_customer org id u then row' else u)) as Hg.
  { intros u Hu. destruct (owned_customer org id u) eqn:Hou; [|done].
    by rewrite (customer_ident _ _ _ _ _ _ (inv_customer_ids _ _ HI) Hrow Hu Hown Hou). }
  split.
  - destruct HI; constructor; simpl; try done.
    + intros r Hr. destruct (inv_owner0 r Hr) as (u & Hu & E). exists (if owned_customer org id u then row' else u).
      split; [apply in_update_where; eauto|]. destruct (Hg u Hu) as (Eo & Ei & _). revert Eo Ei E.
      generalize (if owned_customer org id u then row' else u). intros u' Eo Ei. unfold owned_customer. by rewrite Eo, Ei.
    + unfold keyed, update_where. rewrite map_map. split.
      * erewrite map_ext_in; [apply inv_customer_ids0|]. intros u Hu%list_elem_of_In. by apply Hg.
      * intros u (u0 & Hu0 & ->)%in_update_where. destruct (Hg u0 Hu0) as (_ & -> & _). by apply inv_customer_ids0.
    + intros u (u0 & Hu0 & ->)%in_update_where. destruct (owned_customer org id u0); [|auto].
      destruct Hst as [E|E]; [|by right]. destruct (inv_customer0 row Hrow) as [Hr|Hr]; [left|right; congruence].
      revert Hr. unfold to_customer. rewrite E. destruct (identity_status_of _) as [s|]; [|done].
      by destruct (customer_status_of _).
  - split; simpl; [by intros r Hr; exists r|]. intros u Hu. exists (if owned_customer org id u then row' else u).
    split; [apply in_update_where; eauto|by apply Hg].
Qed.

Lemma tame_anonymize n org id version : tame n (anonymize_profile org id version).
Proof.
  intros w Hn HI. unfold anonymize_profile, mbind, M_bind, pgets, gets.
  destruct (List.find _ _) as [row|] eqn:Hrow; [|by apply leads_same].
  destruct (negb _); [by apply leads_same|]. apply find_elem in Hrow as [Hrow Hown].
  apply (profile_leads org id row); try done. by left.
Qed.

Lemma tame_restrict n org id version : tame n (restrict_profile org id version).
Proof.
  intros w Hn HI. unfold restrict_profile, mbind, M_bind, pgets, gets.
  destruct (List.find _ _) as [row|] eqn:Hrow; [|by apply leads_same].
  destruct (negb _); [by apply leads_same|]. apply find_elem in Hrow as [Hrow Hown].
  apply (profile_leads org id row); try done. by right.
Qed.

Lemma tame_insert_conversation n org id customer channel ns thread subject :
  tame n (insert_conversation org id customer channel ns thread subject).
Proof. tameness. Qed.
Lemma tame_write_transition n org conversation target : tame n (write_transition org conversation target).
Proof. tameness. Qed.
Lemma tame_insert_participant n org conversation ty ref : tame n (insert_participant org conversation ty ref).
Proof. tameness. Qed.
#[export] Hint Resolve tame_insert_conversation tame_write_transition tame_insert_participant tame_anonymize
  tame_restrict : tame.

(** ** The services *)

Lemma enqueue_runs ty agg id org payload w :
  ∃ w', enqueue_event ty agg id org payload w = (Ok tt, w') ∧ customers_in w' = customers_in w ∧
    (w_next_uuid w ≤ w_next_uuid w')%N.
Proof.
  unfold enqueue_event, fresh_uuid, utcnow, gets, modify_db, mbind, M_bind. eexists. split; [reflexivity|]. simpl. split; [done|lia].
Qed.

Section services.
Context `{UnicodeForms}.

Lemma tame_create_customer n org request v : tame n (create_customer org request v).
Proof.
  unfold create_customer. apply tame_new_customer. intros u customer _. apply tame_new_identity. intros i r Hi Hr.
  apply tame_bind; [apply tame_append, issued_own; [by left|lia]|]. intros _.
  apply tame_bind; [apply tame_append, issued_own; [by right|lia]|]. intros _. tameness.
Qed.

Lemma tame_create_link n org customer request v : tame n (create_link org customer request v).
Proof.
  unfold create_link. apply tame_new_identity. intros i r Hi Hr.
  apply tame_bind; [apply tame_append, issued_own; [by right|lia]|]. intros _. tameness.
Qed.
#[local] Hint Resolve tame_create_customer tame_create_link : tame.

Lemma tame_resolve_or_create n org request : tame n (resolve_or_create org request).
Proof. tameness. Qed.
Lemma tame_link_identity n org customer request : tame n (link_identity org customer request).
Proof. tameness. Qed.

Lemma tame_set_verification n org id state : tame n (set_verification_state org id state).
Proof.
  apply tame_txn. intros w Hn HI. unfold change_verification, identity_by_id, pgets, gets, mbind, M_bind. cbv beta iota.
  destruct (List.find _ _) as [x|] eqn:Hx; [|by apply leads_same]. apply find_elem in Hx as [Hx Hox].
  unfold read_optional, lift, mbind, M_bind.
  destruct (inv_identity _ _ HI x Hx) as [Hr|Hr%revoked_unreadable]; rewrite Hr; [|by apply leads_same].
  pose proof (write_verification_leads org id state x w HI Hx Hox Hr) as Hl.
  cbv [mret M_ret]. destruct (write_verification org id state w) as [[[]|] w1]; [|done].
  eapply leads_trans; [done|]. destruct Hl as (_ & HI1 & _). by apply (tame_enqueue 0); [lia|].
Qed.

Lemma tame_open_conversation n org request : tame n (open_conversation org request).
Proof.
  unfold open_conversation. apply tame_fresh. intros u _. apply tame_bind; [apply tame_insert_conversation|].
  intros conversation. apply tame_bind; [tameness|]. intros _.
  apply tame_bind; [apply tame_append, (issued_other _ ".opened:")|]. intros _. tameness.
Qed.
#[local] Hint Resolve tame_open_conversation : tame.

Lemma tame_open_or_resolve n org request : tame n (open_or_resolve org request).
Proof. tameness. Qed.

Lemma tame_transition_conversation n org conversation target s :
  tame n (transition_conversation org conversation target ("conversation" +:+ s)).
Proof.
  unfold transition_conversation. destruct (conversation_status_of _); [|apply tame_raise].
  destruct (negb _); [apply tame_raise|]. apply tame_bind; [apply tame_write_transition|].
  intros [updated|]; [|apply tame_raise]. apply tame_bind; [|intros; tameness].
  apply tame_append. intros p v Hp _. generalize (uuid_str v). intros r E. by destruct Hp as [-> | ->].
Qed.

Lemma tame_close n org id : tame n (close_conversation org id).
Proof.
  apply tame_txn, tame_bind; [tameness|]. intros c.
  destruct (bool_decide _); [apply tame_ret|apply (tame_transition_conversation _ _ _ _ "s.closed")].
Qed.
Lemma tame_reopen n org id : tame n (reopen_conversation org id).
Proof.
  apply tame_txn, tame_bind; [tameness|]. intros c. apply (tame_transition_conversation _ _ _ _ "s.opened").
Qed.

(** One step of the system: an operation of the services with any arguments, a profile
    restriction or anonymisation of the compliance workflow, or activity elsewhere. The
    operations that read without a lock may also be at their write, with what they read
    long ago: [ct_create] to [ct_transition]. *)
Inductive customer_step (w : World) : World → Prop :=
| ct_resolve org request : customer_step w (snd (resolve_or_create org request w))
| ct_link org customer request : customer_step w (snd (link_identity org customer request w))
| ct_verify org id state : customer_step w (snd (set_verification_state org id state w))
| ct_open org request : customer_step w (snd (open_or_resolve org request w))
| ct_close org id : customer_step w (snd (close_conversation org id w))
| ct_reopen org id : customer_step w (snd (reopen_conversation org id w))
| ct_anonymize org id version : customer_step w (snd (tenant_transaction (anonymize_profile org id version) w))
| ct_restrict org id version : customer_step w (snd (tenant_transaction (restrict_profile org id version) w))
| ct_create org request v : customer_step w (snd (tenant_transaction (create_customer org request v) w))
| ct_create_link org customer request v : customer_step w (snd (tenant_transaction (create_link org customer request v) w))
| ct_open_new org request : customer_step w (snd (tenant_transaction (open_conversation org request) w))
| ct_transition org conversation (close : bool) :
    customer_step w (snd (tenant_transaction (transition_conversation org conversation
      (if close then ConversationStatus.CLOSED else ConversationStatus.OPEN)
      (if close then "conversations.closed" else "conversations.opened")) w))
| ct_elsewhere w' :
    customers_in w' = customers_in w → (w_next_uuid w ≤ w_next_uuid w')%N → customer_step w w'.

(** Any step: also a change of a verification state that read the identity long ago. *)
Inductive any_customer_step (w : World) : World → Prop :=
| ay_orderly w' : customer_step w w' → any_customer_step w w'
| ay_verify org id state seen :
    any_customer_step w (snd (tenant_transaction (change_verification org id state (Some seen)) w)).

Definition customer_reachable (w : World) : Prop :=
  ∃ w0, customers_in w0 = mkCustomerDB [] [] [] [] [] ∧ rtc any_customer_step w0 w.

Lemma customer_step_leads w w' :
  customer_step w w' → CustomerInv (customers_in w) (w_next_uuid w) → leads w w'.
Proof.
  intros [] HI; try by apply leads_same.
  - by eapply tame_resolve_or_create.
  - by eapply tame_link_identity.
  - by eapply tame_set_verification.
  - by eapply tame_open_or_resolve.
  - by eapply tame_close.
  - by eapply tame_reopen.
  - by eapply tame_txn, HI; [apply tame_anonymize|].
  - by eapply tame_txn, HI; [apply tame_restrict|].
  - by eapply tame_txn, HI; [apply tame_create_customer|].
  - by eapply tame_txn, HI; [apply tame_create_link|].
  - by eapply tame_txn, HI; [apply tame_open_conversation|].
  - eapply tame_txn, HI; [|by apply N.le_0_l].
    destruct close; [apply (tame_transition_conversation _ _ _ _ "s.closed")|apply (tame_transition_conversation _ _ _ _ "s.opened")].
Qed.

(** What every step keeps. *)
Definition holds_on (w w' : World) : Prop :=
  CustomerInv (customers_in w') (w_next_uuid w') ∧ same_owners (customers_in w) (customers_in w').

Lemma any_step_safe w w' : any_customer_step w w' → CustomerInv (customers_in w) (w_next_uuid w) → holds_on w w'.
Proof.
  intros [w1 Hs|org id state seen] HI.
  - apply customer_step_leads in Hs as (_ & ? & ?); [|done]. split; [done|by apply keeps_same_owners].
  - unfold tenant_transaction. set (w0 := set_w_txn_now _ _). unfold change_verification, mbind, M_bind.
    destruct (write_verification_safe org id state w0 HI) as [HI1 Hs1]. revert HI1 Hs1.
    rewrite write_verification_spec. set (w1 := set_w_db _ _). cbn [snd]. intros HI1 Hs1.
    unfold customer_event. edestruct enqueue_runs as (w2 & -> & C2 & N2). unfold holds_on. cbn [snd]. rewrite C2.
    split; [|done]. by eapply CustomerInv_mono.
Qed.

Lemma customer_reachable_inv w : customer_reachable w → CustomerInv (customers_in w) (w_next_uuid w).
Proof.
  intros (w0 & H0 & Hs). assert (CustomerInv (customers_in w0) (w_next_uuid w0)) as HI.
  { rewrite H0. constructor; simpl; first [apply NoDup_nil_2|by intros; set_solver|split; [apply NoDup_nil_2|by intros; set_solver]]. }
  clear H0. induction Hs as [|w1 w2 w3 Hs _ IH]; [done|]. apply IH. by apply any_step_safe in Hs as [? _].
Qed.
End services.

(** ** What a caller of [resolve_or_create] meets *)

(** The canonical identity is owned by the customer [id]. *)
Definition owned_by (org : uuid) (t : IdentityType) (v : string) (id : uuid) (c : CustomerDB) : Prop :=
  ∃ r, r ∈ cdb_identities c ∧ canonical_key r = (org, identity_type_value t, v) ∧ ci_customer_id r = id.

Lemma owned_by_unique org t v i j c n :
  CustomerInv c n → owned_by org t v i c → owned_by org t v j c → i = j.
Proof.
  intros [] (r & Hr & Er & <-) (s & Hs & Es & <-).
  enough (r = s) as -> by done. eapply (NoDup_map_inj canonical_key); [done..|congruence].
Qed.

Lemma owned_by_kept org t v i c c' : same_owners c c' → owned_by org t v i c → owned_by org t v i c'.
Proof. intros Hk (r & (r' & ? & ? & ?)%Hk & ? & ?). exists r'. split_and!; [done|congruence..]. Qed.

(** The identity is revoked, or its owner is suspended: it cannot be read. *)
Definition barred (org : uuid) (t : IdentityType) (v : string) (c : CustomerDB) : Prop :=
  ∃ r, r ∈ cdb_identities c ∧ canonical_key r = (org, identity_type_value t, v) ∧
    (ci_status r = "REVOKED" ∨
     ∃ u, u ∈ cdb_customers c ∧ owned_customer org (ci_customer_id r) u = true ∧ cu_status u = "SUSPENDED").

Lemma find_canonical org t v c :
  match List.find (is_canonical org t v) (cdb_identities c) with
  | Some r => r ∈ cdb_identities c ∧ canonical_key r = (org, identity_type_value t, v)
  | None => (∀ id, ¬ owned_by org t v id c) ∧ existsb (is_canonical org t v) (cdb_identities c) = false
  end.
Proof.
  destruct (List.find _ _) as [r|] eqn:Hf.
  - apply find_elem in Hf as [? ?%is_canonical_key]. done.
  - split.
    + intros id (r & Hr & E & _). apply is_canonical_key in E. by rewrite (find_none_elem _ _ _ Hf Hr) in E.
    + apply existsb_none. intros r Hr. by eapply find_none_elem.
Qed.

Section outcomes.
Context (org : uuid) (t : IdentityType) (v : string).

(** Reading the owner of a stored identity. *)
Lemma load_owner_spec r w :
  CustomerInv (customers_in w) (w_next_uuid w) → r ∈ cdb_identities (customers_in w) →
  canonical_key r = (org, identity_type_value t, v) →
  (∃ u, load_owner org (ci_customer_id r) w = (Ok u, w) ∧ cu_organization_id u = org ∧
     owned_by org t v (cu_id u) (customers_in w)) ∨
  (load_owner org (ci_customer_id r) w = (Err ValueError, w) ∧ barred org t v (customers_in w)).
Proof.
  intros HI Hr Ek. destruct (inv_owner _ _ HI r Hr) as (u & Hu & E).
  assert (ci_organization_id r = org) as Eo by (by injection Ek). rewrite Eo in E.
  unfold load_owner, customer_by_id, pgets, gets, mbind, M_bind.
  destruct (List.find _ _) as [x|] eqn:Hf; [|by rewrite (find_none_elem _ _ _ Hf Hu) in E].
  apply find_elem in Hf as [Hx Ex]. pose proof Ex as [?%N.eqb_eq ?%N.eqb_eq]%andb_true_iff.
  unfold read_optional, mbind, M_bind, lift. destruct (inv_customer _ _ HI x Hx) as [Hread|Hs].
  - left. exists x. rewrite Hread. split_and!; try done. exists r. split_and!; congruence.
  - right. rewrite (suspended_unreadable x Hs). split; [done|]. exists r. split_and!; try done. right. by exists x.
Qed.

Lemma resolve_identity_spec w :
  CustomerInv (customers_in w) (w_next_uuid w) →
  match List.find (is_canonical org t v) (cdb_identities (customers_in w)) with
  | None => resolve_identity org t v w = (Ok None, w)
  | Some r => resolve_identity org t v w = (Ok (Some r), w) ∨
      (resolve_identity org t v w = (Err ValueError, w) ∧ barred org t v (customers_in w))
  end.
Proof.
  intros HI. pose proof (find_canonical org t v (customers_in w)) as Hc. unfold resolve_identity, pgets, gets, mbind, M_bind.
  destruct (List.find _ _) as [r|]; [|done]. destruct Hc as [Hr Ek].
  unfold read_optional, mbind, M_bind, lift. destruct (inv_identity _ _ HI r Hr) as [Hread|Hs]; [left; by rewrite Hread|right].
  rewrite (revoked_unreadable r Hs). split; [done|]. exists r. split_and!; try done. by left.
Qed.

(** The owner, if there is one, and nothing else; a [ValueError] if the identity is barred. *)
Lemma find_owner_spec w :
  CustomerInv (customers_in w) (w_next_uuid w) →
  ∃ o, find_owner org t v w = (o, w) ∧
    match o with
    | Ok (Some u) => cu_organization_id u = org ∧ owned_by org t v (cu_id u) (customers_in w)
    | Ok None => ∀ id, ¬ owned_by org t v id (customers_in w)
    | Err e => e = ValueError ∧ barred org t v (customers_in w)
    end.
Proof.
  intros HI. unfold find_owner, mbind, M_bind. pose proof (resolve_identity_spec w HI) as Hres.
  pose proof (find_canonical org t v (customers_in w)) as Hf. destruct (List.find _ _) as [r|].
  - destruct Hf as [Hr E]. destruct Hres as [-> |[-> Hb]]; [|by eexists].
    destruct (load_owner_spec r w HI Hr E) as [(u & -> & Hu)|[-> Hb]]; by eexists.
  - rewrite Hres. exists (Ok None). split; [done|apply Hf].
Qed.

(** A fresh dedup key appends a row. *)
Lemma append_spec customer ty k data w :
  (∀ a, a ∈ cdb_activities (customers_in w) → av_dedup_key a ≠ Some k) →
  existsb (owned_customer org customer) (cdb_customers (customers_in w)) = true →
  ∃ a w', append_activity org (Some customer) None ty (Some k) data w = (Ok tt, w') ∧ av_dedup_key a = Some k ∧
    customers_in w' = set_cdb_activities (cdb_activities (customers_in w) ++ [a]) (customers_in w) ∧
    w_next_uuid w' = N.succ (w_next_uuid w).
Proof.
  intros Hk Hc. unfold append_activity, fresh_uuid, utcnow, txn_now, pgets, gets, mbind, M_bind.
  cbn -[existsb]. rewrite Hc. destruct (existsb _ (cdb_activities _)) eqn:He.
  - apply existsb_elem in He as (a & Ha & [_ E%bool_decide_eq_true]%andb_true_iff). by destruct (Hk a Ha).
  - do 2 eexists. split; [reflexivity|]. split; [|split; [reflexivity|done]]. done.
Qed.

Lemma create_conflict request id w :
  nc_identity_type request = t → owned_by org t v id (customers_in w) →
  ∃ w', create_customer org request v w = (Err (customer_error IdentityConflictError), w').
Proof.
  intros <- Ho. assert (existsb (is_canonical org (nc_identity_type request) v) (cdb_identities (customers_in w)) = true) as He.
  { apply existsb_elem. destruct Ho as (r & ? & ? & _). exists r. by rewrite is_canonical_key. }
  eexists. unfold create_customer, fresh_uuid, insert_customer, utcnow, mbind, M_bind. cbn -[insert_identity].
  rewrite insert_identity_spec. cbv zeta. cbn -[existsb]. by rewrite He.
Qed.
End outcomes.

(** A creation issues the two identifiers in any case. *)
Lemma create_issues org request v w :
  (w_next_uuid w + 2 ≤ w_next_uuid (create_customer org request v w).2)%N.
Proof.
  unfold create_customer, fresh_uuid. unfold mbind at 1, M_bind at 1. cbv beta iota.
  unfold mbind at 1, M_bind at 1. rewrite insert_customer_spec. cbv zeta iota beta.
  unfold mbind at 1, M_bind at 1. cbv beta iota.
  set (m := insert_identity _ _ _ _ _ _ _ ≫= _). assert (Monotone m) as Hm.
  { subst m. unfold insert_identity, append_activity, customer_event, pgets, pmodify. monotonicity. }
  etrans; [|apply Hm]. simpl. lia.
Qed.

(** With no owner, and UUIDs left, the creation returns. *)
Lemma create_succeeds org request v w :
  CustomerInv (customers_in w) (w_next_uuid w) → (w_next_uuid w + 2 ≤ 2 ^ 128)%N →
  (∀ id, ¬ owned_by org (nc_identity_type request) v id (customers_in w)) →
  ∃ u w', create_customer org request v w = (Ok u, w') ∧ cu_organization_id u = org ∧
    owned_by org (nc_identity_type request) v (cu_id u) (customers_in w').
Proof.
  intros HI Hn Hno.
  pose proof (find_canonical org (nc_identity_type request) v (customers_in w)) as Hf.
  destruct (List.find _ _) as [r|]; [destruct Hf as [Hr E]; by edestruct Hno; exists r|].
  destruct Hf as [_ He]. set (u := w_next_uuid w) in *.
  enough (runs (create_customer org request v) w (λ c w', cu_organization_id c = org ∧
    owned_by org (nc_identity_type request) v (cu_id c) (customers_in w'))) as (c & w' & ? & ?) by eauto.
  unfold create_customer. apply runs_bind. eexists _, _. split; [reflexivity|]. fold u.
  apply runs_bind. eexists _, _. split; [apply insert_customer_spec|]. cbv zeta.
  apply runs_bind. eexists _, _. split; [reflexivity|]. cbn [w_next_uuid set_w_next_uuid].
  apply runs_bind. unfold runs at 1. rewrite insert_identity_spec. cbv zeta.
  set (c := mkCustomer _ _ _ _ _ _ _ _). set (w1 := set_w_next_uuid _ _).
  assert (existsb (owned_customer org u) (cdb_customers (customers_in w1)) = true) as Ho.
  { apply existsb_elem. exists c. split; [simpl; set_solver|]. unfold owned_customer. simpl. by rewrite !N.eqb_refl. }
  change (cdb_identities (customers_in w1)) with (cdb_identities (customers_in w)). rewrite He, Ho. cbn [negb].
  eexists _, _. split; [reflexivity|]. set (i := mkIdentity _ _ _ _ _ _ _ _ _ _ _). set (w2 := set_w_db _ _).
  assert (∀ p x, creation_prefix p → (u ≤ x < 2 ^ 128)%N → ∀ a, a ∈ cdb_activities (customers_in w2) →
    av_dedup_key a ≠ Some (p +:+ uuid_str x)) as Hfresh.
  { intros p x Hp [Hx Hx'] a Ha E. apply (inv_dedup _ _ HI a p x) in E; [lia|done..]. }
  apply runs_bind. destruct (append_spec org u ActivityType.CUSTOMER_CREATED ("customer.created:" +:+ uuid_str u)
    [("display_name", JStr (cu_display_name c))] w2) as (a & w3 & Ha & Ka & C3 & N3); [|done|].
  { apply Hfresh; [by left|]. lia. }
  eexists _, _. split; [exact Ha|].
  apply runs_bind. destruct (append_spec org u ActivityType.IDENTITY_LINKED
    ("identity.linked:" +:+ uuid_str (ci_id i)) (linked_data i) w3) as (b & w4 & Hb & _ & C4 & _); [|by rewrite C3|].
  { rewrite C3. simpl. intros x [Hx| ->%list_elem_of_singleton]%elem_of_app.
    - apply Hfresh; [by right|simpl; fold u; lia|done].
    - rewrite Ka. generalize (uuid_str u) (uuid_str (ci_id i)). by intros. }
  eexists _, _. split; [exact Hb|].
  apply runs_bind. destruct (enqueue_runs "customers.created" "customer" u org [("customer_id", JStr (uuid_str u));
    ("initial_identity_id", JStr (uuid_str (ci_id i))); ("identity_type", JStr (ci_identity_type i))] w4) as (w5 & He5 & C5 & _).
  eexists _, _. split; [exact He5|]. apply runs_ret. split; [done|].
  exists i. split; [|done].
  rewrite C5, C4. simpl. rewrite C3. simpl. set_solver.
Qed.

(** ** Concurrent callers *)

(** Where a caller of [resolve_or_create] is: before its transaction, in it and having
    read that there is no owner, after it has lost the race, or done. *)
Inductive caller_stage : Type :=
| Start
| Missing
| Lost
| Done (r : result exn (CustomerRecord * bool)).

Section pool.
Context `{UnicodeForms} (org : uuid) (t : IdentityType) (v : string).

(** What a caller does next, and where that leaves it: the parts of [resolve_or_create]. *)
Definition caller_step (request : CreateCustomerRequest) (s : caller_stage) : World → caller_stage * World :=
  match s with
  | Start => λ w,
      match tenant_transaction (find_owner org t v) w with
      | (Ok None, w') => (Missing, w')
      | (Ok (Some owner), w') => (Done (Ok (owner, false)), w')
      | (Err e, w') => (Done (Err e), w')
      end
  | Missing => λ w,
      match tenant_transaction (create_customer org request v) w with
      | (Ok customer, w') => (Done (Ok (customer, true)), w')
      | (Err (customer_error IdentityConflictError), w') => (Lost, w')
      | (Err e, w') => (Done (Err e), w')
      end
  | Lost => λ w,
      match converge_on_identity_owner org t v w with
      | (Ok owner, w') => (Done (Ok (owner, false)), w')
      | (Err e, w') => (Done (Err e), w')
      end
  | Done r => λ w, (Done r, w)
  end.

Inductive pool_step : World * list (CreateCustomerRequest * caller_stage) →
    World * list (CreateCustomerRequest * caller_stage) → Prop :=
| pl_caller w callers i request s :
    callers !! i = Some (request, s) →
    pool_step (w, callers)
      ((caller_step request s w).2, <[i := (request, (caller_step request s w).1)]> callers)
| pl_system w w' callers : any_customer_step w w' → pool_step (w, callers) (w', callers).

(** The callers present one identity. *)
Definition presents (request : CreateCustomerRequest) : Prop :=
  nc_identity_type request = t ∧
  normalize_identity_value (nc_identity_type request) (nc_identity_value request) (nc_default_country request) = Ok v.

(** What the stage of a caller says about the tables; [hist]: the identity was barred at
    some time. *)
Definition stage_ok (hist : Prop) (c : CustomerDB) (s : caller_stage) : Prop :=
  match s with
  | Start | Missing => True
  | Lost => ∃ id, owned_by org t v id c
  | Done (Ok (u, _)) => cu_organization_id u = org ∧ owned_by org t v (cu_id u) c
  | Done (Err e) => e = ValueError ∧ hist
  end.

Definition creator (s : caller_stage) : bool := match s with Done (Ok (_, true)) => true | _ => false end.

Record PoolInv (hist : Prop) (w : World) (callers : list (CreateCustomerRequest * caller_stage)) : Prop := {
  pool_tables : CustomerInv (customers_in w) (w_next_uuid w);
  pool_requests : ∀ i q s, callers !! i = Some (q, s) → presents q ∧ stage_ok hist (customers_in w) s;
  pool_creator : ∀ i j q s q' s', callers !! i = Some (q, s) → callers !! j = Some (q', s') →
    creator s = true → creator s' = true → i = j;
}.

Lemma stage_ok_kept (hist hist' : Prop) c c' s :
  (hist → hist') → same_owners c c' → stage_ok hist c s → stage_ok hist' c' s.
Proof.
  intros Hh Hk. destruct s as [| | |[[u b]|e]]; simpl; try done.
  - intros [id ?]. exists id. by eapply owned_by_kept.
  - intros [? ?]. split; [done|]. by eapply owned_by_kept.
  - intros [? ?]. auto.
Qed.

(** The outcome of a caller's next transaction. *)
Lemma caller_step_ok (hist : Prop) request s w :
  (barred org t v (customers_in w) → hist) →
  CustomerInv (customers_in w) (w_next_uuid w) → presents request → stage_ok hist (customers_in w) s →
  (w_next_uuid (caller_step request s w).2 ≤ 2 ^ 128)%N →
  let '(s', w') := caller_step request s w in
  leads w w' ∧ stage_ok hist (customers_in w') s' ∧
  (creator s' = true → creator s = true ∨ ∀ id, ¬ owned_by org t v id (customers_in w)).
Proof.
  intros Hb HI [Ht _] Hs. destruct s as [| | |r]; cbn [caller_step].
  - intros _. unfold tenant_transaction. set (w0 := set_w_txn_now _ _).
    destruct (find_owner_spec org t v w0 HI) as (o & -> & Ho).
    destruct o as [[u|]|e]; (split; [by apply leads_same|naive_solver]).
  - pose proof (tame_txn 0 _ (tame_create_customer 0 org request v) w (N.le_0_l _) HI) as Hl.
    revert Hl. unfold tenant_transaction. set (w0 := set_w_txn_now _ _).
    pose proof (find_canonical org t v (customers_in w)) as Hf.
    destruct (List.find _ _) as [r|].
    + destruct Hf as [Hr E].
      assert (owned_by org t v (ci_customer_id r) (customers_in w)) as Hown by by exists r.
      destruct (create_conflict org t v request _ w0 Ht Hown) as (w1 & ->). simpl.
      intros Hl _. split; [done|]. split; [by eexists|done].
    + destruct Hf as [Hno _]. intros Hl Hn.
      destruct (create_succeeds org request v w0 HI) as (u & w1 & Hc & Hu & Ho); [|by rewrite Ht|].
      { pose proof (create_issues org request v w0) as Hi. revert Hn. unfold tenant_transaction. fold w0.
        destruct (create_customer org request v w0) as [[]?]; simpl in *;
          [|destruct e as [[]| | | | | | | | | | | ]; try destruct e]; simpl in *; lia. }
      rewrite Hc in Hl |- *. rewrite Ht in Ho. split; [done|]. split; [done|]. by right.
  - intros _. unfold converge_on_identity_owner, tenant_transaction. set (w0 := set_w_txn_now _ _).
    unfold mbind, M_bind. pose proof (resolve_identity_spec org t v w0 HI) as Hres.
    pose proof (find_canonical org t v (customers_in w0)) as Hf.
    destruct Hs as [id Hs]. destruct (List.find _ _) as [r|]; [|by destruct (proj1 Hf id)].
    destruct Hf as [Hr E]. destruct Hres as [-> |[-> Hbar]]; [|split; [by apply leads_same|naive_solver]].
    destruct (load_owner_spec org t v r w0 HI Hr E) as [(u & -> & Hu)|[-> Hbar]]; (split; [by apply leads_same|naive_solver]).
  - intros _. split; [by apply leads_same|]. split; [done|]. by left.
Qed.

Lemma pool_step_inv (hist hist' : Prop) w callers w' callers' :
  (hist → hist') → (barred org t v (customers_in w) → hist') →
  pool_step (w, callers) (w', callers') → (w_next_uuid w' ≤ 2 ^ 128)%N → PoolInv hist w callers → PoolInv hist' w' callers'.
Proof.
  intros Hh Hb Hs Hn [HI Hq Hc]. inversion Hs as [? ? i q s Hi|? ? ? Hstep]; simplify_eq.
  - destruct (Hq i q s Hi) as [Hp Hok]. assert (stage_ok hist' (customers_in w) s) as Hok1.
    { eapply stage_ok_kept; [exact Hh| |exact Hok]. by intros r Hr; exists r. }
    pose proof (caller_step_ok hist' q s w Hb HI Hp Hok1 Hn) as Hstep.
    destruct (caller_step q s w) as [s' w1]. destruct Hstep as ((_ & HI' & Hk%keeps_same_owners) & Hok' & Hcr). simpl.
    assert (∀ j q2 s2, <[i := (q, s')]> callers !! j = Some (q2, s2) →
      (j = i ∧ q2 = q ∧ s2 = s') ∨ (j ≠ i ∧ callers !! j = Some (q2, s2))) as Hlook.
    { intros j q2 s2. destruct (decide (j = i)) as [->|Hji].
      - rewrite list_lookup_insert_eq by (by eapply lookup_lt_Some). naive_solver.
      - rewrite list_lookup_insert_ne by done. naive_solver. }
    assert (∀ j q2 s2, callers !! j = Some (q2, s2) → creator s2 = true →
      ∃ id, owned_by org t v id (customers_in w)) as Hown.
    { intros j q2 [| | |[[u []]|]] Hj; try done. intros _. destruct (Hq j _ _ Hj) as [_ [_ ?]]. eauto. }
    constructor; [done| |].
    + intros j q2 s2 [(-> & -> & ->)|[_ Hj]]%Hlook; [done|]. destruct (Hq j q2 s2 Hj). split; [done|].
      by eapply (stage_ok_kept hist hist').
    + assert (∀ j q2 s2, j ≠ i → callers !! j = Some (q2, s2) → creator s2 = true → creator s' = true → False) as Hx.
      { intros j q2 s2 Hji Hj Hc2 [Hs1|Hno]%Hcr; [by apply Hji, (Hc j i q2 s2 q s)|].
        destruct (Hown j q2 s2 Hj Hc2) as [id ?]. by destruct (Hno id). }
      intros j k q2 s2 q3 s3 [(-> & -> & ->)|[Hji Hj]]%Hlook [(-> & -> & ->)|[Hki Hk']]%Hlook C1 C2; [done|..].
      * by destruct (Hx k q3 s3 Hki Hk' C2 C1).
      * by destruct (Hx j q2 s2 Hji Hj C1 C2).
      * by eapply Hc.
  - apply any_step_safe in Hstep as [HI' Hk]; [|done]. constructor; [done| |done].
    intros i q s Hi. destruct (Hq i q s Hi). split; [done|]. by eapply (stage_ok_kept hist hist').
Qed.

Lemma pool_step_mono w callers w' callers' :
  pool_step (w, callers) (w', callers') → (w_next_uuid w ≤ w_next_uuid w')%N.
Proof.
  assert (∀ A (m : M A), Monotone m → (w_next_uuid w ≤ w_next_uuid (m w).2)%N) as Hm by (intros A m Hm; apply Hm).
  inversion 1 as [? ? i q s Hi|? ? ? Hstep]; simplify_eq.
  - destruct s; cbn [caller_step]; [..|done].
    + assert (Monotone (tenant_transaction (find_owner org t v))) as Hf%Hm by mono.
      revert Hf. by destruct (tenant_transaction _ w) as [[[]|] ?].
    + assert (Monotone (tenant_transaction (create_customer org q v))) as Hf%Hm by mono.
      revert Hf. destruct (tenant_transaction _ w) as [[|e] ?]; [done|].
      by destruct e as [[]| | | | | | | | | | |]; try destruct e.
    + assert (Monotone (converge_on_identity_owner org t v)) as Hf%Hm by mono.
      revert Hf. by destruct (converge_on_identity_owner _ _ _ w) as [[]?].
  - destruct Hstep as [w1 []|]; try done; apply Hm; mono.
Qed.

Definition finished (s : caller_stage) : Prop := ∃ r, s = Done r.

Lemma finished_stays q s w : finished s → finished (caller_step q s w).1.
Proof. intros [r ->]. by exists r. Qed.

Lemma lost_finishes q w : finished (caller_step q Lost w).1.
Proof. cbn [caller_step]. destruct (converge_on_identity_owner _ _ _ w) as [[]?]; by eexists. Qed.

Lemma missing_advances q w : (caller_step q Missing w).1 = Lost ∨ finished (caller_step q Missing w).1.
Proof.
  cbn [caller_step]. destruct (tenant_transaction _ w) as [[|e] ?]; [right; by eexists|].
  destruct e as [[]| | | | | | | | | | |]; try destruct e; first [by left|right; by eexists].
Qed.

Lemma start_advances q w : (caller_step q Start w).1 = Missing ∨ finished (caller_step q Start w).1.
Proof. cbn [caller_step]. destruct (tenant_transaction _ w) as [[[]|] ?]; first [by left|right; by eexists]. Qed.

Lemma stage_done q s w1 w2 w3 : finished (caller_step q (caller_step q (caller_step q s w1).1 w2).1 w3).1.
Proof.
  destruct s as [| | |r].
  - destruct (start_advances q w1) as [->|?]; [|by do 2 apply finished_stays].
    destruct (missing_advances q w2) as [->|?]; [apply lost_finishes|by apply finished_stays].
  - destruct (missing_advances q w1) as [->|?]; [|by do 2 apply finished_stays].
    apply finished_stays, lost_finishes.
  - do 2 apply finished_stays. apply lost_finishes.
  - do 3 apply finished_stays. by exists r.
Qed.

(** Along an execution: was the identity barred between its start and its end? *)
Definition barred_meanwhile (st st' : World * list (CreateCustomerRequest * caller_stage)) : Prop :=
  ∃ st1, rtc pool_step st st1 ∧ rtc pool_step st1 st' ∧ barred org t v (customers_in st1.1).

Lemma pool_inv st st' :
  rtc pool_step st st' → (w_next_uuid st'.1 ≤ 2 ^ 128)%N → PoolInv False st.1 st.2 →
  PoolInv (barred_meanwhile st st') st'.1 st'.2.
Proof.
  intros Hr Hn HP. revert st' Hr Hn. refine (rtc_ind_r _ st _ _); [intros Hn|intros [w1 c1] [w2 c2] Hr1 Hs IH Hn].
  - destruct HP as [HI Hq Hc]. constructor; [done| |done]. intros i q s Hi. destruct (Hq i q s Hi). split; [done|].
    apply (stage_ok_kept False _ (customers_in st.1)); [by intros []| |done]. by intros r Hr; exists r.
  - simpl in *. apply (pool_step_inv (barred_meanwhile st (w1, c1)) _ w1 c1); [| |exact Hs|exact Hn|].
    + intros (st1 & A & B & C). exists st1. split_and!; [done| |done]. by eapply rtc_r.
    + intros Hb. exists (w1, c1). split_and!; [done|by apply rtc_once|done].
    + apply IH. apply pool_step_mono in Hs. simpl. lia.
Qed.

(** C13. Concurrent callers of [resolve_or_create] converge. In any state of the system,
    let any number of callers of one organization present values that normalize to one
    identity, and let their transactions interleave with each other and with every other
    operation of the customer and conversation services, revocations and profile
    restrictions included, some of which commit what they decided on reads of long ago. A
    caller that has finished has returned a customer of the organization, the one to whom
    the identity belongs, or has raised a [ValueError]; it raised only if, at some time
    since the callers started, the identity was revoked or its owner suspended. All callers
    that returned returned one customer; at most one of them created it; and every caller
    finishes after at most three of its transactions. *)
Theorem concurrent_callers_converge w0 callers0 w callers :
  customer_reachable w0 →
  Forall (λ x, presents x.1 ∧ x.2 = Start) callers0 →
  rtc pool_step (w0, callers0) (w, callers) →
  (w_next_uuid w ≤ 2 ^ 128)%N →
  (∀ i q r, callers !! i = Some (q, Done r) →
     (∃ u b, r = Ok (u, b) ∧ cu_organization_id u = org ∧ owned_by org t v (cu_id u) (customers_in w)) ∨
     (r = Err ValueError ∧ barred_meanwhile (w0, callers0) (w, callers))) ∧
  (∀ i j q q' u b u' b', callers !! i = Some (q, Done (Ok (u, b))) → callers !! j = Some (q', Done (Ok (u', b'))) →
     cu_id u = cu_id u' ∧ (b = true → b' = true → i = j)) ∧
  (∀ i q s w1 w2 w3, callers !! i = Some (q, s) →
     finished (caller_step q (caller_step q (caller_step q s w1).1 w2).1 w3).1).
Proof.
  intros Hw0 Hc0 Hr Hn.
  assert (PoolInv (barred_meanwhile (w0, callers0) (w, callers)) w callers) as [HI Hq Hc].
  { apply (pool_inv _ _ Hr Hn). constructor; simpl; [by apply customer_reachable_inv| |].
    - intros i q s Hi. eapply Forall_lookup_1 in Hc0 as [? Hst]; [|done]. simpl in Hst. by subst s.
    - intros i j q s q' s' Hi. eapply Forall_lookup_1 in Hc0 as [_ Hst]; [|exact Hi]. simpl in Hst. by subst s. }
  split; [|split].
  - intros i q r Hi. destruct (Hq i _ _ Hi) as [_ Hok]. destruct r as [[u b]|e]; [left; by exists u, b|right].
    destruct Hok as [-> Hb]. done.
  - intros i j q q' u b u' b' Hi Hj. destruct (Hq i _ _ Hi) as [_ [_ Ho]], (Hq j _ _ Hj) as [_ [_ Ho']].
    split; [by eapply owned_by_unique|]. intros -> ->. by eapply Hc.
  - intros i q s w1 w2 w3 _. apply (stage_done q).
Qed.
End pool.

(** ** Revocation *)

Lemma raising_txn {A} (m : M A) e w : (∀ w0, w_db w0 = w_db w → (m w0).1 = Err e) → (tenant_transaction m w).1 = Err e.
Proof.
  intros Hm. unfold tenant_transaction. set (w0 := set_w_txn_now _ _). specialize (Hm w0 eq_refl).
  destruct (m w0) as [[]?]; [done|]. simpl in *. congruence.
Qed.

(** The identity [r] is stored, with its key, and revoked. *)
Definition revoked_in (r : CustomerIdentityRecord) (c : CustomerDB) : Prop :=
  ∃ r', r' ∈ cdb_identities c ∧ canonical_key r' = canonical_key r ∧ ci_id r' = ci_id r ∧ ci_status r' = "REVOKED".

Lemma revoked_in_kept r c c' : keeps_owners c c' → revoked_in r c → revoked_in r c'.
Proof.
  intros [K _] (x & (y & Hy & Ek & _ & Ei & Es)%K & Ex & Ix & Sx). exists y. split_and!; [done|congruence..|auto].
Qed.

Lemma customer_steps_lead `{UnicodeForms} w w' :
  rtc customer_step w w' → CustomerInv (customers_in w) (w_next_uuid w) → leads w w'.
Proof.
  induction 1 as [w|w1 w2 w3 Hs _ IH]; intros HI; [by apply leads_same|].
  apply customer_step_leads in Hs as Hl; [|done]. eapply leads_trans; [done|]. apply IH. apply Hl.
Qed.

(** A revocation of an identity that can be read. *)
Lemma revocation_runs org r w :
  CustomerInv (customers_in w) (w_next_uuid w) → r ∈ cdb_identities (customers_in w) →
  ci_organization_id r = org → ci_status r ≠ "REVOKED" →
  runs (set_verification_state org (ci_id r) IdentityVerificationState.REVOKED) w (λ _ w', revoked_in r (customers_in w')).
Proof.
  intros HI Hr Eo Hs. assert (owned_identity org (ci_id r) r = true) as Ho by (unfold owned_identity; by rewrite Eo, !N.eqb_refl).
  set (w0 := set_w_txn_now (w_clock w (w_reads w)) (set_w_reads (S (w_reads w)) w)).
  assert (identity_by_id org (ci_id r) w0 = (Ok (Some r), w0)) as Hget.
  { unfold identity_by_id, pgets, gets, mbind, M_bind.
    destruct (List.find (owned_identity org (ci_id r)) (cdb_identities (customers_in w0))) as [x|] eqn:Hx;
      [|by rewrite (find_none_elem _ _ _ Hx Hr) in Ho]. apply find_elem in Hx as [Hx Hox].
    rewrite (identity_ident _ _ _ _ _ _ (inv_identity_ids _ _ HI) Hr Hx Ho Hox).
    unfold read_optional, mbind, M_bind, lift. by destruct (inv_identity _ _ HI r Hr) as [->|?]. }
  unfold runs, set_verification_state, tenant_transaction. fold w0. unfold mbind at 1, M_bind at 1. rewrite Hget.
  unfold change_verification, mbind, M_bind. rewrite write_verification_spec. unfold customer_event. edestruct enqueue_runs as (w2 & -> & C2 & _).
  eexists tt, w2. split; [done|]. rewrite C2. simpl. eexists. split; [apply in_update_where; exists r; by rewrite Ho|]. done.
Qed.

Section revocation.
Context `{UnicodeForms}.

(** What a revoked identity does to those who ask for it. *)
Lemma revoked_verification org r state w :
  CustomerInv (customers_in w) (w_next_uuid w) → revoked_in r (customers_in w) → ci_organization_id r = org →
  (set_verification_state org (ci_id r) state w).1 = Err ValueError.
Proof.
  intros HI (y & Hy & Ek & Ei & Es) Eo. apply raising_txn. intros w0 E.
  assert (owned_identity org (ci_id r) y = true) as Hoy.
  { unfold canonical_key in Ek. injection Ek as Ey _ _. unfold owned_identity. by rewrite Ey, Eo, Ei, !N.eqb_refl. }
  unfold identity_by_id, pgets, gets, mbind, M_bind. rewrite E.
  destruct (List.find _ _) as [x|] eqn:Hx; [|by rewrite (find_none_elem _ _ _ Hx Hy) in Hoy]. apply find_elem in Hx as [Hx Hox].
  rewrite (identity_ident _ _ _ _ _ _ (inv_identity_ids _ _ HI) Hy Hx Hoy Hox).
  unfold read_optional, mbind, M_bind, lift. by rewrite revoked_unreadable.
Qed.

Lemma revoked_resolution org r request w :
  CustomerInv (customers_in w) (w_next_uuid w) → revoked_in r (customers_in w) → ci_organization_id r = org →
  identity_type_value (nc_identity_type request) = ci_identity_type r →
  normalize_identity_value (nc_identity_type request) (nc_identity_value request) (nc_default_country request) =
    Ok (ci_normalized_value r) →
  (resolve_or_create org request w).1 = Err ValueError.
Proof.
  intros HI (y & Hy & Ek & Ei & Es) Eo Et Hnorm. unfold resolve_or_create, mbind at 1, M_bind at 1, lift. rewrite Hnorm.
  unfold try_with. destruct (tenant_transaction _ w) as [res w1] eqn:Htx.
  enough (res = Err ValueError) as -> by done. change res with (res, w1).1. rewrite <- Htx. clear Htx.
  assert (canonical_key y = (org, identity_type_value (nc_identity_type request), ci_normalized_value r)) as Ky.
  { rewrite Ek. unfold canonical_key. congruence. }
  apply raising_txn. intros w0 E. unfold find_owner, resolve_identity, pgets, gets, mbind, M_bind. rewrite E.
  destruct (List.find _ _) as [x|] eqn:Hx.
  - apply find_elem in Hx as [Hx Kx%is_canonical_key]. unfold read_optional, mbind, M_bind, lift.
    rewrite (NoDup_map_inj canonical_key _ x y (inv_canonical _ _ HI)) by (congruence || done). by rewrite revoked_unreadable.
  - pose proof (find_none_elem _ _ _ Hx Hy) as Hc. apply is_canonical_key in Ky. congruence.
Qed.

(** C40. Revoking an identity makes it unreadable for good. [_to_identity] reads the
    status column as a [CustomerStatus], which has no REVOKED. In any state of the
    system, the revocation of an identity that is not revoked yet succeeds, and from then
    on, whatever the services do, every [resolve_or_create] that presents the identity
    and every attempt to change its verification state raises a [ValueError], no error of
    the platform. (The one way out is a race: a change of the verification state that read
    the identity before the revocation and commits after it, see
    [late_verification_unrevokes].) *)
Theorem revoked_identity_unreadable org r w :
  customer_reachable w → r ∈ cdb_identities (customers_in w) → ci_organization_id r = org → ci_status r ≠ "REVOKED" →
  ∃ w1, set_verification_state org (ci_id r) IdentityVerificationState.REVOKED w = (Ok tt, w1) ∧
    ∀ w', rtc customer_step w1 w' →
      (∀ state, (set_verification_state org (ci_id r) state w').1 = Err ValueError) ∧
      (∀ request, identity_type_value (nc_identity_type request) = ci_identity_type r →
         normalize_identity_value (nc_identity_type request) (nc_identity_value request)
           (nc_default_country request) = Ok (ci_normalized_value r) →
         (resolve_or_create org request w').1 = Err ValueError).
Proof.
  intros HI%customer_reachable_inv Hr Eo Hs. destruct (revocation_runs org r w HI Hr Eo Hs) as ([] & w1 & Hrun & Hrev).
  exists w1. split; [done|]. intros w' Hsteps.
  assert (CustomerInv (customers_in w1) (w_next_uuid w1)) as HI1.
  { change w1 with (Ok tt : result exn unit, w1).2. rewrite <- Hrun. eapply (tame_set_verification 0); [lia|done]. }
  destruct (customer_steps_lead _ _ Hsteps HI1) as (_ & HI' & Hk). pose proof (revoked_in_kept _ _ _ Hk Hrev) as Hrev'.
  split; [intros state; by apply revoked_verification|intros request Et Hn; by eapply revoked_resolution].
Qed.
End revocation.

(** ** An example: two callers race for one address *)

Definition people_world : World :=
  mkWorld (λ n, Z.of_nat n) 0 0 1 None "nexus" None None
    (mkDB [] [] [] [] [] [] [] [] [] [] [] [] empty_campaign_db (mkCustomerDB [] [] [] [] [])
       (mkMessagingDB [] [] [] [])) [].

Definition signup (name address : string) : CreateCustomerRequest :=
  {| nc_display_name := name; nc_preferred_locale := None; nc_identity_type := IdentityType.EMAIL;
     nc_identity_value := address; nc_identity_source := "api"; nc_default_country := None |}.

Definition race_start : World * list (CreateCustomerRequest * caller_stage) :=
  (people_world, [(signup "Ann" "Ann@Example.com", Start); (signup "A." " ann@example.com ", Start)]).

(** The callers advance in the given order. *)
Fixpoint run_race (order : list nat) (st : World * list (CreateCustomerRequest * caller_stage))
    : World * list (CreateCustomerRequest * caller_stage) :=
  match order with
  | [] => st
  | i :: order =>
      match st.2 !! i with
      | None => st
      | Some (q, s) =>
          let '(s', w') := caller_step 7 IdentityType.EMAIL "ann@example.com" q s st.1 in
          run_race order (w', <[i := (q, s')]> st.2)
      end
  end.

Lemma run_race_steps order st :
  rtc (@pool_step plain_forms 7 IdentityType.EMAIL "ann@example.com") st (run_race order st).
Proof.
  revert st. induction order as [|i order IH]; intros [w callers]; simpl; [done|].
  destruct (callers !! i) as [[q s]|] eqn:Hi; [|done].
  destruct (caller_step _ _ _ q s w) as [s' w'] eqn:Hs. eapply rtc_l; [|apply IH].
  pose proof (@pl_caller plain_forms 7 IdentityType.EMAIL "ann@example.com" w callers i q s Hi) as Hp.
  by rewrite Hs in Hp.
Qed.

(** Both read that there is no owner; the first creates, the second loses and converges. *)
Definition race_order : list nat := [0; 1; 0; 1; 1]%nat.

Definition ann : CustomerRecord := mkCustomer 1 7 "Ann" "ACTIVE" None 1 3 3.

Lemma race_outcome :
  (run_race race_order race_start).2 =
    [(signup "Ann" "Ann@Example.com", Done (Ok (ann, true))); (signup "A." " ann@example.com ", Done (Ok (ann, false)))].
Proof. vm_compute. reflexivity. Qed.

Lemma people_reachable : @customer_reachable plain_forms people_world.
Proof. by exists people_world. Qed.

Lemma concurrent_callers_converge_witness :
  owned_by 7 IdentityType.EMAIL "ann@example.com" (cu_id ann) (customers_in (run_race race_order race_start).1).
Proof.
  destruct (run_race race_order race_start) as [w callers] eqn:E.
  destruct (@concurrent_callers_converge plain_forms 7 IdentityType.EMAIL "ann@example.com"
    race_start.1 race_start.2 w callers) as [H _].
  - exact people_reachable.
  - repeat constructor.
  - rewrite <- E. apply (run_race_steps race_order race_start).
  - change w with (w, callers).1. rewrite <- E. vm_compute. discriminate.
  - pose proof race_outcome as Ho. rewrite E in Ho. simpl in Ho. simpl.
    destruct (H 0%nat (signup "Ann" "Ann@Example.com") (Ok (ann, true))) as [(u & b & [= <- <-] & _ & Hown)|[[=] _]];
      [by rewrite Ho|]. exact Hown.
Defined.


(** The same customer, created with no race. *)
Definition signup_world : World := (@resolve_or_create plain_forms 7 (signup "Ann" "Ann@Example.com") people_world).2.

Lemma revoked_identity_unreadable_witness :
  ∃ w1, set_verification_state 7 2 IdentityVerificationState.REVOKED signup_world = (Ok tt, w1) ∧
    (@resolve_or_create plain_forms 7 (signup "Ann" "ann@example.com")
       (set_verification_state 7 2 IdentityVerificationState.VERIFIED w1).2).1 = Err ValueError.
Proof.
  destruct (@revoked_identity_unreadable plain_forms 7
    (mkIdentity 2 7 1 "EMAIL" "ann@example.com" "UNVERIFIED" true "api" "ACTIVE" 2 2) signup_world)
    as (w1 & Hrun & Hlater).
  - exists people_world. split; [done|]. apply rtc_once. apply ay_orderly, ct_resolve.
  - vm_compute. constructor.
  - reflexivity.
  - discriminate.
  - exists w1. split; [exact Hrun|].
    refine (proj2 (Hlater (set_verification_state 7 2 IdentityVerificationState.VERIFIED w1).2 _) _ _ _); [|reflexivity..].
    apply rtc_once. apply (@ct_verify plain_forms w1 7 2 IdentityVerificationState.VERIFIED).
Defined.

(** A verification that read the identity before a revocation commits after it: the
    identity is ACTIVE again, and the revocation is lost. *)
Definition signed_identity : CustomerIdentityRecord :=
  mkIdentity 2 7 1 "EMAIL" "ann@example.com" "UNVERIFIED" true "api" "ACTIVE" 2 2.

Definition revoked_signup : World := (set_verification_state 7 2 IdentityVerificationState.REVOKED signup_world).2.

Theorem late_verification_unrevokes :
  identity_by_id 7 2 signup_world = (Ok (Some signed_identity), signup_world) ∧
  map ci_status (cdb_identities (customers_in revoked_signup)) = ["REVOKED"] ∧
  let verify := tenant_transaction (change_verification 7 2 IdentityVerificationState.VERIFIED (Some signed_identity)) in
  @any_customer_step plain_forms revoked_signup (verify revoked_signup).2 ∧
  map ci_status (cdb_identities (customers_in (verify revoked_signup).2)) = ["ACTIVE"].
Proof. split; [by vm_compute|]. split; [by vm_compute|]. split; [apply ay_verify|by vm_compute]. Qed.
