(* ===== verification/Messages.v ===== *)
(** * Messages: delivery states, content and fingerprints

    [messaging/delivery.py], [messaging/content.py], [messaging/idempotency.py] and the
    event types of [messaging/events.py]. Text is a sequence of the characters up to
    U+00FF, among which no surrogates occur. *)

From S2P Require Import Prelude.
From S2P Require Import PyText.
From S2P Require Import Errors.
From S2P Require Import Lifecycles.
From S2P Require Import Conditions.
From S2P Require Import ScheduleSpec.
From S2P Require Import MessagingStore.
From S2P Require Import CustomerStore.
From S2P Require Import Normalization.
From S2P Require Import CampaignStore.
From S2P Require Import Store.
From S2P Require Import Tables.

Abbreviation messaging_error e := (Nxs (MessagingErr e)).

(** ** Stored values *)

Definition channel_name (c : MessageChannel) : string :=
  match c with MessageChannel.WHATSAPP => "WHATSAPP" | MessageChannel.EMAIL => "EMAIL" | MessageChannel.SMS => "SMS" end.

Definition direction_name (d : MessageDirection) : string :=
  match d with MessageDirection.INBOUND => "INBOUND" | MessageDirection.OUTBOUND => "OUTBOUND" end.

Definition content_type_name (c : MessageContentType) : string :=
  match c with
  | MessageContentType.TEXT => "TEXT" | MessageContentType.HTML => "HTML" | MessageContentType.MEDIA => "MEDIA"
  end.

(** ** The delivery state machine *)

Definition terminal_status (s : MessageStatus) : bool :=
  match s with MessageStatus.READ | MessageStatus.FAILED => true | _ => false end.

(** [_RANK] *)
Definition status_rank (s : MessageStatus) : Z :=
  match s with
  | MessageStatus.RECEIVED => 0 | MessageStatus.QUEUED => 1 | MessageStatus.SENDING => 2
  | MessageStatus.SENT => 3 | MessageStatus.DELIVERED => 4 | MessageStatus.READ | MessageStatus.FAILED => 5
  end.

Record TransitionOutcome : Type := mkOutcome {
  to_status : MessageStatus;
  to_advanced : bool;
  to_duplicate : bool;
}.

Definition can_transition (current target : MessageStatus) : bool :=
  if terminal_status current then bool_decide (current = target)
  else if bool_decide (target = MessageStatus.FAILED) then true
  else status_rank current <? status_rank target.

Definition apply_callback (current reported : MessageStatus) : TransitionOutcome :=
  if bool_decide (reported = current) then mkOutcome current false true
  else if terminal_status current then mkOutcome current false false
  else if bool_decide (reported = MessageStatus.FAILED) || (status_rank current <? status_rank reported)
  then mkOutcome reported true false
  else mkOutcome current false false.

Definition require_transition (current target : MessageStatus) : result exn unit :=
  if can_transition current target then Ok tt else Err (messaging_error MessagingStateConflictError).

(** [STATUS_EVENT_TYPE]: no entry for RECEIVED and SENDING. *)
Definition status_event_type (s : MessageStatus) : option string :=
  match s with
  | MessageStatus.QUEUED => Some "messaging.message.queued"
  | MessageStatus.SENT => Some "messaging.message.sent"
  | MessageStatus.DELIVERED => Some "messaging.message.delivered"
  | MessageStatus.READ => Some "messaging.message.read"
  | MessageStatus.FAILED => Some "messaging.message.failed"
  | MessageStatus.RECEIVED | MessageStatus.SENDING => None
  end.

(** A callback advances exactly along the legal transitions to another state. *)
Lemma apply_callback_spec current reported :
  let o := apply_callback current reported in
  to_advanced o = (negb (bool_decide (reported = current)) && can_transition current reported) ∧
  to_duplicate o = bool_decide (reported = current) ∧
  to_status o = (if to_advanced o then reported else current).
Proof. by destruct current, reported. Qed.

Lemma advance_rank current reported :
  to_advanced (apply_callback current reported) = true →
  terminal_status current = false ∧ (status_rank current ≤ status_rank reported) ∧ reported ≠ current.
Proof. destruct current, reported; try done; vm_compute; by split_and!. Qed.

(** ** Content *)

Definition MAX_TEXT_BYTES : Z := 64 * 1024.
Definition MAX_HTML_BYTES : Z := 512 * 1024.
Definition MAX_SMS_TEXT_CHARS : Z := 3200.

Definition code_point (c : ascii) : Z := Z.of_N (N_of_ascii c).

(** CR, LF and NUL. *)
Definition header_forbidden (c : ascii) : bool :=
  (code_point c =? 13) || (code_point c =? 10) || (code_point c =? 0).

(** [_BODY_CONTROL]: the control characters but tab, LF and CR. *)
Definition body_control (c : ascii) : bool :=
  ((code_point c <? 32) && negb ((code_point c =? 9) || (code_point c =? 10) || (code_point c =? 13))) ||
  (code_point c =? 127).

Section content.
Context `{UnicodeForms}.

Definition scrub_header_token (value : string) (max_length : nat) : string :=
  stake max_length (keep_chars (λ c, (32 <? code_point c) && negb (code_point c =? 127)) (nfc value)).

Definition sanitize_header_value (value : string) (max_length : Z) : result exn string :=
  let normalized := nfc value in
  if has_char header_forbidden normalized then Err (messaging_error MessagingPayloadInvalidError)
  else if max_length <? slen normalized then Err (messaging_error MessagingPayloadInvalidError)
  else Ok normalized.

Definition check_body_text (text : string) (max_bytes : Z) : result exn string :=
  let normalized := nfc text in
  if has_char body_control normalized then Err (messaging_error MessagingPayloadInvalidError)
  else if max_bytes <? utf8_length normalized then Err (messaging_error MessagingPayloadInvalidError)
  else Ok normalized.

Definition optional_text (check : string → result exn string) (text : option string) : result exn (option string) :=
  match text with
  | None => Ok None
  | Some t => match check t with Ok t => Ok (Some t) | Err e => Err e end
  end.

Definition normalize_content (channel : MessageChannel) (content : MessageContent) : result exn MessageContent :=
  match optional_text (λ t, check_body_text t MAX_TEXT_BYTES) (body_text content) with
  | Err e => Err e
  | Ok text =>
      let checked_html :=
        match body_html content with
        | None => Ok None
        | Some _ as html =>
            if negb (bool_decide (channel = MessageChannel.EMAIL)) then Err (messaging_error MessagingPayloadInvalidError)
            else optional_text (λ t, check_body_text t MAX_HTML_BYTES) html
        end in
      match checked_html with
      | Err e => Err e
      | Ok html =>
          if bool_decide (channel = MessageChannel.SMS) &&
             (negb (bool_decide (body_content_type content = MessageContentType.TEXT)) ||
              match text with Some t => MAX_SMS_TEXT_CHARS <? slen t | None => false end)
          then Err (messaging_error MessagingPayloadInvalidError)
          else if bool_decide (channel = MessageChannel.WHATSAPP) &&
                  bool_decide (body_content_type content = MessageContentType.HTML)
          then Err (messaging_error MessagingPayloadInvalidError)
          else Ok (set_body_html html (set_body_text text content))
      end
  end.
End content.

(** ** Fingerprints *)

Definition json_of_text (t : option string) : json := match t with Some s => JStr s | None => JNull end.

Definition json_of_media (m : MediaMetadata) : json :=
  JObj [("provider_media_id", json_of_text (media_provider_media_id m));
        ("declared_mime_type", json_of_text (media_declared_mime_type m));
        ("declared_filename", json_of_text (media_declared_filename m));
        ("declared_byte_size", match media_declared_byte_size m with Some z => JInt z | None => JNull end);
        ("caption", json_of_text (media_caption m))].

(** [_canonical_content] *)
Definition canonical_content (c : MessageContent) : json :=
  JObj [("content_type", JStr (content_type_name (body_content_type c))); ("text", json_of_text (body_text c));
        ("html", json_of_text (body_html c)); ("media", JArr (map json_of_media (body_media c)))].

(** The document [send_fingerprint] dumps, and its digest: [dumps] is [json.dumps] with
    sorted keys and compact separators, [digest] SHA-256. *)
Definition fingerprint_document (request : SendMessageRequest) (normalized_recipients : list string) : json :=
  JObj [("account_id", JStr (uuid_str (sm_account_id request)));
        ("conversation_id", JStr (uuid_str (sm_conversation_id request)));
        ("to", JArr (map JStr (merge_sort String.le normalized_recipients)));
        ("content", canonical_content (sm_content request));
        ("subject", json_of_text (sm_subject request));
        ("reply_to", match sm_reply_to_message_id request with Some id => JStr (uuid_str id) | None => JNull end)].

Definition send_fingerprint (dumps : json → string) (digest : string → string) (request : SendMessageRequest)
    (normalized_recipients : list string) : string :=
  digest (dumps (fingerprint_document request normalized_recipients)).
