(* ===== verification/MessagingRepository.v ===== *)
(** * MessagingRepository: accounts, messages, receipts and send claims

    [domain/messaging/repository.py] over the tables of [MessagingStore], with the
    constraints of [domain/messaging/models.py]. Row-level security confines a statement
    to the organization of its transaction. *)

From S2P Require Import Prelude.
From S2P Require Import PyText.
From S2P Require Import Errors.
From S2P Require Import Lifecycles.
From S2P Require Import Conditions.
From S2P Require Import ScheduleSpec.
From S2P Require Import MessagingStore.
From S2P Require Import CustomerStore.
From S2P Require Import Normalization.
From S2P Require Import CampaignStore.
From S2P Require Import Store.
From S2P Require Import Tables.
From S2P Require Import CustomerService.
From S2P Require Import Messages.

Abbreviation messages_in w := (db_messaging (w_db w)).

Definition mgets {A} (f : MessagingDB → A) : M A := gets (λ w, f (messages_in w)).

Definition mmodify (f : MessagingDB → MessagingDB) : M unit :=
  modify_db (λ d, set_db_messaging (f (db_messaging d)) d).

Definition owned_account (org id : uuid) (r : MessagingAccountRecord) : bool :=
  N.eqb (ma_organization_id r) org && N.eqb (ma_id r) id.
Definition owned_message (org id : uuid) (r : MessagingMessageRecord) : bool :=
  N.eqb (mm_organization_id r) org && N.eqb (mm_id r) id.

(** ** [MessagingAccountRepository] *)

Definition account_by_id (org account_id : uuid) : M (option MessagingAccountRecord) :=
  mgets (λ m, List.find (owned_account org account_id) (mdb_accounts m)).

Definition account_by_webhook_token (org : uuid) (token : string) : M (option MessagingAccountRecord) :=
  mgets (λ m, List.find (λ r, N.eqb (ma_organization_id r) org && String.eqb (ma_webhook_token r) token)
    (mdb_accounts m)).

(** Newest first, then by id. *)
Definition account_before (a b : MessagingAccountRecord) : Prop :=
  (ma_created_at b < ma_created_at a)%Z ∨ (ma_created_at a = ma_created_at b ∧ (ma_id a ≤ ma_id b)%N).
#[export] Instance account_before_dec : RelDecision account_before := λ a b, ltac:(unfold account_before; apply _).

Definition list_all_accounts (org : uuid) (limit : Z) : M (list MessagingAccountRecord) :=
  mgets (λ m, take (Z.to_nat limit) (merge_sort account_before
    (List.filter (λ r, N.eqb (ma_organization_id r) org) (mdb_accounts m)))).

(** [uq_messaging_accounts_org_slug], [uq_messaging_accounts_provider],
    [uq_messaging_accounts_webhook_token]; the last two across organizations. *)
Definition account_conflict (new old : MessagingAccountRecord) : bool :=
  (N.eqb (ma_organization_id old) (ma_organization_id new) && String.eqb (ma_slug old) (ma_slug new)) ||
  (bool_decide (ma_channel old = ma_channel new) && String.eqb (ma_provider old) (ma_provider new) &&
   String.eqb (ma_external_account_id old) (ma_external_account_id new)) ||
  String.eqb (ma_webhook_token old) (ma_webhook_token new).

Definition insert_account (org account_id : uuid) (channel : MessageChannel)
    (provider slug external_account_id sender_identity : string) (configuration : list (string * json))
    (webhook_token : string) : M MessagingAccountRecord :=
  now ← utcnow;
  let record := mkAccount account_id org channel provider slug external_account_id sender_identity None
    AccountStatus.ACTIVE configuration webhook_token now now in
  m ← mgets (λ m, m);
  if existsb (account_conflict record) (mdb_accounts m) then raise (messaging_error MessagingAccountConflictError)
  else
    _ ← mmodify (λ m, set_mdb_accounts (mdb_accounts m ++ [record]) m);
    mret record.

Definition apply_account (org account_id : uuid) (changes : MessagingAccountRecord → MessagingAccountRecord)
    : M (option MessagingAccountRecord) :=
  now ← utcnow;
  _ ← mmodify (λ m, set_mdb_accounts (update_where (owned_account org account_id)
        (λ r, set_ma_updated_at now (changes r)) (mdb_accounts m)) m);
  account_by_id org account_id.

(** Messages restrict the deletion of their account; receipts and send claims go with it. *)
Definition delete_one_account (org account_id : uuid) : M bool :=
  m ← mgets (λ m, m);
  if negb (existsb (owned_account org account_id) (mdb_accounts m)) then mret false
  else if existsb (λ r, N.eqb (mm_organization_id r) org && N.eqb (mm_account_id r) account_id) (mdb_messages m)
  then raise IntegrityError
  else
    _ ← mmodify (λ m,
      set_mdb_accounts (List.filter (λ r, negb (owned_account org account_id r)) (mdb_accounts m))
     (set_mdb_receipts (List.filter (λ r, negb (N.eqb (ib_organization_id r) org && N.eqb (ib_account_id r) account_id)) (mdb_receipts m))
     (set_mdb_sends (List.filter (λ r, negb (N.eqb (sd_organization_id r) org && N.eqb (sd_account_id r) account_id)) (mdb_sends m)) m)));
    mret true.

(** ** [MessagingMessageRepository] *)

Definition message_by_id (org message_id : uuid) : M (option MessagingMessageRecord) :=
  mgets (λ m, List.find (owned_message org message_id) (mdb_messages m)).

(** [uq_messaging_messages_provider_id] *)
Definition has_provider_id (org account_id : uuid) (direction : MessageDirection) (provider_message_id : string)
    (r : MessagingMessageRecord) : bool :=
  N.eqb (mm_organization_id r) org && N.eqb (mm_account_id r) account_id &&
  bool_decide (mm_direction r = direction) && bool_decide (mm_provider_message_id r = Some provider_message_id).

Definition by_provider_id (org account_id : uuid) (direction : MessageDirection) (provider_message_id : string)
    : M (option MessagingMessageRecord) :=
  mgets (λ m, List.find (has_provider_id org account_id direction provider_message_id) (mdb_messages m)).

(** Newest first. *)
Definition message_before (a b : MessagingMessageRecord) : Prop :=
  (mm_created_at b < mm_created_at a)%Z ∨ (mm_created_at a = mm_created_at b ∧ (mm_id b ≤ mm_id a)%N).
#[export] Instance message_before_dec : RelDecision message_before := λ a b, ltac:(unfold message_before; apply _).

Definition list_for_conversation (org conversation_id : uuid) (after_id : option uuid) (limit : Z)
    : M (list MessagingMessageRecord) :=
  mgets (λ m, take (Z.to_nat (limit + 1)) (merge_sort message_before
    (List.filter (λ r, N.eqb (mm_organization_id r) org && N.eqb (mm_conversation_id r) conversation_id &&
       match after_id with Some id => N.ltb (mm_id r) id | None => true end) (mdb_messages m)))).

(** The foreign keys of a message; a null is no reference. *)
Definition message_references (d : DB) (r : MessagingMessageRecord) : bool :=
  existsb (owned_conversation (mm_organization_id r) (mm_conversation_id r)) (cdb_conversations (db_customer d)) &&
  customer_reference (mm_organization_id r) (mm_customer_id r) (db_customer d) &&
  existsb (owned_account (mm_organization_id r) (mm_account_id r)) (mdb_accounts (db_messaging d)) &&
  match mm_reply_to_message_id r with
  | None => true
  | Some id => existsb (owned_message (mm_organization_id r) id) (mdb_messages (db_messaging d))
  end.

(** Another message of the account has the provider id. *)
Definition provider_id_taken (id : uuid) (r : MessagingMessageRecord) (m : MessagingDB) : bool :=
  match mm_provider_message_id r with
  | None => false
  | Some p =>
      existsb (λ o, negb (N.eqb (mm_id o) id) &&
        has_provider_id (mm_organization_id r) (mm_account_id r) (mm_direction r) p o) (mdb_messages m)
  end.

Definition insert_message (message : MessagingMessageRecord) : M MessagingMessageRecord :=
  d ← gets w_db;
  if provider_id_taken (mm_id message) message (db_messaging d) || negb (message_references d message)
  then raise IntegrityError
  else
    _ ← mmodify (λ m, set_mdb_messages (mdb_messages m ++ [message]) m);
    mret message.

(** UPDATE by id: a changed row that takes another's provider id is refused. *)
Definition apply_message (org message_id : uuid) (changes : MessagingMessageRecord → MessagingMessageRecord)
    : M (option MessagingMessageRecord) :=
  now ← utcnow;
  m ← mgets (λ m, m);
  match List.find (owned_message org message_id) (mdb_messages m) with
  | None => mret None
  | Some row =>
      let updated := set_mm_updated_at now (changes row) in
      if provider_id_taken message_id updated m then raise IntegrityError
      else
        _ ← mmodify (λ m, set_mdb_messages (update_where (owned_message org message_id) (λ _, updated) (mdb_messages m)) m);
        mret (Some updated)
  end.

(** ** [MessagingInboundReceiptRepository] *)

(** [uq_messaging_inbound_receipts_event] *)
Definition is_receipt (org account_id : uuid) (event_id : string) (r : MessagingInboundReceiptRecord) : bool :=
  N.eqb (ib_organization_id r) org && N.eqb (ib_account_id r) account_id && String.eqb (ib_event_id r) event_id.

Definition insert_receipt (org account_id : uuid) (event_id : string) (message_id : option uuid) (status : string)
    : M unit :=
  id ← fresh_uuid;
  now ← utcnow;
  m ← mgets (λ m, m);
  if existsb (is_receipt org account_id event_id) (mdb_receipts m) ||
     negb (existsb (owned_account org account_id) (mdb_accounts m))
  then raise IntegrityError
  else mmodify (λ m, set_mdb_receipts (mdb_receipts m ++
         [mkInboundReceipt id org account_id event_id message_id status now]) m).

Definition claim_receipt (org account_id : uuid) (event_id : string) : M bool :=
  try_with
    (tenant_transaction (_ ← insert_receipt org account_id (stake 400 event_id) None "CLAIMED"; mret true))
    (λ e, match e with IntegrityError => mret false | e => raise e end).

Definition mark_receipt (org account_id : uuid) (event_id status : string) (message_id : option uuid) : M unit :=
  tenant_transaction (mmodify (λ m, set_mdb_receipts (update_where (is_receipt org account_id (stake 400 event_id))
    (λ r, set_ib_status status (set_ib_message_id message_id r)) (mdb_receipts m)) m)).

(** ** [MessagingSendIdempotencyRepository] *)

(** [uq_messaging_send_idempotency_key] *)
Definition is_send (org account_id : uuid) (key : string) (r : MessagingSendIdempotencyRecord) : bool :=
  N.eqb (sd_organization_id r) org && N.eqb (sd_account_id r) account_id && String.eqb (sd_idempotency_key r) key.

(** The insert of [claim]: whether this caller owns the key. *)
Definition insert_send (org account_id : uuid) (key fingerprint : string) (now expires_at : Z) : M unit :=
  id ← fresh_uuid;
  m ← mgets (λ m, m);
  if existsb (is_send org account_id key) (mdb_sends m) || negb (existsb (owned_account org account_id) (mdb_accounts m))
  then raise IntegrityError
  else mmodify (λ m, set_mdb_sends (mdb_sends m ++
         [mkSendClaim id org account_id key fingerprint SendIdempotencyStatus.PENDING None None None now now expires_at]) m).

Definition claim_send (org account_id : uuid) (key fingerprint : string) (expires_at : Z) : M bool :=
  now ← utcnow;
  try_with
    (execution_transaction org (_ ← insert_send org account_id key fingerprint now expires_at; mret true))
    (λ e, match e with IntegrityError => mret false | e => raise e end).

Definition get_send (org account_id : uuid) (key : string) : M (option MessagingSendIdempotencyRecord) :=
  tenant_transaction (mgets (λ m, List.find (is_send org account_id key) (mdb_sends m))).

Definition finalize_send (org account_id : uuid) (key : string) (status : SendIdempotencyStatus)
    (message_id : option uuid) (result_json : option MessagingMessageRecord) (error_code : option string) : M unit :=
  tenant_transaction (
    now ← utcnow;
    mmodify (λ m, set_mdb_sends (update_where (is_send org account_id key)
      (λ r, set_sd_updated_at now (set_sd_error_code error_code (set_sd_result result_json
         (set_sd_message_id message_id (set_sd_status status r))))) (mdb_sends m)) m)).
