(* ===== verification/MessagingService.v ===== *)
(** * MessagingService: channel accounts

    The account management and the queries of [messaging/service.py], with the account
    configuration of [messaging/account_config.py] and the provider protocol of
    [messaging/providers/base.py]. What a deployment brings (providers, vault, transport,
    library functions and settings) is the record [MessagingDeployment]. *)

From S2P Require Import Prelude.
From S2P Require Import PyText.
From S2P Require Import Errors.
From S2P Require Import Lifecycles.
From S2P Require Import Conditions.
From S2P Require Import ScheduleSpec.
From S2P Require Import MessagingStore.
From S2P Require Import CustomerStore.
From S2P Require Import Normalization.
From S2P Require Import CampaignStore.
From S2P Require Import Store.
From S2P Require Import Tables.
From S2P Require Import CustomerService.
From S2P Require Import Messages.
From S2P Require Import MessagingRepository.

(** ** Providers *)

(** [SecretMaterial]: named fields. *)
Definition SecretMaterial : Type := list (string * string).

Definition credential_unavailable : exn := Nxs (OtherNxsError "NXS_INT_CREDENTIAL_UNAVAILABLE" false).

Definition secret_field (secret : SecretMaterial) (name : string) : result exn string :=
  match assoc name secret with Some v => Ok v | None => Err credential_unavailable end.

(** [SecretMaterial.__post_init__] for a provider's secret set, which has no required fields. *)
Definition secret_material (fields : SecretMaterial) : result exn SecretMaterial :=
  if forallb (λ f, utf8_length f.2 <=? 8192) fields then Ok fields else Err credential_unavailable.

Record TransportRequest : Type := {
  rq_method : string;
  rq_url : string;
  rq_headers : list (string * string);
  rq_body : json;
}.

Record TransportResponse : Type := { rp_status_code : Z; rp_body : string }.

Record TransportError : Type := { tr_timeout : bool; tr_connect : bool }.

Definition MessagingTransport : Type := TransportRequest → result TransportError TransportResponse.

Record WebhookContext : Type := {
  wc_method : string;
  wc_headers : list (string * string);
  wc_query : list (string * string);
  wc_body : string;
}.

Record NormalizedInbound : Type := {
  ni_provider_message_id : string;
  ni_provider_timestamp : option Z;
  ni_sender_raw : string;
  ni_recipient_raw : string;
  ni_content : MessageContent;
  ni_external_thread_hint : string;
  ni_email : option EmailEnvelopeFields;
}.

Record NormalizedStatus : Type := {
  ns_provider_message_id : string;
  ns_status : MessageStatus;
  ns_provider_status : string;
  ns_occurred_at : option Z;
  ns_error_code : option string;
  ns_provider_code : option string;
}.

Record WebhookParseResult : Type := {
  wp_inbound : list NormalizedInbound;
  wp_statuses : list NormalizedStatus;
}.

(** The protocol [MessagingProvider]: the operations a channel adapter implements. The
    time is that of the verification. *)
Record MessagingProvider : Type := {
  mp_webhook_challenge : MessagingAccountRecord → WebhookContext → option string;
  mp_verify_webhook : MessagingAccountRecord → WebhookContext → option SecretMaterial → Z → Z → result exn unit;
  mp_parse_webhook : MessagingAccountRecord → WebhookContext → result exn WebhookParseResult;
  mp_send : MessagingAccountRecord → PreparedSend → option SecretMaterial → MessagingTransport →
            result exn ProviderSendResult;
}.

(** What a deployment provides: the registered providers, the protocol [VaultClient],
    the network (its [n]-th use), the libraries [json], [hashlib], [base64], [secrets] and
    [urllib], and the settings of the channels. *)
Record UrlParts : Type := {
  up_scheme : string;
  up_hostname : option string;
  up_username : option string;
  up_query : string;
  up_fragment : string;
}.

Record MessagingDeployment : Type := {
  md_providers : MessageChannel → string → option MessagingProvider;
  md_get_secret : uuid → string → World → result exn SecretMaterial;
  md_store_secret : uuid → string → SecretMaterial → result exn unit;
  md_delete_secret : uuid → string → result exn unit;
  md_transport : nat → MessagingTransport;
  md_dumps : json → string;
  md_digest : string → string;
  md_b64encode : uuid → string;
  md_b64decode : string → option uuid;
  md_token_urlsafe : nat → string;
  md_urlsplit : string → UrlParts;
  md_retention_seconds : Z;
  md_max_webhook_body_bytes : Z;
  md_timestamp_tolerance_seconds : Z;
  md_max_config_keys : Z;
  md_max_config_key_length : Z;
  md_max_config_value_length : Z;
  md_max_config_depth : Z;
  md_max_config_bytes : Z;
}.

(** ** Account configuration *)

Definition config_error {A} : result exn A := Err (messaging_error MessagingConfigInvalidError).

(** [_ALLOWED_KEYS] *)
Definition allowed_keys (channel : MessageChannel) (provider : string) : option (list string) :=
  match channel with
  | MessageChannel.WHATSAPP =>
      if String.eqb provider "meta_cloud" then Some ["graph_base"; "api_version"; "default_country"] else None
  | MessageChannel.EMAIL | MessageChannel.SMS =>
      if String.eqb provider "generic_http" then Some ["api_base"; "default_country"] else None
  end.

(** [_check_depth] on the values of a JSON document. *)
Fixpoint check_depth (limit depth : Z) (value : json) : bool :=
  if limit <? depth then false
  else
    match value with
    | JObj l => forallb (λ kv, check_depth limit (depth + 1) kv.2) l
    | JArr l => forallb (check_depth limit (depth + 1)) l
    | _ => true
    end.

(** [_check_value_sizes] *)
Fixpoint check_value_sizes (max_string : Z) (value : json) : bool :=
  match value with
  | JStr s => slen s <=? max_string
  | JObj l => forallb (λ kv, check_value_sizes max_string kv.2) l
  | JArr l => forallb (check_value_sizes max_string) l
  | _ => true
  end.

(** [str.isdigit()] on the characters up to U+00FF: the superscripts are digits. *)
Definition is_digit (c : ascii) : bool :=
  between "0" "9" c || (code_point c =? 178) || (code_point c =? 179) || (code_point c =? 185).

Definition isdigit (s : string) : bool := negb (String.eqb s EmptyString) && all_chars is_digit s.

(** [account.configuration.get("default_country")] *)
Definition config_text (key : string) (configuration : list (string * json)) : option string :=
  match assoc key configuration with Some (JStr s) => Some s | _ => None end.

Section service.
Context `{UnicodeForms} (dep : MessagingDeployment).

(** [_check_url] *)
Definition check_url (value : json) : bool :=
  match value with
  | JStr s =>
      let parts := md_urlsplit dep s in
      String.eqb (up_scheme parts) "https" &&
      match up_hostname parts with Some (String _ _) => true | _ => false end &&
      match up_username parts with Some (String _ _) => false | _ => true end &&
      String.eqb (up_query parts) EmptyString && String.eqb (up_fragment parts) EmptyString
  | _ => false
  end.

Definition validate_account_configuration (channel : MessageChannel) (provider : string)
    (configuration : list (string * json)) : result exn (list (string * json)) :=
  if md_max_config_keys dep <? Z.of_nat (length configuration) then config_error
  else if existsb (λ kv, (md_max_config_key_length dep <? slen kv.1) ||
         match allowed_keys channel provider with Some keys => negb (bool_decide (kv.1 ∈ keys)) | None => false end)
         configuration then config_error
  else if negb (check_depth (md_max_config_depth dep) 1 (JObj configuration)) then config_error
  else if negb (check_value_sizes (md_max_config_value_length dep) (JObj configuration)) then config_error
  else if md_max_config_bytes dep <? utf8_length (md_dumps dep (JObj configuration)) then config_error
  else if existsb (λ key, match assoc key configuration with Some v => negb (check_url v) | None => false end)
         ["graph_base"; "api_base"] then config_error
  else match assoc "default_country" configuration with
       | None | Some JNull => Ok configuration
       | Some (JStr country) => if isdigit country && (slen country <=? 3) then Ok configuration else config_error
       | Some _ => config_error
       end.

(** ** Accounts *)

Record CreateAccountRequest : Type := {
  ca_channel : MessageChannel;
  ca_provider : string;
  ca_slug : string;
  ca_external_account_id : string;
  ca_sender_identity : string;
  ca_default_country : option string;
  ca_configuration : list (string * json);
}.

(** [DEFAULT_PROVIDER] *)
Definition default_provider (channel : MessageChannel) : string :=
  match channel with
  | MessageChannel.WHATSAPP => "meta_cloud"
  | MessageChannel.EMAIL | MessageChannel.SMS => "generic_http"
  end.

Definition resolve_provider (channel : MessageChannel) (provider_key : string) : result exn MessagingProvider :=
  match md_providers dep channel provider_key with Some p => Ok p | None => config_error end.

Definition build_webhook_token (org : uuid) (random : nat) : string :=
  md_b64encode dep org +:+ "." +:+ md_token_urlsafe dep random.

(** [random] is the draw of [secrets.token_urlsafe]. *)
Definition create_account (org : uuid) (request : CreateAccountRequest) (random : nat) : M MessagingAccountRecord :=
  let provider_key := match ca_provider request with EmptyString => default_provider (ca_channel request) | p => p end in
  _ ← lift (resolve_provider (ca_channel request) provider_key);
  sender ← lift (match normalize_address (ca_channel request) (ca_sender_identity request) (ca_default_country request) None with
                 | Err (messaging_error MessagingRecipientInvalidError) => config_error
                 | r => r
                 end);
  let configuration :=
    match ca_default_country request with
    | Some (String _ _ as c) =>
        match assoc "default_country" (ca_configuration request) with
        | Some _ => ca_configuration request
        | None => ca_configuration request ++ [("default_country", JStr c)]
        end
    | _ => ca_configuration request
    end in
  configuration ← lift (validate_account_configuration (ca_channel request) provider_key configuration);
  tenant_transaction (
    account_id ← fresh_uuid;
    insert_account org account_id (ca_channel request) provider_key (ca_slug request) (ca_external_account_id request)
      (ad_value sender) configuration (build_webhook_token org random)).

Definition list_accounts (org : uuid) (limit : Z) : M (list MessagingAccountRecord) :=
  tenant_transaction (list_all_accounts org limit).

Definition require_account (org account_id : uuid) : M MessagingAccountRecord :=
  account ← tenant_transaction (account_by_id org account_id);
  match account with
  | None => raise (messaging_error MessagingAccountNotFoundError)
  | Some account => mret account
  end.

Definition asserted {A} (x : option A) : M A := match x with Some a => mret a | None => raise AssertionError end.

Definition update_account (org account_id : uuid) (configuration : option (list (string * json)))
    : M MessagingAccountRecord :=
  account ← require_account org account_id;
  match configuration with
  | None => mret account
  | Some configuration =>
      configuration ← lift (validate_account_configuration (ma_channel account) (ma_provider account) configuration);
      updated ← tenant_transaction (apply_account org account_id (set_ma_configuration configuration));
      asserted updated
  end.

Definition set_account_status (org account_id : uuid) (status : AccountStatus) : M MessagingAccountRecord :=
  _ ← require_account org account_id;
  updated ← tenant_transaction (apply_account org account_id (set_ma_status status));
  asserted updated.

(** [delete_account]: the history is read, the secret deleted, the account removed. *)
Definition account_history (org account_id : uuid) : M bool :=
  tenant_transaction (mgets (λ m,
    existsb (λ r, N.eqb (mm_organization_id r) org && N.eqb (mm_account_id r) account_id) (mdb_messages m))).

Definition delete_account (org account_id : uuid) : M unit :=
  account ← require_account org account_id;
  has_history ← account_history org account_id;
  if has_history : bool then raise (messaging_error MessagingAccountConflictError)
  else
    _ ← match ma_credential_ref account with
        | Some ref => lift (md_delete_secret dep org ref)
        | None => mret tt
        end;
    removed ← tenant_transaction (delete_one_account org account_id);
    if removed : bool then mret tt else raise (messaging_error MessagingAccountNotFoundError).

Definition store_account_credential (org account_id : uuid) (fields : SecretMaterial) : M unit :=
  account ← require_account org account_id;
  let ref := match ma_credential_ref account with
             | Some (String _ _ as ref) => ref
             | _ => "msg:" +:+ ma_slug account +:+ ":" +:+ stake 12 (uuid_hex account_id)
             end in
  material ← lift (secret_material fields);
  _ ← lift (md_store_secret dep org ref material);
  if bool_decide (ma_credential_ref account = Some ref) then mret tt
  else
    _ ← tenant_transaction (apply_account org account_id (set_ma_credential_ref (Some ref)));
    mret tt.

Definition delete_account_credential (org account_id : uuid) : M unit :=
  account ← require_account org account_id;
  match ma_credential_ref account with
  | None => mret tt
  | Some ref =>
      _ ← lift (md_delete_secret dep org ref);
      _ ← tenant_transaction (apply_account org account_id (set_ma_credential_ref None));
      mret tt
  end.

(** ** Queries *)

Definition get_message (org message_id : uuid) : M MessagingMessageRecord :=
  message ← tenant_transaction (message_by_id org message_id);
  match message with None => raise (messaging_error MessageNotFoundError) | Some m => mret m end.

Definition list_messages (org conversation_id : uuid) (after_id : option uuid) (limit : Z)
    : M (list MessagingMessageRecord) :=
  rows ← tenant_transaction (list_for_conversation org conversation_id after_id limit);
  mret (take (Z.to_nat limit) rows).
End service.
