(* ===== verification/MessagingSend.v ===== *)
(** * MessagingSend: sending a message

    [MessagingService.send] and the helpers it calls ([messaging/service.py]), as the
    composition of its transactions, which other requests may come between. *)

From S2P Require Import Prelude.
From S2P Require Import PyText.
From S2P Require Import Errors.
From S2P Require Import Lifecycles.
From S2P Require Import Conditions.
From S2P Require Import ScheduleSpec.
From S2P Require Import MessagingStore.
From S2P Require Import CustomerStore.
From S2P Require Import Normalization.
From S2P Require Import CampaignStore.
From S2P Require Import Store.
From S2P Require Import Tables.
From S2P Require Import CustomerService.
From S2P Require Import Messages.
From S2P Require Import MessagingRepository.
From S2P Require Import MessagingService.

(** What [send] has worked out before it claims the idempotency key. *)
Record SendPlan : Type := mkPlan {
  sp_account : MessagingAccountRecord;
  sp_conversation : ConversationRecord;
  sp_recipients : list MessageAddress;
  sp_content : MessageContent;
  sp_subject : option string;
  sp_email : option EmailEnvelopeFields;
  sp_fingerprint : string;
}.

Definition message_event (org : uuid) (event_type : string) (m : MessagingMessageRecord)
    (extra : list (string * json)) : M unit :=
  enqueue_event event_type "messaging_message" (mm_id m) org
    ([("message_id", JStr (uuid_str (mm_id m))); ("conversation_id", JStr (uuid_str (mm_conversation_id m)));
      ("channel", JStr (channel_name (mm_channel m))); ("direction", JStr (direction_name (mm_direction m)));
      ("provider", JStr (mm_provider m)); ("provider_message_id", json_of_text (mm_provider_message_id m))] ++
     match mm_direction m with
     | MessageDirection.INBOUND =>
         [("customer_id", match mm_customer_id m with Some id => JStr (uuid_str id) | None => JNull end)]
     | MessageDirection.OUTBOUND => []
     end ++ extra).

Section send.
Context `{UnicodeForms} (dep : MessagingDeployment).

(** ** Validation *)

Definition require_conversation (org conversation_id : uuid) (channel : MessageChannel) : M ConversationRecord :=
  conversation ← try_with (get_conversation org conversation_id)
    (λ e, match e with
          | customer_error ConversationNotFoundError => raise (messaging_error MessagingConversationInvalidError)
          | e => raise e
          end);
  if negb (String.eqb (cn_channel conversation) (lower (channel_name channel)))
  then raise (messaging_error MessagingConversationInvalidError)
  else if bool_decide (conversation_status_of (cn_status conversation) = Some ConversationStatus.CLOSED)
  then raise (messaging_error MessagingConversationInvalidError)
  else mret conversation.

Definition require_reply_parent (org : uuid) (conversation : ConversationRecord) (channel : MessageChannel)
    (reply_to_message_id : option uuid) : M (option MessagingMessageRecord) :=
  match reply_to_message_id with
  | None => mret None
  | Some id =>
      parent ← tenant_transaction (message_by_id org id);
      match parent with
      | None => raise (messaging_error MessagingConversationInvalidError)
      | Some parent =>
          if negb (N.eqb (mm_conversation_id parent) (cn_id conversation))
          then raise (messaging_error MessagingConversationInvalidError)
          else if bool_decide (channel = MessageChannel.EMAIL) && negb (bool_decide (mm_channel parent = MessageChannel.EMAIL))
          then raise (messaging_error MessagingConversationInvalidError)
          else mret (Some parent)
      end
  end.

Fixpoint map_results {A B} (f : A → result exn B) (l : list A) : result exn (list B) :=
  match l with
  | [] => Ok []
  | a :: l =>
      match f a with
      | Err e => Err e
      | Ok b => match map_results f l with Err e => Err e | Ok bs => Ok (b :: bs) end
      end
  end.

Definition normalized_recipients (account : MessagingAccountRecord) (request : SendMessageRequest)
    : result exn (list MessageAddress) :=
  let default_country := config_text "default_country" (ma_configuration account) in
  match map_results (λ item, normalize_address (ma_channel account) (oa_value item) default_country (oa_display item))
          (sm_to request) with
  | Err e => Err e
  | Ok recipients =>
      if negb (bool_decide (ma_channel account = MessageChannel.EMAIL)) && negb (Nat.eqb (length recipients) 1)
      then Err (messaging_error MessagingRecipientInvalidError)
      else Ok recipients
  end.

Definition normalized_subject (channel : MessageChannel) (request : SendMessageRequest) : result exn (option string) :=
  match sm_subject request with
  | None => Ok None
  | Some subject =>
      if negb (bool_decide (channel = MessageChannel.EMAIL)) then config_error
      else match sanitize_header_value subject 255 with Ok s => Ok (Some s) | Err e => Err e end
  end.

(** The last 20 of a list: [references[-20:]]. *)
Definition last_20 {A} (l : list A) : list A := drop (length l - 20) l.

Definition nonempty (s : string) : bool := negb (String.eqb s EmptyString).

(** [_email_thread_fields]; [our_message_id] is the identifier it draws. *)
Definition email_thread_fields (channel : MessageChannel) (subject : option string)
    (parent : option MessagingMessageRecord) : M (option EmailEnvelopeFields) :=
  match channel with
  | MessageChannel.EMAIL =>
      id ← fresh_uuid;
      let our_message_id := uuid_hex id +:+ "@nexus.messaging" in
      match parent with
      | Some p =>
          match mm_email p with
          | Some email =>
              parent_id ← lift (sanitize_header_value
                (match em_message_id_header email, mm_provider_message_id p with
                 | Some (String _ _ as s), _ => s
                 | _, Some s => s
                 | _, None => EmptyString
                 end) 255);
              references ← lift (map_results (λ r, sanitize_header_value r 255)
                             (List.filter nonempty (em_references email)));
              let references := if nonempty parent_id && negb (bool_decide (parent_id ∈ references))
                                then references ++ [parent_id] else references in
              mret (Some (mkEmail subject [] [] (Some our_message_id)
                (if nonempty parent_id then Some parent_id else None) (last_20 references)))
          | None => mret (Some (mkEmail subject [] [] (Some our_message_id) None []))
          end
      | None => mret (Some (mkEmail subject [] [] (Some our_message_id) None []))
      end
  | _ => mret None
  end.

Definition plan_send (org : uuid) (request : SendMessageRequest) : M SendPlan :=
  account ← require_account org (sm_account_id request);
  if negb (bool_decide (ma_status account = AccountStatus.ACTIVE))
  then raise (messaging_error MessagingAccountDisabledError)
  else
    conversation ← require_conversation org (sm_conversation_id request) (ma_channel account);
    parent ← require_reply_parent org conversation (ma_channel account) (sm_reply_to_message_id request);
    recipients ← lift (normalized_recipients account request);
    content ← lift (normalize_content (ma_channel account) (sm_content request));
    subject ← lift (normalized_subject (ma_channel account) request);
    email ← email_thread_fields (ma_channel account) subject parent;
    mret (mkPlan account conversation recipients content subject email
      (send_fingerprint (md_dumps dep) (md_digest dep) request (map ad_value recipients))).

(** ** The idempotency claim *)

Definition replay_or_raise (existing : MessagingSendIdempotencyRecord) (fingerprint : string)
    : result exn MessagingMessageRecord :=
  if negb (String.eqb (sd_request_fingerprint existing) fingerprint)
  then Err (messaging_error MessagingIdempotencyConflictError)
  else match sd_status existing, sd_result existing with
       | SendIdempotencyStatus.COMPLETED, Some message => Ok message
       | SendIdempotencyStatus.FAILED, _ =>
           Err (messaging_error (MessagingDeliveryFailedError
             (Some (match sd_error_code existing with
                    | Some (String _ _ as c) => c
                    | _ => "NXS_MSG_DELIVERY_FAILED"
                    end))))
       | _, _ => Err (messaging_error MessagingSendInProgressError)
       end.

(** Whether this caller owns the key. *)
Definition claim_key (org : uuid) (plan : SendPlan) (key : string) : M bool :=
  now ← utcnow;
  claim_send org (ma_id (sp_account plan)) key (sp_fingerprint plan) (now + md_retention_seconds dep * SECOND).

(** The answer of the one who does not. *)
Definition answer_claimed (org : uuid) (plan : SendPlan) (key : string) : M MessagingMessageRecord :=
  existing ← get_send org (ma_id (sp_account plan)) key;
  match existing with
  | None => raise (messaging_error MessagingSendInProgressError)
  | Some existing => lift (replay_or_raise existing (sp_fingerprint plan))
  end.

(** ** Delivery *)

Definition persist_queued (org : uuid) (plan : SendPlan) (request : SendMessageRequest) : M MessagingMessageRecord :=
  let account := sp_account plan in
  let conversation := sp_conversation plan in
  now ← utcnow;
  ctx ← gets w_correlation;
  id ← fresh_uuid;
  sender ← lift (normalize_address (ma_channel account) (ma_sender_identity account) None None);
  let message := mkMessage id org (cn_id conversation) (cn_customer_id conversation) (ma_id account)
    (ma_channel account) MessageDirection.OUTBOUND MessageStatus.QUEUED (ma_provider account) None
    sender (sp_recipients plan) (sp_content plan) (sp_email plan) None (sm_reply_to_message_id request)
    (match sm_correlation_id request with Some (String _ _ as c) => Some c | _ => ctx end)
    (sm_idempotency_key request) None None None None None None now now in
  (match sm_idempotency_key request with
   | None => execution_transaction org
   | Some _ => tenant_transaction
   end) (
    stored ← insert_message message;
    _ ← append_activity org (mm_customer_id stored) (Some (mm_conversation_id stored)) ActivityType.MESSAGE_OUTBOUND
          (Some ("messaging.outbound:" +:+ uuid_str (mm_id stored)))
          [("channel", JStr (channel_name (mm_channel stored))); ("message_id", JStr (uuid_str (mm_id stored)))];
    _ ← message_event org "messaging.message.queued" stored [];
    mret stored).

Definition resolve_secret (org : uuid) (account : MessagingAccountRecord) : M (option SecretMaterial) :=
  match ma_credential_ref account with
  | None => mret None
  | Some ref => secret ← gets (md_get_secret dep org ref); secret ← lift secret; mret (Some secret)
  end.

Definition prepare (plan : SendPlan) : result exn PreparedSend :=
  match normalize_address (ma_channel (sp_account plan)) (ma_sender_identity (sp_account plan)) None None with
  | Err e => Err e
  | Ok sender => Ok (mkPrepared sender (sp_recipients plan) (sp_content plan) (sp_subject plan) (sp_email plan)
      (match sp_email plan with Some e => em_in_reply_to e | None => None end))
  end.

(** [provider.send]: the request is on record before its outcome is known. *)
Definition provider_call (org : uuid) (plan : SendPlan) (request : SendMessageRequest) (message : MessagingMessageRecord)
    (provider : MessagingProvider) (prepared : PreparedSend) (secret : option SecretMaterial)
    : M (result exn ProviderSendResult) := λ w,
  let transport := md_transport dep (length (w_calls w)) in
  (Ok (mp_send provider (sp_account plan) prepared secret transport),
   set_w_calls (w_calls w ++ [mkCall org (ma_id (sp_account plan)) (sm_idempotency_key request) (mm_id message) prepared]) w).

(** What comes of the call: the provider's result, or the platform error it raised; any
    other exception leaves [send]. *)
Definition deliver (org : uuid) (plan : SendPlan) (request : SendMessageRequest) (message : MessagingMessageRecord)
    : M (ProviderSendResult + NxsError) :=
  secret ← resolve_secret org (sp_account plan);
  prepared ← lift (prepare plan);
  provider ← lift (resolve_provider dep (ma_channel (sp_account plan)) (ma_provider (sp_account plan)));
  outcome ← provider_call org plan request message provider prepared secret;
  match outcome with
  | Ok result => mret (inl result)
  | Err (Nxs exc) => mret (inr exc)
  | Err e => raise e
  end.

Definition mark_sent (org : uuid) (message : MessagingMessageRecord) (result : ProviderSendResult)
    : M MessagingMessageRecord :=
  now ← utcnow;
  tenant_transaction (
    updated ← apply_message org (mm_id message) (λ r,
      let r := set_mm_provider_timestamp (res_provider_timestamp result) (set_mm_sent_at (Some now)
                 (set_mm_provider_message_id (Some (stake 200 (res_provider_message_id result)))
                   (set_mm_status MessageStatus.SENT r))) in
      match res_sms result with Some sms => set_mm_sms (Some sms) r | None => r end);
    updated ← asserted updated;
    _ ← message_event org "messaging.message.sent" updated [];
    mret updated).

Definition provider_code_of (error : NxsError) : option string :=
  match error with MessagingErr (MessagingProviderError code _) => code | _ => None end.

Definition mark_failed (org : uuid) (message : MessagingMessageRecord) (error : NxsError) : M MessagingMessageRecord :=
  now ← utcnow;
  tenant_transaction (
    updated ← apply_message org (mm_id message) (λ r,
      set_mm_error_code (Some (code error)) (set_mm_failed_at (Some now) (set_mm_status MessageStatus.FAILED r)));
    updated ← asserted updated;
    _ ← message_event org "messaging.message.failed" updated
          (("error_code", JStr (code error)) ::
           match provider_code_of error with Some c => [("provider_code", JStr c)] | None => [] end);
    mret updated).

(** The message in its final state. *)
Definition mark (org : uuid) (message : MessagingMessageRecord) (outcome : ProviderSendResult + NxsError)
    : M MessagingMessageRecord :=
  match outcome with
  | inl result => mark_sent org message result
  | inr error => mark_failed org message error
  end.

(** [_finalize], and how [send] ends. *)
Definition conclude (org : uuid) (plan : SendPlan) (request : SendMessageRequest) (message : MessagingMessageRecord)
    (outcome : ProviderSendResult + NxsError) : M MessagingMessageRecord :=
  _ ← match sm_idempotency_key request with
      | None => mret tt
      | Some key =>
          match outcome with
          | inl _ => finalize_send org (ma_id (sp_account plan)) key SendIdempotencyStatus.COMPLETED
                       (Some (mm_id message)) (Some message) None
          | inr error => finalize_send org (ma_id (sp_account plan)) key SendIdempotencyStatus.FAILED
                       (Some (mm_id message)) None (Some (code error))
          end
      end;
  match outcome with inl _ => mret message | inr error => raise (Nxs error) end.

Definition send_owned (org : uuid) (plan : SendPlan) (request : SendMessageRequest) : M MessagingMessageRecord :=
  message ← persist_queued org plan request;
  outcome ← deliver org plan request message;
  marked ← mark org message outcome;
  conclude org plan request marked outcome.

Definition send (org : uuid) (request : SendMessageRequest) : M MessagingMessageRecord :=
  plan ← plan_send org request;
  match sm_idempotency_key request with
  | None => send_owned org plan request
  | Some key =>
      owner ← claim_key org plan key;
      if owner : bool then send_owned org plan request else answer_claimed org plan key
  end.
End send.
