(* ===== verification/MessagingInbound.v ===== *)
(** * MessagingInbound: provider webhooks

    [messaging/webhooks.py]: inbound messages and delivery callbacks of the providers,
    and the helpers of [messaging/service.py] they share. *)

From S2P Require Import Prelude.
From S2P Require Import PyText.
From S2P Require Import Errors.
From S2P Require Import Lifecycles.
From S2P Require Import Conditions.
From S2P Require Import ScheduleSpec.
From S2P Require Import MessagingStore.
From S2P Require Import CustomerStore.
From S2P Require Import Normalization.
From S2P Require Import CampaignStore.
From S2P Require Import Store.
From S2P Require Import Tables.
From S2P Require Import CustomerService.
From S2P Require Import Messages.
From S2P Require Import MessagingRepository.
From S2P Require Import MessagingService.
From S2P Require Import MessagingSend.

Record InboundResult : Type := mkInboundResult {
  ir_accepted : bool;
  ir_challenge : option string;
  ir_received : Z;
  ir_status_updates : Z;
  ir_replayed : Z;
  ir_message_ids : list string;
}.

(** What became of a delivery callback. *)
Inductive StatusFold : Type := advanced | duplicate | ignored | replayed | deferred.

(** [a or b] of an optional time *)
Definition or_time (a : option Z) (b : Z) : Z := match a with Some t => t | None => b end.

(** The columns a callback that reached [target] writes. *)
Definition callback_changes (target : MessageStatus) (status : NormalizedStatus) (message : MessagingMessageRecord)
    (now : Z) (r : MessagingMessageRecord) : MessagingMessageRecord :=
  let occurred := Some (or_time (ns_occurred_at status) now) in
  let r := set_mm_status target r in
  match target with
  | MessageStatus.DELIVERED => set_mm_delivered_at occurred r
  | MessageStatus.READ =>
      set_mm_delivered_at (match mm_delivered_at message with Some t => Some t | None => occurred end)
        (set_mm_read_at occurred r)
  | MessageStatus.FAILED =>
      set_mm_error_code (Some (match ns_error_code status with
                               | Some (String _ _ as c) => c
                               | _ => "NXS_MSG_DELIVERY_FAILED"
                               end)) (set_mm_failed_at occurred r)
  | _ => r
  end.

(** [_enqueue_status_event]: the type of the event is looked up by the status. *)
Definition status_event (org : uuid) (message : MessagingMessageRecord) (status : NormalizedStatus) : M unit :=
  match status_event_type (mm_status message) with
  | None => raise KeyError
  | Some event_type =>
      enqueue_event event_type "messaging_message" (mm_id message) org
        ([("message_id", JStr (uuid_str (mm_id message)));
          ("conversation_id", JStr (uuid_str (mm_conversation_id message)));
          ("channel", JStr (channel_name (mm_channel message)));
          ("direction", JStr (direction_name (mm_direction message)));
          ("provider", JStr (mm_provider message));
          ("provider_message_id", json_of_text (mm_provider_message_id message))] ++
         if bool_decide (mm_status message = MessageStatus.FAILED)
         then ("error_code", JStr (match mm_error_code message with
                                   | Some (String _ _ as c) => c
                                   | _ => "NXS_MSG_DELIVERY_FAILED"
                                   end)) ::
              match ns_provider_code status with Some (String _ _ as c) => [("provider_code", JStr c)] | _ => [] end
         else [])
  end.

Definition status_event_id (status : NormalizedStatus) : string :=
  stake 400 ("st:" +:+ ns_provider_message_id status +:+ ":" +:+ ns_provider_status status).

(** What the transaction of [_process_status] does with the message it read. The UPDATE
    is by id: it writes whatever the row has become since the read. *)
Definition decide_status (org : uuid) (account : MessagingAccountRecord) (status : NormalizedStatus)
    (found : option MessagingMessageRecord) : M StatusFold :=
  match found with
  | None => raise DeferStatus
  | Some message =>
      let outcome := apply_callback (mm_status message) (ns_status status) in
      if negb (to_advanced outcome) then mret (if to_duplicate outcome then duplicate else ignored)
      else
        now ← utcnow;
        updated ← apply_message org (mm_id message) (callback_changes (to_status outcome) status message now);
        updated ← asserted updated;
        _ ← mmodify (λ m, set_mdb_receipts (update_where (is_receipt org (ma_id account) (status_event_id status))
              (set_ib_message_id (Some (mm_id updated))) (mdb_receipts m)) m);
        _ ← status_event org updated status;
        mret advanced
  end.

(** The transaction of [_process_status]. *)
Definition fold_status (org : uuid) (account : MessagingAccountRecord) (status : NormalizedStatus) : M StatusFold :=
  _ ← insert_receipt org (ma_id account) (status_event_id status) None "ACCEPTED";
  found ← by_provider_id org (ma_id account) MessageDirection.OUTBOUND (ns_provider_message_id status);
  decide_status org account status found.

Definition settle_status (m : M StatusFold) : M StatusFold :=
  try_with m
    (λ e, match e with
          | DeferStatus => mret deferred
          | IntegrityError => mret replayed
          | e => raise e
          end).

Definition process_status (org : uuid) (account : MessagingAccountRecord) (status : NormalizedStatus) : M StatusFold :=
  settle_status (tenant_transaction (fold_status org account status)).

(** [_process_status] as it commits: the message was read without a lock, so that [found]
    may be what the row was before other transactions committed. *)
Definition commit_status (org : uuid) (account : MessagingAccountRecord) (status : NormalizedStatus)
    (found : option MessagingMessageRecord) : M StatusFold :=
  settle_status (tenant_transaction (
    _ ← insert_receipt org (ma_id account) (status_event_id status) None "ACCEPTED";
    decide_status org account status found)).

Definition received_event (org : uuid) (m : MessagingMessageRecord) : M unit :=
  enqueue_event "messaging.message.received" "messaging_message" (mm_id m) org
    [("message_id", JStr (uuid_str (mm_id m))); ("conversation_id", JStr (uuid_str (mm_conversation_id m)));
     ("channel", JStr (channel_name (mm_channel m))); ("direction", JStr (direction_name (mm_direction m)));
     ("provider", JStr (mm_provider m)); ("provider_message_id", json_of_text (mm_provider_message_id m));
     ("customer_id", match mm_customer_id m with Some id => JStr (uuid_str id) | None => JNull end);
     ("replayed", JBool false)].

Section inbound.
Context `{UnicodeForms} (dep : MessagingDeployment).

Definition resolve_inbound_customer (org : uuid) (channel : MessageChannel) (address_value : string)
    (display : option string) : M uuid :=
  owner ← resolve_or_create org {|
    nc_display_name := stake 200 (match display with Some (String _ _ as d) => d | _ => address_value end);
    nc_preferred_locale := None;
    nc_identity_type := identity_type_for channel;
    nc_identity_value := address_value;
    nc_identity_source := "messaging_" +:+ lower (channel_name channel);
    nc_default_country := None |};
  mret (cu_id owner.1).

Definition resolve_inbound_conversation (org : uuid) (account : MessagingAccountRecord) (customer_id : uuid)
    (external_thread_hint : string) : M ConversationRecord :=
  opened ← open_or_resolve org {|
    cv_customer_id := Some customer_id;
    cv_channel_name := lower (channel_name (ma_channel account));
    cv_provider_namespace := Some (stake 47 (ma_provider account));
    cv_external_thread_id := Some (stake 128 external_thread_hint);
    cv_subject := None |};
  mret opened.1.

(** The transaction of [_process_inbound]: the receipt commits with the message. *)
Definition store_inbound (org : uuid) (account : MessagingAccountRecord) (message : MessagingMessageRecord)
    (event_id : string) : M MessagingMessageRecord :=
  _ ← insert_receipt org (ma_id account) (stake 400 event_id) (Some (mm_id message)) "ACCEPTED";
  stored ← insert_message message;
  _ ← append_activity org (mm_customer_id stored) (Some (mm_conversation_id stored)) ActivityType.MESSAGE_INBOUND
        (Some ("messaging.inbound:" +:+ uuid_str (mm_id stored)))
        [("channel", JStr (channel_name (mm_channel stored))); ("message_id", JStr (uuid_str (mm_id stored)))];
  _ ← received_event org stored;
  mret stored.

(** The message of an inbound event: customers and conversations are resolved first. *)
Definition inbound_message (org : uuid) (account : MessagingAccountRecord) (inbound : NormalizedInbound)
    : M MessagingMessageRecord :=
  let default_country := config_text "default_country" (ma_configuration account) in
  sender ← lift (normalize_address (ma_channel account) (ni_sender_raw inbound) default_country None);
  customer_id ← resolve_inbound_customer org (ma_channel account) (ad_value sender) None;
  conversation ← resolve_inbound_conversation org account customer_id (ni_external_thread_hint inbound);
  id ← fresh_uuid;
  recipient ← lift (normalize_address (ma_channel account) (ni_recipient_raw inbound) default_country None);
  correlation ← gets w_correlation;
  created ← utcnow;
  updated ← utcnow;
  mret (mkMessage id org (cn_id conversation) (Some customer_id) (ma_id account) (ma_channel account)
    MessageDirection.INBOUND MessageStatus.RECEIVED (ma_provider account)
    (Some (stake 200 (ni_provider_message_id inbound))) sender [recipient] (ni_content inbound) (ni_email inbound)
    None None correlation None None (ni_provider_timestamp inbound) None None None None created updated).

Definition process_inbound (org : uuid) (account : MessagingAccountRecord) (inbound : NormalizedInbound)
    (event_id : string) : M (option MessagingMessageRecord) :=
  message ← inbound_message org account inbound;
  try_with (stored ← tenant_transaction (store_inbound org account message event_id); mret (Some stored))
    (λ e, match e with IntegrityError => mret None | e => raise e end).

Definition partition_dot (token : string) : string * string :=
  match split_on "." token with
  | [] => (EmptyString, EmptyString)
  | prefix :: _ => (prefix, sdrop (S (String.length prefix)) token)
  end.

Definition decode_webhook_token (token : string) : result exn uuid :=
  let '(prefix, rest) := partition_dot token in
  match rest with
  | EmptyString => Err (Nxs (OtherNxsError "NXS_INT_WEBHOOK_ENDPOINT_NOT_FOUND" false))
  | _ => match md_b64decode dep prefix with
         | Some org => Ok org
         | None => Err (Nxs (OtherNxsError "NXS_INT_WEBHOOK_ENDPOINT_NOT_FOUND" false))
         end
  end.

Fixpoint process_messages (org : uuid) (account : MessagingAccountRecord) (l : list NormalizedInbound)
    (result : InboundResult) : M InboundResult :=
  match l with
  | [] => mret result
  | inbound :: l =>
      stored ← process_inbound org account inbound ("msg:" +:+ ni_provider_message_id inbound);
      process_messages org account l
        match stored with
        | None => mkInboundResult (ir_accepted result) (ir_challenge result) (ir_received result)
                    (ir_status_updates result) (ir_replayed result + 1) (ir_message_ids result)
        | Some m => mkInboundResult (ir_accepted result) (ir_challenge result) (ir_received result + 1)
                    (ir_status_updates result) (ir_replayed result) (ir_message_ids result ++ [uuid_str (mm_id m)])
        end
  end.

Fixpoint process_statuses (org : uuid) (account : MessagingAccountRecord) (l : list NormalizedStatus)
    (result : InboundResult) : M InboundResult :=
  match l with
  | [] => mret result
  | status :: l =>
      fold ← process_status org account status;
      process_statuses org account l
        match fold with
        | advanced => mkInboundResult (ir_accepted result) (ir_challenge result) (ir_received result)
                        (ir_status_updates result + 1) (ir_replayed result) (ir_message_ids result)
        | replayed => mkInboundResult (ir_accepted result) (ir_challenge result) (ir_received result)
                        (ir_status_updates result) (ir_replayed result + 1) (ir_message_ids result)
        | _ => result
        end
  end.

Definition receive (provider_route token : string) (ctx : WebhookContext) : M InboundResult :=
  org ← lift (match decode_webhook_token token with
              | Ok org => Ok org
              | Err _ => Err (messaging_error MessagingAuthFailedError)
              end);
  account ← tenant_transaction (account_by_webhook_token org token);
  match account with
  | None => raise (messaging_error MessagingAuthFailedError)
  | Some account =>
      if negb (String.eqb (ma_provider account) provider_route) then raise (messaging_error MessagingAuthFailedError)
      else if md_max_webhook_body_bytes dep <? slen (wc_body ctx) then raise (messaging_error MessagingPayloadInvalidError)
      else
        provider ← lift (resolve_provider dep (ma_channel account) (ma_provider account));
        secret ← resolve_secret dep org account;
        now ← utcnow;
        _ ← lift (mp_verify_webhook provider account ctx secret (md_timestamp_tolerance_seconds dep) now);
        if String.eqb (upper (wc_method ctx)) "GET"
        then mret (mkInboundResult true (mp_webhook_challenge provider account ctx) 0 0 0 [])
        else if negb (bool_decide (ma_status account = AccountStatus.ACTIVE))
        then raise (messaging_error MessagingAccountDisabledError)
        else
          parsed ← lift (mp_parse_webhook provider account ctx);
          result ← process_messages org account (wp_inbound parsed) (mkInboundResult true None 0 0 0 []);
          process_statuses org account (wp_statuses parsed) result
  end.
End inbound.
