(* ===== verification/MessagingEffects.v ===== *)
(** * MessagingEffects: what the operations do to the messaging tables

    [frames R m]: whatever its outcome, [m] takes a world to one related to it by [R].
    Two relations matter: [apart] leaves the messaging tables and the record of provider
    calls alone; [contains] only the record of calls. The operations that write are then
    described by their effect on a normal return. *)

From S2P Require Import Prelude.
From S2P Require Import PyText.
From S2P Require Import Errors.
From S2P Require Import Lifecycles.
From S2P Require Import Conditions.
From S2P Require Import ScheduleSpec.
From S2P Require Import MessagingStore.
From S2P Require Import CustomerStore.
From S2P Require Import Normalization.
From S2P Require Import CampaignStore.
From S2P Require Import Store.
From S2P Require Import StoreLemmas.
From S2P Require Import Tables.
From S2P Require Import CustomerService.
From S2P Require Import Messages.
From S2P Require Import MessagingRepository.
From S2P Require Import MessagingService.
From S2P Require Import MessagingSend.
From S2P Require Import MessagingInbound.

(** ** Frames *)

(** A relation that holds whatever a program does but write rows. *)
Class Framing (R : relation World) : Prop := {
  framing_preorder :: PreOrder R;
  framing_clock w n : R w (set_w_reads n w);
  framing_txn w t : R w (set_w_txn_now t w);
  framing_uuid w : R w (set_w_next_uuid (N.succ (w_next_uuid w)) w);
  framing_rollback w w1 : R w w1 → R w (set_w_db (w_db w) w1);
}.

Definition frames {A} (R : relation World) (m : M A) : Prop := ∀ w, R w (m w).2.

Create HintDb frames discriminated.
#[export] Hint Constants Opaque : frames.

Lemma ran_frames {A} R (m : M A) w r w' : frames R m → m w = (r, w') → R w w'.
Proof. intros Hm E. specialize (Hm w). by rewrite E in Hm. Qed.

Section framing.
Context {R : relation World} `{!Framing R}.

Lemma frames_bind {A B} (m : M A) (f : A → M B) : frames R m → (∀ a, frames R (f a)) → frames R (m ≫= f).
Proof.
  intros Hm Hf w. specialize (Hm w). unfold mbind, M_bind. destruct (m w) as [[a|e] w1]; simpl in *; [|done].
  etrans; [done|apply Hf].
Qed.

Lemma frames_ret {A} (a : A) : frames R (mret a).
Proof. intros w. reflexivity. Qed.
Lemma frames_raise {A} e : frames R (@raise A e).
Proof. intros w. reflexivity. Qed.
Lemma frames_lift {A} (r : result exn A) : frames R (lift r).
Proof. intros w. reflexivity. Qed.
Lemma frames_gets {A} (f : World → A) : frames R (gets f).
Proof. intros w. reflexivity. Qed.
Lemma frames_utcnow : frames R utcnow.
Proof. intros w. apply framing_clock. Qed.
Lemma frames_fresh : frames R fresh_uuid.
Proof. intros w. apply framing_uuid. Qed.

Lemma opened_frame w : R w (set_w_txn_now (w_clock w (w_reads w)) (set_w_reads (S (w_reads w)) w)).
Proof. etrans; [apply framing_clock|apply framing_txn]. Qed.

Lemma frames_txn {A} (m : M A) : frames R m → frames R (tenant_transaction m).
Proof.
  intros Hm w. unfold tenant_transaction. pose proof (opened_frame w) as H0.
  set (w0 := set_w_txn_now _ _) in *. specialize (Hm w0).
  destruct (m w0) as [[a|e] w1]; simpl in *; [by etrans|]. apply framing_rollback. by etrans.
Qed.

Lemma frames_try {A} (m : M A) h : frames R m → (∀ e, frames R (h e)) → frames R (try_with m h).
Proof.
  intros Hm Hh w. specialize (Hm w). unfold try_with. destruct (m w) as [[a|e] w1]; simpl in *; [done|].
  etrans; [done|apply Hh].
Qed.

Lemma frames_mapM {A B} (f : A → M B) l : (∀ a, frames R (f a)) → frames R (mapM_list f l).
Proof.
  intros Hf. induction l; simpl; [apply frames_ret|].
  apply frames_bind; [done|]. intros b. apply frames_bind; [done|]. intros bs. apply frames_ret.
Qed.
End framing.
#[export] Hint Resolve frames_ret frames_raise frames_lift frames_gets frames_utcnow frames_fresh : frames.

(** A program is framed when what it calls is. *)
Ltac hush :=
  repeat (intros; lazymatch goal with
  | |- frames _ (_ ≫= _) => apply frames_bind
  | |- frames _ (match ?x with _ => _ end) => destruct x
  | |- frames _ (tenant_transaction _) => apply frames_txn
  | |- frames _ (try_with _ _) => apply frames_try
  | |- frames _ (mapM_list _ _) => apply frames_mapM
  | |- frames _ ?m => first [solve [eauto with frames typeclass_instances nocore] | let h := get_head m in unfold h]
  end).

(** ** The two relations *)

Definition contains (w w' : World) : Prop := w_calls w' = w_calls w ∧ (w_next_uuid w ≤ w_next_uuid w')%N.

Definition apart (w w' : World) : Prop := messages_in w' = messages_in w ∧ contains w w'.

#[export] Instance contains_framing : Framing contains.
Proof.
  split; [split| | | |].
  - by intros w.
  - intros w1 w2 w3 [C1 N1] [C2 N2]. split; [congruence|lia].
  - by intros w n.
  - by intros w t.
  - intros w. split; [done|simpl; lia].
  - by intros w w1.
Qed.

#[export] Instance apart_framing : Framing apart.
Proof.
  split; [split| | | |].
  - by intros w.
  - intros w1 w2 w3 [E1 C1] [E2 C2]. split; [congruence|by etrans].
  - by intros w n.
  - by intros w t.
  - intros w. split; [done|apply framing_uuid].
  - by intros w w1 [_ ?].
Qed.

Abbreviation hushed := (frames apart).
Abbreviation contained := (frames contains).

Lemma contained_modify f : contained (modify_db f).
Proof. by intros w. Qed.
Lemma hushed_pmodify f : hushed (pmodify f).
Proof. by intros w. Qed.
Lemma hushed_outbox f : hushed (modify_db (λ d, set_db_outbox (f d) d)).
Proof. by intros w. Qed.
Lemma hushed_contained {A} (m : M A) : hushed m → contained m.
Proof. intros Hm w. apply Hm. Qed.
#[export] Hint Resolve contained_modify hushed_pmodify hushed_outbox : frames.

Lemma hushed_enqueue t a i o p : hushed (enqueue_event t a i o p).
Proof. hush. Qed.
Lemma hushed_append org cu cn ty k d : hushed (append_activity org cu cn ty k d).
Proof. hush. Qed.
Lemma hushed_guard org : hushed (execution_guard org).
Proof. hush. Qed.
#[export] Hint Resolve hushed_enqueue hushed_append hushed_guard : frames.

Section hushed.
Context `{UnicodeForms} (dep : MessagingDeployment).

Lemma hushed_resolve_or_create org request : hushed (resolve_or_create org request).
Proof. hush. Qed.
Lemma hushed_open_or_resolve org request : hushed (open_or_resolve org request).
Proof. hush. Qed.
#[local] Hint Resolve hushed_resolve_or_create hushed_open_or_resolve : frames.
Lemma hushed_plan org request : hushed (plan_send dep org request).
Proof. hush. Qed.
Lemma hushed_answer org plan key : hushed (answer_claimed org plan key).
Proof. hush. Qed.
Lemma hushed_require_account org id : hushed (require_account org id).
Proof. hush. Qed.
Lemma hushed_resolve_secret org account : hushed (resolve_secret dep org account).
Proof. hush. Qed.
Lemma hushed_message_event org t m extra : hushed (message_event org t m extra).
Proof. hush. Qed.
Lemma hushed_status_event org m s : hushed (status_event org m s).
Proof. hush. Qed.
Lemma hushed_inbound_message org account inbound : hushed (inbound_message org account inbound).
Proof. hush. Qed.
End hushed.
#[export] Hint Resolve hushed_plan hushed_answer hushed_require_account hushed_resolve_secret
  hushed_message_event hushed_status_event hushed_inbound_message : frames.

(** ** Transactions *)

(** A transaction returns what its body returns from the same tables, or leaves them. *)
Lemma txn_effect {A} (m : M A) w r w' :
  contained m → tenant_transaction m w = (r, w') →
  match r with
  | Ok a => ∃ w0, w_db w0 = w_db w ∧ w_next_uuid w0 = w_next_uuid w ∧ w_calls w0 = w_calls w ∧ m w0 = (Ok a, w')
  | Err _ => apart w w'
  end.
Proof.
  intros Hm. unfold tenant_transaction. set (w0 := set_w_txn_now _ _). specialize (Hm w0).
  destruct (m w0) as [[a|e] w1] eqn:E; intros [= <- <-]; [by exists w0|]. by split.
Qed.

Lemma contained_insert_send org a k f now e : contained (insert_send org a k f now e).
Proof. hush. Qed.
Lemma contained_insert_message m : contained (insert_message m).
Proof. hush. Qed.
Lemma contained_apply_message org id f : contained (apply_message org id f).
Proof. hush. Qed.
Lemma contained_insert_receipt org a e m s : contained (insert_receipt org a e m s).
Proof. hush. Qed.
#[export] Hint Resolve contained_insert_send contained_insert_message contained_apply_message
  contained_insert_receipt : frames.

(** Opens a normal return of a hushed first command. *)
Tactic Notation "hushed" hyp(H) "as" ident(x) ident(w) ident(Hw) :=
  let E := fresh in ran H as x w E; apply (ran_frames apart) in E as Hw; [|solve [hush]].

Definition send_token (r : MessagingSendIdempotencyRecord) : uuid * uuid * string :=
  (sd_organization_id r, sd_account_id r, sd_idempotency_key r).

Lemma is_send_token org a k r : is_send org a k r = true ↔ send_token r = (org, a, k).
Proof.
  unfold is_send, send_token. rewrite !andb_true_iff, !N.eqb_eq, String.eqb_eq.
  split; [by intros [[-> ->] ->]|by intros [= -> -> ->]].
Qed.

(** ** The claim *)

Lemma insert_send_effect org a k f now e w u w' :
  insert_send org a k f now e w = (Ok u, w') →
  contains w w' ∧ existsb (is_send org a k) (mdb_sends (messages_in w)) = false ∧
  existsb (owned_account org a) (mdb_accounts (messages_in w)) = true ∧
  ∃ c, send_token c = (org, a, k) ∧ sd_status c = SendIdempotencyStatus.PENDING ∧
    messages_in w' = set_mdb_sends (mdb_sends (messages_in w) ++ [c]) (messages_in w).
Proof.
  intros Hr. pose proof (ran_frames contains _ _ _ _ (contained_insert_send _ _ _ _ _ _) Hr) as Hc.
  unfold insert_send in Hr. ran Hr as id w1 H1. injection H1 as <- <-. ran Hr as m w2 H2. injection H2 as <- <-.
  destruct (existsb (is_send _ _ _) _) eqn:Hs; [done|]. destruct (existsb (owned_account _ _) _) eqn:Ha; [|done].
  injection Hr as <- <-. split_and!; [done..|]. eexists. split; [|split; [|reflexivity]]; done.
Qed.

Section claim.
Context (dep : MessagingDeployment).

Lemma claim_key_effect org plan key w r w' :
  claim_key dep org plan key w = (r, w') →
  contains w w' ∧
  match r with
  | Ok true =>
      existsb (is_send org (ma_id (sp_account plan)) key) (mdb_sends (messages_in w)) = false ∧
      existsb (owned_account org (ma_id (sp_account plan))) (mdb_accounts (messages_in w)) = true ∧
      ∃ c, send_token c = (org, ma_id (sp_account plan), key) ∧ sd_status c = SendIdempotencyStatus.PENDING ∧
        messages_in w' = set_mdb_sends (mdb_sends (messages_in w) ++ [c]) (messages_in w)
  | _ => messages_in w' = messages_in w
  end.
Proof.
  intros Hr. unfold claim_key, claim_send, utcnow in Hr. unfold mbind at 1, M_bind at 1 in Hr. cbn beta iota in Hr.
  unfold mbind at 1, M_bind at 1 in Hr. cbn beta iota in Hr. unfold try_with in Hr.
  match type of Hr with context [execution_transaction org ?m ?x] => set (w0 := x) in Hr;
    destruct (execution_transaction org m w0) as [res w1] eqn:Ht end.
  apply txn_effect in Ht; [|hush]. destruct res as [b|e].
  - destruct Ht as (w2 & D2 & N2 & C2 & Hm). injection Hr as <- <-.
    ran Hm as u w3 Hg. apply ran_guard in Hg as ->. ran Hm as u' w4 Hi. injection Hm as <- <-.
    apply insert_send_effect in Hi as ([C4 N4] & Hs & Ha & c & Hc & Hp & Hw).
    rewrite D2 in Hs, Ha, Hw. split.
    + split; [by rewrite C4, C2|]. rewrite N2 in N4. exact N4.
    + split_and!; [done..|]. by exists c.
  - assert (apart w w1) as [E C]. { etrans; [|exact Ht]. by split. }
    destruct e; injection Hr as <- <-; by split.
Qed.
End claim.

(** ** Messages *)

Lemma insert_message_effect m w m' w' :
  insert_message m w = (Ok m', w') →
  m' = m ∧ contains w w' ∧ messages_in w' = set_mdb_messages (mdb_messages (messages_in w) ++ [m]) (messages_in w).
Proof.
  intros Hr. pose proof (ran_frames contains _ _ _ _ (contained_insert_message _) Hr) as Hc.
  unfold insert_message in Hr. ran Hr as d w1 H1. injection H1 as <- <-.
  destruct (_ || _); [done|]. ran Hr as u w2 H2. injection H2 as <- <-. by injection Hr as <- <-.
Qed.

(** A row just queued for the plan. *)
Definition queued_row (org : uuid) (plan : SendPlan) (m : MessagingMessageRecord) : Prop :=
  mm_organization_id m = org ∧ mm_account_id m = ma_id (sp_account plan) ∧
  mm_direction m = MessageDirection.OUTBOUND ∧ mm_status m = MessageStatus.QUEUED ∧ mm_provider_message_id m = None.

Section outbound.
Context `{UnicodeForms} (dep : MessagingDeployment).

Lemma store_queued_effect org m w m' w' :
  (stored ← insert_message m;
   _ ← append_activity org (mm_customer_id stored) (Some (mm_conversation_id stored)) ActivityType.MESSAGE_OUTBOUND
         (Some ("messaging.outbound:" +:+ uuid_str (mm_id stored)))
         [("channel", JStr (channel_name (mm_channel stored))); ("message_id", JStr (uuid_str (mm_id stored)))];
   _ ← message_event org "messaging.message.queued" stored [];
   mret stored) w = (Ok m', w') →
  m' = m ∧ contains w w' ∧ messages_in w' = set_mdb_messages (mdb_messages (messages_in w) ++ [m]) (messages_in w).
Proof.
  intros Hr. ran Hr as s w1 H1. apply insert_message_effect in H1 as (-> & C1 & E1).
  hushed Hr as u w2 A2. hushed Hr as u' w3 A3. injection Hr as <- <-.
  destruct A2 as [E2 C2], A3 as [E3 C3]. split_and!; [done|by do 2 (etrans; [done|])|congruence].
Qed.

Lemma persist_effect org plan request w r w' :
  persist_queued org plan request w = (r, w') →
  contains w w' ∧
  match r with
  | Ok m => queued_row org plan m ∧ (w_next_uuid w ≤ mm_id m < w_next_uuid w')%N ∧
      messages_in w' = set_mdb_messages (mdb_messages (messages_in w) ++ [m]) (messages_in w)
  | Err _ => messages_in w' = messages_in w
  end.
Proof.
  intros Hr. unfold persist_queued, utcnow, fresh_uuid in Hr. cbv zeta in Hr.
  unfold mbind at 1, M_bind at 1 in Hr. cbn beta iota in Hr.
  unfold mbind at 1, M_bind at 1, gets in Hr. cbn beta iota in Hr.
  unfold mbind at 1, M_bind at 1 in Hr. cbn beta iota in Hr.
  unfold mbind at 1, M_bind at 1, lift in Hr. cbn beta iota in Hr.
  set (w0 := set_w_next_uuid _ _) in Hr. assert (apart w w0) as A0. { split; [done|]. split; [done|simpl; lia]. }
  destruct (normalize_address _ _ _ _) as [sender|e].
  2: { injection Hr as <- <-. by destruct A0. }
  set (m := mkMessage _ _ _ _ _ _ _ _ _ _ _ _ _ _ _ _ _ _ _ _ _ _ _ _ _ _) in Hr.
  assert (queued_row org plan m) as Hq by done.
  assert ((w_next_uuid w ≤ mm_id m < w_next_uuid w0)%N) as Hid by (simpl; lia).
  assert (∀ m' w2 w1, w_db w2 = w_db w0 → w_next_uuid w2 = w_next_uuid w0 → w_calls w2 = w_calls w0 →
    m' = m ∧ contains w2 w1 ∧ messages_in w1 = set_mdb_messages (mdb_messages (messages_in w2) ++ [m]) (messages_in w2) →
    contains w w1 ∧ queued_row org plan m' ∧ (w_next_uuid w ≤ mm_id m' < w_next_uuid w1)%N ∧
      messages_in w1 = set_mdb_messages (mdb_messages (messages_in w) ++ [m']) (messages_in w)) as Hdone.
  { intros m' w2 w1 D2 N2 C2 (-> & [C1 N1] & E1). rewrite D2 in E1. rewrite N2 in N1. split.
    - split; [by rewrite C1, C2|]. lia.
    - split; [done|]. split; [lia|]. exact E1. }
  destruct (sm_idempotency_key request).
  - apply txn_effect in Hr; [|hush]. destruct r as [m'|e].
    + destruct Hr as (w2 & D2 & N2 & C2 & Hm). apply store_queued_effect in Hm. by eapply Hdone.
    + destruct Hr as [E C]. destruct A0 as [E0 C0]. split; [by etrans|congruence].
  - apply txn_effect in Hr; [|hush]. destruct r as [m'|e].
    + destruct Hr as (w2 & D2 & N2 & C2 & Hm). ran Hm as u w3 Hg. apply ran_guard in Hg as ->.
      apply store_queued_effect in Hm. by eapply Hdone.
    + destruct Hr as [E C]. destruct A0 as [E0 C0]. split; [by etrans|congruence].
Qed.

(** The call the plan makes for the message. *)
Definition call_of (org : uuid) (plan : SendPlan) (request : SendMessageRequest) (message : MessagingMessageRecord)
    (c : ProviderCall) : Prop :=
  pc_organization_id c = org ∧ pc_account_id c = ma_id (sp_account plan) ∧
  pc_idempotency_key c = sm_idempotency_key request ∧ pc_message_id c = mm_id message.

(** One call at most, and one if there is an outcome. *)
Lemma deliver_effect org plan request message w r w' :
  deliver dep org plan request message w = (r, w') →
  messages_in w' = messages_in w ∧ (w_next_uuid w ≤ w_next_uuid w')%N ∧
  ((∃ e, r = Err e) ∧ w_calls w' = w_calls w ∨
   ∃ c, call_of org plan request message c ∧ w_calls w' = w_calls w ++ [c]).
Proof.
  unfold deliver. unfold mbind at 1, M_bind at 1.
  destruct (resolve_secret dep org (sp_account plan) w) as [[secret|e] w1] eqn:H1;
    apply (ran_frames apart) in H1 as (E1 & C1 & N1); try (hush; fail).
  2: { intros [= <- <-]. split_and!; [done..|]. left. eauto. }
  unfold mbind at 1, M_bind at 1, lift. destruct (prepare plan) as [prepared|e].
  2: { intros [= <- <-]. split_and!; [done..|]. left. eauto. }
  unfold mbind at 1, M_bind at 1. destruct (resolve_provider dep _ _) as [provider|e].
  2: { intros [= <- <-]. split_and!; [done..|]. left. eauto. }
  unfold mbind at 1, M_bind at 1, provider_call. intros Hr.
  assert (∃ x, (r, w') = (x, set_w_calls (w_calls w1 ++ [mkCall org (ma_id (sp_account plan))
    (sm_idempotency_key request) (mm_id message) prepared]) w1)) as [x E].
  { revert Hr. destruct (mp_send _ _ _ _ _) as [result|[]]; intros <-; by eexists. }
  injection E as _ ->. split_and!; [done..|]. right. eexists. split; [|by rewrite <- C1]. done.
Qed.
End outbound.

Lemma apply_message_effect org id f w r w' :
  apply_message org id f w = (Ok r, w') →
  contains w w' ∧
  match r with
  | None => messages_in w' = messages_in w ∧ List.find (owned_message org id) (mdb_messages (messages_in w)) = None
  | Some m => ∃ row now, List.find (owned_message org id) (mdb_messages (messages_in w)) = Some row ∧
      m = set_mm_updated_at now (f row) ∧
      messages_in w' = set_mdb_messages (update_where (owned_message org id) (λ _, m) (mdb_messages (messages_in w)))
        (messages_in w)
  end.
Proof.
  intros Hr. pose proof (ran_frames contains _ _ _ _ (contained_apply_message _ _ _) Hr) as Hc. split; [done|].
  unfold apply_message in Hr. ran Hr as now w1 H1. injection H1 as <- <-. ran Hr as m w2 H2. injection H2 as <- <-.
  change (messages_in (set_w_reads (S (w_reads w)) w)) with (messages_in w) in Hr.
  destruct (List.find _ _) as [row|] eqn:Hf; [|by injection Hr as <- <-].
  destruct (provider_id_taken _ _ _); [done|]. ran Hr as u w3 H3. injection H3 as <- <-. injection Hr as <- <-.
  by eexists row, _.
Qed.

(** What a terminal write makes of the row of the message. *)
Definition marked_row (outcome : ProviderSendResult + NxsError) (row m : MessagingMessageRecord) : Prop :=
  mm_id m = mm_id row ∧ mm_organization_id m = mm_organization_id row ∧ mm_account_id m = mm_account_id row ∧
  mm_direction m = mm_direction row ∧
  match outcome with
  | inl _ => mm_status m = MessageStatus.SENT
  | inr _ => mm_status m = MessageStatus.FAILED ∧ mm_provider_message_id m = mm_provider_message_id row
  end.

Lemma mark_effect org message outcome w r w' :
  mark org message outcome w = (r, w') →
  contains w w' ∧
  match r with
  | Ok m => ∃ row, List.find (owned_message org (mm_id message)) (mdb_messages (messages_in w)) = Some row ∧
      marked_row outcome row m ∧
      messages_in w' = set_mdb_messages (update_where (owned_message org (mm_id message)) (λ _, m)
        (mdb_messages (messages_in w))) (messages_in w)
  | Err _ => messages_in w' = messages_in w
  end.
Proof.
  intros Hr. destruct outcome as [result|error]; cbn [mark] in Hr; unfold mark_sent, mark_failed, utcnow in Hr;
    unfold mbind at 1, M_bind at 1 in Hr; cbn beta iota in Hr;
    (apply txn_effect in Hr; [|hush]); (destruct r as [m|e]; [|destruct Hr as [E C]; split; [exact C|exact E]]);
    destruct Hr as (w0 & D0 & N0 & C0 & Hm); ran Hm as x w1 H1; apply apply_message_effect in H1 as ([C1 N1] & H1);
    (destruct x as [x|]; [|by ran Hm as y w2 Hy]); ran Hm as y w2 Hy; injection Hy as <- <-;
    hushed Hm as u w3 A3; injection Hm as <- <-; destruct A3 as (E3 & C3 & N3);
    destruct H1 as (row & now & Hf & -> & Hw); rewrite D0 in Hf, Hw;
    (split; [split; [by rewrite C3, C1, C0|rewrite N0 in N1; etrans; [exact N1|exact N3]]|]);
    (exists row; split; [exact Hf|]; split; [|by rewrite E3, Hw]); unfold marked_row; [by destruct (res_sms result)|done].
Qed.

(** Finalising changes the claim of the key and no other, and not its key. *)
Lemma conclude_effect org plan request m outcome w r w' :
  conclude org plan request m outcome w = (r, w') →
  contains w w' ∧ r = (match outcome with inl _ => Ok m | inr e => Err (Nxs e) end) ∧
  match sm_idempotency_key request with
  | None => messages_in w' = messages_in w
  | Some key => ∃ f, (∀ c, send_token (f c) = send_token c ∧
        match outcome with
        | inl _ => sd_status (f c) = SendIdempotencyStatus.COMPLETED ∧ sd_result (f c) = Some m
        | inr _ => sd_status (f c) = SendIdempotencyStatus.FAILED
        end) ∧
      messages_in w' = set_mdb_sends (update_where (is_send org (ma_id (sp_account plan)) key) f
        (mdb_sends (messages_in w))) (messages_in w)
  end.
Proof.
  intros Hr. unfold conclude in Hr. destruct (sm_idempotency_key request) as [key|].
  2: { destruct outcome; injection Hr as <- <-; by split. }
  destruct outcome as [result|error]; unfold finalize_send, tenant_transaction, utcnow, mmodify, modify_db, mbind, M_bind in Hr;
    cbn beta iota zeta in Hr; injection Hr as <- <-; (split; [by split|]); (split; [done|]);
    eexists; (split; [|reflexivity]); by intros c.
Qed.

(** ** Webhooks *)

(** Only the receipts differ. *)
Definition receipts_only (m m' : MessagingDB) : Prop := ∃ l, m' = set_mdb_receipts l m.

Lemma insert_receipt_effect org a e mid s w u w' :
  insert_receipt org a e mid s w = (Ok u, w') → contains w w' ∧ receipts_only (messages_in w) (messages_in w').
Proof.
  intros Hr. pose proof (ran_frames contains _ _ _ _ (contained_insert_receipt _ _ _ _ _) Hr) as Hc. split; [done|].
  unfold insert_receipt in Hr. ran Hr as id w1 H1. injection H1 as <- <-. ran Hr as now w2 H2. injection H2 as <- <-.
  ran Hr as m w3 H3. injection H3 as <- <-. destruct (_ || _); [done|]. injection Hr as <- <-. by eexists.
Qed.

(** What a callback that read [seen] makes of the row. *)
Definition folded_row (seen row m : MessagingMessageRecord) : Prop :=
  mm_id m = mm_id row ∧ mm_organization_id m = mm_organization_id row ∧ mm_account_id m = mm_account_id row ∧
  mm_direction m = mm_direction row ∧ mm_provider_message_id m = mm_provider_message_id row ∧
  ∃ reported, to_advanced (apply_callback (mm_status seen) reported) = true ∧ mm_status m = reported.

Lemma callback_row status seen row now later :
  to_advanced (apply_callback (mm_status seen) (ns_status status)) = true →
  let changed := set_mm_updated_at later (callback_changes (to_status (apply_callback (mm_status seen) (ns_status status)))
                   status seen now row) in
  folded_row seen row changed.
Proof.
  intros Ha. assert (to_status (apply_callback (mm_status seen) (ns_status status)) = ns_status status) as ->.
  { destruct (apply_callback_spec (mm_status seen) (ns_status status)) as (_ & _ & ->). by rewrite Ha. }
  cbv zeta. unfold folded_row.
  destruct (ns_status status) eqn:E; cbn -[apply_callback]; (split_and!; [done..|]); eexists; (split; [exact Ha|done]).
Qed.

(** A callback folds the row of its organization that it read, or writes no message. *)
Definition fold_effect (org : uuid) (found : option MessagingMessageRecord) (m m' : MessagingDB) : Prop :=
  receipts_only m m' ∨
  ∃ seen row new l, found = Some seen ∧ row ∈ mdb_messages m ∧ mm_id row = mm_id seen ∧
    mm_organization_id row = org ∧ folded_row seen row new ∧
    m' = set_mdb_receipts l (set_mdb_messages (update_where (owned_message org (mm_id row)) (λ _, new) (mdb_messages m)) m).

Lemma find_same {A} (key : A → uuid) (p : A → bool) l x y :
  NoDup (map key l) → List.find p l = Some x → y ∈ l → (∀ z, p z = true → key z = key y) → x = y.
Proof.
  intros Hn [Hx Hp]%find_elem Hy Hk. eapply (NoDup_map_inj key); [done..|]. by apply Hk.
Qed.

Lemma owned_message_id org id m : owned_message org id m = true → mm_organization_id m = org ∧ mm_id m = id.
Proof. unfold owned_message. by rewrite andb_true_iff, !N.eqb_eq. Qed.

Lemma decide_status_effect org account status found w x w' :
  decide_status org account status found w = (Ok x, w') →
  contains w w' ∧ fold_effect org found (messages_in w) (messages_in w').
Proof.
  intros Hr. unfold decide_status in Hr. destruct found as [seen|]; [|done].
  destruct (to_advanced _) eqn:Ha; simpl in Hr.
  2: { injection Hr as _ <-. split; [by split|]. left. exists (mdb_receipts (messages_in w)). by destruct (messages_in w). }
  ran Hr as now w2 H2. injection H2 as <- <-. ran Hr as y w3 H3. apply apply_message_effect in H3 as (C3 & H3).
  destruct y as [y|]; [|by ran Hr as z w4 Hz]. destruct H3 as (row & later & Hf & -> & E3).
  ran Hr as z w4 Hz. injection Hz as <- <-. ran Hr as u' w5 H5. injection H5 as <- <-.
  hushed Hr as u2 w6 A6. injection Hr as _ <-. destruct A6 as (E6 & C6).
  change (messages_in (set_w_reads (S (w_reads w)) w)) with (messages_in w) in Hf, E3.
  apply find_elem in Hf as [Hrow [Ho Hi]%owned_message_id]. split.
  { revert C3 C6. unfold contains. simpl. intros [-> ?] [-> ?]. split; [done|lia]. }
  right. eexists seen, row, _, _. split_and!; [done..|by apply callback_row|]. rewrite E6. simpl. rewrite E3, Hi. reflexivity.
Qed.

Lemma settle_effect m w :
  (settle_status m w).2 = (m w).2.
Proof. unfold settle_status, try_with. by destruct (m w) as [[|[]] ?]. Qed.

Lemma commit_status_effect org account status found w :
  let w' := (commit_status org account status found w).2 in
  contains w w' ∧ fold_effect org found (messages_in w) (messages_in w').
Proof.
  cbv zeta. unfold commit_status. rewrite settle_effect.
  destruct (tenant_transaction _ w) as [r w1] eqn:Ht. apply txn_effect in Ht; [|hush]. destruct r as [x|e]; simpl.
  - destruct Ht as (w0 & D0 & N0 & C0 & Hm). ran Hm as u w2 H2. apply insert_receipt_effect in H2 as ([C2 N2] & l & E2).
    apply decide_status_effect in Hm as ([C1 N1] & He). split; [split; [by rewrite C1, C2, C0|rewrite N0 in N2; lia]|].
    rewrite E2, D0 in He. destruct He as [[l' E]|(seen & row & new & l' & -> & Hrow & Hi & Ho & Hfold & E)].
    + left. exists l'. by rewrite E.
    + right. exists seen, row, new, l'. done.
  - destruct Ht as [E C]. split; [done|]. left. exists (mdb_receipts (messages_in w)). rewrite E. by destruct (messages_in w).
Qed.

(** The message a callback finds. *)
Definition status_target (org : uuid) (account : MessagingAccountRecord) (status : NormalizedStatus) (m : MessagingDB)
    : option MessagingMessageRecord :=
  List.find (has_provider_id org (ma_id account) MessageDirection.OUTBOUND (ns_provider_message_id status)) (mdb_messages m).

(** A callback that no other transaction overtakes commits what it read. *)
Lemma process_is_commit org account status w :
  process_status org account status w = commit_status org account status (status_target org account status (messages_in w)) w.
Proof.
  enough (∀ w, fold_status org account status w = (_ ← insert_receipt org (ma_id account) (status_event_id status) None "ACCEPTED";
    decide_status org account status (status_target org account status (messages_in w))) w) as E.
  { unfold process_status, commit_status, settle_status, try_with, tenant_transaction. by rewrite E. }
  clear w. intros w. unfold fold_status, mbind, M_bind. destruct (insert_receipt _ _ _ _ _ w) as [[u|e] w1] eqn:H1; [|done].
  apply insert_receipt_effect in H1 as (_ & l & E1). unfold by_provider_id, mgets, gets. by rewrite E1.
Qed.

(** An inbound message: a new row, received. *)
Definition received_row (org : uuid) (m : MessagingMessageRecord) : Prop :=
  mm_organization_id m = org ∧ mm_direction m = MessageDirection.INBOUND ∧ mm_status m = MessageStatus.RECEIVED.

Section inbound.
Context `{UnicodeForms}.

Lemma inbound_message_effect org account inbound w m w' :
  inbound_message org account inbound w = (Ok m, w') →
  apart w w' ∧ received_row org m ∧ (w_next_uuid w ≤ mm_id m < w_next_uuid w')%N.
Proof.
  intros Hr. pose proof (ran_frames apart _ _ _ _ (hushed_inbound_message _ _ _) Hr) as Ha. split; [done|].
  unfold inbound_message in Hr. ran Hr as s w1 H1. injection H1 as _ <-.
  ran Hr as c w2 H2. apply (ran_frames apart) in H2 as (_ & _ & N2).
  2: { unfold resolve_inbound_customer. apply frames_bind; [apply hushed_resolve_or_create|]. intros; apply frames_ret. }
  ran Hr as v w3 H3. apply (ran_frames apart) in H3 as (_ & _ & N3).
  2: { unfold resolve_inbound_conversation. apply frames_bind; [apply hushed_open_or_resolve|]. intros; apply frames_ret. }
  ran Hr as id w4 H4. injection H4 as <- <-. ran Hr as rc w5 H5. injection H5 as _ <-.
  ran Hr as k w6 H6. injection H6 as _ <-. ran Hr as t1 w7 H7. injection H7 as _ <-.
  ran Hr as t2 w8 H8. injection H8 as _ <-. injection Hr as <- <-. split; [done|]. simpl. lia.
Qed.

Lemma store_inbound_effect org account m e w m' w' :
  store_inbound org account m e w = (Ok m', w') →
  contains w w' ∧ ∃ l, messages_in w' = set_mdb_receipts l (set_mdb_messages (mdb_messages (messages_in w) ++ [m]) (messages_in w)).
Proof.
  intros Hr. unfold store_inbound in Hr. ran Hr as u w1 H1. apply insert_receipt_effect in H1 as (C1 & l & E1).
  ran Hr as s w2 H2. apply insert_message_effect in H2 as (-> & C2 & E2).
  hushed Hr as u2 w3 A3. hushed Hr as u3 w4 A4. injection Hr as <- <-. destruct A3 as [E3 C3], A4 as [E4 C4].
  split; [by do 3 (etrans; [eassumption|])|]. exists l. rewrite E4, E3, E2, E1. done.
Qed.

Lemma process_inbound_effect org account inbound e w r w' :
  process_inbound org account inbound e w = (r, w') →
  contains w w' ∧
  (messages_in w' = messages_in w ∨
   ∃ m l, received_row org m ∧ (w_next_uuid w ≤ mm_id m < w_next_uuid w')%N ∧
     messages_in w' = set_mdb_receipts l (set_mdb_messages (mdb_messages (messages_in w) ++ [m]) (messages_in w))).
Proof.
  unfold process_inbound. unfold mbind at 1, M_bind at 1. intros Hr.
  destruct (inbound_message org account inbound w) as [[m|x] w1] eqn:Hm.
  2: { apply (ran_frames apart) in Hm as [E C]; [|apply hushed_inbound_message]. injection Hr as <- <-. auto. }
  apply inbound_message_effect in Hm as ((E1 & C1) & Hrow & Hid). unfold try_with, mbind, M_bind in Hr.
  destruct (tenant_transaction _ w1) as [r' w2] eqn:Ht. apply txn_effect in Ht; [|hush]. destruct r' as [m'|x].
  - destruct Ht as (w0 & D0 & N0 & C0 & Hs). apply store_inbound_effect in Hs as ([C2 N2] & l & E2).
    rewrite N0 in N2. injection Hr as <- <-. split.
    + etrans; [exact C1|]. split; [by rewrite C2, C0|done].
    + right. exists m, l. split; [done|]. split; [lia|]. by rewrite E2, D0, E1.
  - destruct Ht as [E2 C2]. assert (w' = w2) as -> by (by destruct x; injection Hr as <- <-).
    split; [by etrans|left; congruence].
Qed.
End inbound.

(** ** Accounts *)

Definition account_of (org account_id : uuid) (m : MessagingDB) : Prop :=
  existsb (owned_account org account_id) (mdb_accounts m) = true.

(** An account appears under a fresh id, changes, or is removed with its claims, when no
    message is of it; messages stay. *)
Inductive account_effect (n n' : uuid) (m : MessagingDB) : MessagingDB → Prop :=
| ae_create a : (n ≤ ma_id a < n')%N → account_effect n n' m (set_mdb_accounts (mdb_accounts m ++ [a]) m)
| ae_update p f :
    (∀ a, ma_id (f a) = ma_id a ∧ ma_organization_id (f a) = ma_organization_id a) →
    account_effect n n' m (set_mdb_accounts (update_where p f (mdb_accounts m)) m)
| ae_delete org id l :
    account_effect n n' m
      (set_mdb_accounts (List.filter (λ r, negb (owned_account org id r)) (mdb_accounts m))
      (set_mdb_receipts l
      (set_mdb_sends (List.filter (λ r, negb (N.eqb (sd_organization_id r) org && N.eqb (sd_account_id r) id)) (mdb_sends m)) m))).

(** What an operation on accounts does: nothing to messaging, or one such effect. *)
Definition manages {A} (m : M A) : Prop := ∀ w r w', m w = (r, w') →
  contains w w' ∧ (messages_in w' = messages_in w ∨
    account_effect (w_next_uuid w) (w_next_uuid w') (messages_in w) (messages_in w')).

Lemma hushed_manages {A} (m : M A) : hushed m → manages m.
Proof. intros Hm w r w' [E C]%(ran_frames apart _ _ _ _ Hm). auto. Qed.

Lemma manages_after {A B} (m : M A) (f : A → M B) : hushed m → (∀ a, manages (f a)) → manages (m ≫= f).
Proof.
  intros Hm Hf w r w'. unfold mbind, M_bind. destruct (m w) as [[a|e] w1] eqn:E;
    apply (ran_frames apart _ _ _ _ Hm) in E as (E & C & N).
  - intros [[C2 N2] H2]%Hf. split; [split; [congruence|lia]|]. rewrite E in H2.
    destruct H2 as [H2|H2]; [by left|right]. inversion H2; constructor; try done; lia.
  - intros [= <- <-]. split; [done|by left].
Qed.

Lemma manages_then {A B} (m : M A) (f : A → M B) : manages m → (∀ a, hushed (f a)) → manages (m ≫= f).
Proof.
  intros Hm Hf w r w'. unfold mbind, M_bind. destruct (m w) as [[a|e] w1] eqn:E; [|by intros [= <- <-]; eapply Hm].
  apply Hm in E as [[C N] H1]. intros (E2 & C2 & N2)%(ran_frames apart _ _ _ _ (Hf a)).
  split; [split; [congruence|lia]|]. rewrite E2. destruct H1 as [H1|H1]; [by left|right].
  inversion H1; constructor; try done; lia.
Qed.

Lemma manages_txn {A} (m : M A) :
  contained m →
  (∀ w a w', m w = (Ok a, w') → messages_in w' = messages_in w ∨
     account_effect (w_next_uuid w) (w_next_uuid w') (messages_in w) (messages_in w')) →
  manages (tenant_transaction m).
Proof.
  intros Hc Hm w r w' Ht. apply txn_effect in Ht; [|done]. destruct r as [a|e]; [|destruct Ht; auto].
  destruct Ht as (w0 & D0 & N0 & C0 & H0). pose proof (ran_frames contains _ _ _ _ Hc H0) as [C1 N1].
  apply Hm in H0. rewrite D0, N0 in H0. rewrite N0 in N1. split; [split; [congruence|done]|done].
Qed.

Lemma manages_apply org id f :
  (∀ a, ma_id (f a) = ma_id a ∧ ma_organization_id (f a) = ma_organization_id a) →
  manages (tenant_transaction (apply_account org id f)).
Proof.
  intros Hf. apply manages_txn; [hush|]. intros w a w' Hr. right. unfold apply_account in Hr.
  ran Hr as now w1 H1. injection H1 as <- <-. ran Hr as u w2 H2. injection H2 as <- <-. injection Hr as <- <-.
  simpl. constructor. intros b. by destruct (Hf b).
Qed.

Lemma manages_delete org id : manages (tenant_transaction (delete_one_account org id)).
Proof.
  apply manages_txn; [hush|]. intros w a w' Hr. unfold delete_one_account in Hr.
  ran Hr as m w1 H1. injection H1 as <- <-. destruct (negb _); [injection Hr as <- <-; by left|].
  destruct (existsb _ (mdb_messages _)); [done|]. ran Hr as u w2 H2. injection H2 as <- <-. injection Hr as <- <-.
  right. simpl. constructor.
Qed.

Section accounts.
Context `{UnicodeForms} (dep : MessagingDeployment).

Lemma manages_create org request random : manages (create_account dep org request random).
Proof.
  unfold create_account. repeat (apply manages_after; [hush|]; intros). apply manages_txn; [hush|].
  intros w x w' Hr. right. ran Hr as id w1 H1. injection H1 as <- <-. unfold insert_account in Hr.
  ran Hr as now w2 H2. injection H2 as <- <-. ran Hr as m w3 H3. injection H3 as <- <-.
  destruct (existsb _ _); [done|]. ran Hr as u w4 H4. injection H4 as <- <-. injection Hr as <- <-.
  simpl. constructor. simpl. lia.
Qed.

Lemma manages_update org id configuration : manages (update_account dep org id configuration).
Proof.
  unfold update_account. apply manages_after; [hush|]. intros account.
  destruct configuration; [|apply hushed_manages; hush]. apply manages_after; [hush|]. intros c.
  apply manages_then; [by apply manages_apply|]. intros; hush.
Qed.

Lemma manages_set_status org id status : manages (set_account_status org id status).
Proof.
  unfold set_account_status. apply manages_after; [hush|]. intros account.
  apply manages_then; [by apply manages_apply|]. intros; hush.
Qed.

Lemma manages_delete_account org id : manages (delete_account dep org id).
Proof.
  unfold delete_account. repeat (apply manages_after; [hush|]; intros).
  destruct (_ : bool); [apply hushed_manages; hush|]. apply manages_after; [hush|]. intros u.
  apply manages_then; [apply manages_delete|]. intros; hush.
Qed.

Lemma manages_store_credential org id fields : manages (store_account_credential dep org id fields).
Proof.
  unfold store_account_credential. repeat (apply manages_after; [hush|]; intros).
  destruct (bool_decide _); [apply hushed_manages; hush|].
  apply manages_then; [by apply manages_apply|]. intros; hush.
Qed.

Lemma manages_delete_credential org id : manages (delete_account_credential dep org id).
Proof.
  unfold delete_account_credential. apply manages_after; [hush|]. intros account.
  destruct (ma_credential_ref account); [|apply hushed_manages; hush]. apply manages_after; [hush|]. intros u.
  apply manages_then; [by apply manages_apply|]. intros; hush.
Qed.
End accounts.
