(* ===== verification/MessagingSystem.v ===== *)
(** * MessagingSystem: concurrent sends, webhooks and account management

    A request to [send] passes through stages, one for each of its transactions and one
    for the provider call; [send_is_stages] shows that the stages in sequence are [send].
    In the system any number of senders advance in any order, may crash at any stage, and
    interleave with provider webhooks, account management and everything that leaves
    messaging alone. *)

From S2P Require Import Prelude.
From S2P Require Import PyText.
From S2P Require Import Errors.
From S2P Require Import Lifecycles.
From S2P Require Import Conditions.
From S2P Require Import ScheduleSpec.
From S2P Require Import MessagingStore.
From S2P Require Import CustomerStore.
From S2P Require Import Normalization.
From S2P Require Import CampaignStore.
From S2P Require Import Store.
From S2P Require Import StoreLemmas.
From S2P Require Import Tables.
From S2P Require Import CustomerService.
From S2P Require Import Messages.
From S2P Require Import MessagingRepository.
From S2P Require Import MessagingService.
From S2P Require Import MessagingSend.
From S2P Require Import MessagingInbound.
From S2P Require Import MessagingEffects.

Abbreviation SendOutcome := (ProviderSendResult + NxsError)%type.

Inductive send_stage : Type :=
| Requested
| Planned (plan : SendPlan)
| Refused (plan : SendPlan)
| Owned (plan : SendPlan)
| Queued (plan : SendPlan) (message : MessagingMessageRecord)
| Answered (plan : SendPlan) (message : MessagingMessageRecord) (outcome : SendOutcome)
| Marked (plan : SendPlan) (message : MessagingMessageRecord) (outcome : SendOutcome)
| Concluded (r : result exn MessagingMessageRecord)
| Crashed.

Record Sender : Type := mkSender {
  se_org : uuid;
  se_request : SendMessageRequest;
  se_stage : send_stage;
}.

(** A failure ends the request. *)
Definition proceed {A} (next : A → send_stage) (r : result exn A * World) : send_stage * World :=
  match r with
  | (Ok a, w) => (next a, w)
  | (Err e, w) => (Concluded (Err e), w)
  end.

Section system.
Context `{UnicodeForms} (dep : MessagingDeployment).

Definition send_step (org : uuid) (request : SendMessageRequest) (s : send_stage) (w : World) : send_stage * World :=
  match s with
  | Requested =>
      proceed (λ plan, match sm_idempotency_key request with None => Owned plan | Some _ => Planned plan end)
        (plan_send dep org request w)
  | Planned plan =>
      match sm_idempotency_key request with
      | None => (Owned plan, w)
      | Some key => proceed (λ owner : bool, if owner then Owned plan else Refused plan) (claim_key dep org plan key w)
      end
  | Refused plan =>
      match sm_idempotency_key request with
      | None => (Owned plan, w)
      | Some key => let '(r, w') := answer_claimed org plan key w in (Concluded r, w')
      end
  | Owned plan => proceed (Queued plan) (persist_queued org plan request w)
  | Queued plan message => proceed (Answered plan message) (deliver dep org plan request message w)
  | Answered plan message outcome => proceed (λ m, Marked plan m outcome) (mark org message outcome w)
  | Marked plan message outcome => let '(r, w') := conclude org plan request message outcome w in (Concluded r, w')
  | Concluded _ | Crashed => (s, w)
  end.

Fixpoint run_stages (n : nat) (org : uuid) (request : SendMessageRequest) (s : send_stage) (w : World)
    : send_stage * World :=
  match n with
  | O => (s, w)
  | S n => let '(s', w') := send_step org request s w in run_stages n org request s' w'
  end.

(** The stages in sequence are [send]. *)
Lemma run_concluded n org request r w : run_stages n org request (Concluded r) w = (Concluded r, w).
Proof. by induction n. Qed.

Lemma send_owned_is_stages org plan request w :
  run_stages 4 org request (Owned plan) w =
    (Concluded (send_owned dep org plan request w).1, (send_owned dep org plan request w).2).
Proof.
  cbn [run_stages send_step]. unfold send_owned, mbind, M_bind.
  destruct (persist_queued org plan request w) as [[m|e] w1]; cbn [proceed send_step]; [|done].
  destruct (deliver dep org plan request m w1) as [[o|e] w2]; cbn [proceed send_step]; [|done].
  destruct (mark org m o w2) as [[m'|e] w3]; cbn [proceed send_step]; [|done].
  destruct (conclude org plan request m' o w3). done.
Qed.

Lemma run_stages_app n k org request s w :
  run_stages (n + k) org request s w =
    let '(s', w') := run_stages n org request s w in run_stages k org request s' w'.
Proof.
  revert s w. induction n as [|n IH]; intros s w; [done|]. cbn [Nat.add run_stages].
  destruct (send_step org request s w). apply IH.
Qed.

Lemma send_is_stages org request w :
  run_stages 6 org request Requested w = (Concluded (send dep org request w).1, (send dep org request w).2).
Proof.
  change 6%nat with (1 + (1 + 4))%nat. rewrite run_stages_app. cbn [run_stages send_step].
  unfold send at 1 2. unfold mbind at 1 3, M_bind at 1 3.
  destruct (plan_send dep org request w) as [[plan|e] w1]; cbn [proceed]; [|done].
  destruct (sm_idempotency_key request) as [key|] eqn:Hk.
  - cbn [Nat.add run_stages send_step]. rewrite Hk. unfold mbind, M_bind.
    destruct (claim_key dep org plan key w1) as [[[]|e] w2]; cbn [proceed].
    + apply send_owned_is_stages.
    + cbn [send_step]. rewrite Hk. by destruct (answer_claimed org plan key w2).
    + done.
  - rewrite (Nat.add_comm 1 4), run_stages_app, send_owned_is_stages. cbn [run_stages send_step]. done.
Qed.

(** What a callback read: nothing, or a version of a row that is stored, from when its
    message had been accepted by the provider. [read_covers] shows that this admits all
    that a callback can have read in an earlier state. *)
Definition was_read (org : uuid) (account : MessagingAccountRecord) (status : NormalizedStatus)
    (found : option MessagingMessageRecord) (m : MessagingDB) : Prop :=
  match found with
  | None => True
  | Some seen =>
      (3 ≤ status_rank (mm_status seen))%Z ∧
      ∃ row, row ∈ mdb_messages m ∧ mm_id row = mm_id seen ∧
        has_provider_id org (ma_id account) MessageDirection.OUTBOUND (ns_provider_message_id status) row = true
  end.

(** A step of the system. A callback commits what it made of the row it read; unless
    [overtaking], it read the row as it is. *)
Inductive msg_step_with (overtaking : bool) : World * list Sender → World * list Sender → Prop :=
| ms_request w ss org request : msg_step_with overtaking (w, ss) (w, mkSender org request Requested :: ss)
| ms_advance w a x b :
    msg_step_with overtaking (w, a ++ x :: b)
      ((send_step (se_org x) (se_request x) (se_stage x) w).2,
       a ++ mkSender (se_org x) (se_request x) (send_step (se_org x) (se_request x) (se_stage x) w).1 :: b)
| ms_crash w a x b : msg_step_with overtaking (w, a ++ x :: b) (w, a ++ mkSender (se_org x) (se_request x) Crashed :: b)
| ms_status w ss org account status found :
    was_read org account status found (messages_in w) →
    (overtaking = false → found = status_target org account status (messages_in w)) →
    msg_step_with overtaking (w, ss) ((commit_status org account status found w).2, ss)
| ms_inbound w ss org account inbound event_id :
    msg_step_with overtaking (w, ss) ((process_inbound org account inbound event_id w).2, ss)
| ms_create_account w ss org request random : msg_step_with overtaking (w, ss) ((create_account dep org request random w).2, ss)
| ms_update_account w ss org id configuration : msg_step_with overtaking (w, ss) ((update_account dep org id configuration w).2, ss)
| ms_account_status w ss org id status : msg_step_with overtaking (w, ss) ((set_account_status org id status w).2, ss)
| ms_delete_account w ss org id : msg_step_with overtaking (w, ss) ((tenant_transaction (delete_one_account org id) w).2, ss)
| ms_store_credential w ss org id fields : msg_step_with overtaking (w, ss) ((store_account_credential dep org id fields w).2, ss)
| ms_delete_credential w ss org id : msg_step_with overtaking (w, ss) ((delete_account_credential dep org id w).2, ss)
| ms_elsewhere w w' ss : apart w w' → msg_step_with overtaking (w, ss) (w', ss).

Definition msg_reachable (st : World * list Sender) : Prop :=
  ∃ w0, messages_in w0 = empty_messaging_db ∧ w_calls w0 = [] ∧ rtc (msg_step_with true) (w0, []) st.
End system.

(** Any step, and one in which no callback is overtaken. *)
Abbreviation msg_step dep := (msg_step_with dep true).
Abbreviation orderly_step dep := (msg_step_with dep false).

Lemma orderly_msg_step `{UnicodeForms} dep st st' : orderly_step dep st st' → msg_step dep st st'.
Proof. intros []; by econstructor. Qed.

(** ** The invariant *)

Definition token : Type := uuid * uuid * string.

Definition sender_token (x : Sender) : option token :=
  match se_stage x, sm_idempotency_key (se_request x) with
  | Owned plan, Some key | Queued plan _, Some key => Some (se_org x, ma_id (sp_account plan), key)
  | _, _ => None
  end.

Definition call_token (c : ProviderCall) : option token :=
  match pc_idempotency_key c with
  | Some key => Some (pc_organization_id c, pc_account_id c, key)
  | None => None
  end.

(** The keys under which a provider was, or is about to be, called. *)
Definition tokens (w : World) (ss : list Sender) : list token := omap sender_token ss ++ omap call_token (w_calls w).

(** The key is claimed, or its account is gone for good. *)
Definition held (w : World) (t : token) : Prop :=
  let '(org, a, _) := t in
  (a < w_next_uuid w)%N ∧
  ((∃ c, c ∈ mdb_sends (messages_in w) ∧ send_token c = t) ∨ ¬ account_of org a (messages_in w)).

Record Tables (w : World) : Prop := {
  tb_accounts : ∀ a, a ∈ mdb_accounts (messages_in w) → (ma_id a < w_next_uuid w)%N;
  tb_messages : keyed mm_id (w_next_uuid w) (mdb_messages (messages_in w));
  tb_sent : ∀ r, r ∈ mdb_messages (messages_in w) → mm_direction r = MessageDirection.OUTBOUND →
    mm_provider_message_id r ≠ None → (3 ≤ status_rank (mm_status r))%Z;
  tb_claims : NoDup (map send_token (mdb_sends (messages_in w)));
  tb_final : ∀ c, c ∈ mdb_sends (messages_in w) → sd_status c ≠ SendIdempotencyStatus.PENDING →
    ∃ call, call ∈ w_calls w ∧ call_token call = Some (send_token c) ∧
      (sd_status c = SendIdempotencyStatus.COMPLETED →
       ∃ m, sd_result c = Some m ∧ mm_status m = MessageStatus.SENT ∧ pc_message_id call = mm_id m);
}.

(** The message a sender still has to mark. *)
Definition in_flight (x : Sender) : option uuid :=
  match se_stage x with
  | Queued _ m | Answered _ m _ => Some (mm_id m)
  | _ => None
  end.

Definition waiting_row (r : MessagingMessageRecord) : Prop :=
  mm_direction r = MessageDirection.OUTBOUND ∧ mm_status r = MessageStatus.QUEUED ∧ mm_provider_message_id r = None.

Record SenderOK (w : World) (x : Sender) : Prop := {
  so_row : ∀ id, in_flight x = Some id →
    ∃ r, r ∈ mdb_messages (messages_in w) ∧ mm_id r = id ∧ mm_organization_id r = se_org x ∧ waiting_row r;
  so_called : ∀ p m o, se_stage x = Answered p m o ∨ se_stage x = Marked p m o →
    ∃ c, c ∈ w_calls w ∧ call_of (se_org x) p (se_request x) m c;
  so_marked : ∀ p m r, se_stage x = Marked p m (inl r) → mm_status m = MessageStatus.SENT;
}.

Record MsgInv (w : World) (ss : list Sender) : Prop := {
  mi_tables : Tables w;
  mi_senders : ∀ x, x ∈ ss → SenderOK w x;
  mi_tokens : NoDup (tokens w ss);
  mi_held : ∀ t, t ∈ tokens w ss → held w t;
  mi_flight : NoDup (omap in_flight ss);
}.

#[export] Instance MsgInv_perm w : Proper ((≡ₚ) ==> iff) (MsgInv w).
Proof.
  assert (∀ ss ss', ss ≡ₚ ss' → MsgInv w ss → MsgInv w ss') as Hp.
  { intros ss ss' Hp [HT HS Hn Hh Hf]. constructor; [done| | | |].
    - intros x Hx. apply HS. by rewrite Hp.
    - unfold tokens. by rewrite <- Hp.
    - intros t. unfold tokens. rewrite <- Hp. apply Hh.
    - by rewrite <- Hp. }
  intros ss ss' E. split; by apply Hp.
Qed.

(** What another's step may do to the tables of a sender. *)
Record rely (w w' : World) : Prop := {
  rl_next : (w_next_uuid w ≤ w_next_uuid w')%N;
  rl_calls : ∀ c, c ∈ w_calls w → c ∈ w_calls w';
  rl_accounts : ∀ org a, (a < w_next_uuid w)%N → account_of org a (messages_in w') → account_of org a (messages_in w);
  rl_claims : ∀ org a k, (∃ c, c ∈ mdb_sends (messages_in w) ∧ send_token c = (org, a, k)) →
    (∃ c, c ∈ mdb_sends (messages_in w') ∧ send_token c = (org, a, k)) ∨ ¬ account_of org a (messages_in w');
}.

Lemma held_rely w w' t : rely w w' → held w t → held w' t.
Proof.
  intros [Hn _ Ha Hc]. destruct t as [[org a] k]. intros [Hlt Ht]. split; [lia|].
  destruct Ht as [Ht|Ht]; [by apply Hc|]. right. intros Hacc. by apply Ht, Ha.
Qed.

(** A sender's facts survive a step that keeps the calls and its row. *)
Lemma sender_rely w w' x :
  SenderOK w x → (∀ c, c ∈ w_calls w → c ∈ w_calls w') →
  (∀ r, r ∈ mdb_messages (messages_in w) → waiting_row r → in_flight x = Some (mm_id r) →
     r ∈ mdb_messages (messages_in w')) → SenderOK w' x.
Proof.
  intros [H1 H2 H3] Hc Hm. constructor; [|..|done].
  - intros id Hid. destruct (H1 id Hid) as (r & Hr & Ei & Eo & Hw). exists r. split; [|done].
    apply Hm; [done..|]. by rewrite Ei.
  - intros p m o Hs. destruct (H2 p m o Hs) as (c & Hcc & ?). eauto.
Qed.

(** ** Steps of others *)

Lemma env_inv w w' ss :
  MsgInv w ss → Tables w' → rely w w' → w_calls w' = w_calls w →
  (∀ r, r ∈ mdb_messages (messages_in w) → waiting_row r → r ∈ mdb_messages (messages_in w')) → MsgInv w' ss.
Proof.
  intros [HT HS Hn Hh Hf] HT' Hr Hc Hm. assert (tokens w' ss = tokens w ss) as E by (unfold tokens; by rewrite Hc).
  constructor; [done| |by rewrite E| |done].
  - intros x Hx%HS. eapply sender_rely; [done|apply Hr|]. eauto.
  - rewrite E. intros t Ht%Hh. by eapply held_rely.
Qed.

Lemma apart_tables w w' : apart w w' → Tables w → Tables w'.
Proof.
  intros (E & C & N) [H1 H2 H3 H4 H5]. constructor; rewrite ?E, ?C; try done.
  - intros a Ha%H1. lia.
  - by eapply keyed_mono.
Qed.

Lemma apart_rely w w' : apart w w' → rely w w'.
Proof. intros (E & C & N). constructor; rewrite ?E, ?C; auto. Qed.

Lemma apart_inv w w' ss : apart w w' → MsgInv w ss → MsgInv w' ss.
Proof.
  intros Ha HI. eapply env_inv; [done|eapply apart_tables; [done|apply HI]|by apply apart_rely|apply Ha|].
  destruct Ha as (E & _). by rewrite E.
Qed.

(** Replacing the row of an id. *)
Lemma replace_in org id new l x :
  x ∈ update_where (owned_message org id) (λ _, new) l → x = new ∨ (x ∈ l ∧ owned_message org id x = false).
Proof.
  intros (y & -> & Hy)%list_elem_of_fmap. destruct (owned_message org id y) eqn:E; [by left|]. by right.
Qed.

Lemma replace_other org id new l x :
  x ∈ l → mm_id x ≠ id → x ∈ update_where (owned_message org id) (λ _, new) l.
Proof.
  intros Hx Hi. apply list_elem_of_fmap. exists x. split; [|done].
  destruct (owned_message org id x) eqn:E; [|done]. by apply owned_message_id in E as [_ ?].
Qed.

Lemma replace_keyed org id new l n :
  mm_id new = id → keyed mm_id n l → (id < n)%N → keyed mm_id n (update_where (owned_message org id) (λ _, new) l).
Proof.
  intros Hi [Hn Hl] Hid. split.
  - unfold update_where. rewrite map_map. erewrite map_ext_in; [exact Hn|]. intros x _. simpl.
    destruct (owned_message org id x) eqn:E; [|done]. apply owned_message_id in E as [_ ?]. congruence.
  - intros x [-> | [Hx _]]%replace_in; [by rewrite Hi|auto].
Qed.

(** The tables with other messages. *)
Lemma tables_messages w w' l rs :
  Tables w → (w_next_uuid w ≤ w_next_uuid w')%N → w_calls w' = w_calls w →
  messages_in w' = set_mdb_receipts rs (set_mdb_messages l (messages_in w)) →
  keyed mm_id (w_next_uuid w') l →
  (∀ r, r ∈ l → mm_direction r = MessageDirection.OUTBOUND → mm_provider_message_id r ≠ None →
     (3 ≤ status_rank (mm_status r))%Z) → Tables w' ∧ rely w w'.
Proof.
  intros [H1 H2 H3 H4 H5] N C E Hk Hs. split; constructor; rewrite ?E, ?C; simpl; auto.
  intros a Ha%H1. lia.
Qed.

Lemma fold_inv org account status found w ss :
  was_read org account status found (messages_in w) →
  MsgInv w ss → MsgInv (commit_status org account status found w).2 ss.
Proof.
  intros Hread HI. destruct (commit_status_effect org account status found w) as [[C N] He].
  set (w' := (commit_status org account status found w).2) in *.
  destruct He as [[l E]|(seen & row & new & l & -> & Hrow & Hi & Ho & (Hni & _ & _ & Hd & Hpid & rep & Hadv & Hs) & E)].
  - destruct (tables_messages w w' (mdb_messages (messages_in w)) l) as [HT Hr];
      [apply HI|done|done|by destruct (messages_in w)|eapply keyed_mono; [done|]; apply HI|apply HI|].
    eapply env_inv; [done..|]. by rewrite E.
  - destruct (mi_tables _ _ HI) as [_ Hk Hsent _ _]. destruct Hread as (Hrank & row' & Hrow' & Hi' & Hp).
    assert (row' = row) as -> by (eapply (keyed_inj mm_id); [done..|congruence]).
    apply andb_true_iff in Hp as [_ Hid%bool_decide_eq_true].
    destruct (tables_messages w w' (update_where (owned_message org (mm_id row)) (λ _, new) (mdb_messages (messages_in w))) l)
      as [HT Hr]; [apply HI|done|done|done| | |].
    + apply replace_keyed; [done|by eapply keyed_mono|]. pose proof (proj2 Hk row Hrow). lia.
    + intros r [-> | [Hr _]]%replace_in; [|by apply Hsent]. intros _ _.
      apply advance_rank in Hadv as (_ & Hle & _). rewrite Hs. by etrans.
    + eapply env_inv; [done..|]. rewrite E. simpl. intros r Hr0 (_ & _ & Hnone). apply replace_other; [done|].
      intros Eid. assert (r = row) as -> by (by eapply (keyed_inj mm_id)). congruence.
Qed.

(** What a callback reads in a state of the system. *)
Lemma target_was_read org account status w :
  Tables w → was_read org account status (status_target org account status (messages_in w)) (messages_in w).
Proof.
  intros HT. unfold status_target. destruct (List.find _ _) as [row|] eqn:Hf; [|done]. apply find_elem in Hf as [Hrow Hp].
  split; [|by exists row].
  pose proof Hp as [[_ Hout%bool_decide_eq_true]%andb_true_iff Hid%bool_decide_eq_true]%andb_true_iff.
  apply (tb_sent _ HT); [done..|]. by rewrite Hid.
Qed.

Lemma inbound_inv `{UnicodeForms} org account inbound event_id w ss :
  MsgInv w ss → MsgInv (process_inbound org account inbound event_id w).2 ss.
Proof.
  intros HI. destruct (process_inbound org account inbound event_id w) as [r w'] eqn:Hp.
  apply process_inbound_effect in Hp as [[C N] He]. simpl.
  destruct He as [E|(m & l & (Ho & Hd & Hs) & Hid & E)]; [by apply (apart_inv w w' ss); [split|]|].
  destruct (mi_tables _ _ HI) as [_ Hk Hsent _ _].
  destruct (tables_messages w w' (mdb_messages (messages_in w) ++ [m]) l) as [HT Hr]; [apply HI|done|done|done| | |].
  - eapply keyed_snoc; [done|lia|lia].
  - intros x [Hx| ->%list_elem_of_singleton]%elem_of_app; [auto|congruence].
  - eapply env_inv; [done..|]. rewrite E. simpl. intros x Hx _. apply elem_of_app. by left.
Qed.

Lemma account_exists org id l : existsb (owned_account org id) l = true ↔
  ∃ a, a ∈ l ∧ ma_organization_id a = org ∧ ma_id a = id.
Proof.
  rewrite existsb_elem. unfold owned_account.
  split; intros (x & Hx & Ha); exists x; rewrite andb_true_iff, !N.eqb_eq in *; done.
Qed.

Lemma filter_NoDup_map {A B} (f : A → B) p l : NoDup (map f l) → NoDup (map f (List.filter p l)).
Proof.
  induction l as [|x l IH]; simpl; [done|]. rewrite NoDup_cons. intros [Hx Hl]. destruct (p x); [|auto].
  simpl. constructor; [|auto]. intros (y & E & [Hy _]%elem_of_filterb)%list_elem_of_fmap.
  apply Hx. rewrite E. by apply (list_elem_of_fmap_2 f).
Qed.

(** The new tables, and what is relied on, for an effect on accounts. *)
Lemma account_tables w w' :
  Tables w → contains w w' → account_effect (w_next_uuid w) (w_next_uuid w') (messages_in w) (messages_in w') →
  Tables w' ∧ rely w w' ∧ mdb_messages (messages_in w') = mdb_messages (messages_in w).
Proof.
  intros [H1 H2 H3 H4 H5] [C N] He. unfold account_of.
  inversion He as [a Ha E|p f Hf E|org id l E];
    (split; [|split; [|done]]); constructor; rewrite <- ?E, ?C; simpl;
    try done; try (by eapply keyed_mono); auto.
  - intros b [Hb%H1| ->%list_elem_of_singleton]%elem_of_app; lia.
  - intros org b Hb. unfold account_of. rewrite !account_exists. intros (x & Hx & Eo & Ei).
    apply elem_of_app in Hx as [Hx| ->%list_elem_of_singleton]; [eauto|lia].
  - intros b (y & -> & Hy%H1)%list_elem_of_fmap. destruct (p y); [|lia]. destruct (Hf y) as [-> _]. lia.
  - intros org b Hb. unfold account_of. rewrite !account_exists. intros (x & (y & -> & Hy)%list_elem_of_fmap & Eo & Ei).
    exists y. destruct (p y); [|done]. destruct (Hf y) as [E1 E2]. rewrite <- E1, <- E2. done.
  - intros b [Hb%H1 _]%elem_of_filterb. lia.
  - by apply filter_NoDup_map.
  - intros c [Hc _]%elem_of_filterb. by apply H5.
  - intros org' b Hb. unfold account_of. rewrite !account_exists. intros (x & [Hx _]%elem_of_filterb & ?). eauto.
  - intros org' b k (c & Hc & Et). unfold account_of.
    destruct (N.eqb (sd_organization_id c) org && N.eqb (sd_account_id c) id) eqn:Hd.
    + right. rewrite account_exists. intros (x & [_ Hx]%elem_of_filterb & Eo & Ei).
      apply andb_true_iff in Hd as [Ed1%N.eqb_eq Ed2%N.eqb_eq]. injection Et as Et1 Et2 _.
      apply negb_true_iff in Hx. unfold owned_account in Hx.
      assert (ma_organization_id x = org) as Ex1 by congruence. assert (ma_id x = id) as Ex2 by congruence.
      by rewrite Ex1, Ex2, !N.eqb_refl in Hx.
    + left. exists c. split; [|done]. apply elem_of_filterb. by rewrite Hd.
Qed.

Lemma manages_inv {A} (m : M A) w ss : manages m → MsgInv w ss → MsgInv (m w).2 ss.
Proof.
  intros Hm HI. destruct (m w) as [r w'] eqn:E. apply Hm in E as [Hc [E|He]]; simpl; [by apply (apart_inv w w' ss); [split|]|].
  destruct (account_tables w w' (mi_tables _ _ HI) Hc He) as (HT & Hr & Em).
  eapply env_inv; [done..|apply Hc|]. by rewrite Em.
Qed.

(** ** Steps of a sender *)

Lemma tokens_cons w x ss : tokens w (x :: ss) = option_list (sender_token x) ++ tokens w ss.
Proof. unfold tokens. simpl. by destruct (sender_token x). Qed.

Lemma flight_cons x ss : omap in_flight (x :: ss) = option_list (in_flight x) ++ omap in_flight ss.
Proof. simpl. by destruct (in_flight x). Qed.

(** The others' rows are of other messages. *)
Lemma others_flight x rest id : NoDup (omap in_flight (x :: rest)) → in_flight x = Some id →
  ∀ y, y ∈ rest → in_flight y ≠ Some id.
Proof.
  rewrite flight_cons. intros Hn Hx y Hy E. rewrite Hx in Hn. simpl in Hn. apply NoDup_cons in Hn as [Hn _].
  apply Hn. apply list_elem_of_omap. by exists y.
Qed.

Lemma advance_general w w' x x' rest :
  MsgInv w (x :: rest) → Tables w' → rely w w' →
  (∀ r y, r ∈ mdb_messages (messages_in w) → waiting_row r → y ∈ rest → in_flight y = Some (mm_id r) →
     r ∈ mdb_messages (messages_in w')) →
  SenderOK w' x' → NoDup (tokens w' (x' :: rest)) →
  (∀ t, t ∈ tokens w' (x' :: rest) → t ∈ tokens w (x :: rest) ∨ held w' t) →
  NoDup (omap in_flight (x' :: rest)) → MsgInv w' (x' :: rest).
Proof.
  intros [HT HS Hn Hh Hf] HT' Hr Hm Hx Hn' Ht Hf'. constructor; try done.
  - intros y [-> | Hy]%elem_of_cons; [done|]. eapply sender_rely; [apply HS; by right|apply Hr|]. eauto.
  - intros t [Hin|?]%Ht; [|done]. eapply held_rely; [done|auto].
Qed.

(** A sender that does nothing to messaging and gives up what it held. *)
Lemma drop_inv w w' x x' rest :
  MsgInv w (x :: rest) → apart w w' → sender_token x' = None → in_flight x' = None → SenderOK w' x' →
  MsgInv w' (x' :: rest).
Proof.
  intros HI Ha Ht Hf Hx. assert (tokens w' rest = tokens w rest) as E. { unfold tokens. by destruct Ha as (_ & -> & _). }
  eapply advance_general; [done|eapply apart_tables; [done|apply HI]|by apply apart_rely| |done|..].
  - intros r y Hr _ _ _. by destruct Ha as (-> & _).
  - rewrite tokens_cons, Ht, E. pose proof (mi_tokens _ _ HI) as Hn. rewrite tokens_cons in Hn. by apply NoDup_app in Hn as (_ & _ & ?).
  - intros t. rewrite !tokens_cons, Ht, E. simpl. intros Hin. left. apply elem_of_app. by right.
  - rewrite flight_cons, Hf. pose proof (mi_flight _ _ HI) as Hn. rewrite flight_cons in Hn. by apply NoDup_app in Hn as (_ & _ & ?).
Qed.

(** Nothing to show of a sender that has no message. *)
Lemma idle_ok w org request s :
  match s with Queued _ _ | Answered _ _ _ | Marked _ _ _ => False | _ => True end → SenderOK w (mkSender org request s).
Proof. intros Hs. constructor; destruct s; simpl; try done; intros; naive_solver. Qed.

Lemma claim_inv w w' org request plan key rest c :
  MsgInv w (mkSender org request (Planned plan) :: rest) → sm_idempotency_key request = Some key →
  contains w w' →
  existsb (is_send org (ma_id (sp_account plan)) key) (mdb_sends (messages_in w)) = false →
  existsb (owned_account org (ma_id (sp_account plan))) (mdb_accounts (messages_in w)) = true →
  send_token c = (org, ma_id (sp_account plan), key) → sd_status c = SendIdempotencyStatus.PENDING →
  messages_in w' = set_mdb_sends (mdb_sends (messages_in w) ++ [c]) (messages_in w) →
  MsgInv w' (mkSender org request (Owned plan) :: rest).
Proof.
  intros HI Hk [C N] Hs Ha Hc Hp E. rewrite existsb_none in Hs.
  destruct (mi_tables _ _ HI) as [H1 H2 H3 H4 H5].
  assert (tokens w' rest = tokens w rest) as Et. { unfold tokens. by rewrite C. }
  assert ((org, ma_id (sp_account plan), key) ∉ tokens w rest) as Hnew.
  { intros Hin. destruct (mi_held _ _ HI (org, ma_id (sp_account plan), key)) as [_ [(d & Hd & Ed)|Hg]].
    - rewrite tokens_cons. simpl. done.
    - apply Hs in Hd. apply is_send_token in Ed. congruence.
    - by apply Hg. }
  eapply advance_general; [done| | | |by apply idle_ok|..].
  - constructor; rewrite ?E, ?C; simpl; try done.
    + intros a Ha'%H1. lia.
    + by eapply keyed_mono.
    + apply NoDup_map_snoc; [done|]. intros d Hd Ed. apply Hs in Hd. rewrite Hc in Ed. apply is_send_token in Ed. congruence.
    + intros d [Hd| ->%list_elem_of_singleton]%elem_of_app Hst; [by apply H5|by destruct Hst].
  - constructor; rewrite ?E, ?C; simpl; auto. intros o a k (d & Hd & Ed). left. exists d. split; [|done].
    apply elem_of_app. by left.
  - intros r y Hr _ _ _. by rewrite E.
  - rewrite tokens_cons, Et. unfold sender_token. simpl. rewrite Hk. simpl. constructor; [done|].
    pose proof (mi_tokens _ _ HI) as Hn. by rewrite tokens_cons in Hn.
  - intros t. rewrite !tokens_cons, Et. unfold sender_token. simpl. rewrite Hk. simpl.
    intros [-> | Ht]%elem_of_cons; [|by left]. right. split.
    + apply account_exists in Ha as (a & Ha & _ & <-). apply H1 in Ha. lia.
    + left. exists c. split; [|done]. rewrite E. simpl. apply elem_of_app. right. by constructor.
  - rewrite flight_cons. simpl. pose proof (mi_flight _ _ HI) as Hn. by rewrite flight_cons in Hn.
Qed.

Lemma persist_stage_inv w w' org request plan rest m :
  MsgInv w (mkSender org request (Owned plan) :: rest) → contains w w' → queued_row org plan m →
  (w_next_uuid w ≤ mm_id m < w_next_uuid w')%N →
  messages_in w' = set_mdb_messages (mdb_messages (messages_in w) ++ [m]) (messages_in w) →
  MsgInv w' (mkSender org request (Queued plan m) :: rest).
Proof.
  intros HI [C N] (Ho & _ & Hd & Hs & Hp) Hid E. destruct (mi_tables _ _ HI) as [_ Hk Hsent _ _].
  destruct (tables_messages w w' (mdb_messages (messages_in w) ++ [m]) (mdb_receipts (messages_in w))) as [HT Hr];
    [apply HI|done|done|by rewrite E; destruct (messages_in w)|..].
  { eapply keyed_snoc; [done|lia|lia]. }
  { intros x [Hx| ->%list_elem_of_singleton]%elem_of_app; [auto|congruence]. }
  assert (tokens w' (mkSender org request (Queued plan m) :: rest) = tokens w (mkSender org request (Owned plan) :: rest)) as Et.
  { unfold tokens. rewrite C. done. }
  eapply advance_general; [done..| | | | |].
  - intros r y Hr0 _ _ _. rewrite E. apply elem_of_app. by left.
  - constructor; simpl; try naive_solver. intros id [= <-]. exists m. split; [|done]. rewrite E. simpl.
    apply elem_of_app. right. by constructor.
  - rewrite Et. apply HI.
  - rewrite Et. by left.
  - rewrite flight_cons. simpl. constructor; [|by apply (mi_flight _ _ HI)].
    intros (y & Hy & Ey)%list_elem_of_omap. destruct (mi_senders _ _ HI y) as [Hrow _ _]; [by right|].
    destruct (Hrow _ Ey) as (r & Hr0 & Ei & _). apply (proj2 Hk) in Hr0. lia.
Qed.

(** The call takes the key with it. *)
Lemma call_inv w w' org request plan rest m c s' :
  MsgInv w (mkSender org request (Queued plan m) :: rest) → call_of org plan request m c →
  messages_in w' = messages_in w → (w_next_uuid w ≤ w_next_uuid w')%N → w_calls w' = w_calls w ++ [c] →
  ((∃ o, s' = Answered plan m o) ∨ ∃ r, s' = Concluded r) → MsgInv w' (mkSender org request s' :: rest).
Proof.
  intros HI (Eo & Ea & Ek & Em) E N C Hs'. destruct (mi_tables _ _ HI) as [H1 H2 H3 H4 H5].
  assert (tokens w' (mkSender org request s' :: rest) ≡ₚ tokens w (mkSender org request (Queued plan m) :: rest)) as Et.
  { rewrite !tokens_cons. unfold tokens. rewrite C, omap_app. simpl.
    assert (call_token c = sender_token (mkSender org request (Queued plan m))) as ->.
    { unfold call_token, sender_token. simpl. rewrite Ek, Eo, Ea. by destruct (sm_idempotency_key request). }
    assert (sender_token (mkSender org request s') = None) as ->.
    { unfold sender_token. by destruct Hs' as [[o ->]|[r ->]]; simpl. }
    simpl. destruct (sender_token _); simpl; [|by rewrite app_nil_r]. rewrite (app_assoc _ _ [_]). symmetry. apply Permutation_cons_append. }
  eapply advance_general; [done| | | | |..].
  - constructor; rewrite ?E; try done.
    + intros a Ha%H1. lia.
    + by eapply keyed_mono.
    + intros d Hd Hst. destruct (H5 d Hd Hst) as (call & Hin & Hcall). exists call.
      rewrite C. split; [|done]. apply elem_of_app. by left.
  - constructor; rewrite ?E; auto. intros x Hx. rewrite C. apply elem_of_app. by left.
  - intros r y Hr _ _ _. by rewrite E.
  - destruct (mi_senders _ _ HI (mkSender org request (Queued plan m))) as [Hrow _ _]; [by left|].
    destruct Hs' as [[o ->]|[r ->]]; [|by apply idle_ok]. constructor; simpl.
    + intros id Hid. rewrite E. by apply Hrow.
    + intros p x o' [[= <- <- <-]|?]; [|done]. exists c. split; [|done]. rewrite C. apply elem_of_app. right. by constructor.
    + done.
  - rewrite Et. apply HI.
  - intros t. rewrite Et. by left.
  - rewrite flight_cons. pose proof (mi_flight _ _ HI) as Hn. rewrite flight_cons in Hn.
    destruct Hs' as [[o ->]|[r ->]]; [done|]. by apply NoDup_app in Hn as (_ & _ & ?).
Qed.

Lemma mark_inv w w' org request plan rest message outcome row m :
  MsgInv w (mkSender org request (Answered plan message outcome) :: rest) → contains w w' →
  List.find (owned_message org (mm_id message)) (mdb_messages (messages_in w)) = Some row → marked_row outcome row m →
  messages_in w' = set_mdb_messages (update_where (owned_message org (mm_id message)) (λ _, m)
    (mdb_messages (messages_in w))) (messages_in w) →
  MsgInv w' (mkSender org request (Marked plan m outcome) :: rest).
Proof.
  intros HI [C N] [Hrow [Hro Hri]%owned_message_id]%find_elem (Ei & Eo & Ea & Ed & Hm) E.
  destruct (mi_tables _ _ HI) as [_ Hk Hsent _ _].
  destruct (mi_senders _ _ HI (mkSender org request (Answered plan message outcome))) as [Hmine Hcalled _]; [by left|].
  destruct (Hmine (mm_id message) eq_refl) as (r & Hr & Eri & _ & Hwait).
  assert (r = row) as -> by (eapply (keyed_inj mm_id); [done..|congruence]).
  destruct (tables_messages w w' (update_where (owned_message org (mm_id message)) (λ _, m) (mdb_messages (messages_in w)))
    (mdb_receipts (messages_in w))) as [HT Hr']; [apply HI|done|done|by rewrite E; destruct (messages_in w)|..].
  { apply replace_keyed; [congruence|by eapply keyed_mono|]. pose proof (proj2 Hk row Hrow). lia. }
  { intros x [-> | [Hx _]]%replace_in; [|by apply Hsent]. intros _ Hpid. destruct outcome; [by rewrite Hm|].
    destruct Hm as [-> _]. done. }
  assert (tokens w' (mkSender org request (Marked plan m outcome) :: rest) =
    tokens w (mkSender org request (Answered plan message outcome) :: rest)) as Et by (unfold tokens; by rewrite C).
  eapply advance_general; [done..| | | | |].
  - intros x y Hx _ Hy Ey. rewrite E. apply replace_other; [done|]. intros Ex. rewrite Ex in Ey.
    by eapply others_flight; [apply (mi_flight _ _ HI)| |exact Hy|exact Ey].
  - constructor; simpl; [done| |].
    + intros p x o [?|[= <- <- <-]]; [done|]. destruct (Hcalled plan message outcome) as (c & Hc & Hco); [by left|].
      exists c. split; [by rewrite C|]. destruct Hco as (? & ? & ? & ?). simpl in *; split_and!; congruence.
    + intros p x r [= _ <- ->]. done.
  - rewrite Et. apply HI.
  - rewrite Et. by left.
  - rewrite flight_cons. simpl. pose proof (mi_flight _ _ HI) as Hn. rewrite flight_cons in Hn. by apply NoDup_app in Hn as (_ & _ & ?).
Qed.

Lemma conclude_inv w w' org request plan rest m outcome r :
  MsgInv w (mkSender org request (Marked plan m outcome) :: rest) →
  conclude org plan request m outcome w = (r, w') → MsgInv w' (mkSender org request (Concluded r) :: rest).
Proof.
  intros HI Hc. apply conclude_effect in Hc as ([C N] & _ & Hc).
  destruct (sm_idempotency_key request) as [key|] eqn:Hk.
  2: { eapply drop_inv; [exact HI|by split|done..|by apply idle_ok]. }
  destruct Hc as (f & Hf & E). destruct (mi_tables _ _ HI) as [H1 H2 H3 H4 H5].
  destruct (mi_senders _ _ HI (mkSender org request (Marked plan m outcome))) as [_ Hcalled Hsent]; [by left|].
  assert (∀ c, c ∈ mdb_sends (messages_in w') ↔ ∃ d, d ∈ mdb_sends (messages_in w) ∧
    c = if is_send org (ma_id (sp_account plan)) key d then f d else d) as Hin.
  { intros c. rewrite E. simpl. unfold update_where. rewrite list_elem_of_fmap. naive_solver. }
  assert (∀ d, send_token (if is_send org (ma_id (sp_account plan)) key d then f d else d) = send_token d) as Hft.
  { intros d. destruct (is_send _ _ _ d); [apply Hf|done]. }
  assert (tokens w' (mkSender org request (Concluded r) :: rest) = tokens w (mkSender org request (Marked plan m outcome) :: rest))
    as Et by (unfold tokens; by rewrite C).
  eapply advance_general; [done| | | |by apply idle_ok|..].
  - constructor; rewrite ?C; rewrite ?E; simpl; try done.
    + intros a Ha%H1. lia.
    + by eapply keyed_mono.
    + unfold update_where. rewrite map_map. erewrite map_ext; [exact H4|]. apply Hft.
    + intros c Hcin Hst. assert (c ∈ mdb_sends (messages_in w')) as Hc2 by (by rewrite E).
      apply Hin in Hc2 as (d & Hd & ->). destruct (is_send _ _ _ d) eqn:Hs; [|by apply H5].
      destruct (Hf d) as [Etok Hres].
      destruct (Hcalled plan m outcome) as (call & Hcall & Eo & Ea & Ek & Em); [by right|].
      exists call. split; [done|]. split.
      { rewrite Etok. apply is_send_token in Hs. unfold call_token. simpl in *. rewrite Ek, Hk, Eo, Ea. congruence. }
      intros Hco. destruct outcome as [res|e]; [|congruence]. destruct Hres as [_ Hres]. exists m.
      split_and!; [done|by eapply Hsent|done].
  - constructor; rewrite ?C; [done..|by rewrite E; simpl; auto|]. intros o a k (c & Hc & Ec). left.
    eexists. split; [apply Hin; exists c; by split|]. by rewrite Hft.
  - intros x y Hx _ _ _. by rewrite E.
  - rewrite Et. apply HI.
  - rewrite Et. by left.
  - apply (mi_flight _ _ HI).
Qed.

Section preservation.
Context `{UnicodeForms} (dep : MessagingDeployment).

Lemma advance_inv w org request s rest :
  MsgInv w (mkSender org request s :: rest) →
  MsgInv (send_step dep org request s w).2 (mkSender org request (send_step dep org request s w).1 :: rest).
Proof.
  intros HI. destruct s as [|plan|plan|plan|plan m|plan m o|plan m o|r|]; cbn [send_step]; try done.
  - destruct (plan_send dep org request w) as [[plan|e] w1] eqn:E; apply (ran_frames apart) in E; try apply hushed_plan;
      cbn [proceed fst snd]; (eapply drop_inv; [done..| | |]); unfold sender_token; simpl;
      destruct (sm_idempotency_key request); try done; by apply idle_ok.
  - destruct (sm_idempotency_key request) as [key|] eqn:Hk; simpl.
    2: { eapply drop_inv; [done..| |done|by apply idle_ok]. unfold sender_token. simpl. by rewrite Hk. }
    destruct (claim_key dep org plan key w) as [r w1] eqn:E. apply claim_key_effect in E as [Hc He].
    destruct r as [[]|e]; simpl; [|eapply drop_inv; [done|by split|done..|by apply idle_ok]..].
    destruct He as (Hs & Ha & c & Ht & Hp & E). by eapply claim_inv.
  - destruct (sm_idempotency_key request) as [key|] eqn:Hk; simpl.
    2: { eapply drop_inv; [done..| |done|by apply idle_ok]. unfold sender_token. simpl. by rewrite Hk. }
    destruct (answer_claimed org plan key w) as [r w1] eqn:E. apply (ran_frames apart) in E; [|apply hushed_answer].
    eapply drop_inv; [done..|by apply idle_ok].
  - destruct (persist_queued org plan request w) as [r w1] eqn:E. apply persist_effect in E as [Hc He].
    destruct r as [m|e]; simpl; [|by eapply drop_inv; [done|split|..|apply idle_ok]].
    destruct He as (Hq & Hid & E). by eapply persist_stage_inv.
  - destruct (deliver dep org plan request m w) as [r w1] eqn:E.
    apply deliver_effect in E as (E & N & [[[e ->] C]|(c & Hco & C)]); simpl.
    + eapply drop_inv; [done|by split|done..|by apply idle_ok].
    + destruct r as [o|e]; simpl; (eapply call_inv; [done..|]); eauto.
  - destruct (mark org m o w) as [r w1] eqn:E. apply mark_effect in E as [Hc He].
    destruct r as [m'|e]; simpl; [|by eapply drop_inv; [done|split|..|apply idle_ok]].
    destruct He as (row & Hf & Hm & E). by eapply mark_inv.
  - destruct (conclude org plan request m o w) as [r w1] eqn:E. simpl. by eapply conclude_inv.
Qed.

Lemma msg_step_inv st st' : msg_step dep st st' → MsgInv st.1 st.2 → MsgInv st'.1 st'.2.
Proof.
  intros Hs HI. destruct Hs; simpl in *.
  - destruct HI as [HT HS Hn Hh Hf]. constructor; try done. intros x [-> | Hx]%elem_of_cons; [by apply idle_ok|auto].
  - destruct x as [org request s]. simpl. rewrite <- Permutation_middle in HI |- *. by apply advance_inv.
  - rewrite <- Permutation_middle in HI |- *. eapply drop_inv; [done..|by apply idle_ok].
  - by apply fold_inv.
  - by apply inbound_inv.
  - eapply manages_inv, HI. apply manages_create.
  - eapply manages_inv, HI. apply manages_update.
  - eapply manages_inv, HI. apply manages_set_status.
  - eapply manages_inv, HI. apply manages_delete.
  - eapply manages_inv, HI. apply manages_store_credential.
  - eapply manages_inv, HI. apply manages_delete_credential.
  - by eapply apart_inv.
Qed.

Lemma msg_steps_inv st st' : rtc (msg_step dep) st st' → MsgInv st.1 st.2 → MsgInv st'.1 st'.2.
Proof. induction 1; [done|]. intros. by apply IHrtc, msg_step_inv with x. Qed.

Lemma msg_reachable_inv st : msg_reachable dep st → MsgInv st.1 st.2.
Proof.
  intros (w0 & E & C & Hs). eapply msg_steps_inv; [exact Hs|].
  assert (tokens w0 [] = []) as Et by (unfold tokens; by rewrite C).
  constructor; simpl; rewrite ?Et; [|by intros; set_solver|by constructor|by intros; set_solver|by constructor].
  constructor; rewrite ?E, ?C; simpl; try (by intros; set_solver); try by constructor.
  split; [constructor|set_solver].
Qed.
End preservation.
