(* ===== verification/SmsProvider.v ===== *)
(** * SmsProvider: the SMS channel adapter

    [messaging/providers/sms.py], with the signed-webhook protocol and the error mapping
    of [messaging/providers/base.py]. The JSON, HMAC, integer and date parsers of the
    standard library are parameters. *)

From S2P Require Import Prelude.
From S2P Require Import PyText.
From S2P Require Import Errors.
From S2P Require Import Lifecycles.
From S2P Require Import Conditions.
From S2P Require Import ScheduleSpec.
From S2P Require Import MessagingStore.
From S2P Require Import CustomerStore.
From S2P Require Import CampaignStore.
From S2P Require Import Store.
From S2P Require Import Messages.
From S2P Require Import MessagingService.

(** [json.loads] ([None] for a [ValueError]), [str] of a decoded value that is no string,
    [int] of a text, HMAC-SHA256 in hexadecimal and [datetime.fromisoformat]. *)
Class PyLibrary : Type := {
  loads : string → option json;
  str_of : json → string;
  int_of_text : string → option Z;
  hmac_sha256 : string → string → string;
  fromisoformat : string → option Z;
}.

(** [_header]: a header by its name in any case. *)
Definition header (headers : list (string * string)) (name : string) : option string :=
  match List.find (λ kv, String.eqb (lower kv.1) (lower name)) headers with
  | Some kv => Some kv.2
  | None => None
  end.

(** The text after the first [sep], or the whole text without one: [s.split(sep, 1)[1]]. *)
Fixpoint after_first (sep : ascii) (s : string) : option string :=
  match s with
  | EmptyString => None
  | String c s => if Ascii.eqb c sep then Some s else after_first sep s
  end.

Section sms.
Context `{PyLibrary}.

Definition py_str (v : json) : string := match v with JStr s => s | v => str_of v end.

Definition member (k : string) (payload : list (string * json)) : json := default JNull (assoc k payload).

(** [a or b] of decoded values *)
Definition json_or (a b : json) : json := if json_truthy a then a else b.

(** ** Signed webhooks *)

Definition verify_generic_signed_webhook (body : string) (provided_signature provided_timestamp : option string)
    (secret : string) (tolerance_seconds now : Z) : result exn unit :=
  match provided_signature, provided_timestamp with
  | Some (String _ _ as signature), Some (String _ _ as timestamp) =>
      match int_of_text (strip timestamp) with
      | None => Err (messaging_error MessagingSignatureInvalidError)
      | Some t =>
          let expected := hmac_sha256 secret (timestamp +:+ "." +:+ body) in
          let signature := strip signature in
          let digest := match after_first "=" signature with Some d => d | None => signature end in
          if negb (String.eqb expected (lower digest)) then Err (messaging_error MessagingSignatureInvalidError)
          else if tolerance_seconds * SECOND <? Z.abs (now - t * SECOND) then Err (messaging_error MessagingReplayRejectedError)
          else Ok tt
      end
  | _, _ => Err (messaging_error MessagingSignatureInvalidError)
  end.

Definition provider_send_error (status_code : Z) (provider_code : option string) : exn :=
  if status_code =? 429 then messaging_error MessagingRateLimitedError
  else if status_code =? 504 then messaging_error MessagingTimeoutError
  else messaging_error (MessagingProviderError provider_code
         ((status_code =? 500) || (status_code =? 502) || (status_code =? 503))).

(** ** Parsing *)

Definition sms_status_map (s : string) : option MessageStatus :=
  assoc s [("queued", MessageStatus.QUEUED); ("accepted", MessageStatus.QUEUED); ("sending", MessageStatus.SENDING);
    ("sent", MessageStatus.SENT); ("delivered", MessageStatus.DELIVERED); ("undelivered", MessageStatus.FAILED);
    ("failed", MessageStatus.FAILED)].

(** [replace("Z", "+00:00")] *)
Fixpoint utc_suffix (s : string) : string :=
  match s with
  | EmptyString => EmptyString
  | String c s => if Ascii.eqb c "Z" then "+00:00" +:+ utc_suffix s else String c (utc_suffix s)
  end.

Definition parse_ts (raw : json) : option Z :=
  if json_truthy raw then fromisoformat (utc_suffix (py_str raw)) else None.

Definition sms_digits (raw : string) : string :=
  match strip raw with EmptyString => EmptyString | s => "+" +:+ lstrip_char "+" s end.

(** [min] and [max] of two texts joined: [sorted((a, b))]. *)
Definition thread_pair (a b : string) : string :=
  match String.compare b a with Lt => b +:+ "-" +:+ a | _ => a +:+ "-" +:+ b end.

Definition provider_id_of (payload : list (string * json)) : string :=
  strip (py_str (json_or (member "message_id" payload) (json_or (member "sid" payload) (JStr EmptyString)))).

Definition sms_normalize_inbound (payload : list (string * json)) (account : MessagingAccountRecord)
    : option NormalizedInbound :=
  let sender := sms_digits (py_str (json_or (member "from" payload) (JStr EmptyString))) in
  let provider_message_id := provider_id_of payload in
  if String.eqb sender EmptyString || String.eqb provider_message_id EmptyString then None
  else
    let recipient := sms_digits (py_str (json_or (member "to" payload) (JStr (ma_sender_identity account)))) in
    let text := stake 3200 (py_str (json_or (member "text" payload) (json_or (member "body" payload) (JStr EmptyString)))) in
    Some {| ni_provider_message_id := provider_message_id;
            ni_provider_timestamp := parse_ts (member "timestamp" payload);
            ni_sender_raw := sender;
            ni_recipient_raw := recipient;
            ni_content := mkContent MessageContentType.TEXT
              (Some (match text with EmptyString => "(empty)" | t => t end)) None [];
            ni_external_thread_hint := thread_pair sender recipient;
            ni_email := None |}.

Definition sms_normalize_status (payload : list (string * json)) : option NormalizedStatus :=
  let provider_message_id := provider_id_of payload in
  let provider_status := lower (strip (py_str (json_or (member "status" payload) (JStr EmptyString)))) in
  match provider_message_id, sms_status_map provider_status with
  | EmptyString, _ | _, None => None
  | _, Some canonical =>
      Some {| ns_provider_message_id := provider_message_id;
              ns_status := canonical;
              ns_provider_status := provider_status;
              ns_occurred_at := parse_ts (member "timestamp" payload);
              ns_error_code := match stake 120 (py_str (json_or (member "error_code" payload) (JStr EmptyString))) with
                               | EmptyString => None
                               | c => Some c
                               end;
              ns_provider_code := None |}
  end.

Definition body_or_object (raw : string) : string := match raw with EmptyString => "{}" | raw => raw end.

Definition sms_parse_webhook (account : MessagingAccountRecord) (ctx : WebhookContext)
    : result exn WebhookParseResult :=
  match loads (body_or_object (wc_body ctx)) with
  | Some (JObj payload) =>
      if json_truthy (member "status" payload)
      then Ok {| wp_inbound := []; wp_statuses := option_list (sms_normalize_status payload) |}
      else Ok {| wp_inbound := option_list (sms_normalize_inbound payload account); wp_statuses := [] |}
  | _ => Err (messaging_error MessagingPayloadInvalidError)
  end.

Definition sms_verify_webhook (account : MessagingAccountRecord) (ctx : WebhookContext)
    (secret : option SecretMaterial) (tolerance_seconds now : Z) : result exn unit :=
  match secret with
  | None => Err (messaging_error MessagingSignatureInvalidError)
  | Some secret =>
      match secret_field secret "webhook_secret" with
      | Err e => Err e
      | Ok key => verify_generic_signed_webhook (wc_body ctx) (header (wc_headers ctx) "x-messaging-signature")
                    (header (wc_headers ctx) "x-messaging-timestamp") key tolerance_seconds now
      end
  end.

(** ** Sending *)

Definition sms_request (account : MessagingAccountRecord) (prepared : PreparedSend) (recipient : MessageAddress)
    (token : string) : TransportRequest :=
  let base := rstrip_char "/" (py_str (json_or (member "api_base" (ma_configuration account))
                                         (JStr "https://api.messaging.local"))) in
  {| rq_method := "POST";
     rq_url := base +:+ "/sms";
     rq_headers := [("Authorization", "Bearer " +:+ token); ("Content-Type", "application/json")];
     rq_body := JObj [("from", JStr (ad_value (pr_sender prepared))); ("to", JStr (ad_value recipient));
                      ("text", JStr (default EmptyString (body_text (pr_content prepared))));
                      ("messaging_service_id", JStr (ma_external_account_id account))] |}.

(** [SmsSegmentInfo(...)]: at most 20 segments pass its validation. *)
Definition segment_info (payload : list (string * json)) : result exn (option SmsSegmentInfo) :=
  let segments := member "segments" payload in
  if json_truthy (json_or (member "encoding" payload) segments) then
    let encoding := match stake 32 (py_str (json_or (member "encoding" payload) (JStr EmptyString))) with
                    | EmptyString => None
                    | e => Some e
                    end in
    let count := match segments with
                 | JInt n => if 0 <? n then Some n else None
                 | JBool true => Some 1
                 | _ => None
                 end in
    match count with
    | Some n => if 20 <? n then Err ValueError else Ok (Some (mkSegments encoding count))
    | None => Ok (Some (mkSegments encoding None))
    end
  else Ok None.

Definition sms_send_result (status_code : Z) (raw : string) : result exn ProviderSendResult :=
  let payload := default (JObj []) (loads (body_or_object raw)) in
  match payload with
  | JObj payload =>
      if 400 <=? status_code
      then Err (provider_send_error status_code
             (match assoc "error_code" payload with
              | None | Some JNull => None
              | Some c => Some (stake 64 (py_str c))
              end))
      else match provider_id_of payload with
           | EmptyString => Err (messaging_error (MessagingProviderError None false))
           | message_id =>
               match segment_info payload with
               | Err e => Err e
               | Ok sms => Ok (mkSendResult message_id MessageStatus.SENT None sms)
               end
           end
  | _ => Err (provider_send_error status_code None)
  end.

Definition sms_send (account : MessagingAccountRecord) (prepared : PreparedSend) (secret : option SecretMaterial)
    (transport : MessagingTransport) : result exn ProviderSendResult :=
  match secret, pr_recipients prepared with
  | None, _ => Err (messaging_error (MessagingProviderError None false))
  | Some secret, [recipient] =>
      match secret_field secret "api_token" with
      | Err e => Err e
      | Ok token =>
          match transport (sms_request account prepared recipient token) with
          | Err e => if tr_timeout e then Err (messaging_error MessagingTimeoutError)
                     else Err (messaging_error (MessagingProviderError None (negb (tr_connect e))))
          | Ok response => sms_send_result (rp_status_code response) (rp_body response)
          end
      end
  | Some _, _ => Err (messaging_error (MessagingProviderError None false))
  end.

(** [SmsProvider] *)
Definition SmsProvider : MessagingProvider := {|
  mp_webhook_challenge := λ _ _, None;
  mp_verify_webhook := sms_verify_webhook;
  mp_parse_webhook := sms_parse_webhook;
  mp_send := sms_send |}.
End sms.
