(* ===== verification/MessagingSafety.v ===== *)
(** * MessagingSafety: one provider call per key, and delivery states that only advance

    The guarantees of messaging in the states [MessagingSystem] reaches, for every
    deployment: no property of the providers, the vault or the network is assumed. *)

From S2P Require Import Prelude.
From S2P Require Import PyText.
From S2P Require Import Errors.
From S2P Require Import Lifecycles.
From S2P Require Import Conditions.
From S2P Require Import ScheduleSpec.
From S2P Require Import MessagingStore.
From S2P Require Import CustomerStore.
From S2P Require Import Normalization.
From S2P Require Import CampaignStore.
From S2P Require Import Store.
From S2P Require Import StoreLemmas.
From S2P Require Import Tables.
From S2P Require Import CustomerService.
From S2P Require Import Messages.
From S2P Require Import MessagingRepository.
From S2P Require Import MessagingService.
From S2P Require Import MessagingSend.
From S2P Require Import MessagingInbound.
From S2P Require Import MessagingEffects.
From S2P Require Import MessagingSystem.

(** ** One call per key *)

Lemma omap_nodup {A B} (f : A → option B) l i j x y t :
  NoDup (omap f l) → l !! i = Some x → l !! j = Some y → f x = Some t → f y = Some t → i = j.
Proof.
  revert i j. induction l as [|z l IH]; intros [|i] [|j]; simpl; try done.
  - intros Hn [= ->] Hj Hx Hy. rewrite Hx in Hn. apply NoDup_cons in Hn as [Hn _]. exfalso. apply Hn.
    apply list_elem_of_omap. exists y. split; [|done]. by eapply list_elem_of_lookup_2.
  - intros Hn Hi [= ->] Hx Hy. rewrite Hy in Hn. apply NoDup_cons in Hn as [Hn _]. exfalso. apply Hn.
    apply list_elem_of_omap. exists x. split; [|done]. by eapply list_elem_of_lookup_2.
  - intros Hn Hi Hj Hx Hy. f_equal. eapply IH; [|done..]. destruct (f z); [|done]. by apply NoDup_cons in Hn as [_ ?].
Qed.

Section safety.
Context `{UnicodeForms} (dep : MessagingDeployment).

(** C5. A provider is called at most once under an idempotency key of an account,
    whatever the providers, the vault and the network do: in every reachable state of
    the messaging system, with any number of concurrent senders that may crash between
    any two of their transactions, retries of the same request, webhooks and account
    management. And a claim that says COMPLETED stands for one of those calls: its stored
    message is SENT and is the message the call was made for. *)
Theorem one_call_per_key w ss :
  msg_reachable dep (w, ss) →
  (∀ i j c c' key, w_calls w !! i = Some c → w_calls w !! j = Some c' →
     pc_organization_id c = pc_organization_id c' → pc_account_id c = pc_account_id c' →
     pc_idempotency_key c = Some key → pc_idempotency_key c' = Some key → i = j) ∧
  (∀ claim, claim ∈ mdb_sends (messages_in w) → sd_status claim = SendIdempotencyStatus.COMPLETED →
     ∃ m call, sd_result claim = Some m ∧ mm_status m = MessageStatus.SENT ∧ call ∈ w_calls w ∧
       pc_organization_id call = sd_organization_id claim ∧ pc_account_id call = sd_account_id claim ∧
       pc_idempotency_key call = Some (sd_idempotency_key claim) ∧ pc_message_id call = mm_id m).
Proof.
  intros HI%msg_reachable_inv. split.
  - intros i j c c' key Hi Hj Eo Ea Hk Hk'. pose proof (mi_tokens _ _ HI) as Hn. apply NoDup_app in Hn as (_ & _ & Hn).
    apply (omap_nodup call_token _ i j c c' (pc_organization_id c, pc_account_id c, key) Hn Hi Hj); unfold call_token.
    + by rewrite Hk.
    + by rewrite Hk', Eo, Ea.
  - intros claim Hc Hs. destruct (tb_final _ (mi_tables _ _ HI) claim Hc) as (call & Hin & Ht & Hres); [by rewrite Hs|].
    destruct (Hres Hs) as (m & ? & ? & ?). exists m, call. unfold call_token, send_token in Ht. destruct (pc_idempotency_key call); [|done].
    injection Ht as -> -> ->. done.
Qed.

(** ** Delivery states *)

(** A later state of a message: the same, or one of higher rank. *)
Definition advances (s s' : MessageStatus) : Prop := s = s' ∨ (status_rank s < status_rank s')%Z.

#[export] Instance advances_preorder : PreOrder advances.
Proof. split; [by left|]. intros s1 s2 s3 [-> |H1] [<- |H2]; unfold advances; auto. right. lia. Qed.

(** The same message later: once it is with the provider it stays so, under the provider's
    id, and unless callbacks overtake each other its state only advances. *)
Record later_row (overtaking : bool) (r r' : MessagingMessageRecord) : Prop := {
  lr_id : mm_id r' = mm_id r;
  lr_place : (mm_organization_id r', mm_account_id r', mm_direction r') = (mm_organization_id r, mm_account_id r, mm_direction r);
  lr_provider : mm_provider_message_id r ≠ None → mm_provider_message_id r' = mm_provider_message_id r;
  lr_sent : (3 ≤ status_rank (mm_status r) → 3 ≤ status_rank (mm_status r'))%Z;
  lr_status : overtaking = false → advances (mm_status r) (mm_status r');
}.

#[export] Instance later_row_preorder o : PreOrder (later_row o).
Proof.
  split; [by intros r; constructor|]. intros r1 r2 r3 [A1 A2 A3 A4 A5] [B1 B2 B3 B4 B5].
  split; [congruence..| |auto|intros E; etrans; [by apply A5|by apply B5]].
  intros Hp. rewrite B3; rewrite A3; done.
Qed.

(** Every message of the one is a message of the other. *)
Definition evolves (overtaking : bool) (w w' : World) : Prop :=
  ∀ r, r ∈ mdb_messages (messages_in w) → ∃ r', r' ∈ mdb_messages (messages_in w') ∧ later_row overtaking r r'.

#[export] Instance evolves_preorder o : PreOrder (evolves o).
Proof.
  split; [by intros w r Hr; exists r|]. intros w1 w2 w3 H1 H2 r (r2 & Hr2 & L2)%H1.
  apply H2 in Hr2 as (r3 & ? & ?). exists r3. split; [done|by etrans].
Qed.

Lemma evolves_messages o w w' : mdb_messages (messages_in w') = mdb_messages (messages_in w) → evolves o w w'.
Proof. intros E r Hr. exists r. by rewrite E. Qed.

Lemma evolves_append o w w' l :
  mdb_messages (messages_in w') = mdb_messages (messages_in w) ++ l → evolves o w w'.
Proof. intros E r Hr. exists r. split; [|done]. rewrite E. apply elem_of_app. by left. Qed.

Lemma evolves_replace o w w' org id row new :
  keyed mm_id (w_next_uuid w) (mdb_messages (messages_in w)) → row ∈ mdb_messages (messages_in w) →
  mm_id row = id → mm_organization_id row = org → later_row o row new →
  mdb_messages (messages_in w') = update_where (owned_message org id) (λ _, new) (mdb_messages (messages_in w)) →
  evolves o w w'.
Proof.
  intros Hk Hrow Ei Eo Hl E r Hr. destruct (decide (mm_id r = id)) as [Eid|Hne].
  - assert (r = row) as -> by (eapply (keyed_inj mm_id); [done..|congruence]). exists new.
    split; [|done]. rewrite E. apply list_elem_of_fmap. exists row. split; [|done].
    unfold owned_message. by rewrite Eo, Ei, !N.eqb_refl.
  - exists r. split; [|done]. rewrite E. by apply replace_other.
Qed.

Lemma manages_evolves {A} o (m : M A) w : manages m → evolves o w (m w).2.
Proof.
  intros Hm. destruct (m w) as [r w'] eqn:E. apply Hm in E as [_ [E|He]]; apply evolves_messages; simpl.
  - by rewrite E.
  - by inversion He.
Qed.

Lemma apart_evolves o w w' : apart w w' → evolves o w w'.
Proof. intros (E & _). apply evolves_messages. by rewrite E. Qed.

Lemma send_step_evolves ov w org request s rest :
  MsgInv w (mkSender org request s :: rest) → evolves ov w (send_step dep org request s w).2.
Proof.
  intros HI. destruct s as [|plan|plan|plan|plan m|plan m o|plan m o|r|]; cbn [send_step]; try done.
  - destruct (plan_send dep org request w) as [[plan|e] w1] eqn:E; apply (ran_frames apart) in E;
      try apply hushed_plan; by apply apart_evolves.
  - destruct (sm_idempotency_key request) as [key|]; [|done].
    destruct (claim_key dep org plan key w) as [r w1] eqn:E. apply claim_key_effect in E as [_ He].
    destruct r as [[]|e]; simpl; [|by apply evolves_messages; rewrite He..].
    destruct He as (_ & _ & c & _ & _ & E). apply evolves_messages. by rewrite E.
  - destruct (sm_idempotency_key request) as [key|]; [|done].
    destruct (answer_claimed org plan key w) as [r w1] eqn:E. apply (ran_frames apart) in E; [|apply hushed_answer].
    by apply apart_evolves.
  - destruct (persist_queued org plan request w) as [r w1] eqn:E. apply persist_effect in E as [_ He].
    destruct r as [m|e]; simpl; [|apply evolves_messages; by rewrite He].
    destruct He as (_ & _ & E). eapply evolves_append. by rewrite E.
  - destruct (deliver dep org plan request m w) as [r w1] eqn:E. apply deliver_effect in E as (E & _ & _).
    destruct r; apply evolves_messages; simpl; by rewrite E.
  - destruct (mark org m o w) as [r w1] eqn:E. apply mark_effect in E as [_ He].
    destruct r as [m'|e]; simpl; [|apply evolves_messages; by rewrite He].
    destruct He as (row & [Hrow [Eo Ei]%owned_message_id]%find_elem & (Em & Emo & Ema & Emd & Hs) & E).
    pose proof (tb_messages _ (mi_tables _ _ HI)) as Hk.
    destruct (mi_senders _ _ HI (mkSender org request (Answered plan m o))) as [Hmine _ _]; [by left|].
    destruct (Hmine (mm_id m) eq_refl) as (r & Hr & Er & _ & (_ & Hq & Hnone)).
    assert (r = row) as -> by (eapply (keyed_inj mm_id); [done..|congruence]).
    eapply (evolves_replace ov w w1 org (mm_id m) row m'); [done|done|done|done| |by rewrite E].
    split; [done|congruence|done|by rewrite Hq|]. intros _. right. rewrite Hq. destruct o; [by rewrite Hs|by destruct Hs as [-> _]].
  - destruct (conclude org plan request m o w) as [r w1] eqn:E. apply conclude_effect in E as (_ & _ & He).
    destruct (sm_idempotency_key request); [destruct He as (f & _ & E)|]; apply evolves_messages; simpl; by rewrite ?E, ?He.
Qed.

Lemma msg_step_evolves o st st' : msg_step_with dep o st st' → MsgInv st.1 st.2 → evolves o st.1 st'.1.
Proof.
  intros Hs HI. destruct Hs as [| | |w ss org account status found Hread Hcur| | | | | | | |]; simpl in *; try done.
  - destruct x as [org request s]. rewrite <- Permutation_middle in HI. by eapply send_step_evolves.
  - destruct (commit_status_effect org account status found w) as [_ He].
    destruct He as [[l E]|(seen & row & new & l & -> & Hrow & Hi & Ho & (Hni & Hno & Hna & Hnd & Hpid & rep & Hadv & Hst) & E)].
    + apply evolves_messages. by rewrite E.
    + eapply (evolves_replace _ _ _ org (mm_id row) row new); [apply HI|done..| |by rewrite E].
      destruct Hread as (Hrank & _). apply advance_rank in Hadv as (Ht & Hle & Hne).
      split; [done|congruence|by rewrite Hpid|intros _; rewrite Hst; lia|]. intros ->. specialize (Hcur eq_refl).
      assert (seen = row) as ->.
      { unfold status_target in Hcur. symmetry in Hcur. apply find_elem in Hcur as [Hseen _].
        eapply (keyed_inj mm_id); [apply (mi_tables _ _ HI)|done..]. }
      right. rewrite Hst. by destruct (mm_status row), rep.
  - destruct (process_inbound org account inbound event_id w) as [r w'] eqn:Hp.
    apply process_inbound_effect in Hp as [_ [E|(m & l & _ & _ & E)]]; simpl.
    + apply evolves_messages. by rewrite E.
    + eapply evolves_append. by rewrite E.
  - apply manages_evolves, manages_create.
  - apply manages_evolves, manages_update.
  - apply manages_evolves, manages_set_status.
  - apply manages_evolves, manages_delete.
  - apply manages_evolves, manages_store_credential.
  - apply manages_evolves, manages_delete_credential.
  - by apply apart_evolves.
Qed.

Lemma msg_steps_evolve o st st' : rtc (msg_step_with dep o) st st' → MsgInv st.1 st.2 → evolves o st.1 st'.1.
Proof.
  induction 1 as [|x y z Hstep _ IH]; intros HI; [done|]. etrans; [by apply msg_step_evolves|]. apply IH.
  eapply msg_step_inv; [|done]. destruct o; [done|by apply orderly_msg_step].
Qed.

(** Whatever a callback read in an earlier state, [was_read] admits it now. *)
Lemma read_covers w ss w' ss' org account status :
  msg_reachable dep (w, ss) → rtc (msg_step dep) (w, ss) (w', ss') →
  was_read org account status (status_target org account status (messages_in w)) (messages_in w').
Proof.
  intros HI%msg_reachable_inv Hs. pose proof (target_was_read org account status w (mi_tables _ _ HI)) as Hr.
  destruct (status_target _ _ _ _) as [seen|]; [|done]. destruct Hr as (Hrank & row & Hrow & Hi & Hp). split; [done|].
  destruct (msg_steps_evolve _ _ _ Hs HI row Hrow) as (row' & Hrow' & [Li Lp Lid _ _]). exists row'. split; [done|].
  split; [congruence|]. injection Lp as Lo La Ld. revert Hp. unfold has_provider_id. rewrite Lo, La, Ld, !andb_true_iff, !bool_decide_eq_true.
  intros (? & Hid). split; [done|]. by rewrite Lid, Hid; rewrite ?Hid.
Qed.

(** C14. No message is lost, and its delivery state advances unless delivery callbacks
    overtake each other. From any reachable state, whatever senders, crashes, callbacks and
    administrators do next, every message is still there, and one that is SENT or of
    higher rank (DELIVERED, READ, FAILED) never falls below SENT. A callback reads the message
    without locking it, so that another may commit before it writes; while no callback is
    overtaken like that, callbacks may come late, repeated or out of order and each message
    keeps its state or reaches one of higher rank, and stays READ or FAILED once it is. *)
Theorem delivery_state_advances w ss w' ss' r :
  msg_reachable dep (w, ss) → r ∈ mdb_messages (messages_in w) →
  (rtc (msg_step dep) (w, ss) (w', ss') →
   ∃ r', r' ∈ mdb_messages (messages_in w') ∧ mm_id r' = mm_id r ∧
     (3 ≤ status_rank (mm_status r) → 3 ≤ status_rank (mm_status r'))%Z) ∧
  (rtc (orderly_step dep) (w, ss) (w', ss') →
   ∃ r', r' ∈ mdb_messages (messages_in w') ∧ mm_id r' = mm_id r ∧
     (mm_status r' = mm_status r ∨
      terminal_status (mm_status r) = false ∧ (status_rank (mm_status r) < status_rank (mm_status r'))%Z)).
Proof.
  intros HI%msg_reachable_inv Hr. split; intros Hs; destruct (msg_steps_evolve _ _ _ Hs HI r Hr) as (r' & Hr' & [Ei _ _ Hsent Hadv]);
    exists r'; (split; [done|]); (split; [done|]); [done|].
  destruct (Hadv eq_refl) as [Es|Hlt]; [by left|right]. split; [|done]. by destruct (mm_status r), (mm_status r').
Qed.

(** ** Callbacks *)

(** The outcomes of what a callback does with the row it read. *)
Lemma decide_status_outcome org account status found w :
  Tables w → was_read org account status found (messages_in w) →
  match (decide_status org account status found w).1 with
  | Ok _ | Err IntegrityError | Err DeferStatus => True
  | Err _ => False
  end.
Proof.
  intros HT Hread. unfold decide_status. destruct found as [seen|]; [|done].
  destruct Hread as (Hrank & row & Hrow & Hi & Hp). destruct (to_advanced _) eqn:Ha; cbn [negb]; [|done].
  unfold mbind at 1, M_bind at 1, utcnow at 1. cbn beta iota. unfold mbind at 1, M_bind at 1. destruct (apply_message _ _ _ _) as [[x|e] w2] eqn:H2.
  2: { revert H2. unfold apply_message, utcnow, mgets, gets, mbind, M_bind. cbn beta iota. destruct (List.find _ _); [|done].
       destruct (provider_id_taken _ _ _); [|done]. by intros [= <- <-]. }
  apply apply_message_effect in H2 as (_ & H2). change (messages_in (set_w_reads (S (w_reads w)) w)) with (messages_in w) in H2.
  destruct x as [x|].
  2: { destruct H2 as [_ Hnone]. apply (find_none_elem _ _ row) in Hnone; [|done].
       apply andb_true_iff in Hp as [[[Ho%N.eqb_eq _]%andb_true_iff _]%andb_true_iff _].
       unfold owned_message in Hnone. by rewrite Ho, Hi, !N.eqb_refl in Hnone. }
  destruct H2 as (row' & later & _ & -> & _).
  unfold asserted, mbind, M_bind, mmodify, modify_db, mret, M_ret, status_event. cbn beta iota.
  destruct (callback_row status seen row' (w_clock w (w_reads w)) later Ha) as (_ & _ & _ & _ & _ & rep & Hadv & Hst).
  rewrite Hst. destruct (mm_status seen), rep; done.
Qed.

(** A provider's callback never fails: in every reachable state, committing any status for
    any account, whatever was read, returns whether it advanced the message, repeated its
    state, was ignored, was seen before or is deferred until the message is visible. In
    particular the event type is always found: a message that a callback can reach is past
    SENDING, the one outbound state without an event. *)
Theorem callback_never_raises w ss org account status found :
  msg_reachable dep (w, ss) → was_read org account status found (messages_in w) →
  ∃ fold, (commit_status org account status found w).1 = Ok fold.
Proof.
  intros HI%msg_reachable_inv Hread. unfold commit_status, settle_status, try_with.
  destruct (tenant_transaction _ w) as [r w'] eqn:Ht. destruct r as [x|e]; [by exists x|].
  enough (e = IntegrityError ∨ e = DeferStatus) as [-> | ->] by (by eexists).
  unfold tenant_transaction in Ht. set (w0 := set_w_txn_now _ _) in Ht.
  assert (Tables w0) as HT. { eapply apart_tables; [|apply (mi_tables _ _ HI)]. by split. }
  unfold mbind, M_bind in Ht. destruct (insert_receipt _ _ _ _ _ w0) as [[u|e1] w1] eqn:H1.
  2: { unfold insert_receipt, fresh_uuid, utcnow, mgets, gets, mbind, M_bind in H1. cbn beta iota in H1.
       destruct (_ || _); [|done]. injection H1 as <- <-. injection Ht as <- <-. by left. }
  apply insert_receipt_effect in H1 as ([C1 N1] & l & E1).
  assert (Tables w1) as HT1.
  { destruct (tables_messages w0 w1 (mdb_messages (messages_in w0)) l HT) as [? _];
      [done|done|by rewrite E1; destruct (messages_in w0)|eapply keyed_mono; [done|]; apply HT|apply HT|done]. }
  pose proof (decide_status_outcome org account status found w1 HT1) as Ho. rewrite E1 in Ho. specialize (Ho Hread).
  destruct (decide_status org account status found w1) as [[|e'] w2]; [done|]. injection Ht as <- <-.
  destruct e'; try done; auto.
Qed.

(** ** A key that is taken *)

(** The placement guard of the organization admits. *)
Definition admitted (org : uuid) (w : World) : Prop :=
  ∀ w0, w_db w0 = w_db w → w_worker_cell_id w0 = w_worker_cell_id w → w_route w0 = w_route w →
    execution_guard org w0 = (Ok tt, w0).

Lemma taken_key w ss org request key plan w1 claim :
  MsgInv w ss → plan_send dep org request w = (Ok plan, w1) → admitted org w1 →
  sm_idempotency_key request = Some key → claim ∈ mdb_sends (messages_in w) →
  send_token claim = (org, ma_id (sp_account plan), key) →
  ∃ w', send dep org request w = (replay_or_raise claim (sp_fingerprint plan), w') ∧
    messages_in w' = messages_in w ∧ w_calls w' = w_calls w.
Proof.
  intros HI Hplan Hadm Hk Hc Ht.
  pose proof (ran_frames apart _ _ _ _ (hushed_plan dep org request) Hplan) as (E1 & C1 & _).
  unfold send. unfold mbind at 1, M_bind at 1. rewrite Hplan, Hk.
  assert (∃ w2, claim_key dep org plan key w1 = (Ok false, w2) ∧ apart w1 w2) as (w2 & Hclaim & E2 & C2 & _).
  { destruct (claim_key dep org plan key w1) as [r w2] eqn:Hr. exists w2.
    pose proof (claim_key_effect dep org plan key w1 r w2 Hr) as [Hcont He].
    enough (r = Ok false) as -> by done.
    revert Hr. unfold claim_key, claim_send, utcnow. unfold mbind at 1, M_bind at 1. cbn beta iota.
    unfold mbind at 1, M_bind at 1. cbn beta iota. unfold try_with, execution_transaction, tenant_transaction.
    match goal with |- context [(execution_guard org ≫= _) ?x] => set (w3 := x) end.
    unfold mbind at 1, M_bind at 1. rewrite Hadm; [|done..].
    unfold insert_send, fresh_uuid, mgets, gets, mbind, M_bind. cbn beta iota.
    assert (existsb (is_send org (ma_id (sp_account plan)) key) (mdb_sends (messages_in
      (set_w_next_uuid (N.succ (w_next_uuid w3)) w3))) = true) as ->.
    { apply existsb_elem. exists claim. split; [|by apply is_send_token].
      change (claim ∈ mdb_sends (messages_in w1)). by rewrite E1. }
    cbn beta iota. by intros [= <- <-]. }
  unfold mbind at 1, M_bind at 1. rewrite Hclaim. unfold answer_claimed, get_send, tenant_transaction, mgets, gets, mbind, M_bind.
  cbn beta iota zeta. set (w3 := set_w_txn_now _ _).
  assert (List.find (is_send org (ma_id (sp_account plan)) key) (mdb_sends (messages_in w3)) = Some claim) as ->.
  { change (messages_in w3) with (messages_in w2). rewrite E2, E1.
    destruct (List.find _ _) as [d|] eqn:Hf.
    - apply find_elem in Hf as [Hd Hdt%is_send_token]. f_equal.
      eapply (NoDup_map_inj send_token); [apply (mi_tables _ _ HI)|done..|congruence].
    - apply (find_none_elem _ _ claim) in Hf; [|done]. apply is_send_token in Ht. congruence. }
  exists w3. split; [done|]. split; [change (messages_in w3) with (messages_in w2)|simpl]; congruence.
Qed.
(** A send under a key that is already claimed calls no provider and writes nothing.
    Once its plan is made, its answer is that of the claim, on every branch: another
    fingerprint is a conflict, a completed send returns the stored message, a failed one
    reports its error code, a pending one is in progress. *)
Theorem claimed_key_answers w ss org request key plan w1 claim :
  msg_reachable dep (w, ss) → plan_send dep org request w = (Ok plan, w1) → admitted org w1 →
  sm_idempotency_key request = Some key → claim ∈ mdb_sends (messages_in w) →
  send_token claim = (org, ma_id (sp_account plan), key) →
  ∃ w', send dep org request w =
    (if negb (String.eqb (sd_request_fingerprint claim) (sp_fingerprint plan))
     then Err (messaging_error MessagingIdempotencyConflictError)
     else match sd_status claim with
          | SendIdempotencyStatus.COMPLETED =>
              match sd_result claim with Some m => Ok m | None => Err (messaging_error MessagingSendInProgressError) end
          | SendIdempotencyStatus.FAILED =>
              Err (messaging_error (MessagingDeliveryFailedError (Some
                (match sd_error_code claim with Some (String _ _ as c) => c | _ => "NXS_MSG_DELIVERY_FAILED" end))))
          | SendIdempotencyStatus.PENDING => Err (messaging_error MessagingSendInProgressError)
          end, w') ∧ messages_in w' = messages_in w ∧ w_calls w' = w_calls w.
Proof.
  intros HI%msg_reachable_inv Hplan Hadm Hk Hc Ht. simpl in HI.
  destruct (taken_key _ _ _ _ _ _ _ _ HI Hplan Hadm Hk Hc Ht) as (w' & -> & E & C). exists w'. split; [|done].
  unfold replay_or_raise. destruct (negb _); [done|]. by destruct (sd_status claim), (sd_result claim).
Qed.

(** ** A key that is stranded *)

(** The sender is past the claim of the key and has not concluded. *)
Definition live (t : token) (x : Sender) : Prop :=
  match se_stage x with
  | Owned plan | Queued plan _ | Answered plan _ _ | Marked plan _ _ =>
      match sm_idempotency_key (se_request x) with
      | Some key => t = (se_org x, ma_id (sp_account plan), key)
      | None => False
      end
  | _ => False
  end.

(** No sender is at work under the key, its claim is pending and stays taken. *)
Record stranded (t : token) (w : World) (ss : list Sender) : Prop := {
  st_dead : ∀ x, x ∈ ss → ¬ live t x;
  st_pending : ∀ c, c ∈ mdb_sends (messages_in w) → send_token c = t → sd_status c = SendIdempotencyStatus.PENDING;
  st_held : held w t;
}.

#[export] Instance stranded_perm t w : Proper ((≡ₚ) ==> iff) (stranded t w).
Proof. intros ss ss' E. split; intros [Hd Hp Hh]; constructor; try done; intros x Hx; apply Hd; [by rewrite E|by rewrite <- E]. Qed.

(** A step of others that adds no claim. *)
Lemma stranded_step t w w' ss :
  stranded t w ss → rely w w' →
  (∀ c, c ∈ mdb_sends (messages_in w') → c ∈ mdb_sends (messages_in w)) → stranded t w' ss.
Proof. intros [Hd Hp Hh] Hr Hs. constructor; [done| |by eapply held_rely]. intros c Hc%Hs. by apply Hp. Qed.

Lemma stranded_sender t w w' x x' rest :
  stranded t w (x :: rest) → rely w w' → ¬ live t x' →
  (∀ c, c ∈ mdb_sends (messages_in w') → send_token c = t → c ∈ mdb_sends (messages_in w)) → stranded t w' (x' :: rest).
Proof.
  intros [Hd Hp Hh] Hr Hl Hs. constructor; [| |by eapply held_rely].
  - intros y [-> | Hy]%elem_of_cons; [done|]. apply Hd. by right.
  - intros c Hc Ht. apply Hp; [|done]. by apply Hs.
Qed.
Lemma stranded_quiet t w w' x x' rest :
  stranded t w (x :: rest) → apart w w' → ¬ live t x' → stranded t w' (x' :: rest).
Proof. intros HS Ha Hl. eapply stranded_sender; [done|by apply apart_rely|done|]. by destruct Ha as (-> & _). Qed.

Lemma rely_accounts_sends w w' :
  mdb_accounts (messages_in w') = mdb_accounts (messages_in w) → mdb_sends (messages_in w') = mdb_sends (messages_in w) →
  (∀ c, c ∈ w_calls w → c ∈ w_calls w') → (w_next_uuid w ≤ w_next_uuid w')%N → rely w w'.
Proof. intros Ea Es Hc Hn. constructor; unfold account_of; rewrite ?Ea, ?Es; auto. Qed.

(** The stages after a sender's own, when the key is another's. *)
Lemma stranded_advance t w org request s rest :
  stranded t w (mkSender org request s :: rest) →
  stranded t (send_step dep org request s w).2 (mkSender org request (send_step dep org request s w).1 :: rest).
Proof.
  intros HS. assert (¬ live t (mkSender org request s)) as Hl by (apply HS; by left).
  destruct s as [|plan|plan|plan|plan m|plan m o|plan m o|r|]; cbn [send_step]; try done.
  - destruct (plan_send dep org request w) as [[plan|e] w1] eqn:E; apply (ran_frames apart) in E; try apply hushed_plan;
      cbn [proceed fst snd]; (eapply stranded_sender; [done|by apply apart_rely| |by destruct E as (-> & _)]); [|done].
    unfold live. simpl. by destruct (sm_idempotency_key request) eqn:Hk; simpl; rewrite ?Hk.
  - destruct (sm_idempotency_key request) as [key|] eqn:Hk; simpl.
    2: { eapply stranded_sender; [done|by apply apart_rely| |done]. unfold live. simpl. by rewrite Hk. }
    destruct (claim_key dep org plan key w) as [r w1] eqn:E. apply claim_key_effect in E as [Hc He].
    destruct r as [[]|e]; simpl; [|eapply (stranded_quiet t w w1); [done|by split|done]..].
    destruct He as (Hs & Ha & c & Ht & Hp & E). rewrite existsb_none in Hs.
    assert (t ≠ (org, ma_id (sp_account plan), key)) as Hne.
    { intros ->. destruct (st_held _ _ _ HS) as [_ [(d & Hd & Ed)|Hg]]; [|by apply Hg].
      apply Hs in Hd. apply is_send_token in Ed. congruence. }
    eapply stranded_sender; [done| | |].
    + destruct Hc as [C N]. constructor; rewrite ?E, ?C; simpl; auto. intros o a k (d & Hd & Ed). left. exists d.
      split; [|done]. apply elem_of_app. by left.
    + unfold live. simpl. by rewrite Hk.
    + rewrite E. simpl. intros d [Hd| ->%list_elem_of_singleton]%elem_of_app Hdt; [done|congruence].
  - destruct (sm_idempotency_key request) as [key|] eqn:Hk; simpl.
    2: { eapply stranded_sender; [done|by apply apart_rely| |done]. unfold live. simpl. by rewrite Hk. }
    destruct (answer_claimed org plan key w) as [r w1] eqn:E. apply (ran_frames apart) in E; [|apply hushed_answer].
    by eapply stranded_quiet.
  - destruct (persist_queued org plan request w) as [r w1] eqn:E. apply persist_effect in E as [[C N] He].
    destruct r as [m|e]; simpl.
    + destruct He as (_ & _ & E). eapply stranded_sender; [done|apply rely_accounts_sends|exact Hl|];
        rewrite ?E, ?C; done.
    + eapply stranded_quiet; [done|by repeat split|by intros []].
  - destruct (deliver dep org plan request m w) as [r w1] eqn:E. apply deliver_effect in E as (E & N & Hcalls).
    assert (rely w w1) as Hr.
    { apply rely_accounts_sends; [by rewrite E..| |done]. intros c Hc.
      destruct Hcalls as [[_ ->]|(d & _ & ->)]; [done|]. apply elem_of_app. by left. }
    destruct r as [o|e]; simpl; (eapply stranded_sender; [done..| |by rewrite E]); [exact Hl|by intros []].
  - destruct (mark org m o w) as [r w1] eqn:E. apply mark_effect in E as [[C N] He].
    destruct r as [m'|e]; simpl.
    + destruct He as (row & _ & _ & E). eapply stranded_sender; [done|apply rely_accounts_sends|exact Hl|];
        rewrite ?E, ?C; done.
    + eapply stranded_quiet; [done|by repeat split|by intros []].
  - destruct (conclude org plan request m o w) as [r w1] eqn:E. apply conclude_effect in E as ([C N] & _ & He).
    destruct (sm_idempotency_key request) as [key|] eqn:Hk; simpl.
    2: { eapply stranded_quiet; [done|by repeat split|by intros []]. }
    destruct He as (f & Hf & E). unfold live in Hl. simpl in Hl. rewrite Hk in Hl.
    eapply stranded_sender; [done| |by intros []|].
    + constructor; rewrite ?E, ?C; simpl; auto. intros o' a k (d & Hd & Ed). left.
      exists (if is_send org (ma_id (sp_account plan)) key d then f d else d).
      split; [apply list_elem_of_fmap; by exists d|]. destruct (is_send _ _ _ d); [|done]. by rewrite (proj1 (Hf d)).
    + rewrite E. simpl. intros c (d & -> & Hd)%list_elem_of_fmap. destruct (is_send _ _ _ d) eqn:Hs; [|done].
      rewrite (proj1 (Hf d)). intros Ht. apply is_send_token in Hs. congruence.
Qed.

Lemma stranded_manages {A} t (m : M A) w ss : manages m → Tables w → stranded t w ss → stranded t (m w).2 ss.
Proof.
  intros Hm HT HS. destruct (m w) as [r w'] eqn:E. apply Hm in E as [Hc [E|He]]; simpl.
  - eapply stranded_step; [done|by apply apart_rely; split|by rewrite E].
  - destruct (account_tables w w' HT Hc He) as (_ & Hr & _). eapply stranded_step; [done..|].
    inversion He; simpl; try done. intros c [Hc' _]%elem_of_filterb. done.
Qed.

Lemma stranded_stays t st st' :
  msg_step dep st st' → MsgInv st.1 st.2 → stranded t st.1 st.2 → stranded t st'.1 st'.2.
Proof.
  intros Hs HI HS. pose proof (mi_tables _ _ HI) as HT. destruct Hs; simpl in *.
  - destruct HS as [Hd Hp Hh]. constructor; try done. intros x [-> | Hx]%elem_of_cons; [by intros []|auto].
  - destruct x as [org request s]. simpl. rewrite <- Permutation_middle in HS |- *. by apply stranded_advance.
  - rewrite <- Permutation_middle in HS |- *. eapply stranded_sender; [done|by apply apart_rely|by intros []|done].
  - destruct (commit_status_effect org account status found w) as [[C N] He].
    destruct He as [[l E]|(seen & row & new & l & _ & _ & _ & _ & _ & E)];
      (eapply stranded_step; [done|apply rely_accounts_sends|]; rewrite ?E, ?C; done).
  - destruct (process_inbound org account inbound event_id w) as [r w'] eqn:Hp.
    apply process_inbound_effect in Hp as [[C N] [E|(m & l & _ & _ & E)]]; simpl;
      (eapply stranded_step; [done|apply rely_accounts_sends|]; rewrite ?E, ?C; done).
  - eapply stranded_manages; [apply manages_create|done..].
  - eapply stranded_manages; [apply manages_update|done..].
  - eapply stranded_manages; [apply manages_set_status|done..].
  - eapply stranded_manages; [apply manages_delete|done..].
  - eapply stranded_manages; [apply manages_store_credential|done..].
  - eapply stranded_manages; [apply manages_delete_credential|done..].
  - eapply stranded_step; [done|by apply apart_rely|by destruct H0 as (-> & _)].
Qed.

(** A sender with the key is the only one at work under it, and the claim is pending. *)
Lemma queued_alone w a x b plan m key :
  MsgInv w (a ++ x :: b) → se_stage x = Queued plan m → sm_idempotency_key (se_request x) = Some key →
  let t := (se_org x, ma_id (sp_account plan), key) in
  (∀ y, y ∈ a ++ b → ¬ live t y) ∧ held w t ∧
  (∀ c, c ∈ mdb_sends (messages_in w) → send_token c = t → sd_status c = SendIdempotencyStatus.PENDING).
Proof.
  rewrite <- Permutation_middle. intros HI Hx Hk t. pose proof (mi_tokens _ _ HI) as Hn. rewrite tokens_cons in Hn.
  assert (sender_token x = Some t) as Ht by (unfold sender_token; by rewrite Hx, Hk). rewrite Ht in Hn. simpl in Hn.
  apply NoDup_cons in Hn as [Hn _].
  assert (∀ c, c ∈ w_calls w → call_token c ≠ Some t) as Hcalls.
  { intros c Hc Ec. apply Hn. apply elem_of_app. right. apply list_elem_of_omap. by exists c. }
  split; [|split].
  - intros y Hy Hl. unfold live in Hl. destruct (mi_senders _ _ HI y) as [_ Hcalled _]; [by right|].
    destruct (se_stage y) as [|p|p|p|p m'|p m' o|p m' o|r|] eqn:Hs; try done;
      destruct (sm_idempotency_key (se_request y)) as [k|] eqn:Hky; try done.
    1,2: apply Hn, elem_of_app; left; apply list_elem_of_omap; exists y; (split; [done|]); unfold sender_token; by rewrite Hs, Hky, Hl.
    all: destruct (Hcalled p m' o) as (c & Hc & Eo & Ea & Ek & _); [by auto|]; apply (Hcalls c Hc); unfold call_token;
      rewrite Ek, Hky, Eo, Ea; congruence.
  - apply (mi_held _ _ HI). rewrite tokens_cons, Ht. by left.
  - intros c Hc Ec. destruct (decide (sd_status c = SendIdempotencyStatus.PENDING)) as [|Hp]; [done|].
    destruct (tb_final _ (mi_tables _ _ HI) c Hc Hp) as (call & Hin & Hct & _). destruct (Hcalls call Hin). by rewrite Hct, Ec.
Qed.
(** A send that ends between its claim and its outcome strands its key. [send]
    resolves the credential and looks up the provider outside its [try], and catches only
    platform errors of the provider: when any of that raises, the message stays queued and
    the claim pending, and no later step of the system changes the claim. Every retry of
    the request is told that the send is in progress. *)
Theorem stranded_key w a x b plan m key e w1 w' ss' :
  msg_reachable dep (w, a ++ x :: b) → se_stage x = Queued plan m → sm_idempotency_key (se_request x) = Some key →
  deliver dep (se_org x) plan (se_request x) m w = (Err e, w1) →
  rtc (msg_step dep) (w1, a ++ mkSender (se_org x) (se_request x) (Concluded (Err e)) :: b) (w', ss') →
  ∀ claim, claim ∈ mdb_sends (messages_in w') → send_token claim = (se_org x, ma_id (sp_account plan), key) →
    sd_status claim = SendIdempotencyStatus.PENDING ∧
    ∀ request plan' w2, plan_send dep (se_org x) request w' = (Ok plan', w2) → admitted (se_org x) w2 →
      sm_idempotency_key request = Some key → ma_id (sp_account plan') = ma_id (sp_account plan) →
      sp_fingerprint plan' = sd_request_fingerprint claim →
      (send dep (se_org x) request w').1 = Err (messaging_error MessagingSendInProgressError).
Proof.
  intros HI%msg_reachable_inv Hx Hk Hd Hs claim Hc Ht. simpl in HI.
  destruct (queued_alone w a x b plan m key HI Hx Hk) as (Hdead & Hh & Hp).
  set (t := (se_org x, ma_id (sp_account plan), key)) in *.
  pose proof (ms_advance dep true w a x b) as Hstep. rewrite Hx in Hstep. cbn [send_step] in Hstep. rewrite Hd in Hstep.
  cbn [proceed fst snd] in Hstep. pose proof (msg_step_inv dep _ _ Hstep HI) as HI1. simpl in HI1.
  set (x' := mkSender _ _ _) in *.
  assert (stranded t w1 (a ++ x' :: b)) as HS.
  { apply deliver_effect in Hd as (E & N & Hcalls). constructor.
    - intros y Hy. rewrite <- Permutation_middle in Hy. apply elem_of_cons in Hy as [-> | Hy]; [by intros []|auto].
    - rewrite E. done.
    - eapply held_rely; [|exact Hh]. apply rely_accounts_sends; [by rewrite E..| |done]. intros c Hcc.
      destruct Hcalls as [[_ ->]|(d & _ & ->)]; [done|]. apply elem_of_app. by left. }
  assert (stranded t (w', ss').1 (w', ss').2 ∧ MsgInv (w', ss').1 (w', ss').2) as [HS' HI'].
  { clear Hc Ht. remember (w1, a ++ x' :: b) as st1 eqn:E1. remember (w', ss') as st2 eqn:E2.
    assert (stranded t st1.1 st1.2 ∧ MsgInv st1.1 st1.2) as [H1 H2] by (by subst st1).
    clear -Hs H1 H2. induction Hs as [|p q r Hpq _ IH]; [done|].
    apply IH; [by eapply stranded_stays|by eapply msg_step_inv]. }
  simpl in HS', HI'. pose proof (st_pending _ _ _ HS' claim Hc Ht) as Hpend. split; [done|].
  intros request plan' w2 Hplan Hadm Hkr Ea Ef.
  destruct (taken_key _ _ _ _ _ _ _ claim HI' Hplan Hadm Hkr Hc) as (w3 & -> & _ & _); [by rewrite Ea|].
  unfold replay_or_raise. by rewrite Ef, String.eqb_refl, Hpend.
Qed.
End safety.
