(* ===== verification/MessagingDemo.v ===== *)
(** * MessagingDemo: a message through the pipeline

    An account is created and given a credential, a message is sent by SMS and retried
    under its key; witnesses of the theorems on messaging, and two sends that are
    stranded. *)

From S2P Require Import Prelude.
From S2P Require Import PyText.
From S2P Require Import Errors.
From S2P Require Import Lifecycles.
From S2P Require Import Conditions.
From S2P Require Import ScheduleSpec.
From S2P Require Import MessagingStore.
From S2P Require Import CustomerStore.
From S2P Require Import Normalization.
From S2P Require Import CampaignStore.
From S2P Require Import Store.
From S2P Require Import StoreLemmas.
From S2P Require Import Tables.
From S2P Require Import CustomerService.
From S2P Require Import Messages.
From S2P Require Import MessagingRepository.
From S2P Require Import MessagingService.
From S2P Require Import MessagingSend.
From S2P Require Import MessagingInbound.
From S2P Require Import MessagingEffects.
From S2P Require Import MessagingSystem.
From S2P Require Import SmsProvider.
From S2P Require Import MessagingSafety.

#[local] Existing Instance plain_forms.

(** The answers of the provider, decoded. *)
Definition demo_library : PyLibrary := {|
  loads := λ s,
    if String.eqb s "accepted" then Some (JObj [("message_id", JStr "SM1"); ("segments", JInt 1)])
    else if String.eqb s "long" then Some (JObj [("message_id", JStr "SM2"); ("segments", JInt 21)])
    else None;
  str_of := λ _, "?";
  int_of_text := λ _, None;
  hmac_sha256 := λ _ _, "hmac";
  fromisoformat := λ _, None |}.

Definition demo_messaging (answer : string) (vault : result exn SecretMaterial) : MessagingDeployment := {|
  md_providers := λ channel key,
    if bool_decide (channel = MessageChannel.SMS) && String.eqb key "generic_http" then Some (@SmsProvider demo_library) else None;
  md_get_secret := λ _ _ _, vault;
  md_store_secret := λ _ _ _, Ok tt;
  md_delete_secret := λ _ _, Ok tt;
  md_transport := λ _ _, Ok {| rp_status_code := 200; rp_body := answer |};
  md_dumps := λ _, "document";
  md_digest := λ s, s;
  md_b64encode := λ _, "org";
  md_b64decode := λ _, Some 7%N;
  md_token_urlsafe := λ _, "token";
  md_urlsplit := λ _, {| up_scheme := "https"; up_hostname := Some "host"; up_username := None; up_query := EmptyString; up_fragment := EmptyString |};
  md_retention_seconds := 86400;
  md_max_webhook_body_bytes := 1048576;
  md_timestamp_tolerance_seconds := 300;
  md_max_config_keys := 12;
  md_max_config_key_length := 64;
  md_max_config_value_length := 512;
  md_max_config_depth := 3;
  md_max_config_bytes := 4096 |}.

Definition demo_secret : SecretMaterial := [("api_token", "t")].

(** A customer with an open conversation, and no messaging yet. *)
Definition chat_world : World :=
  mkWorld (λ n, Z.of_nat n) 0 0 100 None "nexus" None None
    (mkDB [] [] [] [] [] [] [] [] [] [] [] [] empty_campaign_db
       (mkCustomerDB [mkCustomer 51 7 "Ann" "ACTIVE" None 1 0 0] []
          [mkConversation 71 7 (Some 51%N) "sms" "OPEN" None None None 1 0 0 None] [] [])
       empty_messaging_db) [].

Definition demo_account : CreateAccountRequest :=
  {| ca_channel := MessageChannel.SMS; ca_provider := "generic_http"; ca_slug := "main"; ca_external_account_id := "MG1";
     ca_sender_identity := "+4915112345678"; ca_default_country := None; ca_configuration := [] |}.

Definition demo_send_request : SendMessageRequest :=
  {| sm_account_id := 100; sm_conversation_id := 71; sm_to := [mkOutbound "+4915187654321" None];
     sm_content := mkContent MessageContentType.TEXT (Some "hello") None []; sm_subject := None;
     sm_reply_to_message_id := None; sm_idempotency_key := Some "k1"; sm_correlation_id := None |}.

Section demo.
Context (answer : string) (vault : result exn SecretMaterial).

Abbreviation demo_dep := (demo_messaging answer vault).

Definition account_world : World := Eval vm_compute in (create_account demo_dep 7 demo_account 0 chat_world).2.
Definition ready_world : World := Eval vm_compute in (store_account_credential demo_dep 7 100 demo_secret account_world).2.

Lemma account_state : (create_account demo_dep 7 demo_account 0 chat_world).2 = account_world.
Proof. vm_compute. reflexivity. Qed.
Lemma ready_state : (store_account_credential demo_dep 7 100 demo_secret account_world).2 = ready_world.
Proof. vm_compute. reflexivity. Qed.

(** The stages of one sender. *)
Fixpoint advance (n : nat) (st : World * Sender) : World * Sender :=
  match n with
  | O => st
  | S n =>
      let '(s', w') := send_step demo_dep (se_org st.2) (se_request st.2) (se_stage st.2) st.1 in
      advance n (w', mkSender (se_org st.2) (se_request st.2) s')
  end.

Definition demo_sent : World * Sender := advance 6 (ready_world, mkSender 7 demo_send_request Requested).

Lemma advance_reachable n st :
  msg_reachable demo_dep (st.1, [st.2]) → msg_reachable demo_dep ((advance n st).1, [(advance n st).2]).
Proof.
  revert st. induction n as [|n IH]; intros [w x]; [done|]. cbn [advance fst snd].
  intros (w0 & E & C & Hs). pose proof (ms_advance demo_dep true w [] x []) as Hx. simpl in Hx.
  destruct (send_step _ _ _ _ w) as [s' w']. apply IH. exists w0. split; [done|]. split; [done|].
  by eapply rtc_r.
Qed.

Lemma ready_reachable : msg_reachable demo_dep (ready_world, []).
Proof.
  exists chat_world. split; [done|]. split; [done|].
  pose proof (ms_create_account demo_dep true chat_world [] 7 demo_account 0) as H1. rewrite account_state in H1.
  pose proof (ms_store_credential demo_dep true account_world [] 7 100 demo_secret) as H2. rewrite ready_state in H2.
  by eapply rtc_l; [exact H1|]; apply rtc_once.
Qed.

Lemma sent_reachable : msg_reachable demo_dep (demo_sent.1, [demo_sent.2]).
Proof.
  apply advance_reachable. destruct ready_reachable as (w0 & E & C & Hs). exists w0. split; [done|]. split; [done|].
  eapply rtc_r; [exact Hs|]. exact (ms_request demo_dep true ready_world [] 7 demo_send_request).
Qed.
End demo.

(** ** The provider accepts *)

Abbreviation good := (demo_messaging "accepted" (Ok demo_secret)).

Definition sent_world : World := Eval vm_compute in (demo_sent "accepted" (Ok demo_secret)).1.
Definition sent_sender : Sender := Eval vm_compute in (demo_sent "accepted" (Ok demo_secret)).2.

Lemma sent_state : demo_sent "accepted" (Ok demo_secret) = (sent_world, sent_sender).
Proof. vm_compute. reflexivity. Qed.

Lemma sent_alone : msg_reachable good (sent_world, [sent_sender]).
Proof. pose proof (sent_reachable "accepted" (Ok demo_secret)) as Hs. by rewrite sent_state in Hs. Qed.

Definition no_claim : MessagingSendIdempotencyRecord :=
  mkSendClaim 0 0 0 EmptyString EmptyString SendIdempotencyStatus.PENDING None None None 0 0 0.
Definition sent_claim : MessagingSendIdempotencyRecord := List.hd no_claim (mdb_sends (messages_in sent_world)).

Lemma sent_claims : mdb_sends (messages_in sent_world) = [sent_claim].
Proof. vm_compute. reflexivity. Qed.

Lemma sent_completed : sd_status sent_claim = SendIdempotencyStatus.COMPLETED ∧ length (w_calls sent_world) = 1%nat.
Proof. vm_compute. done. Qed.

Lemma one_call_per_key_witness :
  ∃ m call, sd_result sent_claim = Some m ∧ call ∈ w_calls sent_world ∧ pc_message_id call = mm_id m.
Proof.
  destruct (one_call_per_key good sent_world [sent_sender] sent_alone) as [_ Hc].
  destruct (Hc sent_claim) as (m & call & Hm & _ & Hin & _ & _ & _ & Hid).
  - rewrite sent_claims. constructor.
  - exact (proj1 sent_completed).
  - exists m, call. exact (conj Hm (conj Hin Hid)).
Defined.

(** The provider reports the message delivered, and late that it is sent. *)
Definition report (status : MessageStatus) (name : string) : NormalizedStatus :=
  {| ns_provider_message_id := "SM1"; ns_status := status; ns_provider_status := name; ns_occurred_at := None;
     ns_error_code := None; ns_provider_code := None |}.

Definition sms_account : MessagingAccountRecord :=
  List.hd (mkAccount 0 0 MessageChannel.SMS EmptyString EmptyString EmptyString EmptyString None AccountStatus.ACTIVE [] EmptyString 0 0)
    (mdb_accounts (messages_in sent_world)).

Definition delivered_world : World :=
  Eval vm_compute in (process_status 7 sms_account (report MessageStatus.DELIVERED "delivered") sent_world).2.
Definition late_world : World :=
  Eval vm_compute in (process_status 7 sms_account (report MessageStatus.SENT "sent") delivered_world).2.

Lemma delivered_state : map mm_status (mdb_messages (messages_in delivered_world)) = [MessageStatus.DELIVERED] ∧
  map mm_status (mdb_messages (messages_in late_world)) = [MessageStatus.DELIVERED].
Proof. vm_compute. done. Qed.

Lemma delivered_eq : (process_status 7 sms_account (report MessageStatus.DELIVERED "delivered") sent_world).2 = delivered_world.
Proof. vm_compute. reflexivity. Qed.
Lemma late_eq : (process_status 7 sms_account (report MessageStatus.SENT "sent") delivered_world).2 = late_world.
Proof. vm_compute. reflexivity. Qed.

Definition sent_message : MessagingMessageRecord :=
  List.hd (mkMessage 0 0 0 None 0 MessageChannel.SMS MessageDirection.OUTBOUND MessageStatus.QUEUED EmptyString None
    (mkAddress AddressKind.PHONE EmptyString None) [] (mkContent MessageContentType.TEXT None None []) None None None None None
    None None None None None None 0 0) (mdb_messages (messages_in sent_world)).

Lemma sent_messages : mdb_messages (messages_in sent_world) = [sent_message].
Proof. vm_compute. reflexivity. Qed.

Lemma orderly_callback o w ss org account status :
  Tables w → msg_step_with good o (w, ss) ((process_status org account status w).2, ss).
Proof. intros HT. rewrite process_is_commit. apply ms_status; [by apply target_was_read|done]. Qed.

Lemma sent_steps o : rtc (msg_step_with good o) (sent_world, [sent_sender]) (late_world, [sent_sender]).
Proof.
  pose proof (msg_reachable_inv _ _ sent_alone) as HI.
  pose proof (orderly_callback true sent_world [sent_sender] 7 sms_account (report MessageStatus.DELIVERED "delivered")
    (mi_tables _ _ HI)) as H1. pose proof (msg_step_inv _ _ _ H1 HI) as HI1. rewrite delivered_eq in HI1. clear H1.
  apply (rtc_l _ _ (delivered_world, [sent_sender])).
  { rewrite <- delivered_eq. apply orderly_callback, HI. }
  apply rtc_once. rewrite <- late_eq. apply orderly_callback, HI1.
Qed.

(** Two callbacks read the message while it is SENT; the one that reports READ commits
    first, the one that reports DELIVERED next. *)
Definition read_world : World :=
  Eval vm_compute in (commit_status 7 sms_account (report MessageStatus.READ "read") (Some sent_message) sent_world).2.
Definition regressed_world : World :=
  Eval vm_compute in (commit_status 7 sms_account (report MessageStatus.DELIVERED "delivered") (Some sent_message) read_world).2.

Lemma read_eq : (commit_status 7 sms_account (report MessageStatus.READ "read") (Some sent_message) sent_world).2 = read_world.
Proof. vm_compute. reflexivity. Qed.
Lemma regressed_eq :
  (commit_status 7 sms_account (report MessageStatus.DELIVERED "delivered") (Some sent_message) read_world).2 = regressed_world.
Proof. vm_compute. reflexivity. Qed.

Lemma sent_target status name : status_target 7 sms_account (report status name) (messages_in sent_world) = Some sent_message.
Proof. vm_compute. reflexivity. Qed.

Lemma read_step : msg_step good (sent_world, [sent_sender]) (read_world, [sent_sender]).
Proof.
  rewrite <- read_eq. apply ms_status; [|done]. rewrite <- (sent_target MessageStatus.READ "read").
  eapply read_covers; [exact sent_alone|done].
Qed.

Lemma regressed_steps : rtc (msg_step good) (sent_world, [sent_sender]) (regressed_world, [sent_sender]).
Proof.
  apply (rtc_l _ _ (read_world, [sent_sender])); [exact read_step|]. apply rtc_once.
  rewrite <- regressed_eq. apply ms_status; [|done]. rewrite <- (sent_target MessageStatus.DELIVERED "delivered").
  eapply read_covers; [exact sent_alone|]. apply rtc_once, read_step.
Qed.

(** A message that was READ is DELIVERED again: both callbacks read it before either
    committed, and the UPDATE of the second does not look at the state it overwrites. *)
Theorem callbacks_regress :
  rtc (msg_step good) (sent_world, [sent_sender]) (regressed_world, [sent_sender]) ∧
  map mm_status (mdb_messages (messages_in read_world)) = [MessageStatus.READ] ∧
  map mm_status (mdb_messages (messages_in regressed_world)) = [MessageStatus.DELIVERED].
Proof. split; [exact regressed_steps|]. vm_compute. done. Qed.

Lemma delivery_state_advances_witness :
  (∃ r', r' ∈ mdb_messages (messages_in regressed_world) ∧ mm_id r' = mm_id sent_message ∧
     (3 ≤ status_rank (mm_status r'))%Z) ∧
  ∃ r', r' ∈ mdb_messages (messages_in late_world) ∧ mm_id r' = mm_id sent_message.
Proof.
  assert (sent_message ∈ mdb_messages (messages_in sent_world)) as Hm by (rewrite sent_messages; constructor).
  split.
  - destruct (delivery_state_advances good sent_world [sent_sender] regressed_world [sent_sender] sent_message sent_alone Hm)
      as [H _]. destruct (H regressed_steps) as (r' & Hr' & Hid & Hrank). exists r'. split; [exact Hr'|]. split; [exact Hid|].
    apply Hrank. vm_compute. discriminate.
  - destruct (delivery_state_advances good sent_world [sent_sender] late_world [sent_sender] sent_message sent_alone Hm)
      as [_ H]. destruct (H (sent_steps false)) as (r' & Hr' & Hid & _). exists r'. exact (conj Hr' Hid).
Defined.

Lemma callback_never_raises_witness :
  ∃ fold, (commit_status 7 sms_account (report MessageStatus.DELIVERED "delivered") (Some sent_message) read_world).1 = Ok fold.
Proof.
  apply (callback_never_raises good read_world [sent_sender]).
  - destruct sent_alone as (w0 & E & C & Hs). exists w0. split; [exact E|]. split; [exact C|]. exact (rtc_r _ _ _ Hs read_step).
  - rewrite <- (sent_target MessageStatus.DELIVERED "delivered"). eapply read_covers; [exact sent_alone|]. apply rtc_once, read_step.
Defined.

(** The request again: planned as before, it is answered with the stored message. *)
Definition any_conversation : ConversationRecord := mkConversation 0 0 None EmptyString EmptyString None None None 0 0 0 None.
Definition any_plan : SendPlan :=
  mkPlan sms_account any_conversation [] (mkContent MessageContentType.TEXT None None []) None None EmptyString.

Definition planned (dep : MessagingDeployment) (w : World) : SendPlan :=
  match (plan_send dep 7 demo_send_request w).1 with Ok plan => plan | Err _ => any_plan end.

Definition retry_plan : SendPlan := Eval vm_compute in planned good sent_world.
Definition retry_world : World := Eval vm_compute in (plan_send good 7 demo_send_request sent_world).2.

Lemma retry_planned : plan_send good 7 demo_send_request sent_world = (Ok retry_plan, retry_world).
Proof. vm_compute. reflexivity. Qed.

Lemma retry_token : send_token sent_claim = (7%N, ma_id (sp_account retry_plan), "k1") ∧
  sd_request_fingerprint sent_claim = sp_fingerprint retry_plan ∧ sd_status sent_claim = SendIdempotencyStatus.COMPLETED ∧
  sd_result sent_claim = Some sent_message.
Proof. vm_compute. done. Qed.

Lemma unplaced w : w_worker_cell_id w = None → placement_of 7 (w_db w) = None → admitted 7 w.
Proof.
  intros Hw Hp w0 D W R. unfold execution_guard, gets, mbind, M_bind. by rewrite D, W, Hw, Hp.
Qed.

Lemma claimed_key_answers_witness :
  ∃ w', send good 7 demo_send_request sent_world = (Ok sent_message, w') ∧ w_calls w' = w_calls sent_world.
Proof.
  destruct (claimed_key_answers good sent_world [sent_sender] 7 demo_send_request "k1" retry_plan retry_world sent_claim
    sent_alone retry_planned) as (w' & Hs & _ & Hc).
  - apply unplaced; vm_compute; reflexivity.
  - reflexivity.
  - rewrite sent_claims. constructor.
  - exact (proj1 retry_token).
  - exists w'. split; [|exact Hc]. rewrite Hs. destruct retry_token as (_ & -> & -> & ->). by rewrite String.eqb_refl.
Defined.

(** ** The provider accepts a message of 21 segments

    Its answer fails the validation of [SmsSegmentInfo]: no platform error. *)
Abbreviation long := (demo_messaging "long" (Ok demo_secret)).

Abbreviation queued_state := (advance "long" (Ok demo_secret) 3 (ready_world, mkSender 7 demo_send_request Requested)).

Definition queued_world : World := Eval vm_compute in queued_state.1.
Definition queued_sender : Sender := Eval vm_compute in queued_state.2.

Lemma queued_eq : queued_state = (queued_world, queued_sender).
Proof. vm_compute. reflexivity. Qed.

Lemma queued_reachable : msg_reachable long (queued_world, [] ++ queued_sender :: []).
Proof.
  pose proof (advance_reachable "long" (Ok demo_secret) 3 (ready_world, mkSender 7 demo_send_request Requested)) as Hs.
  rewrite queued_eq in Hs. apply Hs. destruct (ready_reachable "long" (Ok demo_secret)) as (w0 & E & C & Hr).
  exists w0. split; [done|]. split; [done|]. eapply rtc_r; [exact Hr|].
  exact (ms_request long true ready_world [] 7 demo_send_request).
Qed.

Definition queued_plan : SendPlan := Eval vm_compute in match se_stage queued_sender with Queued p _ => p | _ => any_plan end.
Definition queued_message : MessagingMessageRecord :=
  Eval vm_compute in match se_stage queued_sender with Queued _ m => m | _ => sent_message end.

Definition long_world : World := Eval vm_compute in (deliver long 7 queued_plan demo_send_request queued_message queued_world).2.

Lemma long_raises : deliver long 7 queued_plan demo_send_request queued_message queued_world = (Err ValueError, long_world).
Proof. vm_compute. reflexivity. Qed.

Definition long_claim : MessagingSendIdempotencyRecord := Eval vm_compute in List.hd no_claim (mdb_sends (messages_in long_world)).

(** The provider has been called, the message is queued, the claim pending. *)
Lemma long_stranded :
  length (w_calls long_world) = 1%nat ∧ map mm_status (mdb_messages (messages_in long_world)) = [MessageStatus.QUEUED] ∧
  mdb_sends (messages_in long_world) = [long_claim].
Proof. vm_compute. done. Qed.

Lemma stranded_key_witness : sd_status long_claim = SendIdempotencyStatus.PENDING.
Proof.
  apply (stranded_key long queued_world [] queued_sender [] queued_plan queued_message "k1" ValueError long_world long_world
    [mkSender 7 demo_send_request (Concluded (Err ValueError))] queued_reachable).
  - reflexivity.
  - reflexivity.
  - exact long_raises.
  - apply rtc_refl.
  - rewrite (proj2 (proj2 long_stranded)). constructor.
  - vm_compute. reflexivity.
Defined.
