(* ===== verification/WorkflowRepository.v ===== *)
(** * WorkflowRepository: the workflow tables' operations

    [domain/workflows/repository.py] over the store of [Store], and
    [resolve_pending_step] of [workflows/state_machine.py]. A returned entity
    ([_run], [_step], [_definition]) is an immutable snapshot of its row, so the
    row value stands for it. Every query is confined to the tenant of the
    transaction ([org]). *)

From S2P Require Import Prelude.
From S2P Require Import Errors.
From S2P Require Import Lifecycles.
From S2P Require Import Conditions.
From S2P Require Import WorkflowGraph.
From S2P Require Import ScheduleSpec.
From S2P Require Import Store.

Abbreviation Fenced := (Nxs (WorkflowErr WorkflowExecutionFencedError)).

(** [WorkflowRunState.value] and [WorkflowStepState.value] *)
Definition run_state_value (s : WorkflowRunState) : string :=
  match s with
  | WorkflowRunState.PENDING => "PENDING"
  | WorkflowRunState.RUNNING => "RUNNING"
  | WorkflowRunState.PAUSED => "PAUSED"
  | WorkflowRunState.COMPLETED => "COMPLETED"
  | WorkflowRunState.FAILED => "FAILED"
  | WorkflowRunState.CANCELLED => "CANCELLED"
  end.

Definition step_state_value (s : WorkflowStepState) : string :=
  match s with
  | WorkflowStepState.PENDING => "PENDING"
  | WorkflowStepState.READY => "READY"
  | WorkflowStepState.RUNNING => "RUNNING"
  | WorkflowStepState.COMPLETED => "COMPLETED"
  | WorkflowStepState.FAILED => "FAILED"
  | WorkflowStepState.SKIPPED => "SKIPPED"
  | WorkflowStepState.CANCELLED => "CANCELLED"
  end.

(** A dependency that is over: COMPLETED or SKIPPED. *)
Definition settled (s : WorkflowStepState) : bool :=
  bool_decide (s ∈ [WorkflowStepState.COMPLETED; WorkflowStepState.SKIPPED]).

Definition resolve_pending_step (dependency_states : list WorkflowStepState)
    (mode : DependencyMode) : option WorkflowStepState :=
  match dependency_states with
  | [] => Some WorkflowStepState.READY
  | _ =>
      if existsb (λ s, negb (settled s)) dependency_states then None
      else
        match mode with
        | DependencyMode.ALL =>
            if forallb (λ s, bool_decide (s = WorkflowStepState.COMPLETED)) dependency_states
            then Some WorkflowStepState.READY else Some WorkflowStepState.SKIPPED
        | DependencyMode.ANY =>
            if bool_decide (WorkflowStepState.COMPLETED ∈ dependency_states)
            then Some WorkflowStepState.READY else Some WorkflowStepState.SKIPPED
        end
  end.

(** ** Claims *)

Record StepClaim : Type := {
  cl_run : WorkflowRunRecord;
  cl_step : WorkflowStepRunRecord;
  cl_spec : WorkflowStepSpec;
  cl_owner_id : uuid;
  cl_claim_token : uuid;
}.

Record WorkflowVersion : Type := {
  ver_id : uuid;
  ver_organization_id : uuid;
  ver_definition_id : uuid;
  ver_version_number : Z;
  ver_content_hash : string;
  ver_steps : list WorkflowStepSpec;
  ver_published_at : Z;
}.

(** ** Transition history *)

Definition add_transition (org : uuid) (run : WorkflowRunRecord) (step : option uuid)
    (to_state reason source : string) (from_state : option string) : M unit :=
  id ← fresh_uuid;
  now ← txn_now;
  let row := mkRunTransition id org (wr_id run)
    (match step with Some _ => "WORKFLOW_STEP_RUN" | None => "WORKFLOW_RUN" end)
    (match step with Some s => s | None => wr_id run end)
    from_state to_state (String.substring 0 96 reason) source (wr_correlation_id run) None now in
  modify_db (λ d, set_db_run_history (db_run_history d ++ [row]) d).

(** ** Rows of a tenant *)

Definition is_run (org id : uuid) (r : WorkflowRunRecord) : bool :=
  N.eqb (wr_organization_id r) org && N.eqb (wr_id r) id.

Definition run_row (org id : uuid) : M (option WorkflowRunRecord) :=
  gets (λ w, List.find (is_run org id) (db_runs (w_db w))).

(** Flush of an assigned run row. *)
Definition put_run (row : WorkflowRunRecord) : M unit :=
  modify_db (λ d, set_db_runs
    (update_where (λ r, N.eqb (wr_id r) (wr_id row)) (λ _, row) (db_runs d)) d).

(** The step rows of a run. *)
Definition of_run (org id : uuid) (r : WorkflowStepRunRecord) : bool :=
  N.eqb (sr_organization_id r) org && N.eqb (sr_run_id r) id.

Definition run_steps (org id : uuid) (w : World) : list WorkflowStepRunRecord :=
  List.filter (of_run org id) (db_step_runs (w_db w)).

(** Flush of assigned step rows: each table row takes the value of the object with
    its primary key. *)
Definition flush_rows (rows : list WorkflowStepRunRecord) (r : WorkflowStepRunRecord)
    : WorkflowStepRunRecord :=
  match List.find (λ r', N.eqb (sr_id r') (sr_id r)) rows with
  | Some r' => r'
  | None => r
  end.

Definition put_steps (rows : list WorkflowStepRunRecord) : M unit :=
  modify_db (λ d, set_db_step_runs (map (flush_rows rows) (db_step_runs d)) d).

(** [order_by(created_at, step_key)] *)
Definition step_before (a b : WorkflowStepRunRecord) : Prop :=
  sr_created_at a < sr_created_at b ∨
  (sr_created_at a = sr_created_at b ∧ String.le (sr_step_key a) (sr_step_key b)).
#[export] Instance step_before_dec a b : Decision (step_before a b).
Proof. unfold step_before. apply _. Defined.

Definition list_steps (org run_id : uuid) : M (list WorkflowStepRunRecord) :=
  gets (λ w, merge_sort step_before (run_steps org run_id w)).

(** [WorkflowStepSpec.model_validate] of a version step row. *)
Definition spec_of_row (row : WorkflowVersionStepRecord) : WorkflowStepSpec := {|
  key := vs_step_key row;
  step_type := vs_step_type row;
  depends_on := vs_dependencies row;
  dependency_mode := vs_dependency_mode row;
  config := vs_configuration row;
  retry := vs_retry_policy row |}.

Definition find_version_step (org version_step_id : uuid) (d : DB)
    : option WorkflowVersionStepRecord :=
  List.find (λ v, N.eqb (vs_organization_id v) org && N.eqb (vs_id v) version_step_id)
    (db_version_steps d).

(** [_spec_for_step]: [scalar_one] raises when the row is missing. *)
Definition spec_for_step (org version_step_id : uuid) : M WorkflowStepSpec :=
  d ← gets w_db;
  match find_version_step org version_step_id d with
  | None => raise NoResultFound
  | Some row => mret (spec_of_row row)
  end.

(** ** Run transitions *)

Definition is_terminal_run (s : WorkflowRunState) : bool :=
  bool_decide (s ∈ [WorkflowRunState.COMPLETED; WorkflowRunState.FAILED;
                    WorkflowRunState.CANCELLED]).

(** [_transition_run]; returns the row object as assigned. *)
Definition transition_row (org : uuid) (row : WorkflowRunRecord) (target : WorkflowRunState)
    (reason : string) : M WorkflowRunRecord :=
  let previous := wr_state row in
  _ ← lift (require_workflow_transition previous target);
  now ← utcnow;
  let row := set_wr_updated_at now (set_wr_state_version (wr_state_version row + 1)
               (set_wr_state target row)) in
  let row := if bool_decide (target = WorkflowRunState.FAILED)
             then set_wr_error_code (Some reason) row else row in
  row ← (if is_terminal_run target
         then ended ← utcnow;
              mret (set_wr_terminal_reason (Some reason) (set_wr_ended_at (Some ended) row))
         else mret row);
  _ ← put_run row;
  _ ← add_transition org row None (run_state_value target) reason "ENGINE"
        (Some (run_state_value previous));
  mret row.

(** ** [_advance]: resolving pending steps to a fixpoint *)

(** [specs[key]] and [states[key]]: dictionaries keyed by step. *)
Definition dependency_states (states : gmap string WorkflowStepState) (spec : WorkflowStepSpec)
    : result exn (list WorkflowStepState) :=
  (fix go (l : list string) : result exn (list WorkflowStepState) :=
     match l with
     | [] => Ok []
     | k :: l =>
         match states !! k with
         | None => Err KeyError
         | Some s => match go l with Ok ss => Ok (s :: ss) | Err e => Err e end
         end
     end) (depends_on spec).

(** One [for row in sorted(steps, ...)] pass over the row objects. *)
Fixpoint advance_pass (org : uuid) (run : WorkflowRunRecord)
    (specs : gmap string WorkflowStepSpec) (rows : list WorkflowStepRunRecord)
    (states : gmap string WorkflowStepState) (changed : bool)
    : M (list WorkflowStepRunRecord * gmap string WorkflowStepState * bool) :=
  match rows with
  | [] => mret ([], states, changed)
  | row :: rest =>
      if negb (bool_decide (sr_state row = WorkflowStepState.PENDING)) then
        res ← advance_pass org run specs rest states changed;
        let '(rest, states, changed) := res in
        mret (row :: rest, states, changed)
      else
        match specs !! sr_step_key row with
        | None => raise KeyError
        | Some spec =>
            deps ← lift (dependency_states states spec);
            match resolve_pending_step deps (dependency_mode spec) with
            | None =>
                res ← advance_pass org run specs rest states changed;
                let '(rest, states, changed) := res in
                mret (row :: rest, states, changed)
            | Some target =>
                now ← utcnow;
                let row := set_sr_updated_at now (set_sr_state target row) in
                let states := <[sr_step_key row := target]> states in
                _ ← add_transition org run (Some (sr_id row)) (step_state_value target)
                      (if bool_decide (target = WorkflowStepState.READY)
                       then "DEPENDENCIES_COMPLETE" else "INACTIVE_BRANCH")
                      "ENGINE" (Some (step_state_value WorkflowStepState.PENDING));
                res ← advance_pass org run specs rest states true;
                let '(rest, states, changed) := res in
                mret (row :: rest, states, changed)
            end
        end
  end.

(** The [while changed] loop. A pass that changes something resolves a pending
    step, so [S (length rows)] passes are enough. *)
Fixpoint advance_loop (fuel : nat) (org : uuid) (run : WorkflowRunRecord)
    (specs : gmap string WorkflowStepSpec) (rows : list WorkflowStepRunRecord)
    (states : gmap string WorkflowStepState) : M (list WorkflowStepRunRecord) :=
  match fuel with
  | O => raise OutOfFuel
  | S fuel =>
      res ← advance_pass org run specs rows states false;
      let '(rows, states, changed) := res in
      if (changed : bool) then advance_loop fuel org run specs rows states else mret rows
  end.

Definition key_before (a b : WorkflowStepRunRecord) : Prop :=
  String.le (sr_step_key a) (sr_step_key b).
#[export] Instance key_before_dec a b : Decision (key_before a b).
Proof. unfold key_before. apply _. Defined.

(** [{row.step_key: row.output_payload for row in steps if it is not None}] *)
Definition collect_outputs (rows : list WorkflowStepRunRecord) : list (string * json) :=
  omap (λ r, match sr_output_payload r with
             | Some o => Some (sr_step_key r, JObj o)
             | None => None
             end) rows.

Definition advance (org : uuid) (run : WorkflowRunRecord) : M WorkflowRunRecord :=
  steps ← gets (run_steps org (wr_id run));
  let states := list_to_map (map (λ r, (sr_step_key r, sr_state r)) steps) in
  specs ← mapM_list (λ r, spec ← spec_for_step org (sr_version_step_id r);
                          mret (sr_step_key r, spec)) steps;
  if negb (bool_decide (wr_state run = WorkflowRunState.RUNNING)) then mret run
  else
    rows ← advance_loop (S (length steps)) org run (list_to_map specs)
             (merge_sort key_before steps) states;
    _ ← put_steps rows;
    if forallb (λ r, settled (sr_state r)) rows then
      transition_row org (set_wr_output_payload (Some (collect_outputs steps)) run)
        WorkflowRunState.COMPLETED "WORKFLOW_COMPLETED"
    else mret run.

(** ** Claiming and finishing steps *)

Definition eligible (now : Z) (r : WorkflowStepRunRecord) : bool :=
  bool_decide (sr_state r = WorkflowStepState.READY) &&
  match sr_next_eligible_at r with None => true | Some t => t <=? now end.

Definition claim (org run_id owner_id : uuid) : M (option StepClaim) :=
  run ← run_row org run_id;
  match run with
  | None => mret None
  | Some run =>
      if negb (bool_decide (wr_state run = WorkflowRunState.RUNNING)) then mret None
      else
        now ← utcnow;
        steps ← gets (run_steps org run_id);
        match merge_sort step_before (List.filter (eligible now) steps) with
        | [] => mret None
        | row :: _ =>
            token ← fresh_uuid;
            let row := set_sr_updated_at now (set_sr_claimed_at (Some now)
                         (set_sr_claim_token (Some token)
                         (set_sr_execution_owner_id (Some owner_id)
                         (set_sr_attempt_count (sr_attempt_count row + 1)
                         (set_sr_state WorkflowStepState.RUNNING row))))) in
            _ ← add_transition org run (Some (sr_id row))
                  (step_state_value WorkflowStepState.RUNNING) "STEP_CLAIMED" "WORKER"
                  (Some (step_state_value WorkflowStepState.READY));
            spec ← spec_for_step org (sr_version_step_id row);
            _ ← put_steps [row];
            mret (Some {| cl_run := run; cl_step := row; cl_spec := spec;
                          cl_owner_id := owner_id; cl_claim_token := token |})
        end
  end.

(** The guard [run_row is None or run_row.state not in {RUNNING, PAUSED}]. *)
Definition live_run (org run_id : uuid) : M WorkflowRunRecord :=
  run ← run_row org run_id;
  match run with
  | None => raise Fenced
  | Some run =>
      if bool_decide (wr_state run ∈ [WorkflowRunState.RUNNING; WorkflowRunState.PAUSED])
      then mret run else raise Fenced
  end.

(** The fence: the row is RUNNING under exactly this claim. *)
Definition holds_claim (c : StepClaim) (r : WorkflowStepRunRecord) : bool :=
  bool_decide (sr_state r = WorkflowStepState.RUNNING) &&
  bool_decide (sr_execution_owner_id r = Some (cl_owner_id c)) &&
  bool_decide (sr_claim_token r = Some (cl_claim_token c)).

Definition is_step (org id : uuid) (r : WorkflowStepRunRecord) : bool :=
  N.eqb (sr_organization_id r) org && N.eqb (sr_id r) id.

Definition step_row (org id : uuid) : M (option WorkflowStepRunRecord) :=
  gets (λ w, List.find (is_step org id) (db_step_runs (w_db w))).

(** The claimed row, or the fence. *)
Definition claimed_row (org : uuid) (c : StepClaim) : M WorkflowStepRunRecord :=
  row ← step_row org (sr_id (cl_step c));
  match row with
  | None => raise Fenced
  | Some row => if holds_claim c row then mret row else raise Fenced
  end.

(** [finish_step]: the fenced [UPDATE ... RETURNING], then [_advance]. *)
Definition finish_step (org : uuid) (c : StepClaim) (output : list (string * json))
    (external_reference : option string) : M WorkflowRunRecord :=
  run ← live_run org (wr_id (cl_run c));
  row ← claimed_row org c;
  now ← utcnow;
  let row := set_sr_updated_at now (set_sr_external_execution_ref external_reference
               (set_sr_output_payload (Some output)
               (set_sr_state WorkflowStepState.COMPLETED row))) in
  _ ← put_steps [row];
  _ ← add_transition org run (Some (sr_id row)) (step_state_value WorkflowStepState.COMPLETED)
        "STEP_COMPLETED" "WORKER" (Some (step_state_value WorkflowStepState.RUNNING));
  advance org run.

Definition skippable (keys : list string) (r : WorkflowStepRunRecord) : bool :=
  bool_decide (sr_step_key r ∈ keys) &&
  bool_decide (sr_state r ∈ [WorkflowStepState.PENDING; WorkflowStepState.READY]).

(** A row assigned without an explicit [updated_at] takes the column's
    [onupdate=func.now()]. *)
Definition skip_row (org : uuid) (run : WorkflowRunRecord) (r : WorkflowStepRunRecord)
    : M WorkflowStepRunRecord :=
  now ← txn_now;
  _ ← add_transition org run (Some (sr_id r)) (step_state_value WorkflowStepState.SKIPPED)
        "CONDITION_NOT_SELECTED" "ENGINE" (Some (step_state_value (sr_state r)));
  mret (set_sr_updated_at now (set_sr_state WorkflowStepState.SKIPPED r)).

Definition finish_condition (org : uuid) (c : StepClaim) (output : list (string * json))
    (skipped_step_keys : list string) : M WorkflowRunRecord :=
  run ← live_run org (wr_id (cl_run c));
  row ← claimed_row org c;
  now ← utcnow;
  let row := set_sr_updated_at now (set_sr_output_payload (Some output)
               (set_sr_state WorkflowStepState.COMPLETED row)) in
  _ ← put_steps [row];
  _ ← add_transition org run (Some (sr_id row)) (step_state_value WorkflowStepState.COMPLETED)
        "CONDITION_EVALUATED" "WORKER" (Some (step_state_value WorkflowStepState.RUNNING));
  steps ← gets (run_steps org (wr_id run));
  skipped ← mapM_list (skip_row org run) (List.filter (skippable skipped_step_keys) steps);
  _ ← put_steps skipped;
  advance org run.

Definition fail_step (org : uuid) (c : StepClaim) (error_code : string) (retryable : bool)
    : M WorkflowRunRecord :=
  run ← live_run org (wr_id (cl_run c));
  row ← claimed_row org c;
  if retryable && (sr_attempt_count row <? sr_max_attempts row) then
    now ← utcnow;
    let row := set_sr_updated_at now (set_sr_error_code (Some error_code)
                 (set_sr_claim_token None (set_sr_execution_owner_id None
                 (set_sr_state WorkflowStepState.READY row)))) in
    _ ← put_steps [row];
    _ ← add_transition org run (Some (sr_id row)) (step_state_value WorkflowStepState.READY)
          "STEP_RETRY_READY" "WORKER" (Some (step_state_value WorkflowStepState.RUNNING));
    mret run
  else
    now ← utcnow;
    let row := set_sr_updated_at now (set_sr_error_code (Some error_code)
                 (set_sr_state WorkflowStepState.FAILED row)) in
    _ ← put_steps [row];
    _ ← add_transition org run (Some (sr_id row)) (step_state_value WorkflowStepState.FAILED)
          error_code "WORKER" (Some (step_state_value WorkflowStepState.RUNNING));
    transition_row org run WorkflowRunState.FAILED error_code.

(** ** Pause, resume, cancel *)

Definition cancellable (r : WorkflowStepRunRecord) : bool :=
  bool_decide (sr_state r ∈ [WorkflowStepState.PENDING; WorkflowStepState.READY]).

Definition cancel_row (org : uuid) (run : WorkflowRunRecord) (r : WorkflowStepRunRecord)
    : M WorkflowStepRunRecord :=
  now ← utcnow;
  _ ← add_transition org run (Some (sr_id r)) (step_state_value WorkflowStepState.CANCELLED)
        "WORKFLOW_CANCELLED" "ENGINE" (Some (step_state_value (sr_state r)));
  mret (set_sr_updated_at now (set_sr_state WorkflowStepState.CANCELLED r)).

Definition transition_run (org run_id : uuid) (target : WorkflowRunState) (reason : string)
    : M (option WorkflowRunRecord) :=
  found ← run_row org run_id;
  match found with
  | None => mret None
  | Some row =>
      row ← transition_row org row target reason;
      if bool_decide (target = WorkflowRunState.CANCELLED) then
        steps ← gets (run_steps org (wr_id row));
        rows ← mapM_list (cancel_row org row) (List.filter cancellable steps);
        _ ← put_steps rows;
        mret (Some row)
      else if bool_decide (target = WorkflowRunState.RUNNING) then
        row ← advance org row;
        mret (Some row)
      else mret (Some row)
  end.

(** ** Starting runs *)

Definition by_idempotency (org version_id : uuid) (k : string) (r : WorkflowRunRecord) : bool :=
  N.eqb (wr_organization_id r) org && N.eqb (wr_version_id r) version_id &&
  bool_decide (wr_idempotency_key r = Some k).

Definition run_by_idempotency (org version_id : uuid) (k : string)
    : M (option WorkflowRunRecord) :=
  gets (λ w, List.find (by_idempotency org version_id k) (db_runs (w_db w))).

(** [_version_step_ids(version.id)[spec.key]] *)
Definition version_step_id (org version_id : uuid) (k : string) : M uuid :=
  d ← gets w_db;
  match List.find (λ v, N.eqb (vs_organization_id v) org && N.eqb (vs_version_id v) version_id &&
                        String.eqb (vs_step_key v) k) (db_version_steps d) with
  | None => raise KeyError
  | Some v => mret (vs_id v)
  end.

Definition start_step (org : uuid) (run : WorkflowRunRecord) (spec : WorkflowStepSpec) : M unit :=
  let initial := if is_nil (depends_on spec) then WorkflowStepState.READY
                 else WorkflowStepState.PENDING in
  id ← fresh_uuid;
  version_step ← version_step_id org (wr_version_id run) (key spec);
  now ← txn_now;
  let row := mkStepRun id org (wr_id run) version_step (key spec) (step_type spec) initial 0
    (max_attempts (retry spec)) None None None None None [] None None None now now in
  _ ← modify_db (λ d, set_db_step_runs (db_step_runs d ++ [row]) d);
  add_transition org run (Some id) (step_state_value initial)
    (if bool_decide (initial = WorkflowStepState.READY) then "INITIAL_READY"
     else "AWAITING_DEPENDENCIES") "ENGINE" None.

(** The unique constraint [uq_workflow_runs_idempotency], checked at the flush of a
    new run. *)
Definition violates_idempotency (run : WorkflowRunRecord) (d : DB) : bool :=
  match wr_idempotency_key run with
  | None => false
  | Some k => existsb (by_idempotency (wr_organization_id run) (wr_version_id run) k) (db_runs d)
  end.

Definition insert_run (run : WorkflowRunRecord) : M unit :=
  d ← gets w_db;
  if violates_idempotency run d then raise IntegrityError
  else modify_db (λ d, set_db_runs (db_runs d ++ [run]) d).

(** [start_run]; the second component tells whether a run was created. An empty
    idempotency key is falsy. *)
Definition start_run (org : uuid) (version : WorkflowVersion) (input : list (string * json))
    (idempotency_key : option string) (fingerprint : string) (correlation_id : option string)
    : M (WorkflowRunRecord * bool) :=
  existing ← match idempotency_key with
             | Some (String _ _ as k) => run_by_idempotency org (ver_id version) k
             | _ => mret None
             end;
  match existing with
  | Some run => mret (run, false)
  | None =>
      id ← fresh_uuid;
      now ← txn_now;
      let run := mkRun id org (ver_definition_id version) (ver_id version)
        WorkflowRunState.PENDING 1 input None idempotency_key fingerprint correlation_id
        None None now None now now in
      _ ← insert_run run;
      run ← transition_row org run WorkflowRunState.RUNNING "WORKFLOW_STARTED";
      _ ← forM_ (start_step org run) (ver_steps version);
      mret (run, true)
  end.

(** ** Definitions and versions *)

Definition is_definition (org id : uuid) (r : WorkflowDefinitionRecord) : bool :=
  N.eqb (wd_organization_id r) org && N.eqb (wd_id r) id.

Definition definition (org id : uuid) : M (option WorkflowDefinitionRecord) :=
  gets (λ w, List.find (is_definition org id) (db_definitions (w_db w))).

Definition put_definition (row : WorkflowDefinitionRecord) : M unit :=
  modify_db (λ d, set_db_definitions
    (update_where (λ r, N.eqb (wd_id r) (wd_id row)) (λ _, row) (db_definitions d)) d).

(** [create_definition]; the unique constraint on [(organization_id, workflow_key)]
    raises at the flush. *)
Definition create_definition (org : uuid) (workflow_key name : string)
    (description : option string) (steps : list WorkflowStepSpec) : M WorkflowDefinitionRecord :=
  id ← fresh_uuid;
  now ← txn_now;
  d ← gets w_db;
  if existsb (λ r, N.eqb (wd_organization_id r) org && String.eqb (wd_workflow_key r) workflow_key)
       (db_definitions d)
  then raise IntegrityError
  else
    let row := mkDefinition id org workflow_key name description
      WorkflowDefinitionStatus.DRAFT 1 steps now now in
    _ ← modify_db (λ d, set_db_definitions (db_definitions d ++ [row]) d);
    mret row.

Definition update_definition (row : WorkflowDefinitionRecord) (name description : option string)
    (steps : option (list WorkflowStepSpec)) : M WorkflowDefinitionRecord :=
  let row := match name with Some n => set_wd_name n row | None => row end in
  let row := match description with Some d => set_wd_description (Some d) row | None => row end in
  let row := match steps with Some s => set_wd_draft_steps s row | None => row end in
  now ← utcnow;
  let row := set_wd_updated_at now (set_wd_revision (wd_revision row + 1) row) in
  _ ← put_definition row;
  mret row.

(** The highest version number of a definition, 0 when it has none. *)
Definition last_version_number (org definition_id : uuid) (d : DB) : Z :=
  fold_right Z.max 0
    (map wv_version_number
      (List.filter (λ v, N.eqb (wv_organization_id v) org && N.eqb (wv_definition_id v) definition_id)
        (db_versions d))).

Definition version_step_row (org version_id : uuid) (now order : Z) (id : uuid)
    (item : WorkflowStepSpec) : WorkflowVersionStepRecord :=
  mkVersionStep id org version_id (key item) (step_type item) (depends_on item)
    (dependency_mode item) (config item) (retry item) order now.

(** The loop [for order, key in enumerate(ordered_keys)]. *)
Fixpoint add_version_steps (org version_id : uuid) (now : Z) (steps : list WorkflowStepSpec)
    (order : Z) (ordered_keys : list string) : M unit :=
  match ordered_keys with
  | [] => mret tt
  | k :: ks =>
      match find_step steps k with
      | None => raise KeyError
      | Some item =>
          id ← fresh_uuid;
          _ ← modify_db (λ d, set_db_version_steps
                (db_version_steps d ++ [version_step_row org version_id now order id item]) d);
          add_version_steps org version_id now steps (order + 1) ks
      end
  end.

(** [publish]; [content_hash] is the SHA-256 of the canonical step document. *)
Definition publish (content_hash : list WorkflowStepSpec → string) (org : uuid)
    (row : WorkflowDefinitionRecord) (ordered_keys : list string) : M WorkflowVersion :=
  number ← gets (λ w, last_version_number org (wd_id row) (w_db w));
  let steps := wd_draft_steps row in
  id ← fresh_uuid;
  now ← txn_now;
  let version := mkVersion id org (wd_id row) (number + 1) (content_hash steps) now now in
  _ ← modify_db (λ d, set_db_versions (db_versions d ++ [version]) d);
  _ ← add_version_steps org id now steps 0 ordered_keys;
  updated ← utcnow;
  _ ← put_definition (set_wd_updated_at updated (set_wd_status WorkflowDefinitionStatus.ACTIVE row));
  mret {| ver_id := id; ver_organization_id := org; ver_definition_id := wd_id row;
          ver_version_number := number + 1; ver_content_hash := content_hash steps;
          ver_steps := steps; ver_published_at := now |}.

Definition order_before (a b : WorkflowVersionStepRecord) : Prop :=
  vs_topological_order a ≤ vs_topological_order b.
#[export] Instance order_before_dec a b : Decision (order_before a b).
Proof. unfold order_before. apply _. Defined.

(** [_version_specs]: the step rows of a version in topological order. *)
Definition version_specs (org version_id : uuid) (d : DB) : list WorkflowStepSpec :=
  map spec_of_row
    (merge_sort order_before
      (List.filter (λ v, N.eqb (vs_organization_id v) org && N.eqb (vs_version_id v) version_id)
        (db_version_steps d))).

Definition version_of_row (d : DB) (row : WorkflowVersionRecord) : WorkflowVersion := {|
  ver_id := wv_id row; ver_organization_id := wv_organization_id row;
  ver_definition_id := wv_definition_id row; ver_version_number := wv_version_number row;
  ver_content_hash := wv_content_hash row;
  ver_steps := version_specs (wv_organization_id row) (wv_id row) d;
  ver_published_at := wv_published_at row |}.

Definition version (org version_id : uuid) : M (option WorkflowVersion) :=
  gets (λ w,
    match List.find (λ v, N.eqb (wv_organization_id v) org && N.eqb (wv_id v) version_id)
            (db_versions (w_db w)) with
    | None => None
    | Some row => Some (version_of_row (w_db w) row)
    end).
