(* ===== verification/WorkflowService.v ===== *)
(** * WorkflowService: the durable workflow engine

    [workflows/service.py]: each public method as its transactions, the events it
    writes to the outbox, and the error paths. The tool engine, the tool registry
    and the agent runtime are the boundary the engine calls through ([Boundary]);
    the digests of [hashlib] are parameters. *)

From S2P Require Import Prelude.
From S2P Require Import Errors.
From S2P Require Import Lifecycles.
From S2P Require Import Conditions.
From S2P Require Import WorkflowGraph.
From S2P Require Import ScheduleSpec.
From S2P Require Import Store.
From S2P Require Import WorkflowRepository.

(** ** Boundaries *)

Record ToolInvocation : Type := {
  ti_tool_key : string;
  ti_arguments : list (string * json);
  ti_idempotency_key : string;
  ti_correlation_id : option string;
}.

(** The fields of [ToolResult] the engine reads. *)
Record ToolResult : Type := {
  tr_ok : bool;
  tr_output : json;
}.

Record StartAgentSessionRequest : Type := {
  sa_agent_id : uuid;
  sa_idempotency_key : string;
  sa_correlation_id : option string;
}.

Record SubmitTurnRequest : Type := {
  st_content : string;
  st_idempotency_key : string;
  st_correlation_id : option string;
}.

Record AgentResponse : Type := {
  ar_content : json;
  ar_finish_reason : json;
}.

(** What P08 and P13 answer; each call returns or raises. *)
Record Boundary : Type := {
  tools_get_by_key : uuid → string → result exn unit;
  agents_get_agent : uuid → uuid → result exn unit;
  tool_invoke : uuid → ToolInvocation → result exn ToolResult;
  agents_start_session : uuid → StartAgentSessionRequest → result exn uuid;
  agents_submit_turn : uuid → uuid → SubmitTurnRequest → result exn AgentResponse;
}.

(** ** Event payloads *)

Definition step_type_value (t : WorkflowStepType) : string :=
  match t with
  | WorkflowStepType.TOOL => "TOOL"
  | WorkflowStepType.AGENT => "AGENT"
  | WorkflowStepType.CONDITION => "CONDITION"
  | WorkflowStepType.NOOP => "NOOP"
  end.

Definition json_of_option (o : option string) : json :=
  match o with Some s => JStr s | None => JNull end.

Definition run_payload (run : WorkflowRunRecord) : list (string * json) :=
  [("run_id", JStr (uuid_str (wr_id run)));
   ("definition_id", JStr (uuid_str (wr_definition_id run)));
   ("version_id", JStr (uuid_str (wr_version_id run)));
   ("state", JStr (run_state_value (wr_state run)));
   ("correlation_id", json_of_option (wr_correlation_id run))].

Definition step_payload (c : StepClaim) (state : string) : list (string * json) :=
  [("run_id", JStr (uuid_str (wr_id (cl_run c))));
   ("step_run_id", JStr (uuid_str (sr_id (cl_step c))));
   ("step_key", JStr (sr_step_key (cl_step c)));
   ("step_type", JStr (step_type_value (sr_step_type (cl_step c))));
   ("state", JStr state);
   ("attempt", JInt (sr_attempt_count (cl_step c)));
   ("correlation_id", json_of_option (wr_correlation_id (cl_run c)))].

Definition step_run_payload (run : WorkflowRunRecord) (step : WorkflowStepRunRecord)
    : list (string * json) :=
  [("run_id", JStr (uuid_str (wr_id run)));
   ("step_run_id", JStr (uuid_str (sr_id step)));
   ("step_key", JStr (sr_step_key step));
   ("step_type", JStr (step_type_value (sr_step_type step)));
   ("state", JStr (step_state_value (sr_state step)));
   ("attempt", JInt (sr_attempt_count step));
   ("correlation_id", json_of_option (wr_correlation_id run))].

Definition run_event (org : uuid) (event_type : string) (run : WorkflowRunRecord) : M unit :=
  enqueue_event event_type "workflow_run" (wr_id run) org (run_payload run).

Definition step_event (org : uuid) (event_type : string) (run : WorkflowRunRecord)
    (step : WorkflowStepRunRecord) : M unit :=
  enqueue_event event_type "workflow_step_run" (sr_id step) org (step_run_payload run step).

(** ** Definitions *)

Record CreateWorkflowRequest : Type := {
  cw_workflow_key : string;
  cw_name : string;
  cw_description : option string;
  cw_steps : list WorkflowStepSpec;
}.

Record UpdateWorkflowRequest : Type := {
  uw_expected_revision : Z;
  uw_name : option string;
  uw_description : option string;
  uw_steps : option (list WorkflowStepSpec);
}.

Record StartWorkflowRunRequest : Type := {
  sw_workflow_version_id : uuid;
  sw_input : list (string * json);
  sw_idempotency_key : option string;
  sw_correlation_id : option string;
}.

Module WorkflowService.

Definition create_definition (org : uuid) (request : CreateWorkflowRequest)
    : M WorkflowDefinitionRecord :=
  _ ← lift (validate_workflow_graph (cw_steps request));
  tenant_transaction (
    definition ← WorkflowRepository.create_definition org (cw_workflow_key request)
      (cw_name request) (cw_description request) (cw_steps request);
    _ ← enqueue_event "workflow.definition.created" "workflow_definition" (wd_id definition) org
          [("definition_id", JStr (uuid_str (wd_id definition)));
           ("workflow_key", JStr (wd_workflow_key definition))];
    mret definition).

Definition get_definition (org definition_id : uuid) : M WorkflowDefinitionRecord :=
  tenant_transaction (
    row ← definition org definition_id;
    match row with
    | None => raise (Nxs (WorkflowErr WorkflowNotFoundError))
    | Some row => mret row
    end).

Definition update_definition (org definition_id : uuid) (request : UpdateWorkflowRequest)
    : M WorkflowDefinitionRecord :=
  _ ← match uw_steps request with
      | Some steps => lift (validate_workflow_graph steps)
      | None => mret []
      end;
  tenant_transaction (
    row ← definition org definition_id;
    match row with
    | None => raise (Nxs (WorkflowErr WorkflowNotFoundError))
    | Some row =>
        if bool_decide (wd_status row = WorkflowDefinitionStatus.ARCHIVED)
        then raise (Nxs (WorkflowErr WorkflowInvalidStateError))
        else if negb (wd_revision row =? uw_expected_revision request)
        then raise (Nxs (WorkflowErr WorkflowConflictError))
        else WorkflowRepository.update_definition row (uw_name request) (uw_description request)
               (uw_steps request)
    end).

(** The reference checks between the two transactions of [publish]. *)
Definition check_references (bd : Boundary) (org : uuid) (steps : list WorkflowStepSpec)
    : result exn unit :=
  iterM (λ s, match config s with
              | ToolConfig c => tools_get_by_key bd org (tool_key c)
              | AgentConfig c => agents_get_agent bd org (agent_id c)
              | _ => Ok tt
              end) steps.

(** The comparison [dump(steps) != draft_steps] of two lists of dumped documents:
    field by field, JSON values by Python equality. *)
Definition config_eqb (a b : StepConfig) : bool :=
  match a, b with
  | ToolConfig x, ToolConfig y =>
      String.eqb (tool_key x) (tool_key y) && py_eq (JObj (arguments x)) (JObj (arguments y))
  | AgentConfig x, AgentConfig y =>
      N.eqb (agent_id x) (agent_id y) && String.eqb (prompt x) (prompt y)
  | ConditionConfig x, ConditionConfig y =>
      String.eqb (path x) (path y) && bool_decide (operator x = operator y) &&
      py_eq (value x) (value y) && bool_decide (then_steps x = then_steps y) &&
      bool_decide (else_steps x = else_steps y)
  | NoopConfig x, NoopConfig y => py_eq (JObj (noop_output x)) (JObj (noop_output y))
  | _, _ => false
  end.

Definition spec_eqb (a b : WorkflowStepSpec) : bool :=
  String.eqb (key a) (key b) && bool_decide (step_type a = step_type b) &&
  bool_decide (depends_on a = depends_on b) &&
  bool_decide (dependency_mode a = dependency_mode b) && config_eqb (config a) (config b) &&
  Z.eqb (max_attempts (retry a)) (max_attempts (retry b)) &&
  bool_decide (retryable_codes (retry a) = retryable_codes (retry b)).

Fixpoint specs_eqb (l k : list WorkflowStepSpec) : bool :=
  match l, k with
  | [], [] => true
  | a :: l, b :: k => spec_eqb a b && specs_eqb l k
  | _, _ => false
  end.

(** The first transaction of [publish]: the draft and its topological order. *)
Definition publish_read (org definition_id : uuid)
    : M (list WorkflowStepSpec * list string) :=
  tenant_transaction (
    row ← definition org definition_id;
    match row with
    | None => raise (Nxs (WorkflowErr WorkflowNotFoundError))
    | Some row =>
        order ← lift (validate_workflow_graph (wd_draft_steps row));
        mret (wd_draft_steps row, order)
    end).

(** The second transaction: the draft must be the one that was validated. *)
Definition publish_commit (content_hash : list WorkflowStepSpec → string) (org definition_id : uuid)
    (steps : list WorkflowStepSpec) (order : list string) : M WorkflowVersion :=
  tenant_transaction (
    row ← definition org definition_id;
    match row with
    | None => raise (Nxs (WorkflowErr WorkflowNotFoundError))
    | Some row =>
        if negb (specs_eqb steps (wd_draft_steps row))
        then raise (Nxs (WorkflowErr WorkflowConflictError))
        else
          version ← WorkflowRepository.publish content_hash org row order;
          _ ← enqueue_event "workflow.version.published" "workflow_definition" definition_id org
                [("definition_id", JStr (uuid_str definition_id));
                 ("workflow_key", JStr (wd_workflow_key row));
                 ("version_id", JStr (uuid_str (ver_id version)));
                 ("version_number", JInt (ver_version_number version))];
          mret version
    end).

Definition publish (content_hash : list WorkflowStepSpec → string) (bd : Boundary)
    (org definition_id : uuid) : M WorkflowVersion :=
  first ← publish_read org definition_id;
  let '(steps, order) := first in
  _ ← lift (check_references bd org steps);
  publish_commit content_hash org definition_id steps order.

Definition get_version (org version_id : uuid) : M WorkflowVersion :=
  tenant_transaction (
    found ← version org version_id;
    match found with
    | None => raise (Nxs (WorkflowErr WorkflowVersionNotFoundError))
    | Some v => mret v
    end).

(** ** Runs *)

(** The transaction that starts a run, or finds the one with the same key. *)
Definition start_txn (org : uuid) (v : WorkflowVersion) (request : StartWorkflowRunRequest)
    (print : string) : M WorkflowRunRecord :=
  execution_transaction org (
    started ← WorkflowRepository.start_run org v (sw_input request)
      (sw_idempotency_key request) print (sw_correlation_id request);
    let '(run, created) := started in
    if negb created && negb (String.eqb (wr_request_fingerprint run) print)
    then raise (Nxs (WorkflowErr WorkflowConflictError))
    else
      _ ← (if (created : bool) then
             _ ← run_event org "workflow.run.started" run;
             steps ← list_steps org (wr_id run);
             forM_ (λ step,
               if bool_decide (sr_state step = WorkflowStepState.READY)
               then step_event org "workflow.step.ready" run step else mret tt) steps
           else mret tt);
      mret run).

(** The transaction of the [except IntegrityError] handler. *)
Definition resolve_txn (org : uuid) (v : WorkflowVersion) (k print : string)
    : M (option WorkflowRunRecord) :=
  execution_transaction org (
    found ← run_by_idempotency org (ver_id v) k;
    match found with
    | Some run =>
        if negb (String.eqb (wr_request_fingerprint run) print)
        then raise (Nxs (WorkflowErr WorkflowConflictError))
        else mret (Some run)
    | None => mret None
    end).

(** [start_run]; [fingerprint] is the SHA-256 of the canonical request document. *)
Definition start_run (fingerprint : uuid → list (string * json) → string) (org : uuid)
    (request : StartWorkflowRunRequest) : M WorkflowRunRecord :=
  v ← get_version org (sw_workflow_version_id request);
  let print := fingerprint (ver_id v) (sw_input request) in
  try_with (start_txn org v request print)
    (λ e, match e, sw_idempotency_key request with
          | IntegrityError, Some k =>
              resolved ← resolve_txn org v k print;
              match resolved with
              | Some run => mret run
              | None => raise (Nxs (WorkflowErr WorkflowConflictError))
              end
          | _, _ => raise e
          end).

Definition get_run (org run_id : uuid) : M WorkflowRunRecord :=
  tenant_transaction (
    row ← run_row org run_id;
    match row with
    | None => raise (Nxs (WorkflowErr WorkflowRunNotFoundError))
    | Some row => mret row
    end).

Definition list_steps (org run_id : uuid) : M (list WorkflowStepRunRecord) :=
  _ ← get_run org run_id;
  tenant_transaction (WorkflowRepository.list_steps org run_id).

(** [_transition] *)
Definition transition (org run_id : uuid) (target : WorkflowRunState) (reason event_type : string)
    : M WorkflowRunRecord :=
  tenant_transaction (
    run ← transition_run org run_id target reason;
    match run with
    | None => raise (Nxs (WorkflowErr WorkflowRunNotFoundError))
    | Some run =>
        _ ← run_event org event_type run;
        mret run
    end).

Definition pause_run (org run_id : uuid) : M WorkflowRunRecord :=
  transition org run_id WorkflowRunState.PAUSED "WORKFLOW_PAUSED" "workflow.run.paused".

Definition resume_run (org run_id : uuid) : M WorkflowRunRecord :=
  transition org run_id WorkflowRunState.RUNNING "WORKFLOW_RESUMED" "workflow.run.resumed".

Definition cancel_run (org run_id : uuid) : M WorkflowRunRecord :=
  transition org run_id WorkflowRunState.CANCELLED "WORKFLOW_CANCELLED" "workflow.run.cancelled".

Definition claim_next (org run_id : uuid) (owner_id : option uuid) : M (option StepClaim) :=
  execution_transaction org (
    owner ← match owner_id with Some o => mret o | None => fresh_uuid end;
    c ← claim org run_id owner;
    _ ← match c with
        | Some c => enqueue_event "workflow.step.started" "workflow_step_run" (sr_id (cl_step c))
                      org (step_payload c "RUNNING")
        | None => mret tt
        end;
    mret c).

(** ** Executing a claimed step *)

(** [semantic_key = f"wf:{claim.run.id}:{claim.step.step_key}"] *)
Definition semantic_key (c : StepClaim) : string :=
  "wf:" +:+ uuid_str (wr_id (cl_run c)) +:+ ":" +:+ sr_step_key (cl_step c).

Definition step_outputs (steps : list WorkflowStepRunRecord) : list (string * json) :=
  collect_outputs steps.

(** [_execute]: the output, the external reference and the skipped branch. *)
Definition execute (bd : Boundary) (org : uuid) (c : StepClaim)
    : M (list (string * json) * option string * option (list string)) :=
  match config (cl_spec c) with
  | ToolConfig t =>
      res ← lift (tool_invoke bd org {|
        ti_tool_key := tool_key t; ti_arguments := arguments t;
        ti_idempotency_key := semantic_key c;
        ti_correlation_id := wr_correlation_id (cl_run c) |});
      if negb (tr_ok res) then raise (Nxs (WorkflowErr (WorkflowStepFailedError EmptyString)))
      else mret (match tr_output res with JObj o => o | v => [("result", v)] end, None, None)
  | AgentConfig a =>
      session ← lift (agents_start_session bd org {|
        sa_agent_id := agent_id a; sa_idempotency_key := semantic_key c +:+ ":session";
        sa_correlation_id := wr_correlation_id (cl_run c) |});
      response ← lift (agents_submit_turn bd org session {|
        st_content := prompt a; st_idempotency_key := semantic_key c +:+ ":turn";
        st_correlation_id := wr_correlation_id (cl_run c) |});
      mret ([("content", ar_content response); ("finish_reason", ar_finish_reason response)],
            Some (uuid_str session), None)
  | ConditionConfig k =>
      steps ← list_steps org (wr_id (cl_run c));
      let selected := evaluate_condition k (JObj (wr_input_payload (cl_run c)))
                        (step_outputs steps) in
      let selected_steps := if selected then then_steps k else else_steps k in
      let skipped := if selected then else_steps k else then_steps k in
      mret ([("selected", JBool selected); ("selected_steps", JArr (map JStr selected_steps));
             ("skipped_steps", JArr (map JStr skipped))], None, Some skipped)
  | NoopConfig n => mret (noop_output n, None, None)
  end.

Definition state_of (k : string) (steps : list WorkflowStepRunRecord) : option WorkflowStepState :=
  match List.find (λ s, String.eqb (sr_step_key s) k) steps with
  | Some s => Some (sr_state s)
  | None => None
  end.

(** The [for step in after] loop of [execute_next]. *)
Definition announce (org : uuid) (run : WorkflowRunRecord) (before : list WorkflowStepRunRecord)
    (step : WorkflowStepRunRecord) : M unit :=
  let moved := negb (bool_decide (state_of (sr_step_key step) before = Some (sr_state step))) in
  _ ← (if bool_decide (sr_state step = WorkflowStepState.READY) && moved
       then step_event org "workflow.step.ready" run step else mret tt);
  if bool_decide (sr_state step = WorkflowStepState.SKIPPED) && moved
  then step_event org "workflow.step.skipped" run step else mret tt.

(** The transaction that records a successful execution. *)
Definition finish (org run_id : uuid) (c : StepClaim)
    (result : list (string * json) * option string * option (list string)) : M WorkflowRunRecord :=
  let '(output, reference, skipped) := result in
  execution_transaction org (
    before ← WorkflowRepository.list_steps org run_id;
    run ← match skipped with
          | None => finish_step org c output reference
          | Some keys => finish_condition org c output keys
          end;
    _ ← enqueue_event "workflow.step.completed" "workflow_step_run" (sr_id (cl_step c)) org
          (step_payload c "COMPLETED");
    after ← WorkflowRepository.list_steps org run_id;
    _ ← forM_ (announce org run before) after;
    _ ← (if bool_decide (wr_state run = WorkflowRunState.COMPLETED)
         then run_event org "workflow.run.completed" run else mret tt);
    mret run).

(** The transaction of the [except NxsError] handler. *)
Definition record_failure (org run_id : uuid) (c : StepClaim) (exc : NxsError) : M unit :=
  let retry_step := retryable exc &&
    bool_decide (code exc ∈ retryable_codes (retry (cl_spec c))) in
  execution_transaction org (
    run ← fail_step org c (code exc) retry_step;
    steps ← WorkflowRepository.list_steps org run_id;
    match List.find (λ s, N.eqb (sr_id s) (sr_id (cl_step c))) steps with
    | None => raise StopIteration
    | Some current =>
        _ ← step_event org (if bool_decide (sr_state current = WorkflowStepState.READY)
                            then "workflow.step.ready" else "workflow.step.failed") run current;
        if bool_decide (wr_state run = WorkflowRunState.FAILED)
        then run_event org "workflow.run.failed" run else mret tt
    end).

Definition execute_next (bd : Boundary) (org run_id : uuid) (owner_id : option uuid)
    : M (option WorkflowRunRecord) :=
  claimed ← claim_next org run_id owner_id;
  match claimed with
  | None => mret None
  | Some c =>
      try_with
        (result ← execute bd org c;
         run ← finish org run_id c result;
         mret (Some run))
        (λ e, match e with
              | Nxs (CellErr CellUnavailableError) | Nxs (CellErr PlacementFencedError)
              | Nxs (CellErr PlacementRequiredError) => raise e
              | Nxs exc =>
                  _ ← record_failure org run_id c exc;
                  raise (Nxs (WorkflowErr (WorkflowStepFailedError (code exc))))
              | _ => raise e
              end)
  end.

End WorkflowService.
