(* ===== verification/AdvanceLemmas.v ===== *)
(** * AdvanceLemmas: the dependency resolver reaches its fixpoint

    What [WorkflowRepository.advance] does to the steps of a run: the [while
    changed] loop terminates, moves only PENDING steps and only to the state their
    settled dependencies justify, and stops when no pending step can move. *)

From S2P Require Import Prelude.
From S2P Require Import Errors.
From S2P Require Import Lifecycles.
From S2P Require Import Conditions.
From S2P Require Import WorkflowGraph.
From S2P Require Import ScheduleSpec.
From S2P Require Import Store.
From S2P Require Import StoreLemmas.
From S2P Require Import WorkflowRepository.

(** ** What a transaction leaves alone *)

(** The tables the workflow invariants speak of. *)
Definition core (d : DB) :=
  (db_definitions d, db_versions d, db_version_steps d, db_runs d, db_step_runs d).

(** The core tables are untouched and no UUID is taken back. *)
Definition same_core (w w' : World) : Prop :=
  core (w_db w) = core (w_db w') ∧ (w_next_uuid w ≤ w_next_uuid w')%N.

#[export] Instance same_core_refl : Reflexive same_core.
Proof. intros w. split; [done|lia]. Qed.
#[export] Instance same_core_trans : Transitive same_core.
Proof. intros w1 w2 w3 [H1 ?] [H2 ?]. split; [congruence|lia]. Qed.

Lemma same_core_versions w w' : same_core w w' → db_version_steps (w_db w) = db_version_steps (w_db w').
Proof. intros [H _]. unfold core in H. congruence. Qed.
Lemma same_core_steps w w' : same_core w w' → db_step_runs (w_db w) = db_step_runs (w_db w').
Proof. intros [H _]. unfold core in H. congruence. Qed.
Lemma same_core_runs w w' : same_core w w' → db_runs (w_db w) = db_runs (w_db w').
Proof. intros [H _]. unfold core in H. congruence. Qed.

Lemma runs_utcnow w (Q : Z → World → Prop) :
  (∀ now w', same_core w w' → Q now w') → runs utcnow w Q.
Proof. intros HQ. eexists _, _. split; [reflexivity|]. by apply HQ. Qed.

Lemma runs_fresh w (Q : uuid → World → Prop) :
  (∀ w', same_core w w' → (w_next_uuid w < w_next_uuid w')%N → Q (w_next_uuid w) w') →
  runs fresh_uuid w Q.
Proof.
  intros HQ. eexists _, _. split; [reflexivity|].
  apply HQ; [split; [done|]|]; simpl; lia.
Qed.

Lemma runs_transition org run step to_state reason source from w (Q : unit → World → Prop) :
  (∀ w', same_core w w' → Q tt w') →
  runs (add_transition org run step to_state reason source from) w Q.
Proof.
  intros HQ. unfold add_transition. apply runs_bind, runs_fresh. intros w1 Hw1 _.
  apply runs_bind, runs_gets, runs_modify, HQ. etrans; [exact Hw1|]. by split.
Qed.

(** ** Step states *)

Definition states_of (rows : list WorkflowStepRunRecord) : gmap string WorkflowStepState :=
  list_to_map (map (λ r, (sr_step_key r, sr_state r)) rows).

Abbreviation keys rows := (map sr_step_key rows).

Lemma keys_fst rows : map fst (map (λ r, (sr_step_key r, sr_state r)) rows) = keys rows.
Proof. by rewrite map_map. Qed.

Lemma states_of_lookup rows k s :
  NoDup (keys rows) →
  states_of rows !! k = Some s ↔ ∃ r, r ∈ rows ∧ sr_step_key r = k ∧ sr_state r = s.
Proof.
  intros Hnd. unfold states_of. rewrite <- elem_of_list_to_map by (by rewrite keys_fst).
  rewrite list_elem_of_fmap. split.
  - intros (r & [= -> ->] & ?). eauto.
  - intros (r & ? & <- & <-). eauto.
Qed.

Lemma states_of_elem rows r :
  NoDup (keys rows) → r ∈ rows → states_of rows !! sr_step_key r = Some (sr_state r).
Proof. intros Hnd Hr. apply states_of_lookup; eauto. Qed.

Lemma states_of_perm rows rows' :
  NoDup (keys rows) → rows ≡ₚ rows' → states_of rows = states_of rows'.
Proof. intros Hnd Hp. apply list_to_map_proper; [by rewrite keys_fst|]. by rewrite Hp. Qed.

Lemma states_of_update done row row' rest :
  NoDup (keys (done ++ row :: rest)) → sr_step_key row' = sr_step_key row →
  states_of (done ++ row' :: rest) =
  <[sr_step_key row := sr_state row']> (states_of (done ++ row :: rest)).
Proof.
  intros Hnd Hk. apply map_eq. intros k. apply option_eq. intros s.
  assert (Hnd' : NoDup (keys (done ++ row' :: rest))) by (by rewrite map_app in *; simpl in *; rewrite Hk).
  rewrite states_of_lookup by done. rewrite lookup_insert. setoid_rewrite elem_of_app.
  setoid_rewrite elem_of_cons.
  assert (Hrow : ∀ r, r ∈ done ∨ r ∈ rest → sr_step_key r ≠ sr_step_key row).
  { intros r Hr Heq. rewrite map_app in Hnd. simpl in Hnd.
    apply NoDup_app in Hnd as (_ & Hd & [Hn _]%NoDup_cons).
    destruct Hr as [Hr|Hr]; [apply (Hd (sr_step_key r)); [by apply list_elem_of_fmap_2|]|apply Hn];
      rewrite <- Heq || rewrite Heq; [by constructor|by apply list_elem_of_fmap_2]. }
  case_decide as Hdk.
  - subst k. split.
    + intros (r & [?|[->|?]] & ? & <-); [by destruct (Hrow r); auto|done|by destruct (Hrow r); auto].
    + intros [= <-]. exists row'. auto.
  - rewrite states_of_lookup by done. setoid_rewrite elem_of_app. setoid_rewrite elem_of_cons. split.
    + intros (r & [?|[->|?]] & <- & <-); [eauto 6|congruence|eauto 6].
    + intros (r & [?|[->|?]] & <- & <-); [eauto 6|congruence|eauto 6].
Qed.

(** [later]: steps move only out of PENDING. *)
Definition later (st st' : gmap string WorkflowStepState) : Prop :=
  ∀ k s, st !! k = Some s → s ≠ WorkflowStepState.PENDING → st' !! k = Some s.

(** [keeps_settled]: a settled step never changes. *)
Definition keeps_settled (st st' : gmap string WorkflowStepState) : Prop :=
  ∀ k s, st !! k = Some s → settled s = true → st' !! k = Some s.

Lemma later_keeps_settled st st' : later st st' → keeps_settled st st'.
Proof. intros H k s Hk Hs. apply H; [done|]. by intros ->. Qed.

(** ** Resolution of one pending step *)

(** The dependency states, as a relation. *)
Lemma dependency_states_Ok st sp ss :
  dependency_states st sp = Ok ss ↔ Forall2 (λ k s, st !! k = Some s) (depends_on sp) ss.
Proof.
  unfold dependency_states. revert ss. induction (depends_on sp) as [|k l IH]; intros ss.
  - split; [intros [= <-]; constructor|]. by intros ->%Forall2_nil_inv_l.
  - destruct (st !! k) as [s|] eqn:Hk.
    + split.
      * case_match eqn:Hgo; [|done]. intros [= <-]. constructor; [done|]. by apply IH.
      * intros (s' & ss' & Hs & Hss & ->)%Forall2_cons_inv_l. apply IH in Hss. rewrite Hss. congruence.
    + split; [done|]. intros (s' & ss' & Hs & _ & _)%Forall2_cons_inv_l. congruence.
Qed.

Lemma dependency_states_total st sp :
  (∀ d, d ∈ depends_on sp → is_Some (st !! d)) → ∃ ss, dependency_states st sp = Ok ss.
Proof.
  intros Hd. setoid_rewrite dependency_states_Ok.
  induction (depends_on sp) as [|k l IH]; [by exists []|].
  destruct (Hd k) as [s Hs]; [by constructor|].
  destruct IH as [ss Hss]; [intros d ?; apply Hd; by constructor|]. by exists (s :: ss); constructor.
Qed.

Lemma resolve_None ss mode :
  resolve_pending_step ss mode = None ↔ ∃ s, s ∈ ss ∧ settled s = false.
Proof.
  unfold resolve_pending_step. destruct ss as [|s0 ss].
  - split; [done|]. intros (s & Hs & _). by apply not_elem_of_nil in Hs.
  - destruct (existsb (λ s, negb (settled s)) (s0 :: ss)) eqn:He.
    + split; [|done]. intros _. apply existsb_exists in He as (s & Hin & Hs).
      exists s. split; [by apply list_elem_of_In|by apply negb_true_iff].
    + split; [intros; by repeat case_match|]. intros (s & Hin & Hs). apply not_true_iff_false in He.
      destruct He. apply existsb_exists. exists s. rewrite Hs. split; [by apply list_elem_of_In|done].
Qed.

Lemma resolve_Some_settled ss mode t s :
  resolve_pending_step ss mode = Some t → s ∈ ss → settled s = true.
Proof.
  intros Hr Hs. destruct (settled s) eqn:E; [done|].
  assert (resolve_pending_step ss mode = None) as Hn by (apply resolve_None; eauto).
  congruence.
Qed.

Lemma resolve_target ss mode t :
  resolve_pending_step ss mode = Some t →
  t = WorkflowStepState.READY ∨ t = WorkflowStepState.SKIPPED.
Proof. unfold resolve_pending_step. intros H. repeat case_match; simplify_eq; auto. Qed.

(** [resolves st sp t]: in states [st] the dependencies of [sp] decide [t]. *)
Definition resolves (st : gmap string WorkflowStepState) (sp : WorkflowStepSpec)
    (t : option WorkflowStepState) : Prop :=
  ∃ ss, dependency_states st sp = Ok ss ∧ resolve_pending_step ss (dependency_mode sp) = t.

Lemma resolves_settled st st' sp t :
  keeps_settled st st' → resolves st sp (Some t) → resolves st' sp (Some t).
Proof.
  intros Hk (ss & Hss & Ht). exists ss. split; [|done].
  apply dependency_states_Ok. apply dependency_states_Ok in Hss.
  assert (Hall : ∀ s, s ∈ ss → settled s = true) by (intros s; by eapply resolve_Some_settled).
  clear Ht. induction Hss as [|k s l ss Hks _ IH]; constructor.
  - apply Hk; [done|]. apply Hall. by constructor.
  - apply IH. intros s' ?. apply Hall. by constructor.
Qed.

Lemma resolves_total st sp :
  (∀ d, d ∈ depends_on sp → is_Some (st !! d)) → ∃ t, resolves st sp t.
Proof. intros (ss & Hss)%dependency_states_total. by exists (resolve_pending_step ss (dependency_mode sp)), ss. Qed.

(** ** One pass *)

Abbreviation is_pending r := (bool_decide (sr_state r = WorkflowStepState.PENDING)).

Definition pending (rows : list WorkflowStepRunRecord) : nat :=
  length (List.filter (λ r, is_pending r) rows).

(** [stepped]: the row is unchanged, or it was pending and moved to the state its
    dependencies decide in [st]. *)
Inductive stepped (specs : gmap string WorkflowStepSpec) (st : gmap string WorkflowStepState)
    (r : WorkflowStepRunRecord) : WorkflowStepRunRecord → Prop :=
| stepped_same : stepped specs st r r
| stepped_move sp t now :
    sr_state r = WorkflowStepState.PENDING → specs !! sr_step_key r = Some sp →
    resolves st sp (Some t) → stepped specs st r (set_sr_updated_at now (set_sr_state t r)).

(** [stuck]: the row is not pending, or some dependency of it is not over. *)
Definition stuck (specs : gmap string WorkflowStepSpec) (st : gmap string WorkflowStepState)
    (r : WorkflowStepRunRecord) : Prop :=
  sr_state r = WorkflowStepState.PENDING →
  ∃ sp, specs !! sr_step_key r = Some sp ∧ resolves st sp None.

(** Every pending row has a specification whose dependencies are rows of the run. *)
Definition specified (specs : gmap string WorkflowStepSpec) (ks : list string)
    (rows : list WorkflowStepRunRecord) : Prop :=
  ∀ r, r ∈ rows → ∃ sp, specs !! sr_step_key r = Some sp ∧ ∀ d, d ∈ depends_on sp → d ∈ ks.

Lemma states_of_is_Some rows k : NoDup (keys rows) → k ∈ keys rows → is_Some (states_of rows !! k).
Proof. intros Hnd (r & -> & Hr)%list_elem_of_fmap. eexists. by apply states_of_elem. Qed.

Lemma stepped_key specs st r r' : stepped specs st r r' → sr_step_key r' = sr_step_key r.
Proof. by destruct 1. Qed.
Lemma stepped_keys specs st rows rows' : Forall2 (stepped specs st) rows rows' → keys rows' = keys rows.
Proof. induction 1 as [|r r' rows rows' Hr _ IH]; simpl; [done|]. by rewrite IH, (stepped_key _ _ _ _ Hr). Qed.

Lemma stepped_settled specs st st' r r' :
  keeps_settled st st' → stepped specs st r r' → stepped specs st' r r'.
Proof. intros Hk. destruct 1; econstructor; eauto using resolves_settled. Qed.

Lemma stepped_pending specs st rows rows' :
  Forall2 (stepped specs st) rows rows' → (pending rows' ≤ pending rows)%nat.
Proof.
  unfold pending. induction 1 as [|r r' rows rows' Hr _ IH]; simpl; [done|].
  destruct Hr as [|sp t now Hp Hsp Ht].
  - case_bool_decide; simpl; lia.
  - rewrite (bool_decide_true (sr_state r = _)) by done. case_bool_decide; simpl; lia.
Qed.

Lemma later_refl st : later st st.
Proof. by intros k s. Qed.

Lemma insert_later st k t : st !! k = Some WorkflowStepState.PENDING → later st (<[k:=t]> st).
Proof.
  intros Hk k' s Hs Hne. rewrite lookup_insert. case_decide; [|done]. subst. congruence.
Qed.

Lemma later_trans st1 st2 st3 : later st1 st2 → later st2 st3 → later st1 st3.
Proof. intros H1 H2 k s Hk Hs. apply H2; auto. Qed.

(** What a pass over [rows] returns, the rows before it being [done]. *)
Definition pass_post (specs : gmap string WorkflowStepSpec) (done rows : list WorkflowStepRunRecord)
    (changed : bool) (w : World)
    (res : list WorkflowStepRunRecord * gmap string WorkflowStepState * bool) (w' : World) : Prop :=
  let '(rows', st', changed') := res in
  same_core w w' ∧ st' = states_of (done ++ rows') ∧ later (states_of (done ++ rows)) st' ∧
  Forall2 (stepped specs st') rows rows' ∧
  if (changed' : bool) then changed = true ∨ (pending rows' < pending rows)%nat
  else changed = false ∧ rows' = rows ∧ Forall (stuck specs (states_of (done ++ rows))) rows.

Lemma app_cons_assoc {A} (l1 : list A) x l2 : l1 ++ x :: l2 = (l1 ++ [x]) ++ l2.
Proof. by rewrite <- app_assoc. Qed.

(** A row that does not move. *)
Lemma pass_keep specs done row rest changed w res w' :
  stuck specs (states_of (done ++ row :: rest)) row →
  pass_post specs (done ++ [row]) rest changed w res w' →
  let '(rest', st', changed') := res in
  pass_post specs done (row :: rest) changed w (row :: rest', st', changed') w'.
Proof.
  destruct res as [[rest' st'] ch]. unfold pass_post. rewrite <- !app_cons_assoc.
  intros Hstuck (Hc & -> & Hl & Hst & Hch). split_and!; auto using stepped_same.
  destruct ch; [destruct Hch as [->|?]; [by left|right]|].
  - unfold pending in *. simpl. case_bool_decide; simpl; lia.
  - destruct Hch as (-> & -> & Hrest). split_and!; auto.
Qed.

(** A pending row that moves to [t]. *)
Lemma pass_move specs done row sp t now rest changed w w1 res w' :
  NoDup (keys (done ++ row :: rest)) → sr_state row = WorkflowStepState.PENDING →
  specs !! sr_step_key row = Some sp → t ≠ WorkflowStepState.PENDING →
  resolves (states_of (done ++ row :: rest)) sp (Some t) → same_core w w1 →
  let row' := set_sr_updated_at now (set_sr_state t row) in
  pass_post specs (done ++ [row']) rest true w1 res w' →
  let '(rest', st', changed') := res in
  pass_post specs done (row :: rest) changed w (row' :: rest', st', changed') w'.
Proof.
  intros Hnd Hp Hsp Ht Hres Hw row'. destruct res as [[rest' st'] ch].
  unfold pass_post. rewrite <- !app_cons_assoc. intros (Hc & -> & Hl & Hst & Hch).
  assert (Hlater : later (states_of (done ++ row :: rest)) (states_of (done ++ row' :: rest'))).
  { eapply later_trans; [|exact Hl]. rewrite (states_of_update done row row' rest) by done.
    apply insert_later. rewrite states_of_elem; [by rewrite Hp|done|].
    rewrite elem_of_app, elem_of_cons. auto. }
  split_and!; [by etrans|done|done| |].
  - constructor; [|done]. eapply stepped_move; eauto using resolves_settled, later_keeps_settled.
  - assert (pending (row' :: rest') < pending (row :: rest))%nat.
    { apply stepped_pending in Hst. unfold pending in *. simpl.
      rewrite (bool_decide_true (sr_state row = _)), bool_decide_false by done. simpl. lia. }
    destruct ch; [by right|]. by destruct Hch as [? _].
Qed.

Lemma advance_pass_spec org run specs rows : ∀ done changed w,
  NoDup (keys (done ++ rows)) → specified specs (keys (done ++ rows)) rows →
  runs (advance_pass org run specs rows (states_of (done ++ rows)) changed) w
    (pass_post specs done rows changed w).
Proof.
  induction rows as [|row rest IH]; intros done changed w Hnd Hsp.
  - apply runs_ret. split_and!; [done|done|by apply later_refl|constructor|].
    destruct changed; [by left|]. by split_and!.
  - assert (Hrest : specified specs (keys (done ++ row :: rest)) rest).
    { intros r Hr. apply Hsp. by constructor. }
    assert (Hkeep : stuck specs (states_of (done ++ row :: rest)) row →
      runs (res ← advance_pass org run specs rest (states_of (done ++ row :: rest)) changed;
            let '(rest, states, changed) := res in mret (row :: rest, states, changed)) w
        (pass_post specs done (row :: rest) changed w)).
    { intros Hstuck. apply runs_bind. rewrite app_cons_assoc in Hnd, Hrest |- *.
      eapply runs_mono; [by apply IH|]. intros [[rest' st'] ch] w' Hpost.
      apply runs_ret. eapply (pass_keep _ _ _ _ _ _ (rest', st', ch)); done. }
    simpl. case_bool_decide as Hp; simpl; [|by apply Hkeep; intros ?].
    destruct (Hsp row) as (sp & Hspec & Hdeps); [by constructor|]. rewrite Hspec.
    destruct (resolves_total (states_of (done ++ row :: rest)) sp) as (t & ss & Hss & Ht).
    { intros d Hd. apply states_of_is_Some; auto. }
    apply runs_bind. eapply runs_lift; [exact Hss|]. rewrite Ht. destruct t as [t|].
    + apply runs_bind, runs_utcnow. intros now w1 Hw1.
      apply runs_bind, runs_transition. intros w2 Hw2.
      set (row' := set_sr_updated_at now (set_sr_state t row)).
      assert (Hst : <[sr_step_key row := t]> (states_of (done ++ row :: rest))
                    = states_of ((done ++ [row']) ++ rest)).
      { rewrite <- app_cons_assoc. symmetry. by apply (states_of_update done row row' rest). }
      simpl. rewrite Hst. apply runs_bind. eapply runs_mono.
      * apply IH; rewrite <- app_cons_assoc, map_app in *; done.
      * intros [[rest' st'] ch] w' Hpost. apply runs_ret.
        eapply (pass_move _ _ _ _ _ _ _ _ _ _ (rest', st', ch)); [done|done|done| | |by etrans|done].
        -- apply resolve_target in Ht. by destruct Ht as [-> | ->].
        -- by exists ss.
    + apply Hkeep. intros _. by exists sp; split; [|exists ss].
Qed.

(** ** The loop *)

Lemma stepped_trans specs st st' r1 r2 r3 :
  keeps_settled st st' → stepped specs st r1 r2 → stepped specs st' r2 r3 → stepped specs st' r1 r3.
Proof.
  intros Hk H12 H23. pose proof (stepped_settled _ _ _ _ _ Hk H12) as H12'.
  destruct H23 as [|sp' t' now' Hp' Hsp' Ht']; [done|].
  destruct H12 as [|sp t now Hp Hsp Ht]; [by econstructor|].
  destruct Ht as (ss & _ & Ht). simpl in Hp'. subst t.
  apply resolve_target in Ht. by destruct Ht.
Qed.

Definition loop_post (specs : gmap string WorkflowStepSpec) (rows : list WorkflowStepRunRecord)
    (w : World) (rows' : list WorkflowStepRunRecord) (w' : World) : Prop :=
  same_core w w' ∧ later (states_of rows) (states_of rows') ∧
  Forall2 (stepped specs (states_of rows')) rows rows' ∧
  Forall (stuck specs (states_of rows')) rows'.

Lemma Forall2_stepped_trans specs st st' l1 l2 l3 :
  keeps_settled st st' → Forall2 (stepped specs st) l1 l2 → Forall2 (stepped specs st') l2 l3 →
  Forall2 (stepped specs st') l1 l3.
Proof.
  intros Hk H12. revert l3. induction H12 as [|r1 r2 l1 l2 Hr _ IH]; intros l3 H23.
  - by apply Forall2_nil_inv_l in H23 as ->.
  - apply Forall2_cons_inv_l in H23 as (r3 & l3' & Hr3 & Hl3 & ->).
    constructor; eauto using stepped_trans.
Qed.

Lemma advance_loop_spec org run specs fuel : ∀ rows w,
  NoDup (keys rows) → specified specs (keys rows) rows → (pending rows < fuel)%nat →
  runs (advance_loop fuel org run specs rows (states_of rows)) w (loop_post specs rows w).
Proof.
  induction fuel as [|fuel IH]; intros rows w Hnd Hsp Hfuel; [lia|].
  simpl. apply runs_bind. eapply runs_mono; [by apply (advance_pass_spec org run specs rows [])|].
  intros [[rows' st'] ch] w1 (Hc & -> & Hl & Hst & Hch). simpl in *. destruct ch.
  - destruct Hch as [?|Hlt]; [done|]. pose proof (stepped_keys _ _ _ _ Hst) as Hkeys.
    eapply runs_mono.
    + apply IH; [by rewrite Hkeys| |lia]. rewrite Hkeys. intros r Hr.
      destruct (Forall2_in_r _ _ _ _ Hst Hr) as (r0 & Hr0 & Hs).
      rewrite (stepped_key _ _ _ _ Hs). auto.
    + intros rows'' w'' (Hc' & Hl' & Hst' & Hstuck).
      split_and!; [by etrans|by eapply later_trans| |done].
      eapply Forall2_stepped_trans; eauto using later_keeps_settled.
  - destruct Hch as (_ & -> & Hstuck). apply runs_ret. by split_and!.
Qed.
