(* ===== verification/RunUpdate.v ===== *)
(** * RunUpdate: what each run operation does to the tables

    [run_update d d' run f]: between the databases [d] and [d'] exactly one run and
    its steps changed; [run] is its new row and [f] maps its old step rows to the
    new ones. Every operation on a run ([transition_row], [advance], [claim],
    [finish_step], [finish_condition], [fail_step], [transition_run]) is described
    by such an update. *)

From S2P Require Import Prelude.
From S2P Require Import Errors.
From S2P Require Import Lifecycles.
From S2P Require Import Conditions.
From S2P Require Import WorkflowGraph.
From S2P Require Import ScheduleSpec.
From S2P Require Import Store.
From S2P Require Import StoreLemmas.
From S2P Require Import WorkflowRepository.
From S2P Require Import AdvanceLemmas.

(** ** Identity of rows *)

(** The columns of a step row that no operation assigns. *)
Definition step_identity (r : WorkflowStepRunRecord) :=
  (sr_id r, sr_organization_id r, sr_run_id r, sr_version_step_id r, sr_step_key r,
   sr_step_type r, sr_max_attempts r, sr_created_at r, sr_next_eligible_at r).

Definition same_step (r r' : WorkflowStepRunRecord) : Prop := step_identity r = step_identity r'.

(** The columns of a run row that no operation assigns. *)
Definition run_identity (r : WorkflowRunRecord) :=
  (wr_id r, wr_organization_id r, wr_definition_id r, wr_version_id r, wr_input_payload r,
   wr_idempotency_key r, wr_request_fingerprint r, wr_correlation_id r).

Definition same_run (r r' : WorkflowRunRecord) : Prop := run_identity r = run_identity r'.

#[export] Instance same_step_equiv : Equivalence same_step.
Proof. split; [by intros ?|by intros ? ? ?|by intros ? ? ? H1 H2; red; rewrite H1]. Qed.
#[export] Instance same_run_equiv : Equivalence same_run.
Proof. split; [by intros ?|by intros ? ? ?|by intros ? ? ? H1 H2; red; rewrite H1]. Qed.

Lemma same_step_id r r' : same_step r r' → sr_id r' = sr_id r.
Proof. unfold same_step, step_identity. congruence. Qed.
Lemma same_step_of_run r r' org id : same_step r r' → of_run org id r' = of_run org id r.
Proof. unfold same_step, step_identity, of_run. intros [=]. congruence. Qed.
Lemma same_run_id r r' : same_run r r' → wr_id r' = wr_id r.
Proof. unfold same_run, run_identity. congruence. Qed.
Lemma same_run_org r r' : same_run r r' → wr_organization_id r' = wr_organization_id r.
Proof. unfold same_run, run_identity. congruence. Qed.

(** The step rows of a run. *)
Definition view (d : DB) (run : WorkflowRunRecord) : list WorkflowStepRunRecord :=
  List.filter (of_run (wr_organization_id run) (wr_id run)) (db_step_runs d).

(** ** Updates of one run *)

Record run_update (d d' : DB) (run : WorkflowRunRecord)
    (f : WorkflowStepRunRecord → WorkflowStepRunRecord) : Prop := {
  upd_definitions : db_definitions d' = db_definitions d;
  upd_versions : db_versions d' = db_versions d;
  upd_version_steps : db_version_steps d' = db_version_steps d;
  upd_runs : db_runs d' = update_where (λ r, N.eqb (wr_id r) (wr_id run)) (λ _, run) (db_runs d);
  upd_steps : db_step_runs d' = map f (db_step_runs d);
  upd_same : ∀ r, r ∈ db_step_runs d → same_step r (f r);
  upd_others : ∀ r, r ∈ db_step_runs d →
    of_run (wr_organization_id run) (wr_id run) r = false → f r = r;
}.

Lemma run_update_core d d1 d' run f :
  run_update d d1 run f → core d1 = core d' → run_update d d' run f.
Proof. intros [] [=]. split; congruence || done. Qed.

Lemma run_update_core_l d d1 d' run f :
  core d = core d1 → run_update d1 d' run f → run_update d d' run f.
Proof.
  intros Hc [A1 A2 A3 A4 A5 A6 A7]. unfold core in Hc.
  assert (Hs : db_step_runs d = db_step_runs d1) by congruence.
  split; rewrite ?Hs; congruence || done.
Qed.

Lemma update_where_twice {A} (p q : A → bool) a b (l : list A) :
  (∀ x, p x = q x) → p a = true →
  update_where q (λ _, b) (update_where p (λ _, a) l) = update_where q (λ _, b) l.
Proof.
  intros Hpq Ha. unfold update_where. rewrite map_map. apply map_ext. intros x.
  rewrite <- !Hpq. destruct (p x) eqn:E; rewrite ?Ha, ?E; done.
Qed.

Lemma run_update_trans d d1 d2 run1 run2 f g :
  run_update d d1 run1 f → run_update d1 d2 run2 g → same_run run1 run2 →
  run_update d d2 run2 (g ∘ f).
Proof.
  intros [A1 A2 A3 A4 A5 A6 A7] [B1 B2 B3 B4 B5 B6 B7] Hs.
  pose proof (same_run_id _ _ Hs) as Hid. pose proof (same_run_org _ _ Hs) as Horg.
  assert (Hin : ∀ r, r ∈ db_step_runs d → f r ∈ db_step_runs d1).
  { intros r Hr. rewrite A5. by apply list_elem_of_fmap_2. }
  split; try congruence.
  - rewrite B4, A4. apply update_where_twice; [by rewrite Hid|apply N.eqb_refl].
  - by rewrite B5, A5, map_map.
  - intros r Hr. etrans; [by apply A6|]. simpl. apply B6. auto.
  - intros r Hr Hof. simpl. assert (f r = r) as Hf.
    { apply A7; [done|]. by rewrite <- Hid, <- Horg. }
    rewrite Hf. apply B7; [|done]. rewrite <- Hf. auto.
Qed.

Lemma filter_map_same {A} (p : A → bool) (f : A → A) l :
  (∀ x, x ∈ l → p (f x) = p x) → List.filter p (map f l) = map f (List.filter p l).
Proof.
  induction l as [|x l IH]; intros Hp; simpl; [done|].
  rewrite Hp by constructor. rewrite IH by (intros y ?; apply Hp; by constructor).
  by destruct (p x).
Qed.

(** The steps of the run after the update; those of any other run are unchanged. *)
Lemma run_update_view d d' run run0 f :
  run_update d d' run f → view d' run0 = map f (view d run0).
Proof.
  intros H. unfold view. rewrite (upd_steps _ _ _ _ H). apply filter_map_same.
  intros r Hr. apply same_step_of_run. by apply (upd_same _ _ _ _ H).
Qed.

Lemma map_id_on {A} (f : A → A) l : (∀ x, x ∈ l → f x = x) → map f l = l.
Proof.
  induction l as [|x l IH]; intros Hf; simpl; [done|].
  rewrite Hf by constructor. rewrite IH; [done|]. intros y ?. apply Hf. by constructor.
Qed.

Lemma view_In d run r :
  r ∈ view d run ↔ r ∈ db_step_runs d ∧ sr_organization_id r = wr_organization_id run ∧
                   sr_run_id r = wr_id run.
Proof.
  unfold view, of_run. rewrite list_elem_of_In, List.filter_In, <- list_elem_of_In.
  rewrite andb_true_iff, !N.eqb_eq. done.
Qed.

Lemma run_update_view_other d d' run run0 f :
  run_update d d' run f → wr_id run0 ≠ wr_id run → view d' run0 = view d run0.
Proof.
  intros H Hne. rewrite (run_update_view _ _ _ _ _ H). apply map_id_on.
  intros r (Hr & _ & Hid)%view_In. apply (upd_others _ _ _ _ H); [done|].
  unfold of_run. apply andb_false_iff. right. apply N.eqb_neq. congruence.
Qed.

(** ** Flushing row objects *)

(** [flush_rows] writes each object back to the row it was loaded from. *)
Lemma flush_rows_related (R : WorkflowStepRunRecord → WorkflowStepRunRecord → Prop) tbl olds news r :
  NoDup (map sr_id tbl) → olds ⊆ tbl → Forall2 R olds news → (∀ a b, R a b → same_step a b) →
  r ∈ tbl → (r ∈ olds ∧ R r (flush_rows news r)) ∨ (r ∉ olds ∧ flush_rows news r = r).
Proof.
  intros Hnd Hsub HF HR Hr. unfold flush_rows.
  destruct (List.find _ news) as [b|] eqn:Hf.
  - apply List.find_some in Hf as [Hb%list_elem_of_In Hid%N.eqb_eq].
    destruct (Forall2_in_r _ _ _ _ HF Hb) as (a & Ha & Hab).
    assert (a = r) as ->; [|by left].
    apply (NoDup_map_inj sr_id tbl); auto. rewrite <- Hid. symmetry. by apply same_step_id, HR.
  - right. split; [|done]. intros Ha. destruct (Forall2_in_l _ _ _ _ HF Ha) as (b & Hb & Hab).
    apply (List.find_none _ _) with (x := b) in Hf; [|by apply list_elem_of_In].
    by rewrite (same_step_id r b), N.eqb_refl in Hf by auto.
Qed.

Lemma flush_rows_map (R : WorkflowStepRunRecord → WorkflowStepRunRecord → Prop) olds news :
  NoDup (map sr_id olds) → Forall2 R olds news → (∀ a b, R a b → same_step a b) →
  news = map (flush_rows news) olds.
Proof.
  intros Hnd HF HR. apply (list_eq_Forall2). apply Forall2_fmap_r.
  assert (HF' : Forall2 (λ b a, b ∈ news ∧ R a b) news olds).
  { apply Forall2_flip in HF. clear Hnd. induction HF as [|b a news olds Hab _ IH]; [constructor|].
    constructor; [split; [by constructor|done]|]. eapply Forall2_impl; [exact IH|].
    intros b' a' [? ?]. split; [by constructor|done]. }
  eapply Forall2_impl; [exact HF'|]. intros b a [Hb Hab]. simpl.
  unfold flush_rows. destruct (List.find _ news) as [b'|] eqn:Hf.
  - apply List.find_some in Hf as [Hb'%list_elem_of_In Hid%N.eqb_eq].
    assert (NoDup (map sr_id news)) as Hnd'.
    { assert (map sr_id news = map sr_id olds) as ->; [|done].
      clear -HF HR. induction HF as [|a b olds news Hab _ IH]; simpl; [done|].
      rewrite IH. f_equal. by apply same_step_id, HR. }
    apply (NoDup_map_inj sr_id news); auto. rewrite Hid. by apply same_step_id, HR.
  - apply (List.find_none _ _) with (x := b) in Hf; [|by apply list_elem_of_In].
    by rewrite (same_step_id a b), N.eqb_refl in Hf by auto.
Qed.

(** ** Run transitions *)

(** The identity update: the run row alone changes. *)
Lemma run_update_put d run :
  run_update d (set_db_runs (update_where (λ r, N.eqb (wr_id r) (wr_id run)) (λ _, run) (db_runs d)) d)
    run (λ r, r).
Proof. split; try done. simpl. by rewrite map_id. Qed.

Lemma runs_transition_row org row target reason w
    (Q : WorkflowRunRecord → World → Prop) :
  legal (wr_state row) target →
  (∀ row' w', same_run row row' → wr_state row' = target →
     wr_state_version row' = wr_state_version row + 1 →
     wr_output_payload row' = wr_output_payload row →
     run_update (w_db w) (w_db w') row' (λ r, r) → Q row' w') →
  runs (transition_row org row target reason) w Q.
Proof.
  intros Hlegal HQ. unfold transition_row. apply runs_bind.
  eapply runs_lift; [by apply guard_transition_Ok|].
  apply runs_bind, runs_utcnow. intros now w1 Hw1. apply runs_bind.
  set (row1 := if bool_decide (target = WorkflowRunState.FAILED) then _ else _).
  assert (H1 : same_run row row1 ∧ wr_state row1 = target ∧
               wr_state_version row1 = wr_state_version row + 1 ∧
               wr_output_payload row1 = wr_output_payload row).
  { unfold row1. by case_bool_decide. }
  enough (∀ row2 w2, same_core w w2 → same_run row row2 ∧ wr_state row2 = target ∧
      wr_state_version row2 = wr_state_version row + 1 ∧
      wr_output_payload row2 = wr_output_payload row →
      runs (_ ← put_run row2;
            _ ← add_transition org row2 None (run_state_value target) reason "ENGINE"
                  (Some (run_state_value (wr_state row)));
            mret row2) w2 Q) as Hrest.
  { destruct (is_terminal_run target).
    - apply runs_bind, runs_utcnow. intros ended w2 Hw2. apply runs_ret, Hrest; [by etrans|].
      destruct H1 as (Hs & H1). by split.
    - by apply runs_ret, Hrest. }
  intros row2 w2 Hw2 (Hs & Hst & Hv & Ho).
  apply runs_bind, runs_modify, runs_bind, runs_transition. intros w3 Hw3. apply runs_ret.
  apply HQ; [done..|]. eapply run_update_core_l; [apply Hw2|].
  eapply run_update_core; [apply run_update_put|]. apply Hw3.
Qed.

Lemma ran_transition_row org row target reason w row' w' :
  transition_row org row target reason w = (Ok row', w') →
  legal (wr_state row) target ∧ same_run row row' ∧ wr_state row' = target ∧
  wr_state_version row' = wr_state_version row + 1 ∧
  wr_output_payload row' = wr_output_payload row ∧ run_update (w_db w) (w_db w') row' (λ r, r).
Proof.
  intros H. assert (Hl : legal (wr_state row) target).
  { unfold transition_row in H. ran H as a w1 Hg. destruct a. injection Hg as Hg _.
    by apply guard_transition_Ok in Hg. }
  split; [done|]. pattern row', w'. eapply ran_runs; [|exact H].
  apply runs_transition_row; [done|]. intros. by split_and!.
Qed.

(** ** Writing step rows of a run *)

(** The rows [olds] of the run are replaced by [news], their new values. *)
Lemma run_update_rows (R : WorkflowStepRunRecord → WorkflowStepRunRecord → Prop) d run olds news :
  NoDup (map wr_id (db_runs d)) → run ∈ db_runs d →
  NoDup (map sr_id (db_step_runs d)) → olds ⊆ view d run → Forall2 R olds news →
  (∀ a b, R a b → same_step a b) →
  run_update d (set_db_step_runs (map (flush_rows news) (db_step_runs d)) d) run (flush_rows news).
Proof.
  intros Hndr Hrun Hnd Hsub HF HR.
  assert (Hsub' : olds ⊆ db_step_runs d) by (intros r ?%Hsub%view_In; naive_solver).
  split; try done; simpl.
  - unfold update_where. symmetry. apply map_id_on. intros r Hr.
    destruct (N.eqb_spec (wr_id r) (wr_id run)); [|done].
    by apply (NoDup_map_inj wr_id (db_runs d)).
  - intros r Hr.
    destruct (flush_rows_related R _ olds news r Hnd Hsub' HF HR Hr) as [[_ ?]|[_ ->]]; [by auto|reflexivity].
  - intros r Hr Hof.
    destruct (flush_rows_related R _ olds news r Hnd Hsub' HF HR Hr) as [[Ho _]|[_ ?]]; [|done].
    apply Hsub in Ho. unfold view in Ho.
    rewrite list_elem_of_In, List.filter_In in Ho. destruct Ho. congruence.
Qed.

(** ** Specifications of the rows of a run *)

(** The row [r] is the step [sp] of the run's version. *)
Definition row_spec (d : DB) (r : WorkflowStepRunRecord) (sp : WorkflowStepSpec) : Prop :=
  sr_step_key r = key sp ∧ sr_max_attempts r = max_attempts (retry sp) ∧
  spec_of_row <$> find_version_step (sr_organization_id r) (sr_version_step_id r) d = Some sp.

Definition spec_map (specs : list WorkflowStepSpec) : gmap string WorkflowStepSpec :=
  list_to_map (map (λ sp, (key sp, sp)) specs).

Lemma spec_map_lookup specs k sp :
  NoDup (map key specs) → spec_map specs !! k = Some sp ↔ sp ∈ specs ∧ key sp = k.
Proof.
  intros Hnd. unfold spec_map. rewrite <- elem_of_list_to_map by (by rewrite map_map).
  rewrite list_elem_of_fmap. split.
  - intros (sp' & [= -> ->] & ?). auto.
  - intros [? <-]. eauto.
Qed.

Lemma row_spec_keys d rows specs : Forall2 (row_spec d) rows specs → keys rows = map key specs.
Proof. induction 1 as [|r sp rows specs (Hk & _) _ IH]; simpl; congruence. Qed.

Lemma runs_specs org d rows specs w (Q : list (string * WorkflowStepSpec) → World → Prop) :
  Forall2 (row_spec d) rows specs → Forall (λ r, sr_organization_id r = org) rows →
  db_version_steps (w_db w) = db_version_steps d →
  Q (map (λ sp, (key sp, sp)) specs) w →
  runs (mapM_list (λ r, spec ← spec_for_step org (sr_version_step_id r);
                        mret (sr_step_key r, spec)) rows) w Q.
Proof.
  intros HF. revert Q.
  induction HF as [|r sp rows specs (Hk & _ & Hsp) _ IH]; intros Q Horg Hv HQ; simpl.
  - by apply runs_ret.
  - apply Forall_cons in Horg as [<- Horg].
    apply runs_bind, runs_bind. unfold spec_for_step. apply runs_bind, runs_gets.
    unfold find_version_step in *. rewrite Hv.
    destruct (List.find _ _) as [v|]; [|done]. injection Hsp as <-.
    apply runs_ret, runs_ret, runs_bind, IH; [done..|]. apply runs_ret. by rewrite Hk.
Qed.

(** ** [advance] *)

Lemma stepped_same_step specs st r r' : stepped specs st r r' → same_step r r'.
Proof. by destruct 1. Qed.

Lemma forallb_perm {A} (p : A → bool) (l l' : list A) : l ≡ₚ l' → forallb p l = forallb p l'.
Proof.
  intros Hp. destruct (forallb p l) eqn:E; symmetry.
  - rewrite forallb_forall in *. intros x Hx. apply E.
    rewrite <- list_elem_of_In in *. by rewrite Hp.
  - apply not_true_iff_false. apply not_true_iff_false in E. contradict E.
    rewrite forallb_forall in *. intros x Hx. apply E.
    rewrite <- list_elem_of_In in *. by rewrite <- Hp.
Qed.

(** A run is stored consistently: unique primary keys, rows matching the step
    specifications of a valid graph. *)
Record run_stored (d : DB) (run : WorkflowRunRecord) (specs : list WorkflowStepSpec) : Prop := {
  stored_run : run ∈ db_runs d;
  stored_run_ids : NoDup (map wr_id (db_runs d));
  stored_step_ids : NoDup (map sr_id (db_step_runs d));
  stored_specs : Forall2 (row_spec d) (view d run) specs;
  stored_graph : graph_ok specs;
  stored_valid : Forall (λ s, spec_valid s = true) specs;
}.

Lemma stored_keys d run specs : run_stored d run specs → NoDup (keys (view d run)).
Proof. intros [_ _ _ HF Hg _]. rewrite (row_spec_keys _ _ _ HF). by apply graph_keys. Qed.

Lemma stored_specified d run specs :
  run_stored d run specs → specified (spec_map specs) (keys (view d run)) (view d run).
Proof.
  intros Hst r Hr. pose proof (graph_keys _ (stored_graph _ _ _ Hst)) as Hnd.
  destruct (Forall2_in_l _ _ _ _ (stored_specs _ _ _ Hst) Hr) as (sp & Hsp & Hk & _).
  exists sp. split; [by apply spec_map_lookup|]. intros dep Hdep.
  rewrite (row_spec_keys _ _ _ (stored_specs _ _ _ Hst)). by eapply graph_deps; [apply Hst|..].
Qed.

Lemma run_steps_view w run : run_steps (wr_organization_id run) (wr_id run) w = view (w_db w) run.
Proof. done. Qed.

Lemma view_org d run : Forall (λ r, sr_organization_id r = wr_organization_id run) (view d run).
Proof. apply Forall_forall. intros r Hr. apply view_In in Hr. naive_solver. Qed.

(** What [advance] does to a RUNNING run: its pending steps are resolved to a
    fixpoint, and the run completes exactly when every step is then over. *)
Definition advanced (specs : gmap string WorkflowStepSpec) (d d' : DB)
    (run run' : WorkflowRunRecord) : Prop :=
  ∃ f, run_update d d' run' f ∧ same_run run run' ∧
    (∀ r, r ∈ view d run → stepped specs (states_of (view d' run)) r (f r)) ∧
    Forall (stuck specs (states_of (view d' run))) (view d' run) ∧
    wr_state run' =
      (if forallb (λ r, settled (sr_state r)) (view d' run) then WorkflowRunState.COMPLETED
       else WorkflowRunState.RUNNING).

Lemma stuck_perm specs rows rows' :
  rows ≡ₚ rows' → NoDup (keys rows) →
  Forall (stuck specs (states_of rows)) rows → Forall (stuck specs (states_of rows')) rows'.
Proof. intros Hp Hnd Hst. rewrite <- (states_of_perm rows rows'), <- Hp by done. done. Qed.

(** The rows written back by the loop, seen through the table. *)
Lemma loop_flushed specs d run rows' w w' :
  let olds := merge_sort key_before (view d run) in
  run ∈ db_runs d → NoDup (map wr_id (db_runs d)) → NoDup (map sr_id (db_step_runs d)) →
  NoDup (keys (view d run)) → loop_post specs olds w rows' w' →
  let d' := set_db_step_runs (map (flush_rows rows') (db_step_runs d)) d in
  run_update d d' run (flush_rows rows') ∧ rows' ≡ₚ view d' run ∧
  (∀ r, r ∈ view d run → stepped specs (states_of (view d' run)) r (flush_rows rows' r)) ∧
  Forall (stuck specs (states_of (view d' run))) (view d' run).
Proof.
  intros olds Hrun Hndr Hnd Hkeys (_ & _ & HF & Hstuck) d'.
  assert (Holds : olds ≡ₚ view d run) by apply merge_sort_Permutation.
  assert (Hsub : olds ⊆ view d run) by (intros r; by rewrite Holds).
  assert (Hupd : run_update d d' run (flush_rows rows')).
  { eapply run_update_rows; eauto using stepped_same_step. }
  assert (Hids : NoDup (map sr_id (view d run))).
  { by apply NoDup_map_filter. }
  assert (Hperm : rows' ≡ₚ view d' run).
  { rewrite (run_update_view _ _ _ _ _ Hupd), <- Holds.
    rewrite (flush_rows_map (stepped specs (states_of rows')) olds rows') at 1;
      [done| |exact HF|by eauto using stepped_same_step]. by rewrite Holds. }
  assert (Hk' : NoDup (keys rows')).
  { rewrite (stepped_keys _ _ _ _ HF), Holds. done. }
  split_and!; [done|done| |by eapply stuck_perm].
  intros r Hr. rewrite <- (states_of_perm rows') by done.
  destruct (flush_rows_related (stepped specs (states_of rows')) (db_step_runs d) olds rows' r)
    as [[_ ?]|[Hno _]]; eauto using stepped_same_step.
  - intros x ?%Hsub%view_In. naive_solver.
  - by apply view_In in Hr as [? _].
  - contradict Hno. by rewrite Holds.
Qed.

Lemma pending_le rows : (pending rows ≤ length rows)%nat.
Proof. unfold pending. apply List.filter_length_le. Qed.

Lemma run_update_refl_row d run :
  run ∈ db_runs d → NoDup (map wr_id (db_runs d)) → run_update d d run (λ r, r).
Proof.
  intros Hrun Hnd. split; try done; [|by rewrite map_id].
  unfold update_where. symmetry. apply map_id_on. intros r Hr.
  destruct (N.eqb_spec (wr_id r) (wr_id run)); [|done]. by apply (NoDup_map_inj wr_id (db_runs d)).
Qed.

Lemma view_core d d' run : core d = core d' → view d run = view d' run.
Proof. unfold core, view. intros [=]. congruence. Qed.

Lemma view_same_run d run run' : same_run run run' → view d run' = view d run.
Proof. intros Hs. unfold view. by rewrite (same_run_id _ _ Hs), (same_run_org _ _ Hs). Qed.

Lemma runs_advance run specs w (Q : WorkflowRunRecord → World → Prop) :
  run_stored (w_db w) run specs → wr_state run = WorkflowRunState.RUNNING →
  (∀ run' w', advanced (spec_map specs) (w_db w) (w_db w') run run' → Q run' w') →
  runs (advance (wr_organization_id run) run) w Q.
Proof.
  intros Hst Hrun HQ. unfold advance. apply runs_bind, runs_gets. rewrite run_steps_view.
  pose proof (stored_keys _ _ _ Hst) as Hkeys.
  assert (Hsort : merge_sort key_before (view (w_db w) run) ≡ₚ view (w_db w) run)
    by apply merge_sort_Permutation.
  apply runs_bind. eapply runs_specs; [by apply Hst|apply view_org|done|].
  rewrite bool_decide_true by done. cbn [negb]. apply runs_bind. eapply runs_mono.
  { assert (Hstates : list_to_map (map (λ r, (sr_step_key r, sr_state r)) (view (w_db w) run))
                      = states_of (merge_sort key_before (view (w_db w) run))).
    { symmetry. apply states_of_perm; [by rewrite Hsort|done]. }
    rewrite Hstates. fold (spec_map specs).
    apply advance_loop_spec.
    - by rewrite Hsort.
    - intros r Hr. destruct (stored_specified _ _ _ Hst r) as (sp & ? & Hdeps);
        [by rewrite <- Hsort|].
      exists sp. split; [done|]. intros dep ?%Hdeps. by rewrite Hsort.
    - pose proof (pending_le (merge_sort key_before (view (w_db w) run))) as Hp.
      rewrite (Permutation_length Hsort) in Hp. lia. }
  intros rows' w1 Hpost. pose proof (loop_flushed _ _ _ _ _ _ (stored_run _ _ _ Hst)
    (stored_run_ids _ _ _ Hst) (stored_step_ids _ _ _ Hst) Hkeys Hpost) as (Hupd & Hperm & Hstep & Hstuck).
  destruct Hpost as (Hcore & _). apply runs_bind, runs_modify.
  set (w2 := set_w_db _ w1).
  set (d' := set_db_step_runs (map (flush_rows rows') (db_step_runs (w_db w))) (w_db w)) in *.
  assert (Hc : core d' = core (w_db w2)).
  { destruct Hcore as [Hcore _]. unfold core in Hcore |- *. simpl. congruence. }
  rewrite (forallb_perm _ _ _ Hperm).
  destruct (forallb _ (view d' run)) eqn:Hall.
  - apply runs_transition_row.
    { simpl. rewrite Hrun. unfold legal. simpl. set_solver. }
    intros row' w' Hs Hs' _ _ Hu. apply HQ. exists (flush_rows rows').
    assert (Hu' : run_update (w_db w) (w_db w') row' (flush_rows rows')).
    { eapply (run_update_trans _ _ _ run row' _ (λ r, r)); [exact Hupd| |done].
      eapply run_update_core_l; [exact Hc|exact Hu]. }
    assert (Hv : view (w_db w') run = view d' run).
    { by rewrite (run_update_view _ _ _ _ _ Hu'), (run_update_view _ _ _ _ _ Hupd). }
    rewrite Hv, Hall. split_and!; done.
  - apply runs_ret, HQ. exists (flush_rows rows').
    rewrite <- (view_core _ _ _ Hc), Hall.
    split_and!; [by eapply run_update_core|done..].
Qed.

(** A run that is not RUNNING is left as it is. *)
Lemma runs_advance_idle run specs w (Q : WorkflowRunRecord → World → Prop) :
  run_stored (w_db w) run specs → wr_state run ≠ WorkflowRunState.RUNNING →
  Q run w → runs (advance (wr_organization_id run) run) w Q.
Proof.
  intros Hst Hrun HQ. unfold advance. apply runs_bind, runs_gets. rewrite run_steps_view.
  apply runs_bind. eapply runs_specs; [by apply Hst|apply view_org|done|].
  rewrite bool_decide_false by done. by apply runs_ret.
Qed.
