(* ===== verification/RunInvariant.v ===== *)
(** * RunInvariant: the invariant of one workflow run

    [run_inv state specs rows]: a run in [state] whose version has the steps [specs]
    and whose step rows are [rows]. A step is started only when its dependencies
    justify it, attempts stay within the retry policy, a RUNNING step carries a
    claim, and the run state agrees with its steps. The lemmas say that the row
    updates of each operation keep it; [run_progress] is what it is for. *)

From S2P Require Import Prelude.
From S2P Require Import Errors.
From S2P Require Import Lifecycles.
From S2P Require Import Conditions.
From S2P Require Import WorkflowGraph.
From S2P Require Import ScheduleSpec.
From S2P Require Import Store.
From S2P Require Import StoreLemmas.
From S2P Require Import WorkflowRepository.
From S2P Require Import AdvanceLemmas.
From S2P Require Import RunUpdate.

(** ** The invariant *)

Definition started (s : WorkflowStepState) : Prop :=
  s ∈ [WorkflowStepState.READY; WorkflowStepState.RUNNING; WorkflowStepState.COMPLETED;
       WorkflowStepState.FAILED].

(** Not yet claimed (again). *)
Definition waiting (s : WorkflowStepState) : Prop :=
  s ∈ [WorkflowStepState.PENDING; WorkflowStepState.READY].

Definition dead (s : WorkflowStepState) : Prop :=
  s ∈ [WorkflowStepState.FAILED; WorkflowStepState.CANCELLED].

Record row_inv (specs : list WorkflowStepSpec) (st : gmap string WorkflowStepState)
    (r : WorkflowStepRunRecord) : Prop := {
  row_gate : started (sr_state r) →
    ∃ sp, sp ∈ specs ∧ key sp = sr_step_key r ∧ resolves st sp (Some WorkflowStepState.READY);
  row_attempts : 0 ≤ sr_attempt_count r ≤ sr_max_attempts r;
  row_waiting : waiting (sr_state r) → sr_attempt_count r < sr_max_attempts r;
  row_claimed : sr_state r = WorkflowStepState.RUNNING →
    is_Some (sr_claim_token r) ∧ is_Some (sr_execution_owner_id r) ∧ 1 ≤ sr_attempt_count r;
  row_eligible : sr_next_eligible_at r = None;
}.

Definition rows_inv (specs : list WorkflowStepSpec) (rows : list WorkflowStepRunRecord) : Prop :=
  ∀ r, r ∈ rows → row_inv specs (states_of rows) r.

Definition no_dead (rows : list WorkflowStepRunRecord) : Prop :=
  ∀ r, r ∈ rows → ¬ dead (sr_state r).

Definition all_settled (rows : list WorkflowStepRunRecord) : bool :=
  forallb (λ r, settled (sr_state r)) rows.

(** What the state of the run says about its steps. *)
Definition status_inv (state : WorkflowRunState) (specs : list WorkflowStepSpec)
    (rows : list WorkflowStepRunRecord) : Prop :=
  match state with
  | WorkflowRunState.PENDING => False
  | WorkflowRunState.RUNNING =>
      no_dead rows ∧ all_settled rows = false ∧
      Forall (stuck (spec_map specs) (states_of rows)) rows
  | WorkflowRunState.PAUSED => no_dead rows
  | WorkflowRunState.COMPLETED => all_settled rows = true
  | WorkflowRunState.FAILED => ∃ r, r ∈ rows ∧ sr_state r = WorkflowStepState.FAILED
  | WorkflowRunState.CANCELLED => ∀ r, r ∈ rows → ¬ waiting (sr_state r)
  end.

Definition run_inv (state : WorkflowRunState) (specs : list WorkflowStepSpec)
    (rows : list WorkflowStepRunRecord) : Prop :=
  rows_inv specs rows ∧ status_inv state specs rows.

(** ** Updates that keep settled steps *)

Lemma row_inv_settled specs st st' r :
  keeps_settled st st' → row_inv specs st r → row_inv specs st' r.
Proof.
  intros Hk [Hg Ha Hw Hc He]. split; try done. intros Hs.
  destruct (Hg Hs) as (sp & ? & ? & ?). eauto using resolves_settled.
Qed.

Lemma states_of_map (f : WorkflowStepRunRecord → WorkflowStepRunRecord) rows k s :
  NoDup (keys rows) → (∀ r, r ∈ rows → same_step r (f r)) →
  states_of (map f rows) !! k = Some s ↔
  ∃ r, r ∈ rows ∧ sr_step_key r = k ∧ sr_state (f r) = s.
Proof.
  intros Hnd Hf. rewrite states_of_lookup.
  - setoid_rewrite list_elem_of_fmap. split.
    + intros (? & (r & -> & Hr) & <- & <-). exists r. split_and!; [done| |done].
      apply Hf in Hr. unfold same_step, step_identity in Hr. congruence.
    + intros (r & Hr & <- & <-). exists (f r). split_and!; [eauto| |done].
      apply Hf in Hr. unfold same_step, step_identity in Hr. congruence.
  - assert (keys (map f rows) = keys rows) as ->; [|done].
    rewrite map_map. apply map_ext_in. intros r Hr%list_elem_of_In%Hf.
    unfold same_step, step_identity in Hr. congruence.
Qed.

Lemma keeps_settled_map f rows :
  NoDup (keys rows) → (∀ r, r ∈ rows → same_step r (f r)) →
  (∀ r, r ∈ rows → settled (sr_state r) = true → sr_state (f r) = sr_state r) →
  keeps_settled (states_of rows) (states_of (map f rows)).
Proof.
  intros Hnd Hf Hs k s Hk Hset. apply states_of_map; [done..|].
  apply states_of_lookup in Hk as (r & Hr & <- & <-); [|done]. exists r. auto.
Qed.

(** [rows_inv] after an update: every row still meets the invariant against the new
    states, given that settled steps stay. *)
Lemma rows_inv_map specs f rows :
  NoDup (keys rows) → (∀ r, r ∈ rows → same_step r (f r)) →
  (∀ r, r ∈ rows → settled (sr_state r) = true → sr_state (f r) = sr_state r) →
  (∀ r st, r ∈ rows → row_inv specs st r → st = states_of (map f rows) → row_inv specs st (f r)) →
  rows_inv specs rows → rows_inv specs (map f rows).
Proof.
  intros Hnd Hf Hs Hstep Hinv r' (r & -> & Hr)%list_elem_of_fmap.
  apply Hstep; [done| |done]. eapply row_inv_settled; [|by apply Hinv].
  by apply keeps_settled_map.
Qed.

(** A pending step whose dependencies were not all over stays stuck while no
    further step is over. *)
Lemma stuck_map specs f rows :
  NoDup (keys rows) → (∀ r, r ∈ rows → same_step r (f r)) →
  (∀ r, r ∈ rows → settled (sr_state (f r)) = settled (sr_state r)) →
  (∀ r, r ∈ rows → sr_state (f r) = WorkflowStepState.PENDING →
     sr_state r = WorkflowStepState.PENDING) →
  Forall (stuck specs (states_of rows)) rows →
  Forall (stuck specs (states_of (map f rows))) (map f rows).
Proof.
  intros Hnd Hf Hs Hp Hst. rewrite Forall_forall in *.
  intros r' (r & -> & Hr)%list_elem_of_fmap Hpend.
  destruct (Hst r Hr) as (sp & Hsp & ss & Hss & Hres); [by apply Hp|].
  assert (Hkey : sr_step_key (f r) = sr_step_key r).
  { apply Hf in Hr. unfold same_step, step_identity in Hr. congruence. }
  exists sp. split; [by rewrite Hkey|].
  apply resolve_None in Hres as (s & Hin & Hun).
  apply dependency_states_Ok in Hss.
  destruct (dependency_states_total (states_of (map f rows)) sp) as (ss' & Hss').
  { intros d Hd. destruct (Forall2_in_l _ _ _ _ Hss Hd) as (s0 & _ & Hs0).
    apply states_of_lookup in Hs0 as (r0 & Hr0 & <- & _); [|done].
    eexists. apply states_of_map; eauto. }
  exists ss'. split; [done|]. apply resolve_None.
  apply dependency_states_Ok in Hss'.
  destruct (Forall2_in_r _ _ _ _ Hss Hin) as (k & Hk & Hks).
  destruct (Forall2_in_l _ _ _ _ Hss' Hk) as (s' & Hs' & Hks').
  exists s'. split; [done|].
  apply states_of_lookup in Hks as (r0 & Hr0 & Hk0 & <-); [|done].
  apply states_of_map in Hks' as (r1 & Hr1 & Hk1 & <-); [|done..].
  assert (r1 = r0) as -> by (apply (NoDup_map_inj sr_step_key rows); congruence).
  by rewrite Hs.
Qed.

(** ** Resolution *)

(** One row of the resolver keeps the row invariant. *)
Lemma stepped_row_inv specs st r r' :
  NoDup (map key specs) → stepped (spec_map specs) st r r' → row_inv specs st r →
  row_inv specs st r'.
Proof.
  intros Hnd Hst [Hg Ha Hw Hc He]. destruct Hst as [|sp t now Hp Hsp Hres]; [by split|].
  apply spec_map_lookup in Hsp as [Hin Hkey]; [|done].
  assert (Ht : t = WorkflowStepState.READY ∨ t = WorkflowStepState.SKIPPED).
  { destruct Hres as (ss & _ & Ht). by apply resolve_target in Ht. }
  assert (Hlt : sr_attempt_count r < sr_max_attempts r) by (apply Hw; rewrite Hp; set_solver).
  split; simpl.
  - intros Hs. exists sp. split_and!; [done|done|].
    destruct Ht as [-> | ->]; [done|]. unfold started in Hs. set_solver.
  - done.
  - done.
  - destruct Ht as [-> | ->]; done.
  - done.
Qed.

Lemma stepped_settled_state specs st r r' :
  stepped specs st r r' → settled (sr_state r) = true → sr_state r' = sr_state r.
Proof. intros [|sp t now Hp _ _] Hs; [done|]. by rewrite Hp in Hs. Qed.

Lemma stepped_dead specs st r r' : stepped specs st r r' → dead (sr_state r') → dead (sr_state r).
Proof.
  intros [|sp t now Hp _ (ss & _ & Ht)] Hd; [done|]. simpl in Hd.
  apply resolve_target in Ht as [-> | ->]; unfold dead in Hd; set_solver.
Qed.

(** After [advance] the invariant of the new run state holds. *)
Lemma advanced_inv specs rows f :
  graph_ok specs → NoDup (keys rows) → (∀ r, r ∈ rows → same_step r (f r)) →
  (∀ r, r ∈ rows → stepped (spec_map specs) (states_of (map f rows)) r (f r)) →
  Forall (stuck (spec_map specs) (states_of (map f rows))) (map f rows) →
  rows_inv specs rows → no_dead rows →
  run_inv (if all_settled (map f rows) then WorkflowRunState.COMPLETED
           else WorkflowRunState.RUNNING) specs (map f rows).
Proof.
  intros Hg Hnd Hf Hstep Hstuck Hinv Hdead. split.
  - apply rows_inv_map; [done|done| | |done].
    + intros r Hr. by eapply stepped_settled_state, Hstep.
    + intros r st Hr Hrow ->. eapply stepped_row_inv; [by apply graph_keys|by apply Hstep|done].
  - destruct (all_settled (map f rows)) eqn:Hall; [done|]. split_and!; [|done|done].
    intros r' (r & -> & Hr)%list_elem_of_fmap Hd. apply (Hdead r Hr). by eapply stepped_dead, Hd; apply Hstep.
Qed.

(** ** Progress *)

(** The smallest pending step of a quiescent run cannot exist, so a run with
    unfinished steps has one that is READY or RUNNING. *)
Lemma stuck_blocker specs rows r :
  graph_ok specs → NoDup (keys rows) → Forall (stuck (spec_map specs) (states_of rows)) rows →
  r ∈ rows → sr_state r = WorkflowStepState.PENDING →
  ∃ sp r', sp ∈ specs ∧ key sp = sr_step_key r ∧ r' ∈ rows ∧ sr_step_key r' ∈ depends_on sp ∧
    settled (sr_state r') = false.
Proof.
  intros Hg Hnd Hst Hr Hp. rewrite Forall_forall in Hst.
  destruct (Hst r Hr Hp) as (sp & Hsp & ss & Hss & Hres).
  apply spec_map_lookup in Hsp as [Hin Hkey]; [|by apply graph_keys].
  apply resolve_None in Hres as (s & Hs & Hun). apply dependency_states_Ok in Hss.
  destruct (Forall2_in_r _ _ _ _ Hss Hs) as (k & Hk & Hks).
  apply states_of_lookup in Hks as (r' & Hr' & <- & <-); [|done]. by exists sp, r'.
Qed.

Lemma run_progress specs rows :
  graph_ok specs → acyclic specs → NoDup (keys rows) →
  run_inv WorkflowRunState.RUNNING specs rows →
  ∃ r, r ∈ rows ∧
    (sr_state r = WorkflowStepState.READY ∨ sr_state r = WorkflowStepState.RUNNING).
Proof.
  intros Hg [rank Hrank] Hnd (_ & Hdead & Hall & Hst).
  apply forallb_false in Hall as Hun.
  destruct Hun as (r & Hr & Hun).
  remember (rank (sr_step_key r)) as n eqn:Hn. revert r Hr Hun Hn.
  induction n as [n IH] using lt_wf_ind. intros r Hr Hun Hn.
  destruct (sr_state r) eqn:Hs; try done; eauto.
  - destruct (stuck_blocker specs rows r) as (sp & r' & Hsp & Hk & Hr' & Hdep & Hun'); [done..|].
    eapply (IH (rank (sr_step_key r'))); [|done..]. subst n. rewrite <- Hk. by apply Hrank.
  - destruct (Hdead r Hr). rewrite Hs. unfold dead. set_solver.
  - destruct (Hdead r Hr). rewrite Hs. unfold dead. set_solver.
Qed.

(** ** Updates of single rows *)

Lemma states_settled_case s :
  settled s = true ↔ s = WorkflowStepState.COMPLETED ∨ s = WorkflowStepState.SKIPPED.
Proof. unfold settled. rewrite bool_decide_eq_true. set_solver. Qed.

(** [replaces f rows row row']: [f] writes [row'] over [row] and nothing else. *)
Definition replaces (f : WorkflowStepRunRecord → WorkflowStepRunRecord)
    (rows : list WorkflowStepRunRecord) (row row' : WorkflowStepRunRecord) : Prop :=
  row ∈ rows ∧ same_step row row' ∧
  ∀ r, r ∈ rows → (r = row ∧ f r = row') ∨ (r ≠ row ∧ f r = r).

Lemma replaces_same f rows row row' :
  replaces f rows row row' → ∀ r, r ∈ rows → same_step r (f r).
Proof. intros (_ & Hs & Hf) r Hr. destruct (Hf r Hr) as [[-> ->]|[_ ->]]; [done|reflexivity]. Qed.

Lemma replaces_rows_inv specs f rows row row' :
  NoDup (keys rows) → replaces f rows row row' → settled (sr_state row) = false →
  (∀ st, row_inv specs st row → row_inv specs st row') →
  rows_inv specs rows → rows_inv specs (map f rows).
Proof.
  intros Hnd Hrep Hun Hrow Hinv. apply rows_inv_map; [done|by eapply replaces_same| | |done].
  - intros r Hr Hs. destruct Hrep as (_ & _ & Hf). destruct (Hf r Hr) as [[-> _]|[_ ->]]; congruence.
  - intros r st Hr Hi _. destruct Hrep as (_ & _ & Hf). destruct (Hf r Hr) as [[-> ->]|[_ ->]]; auto.
Qed.

Lemma replaces_no_dead f rows row row' :
  replaces f rows row row' → ¬ dead (sr_state row') → no_dead rows → no_dead (map f rows).
Proof.
  intros (_ & _ & Hf) Hd Hno r' (r & -> & Hr)%list_elem_of_fmap.
  destruct (Hf r Hr) as [[-> ->]|[_ ->]]; auto.
Qed.

(** A claim or a retry: the run stays RUNNING (or PAUSED) and quiescent. *)
Lemma replaces_status state specs f rows row row' :
  NoDup (keys rows) → replaces f rows row row' →
  settled (sr_state row) = false → settled (sr_state row') = false →
  sr_state row' ≠ WorkflowStepState.PENDING → ¬ dead (sr_state row') →
  state = WorkflowRunState.RUNNING ∨ state = WorkflowRunState.PAUSED →
  status_inv state specs rows → status_inv state specs (map f rows).
Proof.
  intros Hnd Hrep Hu Hu' Hp Hd Hstate Hst.
  destruct Hstate as [-> | ->]; [|by eapply replaces_no_dead].
  destruct Hst as (Hno & Hall & Hstuck). split_and!; [by eapply replaces_no_dead| |].
  - destruct Hrep as (Hin & _ & Hf). destruct (Hf row Hin) as [[_ Hrow]|[? _]]; [|done].
    apply forallb_false. exists row'. rewrite <- Hrow at 1. split; [by apply list_elem_of_fmap_2|done].
  - apply stuck_map; [done|by eapply replaces_same| | |done];
      intros r Hr; destruct Hrep as (_ & _ & Hf); destruct (Hf r Hr) as [[-> ->]|[_ ->]]; congruence.
Qed.
