(* ===== verification/WorkflowOps.v ===== *)
(** * WorkflowOps: the run operations as updates

    Each operation of the workflow repository, when it returns, is an update of one
    stored run ([run_update]) with a known effect on its rows. *)

From S2P Require Import Prelude.
From S2P Require Import Errors.
From S2P Require Import Lifecycles.
From S2P Require Import Conditions.
From S2P Require Import WorkflowGraph.
From S2P Require Import ScheduleSpec.
From S2P Require Import Store.
From S2P Require Import StoreLemmas.
From S2P Require Import WorkflowRepository.
From S2P Require Import AdvanceLemmas.
From S2P Require Import RunUpdate.
From S2P Require Import RunInvariant.

(** ** Primitive returns *)

Lemma ran_utcnow w a w' : utcnow w = (Ok a, w') → same_core w w'.
Proof. intros [= _ <-]. by split. Qed.
Lemma ran_txn_now w a w' : txn_now w = (Ok a, w') → same_core w w'.
Proof. by intros [= _ <-]. Qed.
Lemma ran_add_transition org run step t r s f w u w' :
  add_transition org run step t r s f w = (Ok u, w') → same_core w w'.
Proof.
  intros H. pattern u, w'. eapply ran_runs; [|exact H]. by apply runs_transition.
Qed.

Lemma ran_run_row org id w o w' :
  run_row org id w = (Ok o, w') →
  w' = w ∧ ∀ run, o = Some run → run ∈ db_runs (w_db w) ∧ wr_organization_id run = org ∧ wr_id run = id.
Proof.
  intros [= <- <-]. split; [done|]. intros run [Hin Hp]%List.find_some.
  unfold is_run in Hp. apply andb_true_iff in Hp as [?%N.eqb_eq ?%N.eqb_eq].
  by rewrite list_elem_of_In.
Qed.

(** ** Stored runs *)

Lemma update_where_in {A} (p : A → bool) (a : A) l x :
  x ∈ l → p x = true → a ∈ update_where p (λ _, a) l.
Proof. intros Hx Hp. apply list_elem_of_fmap. exists x. by rewrite Hp. Qed.

Lemma map_update_where {A B} (g : A → B) (p : A → bool) (a : A) l :
  (∀ x, x ∈ l → p x = true → g x = g a) → map g (update_where p (λ _, a) l) = map g l.
Proof.
  intros Hg. unfold update_where. rewrite map_map. apply map_ext_in.
  intros x Hx%list_elem_of_In. destruct (p x) eqn:Hp; [|done]. symmetry. auto.
Qed.

Lemma row_spec_same d d' r r' sp :
  db_version_steps d' = db_version_steps d → same_step r r' → row_spec d r sp → row_spec d' r' sp.
Proof.
  unfold row_spec, find_version_step, same_step, step_identity. intros Hv Hs Hrow.
  destruct r, r'. simpl in *. simplify_eq. by rewrite Hv.
Qed.

Lemma stored_update d d' run run' specs f :
  run_stored d run specs → run_update d d' run' f → same_run run run' → run_stored d' run' specs.
Proof.
  intros [Hin Hr Hs Hsp Hg Hval] Hu Hsame. pose proof (same_run_id _ _ Hsame) as Hid.
  split; [..|done|done].
  - rewrite (upd_runs _ _ _ _ Hu). eapply update_where_in; [exact Hin|]. rewrite Hid. apply N.eqb_refl.
  - rewrite (upd_runs _ _ _ _ Hu), map_update_where; [done|]. intros x _ ?%N.eqb_eq. done.
  - rewrite (upd_steps _ _ _ _ Hu), map_map.
    assert (map (λ x, sr_id (f x)) (db_step_runs d) = map sr_id (db_step_runs d)) as ->; [|done].
    apply map_ext_in. intros r Hr'%list_elem_of_In. by apply same_step_id, (upd_same _ _ _ _ Hu).
  - rewrite (view_same_run _ _ _ Hsame), (run_update_view _ _ _ _ _ Hu).
    apply Forall2_fmap_l. eapply Forall2_impl_in_l; [exact Hsp|]. intros r sp Hr' Hrow.
    eapply row_spec_same; [by apply (upd_version_steps _ _ _ _ Hu)| |done].
    apply (upd_same _ _ _ _ Hu). by apply view_In in Hr' as [? _].
Qed.

Lemma stored_core d d' run specs : run_stored d run specs → core d = core d' → run_stored d' run specs.
Proof.
  intros Hst Hc. eapply stored_update; [exact Hst| |reflexivity].
  eapply run_update_core; [|exact Hc]. apply run_update_refl_row; apply Hst.
Qed.

(** ** Flushes *)

(** The rows [olds] of a stored run take their new values. *)
Lemma run_flush (R : WorkflowStepRunRecord → WorkflowStepRunRecord → Prop) d d1 run specs olds news :
  run_stored d run specs → core d = core d1 → olds ⊆ view d run → Forall2 R olds news →
  (∀ a b, R a b → same_step a b) →
  run_update d (set_db_step_runs (map (flush_rows news) (db_step_runs d1)) d1) run (flush_rows news) ∧
  ∀ r, r ∈ view d run →
    (r ∈ olds ∧ R r (flush_rows news r)) ∨ (r ∉ olds ∧ flush_rows news r = r).
Proof.
  intros Hst Hc Hsub HF HR. split.
  - eapply run_update_core; [eapply run_update_rows; eauto; apply Hst|].
    unfold core in *. simpl. congruence.
  - intros r Hr. eapply flush_rows_related; [apply Hst| |done..|].
    + intros x Hx%Hsub. by apply view_In in Hx as [? _].
    + by apply view_In in Hr as [? _].
Qed.

Lemma run_flush_one d d1 run specs row row' :
  run_stored d run specs → core d = core d1 → row ∈ view d run → same_step row row' →
  let f := flush_rows [row'] in
  run_update d (set_db_step_runs (map f (db_step_runs d1)) d1) run f ∧
  replaces f (view d run) row row'.
Proof.
  intros Hst Hc Hrow Hs f.
  destruct (run_flush (λ a b, a = row ∧ b = row') d d1 run specs [row] [row']) as [Hu Hf];
    [done|done| |by repeat constructor| |].
  - intros x. by rewrite list_elem_of_singleton; intros ->.
  - by intros a b [-> ->].
  - split; [done|]. split_and!; [done|done|]. intros r Hr. unfold f.
    destruct (Hf r Hr) as [[_ ?]|[Hno ?]]; [by left|right].
    split; [|done]. intros ->. apply Hno. by constructor.
Qed.

(** ** Changes of one run *)

(** The effect of an operation on one step row: it keeps its state or makes one
    legal transition, attempts never decrease, and a claim token is only set by
    the transition from READY to RUNNING, to a UUID issued after [n]. *)
Record row_moves (n : uuid) (r r' : WorkflowStepRunRecord) : Prop := {
  mv_state : sr_state r' = sr_state r ∨ legal (sr_state r) (sr_state r');
  mv_attempts : sr_attempt_count r ≤ sr_attempt_count r';
  mv_token : sr_claim_token r' = sr_claim_token r ∨ sr_claim_token r' = None ∨
    (sr_state r = WorkflowStepState.READY ∧ sr_state r' = WorkflowStepState.RUNNING ∧
     ∃ t, sr_claim_token r' = Some t ∧ (n ≤ t)%N);
  mv_claim : sr_state r ≠ WorkflowStepState.RUNNING → sr_state r' = WorkflowStepState.RUNNING →
    ∃ t, sr_claim_token r' = Some t ∧ (n ≤ t)%N;
}.

#[export] Instance row_moves_refl n : Reflexive (row_moves n).
Proof. intros r. split; [by left|lia|by left|done]. Qed.

(** The run that an operation changes: its new row, the effect on its steps, and
    its invariant. *)
Record run_change (n : uuid) (d d' : DB) (run run' : WorkflowRunRecord)
    (f : WorkflowStepRunRecord → WorkflowStepRunRecord) : Prop := {
  chg_in : run ∈ db_runs d;
  chg_update : run_update d d' run' f;
  chg_same : same_run run run';
  chg_live : wr_state run = WorkflowRunState.RUNNING ∨ wr_state run = WorkflowRunState.PAUSED;
  chg_state : rtc legal (wr_state run) (wr_state run');
  chg_rows : ∀ r, r ∈ view d run → row_moves n r (f r);
  chg_inv : ∀ specs, run_stored d run specs → run_inv (wr_state run) specs (view d run) →
    run_inv (wr_state run') specs (view d' run');
}.

(** Every stored run satisfies its invariant. *)
Definition runs_inv (d : DB) : Prop :=
  ∀ run, run ∈ db_runs d →
  ∃ specs, run_stored d run specs ∧ acyclic specs ∧ run_inv (wr_state run) specs (view d run).

Lemma run_update_runs d d' run f x :
  run_update d d' run f → x ∈ db_runs d' → x = run ∨ (x ∈ db_runs d ∧ wr_id x ≠ wr_id run).
Proof.
  intros Hu. rewrite (upd_runs _ _ _ _ Hu). intros (y & -> & Hy)%list_elem_of_fmap.
  destruct (N.eqb_spec (wr_id y) (wr_id run)); auto.
Qed.

Lemma change_runs_inv {n} d d' run run' f : run_change n d d' run run' f → runs_inv d → runs_inv d'.
Proof.
  intros [Hin Hu Hs _ _ _ Hinv] HI x [->|[Hx Hne]]%(run_update_runs _ _ _ _ _ Hu).
  - destruct (HI run Hin) as (specs & Hst & Hac & Hri). exists specs.
    split_and!; [by eapply stored_update|done|by apply Hinv].
  - destruct (HI x Hx) as (specs & Hst & Hac & Hri). exists specs.
    assert (Hv : view d' x = view d x) by (by eapply run_update_view_other).
    destruct (HI run Hin) as (specs0 & Hst0 & _).
    pose proof (stored_update _ _ _ _ _ _ Hst0 Hu Hs) as Hst0'.
    split_and!; [|done|by rewrite Hv]. split; [|apply Hst0'..| |apply Hst|apply Hst].
    + rewrite (upd_runs _ _ _ _ Hu). apply list_elem_of_fmap. exists x.
      by rewrite (proj2 (N.eqb_neq _ _) Hne).
    + rewrite Hv. eapply Forall2_impl_in_l; [apply Hst|]. intros r sp _.
      by apply row_spec_same; [apply (upd_version_steps _ _ _ _ Hu)|].
Qed.

(** ** [claim] *)

Definition claim_of (c : StepClaim) (row : WorkflowStepRunRecord) : Prop :=
  sr_state (cl_step c) = WorkflowStepState.RUNNING ∧ same_step row (cl_step c) ∧
  sr_attempt_count (cl_step c) = sr_attempt_count row + 1 ∧
  sr_claim_token (cl_step c) = Some (cl_claim_token c) ∧
  sr_execution_owner_id (cl_step c) = Some (cl_owner_id c).

Lemma claim_row_inv specs st c row :
  sr_state row = WorkflowStepState.READY → claim_of c row →
  row_inv specs st row → row_inv specs st (cl_step c).
Proof.
  intros Hr (Hst & Hs & Ha & Ht & Ho) [Hg Hat Hw Hc He].
  unfold same_step, step_identity in Hs. injection Hs as ? ? ? ? Hk ? Hm ? Hel.
  assert (sr_attempt_count row < sr_max_attempts row) by (apply Hw; rewrite Hr; unfold waiting; set_solver).
  split.
  - intros _. rewrite <- Hk. apply Hg. rewrite Hr. unfold started. set_solver.
  - rewrite Ha, <- Hm. lia.
  - rewrite Hst. unfold waiting. set_solver.
  - intros _. rewrite Ht, Ho, Ha. split_and!; [by eexists|by eexists|lia].
  - congruence.
Qed.

(** What a successful [claim] returns and does. *)
Record claimed (n org run_id owner : uuid) (d d' : DB) (c : StepClaim) (row : WorkflowStepRunRecord)
    (f : WorkflowStepRunRecord → WorkflowStepRunRecord) : Prop := {
  clm_org : wr_organization_id (cl_run c) = org;
  clm_run : wr_id (cl_run c) = run_id;
  clm_owner : cl_owner_id c = owner;
  clm_running : wr_state (cl_run c) = WorkflowRunState.RUNNING;
  clm_ready : sr_state row = WorkflowStepState.READY;
  clm_of : claim_of c row;
  clm_spec : spec_of_row <$> find_version_step org (sr_version_step_id row) d = Some (cl_spec c);
  clm_replaces : replaces f (view d (cl_run c)) row (cl_step c);
  clm_change : run_change n d d' (cl_run c) (cl_run c) f;
}.

Lemma head_merge_sort {A} (R : relation A) `{!RelDecision R} (p : A → bool) l x k :
  merge_sort R (List.filter p l) = x :: k → x ∈ l ∧ p x = true.
Proof.
  intros Hs. assert (Hx : x ∈ List.filter p l).
  { rewrite <- (merge_sort_Permutation R), Hs. by constructor. }
  rewrite list_elem_of_In, List.filter_In, <- list_elem_of_In in Hx. done.
Qed.

(** One row changes, the run row does not. *)
Lemma replaces_change {n} d d1 run row row' :
  runs_inv d → run ∈ db_runs d → core d = core d1 → row ∈ view d run → same_step row row' →
  wr_state run = WorkflowRunState.RUNNING ∨ wr_state run = WorkflowRunState.PAUSED →
  settled (sr_state row) = false → settled (sr_state row') = false →
  sr_state row' ≠ WorkflowStepState.PENDING → ¬ dead (sr_state row') →
  row_moves n row row' →
  (∀ specs st, row_inv specs st row → row_inv specs st row') →
  let f := flush_rows [row'] in
  run_change n d (set_db_step_runs (map f (db_step_runs d1)) d1) run run f ∧
  replaces f (view d run) row row'.
Proof.
  intros HI Hrun Hc Hrow Hs Hstate Hu Hu' Hp Hd Hmv Hri f.
  destruct (HI run Hrun) as (specs0 & Hst0 & _ & _).
  destruct (run_flush_one d d1 run specs0 row row' Hst0 Hc Hrow Hs) as [Hupd Hrep].
  fold f in Hupd, Hrep. split; [|done]. pose proof Hrep as (_ & _ & Hf).
  split; [done|done|reflexivity|done|apply rtc_refl|..].
  - intros r Hr. destruct (Hf r Hr) as [[-> ->]|[_ ->]]; [done|reflexivity].
  - intros specs Hst [Hrows Hstatus]. rewrite (run_update_view _ _ _ _ _ Hupd).
    pose proof (stored_keys _ _ _ Hst) as Hnd.
    split; [by eapply replaces_rows_inv; eauto|by eapply replaces_status].
Qed.

Lemma ran_claim org run_id owner w c w' :
  runs_inv (w_db w) → claim org run_id owner w = (Ok (Some c), w') →
  (∃ row f, claimed (w_next_uuid w) org run_id owner (w_db w) (w_db w') c row f) ∧
  (w_next_uuid w ≤ cl_claim_token c < w_next_uuid w')%N.
Proof.
  intros HI H. unfold claim in H. ran H as found w0 Hfind.
  apply ran_run_row in Hfind as [-> Hfound]. destruct found as [run|]; [|done].
  destruct (Hfound run eq_refl) as (Hin & Horg & Hid).
  case_bool_decide as Hrun; [|done]. cbn [negb] in H.
  ran H as now w1 Hc1. apply ran_utcnow in Hc1. ran H as steps w1' Hsteps. injection Hsteps as <- <-.
  destruct (merge_sort _ _) as [|row rest] eqn:Hsort; [done|].
  apply head_merge_sort in Hsort as [Hrow [Hready _]%andb_true_iff].
  apply bool_decide_eq_true in Hready.
  ran H as token w2 Htok. injection Htok as <- <-. set (row' := set_sr_updated_at _ _) in H.
  ran H as u w3 Hc3. apply ran_add_transition in Hc3. ran H as sp w4 Hsp. unfold spec_for_step in Hsp.
  ran Hsp as d w4' Hd. injection Hd as <- <-.
  destruct (find_version_step _ _ _) as [v|] eqn:Hv; [|done].
  injection Hsp as <- <-. ran H as u' w5 Hput. injection Hput as _ <-. injection H as <- <-.
  assert (Hcore : core (w_db w) = core (w_db w3)).
  { destruct Hc1 as [-> _], Hc3 as [<- _]. done. }
  assert (Hview : row ∈ view (w_db w) run).
  { destruct Hc1 as [Hc1 _]. rewrite (view_core _ _ _ Hc1). unfold view. by rewrite Horg, Hid. }
  assert (Hclaim : claim_of {| cl_run := run; cl_step := row'; cl_spec := spec_of_row v;
    cl_owner_id := owner; cl_claim_token := w_next_uuid w1 |} row) by (split_and!; done).
  destruct (replaces_change (n := w_next_uuid w) (w_db w) (w_db w3) run row row') as [Hch Hrep];
    try done; auto; rewrite ?Hready.
  - done.
  - unfold dead. set_solver.
  - assert (Hnew : ∃ t, sr_claim_token row' = Some t ∧ (w_next_uuid w ≤ t)%N).
    { eexists. split; [done|]. by destruct Hc1 as [_ ?]. }
    split; rewrite ?Hready; simpl; [right; unfold legal; simpl; set_solver|lia|auto|done].
  - intros specs st. by apply (claim_row_inv _ _ _ _ Hready Hclaim).
  - split.
    + exists row, (flush_rows [row']). split; try done.
      assert (db_version_steps (w_db w) = db_version_steps (w_db w3)) as Hvs
        by (unfold core in Hcore; congruence).
      unfold find_version_step in *. rewrite Hvs. simpl in Hv. by rewrite Hv.
    + simpl. destruct Hc1 as [_ ?], Hc3 as [_ ?]. simpl in *. lia.
Qed.

(** ** Operations that end in [advance] *)

Lemma stepped_moves {n} specs st r r' : stepped specs st r r' → row_moves n r r'.
Proof.
  intros [|sp t now Hp _ (ss & _ & Ht)]; [reflexivity|]. apply resolve_target in Ht.
  split; simpl; [|lia|by left|by destruct Ht as [-> | ->]].
  right. rewrite Hp. unfold legal. simpl. destruct Ht as [-> | ->]; set_solver.
Qed.

Lemma moves_stepped {n} specs st r r1 r2 :
  row_moves n r r1 → (sr_state r1 = WorkflowStepState.PENDING → sr_state r = WorkflowStepState.PENDING) →
  stepped specs st r1 r2 → row_moves n r r2.
Proof.
  intros [Hs Ha Ht Hc] Hp Hst. destruct Hst as [|sp t now Hp1 _ (ss & _ & Hr)]; [by split|].
  specialize (Hp Hp1). apply resolve_target in Hr. split; simpl.
  - right. rewrite Hp. unfold legal. simpl. destruct Hr as [-> | ->]; set_solver.
  - done.
  - destruct Ht as [?|[?|(? & ? & _)]]; [by left|by right; left|congruence].
  - by destruct Hr as [-> | ->].
Qed.

Lemma stepped_unmoved specs st r r' :
  stepped specs st r r' → sr_state r ≠ WorkflowStepState.PENDING → r = r'.
Proof. by intros []. Qed.

Lemma stored_specs_unique d run specs specs' :
  run_stored d run specs → run_stored d run specs' → specs = specs'.
Proof.
  intros [_ _ _ HF _ _] [_ _ _ HF' _ _]. revert specs' HF'.
  induction HF as [|r sp rows specs (_ & _ & Hsp) _ IH]; intros specs' HF'.
  - by apply Forall2_nil_inv_l in HF'.
  - apply Forall2_cons_inv_l in HF' as (sp' & specs'' & (_ & _ & Hsp') & HF' & ->).
    f_equal; [congruence|auto].
Qed.

Lemma advance_change {n} d run run1 f0 w1 run' w' :
  runs_inv d → run ∈ db_runs d → run_update d (w_db w1) run1 f0 → same_run run run1 →
  (wr_state run = WorkflowRunState.RUNNING ∨ wr_state run = WorkflowRunState.PAUSED) →
  rtc legal (wr_state run) (wr_state run1) →
  wr_state run1 = WorkflowRunState.RUNNING ∨ wr_state run1 = WorkflowRunState.PAUSED →
  (∀ r, r ∈ view d run → row_moves n r (f0 r) ∧
     (sr_state (f0 r) = WorkflowStepState.PENDING → sr_state r = WorkflowStepState.PENDING)) →
  (∀ specs, run_stored d run specs → run_inv (wr_state run) specs (view d run) →
     rows_inv specs (map f0 (view d run)) ∧ no_dead (map f0 (view d run))) →
  advance (wr_organization_id run1) run1 w1 = (Ok run', w') →
  ∃ f, run_change n d (w_db w') run run' f ∧
    (∀ r, r ∈ view d run → sr_state (f0 r) ≠ WorkflowStepState.PENDING → f r = f0 r).
Proof.
  intros HI Hin Hu Hs Hlive Hl Hstate Hmv Hrows H.
  destruct (HI run Hin) as (specs & Hst & Hac & Hri).
  pose proof (stored_update _ _ _ _ _ _ Hst Hu Hs) as Hst1.
  pose proof (run_update_view _ _ _ run _ Hu) as Hv1.
  rewrite <- (view_same_run _ _ _ Hs) in Hv1 at 1.
  destruct (decide (wr_state run1 = WorkflowRunState.RUNNING)) as [Hr|Hr].
  - assert (Hadv : advanced (spec_map specs) (w_db w1) (w_db w') run1 run').
    { pattern run', w'. eapply ran_runs; [|exact H]. by apply (runs_advance _ specs). }
    destruct Hadv as (g & Hg & Hs' & Hstep & Hstuck & Hfinal).
    assert (Hsame : same_run run run') by (by etrans).
    assert (Hv2 : view (w_db w') run1 = map g (map f0 (view d run))).
    { by rewrite (run_update_view _ _ _ _ _ Hg), Hv1. }
    exists (g ∘ f0). split; [|intros r Hr' Hp; symmetry; apply (stepped_unmoved (spec_map specs) (states_of (view (w_db w') run1))); [|done]; apply Hstep; rewrite Hv1; by apply list_elem_of_fmap_2].
    split; [done|by eapply run_update_trans|done|done|..].
    + etrans; [exact Hl|]. rewrite Hr, Hfinal. destruct (forallb _ _); [|apply rtc_refl].
      apply rtc_once. unfold legal. simpl. set_solver.
    + intros r Hr'. destruct (Hmv r Hr') as [Hm Hp]. eapply moves_stepped; [exact Hm|exact Hp|].
      apply Hstep. rewrite Hv1. by apply list_elem_of_fmap_2.
    + intros specs' Hst' Hri'. rewrite (stored_specs_unique _ _ _ _ Hst' Hst) in *.
      destruct (Hrows specs Hst Hri) as [Hrows' Hdead'].
      rewrite Hfinal, (view_same_run _ run1 run') by done. rewrite Hv2 in *.
      apply advanced_inv; try done.
      * by apply stored_graph in Hst.
      * rewrite <- Hv1. by eapply stored_keys.
      * rewrite <- Hv1. intros r Hr'. apply (upd_same _ _ _ _ Hg). by apply view_In in Hr' as [? _].
      * intros r Hr'. apply Hstep. by rewrite Hv1.
  - assert (Hidle : run' = run1 ∧ w' = w1).
    { pattern run', w'. eapply ran_runs; [|exact H]. by apply (runs_advance_idle _ specs). }
    destruct Hidle as [-> ->]. destruct Hstate as [?|Hpaused]; [done|].
    exists f0. split; [|done]. split; [done..| |].
    + intros r Hr'. by apply Hmv.
    + intros specs' Hst' Hri'. rewrite Hv1, Hpaused. by apply Hrows.
Qed.

(** ** The fence *)

(** The step of the claim belongs to the run of the claim. *)
Definition issued (d : DB) (c : StepClaim) : Prop :=
  ∀ r, r ∈ db_step_runs d → sr_id r = sr_id (cl_step c) → sr_run_id r = wr_id (cl_run c).

Lemma ran_live_run org id w run w' :
  live_run org id w = (Ok run, w') →
  w' = w ∧ run ∈ db_runs (w_db w) ∧ wr_organization_id run = org ∧ wr_id run = id ∧
  (wr_state run = WorkflowRunState.RUNNING ∨ wr_state run = WorkflowRunState.PAUSED).
Proof.
  unfold live_run. intros H. ran H as found w1 Hf. apply ran_run_row in Hf as [-> Hfound].
  destruct found as [run0|]; [|done]. destruct (Hfound run0 eq_refl) as (? & ? & ?).
  case_bool_decide as Hs; [|done]. injection H as <- <-. split_and!; try done. set_solver.
Qed.

Lemma ran_claimed_row org c w row w' :
  claimed_row org c w = (Ok row, w') →
  w' = w ∧ row ∈ db_step_runs (w_db w) ∧ sr_organization_id row = org ∧
  sr_id row = sr_id (cl_step c) ∧ sr_state row = WorkflowStepState.RUNNING ∧
  sr_execution_owner_id row = Some (cl_owner_id c) ∧ sr_claim_token row = Some (cl_claim_token c).
Proof.
  unfold claimed_row. intros H. ran H as found w1 Hf. injection Hf as <- <-.
  destruct (List.find _ _) as [row0|] eqn:Hf; [|done].
  destruct (holds_claim c row0) eqn:Hh; [|done]. injection H as <- <-.
  apply List.find_some in Hf as [Hin Hp]. unfold is_step, holds_claim in *.
  apply andb_true_iff in Hp as [?%N.eqb_eq ?%N.eqb_eq]. booleans.
  by rewrite list_elem_of_In.
Qed.

(** The row a fenced operation works on. *)
Record fenced (org : uuid) (c : StepClaim) (d : DB) (run : WorkflowRunRecord)
    (row : WorkflowStepRunRecord) : Prop := {
  fen_run : run ∈ db_runs d;
  fen_org : wr_organization_id run = org;
  fen_live : wr_state run = WorkflowRunState.RUNNING ∨ wr_state run = WorkflowRunState.PAUSED;
  fen_row : row ∈ view d run;
  fen_id : sr_id row = sr_id (cl_step c);
  fen_state : sr_state row = WorkflowStepState.RUNNING;
  fen_token : sr_claim_token row = Some (cl_claim_token c);
  fen_owner : sr_execution_owner_id row = Some (cl_owner_id c);
}.

Lemma ran_fence {A} org c (k : WorkflowRunRecord → WorkflowStepRunRecord → M A) w a w' :
  issued (w_db w) c →
  (run ← live_run org (wr_id (cl_run c)); row ← claimed_row org c; k run row) w = (Ok a, w') →
  ∃ run row, fenced org c (w_db w) run row ∧ k run row w = (Ok a, w').
Proof.
  intros Hiss H. ran H as run w1 Hr. apply ran_live_run in Hr as (-> & Hin & Horg & Hid & Hlive).
  ran H as row w2 Hrow. apply ran_claimed_row in Hrow as (-> & Hrow & Ho & Hsid & Hs & Hown & Htok).
  exists run, row. split; [|done]. split; try done.
  apply view_In. split_and!; [done|congruence|]. rewrite Hid. by apply Hiss.
Qed.

Lemma live_no_dead run specs rows :
  wr_state run = WorkflowRunState.RUNNING ∨ wr_state run = WorkflowRunState.PAUSED →
  run_inv (wr_state run) specs rows → no_dead rows.
Proof. intros [-> | ->] [_ Hst]; [by destruct Hst|done]. Qed.

(** Settling a claimed row. *)
Lemma complete_row_inv specs st row row' :
  sr_state row = WorkflowStepState.RUNNING → sr_state row' = WorkflowStepState.COMPLETED →
  same_step row row' → sr_attempt_count row' = sr_attempt_count row →
  row_inv specs st row → row_inv specs st row'.
Proof.
  intros Hr Hc Hs Ha [Hg Hat Hw Hcl He]. unfold same_step, step_identity in Hs.
  injection Hs as ? ? ? ? Hk ? Hm ? Hel. split.
  - intros _. rewrite <- Hk. apply Hg. rewrite Hr. unfold started. set_solver.
  - by rewrite Ha, <- Hm.
  - rewrite Hc. unfold waiting. set_solver.
  - by rewrite Hc.
  - congruence.
Qed.

(** The rows after the claimed row was written as [row'], COMPLETED. *)
Lemma complete_rows {n} org c d run row row' d1 :
  runs_inv d → fenced org c d run row → core d = core d1 →
  sr_state row' = WorkflowStepState.COMPLETED → same_step row row' →
  sr_attempt_count row' = sr_attempt_count row → sr_claim_token row' = sr_claim_token row →
  let f := flush_rows [row'] in
  run_update d (set_db_step_runs (map f (db_step_runs d1)) d1) run f ∧
  replaces f (view d run) row row' ∧
  (∀ r, r ∈ view d run → row_moves n r (f r) ∧
     (sr_state (f r) = WorkflowStepState.PENDING → sr_state r = WorkflowStepState.PENDING)) ∧
  (∀ specs, run_stored d run specs → run_inv (wr_state run) specs (view d run) →
     rows_inv specs (map f (view d run)) ∧ no_dead (map f (view d run))).
Proof.
  intros HI Hfen Hc Hst Hs Ha Ht f. pose proof (fen_state _ _ _ _ _ Hfen) as Hrun.
  destruct (HI run) as (specs0 & Hst0 & _ & _); [by eapply fen_run|].
  destruct (run_flush_one d d1 run specs0 row row') as [Hu Hrep]; [done|done|apply Hfen|done|].
  fold f in Hu, Hrep. split_and!; [done|done| |].
  - intros r Hr. destruct Hrep as (_ & _ & Hf). destruct (Hf r Hr) as [[-> ->]|[_ ->]].
    + rewrite Hst. split; [|done]. split; rewrite ?Ha, ?Hst, ?Hrun; [|lia|by left|done].
      right. unfold legal. simpl. set_solver.
    + split; [reflexivity|done].
  - intros specs Hstored Hri. split.
    + eapply replaces_rows_inv; [by eapply stored_keys|done|by rewrite Hrun| |by apply Hri].
      intros st. by apply complete_row_inv.
    + eapply replaces_no_dead; [done| |eapply live_no_dead; [apply Hfen|done]].
      rewrite Hst. unfold dead. set_solver.
Qed.

Lemma ran_finish_step {n} org c output ref w run' w' :
  runs_inv (w_db w) → issued (w_db w) c → finish_step org c output ref w = (Ok run', w') →
  ∃ run row f, fenced org c (w_db w) run row ∧ run_change n (w_db w) (w_db w') run run' f ∧
    sr_state (f row) = WorkflowStepState.COMPLETED ∧ sr_output_payload (f row) = Some output.
Proof.
  intros HI Hiss H. apply ran_fence in H as (run & row & Hfen & H); [|done].
  ran H as now w1 Hc1. apply ran_utcnow in Hc1. set (row' := set_sr_updated_at _ _) in H.
  ran H as u w2 Hput. injection Hput as _ <-. ran H as u' w3 Hc3. apply ran_add_transition in Hc3.
  rewrite <- (fen_org _ _ _ _ _ Hfen) in H.
  destruct (complete_rows (n := n) org c (w_db w) run row row' (w_db w1)) as (Hu & Hrep & Hmv & Hrows);
    [done|done|apply Hc1|done..|].
  assert (Hrow : flush_rows [row'] row = row').
  { destruct Hrep as (Hin & _ & Hf). by destruct (Hf row Hin) as [[_ ?]|[? _]]. }
  eapply (advance_change (w_db w) run run (flush_rows [row'])) in H as (f & Hch & Hf);
    [|done|apply Hfen| |reflexivity|apply Hfen|apply rtc_refl|apply Hfen|done|done].
  - exists run, row, f. rewrite Hf; [|apply Hfen|by rewrite Hrow]. by rewrite Hrow.
  - eapply run_update_core; [exact Hu|]. apply Hc3.
Qed.

(** ** Parking waiting rows: SKIPPED or CANCELLED *)

Lemma ran_mapM {A B} (R : A → B → Prop) (g : A → M B) l w bs w' :
  (∀ a w b w', g a w = (Ok b, w') → same_core w w' ∧ R a b) →
  mapM_list g l w = (Ok bs, w') → same_core w w' ∧ Forall2 R l bs.
Proof.
  intros Hg. revert w bs w'. induction l as [|a l IH]; intros w bs w' H; simpl in H.
  - injection H as <- <-. by split.
  - ran H as b w1 H1. apply Hg in H1 as [Hc1 HR]. ran H as bs' w2 H2. apply IH in H2 as [Hc2 HF].
    injection H as <- <-. split; [by etrans|by constructor].
Qed.

Definition parked (t : WorkflowStepState) (r r' : WorkflowStepRunRecord) : Prop :=
  ∃ now, r' = set_sr_updated_at now (set_sr_state t r).

Lemma parked_same t r r' : parked t r r' → same_step r r'.
Proof. by intros (now & ->). Qed.

Lemma parked_row_inv t specs st r r' :
  t = WorkflowStepState.SKIPPED ∨ t = WorkflowStepState.CANCELLED →
  parked t r r' → row_inv specs st r → row_inv specs st r'.
Proof.
  intros Ht (now & ->) [Hg Ha Hw Hc He].
  split; simpl; [| |intros Hwt| |]; destruct Ht as [-> | ->]; try done;
    unfold started, waiting in *; set_solver.
Qed.

(** The rows [olds], all waiting, are parked in [t]. *)
Lemma park_rows {n} t d d1 run specs olds news :
  t = WorkflowStepState.SKIPPED ∨ t = WorkflowStepState.CANCELLED →
  run_stored d run specs → core d = core d1 → olds ⊆ view d run →
  (∀ r, r ∈ olds → waiting (sr_state r)) → Forall2 (parked t) olds news →
  let f := flush_rows news in
  run_update d (set_db_step_runs (map f (db_step_runs d1)) d1) run f ∧
  (∀ r, r ∈ view d run → (r ∈ olds ∧ parked t r (f r)) ∨ (r ∉ olds ∧ f r = r)) ∧
  (∀ r, r ∈ view d run → row_moves n r (f r)) ∧
  (rows_inv specs (view d run) → rows_inv specs (map f (view d run))).
Proof.
  intros Ht Hst Hc Hsub Hw HF f.
  destruct (run_flush (parked t) d d1 run specs olds news) as [Hu Hf]; [done..|apply parked_same|].
  fold f in Hu, Hf. split_and!; [done|done| |].
  - intros r Hr. destruct (Hf r Hr) as [[Ho (now & ->)]|[_ ->]]; [|reflexivity].
    split; simpl; [right|lia|by left|by destruct Ht as [-> | ->]]. apply Hw in Ho. unfold waiting, legal in *.
    destruct (sr_state r); destruct Ht as [-> | ->]; simpl; set_solver.
  - intros Hri. apply rows_inv_map; [by eapply stored_keys| | | |done].
    + intros r Hr. apply (upd_same _ _ _ _ Hu). by apply view_In in Hr as [? _].
    + intros r Hr Hset. destruct (Hf r Hr) as [[Ho _]|[_ ->]]; [|done].
      apply Hw in Ho. unfold waiting in Ho. apply states_settled_case in Hset as [E|E];
        rewrite E in Ho; set_solver.
    + intros r st Hr Hrow _. destruct (Hf r Hr) as [[_ Hp]|[_ ->]]; [|done].
      by eapply parked_row_inv.
Qed.

Lemma ran_skip_row org run r w r' w' :
  skip_row org run r w = (Ok r', w') → same_core w w' ∧ parked WorkflowStepState.SKIPPED r r'.
Proof.
  unfold skip_row. intros H. ran H as now w1 Hn. injection Hn as <- <-.
  ran H as u w2 Hc. apply ran_add_transition in Hc. injection H as <- <-. split; [done|by eexists].
Qed.

Lemma ran_cancel_row org run r w r' w' :
  cancel_row org run r w = (Ok r', w') → same_core w w' ∧ parked WorkflowStepState.CANCELLED r r'.
Proof.
  unfold cancel_row. intros H. ran H as now w1 Hn. apply ran_utcnow in Hn.
  ran H as u w2 Hc. apply ran_add_transition in Hc. injection H as <- <-. split; [by etrans|by eexists].
Qed.

Lemma filter_waiting_view (p : WorkflowStepRunRecord → bool) d run :
  (∀ r, p r = true → waiting (sr_state r)) →
  List.filter p (view d run) ⊆ view d run ∧
  (∀ r, r ∈ List.filter p (view d run) → waiting (sr_state r)).
Proof.
  intros Hp. split; intros r Hr; rewrite list_elem_of_In, List.filter_In in Hr; destruct Hr;
    [by apply list_elem_of_In|auto].
Qed.

Lemma skippable_waiting ks r : skippable ks r = true → waiting (sr_state r).
Proof. unfold skippable. intros. booleans. done. Qed.
Lemma cancellable_waiting r : cancellable r = true → waiting (sr_state r).
Proof. unfold cancellable. intros. booleans. done. Qed.

Lemma parked_no_dead (olds rows : list WorkflowStepRunRecord) f :
  (∀ r, r ∈ rows → (r ∈ olds ∧ parked WorkflowStepState.SKIPPED r (f r)) ∨ (r ∉ olds ∧ f r = r)) →
  no_dead rows → no_dead (map f rows).
Proof.
  intros Hf Hno r' (r & -> & Hr)%list_elem_of_fmap. destruct (Hf r Hr) as [[_ (now & ->)]|[_ ->]].
  - simpl. unfold dead. set_solver.
  - by apply Hno.
Qed.

Lemma moves_parked {n} (olds : list WorkflowStepRunRecord) r r1 r2 :
  row_moves n r r1 → (sr_state r1 = sr_state r ∨ ¬ waiting (sr_state r1)) →
  (∀ x, x ∈ olds → waiting (sr_state x)) → row_moves n r1 r2 →
  (r1 ∈ olds ∧ parked WorkflowStepState.SKIPPED r1 r2) ∨ (r1 ∉ olds ∧ r2 = r1) → row_moves n r r2.
Proof.
  intros [Hs Ha Ht Hc] Hor Hw [Hs2 Ha2 Ht2 Hc2] [[Ho (now & ->)]|[_ ->]]; [|by split].
  apply Hw in Ho. destruct Hor as [Heq|?]; [|done]. rewrite Heq in *. split; simpl in *.
  - destruct Hs2 as [E|?]; [rewrite <- E in Ho; unfold waiting in Ho; set_solver|by right].
  - lia.
  - destruct Ht as [?|[?|(E1 & E2 & _)]]; [by left|by right; left|congruence].
  - done.
Qed.

Lemma ran_finish_condition {n} org c output skipped w run' w' :
  runs_inv (w_db w) → issued (w_db w) c →
  finish_condition org c output skipped w = (Ok run', w') →
  ∃ run row f, fenced org c (w_db w) run row ∧ run_change n (w_db w) (w_db w') run run' f ∧
    sr_state (f row) = WorkflowStepState.COMPLETED ∧ sr_output_payload (f row) = Some output.
Proof.
  intros HI Hiss H. apply ran_fence in H as (run & row & Hfen & H); [|done].
  ran H as now w1 Hc1. apply ran_utcnow in Hc1. set (row' := set_sr_updated_at _ _) in H.
  ran H as u w2 Hput. injection Hput as _ <-. ran H as u' w3 Hc3. apply ran_add_transition in Hc3.
  rewrite <- (fen_org _ _ _ _ _ Hfen) in H.
  ran H as steps w3' Hsteps. injection Hsteps as <- <-. rewrite run_steps_view in H.
  ran H as news w4 Hskip.
  apply (ran_mapM (parked WorkflowStepState.SKIPPED)) in Hskip as [Hc4 HF];
    [|intros *; apply ran_skip_row].
  ran H as u'' w5 Hput. injection Hput as _ <-.
  destruct (complete_rows (n := n) org c (w_db w) run row row' (w_db w1)) as (Hu & Hrep & Hmv & Hrows);
    [done|done|apply Hc1|done..|].
  apply (run_update_core _ _ (w_db w3)) in Hu; [|apply Hc3].
  destruct (HI run) as (specs & Hst & _ & Hri); [by eapply fen_run|].
  pose proof (stored_update _ _ _ _ _ _ Hst Hu (reflexivity run)) as Hst3.
  destruct (filter_waiting_view (skippable skipped) (w_db w3) run (skippable_waiting skipped))
    as [Hsub Hwait].
  destruct (park_rows (n := n) WorkflowStepState.SKIPPED (w_db w3) (w_db w4) run specs
    (List.filter (skippable skipped) (view (w_db w3) run)) news) as
    (Hu4 & Hf4 & Hmv4 & Hrows4); [by left|done|apply Hc4|exact Hsub|exact Hwait|exact HF|].
  pose proof (run_update_view _ _ _ run _ Hu) as Hv3.
  assert (Hin3 : ∀ r, r ∈ view (w_db w) run → flush_rows [row'] r ∈ view (w_db w3) run).
  { intros r Hr. rewrite Hv3. by apply list_elem_of_fmap_2. }
  eapply (advance_change (w_db w) run run (flush_rows news ∘ flush_rows [row'])) in H as (f & Hch & Hf);
    [|done|apply Hfen| |reflexivity|apply Hfen|apply rtc_refl|apply Hfen| |].
  - assert (Hrow : (flush_rows news ∘ flush_rows [row']) row = row').
    { pose proof Hrep as (Hin & _ & Hr). destruct (Hr row Hin) as [[_ Hrow]|[? _]]; [|done].
      simpl. destruct (Hf4 _ (Hin3 row Hin)) as [[Ho _]|[_ ->]]; [|done].
      rewrite Hrow in Ho. apply Hwait in Ho. unfold waiting in Ho. simpl in Ho. set_solver. }
    exists run, row, f. rewrite Hf; [|apply Hfen|by rewrite Hrow]. by rewrite Hrow.
  - by eapply run_update_trans.
  - intros r Hr. destruct (Hmv r Hr) as [Hm Hp]. split.
    + eapply moves_parked; [exact Hm| |exact Hwait|by apply Hmv4, Hin3|by apply Hf4, Hin3].
      destruct Hrep as (_ & _ & Hrep). destruct (Hrep r Hr) as [[-> ->]|[_ ->]]; [right|by left].
      unfold waiting. simpl. set_solver.
    + simpl. destruct (Hf4 _ (Hin3 r Hr)) as [[_ (now' & ->)]|[_ ->]]; done.
  - intros specs' Hst' Hri'. rewrite (stored_specs_unique _ _ _ _ Hst' Hst) in *.
    destruct (Hrows specs Hst Hri) as [Hr1 Hd1]. rewrite <- Hv3 in Hr1, Hd1.
    assert (map (flush_rows news ∘ flush_rows [row']) (view (w_db w) run)
            = map (flush_rows news) (view (w_db w3) run)) as -> by (by rewrite Hv3, map_map).
    split; [by apply Hrows4|by eapply parked_no_dead].
Qed.

(** ** [fail_step] *)

(** A retryable failure within the policy puts the step back to READY without a
    claim; any other failure fails the step and its run. *)
Lemma retry_row_inv specs st row row' :
  sr_state row = WorkflowStepState.RUNNING → sr_state row' = WorkflowStepState.READY →
  same_step row row' → sr_attempt_count row' = sr_attempt_count row →
  sr_attempt_count row < sr_max_attempts row → row_inv specs st row → row_inv specs st row'.
Proof.
  intros Hr Hc Hs Ha Hlt [Hg Hat Hw Hcl He]. unfold same_step, step_identity in Hs.
  injection Hs as ? ? ? ? Hk ? Hm ? Hel. split.
  - intros _. rewrite <- Hk. apply Hg. rewrite Hr. unfold started. set_solver.
  - by rewrite Ha, <- Hm.
  - intros _. by rewrite Ha, <- Hm.
  - by rewrite Hc.
  - congruence.
Qed.

Lemma failed_row_inv specs st row row' :
  sr_state row = WorkflowStepState.RUNNING → sr_state row' = WorkflowStepState.FAILED →
  same_step row row' → sr_attempt_count row' = sr_attempt_count row →
  row_inv specs st row → row_inv specs st row'.
Proof.
  intros Hr Hc Hs Ha [Hg Hat Hw Hcl He]. unfold same_step, step_identity in Hs.
  injection Hs as ? ? ? ? Hk ? Hm ? Hel. split.
  - intros _. rewrite <- Hk. apply Hg. rewrite Hr. unfold started. set_solver.
  - by rewrite Ha, <- Hm.
  - rewrite Hc. unfold waiting. set_solver.
  - by rewrite Hc.
  - congruence.
Qed.

Lemma ran_fail_step {n} org c err retryable w run' w' :
  runs_inv (w_db w) → issued (w_db w) c → fail_step org c err retryable w = (Ok run', w') →
  ∃ run row f, fenced org c (w_db w) run row ∧ run_change n (w_db w) (w_db w') run run' f ∧
    if retryable && (sr_attempt_count row <? sr_max_attempts row) then
      wr_state run' = wr_state run ∧ sr_state (f row) = WorkflowStepState.READY ∧
      sr_claim_token (f row) = None
    else wr_state run' = WorkflowRunState.FAILED ∧ sr_state (f row) = WorkflowStepState.FAILED.
Proof.
  intros HI Hiss H. apply ran_fence in H as (run & row & Hfen & H); [|done].
  pose proof (fen_state _ _ _ _ _ Hfen) as Hrow.
  destruct (retryable && (sr_attempt_count row <? sr_max_attempts row)) eqn:Hretry.
  - pose proof Hretry as [_ Hlt%Z.ltb_lt]%andb_true_iff.
    ran H as now w1 Hc1. apply ran_utcnow in Hc1. set (row' := set_sr_updated_at _ _) in H.
    ran H as u w2 Hput. injection Hput as _ <-. ran H as u' w3 Hc3.
    apply ran_add_transition in Hc3. injection H as <- <-.
    destruct (replaces_change (n := n) (w_db w) (w_db w1) run row row') as [Hch Hrep];
      [done|apply Hfen|apply Hc1|apply Hfen|done|apply Hfen|by rewrite Hrow|done|by intros ?| | | |].
    + simpl. unfold dead. set_solver.
    + split; simpl; rewrite ?Hrow; [right; unfold legal; simpl; set_solver|lia|auto|done].
    + intros specs st. by apply retry_row_inv.
    + exists run, row, (flush_rows [row']). rewrite Hretry.
      assert (Hf : flush_rows [row'] row = row').
      { destruct Hrep as (Hin & _ & Hf). by destruct (Hf row Hin) as [[_ ?]|[? _]]. }
      rewrite Hf. split_and!; [done| |done..].
      destruct Hch as [H1 H2 H3 H3' H4 H5 H6]. split; try done.
      * eapply run_update_core; [exact H2|]. apply Hc3.
      * intros specs Hst Hri. destruct Hc3 as [Hc3 _]. rewrite <- (view_core _ _ _ Hc3). by apply H6.
  - ran H as now w1 Hc1. apply ran_utcnow in Hc1. set (row' := set_sr_updated_at _ _) in H.
    ran H as u w2 Hput. injection Hput as _ <-. ran H as u' w3 Hc3. apply ran_add_transition in Hc3.
    apply ran_transition_row in H as (Hl & Hs & Hst' & _ & _ & Hu').
    destruct (HI run) as (specs0 & Hst0 & _ & _); [by eapply fen_run|].
    destruct (run_flush_one (w_db w) (w_db w1) run specs0 row row') as [Hu Hrep];
      [done|apply Hc1|apply Hfen|done|].
    apply (run_update_core _ _ (w_db w3)) in Hu; [|apply Hc3].
    assert (Hu2 : run_update (w_db w) (w_db w') run' (flush_rows [row']))
      by exact (run_update_trans _ _ _ _ _ _ _ Hu Hu' Hs).
    exists run, row, (flush_rows [row']). rewrite Hretry.
    assert (Hfr : flush_rows [row'] row = row').
    { destruct Hrep as (Hin & _ & Hf). by destruct (Hf row Hin) as [[_ ?]|[? _]]. }
    rewrite Hfr. split_and!; [done| |done..].
    split; [apply Hfen|exact Hu2|done|apply Hfen|by apply rtc_once; rewrite Hst'| |].
    + intros r Hr. destruct Hrep as (_ & _ & Hf). destruct (Hf r Hr) as [[-> ->]|[_ ->]]; [|reflexivity].
      split; simpl; rewrite ?Hrow; [right; unfold legal; simpl; set_solver|lia|by left|done].
    + intros specs Hst Hri. rewrite (view_same_run _ _ _ Hs), (run_update_view _ _ _ _ _ Hu2), Hst'.
      split.
      * eapply replaces_rows_inv; [by eapply stored_keys|done|by rewrite Hrow| |by apply Hri].
        intros st. by apply failed_row_inv.
      * destruct Hrep as (Hin & _ & Hf). exists (flush_rows [row'] row).
        split; [by apply list_elem_of_fmap_2|]. by destruct (Hf row Hin) as [[_ ->]|[? _]].
Qed.

(** ** Pause, resume, cancel *)

Lemma legal_from_PAUSED_target s : legal s WorkflowRunState.PAUSED → s = WorkflowRunState.RUNNING.
Proof. destruct s; unfold legal; simpl; set_solver. Qed.
Lemma legal_to_RUNNING s :
  legal s WorkflowRunState.RUNNING → s = WorkflowRunState.PENDING ∨ s = WorkflowRunState.PAUSED.
Proof. destruct s; unfold legal; simpl; set_solver. Qed.

(** Only a RUNNING or PAUSED run can make a transition: PENDING is never stored. *)
Lemma legal_live d run t :
  runs_inv d → run ∈ db_runs d → legal (wr_state run) t →
  wr_state run = WorkflowRunState.RUNNING ∨ wr_state run = WorkflowRunState.PAUSED.
Proof.
  intros HI Hin Hl. destruct (HI run Hin) as (specs & _ & _ & [_ Hstat]).
  destruct (wr_state run); auto; [done|..]; unfold legal in Hl; simpl in Hl;
    by apply not_elem_of_nil in Hl.
Qed.

(** The run row alone changes state. *)
Lemma row_only_change {n} d d' run run' :
  runs_inv d → run ∈ db_runs d → run_update d d' run' (λ r, r) → same_run run run' →
  legal (wr_state run) (wr_state run') →
  (∀ specs rows, status_inv (wr_state run) specs rows → status_inv (wr_state run') specs rows) →
  run_change n d d' run run' (λ r, r).
Proof.
  intros HI Hin Hu Hs Hl Hst.
  split; [done..|by eapply legal_live|by apply rtc_once|intros r _; reflexivity|].
  intros specs Hstored [Hrows Hstatus].
  rewrite (view_same_run _ _ _ Hs), (run_update_view _ _ _ _ _ Hu), map_id. split; auto.
Qed.

Lemma cancel_change {n} d d1 d2 run run1 olds news :
  runs_inv d → run ∈ db_runs d → run_update d d1 run1 (λ r, r) → same_run run run1 →
  legal (wr_state run) WorkflowRunState.CANCELLED → wr_state run1 = WorkflowRunState.CANCELLED →
  core d1 = core d2 → olds = List.filter cancellable (view d1 run1) →
  Forall2 (parked WorkflowStepState.CANCELLED) olds news →
  run_change n d (set_db_step_runs (map (flush_rows news) (db_step_runs d2)) d2) run run1
    (flush_rows news).
Proof.
  intros HI Hin Hu Hs Hl Hst1 Hc -> HF.
  destruct (HI run Hin) as (specs & Hst & _ & Hri).
  pose proof (stored_update _ _ _ _ _ _ Hst Hu Hs) as Hstd1.
  destruct (filter_waiting_view cancellable d1 run1 cancellable_waiting) as [Hsub Hwait].
  destruct (park_rows (n := n) WorkflowStepState.CANCELLED d1 d2 run1 specs
    (List.filter cancellable (view d1 run1)) news) as (Hu2 & Hf & Hmv & Hrows);
    [by right|done..|].
  assert (Hv : view d1 run1 = view d run).
  { by rewrite (view_same_run _ _ _ Hs), (run_update_view _ _ _ _ _ Hu), map_id. }
  assert (Hu3 : run_update d (set_db_step_runs (map (flush_rows news) (db_step_runs d2)) d2) run1
    (flush_rows news)) by exact (run_update_trans _ _ _ _ _ _ _ Hu Hu2 (reflexivity run1)).
  split; [done|exact Hu3|done|by eapply legal_live|by apply rtc_once; rewrite Hst1|rewrite <- Hv; done|].
  intros specs' Hst' Hri'. rewrite (stored_specs_unique _ _ _ _ Hst' Hst) in *.
  rewrite (run_update_view _ _ _ _ _ Hu2), Hst1. split.
  - apply Hrows. rewrite Hv. apply Hri.
  - intros r' (r & -> & Hr)%list_elem_of_fmap.
    destruct (Hf r Hr) as [[_ (now & ->)]|[Hno ->]]; [simpl; unfold waiting; set_solver|].
    contradict Hno. apply list_elem_of_In, List.filter_In. split; [by apply list_elem_of_In|].
    by apply bool_decide_eq_true.
Qed.

Lemma ran_transition_run {n} org id target reason w res w' :
  runs_inv (w_db w) →
  target = WorkflowRunState.PAUSED ∨ target = WorkflowRunState.RUNNING ∨
    target = WorkflowRunState.CANCELLED →
  transition_run org id target reason w = (Ok (Some res), w') →
  ∃ run f, wr_organization_id run = org ∧ wr_id run = id ∧
    run_change n (w_db w) (w_db w') run res f.
Proof.
  intros HI Ht H. unfold transition_run in H. ran H as found w0 Hf.
  apply ran_run_row in Hf as [-> Hfound]. destruct found as [run|]; [|done].
  destruct (Hfound run eq_refl) as (Hin & Horg & Hid).
  ran H as run1 w1 H1. apply ran_transition_row in H1 as (Hl & Hs & Hst & _ & _ & Hu).
  exists run. pose proof (same_run_org _ _ Hs) as Horg1.
  destruct Ht as [->|[->| ->]]; simpl in H.
  - injection H as <- <-. exists (λ r, r). split_and!; [done..|].
    apply row_only_change; [done..|by rewrite Hst|].
    intros specs rows. rewrite Hst, (legal_from_PAUSED_target _ Hl). simpl. by intros [? _].
  - ran H as run2 w2 Hadv. injection H as <- <-.
    replace org with (wr_organization_id run1) in Hadv by congruence.
    assert (Hpaused : wr_state run = WorkflowRunState.PAUSED).
    { destruct (legal_to_RUNNING _ Hl) as [Hp|]; [|done].
      destruct (HI run Hin) as (specs & _ & _ & [_ Hstat]). by rewrite Hp in Hstat. }
    eapply (advance_change (w_db w) run run1 (λ r, r)) in Hadv as (f & Hch & _);
      [by exists f|done|done|done|done|by right|by apply rtc_once; rewrite Hst|by left| |].
    + intros r Hr. split; [reflexivity|done].
    + intros specs _ [Hrows Hstat]. rewrite map_id. rewrite Hpaused in Hstat. done.
  - ran H as steps w1' Hsteps. injection Hsteps as <- <-.
    replace org with (wr_organization_id run1) in H by congruence. rewrite run_steps_view in H.
    ran H as news w2 Hm. apply (ran_mapM (parked WorkflowStepState.CANCELLED)) in Hm as [Hc HF];
      [|intros *; apply ran_cancel_row].
    ran H as u w3 Hput. injection Hput as _ <-. injection H as <- <-.
    exists (flush_rows news). split_and!; [done..|].
    by eapply cancel_change; [done|done|done|done|done|done|apply Hc|done|].
Qed.
