(* ===== verification/WorkflowStart.v ===== *)
(** * WorkflowStart: starting runs and publishing versions

    The invariant of the workflow tables ([tables_inv]) and its preservation by the
    operations that add rows: [start_run], [create_definition], [update_definition]
    and [publish]. *)

From S2P Require Import Prelude.
From S2P Require Import Errors.
From S2P Require Import Lifecycles.
From S2P Require Import Conditions.
From S2P Require Import WorkflowGraph.
From S2P Require Import ScheduleSpec.
From S2P Require Import Store.
From S2P Require Import Tables.
From S2P Require Import StoreLemmas.
From S2P Require Import WorkflowRepository.
From S2P Require Import AdvanceLemmas.
From S2P Require Import RunUpdate.
From S2P Require Import RunInvariant.
From S2P Require Import WorkflowOps.

(** ** The invariant of the tables *)

(** What a published version, and a stored draft, guarantees of its steps. *)
Definition specs_ok (specs : list WorkflowStepSpec) : Prop :=
  graph_ok specs ∧ acyclic specs ∧ Forall (λ s, spec_valid s = true) specs.

Record tables_inv (d : DB) (n : uuid) : Prop := {
  ti_run_ids : NoDup (map wr_id (db_runs d));
  ti_step_ids : NoDup (map sr_id (db_step_runs d));
  ti_vstep_ids : NoDup (map vs_id (db_version_steps d));
  ti_run_fresh : ∀ r, r ∈ db_runs d → (wr_id r < n)%N;
  ti_step_fresh : ∀ r, r ∈ db_step_runs d → (sr_id r < n ∧ sr_run_id r < n)%N;
  ti_version_fresh : ∀ v, v ∈ db_versions d → (wv_id v < n)%N;
  ti_vstep_fresh : ∀ v, v ∈ db_version_steps d → (vs_id v < n ∧ vs_version_id v < n)%N;
  ti_versions : ∀ v, v ∈ db_versions d → specs_ok (version_specs (wv_organization_id v) (wv_id v) d);
  ti_drafts : ∀ r, r ∈ db_definitions d → specs_ok (wd_draft_steps r);
  ti_keys : ∀ r r' k, r ∈ db_runs d → r' ∈ db_runs d →
    wr_organization_id r = wr_organization_id r' → wr_version_id r = wr_version_id r' →
    wr_idempotency_key r = Some k → wr_idempotency_key r' = Some k → r = r';
  ti_runs : runs_inv d;
}.

Lemma tables_inv_mono d n n' : (n ≤ n')%N → tables_inv d n → tables_inv d n'.
Proof.
  intros Hn [H1 H2 H3 H4 H5 H6 H7 H8 H9 H10 H11]. split; try done.
  - intros r Hr. specialize (H4 r Hr). lia.
  - intros r Hr. specialize (H5 r Hr). lia.
  - intros r Hr. specialize (H6 r Hr). lia.
  - intros r Hr. specialize (H7 r Hr). lia.
Qed.

Lemma tables_inv_core d d' n : core d = core d' → tables_inv d n → tables_inv d' n.
Proof.
  intros Hc [H1 H2 H3 H4 H5 H6 H7 H8 H9 H10 H11]. unfold core in Hc.
  injection Hc as Hc1 Hc2 Hc3 Hc4 Hc5. split; rewrite <- ?Hc1, <- ?Hc2, <- ?Hc3, <- ?Hc4, <- ?Hc5; try done.
  - intros v Hv. unfold version_specs. rewrite <- Hc3. by apply H8.
  - intros run Hrun. rewrite <- Hc4 in Hrun. destruct (H11 run Hrun) as (specs & Hst & Hac & Hri).
    exists specs. split_and!; [|done|].
    + eapply stored_core; [done|]. unfold core. congruence.
    + by rewrite <- (view_core d) by (unfold core; congruence).
Qed.

Lemma tables_inv_same w w' :
  same_core w w' → tables_inv (w_db w) (w_next_uuid w) → tables_inv (w_db w') (w_next_uuid w').
Proof. intros [Hc Hn] HT. eapply tables_inv_mono, tables_inv_core, HT; done. Qed.

(** A change of one run keeps the tables. *)
Lemma change_tables_inv {m} d d' n run run' f :
  tables_inv d n → run_change m d d' run run' f → tables_inv d' n.
Proof.
  intros HT Hch. pose proof HT as [H1 H2 H3 H4 H5 H6 H7 H8 H9 H10 H11].
  pose proof (change_runs_inv _ _ _ _ _ Hch H11) as H11'.
  destruct (H11 run) as (specs & Hst & _); [by eapply chg_in|].
  pose proof (chg_update _ _ _ _ _ _ Hch) as Hu. pose proof (chg_same _ _ _ _ _ _ Hch) as Hs.
  pose proof (stored_update _ _ _ _ _ _ Hst Hu Hs) as [_ Hids Hsids _ _ _].
  assert (Hruns : ∀ r, r ∈ db_runs d' → ∃ r0, r0 ∈ db_runs d ∧ same_run r0 r).
  { intros r [->|[Hr _]]%(run_update_runs _ _ _ _ _ Hu); [exists run; split; [by eapply chg_in|done]|].
    exists r. split; [done|reflexivity]. }
  split; try done; rewrite ?(upd_version_steps _ _ _ _ Hu), ?(upd_versions _ _ _ _ Hu),
    ?(upd_definitions _ _ _ _ Hu); try done.
  - intros r (r0 & Hr0 & Hs0)%Hruns. rewrite (same_run_id _ _ Hs0). auto.
  - rewrite (upd_steps _ _ _ _ Hu). intros r (r0 & -> & Hr0)%list_elem_of_fmap.
    pose proof (upd_same _ _ _ _ Hu r0 Hr0) as Hs0. unfold same_step, step_identity in Hs0.
    injection Hs0 as <- _ <- _ _ _ _ _ _. auto.
  - intros v Hv. unfold version_specs. rewrite (upd_version_steps _ _ _ _ Hu). by apply H8.
  - intros r r' k Hr Hr' Ho Hv Hk Hk'. apply (NoDup_map_inj wr_id (db_runs d')); [done..|].
    apply Hruns in Hr as (r0 & Hr0 & Hs0), Hr' as (r0' & Hr0' & Hs0').
    rewrite (same_run_id _ _ Hs0), (same_run_id _ _ Hs0'). f_equal.
    unfold same_run, run_identity in Hs0, Hs0'. injection Hs0 as ? ? ? ? ? ? ? ?.
    injection Hs0' as ? ? ? ? ? ? ? ?. apply (H10 _ _ k); congruence.
Qed.

(** ** New step rows *)

(** The initial row of a step. *)
Record start_row (d : DB) (run : WorkflowRunRecord) (r : WorkflowStepRunRecord)
    (sp : WorkflowStepSpec) : Prop := {
  st_org : sr_organization_id r = wr_organization_id run;
  st_run : sr_run_id r = wr_id run;
  st_key : sr_step_key r = key sp;
  st_max : sr_max_attempts r = max_attempts (retry sp);
  st_count : sr_attempt_count r = 0;
  st_eligible : sr_next_eligible_at r = None;
  st_state : sr_state r = if is_nil (depends_on sp) then WorkflowStepState.READY
                          else WorkflowStepState.PENDING;
  st_version_step : ∃ v, v ∈ db_version_steps d ∧ vs_id v = sr_version_step_id r ∧
    vs_organization_id v = wr_organization_id run ∧ vs_version_id v = wr_version_id run ∧
    vs_step_key v = key sp;
}.

Lemma ran_start_step org run sp w u w' :
  wr_organization_id run = org → start_step org run sp w = (Ok u, w') →
  ∃ r, start_row (w_db w) run r sp ∧ sr_id r = w_next_uuid w ∧ (w_next_uuid w < w_next_uuid w')%N ∧
    core (set_db_step_runs (db_step_runs (w_db w) ++ [r]) (w_db w)) = core (w_db w').
Proof.
  intros <- H. unfold start_step in H. ran H as id w1 Hid. injection Hid as <- <-.
  ran H as vid w2 Hv. unfold version_step_id in Hv. ran Hv as d w3 Hd. injection Hd as <- <-.
  destruct (List.find _ _) as [v|] eqn:Hf; [|done]. injection Hv as <- <-.
  apply List.find_some in Hf as [Hin Hp]. apply andb_true_iff in Hp as [Hp Hk%String.eqb_eq].
  apply andb_true_iff in Hp as [Ho%N.eqb_eq Hvv%N.eqb_eq].
  ran H as now w4 Hn. injection Hn as <- <-. ran H as u1 w5 Hm. injection Hm as _ <-.
  apply ran_add_transition in H as [Hc Hn].
  match type of Hc with context [_ ++ [?r]] => exists r end. split_and!; [|done| |].
  - split; try done. exists v. by rewrite list_elem_of_In.
  - simpl in Hn. lia.
  - rewrite <- Hc. done.
Qed.

Lemma start_row_core d d' run r sp :
  db_version_steps d = db_version_steps d' → start_row d run r sp → start_row d' run r sp.
Proof. intros Hv [H1 H2 H3 H4 H5 H5' H6 (v & Hin & H7)]. split; try done. exists v. by rewrite <- Hv. Qed.

Lemma ran_start_steps org run specs : ∀ w u w',
  wr_organization_id run = org → forM_ (start_step org run) specs w = (Ok u, w') →
  ∃ rows, Forall2 (start_row (w_db w) run) rows specs ∧ NoDup (map sr_id rows) ∧
    (∀ r, r ∈ rows → (w_next_uuid w ≤ sr_id r < w_next_uuid w')%N) ∧
    (w_next_uuid w ≤ w_next_uuid w')%N ∧
    core (set_db_step_runs (db_step_runs (w_db w) ++ rows) (w_db w)) = core (w_db w').
Proof.
  induction specs as [|sp specs IH]; intros w u w' Horg H; simpl in H.
  - injection H as _ <-. exists []. rewrite app_nil_r.
    split_and!; [done|constructor|by intros r ?%not_elem_of_nil|lia|done].
  - ran H as u1 w1 H1. apply ran_start_step in H1 as (r & Hr & Hid & Hlt & Hc1); [|done].
    apply IH in H as (rows & HF & Hnd & Hfresh & Hle & Hc2); [|done].
    unfold core in Hc1, Hc2. simpl in Hc1, Hc2. injection Hc1 as E1 E2 E3 E4 E5.
    exists (r :: rows). split_and!.
    + constructor; [done|]. eapply Forall2_impl; [exact HF|]. intros ? ?. by apply start_row_core.
    + apply NoDup_cons. split; [|done]. intros (r' & Heq & Hr'%Hfresh)%list_elem_of_fmap. lia.
    + intros r' [->|Hr'%Hfresh]%elem_of_cons; lia.
    + lia.
    + unfold core. simpl. rewrite <- Hc2, <- E5, <- app_assoc. simpl. congruence.
Qed.

(** The specification of a new row is the one of its version step. *)
Lemma start_row_spec d n run specs r sp :
  tables_inv d n → specs ≡ₚ version_specs (wr_organization_id run) (wr_version_id run) d →
  graph_ok specs → sp ∈ specs → start_row d run r sp → row_spec d r sp.
Proof.
  intros HT Hspecs Hg Hsp [H1 H2 H3 H4 H5 H5' H6 (v & Hin & Hid & Ho & Hv & Hk)].
  split_and!; [done|done|].
  assert (Hfind : find_version_step (sr_organization_id r) (sr_version_step_id r) d = Some v).
  { unfold find_version_step. destruct (List.find _ _) as [v'|] eqn:Hf.
    - apply List.find_some in Hf as [Hin'%list_elem_of_In Hp].
      apply andb_true_iff in Hp as [_ Hid'%N.eqb_eq]. f_equal.
      apply (NoDup_map_inj vs_id (db_version_steps d)); [apply HT|done|done|congruence].
    - apply (List.find_none _ _) with (x := v) in Hf; [|by apply list_elem_of_In].
      by rewrite Ho, H1, Hid, !N.eqb_refl in Hf. }
  rewrite Hfind. simpl. f_equal. apply (key_inj specs); [by apply graph_keys| |done|done].
  rewrite Hspecs. unfold version_specs. apply list_elem_of_fmap. exists v. split; [done|].
  rewrite merge_sort_Permutation. apply list_elem_of_In, List.filter_In.
  split; [by apply list_elem_of_In|]. by rewrite Ho, Hv, !N.eqb_refl.
Qed.

(** The steps of a new run satisfy the invariant of a RUNNING run. *)
Lemma start_run_inv d run rows specs :
  graph_ok specs → Forall (λ s, spec_valid s = true) specs →
  Forall2 (start_row d run) rows specs → run_inv WorkflowRunState.RUNNING specs rows.
Proof.
  intros Hg Hvalid HF.
  assert (Hkeys : keys rows = map key specs).
  { clear Hg Hvalid. induction HF as [|r sp rows specs Hr _ IH]; simpl; [done|].
    by rewrite IH, (st_key _ _ _ _ Hr). }
  assert (Hnd : NoDup (keys rows)) by (rewrite Hkeys; by apply graph_keys).
  assert (Hrow : ∀ r, r ∈ rows → ∃ sp, sp ∈ specs ∧ start_row d run r sp).
  { intros r Hr. by destruct (Forall2_in_l _ _ _ _ HF Hr) as (sp & ? & ?); eauto. }
  assert (Hunsettled : ∀ r, r ∈ rows → settled (sr_state r) = false ∧ ¬ dead (sr_state r)).
  { intros r Hr. destruct (Hrow r Hr) as (sp & _ & Hst). rewrite (st_state _ _ _ _ Hst).
    unfold dead. destruct (is_nil _); split; try done; set_solver. }
  split; [|split_and!].
  - intros r Hr. destruct (Hrow r Hr) as (sp & Hsp & Hst). rewrite Forall_forall in Hvalid.
    assert (1 ≤ max_attempts (retry sp)).
    { specialize (Hvalid sp Hsp). unfold spec_valid, retry_valid in Hvalid. booleans. lia. }
    pose proof (st_state _ _ _ _ Hst) as Hs. pose proof (st_max _ _ _ _ Hst) as Hm.
    pose proof (st_count _ _ _ _ Hst) as Hc. split; [|lia|lia| |by eapply st_eligible].
    + intros Hstd. exists sp. split_and!; [done|by rewrite (st_key _ _ _ _ Hst)|].
      rewrite Hs in Hstd. destruct (depends_on sp) eqn:Hd; simpl in Hstd.
      * exists []. split; [|done]. apply dependency_states_Ok. rewrite Hd. constructor.
      * unfold started in Hstd. set_solver.
    + rewrite Hs. by destruct (is_nil _).
  - intros r Hr. by apply Hunsettled.
  - apply forallb_false. destruct rows as [|r rows].
    + apply Forall2_nil_inv_l in HF. by apply graph_nonempty in Hg.
    + exists r. split; [by constructor|]. apply Hunsettled. by constructor.
  - apply Forall_forall. intros r Hr Hp. destruct (Hrow r Hr) as (sp & Hsp & Hst).
    exists sp. split; [apply spec_map_lookup; [by apply graph_keys|]; split; [done|by rewrite (st_key _ _ _ _ Hst)]|].
    destruct (dependency_states_total (states_of rows) sp) as (ss & Hss).
    { intros k Hk. apply states_of_is_Some; [done|]. rewrite Hkeys. by eapply graph_deps. }
    exists ss. split; [done|]. apply resolve_None.
    rewrite (st_state _ _ _ _ Hst) in Hp. apply dependency_states_Ok in Hss.
    destruct (depends_on sp) as [|k ks] eqn:Hd; [done|].
    apply Forall2_cons_inv_l in Hss as (s & ss' & Hs & _ & ->). exists s. split; [by constructor|].
    apply states_of_lookup in Hs as (r' & Hr' & _ & <-); [|done]. by apply Hunsettled.
Qed.

(** ** [start_run] *)

(** A new run and its step rows. *)
Record run_added (d d' : DB) (n n' : uuid) (v : WorkflowVersion) (run : WorkflowRunRecord)
    (rows : list WorkflowStepRunRecord) : Prop := {
  add_tables : core (set_db_step_runs (db_step_runs d ++ rows) (set_db_runs (db_runs d ++ [run]) d))
               = core d';
  add_id : (n ≤ wr_id run < n')%N;
  add_state : wr_state run = WorkflowRunState.RUNNING;
  add_version : wr_version_id run = ver_id v;
  add_rows : Forall2 (start_row d run) rows (ver_steps v);
  add_nodup : NoDup (map sr_id rows);
  add_fresh : ∀ r, r ∈ rows → (wr_id run < sr_id r < n')%N;
  add_unique : violates_idempotency run d = false;
}.

Lemma update_where_snoc {A} (p : A → bool) (a b : A) l :
  (∀ x, x ∈ l → p x = false) → p a = true → update_where p (λ _, b) (l ++ [a]) = l ++ [b].
Proof.
  intros Hl Ha. unfold update_where. rewrite map_app. simpl. rewrite Ha. f_equal.
  apply map_id_on. intros x Hx. by rewrite Hl.
Qed.

Lemma violates_same_run run run' d :
  same_run run run' → violates_idempotency run' d = violates_idempotency run d.
Proof.
  unfold same_run, run_identity, violates_idempotency. intros Hs.
  injection Hs as _ E1 _ E2 _ E3 _ _. by rewrite <- E1, <- E2, <- E3.
Qed.

Lemma ran_start_run org v input idem fp corr w run created w' :
  (∀ r, r ∈ db_runs (w_db w) → (wr_id r < w_next_uuid w)%N) →
  WorkflowRepository.start_run org v input idem fp corr w = (Ok (run, created), w') →
  wr_organization_id run = org ∧ wr_version_id run = ver_id v ∧
  if (created : bool) then
    wr_idempotency_key run = idem ∧ wr_request_fingerprint run = fp ∧ wr_input_payload run = input ∧
    ∃ rows, run_added (w_db w) (w_db w') (w_next_uuid w) (w_next_uuid w') v run rows
  else
    w' = w ∧ run ∈ db_runs (w_db w) ∧
    ∃ k, idem = Some k ∧ k ≠ EmptyString ∧ wr_idempotency_key run = Some k.
Proof.
  intros Hfresh H. unfold WorkflowRepository.start_run in H. ran H as existing w0 Hex.
  assert (Hex' : w0 = w ∧ ∀ r, existing = Some r → r ∈ db_runs (w_db w) ∧
    wr_organization_id r = org ∧ wr_version_id r = ver_id v ∧
    ∃ k, idem = Some k ∧ k ≠ EmptyString ∧ wr_idempotency_key r = Some k).
  { destruct idem as [[|ch k]|]; [by injection Hex as <- <-| |by injection Hex as <- <-].
    injection Hex as <- <-. split; [done|]. intros r [Hin Hp]%List.find_some.
    unfold by_idempotency in Hp. apply andb_true_iff in Hp as [Hp Hk%bool_decide_eq_true].
    apply andb_true_iff in Hp as [?%N.eqb_eq ?%N.eqb_eq].
    rewrite list_elem_of_In. eauto 10. }
  destruct Hex' as [-> Hfound]. destruct existing as [r|].
  - injection H as <- <- <-. destruct (Hfound r eq_refl) as (? & ? & ? & ?). done.
  - ran H as id w1 Hid. injection Hid as <- <-. ran H as now w2 Hnow. injection Hnow as <- <-.
    set (run0 := mkRun _ _ _ _ _ _ _ _ _ _ _ _ _ _ _ _ _) in H.
    ran H as u w3 Hins. unfold insert_run in Hins. ran Hins as d0 w4 Hd. injection Hd as <- <-.
    destruct (violates_idempotency run0 _) eqn:Hviol; [done|]. injection Hins as _ <-.
    ran H as run1 w5 Htr. apply ran_transition_row in Htr as Htr'.
    destruct Htr' as (_ & Hs & Hst & _ & _ & Hu).
    ran H as u2 w6 Hsteps. injection H as <- <- <-.
    pose proof (same_run_org _ _ Hs) as Horg. pose proof (same_run_id _ _ Hs) as Hid. simpl in Horg, Hid.
    apply ran_start_steps in Hsteps as (rows & HF & Hnd & Hrf & Hle & Hc); [|done].
    assert (Hn5 : (w_next_uuid w < w_next_uuid w5)%N).
    { assert (Monotone (transition_row org run0 WorkflowRunState.RUNNING "WORKFLOW_STARTED")) as Hm.
      { unfold transition_row, put_run, add_transition. monotonicity. }
      apply (ran_monotone _) in Htr. simpl in Htr. lia. }
    pose proof Hs as Hsame. unfold same_run, run_identity in Hs. injection Hs as _ _ _ E4 E5 E6 E7 _.
    split_and!; [done|done|done|done|done|].
    exists rows. split; [|lia|done|done| |done| |].
    + rewrite <- Hc. unfold core. simpl.
      rewrite (upd_definitions _ _ _ _ Hu), (upd_versions _ _ _ _ Hu), (upd_version_steps _ _ _ _ Hu),
        (upd_runs _ _ _ _ Hu), (upd_steps _ _ _ _ Hu), map_id. simpl.
      rewrite (update_where_snoc _ run0 run1); [done| |].
      * intros x Hx%Hfresh. rewrite Hid. apply N.eqb_neq. lia.
      * rewrite Hid. apply N.eqb_refl.
    + eapply Forall2_impl; [exact HF|]. intros r sp. apply start_row_core.
      by rewrite (upd_version_steps _ _ _ _ Hu).
    + intros r Hr%Hrf. rewrite Hid. lia.
    + rewrite <- Hviol. by apply (violates_same_run run0 run1).
Qed.

Lemma added_view d d' n n' v run rows :
  (∀ r, r ∈ db_step_runs d → (sr_run_id r < n)%N) → run_added d d' n n' v run rows →
  view d' run = rows ∧ ∀ x, (wr_id x < n)%N → view d' x = view d x.
Proof.
  intros Hfresh [Hc Hid _ _ HF _ _ _]. unfold core in Hc. injection Hc as _ _ _ _ Hs.
  unfold view. rewrite <- Hs. simpl. split.
  - rewrite List.filter_app.
    assert (List.filter (of_run (wr_organization_id run) (wr_id run)) (db_step_runs d) = []) as ->.
    { apply filter_nil_not_elem_of. intros r Hr%Hfresh. unfold of_run. apply andb_false_iff. right.
      apply N.eqb_neq. lia. }
    simpl. apply filter_id. intros r Hr. destruct (Forall2_in_l _ _ _ _ HF Hr) as (sp & _ & Hst).
    unfold of_run. by rewrite (st_org _ _ _ _ Hst), (st_run _ _ _ _ Hst), !N.eqb_refl.
  - intros x Hx. rewrite List.filter_app.
    assert (List.filter (of_run (wr_organization_id x) (wr_id x)) rows = []) as ->; [|apply app_nil_r].
    apply filter_nil_not_elem_of. intros r Hr.
    destruct (Forall2_in_l _ _ _ _ HF Hr) as (sp & _ & Hst). unfold of_run.
    apply andb_false_iff. right. apply N.eqb_neq. rewrite (st_run _ _ _ _ Hst). lia.
Qed.

(** [v] is the content of a stored version of the tenant. *)
Definition observed (d : DB) (org : uuid) (v : WorkflowVersion) : Prop :=
  ∃ row, row ∈ db_versions d ∧ wv_organization_id row = org ∧ v = version_of_row d row.

Lemma violates_false run d :
  violates_idempotency run d = false → ∀ r k, r ∈ db_runs d →
  wr_organization_id r = wr_organization_id run → wr_version_id r = wr_version_id run →
  wr_idempotency_key r = Some k → wr_idempotency_key run ≠ Some k.
Proof.
  unfold violates_idempotency. intros Hv r k Hr Ho Hver Hk Hk'. rewrite Hk' in Hv.
  apply not_true_iff_false in Hv. apply Hv, existsb_exists. exists r.
  split; [by apply list_elem_of_In|]. unfold by_idempotency.
  by rewrite Ho, Hver, !N.eqb_refl, bool_decide_true.
Qed.

Lemma added_runs_inv d d' n n' v run rows :
  tables_inv d n → observed d (wr_organization_id run) v → run_added d d' n n' v run rows →
  runs_inv d'.
Proof.
  intros HT (vr & Hvr & Horg & ->) Hadd. pose proof Hadd as [Hc Hid Hst Hver HF Hnd Hfr Hu].
  destruct (ti_versions _ _ HT vr Hvr) as (Hg & Hac & Hvalid). rewrite Horg in *.
  simpl in Hver, HF. rewrite Horg in HF.
  destruct (added_view d d' n n' (version_of_row d vr) run rows) as [Hvnew Hvold];
    [intros r Hr; by apply (ti_step_fresh _ _ HT)|exact Hadd|].
  unfold core in Hc. injection Hc as E1 E2 E3 E4 E5. simpl in E4, E5.
  assert (Hids : NoDup (map wr_id (db_runs d'))).
  { rewrite <- E4. apply NoDup_map_app_intro; [apply HT|repeat constructor; by intros ?%not_elem_of_nil|].
    intros x y Hx%(ti_run_fresh _ _ HT) ->%list_elem_of_singleton. lia. }
  assert (Hsids : NoDup (map sr_id (db_step_runs d'))).
  { rewrite <- E5. apply NoDup_map_app_intro; [apply HT|done|].
    intros x y Hx%(ti_step_fresh _ _ HT) Hy%Hfr. lia. }
  assert (Hspec : ∀ r sp, row_spec d r sp → row_spec d' r sp).
  { intros r sp. by apply row_spec_same. }
  intros x Hx. rewrite <- E4, elem_of_app, list_elem_of_singleton in Hx. destruct Hx as [Hx| ->].
  - destruct (ti_runs _ _ HT x Hx) as (specs & Hstored & Hacx & Hri). exists specs.
    rewrite Hvold by (by apply (ti_run_fresh _ _ HT)).
    split_and!; [|done|done]. split; [|done|done| |apply Hstored|apply Hstored].
    + rewrite <- E4. apply elem_of_app. by left.
    + rewrite Hvold by (by apply (ti_run_fresh _ _ HT)).
      eapply Forall2_impl; [apply Hstored|]. auto.
  - exists (version_specs (wr_organization_id run) (wv_id vr) d). rewrite Hvnew, Hst.
    split_and!; [|done|by eapply start_run_inv]. split; [|done|done| |done|done].
    + rewrite <- E4. apply elem_of_app. right. by constructor.
    + rewrite Hvnew. clear -HF Hspec HT Hver Hg.
      assert (HF' : Forall2 (λ r sp, sp ∈ version_specs (wr_organization_id run) (wv_id vr) d ∧
        start_row d run r sp) rows (version_specs (wr_organization_id run) (wv_id vr) d)).
      { apply Forall2_flip. apply Forall2_flip in HF.
        eapply Forall2_impl_in_l; [exact HF|]. by intros sp r. }
      eapply Forall2_impl; [exact HF'|]. intros r sp [Hsp Hst]. apply Hspec.
      eapply start_row_spec; [exact HT| |exact Hg|done|done]. by rewrite Hver.
Qed.

Lemma added_tables_inv d d' n n' v run rows :
  tables_inv d n → observed d (wr_organization_id run) v → run_added d d' n n' v run rows →
  tables_inv d' n'.
Proof.
  intros HT Hobs Hadd. pose proof (added_runs_inv _ _ _ _ _ _ _ HT Hobs Hadd) as Hruns.
  destruct (Hruns run) as (specs & [_ Hids Hsids _ _ _] & _).
  { pose proof (add_tables _ _ _ _ _ _ _ Hadd) as Hc. unfold core in Hc. injection Hc as _ _ _ <- _.
    apply elem_of_app. right. by constructor. }
  destruct Hadd as [Hc Hid Hst Hver HF Hnd Hfr Hu].
  pose proof HT as [H1 H2 H3 H4 H5 H6 H7 H8 H9 H10 H11].
  unfold core in Hc. injection Hc as E1 E2 E3 E4 E5. simpl in E4, E5.
  split; rewrite <- ?E1, <- ?E2, <- ?E3; try done.
  - intros r. rewrite <- E4, elem_of_app, list_elem_of_singleton.
    intros [Hr%H4| ->]; [lia|lia].
  - intros r. rewrite <- E5, elem_of_app. intros [Hr%H5|Hr]; [lia|].
    destruct (Forall2_in_l _ _ _ _ HF Hr) as (sp & _ & Hrow). rewrite (st_run _ _ _ _ Hrow).
    apply Hfr in Hr. lia.
  - intros v' Hv'%H6. lia.
  - intros v' Hv'%H7. lia.
  - intros v' Hv'. unfold version_specs. rewrite <- E3. by apply H8.
  - intros r r' k. rewrite <- E4, !elem_of_app, !list_elem_of_singleton.
    pose proof (violates_false run d Hu) as Hv.
    intros [Hr| ->] [Hr'| ->] Ho Hve Hk Hk'; [by eapply H10| | |done].
    + by destruct (Hv r k).
    + by destruct (Hv r' k).
Qed.

(** ** Definitions and versions *)

Lemma graph_ok_perm specs specs' : specs ≡ₚ specs' → graph_ok specs → graph_ok specs'.
Proof.
  intros Hp [H1 H2 H3 H4 H5]. split.
  - intros ->. by apply Permutation_nil_r in Hp.
  - by rewrite <- (Permutation_length Hp).
  - by rewrite <- Hp.
  - intros s dep Hs Hd. rewrite <- Hp in *. eauto.
  - intros s b Hs Hb. rewrite <- Hp in Hs. destruct (H5 s b Hs Hb) as (t & Ht & ? & ?).
    exists t. by rewrite <- Hp.
Qed.

Lemma specs_ok_perm specs specs' : specs ≡ₚ specs' → specs_ok specs → specs_ok specs'.
Proof.
  intros Hp (Hg & [rank Hr] & Hv). split_and!; [by eapply graph_ok_perm| |by rewrite <- Hp].
  exists rank. intros s dep Hs. rewrite <- Hp in Hs. by apply Hr.
Qed.

(** Versions are append-only: new version steps leave every run as it is. *)
Lemma runs_inv_frame d d' extra :
  db_runs d' = db_runs d → db_step_runs d' = db_step_runs d →
  db_version_steps d' = db_version_steps d ++ extra → runs_inv d → runs_inv d'.
Proof.
  intros Hr Hs Hv HI run Hrun. rewrite Hr in Hrun.
  destruct (HI run Hrun) as (specs & [H1 H2 H3 H4 H5 H6] & Hac & Hri). exists specs.
  assert (Hview : view d' run = view d run) by (unfold view; by rewrite Hs).
  rewrite Hview. split_and!; [|done|done]. split; rewrite ?Hr, ?Hs, ?Hview; try done.
  eapply Forall2_impl; [exact H4|]. intros r sp (Hk & Hm & Hf). split_and!; [done..|].
  unfold find_version_step in *. rewrite Hv, find_app. by destruct (List.find _ _).
Qed.

(** Writing a definition row with a valid draft. *)
Lemma put_definition_tables d n row :
  tables_inv d n → specs_ok (wd_draft_steps row) →
  tables_inv (set_db_definitions
    (update_where (λ r, N.eqb (wd_id r) (wd_id row)) (λ _, row) (db_definitions d)) d) n.
Proof.
  intros HT Hok. pose proof HT as [H1 H2 H3 H4 H5 H6 H7 H8 H9 H10 H11]. split; try done.
  - simpl. intros r (r0 & -> & Hr0)%list_elem_of_fmap. destruct (N.eqb _ _); auto.
  - apply (runs_inv_frame d _ []); [done|done|by rewrite app_nil_r|done].
Qed.

Lemma ran_create_definition org k name desc steps w row w' :
  tables_inv (w_db w) (w_next_uuid w) → specs_ok steps →
  WorkflowRepository.create_definition org k name desc steps w = (Ok row, w') →
  tables_inv (w_db w') (w_next_uuid w').
Proof.
  intros HT Hok H. unfold WorkflowRepository.create_definition in H.
  ran H as id w1 Hid. injection Hid as <- <-. ran H as now w2 Hn. injection Hn as <- <-.
  ran H as d w3 Hd. injection Hd as <- <-. destruct (existsb _ _); [done|].
  ran H as u w4 Hm. injection Hm as _ <-. injection H as _ <-. simpl.
  apply (tables_inv_mono _ (w_next_uuid w)); [lia|].
  pose proof HT as [H1 H2 H3 H4 H5 H6 H7 H8 H9 H10 H11]. split; try done.
  - simpl. intros r [Hr| ->%list_elem_of_singleton]%elem_of_app; auto.
  - apply (runs_inv_frame (w_db w) _ []); [done|done|by rewrite app_nil_r|done].
Qed.

Lemma ran_update_definition row name desc steps w row' w' :
  tables_inv (w_db w) (w_next_uuid w) → specs_ok (wd_draft_steps row) →
  (∀ s, steps = Some s → specs_ok s) →
  WorkflowRepository.update_definition row name desc steps w = (Ok row', w') →
  tables_inv (w_db w') (w_next_uuid w').
Proof.
  intros HT Hok Hsteps H. unfold WorkflowRepository.update_definition in H.
  ran H as now w1 Hn. apply ran_utcnow in Hn. set (row1 := set_wd_updated_at _ _) in H.
  ran H as u w2 Hp. injection Hp as _ <-.
  injection H as _ <-. apply (tables_inv_same _ _ Hn) in HT.
  apply (put_definition_tables _ _ row1 HT). unfold row1. clear row1.
  destruct steps as [s|]; simpl; [by apply Hsteps|]. by destruct name, desc.
Qed.

Lemma ran_add_version_steps org vid now steps order : ∀ i w u w',
  add_version_steps org vid now steps i order w = (Ok u, w') →
  ∃ rows, core (set_db_version_steps (db_version_steps (w_db w) ++ rows) (w_db w)) = core (w_db w') ∧
    Forall2 (λ r k, find_step steps k = Some (spec_of_row r)) rows order ∧
    NoDup (map vs_id rows) ∧ (w_next_uuid w ≤ w_next_uuid w')%N ∧
    ∀ r, r ∈ rows → (w_next_uuid w ≤ vs_id r < w_next_uuid w')%N ∧ vs_organization_id r = org ∧
      vs_version_id r = vid.
Proof.
  induction order as [|k order IH]; intros i w u w' H; simpl in H.
  - injection H as _ <-. exists []. rewrite app_nil_r.
    split_and!; [done|constructor|constructor|lia|by intros r ?%not_elem_of_nil].
  - destruct (find_step steps k) as [item|] eqn:Hf; [|done].
    ran H as id w1 Hid. injection Hid as <- <-. ran H as u1 w2 Hm. injection Hm as _ <-.
    apply IH in H as (rows & Hc & HF & Hnd & Hle & Hrows). simpl in Hle.
    set (r0 := version_step_row _ _ _ _ _ _) in Hc. exists (r0 :: rows). split_and!.
    + rewrite <- Hc. unfold core. simpl. by rewrite <- app_assoc.
    + constructor; [|done]. rewrite Hf. f_equal. by destruct item.
    + apply NoDup_cons. split; [|done]. intros (r' & Heq & Hr')%list_elem_of_fmap.
      apply Hrows in Hr' as (? & _ & _). simpl in *. lia.
    + lia.
    + intros r [->|Hr]%elem_of_cons; [simpl; split_and!; [lia|lia|done|done]|].
      apply Hrows in Hr as (? & ? & ?). simpl in *. split_and!; [lia|lia|done|done].
Qed.

(** The rows of a new version hold the steps of the draft. *)
Lemma version_rows_perm steps order (rows : list WorkflowVersionStepRecord) :
  NoDup (map key steps) → order ≡ₚ map key steps →
  Forall2 (λ r k, find_step steps k = Some (spec_of_row r)) rows order →
  map spec_of_row rows ≡ₚ steps.
Proof.
  intros Hnd Hp HF.
  assert (Hk : map key (map spec_of_row rows) = order).
  { clear Hp. induction HF as [|r k rows order [_ Hr]%find_step_In _ IH]; cbn [map]; congruence. }
  assert (Hnd' : NoDup (map spec_of_row rows)).
  { apply (NoDup_fmap_1 key). change (NoDup (map key (map spec_of_row rows))). by rewrite Hk, Hp. }
  apply NoDup_Permutation; [done|by apply (NoDup_fmap_1 key)|]. intros sp. split.
  - intros (r & -> & Hr)%list_elem_of_fmap.
    destruct (Forall2_in_l _ _ _ _ HF Hr) as (k & _ & [? _]%find_step_In). done.
  - intros Hsp. assert (Hin : key sp ∈ order) by (rewrite Hp; by apply list_elem_of_fmap_2).
    destruct (Forall2_in_r _ _ _ _ HF Hin) as (r & Hr & Hf).
    rewrite find_step_spec in Hf by done. injection Hf as ->. by apply list_elem_of_fmap_2.
Qed.

Lemma version_specs_frame d d' extra org vid :
  db_version_steps d' = db_version_steps d ++ extra → (∀ v, v ∈ extra → vs_version_id v ≠ vid) →
  version_specs org vid d' = version_specs org vid d.
Proof.
  intros Hv Hne. unfold version_specs. rewrite Hv, List.filter_app.
  rewrite (filter_nil_not_elem_of _ extra); [by rewrite app_nil_r|].
  intros v Hin. apply andb_false_iff. right. apply N.eqb_neq. auto.
Qed.

Lemma version_specs_new d d' extra org vid :
  db_version_steps d' = db_version_steps d ++ extra →
  (∀ v, v ∈ db_version_steps d → vs_version_id v ≠ vid) →
  (∀ v, v ∈ extra → vs_organization_id v = org ∧ vs_version_id v = vid) →
  version_specs org vid d' ≡ₚ map spec_of_row extra.
Proof.
  intros Hv Hne Heq. unfold version_specs. rewrite Hv, List.filter_app.
  rewrite (filter_nil_not_elem_of _ (db_version_steps d)).
  - simpl. rewrite merge_sort_Permutation, filter_id; [done|].
    intros v [-> ->]%Heq. by rewrite !N.eqb_refl.
  - intros v Hin. apply andb_false_iff. right. apply N.eqb_neq. auto.
Qed.

Lemma ran_publish hash org row order w v w' :
  tables_inv (w_db w) (w_next_uuid w) → specs_ok (wd_draft_steps row) →
  order ≡ₚ map key (wd_draft_steps row) →
  WorkflowRepository.publish hash org row order w = (Ok v, w') →
  tables_inv (w_db w') (w_next_uuid w') ∧ db_runs (w_db w') = db_runs (w_db w) ∧
  db_step_runs (w_db w') = db_step_runs (w_db w) ∧
  ∃ extra, db_version_steps (w_db w') = db_version_steps (w_db w) ++ extra ∧
    (∀ x, x ∈ extra → (w_next_uuid w ≤ vs_version_id x)%N) ∧
    ∃ vr, db_versions (w_db w') = db_versions (w_db w) ++ [vr].
Proof.
  intros HT Hok Horder H. unfold WorkflowRepository.publish in H.
  ran H as number w1 Hn. injection Hn as <- <-. ran H as id w2 Hid. injection Hid as <- <-.
  ran H as now w3 Hnow. injection Hnow as <- <-. set (vr := mkVersion _ _ _ _ _ _ _) in H.
  ran H as u w4 Hm. injection Hm as _ <-. ran H as u1 w5 Hadd.
  apply ran_add_version_steps in Hadd as (rows & Hc & HF & Hnd & Hle & Hrows).
  ran H as upd w6 Hupd. apply ran_utcnow in Hupd.
  set (row1 := set_wd_updated_at _ _) in H. ran H as u2 w7 Hput. injection Hput as _ <-.
  injection H as _ <-. simpl in Hle, Hrows.
  unfold core in Hc. simpl in Hc. injection Hc as E1 E2 E3 E4 E5.
  assert (HT5 : tables_inv (w_db w5) (w_next_uuid w5)).
  { pose proof HT as [H1 H2 H3 H4 H5 H6 H7 H8 H9 H10 H11].
    split; rewrite <- ?E1, <- ?E2, <- ?E3, <- ?E4, <- ?E5; try done.
    - apply NoDup_map_app_intro; [done|done|]. intros x y Hx%H7 (Hy & _)%Hrows. lia.
    - intros r Hr%H4. lia.
    - intros r Hr%H5. lia.
    - intros x [Hx%H6| ->%list_elem_of_singleton]%elem_of_app; simpl; lia.
    - intros x [Hx%H7|(? & _ & ->)%Hrows]%elem_of_app; simpl; lia.
    - intros x [Hx| ->%list_elem_of_singleton]%elem_of_app.
      + rewrite (version_specs_frame (w_db w) (w_db w5) rows); [by apply H8|done|].
        intros y (_ & _ & ->)%Hrows. apply H6 in Hx. lia.
      + apply (specs_ok_perm (wd_draft_steps row)); [|done]. symmetry.
        rewrite (version_specs_new (w_db w) (w_db w5) rows); [|done| |].
        * eapply version_rows_perm; [apply Hok|done|done].
        * intros y Hy%H7. simpl. lia.
        * intros y (_ & ? & ?)%Hrows. done.
    - by apply (runs_inv_frame (w_db w) _ rows). }
  split.
  - apply (tables_inv_same _ _ Hupd) in HT5.
    by apply (put_definition_tables _ _ row1 HT5).
  - destruct Hupd as [Hc _]. unfold core in Hc. injection Hc as _ F2 F3 F4 F5.
    simpl. split_and!; [congruence..|].
    exists rows. rewrite <- F3, <- E3. split_and!; [done| |].
    + intros x (_ & _ & ->)%Hrows. lia.
    + exists vr. by rewrite <- F2, <- E2.
Qed.
