(* ===== verification/WorkflowSystem.v ===== *)
(** * WorkflowSystem: every interleaving of workflow transactions

    [sys_step] lets any caller run any transaction of the workflow service, in any
    order, with any arguments: starting runs of observed versions, claiming,
    finishing or failing with any claim that was ever issued (however stale),
    pausing, resuming, cancelling, editing and publishing; other components and the
    clock move in between ([step_env]). Each step is an [evolves] transition of the
    tables, and [sys_inv] holds in every reachable state. *)

From S2P Require Import Prelude.
From S2P Require Import Errors.
From S2P Require Import Lifecycles.
From S2P Require Import Conditions.
From S2P Require Import WorkflowGraph.
From S2P Require Import ScheduleSpec.
From S2P Require Import Store.
From S2P Require Import StoreLemmas.
From S2P Require Import WorkflowRepository.
From S2P Require Import WorkflowService.
From S2P Require Import AdvanceLemmas.
From S2P Require Import RunUpdate.
From S2P Require Import RunInvariant.
From S2P Require Import WorkflowOps.
From S2P Require Import WorkflowStart.

(** ** Issued UUIDs are never taken back *)

#[export] Instance monotone_add_transition org run s t r src f :
  Monotone (add_transition org run s t r src f).
Proof. unfold add_transition. monotonicity. Qed.
#[export] Hint Resolve monotone_add_transition : monotone.
#[export] Instance monotone_transition_row org row t r : Monotone (transition_row org row t r).
Proof. unfold transition_row, put_run. monotonicity. Qed.
#[export] Hint Resolve monotone_transition_row : monotone.
#[export] Instance monotone_spec_for_step org id : Monotone (spec_for_step org id).
Proof. unfold spec_for_step. monotonicity. Qed.
#[export] Hint Resolve monotone_spec_for_step : monotone.
#[export] Instance monotone_run_row org id : Monotone (run_row org id).
Proof. unfold run_row. monotonicity. Qed.
#[export] Hint Resolve monotone_run_row : monotone.
#[export] Instance monotone_put_steps rows : Monotone (put_steps rows).
Proof. unfold put_steps. apply _. Qed.
#[export] Hint Resolve monotone_put_steps : monotone.

#[export] Instance monotone_advance_pass org run specs rows st ch :
  Monotone (advance_pass org run specs rows st ch).
Proof. revert st ch. induction rows; intros st ch; simpl; monotonicity. Qed.
#[export] Hint Resolve monotone_advance_pass : monotone.
#[export] Instance monotone_advance_loop fuel org run specs rows st :
  Monotone (advance_loop fuel org run specs rows st).
Proof. revert rows st. induction fuel; intros rows st; simpl; monotonicity. Qed.
#[export] Hint Resolve monotone_advance_loop : monotone.
#[export] Instance monotone_advance org run : Monotone (advance org run).
Proof. unfold advance. monotonicity. Qed.
#[export] Hint Resolve monotone_advance : monotone.
#[export] Instance monotone_claim org id owner : Monotone (claim org id owner).
Proof. unfold claim. monotonicity. Qed.
#[export] Hint Resolve monotone_claim : monotone.
#[export] Instance monotone_live_run org id : Monotone (live_run org id).
Proof. unfold live_run. monotonicity. Qed.
#[export] Hint Resolve monotone_live_run : monotone.
#[export] Instance monotone_claimed_row org c : Monotone (claimed_row org c).
Proof. unfold claimed_row, step_row. monotonicity. Qed.
#[export] Hint Resolve monotone_claimed_row : monotone.
#[export] Instance monotone_finish_step org c o r : Monotone (finish_step org c o r).
Proof. unfold finish_step. monotonicity. Qed.
#[export] Hint Resolve monotone_finish_step : monotone.
#[export] Instance monotone_skip_row org run r : Monotone (skip_row org run r).
Proof. unfold skip_row. monotonicity. Qed.
#[export] Hint Resolve monotone_skip_row : monotone.
#[export] Instance monotone_cancel_row org run r : Monotone (cancel_row org run r).
Proof. unfold cancel_row. monotonicity. Qed.
#[export] Hint Resolve monotone_cancel_row : monotone.
#[export] Instance monotone_finish_condition org c o ks : Monotone (finish_condition org c o ks).
Proof. unfold finish_condition. monotonicity. Qed.
#[export] Hint Resolve monotone_finish_condition : monotone.
#[export] Instance monotone_fail_step org c e r : Monotone (fail_step org c e r).
Proof. unfold fail_step. monotonicity. Qed.
#[export] Hint Resolve monotone_fail_step : monotone.
#[export] Instance monotone_transition_run org id t r : Monotone (transition_run org id t r).
Proof. unfold transition_run. monotonicity. Qed.
#[export] Hint Resolve monotone_transition_run : monotone.
#[export] Instance monotone_start_step org run sp : Monotone (start_step org run sp).
Proof. unfold start_step, version_step_id. monotonicity. Qed.
#[export] Hint Resolve monotone_start_step : monotone.
#[export] Instance monotone_start_run org v i k f c :
  Monotone (WorkflowRepository.start_run org v i k f c).
Proof. unfold WorkflowRepository.start_run, run_by_idempotency, insert_run. monotonicity. Qed.
#[export] Hint Resolve monotone_start_run : monotone.
#[export] Instance monotone_list_steps org id : Monotone (list_steps org id).
Proof. unfold list_steps. apply _. Qed.
#[export] Hint Resolve monotone_list_steps : monotone.
#[export] Instance monotone_run_event org t run : Monotone (run_event org t run).
Proof. unfold run_event. apply monotone_enqueue. Qed.
#[export] Hint Resolve monotone_run_event : monotone.
#[export] Instance monotone_step_event org t run s : Monotone (step_event org t run s).
Proof. unfold step_event. apply monotone_enqueue. Qed.
#[export] Hint Resolve monotone_step_event : monotone.
#[export] Instance monotone_announce org run b s : Monotone (WorkflowService.announce org run b s).
Proof. unfold WorkflowService.announce. monotonicity. Qed.
#[export] Hint Resolve monotone_announce : monotone.
#[export] Instance monotone_definition org id : Monotone (definition org id).
Proof. unfold definition. apply _. Qed.
#[export] Hint Resolve monotone_definition : monotone.
#[export] Instance monotone_update_definition row n d s :
  Monotone (WorkflowRepository.update_definition row n d s).
Proof. unfold WorkflowRepository.update_definition, put_definition. monotonicity. Qed.
#[export] Hint Resolve monotone_update_definition : monotone.
#[export] Instance monotone_create_definition org k n d s :
  Monotone (WorkflowRepository.create_definition org k n d s).
Proof. unfold WorkflowRepository.create_definition. monotonicity. Qed.
#[export] Hint Resolve monotone_create_definition : monotone.
#[export] Instance monotone_add_version_steps org v now steps i order :
  Monotone (add_version_steps org v now steps i order).
Proof. revert i. induction order; intros i; simpl; monotonicity. Qed.
#[export] Hint Resolve monotone_add_version_steps : monotone.
#[export] Instance monotone_publish h org row order :
  Monotone (WorkflowRepository.publish h org row order).
Proof. unfold WorkflowRepository.publish, put_definition. monotonicity. Qed.
#[export] Hint Resolve monotone_publish : monotone.

(** ** Evolution of the tables: the abstract transitions *)

(** What a transaction can do to the workflow tables: nothing, change one run
    within [run_change], add a run of a stored version, or add definitions and
    versions, all for one tenant [org]. [n] and [n'] bound the UUIDs issued before and
    after. *)
Inductive evolves (org : uuid) (d : DB) (n : uuid) (d' : DB) (n' : uuid) : Prop :=
| ev_same : core d = core d' → evolves org d n d' n'
| ev_run run run' f : wr_organization_id run = org → run_change n d d' run run' f →
    evolves org d n d' n'
| ev_add v run rows : wr_organization_id run = org → observed d org v →
    run_added d d' n n' v run rows → evolves org d n d' n'
| ev_publish extra versions :
    db_runs d' = db_runs d → db_step_runs d' = db_step_runs d →
    db_version_steps d' = db_version_steps d ++ extra →
    (∀ x, x ∈ extra → (n ≤ vs_version_id x)%N) → db_versions d' = db_versions d ++ versions →
    tables_inv d' n' → evolves org d n d' n'.

Lemma evolves_tables_inv org d n d' n' :
  tables_inv d n → (n ≤ n')%N → evolves org d n d' n' → tables_inv d' n'.
Proof.
  intros HT Hn [Hc|run run' f Horg Hch|v run rows Horg Hobs Hadd|]; [..|done].
  - eapply tables_inv_core; [done|]. by eapply tables_inv_mono.
  - eapply tables_inv_mono; [exact Hn|]. by eapply change_tables_inv.
  - subst org. by eapply added_tables_inv.
Qed.

(** ** The invariant of the system *)

(** A claim that was issued: its identifiers are not future ones, and its step
    belongs to its run. *)
Record claim_inv (d : DB) (n : uuid) (c : StepClaim) : Prop := {
  ci_step : (sr_id (cl_step c) < n)%N;
  ci_token : (cl_claim_token c < n)%N;
  ci_issued : issued d c;
}.

Record System : Type := mkSystem {
  sys_world : World;
  sys_claims : list StepClaim;
}.

Definition sys_inv (s : System) : Prop :=
  let w := sys_world s in
  tables_inv (w_db w) (w_next_uuid w) ∧
  ∀ c, c ∈ sys_claims s → claim_inv (w_db w) (w_next_uuid w) c.

Lemma evolves_steps org d n d' n' r' :
  evolves org d n d' n' → r' ∈ db_step_runs d' →
  (∃ r, r ∈ db_step_runs d ∧ same_step r r') ∨ (n ≤ sr_id r')%N.
Proof.
  intros [Hc|run run' f Horg Hch|v run rows Horg Hobs Hadd|extra vs _ Hs _ _ _ _] Hr.
  - left. exists r'. split; [|reflexivity]. unfold core in Hc. injection Hc as _ _ _ _ ->. done.
  - left. pose proof (chg_update _ _ _ _ _ _ Hch) as Hu. rewrite (upd_steps _ _ _ _ Hu) in Hr.
    apply list_elem_of_fmap in Hr as (r & -> & Hr). exists r. split; [done|]. by apply (upd_same _ _ _ _ Hu).
  - pose proof (add_tables _ _ _ _ _ _ _ Hadd) as Hc. unfold core in Hc. injection Hc as _ _ _ _ Hs.
    rewrite <- Hs in Hr. simpl in Hr. apply elem_of_app in Hr as [Hr|Hr].
    + left. exists r'. by split; [|reflexivity].
    + right. apply (add_fresh _ _ _ _ _ _ _ Hadd) in Hr.
      pose proof (add_id _ _ _ _ _ _ _ Hadd). lia.
  - left. exists r'. split; [by rewrite <- Hs|reflexivity].
Qed.

Lemma evolves_claim_inv org d n d' n' c :
  (n ≤ n')%N → evolves org d n d' n' → claim_inv d n c → claim_inv d' n' c.
Proof.
  intros Hn Hev [H1 H2 H3]. split; [lia|lia|]. intros r' Hr' Hid.
  destruct (evolves_steps _ _ _ _ _ _ Hev Hr') as [(r & Hr & Hs)|?]; [|lia].
  unfold same_step, step_identity in Hs. injection Hs as ? _ <- _ _ _ _ _ _. apply H3; congruence.
Qed.

(** ** The transitions *)

Definition publishable (steps : list WorkflowStepSpec) (order : list string) : Prop :=
  validate_workflow_graph steps = Ok order.

Inductive tenant_step (org : uuid) : System → System → Prop :=
| step_create w cs request :
    Forall (λ s, spec_valid s = true) (cw_steps request) →
    tenant_step org (mkSystem w cs) (mkSystem (snd (WorkflowService.create_definition org request w)) cs)
| step_update w cs id request :
    (∀ steps, uw_steps request = Some steps → Forall (λ s, spec_valid s = true) steps) →
    tenant_step org (mkSystem w cs) (mkSystem (snd (WorkflowService.update_definition org id request w)) cs)
| step_publish w cs hash id steps order :
    publishable steps order →
    tenant_step org (mkSystem w cs)
      (mkSystem (snd (WorkflowService.publish_commit hash org id steps order w)) cs)
| step_start w cs v request print :
    observed (w_db w) org v →
    tenant_step org (mkSystem w cs) (mkSystem (snd (WorkflowService.start_txn org v request print w)) cs)
| step_pause w cs id :
    tenant_step org (mkSystem w cs) (mkSystem (snd (WorkflowService.pause_run org id w)) cs)
| step_resume w cs id :
    tenant_step org (mkSystem w cs) (mkSystem (snd (WorkflowService.resume_run org id w)) cs)
| step_cancel w cs id :
    tenant_step org (mkSystem w cs) (mkSystem (snd (WorkflowService.cancel_run org id w)) cs)
| step_claim w cs id owner r w' :
    WorkflowService.claim_next org id owner w = (r, w') →
    tenant_step org (mkSystem w cs)
      (mkSystem w' (match r with Ok (Some c) => c :: cs | _ => cs end))
| step_finish w cs id c result :
    c ∈ cs →
    tenant_step org (mkSystem w cs) (mkSystem (snd (WorkflowService.finish org id c result w)) cs)
| step_fail w cs id c exc :
    c ∈ cs →
    tenant_step org (mkSystem w cs) (mkSystem (snd (WorkflowService.record_failure org id c exc w)) cs).

(** A step of any tenant, or of the environment. *)
Inductive sys_step (s : System) : System → Prop :=
| step_tenant org s' : tenant_step org s s' → sys_step s s'
| step_env w' : same_core (sys_world s) w' → sys_step s (mkSystem w' (sys_claims s)).

(** No workflow data yet. *)
Definition initial (s : System) : Prop :=
  core (w_db (sys_world s)) = ([], [], [], [], []) ∧ sys_claims s = [].

Definition reachable (s : System) : Prop := ∃ s0, initial s0 ∧ rtc sys_step s0 s.

Lemma sys_initial_inv s : initial s → sys_inv s.
Proof.
  intros [Hc Hcs]. unfold core in Hc. injection Hc as E1 E2 E3 E4 E5. split.
  - split; rewrite ?E1, ?E2, ?E3, ?E4, ?E5; try (by intros ? ?%not_elem_of_nil);
      [by constructor..|by intros ? ? ? ?%not_elem_of_nil|].
    intros run. rewrite E4. by intros ?%not_elem_of_nil.
  - rewrite Hcs. by intros ? ?%not_elem_of_nil.
Qed.

(** ** Transactions evolve the tables *)

Lemma ran_enqueue t a i o p w u w' : enqueue_event t a i o p w = (Ok u, w') → same_core w w'.
Proof.
  unfold enqueue_event. intros H. ran H as id w1 Hid. injection Hid as <- <-.
  ran H as now w2 Hn. apply ran_utcnow in Hn. ran H as cor w3 Hc. injection Hc as <- <-.
  ran H as pr w4 Hp. injection Hp as <- <-. injection H as _ <-.
  etrans; [|etrans; [exact Hn|]]; split; simpl; done || lia.
Qed.

Lemma evolves_same_r org d n d1 d' n1 n' :
  evolves org d n d1 n1 → (n1 ≤ n')%N → core d1 = core d' → tables_inv d n → (n ≤ n1)%N →
  evolves org d n d' n'.
Proof.
  intros Hev Hn Hc HT Hn1. pose proof (evolves_tables_inv _ _ _ _ _ HT Hn1 Hev) as HT1.
  destruct Hev as [Hc0|run run' f Horg Hch|v run rows Horg Hobs Hadd|extra vs E1 E2 E3 E4 E5 _].
  - apply ev_same. congruence.
  - apply (ev_run _ _ _ _ _ run run' f); [done|]. destruct Hch as [H1 H2 H3 H3' H4 H5 H6]. split; try done.
    + by eapply run_update_core.
    + intros specs. rewrite <- (view_core _ _ _ Hc). auto.
  - apply (ev_add _ _ _ _ _ v run rows); [done|done|]. destruct Hadd as [H1 H2 H3 H4 H5 H6 H7 H8].
    split; try done; [congruence|lia|]. intros r Hr%H7. lia.
  - unfold core in Hc. injection Hc as F1 F2 F3 F4 F5.
    apply (ev_publish _ _ _ _ _ extra vs); [congruence..|done|congruence|].
    eapply tables_inv_core; [|by eapply tables_inv_mono]. unfold core. congruence.
Qed.

(** A transaction evolves the tables when its body does; [P] is what the body needs
    of the database it starts in. *)
Definition evolving {A} (org : uuid) (P : DB → Prop) (m : M A) : Prop :=
  ∀ w a w', P (w_db w) → tables_inv (w_db w) (w_next_uuid w) → m w = (Ok a, w') →
  evolves org (w_db w) (w_next_uuid w) (w_db w') (w_next_uuid w').

Definition quiet {A} (m : M A) : Prop := ∀ w a w', m w = (Ok a, w') → same_core w w'.

Lemma evolving_txn {A} org P (m : M A) `{!Monotone m} w :
  P (w_db w) → tables_inv (w_db w) (w_next_uuid w) → evolving org P m →
  let w' := snd (tenant_transaction m w) in
  evolves org (w_db w) (w_next_uuid w) (w_db w') (w_next_uuid w').
Proof.
  intros HP HT Hm w'. subst w'. unfold tenant_transaction.
  destruct (m _) as [[a|e] w1] eqn:Hrun; simpl; [|by apply ev_same].
  exact (Hm (set_w_txn_now (w_clock w (w_reads w)) (set_w_reads (S (w_reads w)) w)) a w1 HP HT Hrun).
Qed.

Lemma evolving_execution {A} org P (m : M A) `{!Monotone m} w :
  P (w_db w) → tables_inv (w_db w) (w_next_uuid w) → evolving org P m →
  let w' := snd (execution_transaction org m w) in
  evolves org (w_db w) (w_next_uuid w) (w_db w') (w_next_uuid w').
Proof.
  intros HP HT Hm. apply (evolving_txn org P); [apply _|done|done|]. intros w0 a w1 HP0 HT0 H.
  ran H as u w2 Hg. apply ran_guard in Hg as ->. by eapply Hm.
Qed.

Lemma evolving_quiet_r {A B} org P (m : M A) `{!Monotone m} (k : A → M B) :
  evolving org P m → (∀ a, quiet (k a)) → evolving org P (a ← m; k a).
Proof.
  intros Hm Hk w b w' HP HT H. ran H as a w1 H1. pose proof (ran_monotone _ _ _ _ H1) as Hn.
  apply Hk in H as [Hc Hn']. apply Hm in H1; [|done..]. by eapply evolves_same_r.
Qed.

Lemma evolving_gets {A B} org P (g : World → A) (k : A → M B) :
  (∀ w, evolving org (λ d, P d ∧ d = w_db w) (k (g w))) → evolving org P (a ← gets g; k a).
Proof. intros Hk w b w' HP HT H. ran H as a w1 H1. injection H1 as <- <-. by eapply (Hk w). Qed.

Lemma quiet_evolving {A} org P (m : M A) : quiet m → evolving org P m.
Proof. intros Hm w a w' _ _ H. apply ev_same. by apply Hm in H as [? _]. Qed.

Lemma quiet_ret {A} (a : A) : quiet (mret a).
Proof. by intros w b w' [= _ <-]. Qed.
Lemma quiet_raise {A} e : quiet (@raise A e).
Proof. by intros w b w' [=]. Qed.
Lemma quiet_gets {A} (f : World → A) : quiet (gets f).
Proof. by intros w b w' [= _ <-]. Qed.
Lemma quiet_bind {A B} (m : M A) (k : A → M B) :
  quiet m → (∀ a, quiet (k a)) → quiet (a ← m; k a).
Proof. intros Hm Hk w b w' H. ran H as a w1 H1. etrans; [by eapply Hm|by eapply Hk]. Qed.
Lemma quiet_forM {A} (f : A → M unit) l : (∀ a, quiet (f a)) → quiet (forM_ f l).
Proof.
  intros Hf. induction l; simpl; [apply quiet_ret|]. by apply quiet_bind.
Qed.
Lemma quiet_enqueue t a i o p : quiet (enqueue_event t a i o p).
Proof. intros w u w'. apply ran_enqueue. Qed.

(** Quietness of a program, by its structure. *)
Ltac quietness :=
  repeat (intros; lazymatch goal with
  | |- quiet (mret _) => apply quiet_ret
  | |- quiet (raise _) => apply quiet_raise
  | |- quiet (gets _) => apply quiet_gets
  | |- quiet (enqueue_event _ _ _ _ _) => apply quiet_enqueue
  | |- quiet (_ ≫= _) => apply quiet_bind
  | |- quiet (forM_ _ _) => apply quiet_forM
  | |- quiet (match ?x with _ => _ end) => destruct x
  | |- quiet _ => progress unfold run_event, step_event, list_steps, WorkflowService.announce
  end).

(** ** The transactions of the service *)

Lemma sys_claims_evolve org w w' cs :
  (w_next_uuid w ≤ w_next_uuid w')%N →
  evolves org (w_db w) (w_next_uuid w) (w_db w') (w_next_uuid w') →
  sys_inv (mkSystem w cs) → sys_inv (mkSystem w' cs).
Proof.
  intros Hn Hev [HT Hcs]. split; simpl in *; [by eapply evolves_tables_inv|].
  intros c Hc. eapply evolves_claim_inv; eauto.
Qed.

Lemma evolving_transition org id t reason ev :
  t = WorkflowRunState.PAUSED ∨ t = WorkflowRunState.RUNNING ∨ t = WorkflowRunState.CANCELLED →
  evolving org (λ _, True) (run ← transition_run org id t reason;
            match run with
            | None => raise (Nxs (WorkflowErr WorkflowRunNotFoundError))
            | Some run => _ ← run_event org ev run; mret run
            end).
Proof.
  intros Ht. apply evolving_quiet_r; [apply monotone_transition_run| |quietness].
  intros w a w' _ HT H. destruct a as [run'|].
  - apply (ran_transition_run (n := w_next_uuid w)) in H as (run & f & Horg & _ & Hch); [|apply HT|done].
    by apply (ev_run _ _ _ _ _ run run' f).
  - unfold transition_run in H. ran H as found w0 Hf. injection Hf as <- <-.
    destruct (List.find _ _); [|by injection H as <-; apply ev_same].
    ran H as run1 w1 H1. destruct t; simpl in H; try (by injection H as ?).
    + ran H as run2 w2 H2. by injection H as ?.
    + ran H as st w2 H2. ran H as rows w3 H3. ran H as u w4 H4. by injection H as ?.
Qed.

Lemma transition_evolves org id t reason ev w :
  t = WorkflowRunState.PAUSED ∨ t = WorkflowRunState.RUNNING ∨ t = WorkflowRunState.CANCELLED →
  tables_inv (w_db w) (w_next_uuid w) →
  let w' := snd (WorkflowService.transition org id t reason ev w) in
  evolves org (w_db w) (w_next_uuid w) (w_db w') (w_next_uuid w').
Proof. intros Ht HT. apply (evolving_txn org (λ _, True)); [monotonicity|done|done|by apply evolving_transition]. Qed.

#[export] Instance monotone_finish org id c result : Monotone (WorkflowService.finish org id c result).
Proof. unfold WorkflowService.finish. monotonicity. Qed.
#[export] Hint Resolve monotone_finish : monotone.
#[export] Instance monotone_record_failure org id c exc :
  Monotone (WorkflowService.record_failure org id c exc).
Proof. unfold WorkflowService.record_failure. monotonicity. Qed.
#[export] Hint Resolve monotone_record_failure : monotone.
#[export] Instance monotone_claim_next org id owner : Monotone (WorkflowService.claim_next org id owner).
Proof. unfold WorkflowService.claim_next. monotonicity. Qed.
#[export] Hint Resolve monotone_claim_next : monotone.
#[export] Instance monotone_start_txn org v request print :
  Monotone (WorkflowService.start_txn org v request print).
Proof. unfold WorkflowService.start_txn. monotonicity. Qed.
#[export] Hint Resolve monotone_start_txn : monotone.
#[export] Instance monotone_publish_commit h org id steps order :
  Monotone (WorkflowService.publish_commit h org id steps order).
Proof. unfold WorkflowService.publish_commit. monotonicity. Qed.
#[export] Hint Resolve monotone_publish_commit : monotone.
#[export] Instance monotone_service_transition org id t r e :
  Monotone (WorkflowService.transition org id t r e).
Proof. unfold WorkflowService.transition. monotonicity. Qed.
#[export] Hint Resolve monotone_service_transition : monotone.
#[export] Instance monotone_service_create org r : Monotone (WorkflowService.create_definition org r).
Proof. unfold WorkflowService.create_definition. monotonicity. Qed.
#[export] Hint Resolve monotone_service_create : monotone.
#[export] Instance monotone_service_update org id r :
  Monotone (WorkflowService.update_definition org id r).
Proof. unfold WorkflowService.update_definition. monotonicity. Qed.
#[export] Hint Resolve monotone_service_update : monotone.

Lemma finish_evolves org id c result w :
  issued (w_db w) c → tables_inv (w_db w) (w_next_uuid w) →
  let w' := snd (WorkflowService.finish org id c result w) in
  evolves org (w_db w) (w_next_uuid w) (w_db w') (w_next_uuid w').
Proof.
  intros Hiss HT. destruct result as [[output ref] skipped].
  apply (evolving_execution org (λ d, issued d c)); [monotonicity|done|done|].
  apply evolving_gets. intros w0. apply evolving_quiet_r; [monotonicity| |quietness].
  intros w1 run' w2 [Hiss1 _] HT1 H. destruct skipped as [ks|].
  - eapply ran_finish_condition in H as (run & row & f & Hfen & Hch & _); [|apply HT1|done].
    by apply (ev_run _ _ _ _ _ run run' f); [apply Hfen|].
  - eapply ran_finish_step in H as (run & row & f & Hfen & Hch & _); [|apply HT1|done].
    by apply (ev_run _ _ _ _ _ run run' f); [apply Hfen|].
Qed.

Lemma record_failure_evolves org id c exc w :
  issued (w_db w) c → tables_inv (w_db w) (w_next_uuid w) →
  let w' := snd (WorkflowService.record_failure org id c exc w) in
  evolves org (w_db w) (w_next_uuid w) (w_db w') (w_next_uuid w').
Proof.
  intros Hiss HT. apply (evolving_execution org (λ d, issued d c)); [monotonicity|done|done|].
  apply evolving_quiet_r; [monotonicity| |quietness].
  intros w1 run' w2 Hiss1 HT1 H.
  eapply ran_fail_step in H as (run & row & f & Hfen & Hch & _); [|apply HT1|done].
  by apply (ev_run _ _ _ _ _ run run' f); [apply Hfen|].
Qed.

Lemma start_evolves org v request print w :
  observed (w_db w) org v → tables_inv (w_db w) (w_next_uuid w) →
  let w' := snd (WorkflowService.start_txn org v request print w) in
  evolves org (w_db w) (w_next_uuid w) (w_db w') (w_next_uuid w').
Proof.
  intros Hobs HT. apply (evolving_execution org (λ d, observed d org v)); [monotonicity|done|done|].
  apply evolving_quiet_r; [monotonicity| |quietness].
  intros w1 [run created] w2 Hobs1 HT1 H.
  apply ran_start_run in H as (Horg & _ & H); [|apply HT1]. destruct created.
  - destruct H as (_ & _ & _ & rows & Hadd). by eapply (ev_add _ _ _ _ _ v run rows).
  - destruct H as (-> & _). by apply ev_same.
Qed.

(** ** Claims *)

Lemma run_change_mono n m d d' run run' f :
  (n ≤ m)%N → run_change m d d' run run' f → run_change n d d' run run' f.
Proof.
  intros Hn [H1 H2 H3 H3' H4 H5 H6]. split; try done. intros r Hr.
  destruct (H5 r Hr) as [Hs Ha Ht Hc]. split; try done.
  - destruct Ht as [?|[?|(? & ? & t & ? & ?)]]; [by left|by right; left|right; right].
    split_and!; [done..|]. exists t. split; [done|lia].
  - intros E1 E2. destruct (Hc E1 E2) as (t & ? & ?). exists t. split; [done|lia].
Qed.

Lemma ran_claim_none org id owner w w' :
  claim org id owner w = (Ok None, w') → same_core w w'.
Proof.
  unfold claim. intros H. ran H as found w0 Hf. injection Hf as <- <-.
  destruct (List.find _ _) as [run|]; [|by injection H as <-].
  destruct (negb _); [by injection H as <-|]. ran H as now w1 Hc. apply ran_utcnow in Hc.
  ran H as steps w2 Hs. injection Hs as <- <-. destruct (merge_sort _ _) as [|row rest]; [by injection H as <-|].
  ran H as tok w3 Ht. ran H as u w4 Hu. ran H as sp w5 Hsp. ran H as u' w6 Hp. by injection H.
Qed.

Lemma claimed_claim_inv n org id owner d d' n' c row f :
  tables_inv d n → tables_inv d' n' → (n ≤ n')%N → (cl_claim_token c < n')%N →
  claimed n org id owner d d' c row f → claim_inv d' n' c.
Proof.
  intros HT HT' Hn Htok [Ho Hr _ _ _ Hof _ Hrep Hch].
  destruct Hrep as (Hrow & Hs & Hf). pose proof Hrow as (Hin & _ & Hrun)%view_In.
  pose proof (chg_update _ _ _ _ _ _ Hch) as Hu.
  assert (Hc : cl_step c ∈ db_step_runs d').
  { rewrite (upd_steps _ _ _ _ Hu). apply list_elem_of_fmap. exists row. split; [|done].
    by destruct (Hf row Hrow) as [[_ ->]|[? _]]. }
  split; [by apply (ti_step_fresh _ _ HT')|done|]. intros r Hr' Hid.
  assert (r = cl_step c) as -> by (apply (NoDup_map_inj sr_id (db_step_runs d')); [apply HT'|done..]).
  unfold same_step, step_identity in Hs. injection Hs as _ _ <- _ _ _ _ _ _. done.
Qed.

Lemma claim_evolves org id owner w oc w' :
  tables_inv (w_db w) (w_next_uuid w) → claim org id owner w = (Ok oc, w') →
  evolves org (w_db w) (w_next_uuid w) (w_db w') (w_next_uuid w') ∧
  ∀ c, oc = Some c → claim_inv (w_db w') (w_next_uuid w') c.
Proof.
  intros HT H. pose proof (ran_monotone _ _ _ _ H) as Hn. destruct oc as [c|].
  - apply ran_claim in H as [(row & f & Hcl) Htok]; [|apply HT].
    assert (Hev : evolves org (w_db w) (w_next_uuid w) (w_db w') (w_next_uuid w')).
    { eapply ev_run; [by eapply clm_org|by eapply clm_change]. }
    split; [done|]. intros c' [= <-]. eapply claimed_claim_inv; [exact HT| |exact Hn|lia|exact Hcl].
    by eapply evolves_tables_inv.
  - split; [|done]. apply ran_claim_none in H as [Hc _]. by apply ev_same.
Qed.

Lemma claim_next_evolves org id owner w r w' :
  tables_inv (w_db w) (w_next_uuid w) → WorkflowService.claim_next org id owner w = (r, w') →
  evolves org (w_db w) (w_next_uuid w) (w_db w') (w_next_uuid w') ∧
  ∀ c, r = Ok (Some c) → claim_inv (w_db w') (w_next_uuid w') c.
Proof.
  intros HT H. unfold WorkflowService.claim_next, execution_transaction, tenant_transaction in H.
  destruct ((execution_guard org ≫= _) _) as [[oc|e] w1] eqn:Hrun; injection H as <- <-;
    [|split; [by apply ev_same|done]].
  ran Hrun as u w2 Hg. apply ran_guard in Hg as ->.
  set (w0 := set_w_txn_now _ _) in Hrun. change (tables_inv (w_db w0) (w_next_uuid w0)) in HT.
  change (w_db w) with (w_db w0). change (w_next_uuid w) with (w_next_uuid w0).
  ran Hrun as own w3 Hown.
  assert (Hc3 : w_db w3 = w_db w0 ∧ (w_next_uuid w0 ≤ w_next_uuid w3)%N).
  { destruct owner; [by injection Hown as _ <-|]. injection Hown as _ <-. simpl. split; [done|lia]. }
  destruct Hc3 as [Hdb Hn3].
  ran Hrun as oc' w4 Hcl. pose proof (ran_monotone _ _ _ _ Hcl) as Hn4.
  ran Hrun as u' w5 Hev. injection Hrun as <- <-.
  assert (Hc5 : same_core w4 w5).
  { destruct oc'; [by apply ran_enqueue in Hev|by injection Hev as _ <-]. }
  apply claim_evolves in Hcl as [Hev4 Hinv4].
  2:{ rewrite Hdb. by eapply tables_inv_mono. }
  assert (Hev0 : evolves org (w_db w0) (w_next_uuid w0) (w_db w4) (w_next_uuid w4)).
  { rewrite Hdb in Hev4. destruct Hev4 as [|run run' f Horg Hch|v run rows Horg Ho Hadd|extra vs E1 E2 E3 E4 E5 E6].
    - by apply ev_same.
    - eapply ev_run; [done|by eapply run_change_mono].
    - eapply ev_add; [done|done|]. destruct Hadd as [A1 A2 A3 A4 A5 A6 A7 A8]. split; try done. lia.
    - eapply ev_publish; try done. intros x Hx%E4. lia. }
  assert (HT4 : tables_inv (w_db w4) (w_next_uuid w4)).
  { eapply evolves_tables_inv; [exact HT|lia|done]. }
  destruct Hc5 as [Hc5 Hn5]. split.
  - eapply evolves_same_r; [exact Hev0|exact Hn5|exact Hc5|exact HT|lia].
  - intros c [= ->]. eapply (evolves_claim_inv org); [exact Hn5|by apply ev_same|by apply Hinv4].
Qed.

(** ** Definitions *)

Lemma definition_found org id w row w' :
  definition org id w = (Ok (Some row), w') → w' = w ∧ row ∈ db_definitions (w_db w).
Proof.
  intros [= Hf <-]. split; [done|]. apply List.find_some in Hf as [? _]. by apply list_elem_of_In.
Qed.

Lemma validated_specs_ok steps order :
  Forall (λ s, spec_valid s = true) steps → validate_workflow_graph steps = Ok order →
  specs_ok steps.
Proof.
  intros Hv Hval. apply validate_graph_ok in Hval as [? ?]. by split_and!.
Qed.

Lemma publish_nothing org d n d' n' :
  db_runs d' = db_runs d → db_step_runs d' = db_step_runs d →
  db_version_steps d' = db_version_steps d → db_versions d' = db_versions d →
  tables_inv d' n' → evolves org d n d' n'.
Proof.
  intros E1 E2 E3 E4 HT. apply (ev_publish _ _ _ _ _ [] []); rewrite ?app_nil_r; try done.
  by intros x ?%not_elem_of_nil.
Qed.

Lemma create_evolves org request w :
  Forall (λ s, spec_valid s = true) (cw_steps request) → tables_inv (w_db w) (w_next_uuid w) →
  let w' := snd (WorkflowService.create_definition org request w) in
  evolves org (w_db w) (w_next_uuid w) (w_db w') (w_next_uuid w').
Proof.
  intros Hv HT. unfold WorkflowService.create_definition. unfold mbind at 1, M_bind, lift.
  destruct (validate_workflow_graph _) as [order|e] eqn:Hval; [|by apply ev_same].
  apply (evolving_txn org (λ _, True)); [monotonicity|done|done|].
  apply evolving_quiet_r; [monotonicity| |quietness].
  intros w1 row w2 _ HT1 H. pose proof H as H'.
  apply ran_create_definition in H; [|done|by eapply validated_specs_ok].
  apply publish_nothing; [..|done]; unfold WorkflowRepository.create_definition in H';
    ran H' as id wa Ha; injection Ha as <- <-; ran H' as now wb Hb; injection Hb as <- <-;
    ran H' as db wc Hc; injection Hc as <- <-; destruct (existsb _ _); try done;
    ran H' as u wd Hd; injection Hd as _ <-; by injection H' as _ <-.
Qed.

Lemma update_evolves org id request w :
  (∀ steps, uw_steps request = Some steps → Forall (λ s, spec_valid s = true) steps) →
  tables_inv (w_db w) (w_next_uuid w) →
  let w' := snd (WorkflowService.update_definition org id request w) in
  evolves org (w_db w) (w_next_uuid w) (w_db w') (w_next_uuid w').
Proof.
  intros Hv HT. unfold WorkflowService.update_definition.
  assert (Hbody : (∀ s, uw_steps request = Some s → specs_ok s) →
    evolving org (λ _, True) (row ← definition org id;
      match row with
      | None => raise (Nxs (WorkflowErr WorkflowNotFoundError))
      | Some row =>
          if bool_decide (wd_status row = WorkflowDefinitionStatus.ARCHIVED)
          then raise (Nxs (WorkflowErr WorkflowInvalidStateError))
          else if negb (wd_revision row =? uw_expected_revision request)
          then raise (Nxs (WorkflowErr WorkflowConflictError))
          else WorkflowRepository.update_definition row (uw_name request)
                 (uw_description request) (uw_steps request)
      end)).
  { intros Hok w1 a w2 _ HT1 H. ran H as row w3 Hd. destruct row as [row|]; [|done].
    apply definition_found in Hd as [-> Hin]. destruct (bool_decide _); [done|].
    destruct (negb _); [done|]. pose proof H as H'.
    apply ran_update_definition in H; [|done|by apply (ti_drafts _ _ HT1)|done].
    apply publish_nothing; [..|done]; unfold WorkflowRepository.update_definition in H';
      ran H' as now wa Ha; injection Ha as _ <-; ran H' as u wb Hb; injection Hb as _ <-;
      by injection H' as _ <-. }
  unfold mbind at 1, M_bind. destruct (uw_steps request) as [steps|] eqn:Hs.
  - unfold lift. destruct (validate_workflow_graph steps) as [order|e] eqn:Hval; [|by apply ev_same].
    apply (evolving_txn org (λ _, True)); [monotonicity|done|done|]. apply Hbody.
    intros s [= <-]. eapply validated_specs_ok; eauto.
  - simpl. apply (evolving_txn org (λ _, True)); [monotonicity|done|done|]. by apply Hbody.
Qed.

Lemma specs_eqb_keys l k : WorkflowService.specs_eqb l k = true → map key l = map key k.
Proof.
  revert k. induction l as [|a l IH]; intros [|b k] H; try done. simpl in *.
  apply andb_true_iff in H as [Hab Hlk]. unfold WorkflowService.spec_eqb in Hab.
  repeat match goal with H : (_ && _)%bool = true |- _ => apply andb_true_iff in H as [? ?] end.
  f_equal; [by apply String.eqb_eq|auto].
Qed.

Lemma publish_evolves hash org id steps order w :
  publishable steps order → tables_inv (w_db w) (w_next_uuid w) →
  let w' := snd (WorkflowService.publish_commit hash org id steps order w) in
  evolves org (w_db w) (w_next_uuid w) (w_db w') (w_next_uuid w').
Proof.
  intros Hval HT. apply (evolving_txn org (λ _, True)); [monotonicity|done|done|].
  intros w1 a w2 _ HT1 H. ran H as row w3 Hd. destruct row as [row|]; [|done].
  apply definition_found in Hd as [-> Hin].
  destruct (WorkflowService.specs_eqb steps (wd_draft_steps row)) eqn:Heq; [|done]. simpl in H.
  ran H as v w4 Hp. ran H as u w5 He. injection H as _ <-. apply ran_enqueue in He as [Hc Hn].
  pose proof (ran_monotone _ _ _ _ Hp) as Hn4.
  apply validate_order in Hval as [Hperm _]. rewrite (specs_eqb_keys _ _ Heq) in Hperm.
  assert (Hrepo : ∃ extra vr, db_runs (w_db w4) = db_runs (w_db w1) ∧
    db_step_runs (w_db w4) = db_step_runs (w_db w1) ∧
    db_version_steps (w_db w4) = db_version_steps (w_db w1) ++ extra ∧
    (∀ x, x ∈ extra → (w_next_uuid w1 ≤ vs_version_id x)%N) ∧
    db_versions (w_db w4) = db_versions (w_db w1) ++ [vr] ∧ tables_inv (w_db w4) (w_next_uuid w4)).
  { apply ran_publish in Hp as (HT4 & E1 & E2 & extra & E3 & E4 & vr & E5);
      [|done|by apply (ti_drafts _ _ HT1)|done]. by exists extra, vr. }
  destruct Hrepo as (extra & vr & E1 & E2 & E3 & E4 & E5 & HT4).
  eapply evolves_same_r; [|exact Hn|exact Hc|done|done].
  by apply (ev_publish _ _ _ _ _ extra [vr]).
Qed.

(** ** Every step keeps the invariant *)

(** Each step evolves the tables of its tenant; claims are only added by
    [claim_next]. *)
Lemma tenant_step_evolves org s s' :
  sys_inv s → tenant_step org s s' →
  let w := sys_world s in let w' := sys_world s' in
  evolves org (w_db w) (w_next_uuid w) (w_db w') (w_next_uuid w') ∧
  (w_next_uuid w ≤ w_next_uuid w')%N ∧ sys_inv s'.
Proof.
  intros HI Hstep.
  assert (Henough : ∀ w w' cs, sys_inv (mkSystem w cs) →
    evolves org (w_db w) (w_next_uuid w) (w_db w') (w_next_uuid w') →
    (w_next_uuid w ≤ w_next_uuid w')%N →
    evolves org (w_db w) (w_next_uuid w) (w_db w') (w_next_uuid w') ∧
    (w_next_uuid w ≤ w_next_uuid w')%N ∧ sys_inv (mkSystem w' cs)).
  { intros w w' cs HIw Hev Hn. split_and!; [done|done|by eapply sys_claims_evolve]. }
  pose proof HI as [HT Hcs].
  destruct Hstep as [w cs request Hv|w cs id request Hv|w cs hash id steps order Hp|
    w cs v request print Ho|w cs id|w cs id|w cs id|w cs id owner r w' Hcl|
    w cs id c result Hc|w cs id c exc Hc]; simpl in *.
  - apply Henough; [done|by apply create_evolves|apply monotone].
  - apply Henough; [done|by apply update_evolves|apply monotone].
  - apply Henough; [done|by apply publish_evolves|apply monotone].
  - apply Henough; [done|by apply start_evolves|apply monotone].
  - apply Henough; [done|by apply transition_evolves; auto|apply monotone].
  - apply Henough; [done|by apply transition_evolves; auto|apply monotone].
  - apply Henough; [done|by apply transition_evolves; auto|apply monotone].
  - pose proof (ran_monotone _ _ _ _ Hcl) as Hn.
    apply claim_next_evolves in Hcl as [Hev Hc]; [|done].
    destruct (Henough _ _ _ HI Hev Hn) as (_ & _ & [HT' Hcs']). split_and!; [done|done|].
    split; [done|]. simpl in *. intros c' Hc'. destruct r as [[c|]|]; [|auto..].
    apply elem_of_cons in Hc' as [->|]; auto.
  - apply Henough; [done|apply finish_evolves; [by apply Hcs|done]|apply monotone].
  - apply Henough; [done|apply record_failure_evolves; [by apply Hcs|done]|apply monotone].
Qed.

Lemma sys_step_evolves s s' :
  sys_inv s → sys_step s s' →
  let w := sys_world s in let w' := sys_world s' in
  (∃ org, evolves org (w_db w) (w_next_uuid w) (w_db w') (w_next_uuid w')) ∧
  (w_next_uuid w ≤ w_next_uuid w')%N ∧ sys_inv s'.
Proof.
  intros HI [org s1 Hstep|w' [Hc Hn]].
  - apply tenant_step_evolves in Hstep as (? & ? & ?); [|done]. by split_and!; [exists org|..].
  - split_and!; [exists 0%N; by apply ev_same|done|]. destruct s as [w cs].
    eapply (sys_claims_evolve 0%N); [exact Hn|by apply ev_same|done].
Qed.

Lemma reachable_inv s : reachable s → sys_inv s.
Proof.
  intros (s0 & H0 & Hrtc). apply sys_initial_inv in H0.
  induction Hrtc as [|s1 s2 s3 Hstep _ IH]; [done|]. apply IH.
  by eapply sys_step_evolves in Hstep as (_ & _ & ?).
Qed.
