(* ===== verification/WorkflowDemo.v ===== *)
(** * WorkflowDemo: a concrete execution

    A two-step workflow defined, published, started and executed by the modelled
    service; the states below are reachable and the theorems are instantiated at
    them. *)

From S2P Require Import Prelude.
From S2P Require Import Errors.
From S2P Require Import Lifecycles.
From S2P Require Import Conditions.
From S2P Require Import WorkflowGraph.
From S2P Require Import ScheduleSpec.
From S2P Require Import MessagingStore.
From S2P Require Import CustomerStore.
From S2P Require Import CampaignStore.
From S2P Require Import Store.
From S2P Require Import StoreLemmas.
From S2P Require Import WorkflowRepository.
From S2P Require Import WorkflowService.
From S2P Require Import AdvanceLemmas.
From S2P Require Import RunUpdate.
From S2P Require Import RunInvariant.
From S2P Require Import WorkflowOps.
From S2P Require Import WorkflowStart.
From S2P Require Import WorkflowSystem.

Definition empty_db : DB := mkDB [] [] [] [] [] [] [] [] [] [] [] [] empty_campaign_db empty_customer_db empty_messaging_db.

(** Clock readings 0, 1, 2, ...; a single-cell deployment without placement. *)
Definition demo_world : World :=
  mkWorld Z.of_nat 0 0 1 None "nexus-ai" None None empty_db [].

Definition demo_org : uuid := 7.

Definition demo_steps : list WorkflowStepSpec := [noop_step "a" []; noop_step "b" ["a"]].

Definition demo_request : CreateWorkflowRequest :=
  {| cw_workflow_key := "demo"; cw_name := "Demo"; cw_description := None; cw_steps := demo_steps |}.

Definition demo_hash (steps : list WorkflowStepSpec) : string := "hash".

(** Created, then published. *)
Definition demo_created : World := snd (WorkflowService.create_definition demo_org demo_request demo_world).
Definition demo_published : World :=
  snd (WorkflowService.publish_commit demo_hash demo_org 1 demo_steps ["a"; "b"] demo_created).

Definition demo_version : WorkflowVersion :=
  match db_versions (w_db demo_published) with
  | v :: _ => version_of_row (w_db demo_published) v
  | [] => {| ver_id := 0; ver_organization_id := 0; ver_definition_id := 0; ver_version_number := 0;
             ver_content_hash := EmptyString; ver_steps := []; ver_published_at := 0 |}
  end.

Definition demo_start (k : string) : StartWorkflowRunRequest :=
  {| sw_workflow_version_id := ver_id demo_version; sw_input := []; sw_idempotency_key := Some k;
     sw_correlation_id := None |}.

(** Started: step [a] is READY, step [b] is PENDING. *)
Definition demo_started : World :=
  snd (WorkflowService.start_txn demo_org demo_version (demo_start "k1") "print" demo_published).

Definition demo_run : WorkflowRunRecord :=
  match db_runs (w_db demo_started) with
  | r :: _ => r
  | [] => mkRun 0 0 0 0 WorkflowRunState.PENDING 0 [] None None EmptyString None None None 0 None 0 0
  end.

(** Step [a] claimed by worker 100, then finished; then step [b]. *)
Definition demo_claim_a : result exn (option StepClaim) * World :=
  WorkflowService.claim_next demo_org (wr_id demo_run) (Some 100%N) demo_started.
Definition demo_claimed : World := snd demo_claim_a.

Definition no_claim : StepClaim := {|
  cl_run := demo_run;
  cl_step := mkStepRun 0 0 0 0 EmptyString WorkflowStepType.NOOP WorkflowStepState.PENDING 0 0
    None None None None None [] None None None 0 0;
  cl_spec := noop_step "a" []; cl_owner_id := 0; cl_claim_token := 0 |}.

Definition claim_result (r : result exn (option StepClaim) * World) : StepClaim :=
  match fst r with Ok (Some c) => c | _ => no_claim end.

Definition demo_token_a : StepClaim := claim_result demo_claim_a.
Definition demo_output : list (string * json) * option string * option (list string) :=
  ([("x", JInt 1)], None, None).
Definition demo_finished_a : World :=
  snd (WorkflowService.finish demo_org (wr_id demo_run) demo_token_a demo_output demo_claimed).
Definition demo_claim_b : result exn (option StepClaim) * World :=
  WorkflowService.claim_next demo_org (wr_id demo_run) (Some 100%N) demo_finished_a.
Definition demo_token_b : StepClaim := claim_result demo_claim_b.
Definition demo_claimed_b : World := snd demo_claim_b.
Definition demo_completed : World :=
  snd (WorkflowService.finish demo_org (wr_id demo_run) demo_token_b demo_output demo_claimed_b).

Definition step_states (w : World) : list (string * WorkflowStepState) :=
  map (λ r, (sr_step_key r, sr_state r)) (db_step_runs (w_db w)).

(** The execution, computed. *)
Example demo_execution :
  step_states demo_started = [("a", WorkflowStepState.READY); ("b", WorkflowStepState.PENDING)] ∧
  step_states demo_claimed = [("a", WorkflowStepState.RUNNING); ("b", WorkflowStepState.PENDING)] ∧
  step_states demo_finished_a =
    [("a", WorkflowStepState.COMPLETED); ("b", WorkflowStepState.READY)] ∧
  step_states demo_completed =
    [("a", WorkflowStepState.COMPLETED); ("b", WorkflowStepState.COMPLETED)] ∧
  map wr_state (db_runs (w_db demo_completed)) = [WorkflowRunState.COMPLETED].
Proof. vm_compute. split_and!; reflexivity. Qed.

(** ** The states are reachable *)

Lemma demo_observed : observed (w_db demo_published) demo_org demo_version.
Proof.
  exists (mkVersion 3 7 1 1 "hash" 2 2). split_and!; [|reflexivity|vm_compute; reflexivity].
  assert (db_versions (w_db demo_published) = [mkVersion 3 7 1 1 "hash" 2 2]) as ->
    by (vm_compute; reflexivity). by constructor.
Qed.

Lemma demo_started_reachable : reachable (mkSystem demo_started []).
Proof.
  exists (mkSystem demo_world []). split; [done|].
  eapply rtc_l; [apply (step_tenant _ demo_org), (step_create _ _ _ demo_request); vm_compute; repeat constructor|].
  eapply rtc_l; [apply (step_tenant _ demo_org), (step_publish _ _ _ demo_hash 1 demo_steps ["a"; "b"]);
    vm_compute; reflexivity|].
  apply rtc_once. apply (step_tenant _ demo_org), (step_start _ _ _ demo_version (demo_start "k1") "print").
  apply demo_observed.
Qed.

Lemma demo_claimed_step :
  sys_step (mkSystem demo_started []) (mkSystem demo_claimed [demo_token_a]).
Proof.
  apply (step_tenant _ demo_org), (step_claim _ demo_started [] (wr_id demo_run) (Some 100%N)
    (Ok (Some demo_token_a)) demo_claimed). vm_compute. reflexivity.
Qed.

Lemma demo_claimed_reachable : reachable (mkSystem demo_claimed [demo_token_a]).
Proof.
  destruct demo_started_reachable as (s0 & H0 & Hs). exists s0. split; [done|].
  eapply rtc_r; [exact Hs|]. apply demo_claimed_step.
Qed.

Lemma demo_finished_a_step :
  sys_step (mkSystem demo_claimed [demo_token_a]) (mkSystem demo_finished_a [demo_token_a]).
Proof. apply (step_tenant _ demo_org), step_finish. by constructor. Qed.

Lemma demo_completed_reachable :
  rtc sys_step (mkSystem demo_claimed [demo_token_a])
    (mkSystem demo_completed [demo_token_b; demo_token_a]).
Proof.
  eapply rtc_l; [apply demo_finished_a_step|].
  eapply rtc_l; [apply (step_tenant _ demo_org), (step_claim _ demo_finished_a [demo_token_a] (wr_id demo_run) (Some 100%N)
    (Ok (Some demo_token_b)) demo_claimed_b); vm_compute; reflexivity|].
  apply rtc_once, (step_tenant _ demo_org), step_finish. by constructor.
Qed.
