(* ===== verification/WorkflowSafety.v ===== *)
(** * WorkflowSafety: what the workflow engine guarantees

    Theorems about every reachable state of [WorkflowSystem]: runs do not stall,
    steps start only when their dependencies allow it, claims are fenced, terminal
    runs are frozen, tenants do not see each other, and starting a run is
    idempotent. *)

From S2P Require Import Prelude.
From S2P Require Import Errors.
From S2P Require Import Lifecycles.
From S2P Require Import Conditions.
From S2P Require Import WorkflowGraph.
From S2P Require Import ScheduleSpec.
From S2P Require Import Store.
From S2P Require Import StoreLemmas.
From S2P Require Import WorkflowRepository.
From S2P Require Import WorkflowService.
From S2P Require Import AdvanceLemmas.
From S2P Require Import RunUpdate.
From S2P Require Import RunInvariant.
From S2P Require Import WorkflowOps.
From S2P Require Import WorkflowStart.
From S2P Require Import WorkflowSystem.
From S2P Require Import WorkflowDemo.

Abbreviation db_of s := (w_db (sys_world s)).

(** A run whose state no transition leaves. *)
Abbreviation is_over run := (terminal (wr_state run) = true).

(** ** Runs and steps across steps *)

Lemma reachable_step s s' : reachable s → sys_step s s' → reachable s'.
Proof. intros (s0 & H0 & Hs) Hstep. exists s0. split; [done|]. by eapply rtc_r. Qed.

Lemma reachable_steps s s' : reachable s → rtc sys_step s s' → reachable s'.
Proof. intros (s0 & H0 & Hs) Hstep. exists s0. split; [done|]. by etrans. Qed.

(** Every run persists, with its identity, through legal transitions. *)
Lemma evolves_run org d n d' n' run :
  tables_inv d n → evolves org d n d' n' → run ∈ db_runs d →
  ∃ run', run' ∈ db_runs d' ∧ same_run run run' ∧ rtc legal (wr_state run) (wr_state run').
Proof.
  intros HT [Hc|run0 run1 f _ Hch|v run0 rows _ _ Hadd|extra vs E1 _ _ _ _ _] Hin.
  - exists run. unfold core in Hc. injection Hc as _ _ _ <- _. split_and!; [done|reflexivity|apply rtc_refl].
  - destruct Hch as [Hin0 Hu Hs _ Hl _ _]. destruct (decide (wr_id run = wr_id run1)) as [Heq|Hne].
    + assert (run = run0) as ->.
      { apply (NoDup_map_inj wr_id (db_runs d)); [apply HT|done..|].
        by rewrite Heq, (same_run_id _ _ Hs). }
      exists run1. split_and!; [|done|done]. rewrite (upd_runs _ _ _ _ Hu).
      eapply update_where_in; [exact Hin0|]. rewrite Heq. apply N.eqb_refl.
    + exists run. split_and!; [|reflexivity|apply rtc_refl]. rewrite (upd_runs _ _ _ _ Hu).
      apply list_elem_of_fmap. exists run. by rewrite (proj2 (N.eqb_neq _ _) Hne).
  - exists run. pose proof (add_tables _ _ _ _ _ _ _ Hadd) as Hc. unfold core in Hc.
    injection Hc as _ _ _ <- _. split_and!; [|reflexivity|apply rtc_refl]. apply elem_of_app. by left.
  - exists run. rewrite E1. split_and!; [done|reflexivity|apply rtc_refl].
Qed.

(** Every step row persists, with its identity, and moves as [row_moves] says. *)
Lemma evolves_step_row org d n d' n' run r :
  tables_inv d n → evolves org d n d' n' → run ∈ db_runs d → r ∈ view d run →
  ∃ r', r' ∈ db_step_runs d' ∧ same_step r r' ∧ row_moves n r r'.
Proof.
  intros HT [Hc|run0 run1 f _ Hch|v run0 rows _ _ Hadd|extra vs _ E2 _ _ _ _] Hin Hr;
    pose proof Hr as (Hrt & Horg & Hrun)%view_In.
  - exists r. unfold core in Hc. injection Hc as _ _ _ _ <-. split_and!; [done|reflexivity..].
  - destruct Hch as [Hin0 Hu Hs _ _ Hmv _]. exists (f r). split_and!.
    + rewrite (upd_steps _ _ _ _ Hu). by apply list_elem_of_fmap_2.
    + by apply (upd_same _ _ _ _ Hu).
    + destruct (decide (wr_id run = wr_id run0)) as [Heq|Hne].
      * assert (run = run0) as -> by (apply (NoDup_map_inj wr_id (db_runs d)); [apply HT|done..]).
        by apply Hmv.
      * rewrite (upd_others _ _ _ _ Hu); [reflexivity|done|].
        unfold of_run. apply andb_false_iff. right. apply N.eqb_neq.
        rewrite (same_run_id _ _ Hs). congruence.
  - exists r. pose proof (add_tables _ _ _ _ _ _ _ Hadd) as Hc. unfold core in Hc.
    injection Hc as _ _ _ _ <-. split_and!; [|reflexivity..]. apply elem_of_app. by left.
  - exists r. rewrite E2. split_and!; [done|reflexivity..].
Qed.

(** ** Progress *)

Lemma find_run d n run :
  tables_inv d n → run ∈ db_runs d →
  List.find (is_run (wr_organization_id run) (wr_id run)) (db_runs d) = Some run.
Proof.
  intros HT Hin. destruct (List.find _ _) as [run'|] eqn:Hf.
  - apply List.find_some in Hf as [Hin'%list_elem_of_In Hp].
    apply andb_true_iff in Hp as [_ Hid%N.eqb_eq]. f_equal.
    by apply (NoDup_map_inj wr_id (db_runs d)); [apply HT|..].
  - apply (List.find_none _ _) with (x := run) in Hf; [|by apply list_elem_of_In].
    unfold is_run in Hf. by rewrite !N.eqb_refl in Hf.
Qed.

(** A READY step of a RUNNING run can be claimed. *)
Lemma claim_ready w run r owner :
  tables_inv (w_db w) (w_next_uuid w) → run ∈ db_runs (w_db w) →
  wr_state run = WorkflowRunState.RUNNING → r ∈ view (w_db w) run →
  sr_state r = WorkflowStepState.READY →
  ∃ c w', claim (wr_organization_id run) (wr_id run) owner w = (Ok (Some c), w').
Proof.
  intros HT Hin Hrun Hr Hready.
  destruct (ti_runs _ _ HT run Hin) as (specs & Hst & _ & Hri).
  assert (Henough : runs (claim (wr_organization_id run) (wr_id run) owner) w
    (λ oc _, ∃ c, oc = Some c)).
  { unfold claim. apply runs_bind, runs_gets. rewrite (find_run _ _ _ HT Hin).
    rewrite bool_decide_true by done. cbn [negb].
    apply runs_bind, runs_utcnow. intros now w1 Hw1. apply runs_bind, runs_gets.
    rewrite run_steps_view, <- (view_core _ _ _ (proj1 Hw1)).
    destruct (merge_sort _ _) as [|row rest] eqn:Hsort.
    { exfalso. assert (Hel : r ∈ List.filter (eligible now) (view (w_db w) run)).
      { apply list_elem_of_In, List.filter_In. split; [by apply list_elem_of_In|].
        unfold eligible. rewrite bool_decide_true by done.
        by rewrite (row_eligible _ _ _ (proj1 Hri r Hr)). }
      rewrite <- (merge_sort_Permutation step_before), Hsort in Hel. by apply not_elem_of_nil in Hel. }
    apply head_merge_sort in Hsort as [Hrow _].
    apply runs_bind, runs_fresh. intros w2 Hw2 _. apply runs_bind, runs_transition. intros w3 Hw3.
    apply runs_bind. unfold spec_for_step. apply runs_bind, runs_gets.
    destruct (Forall2_in_l _ _ _ _ (stored_specs _ _ _ Hst) Hrow) as (sp & _ & _ & _ & Hsp).
    assert (Hv : db_version_steps (w_db w3) = db_version_steps (w_db w)).
    { rewrite <- (same_core_versions w2 w3), <- (same_core_versions w1 w2), <- (same_core_versions w w1); done. }
    apply view_In in Hrow as (_ & Horg & _). unfold find_version_step in *. rewrite Hv, <- Horg.
    simpl. destruct (List.find _ _); [|done]. apply runs_ret, runs_bind, runs_modify, runs_ret. eauto. }
  destruct Henough as (oc & w' & Hrun' & c & ->). by exists c, w'.
Qed.

(** C2. A RUNNING run never stalls: in every reachable state some worker holds one
    of its steps (a step is RUNNING), or the next [claim] by any worker returns a
    claim. *)
Theorem running_run_never_stalls s run :
  reachable s → run ∈ db_runs (db_of s) → wr_state run = WorkflowRunState.RUNNING →
  (∃ r, r ∈ view (db_of s) run ∧ sr_state r = WorkflowStepState.RUNNING) ∨
  (∀ owner, ∃ c w', claim (wr_organization_id run) (wr_id run) owner (sys_world s)
                    = (Ok (Some c), w')).
Proof.
  intros [HT _]%reachable_inv Hin Hrun.
  destruct (ti_runs _ _ HT run Hin) as (specs & Hst & Hac & Hri). rewrite Hrun in Hri.
  destruct (run_progress specs (view (db_of s) run)) as (r & Hr & [Hready|?]);
    [apply Hst|done|by eapply stored_keys|done| |left; eauto].
  right. intros owner. by eapply claim_ready.
Qed.

Lemma demo_run_in : demo_run ∈ db_runs (w_db demo_started).
Proof.
  assert (db_runs (w_db demo_started) = [demo_run]) as -> by (vm_compute; reflexivity).
  by constructor.
Qed.

Lemma running_run_never_stalls_witness :
  (∃ r, r ∈ view (w_db demo_started) demo_run ∧ sr_state r = WorkflowStepState.RUNNING) ∨
  (∀ owner, ∃ c w', claim (wr_organization_id demo_run) (wr_id demo_run) owner demo_started
                    = (Ok (Some c), w')).
Proof.
  apply (running_run_never_stalls (mkSystem demo_started [])).
  - apply demo_started_reachable.
  - apply demo_run_in.
  - vm_compute. reflexivity.
Defined.

(** ** Claims *)

(** A claim handed out by [claim_next] comes from [claim] in the same tables. *)
Lemma claim_next_claimed org id owner w c w' :
  tables_inv (w_db w) (w_next_uuid w) →
  WorkflowService.claim_next org id owner w = (Ok (Some c), w') →
  ∃ n own d' row f, claimed n org id own (w_db w) d' c row f ∧ core d' = core (w_db w').
Proof.
  intros HT H. apply txn_committed in H. ran H as u w2 Hg. apply ran_guard in Hg as ->.
  set (w0 := set_w_txn_now _ _) in H. ran H as own w3 Hown.
  assert (Hc3 : w_db w3 = w_db w ∧ (w_next_uuid w ≤ w_next_uuid w3)%N).
  { destruct owner; [by injection Hown as _ <-|]. injection Hown as _ <-. simpl. split; [done|lia]. }
  destruct Hc3 as [Hdb Hn3]. ran H as oc w4 Hcl. ran H as u' w5 Hev. injection H as -> <-.
  apply ran_enqueue in Hev as [Hc _].
  apply ran_claim in Hcl as [(row & f & Hclaim) _]; [|rewrite Hdb; apply HT].
  rewrite Hdb in Hclaim. by exists (w_next_uuid w3), own, (w_db w4), row, f.
Qed.

(** The specification a claim carries is the one the run was started with. *)
Lemma claimed_spec n org id own d d' c row f specs :
  claimed n org id own d d' c row f → run_stored d (cl_run c) specs →
  cl_spec c ∈ specs ∧ key (cl_spec c) = sr_step_key row ∧
  sr_max_attempts row = max_attempts (retry (cl_spec c)).
Proof.
  intros Hcl Hst. destruct (clm_replaces _ _ _ _ _ _ _ _ _ Hcl) as (Hrow & _ & _).
  destruct (Forall2_in_l _ _ _ _ (stored_specs _ _ _ Hst) Hrow) as (sp & Hsp & Hk & Hm & Hf).
  pose proof Hrow as (_ & Horg & _)%view_In. rewrite Horg, (clm_org _ _ _ _ _ _ _ _ _ Hcl) in Hf.
  rewrite (clm_spec _ _ _ _ _ _ _ _ _ Hcl) in Hf. injection Hf as ->. done.
Qed.

Lemma resolves_READY_ALL st sp :
  resolves st sp (Some WorkflowStepState.READY) → dependency_mode sp = DependencyMode.ALL →
  ∀ k, k ∈ depends_on sp → st !! k = Some WorkflowStepState.COMPLETED.
Proof.
  intros (ss & Hss & Hr) Hmode k Hk. apply dependency_states_Ok in Hss.
  destruct (Forall2_in_l _ _ _ _ Hss Hk) as (s & Hs & ->). f_equal.
  rewrite Hmode in Hr. unfold resolve_pending_step in Hr. destruct ss as [|s0 ss]; [by apply not_elem_of_nil in Hs|].
  destruct (existsb _ _); [done|]. destruct (forallb _ _) eqn:Hall; [|done].
  rewrite forallb_forall in Hall. apply list_elem_of_In in Hs. by apply Hall, bool_decide_eq_true in Hs.
Qed.

Lemma resolves_READY_ANY st sp :
  resolves st sp (Some WorkflowStepState.READY) → dependency_mode sp = DependencyMode.ANY →
  depends_on sp ≠ [] → ∃ k, k ∈ depends_on sp ∧ st !! k = Some WorkflowStepState.COMPLETED.
Proof.
  intros (ss & Hss & Hr) Hmode Hne. apply dependency_states_Ok in Hss.
  rewrite Hmode in Hr. unfold resolve_pending_step in Hr.
  destruct ss as [|s0 ss]; [by apply Forall2_nil_inv_r in Hss|].
  destruct (existsb _ _); [done|]. case_bool_decide as Hin; [|done].
  by destruct (Forall2_in_r _ _ _ _ Hss Hin) as (k & ? & ?); eauto.
Qed.

Lemma resolves_settled_all st sp t :
  resolves st sp (Some t) → ∀ k, k ∈ depends_on sp → ∃ s, st !! k = Some s ∧ settled s = true.
Proof.
  intros (ss & Hss & Hr) k Hk. apply dependency_states_Ok in Hss.
  destruct (Forall2_in_l _ _ _ _ Hss Hk) as (s & Hs & ?). eauto using resolve_Some_settled.
Qed.

(** C3. A step is handed to a worker only when its dependencies allow it and its
    retry policy is not exhausted: when [claim_next] returns a claim, every
    dependency of the claimed step is COMPLETED or SKIPPED, all are COMPLETED in
    mode ALL and at least one in mode ANY, and the attempt it counts is within
    [max_attempts], at most 16. *)
Theorem claims_respect_dependencies s org id owner c w' :
  reachable s → WorkflowService.claim_next org id owner (sys_world s) = (Ok (Some c), w') →
  let states := states_of (view (db_of s) (cl_run c)) in
  (∀ k, k ∈ depends_on (cl_spec c) → ∃ st, states !! k = Some st ∧ settled st = true) ∧
  (dependency_mode (cl_spec c) = DependencyMode.ALL →
     ∀ k, k ∈ depends_on (cl_spec c) → states !! k = Some WorkflowStepState.COMPLETED) ∧
  (dependency_mode (cl_spec c) = DependencyMode.ANY → depends_on (cl_spec c) ≠ [] →
     ∃ k, k ∈ depends_on (cl_spec c) ∧ states !! k = Some WorkflowStepState.COMPLETED) ∧
  1 ≤ sr_attempt_count (cl_step c) ≤ max_attempts (retry (cl_spec c)) ∧
  max_attempts (retry (cl_spec c)) ≤ 16.
Proof.
  intros [HT _]%reachable_inv H states.
  apply claim_next_claimed in H as (n & own & d' & row & f & Hcl & _); [|done].
  pose proof (clm_replaces _ _ _ _ _ _ _ _ _ Hcl) as (Hrow & _ & _).
  destruct (ti_runs _ _ HT (cl_run c)) as (specs & Hst & _ & [Hrows _]);
    [by eapply chg_in, clm_change|].
  destruct (claimed_spec _ _ _ _ _ _ _ _ _ _ Hcl Hst) as (Hin & Hk & Hm).
  pose proof (clm_ready _ _ _ _ _ _ _ _ _ Hcl) as Hready.
  destruct (Hrows row Hrow) as [Hg Ha Hw _ _].
  destruct Hg as (sp & Hsp & Hkey & Hres); [rewrite Hready; unfold started; set_solver|].
  assert (sp = cl_spec c) as ->.
  { apply (key_inj specs); [apply graph_keys, Hst|done|done|congruence]. }
  destruct (clm_of _ _ _ _ _ _ _ _ _ Hcl) as (_ & _ & Hcount & _).
  assert (sr_attempt_count row < sr_max_attempts row) by (apply Hw; rewrite Hready; unfold waiting; set_solver).
  pose proof (stored_valid _ _ _ Hst) as Hvalid. rewrite Forall_forall in Hvalid.
  specialize (Hvalid _ Hin). unfold spec_valid, retry_valid in Hvalid. booleans.
  split_and!; [by apply (resolves_settled_all _ _ _ Hres)|by apply resolves_READY_ALL|
    by apply resolves_READY_ANY|lia|lia|lia].
Qed.

(** At the second step of the demo workflow: [b] depends on the completed [a]. *)
Definition demo_at_b : System := mkSystem demo_finished_a [demo_token_a].

Lemma demo_at_b_reachable : reachable demo_at_b.
Proof. eapply reachable_step; [apply demo_claimed_reachable|apply demo_finished_a_step]. Qed.

Lemma demo_at_b_claim :
  WorkflowService.claim_next demo_org (wr_id demo_run) (Some 100%N) (sys_world demo_at_b)
  = (Ok (Some demo_token_b), demo_claimed_b).
Proof. vm_compute. reflexivity. Qed.

Lemma demo_b_deps : "a" ∈ depends_on (cl_spec demo_token_b).
Proof. vm_compute. constructor. Qed.

Lemma claims_respect_dependencies_witness :
  ∃ st, states_of (view (db_of demo_at_b) (cl_run demo_token_b)) !! "a" = Some st ∧ settled st = true.
Proof.
  exact (proj1 (claims_respect_dependencies demo_at_b demo_org (wr_id demo_run) (Some 100%N)
    demo_token_b demo_claimed_b demo_at_b_reachable demo_at_b_claim) "a" demo_b_deps).
Defined.

(** ** Fencing *)

(** No step row carries the claim any more. *)
Definition spent (d : DB) (c : StepClaim) : Prop :=
  ∀ r, r ∈ db_step_runs d → sr_id r = sr_id (cl_step c) →
    sr_state r ≠ WorkflowStepState.RUNNING ∨ sr_claim_token r ≠ Some (cl_claim_token c).

Lemma row_moves_spent n r r' c :
  (cl_claim_token c < n)%N → row_moves n r r' →
  sr_state r ≠ WorkflowStepState.RUNNING ∨ sr_claim_token r ≠ Some (cl_claim_token c) →
  sr_state r' ≠ WorkflowStepState.RUNNING ∨ sr_claim_token r' ≠ Some (cl_claim_token c).
Proof.
  intros Hlt [_ _ Ht Hc] Hsp.
  destruct (decide (sr_state r' = WorkflowStepState.RUNNING)) as [Hr'|]; [right|by left].
  destruct (decide (sr_state r = WorkflowStepState.RUNNING)) as [Hr|Hr].
  - destruct Hsp as [?|Htok]; [done|].
    destruct Ht as [->|[->|(? & _ & t & -> & ?)]]; [done|done|]. intros [= ->]. lia.
  - destruct (Hc Hr Hr') as (t & -> & ?). intros [= ->]. lia.
Qed.

(** A spent claim stays spent. *)
Lemma evolves_spent org d n d' n' c :
  evolves org d n d' n' → tables_inv d n → claim_inv d n c → spent d c → spent d' c.
Proof.
  intros Hev HT Hci Hsp r' Hr' Hid.
  destruct Hev as [Hc|run run' f _ Hch|v run rows _ _ Hadd|extra vs _ E2 _ _ _ _].
  - unfold core in Hc. injection Hc as _ _ _ _ Hs. apply Hsp; [by rewrite Hs|done].
  - destruct Hch as [Hin Hu Hs _ _ Hmv _]. rewrite (upd_steps _ _ _ _ Hu) in Hr'.
    apply list_elem_of_fmap in Hr' as (r & -> & Hr).
    pose proof (same_step_id _ _ (upd_same _ _ _ _ Hu r Hr)) as Hid'.
    assert (Hsr := Hsp r Hr (eq_trans (eq_sym Hid') Hid)).
    destruct (of_run (wr_organization_id run') (wr_id run') r) eqn:Hof.
    + eapply row_moves_spent; [apply Hci|apply Hmv|done].
      rewrite <- (view_same_run _ _ _ Hs). unfold view.
      apply list_elem_of_In, List.filter_In. split; [by apply list_elem_of_In|done].
    + by rewrite (upd_others _ _ _ _ Hu r Hr Hof).
  - pose proof (add_tables _ _ _ _ _ _ _ Hadd) as Hc. unfold core in Hc.
    injection Hc as _ _ _ _ Hs. rewrite <- Hs in Hr'. apply elem_of_app in Hr' as [Hr'|Hr'].
    + by apply Hsp.
    + apply (add_fresh _ _ _ _ _ _ _ Hadd) in Hr'. pose proof (add_id _ _ _ _ _ _ _ Hadd).
      pose proof (ci_step _ _ _ Hci). lia.
  - rewrite E2 in Hr'. by apply Hsp.
Qed.

Lemma sys_step_claims s s' c : c ∈ sys_claims s → sys_step s s' → c ∈ sys_claims s'.
Proof.
  intros Hc [org s1 Hstep|w' _]; [|done]. destruct Hstep; simpl in *; try done.
  destruct r as [[c'|]|]; [by apply list_elem_of_further|done|done].
Qed.

Lemma steps_spent s s' c :
  reachable s → c ∈ sys_claims s → rtc sys_step s s' → spent (db_of s) c → spent (db_of s') c.
Proof.
  intros Hr Hc Hs. induction Hs as [|s1 s2 s3 Hstep _ IH]; [done|]. intros Hsp.
  apply IH; [by eapply reachable_step|by eapply sys_step_claims|].
  pose proof (reachable_inv _ Hr) as HI.
  destruct (sys_step_evolves _ _ HI Hstep) as ((org & Hev) & _ & _). destruct HI as [HT Hci].
  by eapply evolves_spent; [exact Hev|exact HT|apply Hci|].
Qed.

(** A spent claim is refused. *)
Lemma spent_claimed_row org c w row w' : spent (w_db w) c → claimed_row org c w ≠ (Ok row, w').
Proof.
  intros Hsp H. apply ran_claimed_row in H as (_ & Hin & _ & Hid & Hs & _ & Htok).
  by destruct (Hsp row Hin Hid).
Qed.

Lemma fence_refuses {A} org c (k : WorkflowRunRecord → WorkflowStepRunRecord → M A) w a w' :
  spent (w_db w) c →
  (run ← live_run org (wr_id (cl_run c)); row ← claimed_row org c; k run row) w ≠ (Ok a, w').
Proof.
  intros Hsp H. ran H as run w1 Hr. apply ran_live_run in Hr as (-> & _).
  ran H as row w2 Hrow. by apply spent_claimed_row in Hrow.
Qed.

Lemma spent_finish org id c result w :
  spent (w_db w) c → ∃ e w', WorkflowService.finish org id c result w = (Err e, w') ∧ w_db w' = w_db w.
Proof.
  intros Hsp. destruct (WorkflowService.finish org id c result w) as [[run|e] w'] eqn:H.
  - exfalso. destruct result as [[output ref] skipped]. apply txn_committed in H.
    ran H as u w2 Hg. apply ran_guard in Hg as ->. ran H as before w3 Hb. injection Hb as <- <-.
    ran H as run' w4 Hf. destruct skipped as [ks|]; by apply fence_refuses in Hf.
  - exists e, w'. split; [done|]. destruct result as [[output ref] skipped]. by apply txn_rolled_back in H.
Qed.

Lemma spent_failure org id c exc w :
  spent (w_db w) c →
  ∃ e w', WorkflowService.record_failure org id c exc w = (Err e, w') ∧ w_db w' = w_db w.
Proof.
  intros Hsp. destruct (WorkflowService.record_failure org id c exc w) as [[u|e] w'] eqn:H.
  - exfalso. apply txn_committed in H. ran H as u' w2 Hg. apply ran_guard in Hg as ->.
    ran H as run w3 Hf. by apply fence_refuses in Hf.
  - exists e, w'. split; [done|]. by apply txn_rolled_back in H.
Qed.

(** The row a committed outcome leaves: no longer under the claim. *)
Lemma change_spent n org c d d' run run' row f :
  tables_inv d n → fenced org c d run row → run_change n d d' run run' f →
  sr_state (f row) ≠ WorkflowStepState.RUNNING → spent d' c.
Proof.
  intros HT Hfen Hch Hs r' Hr' Hid. destruct Hch as [Hin Hu _ _ _ _ _].
  rewrite (upd_steps _ _ _ _ Hu) in Hr'. apply list_elem_of_fmap in Hr' as (r & -> & Hr).
  pose proof (fen_row _ _ _ _ _ Hfen) as (Hrow & _ & _)%view_In.
  assert (r = row) as ->; [|by left]. apply (NoDup_map_inj sr_id (db_step_runs d)); [apply HT|done..|].
  rewrite (fen_id _ _ _ _ _ Hfen), <- Hid. symmetry. by apply same_step_id, (upd_same _ _ _ _ Hu).
Qed.

Lemma spent_core d d' c : core d = core d' → spent d c → spent d' c.
Proof. intros Hc Hsp r Hr. unfold core in Hc. injection Hc as _ _ _ _ Hs. rewrite <- Hs in Hr. by apply Hsp. Qed.

(** A committed outcome spends the claim. *)
Lemma finish_spends s org id c result run w' :
  sys_inv s → c ∈ sys_claims s →
  WorkflowService.finish org id c result (sys_world s) = (Ok run, w') → spent (w_db w') c.
Proof.
  intros [HT Hci] Hc H. destruct result as [[output ref] skipped]. apply txn_committed in H.
  ran H as u w2 Hg. apply ran_guard in Hg as ->. ran H as before w3 Hb. injection Hb as <- <-.
  ran H as run' w4 Hf. assert (Hsp : spent (w_db w4) c).
  { destruct skipped as [ks|].
    - apply (ran_finish_condition (n := w_next_uuid (sys_world s))) in Hf
        as (r & row & f & Hfen & Hch & Hs & _); [|apply HT|apply Hci, Hc].
      eapply change_spent; [exact HT|exact Hfen|exact Hch|]. by rewrite Hs.
    - apply (ran_finish_step (n := w_next_uuid (sys_world s))) in Hf
        as (r & row & f & Hfen & Hch & Hs & _); [|apply HT|apply Hci, Hc].
      eapply change_spent; [exact HT|exact Hfen|exact Hch|]. by rewrite Hs. }
  assert (Hq : same_core w4 w').
  { revert H. match goal with |- ?m w4 = _ → _ => assert (quiet m) as Hq by quietness end. apply Hq. }
  destruct Hq as [Hcore _]. by eapply spent_core.
Qed.

Lemma failure_spends s org id c exc u w' :
  sys_inv s → c ∈ sys_claims s →
  WorkflowService.record_failure org id c exc (sys_world s) = (Ok u, w') → spent (w_db w') c.
Proof.
  intros [HT Hci] Hc H. apply txn_committed in H.
  ran H as u' w2 Hg. apply ran_guard in Hg as ->. ran H as run' w3 Hf.
  apply (ran_fail_step (n := w_next_uuid (sys_world s))) in Hf
    as (r & row & f & Hfen & Hch & Hout); [|apply HT|apply Hci, Hc].
  assert (Hsp : spent (w_db w3) c).
  { eapply change_spent; [exact HT|exact Hfen|exact Hch|].
    destruct (_ && _); [destruct Hout as (_ & -> & _)|destruct Hout as (_ & ->)]; done. }
  assert (Hq : same_core w3 w').
  { revert H. match goal with |- ?m w3 = _ → _ => assert (quiet m) as Hq by quietness end. apply Hq. }
  destruct Hq as [Hcore _]. by eapply spent_core.
Qed.

(** C4. A claim has at most one outcome. Once a result or a failure was committed
    with a claim, then after any further steps of any worker, whatever other claims
    they hold, a second result or failure under the same claim is refused and
    leaves every table as it is. *)
Theorem claim_has_one_outcome s c s' :
  reachable s → c ∈ sys_claims s →
  (∃ org id result run w1, WorkflowService.finish org id c result (sys_world s) = (Ok run, w1) ∧
     rtc sys_step (mkSystem w1 (sys_claims s)) s') ∨
  (∃ org id exc u w1, WorkflowService.record_failure org id c exc (sys_world s) = (Ok u, w1) ∧
     rtc sys_step (mkSystem w1 (sys_claims s)) s') →
  (∀ org id result, ∃ e w', WorkflowService.finish org id c result (sys_world s') = (Err e, w') ∧
     w_db w' = db_of s') ∧
  (∀ org id exc, ∃ e w', WorkflowService.record_failure org id c exc (sys_world s') = (Err e, w') ∧
     w_db w' = db_of s').
Proof.
  intros Hr Hc Hout. pose proof (reachable_inv _ Hr) as HI.
  assert (Hsp : spent (db_of s') c).
  { destruct Hout as [(org & id & result & run & w1 & Hf & Hs)|(org & id & exc & u & w1 & Hf & Hs)].
    - assert (Hstep : sys_step s (mkSystem w1 (sys_claims s))).
      { replace w1 with (snd (WorkflowService.finish org id c result (sys_world s))) by (by rewrite Hf).
        destruct s. by apply (step_tenant _ org), step_finish. }
      apply (steps_spent (mkSystem w1 (sys_claims s))); [by eapply reachable_step|done|done|].
      by eapply finish_spends.
    - assert (Hstep : sys_step s (mkSystem w1 (sys_claims s))).
      { replace w1 with (snd (WorkflowService.record_failure org id c exc (sys_world s))) by (by rewrite Hf).
        destruct s. by apply (step_tenant _ org), step_fail. }
      apply (steps_spent (mkSystem w1 (sys_claims s))); [by eapply reachable_step|done|done|].
      by eapply failure_spends. }
  split; intros; [by apply spent_finish|by apply spent_failure].
Qed.

Definition demo_at_a : System := mkSystem demo_claimed [demo_token_a].

Lemma demo_a_outcome :
  ∃ org id result run w1,
    WorkflowService.finish org id demo_token_a result (sys_world demo_at_a) = (Ok run, w1) ∧
    rtc sys_step (mkSystem w1 (sys_claims demo_at_a)) demo_at_b.
Proof.
  exists demo_org, (wr_id demo_run), demo_output. unfold demo_at_b, demo_at_a, demo_finished_a.
  cbn [sys_world sys_claims].
  assert (Hok : match fst (WorkflowService.finish demo_org (wr_id demo_run) demo_token_a demo_output
    demo_claimed) with Ok _ => true | Err _ => false end = true) by (vm_compute; reflexivity).
  destruct (WorkflowService.finish demo_org (wr_id demo_run) demo_token_a demo_output demo_claimed)
    as [[run|e] w1]; [|done].
  exists run, w1. split; [done|]. apply rtc_refl.
Qed.

Lemma claim_has_one_outcome_witness :
  (∀ org id result, ∃ e w',
     WorkflowService.finish org id demo_token_a result (sys_world demo_at_b) = (Err e, w') ∧
     w_db w' = db_of demo_at_b) ∧
  (∀ org id exc, ∃ e w',
     WorkflowService.record_failure org id demo_token_a exc (sys_world demo_at_b) = (Err e, w') ∧
     w_db w' = db_of demo_at_b).
Proof.
  exact (claim_has_one_outcome demo_at_a demo_token_a demo_at_b demo_claimed_reachable
    (list_elem_of_here demo_token_a []) (or_introl demo_a_outcome)).
Defined.

(** ** Terminal runs are frozen *)

Lemma over_not_live run :
  is_over run → ¬ (wr_state run = WorkflowRunState.RUNNING ∨ wr_state run = WorkflowRunState.PAUSED).
Proof. intros Ht [E|E]; rewrite E in Ht; done. Qed.

Lemma evolves_over org d n d' n' run :
  tables_inv d n → evolves org d n d' n' → run ∈ db_runs d → is_over run →
  run ∈ db_runs d' ∧ view d' run = view d run.
Proof.
  intros HT [Hc|run0 run1 f _ Hch|v run0 rows _ _ Hadd|extra vs E1 E2 _ _ _ _] Hin Hover.
  - split; [|symmetry; by apply view_core]. unfold core in Hc. by injection Hc as _ _ _ <- _.
  - destruct Hch as [Hin0 Hu Hs Hlive _ _ _].
    assert (Hne : wr_id run ≠ wr_id run1).
    { intros Heq. assert (run = run0) as ->.
      { apply (NoDup_map_inj wr_id (db_runs d)); [apply HT|done..|]. by rewrite Heq, (same_run_id _ _ Hs). }
      by apply over_not_live in Hover. }
    split; [|by eapply run_update_view_other]. rewrite (upd_runs _ _ _ _ Hu).
    apply list_elem_of_fmap. exists run. by rewrite (proj2 (N.eqb_neq _ _) Hne).
  - destruct (added_view d d' n n' v run0 rows) as [_ Hv];
      [intros r Hr; by apply (ti_step_fresh _ _ HT)|done|].
    split; [|apply Hv; by apply (ti_run_fresh _ _ HT)].
    pose proof (add_tables _ _ _ _ _ _ _ Hadd) as Hc. unfold core in Hc. injection Hc as _ _ _ <- _.
    apply elem_of_app. by left.
  - unfold view. by rewrite E1, E2.
Qed.

Lemma steps_over s s' run :
  reachable s → rtc sys_step s s' → run ∈ db_runs (db_of s) → is_over run →
  run ∈ db_runs (db_of s') ∧ view (db_of s') run = view (db_of s) run.
Proof.
  intros Hr Hs Hin Hover. induction Hs as [|s1 s2 s3 Hstep _ IH]; [done|].
  pose proof (reachable_inv _ Hr) as HI.
  destruct (sys_step_evolves _ _ HI Hstep) as ((org & Hev) & _ & _).
  destruct (evolves_over _ _ _ _ _ _ (proj1 HI) Hev Hin Hover) as [Hin2 Hv2].
  destruct IH as [Hin3 Hv3]; [by eapply reachable_step|done|]. split; [done|congruence].
Qed.

(** A COMPLETED, FAILED or CANCELLED run is frozen: through every later step of
    every worker and tenant its row and all its step rows stay exactly as they
    are. *)
Theorem terminal_runs_are_frozen s s' run :
  reachable s → rtc sys_step s s' → run ∈ db_runs (db_of s) → is_over run →
  run ∈ db_runs (db_of s') ∧ view (db_of s') run = view (db_of s) run.
Proof. apply steps_over. Qed.

Definition demo_done : System := mkSystem demo_completed [demo_token_b; demo_token_a].

Definition demo_completed_run : WorkflowRunRecord :=
  match db_runs (w_db demo_completed) with r :: _ => r | [] => demo_run end.

(** The completed demo run, after another worker asks for a step. *)
Definition demo_after : System :=
  mkSystem (snd (WorkflowService.claim_next demo_org (wr_id demo_run) None demo_completed))
    [demo_token_b; demo_token_a].

Lemma claim_none_step org id owner w cs :
  match fst (WorkflowService.claim_next org id owner w) with Ok None => true | _ => false end = true →
  sys_step (mkSystem w cs) (mkSystem (snd (WorkflowService.claim_next org id owner w)) cs).
Proof.
  intros Hnone. apply (step_tenant _ org).
  destruct (WorkflowService.claim_next org id owner w) as [[[c|]|e] w1] eqn:Hc; try done.
  exact (step_claim _ w cs id owner (Ok None) w1 Hc).
Qed.

Lemma demo_claims_over :
  match fst (WorkflowService.claim_next demo_org (wr_id demo_run) None demo_completed)
  with Ok None => true | _ => false end = true.
Proof. vm_compute. reflexivity. Qed.

Lemma demo_after_steps : rtc sys_step demo_done demo_after.
Proof. apply rtc_once. exact (claim_none_step demo_org (wr_id demo_run) None demo_completed
  [demo_token_b; demo_token_a] demo_claims_over). Qed.

Lemma demo_done_reachable : reachable demo_done.
Proof. eapply reachable_steps; [apply demo_claimed_reachable|apply demo_completed_reachable]. Qed.

Lemma demo_completed_run_in : demo_completed_run ∈ db_runs (db_of demo_done) ∧ is_over demo_completed_run.
Proof.
  assert (db_runs (w_db demo_completed) = [demo_completed_run]) as Hruns by (vm_compute; reflexivity).
  unfold demo_done. cbn [sys_world]. rewrite Hruns. split; [by constructor|vm_compute; reflexivity].
Qed.

Lemma terminal_runs_are_frozen_witness :
  demo_completed_run ∈ db_runs (db_of demo_after) ∧
  view (db_of demo_after) demo_completed_run = view (db_of demo_done) demo_completed_run.
Proof.
  exact (terminal_runs_are_frozen demo_done demo_after demo_completed_run demo_done_reachable
    demo_after_steps (proj1 demo_completed_run_in) (proj2 demo_completed_run_in)).
Defined.

(** Every transition of a workflow is a legal one: from any reachable state, a
    step of the system takes each run to a state the run table allows (through at
    most its intermediate RUNNING) and keeps its identity, and takes each step row
    to the same state or to one the step table allows, never lowering its attempt
    count. *)
Theorem workflow_transitions_are_legal s s' run :
  reachable s → sys_step s s' → run ∈ db_runs (db_of s) →
  (∃ run', run' ∈ db_runs (db_of s') ∧ same_run run run' ∧ rtc legal (wr_state run) (wr_state run')) ∧
  (∀ r, r ∈ view (db_of s) run → ∃ r', r' ∈ db_step_runs (db_of s') ∧ same_step r r' ∧
     (sr_state r' = sr_state r ∨ require_step_transition (sr_state r) (sr_state r') = Ok tt) ∧
     sr_attempt_count r ≤ sr_attempt_count r').
Proof.
  intros HI%reachable_inv Hstep Hin.
  destruct (sys_step_evolves _ _ HI Hstep) as ((org & Hev) & _ & _). destruct HI as [HT _].
  split; [by eapply evolves_run|]. intros r Hr.
  destruct (evolves_step_row _ _ _ _ _ _ _ HT Hev Hin Hr) as (r' & Hr' & Hs & [Hst Ha _ _]).
  exists r'. split_and!; [done..| |done]. destruct Hst as [?|Hl]; [by left|right].
  by apply guard_transition_Ok.
Qed.

Lemma workflow_transitions_are_legal_witness :
  ∃ run', run' ∈ db_runs (db_of demo_at_a) ∧ same_run demo_run run' ∧
    rtc legal (wr_state demo_run) (wr_state run').
Proof.
  exact (proj1 (workflow_transitions_are_legal (mkSystem demo_started []) demo_at_a demo_run
    demo_started_reachable demo_claimed_step demo_run_in)).
Defined.
