(* ===== verification/WorkflowTenancy.v ===== *)
(** * WorkflowTenancy: tenants, placement and idempotent starts

    Tenant isolation of the workflow tables, the placement fence of
    [execution_transaction], idempotency of [start_run] and the outcomes of the
    individual operations. *)

From S2P Require Import Prelude.
From S2P Require Import Errors.
From S2P Require Import Lifecycles.
From S2P Require Import Conditions.
From S2P Require Import WorkflowGraph.
From S2P Require Import ScheduleSpec.
From S2P Require Import Store.
From S2P Require Import StoreLemmas.
From S2P Require Import WorkflowRepository.
From S2P Require Import WorkflowService.
From S2P Require Import AdvanceLemmas.
From S2P Require Import RunUpdate.
From S2P Require Import RunInvariant.
From S2P Require Import WorkflowOps.
From S2P Require Import WorkflowStart.
From S2P Require Import WorkflowSystem.
From S2P Require Import WorkflowDemo.
From S2P Require Import WorkflowSafety.

(** ** Isolation *)

(** The runs and steps of a tenant. *)
Definition runs_of (org : uuid) (d : DB) : list WorkflowRunRecord :=
  List.filter (λ r, N.eqb (wr_organization_id r) org) (db_runs d).
Definition steps_of (org : uuid) (d : DB) : list WorkflowStepRunRecord :=
  List.filter (λ r, N.eqb (sr_organization_id r) org) (db_step_runs d).

Lemma filter_update_other (p q : WorkflowRunRecord → bool) (b : WorkflowRunRecord) l :
  (∀ x, x ∈ l → q x = true → p x = false) → p b = false →
  List.filter p (update_where q (λ _, b) l) = List.filter p l.
Proof.
  unfold update_where. intros Hq Hb. induction l as [|x l IH]; [done|]. simpl.
  rewrite IH by (intros y ?; apply Hq; by constructor).
  destruct (q x) eqn:E; [|done]. rewrite Hb, (Hq x); [done|by constructor|done].
Qed.

Lemma filter_map_other {A} (p : A → bool) (f : A → A) l :
  (∀ x, x ∈ l → p (f x) = p x) → (∀ x, x ∈ l → p x = true → f x = x) →
  List.filter p (map f l) = List.filter p l.
Proof.
  intros Hp Hf. rewrite filter_map_same by done. apply map_id_on.
  intros x Hx. rewrite list_elem_of_In, List.filter_In, <- list_elem_of_In in Hx.
  destruct Hx. auto.
Qed.

Lemma evolves_isolated org org' d n d' n' :
  tables_inv d n → evolves org d n d' n' → org' ≠ org →
  runs_of org' d' = runs_of org' d ∧ steps_of org' d' = steps_of org' d.
Proof.
  intros HT [Hc|run run' f Horg Hch|v run rows Horg _ Hadd|extra vs E1 E2 _ _ _ _] Hne;
    unfold runs_of, steps_of.
  - unfold core in Hc. injection Hc as _ _ _ -> ->. done.
  - destruct Hch as [Hin Hu Hs _ _ _ _].
    pose proof (same_run_org _ _ Hs) as Ho. pose proof (same_run_id _ _ Hs) as Hid.
    assert (Hb : N.eqb (wr_organization_id run') org' = false) by (apply N.eqb_neq; congruence).
    split.
    + rewrite (upd_runs _ _ _ _ Hu). apply filter_update_other; [|done].
      intros x Hx ?%N.eqb_eq. assert (x = run) as ->; [|by rewrite <- Ho].
      apply (NoDup_map_inj wr_id (db_runs d)); [apply HT|done..|congruence].
    + rewrite (upd_steps _ _ _ _ Hu). apply filter_map_other.
      * intros r Hr. apply (upd_same _ _ _ _ Hu) in Hr. unfold same_step, step_identity in Hr.
        injection Hr as _ <- _ _ _ _ _ _ _. done.
      * intros r Hr Hp%N.eqb_eq. apply (upd_others _ _ _ _ Hu); [done|].
        unfold of_run. apply andb_false_iff. left. apply N.eqb_neq. congruence.
  - pose proof (add_tables _ _ _ _ _ _ _ Hadd) as Hc. unfold core in Hc. injection Hc as _ _ _ <- <-.
    simpl. rewrite !List.filter_app. simpl.
    rewrite (proj2 (N.eqb_neq (wr_organization_id run) org')) by congruence.
    rewrite (filter_nil_not_elem_of _ rows), !app_nil_r; [done|]. intros r Hr.
    destruct (Forall2_in_l _ _ _ _ (add_rows _ _ _ _ _ _ _ Hadd) Hr) as (sp & _ & Hst).
    apply N.eqb_neq. rewrite (st_org _ _ _ _ Hst). congruence.
  - by rewrite E1, E2.
Qed.

(** C23. Tenants are isolated: whatever workflow operation a caller of one tenant
    runs, with whatever identifiers (another tenant's run or step ids included), the
    run and step rows of every other tenant are untouched. *)
Theorem tenants_are_isolated s s' org org' :
  reachable s → tenant_step org s s' → org' ≠ org →
  runs_of org' (db_of s') = runs_of org' (db_of s) ∧
  steps_of org' (db_of s') = steps_of org' (db_of s).
Proof.
  intros HI%reachable_inv Hstep Hne.
  destruct (tenant_step_evolves _ _ _ HI Hstep) as (Hev & _ & _).
  by eapply evolves_isolated; [apply HI|..].
Qed.

(** Tenant 8 tries to cancel the run of tenant 7. *)
Definition demo_intruder : System := mkSystem (snd (WorkflowService.cancel_run 8 (wr_id demo_run) demo_started)) [].

Lemma demo_intruder_step : tenant_step 8 (mkSystem demo_started []) demo_intruder.
Proof. apply step_cancel. Qed.

Lemma tenants_are_isolated_witness :
  runs_of 7 (db_of demo_intruder) = runs_of 7 (w_db demo_started) ∧
  steps_of 7 (db_of demo_intruder) = steps_of 7 (w_db demo_started).
Proof.
  exact (tenants_are_isolated (mkSystem demo_started []) demo_intruder 8 7
    demo_started_reachable demo_intruder_step (ltac:(discriminate) : 7%N ≠ 8%N)).
Defined.

(** ** Placement *)

(** The worker may execute for the tenant: an unplaced worker only for a tenant
    without placement, a placed worker only on its own registered cell, for the
    tenant's current ACTIVE placement and, when it was routed, at the generation it
    was routed with. *)
Definition admitted (org : uuid) (w : World) : Prop :=
  match w_worker_cell_id w with
  | None => placement_of org (w_db w) = None
  | Some worker =>
      ∃ placement cell, placement_of org (w_db w) = Some placement ∧
        cell_of worker (w_db w) = Some cell ∧ cell_state cell = CellState.REGISTERED ∧
        op_cell_id placement = worker ∧ op_state placement = PlacementState.ACTIVE ∧
        ∀ route, w_route w = Some route →
          ps_organization_id route = org ∧ ps_cell_id route = worker ∧
          ps_placement_id route = op_id placement ∧
          ps_assignment_generation route = op_assignment_generation placement ∧
          ps_state route = PlacementState.ACTIVE
  end.

Lemma ran_admit worker org expected w u w' :
  placement_admit worker org expected w = (Ok u, w') →
  ∃ placement cell, placement_of org (w_db w) = Some placement ∧
    cell_of worker (w_db w) = Some cell ∧ cell_state cell = CellState.REGISTERED ∧
    op_cell_id placement = worker ∧ op_state placement = PlacementState.ACTIVE ∧
    ps_organization_id expected = org ∧ ps_cell_id expected = worker ∧
    ps_placement_id expected = op_id placement ∧
    ps_assignment_generation expected = op_assignment_generation placement ∧
    ps_state expected = PlacementState.ACTIVE.
Proof.
  unfold placement_admit. destruct (_ || _) eqn:H1; [done|]. intros H. ran H as d w1 Hd. injection Hd as <- <-.
  destruct (cell_of worker (w_db w)) as [cell|]; [|done].
  case_bool_decide as Hcell; [|done]. cbn [negb] in H.
  destruct (placement_of org (w_db w)) as [p|]; [|done].
  destruct (_ || _ || _ || _ || _) eqn:H2; [done|]. booleans.
  repeat match goal with H : N.eqb _ _ = true |- _ => apply N.eqb_eq in H
         | H : Z.eqb _ _ = true |- _ => apply Z.eqb_eq in H end.
  exists p, cell. split_and!; congruence.
Qed.

Lemma guard_admitted org w u w' : execution_guard org w = (Ok u, w') → admitted org w.
Proof.
  unfold execution_guard, admitted. intros H. ran H as d w1 Hd. injection Hd as <- <-.
  ran H as wk w2 Hw. injection Hw as <- <-.
  destruct (w_worker_cell_id w) as [worker|], (placement_of org (w_db w)) as [p|] eqn:Hp; try done.
  ran H as route w3 Hr. injection Hr as <- <-.
  apply ran_admit in H as (p' & cell & Hp' & Hc & Hs & Hcell & Hst & A1 & A2 & A3 & A4 & A5).
  exists p', cell. rewrite Hp' in Hp. injection Hp as ->. split_and!; try done.
  intros r Hr. by rewrite Hr in *.
Qed.

(** Work is executed only under the tenant's current placement: an
    [execution_transaction] whose worker is not admitted raises, never runs its
    body and leaves the database as it is. *)
Theorem execution_requires_admission {A} org (m : M A) w :
  ¬ admitted org w →
  ∃ e, execution_transaction org m w = (Err e, snd (execution_transaction org m w)) ∧
       w_db (snd (execution_transaction org m w)) = w_db w ∧
       ∀ m' : M A, fst (execution_transaction org m' w) = Err e.
Proof.
  intros Hno. unfold execution_transaction, tenant_transaction.
  set (w0 := set_w_txn_now _ _).
  destruct (execution_guard org w0) as [[u|e] w1] eqn:Hg.
  - apply guard_admitted in Hg. done.
  - exists e. unfold mbind, M_bind. rewrite Hg. done.
Qed.

(** A placed worker whose tenant has no placement. *)
Definition demo_misplaced : World :=
  mkWorld Z.of_nat 0 0 1 None "nexus-ai" (Some 5%N) None empty_db [].

Lemma demo_not_admitted : ¬ admitted demo_org demo_misplaced.
Proof. intros (p & cell & Hp & _). discriminate Hp. Qed.

Lemma execution_requires_admission_witness :
  ∃ e, execution_transaction demo_org (mret tt) demo_misplaced
         = (Err e, snd (execution_transaction demo_org (mret tt) demo_misplaced)) ∧
       w_db (snd (execution_transaction demo_org (mret tt) demo_misplaced)) = w_db demo_misplaced ∧
       ∀ m' : M unit, fst (execution_transaction demo_org m' demo_misplaced) = Err e.
Proof. exact (execution_requires_admission demo_org (mret tt) demo_misplaced demo_not_admitted). Defined.

(** ** Idempotent starts *)

(** The run of a key persists. *)
Lemma steps_run s s' run :
  reachable s → rtc sys_step s s' → run ∈ db_runs (db_of s) →
  ∃ run', run' ∈ db_runs (db_of s') ∧ same_run run run'.
Proof.
  intros Hr Hs. revert run. induction Hs as [|s1 s2 s3 Hstep _ IH]; intros run Hin.
  - exists run. split; [done|reflexivity].
  - pose proof (reachable_inv _ Hr) as HI.
    destruct (sys_step_evolves _ _ HI Hstep) as ((org & Hev) & _ & _).
    destruct (evolves_run _ _ _ _ _ _ (proj1 HI) Hev Hin) as (run1 & Hin1 & Hs1 & _).
    destruct (IH (reachable_step _ _ Hr Hstep) run1 Hin1) as (run2 & Hin2 & Hs2).
    exists run2. split; [done|by etrans].
Qed.

(** What a committed [start_txn] returned. *)
Lemma start_txn_run org v request print w run w' :
  tables_inv (w_db w) (w_next_uuid w) →
  WorkflowService.start_txn org v request print w = (Ok run, w') →
  run ∈ db_runs (w_db w') ∧ wr_organization_id run = org ∧ wr_version_id run = ver_id v ∧
  wr_request_fingerprint run = print ∧
  (∀ k, sw_idempotency_key request = Some k → wr_idempotency_key run = Some k).
Proof.
  intros HT H. apply txn_committed in H. ran H as u w2 Hg. apply ran_guard in Hg as ->.
  ran H as res w3 Hst. destruct res as [run0 created].
  apply ran_start_run in Hst as (Horg & Hver & Hcase); [|apply HT].
  destruct (negb created && negb (String.eqb (wr_request_fingerprint run0) print)) eqn:Hconf; [done|].
  assert (Hq : same_core w3 w' ∧ run = run0).
  { ran H as u' w4 Hev. injection H as <- <-. split; [|done].
    revert Hev. match goal with |- ?m w3 = _ → _ => assert (quiet m) as Hq by quietness end. apply Hq. }
  destruct Hq as [[Hc _] ->]. unfold core in Hc. injection Hc as _ _ _ Hruns _. rewrite <- Hruns.
  destruct created.
  - destruct Hcase as (Hk & Hfp & _ & rows & Hadd).
    pose proof (add_tables _ _ _ _ _ _ _ Hadd) as Hc. unfold core in Hc. injection Hc as _ _ _ <- _.
    split_and!; try done; [apply elem_of_app; right; by constructor|]. intros k ?. congruence.
  - destruct Hcase as (-> & Hin & k & Hk & _ & Hkey). simpl in Hconf.
    apply negb_false_iff, String.eqb_eq in Hconf. split_and!; try done.
    intros k' Hk'. congruence.
Qed.

(** Starting a run is idempotent. After a start under a key was committed, and
    any further steps, another start of the same version under the same key creates
    nothing: it returns the same run when the request is the same and raises when
    the request differs. *)
Theorem start_is_idempotent s org v request print run w1 s' request' print' :
  reachable s → observed (db_of s) org v →
  WorkflowService.start_txn org v request print (sys_world s) = (Ok run, w1) →
  rtc sys_step (mkSystem w1 (sys_claims s)) s' →
  sw_idempotency_key request' = sw_idempotency_key request → sw_idempotency_key request ≠ None →
  match WorkflowService.start_txn org v request' print' (sys_world s') with
  | (Ok run', w2) => wr_id run' = wr_id run ∧ print' = print ∧ db_runs (w_db w2) = db_runs (db_of s')
  | (Err e, w2) => w_db w2 = db_of s'
  end.
Proof.
  intros Hr Hobs Hst Hs Hkey Hsome.
  destruct (sw_idempotency_key request) as [k|] eqn:Hk; [|done].
  assert (Hstep : sys_step s (mkSystem w1 (sys_claims s))).
  { replace w1 with (snd (WorkflowService.start_txn org v request print (sys_world s))) by (by rewrite Hst).
    destruct s. by apply (step_tenant _ org), step_start. }
  pose proof (reachable_inv _ Hr) as [HT _].
  apply start_txn_run in Hst as (Hin & Ho & Hv & Hfp & Hkr); [|done]. specialize (Hkr k Hk).
  destruct (steps_run (mkSystem w1 (sys_claims s)) s' run) as (run2 & Hin2 & Hs2);
    [by eapply reachable_step|done|done|].
  assert (Hr' : reachable s') by (eapply reachable_steps; [|exact Hs]; by eapply reachable_step).
  pose proof (reachable_inv _ Hr') as [HT' _].
  unfold same_run, run_identity in Hs2. injection Hs2 as E1 E2 _ E4 _ E6 E7 _.
  destruct (WorkflowService.start_txn org v request' print' (sys_world s')) as [[run'|e] w2] eqn:Hst2.
  - pose proof Hst2 as Hst3. apply start_txn_run in Hst3 as (Hin3 & Ho3 & Hv3 & Hfp3 & Hk3); [|done].
    specialize (Hk3 k Hkey). apply txn_committed in Hst2. ran Hst2 as u w3 Hg. apply ran_guard in Hg as ->.
    ran Hst2 as res w4 Hrun. destruct res as [run0 created].
    apply ran_start_run in Hrun as (Ho0 & Hv0 & Hcase); [|apply HT'].
    destruct (negb created && negb _) eqn:Hconf; [done|]. ran Hst2 as u' w5 Hev. injection Hst2 as <- <-.
    assert (Hc : same_core w4 w5).
    { revert Hev. match goal with |- ?m w4 = _ → _ => assert (quiet m) as Hq by quietness end. apply Hq. }
    destruct created.
    + destruct Hcase as (Hk0 & _ & _ & rows & Hadd). exfalso.
      eapply (violates_false _ _ (add_unique _ _ _ _ _ _ _ Hadd) run2 k); simpl; congruence || done.
    + destruct Hcase as (-> & Hin0 & _). simpl in Hin0.
      assert (run0 = run2) as ->.
      { eapply (ti_keys _ _ HT' _ _ k); simpl; congruence || done. }
      split_and!; [congruence|congruence|]. destruct Hc as [Hc _]. unfold core in Hc.
      by injection Hc as _ _ _ <- _.
  - by apply txn_rolled_back in Hst2.
Qed.

Definition demo_published_sys : System := mkSystem demo_published [].

Lemma demo_published_reachable : reachable demo_published_sys.
Proof.
  exists (mkSystem demo_world []). split; [done|].
  eapply rtc_l; [apply (step_tenant _ demo_org), (step_create _ _ _ demo_request);
    vm_compute; repeat constructor|].
  apply rtc_once. apply (step_tenant _ demo_org), (step_publish _ _ _ demo_hash 1 demo_steps ["a"; "b"]).
  vm_compute. reflexivity.
Qed.

Definition demo_start_result : WorkflowRunRecord * World :=
  match WorkflowService.start_txn demo_org demo_version (demo_start "k1") "print" demo_published with
  | (Ok r, w) => (r, w)
  | (Err _, w) => (demo_run, w)
  end.

Lemma demo_start_ok :
  WorkflowService.start_txn demo_org demo_version (demo_start "k1") "print" (sys_world demo_published_sys)
  = (Ok (fst demo_start_result), snd demo_start_result).
Proof. vm_compute. reflexivity. Qed.

Definition demo_restarted : System := mkSystem (snd demo_start_result) (sys_claims demo_published_sys).

Lemma start_is_idempotent_witness :
  match WorkflowService.start_txn demo_org demo_version (demo_start "k1") "other" (sys_world demo_restarted) with
  | (Ok run', w2) => wr_id run' = wr_id (fst demo_start_result) ∧ "other" = "print" ∧
      db_runs (w_db w2) = db_runs (db_of demo_restarted)
  | (Err e, w2) => w_db w2 = db_of demo_restarted
  end.
Proof.
  exact (start_is_idempotent demo_published_sys demo_org demo_version (demo_start "k1") "print"
    (fst demo_start_result) (snd demo_start_result) demo_restarted (demo_start "k1") "other"
    demo_published_reachable demo_observed demo_start_ok (rtc_refl _ _) eq_refl
    (ltac:(discriminate) : Some "k1" ≠ None)).
Defined.

(** ** Outcomes of single operations *)

Lemma transition_committed org id t reason ev w run w' :
  WorkflowService.transition org id t reason ev w = (Ok run, w') →
  ∃ w0 w1, w_db w0 = w_db w ∧ w_next_uuid w0 = w_next_uuid w ∧
    transition_run org id t reason w0 = (Ok (Some run), w1) ∧ same_core w1 w'.
Proof.
  intros H. apply txn_committed in H. ran H as res w1 Ht. destruct res as [run0|]; [|done].
  ran H as u w2 Hev. injection H as <- <-. unfold run_event in Hev. apply ran_enqueue in Hev.
  eexists _, w1. split_and!; [| |exact Ht|done]; done.
Qed.

(** Terminal runs take no results. *)
Lemma over_refuses {A} org c (k : WorkflowRunRecord → WorkflowStepRunRecord → M A) w n run a w' :
  tables_inv (w_db w) n → run ∈ db_runs (w_db w) → is_over run → wr_id (cl_run c) = wr_id run →
  (r ← live_run org (wr_id (cl_run c)); row ← claimed_row org c; k r row) w ≠ (Ok a, w').
Proof.
  intros HT Hin Hover Hid H. ran H as run0 w1 Hr.
  apply ran_live_run in Hr as (_ & Hin0 & _ & Hid0 & Hlive).
  assert (run0 = run) as -> by (apply (NoDup_map_inj wr_id (db_runs (w_db w))); [apply HT|done..|congruence]).
  by apply over_not_live in Hover.
Qed.

Lemma over_finish org id c result w n run :
  tables_inv (w_db w) n → run ∈ db_runs (w_db w) → is_over run → wr_id (cl_run c) = wr_id run →
  ∃ e w', WorkflowService.finish org id c result w = (Err e, w') ∧ w_db w' = w_db w.
Proof.
  intros HT Hin Hover Hid.
  destruct (WorkflowService.finish org id c result w) as [[run0|e] w'] eqn:H.
  - exfalso. destruct result as [[output ref] skipped]. apply txn_committed in H.
    ran H as u w2 Hg. apply ran_guard in Hg as ->. ran H as before w3 Hb. injection Hb as <- <-.
    ran H as run' w4 Hf.
    destruct skipped as [ks|]; eapply over_refuses in Hf; [done|exact HT|done..|exact HT|done|done|done].
  - exists e, w'. split; [done|]. destruct result as [[output ref] skipped]. by apply txn_rolled_back in H.
Qed.

(** Cancelling is final. When [cancel_run] returns, the run is CANCELLED and
    none of its steps is PENDING or READY; and in every later state the result of a
    step of that run, still held by some worker, is refused and changes nothing. *)
Theorem cancel_is_final s org id run w1 :
  reachable s → WorkflowService.cancel_run org id (sys_world s) = (Ok run, w1) →
  wr_id run = id ∧ wr_state run = WorkflowRunState.CANCELLED ∧
  (∀ r, r ∈ view (w_db w1) run → ¬ waiting (sr_state r)) ∧
  (∀ s' c org' id' result, rtc sys_step (mkSystem w1 (sys_claims s)) s' →
     wr_id (cl_run c) = id →
     ∃ e w', WorkflowService.finish org' id' c result (sys_world s') = (Err e, w') ∧
             w_db w' = db_of s').
Proof.
  intros Hr H. pose proof (reachable_inv _ Hr) as HI. pose proof HI as [HT _].
  assert (Hstep : sys_step s (mkSystem w1 (sys_claims s))).
  { replace w1 with (snd (WorkflowService.cancel_run org id (sys_world s))) by (by rewrite H).
    destruct s. by apply (step_tenant _ org), step_cancel. }
  unfold WorkflowService.cancel_run in H. apply transition_committed in H as (w0 & w2 & Hdb & Hn & Ht & Hc).
  assert (Htarget : wr_state run = WorkflowRunState.CANCELLED).
  { unfold transition_run in Ht. ran Ht as found wa Hf. destruct found as [row|]; [|done].
    ran Ht as row1 wb Htr. apply ran_transition_row in Htr as (_ & _ & Hst & _).
    simpl in Ht. ran Ht as steps wc Hs. ran Ht as rows wd Hm. ran Ht as u we Hp. by injection Ht as <- <-. }
  apply (ran_transition_run (n := w_next_uuid w0)) in Ht as (run0 & f & Ho & Hid & Hch);
    [|rewrite Hdb; apply HT|auto].
  pose proof Hch as [Hin0 Hu Hs _ _ _ Hinv].
  assert (Hin1 : run ∈ db_runs (w_db w1)).
  { destruct Hc as [Hc _]. unfold core in Hc. injection Hc as _ _ _ <- _.
    rewrite (upd_runs _ _ _ _ Hu). eapply update_where_in; [exact Hin0|].
    rewrite (same_run_id _ _ Hs). apply N.eqb_refl. }
  split_and!; [by rewrite (same_run_id _ _ Hs)|done| |].
  - rewrite Hdb in Hinv, Hin0. destruct (ti_runs _ _ HT run0 Hin0) as (specs & Hst & _ & Hri).
    specialize (Hinv specs Hst Hri) as [_ Hstat]. rewrite Htarget in Hstat.
    intros r. destruct Hc as [Hc _]. rewrite <- (view_core _ _ _ Hc). apply Hstat.
  - intros s' c org' id' result Hs' Hid'.
    assert (Hr1 : reachable (mkSystem w1 (sys_claims s))) by (by eapply reachable_step).
    assert (Hover : is_over run) by (rewrite Htarget; done).
    assert (Hin' : run ∈ db_runs (db_of s')).
    { by apply (steps_over (mkSystem w1 (sys_claims s))). }
    assert (Hr' : reachable s') by (by eapply reachable_steps).
    eapply over_finish; [apply (reachable_inv _ Hr')|exact Hin'|done|].
    by rewrite Hid', (same_run_id _ _ Hs).
Qed.

Definition demo_cancel_result : WorkflowRunRecord * World :=
  match WorkflowService.cancel_run demo_org (wr_id demo_run) demo_claimed with
  | (Ok r, w) => (r, w)
  | (Err _, w) => (demo_run, w)
  end.

Lemma demo_cancel_ok :
  WorkflowService.cancel_run demo_org (wr_id demo_run) (sys_world demo_at_a)
  = (Ok (fst demo_cancel_result), snd demo_cancel_result).
Proof. vm_compute. reflexivity. Qed.

Lemma cancel_is_final_witness :
  wr_state (fst demo_cancel_result) = WorkflowRunState.CANCELLED.
Proof.
  exact (proj1 (proj2 (cancel_is_final demo_at_a demo_org (wr_id demo_run) (fst demo_cancel_result)
    (snd demo_cancel_result) demo_claimed_reachable demo_cancel_ok))).
Defined.

(** What a failure does. When [record_failure] commits, the step goes back to
    READY with its claim dropped and the run goes on exactly when the error is
    retryable, its code is listed in the retry policy and attempts remain;
    otherwise the step and the run are FAILED. *)
Theorem failure_outcome s org id c exc u w1 :
  reachable s → c ∈ sys_claims s →
  WorkflowService.record_failure org id c exc (sys_world s) = (Ok u, w1) →
  ∃ run row run' row',
    run ∈ db_runs (db_of s) ∧ row ∈ view (db_of s) run ∧ sr_id row = sr_id (cl_step c) ∧
    run' ∈ db_runs (w_db w1) ∧ same_run run run' ∧ row' ∈ view (w_db w1) run ∧ same_step row row' ∧
    if retryable exc && bool_decide (code exc ∈ retryable_codes (retry (cl_spec c))) &&
       (sr_attempt_count row <? sr_max_attempts row)
    then wr_state run' = wr_state run ∧ sr_state row' = WorkflowStepState.READY ∧
         sr_claim_token row' = None
    else wr_state run' = WorkflowRunState.FAILED ∧ sr_state row' = WorkflowStepState.FAILED.
Proof.
  intros [HT Hci]%reachable_inv Hc H. apply txn_committed in H.
  ran H as u' w2 Hg. apply ran_guard in Hg as ->. ran H as run' w3 Hf.
  assert (Hq : same_core w3 w1).
  { revert H. match goal with |- ?m w3 = _ → _ => assert (quiet m) as Hq by quietness end. apply Hq. }
  apply (ran_fail_step (n := w_next_uuid (sys_world s))) in Hf
    as (run & row & f & Hfen & Hch & Hout); [|apply HT|apply Hci, Hc].
  destruct Hq as [Hcore _]. destruct Hch as [Hin Hu Hs _ _ _ _].
  pose proof (fen_row _ _ _ _ _ Hfen) as Hrow.
  exists run, row, run', (f row). split_and!; try done.
  - by eapply fen_id.
  - unfold core in Hcore. injection Hcore as _ _ _ <- _. rewrite (upd_runs _ _ _ _ Hu).
    eapply update_where_in; [exact Hin|]. rewrite (same_run_id _ _ Hs). apply N.eqb_refl.
  - rewrite <- (view_core _ _ _ Hcore), (run_update_view _ _ _ _ _ Hu).
    by apply list_elem_of_fmap_2.
  - apply (upd_same _ _ _ _ Hu). by apply view_In in Hrow as [? _].
Qed.

Definition demo_error : NxsError := WorkflowErr (WorkflowStepFailedError "NXS_TOOL").

Definition demo_failure_result : World :=
  snd (WorkflowService.record_failure demo_org (wr_id demo_run) demo_token_a demo_error demo_claimed).

Lemma demo_failure_ok :
  WorkflowService.record_failure demo_org (wr_id demo_run) demo_token_a demo_error
    (sys_world demo_at_a) = (Ok tt, demo_failure_result).
Proof. vm_compute. reflexivity. Qed.

Lemma failure_outcome_witness :
  ∃ run row run' row',
    run ∈ db_runs (db_of demo_at_a) ∧ row ∈ view (db_of demo_at_a) run ∧
    sr_id row = sr_id (cl_step demo_token_a) ∧
    run' ∈ db_runs (w_db demo_failure_result) ∧ same_run run run' ∧
    row' ∈ view (w_db demo_failure_result) run ∧ same_step row row' ∧
    if retryable demo_error &&
       bool_decide (code demo_error ∈ retryable_codes (retry (cl_spec demo_token_a))) &&
       (sr_attempt_count row <? sr_max_attempts row)
    then wr_state run' = wr_state run ∧ sr_state row' = WorkflowStepState.READY ∧
         sr_claim_token row' = None
    else wr_state run' = WorkflowRunState.FAILED ∧ sr_state row' = WorkflowStepState.FAILED.
Proof.
  exact (failure_outcome demo_at_a demo_org (wr_id demo_run) demo_token_a demo_error tt
    demo_failure_result demo_claimed_reachable (list_elem_of_here demo_token_a []) demo_failure_ok).
Defined.

(** C24. The invariant of the workflow tables: in every reachable state primary keys
    are unique, published versions and drafts are valid acyclic graphs, idempotency
    keys are unique, and every run satisfies [run_inv] against the steps of its
    version: steps started only when their dependencies decide so, attempts within
    the policy, RUNNING steps claimed, and the run state in agreement with its
    steps. *)
Theorem workflow_invariant s :
  reachable s →
  tables_inv (db_of s) (w_next_uuid (sys_world s)) ∧
  ∀ run, run ∈ db_runs (db_of s) → ∃ specs,
    run_stored (db_of s) run specs ∧ specs_ok specs ∧ run_inv (wr_state run) specs (view (db_of s) run).
Proof.
  intros [HT _]%reachable_inv. split; [done|]. intros run Hin.
  destruct (ti_runs _ _ HT run Hin) as (specs & Hst & Hac & Hri). exists specs.
  split_and!; [done| |done]. split_and!; [apply Hst|done|apply Hst].
Qed.

Lemma workflow_invariant_witness :
  tables_inv (db_of demo_at_b) (w_next_uuid (sys_world demo_at_b)).
Proof. exact (proj1 (workflow_invariant demo_at_b demo_at_b_reachable)). Defined.
