(* ===== verification/SchedulerRepository.v ===== *)
(** * SchedulerRepository: durable schedules and occurrences

    The operations of [domain/scheduler/repository.py] on the tables of [Store],
    each the whole method: the guard it evaluates, the rows it writes, the
    transition history it appends. A row object that is assigned is written back
    under its primary key; [clock_timestamp()] is the next reading of the clock,
    one per statement. *)

From S2P Require Import Prelude.
From S2P Require Import Errors.
From S2P Require Import Lifecycles.
From S2P Require Import Conditions.
From S2P Require Import ScheduleSpec.
From S2P Require Import Store.
From S2P Require Import Identity.

Definition schedule_state_value (s : ScheduleState) : string :=
  match s with
  | ScheduleState.DRAFT => "DRAFT"
  | ScheduleState.ACTIVE => "ACTIVE"
  | ScheduleState.PAUSED => "PAUSED"
  | ScheduleState.COMPLETED => "COMPLETED"
  | ScheduleState.CANCELLED => "CANCELLED"
  end.

Definition occurrence_state_value (s : OccurrenceState) : string :=
  match s with
  | OccurrenceState.PENDING => "PENDING"
  | OccurrenceState.CLAIMED => "CLAIMED"
  | OccurrenceState.DISPATCHED => "DISPATCHED"
  | OccurrenceState.FAILED => "FAILED"
  | OccurrenceState.SKIPPED => "SKIPPED"
  | OccurrenceState.CANCELLED => "CANCELLED"
  end.

Definition misfire_policy_value (p : MisfirePolicy) : string :=
  match p with
  | MisfirePolicy.SKIP => "SKIP"
  | MisfirePolicy.FIRE_ONCE => "FIRE_ONCE"
  | MisfirePolicy.CATCH_UP_BOUNDED => "CATCH_UP_BOUNDED"
  end.

(** [OccurrenceClaim] of [scheduler/entities.py] *)
Record OccurrenceClaim : Type := mkOccurrenceClaim {
  oc_occurrence : SchedulerOccurrenceRecord;
  oc_owner_id : uuid;
  oc_claim_token : uuid;
  oc_workflow_input : list (string * json);
}.

(** [select clock_timestamp()] *)
Definition database_now : M Z := utcnow.

(** ** Rows *)

Definition is_schedule (org id : uuid) (s : SchedulerScheduleRecord) : bool :=
  N.eqb (ss_organization_id s) org && N.eqb (ss_id s) id.

Definition is_occurrence (org id : uuid) (o : SchedulerOccurrenceRecord) : bool :=
  N.eqb (so_organization_id o) org && N.eqb (so_id o) id.

Definition schedule_row (org id : uuid) : M (option SchedulerScheduleRecord) :=
  gets (λ w, List.find (is_schedule org id) (db_schedules (w_db w))).

Definition schedule_by_key (org : uuid) (k : string) : M (option SchedulerScheduleRecord) :=
  gets (λ w, List.find (λ s, N.eqb (ss_organization_id s) org && String.eqb (ss_schedule_key s) k)
                       (db_schedules (w_db w))).

Definition occurrence_row (org id : uuid) : M (option SchedulerOccurrenceRecord) :=
  gets (λ w, List.find (is_occurrence org id) (db_occurrences (w_db w))).

(** Flush of an assigned row. *)
Definition put_schedule (row : SchedulerScheduleRecord) : M unit :=
  modify_db (λ d, set_db_schedules
    (update_where (λ s, N.eqb (ss_id s) (ss_id row)) (λ _, row) (db_schedules d)) d).

Definition put_occurrence (row : SchedulerOccurrenceRecord) : M unit :=
  modify_db (λ d, set_db_occurrences
    (update_where (λ o, N.eqb (so_id o) (so_id row)) (λ _, row) (db_occurrences d)) d).

(** ** History *)

Definition add_history (row : SchedulerTransitionHistoryRecord) : M unit :=
  modify_db (λ d, set_db_schedule_history (db_schedule_history d ++ [row]) d).

(** [add_transition("SCHEDULE", ...)] *)
Definition add_schedule_transition (org schedule_id : uuid) (from_state : option string)
    (to_state reason_code source : string) : M unit :=
  id ← fresh_uuid;
  correlation ← gets w_correlation;
  now ← txn_now;
  add_history (mkScheduleTransition id org schedule_id None "SCHEDULE" schedule_id from_state
    to_state reason_code source correlation None now).

(** [add_transition("OCCURRENCE", ...)] first reads the schedule of the occurrence. *)
Definition add_occurrence_transition (org occurrence_id : uuid) (from_state : option string)
    (to_state reason_code source : string) : M unit :=
  found ← occurrence_row org occurrence_id;
  match found with
  | None => raise NoResultFound
  | Some o =>
      id ← fresh_uuid;
      correlation ← gets w_correlation;
      now ← txn_now;
      add_history (mkScheduleTransition id org (so_schedule_id o) (Some occurrence_id) "OCCURRENCE"
        occurrence_id from_state to_state reason_code source correlation None now)
  end.

(** ** Schedules *)

(** The unique constraint [uq_scheduler_schedules_org_key]. *)
Definition violates_schedule_key (row : SchedulerScheduleRecord) (d : DB) : bool :=
  existsb (λ s, N.eqb (ss_organization_id s) (ss_organization_id row) &&
                String.eqb (ss_schedule_key s) (ss_schedule_key row)) (db_schedules d).

(** [create_schedule]: [row] maps the new primary key and the insertion time to the
    row with the given column values. *)
Definition create_schedule (org : uuid) (row : uuid → Z → SchedulerScheduleRecord)
    : M SchedulerScheduleRecord :=
  id ← fresh_uuid;
  now ← txn_now;
  let row := row id now in
  d ← gets w_db;
  if violates_schedule_key row d then raise IntegrityError
  else
    _ ← modify_db (λ d, set_db_schedules (db_schedules d ++ [row]) d);
    _ ← add_schedule_transition org (ss_id row) None (schedule_state_value (ss_state row))
          "SCHEDULE_CREATED" "API";
    mret row.

Definition transition_schedule (org : uuid) (row : SchedulerScheduleRecord) (target : ScheduleState)
    (reason source : string) : M SchedulerScheduleRecord :=
  let previous := ss_state row in
  _ ← lift (require_schedule_transition previous target);
  now ← database_now;
  let row := set_ss_updated_at now (set_ss_revision (ss_revision row + 1) (set_ss_state target row)) in
  _ ← add_schedule_transition org (ss_id row) (Some (schedule_state_value previous))
        (schedule_state_value target) reason source;
  _ ← put_schedule row;
  mret row.

(** [order_by(next_fire_at, id)] of rows whose [next_fire_at] is not null. *)
Definition due_before (a b : SchedulerScheduleRecord) : Prop :=
  default 0 (ss_next_fire_at a) < default 0 (ss_next_fire_at b) ∨
  default 0 (ss_next_fire_at a) = default 0 (ss_next_fire_at b) ∧ (ss_id a ≤ ss_id b)%N.
#[export] Instance due_before_dec a b : Decision (due_before a b).
Proof. unfold due_before. apply _. Defined.

Definition is_due (org : uuid) (now : Z) (s : SchedulerScheduleRecord) : bool :=
  N.eqb (ss_organization_id s) org && bool_decide (ss_state s = ScheduleState.ACTIVE) &&
  match ss_next_fire_at s with Some t => t <=? now | None => false end.

Definition due_schedule_rows (org : uuid) (limit : Z) : M (list SchedulerScheduleRecord) :=
  now ← utcnow;
  gets (λ w, take (Z.to_nat limit)
    (merge_sort due_before (List.filter (is_due org now) (db_schedules (w_db w))))).

(** ** Occurrences *)

Section identity.
Context (digest : string → string).

(** The unique constraints [uq_scheduler_occurrences_identity] and
    [uq_scheduler_occurrences_p14_key]. *)
Definition violates_identity (row : SchedulerOccurrenceRecord) (d : DB) : bool :=
  existsb (λ o, N.eqb (so_organization_id o) (so_organization_id row) &&
    (N.eqb (so_schedule_id o) (so_schedule_id row) &&
       String.eqb (so_occurrence_key o) (so_occurrence_key row)
     || String.eqb (so_p14_idempotency_key o) (so_p14_idempotency_key row))) (db_occurrences d).

Definition p14_key (schedule_id occurrence_id : uuid) : string :=
  "schedule:" +:+ uuid_str schedule_id +:+ ":" +:+ uuid_str occurrence_id.

Definition add_occurrence (org : uuid) (schedule : SchedulerScheduleRecord) (slot : TemporalSlot)
    (state : OccurrenceState) (reason : string) : M SchedulerOccurrenceRecord :=
  occurrence_id ← fresh_uuid;
  occurrence_key ← lift (build_occurrence_key digest (ss_id schedule) (ss_revision schedule)
    (ss_timezone schedule) (intended_local_time slot) (fold slot));
  now ← txn_now;
  let row := mkOccurrence occurrence_id org (ss_id schedule) (ss_workflow_version_id schedule)
    (ss_revision schedule) occurrence_key (scheduled_for slot) (intended_local_time slot)
    (ss_timezone schedule) (utc_offset_seconds slot) (fold slot) (ss_timezone_data_version schedule)
    (ss_misfire_policy schedule) state None None None None 0
    (p14_key (ss_id schedule) occurrence_id) None (ss_input_payload schedule)
    (if bool_decide (state = OccurrenceState.SKIPPED) then Some reason else None) now now in
  d ← gets w_db;
  if violates_identity row d then raise IntegrityError
  else
    _ ← modify_db (λ d, set_db_occurrences (db_occurrences d ++ [row]) d);
    _ ← add_occurrence_transition org occurrence_id None (occurrence_state_value state) reason "ENGINE";
    mret row.

Definition slot_view (s : TemporalSlot) : Z * Z * Z :=
  (intended_local_time s, fold s, scheduled_for s).

Definition misfire_detail (org : uuid) (schedule : SchedulerScheduleRecord)
    (first last : TemporalSlot) (count : Z) (accounting_key : string) : MisfireDetail :=
  let skipped := bool_decide (ss_misfire_policy schedule = MisfirePolicy.SKIP) in
  {| md_accounting_key := accounting_key;
     md_accounted_count := count;
     md_coalesced_count := if skipped then 0 else count;
     md_skipped_count := if skipped then count else 0;
     md_disposition := if skipped then "SKIPPED" else "COALESCED";
     md_policy := ss_misfire_policy schedule;
     md_schedule_revision := ss_revision schedule;
     md_timezone := ss_timezone schedule;
     md_timezone_data_version := ss_timezone_data_version schedule;
     md_first := slot_view first;
     md_last := slot_view last |}.

Definition record_misfire_accounting (org : uuid) (schedule : SchedulerScheduleRecord)
    (omitted : list TemporalSlot) (reason_code : string) : M bool :=
  match head omitted, last omitted with
  | Some first, Some last =>
      accounting_key ← lift (build_misfire_accounting_key digest org (ss_id schedule)
        (ss_revision schedule) (ss_timezone schedule) (misfire_policy_value (ss_misfire_policy schedule))
        (intended_local_time first) (fold first) (intended_local_time last) (fold last));
      let detail := misfire_detail org schedule first last (Z.of_nat (length omitted)) accounting_key in
      d ← gets w_db;
      if existsb (λ h, N.eqb (sh_organization_id h) org && N.eqb (sh_schedule_id h) (ss_id schedule) &&
                       String.eqb (sh_reason_code h) reason_code &&
                       bool_decide (sh_detail h = Some detail)) (db_schedule_history d)
      then mret false
      else
        id ← fresh_uuid;
        correlation ← gets w_correlation;
        now ← txn_now;
        let state := schedule_state_value (ss_state schedule) in
        _ ← add_history (mkScheduleTransition id org (ss_id schedule) None "SCHEDULE" (ss_id schedule)
              (Some state) state reason_code "ENGINE" correlation (Some detail) now);
        mret true
  | _, _ => mret false
  end.
End identity.

(** ** Claims *)

(** [order_by(scheduled_for, id)] *)
Definition occurrence_before (a b : SchedulerOccurrenceRecord) : Prop :=
  so_scheduled_for a < so_scheduled_for b ∨
  so_scheduled_for a = so_scheduled_for b ∧ (so_id a ≤ so_id b)%N.
#[export] Instance occurrence_before_dec a b : Decision (occurrence_before a b).
Proof. unfold occurrence_before. apply _. Defined.

Definition pending_due (org : uuid) (now : Z) (o : SchedulerOccurrenceRecord) : bool :=
  N.eqb (so_organization_id o) org && bool_decide (so_state o = OccurrenceState.PENDING) &&
  (so_scheduled_for o <=? now).

(** The first query of [claim_due]: the ACTIVE schedule of the earliest due occurrence. *)
Definition claimable_schedule (org : uuid) (now : Z) (d : DB) : option SchedulerScheduleRecord :=
  let active o := List.find (λ s, is_schedule org (so_schedule_id o) s &&
                                  bool_decide (ss_state s = ScheduleState.ACTIVE)) (db_schedules d) in
  match head (merge_sort occurrence_before
    (List.filter (λ o, pending_due org now o && negb (is_none (active o))) (db_occurrences d))) with
  | Some o => active o
  | None => None
  end.

Definition claim_due (org owner_id : uuid) : M (option OccurrenceClaim) :=
  now ← utcnow;
  d ← gets w_db;
  match claimable_schedule org now d with
  | None => mret None
  | Some schedule =>
      now ← utcnow;
      match head (merge_sort occurrence_before
        (List.filter (λ o, pending_due org now o && N.eqb (so_schedule_id o) (ss_id schedule))
                     (db_occurrences d))) with
      | None => mret None
      | Some row =>
          token ← fresh_uuid;
          _ ← lift (require_occurrence_transition OccurrenceState.PENDING OccurrenceState.CLAIMED);
          claimed_at ← database_now;
          let row := set_so_updated_at claimed_at (set_so_claimed_at (Some claimed_at)
            (set_so_claim_token (Some token) (set_so_claim_owner_id (Some owner_id)
            (set_so_state OccurrenceState.CLAIMED row)))) in
          _ ← put_occurrence row;
          _ ← add_occurrence_transition org (so_id row)
                (Some (occurrence_state_value OccurrenceState.PENDING))
                (occurrence_state_value OccurrenceState.CLAIMED) "OCCURRENCE_CLAIMED" "WORKER";
          mret (Some (mkOccurrenceClaim row owner_id token (so_workflow_input row)))
      end
  end.

(** The [where] clause of the dispatch updates: the fence. *)
Definition holds (org : uuid) (c : OccurrenceClaim) (o : SchedulerOccurrenceRecord) : bool :=
  is_occurrence org (so_id (oc_occurrence c)) o &&
  bool_decide (so_state o = OccurrenceState.CLAIMED) &&
  bool_decide (so_claim_owner_id o = Some (oc_owner_id c)) &&
  bool_decide (so_claim_token o = Some (oc_claim_token c)).

(** [update ... where fence values ... returning]: the updated row, if any. *)
Definition update_claimed (org : uuid) (c : OccurrenceClaim)
    (f : SchedulerOccurrenceRecord → SchedulerOccurrenceRecord) : M SchedulerOccurrenceRecord :=
  d ← gets w_db;
  match List.find (holds org c) (db_occurrences d) with
  | None => raise (Nxs (ScheduleErr ScheduleExecutionFencedError))
  | Some row =>
      _ ← modify_db (λ d, set_db_occurrences (update_where (holds org c) f (db_occurrences d)) d);
      mret (f row)
  end.

Definition begin_dispatch (org : uuid) (c : OccurrenceClaim) : M unit :=
  now ← utcnow;
  _ ← update_claimed org c (λ o, set_so_updated_at now (set_so_dispatch_started_at (Some now)
        (set_so_dispatch_attempt_count (so_dispatch_attempt_count o + 1) o)));
  mret tt.

(** A dispatched or failed one-time schedule is completed. *)
Definition complete_one_time (org : uuid) (schedule : SchedulerScheduleRecord) (reason : string) : M unit :=
  if bool_decide (ss_schedule_type schedule = ScheduleType.ONE_TIME) &&
     bool_decide (ss_state schedule = ScheduleState.ACTIVE)
  then _ ← transition_schedule org schedule ScheduleState.COMPLETED reason "WORKER"; mret tt
  else mret tt.

Definition finish_dispatch (org : uuid) (c : OccurrenceClaim) (workflow_run_id : uuid)
    : M SchedulerOccurrenceRecord :=
  found ← schedule_row org (so_schedule_id (oc_occurrence c));
  match found with
  | None => raise (Nxs (ScheduleErr ScheduleExecutionFencedError))
  | Some schedule =>
      now ← utcnow;
      row ← update_claimed org c (λ o, set_so_updated_at now
              (set_so_workflow_run_id (Some workflow_run_id) (set_so_state OccurrenceState.DISPATCHED o)));
      _ ← add_occurrence_transition org (so_id row)
            (Some (occurrence_state_value OccurrenceState.CLAIMED))
            (occurrence_state_value OccurrenceState.DISPATCHED) "WORKFLOW_ACCEPTED" "WORKER";
      _ ← complete_one_time org schedule "ONE_TIME_DISPATCHED";
      mret row
  end.

Definition fail_dispatch (org : uuid) (c : OccurrenceClaim) (error_code : string)
    : M SchedulerOccurrenceRecord :=
  found ← schedule_row org (so_schedule_id (oc_occurrence c));
  match found with
  | None => raise (Nxs (ScheduleErr ScheduleExecutionFencedError))
  | Some schedule =>
      now ← utcnow;
      row ← update_claimed org c (λ o, set_so_updated_at now
              (set_so_error_code (Some error_code) (set_so_state OccurrenceState.FAILED o)));
      _ ← add_occurrence_transition org (so_id row)
            (Some (occurrence_state_value OccurrenceState.CLAIMED))
            (occurrence_state_value OccurrenceState.FAILED) error_code "WORKER";
      _ ← complete_one_time org schedule "ONE_TIME_DISPATCH_FAILED";
      mret row
  end.

(** ** Cancellation *)

Definition cancel_row (org : uuid) (from_state reason : string) (row : SchedulerOccurrenceRecord)
    : M SchedulerOccurrenceRecord :=
  now ← database_now;
  let row := set_so_updated_at now (set_so_state OccurrenceState.CANCELLED row) in
  _ ← put_occurrence row;
  _ ← add_occurrence_transition org (so_id row) (Some from_state)
        (occurrence_state_value OccurrenceState.CANCELLED) reason "API";
  mret row.

Definition is_pending_of (org schedule_id : uuid) (o : SchedulerOccurrenceRecord) : bool :=
  N.eqb (so_organization_id o) org && N.eqb (so_schedule_id o) schedule_id &&
  bool_decide (so_state o = OccurrenceState.PENDING).

Definition cancel_pending (org schedule_id : uuid) : M (list SchedulerOccurrenceRecord) :=
  rows ← gets (λ w, List.filter (is_pending_of org schedule_id) (db_occurrences (w_db w)));
  mapM_list (cancel_row org (occurrence_state_value OccurrenceState.PENDING) "SCHEDULE_CANCELLED") rows.

Definition cancel_occurrence (org : uuid) (row : SchedulerOccurrenceRecord)
    : M SchedulerOccurrenceRecord :=
  _ ← lift (require_occurrence_transition (so_state row) OccurrenceState.CANCELLED);
  cancel_row org (occurrence_state_value (so_state row)) "OCCURRENCE_CANCELLED" row.

(** ** Reads *)

(** [order_by(created_at.desc())], [offset] and [limit]. *)
Definition newest_first (a b : SchedulerScheduleRecord) : Prop := ss_created_at b ≤ ss_created_at a.
#[export] Instance newest_first_dec a b : Decision (newest_first a b).
Proof. unfold newest_first. apply _. Defined.

Definition list_schedules (org : uuid) (limit offset : Z) : M (list SchedulerScheduleRecord) :=
  gets (λ w, take (Z.to_nat limit) (drop (Z.to_nat offset) (merge_sort newest_first
    (List.filter (λ s, N.eqb (ss_organization_id s) org) (db_schedules (w_db w)))))).

Definition latest_first (a b : SchedulerOccurrenceRecord) : Prop := so_scheduled_for b ≤ so_scheduled_for a.
#[export] Instance latest_first_dec a b : Decision (latest_first a b).
Proof. unfold latest_first. apply _. Defined.

Definition occurrences (org schedule_id : uuid) (limit : Z) : M (list SchedulerOccurrenceRecord) :=
  gets (λ w, take (Z.to_nat limit) (merge_sort latest_first
    (List.filter (λ o, N.eqb (so_organization_id o) org && N.eqb (so_schedule_id o) schedule_id)
                 (db_occurrences (w_db w))))).

(** [order_by(created_at)] *)
Definition history_before (a b : SchedulerTransitionHistoryRecord) : Prop := sh_created_at a ≤ sh_created_at b.
#[export] Instance history_before_dec a b : Decision (history_before a b).
Proof. unfold history_before. apply _. Defined.

Definition transitions (org entity_id : uuid) (limit : Z) : M (list SchedulerTransitionHistoryRecord) :=
  gets (λ w, take (Z.to_nat limit) (merge_sort history_before
    (List.filter (λ h, N.eqb (sh_organization_id h) org && N.eqb (sh_entity_id h) entity_id)
                 (db_schedule_history (w_db w))))).
