(* ===== verification/SchedulerService.v ===== *)
(** * SchedulerService: durable scheduling over the workflow engine

    The service of [scheduler/service.py]: schedule management, materialisation of
    due occurrences with their misfire policy, claims and dispatch through
    [WorkflowService.start_run]. Each [async with] block is one transaction of
    [Store]. Parameters: the timezone database and its version, SHA-256 ([digest]),
    the fingerprint of a workflow start, and the length of Pydantic's JSON dump of
    a request. *)

From S2P Require Import Prelude.
From S2P Require Import Errors.
From S2P Require Import Lifecycles.
From S2P Require Import Conditions.
From S2P Require Import ScheduleSpec.
From S2P Require Import Calendar.
From S2P Require Import Recurrence.
From S2P Require Import Store.
From S2P Require Import Identity.
From S2P Require Import WorkflowService.
From S2P Require Import SchedulerRepository.

Definition DEFAULT_BATCH : Z := 100.

Definition MAX_BATCH : Z := 500.

Definition ScheduleNotFound : exn := Nxs (ScheduleErr ScheduleNotFoundError).

Definition InvalidState : exn := Nxs (ScheduleErr ScheduleInvalidStateError).

(** ** Requests *)

Record CreateScheduleRequest : Type := {
  cs_schedule_key : string;
  cs_target_type : string;
  cs_workflow_version_id : uuid;
  cs_schedule_type : ScheduleType;
  cs_timezone : string;
  cs_start_at : Z;
  cs_end_at : option Z;
  cs_recurrence : option RecurrenceSpec;
  cs_input : list (string * json);
  cs_misfire_policy : MisfirePolicy;
  cs_max_catch_up : Z;
  cs_correlation_id : option string;
}.

(** [UpdateScheduleRequest]: the outer option tells whether the field was set, the
    inner one whether it was set to null. *)
Record UpdateScheduleRequest : Type := {
  us_expected_revision : Z;
  us_timezone : option (option string);
  us_start_at : option (option Z);
  us_end_at : option (option Z);
  us_recurrence : option (option RecurrenceSpec);
  us_input : option (option (list (string * json)));
  us_misfire_policy : option (option MisfirePolicy);
  us_max_catch_up : option (option Z);
}.

(** [values.get(name, current)] validated against a field that is not nullable. *)
Definition required {A} (value : option (option A)) (current : A) : result exn A :=
  match value with
  | None => Ok current
  | Some (Some v) => Ok v
  | Some None => Err ValueError
  end.

(** The model validator [CreateScheduleRequest._shape], its size check apart. *)
Definition create_shape (r : CreateScheduleRequest) : bool :=
  match cs_schedule_type r, cs_recurrence r with
  | ScheduleType.ONE_TIME, None | ScheduleType.RECURRING, Some _ => true
  | _, _ => false
  end &&
  match cs_end_at r with Some e => cs_start_at r <=? e | None => true end &&
  (bool_decide (cs_misfire_policy r = MisfirePolicy.CATCH_UP_BOUNDED) || (cs_max_catch_up r =? 1)).

Section service.
Context (zoneinfo : string → option ZoneInfo).
Context (digest : string → string).
Context (fingerprint : uuid → list (string * json) → string).
Context (timezone_data_version : string).
Context (dump_length : CreateScheduleRequest → Z).

(** [CreateScheduleRequest.model_validate] on values of the declared types. *)
Definition create_valid (r : CreateScheduleRequest) : bool :=
  negb (is_none (zoneinfo (cs_timezone r))) &&
  (1 <=? Z.of_nat (String.length (cs_timezone r))) && (Z.of_nat (String.length (cs_timezone r)) <=? 64) &&
  match cs_recurrence r with Some s => recurrence_valid s | None => true end &&
  (1 <=? cs_max_catch_up r) && (cs_max_catch_up r <=? 100) &&
  create_shape r && (dump_length r <=? 65536).

(** ** Events *)

Definition schedule_event (org : uuid) (event_type : string) (s : SchedulerScheduleRecord) : M unit :=
  enqueue_event event_type "scheduler_schedule" (ss_id s) org
    [("schedule_id", JStr (uuid_str (ss_id s)));
     ("state", JStr (schedule_state_value (ss_state s))); ("reason_code", JNull)].

Definition occurrence_event (org : uuid) (event_type : string) (o : SchedulerOccurrenceRecord) : M unit :=
  enqueue_event event_type "scheduler_occurrence" (so_id o) org
    [("schedule_id", JStr (uuid_str (so_schedule_id o)));
     ("occurrence_id", JStr (uuid_str (so_id o)));
     ("scheduled_for", JStr (isoformat_utc (so_scheduled_for o)));
     ("state", JStr (occurrence_state_value (so_state o)));
     ("reason_code", json_of_option (so_error_code o))].

(** ** Managing schedules *)

Definition new_schedule (org : uuid) (request : CreateScheduleRequest) (id : uuid) (now : Z)
    : SchedulerScheduleRecord :=
  mkSchedule id org (cs_schedule_key request) (cs_target_type request) (cs_workflow_version_id request)
    (cs_schedule_type request) (cs_timezone request) (cs_recurrence request) (cs_input request)
    (cs_start_at request) (cs_end_at request) None None ScheduleState.DRAFT
    (cs_misfire_policy request) (cs_max_catch_up request) 1 timezone_data_version now now.

Definition create_schedule (org : uuid) (request : CreateScheduleRequest) : M SchedulerScheduleRecord :=
  _ ← WorkflowService.get_version org (cs_workflow_version_id request);
  try_with
    (tenant_transaction (
       schedule ← SchedulerRepository.create_schedule org (new_schedule org request);
       _ ← schedule_event org "scheduler.schedule.created" schedule;
       mret schedule))
    (λ e, match e with
          | IntegrityError => raise (Nxs (ScheduleErr ScheduleConflictError))
          | e => raise e
          end).

Definition found_schedule (org schedule_id : uuid) : M SchedulerScheduleRecord :=
  row ← schedule_row org schedule_id;
  match row with None => raise ScheduleNotFound | Some row => mret row end.

Definition get_schedule (org schedule_id : uuid) : M SchedulerScheduleRecord :=
  tenant_transaction (found_schedule org schedule_id).

Definition get_schedule_by_key (org : uuid) (k : string) : M SchedulerScheduleRecord :=
  tenant_transaction (
    row ← schedule_by_key org k;
    match row with None => raise ScheduleNotFound | Some row => mret row end).

Definition list_schedules (org : uuid) (limit offset : Z) : M (list SchedulerScheduleRecord) :=
  tenant_transaction (SchedulerRepository.list_schedules org limit offset).

(** The merged and validated candidate of [update_schedule]. *)
Definition merge_update (row : SchedulerScheduleRecord) (request : UpdateScheduleRequest)
    : result exn CreateScheduleRequest :=
  timezone ← required (us_timezone request) (ss_timezone row);
  start_at ← required (us_start_at request) (ss_start_at row);
  input ← required (us_input request) (ss_input_payload row);
  misfire_policy ← required (us_misfire_policy request) (ss_misfire_policy row);
  max_catch_up ← required (us_max_catch_up request) (ss_max_catch_up row);
  let candidate := {|
    cs_schedule_key := ss_schedule_key row;
    cs_target_type := "START_WORKFLOW";
    cs_workflow_version_id := ss_workflow_version_id row;
    cs_schedule_type := ss_schedule_type row;
    cs_timezone := timezone;
    cs_start_at := start_at;
    cs_end_at := default (ss_end_at row) (us_end_at request);
    cs_recurrence := default (ss_recurrence_spec row) (us_recurrence request);
    cs_input := input;
    cs_misfire_policy := misfire_policy;
    cs_max_catch_up := max_catch_up;
    cs_correlation_id := None |} in
  if create_valid candidate then Ok candidate else Err ValueError.

Definition update_schedule (org schedule_id : uuid) (request : UpdateScheduleRequest)
    : M SchedulerScheduleRecord :=
  tenant_transaction (
    row ← found_schedule org schedule_id;
    if negb (bool_decide (ss_state row ∈ [ScheduleState.DRAFT; ScheduleState.PAUSED]))
    then raise InvalidState
    else if negb (ss_revision row =? us_expected_revision request)
    then raise (Nxs (ScheduleErr ScheduleConflictError))
    else
      candidate ← lift (merge_update row request);
      now ← database_now;
      let row := set_ss_updated_at now (set_ss_next_local_time None (set_ss_next_fire_at None
        (set_ss_revision (ss_revision row + 1) (set_ss_max_catch_up (cs_max_catch_up candidate)
        (set_ss_misfire_policy (cs_misfire_policy candidate) (set_ss_input_payload (cs_input candidate)
        (set_ss_recurrence_spec (cs_recurrence candidate) (set_ss_end_at (cs_end_at candidate)
        (set_ss_start_at (cs_start_at candidate) (set_ss_timezone (cs_timezone candidate) row)))))))))) in
      _ ← put_schedule row;
      mret row).

(** The assignment of the next slot to a row. *)
Definition set_next (slot : option TemporalSlot) (row : SchedulerScheduleRecord) : SchedulerScheduleRecord :=
  match slot with
  | Some s => set_ss_next_local_time (Some (intended_local_time s)) (set_ss_next_fire_at (Some (scheduled_for s)) row)
  | None => set_ss_next_local_time None (set_ss_next_fire_at None row)
  end.

Definition activate_schedule (org schedule_id : uuid) : M SchedulerScheduleRecord :=
  tenant_transaction (
    row ← found_schedule org schedule_id;
    if negb (bool_decide (ss_state row = ScheduleState.DRAFT)) then raise InvalidState
    else
      slot ← lift (first_slot zoneinfo (ss_start_at row) (ss_timezone row) (ss_recurrence_spec row));
      if match ss_end_at row with Some e => e <? scheduled_for slot | None => false end
      then raise InvalidState
      else
        row ← transition_schedule org (set_next (Some slot) row) ScheduleState.ACTIVE
                "SCHEDULE_ACTIVATED" "API";
        _ ← schedule_event org "scheduler.schedule.activated" row;
        mret row).

(** [_transition] *)
Fixpoint lower (s : string) : string :=
  match s with
  | EmptyString => EmptyString
  | String c s =>
      let n := N_of_ascii c in
      String (if (65 <=? n)%N && (n <=? 90)%N then ascii_of_N (n + 32) else c) (lower s)
  end.

Definition transition (org schedule_id : uuid) (target : ScheduleState) (reason : string)
    : M SchedulerScheduleRecord :=
  tenant_transaction (
    row ← found_schedule org schedule_id;
    row ← transition_schedule org row target reason "API";
    _ ← schedule_event org ("scheduler.schedule." +:+ lower (schedule_state_value target)) row;
    mret row).

Definition pause_schedule (org schedule_id : uuid) : M SchedulerScheduleRecord :=
  transition org schedule_id ScheduleState.PAUSED "SCHEDULE_PAUSED".

Definition resume_schedule (org schedule_id : uuid) : M SchedulerScheduleRecord :=
  tenant_transaction (
    row ← found_schedule org schedule_id;
    if negb (bool_decide (ss_state row = ScheduleState.PAUSED)) then raise InvalidState
    else
      row ← (if is_none (ss_next_fire_at row) || is_none (ss_next_local_time row)
             then slot ← lift (first_slot zoneinfo (ss_start_at row) (ss_timezone row)
                                 (ss_recurrence_spec row));
                  mret (set_next (Some slot) row)
             else mret row);
      row ← transition_schedule org row ScheduleState.ACTIVE "SCHEDULE_RESUMED" "API";
      _ ← schedule_event org "scheduler.schedule.resumed" row;
      mret row).

Definition cancel_schedule (org schedule_id : uuid) : M SchedulerScheduleRecord :=
  tenant_transaction (
    row ← found_schedule org schedule_id;
    row ← transition_schedule org row ScheduleState.CANCELLED "SCHEDULE_CANCELLED" "API";
    cancelled ← cancel_pending org schedule_id;
    _ ← schedule_event org "scheduler.schedule.cancelled" row;
    _ ← forM_ (occurrence_event org "scheduler.occurrence.cancelled") cancelled;
    mret row).

(** ** Materialisation *)

(** The loop of [_elapsed_slots]. *)
Fixpoint elapsed_loop (fuel : nat) (schedule : SchedulerScheduleRecord) (now : Z)
    (current : TemporalSlot) (due : list TemporalSlot)
    : result exn (list TemporalSlot * option TemporalSlot) :=
  match fuel with
  | O => Err InvalidState
  | S fuel =>
      if now <? scheduled_for current then Ok (due, Some current)
      else if match ss_end_at schedule with Some e => e <? scheduled_for current | None => false end
      then Ok (due, None)
      else
        let due := due ++ [current] in
        match ss_recurrence_spec schedule with
        | None => Ok (due, None)
        | Some r =>
            next ← next_slot zoneinfo (intended_local_time current) (scheduled_for current)
                     (ss_timezone schedule) r;
            elapsed_loop fuel schedule now next due
        end
  end.

(** The slot a row stores as its next one. *)
Definition stored_slot (zone : ZoneInfo) (fire_at local : Z) : result exn TemporalSlot :=
  reading ← to_local zone fire_at;
  Ok {| intended_local_time := local; scheduled_for := fire_at;
        utc_offset_seconds := whole_seconds (offset_at zone fire_at);
        fold := 0; nonexistent := negb (reading =? local) |}.

Definition elapsed_slots (schedule : SchedulerScheduleRecord) (now : Z)
    : result exn (list TemporalSlot * option TemporalSlot) :=
  match ss_next_fire_at schedule, ss_next_local_time schedule with
  | Some fire_at, Some local =>
      zone ← zone_of zoneinfo (ss_timezone schedule);
      current ← stored_slot zone fire_at local;
      elapsed_loop MAX_SEARCH_STEPS schedule now current []
  | _, _ => Ok ([], None)
  end.

(** The selection of a misfire policy: the slots to materialise and the omitted
    ones, the state and reason of the former and the accounting of the latter. *)
Definition select_slots (policy : MisfirePolicy) (max_catch_up remaining : Z) (slots : list TemporalSlot)
    : list TemporalSlot * list TemporalSlot * (OccurrenceState * string * string) :=
  let n := length slots in
  match policy with
  | MisfirePolicy.SKIP =>
      let count := Nat.min n (Z.to_nat remaining) in
      (drop (n - count) slots, take (n - count) slots,
       (OccurrenceState.SKIPPED, "MISFIRE_SKIPPED"%string, "MISFIRE_SKIPPED"%string))
  | MisfirePolicy.FIRE_ONCE =>
      (drop (n - 1) slots, take (n - 1) slots,
       (OccurrenceState.PENDING, "OCCURRENCE_CREATED"%string, "MISFIRE_FIRE_ONCE_COALESCED"%string))
  | MisfirePolicy.CATCH_UP_BOUNDED =>
      let count := Nat.min n (Nat.min (Z.to_nat max_catch_up) (Z.to_nat remaining)) in
      (take count slots, drop count slots,
       (OccurrenceState.PENDING, "OCCURRENCE_CREATED"%string, "MISFIRE_CATCH_UP_COALESCED"%string))
  end.

(** One iteration of [for slot in selected]. *)
Definition materialize_slot (org : uuid) (row : SchedulerScheduleRecord) (terminal : OccurrenceState)
    (reason : string) (slot : TemporalSlot) : M SchedulerOccurrenceRecord :=
  let state := if nonexistent slot then OccurrenceState.SKIPPED else terminal in
  let slot_reason := if nonexistent slot then "DST_NONEXISTENT_LOCAL_TIME"%string else reason in
  occurrence ← add_occurrence digest org row slot state slot_reason;
  _ ← occurrence_event org
        (if bool_decide (state = OccurrenceState.SKIPPED) then "scheduler.occurrence.skipped"
         else "scheduler.occurrence.created") occurrence;
  mret occurrence.

(** A changed row is flushed with [onupdate=func.now()]. *)
Definition flush_next (row row' : SchedulerScheduleRecord) : M unit :=
  now ← txn_now;
  if bool_decide (ss_next_fire_at row = ss_next_fire_at row') &&
     bool_decide (ss_next_local_time row = ss_next_local_time row')
  then mret tt
  else put_schedule (set_ss_updated_at now row').

(** One iteration of [for row in rows]. *)
Definition materialize_row (org : uuid) (now remaining : Z) (row : SchedulerScheduleRecord)
    : M (list SchedulerOccurrenceRecord) :=
  due ← lift (elapsed_slots row now);
  let '(slots, next_future) := due in
  let '(selected, omitted, (terminal, reason, accounting_reason)) :=
    select_slots (ss_misfire_policy row) (ss_max_catch_up row) remaining slots in
  created ← mapM_list (materialize_slot org row terminal reason) selected;
  _ ← (if is_nil omitted then mret false
       else record_misfire_accounting digest org row omitted accounting_reason);
  _ ← (if bool_decide (ss_schedule_type row = ScheduleType.ONE_TIME)
       then flush_next row (set_next None row)
       else match next_future with
            | None =>
                _ ← transition_schedule org (set_next None row) ScheduleState.COMPLETED
                      "SCHEDULE_EXHAUSTED" "ENGINE";
                mret tt
            | Some slot => flush_next row (set_next (Some slot) row)
            end);
  mret created.

(** [for row in rows: if remaining <= 0: break] *)
Fixpoint materialize_rows (org : uuid) (now remaining : Z) (rows : list SchedulerScheduleRecord)
    : M (list SchedulerOccurrenceRecord) :=
  match rows with
  | [] => mret []
  | row :: rows =>
      if remaining <=? 0 then mret []
      else
        created ← materialize_row org now remaining row;
        rest ← materialize_rows org now (remaining - Z.of_nat (length created)) rows;
        mret (created ++ rest)
  end.

Definition materialize_due (org : uuid) (limit : Z) : M (list SchedulerOccurrenceRecord) :=
  if negb ((1 <=? limit) && (limit <=? MAX_BATCH)) then raise ValueError
  else execution_transaction org (
    now ← database_now;
    rows ← due_schedule_rows org limit;
    materialize_rows org now limit rows).

(** ** Occurrences *)

Definition list_occurrences (org schedule_id : uuid) (limit : Z) : M (list SchedulerOccurrenceRecord) :=
  _ ← get_schedule org schedule_id;
  tenant_transaction (occurrences org schedule_id limit).

Definition found_occurrence (org occurrence_id : uuid) : M SchedulerOccurrenceRecord :=
  row ← occurrence_row org occurrence_id;
  match row with
  | None => raise (Nxs (ScheduleErr OccurrenceNotFoundError))
  | Some row => mret row
  end.

Definition get_occurrence (org occurrence_id : uuid) : M SchedulerOccurrenceRecord :=
  tenant_transaction (found_occurrence org occurrence_id).

Definition cancel_occurrence (org occurrence_id : uuid) : M SchedulerOccurrenceRecord :=
  tenant_transaction (
    row ← found_occurrence org occurrence_id;
    result ← SchedulerRepository.cancel_occurrence org row;
    _ ← occurrence_event org "scheduler.occurrence.cancelled" result;
    mret result).

Definition claim_due (org owner_id : uuid) : M (option OccurrenceClaim) :=
  execution_transaction org (
    claim ← SchedulerRepository.claim_due org owner_id;
    _ ← match claim with
        | Some c => occurrence_event org "scheduler.occurrence.claimed" (oc_occurrence c)
        | None => mret tt
        end;
    mret claim).

(** ** Dispatch: three transactions around the workflow start *)

Definition begin_txn (org : uuid) (c : OccurrenceClaim) : M unit :=
  tenant_transaction (begin_dispatch org c).

Definition dispatch_request (c : OccurrenceClaim) (correlation : option string) : StartWorkflowRunRequest := {|
  sw_workflow_version_id := so_workflow_version_id (oc_occurrence c);
  sw_input := oc_workflow_input c;
  sw_idempotency_key := Some (so_p14_idempotency_key (oc_occurrence c));
  sw_correlation_id := correlation |}.

Definition fail_txn (org : uuid) (c : OccurrenceClaim) (error_code : string) : M unit :=
  tenant_transaction (
    failed ← fail_dispatch org c error_code;
    occurrence_event org "scheduler.occurrence.failed" failed).

Definition finish_txn (org : uuid) (c : OccurrenceClaim) (run_id : uuid) : M SchedulerOccurrenceRecord :=
  tenant_transaction (
    result ← finish_dispatch org c run_id;
    _ ← occurrence_event org "scheduler.occurrence.dispatched" result;
    mret result).

Definition dispatch_claim (org : uuid) (c : OccurrenceClaim) : M SchedulerOccurrenceRecord :=
  _ ← begin_txn org c;
  correlation ← gets w_correlation;
  run ← try_with
    (WorkflowService.start_run fingerprint org (dispatch_request c correlation))
    (λ e, match e with
          | Nxs exc =>
              _ ← fail_txn org c (code exc);
              raise (Nxs (ScheduleErr ScheduleDispatchFailedError))
          | e => raise e
          end);
  finish_txn org c (wr_id run).

Definition transitions (org entity_id : uuid) (limit : Z) : M (list SchedulerTransitionHistoryRecord) :=
  tenant_transaction (SchedulerRepository.transitions org entity_id limit).

End service.
