(* ===== verification/SchedulerInvariant.v ===== *)
(** * SchedulerInvariant: how transactions move the scheduler tables

    [sched_move] and [occ_move] say how a row may change between two states of the
    database; [moves] lifts them to the tables; [sched_inv] is the invariant of the
    tables. [step_ok] combines them into a preorder on worlds that the operations
    of [SchedulerRepository] respect. *)

From S2P Require Import Prelude.
From S2P Require Import Errors.
From S2P Require Import Lifecycles.
From S2P Require Import ScheduleSpec.
From S2P Require Import Store.
From S2P Require Import StoreLemmas.
From S2P Require Import Identity.
From S2P Require Import SchedulerRepository.

(** ** Rows *)

(** The columns no operation assigns. *)
Definition schedule_ident (s : SchedulerScheduleRecord) :=
  (ss_id s, ss_organization_id s, ss_schedule_key s, ss_target_type s, ss_workflow_version_id s,
   ss_schedule_type s, ss_timezone_data_version s, ss_created_at s).

(** What a revision stands for: the state and the configuration of a schedule. *)
Definition schedule_config (s : SchedulerScheduleRecord) :=
  (ss_state s, ss_timezone s, ss_recurrence_spec s, ss_input_payload s, ss_start_at s, ss_end_at s,
   ss_misfire_policy s, ss_max_catch_up s).

Definition occurrence_ident (o : SchedulerOccurrenceRecord) :=
  (so_id o, so_organization_id o, so_schedule_id o, so_workflow_version_id o, so_schedule_revision o,
   so_occurrence_key o, so_scheduled_for o, so_intended_local_time o, so_timezone o,
   so_utc_offset_seconds o, so_fold o, so_misfire_policy o, so_p14_idempotency_key o,
   so_workflow_input o).

Definition occurrence_claim (o : SchedulerOccurrenceRecord) :=
  (so_claim_owner_id o, so_claim_token o, so_claimed_at o).

Record sched_move (org : uuid) (s s' : SchedulerScheduleRecord) : Prop := {
  sm_ident : schedule_ident s' = schedule_ident s;
  sm_org : ss_organization_id s ≠ org → s' = s;
  sm_legal : rtc legal (ss_state s) (ss_state s');
  sm_final : terminal (ss_state s) = true → s' = s;
  sm_revision : ss_revision s < ss_revision s' ∨
                ss_revision s' = ss_revision s ∧ schedule_config s' = schedule_config s;
}.

Record occ_move (org n : uuid) (o o' : SchedulerOccurrenceRecord) : Prop := {
  om_ident : occurrence_ident o' = occurrence_ident o;
  om_org : so_organization_id o ≠ org → o' = o;
  om_legal : rtc legal (so_state o) (so_state o');
  om_final : terminal (so_state o) = true → o' = o;
  om_claim : so_state o ≠ OccurrenceState.PENDING → occurrence_claim o' = occurrence_claim o;
  om_token : so_claim_token o' = so_claim_token o ∨
             ∃ t, so_claim_token o' = Some t ∧ (n ≤ t)%N;
}.

Lemma legal_to_PENDING s : rtc legal s OccurrenceState.PENDING → s = OccurrenceState.PENDING.
Proof.
  intros H. remember OccurrenceState.PENDING as t eqn:Et. induction H as [|s u t Hsu _ IH]; [done|].
  specialize (IH Et). subst. exfalso. revert Hsu. unfold legal. destruct s; simpl; set_solver.
Qed.

Lemma sched_move_refl org s : sched_move org s s.
Proof. split; auto using rtc_refl. Qed.

Lemma sched_move_trans org s1 s2 s3 : sched_move org s1 s2 → sched_move org s2 s3 → sched_move org s1 s3.
Proof.
  intros [I1 O1 L1 F1 R1] [I2 O2 L2 F2 R2]. split.
  - congruence.
  - intros Hne. assert (s2 = s1) as -> by auto. auto.
  - by etrans.
  - intros Ht. assert (s2 = s1) as -> by auto. auto.
  - destruct R1 as [R1|[R1 C1]], R2 as [R2|[R2 C2]]; [lia..|]. right. split; [lia|congruence].
Qed.

Lemma occ_move_refl org n o : occ_move org n o o.
Proof. split; auto using rtc_refl. Qed.

Lemma occ_move_trans org n1 n2 o1 o2 o3 :
  (n1 ≤ n2)%N → occ_move org n1 o1 o2 → occ_move org n2 o2 o3 → occ_move org n1 o1 o3.
Proof.
  intros Hn [I1 O1 L1 F1 C1 T1] [I2 O2 L2 F2 C2 T2]. split.
  - congruence.
  - intros Hne. assert (o2 = o1) as -> by auto. auto.
  - by etrans.
  - intros Ht. assert (o2 = o1) as -> by auto. auto.
  - intros Hp. rewrite C2; [auto|]. intros Hp2. rewrite Hp2 in L1. by apply legal_to_PENDING in L1.
  - destruct T2 as [->|(t & -> & Ht)]; [done|]. right. exists t. split; [done|lia].
Qed.

(** ** Tables *)

(** The rows of [l] moved in place, then new rows. *)
Definition extends {A} (R : A → A → Prop) (F : A → Prop) (l l' : list A) : Prop :=
  ∃ moved new, l' = moved ++ new ∧ Forall2 R l moved ∧ Forall F new.

Lemma extends_trans {A} (R1 R2 R : A → A → Prop) (F1 F2 F : A → Prop) l1 l2 l3 :
  (∀ x y z, R1 x y → R2 y z → R x z) → (∀ y z, F1 y → R2 y z → F z) → (∀ z, F2 z → F z) →
  extends R1 F1 l1 l2 → extends R2 F2 l2 l3 → extends R F l1 l3.
Proof.
  intros HR HF HF2 (m1 & k1 & -> & HR1 & HF1) (m2 & k2 & -> & HR2 & Hk2).
  apply Forall2_app_inv_l in HR2 as (m2a & m2b & Ha & Hb & ->).
  exists m2a, (m2b ++ k2). split; [by rewrite app_assoc|]. split.
  - clear -HR HR1 Ha. revert m2a Ha. induction HR1; intros m2a Ha; inversion Ha; subst; constructor; eauto.
  - apply Forall_app. split; [|by eapply Forall_impl].
    clear -HF HF1 Hb. revert m2b Hb. induction HF1; intros m2b Hb; inversion Hb; subst; constructor; eauto.
Qed.

Lemma extends_refl {A} (R : A → A → Prop) F l : (∀ x, R x x) → extends R F l l.
Proof.
  intros HR. exists l, []. rewrite app_nil_r. split; [done|]. split; [|constructor].
  induction l; constructor; auto.
Qed.

Lemma extends_in {A} (R : A → A → Prop) F l l' x :
  extends R F l l' → x ∈ l → ∃ y, y ∈ l' ∧ R x y.
Proof.
  intros (m & k & -> & HR & _) Hx. destruct (Forall2_in_l _ _ _ _ HR Hx) as (y & Hy & Hxy).
  exists y. split; [apply elem_of_app; by left|done].
Qed.

Lemma extends_from {A} (R : A → A → Prop) F l l' y :
  extends R F l l' → y ∈ l' → (∃ x, x ∈ l ∧ R x y) ∨ F y.
Proof.
  intros (m & k & -> & HR & HF) [Hy|Hy]%elem_of_app.
  - left. by apply (Forall2_in_r _ _ _ _ HR) in Hy.
  - right. rewrite Forall_forall in HF. auto.
Qed.

Definition new_sched (org n : uuid) (s : SchedulerScheduleRecord) : Prop :=
  (n ≤ ss_id s)%N ∧ ss_organization_id s = org.

(** A new occurrence belongs to no schedule that had ended. *)
Definition new_occ (org n : uuid) (d : DB) (o : SchedulerOccurrenceRecord) : Prop :=
  (n ≤ so_id o)%N ∧ so_organization_id o = org ∧
  ∀ s, s ∈ db_schedules d → ss_id s = so_schedule_id o → terminal (ss_state s) = false.

Record moves (org n : uuid) (d d' : DB) : Prop := {
  mv_schedules : extends (sched_move org) (new_sched org n) (db_schedules d) (db_schedules d');
  mv_occurrences : extends (occ_move org n) (new_occ org n d) (db_occurrences d) (db_occurrences d');
}.

Lemma moves_refl org n d : moves org n d d.
Proof. split; apply extends_refl; auto using sched_move_refl, occ_move_refl. Qed.

Lemma moves_trans org n1 n2 d1 d2 d3 :
  (n1 ≤ n2)%N → moves org n1 d1 d2 → moves org n2 d2 d3 → moves org n1 d1 d3.
Proof.
  intros Hn [S1 O1] [S2 O2]. split; (eapply extends_trans; [..|eassumption|eassumption]).
  - apply sched_move_trans.
  - intros s s' [H1 H2] Hm. pose proof (sm_ident _ _ _ Hm) as E. injection E as E1 E2 _.
    unfold new_sched. by rewrite E1, E2.
  - intros s [H1 H2]. split; [lia|done].
  - intros o1 o2 o3. by apply occ_move_trans.
  - intros o o' (H1 & H2 & H3) Hm. pose proof (om_ident _ _ _ _ Hm) as E. injection E as E1 E2 E3 _.
    unfold new_occ. by rewrite E1, E2, E3.
  - intros o (H1 & H2 & H3). split; [lia|]. split; [done|]. intros s Hs Hid.
    apply not_true_iff_false. intros Ht. destruct (extends_in _ _ _ _ s S1 Hs) as (s2 & Hs2 & Hm).
    rewrite (sm_final _ _ _ Hm Ht) in Hs2. rewrite (H3 s Hs2 Hid) in Ht. done.
Qed.

(** ** The invariant *)

Section inv.
Context (digest : string → string).

(** The identity of an occurrence under [uq_scheduler_occurrences_identity]. *)
Definition occurrence_identity (o : SchedulerOccurrenceRecord) :=
  (so_organization_id o, so_schedule_id o, so_occurrence_key o).

(** The claim columns agree with the state. *)
Definition claim_coherent (o : SchedulerOccurrenceRecord) : Prop :=
  match so_state o with
  | OccurrenceState.PENDING | OccurrenceState.SKIPPED =>
      so_claim_token o = None ∧ so_workflow_run_id o = None
  | OccurrenceState.CLAIMED | OccurrenceState.FAILED =>
      is_Some (so_claim_token o) ∧ so_workflow_run_id o = None
  | OccurrenceState.DISPATCHED => is_Some (so_claim_token o) ∧ is_Some (so_workflow_run_id o)
  | OccurrenceState.CANCELLED => so_workflow_run_id o = None
  end.

Record occ_ok (n : uuid) (o : SchedulerOccurrenceRecord) : Prop := {
  oo_key : build_occurrence_key digest (so_schedule_id o) (so_schedule_revision o) (so_timezone o)
             (so_intended_local_time o) (so_fold o) = Ok (so_occurrence_key o);
  oo_p14 : so_p14_idempotency_key o = p14_key (so_schedule_id o) (so_id o);
  oo_claim : claim_coherent o;
  oo_token : ∀ t, so_claim_token o = Some t → (t < n)%N;
}.

Record sched_inv (d : DB) (n : uuid) : Prop := {
  si_schedules : NoDup (map ss_id (db_schedules d));
  si_schedule_fresh : ∀ s, s ∈ db_schedules d → (ss_id s < n)%N;
  si_occurrences : NoDup (map so_id (db_occurrences d));
  si_occurrence_fresh : ∀ o, o ∈ db_occurrences d → (so_id o < n)%N;
  si_identity : NoDup (map occurrence_identity (db_occurrences d));
  si_occ_ok : ∀ o, o ∈ db_occurrences d → occ_ok n o;
}.

(** What an operation may do: the invariant is kept and the rows move. *)
Definition step_ok (org : uuid) (w w' : World) : Prop :=
  (w_next_uuid w ≤ w_next_uuid w')%N ∧
  (sched_inv (w_db w) (w_next_uuid w) →
   sched_inv (w_db w') (w_next_uuid w') ∧ moves org (w_next_uuid w) (w_db w) (w_db w')).

(** The scheduler tables are left alone. *)
Definition same_sched (w w' : World) : Prop :=
  db_schedules (w_db w') = db_schedules (w_db w) ∧
  db_occurrences (w_db w') = db_occurrences (w_db w) ∧ (w_next_uuid w ≤ w_next_uuid w')%N.

#[export] Instance same_sched_preorder : PreOrder same_sched.
Proof.
  split; [intros w; split; [done|split; [done|lia]]|].
  intros w1 w2 w3 (E1 & E2 & E3) (F1 & F2 & F3). repeat split; [congruence..|lia].
Qed.

Lemma occ_ok_mono n n' o : (n ≤ n')%N → occ_ok n o → occ_ok n' o.
Proof. intros Hn [H1 H2 H3 H4]. split; [done..|]. intros t Ht%H4. lia. Qed.

Lemma sched_inv_same d d' n n' :
  db_schedules d' = db_schedules d → db_occurrences d' = db_occurrences d → (n ≤ n')%N →
  sched_inv d n → sched_inv d' n'.
Proof.
  intros E1 E2 Hn [H1 H2 H3 H4 H5 H6]. split; rewrite ?E1, ?E2; try done.
  - intros s Hs%H2. lia.
  - intros o Ho%H4. lia.
  - intros o Ho%H6. by eapply occ_ok_mono.
Qed.

Lemma same_sched_ok org w w' : same_sched w w' → step_ok org w w'.
Proof.
  intros (E1 & E2 & Hn). split; [done|]. intros HI. split; [by eapply sched_inv_same|].
  split; rewrite ?E1, ?E2; apply extends_refl; auto using sched_move_refl, occ_move_refl.
Qed.

#[export] Instance step_ok_preorder org : PreOrder (step_ok org).
Proof.
  split; [intros w; by apply same_sched_ok|].
  intros w1 w2 w3 [N1 H1] [N2 H2]. split; [lia|]. intros HI. destruct (H1 HI) as [HI2 M1].
  destruct (H2 HI2) as [HI3 M2]. split; [done|]. by eapply moves_trans.
Qed.

(** *** Rewriting one row *)

Lemma update_where_id {A} (p : A → bool) x (l : list A) :
  (∀ y, y ∈ l → p y = false) → update_where p (λ _, x) l = l.
Proof.
  induction l as [|y l IH]; intros Hp; simpl; [done|]. rewrite (Hp y) by constructor.
  f_equal. apply IH. intros z ?. apply Hp. by constructor.
Qed.

(** A keyed row is replaced in place, the others stay. *)
Lemma update_where_Forall2 {A} (key : A → N) (f : A → A) (R : A → A → Prop) (p : A → bool) l :
  (∀ x, R x x) → (∀ x, x ∈ l → p x = true → R x (f x)) → Forall2 R l (update_where p f l).
Proof.
  intros Hrefl Hf. induction l as [|x l IH]; simpl; constructor.
  - destruct (p x) eqn:Hp; [|done]. apply Hf; [constructor|done].
  - apply IH. intros y ? ?. apply Hf; [by constructor|done].
Qed.

Lemma update_where_map {A B} (key : A → B) (f : A → A) (p : A → bool) l :
  (∀ x, x ∈ l → p x = true → key (f x) = key x) → map key (update_where p f l) = map key l.
Proof.
  induction l as [|x l IH]; intros Hk; simpl; [done|]. f_equal.
  - destruct (p x) eqn:Hp; [|done]. apply Hk; [constructor|done].
  - apply IH. intros y ? ?. apply Hk; [by constructor|done].
Qed.

Lemma update_where_elem {A} (f : A → A) (p : A → bool) l y :
  y ∈ update_where p f l → ∃ x, x ∈ l ∧ (y = x ∧ p x = false ∨ y = f x ∧ p x = true).
Proof.
  unfold update_where. intros (x & -> & Hx)%list_elem_of_fmap. exists x. split; [done|].
  destruct (p x); auto.
Qed.

Lemma step_ok_schedules org w w' (p : SchedulerScheduleRecord → bool) f :
  db_schedules (w_db w') = update_where p f (db_schedules (w_db w)) →
  db_occurrences (w_db w') = db_occurrences (w_db w) → (w_next_uuid w ≤ w_next_uuid w')%N →
  (∀ s, s ∈ db_schedules (w_db w) → p s = true → sched_move org s (f s)) → step_ok org w w'.
Proof.
  intros E1 E2 Hn Hm. split; [done|]. intros [H1 H2 H3 H4 H5 H6].
  assert (Hid : map ss_id (db_schedules (w_db w')) = map ss_id (db_schedules (w_db w))).
  { rewrite E1. apply update_where_map. intros s Hs Hp. pose proof (sm_ident _ _ _ (Hm _ Hs Hp)) as E.
    by injection E. }
  split.
  - split; rewrite ?Hid, ?E2; try done.
    + intros s Hs. apply (list_elem_of_fmap_2 ss_id) in Hs. fold (map ss_id (db_schedules (w_db w'))) in Hs.
      change (ss_id <$> ?l) with (map ss_id l) in Hs.
      rewrite Hid in Hs. apply list_elem_of_fmap in Hs as (s0 & -> & Hs0%H2). lia.
    + intros o Ho%H4. lia.
    + intros o Ho%H6. by eapply occ_ok_mono.
  - split; [|rewrite E2; apply extends_refl; apply occ_move_refl].
    exists (db_schedules (w_db w')), []. rewrite app_nil_r. split; [done|]. split; [|constructor].
    rewrite E1. apply (update_where_Forall2 ss_id); [apply sched_move_refl|done].
Qed.

Lemma step_ok_occurrences org w w' (p : SchedulerOccurrenceRecord → bool) f :
  db_schedules (w_db w') = db_schedules (w_db w) →
  db_occurrences (w_db w') = update_where p f (db_occurrences (w_db w)) →
  (w_next_uuid w ≤ w_next_uuid w')%N →
  (∀ o, o ∈ db_occurrences (w_db w) → p o = true → occ_ok (w_next_uuid w) o →
     occ_move org (w_next_uuid w) o (f o) ∧ claim_coherent (f o) ∧
     ∀ t, so_claim_token (f o) = Some t → (t < w_next_uuid w')%N) →
  step_ok org w w'.
Proof.
  intros E1 E2 Hn Hm. split; [done|]. intros [H1 H2 H3 H4 H5 H6].
  assert (Hmv : ∀ o, o ∈ db_occurrences (w_db w) → p o = true → occ_move org (w_next_uuid w) o (f o)).
  { intros o Ho Hp. by destruct (Hm o Ho Hp (H6 _ Ho)). }
  assert (Hid : map so_id (db_occurrences (w_db w')) = map so_id (db_occurrences (w_db w))).
  { rewrite E2. apply update_where_map. intros o Ho Hp. pose proof (om_ident _ _ _ _ (Hmv _ Ho Hp)) as E.
    by injection E. }
  assert (Hident : map occurrence_identity (db_occurrences (w_db w')) =
                   map occurrence_identity (db_occurrences (w_db w))).
  { rewrite E2. apply update_where_map. intros o Ho Hp. pose proof (om_ident _ _ _ _ (Hmv _ Ho Hp)) as E.
    unfold occurrence_identity. injection E as _ -> -> _ _ ->. done. }
  split.
  - split; rewrite ?Hid, ?Hident, ?E1; try done.
    + intros s Hs%H2. lia.
    + intros o Ho. rewrite E2 in Ho. apply update_where_elem in Ho as (o0 & Ho0 & [[-> _]|[-> Hp]]).
      * apply H4 in Ho0. lia.
      * pose proof (om_ident _ _ _ _ (Hmv _ Ho0 Hp)) as E. injection E as -> _. apply H4 in Ho0. lia.
    + intros o Ho. rewrite E2 in Ho. apply update_where_elem in Ho as (o0 & Ho0 & [[-> _]|[-> Hp]]).
      * eapply occ_ok_mono; [exact Hn|auto].
      * destruct (Hm _ Ho0 Hp (H6 _ Ho0)) as (Hmo & Hc & Ht). destruct (H6 _ Ho0) as [K1 K2 _ _].
        pose proof (om_ident _ _ _ _ Hmo) as E.
        injection E as E3 E4 E5 E6 E7 E8 E9 E10 E11 E12 E13 E14 E15 E16.
        split; [by rewrite E5, E7, E11, E10, E13, E8|by rewrite E15, E5, E3|done|done].
  - split; [rewrite E1; apply extends_refl; apply sched_move_refl|].
    exists (db_occurrences (w_db w')), []. rewrite app_nil_r. split; [done|]. split; [|constructor].
    rewrite E2. apply (update_where_Forall2 so_id); [apply occ_move_refl|done].
Qed.
End inv.
