(* ===== verification/SchedulerOps.v ===== *)
(** * SchedulerOps: the operations respect the invariant

    For every operation of [SchedulerRepository] that writes, what it leaves in the
    tables when it returns, and that it is a [step_ok]. *)

From S2P Require Import Prelude.
From S2P Require Import Errors.
From S2P Require Import Lifecycles.
From S2P Require Import ScheduleSpec.
From S2P Require Import Store.
From S2P Require Import StoreLemmas.
From S2P Require Import Identity.
From S2P Require Import SchedulerRepository.
From S2P Require Import SchedulerInvariant.

(** ** Operations that leave the scheduler tables alone *)

Definition squiet {A} (m : M A) : Prop := ∀ w a w', m w = (Ok a, w') → same_sched w w'.

Lemma squiet_ret {A} (a : A) : squiet (mret a).
Proof. by intros w b w' [= _ <-]. Qed.
Lemma squiet_raise {A} e : squiet (@raise A e).
Proof. by intros w b w' [=]. Qed.
Lemma squiet_lift {A} (r : result exn A) : squiet (lift r).
Proof. by intros w b w' [= _ <-]. Qed.
Lemma squiet_gets {A} (f : World → A) : squiet (gets f).
Proof. by intros w b w' [= _ <-]. Qed.
Lemma squiet_txn_now : squiet txn_now.
Proof. by intros w b w' [= _ <-]. Qed.
Lemma squiet_utcnow : squiet utcnow.
Proof. intros w b w' [= _ <-]. repeat split; simpl; done || lia. Qed.
Lemma squiet_fresh : squiet fresh_uuid.
Proof. intros w b w' [= _ <-]. repeat split; simpl; done || lia. Qed.
Lemma squiet_history h : squiet (add_history h).
Proof. intros w b w' [= _ <-]. repeat split; simpl; done || lia. Qed.

Lemma squiet_bind {A B} (m : M A) (f : A → M B) : squiet m → (∀ a, squiet (f a)) → squiet (m ≫= f).
Proof. intros Hm Hf w b w' H. ran H as a w1 H1. etrans; [by eapply Hm|by eapply Hf]. Qed.

Lemma squiet_forM {A} (f : A → M unit) l : (∀ a, squiet (f a)) → squiet (forM_ f l).
Proof. intros Hf. induction l; simpl; [apply squiet_ret|by apply squiet_bind]. Qed.

Create HintDb squiet discriminated.
#[export] Hint Constants Opaque : squiet.
#[export] Hint Resolve squiet_ret squiet_raise squiet_lift squiet_gets squiet_txn_now squiet_utcnow
  squiet_fresh squiet_history : squiet.

Ltac squietness :=
  repeat (intros; lazymatch goal with
  | |- squiet (_ ≫= _) => apply squiet_bind
  | |- squiet (match ?x with _ => _ end) => destruct x
  | |- squiet (forM_ _ _) => apply squiet_forM
  | |- squiet _ => solve [eauto with squiet nocore]
  end).

Lemma squiet_enqueue t a i o p : squiet (enqueue_event t a i o p).
Proof.
  unfold enqueue_event. squietness. cbv zeta.
  intros a3 w b w' H. injection H as _ <-. repeat split; simpl; done || lia.
Qed.
Lemma squiet_schedule_transition org id f t r s : squiet (add_schedule_transition org id f t r s).
Proof. unfold add_schedule_transition. squietness. Qed.
Lemma squiet_occurrence_transition org id f t r s : squiet (add_occurrence_transition org id f t r s).
Proof. unfold add_occurrence_transition, occurrence_row. squietness. Qed.
Lemma squiet_accounting digest org s l r : squiet (record_misfire_accounting digest org s l r).
Proof. unfold record_misfire_accounting. squietness. Qed.
#[export] Hint Resolve squiet_enqueue squiet_schedule_transition squiet_occurrence_transition
  squiet_accounting : squiet.

#[export] Instance monotone_schedule_transition org id f t r s :
  Monotone (add_schedule_transition org id f t r s).
Proof. unfold add_schedule_transition, add_history. monotonicity. Qed.
#[export] Instance monotone_occurrence_transition org id f t r s :
  Monotone (add_occurrence_transition org id f t r s).
Proof. unfold add_occurrence_transition, occurrence_row, add_history. monotonicity. Qed.
#[export] Hint Resolve monotone_schedule_transition monotone_occurrence_transition : monotone.

Lemma step_ok_assume digest org w w' :
  (w_next_uuid w ≤ w_next_uuid w')%N →
  (sched_inv digest (w_db w) (w_next_uuid w) → step_ok digest org w w') → step_ok digest org w w'.
Proof. intros Hn H. split; [done|]. intros HI. by apply H. Qed.

(** ** Finding rows *)

Lemma find_schedule org id (d : DB) s :
  List.find (is_schedule org id) (db_schedules d) = Some s →
  s ∈ db_schedules d ∧ ss_organization_id s = org ∧ ss_id s = id.
Proof.
  intros [Hin Hp]%List.find_some. apply list_elem_of_In in Hin. split; [done|].
  unfold is_schedule in Hp. rewrite andb_true_iff, !N.eqb_eq in Hp. done.
Qed.

Lemma find_occurrence org id (d : DB) o :
  List.find (is_occurrence org id) (db_occurrences d) = Some o →
  o ∈ db_occurrences d ∧ so_organization_id o = org ∧ so_id o = id.
Proof.
  intros [Hin Hp]%List.find_some. apply list_elem_of_In in Hin. split; [done|].
  unfold is_occurrence in Hp. rewrite andb_true_iff, !N.eqb_eq in Hp. done.
Qed.

Section ops.
Context (digest : string → string).

(** ** Schedules *)

(** Writing back a row that moved from the one in the table. *)
Lemma put_schedule_ok org w w' row row' :
  db_schedules (w_db w') = update_where (λ s, N.eqb (ss_id s) (ss_id row')) (λ _, row') (db_schedules (w_db w)) →
  db_occurrences (w_db w') = db_occurrences (w_db w) → (w_next_uuid w ≤ w_next_uuid w')%N →
  row ∈ db_schedules (w_db w) → sched_move org row row' → step_ok digest org w w'.
Proof.
  intros E1 E2 Hn Hin Hm. apply step_ok_assume; [done|]. intros HI.
  eapply step_ok_schedules; [done..|]. intros s Hs Hid%N.eqb_eq.
  assert (s = row) as ->; [|done].
  apply (NoDup_map_inj ss_id (db_schedules (w_db w))); [apply HI|done..|].
  pose proof (sm_ident _ _ _ Hm) as E. injection E as E _. congruence.
Qed.

(** What [transition_schedule] leaves: the row in its new state, one revision on. *)
Definition transitioned (target : ScheduleState) (now : Z) (row : SchedulerScheduleRecord) :=
  set_ss_updated_at now (set_ss_revision (ss_revision row + 1) (set_ss_state target row)).

Lemma ran_transition_schedule org row target reason source w row' w' :
  transition_schedule org row target reason source w = (Ok row', w') →
  legal (ss_state row) target ∧ (∃ now, row' = transitioned target now row) ∧
  db_schedules (w_db w') =
    update_where (λ s, N.eqb (ss_id s) (ss_id row)) (λ _, row') (db_schedules (w_db w)) ∧
  db_occurrences (w_db w') = db_occurrences (w_db w) ∧ (w_next_uuid w ≤ w_next_uuid w')%N.
Proof.
  unfold transition_schedule. intros H. ran H as u w1 Hg. injection Hg as Hg <-.
  destruct u. apply guard_transition_Ok in Hg. ran H as now w2 Hn. apply squiet_utcnow in Hn as (N1 & N2 & N3).
  ran H as u w3 Ht. apply squiet_schedule_transition in Ht as (T1 & T2 & T3).
  ran H as u2 w4 Hp. injection Hp as _ <-. injection H as <- <-.
  split; [done|]. split; [by exists now|]. cbn. rewrite T1, T2, N1, N2. repeat split; lia.
Qed.

(** The state changes by a legal step, the configuration by a new revision. *)
Lemma transitioned_move org row row0 target now :
  schedule_ident row = schedule_ident row0 → schedule_config row = schedule_config row0 →
  ss_revision row = ss_revision row0 → ss_organization_id row0 = org →
  legal (ss_state row0) target → sched_move org row0 (transitioned target now row).
Proof.
  intros E1 E2 E3 Ho Hl. split.
  - exact E1.
  - done.
  - by apply rtc_once.
  - intros Ht. destruct (terminal_no_step _ _ Ht Hl).
  - left. cbn. lia.
Qed.

(** ** Occurrences *)

Lemma put_occurrence_ok org w w' row row' :
  db_schedules (w_db w') = db_schedules (w_db w) →
  db_occurrences (w_db w') = update_where (λ o, N.eqb (so_id o) (so_id row')) (λ _, row') (db_occurrences (w_db w)) →
  (w_next_uuid w ≤ w_next_uuid w')%N → row ∈ db_occurrences (w_db w) →
  (occ_ok digest (w_next_uuid w) row → occ_move org (w_next_uuid w) row row' ∧ claim_coherent row' ∧
     ∀ t, so_claim_token row' = Some t → (t < w_next_uuid w')%N) →
  step_ok digest org w w'.
Proof.
  intros E1 E2 Hn Hin Hm. apply step_ok_assume; [done|]. intros HI.
  destruct (Hm (si_occ_ok _ _ _ HI _ Hin)) as (Hmv & Hc & Ht).
  eapply step_ok_occurrences; [done..|]. intros o Ho Hid%N.eqb_eq _.
  assert (o = row) as ->; [|done].
  apply (NoDup_map_inj so_id (db_occurrences (w_db w))); [apply HI|done..|].
  pose proof (om_ident _ _ _ _ Hmv) as E. injection E as E _. congruence.
Qed.

Lemma violates_identity_false o d :
  violates_identity o d = false → occurrence_identity o ∉ map occurrence_identity (db_occurrences d).
Proof.
  unfold violates_identity. intros Hf Hin. apply list_elem_of_fmap in Hin as (o' & Heq & Hin).
  apply not_true_iff_false in Hf. apply Hf, existsb_exists. exists o'. split; [by apply list_elem_of_In|].
  unfold occurrence_identity in Heq. injection Heq as E1 E2 E3.
  by rewrite E1, E2, E3, !N.eqb_refl, String.eqb_refl.
Qed.

(** What [add_occurrence] appends. *)
Lemma ran_add_occurrence org schedule slot state reason w o w' :
  add_occurrence digest org schedule slot state reason w = (Ok o, w') →
  ∃ w1, same_sched w w1 ∧ so_id o = w_next_uuid w ∧ (so_id o < w_next_uuid w1)%N ∧
    violates_identity o (w_db w) = false ∧
    db_occurrences (w_db w') = db_occurrences (w_db w) ++ [o] ∧
    db_schedules (w_db w') = db_schedules (w_db w) ∧ (w_next_uuid w1 ≤ w_next_uuid w')%N ∧
    so_organization_id o = org ∧ so_schedule_id o = ss_id schedule ∧ so_state o = state ∧
    so_scheduled_for o = scheduled_for slot ∧ so_intended_local_time o = intended_local_time slot ∧
    so_claim_token o = None ∧ so_workflow_run_id o = None ∧
    build_occurrence_key digest (so_schedule_id o) (so_schedule_revision o) (so_timezone o)
      (so_intended_local_time o) (so_fold o) = Ok (so_occurrence_key o) ∧
    so_p14_idempotency_key o = p14_key (so_schedule_id o) (so_id o) ∧
    so_schedule_revision o = ss_revision schedule ∧
    so_error_code o = (if bool_decide (state = OccurrenceState.SKIPPED) then Some reason else None) ∧
    so_workflow_version_id o = ss_workflow_version_id schedule ∧
    so_workflow_input o = ss_input_payload schedule.
Proof.
  unfold add_occurrence. intros H. ran H as id w1 Hid. injection Hid as <- <-.
  ran H as key w2 Hk. injection Hk as Hk <-. ran H as now w3 Hn. injection Hn as <- <-.
  ran H as d w4 Hd. injection Hd as <- <-.
  match type of H with context [violates_identity ?r _] => set (row := r) in * end.
  cbv zeta in H. destruct (violates_identity row _) eqn:Hv; [done|].
  ran H as u w5 Hm. injection Hm as _ <-. ran H as u2 w6 Ht.
  apply squiet_occurrence_transition in Ht as (T1 & T2 & T3). injection H as <- <-. cbn in T1, T2, T3.
  exists (set_w_next_uuid (N.succ (w_next_uuid w)) w). split_and!; try done.
  - repeat split; simpl; done || lia.
  - cbn. lia.
Qed.

Lemma add_occurrence_ok org schedule slot state reason w o w' :
  (state = OccurrenceState.PENDING ∨ state = OccurrenceState.SKIPPED) →
  schedule ∈ db_schedules (w_db w) → terminal (ss_state schedule) = false →
  add_occurrence digest org schedule slot state reason w = (Ok o, w') → step_ok digest org w w'.
Proof.
  intros Hst Hsin Hact (w1 & (S1 & S2 & S3) & Hid & Hlt & Hv & E1 & E2 & Hn & Ho & Esid & Es & _ & _ & Etok & Erun & Hkey & Hp14 & _)%ran_add_occurrence.
  split; [lia|]. intros [H1 H2 H3 H4 H5 H6]. split.
  - split; rewrite ?E1, ?E2, ?map_app; try done.
    + intros s Hs%H2. lia.
    + apply NoDup_app. split; [done|]. split; [|apply NoDup_singleton].
      intros i Hi%list_elem_of_fmap Hs%list_elem_of_singleton. destruct Hi as (o' & -> & Ho'%H4). lia.
    + intros o'. rewrite elem_of_app, list_elem_of_singleton. intros [Ho'%H4| ->]; lia.
    + apply NoDup_app. split; [done|]. split; [|apply NoDup_singleton].
      intros i Hi Hs%list_elem_of_singleton. subst i. by apply violates_identity_false in Hv.
    + intros o'. rewrite elem_of_app, list_elem_of_singleton. intros [Ho'%H6| ->].
      * eapply occ_ok_mono; [|done]. lia.
      * split; [done|done| |intros t; by rewrite Etok]. unfold claim_coherent. rewrite Es.
        destruct Hst as [-> | ->]; done.
  - split; [rewrite E2; apply extends_refl; apply sched_move_refl|].
    exists (db_occurrences (w_db w)), [o]. split; [done|]. split.
    + apply Forall_Forall2_diag, Forall_true. intros. apply occ_move_refl.
    + constructor; [|constructor]. split; [lia|]. split; [done|]. rewrite Esid. intros s Hs Heq.
      by rewrite (NoDup_map_inj ss_id _ s schedule H1 Hs Hsin Heq).
Qed.

(** ** The dispatch updates *)

Lemma holds_spec org c o :
  holds org c o = true ↔ so_organization_id o = org ∧ so_id o = so_id (oc_occurrence c) ∧
    so_state o = OccurrenceState.CLAIMED ∧ so_claim_owner_id o = Some (oc_owner_id c) ∧
    so_claim_token o = Some (oc_claim_token c).
Proof. unfold holds, is_occurrence. rewrite !andb_true_iff, !bool_decide_eq_true, !N.eqb_eq. tauto. Qed.

Lemma ran_update_claimed org c f w o w' :
  update_claimed org c f w = (Ok o, w') →
  ∃ o0, o0 ∈ db_occurrences (w_db w) ∧ holds org c o0 = true ∧ o = f o0 ∧
    w' = set_w_db (set_db_occurrences (update_where (holds org c) f (db_occurrences (w_db w))) (w_db w)) w.
Proof.
  unfold update_claimed. intros H. ran H as d w1 Hd. injection Hd as <- <-.
  destruct (List.find _ _) as [o0|] eqn:Hf; [|done]. apply List.find_some in Hf as [Hin Hh].
  ran H as u w2 Hm. injection Hm as _ <-. injection H as <- <-.
  exists o0. split; [by apply list_elem_of_In|]. done.
Qed.

(** A fenced update that keeps the claim and takes a legal step. *)
Lemma update_claimed_ok org c f w o w' :
  (∀ o, so_state o = OccurrenceState.CLAIMED → is_Some (so_claim_token o) → so_workflow_run_id o = None →
     occurrence_ident (f o) = occurrence_ident o ∧ occurrence_claim (f o) = occurrence_claim o ∧
     (so_state (f o) = OccurrenceState.CLAIMED ∨ legal OccurrenceState.CLAIMED (so_state (f o))) ∧
     claim_coherent (f o)) →
  update_claimed org c f w = (Ok o, w') → step_ok digest org w w'.
Proof.
  intros Hf (o0 & Hin & Hh & -> & ->)%ran_update_claimed.
  apply (step_ok_occurrences digest org w _ (holds org c) f); [done|done|cbn; lia|].
  intros o1 Ho1 Hp [_ _ Hc Ht]. apply holds_spec in Hp as (Eorg & Eid & Es & Eo & Et).
  unfold claim_coherent in Hc. rewrite Es in Hc. destruct Hc as [Htok Hrun].
  destruct (Hf o1 Es Htok Hrun) as (Hi & Hcl & Hst & Hco).
  pose proof Hcl as Hcl'. injection Hcl' as C1 C2 C3. split; [|split; [done|]].
  - split; [done|done| |by rewrite Es|done|by left].
    rewrite Es. destruct Hst as [-> | Hl]; [apply rtc_refl|by apply rtc_once].
  - intros t. rewrite C2. cbn. auto.
Qed.

End ops.
