(* ===== verification/SchedulerSteps.v ===== *)
(** * SchedulerSteps: the transactions of the scheduler service

    What each transaction of [SchedulerService] leaves in the tables when it
    returns, and that it keeps the invariant of [SchedulerInvariant]. *)

From S2P Require Import Prelude.
From S2P Require Import Errors.
From S2P Require Import Lifecycles.
From S2P Require Import ScheduleSpec.
From S2P Require Import Recurrence.
From S2P Require Import Store.
From S2P Require Import StoreLemmas.
From S2P Require Import Identity.
From S2P Require Import WorkflowService.
From S2P Require Import SchedulerRepository.
From S2P Require Import SchedulerService.
From S2P Require Import SchedulerInvariant.
From S2P Require Import SchedulerOps.

(** ** UUIDs *)

#[export] Instance monotone_transition_schedule org row t r s : Monotone (transition_schedule org row t r s).
Proof. unfold transition_schedule, database_now, put_schedule. monotonicity. Qed.
#[export] Instance monotone_add_occurrence digest org s slot st r :
  Monotone (add_occurrence digest org s slot st r).
Proof. unfold add_occurrence. monotonicity. Qed.
#[export] Instance monotone_repo_create org f : Monotone (SchedulerRepository.create_schedule org f).
Proof. unfold SchedulerRepository.create_schedule. monotonicity. Qed.
#[export] Hint Resolve monotone_repo_create : monotone.
#[export] Instance monotone_accounting digest org s l r :
  Monotone (record_misfire_accounting digest org s l r).
Proof. unfold record_misfire_accounting, add_history. monotonicity. Qed.
#[export] Instance monotone_cancel_row org f r o : Monotone (SchedulerRepository.cancel_row org f r o).
Proof. unfold SchedulerRepository.cancel_row, database_now, put_occurrence. monotonicity. Qed.
#[export] Instance monotone_update_claimed org c f : Monotone (update_claimed org c f).
Proof. unfold update_claimed. monotonicity. Qed.
#[export] Hint Resolve monotone_transition_schedule monotone_add_occurrence monotone_accounting
  monotone_cancel_row monotone_update_claimed : monotone.
#[export] Instance monotone_found_schedule org id : Monotone (found_schedule org id).
Proof. unfold found_schedule, schedule_row. monotonicity. Qed.
#[export] Instance monotone_found_occurrence org id : Monotone (found_occurrence org id).
Proof. unfold found_occurrence, occurrence_row. monotonicity. Qed.
#[export] Instance monotone_schedule_event org t s : Monotone (schedule_event org t s).
Proof. unfold schedule_event. monotonicity. Qed.
#[export] Instance monotone_occurrence_event org t o : Monotone (occurrence_event org t o).
Proof. unfold occurrence_event. monotonicity. Qed.
#[export] Instance monotone_complete org s r : Monotone (complete_one_time org s r).
Proof. unfold complete_one_time. monotonicity. Qed.
#[export] Hint Resolve monotone_found_schedule monotone_found_occurrence monotone_schedule_event
  monotone_occurrence_event monotone_complete : monotone.
#[export] Instance monotone_finish_dispatch org c r : Monotone (finish_dispatch org c r).
Proof. unfold finish_dispatch, schedule_row. monotonicity. Qed.
#[export] Instance monotone_fail_dispatch org c r : Monotone (fail_dispatch org c r).
Proof. unfold fail_dispatch, schedule_row. monotonicity. Qed.
#[export] Instance monotone_repo_claim_due org owner : Monotone (SchedulerRepository.claim_due org owner).
Proof. unfold SchedulerRepository.claim_due, database_now, put_occurrence. monotonicity. Qed.
#[export] Instance monotone_flush_next r r' : Monotone (flush_next r r').
Proof. unfold flush_next, put_schedule. monotonicity. Qed.
#[export] Hint Resolve monotone_finish_dispatch monotone_fail_dispatch monotone_repo_claim_due
  monotone_flush_next : monotone.
#[export] Instance monotone_materialize_slot digest org row t r s :
  Monotone (materialize_slot digest org row t r s).
Proof. unfold materialize_slot. monotonicity. Qed.
#[export] Hint Resolve monotone_materialize_slot : monotone.
#[export] Instance monotone_materialize_row zi digest org now rem row :
  Monotone (materialize_row zi digest org now rem row).
Proof. unfold materialize_row. monotonicity. Qed.
#[export] Hint Resolve monotone_materialize_row : monotone.
#[export] Instance monotone_materialize_rows zi digest org now rem rows :
  Monotone (materialize_rows zi digest org now rem rows).
Proof. revert rem. induction rows as [|row rows IH]; intros rem; cbn [materialize_rows]; monotonicity; apply IH. Qed.
#[export] Hint Resolve monotone_materialize_rows : monotone.

Lemma squiet_schedule_event org t s : squiet (schedule_event org t s).
Proof. unfold schedule_event. apply squiet_enqueue. Qed.
Lemma squiet_occurrence_event org t o : squiet (occurrence_event org t o).
Proof. unfold occurrence_event. apply squiet_enqueue. Qed.
#[export] Hint Resolve squiet_schedule_event squiet_occurrence_event : squiet.

Lemma squiet_then {A B} (m : M A) (b : B) : squiet m → squiet (_ ← m; mret b).
Proof. intros Hm. apply squiet_bind; [done|]. intros _. apply squiet_ret. Qed.

(** A transaction that only reads the scheduler tables. *)
Lemma txn_same {A} (m : M A) `{!Monotone m} w : squiet m → same_sched w (snd (tenant_transaction m w)).
Proof.
  intros Hm. unfold tenant_transaction. destruct (m _) as [[a|e] w1] eqn:Hrun; cbn [snd].
  - apply Hm in Hrun as (E1 & E2 & Hn). by repeat split.
  - apply ran_monotone in Hrun; [|done]. by repeat split.
Qed.

(** ** Transactions *)

Section steps.
Context (digest : string → string).

Definition sok {A} (org : uuid) (m : M A) : Prop :=
  ∀ w a w', m w = (Ok a, w') → step_ok digest org w w'.

Lemma squiet_sok {A} org (m : M A) : squiet m → sok org m.
Proof. intros Hm w a w' H. by eapply same_sched_ok, Hm. Qed.

Lemma sok_bind {A B} org (m : M A) (f : A → M B) : sok org m → (∀ a, sok org (f a)) → sok org (m ≫= f).
Proof. intros Hm Hf w b w' H. ran H as a w1 H1. etrans; [by eapply Hm|by eapply Hf]. Qed.

Lemma txn_sok {A} org (m : M A) `{!Monotone m} w :
  sok org m → step_ok digest org w (snd (tenant_transaction m w)).
Proof.
  intros Hm. unfold tenant_transaction. destruct (m _) as [[a|e] w1] eqn:Hrun; simpl.
  - apply Hm in Hrun as [Hn H]. done.
  - apply same_sched_ok. apply ran_monotone in Hrun; [|done]. by repeat split.
Qed.

Lemma execution_sok {A} org (m : M A) `{!Monotone m} w :
  sok org m → step_ok digest org w (snd (execution_transaction org m w)).
Proof.
  intros Hm. apply txn_sok; [apply _|]. intros w0 a w' H. ran H as u w1 Hg.
  apply ran_guard in Hg as ->. by eapply Hm.
Qed.

(** ** Schedules *)

Lemma ran_found_schedule org id w row w' :
  found_schedule org id w = (Ok row, w') →
  w' = w ∧ row ∈ db_schedules (w_db w) ∧ ss_organization_id row = org ∧ ss_id row = id.
Proof.
  unfold found_schedule, schedule_row. intros H. ran H as r w1 Hr. injection Hr as <- <-.
  destruct (List.find _ _) as [s|] eqn:Hf; [|done]. injection H as <- <-.
  split; [done|]. by apply find_schedule in Hf.
Qed.

(** A transition of a row found in the table, whose next slot may have been set. *)
Lemma transition_ok org row row0 target reason source w row' w' :
  row0 ∈ db_schedules (w_db w) → ss_organization_id row0 = org →
  schedule_ident row = schedule_ident row0 → schedule_config row = schedule_config row0 →
  ss_revision row = ss_revision row0 →
  transition_schedule org row target reason source w = (Ok row', w') → step_ok digest org w w'.
Proof.
  intros Hin Ho E1 E2 E3 (Hl & (now & ->) & Es & Eo & Hn)%ran_transition_schedule.
  assert (Est : ss_state row = ss_state row0) by (by injection E2). rewrite Est in Hl.
  apply (put_schedule_ok digest org w w' row0 (transitioned target now row)); [exact Es|done..|].
  by apply transitioned_move.
Qed.

Lemma update_sok zoneinfo dump_length org id request :
  sok org (row ← found_schedule org id;
    if negb (bool_decide (ss_state row ∈ [ScheduleState.DRAFT; ScheduleState.PAUSED]))
    then raise InvalidState
    else if negb (ss_revision row =? us_expected_revision request)
    then raise (Nxs (ScheduleErr ScheduleConflictError))
    else
      candidate ← lift (merge_update zoneinfo dump_length row request);
      now ← database_now;
      let row := set_ss_updated_at now (set_ss_next_local_time None (set_ss_next_fire_at None
        (set_ss_revision (ss_revision row + 1) (set_ss_max_catch_up (cs_max_catch_up candidate)
        (set_ss_misfire_policy (cs_misfire_policy candidate) (set_ss_input_payload (cs_input candidate)
        (set_ss_recurrence_spec (cs_recurrence candidate) (set_ss_end_at (cs_end_at candidate)
        (set_ss_start_at (cs_start_at candidate) (set_ss_timezone (cs_timezone candidate) row)))))))))) in
      _ ← put_schedule row; mret row).
Proof.
  intros w a w' H. ran H as row w1 Hr. apply ran_found_schedule in Hr as (-> & Hin & Ho & _).
  destruct (bool_decide _) eqn:Hst; [|done]. cbn [negb] in H. destruct (negb _); [done|].
  ran H as cand w2 Hc. injection Hc as _ <-. ran H as now w3 Hn.
  apply squiet_utcnow in Hn as (N1 & N2 & N3). cbv zeta in H. ran H as u w4 Hp. injection Hp as _ <-.
  injection H as _ <-.
  match goal with |- context [update_where _ (λ _, ?r) _] => set (row' := r) in * end.
  apply (put_schedule_ok digest org w _ row row'); cbn; [by rewrite N1|done|done|done|].
  split; [done|done|apply rtc_refl| |left; cbn; lia].
  intros Ht. exfalso. apply bool_decide_eq_true in Hst. revert Ht.
  rewrite !elem_of_cons, elem_of_nil in Hst. destruct Hst as [->|[->|[]]]; done.
Qed.

Lemma create_sok tzversion org request :
  sok org (schedule ← SchedulerRepository.create_schedule org (new_schedule tzversion org request);
           _ ← schedule_event org "scheduler.schedule.created" schedule; mret schedule).
Proof.
  intros w a w' H. ran H as s w1 Hc.
  etrans; [|eapply same_sched_ok, (squiet_then _ s), H; apply squiet_schedule_event].
  clear H. unfold SchedulerRepository.create_schedule in Hc. ran Hc as id w2 Hid. injection Hid as <- <-.
  ran Hc as now w3 Hn. injection Hn as <- <-. cbv zeta in Hc. ran Hc as d w4 Hd. injection Hd as <- <-.
  destruct (violates_schedule_key _ _); [done|]. ran Hc as u w5 Hm. injection Hm as _ <-.
  ran Hc as u2 w6 Ht. apply squiet_schedule_transition in Ht as (T1 & T2 & T3). injection Hc as <- <-.
  cbn in T1, T2, T3. set (row := new_schedule _ _ _ _ _) in T1.
  split; [lia|]. intros [H1 H2 H3 H4 H5 H6]. split.
  - split; rewrite ?T1, ?T2, ?map_app; try done.
    + apply NoDup_app. split; [done|]. split; [|apply NoDup_singleton].
      intros i Hi%list_elem_of_fmap Hs%list_elem_of_singleton. destruct Hi as (s' & -> & Hs'%H2).
      cbn in Hs. lia.
    + intros s'. rewrite elem_of_app, list_elem_of_singleton. intros [Hs'%H2| ->]; cbn; lia.
    + intros o Ho%H4. lia.
    + intros o Ho%H6. eapply occ_ok_mono; [|done]. lia.
  - split; [|rewrite T2; apply extends_refl; apply occ_move_refl].
    exists (db_schedules (w_db w)), [row]. split; [done|]. split.
    + apply Forall_Forall2_diag, Forall_true. intros. apply sched_move_refl.
    + repeat constructor. cbn. lia.
Qed.

(** ** Cancellation *)

Lemma ran_cancel_occurrence_row org f r o w o' w' :
  SchedulerRepository.cancel_row org f r o w = (Ok o', w') →
  (∃ now, o' = set_so_updated_at now (set_so_state OccurrenceState.CANCELLED o)) ∧
  db_schedules (w_db w') = db_schedules (w_db w) ∧
  db_occurrences (w_db w') =
    update_where (λ x, N.eqb (so_id x) (so_id o)) (λ _, o') (db_occurrences (w_db w)) ∧
  (w_next_uuid w ≤ w_next_uuid w')%N.
Proof.
  unfold SchedulerRepository.cancel_row. intros H. ran H as now w1 Hn.
  apply squiet_utcnow in Hn as (N1 & N2 & N3). cbv zeta in H. ran H as u w2 Hp. injection Hp as _ <-.
  ran H as u2 w3 Ht. apply squiet_occurrence_transition in Ht as (T1 & T2 & T3). injection H as <- <-.
  cbn in T1, T2, T3. split; [by exists now|]. rewrite T1, T2, N1, N2. repeat split; lia.
Qed.

Lemma cancel_row_ok org f r o w o' w' :
  o ∈ db_occurrences (w_db w) → so_organization_id o = org →
  legal (so_state o) OccurrenceState.CANCELLED →
  SchedulerRepository.cancel_row org f r o w = (Ok o', w') → step_ok digest org w w'.
Proof.
  intros Hin Ho Hl ((now & ->) & E1 & E2 & Hn)%ran_cancel_occurrence_row.
  apply (put_occurrence_ok digest org w w' o
    (set_so_updated_at now (set_so_state OccurrenceState.CANCELLED o))); [exact E1|exact E2|exact Hn|exact Hin|].
  intros [_ _ Hc Ht]. split.
  - split; [done|done|by apply rtc_once| |done|by left].
    intros Hterm. destruct (terminal_no_step _ _ Hterm Hl).
  - split; [|cbn; intros t Htok; apply Ht in Htok; lia].
    unfold claim_coherent in *. cbn. revert Hl Hc. destruct (so_state o); cbn; unfold legal; simpl;
      try tauto; set_solver.
Qed.

(** The loop of [cancel_pending]: the given rows are cancelled, the others stay. *)
Lemma cancel_rows org f r rows w res w' :
  NoDup (map so_id rows) →
  (∀ o, o ∈ rows → o ∈ db_occurrences (w_db w) ∧ so_organization_id o = org ∧
                   so_state o = OccurrenceState.PENDING) →
  mapM_list (SchedulerRepository.cancel_row org f r) rows w = (Ok res, w') →
  step_ok digest org w w' ∧ db_schedules (w_db w') = db_schedules (w_db w) ∧
  ∀ o, o ∈ db_occurrences (w_db w') →
    o ∈ db_occurrences (w_db w) ∧ so_id o ∉ map so_id rows ∨
    so_state o = OccurrenceState.CANCELLED.
Proof.
  revert w res. induction rows as [|o rows IH]; intros w res Hnd Hrows H; cbn [mapM_list] in H.
  { injection H as _ <-. split; [done|]. split; [done|]. intros o Ho. left. split; [done|]. apply not_elem_of_nil. }
  apply NoDup_cons in Hnd as [Hnew Hnd]. destruct (Hrows o) as (Hin & Ho & Hst); [constructor|].
  ran H as o' w1 Hc. ran H as bs w2 Hm. injection H as _ <-.
  pose proof (cancel_row_ok _ _ _ _ _ _ _ Hin Ho ltac:(rewrite Hst; unfold legal; simpl; set_solver) Hc) as Hok.
  apply ran_cancel_occurrence_row in Hc as ((now & ->) & E1 & E2 & _). set (o' := set_so_updated_at _ _) in *.
  destruct (IH w1 bs) as (Hok2 & E3 & Hrest); [done| |done|].
  { intros x Hx. destruct (Hrows x) as (Hxin & Hxo & Hxs); [by constructor|]. split; [|done].
    rewrite E2. apply list_elem_of_fmap. exists x. split; [|done].
    rewrite (proj2 (N.eqb_neq _ _)); [done|]. intros Heq. apply Hnew. rewrite <- Heq.
    by apply list_elem_of_fmap_2. }
  split; [by etrans|]. split; [congruence|]. intros x Hx. destruct (Hrest x Hx) as [[Hx1 Hxn]|?]; [|by right].
  rewrite E2 in Hx1. apply update_where_elem in Hx1 as (x0 & Hx0 & [[-> Hne]|[-> _]]); [|by right].
  left. split; [done|]. apply N.eqb_neq in Hne. rewrite map_cons, not_elem_of_cons. done.
Qed.

Lemma cancel_pending_spec org id w res w' :
  cancel_pending org id w = (Ok res, w') →
  sched_inv digest (w_db w) (w_next_uuid w) →
  step_ok digest org w w' ∧ db_schedules (w_db w') = db_schedules (w_db w) ∧
  ∀ o, o ∈ db_occurrences (w_db w') → so_organization_id o = org → so_schedule_id o = id →
       so_state o ≠ OccurrenceState.PENDING.
Proof.
  unfold cancel_pending. intros H HI. ran H as rows w1 Hr. injection Hr as <- <-.
  set (rows := List.filter _ _) in H.
  assert (Hnd : NoDup (map so_id rows)) by (apply NoDup_map_filter, HI).
  apply (cancel_rows org) in H as (Hok & Es & Hrest); [|done|].
  - split; [done|]. split; [done|]. intros o Ho Horg Hid Hpend.
    destruct (Hrest o Ho) as [[Hin Hnot]|Hc]; [|congruence]. apply Hnot, list_elem_of_fmap_2.
    unfold rows. rewrite list_elem_of_In, List.filter_In. split; [by apply list_elem_of_In|].
    unfold is_pending_of. by rewrite Horg, Hid, !N.eqb_refl, Hpend.
  - intros o Ho. unfold rows in Ho. rewrite list_elem_of_In, List.filter_In in Ho.
    destruct Ho as [Ho Hp]. apply list_elem_of_In in Ho. unfold is_pending_of in Hp.
    rewrite !andb_true_iff, !N.eqb_eq, bool_decide_eq_true in Hp. tauto.
Qed.

(** ** Claims and dispatch *)

Lemma head_sorted_elem {A} (R : relation A) `{∀ x y, Decision (R x y)} (l : list A) x :
  head (merge_sort R l) = Some x → x ∈ l.
Proof.
  intros Hh. rewrite <- (merge_sort_Permutation R l). destruct (merge_sort R l); [done|].
  injection Hh as ->. constructor.
Qed.

(** What a claim leaves: one due PENDING occurrence of an ACTIVE schedule is CLAIMED
    by the owner under a fresh token. *)
Lemma ran_claim_due org owner w c w' :
  SchedulerRepository.claim_due org owner w = (Ok (Some c), w') →
  ∃ o s now, o ∈ db_occurrences (w_db w) ∧ s ∈ db_schedules (w_db w) ∧
    so_organization_id o = org ∧ so_state o = OccurrenceState.PENDING ∧
    so_schedule_id o = ss_id s ∧ ss_organization_id s = org ∧ ss_state s = ScheduleState.ACTIVE ∧
    so_scheduled_for o ≤ now ∧
    oc_owner_id c = owner ∧ so_id (oc_occurrence c) = so_id o ∧
    oc_workflow_input c = so_workflow_input o ∧ so_schedule_id (oc_occurrence c) = so_schedule_id o ∧
    oc_claim_token c = w_next_uuid w ∧
    occurrence_ident (oc_occurrence c) = occurrence_ident o ∧
    so_state (oc_occurrence c) = OccurrenceState.CLAIMED ∧
    so_claim_owner_id (oc_occurrence c) = Some owner ∧
    so_claim_token (oc_occurrence c) = Some (oc_claim_token c) ∧
    so_workflow_run_id (oc_occurrence c) = so_workflow_run_id o ∧
    db_schedules (w_db w') = db_schedules (w_db w) ∧
    db_occurrences (w_db w') =
      update_where (λ x, N.eqb (so_id x) (so_id o)) (λ _, oc_occurrence c) (db_occurrences (w_db w)) ∧
    (w_next_uuid w < w_next_uuid w')%N.
Proof.
  unfold SchedulerRepository.claim_due. intros H. ran H as now w1 Hn. injection Hn as <- <-.
  ran H as d w2 Hd. injection Hd as <- <-. cbn [w_db set_w_reads] in H.
  destruct (claimable_schedule _ _ _) as [s|] eqn:Hs; [|done].
  ran H as now w3 Hn. injection Hn as <- <-. cbn [w_clock w_reads set_w_reads] in H.
  destruct (head _) as [o|] eqn:Ho; [|done].
  ran H as tok w4 Ht. injection Ht as <- <-. ran H as u w5 Hg. injection Hg as _ <-.
  ran H as at_ w6 Ha. injection Ha as <- <-. cbv zeta in H. ran H as u2 w7 Hp. injection Hp as _ <-.
  ran H as u3 w8 Hh. apply squiet_occurrence_transition in Hh as (T1 & T2 & T3). injection H as <- <-.
  cbn in T1, T2, T3. apply head_sorted_elem in Ho. rewrite list_elem_of_In, List.filter_In in Ho.
  destruct Ho as [Hin Hp]. apply list_elem_of_In in Hin. cbn in Hp.
  unfold pending_due in Hp. rewrite !andb_true_iff, !N.eqb_eq, bool_decide_eq_true, Z.leb_le in Hp.
  destruct Hp as [[[Eorg Est] Edue] Esid].
  unfold claimable_schedule in Hs. destruct (head _) as [o1|]; [|done].
  apply List.find_some in Hs as [Hsin Hsp]. unfold is_schedule in Hsp.
  rewrite !andb_true_iff, !N.eqb_eq, bool_decide_eq_true in Hsp. destruct Hsp as [[E1 _] E2].
  exists o, s, (w_clock w (S (w_reads w))). split_and!; try done; [by apply list_elem_of_In|lia].
Qed.

Lemma claim_due_ok org owner w c w' :
  SchedulerRepository.claim_due org owner w = (Ok c, w') → step_ok digest org w w'.
Proof.
  destruct c as [c|].
  - intros (o & s & now & Hin & _ & Eorg & Est & _ & _ & _ & _ & _ & Eid & _ & _ & Etok & Eident & Ec & Eo & Et & Er & E1 & E2 & Hn)%ran_claim_due.
    apply (put_occurrence_ok digest org w w' o (oc_occurrence c)); [done|by rewrite Eid|lia|done|].
    intros [_ _ Hc Ht]. unfold claim_coherent in *. rewrite Est in Hc. rewrite Ec. split.
    + split; [done|done|rewrite Est, Ec; apply rtc_once; unfold legal; simpl; set_solver|by rewrite Est|by rewrite Est|].
      right. exists (oc_claim_token c). split; [done|lia].
    + split; [rewrite Et, Er; split; [by eexists|apply Hc]|]. intros t. rewrite Et. intros [= <-]. lia.
  - unfold SchedulerRepository.claim_due. intros H. apply same_sched_ok.
    ran H as now w1 Hn. injection Hn as <- <-. ran H as d w2 Hd. injection Hd as <- <-.
    destruct (claimable_schedule _ _ _) as [s|]; [|injection H as <-; repeat split; cbn; done || lia].
    ran H as now w3 Hn. injection Hn as <- <-.
    destruct (head _) as [o|]; [|injection H as <-; repeat split; cbn; done || lia].
    ran H as tok w4 Ht. ran H as u w5 Hg. ran H as at_ w6 Ha. cbv zeta in H. ran H as u2 w7 Hp.
    by ran H as u3 w8 Hh.
Qed.

Lemma begin_dispatch_ok org c w u w' : begin_dispatch org c w = (Ok u, w') → step_ok digest org w w'.
Proof.
  unfold begin_dispatch. intros H. ran H as now w1 Hn. etrans; [eapply same_sched_ok, squiet_utcnow, Hn|].
  ran H as o w2 Hu. injection H as _ <-. eapply update_claimed_ok; [|exact Hu].
  intros o1 Est Htok Hrun. split; [done|]. split; [done|]. split; [by left|].
  unfold claim_coherent. cbn. by rewrite Est.
Qed.

(** Completing a one-time schedule after its dispatch. *)
Lemma complete_one_time_ok org schedule reason w u w' :
  schedule ∈ db_schedules (w_db w) → ss_organization_id schedule = org →
  complete_one_time org schedule reason w = (Ok u, w') →
  step_ok digest org w w' ∧ db_occurrences (w_db w') = db_occurrences (w_db w).
Proof.
  intros Hin Ho. unfold complete_one_time. destruct (_ && _); [|by intros [= _ <-]].
  intros H. ran H as row w1 Ht. injection H as _ <-. split; [by eapply transition_ok|].
  by apply ran_transition_schedule in Ht as (_ & _ & _ & -> & _).
Qed.

Lemma ran_schedule_row org id w r w' :
  schedule_row org id w = (Ok r, w') → w' = w ∧
  match r with Some s => s ∈ db_schedules (w_db w) ∧ ss_organization_id s = org | None => True end.
Proof.
  unfold schedule_row. intros H. injection H as <- <-. split; [done|].
  destruct (List.find _ _) as [s|] eqn:Hf; [|done]. by apply find_schedule in Hf as (? & ? & _).
Qed.

(** The outcome a dispatch records: [f] is the update of the fenced occurrence. *)
Lemma dispatch_outcome org c f from to reason source done_reason w o w' :
  (∀ now o, so_state o = OccurrenceState.CLAIMED → is_Some (so_claim_token o) → so_workflow_run_id o = None →
     occurrence_ident (f now o) = occurrence_ident o ∧ occurrence_claim (f now o) = occurrence_claim o ∧
     (so_state (f now o) = OccurrenceState.CLAIMED ∨ legal OccurrenceState.CLAIMED (so_state (f now o))) ∧
     claim_coherent (f now o)) →
  (found ← schedule_row org (so_schedule_id (oc_occurrence c));
   match found with
   | None => raise (Nxs (ScheduleErr ScheduleExecutionFencedError))
   | Some schedule =>
       now ← utcnow;
       row ← update_claimed org c (f now);
       _ ← add_occurrence_transition org (so_id row) from to reason source;
       _ ← complete_one_time org schedule done_reason;
       mret row
   end) w = (Ok o, w') →
  step_ok digest org w w' ∧
  ∃ o0 now, o0 ∈ db_occurrences (w_db w) ∧ holds org c o0 = true ∧ o = f now o0 ∧
    db_occurrences (w_db w') = update_where (holds org c) (f now) (db_occurrences (w_db w)).
Proof.
  intros Hf H. ran H as r w1 Hr. apply ran_schedule_row in Hr as [-> Hs].
  destruct r as [s|]; [|done]. destruct Hs as [Hin Ho].
  ran H as now w2 Hn. apply squiet_utcnow in Hn. ran H as row w3 Hu.
  pose proof (update_claimed_ok digest org c (f now) _ _ _ (Hf now) Hu) as Hok1.
  apply ran_update_claimed in Hu as (o0 & Hin0 & Hh & -> & ->).
  ran H as u w4 Ht. apply squiet_occurrence_transition in Ht. ran H as u2 w5 Hc. injection H as <- <-.
  pose proof (same_sched_ok digest org _ _ Hn) as Hok0. destruct Hn as (N1 & N2 & N3). pose proof Ht as (T1 & T2 & T3). cbn in T1, T2, T3.
  apply complete_one_time_ok in Hc as [Hok2 Eocc]; [|by rewrite T1, N1|done].
  split.
  - etrans; [exact Hok0|]. etrans; [exact Hok1|].
    etrans; [apply same_sched_ok, Ht|exact Hok2].
  - exists o0, now. rewrite <- N2. split_and!; [done..|]. congruence.
Qed.

Lemma finish_dispatch_ok org c run w o w' :
  finish_dispatch org c run w = (Ok o, w') →
  step_ok digest org w w' ∧
  ∃ o0 now, o0 ∈ db_occurrences (w_db w) ∧ holds org c o0 = true ∧
    let f := λ o, set_so_updated_at now (set_so_workflow_run_id (Some run) (set_so_state OccurrenceState.DISPATCHED o)) in
    o = f o0 ∧ db_occurrences (w_db w') = update_where (holds org c) f (db_occurrences (w_db w)).
Proof.
  intros H. eapply (dispatch_outcome org c (λ now o, set_so_updated_at now
    (set_so_workflow_run_id (Some run) (set_so_state OccurrenceState.DISPATCHED o)))) in H
    as (Hok & o0 & now & ? & ? & ? & ?).
  - split; [done|]. by exists o0, now.
  - intros now o1 Est Htok _. split; [done|]. split; [done|]. cbn. split.
    + right. unfold legal. simpl. set_solver.
    + split; [done|by eexists].
Qed.

Lemma fail_dispatch_ok org c error w o w' :
  fail_dispatch org c error w = (Ok o, w') →
  step_ok digest org w w' ∧
  ∃ o0 now, o0 ∈ db_occurrences (w_db w) ∧ holds org c o0 = true ∧
    let f := λ o, set_so_updated_at now (set_so_error_code (Some error) (set_so_state OccurrenceState.FAILED o)) in
    o = f o0 ∧ db_occurrences (w_db w') = update_where (holds org c) f (db_occurrences (w_db w)).
Proof.
  intros H. eapply (dispatch_outcome org c (λ now o, set_so_updated_at now
    (set_so_error_code (Some error) (set_so_state OccurrenceState.FAILED o)))) in H
    as (Hok & o0 & now & ? & ? & ? & ?).
  - split; [done|]. by exists o0, now.
  - intros now o1 Est Htok Hrun. split; [done|]. split; [done|]. cbn. split.
    + right. unfold legal. simpl. set_solver.
    + split; done.
Qed.
End steps.
