(* ===== verification/SchedulerMaterialize.v ===== *)
(** * SchedulerMaterialize: due slots become occurrences

    [_elapsed_slots] lists the slots that have passed, the misfire policy splits
    them into slots to materialise and slots to account for, and [materialize_due]
    turns the former into rows. *)

From S2P Require Import Prelude.
From S2P Require Import Errors.
From S2P Require Import Lifecycles.
From S2P Require Import ScheduleSpec.
From S2P Require Import Calendar.
From S2P Require Import Recurrence.
From S2P Require Import RecurrenceLaws.
From S2P Require Import Store.
From S2P Require Import StoreLemmas.
From S2P Require Import Identity.
From S2P Require Import SchedulerRepository.
From S2P Require Import SchedulerService.
From S2P Require Import SchedulerInvariant.
From S2P Require Import SchedulerOps.
From S2P Require Import SchedulerSteps.

(** ** The misfire policies *)

Definition selected (sel : list TemporalSlot * list TemporalSlot * (OccurrenceState * string * string)) :=
  fst (fst sel).

Definition omitted (sel : list TemporalSlot * list TemporalSlot * (OccurrenceState * string * string)) :=
  snd (fst sel).

Definition terminal_of (policy : MisfirePolicy) : OccurrenceState :=
  match policy with MisfirePolicy.SKIP => OccurrenceState.SKIPPED | _ => OccurrenceState.PENDING end.

Lemma select_state policy m rem slots :
  fst (fst (snd (select_slots policy m rem slots))) = terminal_of policy.
Proof. by destruct policy. Qed.

Lemma select_partition policy m rem slots :
  let s := select_slots policy m rem slots in
  match policy with
  | MisfirePolicy.CATCH_UP_BOUNDED => selected s ++ omitted s = slots
  | _ => omitted s ++ selected s = slots
  end.
Proof. destruct policy; cbn; apply take_drop. Qed.

Lemma select_bound policy m rem slots :
  1 ≤ rem → Z.of_nat (length (selected (select_slots policy m rem slots))) ≤ rem.
Proof. intros Hrem. destruct policy; cbn; rewrite ?length_drop, ?length_take; lia. Qed.

(** ** Elapsed slots *)

Section materialize.
Context (zoneinfo : string → option ZoneInfo).
Context (digest : string → string).

(** Each slot is the successor of the one before it. *)
Fixpoint slot_chain (schedule : SchedulerScheduleRecord) (current : TemporalSlot)
    (rest : list TemporalSlot) : Prop :=
  match rest with
  | [] => True
  | next :: rest =>
      (∃ r, ss_recurrence_spec schedule = Some r ∧
            next_slot zoneinfo (intended_local_time current) (scheduled_for current)
              (ss_timezone schedule) r = Ok next) ∧
      slot_chain schedule next rest
  end.

Definition within (schedule : SchedulerScheduleRecord) (t : Z) : Prop :=
  match ss_end_at schedule with Some e => t ≤ e | None => True end.

Definition option_list {A} (o : option A) : list A := match o with Some a => [a] | None => [] end.

Lemma elapsed_loop_spec fuel schedule now current due res next :
  elapsed_loop zoneinfo fuel schedule now current due = Ok (res, next) →
  ∃ more, res = due ++ more ∧
    Forall (λ s, scheduled_for s ≤ now ∧ within schedule (scheduled_for s)) more ∧
    match next with Some s => now < scheduled_for s | None => True end ∧
    match more ++ option_list next with
    | [] => True
    | s :: rest => s = current ∧ slot_chain schedule s rest
    end.
Proof.
  revert current due. induction fuel as [|fuel IH]; intros current due; cbn [elapsed_loop]; [done|].
  destruct (Z.ltb_spec now (scheduled_for current)) as [Hnow|Hnow].
  { intros [= <- <-]. exists []. rewrite app_nil_r. by split_and!. }
  destruct (match ss_end_at schedule with Some e => _ | None => _ end) eqn:Hend.
  { intros [= <- <-]. exists []. rewrite app_nil_r. by split_and!. }
  assert (Hw : within schedule (scheduled_for current)).
  { unfold within. destruct (ss_end_at schedule); [|done]. apply Z.ltb_ge in Hend. done. }
  destruct (ss_recurrence_spec schedule) as [r|] eqn:Hr.
  - rewrite bind_Ok. intros (s & Hs & H). apply IH in H as (more & -> & Hdue & Hnext & Hchain).
    exists (current :: more). split; [by rewrite <- app_assoc|]. split; [by constructor|]. split; [done|].
    cbn [app]. split; [done|]. destruct (more ++ option_list next) as [|s' rest]; [done|].
    destruct Hchain as [-> Hchain]. cbn [slot_chain]. split; [by exists r|done].
  - intros [= <- <-]. exists [current]. split; [done|]. by split_and!; [repeat constructor|..].
Qed.

(** Successive slots fire strictly later. *)
Lemma slot_chain_sorted schedule s rest :
  slot_chain schedule s rest → StronglySorted (λ a b, scheduled_for a < scheduled_for b) (s :: rest).
Proof.
  revert s. induction rest as [|s' rest IH]; intros s; cbn [slot_chain]; [by repeat constructor|].
  intros [(r & _ & Hn) Hc]. apply next_slot_after in Hn. specialize (IH s' Hc).
  constructor; [done|]. constructor; [done|]. apply StronglySorted_inv in IH as [_ Hf].
  eapply Forall_impl; [exact Hf|]. cbn. intros x ?. lia.
Qed.

Lemma elapsed_slots_spec schedule now due next :
  elapsed_slots zoneinfo schedule now = Ok (due, next) →
  Forall (λ s, scheduled_for s ≤ now ∧ within schedule (scheduled_for s)) due ∧
  match next with Some s => now < scheduled_for s | None => True end ∧
  StronglySorted (λ a b, scheduled_for a < scheduled_for b) (due ++ option_list next) ∧
  match due ++ option_list next with
  | [] => True
  | s :: rest => ss_next_fire_at schedule = Some (scheduled_for s) ∧
                 ss_next_local_time schedule = Some (intended_local_time s) ∧
                 slot_chain schedule s rest
  end.
Proof.
  unfold elapsed_slots. destruct (ss_next_fire_at schedule) as [fire|] eqn:Hf.
  2: { intros [= <- <-]. split_and!; constructor. }
  destruct (ss_next_local_time schedule) as [local|] eqn:Hl.
  2: { intros [= <- <-]. split_and!; constructor. }
  rewrite bind_Ok. intros (zone & _ & H). apply bind_Ok in H as (current & Hc & H).
  unfold stored_slot in Hc. apply bind_Ok in Hc as (rd & _ & [= Hcur]).
  apply elapsed_loop_spec in H as (more & -> & Hdue & Hnext & Hchain). cbn [app].
  split; [done|]. split; [done|]. destruct (more ++ option_list next) as [|s rest]; [split; constructor|].
  destruct Hchain as [-> Hchain]. split; [by apply slot_chain_sorted in Hchain|].
  rewrite <- Hcur in Hchain |- *. done.
Qed.

(** ** One slot *)

(** The row a slot becomes. *)
Record created_from (org : uuid) (row : SchedulerScheduleRecord) (terminal : OccurrenceState)
    (slot : TemporalSlot) (o : SchedulerOccurrenceRecord) : Prop := {
  cf_org : so_organization_id o = org;
  cf_schedule : so_schedule_id o = ss_id row;
  cf_revision : so_schedule_revision o = ss_revision row;
  cf_version : so_workflow_version_id o = ss_workflow_version_id row;
  cf_input : so_workflow_input o = ss_input_payload row;
  cf_scheduled : so_scheduled_for o = scheduled_for slot;
  cf_local : so_intended_local_time o = intended_local_time slot;
  cf_state : so_state o = if nonexistent slot then OccurrenceState.SKIPPED else terminal;
  cf_reason : nonexistent slot = true → so_error_code o = Some "DST_NONEXISTENT_LOCAL_TIME"%string;
}.

Lemma ran_materialize_slot org row terminal reason slot w o w' :
  (terminal = OccurrenceState.PENDING ∨ terminal = OccurrenceState.SKIPPED) →
  row ∈ db_schedules (w_db w) → ss_state row = ScheduleState.ACTIVE →
  materialize_slot digest org row terminal reason slot w = (Ok o, w') →
  step_ok digest org w w' ∧ created_from org row terminal slot o ∧
  db_occurrences (w_db w') = db_occurrences (w_db w) ++ [o] ∧
  db_schedules (w_db w') = db_schedules (w_db w).
Proof.
  intros Hterm Hin Hact. unfold materialize_slot. cbv zeta. intros H. ran H as o1 w1 Ha. ran H as u w2 He.
  injection H as <- <-. apply squiet_occurrence_event in He.
  split.
  - etrans; [eapply add_occurrence_ok; [| |  |exact Ha]|by apply same_sched_ok]; [|done|by rewrite Hact].
    destruct (nonexistent slot); [by right|done].
  - destruct He as (E1 & E2 & _).
    apply ran_add_occurrence in Ha as (w3 & _ & _ & _ & _ & E3 & E4 & _ & C1 & C2 & C3 & C4 & C5 & _ & _ & _ & _ & C6 & C7 & C8 & C9).
    split_and!; [|congruence..]. split; try done.
    intros Hn. rewrite C7, Hn. by rewrite bool_decide_eq_true_2.
Qed.

Lemma ran_materialize_slots org row terminal reason slots w os w' :
  (terminal = OccurrenceState.PENDING ∨ terminal = OccurrenceState.SKIPPED) →
  row ∈ db_schedules (w_db w) → ss_state row = ScheduleState.ACTIVE →
  mapM_list (materialize_slot digest org row terminal reason) slots w = (Ok os, w') →
  step_ok digest org w w' ∧ Forall2 (created_from org row terminal) slots os ∧
  db_occurrences (w_db w') = db_occurrences (w_db w) ++ os ∧
  db_schedules (w_db w') = db_schedules (w_db w).
Proof.
  intros Hterm Hin Hact. revert w os Hin. induction slots as [|slot slots IH]; intros w os Hin H; cbn [mapM_list] in H.
  { injection H as <- <-. by rewrite app_nil_r. }
  ran H as o w1 H1. ran H as os' w2 H2. injection H as <- <-.
  apply ran_materialize_slot in H1 as (Hok1 & Hc & E1 & E2); [|done..].
  apply IH in H2 as (Hok2 & Hcs & E3 & E4); [|by rewrite E2].
  split; [by etrans|]. split; [by constructor|]. rewrite E3, E1, E4, E2, <- app_assoc. done.
Qed.

(** ** One schedule *)

(** What an iteration of [for row in rows] leaves. *)
Record row_materialized (org : uuid) (now remaining : Z) (row : SchedulerScheduleRecord)
    (d : DB) (created : list SchedulerOccurrenceRecord) (d' : DB) : Prop := {
  rm_occurrences : db_occurrences d' = db_occurrences d ++ created;
  rm_slots : ∃ slots next, elapsed_slots zoneinfo row now = Ok (slots, next) ∧
    Forall2 (created_from org row (terminal_of (ss_misfire_policy row)))
      (selected (select_slots (ss_misfire_policy row) (ss_max_catch_up row) remaining slots)) created ∧
    ∃ row', row' ∈ db_schedules d' ∧ ss_id row' = ss_id row ∧
      ss_next_fire_at row' =
        (if bool_decide (ss_schedule_type row = ScheduleType.ONE_TIME) then None
         else option_map scheduled_for next) ∧
      (ss_schedule_type row = ScheduleType.RECURRING → next = None →
       ss_state row' = ScheduleState.COMPLETED);
  rm_others : ∀ s, s ∈ db_schedules d → ss_id s ≠ ss_id row → s ∈ db_schedules d';
}.

Lemma ran_flush_next org row row' w u w' :
  row ∈ db_schedules (w_db w) → ss_organization_id row = org →
  schedule_ident row' = schedule_ident row → schedule_config row' = schedule_config row →
  ss_revision row' = ss_revision row →
  terminal (ss_state row) = false →
  flush_next row row' w = (Ok u, w') →
  step_ok digest org w w' ∧ db_occurrences (w_db w') = db_occurrences (w_db w) ∧
  (∃ r, r ∈ db_schedules (w_db w') ∧ ss_id r = ss_id row ∧ ss_next_fire_at r = ss_next_fire_at row') ∧
  ∀ s, s ∈ db_schedules (w_db w) → ss_id s ≠ ss_id row → s ∈ db_schedules (w_db w').
Proof.
  intros Hin Ho Ei Ec Er Ht. unfold flush_next. intros H. ran H as now w1 Hn. injection Hn as <- <-.
  destruct (_ && _) eqn:Hsame.
  - injection H as _ <-. apply andb_true_iff in Hsame as [Hf _]. apply bool_decide_eq_true in Hf.
    split; [done|]. split; [done|]. split; [by exists row|done].
  - injection H as _ <-. set (r := set_ss_updated_at (w_txn_now w) row').
    pose proof Ei as Ei'. injection Ei' as Eid Eorg _. assert (Erid : ss_id r = ss_id row) by done.
    split; [|split; [done|split]].
    + apply (put_schedule_ok digest org w _ row r); [done|done|cbn; lia|done|].
      pose proof Ec as Ec'. injection Ec' as Es _. split; [exact Ei|done|by rewrite <- Es; apply rtc_refl| |].
      * intros Hterm. congruence.
      * right. split; [exact Er|exact Ec].
    + exists r. split; [|done].
      change (r ∈ update_where (λ s, N.eqb (ss_id s) (ss_id r)) (λ _, r) (db_schedules (w_db w))).
      apply list_elem_of_fmap. exists row. split; [|done]. by rewrite Erid, N.eqb_refl.
    + intros s Hs Hne.
      change (s ∈ update_where (λ s, N.eqb (ss_id s) (ss_id r)) (λ _, r) (db_schedules (w_db w))).
      apply list_elem_of_fmap. exists s. split; [|done].
      by rewrite Erid, (proj2 (N.eqb_neq _ _) Hne).
Qed.

Lemma set_next_same slot row :
  schedule_ident (set_next slot row) = schedule_ident row ∧
  schedule_config (set_next slot row) = schedule_config row ∧
  ss_revision (set_next slot row) = ss_revision row ∧
  ss_next_fire_at (set_next slot row) = option_map scheduled_for slot.
Proof. by destruct slot. Qed.

Lemma ran_materialize_row org now remaining row w created w' :
  row ∈ db_schedules (w_db w) → ss_organization_id row = org → ss_state row = ScheduleState.ACTIVE →
  materialize_row zoneinfo digest org now remaining row w = (Ok created, w') →
  step_ok digest org w w' ∧ row_materialized org now remaining row (w_db w) created (w_db w').
Proof.
  intros Hin Ho Hst. unfold materialize_row. intros H. ran H as due w1 Hd. injection Hd as Hd <-.
  destruct due as [slots next]. pose proof (select_state (ss_misfire_policy row) (ss_max_catch_up row) remaining slots) as Hstate.
  destruct (select_slots _ _ _ slots) as [[sel om] [[term reason] acc]] eqn:Hsel. cbn in Hstate. subst term.
  ran H as os w2 Hc. apply ran_materialize_slots in Hc as (Hok1 & Hcf & E1 & E2).
  2: { destruct (ss_misfire_policy row); [by right|by left..]. }
  2, 3: done.
  ran H as b w3 Ha. assert (Hq : same_sched w2 w3).
  { destruct (is_nil om); [by injection Ha as _ <-|by apply squiet_accounting in Ha]. }
  pose proof Hq as (Q1 & Q2 & _).
  assert (Hin3 : row ∈ db_schedules (w_db w3)) by (by rewrite Q1, E2).
  assert (Hnext : ∀ r' w4, step_ok digest org w3 w4 → db_occurrences (w_db w4) = db_occurrences (w_db w3) →
    (∃ r, r ∈ db_schedules (w_db w4) ∧ ss_id r = ss_id row ∧ ss_next_fire_at r = r' ∧
       (ss_schedule_type row = ScheduleType.RECURRING → next = None → ss_state r = ScheduleState.COMPLETED)) →
    (∀ s, s ∈ db_schedules (w_db w3) → ss_id s ≠ ss_id row → s ∈ db_schedules (w_db w4)) →
    r' = (if bool_decide (ss_schedule_type row = ScheduleType.ONE_TIME) then None else option_map scheduled_for next) →
    step_ok digest org w w4 ∧ row_materialized org now remaining row (w_db w) os (w_db w4)).
  { intros r' w4 Hok Eocc (r & Hr & Hrid & Hrn & Hrs) Hoth ->. split.
    { etrans; [exact Hok1|]. etrans; [apply same_sched_ok, Hq|exact Hok]. }
    split; [by rewrite Eocc, Q2|..].
    - exists slots, next. split; [done|]. rewrite Hsel. split; [done|]. by exists r.
    - intros s Hs Hne. apply Hoth; [by rewrite Q1, E2|done]. }
  ran H as u w4 Hf. injection H as <- <-. revert Hf.
  assert (Hnt : terminal (ss_state row) = false) by (by rewrite Hst).
  destruct (bool_decide (ss_schedule_type row = ScheduleType.ONE_TIME)) eqn:Htype.
  - apply bool_decide_eq_true in Htype. destruct (set_next_same None row) as (I1 & I2 & I3 & I4).
    intros (Hok & Eocc & (r & Hr & Hrid & Hrn) & Hoth)%(ran_flush_next org); [|done..].
    apply (Hnext None); [done..| |done|done]. exists r. split_and!; [done..|by rewrite Hrn|congruence].
  - destruct next as [s|].
    + destruct (set_next_same (Some s) row) as (I1 & I2 & I3 & I4).
      intros (Hok & Eocc & (r & Hr & Hrid & Hrn) & Hoth)%(ran_flush_next org); [|done..].
      apply (Hnext (Some (scheduled_for s))); [done..| |done|done].
      exists r. split_and!; [done..|by rewrite Hrn|done].
    + intros Hf. ran Hf as r w5 Ht. injection Hf as _ <-. destruct (set_next_same None row) as (I1 & I2 & I3 & I4).
      pose proof (transition_ok digest org _ row _ _ _ _ _ _ Hin3 Ho I1 I2 I3 Ht) as Hok.
      apply ran_transition_schedule in Ht as (_ & (t & ->) & E3 & E4 & _).
      apply (Hnext None); [done|done| | |done].
      * exists (transitioned ScheduleState.COMPLETED t (set_next None row)). split; [|done].
        rewrite E3. apply list_elem_of_fmap. exists row. split; [|done]. by rewrite N.eqb_refl.
      * intros s Hs Hne. rewrite E3. apply list_elem_of_fmap. exists s. split; [|done].
        by rewrite (proj2 (N.eqb_neq (ss_id s) (ss_id (set_next None row))) Hne).
Qed.

(** ** A batch *)

(** An occurrence made from an elapsed slot of a schedule. *)
Definition materialized_from (org : uuid) (now : Z) (row : SchedulerScheduleRecord)
    (o : SchedulerOccurrenceRecord) : Prop :=
  ∃ slot, created_from org row (terminal_of (ss_misfire_policy row)) slot o ∧
    scheduled_for slot ≤ now ∧ within row (scheduled_for slot).

Definition caught_up (now : Z) (row : SchedulerScheduleRecord) (d : DB) : Prop :=
  ∃ row', row' ∈ db_schedules d ∧ ss_id row' = ss_id row ∧
    match ss_next_fire_at row' with Some t => now < t | None => True end.

Lemma select_incl policy m rem slots slot :
  slot ∈ selected (select_slots policy m rem slots) → slot ∈ slots.
Proof.
  intros Hin. pose proof (select_partition policy m rem slots) as Hp. cbv zeta in Hp.
  destruct policy; rewrite <- Hp, elem_of_app; auto.
Qed.

Lemma row_materialized_from org now remaining row d created d' :
  1 ≤ remaining → row_materialized org now remaining row d created d' →
  Z.of_nat (length created) ≤ remaining ∧ Forall (materialized_from org now row) created ∧
  caught_up now row d'.
Proof.
  intros Hrem [_ (slots & next & Hel & Hcf & row' & Hin & Hid & Hnf & _) _].
  apply elapsed_slots_spec in Hel as (Hdue & Hnext & _ & _). split_and!.
  - rewrite <- (Forall2_length _ _ _ Hcf). by apply select_bound.
  - apply Forall_forall. intros o Ho. destruct (Forall2_in_r _ _ _ _ Hcf Ho) as (slot & Hs & Hc).
    exists slot. split; [done|]. rewrite Forall_forall in Hdue. by eapply Hdue, select_incl.
  - exists row'. split; [done|]. split; [done|]. rewrite Hnf. destruct (bool_decide _), next; done.
Qed.

Lemma ran_materialize_rows org now remaining rows w created w' :
  0 ≤ remaining → NoDup (map ss_id rows) →
  (∀ row, row ∈ rows → row ∈ db_schedules (w_db w) ∧ ss_organization_id row = org ∧
                       ss_state row = ScheduleState.ACTIVE) →
  materialize_rows zoneinfo digest org now remaining rows w = (Ok created, w') →
  step_ok digest org w w' ∧ db_occurrences (w_db w') = db_occurrences (w_db w) ++ created ∧
  Z.of_nat (length created) ≤ remaining ∧
  Forall (λ o, ∃ row, row ∈ rows ∧ materialized_from org now row o) created ∧
  (Z.of_nat (length created) < remaining → Forall (λ row, caught_up now row (w_db w')) rows) ∧
  (∀ s, s ∈ db_schedules (w_db w) → ss_id s ∉ map ss_id rows → s ∈ db_schedules (w_db w')).
Proof.
  revert remaining w created. induction rows as [|row rows IH]; intros remaining w created Hrem Hnd Hrows H;
    cbn [materialize_rows] in H.
  { injection H as <- <-. rewrite app_nil_r. split_and!; try done. }
  destruct (Z.leb_spec remaining 0).
  { injection H as <- <-. rewrite app_nil_r. split_and!; try done; cbn; lia. }
  apply NoDup_cons in Hnd as [Hnew Hnd]. destruct (Hrows row) as (Hin & Ho & Hst); [constructor|].
  ran H as created1 w1 H1. ran H as rest w2 H2. injection H as <- <-.
  apply ran_materialize_row in H1 as (Hok1 & Hm); [|done..].
  assert (Hr1 : 1 ≤ remaining) by lia.
  pose proof (row_materialized_from _ _ _ _ _ _ _ Hr1 Hm) as (Hb1 & Hf1 & (row' & Hr' & Hid & Hnf)).
  destruct Hm as [E1 _ Hoth].
  apply IH in H2 as (Hok2 & E2 & Hb2 & Hf2 & Hcu & Hoth2); [|lia|done|].
  2: { intros r Hr. destruct (Hrows r) as (Hrin & ? & ?); [by constructor|]. split; [|done].
       apply Hoth; [done|]. intros Heq. apply Hnew. rewrite <- Heq. by apply list_elem_of_fmap_2. }
  split_and!.
  - by etrans.
  - by rewrite E2, E1, app_assoc.
  - rewrite length_app. lia.
  - apply Forall_app. split.
    + eapply Forall_impl; [exact Hf1|]. intros o Hmo. exists row. split; [constructor|done].
    + eapply Forall_impl; [exact Hf2|]. intros o (r & Hr & Hmo). exists r. split; [by constructor|done].
  - rewrite length_app. intros Hlt. constructor; [|apply Hcu; lia]. exists row'. split; [|done].
    apply Hoth2; [done|by rewrite Hid].
  - intros s Hs Hns. rewrite map_cons, not_elem_of_cons in Hns. destruct Hns as [Hne Hns].
    apply Hoth2; [by apply Hoth|done].
Qed.

(** The rows [due_schedule_rows] returns. *)
Lemma ran_due_rows org limit w rows w' :
  due_schedule_rows org limit w = (Ok rows, w') →
  let due := List.filter (is_due org (w_clock w (w_reads w))) (db_schedules (w_db w)) in
  same_sched w w' ∧ w_db w' = w_db w ∧ rows = take (Z.to_nat limit) (merge_sort due_before due).
Proof.
  unfold due_schedule_rows. intros H. ran H as now w1 Hn. injection Hn as <- <-. injection H as <- <-.
  split; [|done]. repeat split; cbn; done || lia.
Qed.

Lemma take_sorted_due org limit now d rows :
  rows = take (Z.to_nat limit) (merge_sort due_before (List.filter (is_due org now) (db_schedules d))) →
  NoDup (map ss_id (db_schedules d)) →
  NoDup (map ss_id rows) ∧
  ∀ row, row ∈ rows → row ∈ db_schedules d ∧ ss_organization_id row = org ∧ ss_state row = ScheduleState.ACTIVE.
Proof.
  intros -> Hnd. set (due := List.filter _ _).
  assert (Hp : merge_sort due_before due ≡ₚ due) by apply merge_sort_Permutation. split.
  - assert (Hnd2 : NoDup (map ss_id (merge_sort due_before due))).
    { rewrite Hp. by apply NoDup_map_filter. }
    rewrite <- (take_drop (Z.to_nat limit) (merge_sort due_before due)), map_app in Hnd2.
    by apply NoDup_app in Hnd2 as [? _].
  - intros row Hr. apply elem_of_take in Hr as (i & Hi & _). apply list_elem_of_lookup_2 in Hi.
    rewrite Hp in Hi. unfold due in Hi. rewrite list_elem_of_In, List.filter_In in Hi.
    destruct Hi as [Hi Hd]. apply list_elem_of_In in Hi. split; [done|]. unfold is_due in Hd.
    rewrite !andb_true_iff, N.eqb_eq, bool_decide_eq_true in Hd. tauto.
Qed.

(** The body of [materialize_due]. *)
Lemma ran_materialize_body org limit w created w' :
  1 ≤ limit → sched_inv digest (w_db w) (w_next_uuid w) →
  (now ← database_now; rows ← due_schedule_rows org limit;
   materialize_rows zoneinfo digest org now limit rows) w = (Ok created, w') →
  let now := w_clock w (w_reads w) in
  let due := List.filter (is_due org (w_clock w (S (w_reads w)))) (db_schedules (w_db w)) in
  step_ok digest org w w' ∧ db_occurrences (w_db w') = db_occurrences (w_db w) ++ created ∧
  Z.of_nat (length created) ≤ limit ∧
  Forall (λ o, ∃ row, row ∈ due ∧ materialized_from org now row o) created ∧
  (Z.of_nat (length created) < limit → Z.of_nat (length due) ≤ limit →
   Forall (λ row, caught_up now row (w_db w')) due).
Proof.
  intros Hl HI H. ran H as now w1 Hn. injection Hn as <- <-. ran H as rows w2 Hr.
  apply ran_due_rows in Hr as (Hq & Edb & Erows). cbn in Erows, Edb.
  intros now due. fold due in Erows.
  destruct (take_sorted_due org limit (w_clock w (S (w_reads w))) (w_db w) rows Erows (si_schedules _ _ _ HI)) as [Hnd Hrows].
  apply ran_materialize_rows in H as (Hok & E & Hb & Hf & Hcu & _); [|lia|done|by rewrite Edb].
  rewrite Edb in E. split_and!; [|done|done|..].
  - etrans; [|exact Hok]. apply same_sched_ok. etrans; [|exact Hq]. repeat split; cbn; done || lia.
  - eapply Forall_impl; [exact Hf|]. intros o (row & Hrow & Hmo). exists row. split; [|done].
    rewrite Erows in Hrow. apply elem_of_take in Hrow as (i & Hi & _). apply list_elem_of_lookup_2 in Hi.
    by rewrite merge_sort_Permutation in Hi.
  - intros Hlt Hdue. specialize (Hcu Hlt). rewrite Erows in Hcu.
    rewrite take_ge, merge_sort_Permutation in Hcu; [done|].
    rewrite (Permutation_length (merge_sort_Permutation due_before due)). lia.
Qed.
End materialize.
