(* ===== verification/SchedulerSystem.v ===== *)
(** * SchedulerSystem: the scheduler as a transition system

    One step is one transaction of [SchedulerService], by any tenant, or a step of
    the environment that leaves the scheduler tables alone (the workflow engine
    between the transactions of a dispatch, other components, the clock). Every
    claim value may be presented to the dispatch transactions, whether a worker
    received it or not. *)

From S2P Require Import Prelude.
From S2P Require Import Errors.
From S2P Require Import Lifecycles.
From S2P Require Import ScheduleSpec.
From S2P Require Import Recurrence.
From S2P Require Import Store.
From S2P Require Import StoreLemmas.
From S2P Require Import Identity.
From S2P Require Import WorkflowRepository.
From S2P Require Import WorkflowService.
From S2P Require Import SchedulerRepository.
From S2P Require Import SchedulerService.
From S2P Require Import SchedulerInvariant.
From S2P Require Import SchedulerOps.
From S2P Require Import SchedulerSteps.
From S2P Require Import SchedulerMaterialize.

(** The parameters of the scheduler, fixed for a deployment. *)
Record Deployment : Type := {
  dep_zoneinfo : string → option ZoneInfo;
  dep_digest : string → string;
  dep_tzversion : string;
  dep_dump_length : CreateScheduleRequest → Z;
}.

Section system.
Context (dep : Deployment).

Abbreviation zi := (dep_zoneinfo dep).
Abbreviation dg := (dep_digest dep).

Inductive sched_step (org : uuid) (w : World) : World → Prop :=
| st_create request :
    sched_step org w (snd (create_schedule (dep_tzversion dep) org request w))
| st_update id request :
    sched_step org w (snd (update_schedule zi (dep_dump_length dep) org id request w))
| st_activate id : sched_step org w (snd (activate_schedule zi org id w))
| st_pause id : sched_step org w (snd (pause_schedule org id w))
| st_resume id : sched_step org w (snd (resume_schedule zi org id w))
| st_cancel id : sched_step org w (snd (cancel_schedule org id w))
| st_materialize limit : sched_step org w (snd (materialize_due zi dg org limit w))
| st_cancel_occurrence id : sched_step org w (snd (cancel_occurrence org id w))
| st_claim owner : sched_step org w (snd (claim_due org owner w))
| st_begin c : sched_step org w (snd (begin_txn org c w))
| st_fail c error : sched_step org w (snd (fail_txn org c error w))
| st_finish c run : sched_step org w (snd (finish_txn org c run w))
| st_env w' : same_sched w w' → sched_step org w w'.

Definition sched_steps : relation World := rtc (λ w w', ∃ org, sched_step org w w').

Definition sched_initial (w : World) : Prop :=
  db_schedules (w_db w) = [] ∧ db_occurrences (w_db w) = [].

Definition sched_reachable (w : World) : Prop := ∃ w0, sched_initial w0 ∧ sched_steps w0 w.

(** ** Every step keeps the invariant *)

Lemma get_version_same org id w : same_sched w (snd (WorkflowService.get_version org id w)).
Proof.
  unfold WorkflowService.get_version, version. apply txn_same; [monotonicity|squietness].
Qed.

Lemma create_txn_ok org request w :
  step_ok dg org w (snd (tenant_transaction (
    schedule ← SchedulerRepository.create_schedule org (new_schedule (dep_tzversion dep) org request);
    _ ← schedule_event org "scheduler.schedule.created" schedule; mret schedule) w)).
Proof. apply txn_sok; [monotonicity|apply create_sok]. Qed.

Lemma create_schedule_ok org request w :
  step_ok dg org w (snd (create_schedule (dep_tzversion dep) org request w)).
Proof.
  unfold create_schedule. pose proof (get_version_same org (cs_workflow_version_id request) w) as Hv.
  unfold mbind at 1, M_bind at 1.
  destruct (WorkflowService.get_version _ _ w) as [[v|e] w1]; [|by apply same_sched_ok].
  cbn [snd] in Hv. etrans; [by apply same_sched_ok|]. unfold try_with.
  pose proof (create_txn_ok org request w1) as Hok.
  destruct (tenant_transaction _ w1) as [[s|e] w2]; [exact Hok|]. cbn [snd] in Hok. by destruct e.
Qed.

Lemma update_schedule_ok org id request w :
  step_ok dg org w (snd (update_schedule zi (dep_dump_length dep) org id request w)).
Proof.
  unfold update_schedule. apply txn_sok; [|apply update_sok].
  unfold database_now, put_schedule. monotonicity.
Qed.

Lemma events_sok org {A} (m : M unit) (a : A) : squiet m → sok dg org (_ ← m; mret a).
Proof. intros Hm. by apply squiet_sok, squiet_then. Qed.

Lemma activate_schedule_ok org id w : step_ok dg org w (snd (activate_schedule zi org id w)).
Proof.
  unfold activate_schedule. apply txn_sok; [monotonicity|]. intros w0 a w' H. ran H as row w1 Hr.
  apply ran_found_schedule in Hr as (-> & Hin & Ho & _). destruct (negb _); [done|].
  ran H as slot w2 Hs. injection Hs as _ <-. destruct (match ss_end_at row with Some _ => _ | None => _ end); [done|].
  ran H as row2 w3 Ht. etrans; [|by eapply (events_sok org); [apply squiet_schedule_event|exact H]].
  destruct (set_next_same (Some slot) row) as (I1 & I2 & I3 & _). by eapply transition_ok.
Qed.

Lemma transition_step_ok org id target reason w : step_ok dg org w (snd (transition org id target reason w)).
Proof.
  unfold transition. apply txn_sok; [monotonicity|]. intros w0 a w' H. ran H as row w1 Hr.
  apply ran_found_schedule in Hr as (-> & Hin & Ho & _). ran H as row2 w3 Ht.
  etrans; [|by eapply (events_sok org); [apply squiet_schedule_event|exact H]]. by eapply transition_ok.
Qed.

Lemma resume_schedule_ok org id w : step_ok dg org w (snd (resume_schedule zi org id w)).
Proof.
  unfold resume_schedule. apply txn_sok; [monotonicity|]. intros w0 a w' H. ran H as row w1 Hr.
  apply ran_found_schedule in Hr as (-> & Hin & Ho & _). destruct (negb _); [done|].
  ran H as row' w2 Hp. assert (Hrow : w2 = w0 ∧ ∃ slot, row' = row ∨ row' = set_next (Some slot) row).
  { destruct (_ || _).
    - ran Hp as slot w3 Hs. injection Hs as _ <-. injection Hp as <- <-. split; [done|]. exists slot. by right.
    - injection Hp as <- <-. split; [done|]. exists {| intended_local_time := 0; scheduled_for := 0;
        utc_offset_seconds := 0; fold := 0; nonexistent := false |}. by left. }
  destruct Hrow as (-> & slot & Hrow). ran H as row2 w3 Ht.
  etrans; [|by eapply (events_sok org); [apply squiet_schedule_event|exact H]].
  destruct (set_next_same (Some slot) row) as (I1 & I2 & I3 & _).
  eapply (transition_ok dg org row' row); [done|done|..|exact Ht]; destruct Hrow as [-> | ->]; done.
Qed.

Lemma cancel_schedule_sok org id :
  sok dg org (row ← found_schedule org id;
    row ← transition_schedule org row ScheduleState.CANCELLED "SCHEDULE_CANCELLED" "API";
    cancelled ← cancel_pending org id;
    _ ← schedule_event org "scheduler.schedule.cancelled" row;
    _ ← forM_ (occurrence_event org "scheduler.occurrence.cancelled") cancelled;
    mret row).
Proof.
  intros w a w' H. ran H as row w1 Hr. apply ran_found_schedule in Hr as (-> & Hin & Ho & _).
  ran H as row2 w2 Ht. pose proof (transition_ok dg _ _ _ _ _ _ _ _ _ Hin Ho eq_refl eq_refl eq_refl Ht) as Hok1.
  ran H as cancelled w3 Hc. assert (Hq : same_sched w3 w').
  { revert H. match goal with |- ?m w3 = _ → _ => assert (squiet m) as Hq by squietness end. apply Hq. }
  etrans; [exact Hok1|]. etrans; [|apply same_sched_ok, Hq].
  apply step_ok_assume; [|intros HI; by apply (cancel_pending_spec dg) in Hc as (? & _)].
  assert (Hm : Monotone (cancel_pending org id)) by (unfold cancel_pending; monotonicity).
  by apply ran_monotone in Hc.
Qed.

Lemma cancel_schedule_ok org id w : step_ok dg org w (snd (cancel_schedule org id w)).
Proof.
  unfold cancel_schedule. apply txn_sok; [|apply cancel_schedule_sok].
  unfold cancel_pending. monotonicity.
Qed.

Lemma materialize_due_ok org limit w : step_ok dg org w (snd (materialize_due zi dg org limit w)).
Proof.
  unfold materialize_due. destruct (negb _) eqn:Hl; [by apply same_sched_ok|].
  apply negb_false_iff, andb_true_iff in Hl as [Hl%Z.leb_le _].
  assert (Hm : Monotone (now ← database_now; rows ← due_schedule_rows org limit;
                         materialize_rows zi dg org now limit rows)).
  { unfold database_now, due_schedule_rows. monotonicity. }
  apply execution_sok; [done|]. intros w0 a w' H.
  apply step_ok_assume; [by apply ran_monotone in H|]. intros HI.
  by apply ran_materialize_body in H as (Hok & _).
Qed.

Lemma ran_found_occurrence org id w row w' :
  found_occurrence org id w = (Ok row, w') →
  w' = w ∧ row ∈ db_occurrences (w_db w) ∧ so_organization_id row = org ∧ so_id row = id.
Proof.
  unfold found_occurrence, occurrence_row. intros H. ran H as r w1 Hr. injection Hr as <- <-.
  destruct (List.find _ _) as [o|] eqn:Hf; [|done]. injection H as <- <-.
  split; [done|]. by apply find_occurrence in Hf.
Qed.

Lemma cancel_occurrence_ok org id w : step_ok dg org w (snd (cancel_occurrence org id w)).
Proof.
  unfold cancel_occurrence, SchedulerRepository.cancel_occurrence. apply txn_sok; [monotonicity|].
  intros w0 a w' H. ran H as row w1 Hr. apply ran_found_occurrence in Hr as (-> & Hin & Ho & _).
  ran H as res w2 Hc. ran Hc as u w3 Hg. injection Hg as Hg <-. destruct u.
  apply guard_transition_Ok in Hg.
  etrans; [|by eapply (events_sok org); [apply squiet_occurrence_event|exact H]]. by eapply cancel_row_ok.
Qed.

Lemma claim_due_step_ok org owner w : step_ok dg org w (snd (claim_due org owner w)).
Proof.
  unfold claim_due. apply execution_sok; [monotonicity|]. intros w0 a w' H. ran H as c w1 Hc.
  etrans; [by eapply claim_due_ok|]. eapply (events_sok org); [|exact H]. squietness.
Qed.

Lemma begin_txn_ok org c w : step_ok dg org w (snd (begin_txn org c w)).
Proof.
  unfold begin_txn. apply txn_sok; [unfold begin_dispatch; monotonicity|].
  intros w0 a w' H. by eapply begin_dispatch_ok.
Qed.

Lemma fail_txn_ok org c error w : step_ok dg org w (snd (fail_txn org c error w)).
Proof.
  unfold fail_txn. apply txn_sok; [monotonicity|]. intros w0 a w' H. ran H as o w1 Hf.
  etrans; [by eapply (fail_dispatch_ok dg) in Hf as (? & _)|].
  by eapply same_sched_ok, squiet_occurrence_event.
Qed.

Lemma finish_txn_ok org c run w : step_ok dg org w (snd (finish_txn org c run w)).
Proof.
  unfold finish_txn. apply txn_sok; [monotonicity|]. intros w0 a w' H. ran H as o w1 Hf.
  etrans; [by eapply (finish_dispatch_ok dg) in Hf as (? & _)|].
  eapply (events_sok org); [|exact H]. apply squiet_occurrence_event.
Qed.

Lemma sched_step_ok org w w' : sched_step org w w' → step_ok dg org w w'.
Proof.
  destruct 1; eauto using create_schedule_ok, update_schedule_ok, activate_schedule_ok, transition_step_ok,
    resume_schedule_ok, cancel_schedule_ok, materialize_due_ok, cancel_occurrence_ok, claim_due_step_ok,
    begin_txn_ok, fail_txn_ok, finish_txn_ok, same_sched_ok.
Qed.

Lemma sched_reachable_step org w w' : sched_reachable w → sched_step org w w' → sched_reachable w'.
Proof. intros (w0 & H0 & Hs) Hstep. exists w0. split; [done|]. eapply rtc_r; [done|]. by exists org. Qed.

Lemma sched_reachable_steps w w' : sched_reachable w → sched_steps w w' → sched_reachable w'.
Proof. intros (w0 & H0 & Hs) Hs'. exists w0. split; [done|]. by etrans. Qed.

Lemma sched_reachable_inv w : sched_reachable w → sched_inv dg (w_db w) (w_next_uuid w).
Proof.
  intros (w0 & [E1 E2] & Hs).
  assert (HI0 : sched_inv dg (w_db w0) (w_next_uuid w0)).
  { split; rewrite ?E1, ?E2; try (by constructor); by intros ? ?%not_elem_of_nil. }
  clear E1 E2. induction Hs as [|w1 w2 w3 (org & Hstep) _ IH]; [done|].
  apply IH. by apply sched_step_ok in Hstep as [_ [? _]].
Qed.
End system.
