(* ===== verification/SchedulerDemo.v ===== *)
(** * SchedulerDemo: a concrete execution of the scheduler

    A published workflow, a daily schedule that has missed two days and a one-time
    schedule, taken through activation, materialisation, claim and dispatch by the
    modelled service. The states are reachable, and the theorems about the
    scheduler are instantiated at them. *)

From S2P Require Import Prelude.
From S2P Require Import Errors.
From S2P Require Import Lifecycles.
From S2P Require Import Conditions.
From S2P Require Import WorkflowGraph.
From S2P Require Import ScheduleSpec.
From S2P Require Import Calendar.
From S2P Require Import Recurrence.
From S2P Require Import RecurrenceLaws.
From S2P Require Import Store.
From S2P Require Import StoreLemmas.
From S2P Require Import Identity.
From S2P Require Import WorkflowRepository.
From S2P Require Import WorkflowService.
From S2P Require Import WorkflowDemo.
From S2P Require Import SchedulerRepository.
From S2P Require Import SchedulerService.
From S2P Require Import SchedulerInvariant.
From S2P Require Import SchedulerSystem.

(** SHA-256 is a parameter; the identity is an injective stand-in. *)
Definition demo_deployment : Deployment := {|
  dep_zoneinfo := tz_demo;
  dep_digest := λ s, s;
  dep_tzversion := "2024a";
  dep_dump_length := λ _, 512 |}.

Abbreviation demo_steps_to := (sched_steps demo_deployment).
Abbreviation demo_step_to := (sched_step demo_deployment).

(** The workflow of [WorkflowDemo], published; the clock reads noon of 12 March 2024
    UTC and advances by a microsecond per reading. *)
Definition noon : Z := at_time 2024 3 12 12 0.

Definition sched_world : World :=
  mkWorld (λ n, Z.of_nat n + noon) 0 noon (w_next_uuid demo_published) None "nexus-ai" None None
    (w_db demo_published) [].

(** Daily at 09:00 New York since 8 March; on the 10th daylight saving time begins. *)
Definition daily_0900 : RecurrenceSpec := {|
  frequency := RecurrenceFrequency.DAILY; interval := 1; weekdays := [];
  month_days := []; local_time := Some (9 * HOUR) |}.

Definition daily_request (policy : MisfirePolicy) (max_catch_up : Z) : CreateScheduleRequest := {|
  cs_schedule_key := "daily"; cs_target_type := "START_WORKFLOW";
  cs_workflow_version_id := ver_id demo_version; cs_schedule_type := ScheduleType.RECURRING;
  cs_timezone := "America/New_York"; cs_start_at := at_time 2024 3 8 0 0; cs_end_at := None;
  cs_recurrence := Some daily_0900; cs_input := [("x", JInt 1)];
  cs_misfire_policy := policy; cs_max_catch_up := max_catch_up; cs_correlation_id := None |}.

Definition once_request : CreateScheduleRequest := {|
  cs_schedule_key := "once"; cs_target_type := "START_WORKFLOW";
  cs_workflow_version_id := ver_id demo_version; cs_schedule_type := ScheduleType.ONE_TIME;
  cs_timezone := "America/New_York"; cs_start_at := at_time 2024 3 12 11 0; cs_end_at := None;
  cs_recurrence := None; cs_input := []; cs_misfire_policy := MisfirePolicy.FIRE_ONCE;
  cs_max_catch_up := 1; cs_correlation_id := None |}.

Definition no_schedule : SchedulerScheduleRecord :=
  new_schedule EmptyString 0 once_request 0 0.

(** Created, activated, materialised. *)
Definition once_created := create_schedule "2024a" demo_org once_request sched_world.
Definition once_schedule : SchedulerScheduleRecord :=
  match fst once_created with Ok s => s | Err _ => no_schedule end.
Definition once_active := activate_schedule tz_demo demo_org (ss_id once_schedule) (snd once_created).
Definition once_due := materialize_due tz_demo (λ s, s) demo_org 10 (snd once_active).

(** Claimed by worker 100, then dispatched in its three transactions. *)
Definition once_claimed := claim_due demo_org 100 (snd once_due).
Definition no_occurrence : SchedulerOccurrenceRecord :=
  mkOccurrence 0 0 0 0 0 EmptyString 0 0 EmptyString 0 0 EmptyString MisfirePolicy.SKIP
    OccurrenceState.PENDING None None None None 0 EmptyString None [] None 0 0.
Definition once_claim : OccurrenceClaim :=
  match fst once_claimed with
  | Ok (Some c) => c
  | _ => mkOccurrenceClaim no_occurrence 0 0 []
  end.
Definition once_begun := begin_txn demo_org once_claim (snd once_claimed).
Definition once_finished := finish_txn demo_org once_claim 900 (snd once_begun).

Definition occurrence_view (w : World) : list (OccurrenceState * option uuid) :=
  map (λ o, (so_state o, so_workflow_run_id o)) (db_occurrences (w_db w)).

Definition schedule_view (w : World) : list (ScheduleState * Z * option Z) :=
  map (λ s, (ss_state s, ss_revision s, ss_next_fire_at s)) (db_schedules (w_db w)).

(** The execution, computed. *)
Example once_execution :
  schedule_view (snd once_active) = [(ScheduleState.ACTIVE, 2, Some (at_time 2024 3 12 11 0))] ∧
  schedule_view (snd once_due) = [(ScheduleState.ACTIVE, 2, None)] ∧
  occurrence_view (snd once_due) = [(OccurrenceState.PENDING, None)] ∧
  occurrence_view (snd once_begun) = [(OccurrenceState.CLAIMED, None)] ∧
  occurrence_view (snd once_finished) = [(OccurrenceState.DISPATCHED, Some 900%N)] ∧
  schedule_view (snd once_finished) = [(ScheduleState.COMPLETED, 3, None)].
Proof. vm_compute. split_and!; reflexivity. Qed.

(** ** Catching up *)

Definition daily_created (policy : MisfirePolicy) (max_catch_up : Z) :=
  create_schedule "2024a" demo_org (daily_request policy max_catch_up) sched_world.
Definition daily_id : uuid :=
  match fst (daily_created MisfirePolicy.CATCH_UP_BOUNDED 2) with Ok s => ss_id s | Err _ => 0 end.
Definition daily_active := activate_schedule tz_demo demo_org daily_id
  (snd (daily_created MisfirePolicy.CATCH_UP_BOUNDED 2)).
Definition daily_due := materialize_due tz_demo (λ s, s) demo_org 10 (snd daily_active).
Definition daily_cancelled := cancel_schedule demo_org daily_id (snd daily_due).

(** Of the four slots of 8 to 11 March the first two are materialised, the other two
    are accounted for, and the schedule waits for the 12th. *)
Example daily_execution :
  map so_scheduled_for (db_occurrences (w_db (snd daily_due))) =
    [at_time 2024 3 8 14 0; at_time 2024 3 9 14 0] ∧
  option_map md_accounted_count (last (map sh_detail (db_schedule_history (w_db (snd daily_due)))) ≫= id)
    = Some 2 ∧
  schedule_view (snd daily_due) = [(ScheduleState.ACTIVE, 2, Some (at_time 2024 3 12 13 0))] ∧
  occurrence_view (snd daily_cancelled) =
    [(OccurrenceState.CANCELLED, None); (OccurrenceState.CANCELLED, None)].
Proof. vm_compute. split_and!; reflexivity. Qed.

(** ** The states are reachable *)

Lemma sched_world_reachable : sched_reachable demo_deployment sched_world.
Proof. exists sched_world. split; [|apply rtc_refl]. split; vm_compute; reflexivity. Qed.

Lemma once_due_reachable : sched_reachable demo_deployment (snd once_due).
Proof.
  eapply sched_reachable_step; [|apply (st_materialize demo_deployment demo_org _ 10)].
  eapply sched_reachable_step; [|apply (st_activate demo_deployment demo_org)].
  eapply sched_reachable_step; [apply sched_world_reachable|apply (st_create demo_deployment demo_org)].
Qed.

Lemma once_claimed_reachable : sched_reachable demo_deployment (snd once_claimed).
Proof. eapply sched_reachable_step; [apply once_due_reachable|apply (st_claim demo_deployment demo_org)]. Qed.

Lemma once_begun_reachable : sched_reachable demo_deployment (snd once_begun).
Proof. eapply sched_reachable_step; [apply once_claimed_reachable|apply (st_begin demo_deployment demo_org)]. Qed.

Lemma daily_active_reachable : sched_reachable demo_deployment (snd daily_active).
Proof.
  eapply sched_reachable_step; [|apply (st_activate demo_deployment demo_org)].
  eapply sched_reachable_step; [apply sched_world_reachable|apply (st_create demo_deployment demo_org)].
Qed.

Lemma daily_due_reachable : sched_reachable demo_deployment (snd daily_due).
Proof.
  eapply sched_reachable_step; [apply daily_active_reachable|].
  apply (st_materialize demo_deployment demo_org _ 10).
Qed.
