(* ===== verification/SchedulerSafety.v ===== *)
(** * SchedulerSafety: what holds in every reachable state of the scheduler

    Invariants of the tables, exclusive claims, single outcomes, final
    cancellation, tenant isolation and revisions, over the transition system of
    [SchedulerSystem]. *)

From S2P Require Import Prelude.
From S2P Require Import Errors.
From S2P Require Import Lifecycles.
From S2P Require Import ScheduleSpec.
From S2P Require Import Recurrence.
From S2P Require Import RecurrenceLaws.
From S2P Require Import Store.
From S2P Require Import StoreLemmas.
From S2P Require Import Identity.
From S2P Require Import SchedulerRepository.
From S2P Require Import SchedulerService.
From S2P Require Import SchedulerInvariant.
From S2P Require Import SchedulerOps.
From S2P Require Import SchedulerSteps.
From S2P Require Import SchedulerMaterialize.
From S2P Require Import SchedulerSystem.
From S2P Require Import WorkflowDemo.
From S2P Require Import SchedulerDemo.

Section safety.
Context (dep : Deployment).

Abbreviation dg := (dep_digest dep).
Abbreviation reachable := (sched_reachable dep).
Abbreviation steps := (sched_steps dep).

(** ** Rows along an execution *)

(** A row of the table, some steps later: the moves of any number of tenants. *)
Definition sched_later (s s' : SchedulerScheduleRecord) : Prop := rtc (λ a b, ∃ org, sched_move org a b) s s'.

Definition occ_later (o o' : SchedulerOccurrenceRecord) : Prop := rtc (λ a b, ∃ org n, occ_move org n a b) o o'.

Lemma step_rows org w w' :
  reachable w → sched_step dep org w w' → moves org (w_next_uuid w) (w_db w) (w_db w').
Proof. intros Hr Hs. apply sched_step_ok in Hs as [_ H]. by destruct (H (sched_reachable_inv _ _ Hr)). Qed.

Lemma steps_schedule w w' s :
  reachable w → steps w w' → s ∈ db_schedules (w_db w) →
  ∃ s', s' ∈ db_schedules (w_db w') ∧ sched_later s s'.
Proof.
  intros Hr Hs. revert s. induction Hs as [|w1 w2 w3 (org & Hstep) _ IH]; intros s Hin.
  - exists s. split; [done|apply rtc_refl].
  - destruct (extends_in _ _ _ _ s (mv_schedules _ _ _ _ (step_rows _ _ _ Hr Hstep)) Hin) as (s1 & Hin1 & Hm).
    destruct (IH (sched_reachable_step _ _ _ _ Hr Hstep) s1 Hin1) as (s2 & Hin2 & Hl).
    exists s2. split; [done|]. eapply rtc_l; [by exists org|done].
Qed.

Lemma steps_occurrence w w' o :
  reachable w → steps w w' → o ∈ db_occurrences (w_db w) →
  ∃ o', o' ∈ db_occurrences (w_db w') ∧ occ_later o o'.
Proof.
  intros Hr Hs. revert o. induction Hs as [|w1 w2 w3 (org & Hstep) _ IH]; intros o Hin.
  - exists o. split; [done|apply rtc_refl].
  - destruct (extends_in _ _ _ _ o (mv_occurrences _ _ _ _ (step_rows _ _ _ Hr Hstep)) Hin) as (o1 & Hin1 & Hm).
    destruct (IH (sched_reachable_step _ _ _ _ Hr Hstep) o1 Hin1) as (o2 & Hin2 & Hl).
    exists o2. split; [done|]. eapply rtc_l; [by exists org, (w_next_uuid w1)|done].
Qed.

Lemma occ_later_ident o o' : occ_later o o' → occurrence_ident o' = occurrence_ident o.
Proof. induction 1 as [|o1 o2 o3 (org & n & Hm) _ IH]; [done|]. rewrite IH. apply Hm. Qed.

Lemma sched_later_ident s s' : sched_later s s' → schedule_ident s' = schedule_ident s.
Proof. induction 1 as [|s1 s2 s3 (org & Hm) _ IH]; [done|]. rewrite IH. apply Hm. Qed.

Lemma occ_later_final o o' : terminal (so_state o) = true → occ_later o o' → o' = o.
Proof.
  intros Ht Hl. induction Hl as [|o1 o2 o3 (org & n & Hm) _ IH]; [done|].
  pose proof (om_final _ _ _ _ Hm Ht) as ->. auto.
Qed.

Lemma sched_later_final s s' : terminal (ss_state s) = true → sched_later s s' → s' = s.
Proof.
  intros Ht Hl. induction Hl as [|s1 s2 s3 (org & Hm) _ IH]; [done|].
  pose proof (sm_final _ _ _ Hm Ht) as ->. auto.
Qed.

Lemma occ_later_claimed o o' :
  so_state o ≠ OccurrenceState.PENDING → occ_later o o' →
  so_state o' ≠ OccurrenceState.PENDING ∧ occurrence_claim o' = occurrence_claim o.
Proof.
  intros Hp Hl. induction Hl as [|o1 o2 o3 (org & n & Hm) _ IH]; [done|].
  destruct IH as [H1 H2].
  - intros Hp2. pose proof (om_legal _ _ _ _ Hm) as Hleg. rewrite Hp2 in Hleg. by apply legal_to_PENDING in Hleg.
  - split; [done|]. rewrite H2. by apply Hm.
Qed.

(** Rows are unique under their primary keys. *)
Lemma occurrence_unique w o o' :
  reachable w → o ∈ db_occurrences (w_db w) → o' ∈ db_occurrences (w_db w) → so_id o = so_id o' → o = o'.
Proof. intros Hr. by apply NoDup_map_inj, (si_occurrences dg _ (w_next_uuid w)), sched_reachable_inv. Qed.

Lemma schedule_unique w s s' :
  reachable w → s ∈ db_schedules (w_db w) → s' ∈ db_schedules (w_db w) → ss_id s = ss_id s' → s = s'.
Proof. intros Hr. by apply NoDup_map_inj, (si_schedules dg _ (w_next_uuid w)), sched_reachable_inv. Qed.

Lemma steps_occurrence_by_id w w' o o' :
  reachable w → steps w w' → o ∈ db_occurrences (w_db w) → o' ∈ db_occurrences (w_db w') →
  so_id o' = so_id o → occ_later o o'.
Proof.
  intros Hr Hs Hin Hin' Hid. destruct (steps_occurrence _ _ _ Hr Hs Hin) as (o1 & Hin1 & Hl).
  assert (o1 = o') as <-; [|done]. apply (occurrence_unique w'); [by eapply sched_reachable_steps|done|done|].
  apply occ_later_ident in Hl. injection Hl as E _. congruence.
Qed.

(** ** The invariant *)

(** C25. The scheduler tables are consistent in every reachable state: primary keys
    are unique; no two occurrences of a schedule share an occurrence key, and the
    key is the one its revision, timezone and local time determine; the idempotency
    key handed to the workflow engine names the occurrence; a PENDING or SKIPPED
    occurrence carries no claim, a CLAIMED one carries one, and exactly the
    DISPATCHED ones carry a workflow run. *)
Theorem scheduler_invariant w :
  reachable w →
  NoDup (map ss_id (db_schedules (w_db w))) ∧ NoDup (map so_id (db_occurrences (w_db w))) ∧
  NoDup (map occurrence_identity (db_occurrences (w_db w))) ∧
  ∀ o, o ∈ db_occurrences (w_db w) →
    build_occurrence_key dg (so_schedule_id o) (so_schedule_revision o) (so_timezone o)
      (so_intended_local_time o) (so_fold o) = Ok (so_occurrence_key o) ∧
    so_p14_idempotency_key o = p14_key (so_schedule_id o) (so_id o) ∧
    (so_state o = OccurrenceState.PENDING ∨ so_state o = OccurrenceState.SKIPPED → so_claim_token o = None) ∧
    (so_state o = OccurrenceState.CLAIMED → is_Some (so_claim_token o)) ∧
    (is_Some (so_workflow_run_id o) ↔ so_state o = OccurrenceState.DISPATCHED).
Proof.
  intros HI%sched_reachable_inv. destruct HI as [H1 _ H3 _ H5 H6]. split_and!; [done..|].
  intros o Ho. destruct (H6 o Ho) as [K1 K2 K3 _]. split_and!; [done..|intros Hst|intros Hst|split];
    unfold claim_coherent in K3.
  - by destruct Hst as [E | E]; rewrite E in K3; destruct K3.
  - by rewrite Hst in K3; destruct K3.
  - intros [run Hrun]. rewrite Hrun in K3. by destruct (so_state o); destruct_and?.
  - intros Hst. by rewrite Hst in K3; destruct K3.
Qed.

(** ** Final outcomes *)

Lemma holds_none_fenced org c w :
  (∀ o, o ∈ db_occurrences (w_db w) → holds org c o = false) →
  List.find (holds org c) (db_occurrences (w_db w)) = None.
Proof.
  intros Hn. destruct (List.find _ _) as [o|] eqn:Hf; [|done].
  apply List.find_some in Hf as [Hin Hh]. rewrite Hn in Hh; [done|by apply list_elem_of_In].
Qed.

Definition fenced : exn := Nxs (ScheduleErr ScheduleExecutionFencedError).

(** A refused transaction raises the fence and writes nothing. *)
Definition refused {A} (m : M A) (w : World) : Prop :=
  ∃ w', m w = (Err fenced, w') ∧ w_db w' = w_db w.

Lemma refused_txn {A} (m : M A) w :
  fst (m (set_w_txn_now (w_clock w (w_reads w)) (set_w_reads (S (w_reads w)) w))) = Err fenced →
  refused (tenant_transaction m) w.
Proof.
  unfold refused, tenant_transaction. destruct (m _) as [r w1]. cbn. intros ->. by eexists.
Qed.

Lemma update_claimed_fenced org c f w :
  (∀ o, o ∈ db_occurrences (w_db w) → holds org c o = false) → update_claimed org c f w = (Err fenced, w).
Proof.
  intros Hn%holds_none_fenced. unfold update_claimed, mbind, M_bind, gets. by rewrite Hn.
Qed.

Lemma dispatch_refused org c :
  ∀ w, (∀ o, o ∈ db_occurrences (w_db w) → holds org c o = false) →
  refused (begin_txn org c) w ∧ (∀ run, refused (finish_txn org c run) w) ∧
  (∀ error, refused (fail_txn org c error) w).
Proof.
  intros w Hn. set (w0 := set_w_txn_now (w_clock w (w_reads w)) (set_w_reads (S (w_reads w)) w)).
  assert (Hu : ∀ f, update_claimed org c f (set_w_reads (S (w_reads w0)) w0) =
                    (Err fenced, set_w_reads (S (w_reads w0)) w0))
    by (intros f; by apply update_claimed_fenced).
  split_and!; [|intros run|intros error]; apply refused_txn; fold w0.
  - unfold begin_dispatch, mbind, M_bind, utcnow. by rewrite Hu.
  - unfold finish_dispatch, schedule_row, gets, mbind, M_bind, utcnow.
    destruct (List.find _ (db_schedules _)); [by rewrite Hu|done].
  - unfold fail_dispatch, schedule_row, gets, mbind, M_bind, utcnow.
    destruct (List.find _ (db_schedules _)); [by rewrite Hu|done].
Qed.

(** A row that is no longer CLAIMED holds no claim. *)
Lemma settled_refuses w o c org :
  reachable w → o ∈ db_occurrences (w_db w) → so_id (oc_occurrence c) = so_id o →
  so_state o ≠ OccurrenceState.CLAIMED ∨ so_claim_token o ≠ Some (oc_claim_token c) →
  ∀ o', o' ∈ db_occurrences (w_db w) → holds org c o' = false.
Proof.
  intros Hr Hin Hid Hst o' Hin'. apply not_true_iff_false. intros Hh%holds_spec.
  destruct Hh as (_ & Hid' & Hs & _ & Ht).
  assert (o' = o) as -> by (by apply (occurrence_unique w); [..|congruence]). tauto.
Qed.

(** What a committed outcome leaves: the occurrence in a final state. *)
Lemma outcome_final org c w w1 :
  (∃ run o, finish_txn org c run w = (Ok o, w1)) ∨ (∃ error u, fail_txn org c error w = (Ok u, w1)) →
  ∃ o', o' ∈ db_occurrences (w_db w1) ∧ so_id o' = so_id (oc_occurrence c) ∧ terminal (so_state o') = true.
Proof.
  assert (Hupd : ∀ (l l' : list SchedulerOccurrenceRecord) o0 f,
    o0 ∈ l → holds org c o0 = true → l' = update_where (holds org c) f l → f o0 ∈ l').
  { intros l l' o0 f Hin Hh ->. apply list_elem_of_fmap. exists o0. split; [by rewrite Hh|done]. }
  intros [(run & o & H)|(error & u & H)]; apply txn_committed in H; ran H as o1 w2 Hf.
  - ran H as u w3 He. injection H as _ <-. apply squiet_occurrence_event in He as (_ & E & _).
    apply (finish_dispatch_ok dg) in Hf as (_ & o0 & now & Hin & Hh & _ & El).
    eexists. rewrite E. split; [by eapply Hupd|]. apply holds_spec in Hh as (_ & Hid & _). done.
  - apply squiet_occurrence_event in H as (_ & E & _).
    apply (fail_dispatch_ok dg) in Hf as (_ & o0 & now & Hin & Hh & _ & El).
    eexists. rewrite E. split; [by eapply Hupd|]. apply holds_spec in Hh as (_ & Hid & _). done.
Qed.

(** C17. A dispatch has at most one outcome. Once success or failure was recorded
    under a claim, then after any further steps of any tenant every transaction
    under that claim -- beginning, finishing or failing the dispatch -- is fenced
    and writes nothing, and the occurrence keeps its outcome: the row in its final
    state is still there, unchanged. *)
Theorem dispatch_has_one_outcome org c w w1 w' :
  reachable w →
  (∃ run o, finish_txn org c run w = (Ok o, w1)) ∨ (∃ error u, fail_txn org c error w = (Ok u, w1)) →
  steps w1 w' →
  (∀ org', refused (begin_txn org' c) w' ∧ (∀ run, refused (finish_txn org' c run) w') ∧
           (∀ error, refused (fail_txn org' c error) w')) ∧
  ∃ o, o ∈ db_occurrences (w_db w1) ∧ so_id o = so_id (oc_occurrence c) ∧ so_state o ∈ OCCURRENCE_TERMINAL ∧
    o ∈ db_occurrences (w_db w').
Proof.
  intros Hr Hout Hs.
  assert (Hr1 : reachable w1).
  { destruct Hout as [(run & o & H)|(error & u & H)].
    - eapply (sched_reachable_step _ org _ _ Hr). replace w1 with (snd (finish_txn org c run w)) by (by rewrite H).
      constructor.
    - eapply (sched_reachable_step _ org _ _ Hr). replace w1 with (snd (fail_txn org c error w)) by (by rewrite H).
      constructor. }
  apply outcome_final in Hout as (o & Hin & Hid & Hterm).
  destruct (steps_occurrence _ _ _ Hr1 Hs Hin) as (o2 & Hin2 & Hl). apply occ_later_final in Hl as ->; [|done].
  split; [|exists o; split_and!; [done..|by apply bool_decide_eq_true in Hterm|done]].
  intros org'. apply dispatch_refused. apply (settled_refuses w' o); [by eapply sched_reachable_steps|done|done|].
  left. intros E. by rewrite E in Hterm.
Qed.

(** The outcome of an occurrence is final: an occurrence that is DISPATCHED,
    FAILED, SKIPPED or CANCELLED is the same row after any further steps. *)
Theorem settled_occurrences_are_frozen w w' o :
  reachable w → steps w w' → o ∈ db_occurrences (w_db w) → so_state o ∈ OCCURRENCE_TERMINAL →
  o ∈ db_occurrences (w_db w').
Proof.
  intros Hr Hs Hin Hterm. destruct (steps_occurrence _ _ _ Hr Hs Hin) as (o' & Hin' & Hl).
  apply occ_later_final in Hl as ->; [done|]. by apply bool_decide_eq_true.
Qed.

(** ** Claims *)

Lemma claim_txn org owner w c w1 :
  claim_due org owner w = (Ok (Some c), w1) →
  ∃ w0, w_db w0 = w_db w ∧ w_next_uuid w0 = w_next_uuid w ∧ ∃ w2,
    SchedulerRepository.claim_due org owner w0 = (Ok (Some c), w2) ∧ same_sched w2 w1.
Proof.
  intros H. apply txn_committed in H. ran H as u w2 Hg. apply ran_guard in Hg as ->.
  ran H as c' w2 Hc. ran H as u2 w3 He. injection H as -> <-.
  eexists. split; [|split; [|exists w2; split; [exact Hc|]]]; [done|done|].
  by apply squiet_occurrence_event in He.
Qed.

(** An occurrence is handed to at most one worker, ever: once it was claimed, no
    later claim of any worker returns it again, and only a due PENDING occurrence
    of an ACTIVE schedule of the tenant is ever handed out. *)
Theorem claims_are_exclusive org owner w c w1 w' :
  reachable w → claim_due org owner w = (Ok (Some c), w1) → steps w1 w' →
  (∃ o s, o ∈ db_occurrences (w_db w) ∧ s ∈ db_schedules (w_db w) ∧
     so_id o = so_id (oc_occurrence c) ∧ so_organization_id o = org ∧
     so_state o = OccurrenceState.PENDING ∧ ss_id s = so_schedule_id o ∧ ss_state s = ScheduleState.ACTIVE) ∧
  ∀ org' owner' c' w'', claim_due org' owner' w' = (Ok (Some c'), w'') →
    so_id (oc_occurrence c') ≠ so_id (oc_occurrence c).
Proof.
  intros Hr Hc Hs. assert (Hr1 : reachable w1).
  { eapply (sched_reachable_step _ org _ _ Hr). replace w1 with (snd (claim_due org owner w)) by (by rewrite Hc).
    constructor. }
  apply claim_txn in Hc as (w0 & E1 & E2 & w2 & Hc & Hq & Hq2 & _).
  apply ran_claim_due in Hc as (o & s & now & Hin & Hsin & Ho & Hst & Hsid & _ & Hact & _ & _ & Hid & _ & _ & _ & _ & Hcl & _ & _ & _ & _ & Eocc & _).
  rewrite E1 in Hin, Hsin, Eocc. split; [by exists o, s|].
  assert (Hin1 : oc_occurrence c ∈ db_occurrences (w_db w1)).
  { rewrite Hq2, Eocc. apply list_elem_of_fmap. exists o. split; [by rewrite N.eqb_refl|done]. }
  intros org' owner' c' w'' (v0 & F1 & _ & v2 & Hc' & _)%claim_txn Heq.
  apply ran_claim_due in Hc' as (o' & _ & _ & Hin' & _ & _ & Hst' & _ & _ & _ & _ & _ & Hid' & _). rewrite F1 in Hin'.
  assert (Hl : occ_later (oc_occurrence c) o').
  { apply (steps_occurrence_by_id w1 w'); [done..|congruence]. }
  apply occ_later_claimed in Hl as [Hne _]; [done|by rewrite Hcl].
Qed.

(** ** Cancelled schedules *)

Lemma cancel_committed org id w s w1 :
  reachable w → cancel_schedule org id w = (Ok s, w1) →
  s ∈ db_schedules (w_db w1) ∧ ss_id s = id ∧ ss_organization_id s = org ∧ ss_state s = ScheduleState.CANCELLED ∧
  ∀ o, o ∈ db_occurrences (w_db w1) → so_organization_id o = org → so_schedule_id o = id →
       so_state o ≠ OccurrenceState.PENDING.
Proof.
  intros Hr H. pose proof (sched_reachable_inv _ _ Hr) as HI. apply txn_committed in H.
  ran H as row w2 Hf. apply ran_found_schedule in Hf as (-> & Hin & Ho & Hid).
  ran H as row2 w3 Ht. pose proof (transition_ok dg _ _ _ _ _ _ _ _ _ Hin Ho eq_refl eq_refl eq_refl Ht) as Hok.
  apply ran_transition_schedule in Ht as (_ & (now & ->) & E1 & E2 & Hn).
  ran H as cancelled w4 Hc. assert (Hq : same_sched w4 w1 ∧ s = transitioned ScheduleState.CANCELLED now row).
  { ran H as u w5 He. ran H as u2 w6 Hes. injection H as <- <-. split; [|done].
    etrans; [by eapply squiet_schedule_event|]. by eapply squiet_forM; [intros; apply squiet_occurrence_event|]. }
  destruct Hq as [(Q1 & Q2 & _) ->].
  assert (HI3 : sched_inv dg (w_db w3) (w_next_uuid w3)) by (by apply Hok).
  apply (cancel_pending_spec dg) in Hc as (_ & E3 & Hnone); [|done].
  split_and!; [|done..|by rewrite Q2].
  rewrite Q1, E3, E1. apply list_elem_of_fmap. exists row. split; [by rewrite N.eqb_refl|done].
Qed.

Lemma steps_no_pending org w w' s :
  reachable w → steps w w' → s ∈ db_schedules (w_db w) → terminal (ss_state s) = true →
  (∀ o, o ∈ db_occurrences (w_db w) → so_organization_id o = org → so_schedule_id o = ss_id s →
        so_state o ≠ OccurrenceState.PENDING) →
  ∀ o, o ∈ db_occurrences (w_db w') → so_organization_id o = org → so_schedule_id o = ss_id s →
       so_state o ≠ OccurrenceState.PENDING.
Proof.
  intros Hr Hs. induction Hs as [|w1 w2 w3 (org' & Hstep) _ IH]; intros Hin Hterm Hnone; [done|].
  pose proof (step_rows _ _ _ Hr Hstep) as [Hms Hmo].
  destruct (extends_in _ _ _ _ s Hms Hin) as (s1 & Hin1 & Hm). rewrite (sm_final _ _ _ Hm Hterm) in Hin1.
  apply IH; [by eapply sched_reachable_step|done|done|].
  intros o Ho Horg Hid. destruct (extends_from _ _ _ _ o Hmo Ho) as [(o0 & Ho0 & Hm0)|(_ & _ & Hact)].
  - intros Hp. pose proof (om_ident _ _ _ _ Hm0) as E. injection E as _ E1 E2 _.
    pose proof (om_legal _ _ _ _ Hm0) as Hl. rewrite Hp in Hl. apply legal_to_PENDING in Hl.
    by apply (Hnone o0); [..|congruence|congruence|].
  - by rewrite (Hact s) in Hterm.
Qed.

(** Cancelling a schedule is final: after any further steps the schedule is
    still the CANCELLED row the call returned, none of its occurrences is PENDING,
    and no worker of any tenant is handed one. *)
Theorem cancel_schedule_is_final org id w s w1 w' :
  reachable w → cancel_schedule org id w = (Ok s, w1) → steps w1 w' →
  ss_id s = id ∧ ss_state s = ScheduleState.CANCELLED ∧ s ∈ db_schedules (w_db w') ∧
  (∀ o, o ∈ db_occurrences (w_db w') → so_organization_id o = org → so_schedule_id o = id →
        so_state o ≠ OccurrenceState.PENDING) ∧
  ∀ org' owner c w'', claim_due org' owner w' = (Ok (Some c), w'') → so_schedule_id (oc_occurrence c) ≠ id.
Proof.
  intros Hr Hc Hs. assert (Hr1 : reachable w1).
  { eapply (sched_reachable_step _ org _ _ Hr). replace w1 with (snd (cancel_schedule org id w)) by (by rewrite Hc).
    constructor. }
  assert (Hr' : reachable w') by (by eapply sched_reachable_steps).
  apply cancel_committed in Hc as (Hin & Hid & _ & Hst & Hnone); [|done].
  assert (Hterm : terminal (ss_state s) = true) by (by rewrite Hst).
  destruct (steps_schedule _ _ _ Hr1 Hs Hin) as (s' & Hin' & Hl). apply sched_later_final in Hl as ->; [|done].
  split_and!; [done..| |].
  - rewrite <- Hid in *. by apply (steps_no_pending org w1 w' s).
  - intros org' owner c w'' (v0 & F1 & _ & v2 & Hc & _)%claim_txn Heq.
    apply ran_claim_due in Hc as (o & s2 & _ & _ & Hs2 & _ & _ & Hsid & _ & Hact & _ & _ & _ & _ & Hosid & _).
    rewrite F1 in Hs2. assert (s2 = s) as -> by (apply (schedule_unique w'); [done..|congruence]). congruence.
Qed.

(** ** Tenants *)

Lemma extends_filter {A} (R : A → A → Prop) F (p : A → bool) l l' :
  extends R F l l' → (∀ x y, R x y → p x = true → y = x) → (∀ x y, R x y → p y = p x) →
  (∀ x, F x → p x = false) → List.filter p l' = List.filter p l.
Proof.
  intros (m & k & -> & HR & HF) Hsame Hp Hnew. rewrite List.filter_app.
  replace (List.filter p k) with (@nil A).
  - rewrite app_nil_r. induction HR as [|x y l m Hxy _ IH]; [done|]. simpl. rewrite (Hp _ _ Hxy), IH.
    destruct (p x) eqn:Hpx; [|done]. by rewrite (Hsame _ _ Hxy Hpx).
  - induction HF as [|x k Hx _ IH]; [done|]. simpl. by rewrite (Hnew _ Hx).
Qed.

(** Tenants are isolated: a transaction of one Organization leaves the schedules
    and occurrences of every other Organization as they are, and adds none to them. *)
Theorem scheduler_tenants_are_isolated org org' w w' :
  reachable w → sched_step dep org w w' → org' ≠ org →
  List.filter (λ s, N.eqb (ss_organization_id s) org') (db_schedules (w_db w')) =
    List.filter (λ s, N.eqb (ss_organization_id s) org') (db_schedules (w_db w)) ∧
  List.filter (λ o, N.eqb (so_organization_id o) org') (db_occurrences (w_db w')) =
    List.filter (λ o, N.eqb (so_organization_id o) org') (db_occurrences (w_db w)).
Proof.
  intros Hr Hs Hne. destruct (step_rows _ _ _ Hr Hs) as [Hms Hmo].
  split; [eapply (extends_filter _ _ _ _ _ Hms)|eapply (extends_filter _ _ _ _ _ Hmo)].
  - intros s s' Hm Ho%N.eqb_eq. apply (sm_org _ _ _ Hm). congruence.
  - intros s s' Hm. pose proof (sm_ident _ _ _ Hm) as E. injection E as _ E _. by rewrite E.
  - intros s [_ Ho]. apply N.eqb_neq. congruence.
  - intros o o' Hm Ho%N.eqb_eq. apply (om_org _ _ _ _ Hm). congruence.
  - intros o o' Hm. pose proof (om_ident _ _ _ _ Hm) as E. injection E as _ E _. by rewrite E.
  - intros o (_ & Ho & _). apply N.eqb_neq. congruence.
Qed.

(** ** Revisions *)

Lemma sched_later_revision s s' :
  sched_later s s' →
  ss_revision s < ss_revision s' ∨ ss_revision s' = ss_revision s ∧ schedule_config s' = schedule_config s.
Proof.
  induction 1 as [|s1 s2 s3 (org & Hm) _ IH]; [by right|].
  destruct (sm_revision _ _ _ Hm) as [H1|[H1 C1]], IH as [H2|[H2 C2]]; [lia..|].
  right. split; [lia|congruence].
Qed.

Lemma update_committed org id request w s w' :
  update_schedule (dep_zoneinfo dep) (dep_dump_length dep) org id request w = (Ok s, w') →
  ∃ row, row ∈ db_schedules (w_db w) ∧ ss_organization_id row = org ∧ ss_id row = id ∧
    ss_revision row = us_expected_revision request ∧ ss_revision s = ss_revision row + 1 ∧
    (ss_state row = ScheduleState.DRAFT ∨ ss_state row = ScheduleState.PAUSED).
Proof.
  intros H. apply txn_committed in H. ran H as row w2 Hf. apply ran_found_schedule in Hf as (-> & Hin & Ho & Hid).
  destruct (negb _) eqn:Hst in H; [done|]. apply negb_false_iff, bool_decide_eq_true in Hst.
  destruct (negb _) eqn:Hrev in H; [done|]. apply negb_false_iff, Z.eqb_eq in Hrev.
  ran H as cand w3 Hm. ran H as now w4 Hn. ran H as u w5 Hp. injection H as <- _.
  exists row. split_and!; [done..|]. clear -Hst. set_solver.
Qed.

(** Revisions fence updates: a revision is never reused for another state or
    configuration, so an update that carries the revision its author read is
    applied only when the schedule is exactly as the author saw it, and an update
    against a schedule that has moved on is refused. *)
Theorem revisions_fence_updates w w' s org id request s2 w'' :
  reachable w → steps w w' → s ∈ db_schedules (w_db w) → ss_id s = id →
  us_expected_revision request = ss_revision s →
  update_schedule (dep_zoneinfo dep) (dep_dump_length dep) org id request w' = (Ok s2, w'') →
  ss_revision s2 = ss_revision s + 1 ∧ ss_organization_id s = org ∧
  ∃ s', s' ∈ db_schedules (w_db w') ∧ ss_id s' = id ∧ schedule_config s' = schedule_config s ∧
        (ss_state s = ScheduleState.DRAFT ∨ ss_state s = ScheduleState.PAUSED).
Proof.
  intros Hr Hs Hin Hid Hrev Hup. apply update_committed in Hup as (row & Hin' & Ho & Hid' & Erev & Erev2 & Hst).
  destruct (steps_schedule _ _ _ Hr Hs Hin) as (s' & Hs' & Hl).
  pose proof (sched_later_ident _ _ Hl) as E. injection E as E1 E2 _.
  assert (s' = row) as ->.
  { apply (schedule_unique w'); [by eapply sched_reachable_steps|done|done|congruence]. }
  apply sched_later_revision in Hl as [Hl|[_ Hcfg]]; [lia|].
  split; [lia|]. split; [congruence|]. exists row. split_and!; try done.
  unfold schedule_config in Hcfg. injection Hcfg as <- _. done.
Qed.

(** ** Lifecycles *)

Lemma sched_later_legal s s' : sched_later s s' → rtc legal (ss_state s) (ss_state s').
Proof. induction 1 as [|s1 s2 s3 (org & Hm) _ IH]; [apply rtc_refl|]. etrans; [apply Hm|done]. Qed.

Lemma occ_later_legal o o' : occ_later o o' → rtc legal (so_state o) (so_state o').
Proof. induction 1 as [|o1 o2 o3 (org & n & Hm) _ IH]; [apply rtc_refl|]. etrans; [apply Hm|done]. Qed.

(** Schedules and occurrences are never deleted, keep their identity, and only
    move along the declared lifecycles. *)
Theorem scheduler_transitions_are_legal w w' :
  reachable w → steps w w' →
  (∀ s, s ∈ db_schedules (w_db w) → ∃ s', s' ∈ db_schedules (w_db w') ∧
     schedule_ident s' = schedule_ident s ∧ rtc legal (ss_state s) (ss_state s')) ∧
  (∀ o, o ∈ db_occurrences (w_db w) → ∃ o', o' ∈ db_occurrences (w_db w') ∧
     occurrence_ident o' = occurrence_ident o ∧ rtc legal (so_state o) (so_state o')).
Proof.
  intros Hr Hs. split.
  - intros s Hin. destruct (steps_schedule _ _ _ Hr Hs Hin) as (s' & Hin' & Hl).
    exists s'. split; [done|]. split; [by apply sched_later_ident|by apply sched_later_legal].
  - intros o Hin. destruct (steps_occurrence _ _ _ Hr Hs Hin) as (o' & Hin' & Hl).
    exists o'. split; [done|]. split; [by apply occ_later_ident|by apply occ_later_legal].
Qed.

(** ** Materialisation *)

(** [materialize_due] is bounded and complete: the limit is between 1 and 500; at
    most [limit] occurrences are appended and nothing else happens to the
    occurrences; each of them belongs to an ACTIVE due schedule of the tenant and to
    one of its slots that has elapsed, inside its window; and a call that stays
    under its limit leaves every schedule it found due with no elapsed slot. *)
Theorem materialize_due_spec org limit w created w' :
  reachable w → materialize_due (dep_zoneinfo dep) dg org limit w = (Ok created, w') →
  let now := w_clock w (S (w_reads w)) in
  let due := List.filter (is_due org (w_clock w (S (S (w_reads w))))) (db_schedules (w_db w)) in
  1 ≤ limit ≤ MAX_BATCH ∧
  db_occurrences (w_db w') = db_occurrences (w_db w) ++ created ∧
  Z.of_nat (length created) ≤ limit ∧
  Forall (λ o, ∃ row, row ∈ due ∧ materialized_from org now row o) created ∧
  (Z.of_nat (length created) < limit → Z.of_nat (length due) ≤ limit →
   Forall (λ row, caught_up now row (w_db w')) due).
Proof.
  intros Hr%sched_reachable_inv H. unfold materialize_due in H. destruct (negb _) eqn:Hl in H; [done|].
  apply negb_false_iff, andb_true_iff in Hl as [H1%Z.leb_le H2%Z.leb_le].
  apply txn_committed in H. ran H as u w2 Hg. apply ran_guard in Hg as ->.
  apply ran_materialize_body in H as (_ & E & Hb & Hf & Hcu); [done..|exact Hr].
Qed.
End safety.

(** ** The theorems at the executions of [SchedulerDemo] *)

Abbreviation demo_dispatched := (snd once_finished).

Definition dispatched_occurrence : SchedulerOccurrenceRecord :=
  match fst once_finished with Ok o => o | Err _ => no_occurrence end.

Lemma once_finished_ok :
  finish_txn demo_org once_claim 900 (snd once_begun) = (Ok dispatched_occurrence, demo_dispatched).
Proof. vm_compute. reflexivity. Qed.

Lemma once_claimed_ok :
  claim_due demo_org 100 (snd once_due) = (Ok (Some once_claim), snd once_claimed).
Proof. vm_compute. reflexivity. Qed.

Lemma once_finished_step : demo_step_to demo_org (snd once_begun) demo_dispatched.
Proof. apply (st_finish demo_deployment demo_org (snd once_begun) once_claim 900). Qed.

Lemma once_dispatched_reachable : sched_reachable demo_deployment demo_dispatched.
Proof. exact (sched_reachable_step _ _ _ _ once_begun_reachable once_finished_step). Qed.

Lemma scheduler_invariant_witness :
  NoDup (map occurrence_identity (db_occurrences (w_db demo_dispatched))) ∧
  length (db_occurrences (w_db demo_dispatched)) = 1%nat.
Proof.
  split; [|vm_compute; reflexivity].
  exact (proj1 (proj2 (proj2 (scheduler_invariant demo_deployment demo_dispatched once_dispatched_reachable)))).
Defined.

Lemma dispatch_has_one_outcome_witness :
  refused (begin_txn demo_org once_claim) demo_dispatched ∧
  (∀ run, refused (finish_txn demo_org once_claim run) demo_dispatched) ∧
  (∀ error, refused (fail_txn demo_org once_claim error) demo_dispatched).
Proof.
  exact (proj1 (dispatch_has_one_outcome demo_deployment demo_org once_claim (snd once_begun) demo_dispatched
    demo_dispatched once_begun_reachable
    (or_introl (ex_intro _ 900%N (ex_intro _ dispatched_occurrence once_finished_ok)))
    (rtc_refl _ _)) demo_org).
Defined.

Definition demo_paused : World := snd (pause_schedule demo_org (ss_id once_schedule) demo_dispatched).

Lemma demo_paused_steps : demo_steps_to demo_dispatched demo_paused.
Proof. apply rtc_once. exists demo_org. apply st_pause. Qed.

Lemma dispatched_in : dispatched_occurrence ∈ db_occurrences (w_db demo_dispatched).
Proof.
  assert (db_occurrences (w_db demo_dispatched) = [dispatched_occurrence]) as -> by (vm_compute; reflexivity).
  by constructor.
Qed.

Lemma dispatched_settled : so_state dispatched_occurrence ∈ OCCURRENCE_TERMINAL.
Proof.
  assert (so_state dispatched_occurrence = OccurrenceState.DISPATCHED) as -> by (vm_compute; reflexivity).
  set_solver.
Qed.

Lemma settled_occurrences_are_frozen_witness :
  dispatched_occurrence ∈ db_occurrences (w_db demo_paused).
Proof.
  exact (settled_occurrences_are_frozen demo_deployment demo_dispatched demo_paused dispatched_occurrence
    once_dispatched_reachable demo_paused_steps dispatched_in dispatched_settled).
Defined.

Lemma begun_steps : demo_steps_to (snd once_claimed) (snd once_begun).
Proof. apply rtc_once. exists demo_org. apply st_begin. Qed.

Lemma claims_are_exclusive_witness :
  so_state (oc_occurrence once_claim) = OccurrenceState.CLAIMED ∧
  ∀ org' owner' c' w'', claim_due org' owner' (snd once_begun) = (Ok (Some c'), w'') →
    so_id (oc_occurrence c') ≠ so_id (oc_occurrence once_claim).
Proof.
  split; [vm_compute; reflexivity|].
  exact (proj2 (claims_are_exclusive demo_deployment demo_org 100 (snd once_due) once_claim (snd once_claimed)
    (snd once_begun) once_due_reachable once_claimed_ok begun_steps)).
Defined.

Definition cancelled_daily : SchedulerScheduleRecord :=
  match fst daily_cancelled with Ok s => s | Err _ => no_schedule end.

Lemma daily_cancelled_ok :
  cancel_schedule demo_org daily_id (snd daily_due) = (Ok cancelled_daily, snd daily_cancelled).
Proof. vm_compute. reflexivity. Qed.

Lemma cancel_schedule_is_final_witness :
  ss_id cancelled_daily = daily_id ∧ ss_state cancelled_daily = ScheduleState.CANCELLED ∧
  cancelled_daily ∈ db_schedules (w_db (snd daily_cancelled)) ∧
  (∀ o, o ∈ db_occurrences (w_db (snd daily_cancelled)) → so_organization_id o = demo_org →
        so_schedule_id o = daily_id → so_state o ≠ OccurrenceState.PENDING) ∧
  ∀ org' owner c w'', claim_due org' owner (snd daily_cancelled) = (Ok (Some c), w'') →
    so_schedule_id (oc_occurrence c) ≠ daily_id.
Proof.
  exact (cancel_schedule_is_final demo_deployment demo_org daily_id (snd daily_due) cancelled_daily
    (snd daily_cancelled) (snd daily_cancelled) daily_due_reachable daily_cancelled_ok (rtc_refl _ _)).
Defined.

Lemma scheduler_tenants_are_isolated_witness :
  List.filter (λ o, N.eqb (so_organization_id o) demo_org)
    (db_occurrences (w_db (snd (cancel_schedule 8 daily_id (snd daily_due))))) =
  List.filter (λ o, N.eqb (so_organization_id o) demo_org) (db_occurrences (w_db (snd daily_due))).
Proof.
  exact (proj2 (scheduler_tenants_are_isolated demo_deployment 8 demo_org (snd daily_due)
    (snd (cancel_schedule 8 daily_id (snd daily_due))) daily_due_reachable
    (st_cancel demo_deployment 8 (snd daily_due) daily_id) (ltac:(discriminate) : demo_org ≠ 8%N))).
Defined.

(** The one-time schedule as created, still a draft, is moved to the evening. *)
Definition evening_update : UpdateScheduleRequest := {|
  us_expected_revision := 1; us_timezone := None; us_start_at := Some (Some (at_time 2024 3 12 23 0));
  us_end_at := None; us_recurrence := None; us_input := None; us_misfire_policy := None;
  us_max_catch_up := None |}.

Definition once_updated := update_schedule tz_demo (λ _, 512) demo_org (ss_id once_schedule) evening_update
  (snd once_created).

Definition updated_schedule : SchedulerScheduleRecord :=
  match fst once_updated with Ok s => s | Err _ => no_schedule end.

Lemma once_updated_ok :
  update_schedule (dep_zoneinfo demo_deployment) (dep_dump_length demo_deployment) demo_org
    (ss_id once_schedule) evening_update (snd once_created) = (Ok updated_schedule, snd once_updated).
Proof. vm_compute. reflexivity. Qed.

Lemma once_created_reachable : sched_reachable demo_deployment (snd once_created).
Proof.
  eapply sched_reachable_step; [apply sched_world_reachable|apply (st_create demo_deployment demo_org)].
Qed.

Lemma once_schedule_in : once_schedule ∈ db_schedules (w_db (snd once_created)).
Proof.
  assert (db_schedules (w_db (snd once_created)) = [once_schedule]) as -> by (vm_compute; reflexivity).
  by constructor.
Qed.

Lemma revisions_fence_updates_witness :
  ss_revision updated_schedule = ss_revision once_schedule + 1 ∧ ss_organization_id once_schedule = demo_org.
Proof.
  destruct (revisions_fence_updates demo_deployment (snd once_created) (snd once_created) once_schedule demo_org
    (ss_id once_schedule) evening_update updated_schedule (snd once_updated) once_created_reachable
    (rtc_refl _ _) once_schedule_in eq_refl ltac:(vm_compute; reflexivity) once_updated_ok)
    as (H1 & H2 & _).
  exact (conj H1 H2).
Defined.

Lemma scheduler_transitions_are_legal_witness :
  ∃ o', o' ∈ db_occurrences (w_db demo_paused) ∧
    occurrence_ident o' = occurrence_ident dispatched_occurrence ∧
    rtc legal (so_state dispatched_occurrence) (so_state o').
Proof.
  exact (proj2 (scheduler_transitions_are_legal demo_deployment demo_dispatched demo_paused
    once_dispatched_reachable demo_paused_steps) dispatched_occurrence dispatched_in).
Defined.

Definition daily_materialized : list SchedulerOccurrenceRecord :=
  match fst daily_due with Ok l => l | Err _ => [] end.

Lemma daily_due_ok :
  materialize_due (dep_zoneinfo demo_deployment) (dep_digest demo_deployment) demo_org 10 (snd daily_active)
  = (Ok daily_materialized, snd daily_due).
Proof. vm_compute. reflexivity. Qed.

Lemma materialize_due_spec_witness :
  length daily_materialized = 2%nat ∧
  db_occurrences (w_db (snd daily_due)) = db_occurrences (w_db (snd daily_active)) ++ daily_materialized.
Proof.
  split; [vm_compute; reflexivity|].
  exact (proj1 (proj2 (materialize_due_spec demo_deployment demo_org 10 (snd daily_active) daily_materialized
    (snd daily_due) daily_active_reachable daily_due_ok))).
Defined.
