(* ===== verification/SchedulerDispatch.v ===== *)
(** * SchedulerDispatch: the scheduler on top of the workflow engine

    A dispatch is three transactions around [WorkflowService.start_run]. The
    theorems compose the two components: the scheduler side uses what the workflow
    engine promises about a start under an idempotency key, and the workflow engine
    sees the scheduler's own transactions as steps of its environment. *)

From S2P Require Import Prelude.
From S2P Require Import Errors.
From S2P Require Import Lifecycles.
From S2P Require Import Conditions.
From S2P Require Import ScheduleSpec.
From S2P Require Import Store.
From S2P Require Import StoreLemmas.
From S2P Require Import WorkflowRepository.
From S2P Require Import WorkflowService.
From S2P Require Import AdvanceLemmas.
From S2P Require Import RunUpdate.
From S2P Require Import RunInvariant.
From S2P Require Import WorkflowOps.
From S2P Require Import WorkflowStart.
From S2P Require Import WorkflowSystem.
From S2P Require Import WorkflowSafety.
From S2P Require Import WorkflowTenancy.
From S2P Require Import SchedulerRepository.
From S2P Require Import SchedulerService.
From S2P Require Import SchedulerInvariant.
From S2P Require Import SchedulerOps.
From S2P Require Import SchedulerSteps.
From S2P Require Import SchedulerSystem.
From S2P Require Import SchedulerSafety.
From S2P Require Import WorkflowDemo.
From S2P Require Import SchedulerDemo.

(** ** The scheduler's transactions leave the workflow tables alone *)

Lemma quiet_modify (f : DB → DB) : (∀ d, core d = core (f d)) → quiet (modify_db f).
Proof. intros Hf w a w' [= _ <-]. split; [apply Hf|cbn; lia]. Qed.

Lemma quiet_lift {A} (r : result exn A) : quiet (lift r).
Proof. intros w a w' [= _ <-]. done. Qed.

Lemma quiet_utcnow : quiet utcnow.
Proof. intros w a w' H. by apply ran_utcnow in H. Qed.

Lemma quiet_fresh : quiet fresh_uuid.
Proof. intros w a w' [= _ <-]. split; cbn; done || lia. Qed.

Lemma quiet_txn_now : quiet txn_now.
Proof. intros w a w' [= _ <-]. done. Qed.

Ltac core_quiet :=
  repeat (intros; lazymatch goal with
  | |- quiet (modify_db _) => apply quiet_modify; done
  | |- quiet (add_history _) => apply quiet_modify; done
  | |- quiet (put_schedule _) => apply quiet_modify; done
  | |- quiet (lift _) => apply quiet_lift
  | |- quiet utcnow => apply quiet_utcnow
  | |- quiet fresh_uuid => apply quiet_fresh
  | |- quiet txn_now => apply quiet_txn_now
  | |- quiet (mret _) => apply quiet_ret
  | |- quiet (raise _) => apply quiet_raise
  | |- quiet (gets _) => apply quiet_gets
  | |- quiet (enqueue_event _ _ _ _ _) => apply quiet_enqueue
  | |- quiet (_ ≫= _) => apply quiet_bind
  | |- quiet (match ?x with _ => _ end) => destruct x
  end).

Lemma txn_same_core {A} (m : M A) `{!Monotone m} w : quiet m → same_core w (snd (tenant_transaction m w)).
Proof.
  intros Hm. unfold tenant_transaction. destruct (m _) as [[a|e] w1] eqn:Hrun; cbn [snd].
  - apply Hm in Hrun as [E Hn]. by split.
  - apply ran_monotone in Hrun; [|done]. by split.
Qed.

Lemma begin_txn_core org c w : same_core w (snd (begin_txn org c w)).
Proof.
  unfold begin_txn. apply txn_same_core; [unfold begin_dispatch; monotonicity|].
  unfold begin_dispatch, update_claimed. core_quiet.
Qed.

Lemma finish_txn_core org c run w : same_core w (snd (finish_txn org c run w)).
Proof.
  unfold finish_txn. apply txn_same_core; [monotonicity|].
  unfold finish_dispatch, schedule_row, update_claimed, add_occurrence_transition, occurrence_row,
    complete_one_time, transition_schedule, database_now, add_schedule_transition, occurrence_event.
  core_quiet.
Qed.

Lemma fail_txn_core org c error w : same_core w (snd (fail_txn org c error w)).
Proof.
  unfold fail_txn. apply txn_same_core; [monotonicity|].
  unfold fail_dispatch, schedule_row, update_claimed, add_occurrence_transition, occurrence_row,
    complete_one_time, transition_schedule, database_now, add_schedule_transition, occurrence_event.
  core_quiet.
Qed.

Lemma env_step w w' cs : same_core w w' → rtc sys_step (mkSystem w cs) (mkSystem w' cs).
Proof. intros H. apply rtc_once. by apply (step_env (mkSystem w cs)). Qed.

(** ** Starting a run *)

Lemma get_version_observed org id w v w' :
  WorkflowService.get_version org id w = (Ok v, w') →
  same_core w w' ∧ observed (w_db w') org v ∧ ver_id v = id.
Proof.
  intros H. apply txn_committed in H. ran H as found w1 Hv. injection Hv as <- <-.
  destruct (List.find _ _) as [row|] eqn:Hf; [|done]. injection H as <- <-.
  apply List.find_some in Hf as [Hin Hp]. apply andb_true_iff in Hp as [Ho%N.eqb_eq Hid%N.eqb_eq].
  split; [by split; cbn|]. split; [|done]. exists row. by split; [apply list_elem_of_In|].
Qed.

Lemma resolve_committed org v k print w run w' :
  WorkflowService.resolve_txn org v k print w = (Ok (Some run), w') →
  same_core w w' ∧ run ∈ db_runs (w_db w') ∧ wr_organization_id run = org ∧ wr_version_id run = ver_id v ∧
  wr_idempotency_key run = Some k.
Proof.
  intros H. apply txn_committed in H. ran H as u w1 Hg. apply ran_guard in Hg as ->.
  ran H as found w1 Hf. injection Hf as Hf <-. destruct found as [r|]; [|done].
  destruct (negb _) in H; [done|]. injection H as <- <-.
  apply List.find_some in Hf as [Hin Hp]. unfold by_idempotency in Hp.
  rewrite !andb_true_iff, !N.eqb_eq, bool_decide_eq_true in Hp. destruct Hp as [[H1 H2] H3].
  split_and!; try done. by apply list_elem_of_In.
Qed.

(** What [start_run] returns, as the scheduler relies on it. *)
Lemma ran_service_start fingerprint org request w cs run w' :
  reachable (mkSystem w cs) → WorkflowService.start_run fingerprint org request w = (Ok run, w') →
  rtc sys_step (mkSystem w cs) (mkSystem w' cs) ∧ run ∈ db_runs (w_db w') ∧
  wr_organization_id run = org ∧ wr_version_id run = sw_workflow_version_id request ∧
  ∀ k, sw_idempotency_key request = Some k → wr_idempotency_key run = Some k.
Proof.
  intros Hr H. unfold WorkflowService.start_run in H. ran H as v w1 Hv.
  apply get_version_observed in Hv as (Hc & Hobs & Hid). apply (env_step _ _ cs) in Hc.
  assert (Hr1 : reachable (mkSystem w1 cs)) by (by eapply reachable_steps).
  pose proof (proj1 (reachable_inv _ Hr1)) as HT. unfold try_with in H.
  destruct (WorkflowService.start_txn _ _ _ _ w1) as [[run0|e] w2] eqn:Hst.
  - injection H as -> ->. split.
    + etrans; [exact Hc|]. apply rtc_once, (step_tenant _ org). pattern w' at 1.
      replace w' with (snd (WorkflowService.start_txn org v request
        (fingerprint (ver_id v) (sw_input request)) w1)) by (by rewrite Hst). by constructor.
    + apply start_txn_run in Hst as (? & ? & ? & _ & ?); [|done]. rewrite <- Hid. done.
  - destruct e; try done. destruct (sw_idempotency_key request) as [k|] eqn:Hk; [|done].
    ran H as found w3 Hres. destruct found as [r|]; [|done]. injection H as -> ->.
    apply resolve_committed in Hres as (Hc2 & Hin & Ho & Hver & Hkey).
    split_and!; [|done|done|congruence|congruence].
    etrans; [exact Hc|]. etrans; [|apply env_step, Hc2]. apply rtc_once, (step_tenant _ org).
    replace w2 with (snd (WorkflowService.start_txn org v request
      (fingerprint (ver_id v) (sw_input request)) w1)) by (by rewrite Hst). by constructor.
Qed.

(** ** Successful dispatches *)

Lemma finish_committed org c run w o w' :
  finish_txn org c run w = (Ok o, w') →
  o ∈ db_occurrences (w_db w') ∧ so_id o = so_id (oc_occurrence c) ∧ so_organization_id o = org ∧
  so_state o = OccurrenceState.DISPATCHED ∧ so_workflow_run_id o = Some run.
Proof.
  intros H. apply txn_committed in H. ran H as o1 w2 Hf. ran H as u w3 He. injection H as <- <-.
  apply squiet_occurrence_event in He as (_ & E & _).
  apply (finish_dispatch_ok id) in Hf as (_ & o0 & now & Hin & Hh & -> & El).
  pose proof Hh as (Ho & Hid & _)%holds_spec. split; [|done].
  rewrite E, El. apply list_elem_of_fmap. exists o0. split; [by rewrite Hh|done].
Qed.

Lemma dispatch_ran fingerprint org c w cs o w' :
  reachable (mkSystem w cs) → dispatch_claim fingerprint org c w = (Ok o, w') →
  rtc sys_step (mkSystem w cs) (mkSystem w' cs) ∧
  o ∈ db_occurrences (w_db w') ∧ so_id o = so_id (oc_occurrence c) ∧ so_organization_id o = org ∧
  so_state o = OccurrenceState.DISPATCHED ∧
  ∃ run, so_workflow_run_id o = Some (wr_id run) ∧ run ∈ db_runs (w_db w') ∧ wr_organization_id run = org ∧
    wr_version_id run = so_workflow_version_id (oc_occurrence c) ∧
    wr_idempotency_key run = Some (so_p14_idempotency_key (oc_occurrence c)).
Proof.
  intros Hr H. unfold dispatch_claim in H. ran H as u w1 Hb. ran H as corr w2 Hc. injection Hc as <- <-.
  assert (Hs1 : rtc sys_step (mkSystem w cs) (mkSystem w1 cs)).
  { apply env_step. replace w1 with (snd (begin_txn org c w)) by (by rewrite Hb). apply begin_txn_core. }
  ran H as run w3 Hst. unfold try_with in Hst.
  destruct (WorkflowService.start_run _ _ _ w1) as [[run0|e] w4] eqn:Hsr; cycle 1.
  { destruct e; try done. by ran Hst as u2 w5 Hf. }
  injection Hst as -> ->. apply (ran_service_start _ _ _ _ cs) in Hsr as (Hs2 & Hin & Ho & Hv & Hk);
    [|by eapply reachable_steps].
  pose proof (finish_txn_core org c (wr_id run) w3) as Hc. rewrite H in Hc. cbn [snd] in Hc.
  apply finish_committed in H as (F1 & F2 & F3 & F4 & F5).
  split; [etrans; [exact Hs1|]; etrans; [exact Hs2|by apply env_step]|]. split_and!; [done..|].
  exists run. split_and!; [done| |done|done|by apply Hk].
  rewrite <- (same_core_runs _ _ Hc). done.
Qed.

(** A dispatched occurrence names a run that exists: when [dispatch_claim] returns,
    the claimed occurrence is DISPATCHED and its [workflow_run_id] is the run of the
    tenant that was started for the pinned workflow version under the occurrence's
    own idempotency key. *)
Theorem dispatch_names_its_run fingerprint org c w cs o w' :
  reachable (mkSystem w cs) → dispatch_claim fingerprint org c w = (Ok o, w') →
  o ∈ db_occurrences (w_db w') ∧ so_id o = so_id (oc_occurrence c) ∧ so_organization_id o = org ∧
  so_state o = OccurrenceState.DISPATCHED ∧
  ∃ run, so_workflow_run_id o = Some (wr_id run) ∧ run ∈ db_runs (w_db w') ∧ wr_organization_id run = org ∧
    wr_version_id run = so_workflow_version_id (oc_occurrence c) ∧
    wr_idempotency_key run = Some (so_p14_idempotency_key (oc_occurrence c)).
Proof. intros Hr H. by apply (dispatch_ran _ _ _ _ cs) in H as (_ & H). Qed.

(** A dispatch that is repeated does not start the workflow twice: when a worker
    started the run and died before recording it, a later dispatch under the same
    claim, after any steps of the workflow engine and of its environment, records
    the same run. *)
Theorem redispatch_same_run fingerprint fingerprint' org c corr w cs run w1 w2 cs2 o w3 :
  reachable (mkSystem w cs) →
  WorkflowService.start_run fingerprint org (dispatch_request c corr) w = (Ok run, w1) →
  rtc sys_step (mkSystem w1 cs) (mkSystem w2 cs2) →
  dispatch_claim fingerprint' org c w2 = (Ok o, w3) →
  so_workflow_run_id o = Some (wr_id run).
Proof.
  intros Hr Hst Hs Hd. apply (ran_service_start _ _ _ _ cs) in Hst as (Hs1 & Hin & Ho & Hv & Hk); [|done].
  assert (Hr1 : reachable (mkSystem w1 cs)) by (by eapply reachable_steps).
  assert (Hr2 : reachable (mkSystem w2 cs2)) by (by eapply reachable_steps).
  apply (dispatch_ran _ _ _ _ cs2) in Hd as (Hs2 & _ & _ & _ & _ & run' & -> & Hin' & Ho' & Hv' & Hk'); [|done].
  assert (Hs3 : rtc sys_step (mkSystem w1 cs) (mkSystem w3 cs2)) by (by etrans).
  assert (Hr3 : reachable (mkSystem w3 cs2)) by (by eapply reachable_steps).
  destruct (steps_run (mkSystem w1 cs) (mkSystem w3 cs2) run) as (run2 & Hin2 & Hs4); [done..|].
  unfold same_run, run_identity in Hs4. injection Hs4 as E1 E2 _ E4 _ E6 E7 _.
  specialize (Hk _ eq_refl). cbn in Hv.
  assert (run' = run2) as ->; [|congruence].
  apply (ti_keys _ _ (proj1 (reachable_inv _ Hr3)) run' run2 (so_p14_idempotency_key (oc_occurrence c)));
    cbn; congruence || done.
Qed.

(** ** Failed dispatches *)

Lemma squiet_modify (f : DB → DB) :
  (∀ d, db_schedules (f d) = db_schedules d ∧ db_occurrences (f d) = db_occurrences d) → squiet (modify_db f).
Proof. intros Hf w a w' [= _ <-]. destruct (Hf (w_db w)). split_and!; cbn; done || lia. Qed.

Lemma squiet_run_transition org run step t r s f : squiet (add_transition org run step t r s f).
Proof. unfold add_transition. squietness. intros. by apply squiet_modify. Qed.

Lemma squiet_transition_row org row t r : squiet (transition_row org row t r).
Proof.
  unfold transition_row, put_run. cbv zeta. squietness; intros; try (by apply squiet_modify); apply squiet_run_transition.
Qed.

Lemma squiet_start_step org run sp : squiet (start_step org run sp).
Proof.
  unfold start_step, version_step_id. cbv zeta. squietness; intros; try (by apply squiet_modify); apply squiet_run_transition.
Qed.

Lemma squiet_start_run org v i k f c : squiet (WorkflowRepository.start_run org v i k f c).
Proof.
  unfold WorkflowRepository.start_run, run_by_idempotency, insert_run. cbv zeta.
  squietness; intros; try (by apply squiet_modify); [apply squiet_transition_row|apply squiet_start_step].
Qed.

Lemma squiet_guard org : squiet (execution_guard org).
Proof. intros w a w' ->%ran_guard. done. Qed.

Lemma start_txn_same org v request print w :
  same_sched w (snd (WorkflowService.start_txn org v request print w)).
Proof.
  unfold WorkflowService.start_txn, execution_transaction. apply txn_same; [monotonicity|].
  unfold run_event, step_event, WorkflowRepository.list_steps. apply squiet_bind; [apply squiet_guard|]. intros _.
  apply squiet_bind; [apply squiet_start_run|]. intros [run created]. squietness.
Qed.

(** Starting a run is a step of the scheduler's environment. *)
Lemma service_start_same fingerprint org request w :
  same_sched w (snd (WorkflowService.start_run fingerprint org request w)).
Proof.
  unfold WorkflowService.start_run. pose proof (get_version_same org (sw_workflow_version_id request) w) as Hv.
  unfold mbind at 1, M_bind at 1.
  destruct (WorkflowService.get_version _ _ w) as [[v|e] w1]; [|exact Hv]. cbn [snd] in Hv.
  etrans; [exact Hv|]. unfold try_with.
  pose proof (start_txn_same org v request (fingerprint (ver_id v) (sw_input request)) w1) as Hs.
  destruct (WorkflowService.start_txn _ _ _ _ w1) as [[r|e] w2]; [exact Hs|]. cbn [snd] in Hs.
  etrans; [exact Hs|]. destruct e; try done. destruct (sw_idempotency_key request) as [k|]; [|done].
  assert (Hres : same_sched w2 (snd (WorkflowService.resolve_txn org v k
    (fingerprint (ver_id v) (sw_input request)) w2))).
  { unfold WorkflowService.resolve_txn, execution_transaction, run_by_idempotency.
    apply txn_same; [monotonicity|]. apply squiet_bind; [apply squiet_guard|]. squietness. }
  unfold mbind, M_bind.
  destruct (WorkflowService.resolve_txn _ _ _ _ w2) as [[[r|]|e] w3]; exact Hres.
Qed.

Lemma find_some_in {A} (p : A → bool) x l : x ∈ l → p x = true → ∃ y, List.find p l = Some y ∧ y ∈ l ∧ p y = true.
Proof.
  intros Hx Hp. destruct (List.find p l) as [y|] eqn:Hf.
  - apply List.find_some in Hf as [Hy Hpy]. exists y. split_and!; [done|by apply list_elem_of_In|done].
  - apply List.find_none with (x := x) in Hf; [congruence|by apply list_elem_of_In].
Qed.

Lemma complete_one_time_runs org s reason w : ∃ w', complete_one_time org s reason w = (Ok tt, w').
Proof.
  unfold complete_one_time. destruct (_ && _) eqn:Hb; [|by eexists].
  apply andb_true_iff in Hb as [_ Hst%bool_decide_eq_true].
  unfold transition_schedule, mbind, M_bind. cbv zeta. rewrite Hst. by eexists.
Qed.

Lemma occurrence_transition_runs org id f t r s w o :
  o ∈ db_occurrences (w_db w) → is_occurrence org id o = true →
  ∃ w', add_occurrence_transition org id f t r s w = (Ok tt, w').
Proof.
  intros Hin Ho. destruct (find_some_in _ _ _ Hin Ho) as (o' & Hf & _).
  unfold add_occurrence_transition, occurrence_row, mbind, M_bind, gets. rewrite Hf. by eexists.
Qed.

Lemma update_claimed_runs org c f w o :
  o ∈ db_occurrences (w_db w) → holds org c o = true →
  ∃ o1 w1, update_claimed org c f w = (Ok (f o1), w1) ∧ so_organization_id o1 = org ∧
    f o1 ∈ db_occurrences (w_db w1).
Proof.
  intros Hin Hh. destruct (find_some_in _ _ _ Hin Hh) as (o1 & Hf1 & Hin1 & Hh1).
  exists o1. eexists. split; [|split; [by apply holds_spec in Hh1 as (? & _)|]].
  - unfold update_claimed, mbind, M_bind, gets. rewrite Hf1. reflexivity.
  - cbn. apply list_elem_of_fmap. exists o1. split; [by rewrite Hh1|done].
Qed.

(** While the claim is held, recording a failure goes through. *)
Lemma fail_txn_runs org c error w o s :
  o ∈ db_occurrences (w_db w) → holds org c o = true →
  s ∈ db_schedules (w_db w) → is_schedule org (so_schedule_id (oc_occurrence c)) s = true →
  ∃ w' o', fail_txn org c error w = (Ok tt, w') ∧ o' ∈ db_occurrences (w_db w') ∧
    so_id o' = so_id (oc_occurrence c) ∧ so_organization_id o' = org ∧
    so_state o' = OccurrenceState.FAILED ∧ so_error_code o' = Some error.
Proof.
  intros Hin Hh Hs Hsid.
  assert (Hok : ∃ w', fail_txn org c error w = (Ok tt, w')).
  { destruct (find_some_in _ _ _ Hs Hsid) as (s1 & Hf2 & _).
    unfold fail_txn, tenant_transaction. set (w0 := set_w_txn_now _ _).
    set (now := w_clock w0 (w_reads w0)).
    set (f := λ o, set_so_updated_at now (set_so_error_code (Some error) (set_so_state OccurrenceState.FAILED o))).
    destruct (update_claimed_runs org c f (set_w_reads (S (w_reads w0)) w0) o Hin Hh) as (o1 & w1 & Hu & Ho1 & Hin1).
    destruct (occurrence_transition_runs org (so_id (f o1))
      (Some (occurrence_state_value OccurrenceState.CLAIMED)) (occurrence_state_value OccurrenceState.FAILED)
      error "WORKER" w1 (f o1)) as (w3 & Ht); [done|unfold is_occurrence; cbn; by rewrite Ho1, !N.eqb_refl|].
    destruct (complete_one_time_runs org s1 "ONE_TIME_DISPATCH_FAILED" w3) as (w4 & Hc).
    assert (Hfd : fail_dispatch org c error w0 = (Ok (f o1), w4)).
    { unfold fail_dispatch. eapply bind_runs; [unfold schedule_row, gets; reflexivity|].
      change (w_db w0) with (w_db w). rewrite Hf2. eapply bind_runs; [reflexivity|].
      eapply bind_runs; [exact Hu|]. eapply bind_runs; [exact Ht|]. by eapply bind_runs. }
    pose proof (bind_runs _ (λ failed, occurrence_event org "scheduler.occurrence.failed" failed)
      w0 _ _ tt _ Hfd eq_refl) as ->. by eexists. }
  destruct Hok as (w' & Hok). exists w'. pose proof Hok as H. apply txn_committed in H. ran H as o1 w2 Hf.
  apply squiet_occurrence_event in H as (_ & E & _).
  apply (fail_dispatch_ok id) in Hf as (_ & o0 & now & Hin0 & Hh0 & -> & El).
  eexists. split; [done|]. rewrite E, El. split.
  { apply list_elem_of_fmap. exists o0. split; [by rewrite Hh0|done]. }
  by apply holds_spec in Hh0 as (? & ? & _).
Qed.

Lemma begin_committed org c w w1 :
  begin_txn org c w = (Ok tt, w1) →
  db_schedules (w_db w1) = db_schedules (w_db w) ∧
  ∃ o, o ∈ db_occurrences (w_db w1) ∧ holds org c o = true.
Proof.
  intros H. apply txn_committed in H. unfold begin_dispatch in H. ran H as now w2 Hn. injection Hn as <- <-.
  ran H as o w3 Hu. apply ran_update_claimed in Hu as (o0 & Hin0 & Hh & -> & ->). injection H as <-.
  split; [done|]. eexists. split.
  { cbn. apply list_elem_of_fmap. exists o0. by split; [rewrite Hh|]. }
  exact Hh.
Qed.

(** A workflow start that fails is recorded: when the dispatch has begun and
    [start_run] raises any error of the platform, the occurrence becomes FAILED
    with that error's code and the caller gets [ScheduleDispatchFailedError]; the
    occurrence is not left CLAIMED. *)
Theorem dispatch_failure_recorded fingerprint org c w w1 exc w2 s :
  begin_txn org c w = (Ok tt, w1) →
  WorkflowService.start_run fingerprint org (dispatch_request c (w_correlation w1)) w1 = (Err (Nxs exc), w2) →
  s ∈ db_schedules (w_db w) → is_schedule org (so_schedule_id (oc_occurrence c)) s = true →
  ∃ w' o, dispatch_claim fingerprint org c w = (Err (Nxs (ScheduleErr ScheduleDispatchFailedError)), w') ∧
    o ∈ db_occurrences (w_db w') ∧ so_id o = so_id (oc_occurrence c) ∧ so_organization_id o = org ∧
    so_state o = OccurrenceState.FAILED ∧ so_error_code o = Some (code exc).
Proof.
  intros Hb Hst Hs Hsid. destruct (begin_committed _ _ _ _ Hb) as (E1 & o & Hin & Hh).
  pose proof (service_start_same fingerprint org (dispatch_request c (w_correlation w1)) w1) as Hsame.
  rewrite Hst in Hsame. destruct Hsame as (E2 & E3 & _). cbn [snd] in E2, E3.
  rewrite <- E1, <- E2 in Hs. rewrite <- E3 in Hin.
  destruct (fail_txn_runs org c (code exc) w2 o s Hin Hh Hs Hsid) as (w' & o' & Hf & Ho').
  exists w', o'. split; [|exact Ho'].
  unfold dispatch_claim, mbind, M_bind, gets, try_with. rewrite Hb, Hst. unfold mbind, M_bind. by rewrite Hf.
Qed.

(** ** The theorems at the executions of [SchedulerDemo] *)

Definition demo_print (version : uuid) (input : list (string * json)) : string := "print".

Lemma demo_core_reachable w :
  core (w_db demo_published) = core (w_db w) → (w_next_uuid demo_published ≤ w_next_uuid w)%N →
  reachable (mkSystem w []).
Proof.
  intros Hc Hn. eapply reachable_steps; [apply demo_published_reachable|]. by apply env_step.
Qed.

Lemma once_claimed_engine : reachable (mkSystem (snd once_claimed) []).
Proof. apply demo_core_reachable; vm_compute; [reflexivity|discriminate]. Qed.

Lemma once_begun_engine : reachable (mkSystem (snd once_begun) []).
Proof. apply demo_core_reachable; vm_compute; [reflexivity|discriminate]. Qed.

Definition once_dispatch := dispatch_claim demo_print demo_org once_claim (snd once_claimed).

Definition once_result : SchedulerOccurrenceRecord :=
  match fst once_dispatch with Ok o => o | Err _ => no_occurrence end.

Lemma once_dispatch_ok :
  dispatch_claim demo_print demo_org once_claim (snd once_claimed) = (Ok once_result, snd once_dispatch).
Proof. vm_compute. reflexivity. Qed.

Lemma dispatch_names_its_run_witness :
  so_state once_result = OccurrenceState.DISPATCHED ∧
  ∃ run, so_workflow_run_id once_result = Some (wr_id run) ∧ run ∈ db_runs (w_db (snd once_dispatch)) ∧
    wr_organization_id run = demo_org ∧
    wr_version_id run = so_workflow_version_id (oc_occurrence once_claim) ∧
    wr_idempotency_key run = Some (so_p14_idempotency_key (oc_occurrence once_claim)).
Proof.
  exact (proj2 (proj2 (proj2 (dispatch_names_its_run demo_print demo_org once_claim (snd once_claimed) []
    once_result (snd once_dispatch) once_claimed_engine once_dispatch_ok)))).
Defined.

(** The worker dies after the start; the claim is dispatched again. *)
Definition once_started :=
  WorkflowService.start_run demo_print demo_org (dispatch_request once_claim None) (snd once_begun).

Definition once_run : WorkflowRunRecord :=
  match fst once_started with Ok r => r | Err _ => demo_run end.

Lemma once_started_ok :
  WorkflowService.start_run demo_print demo_org (dispatch_request once_claim None) (snd once_begun)
  = (Ok once_run, snd once_started).
Proof. vm_compute. reflexivity. Qed.

Definition once_again := dispatch_claim demo_print demo_org once_claim (snd once_started).

Definition again_result : SchedulerOccurrenceRecord :=
  match fst once_again with Ok o => o | Err _ => no_occurrence end.

Lemma once_again_ok :
  dispatch_claim demo_print demo_org once_claim (snd once_started) = (Ok again_result, snd once_again).
Proof. vm_compute. reflexivity. Qed.

Lemma redispatch_same_run_witness :
  so_workflow_run_id again_result = Some (wr_id once_run) ∧ length (db_runs (w_db (snd once_again))) = 1%nat.
Proof.
  split; [|vm_compute; reflexivity].
  exact (redispatch_same_run demo_print demo_print demo_org once_claim None (snd once_begun) [] once_run
    (snd once_started) (snd once_started) [] again_result (snd once_again) once_begun_engine once_started_ok
    (rtc_refl _ _) once_again_ok).
Defined.

(** A worker of cell 5 dispatches for a tenant that was never placed. *)
Definition unplaced : World :=
  let w := snd once_claimed in
  mkWorld (w_clock w) (w_reads w) (w_txn_now w) (w_next_uuid w) (w_correlation w) (w_service_name w)
    (Some 5%N) None (w_db w) (w_calls w).

Definition unplaced_begun : World := snd (begin_txn demo_org once_claim unplaced).

Definition unplaced_failed : World :=
  snd (WorkflowService.start_run demo_print demo_org (dispatch_request once_claim None) unplaced_begun).

Lemma unplaced_begun_ok : begin_txn demo_org once_claim unplaced = (Ok tt, unplaced_begun).
Proof. vm_compute. reflexivity. Qed.

Lemma unplaced_start :
  WorkflowService.start_run demo_print demo_org (dispatch_request once_claim (w_correlation unplaced_begun))
    unplaced_begun = (Err (Nxs (CellErr PlacementRequiredError)), unplaced_failed).
Proof. vm_compute. reflexivity. Qed.

Definition unplaced_schedule : SchedulerScheduleRecord := hd no_schedule (db_schedules (w_db unplaced)).

Lemma unplaced_schedule_in : unplaced_schedule ∈ db_schedules (w_db unplaced).
Proof.
  assert (db_schedules (w_db unplaced) = [unplaced_schedule]) as -> by (vm_compute; reflexivity). by constructor.
Qed.

Lemma dispatch_failure_recorded_witness :
  ∃ w' o, dispatch_claim demo_print demo_org once_claim unplaced =
      (Err (Nxs (ScheduleErr ScheduleDispatchFailedError)), w') ∧
    o ∈ db_occurrences (w_db w') ∧ so_id o = so_id (oc_occurrence once_claim) ∧
    so_organization_id o = demo_org ∧ so_state o = OccurrenceState.FAILED ∧
    so_error_code o = Some (code (CellErr PlacementRequiredError)).
Proof.
  exact (dispatch_failure_recorded demo_print demo_org once_claim unplaced unplaced_begun
    (CellErr PlacementRequiredError) unplaced_failed unplaced_schedule unplaced_begun_ok unplaced_start
    unplaced_schedule_in ltac:(vm_compute; reflexivity)).
Defined.
