(* ===== verification/SchedulerMisfire.v ===== *)
(** * SchedulerMisfire: no elapsed slot is lost silently

    What [materialize_due] does with the slots that passed while nobody looked: each
    is materialised or accounted for, once per revision. The last section shows two
    ways in which a one-time schedule does not fire exactly once. *)

From S2P Require Import Prelude.
From S2P Require Import Errors.
From S2P Require Import Lifecycles.
From S2P Require Import ScheduleSpec.
From S2P Require Import Calendar.
From S2P Require Import Recurrence.
From S2P Require Import RecurrenceLaws.
From S2P Require Import Store.
From S2P Require Import StoreLemmas.
From S2P Require Import Identity.
From S2P Require Import SchedulerRepository.
From S2P Require Import SchedulerService.
From S2P Require Import SchedulerInvariant.
From S2P Require Import SchedulerOps.
From S2P Require Import SchedulerSteps.
From S2P Require Import SchedulerMaterialize.
From S2P Require Import SchedulerSystem.
From S2P Require Import WorkflowDemo.
From S2P Require Import SchedulerDemo.

(** ** The history only grows *)

Abbreviation history w := (db_schedule_history (w_db w)).

Definition grows {A} (m : M A) : Prop :=
  ∀ w a w', m w = (Ok a, w') → ∃ more, history w' = history w ++ more.

Lemma grows_same {A} (m : M A) :
  (∀ w a w', m w = (Ok a, w') → history w' = history w) → grows m.
Proof. intros Hm w a w' H. exists []. rewrite app_nil_r. by eapply Hm. Qed.

Lemma grows_bind {A B} (m : M A) (f : A → M B) : grows m → (∀ a, grows (f a)) → grows (m ≫= f).
Proof.
  intros Hm Hf w b w' H. ran H as a w1 Ha. apply Hm in Ha as (l1 & E1). apply Hf in H as (l2 & E2).
  exists (l1 ++ l2). by rewrite E2, E1, app_assoc.
Qed.

Lemma grows_history h : grows (add_history h).
Proof. intros w a w' [= _ <-]. by exists [h]. Qed.

Lemma grows_pure {A} (m : M A) : (∀ w, w_db (snd (m w)) = w_db w) → grows m.
Proof. intros Hm. apply grows_same. intros w a w' H. specialize (Hm w). rewrite H in Hm. cbn in Hm. by rewrite Hm. Qed.

Lemma grows_put_schedule row : grows (put_schedule row).
Proof. apply grows_same. by intros w a w' [= _ <-]. Qed.

Ltac growth :=
  repeat (intros; lazymatch goal with
  | |- grows (_ ≫= _) => apply grows_bind
  | |- grows (match ?x with _ => _ end) => destruct x
  | |- grows (add_history _) => apply grows_history
  | |- grows (put_schedule _) => apply grows_put_schedule
  | |- grows _ => apply grows_pure; reflexivity
  end).

Lemma grows_transition org row t r s : grows (transition_schedule org row t r s).
Proof. unfold transition_schedule, add_schedule_transition. cbv zeta. growth. Qed.

Lemma grows_flush row row' : grows (flush_next row row').
Proof. unfold flush_next. growth. Qed.

(** ** Accounting *)

(** What is recorded for the omitted slots of a schedule. *)
Definition accounted (org : uuid) (row : SchedulerScheduleRecord) (count : Z) (w : World) : Prop :=
  ∃ h d, h ∈ history w ∧ sh_organization_id h = org ∧ sh_schedule_id h = ss_id row ∧ sh_detail h = Some d ∧
    md_schedule_revision d = ss_revision row ∧ md_policy d = ss_misfire_policy row ∧
    md_accounted_count d = count ∧ md_coalesced_count d + md_skipped_count d = count.

Section misfire.
Context (zoneinfo : string → option ZoneInfo).
Context (digest : string → string).

Lemma ran_accounting org row omitted reason w b w' :
  omitted ≠ [] → record_misfire_accounting digest org row omitted reason w = (Ok b, w') →
  accounted org row (Z.of_nat (length omitted)) w'.
Proof.
  intros Hne. unfold record_misfire_accounting. destruct omitted as [|s0 omitted]; [done|]. cbn [head].
  destruct (last (s0 :: omitted)) as [s1|] eqn:Hlast; [|by apply last_None in Hlast].
  intros H. ran H as key w1 Hk. injection Hk as _ <-. cbv zeta in H. ran H as d w2 Hd. injection Hd as <- <-.
  set (detail := misfire_detail _ _ _ _ _ _) in H.
  assert (Hcount : md_coalesced_count detail + md_skipped_count detail = Z.of_nat (length (s0 :: omitted))).
  { unfold detail, misfire_detail. cbv zeta. cbn [md_coalesced_count md_skipped_count].
    destruct (bool_decide _); lia. }
  destruct (existsb _ _) eqn:Hex in H.
  - injection H as _ <-. apply existsb_exists in Hex as (h & Hin & Hh).
    rewrite !andb_true_iff, !N.eqb_eq, bool_decide_eq_true in Hh. destruct Hh as [[[H1 H2] _] H3].
    exists h, detail. split_and!; try done. by apply list_elem_of_In.
  - ran H as id w3 Hid. injection Hid as <- <-. ran H as corr w4 Hc. injection Hc as <- <-.
    ran H as now w5 Hn. injection Hn as <- <-. cbv zeta in H. ran H as u w6 Ha. injection Ha as _ <-.
    injection H as _ <-. eexists _, detail. split_and!; [apply elem_of_app; right; by apply list_elem_of_singleton|done..].
Qed.

Lemma accounted_grows {A} (m : M A) org row count w a w' :
  grows m → m w = (Ok a, w') → accounted org row count w → accounted org row count w'.
Proof.
  intros Hm H (h & d & Hin & Hrest). apply Hm in H as (more & E). exists h, d. split; [|done].
  rewrite E. apply elem_of_app. by left.
Qed.

(** How a policy divides the elapsed slots: which are kept, which are left out. *)
Definition divides (row : SchedulerScheduleRecord) (remaining : Z) (slots kept lost : list TemporalSlot) : Prop :=
  let n := length slots in
  match ss_misfire_policy row with
  | MisfirePolicy.SKIP => slots = lost ++ kept ∧ length kept = Nat.min n (Z.to_nat remaining)
  | MisfirePolicy.FIRE_ONCE => slots = lost ++ kept ∧ length kept = Nat.min n 1
  | MisfirePolicy.CATCH_UP_BOUNDED =>
      slots = kept ++ lost ∧
      length kept = Nat.min n (Nat.min (Z.to_nat (ss_max_catch_up row)) (Z.to_nat remaining))
  end.

Lemma select_divides row remaining slots :
  let sel := select_slots (ss_misfire_policy row) (ss_max_catch_up row) remaining slots in
  divides row remaining slots (selected sel) (omitted sel).
Proof.
  unfold divides. pose proof (select_partition (ss_misfire_policy row) (ss_max_catch_up row) remaining slots) as Hp.
  cbv zeta in Hp |- *. destruct (ss_misfire_policy row); cbn in Hp |- *;
    (split; [by rewrite Hp|]); rewrite ?length_drop, ?length_take; lia.
Qed.

(** C20. No elapsed slot is lost silently. When a due schedule is materialised, its
    misfire policy divides the elapsed slots: SKIP keeps the latest ones (as
    SKIPPED), FIRE_ONCE only the last, CATCH_UP_BOUNDED the earliest up to its bound
    and the rest of the batch. Every kept slot becomes one occurrence, in order, and
    if any slot is left out the history holds an entry with its count. *)
Theorem misfires_are_accounted org now remaining row w created w' :
  row ∈ db_schedules (w_db w) → ss_organization_id row = org → ss_state row = ScheduleState.ACTIVE →
  materialize_row zoneinfo digest org now remaining row w = (Ok created, w') →
  ∃ slots next kept lost, elapsed_slots zoneinfo row now = Ok (slots, next) ∧
    divides row remaining slots kept lost ∧
    Forall2 (created_from org row (terminal_of (ss_misfire_policy row))) kept created ∧
    db_occurrences (w_db w') = db_occurrences (w_db w) ++ created ∧
    (lost = [] ∨ accounted org row (Z.of_nat (length lost)) w').
Proof.
  intros Hin Ho Hst Hm. pose proof Hm as H. apply ran_materialize_row in Hm as (_ & [Eocc (slots & next & Hel & Hcf & _) _]); [|done..].
  exists slots, next. eexists _, _. split; [exact Hel|]. split; [apply select_divides|].
  split; [exact Hcf|]. split; [exact Eocc|].
  unfold materialize_row in H. ran H as due w1 Hd. injection Hd as Hd <-. rewrite Hel in Hd. injection Hd as <-.
  destruct (select_slots _ _ _ slots) as [[sel om] [[term reason] acc]] eqn:Hsel. cbn [omitted fst snd].
  ran H as os w2 Hc. ran H as b w3 Ha. ran H as u w4 Hf. injection H as _ <-.
  destruct om as [|s om]; [by left|]. right. cbn [is_nil] in Ha.
  apply ran_accounting in Ha; [|done].
  eapply accounted_grows; [|exact Hf|exact Ha]. growth; apply grows_flush || apply grows_transition.
Qed.
End misfire.

Definition daily_row : SchedulerScheduleRecord := hd no_schedule (db_schedules (w_db (snd daily_active))).

Definition daily_row_done :=
  materialize_row tz_demo (λ s, s) demo_org noon 10 daily_row (snd daily_active).

Definition daily_row_created : list SchedulerOccurrenceRecord :=
  match fst daily_row_done with Ok l => l | Err _ => [] end.

Lemma daily_row_ok :
  materialize_row tz_demo (λ s, s) demo_org noon 10 daily_row (snd daily_active) =
  (Ok daily_row_created, snd daily_row_done).
Proof. vm_compute. reflexivity. Qed.

Lemma daily_row_in : daily_row ∈ db_schedules (w_db (snd daily_active)).
Proof.
  assert (db_schedules (w_db (snd daily_active)) = [daily_row]) as -> by (vm_compute; reflexivity). by constructor.
Qed.

Lemma misfires_are_accounted_witness :
  length daily_row_created = 2%nat ∧
  ∃ slots next kept lost, elapsed_slots tz_demo daily_row noon = Ok (slots, next) ∧
    divides daily_row 10 slots kept lost ∧
    Forall2 (created_from demo_org daily_row (terminal_of (ss_misfire_policy daily_row))) kept daily_row_created ∧
    db_occurrences (w_db (snd daily_row_done)) = db_occurrences (w_db (snd daily_active)) ++ daily_row_created ∧
    (lost = [] ∨ accounted demo_org daily_row (Z.of_nat (length lost)) (snd daily_row_done)).
Proof.
  split; [vm_compute; reflexivity|].
  exact (misfires_are_accounted tz_demo (λ s, s) demo_org noon 10 daily_row (snd daily_active) daily_row_created
    (snd daily_row_done) daily_row_in ltac:(vm_compute; reflexivity) ltac:(vm_compute; reflexivity) daily_row_ok).
Defined.

(** ** Once per revision *)

(** A slot is materialised at most once per revision of its schedule: two
    occurrences of a schedule that agree on revision, timezone, local time and fold
    are the same row, in every reachable state. *)
Theorem slot_materialised_once dep w o o' :
  sched_reachable dep w → o ∈ db_occurrences (w_db w) → o' ∈ db_occurrences (w_db w) →
  so_organization_id o = so_organization_id o' → so_schedule_id o = so_schedule_id o' →
  so_schedule_revision o = so_schedule_revision o' → so_timezone o = so_timezone o' →
  so_intended_local_time o = so_intended_local_time o' → so_fold o = so_fold o' → o = o'.
Proof.
  intros HI%sched_reachable_inv Ho Ho' E1 E2 E3 E4 E5 E6.
  pose proof (oo_key _ _ _ (si_occ_ok _ _ _ HI o Ho)) as K. pose proof (oo_key _ _ _ (si_occ_ok _ _ _ HI o' Ho')) as K'.
  rewrite E2, E3, E4, E5, E6, K' in K. injection K as K.
  apply (NoDup_map_inj occurrence_identity (db_occurrences (w_db w))); [apply HI|done..|].
  unfold occurrence_identity. congruence.
Qed.

Definition daily_first : SchedulerOccurrenceRecord := hd no_occurrence (db_occurrences (w_db (snd daily_due))).

Lemma daily_first_in : daily_first ∈ db_occurrences (w_db (snd daily_due)).
Proof.
  assert (Hl : db_occurrences (w_db (snd daily_due)) = daily_first :: tl (db_occurrences (w_db (snd daily_due))))
    by (vm_compute; reflexivity).
  rewrite Hl. by constructor.
Qed.

Lemma slot_materialised_once_witness :
  daily_first = daily_first ∧ length (db_occurrences (w_db (snd daily_due))) = 2%nat.
Proof.
  split; [|vm_compute; reflexivity].
  exact (slot_materialised_once demo_deployment (snd daily_due) daily_first daily_first daily_due_reachable
    daily_first_in daily_first_in eq_refl eq_refl eq_refl eq_refl eq_refl eq_refl).
Defined.

(** ** One-time schedules do not fire exactly once *)

(** A one-time schedule can be lost. [materialize_due] reads [now] before it
    selects the due rows by a later reading of the clock; a one-time schedule whose
    time falls between the two readings is selected, has no elapsed slot at [now],
    yet its next fire time is cleared: no occurrence exists and it is never due
    again while it stays ACTIVE. *)
Theorem one_time_schedule_lost zoneinfo digest org now remaining row fire local zone reading w :
  ss_schedule_type row = ScheduleType.ONE_TIME → ss_state row = ScheduleState.ACTIVE →
  ss_next_fire_at row = Some fire → ss_next_local_time row = Some local →
  zoneinfo (ss_timezone row) = Some zone → to_local zone fire = Ok reading → now < fire →
  ∃ w', materialize_row zoneinfo digest org now remaining row w = (Ok [], w') ∧
    db_occurrences (w_db w') = db_occurrences (w_db w) ∧
    ∀ row', row' ∈ db_schedules (w_db w') → ss_id row' = ss_id row →
      ss_state row' = ScheduleState.ACTIVE ∧ ∀ t, is_due org t row' = false.
Proof.
  intros Htype Hst Hf Hl Hz Hrd Hnow.
  assert (Hel : elapsed_slots zoneinfo row now = Ok ([], Some {| intended_local_time := local; scheduled_for := fire;
    utc_offset_seconds := whole_seconds (offset_at zone fire); fold := 0; nonexistent := negb (reading =? local) |})).
  { unfold elapsed_slots, zone_of, stored_slot. rewrite Hf, Hl, Hz. unfold of_option, mbind, result_bind.
    rewrite Hrd. assert (Hpos : (0 < MAX_SEARCH_STEPS)%nat) by (unfold MAX_SEARCH_STEPS; lia).
    destruct MAX_SEARCH_STEPS as [|fuel]; [lia|]. cbn [elapsed_loop scheduled_for].
    by rewrite (proj2 (Z.ltb_lt now fire)). }
  set (row' := set_ss_updated_at (w_txn_now w) (set_next None row)).
  assert (Hfl : flush_next row (set_next None row) w =
    (Ok tt, snd (put_schedule row' w))).
  { unfold flush_next. eapply bind_runs; [reflexivity|]. rewrite Hf, bool_decide_eq_false_2 by done. done. }
  exists (snd (put_schedule row' w)). split_and!; [|done|].
  - unfold materialize_row. eapply bind_runs; [unfold lift; rewrite Hel; reflexivity|].
    assert (Hsel : ∃ r, select_slots (ss_misfire_policy row) (ss_max_catch_up row) remaining [] = ([], [], r))
      by (destruct (ss_misfire_policy row); by eexists).
    destruct Hsel as ([[term reason] acc] & ->). eapply bind_runs; [reflexivity|].
    eapply bind_runs; [reflexivity|]. rewrite bool_decide_eq_true_2 by done. by eapply bind_runs.
  - intros r Hr Hid. cbn in Hr. apply update_where_elem in Hr as (r0 & _ & [[-> Hne]|[-> _]]).
    + apply N.eqb_neq in Hne. by destruct Hne.
    + split; [exact Hst|]. intros t. unfold is_due. cbn. by rewrite andb_false_r.
Qed.

(** The schedule fires at the reading of the clock at which its row is selected, one
    microsecond after the reading taken as [now]. *)
Definition late_request (n : nat) : CreateScheduleRequest := {|
  cs_schedule_key := "late"; cs_target_type := "START_WORKFLOW";
  cs_workflow_version_id := cs_workflow_version_id once_request; cs_schedule_type := ScheduleType.ONE_TIME;
  cs_timezone := "America/New_York"; cs_start_at := noon + Z.of_nat n; cs_end_at := None;
  cs_recurrence := None; cs_input := []; cs_misfire_policy := MisfirePolicy.FIRE_ONCE;
  cs_max_catch_up := 1; cs_correlation_id := None |}.

Definition late_active (n : nat) : World :=
  let created := create_schedule "2024a" demo_org (late_request n) sched_world in
  let id := match fst created with Ok s => ss_id s | Err _ => 0%N end in
  snd (activate_schedule tz_demo demo_org id (snd created)).

Definition late_reads : nat := S (S (w_reads (late_active 0))).

Definition late_world : World := late_active late_reads.

Definition late_row : SchedulerScheduleRecord := hd no_schedule (db_schedules (w_db late_world)).

(** The whole call: it succeeds, creates nothing and disarms the schedule. *)
Example late_schedule_lost :
  is_due demo_org (w_clock late_world late_reads) late_row = true ∧
  fst (materialize_due tz_demo (λ s, s) demo_org 10 late_world) = Ok [] ∧
  schedule_view (snd (materialize_due tz_demo (λ s, s) demo_org 10 late_world)) =
    [(ScheduleState.ACTIVE, 2, None)].
Proof. vm_compute. split_and!; reflexivity. Qed.

Definition late_local : Z := noon + Z.of_nat late_reads - 4 * HOUR.

Lemma late_row_fields :
  ss_schedule_type late_row = ScheduleType.ONE_TIME ∧ ss_state late_row = ScheduleState.ACTIVE ∧
  ss_next_fire_at late_row = Some (noon + Z.of_nat late_reads) ∧ ss_next_local_time late_row = Some late_local ∧
  ss_timezone late_row = "America/New_York"%string ∧
  to_local new_york (noon + Z.of_nat late_reads) = Ok late_local ∧
  w_clock late_world (S (w_reads late_world)) < noon + Z.of_nat late_reads.
Proof. vm_compute. split_and!; reflexivity. Qed.

Lemma late_zone : tz_demo (ss_timezone late_row) = Some new_york.
Proof. destruct late_row_fields as (_ & _ & _ & _ & -> & _). reflexivity. Qed.

Lemma one_time_schedule_lost_witness :
  ∃ w', materialize_row tz_demo (λ s, s) demo_org (w_clock late_world (S (w_reads late_world))) 10 late_row late_world
          = (Ok [], w') ∧
    db_occurrences (w_db w') = db_occurrences (w_db late_world) ∧
    ∀ row', row' ∈ db_schedules (w_db w') → ss_id row' = ss_id late_row →
      ss_state row' = ScheduleState.ACTIVE ∧ ∀ t, is_due demo_org t row' = false.
Proof.
  destruct late_row_fields as (H1 & H2 & H3 & H4 & _ & H6 & H7).
  exact (one_time_schedule_lost tz_demo (λ s, s) demo_org (w_clock late_world (S (w_reads late_world))) 10 late_row
    (noon + Z.of_nat late_reads) late_local new_york late_local late_world H1 H2 H3 H4 late_zone H6 H7).
Defined.

(** A materialised one-time schedule, paused and resumed before its occurrence is
    claimed. *)
Definition once_resumed : World :=
  let paused := snd (pause_schedule demo_org (ss_id once_schedule) (snd once_due)) in
  snd (resume_schedule tz_demo demo_org (ss_id once_schedule) paused).

Definition once_rematerialized : World :=
  snd (materialize_due tz_demo (λ s, s) demo_org 10 once_resumed).

(** A one-time schedule can fire twice. [resume_schedule] recomputes the first slot
    whenever no next fire time is stored, also when that slot was materialised
    before; the new revision gives the slot a new occurrence key. A one-time
    schedule paused and resumed after it was materialised has two PENDING
    occurrences for the same instant. *)
Theorem one_time_fires_twice :
  sched_reachable demo_deployment once_rematerialized ∧
  map (λ o, (so_schedule_id o, so_state o, so_scheduled_for o, so_schedule_revision o))
    (db_occurrences (w_db once_rematerialized)) =
  [(ss_id once_schedule, OccurrenceState.PENDING, at_time 2024 3 12 11 0, 2);
   (ss_id once_schedule, OccurrenceState.PENDING, at_time 2024 3 12 11 0, 4)].
Proof.
  split; [|vm_compute; reflexivity].
  eapply sched_reachable_step; [|apply (st_materialize demo_deployment demo_org _ 10)].
  eapply sched_reachable_step; [|apply (st_resume demo_deployment demo_org)].
  eapply sched_reachable_step; [apply once_due_reachable|apply (st_pause demo_deployment demo_org)].
Qed.
