(* ===== verification/CampaignRepository.v ===== *)
(** * CampaignRepository: durable campaigns

    The operations of [domain/campaigns/repository.py] on the tables of
    [CampaignStore], each the whole method: the guards it evaluates in their order,
    the rows it writes, the transition history it appends. A row object that is
    assigned is written back under its primary key, and [onupdate=func.now()] stamps
    it with the transaction's timestamp. Unique constraints raise IntegrityError, as
    do the foreign keys into the customer tables. [locked] are the rows other
    transactions hold, which [SKIP LOCKED] passes over. Parameters: SHA-256
    ([digest]), the canonical JSON of a dumped draft and of its audience, and the
    timezone database. *)

From stdpp Require Import pretty.
From S2P Require Import Prelude.
From S2P Require Import PyText.
From S2P Require Import Errors.
From S2P Require Import Lifecycles.
From S2P Require Import Conditions.
From S2P Require Import ScheduleSpec.
From S2P Require Import Calendar.
From S2P Require Import Recurrence.
From S2P Require Import MessagingStore.
From S2P Require Import CustomerStore.
From S2P Require Import CampaignStore.
From S2P Require Import Store.
From S2P Require Import Identity.

Definition InvalidState : exn := Nxs (CampaignErr CampaignInvalidStateError).

Definition Fenced : exn := Nxs (CampaignErr CampaignExecutionFencedError).

(** ** Values of the enumerations *)

Definition channel_value (c : MessageChannel) : string :=
  match c with
  | MessageChannel.WHATSAPP => "WHATSAPP"
  | MessageChannel.EMAIL => "EMAIL"
  | MessageChannel.SMS => "SMS"
  end.

Definition campaign_state_value (s : CampaignState) : string :=
  match s with
  | CampaignState.DRAFT => "DRAFT"
  | CampaignState.PREPARING => "PREPARING"
  | CampaignState.READY => "READY"
  | CampaignState.SCHEDULED => "SCHEDULED"
  | CampaignState.RUNNING => "RUNNING"
  | CampaignState.PAUSED => "PAUSED"
  | CampaignState.CANCELLING => "CANCELLING"
  | CampaignState.COMPLETED => "COMPLETED"
  | CampaignState.FAILED => "FAILED"
  | CampaignState.CANCELLED => "CANCELLED"
  end.

Definition campaign_run_state_value (s : CampaignRunState) : string :=
  match s with
  | CampaignRunState.PENDING_RELEASE => "PENDING_RELEASE"
  | CampaignRunState.MATERIALIZING => "MATERIALIZING"
  | CampaignRunState.RUNNING => "RUNNING"
  | CampaignRunState.PAUSED => "PAUSED"
  | CampaignRunState.CANCELLING => "CANCELLING"
  | CampaignRunState.COMPLETED => "COMPLETED"
  | CampaignRunState.FAILED => "FAILED"
  | CampaignRunState.CANCELLED => "CANCELLED"
  end.

Definition attempt_state_value (s : RecipientAttemptState) : string :=
  match s with
  | RecipientAttemptState.PENDING => "PENDING"
  | RecipientAttemptState.CLAIMED => "CLAIMED"
  | RecipientAttemptState.WORKFLOW_RUNNING => "WORKFLOW_RUNNING"
  | RecipientAttemptState.READY_TO_SEND => "READY_TO_SEND"
  | RecipientAttemptState.DISPATCH_AUTHORIZED => "DISPATCH_AUTHORIZED"
  | RecipientAttemptState.DISPATCHED => "DISPATCHED"
  | RecipientAttemptState.SUPPRESSED => "SUPPRESSED"
  | RecipientAttemptState.FAILED => "FAILED"
  | RecipientAttemptState.CANCELLED => "CANCELLED"
  end.

Definition permit_state_value (s : SendPermitState) : string :=
  match s with
  | SendPermitState.PENDING => "PENDING"
  | SendPermitState.AUTHORIZED => "AUTHORIZED"
  | SendPermitState.CONSUMED => "CONSUMED"
  | SendPermitState.FAILED => "FAILED"
  | SendPermitState.EXPIRED => "EXPIRED"
  end.

Definition reason_value (r : EligibilityReason) : string :=
  match r with
  | EligibilityReason.ELIGIBLE => "ELIGIBLE"
  | EligibilityReason.DEFERRED_QUIET_HOURS => "DEFERRED_QUIET_HOURS"
  | EligibilityReason.SUPPRESSED_GLOBAL => "SUPPRESSED_GLOBAL"
  | EligibilityReason.SUPPRESSED_CAMPAIGN => "SUPPRESSED_CAMPAIGN"
  | EligibilityReason.NO_CONSENT => "NO_CONSENT"
  | EligibilityReason.UNSUBSCRIBED => "UNSUBSCRIBED"
  | EligibilityReason.DO_NOT_CONTACT => "DO_NOT_CONTACT"
  | EligibilityReason.CUSTOMER_INACTIVE => "CUSTOMER_INACTIVE"
  | EligibilityReason.IDENTITY_INACTIVE => "IDENTITY_INACTIVE"
  | EligibilityReason.INVALID_DESTINATION => "INVALID_DESTINATION"
  | EligibilityReason.NO_CHANNEL => "NO_CHANNEL"
  | EligibilityReason.DUPLICATE => "DUPLICATE"
  | EligibilityReason.TENANT_MISMATCH => "TENANT_MISMATCH"
  | EligibilityReason.CANCELLED => "CANCELLED"
  end.

(** ** Identities ([campaigns/identity.py]) *)

Definition recipient_canonical (organization_id campaign_id : uuid) (revision : Z)
    (run_id recipient_id : uuid) (channel : MessageChannel) : string :=
  json_object [("campaign_id", json_string (uuid_str campaign_id));
               ("channel", json_string (channel_value channel));
               ("organization_id", json_string (uuid_str organization_id));
               ("recipient_id", json_string (uuid_str recipient_id));
               ("revision", pretty revision); ("run_id", json_string (uuid_str run_id))].

Definition downstream_key (prefix logical_identity : string) : string :=
  "campaign:" +:+ prefix +:+ ":" +:+ logical_identity.

(** ** Access to the tables *)

Definition cgets {A} (f : CampaignDB → A) : M A := gets (λ w, f (db_campaign (w_db w))).

Definition cmodify (f : CampaignDB → CampaignDB) : M unit :=
  modify_db (λ d, set_db_campaign (f (db_campaign d)) d).

Definition database_now : M Z := utcnow.

(** [order_by(created_at, id)] *)
Definition created_before {A} (created : A → Z) (id : A → uuid) (a b : A) : Prop :=
  created a < created b ∨ created a = created b ∧ (id a ≤ id b)%N.
#[export] Instance created_before_dec {A} (created : A → Z) id a b :
  Decision (created_before created id a b).
Proof. unfold created_before. apply _. Defined.

Definition by_creation {A} (created : A → Z) (id : A → uuid) (l : list A) : list A :=
  merge_sort (created_before created id) l.

Definition page {A} (limit offset : Z) (l : list A) : list A :=
  take (Z.to_nat limit) (drop (Z.to_nat offset) l).

Definition is_campaign (org id : uuid) (c : CampaignRecord) : bool :=
  N.eqb (cp_organization_id c) org && N.eqb (cp_id c) id.

Definition is_revision (org id : uuid) (v : CampaignRevisionRecord) : bool :=
  N.eqb (cv_organization_id v) org && N.eqb (cv_id v) id.

Definition is_run (org id : uuid) (r : CampaignRunRecord) : bool :=
  N.eqb (rn_organization_id r) org && N.eqb (rn_id r) id.

Definition is_recipient (org id : uuid) (r : CampaignRecipientRecord) : bool :=
  N.eqb (rc_organization_id r) org && N.eqb (rc_id r) id.

Definition is_attempt (org id : uuid) (a : CampaignRecipientAttemptRecord) : bool :=
  N.eqb (ra_organization_id a) org && N.eqb (ra_id a) id.

Definition is_permit (org id : uuid) (p : CampaignSendPermitRecord) : bool :=
  N.eqb (pm_organization_id p) org && N.eqb (pm_id p) id.

Definition campaign_row (org id : uuid) : M (option CampaignRecord) :=
  cgets (λ c, List.find (is_campaign org id) (cdb_campaigns c)).

Definition revision_row (org id : uuid) : M (option CampaignRevisionRecord) :=
  cgets (λ c, List.find (is_revision org id) (cdb_revisions c)).

(** The snapshot of a revision. *)
Definition snapshot_row (org revision_id : uuid) : M (option CampaignAudienceSnapshotRecord) :=
  cgets (λ c, List.find (λ s, N.eqb (sn_organization_id s) org &&
                              N.eqb (sn_campaign_revision_id s) revision_id) (cdb_snapshots c)).

Definition run_row (org id : uuid) : M (option CampaignRunRecord) :=
  cgets (λ c, List.find (is_run org id) (cdb_runs c)).

(** [scalar_one()]: NoResultFound when there is none. *)
Definition recipient_one (org id : uuid) : M CampaignRecipientRecord :=
  found ← cgets (λ c, List.find (is_recipient org id) (cdb_recipients c));
  lift (of_option found NoResultFound).

Definition attempt_one (org id : uuid) : M CampaignRecipientAttemptRecord :=
  found ← cgets (λ c, List.find (is_attempt org id) (cdb_attempts c));
  lift (of_option found NoResultFound).

Definition permit_row (org id : uuid) : M (option CampaignSendPermitRecord) :=
  cgets (λ c, List.find (is_permit org id) (cdb_permits c)).

(** Flush of an assigned row. *)
Definition write_campaign (row : CampaignRecord) : M unit :=
  cmodify (λ c, set_cdb_campaigns
    (update_where (λ r, N.eqb (cp_id r) (cp_id row)) (λ _, row) (cdb_campaigns c)) c).

Definition put_campaign (row : CampaignRecord) : M CampaignRecord :=
  now ← txn_now;
  let row := set_cp_updated_at now row in
  _ ← write_campaign row;
  mret row.

Definition put_snapshot (row : CampaignAudienceSnapshotRecord) : M unit :=
  cmodify (λ c, set_cdb_snapshots
    (update_where (λ r, N.eqb (sn_id r) (sn_id row)) (λ _, row) (cdb_snapshots c)) c).

Definition put_recipient (row : CampaignRecipientRecord) : M unit :=
  cmodify (λ c, set_cdb_recipients
    (update_where (λ r, N.eqb (rc_id r) (rc_id row)) (λ _, row) (cdb_recipients c)) c).

Definition put_run (row : CampaignRunRecord) : M CampaignRunRecord :=
  now ← txn_now;
  let row := set_rn_updated_at now row in
  _ ← cmodify (λ c, set_cdb_runs
    (update_where (λ r, N.eqb (rn_id r) (rn_id row)) (λ _, row) (cdb_runs c)) c);
  mret row.

Definition put_attempt (row : CampaignRecipientAttemptRecord) : M CampaignRecipientAttemptRecord :=
  now ← txn_now;
  let row := set_ra_updated_at now row in
  _ ← cmodify (λ c, set_cdb_attempts
    (update_where (λ r, N.eqb (ra_id r) (ra_id row)) (λ _, row) (cdb_attempts c)) c);
  mret row.

Definition put_permit (row : CampaignSendPermitRecord) : M unit :=
  cmodify (λ c, set_cdb_permits
    (update_where (λ r, N.eqb (pm_id r) (pm_id row)) (λ _, row) (cdb_permits c)) c).

(** [transition]: no caller passes a correlation. *)
Definition transition (org : uuid) (entity_type : string) (entity_id : uuid)
    (from_state : option string) (to_state reason_code : string) : M unit :=
  id ← fresh_uuid;
  now ← txn_now;
  cmodify (λ c, set_cdb_history (cdb_history c ++ [mkCampaignTransition id org entity_type entity_id
    from_state to_state reason_code "SYSTEM" None now]) c).

Definition campaign_transition (org id : uuid) (from to : CampaignState) (reason : string) : M unit :=
  transition org "CAMPAIGN" id (Some (campaign_state_value from)) (campaign_state_value to) reason.

Definition run_transition (org id : uuid) (from to : CampaignRunState) (reason : string) : M unit :=
  transition org "RUN" id (Some (campaign_run_state_value from)) (campaign_run_state_value to) reason.

Definition attempt_transition (org id : uuid) (from to : RecipientAttemptState) (reason : string)
    : M unit :=
  transition org "ATTEMPT" id (Some (attempt_state_value from)) (attempt_state_value to) reason.

(** ** Campaigns *)

(** The unique constraint [uq_campaigns_org_key]. *)
Definition violates_campaign_key (row : CampaignRecord) (c : CampaignDB) : bool :=
  existsb (λ r, N.eqb (cp_organization_id r) (cp_organization_id row) &&
                String.eqb (cp_campaign_key r) (cp_campaign_key row)) (cdb_campaigns c).

Definition create_campaign (org : uuid) (campaign_key name : string) (draft : CampaignDraft)
    : M CampaignRecord :=
  id ← fresh_uuid;
  now ← txn_now;
  let row := mkCampaign id org campaign_key name CampaignState.DRAFT 1 draft None now now in
  c ← cgets (λ c, c);
  if violates_campaign_key row c then raise IntegrityError
  else
    _ ← cmodify (λ c, set_cdb_campaigns (cdb_campaigns c ++ [row]) c);
    _ ← transition org "CAMPAIGN" (cp_id row) None (campaign_state_value (cp_state row))
          "CAMPAIGN_CREATED";
    mret row.

(** [order_by(created_at.desc(), id)] *)
Definition list_campaigns (org : uuid) (limit offset : Z) : M (list CampaignRecord) :=
  cgets (λ c, page limit offset (by_creation (λ r, - cp_created_at r) cp_id
    (List.filter (λ r, N.eqb (cp_organization_id r) org) (cdb_campaigns c)))).

Definition update_campaign (row : CampaignRecord) (name : option string)
    (draft : option CampaignDraft) : M CampaignRecord :=
  if negb (bool_decide (cp_state row = CampaignState.DRAFT)) then raise InvalidState
  else
    let row := match name with Some name => set_cp_name name row | None => row end in
    let row := match draft with Some d => set_cp_draft_specification d row | None => row end in
    let row := set_cp_revision (cp_revision row + 1) row in
    now ← database_now;
    let row := set_cp_updated_at now row in
    _ ← write_campaign row;
    mret row.

(** ** Preparation: the immutable revision and the sealed audience *)

Section preparation.
Context (digest : string → string).
Context (canonical : CampaignDraft → string).
Context (canonical_audience : list AudienceMemberInput → string).
Context (zoneinfo : string → option ZoneInfo).

(** The unique constraints [uq_campaign_revision_number] and
    [uq_campaign_audience_revision]. *)
Definition violates_revision_number (row : CampaignRevisionRecord) (c : CampaignDB) : bool :=
  existsb (λ r, N.eqb (cv_organization_id r) (cv_organization_id row) &&
                N.eqb (cv_campaign_id r) (cv_campaign_id row) &&
                Z.eqb (cv_revision_number r) (cv_revision_number row)) (cdb_revisions c).

Definition violates_snapshot_revision (row : CampaignAudienceSnapshotRecord) (c : CampaignDB) : bool :=
  existsb (λ r, N.eqb (sn_organization_id r) (sn_organization_id row) &&
                N.eqb (sn_campaign_revision_id r) (sn_campaign_revision_id row)) (cdb_snapshots c).

Definition new_revision (org id : uuid) (row : CampaignRecord) (draft : CampaignDraft) (now : Z)
    : CampaignRevisionRecord :=
  mkRevision id org (cp_id row) (cp_revision row) (digest (canonical draft))
    (cd_release_workflow_version_id draft) (cd_recipient_workflow_version_id draft)
    (cd_account_id draft) (cd_channel draft) draft now.

Definition new_snapshot (org id revision_id : uuid) (draft : CampaignDraft) (now : Z)
    : CampaignAudienceSnapshotRecord :=
  mkSnapshot id org revision_id SnapshotState.OPEN (cd_audience_source draft)
    (cd_source_reference draft) (digest (canonical_audience (cd_audience draft))) 0 0 0 0 None now.

Definition begin_preparation (org : uuid) (row : CampaignRecord)
    : M (CampaignRevisionRecord * CampaignAudienceSnapshotRecord) :=
  _ ← lift (require_campaign_transition (cp_state row) CampaignState.PREPARING);
  let previous := cp_state row in
  let row := set_cp_state CampaignState.PREPARING row in
  let draft := cp_draft_specification row in
  now ← txn_now;
  revision_id ← fresh_uuid;
  let revision := new_revision org revision_id row draft now in
  snapshot_id ← fresh_uuid;
  let snapshot := new_snapshot org snapshot_id revision_id draft now in
  row ← put_campaign row;
  c ← cgets (λ c, c);
  if violates_revision_number revision c then raise IntegrityError
  else
    _ ← cmodify (λ c, set_cdb_revisions (cdb_revisions c ++ [revision]) c);
    _ ← campaign_transition org (cp_id row) previous (cp_state row) "CAMPAIGN_PREPARING";
    c ← cgets (λ c, c);
    if violates_snapshot_revision snapshot c then raise IntegrityError
    else
      _ ← cmodify (λ c, set_cdb_snapshots (cdb_snapshots c ++ [snapshot]) c);
      mret (revision, snapshot).

Definition active_preparation (org campaign_id : uuid) (revision_number : Z)
    : M (CampaignRevisionRecord * CampaignAudienceSnapshotRecord) :=
  found ← cgets (λ c, List.find (λ v, N.eqb (cv_organization_id v) org &&
    N.eqb (cv_campaign_id v) campaign_id && Z.eqb (cv_revision_number v) revision_number)
    (cdb_revisions c));
  match found with
  | None => raise InvalidState
  | Some revision =>
      snapshot ← snapshot_row org (cv_id revision);
      match snapshot with
      | None => raise InvalidState
      | Some snapshot =>
          if negb (bool_decide (sn_state snapshot = SnapshotState.OPEN)) then raise InvalidState
          else mret (revision, snapshot)
      end
  end.

(** ** Eligibility *)

(** [_policy_epoch]: read, or created with epoch 1. *)
Definition policy_epoch (org : uuid) (channel : MessageChannel) : M CampaignPolicyEpochRecord :=
  found ← cgets (λ c, List.find (λ e, N.eqb (pe_organization_id e) org &&
                                     bool_decide (pe_channel e = channel)) (cdb_epochs c));
  match found with
  | Some row => mret row
  | None =>
      id ← fresh_uuid;
      now ← txn_now;
      let row := mkEpoch id org channel 1 now in
      _ ← cmodify (λ c, set_cdb_epochs (cdb_epochs c ++ [row]) c);
      mret row
  end.

(** [start <= current < end] on the clock face, wrapping around midnight. *)
Definition in_quiet_hours (policy : QuietHoursPolicy) (current : Z) : bool :=
  let start := qh_start_local policy in
  let finish := qh_end_local policy in
  ((start <? finish) && (start <=? current) && (current <? finish)) ||
  ((finish <=? start) && ((start <=? current) || (current <? finish))).

Definition quiet_hours_next (now : Z) (policy : QuietHoursPolicy) : result exn (option Z) :=
  if negb (qh_enabled policy) then Ok None
  else
    zone ← zone_of zoneinfo (qh_timezone policy);
    local ← to_local zone now;
    let current := time_of local in
    if negb (in_quiet_hours policy current) then Ok None
    else
      end_day ← (if (qh_end_local policy <=? qh_start_local policy) &&
                    (qh_start_local policy <=? current)
                 then dt_add local DAY else Ok local);
      next_at ← to_utc zone (combine (ordinal end_day) (qh_end_local policy));
      Ok (Some next_at).

(** The suppressions that apply to a member. *)
Definition suppresses (org campaign_id customer_id identity_id : uuid) (channel : MessageChannel)
    (s : CampaignSuppressionRecord) : bool :=
  N.eqb (sp_organization_id s) org && bool_decide (sp_channel s = channel) && sp_active s &&
  match sp_scope s with
  | SuppressionScope.GLOBAL => true
  | SuppressionScope.CAMPAIGN => bool_decide (sp_campaign_id s = Some campaign_id)
  | SuppressionScope.CUSTOMER => bool_decide (sp_customer_id s = Some customer_id)
  | SuppressionScope.IDENTITY => bool_decide (sp_identity_id s = Some identity_id)
  end.

Definition expected_identity (channel : MessageChannel) : string :=
  if bool_decide (channel = MessageChannel.EMAIL) then "EMAIL" else "PHONE".

Definition customer_of (org customer_id : uuid) (d : CustomerDB) : option CustomerRecord :=
  List.find (λ r, N.eqb (cu_organization_id r) org && N.eqb (cu_id r) customer_id) (cdb_customers d).

Definition identity_of (org customer_id identity_id : uuid) (d : CustomerDB)
    : option CustomerIdentityRecord :=
  List.find (λ r, N.eqb (ci_organization_id r) org && N.eqb (ci_id r) identity_id &&
                  N.eqb (ci_customer_id r) customer_id) (cdb_identities d).

Definition conversation_of (org customer_id conversation_id : uuid) (d : CustomerDB)
    : option ConversationRecord :=
  List.find (λ r, N.eqb (cn_organization_id r) org && N.eqb (cn_id r) conversation_id &&
                  bool_decide (cn_customer_id r = Some customer_id)) (cdb_conversations d).

Definition preference_of (org identity_id : uuid) (channel : MessageChannel) (c : CampaignDB)
    : option CampaignContactPreferenceRecord :=
  List.find (λ r, N.eqb (pf_organization_id r) org && N.eqb (pf_identity_id r) identity_id &&
                  bool_decide (pf_channel r = channel)) (cdb_preferences c).

(** The verdict of [eligibility] before the suppression and quiet-hours checks. *)
Definition contact_verdict (channel : MessageChannel) (customer : option CustomerRecord)
    (identity : option CustomerIdentityRecord) (conversation : option ConversationRecord)
    (preference : option CampaignContactPreferenceRecord) : option EligibilityReason :=
  if negb (match customer with Some r => String.eqb (cu_status r) "ACTIVE" | None => false end)
  then Some EligibilityReason.CUSTOMER_INACTIVE
  else
    match identity with
    | None => Some EligibilityReason.IDENTITY_INACTIVE
    | Some i =>
        if negb (String.eqb (ci_status i) "ACTIVE") then Some EligibilityReason.IDENTITY_INACTIVE
        else if negb (String.eqb (ci_identity_type i) (expected_identity channel))
        then Some EligibilityReason.INVALID_DESTINATION
        else if match conversation with
                | None => true
                | Some v => String.eqb (cn_status v) "CLOSED" ||
                            negb (String.eqb (upper (cn_channel v)) (channel_value channel))
                end
        then Some EligibilityReason.NO_CHANNEL
        else
          match preference with
          | None => Some EligibilityReason.NO_CONSENT
          | Some p =>
              if pf_unsubscribed p then Some EligibilityReason.UNSUBSCRIBED
              else if pf_do_not_contact p then Some EligibilityReason.DO_NOT_CONTACT
              else if negb (pf_consent_granted p) then Some EligibilityReason.NO_CONSENT
              else None
          end
    end.

(** What [eligibility] returns. *)
Record Eligibility : Type := mkEligibility {
  el_reason : EligibilityReason;
  el_next_at : option Z;
  el_consent_epoch : Z;
  el_suppression_epoch : Z;
  el_destination : string;
}.

Definition eligibility (org campaign_id customer_id identity_id conversation_id : uuid)
    (channel : MessageChannel) (quiet_hours : QuietHoursPolicy) : M Eligibility :=
  people ← gets (λ w, db_customer (w_db w));
  let customer := customer_of org customer_id people in
  let identity := identity_of org customer_id identity_id people in
  let conversation := conversation_of org customer_id conversation_id people in
  epoch ← policy_epoch org channel;
  preference ← cgets (preference_of org identity_id channel);
  let consent_epoch := match preference with None => 0 | Some p => pf_consent_epoch p end in
  let destination := match identity with None => "invalid" | Some i => ci_normalized_value i end in
  let verdict reason next_at :=
    mkEligibility reason next_at consent_epoch (pe_suppression_epoch epoch) destination in
  match contact_verdict channel customer identity conversation preference with
  | Some reason => mret (verdict reason None)
  | None =>
      suppression ← cgets (λ c, List.find
        (suppresses org campaign_id customer_id identity_id channel) (cdb_suppressions c));
      match suppression with
      | Some s => mret (verdict (if bool_decide (sp_scope s = SuppressionScope.CAMPAIGN)
                                 then EligibilityReason.SUPPRESSED_CAMPAIGN
                                 else EligibilityReason.SUPPRESSED_GLOBAL) None)
      | None =>
          now ← database_now;
          next_at ← lift (quiet_hours_next now quiet_hours);
          match next_at with
          | Some next_at => mret (verdict EligibilityReason.DEFERRED_QUIET_HOURS (Some next_at))
          | None => mret (verdict EligibilityReason.ELIGIBLE None)
          end
      end
  end.

(** ** Materialising the audience *)

(** The unique constraint [uq_campaign_recipient]. *)
Definition violates_recipient (row : CampaignRecipientRecord) (c : CampaignDB) : bool :=
  existsb (λ r, N.eqb (rc_organization_id r) (rc_organization_id row) &&
                N.eqb (rc_snapshot_id r) (rc_snapshot_id row) &&
                N.eqb (rc_customer_id r) (rc_customer_id row) &&
                bool_decide (rc_channel r = rc_channel row)) (cdb_recipients c).

(** The foreign keys into [customers], [customer_identities] and [conversations]. *)
Definition customer_exists (org id : uuid) (d : CustomerDB) : bool :=
  existsb (λ r, N.eqb (cu_organization_id r) org && N.eqb (cu_id r) id) (cdb_customers d).

Definition identity_exists (org id : uuid) (d : CustomerDB) : bool :=
  existsb (λ r, N.eqb (ci_organization_id r) org && N.eqb (ci_id r) id) (cdb_identities d).

Definition conversation_exists (org id : uuid) (d : CustomerDB) : bool :=
  existsb (λ r, N.eqb (cn_organization_id r) org && N.eqb (cn_id r) id) (cdb_conversations d).

Definition recipient_references (row : CampaignRecipientRecord) (d : CustomerDB) : bool :=
  customer_exists (rc_organization_id row) (rc_customer_id row) d &&
  identity_exists (rc_organization_id row) (rc_identity_id row) d &&
  conversation_exists (rc_organization_id row) (rc_conversation_id row) d.

Definition recipient_state (reason : EligibilityReason) : RecipientState :=
  match reason with
  | EligibilityReason.ELIGIBLE => RecipientState.ELIGIBLE
  | EligibilityReason.DEFERRED_QUIET_HOURS => RecipientState.DEFERRED
  | _ => RecipientState.SUPPRESSED
  end.

(** The body of the loop over the members: the recipient and the snapshot's counts. *)
Definition materialize_member (org campaign_id : uuid) (spec : CampaignDraft)
    (snapshot : CampaignAudienceSnapshotRecord) (member : AudienceMemberInput)
    : M CampaignAudienceSnapshotRecord :=
  el ← eligibility org campaign_id (am_customer_id member) (am_identity_id member)
         (am_conversation_id member) (cd_channel spec) (cd_quiet_hours spec);
  let state := recipient_state (el_reason el) in
  id ← fresh_uuid;
  now ← txn_now;
  let row := mkRecipient id org (sn_id snapshot) (am_customer_id member) (am_identity_id member)
    (am_conversation_id member) (cd_channel spec) (digest (el_destination el)) state (el_reason el)
    (el_next_at el) (el_consent_epoch el) (el_suppression_epoch el) now in
  d ← gets w_db;
  if violates_recipient row (db_campaign d) || negb (recipient_references row (db_customer d))
  then raise IntegrityError
  else
    _ ← cmodify (λ c, set_cdb_recipients (cdb_recipients c ++ [row]) c);
    let snapshot := set_sn_resolved_count (sn_resolved_count snapshot + 1) snapshot in
    mret (if bool_decide (state = RecipientState.ELIGIBLE)
          then set_sn_eligible_count (sn_eligible_count snapshot + 1) snapshot
          else set_sn_rejected_count (sn_rejected_count snapshot + 1) snapshot).

Fixpoint materialize_members (org campaign_id : uuid) (spec : CampaignDraft)
    (snapshot : CampaignAudienceSnapshotRecord) (members : list AudienceMemberInput)
    : M CampaignAudienceSnapshotRecord :=
  match members with
  | [] => mret snapshot
  | member :: members =>
      snapshot ← materialize_member org campaign_id spec snapshot member;
      materialize_members org campaign_id spec snapshot members
  end.

Definition materialize_batch (org revision_id : uuid) (limit : Z) : M CampaignAudienceSnapshotRecord :=
  revision ← revision_row org revision_id;
  snapshot ← snapshot_row org revision_id;
  match revision, snapshot with
  | Some revision, Some snapshot =>
      if negb (bool_decide (sn_state snapshot = SnapshotState.OPEN)) then raise InvalidState
      else
        let spec := cv_specification revision in
        if negb (bool_decide (cd_audience_source spec = AudienceSourceType.EXPLICIT_CUSTOMERS))
        then raise InvalidState
        else
          let members := page limit (sn_cursor snapshot) (cd_audience spec) in
          snapshot ← materialize_members org (cv_campaign_id revision) spec snapshot members;
          let snapshot := set_sn_cursor (sn_cursor snapshot + Z.of_nat (length members)) snapshot in
          _ ← put_snapshot snapshot;
          mret snapshot
  | _, _ => raise InvalidState
  end.

Definition seal_preparation (org campaign_id revision_id : uuid) : M CampaignRecord :=
  campaign ← campaign_row org campaign_id;
  snapshot ← snapshot_row org revision_id;
  match campaign, snapshot with
  | Some campaign, Some snapshot =>
      if negb (bool_decide (cp_state campaign = CampaignState.PREPARING)) then raise InvalidState
      else
        revision ← revision_row org revision_id;
        match revision with
        | None => raise InvalidState
        | Some revision =>
            if negb (sn_cursor snapshot =? Z.of_nat (length (cd_audience (cv_specification revision))))
            then raise InvalidState
            else
              now ← database_now;
              _ ← put_snapshot (set_sn_sealed_at (Some now)
                    (set_sn_state SnapshotState.SEALED snapshot));
              let previous := cp_state campaign in
              let campaign := set_cp_prepared_revision_id (Some revision_id)
                (set_cp_state CampaignState.READY campaign) in
              _ ← campaign_transition org (cp_id campaign) previous (cp_state campaign)
                    "CAMPAIGN_PREPARED";
              put_campaign campaign
        end
  | _, _ => raise InvalidState
  end.
End preparation.

(** The recipients of a campaign, over all its revisions. *)
Definition audience (org campaign_id : uuid) (limit offset : Z) : M (list CampaignRecipientRecord) :=
  cgets (λ c, page limit offset (by_creation rc_created_at rc_id
    (List.filter (λ r, N.eqb (rc_organization_id r) org &&
      existsb (λ s, N.eqb (sn_id s) (rc_snapshot_id r) &&
        N.eqb (sn_organization_id s) (rc_organization_id r) &&
        existsb (λ v, N.eqb (cv_id v) (sn_campaign_revision_id s) &&
          N.eqb (cv_organization_id v) (sn_organization_id s) &&
          N.eqb (cv_campaign_id v) campaign_id) (cdb_revisions c)) (cdb_snapshots c))
      (cdb_recipients c)))).

(** ** Runs *)

(** The unique constraints [uq_campaign_runs_idempotency], [uq_campaign_runs_schedule]
    and [uq_campaign_runs_release_occurrence]; a null matches nothing. *)
Definition same_some (a b : option uuid) : bool :=
  match a, b with Some a, Some b => N.eqb a b | _, _ => false end.

Definition violates_run (row : CampaignRunRecord) (c : CampaignDB) : bool :=
  existsb (λ r, N.eqb (rn_organization_id r) (rn_organization_id row) &&
                negb (N.eqb (rn_id r) (rn_id row)) &&
                (String.eqb (rn_idempotency_key r) (rn_idempotency_key row) ||
                 same_some (rn_schedule_id r) (rn_schedule_id row) ||
                 same_some (rn_release_schedule_occurrence_id r)
                           (rn_release_schedule_occurrence_id row))) (cdb_runs c).

(** [put_run] of a row whose unique columns were assigned. *)
Definition put_bound_run (row : CampaignRunRecord) : M CampaignRunRecord :=
  c ← cgets (λ c, c);
  if violates_run row c then raise IntegrityError else put_run row.

Definition create_run (org : uuid) (campaign : CampaignRecord) (idempotency_key : string)
    : M CampaignRunRecord :=
  match cp_prepared_revision_id campaign with
  | None => raise InvalidState
  | Some revision_id =>
      if negb (bool_decide (cp_state campaign ∈ [CampaignState.READY; CampaignState.SCHEDULED]))
      then raise InvalidState
      else
        snapshot ← snapshot_row org revision_id;
        match snapshot with
        | None => raise InvalidState
        | Some snapshot =>
            if negb (bool_decide (sn_state snapshot = SnapshotState.SEALED)) then raise InvalidState
            else
              existing ← cgets (λ c, List.find (λ r, N.eqb (rn_organization_id r) org &&
                String.eqb (rn_idempotency_key r) idempotency_key) (cdb_runs c));
              match existing with
              | Some row => mret row
              | None =>
                  id ← fresh_uuid;
                  now ← txn_now;
                  let row := mkCampaignRun id org (cp_id campaign) revision_id (sn_id snapshot)
                    CampaignRunState.PENDING_RELEASE idempotency_key None None None 0 0 0 0 0 0 false
                    0 false now now in
                  _ ← cmodify (λ c, set_cdb_runs (cdb_runs c ++ [row]) c);
                  _ ← transition org "RUN" id None
                        (campaign_run_state_value CampaignRunState.PENDING_RELEASE)
                        "CAMPAIGN_RUN_CREATED";
                  mret row
              end
        end
  end.

(** An assignment that changes nothing is not flushed: no [onupdate]. *)
Definition set_release_run (org run_id workflow_run_id : uuid) : M CampaignRunRecord :=
  row ← run_row org run_id;
  match row with
  | None => raise InvalidState
  | Some row =>
      if negb (bool_decide (rn_state row = CampaignRunState.PENDING_RELEASE)) then raise InvalidState
      else
        match rn_release_workflow_run_id row with
        | Some current => if N.eqb current workflow_run_id then mret row else raise Fenced
        | None => put_run (set_rn_release_workflow_run_id (Some workflow_run_id) row)
        end
  end.

Definition bind_scheduled_release (org run_id schedule_id occurrence_id workflow_run_id
    workflow_version_id : uuid) : M CampaignRunRecord :=
  observed ← run_row org run_id;
  match observed with
  | None => raise InvalidState
  | Some observed =>
      campaign ← campaign_row org (rn_campaign_id observed);
      row ← run_row org run_id;
      match row, campaign with
      | Some row, Some campaign =>
          let existing := (rn_release_schedule_occurrence_id row, rn_release_workflow_run_id row) in
          if bool_decide (existing = (Some occurrence_id, Some workflow_run_id)) then mret row
          else if negb (bool_decide (existing = (None, None))) then raise Fenced
          else if negb (bool_decide (rn_state row = CampaignRunState.PENDING_RELEASE))
          then raise InvalidState
          else if negb (bool_decide (cp_state campaign = CampaignState.SCHEDULED))
          then raise InvalidState
          else if negb (bool_decide (rn_schedule_id row = Some schedule_id)) then raise Fenced
          else
            revision ← revision_row org (rn_campaign_revision_id row);
            if match revision with
               | None => true
               | Some v => negb (N.eqb (cv_release_workflow_version_id v) workflow_version_id)
               end
            then raise Fenced
            else
              let row := set_rn_release_workflow_run_id (Some workflow_run_id)
                (set_rn_release_schedule_occurrence_id (Some occurrence_id) row) in
              _ ← run_transition org (rn_id row) (rn_state row) (rn_state row)
                    "SCHEDULED_RELEASE_BOUND";
              put_bound_run row
      | _, _ => raise InvalidState
      end
  end.

Definition bind_schedule (org run_id schedule_id : uuid) : M CampaignRunRecord :=
  row ← run_row org run_id;
  match row with
  | None => raise InvalidState
  | Some row =>
      match rn_schedule_id row with
      | Some current => if N.eqb current schedule_id then mret row else raise Fenced
      | None => put_bound_run (set_rn_schedule_id (Some schedule_id) row)
      end
  end.

Definition mark_campaign_scheduled (org campaign_id : uuid) : M CampaignRecord :=
  campaign ← campaign_row org campaign_id;
  match campaign with
  | None => raise InvalidState
  | Some campaign =>
      if bool_decide (cp_state campaign = CampaignState.SCHEDULED) then mret campaign
      else
        let previous := cp_state campaign in
        _ ← lift (require_campaign_transition previous CampaignState.SCHEDULED);
        let campaign := set_cp_revision (cp_revision campaign + 1)
          (set_cp_state CampaignState.SCHEDULED campaign) in
        _ ← campaign_transition org (cp_id campaign) previous (cp_state campaign) "CAMPAIGN_SCHEDULED";
        put_campaign campaign
  end.

Definition begin_run_activation (org run_id : uuid) : M CampaignRunRecord :=
  observed ← run_row org run_id;
  match observed with
  | None => raise InvalidState
  | Some observed =>
      campaign ← campaign_row org (rn_campaign_id observed);
      row ← run_row org run_id;
      match row with
      | None => raise InvalidState
      | Some row =>
          match rn_state row with
          | CampaignRunState.MATERIALIZING =>
              if match campaign with
                 | Some c => bool_decide (cp_state c = CampaignState.RUNNING)
                 | None => false
                 end
              then mret row else raise InvalidState
          | CampaignRunState.RUNNING => mret row
          | CampaignRunState.PENDING_RELEASE =>
              match campaign with
              | None => raise InvalidState
              | Some campaign =>
                  if negb (bool_decide (cp_state campaign ∈ [CampaignState.READY; CampaignState.SCHEDULED]))
                  then raise InvalidState
                  else
                    let previous := cp_state campaign in
                    let row := set_rn_state CampaignRunState.MATERIALIZING row in
                    _ ← campaign_transition org (cp_id campaign) previous CampaignState.RUNNING
                          "CAMPAIGN_STARTED";
                    _ ← run_transition org (rn_id row) CampaignRunState.PENDING_RELEASE (rn_state row)
                          "ATTEMPT_MATERIALIZATION_STARTED";
                    _ ← put_campaign (set_cp_state CampaignState.RUNNING campaign);
                    put_run row
              end
          | _ => raise InvalidState
          end
      end
  end.

(** ** Recipient attempts *)

(** The recipients an activated run executes, in the order of the query. *)
Definition sendable (org snapshot_id : uuid) (r : CampaignRecipientRecord) : bool :=
  N.eqb (rc_organization_id r) org && N.eqb (rc_snapshot_id r) snapshot_id &&
  bool_decide (rc_state r ∈ [RecipientState.ELIGIBLE; RecipientState.DEFERRED]).

Definition sendable_recipients (org snapshot_id : uuid) (c : CampaignDB) : list CampaignRecipientRecord :=
  by_creation rc_created_at rc_id (List.filter (sendable org snapshot_id) (cdb_recipients c)).

(** The unique constraints [uq_campaign_attempt_identity], [uq_campaign_attempt_p14_key]
    and [uq_campaign_attempt_p09_key]. *)
Definition violates_attempt (row : CampaignRecipientAttemptRecord) (c : CampaignDB) : bool :=
  existsb (λ r, N.eqb (ra_organization_id r) (ra_organization_id row) &&
                (String.eqb (ra_logical_identity r) (ra_logical_identity row) ||
                 String.eqb (ra_p14_idempotency_key r) (ra_p14_idempotency_key row) ||
                 String.eqb (ra_p09_idempotency_key r) (ra_p09_idempotency_key row))) (cdb_attempts c).

Section attempts.
Context (digest : string → string).
Context (zoneinfo : string → option ZoneInfo).

Definition new_attempt (org id : uuid) (run : CampaignRunRecord) (revision_number : Z) (now : Z)
    (recipient : CampaignRecipientRecord) : CampaignRecipientAttemptRecord :=
  let logical := digest (recipient_canonical org (rn_campaign_id run) revision_number (rn_id run)
    (rc_id recipient) (rc_channel recipient)) in
  mkAttempt id org (rn_id run) (rc_id recipient) logical RecipientAttemptState.PENDING 1 None None None
    (downstream_key "workflow" logical) None (downstream_key "message" logical) None None now now.

Definition add_attempt (org : uuid) (run : CampaignRunRecord) (revision : CampaignRevisionRecord)
    (recipient : CampaignRecipientRecord) : M unit :=
  id ← fresh_uuid;
  now ← txn_now;
  let row := new_attempt org id run (cv_revision_number revision) now recipient in
  c ← cgets (λ c, c);
  if violates_attempt row c then raise IntegrityError
  else cmodify (λ c, set_cdb_attempts (cdb_attempts c ++ [row]) c).

Definition materialize_attempt_batch (org run_id : uuid) (limit : Z) : M (CampaignRunRecord * Z) :=
  if limit <? 1 then raise ValueError
  else
    run ← run_row org run_id;
    match run with
    | None => raise InvalidState
    | Some run =>
        if negb (bool_decide (rn_state run = CampaignRunState.MATERIALIZING)) then raise InvalidState
        else
          recipients ← cgets (λ c, page limit (rn_attempt_materialization_cursor run)
            (sendable_recipients org (rn_audience_snapshot_id run) c));
          revision ← revision_row org (rn_campaign_revision_id run);
          match revision with
          | None => raise InvalidState
          | Some revision =>
              _ ← forM_ (add_attempt org run revision) recipients;
              let created := Z.of_nat (length recipients) in
              let run := set_rn_attempt_materialization_cursor
                (rn_attempt_materialization_cursor run + created) run in
              total ← cgets (λ c, Z.of_nat (length
                (List.filter (sendable org (rn_audience_snapshot_id run)) (cdb_recipients c))));
              run ← (if total <=? rn_attempt_materialization_cursor run then
                       let run := set_rn_state CampaignRunState.RUNNING
                         (set_rn_attempt_materialization_complete true run) in
                       _ ← run_transition org (rn_id run) CampaignRunState.MATERIALIZING (rn_state run)
                             "ATTEMPT_MATERIALIZATION_COMPLETED";
                       put_run run
                     else if 0 <? created then put_run run else mret run);
              mret (run, created)
          end
    end.

Definition campaign_runs (org campaign_id : uuid) (limit : Z) : M (list CampaignRunRecord) :=
  cgets (λ c, page limit 0 (by_creation (λ r, - rn_created_at r) rn_id
    (List.filter (λ r, N.eqb (rn_organization_id r) org && N.eqb (rn_campaign_id r) campaign_id)
      (cdb_runs c)))).

(** ** Claims *)

Record RecipientClaim : Type := mkRecipientClaim {
  cl_run : CampaignRunRecord;
  cl_recipient : CampaignRecipientRecord;
  cl_attempt : CampaignRecipientAttemptRecord;
  cl_owner_id : uuid;
  cl_claim_token : uuid;
}.

(** The attempts a claim may take: pending, and their recipient is due. *)
Definition claimable (org run_id : uuid) (now : Z) (c : CampaignDB)
    (a : CampaignRecipientAttemptRecord) : bool :=
  N.eqb (ra_organization_id a) org && N.eqb (ra_campaign_run_id a) run_id &&
  bool_decide (ra_state a = RecipientAttemptState.PENDING) &&
  existsb (λ r, N.eqb (rc_id r) (ra_recipient_id a) &&
                N.eqb (rc_organization_id r) (ra_organization_id a) &&
                match rc_next_eligible_at r with None => true | Some t => t <=? now end)
    (cdb_recipients c).

Definition claim_recipient (locked : list uuid) (org run_id owner_id : uuid)
    : M (option RecipientClaim) :=
  run ← run_row org run_id;
  match run with
  | None => mret None
  | Some run =>
      if negb (bool_decide (rn_state run = CampaignRunState.RUNNING)) then mret None
      else
        campaign ← campaign_row org (rn_campaign_id run);
        if negb (match campaign with
                 | Some c => bool_decide (cp_state c = CampaignState.RUNNING)
                 | None => false
                 end)
        then mret None
        else
          now ← database_now;
          candidates ← cgets (λ c, by_creation ra_created_at ra_id
            (List.filter (λ a, claimable org run_id now c a && negb (bool_decide (ra_id a ∈ locked)))
              (cdb_attempts c)));
          match candidates with
          | [] => mret None
          | attempt :: _ =>
              token ← fresh_uuid;
              _ ← lift (resolve_attempt_transition (ra_state attempt) RecipientAttemptState.CLAIMED);
              let attempt := set_ra_claimed_at (Some now) (set_ra_claim_token (Some token)
                (set_ra_owner_id (Some owner_id) (set_ra_state RecipientAttemptState.CLAIMED attempt))) in
              let run := set_rn_claimed_count (rn_claimed_count run + 1) run in
              recipient ← recipient_one org (ra_recipient_id attempt);
              _ ← attempt_transition org (ra_id attempt) RecipientAttemptState.PENDING
                    (ra_state attempt) "RECIPIENT_CLAIMED";
              run ← put_run run;
              attempt ← put_attempt attempt;
              mret (Some (mkRecipientClaim run recipient attempt owner_id token))
          end
  end.

(** [_owned_attempt]: the row, if the claim still holds it in the given state. *)
Definition holds_attempt (claim : RecipientClaim) (state : RecipientAttemptState)
    (row : CampaignRecipientAttemptRecord) : bool :=
  bool_decide (ra_state row = state) && bool_decide (ra_owner_id row = Some (cl_owner_id claim)) &&
  bool_decide (ra_claim_token row = Some (cl_claim_token claim)).

Definition owned_attempt (org : uuid) (claim : RecipientClaim) (state : RecipientAttemptState)
    : M CampaignRecipientAttemptRecord :=
  row ← cgets (λ c, List.find (is_attempt org (ra_id (cl_attempt claim))) (cdb_attempts c));
  match row with
  | None => raise Fenced
  | Some row => if holds_attempt claim state row then mret row else raise Fenced
  end.

Definition mark_workflow_started (org : uuid) (claim : RecipientClaim) (workflow_run_id : uuid)
    : M CampaignRecipientAttemptRecord :=
  row ← owned_attempt org claim RecipientAttemptState.CLAIMED;
  _ ← lift (resolve_attempt_transition (ra_state row) RecipientAttemptState.WORKFLOW_RUNNING);
  let row := set_ra_workflow_run_id (Some workflow_run_id)
    (set_ra_state RecipientAttemptState.WORKFLOW_RUNNING row) in
  _ ← attempt_transition org (ra_id row) RecipientAttemptState.CLAIMED (ra_state row)
        "RECIPIENT_WORKFLOW_STARTED";
  put_attempt row.

Definition mark_workflow_completed (org : uuid) (claim : RecipientClaim)
    : M CampaignRecipientAttemptRecord :=
  row ← owned_attempt org claim RecipientAttemptState.WORKFLOW_RUNNING;
  _ ← lift (resolve_attempt_transition (ra_state row) RecipientAttemptState.READY_TO_SEND);
  let row := set_ra_state RecipientAttemptState.READY_TO_SEND row in
  _ ← attempt_transition org (ra_id row) RecipientAttemptState.WORKFLOW_RUNNING (ra_state row)
        "RECIPIENT_WORKFLOW_COMPLETED";
  put_attempt row.

Definition owned_workflow_run_id (org : uuid) (claim : RecipientClaim) : M uuid :=
  row ← owned_attempt org claim RecipientAttemptState.WORKFLOW_RUNNING;
  match ra_workflow_run_id row with None => raise InvalidState | Some id => mret id end.

(** ** Send permits *)

(** [now.replace(second=0, microsecond=0)] *)
Definition minute_of (now : Z) : Z := now - now mod MINUTE.

Definition is_window (org run_id : uuid) (channel : MessageChannel) (start : Z)
    (w : CampaignThrottleWindowRecord) : bool :=
  N.eqb (tw_organization_id w) org && N.eqb (tw_campaign_run_id w) run_id &&
  bool_decide (tw_channel w = channel) && (tw_window_start w =? start).

Definition is_org_window (org : uuid) (channel : MessageChannel) (start : Z)
    (w : CampaignOrganizationThrottleWindowRecord) : bool :=
  N.eqb (ow_organization_id w) org && bool_decide (ow_channel w = channel) &&
  (ow_window_start w =? start).

(** [INSERT ... ON CONFLICT DO NOTHING] *)
Definition ensure_window (org run_id : uuid) (channel : MessageChannel) (start : Z) : M unit :=
  id ← fresh_uuid;
  cmodify (λ c, if existsb (is_window org run_id channel start) (cdb_windows c) then c
                else set_cdb_windows (cdb_windows c ++ [mkWindow id org run_id channel start 0]) c).

Definition ensure_org_window (org : uuid) (channel : MessageChannel) (start : Z) : M unit :=
  id ← fresh_uuid;
  cmodify (λ c, if existsb (is_org_window org channel start) (cdb_org_windows c) then c
                else set_cdb_org_windows (cdb_org_windows c ++ [mkOrgWindow id org channel start 0]) c).

Definition reserve_throttle (org : uuid) (run : CampaignRunRecord) (channel : MessageChannel)
    (policy : ThrottlePolicy) : M unit :=
  now ← database_now;
  let start := minute_of now in
  _ ← ensure_window org (rn_id run) channel start;
  run_window ← cgets (λ c, List.find (is_window org (rn_id run) channel start) (cdb_windows c));
  match run_window with
  | None => raise Fenced
  | Some run_window =>
      _ ← ensure_org_window org channel start;
      org_window ← cgets (λ c, List.find (is_org_window org channel start) (cdb_org_windows c));
      match org_window with
      | None => raise Fenced
      | Some org_window =>
          if th_campaign_limit policy <=? rn_authorized_count run then raise InvalidState
          else if th_messages_per_minute policy <=? tw_reserved_count run_window then raise InvalidState
          else if th_organization_messages_per_minute policy <=? ow_reserved_count org_window
          then raise InvalidState
          else
            _ ← cmodify (λ c, set_cdb_windows (update_where (λ w, N.eqb (tw_id w) (tw_id run_window))
                  (λ _, set_tw_reserved_count (tw_reserved_count run_window + 1) run_window)
                  (cdb_windows c)) c);
            cmodify (λ c, set_cdb_org_windows (update_where (λ w, N.eqb (ow_id w) (ow_id org_window))
              (λ _, set_ow_reserved_count (ow_reserved_count org_window + 1) org_window)
              (cdb_org_windows c)) c)
      end
  end.

(** The denial [authorize_permit] records: durable, and terminal unless it is quiet
    hours. *)
Definition deny (org : uuid) (run : CampaignRunRecord) (recipient : CampaignRecipientRecord)
    (attempt : CampaignRecipientAttemptRecord) (el : Eligibility) : M unit :=
  let deferred := bool_decide (el_reason el = EligibilityReason.DEFERRED_QUIET_HOURS) in
  _ ← put_recipient (set_rc_evaluated_suppression_epoch (el_suppression_epoch el)
        (set_rc_evaluated_consent_epoch (el_consent_epoch el)
        (set_rc_next_eligible_at (el_next_at el) (set_rc_eligibility_reason (el_reason el)
        (set_rc_state (if deferred then RecipientState.DEFERRED else RecipientState.SUPPRESSED)
           recipient)))));
  let previous := ra_state attempt in
  let attempt := set_ra_error_code (Some (reason_value (el_reason el))) attempt in
  if deferred then
    _ ← attempt_transition org (ra_id attempt) previous (ra_state attempt) (reason_value (el_reason el));
    _ ← put_attempt attempt;
    mret tt
  else
    _ ← lift (resolve_attempt_transition (ra_state attempt) RecipientAttemptState.SUPPRESSED);
    let attempt := set_ra_state RecipientAttemptState.SUPPRESSED attempt in
    _ ← put_run (set_rn_suppressed_count (rn_suppressed_count run + 1) run);
    _ ← attempt_transition org (ra_id attempt) previous (ra_state attempt) (reason_value (el_reason el));
    _ ← put_attempt attempt;
    mret tt.

(** The permit itself, once throttling has admitted the send. *)
Definition grant (org : uuid) (run : CampaignRunRecord) (attempt : CampaignRecipientAttemptRecord)
    (el : Eligibility) : M CampaignSendPermitRecord :=
  now ← database_now;
  id ← fresh_uuid;
  permit_token ← fresh_uuid;
  let permit := mkPermit id org (ra_id attempt) SendPermitState.AUTHORIZED permit_token
    (el_consent_epoch el) (el_suppression_epoch el) (ra_p09_idempotency_key attempt) now None None in
  c ← cgets (λ c, c);
  if existsb (λ p, N.eqb (pm_organization_id p) org &&
       String.eqb (pm_p09_idempotency_key p) (pm_p09_idempotency_key permit)) (cdb_permits c)
  then raise IntegrityError
  else
    _ ← cmodify (λ c, set_cdb_permits (cdb_permits c ++ [permit]) c);
    _ ← lift (resolve_attempt_transition (ra_state attempt) RecipientAttemptState.DISPATCH_AUTHORIZED);
    let attempt := set_ra_error_code None
      (set_ra_state RecipientAttemptState.DISPATCH_AUTHORIZED attempt) in
    _ ← put_run (set_rn_authorized_count (rn_authorized_count run + 1) run);
    _ ← transition org "PERMIT" (pm_id permit) None (permit_state_value (pm_state permit))
          "SEND_AUTHORIZED";
    _ ← attempt_transition org (ra_id attempt) RecipientAttemptState.READY_TO_SEND (ra_state attempt)
          "SEND_AUTHORIZED";
    _ ← put_attempt attempt;
    mret permit.

Definition authorize_permit (org : uuid) (claim : RecipientClaim)
    : M (option CampaignSendPermitRecord * option EligibilityReason) :=
  run ← run_row org (rn_id (cl_run claim));
  match run with
  | None => raise Fenced
  | Some run =>
      if negb (bool_decide (rn_state run = CampaignRunState.RUNNING)) then raise Fenced
      else
        campaign ← campaign_row org (rn_campaign_id run);
        match campaign with
        | None => raise Fenced
        | Some campaign =>
            if negb (bool_decide (cp_state campaign = CampaignState.RUNNING)) then raise Fenced
            else
              attempt ← owned_attempt org claim RecipientAttemptState.READY_TO_SEND;
              recipient ← recipient_one org (ra_recipient_id attempt);
              revision ← revision_row org (rn_campaign_revision_id run);
              match revision with
              | None => raise Fenced
              | Some revision =>
                  let spec := cv_specification revision in
                  el ← eligibility zoneinfo org (cp_id campaign) (rc_customer_id recipient)
                         (rc_identity_id recipient) (rc_conversation_id recipient)
                         (rc_channel recipient) (cd_quiet_hours spec);
                  if negb (bool_decide (el_reason el = EligibilityReason.ELIGIBLE)) then
                    _ ← deny org run recipient attempt el;
                    mret (None, Some (el_reason el))
                  else
                    _ ← reserve_throttle org run (rc_channel recipient) (cd_throttle spec);
                    existing ← cgets (λ c, List.find (λ p, N.eqb (pm_organization_id p) org &&
                      N.eqb (pm_recipient_attempt_id p) (ra_id attempt)) (cdb_permits c));
                    match existing with
                    | Some permit => mret (Some permit, None)
                    | None =>
                        permit ← grant org run attempt el;
                        mret (Some permit, None)
                    end
              end
        end
  end.

Definition dispatch_context (org permit_id : uuid)
    : M (CampaignSendPermitRecord * CampaignDraft * CampaignRecipientRecord *
         CampaignRecipientAttemptRecord) :=
  permit ← permit_row org permit_id;
  match permit with
  | None => raise Fenced
  | Some permit =>
      attempt ← attempt_one org (pm_recipient_attempt_id permit);
      recipient ← recipient_one org (ra_recipient_id attempt);
      run ← run_row org (ra_campaign_run_id attempt);
      match run with
      | None => raise Fenced
      | Some run =>
          revision ← revision_row org (rn_campaign_revision_id run);
          match revision with
          | None => raise Fenced
          | Some revision => mret (permit, cv_specification revision, recipient, attempt)
          end
      end
  end.
End attempts.

Definition settled_states : list RecipientAttemptState :=
  [RecipientAttemptState.DISPATCHED; RecipientAttemptState.SUPPRESSED;
   RecipientAttemptState.FAILED; RecipientAttemptState.CANCELLED].

(** The attempts of a run that are not settled yet. *)
Definition unsettled (org run_id : uuid) (a : CampaignRecipientAttemptRecord) : bool :=
  N.eqb (ra_organization_id a) org && N.eqb (ra_campaign_run_id a) run_id &&
  negb (bool_decide (ra_state a ∈ settled_states)).

(** The end of [consume_permit]: a running run whose attempts are all settled is done. *)
Definition complete_run (org : uuid) (run : CampaignRunRecord) : M unit :=
  remaining ← cgets (λ c, length (List.filter (unsettled org (rn_id run)) (cdb_attempts c)));
  match remaining with
  | O =>
      run ← put_run (set_rn_state CampaignRunState.COMPLETED run);
      campaign ← campaign_row org (rn_campaign_id run);
      match campaign with
      | Some campaign =>
          if bool_decide (cp_state campaign = CampaignState.RUNNING) then
            _ ← put_campaign (set_cp_state CampaignState.COMPLETED campaign);
            _ ← run_transition org (rn_id run) CampaignRunState.RUNNING (rn_state run)
                  "CAMPAIGN_RUN_COMPLETED";
            campaign_transition org (cp_id campaign) CampaignState.RUNNING CampaignState.COMPLETED
              "CAMPAIGN_COMPLETED"
          else mret tt
      | None => mret tt
      end
  | S _ => mret tt
  end.

Definition consume_permit (org permit_id permit_token message_id : uuid) : M CampaignSendPermitRecord :=
  permit ← permit_row org permit_id;
  match permit with
  | None => raise Fenced
  | Some permit =>
      if bool_decide (pm_state permit = SendPermitState.CONSUMED) &&
         bool_decide (pm_message_id permit = Some message_id) then mret permit
      else if negb (bool_decide (pm_state permit = SendPermitState.AUTHORIZED)) ||
              negb (N.eqb (pm_permit_token permit) permit_token) then raise Fenced
      else
        attempt ← attempt_one org (pm_recipient_attempt_id permit);
        if negb (bool_decide (ra_state attempt = RecipientAttemptState.DISPATCH_AUTHORIZED))
        then raise Fenced
        else
          now ← database_now;
          let permit := set_pm_message_id (Some message_id) (set_pm_consumed_at (Some now)
            (set_pm_state SendPermitState.CONSUMED permit)) in
          let attempt := set_ra_message_id (Some message_id)
            (set_ra_state RecipientAttemptState.DISPATCHED attempt) in
          _ ← put_permit permit;
          attempt ← put_attempt attempt;
          run ← run_row org (ra_campaign_run_id attempt);
          run ← match run with
                | Some run =>
                    run ← put_run (set_rn_dispatched_count (rn_dispatched_count run + 1) run);
                    mret (Some run)
                | None => mret None
                end;
          _ ← transition org "PERMIT" (pm_id permit)
                (Some (permit_state_value SendPermitState.AUTHORIZED))
                (permit_state_value (pm_state permit)) "SEND_CONSUMED";
          _ ← attempt_transition org (ra_id attempt) RecipientAttemptState.DISPATCH_AUTHORIZED
                (ra_state attempt) "RECIPIENT_DISPATCHED";
          _ ← match run with
              | Some run =>
                  if bool_decide (rn_state run = CampaignRunState.RUNNING)
                  then complete_run org run else mret tt
              | None => mret tt
              end;
          mret permit
  end.

(** ** Cancellation *)

Definition run_cancellable (org campaign_id : uuid) (r : CampaignRunRecord) : bool :=
  N.eqb (rn_organization_id r) org && N.eqb (rn_campaign_id r) campaign_id &&
  bool_decide (rn_state r ∈ [CampaignRunState.PENDING_RELEASE; CampaignRunState.MATERIALIZING;
                             CampaignRunState.RUNNING; CampaignRunState.PAUSED]).

Definition start_run_cancellation (org : uuid) (run : CampaignRunRecord) : M unit :=
  let previous := rn_state run in
  let run := set_rn_cancellation_complete false (set_rn_state CampaignRunState.CANCELLING run) in
  _ ← run_transition org (rn_id run) previous (rn_state run) "CAMPAIGN_RUN_CANCELLATION_STARTED";
  _ ← put_run run;
  mret tt.

Definition mark_cancelling (org : uuid) (campaign : CampaignRecord) : M CampaignRecord :=
  if bool_decide (cp_state campaign = CampaignState.CANCELLING) then mret campaign
  else
    let previous := cp_state campaign in
    _ ← lift (require_campaign_transition previous CampaignState.CANCELLING);
    let campaign := set_cp_revision (cp_revision campaign + 1)
      (set_cp_state CampaignState.CANCELLING campaign) in
    _ ← campaign_transition org (cp_id campaign) previous (cp_state campaign)
          "CAMPAIGN_CANCELLATION_STARTED";
    put_campaign campaign.

Definition begin_cancellation (org campaign_id : uuid) : M CampaignRecord :=
  campaign ← campaign_row org campaign_id;
  match campaign with
  | None => raise InvalidState
  | Some campaign =>
      if bool_decide (cp_state campaign = CampaignState.CANCELLED) then mret campaign
      else
        campaign ← mark_cancelling org campaign;
        runs ← cgets (λ c, List.filter (run_cancellable org (cp_id campaign)) (cdb_runs c));
        _ ← forM_ (start_run_cancellation org) runs;
        mret campaign
  end.

Definition cancellable_states : list RecipientAttemptState :=
  [RecipientAttemptState.PENDING; RecipientAttemptState.CLAIMED;
   RecipientAttemptState.WORKFLOW_RUNNING; RecipientAttemptState.READY_TO_SEND].

(** The attempts of the cancelling runs of a campaign that can still be cancelled. *)
Definition cancellable (org campaign_id : uuid) (c : CampaignDB) (a : CampaignRecipientAttemptRecord)
    : bool :=
  N.eqb (ra_organization_id a) org && bool_decide (ra_state a ∈ cancellable_states) &&
  existsb (λ r, N.eqb (rn_id r) (ra_campaign_run_id a) &&
                N.eqb (rn_organization_id r) (ra_organization_id a) &&
                N.eqb (rn_campaign_id r) campaign_id &&
                bool_decide (rn_state r = CampaignRunState.CANCELLING)) (cdb_runs c).

(** [processed_by_run[k] = processed_by_run.get(k, 0) + 1], in insertion order. *)
Fixpoint bump (k : uuid) (l : list (uuid * Z)) : list (uuid * Z) :=
  match l with
  | [] => [(k, 1)]
  | (k', n) :: l => if N.eqb k' k then (k', n + 1) :: l else (k', n) :: bump k l
  end.

Definition cancel_attempt (org : uuid) (attempt : CampaignRecipientAttemptRecord) : M unit :=
  let previous := ra_state attempt in
  _ ← lift (resolve_attempt_transition (ra_state attempt) RecipientAttemptState.CANCELLED);
  let attempt := set_ra_error_code (Some (reason_value EligibilityReason.CANCELLED))
    (set_ra_state RecipientAttemptState.CANCELLED attempt) in
  recipient ← recipient_one org (ra_recipient_id attempt);
  _ ← (if bool_decide (rc_state recipient ∈ [RecipientState.ELIGIBLE; RecipientState.DEFERRED])
       then put_recipient (set_rc_eligibility_reason EligibilityReason.CANCELLED
              (set_rc_state RecipientState.CANCELLED recipient))
       else mret tt);
  _ ← attempt_transition org (ra_id attempt) previous (ra_state attempt) "CAMPAIGN_CANCELLED";
  _ ← put_attempt attempt;
  mret tt.

(** [update(CampaignRunRecord).where(org, id).values(...)] *)
Definition update_runs (p : CampaignRunRecord → bool) (f : CampaignRunRecord → CampaignRunRecord)
    : M unit :=
  now ← txn_now;
  cmodify (λ c, set_cdb_runs (update_where p (λ r, set_rn_updated_at now (f r)) (cdb_runs c)) c).

Definition count_cancelled (org : uuid) (processed : uuid * Z) : M unit :=
  update_runs (is_run org (fst processed)) (λ r,
    set_rn_cancellation_processed_count (rn_cancellation_processed_count r + snd processed) r).

Definition finish_run_cancellation (org : uuid) (run : CampaignRunRecord) : M unit :=
  let run := set_rn_cancellation_complete true (set_rn_state CampaignRunState.CANCELLED run) in
  _ ← run_transition org (rn_id run) CampaignRunState.CANCELLING (rn_state run) "CAMPAIGN_RUN_CANCELLED";
  _ ← put_run run;
  mret tt.

Definition cancel_attempt_batch (locked : list uuid) (org campaign_id : uuid) (limit : Z)
    : M (CampaignRecord * Z * bool) :=
  if limit <? 1 then raise ValueError
  else
    campaign ← campaign_row org campaign_id;
    match campaign with
    | None => raise InvalidState
    | Some campaign =>
        if bool_decide (cp_state campaign = CampaignState.CANCELLED) then mret (campaign, 0, true)
        else if negb (bool_decide (cp_state campaign = CampaignState.CANCELLING)) then raise InvalidState
        else
          attempts ← cgets (λ c, take (Z.to_nat limit) (by_creation ra_created_at ra_id
            (List.filter (λ a, cancellable org campaign_id c a && negb (bool_decide (ra_id a ∈ locked)))
              (cdb_attempts c))));
          _ ← forM_ (cancel_attempt org) attempts;
          _ ← forM_ (count_cancelled org)
                (foldl (λ l a, bump (ra_campaign_run_id a) l) [] attempts);
          remaining ← cgets (λ c, length (List.filter (cancellable org campaign_id c) (cdb_attempts c)));
          match remaining with
          | S _ => mret (campaign, Z.of_nat (length attempts), false)
          | O =>
              runs ← cgets (λ c, List.filter (λ r, N.eqb (rn_organization_id r) org &&
                N.eqb (rn_campaign_id r) campaign_id &&
                bool_decide (rn_state r = CampaignRunState.CANCELLING)) (cdb_runs c));
              _ ← forM_ (finish_run_cancellation org) runs;
              let campaign := set_cp_state CampaignState.CANCELLED campaign in
              _ ← campaign_transition org (cp_id campaign) CampaignState.CANCELLING (cp_state campaign)
                    "CAMPAIGN_CANCELLED";
              campaign ← put_campaign campaign;
              mret (campaign, Z.of_nat (length attempts), true)
          end
    end.

(** ** Pause, failure, resume *)

Definition stoppable (org campaign_id : uuid) (r : CampaignRunRecord) : bool :=
  N.eqb (rn_organization_id r) org && N.eqb (rn_campaign_id r) campaign_id &&
  bool_decide (rn_state r ∈ [CampaignRunState.PENDING_RELEASE; CampaignRunState.RUNNING]).

Definition transition_campaign_state (org campaign_id : uuid) (target : CampaignState) (reason : string)
    : M CampaignRecord :=
  row ← campaign_row org campaign_id;
  match row with
  | None => raise InvalidState
  | Some row =>
      let previous := cp_state row in
      _ ← lift (require_campaign_transition previous target);
      let row := set_cp_revision (cp_revision row + 1) (set_cp_state target row) in
      _ ← campaign_transition org (cp_id row) previous target reason;
      row ← put_campaign row;
      _ ← match target with
          | CampaignState.PAUSED =>
              update_runs (stoppable org (cp_id row)) (set_rn_state CampaignRunState.PAUSED)
          | CampaignState.FAILED =>
              update_runs (stoppable org (cp_id row)) (set_rn_state CampaignRunState.FAILED)
          | _ => mret tt
          end;
      mret row
  end.

Definition is_paused_run (org campaign_id : uuid) (r : CampaignRunRecord) : bool :=
  N.eqb (rn_organization_id r) org && N.eqb (rn_campaign_id r) campaign_id &&
  bool_decide (rn_state r = CampaignRunState.PAUSED).

Definition resume_campaign (org campaign_id : uuid) : M CampaignRecord :=
  campaign ← transition_campaign_state org campaign_id CampaignState.RUNNING "CAMPAIGN_RESUMED";
  _ ← update_runs (is_paused_run org campaign_id) (set_rn_state CampaignRunState.RUNNING);
  mret campaign.

(** ** Contact preferences and suppressions *)

Definition set_preference (org customer_id identity_id : uuid) (channel : MessageChannel)
    (consent_granted unsubscribed do_not_contact : bool) (evidence_ref : option string) : M Z :=
  row ← cgets (preference_of org identity_id channel);
  match row with
  | None =>
      id ← fresh_uuid;
      now ← txn_now;
      people ← gets (λ w, db_customer (w_db w));
      if negb (customer_exists org customer_id people && identity_exists org identity_id people)
      then raise IntegrityError
      else
        _ ← cmodify (λ c, set_cdb_preferences (cdb_preferences c ++ [mkPreference id org customer_id
              identity_id channel consent_granted unsubscribed do_not_contact 1 evidence_ref now]) c);
        mret 1
  | Some row =>
      if negb (N.eqb (pf_customer_id row) customer_id) then raise Fenced
      else
        let row := set_pf_consent_epoch (pf_consent_epoch row + 1) (set_pf_evidence_ref evidence_ref
          (set_pf_do_not_contact do_not_contact (set_pf_unsubscribed unsubscribed
          (set_pf_consent_granted consent_granted row)))) in
        _ ← cmodify (λ c, set_cdb_preferences (update_where (λ r, N.eqb (pf_id r) (pf_id row)) (λ _, row)
              (cdb_preferences c)) c);
        mret (pf_consent_epoch row)
  end.

Record SuppressionRequest : Type := {
  sq_channel : MessageChannel;
  sq_scope : SuppressionScope;
  sq_campaign_id : option uuid;
  sq_customer_id : option uuid;
  sq_identity_id : option uuid;
  sq_reason_code : string;
}.

(** [SuppressionRequest._scope_reference] *)
Definition suppression_request_valid (r : SuppressionRequest) : bool :=
  let supplied := omap id [sq_campaign_id r; sq_customer_id r; sq_identity_id r] in
  match sq_scope r with
  | SuppressionScope.GLOBAL => is_nil supplied
  | SuppressionScope.CAMPAIGN => negb (is_none (sq_campaign_id r)) && Nat.eqb (length supplied) 1
  | SuppressionScope.CUSTOMER => negb (is_none (sq_customer_id r)) && Nat.eqb (length supplied) 1
  | SuppressionScope.IDENTITY => negb (is_none (sq_identity_id r)) && Nat.eqb (length supplied) 1
  end.

(** The foreign keys of [campaign_suppressions]; a null is no reference. *)
Definition suppression_references (org : uuid) (request : SuppressionRequest) (d : DB) : bool :=
  match sq_campaign_id request with
  | Some id => existsb (is_campaign org id) (cdb_campaigns (db_campaign d)) | None => true end &&
  match sq_customer_id request with
  | Some id => customer_exists org id (db_customer d) | None => true end &&
  match sq_identity_id request with
  | Some id => identity_exists org id (db_customer d) | None => true end.

Definition add_suppression (org : uuid) (request : SuppressionRequest) : M Z :=
  epoch ← policy_epoch org (sq_channel request);
  let epoch := set_pe_suppression_epoch (pe_suppression_epoch epoch + 1) epoch in
  id ← fresh_uuid;
  now ← txn_now;
  d ← gets w_db;
  if negb (suppression_references org request d) then raise IntegrityError
  else
    _ ← cmodify (λ c, set_cdb_epochs
          (update_where (λ e, N.eqb (pe_id e) (pe_id epoch)) (λ _, epoch) (cdb_epochs c)) c);
    _ ← cmodify (λ c, set_cdb_suppressions (cdb_suppressions c ++ [mkSuppression id org
          (sq_channel request) (sq_scope request) (sq_campaign_id request) (sq_customer_id request)
          (sq_identity_id request) (sq_reason_code request) true now]) c);
    mret (pe_suppression_epoch epoch).

(** ** History *)

Definition transitions (org campaign_id : uuid) (limit : Z) : M (list CampaignTransitionHistoryRecord) :=
  cgets (λ c, page limit 0 (by_creation ch_created_at ch_id
    (List.filter (λ h, N.eqb (ch_organization_id h) org && N.eqb (ch_entity_id h) campaign_id)
      (cdb_history c)))).
