(* ===== verification/CampaignService.v ===== *)
(** * CampaignService: campaigns over the scheduler, the workflow engine and messaging

    The service of [campaigns/service.py]. Each [async with] block is one
    transaction of [Store]; the scheduler and the workflow engine are the modelled
    services; [messaging_send] is [MessagingService.send], known by the identifier
    of the message it returns. The transactions that stand between two calls of
    another service are definitions of their own, so that the transition system of
    [CampaignSystem] can interleave them. *)

From stdpp Require Import pretty.
From S2P Require Import Prelude.
From S2P Require Import Errors.
From S2P Require Import Lifecycles.
From S2P Require Import Conditions.
From S2P Require Import ScheduleSpec.
From S2P Require Import Recurrence.
From S2P Require Import MessagingStore.
From S2P Require Import CustomerStore.
From S2P Require Import CampaignStore.
From S2P Require Import Store.
From S2P Require Import WorkflowService.
From S2P Require Import SchedulerService.
From S2P Require Import CampaignRepository.

Definition MATERIALIZATION_BATCH : Z := 100.

Definition CANCELLATION_BATCH : Z := 100.

Definition CampaignNotFound : exn := Nxs (CampaignErr CampaignNotFoundError).

Definition CampaignRunNotFound : exn := Nxs (CampaignErr CampaignRunNotFoundError).

Definition InvalidState : exn := CampaignRepository.InvalidState.

(** ** Requests *)

(** The field bounds of [ThrottlePolicy]. *)
Definition throttle_valid (t : ThrottlePolicy) : bool :=
  (1 <=? th_recipients_per_tick t) && (th_recipients_per_tick t <=? 500) &&
  (1 <=? th_messages_per_minute t) && (th_messages_per_minute t <=? 100000) &&
  (1 <=? th_campaign_limit t) && (th_campaign_limit t <=? 10000000) &&
  (1 <=? th_organization_messages_per_minute t) && (th_organization_messages_per_minute t <=? 1000000).

(** [CampaignDraft._bounded]; [dump_length] is the length of Pydantic's JSON dump. *)
Definition draft_bounded (dump_length : CampaignDraft → Z) (d : CampaignDraft) : bool :=
  match cd_audience_source d with
  | AudienceSourceType.EXPLICIT_CUSTOMERS =>
      negb (is_nil (cd_audience d)) && (Z.of_nat (length (cd_audience d)) <=? 500)
  | _ => is_nil (cd_audience d) && negb (is_none (cd_source_reference d))
  end &&
  bool_decide (NoDup (map am_customer_id (cd_audience d))) &&
  (Z.of_nat (length (cd_audience d)) <=? th_campaign_limit (cd_throttle d)) &&
  (bool_decide (cd_channel d = MessageChannel.EMAIL) || is_none (cd_subject d)) &&
  (dump_length d <=? 1048576).

Record CreateCampaignRequest : Type := {
  cc_campaign_key : string;
  cc_name : string;
  cc_draft : CampaignDraft;
}.

Record UpdateCampaignRequest : Type := {
  uc_expected_revision : Z;
  uc_name : option string;
  uc_draft : option CampaignDraft;
}.

Record ScheduleCampaignRequest : Type := {
  sc_schedule_type : ScheduleType;
  sc_timezone : string;
  sc_start_at : Z;
  sc_end_at : option Z;
  sc_recurrence : option RecurrenceSpec;
  sc_misfire_policy : MisfirePolicy;
  sc_max_catch_up : Z;
}.

Record ContactPreferenceRequest : Type := {
  cq_customer_id : uuid;
  cq_identity_id : uuid;
  cq_channel : MessageChannel;
  cq_consent_granted : bool;
  cq_unsubscribed : bool;
  cq_do_not_contact : bool;
  cq_evidence_ref : option string;
}.

(** [ContactPreferenceRequest._affirmative_consent_evidence] *)
Definition preference_request_valid (r : ContactPreferenceRequest) : bool :=
  negb (cq_consent_granted r &&
        match cq_evidence_ref r with Some (String _ _) => false | _ => true end) &&
  negb ((cq_unsubscribed r || cq_do_not_contact r) && cq_consent_granted r).

(** ** Events *)

Definition campaign_event (org : uuid) (event_type : string) (campaign : CampaignRecord)
    (count : option Z) : M unit :=
  enqueue_event event_type "campaign" (cp_id campaign) org
    [("campaign_id", JStr (uuid_str (cp_id campaign)));
     ("state", JStr (campaign_state_value (cp_state campaign)));
     ("reason_code", JNull);
     ("count", match count with Some n => JInt n | None => JNull end)].

Definition recipient_event (org : uuid) (event_type : string) (claim : RecipientClaim) : M unit :=
  enqueue_event event_type "campaign_recipient" (rc_id (cl_recipient claim)) org
    [("campaign_id", JStr (uuid_str (rn_campaign_id (cl_run claim))));
     ("campaign_run_id", JStr (uuid_str (rn_id (cl_run claim))));
     ("recipient_id", JStr (uuid_str (rc_id (cl_recipient claim))));
     ("state", JStr (attempt_state_value (ra_state (cl_attempt claim))));
     ("reason_code", json_of_option (ra_error_code (cl_attempt claim)));
     ("count", JNull)].

Section service.
Context (zoneinfo : string → option ZoneInfo).
Context (digest : string → string).
Context (canonical : CampaignDraft → string).
Context (canonical_audience : list AudienceMemberInput → string).
Context (fingerprint : uuid → list (string * json) → string).
Context (timezone_data_version : string).
Context (messaging_send : uuid → SendMessageRequest → M uuid).
Context (str_length : list (string * json) → Z).

(** ** Drafts *)

(** [_validate_draft] *)
Definition validate_draft (org : uuid) (draft : CampaignDraft) : M unit :=
  _ ← WorkflowService.get_version org (cd_release_workflow_version_id draft);
  _ ← WorkflowService.get_version org (cd_recipient_workflow_version_id draft);
  tenant_transaction (
    account ← gets (λ w, List.find (λ a, N.eqb (ma_organization_id a) org &&
      N.eqb (ma_id a) (cd_account_id draft)) (mdb_accounts (db_messaging (w_db w))));
    match account with
    | Some a => if bool_decide (ma_channel a = cd_channel draft) then mret tt else raise InvalidState
    | None => raise InvalidState
    end).

Definition create_txn (org : uuid) (request : CreateCampaignRequest) : M CampaignRecord :=
  tenant_transaction (
    campaign ← CampaignRepository.create_campaign org (cc_campaign_key request) (cc_name request)
                 (cc_draft request);
    _ ← campaign_event org "campaign.created" campaign None;
    mret campaign).

Definition create_campaign (org : uuid) (request : CreateCampaignRequest) : M CampaignRecord :=
  _ ← validate_draft org (cc_draft request);
  try_with (create_txn org request)
    (λ e, match e with
          | IntegrityError => raise (Nxs (CampaignErr CampaignConflictError))
          | e => raise e
          end).

Definition found_campaign (org campaign_id : uuid) : M CampaignRecord :=
  row ← campaign_row org campaign_id;
  match row with None => raise CampaignNotFound | Some row => mret row end.

Definition get_campaign (org campaign_id : uuid) : M CampaignRecord :=
  tenant_transaction (found_campaign org campaign_id).

Definition list_campaigns (org : uuid) (limit offset : Z) : M (list CampaignRecord) :=
  tenant_transaction (CampaignRepository.list_campaigns org limit offset).

Definition update_txn (org campaign_id : uuid) (request : UpdateCampaignRequest) : M CampaignRecord :=
  tenant_transaction (
    row ← found_campaign org campaign_id;
    if negb (cp_revision row =? uc_expected_revision request)
    then raise (Nxs (CampaignErr CampaignConflictError))
    else CampaignRepository.update_campaign row (uc_name request) (uc_draft request)).

Definition update_campaign (org campaign_id : uuid) (request : UpdateCampaignRequest)
    : M CampaignRecord :=
  _ ← match uc_draft request with Some draft => validate_draft org draft | None => mret tt end;
  update_txn org campaign_id request.

(** ** Preparation *)

Definition prepare_txn (org campaign_id : uuid)
    : M (CampaignRevisionRecord * CampaignAudienceSnapshotRecord) :=
  tenant_transaction (
    row ← found_campaign org campaign_id;
    match cp_state row with
    | CampaignState.DRAFT => begin_preparation digest canonical canonical_audience org row
    | CampaignState.PREPARING => active_preparation org (cp_id row) (cp_revision row)
    | _ => raise InvalidState
    end).

Definition materialize_txn (org revision_id : uuid) : M CampaignAudienceSnapshotRecord :=
  tenant_transaction (materialize_batch digest zoneinfo org revision_id MATERIALIZATION_BATCH).

(** The [while True] loop; one unit of fuel per batch. *)
Fixpoint materialize_all (fuel : nat) (org : uuid) (revision : CampaignRevisionRecord)
    : M CampaignAudienceSnapshotRecord :=
  match fuel with
  | O => raise OutOfFuel
  | S fuel =>
      snapshot ← materialize_txn org (cv_id revision);
      if Z.of_nat (length (cd_audience (cv_specification revision))) <=? sn_cursor snapshot
      then mret snapshot
      else materialize_all fuel org revision
  end.

Definition seal_txn (org campaign_id revision_id : uuid) (count : Z) : M CampaignRecord :=
  tenant_transaction (
    campaign ← seal_preparation org campaign_id revision_id;
    _ ← campaign_event org "campaign.prepared" campaign (Some count);
    mret campaign).

Definition prepare_campaign (org campaign_id : uuid) : M CampaignRecord :=
  prepared ← prepare_txn org campaign_id;
  let revision := fst prepared in
  snapshot ← materialize_all (S (length (cd_audience (cv_specification revision)))) org revision;
  seal_txn org campaign_id (cv_id revision) (sn_resolved_count snapshot).

(** ** Scheduling *)

Definition schedule_run_txn (org campaign_id : uuid)
    : M (CampaignRunRecord * CampaignRevisionRecord) :=
  tenant_transaction (
    row ← campaign_row org campaign_id;
    match row with
    | None => raise InvalidState
    | Some row =>
        match cp_prepared_revision_id row with
        | None => raise InvalidState
        | Some revision_id =>
            run ← create_run org row ("campaign:scheduled:" +:+ uuid_str campaign_id +:+ ":" +:+
                                      uuid_str revision_id);
            revision ← revision_row org (rn_campaign_revision_id run);
            match revision with None => raise InvalidState | Some revision => mret (run, revision) end
        end
    end).

Definition release_input (campaign_id revision_id run_id : uuid) : list (string * json) :=
  [("campaign_id", JStr (uuid_str campaign_id));
   ("campaign_revision_id", JStr (uuid_str revision_id));
   ("campaign_run_id", JStr (uuid_str run_id))].

Definition release_schedule (campaign_id : uuid) (revision : CampaignRevisionRecord)
    (run : CampaignRunRecord) (request : ScheduleCampaignRequest) (correlation : option string)
    : CreateScheduleRequest := {|
  cs_schedule_key := "campaign." +:+ uuid_hex campaign_id +:+ ".r" +:+ pretty (cv_revision_number revision);
  cs_target_type := "START_WORKFLOW";
  cs_workflow_version_id := cv_release_workflow_version_id revision;
  cs_schedule_type := sc_schedule_type request;
  cs_timezone := sc_timezone request;
  cs_start_at := sc_start_at request;
  cs_end_at := sc_end_at request;
  cs_recurrence := sc_recurrence request;
  cs_input := release_input campaign_id (cv_id revision) (rn_id run);
  cs_misfire_policy := sc_misfire_policy request;
  cs_max_catch_up := sc_max_catch_up request;
  cs_correlation_id := correlation |}.

(** The comparison of the schedule found with the one asked for. *)
Definition schedule_matches (s : SchedulerScheduleRecord) (r : CreateScheduleRequest) : bool :=
  N.eqb (ss_workflow_version_id s) (cs_workflow_version_id r) &&
  py_eq (JObj (ss_input_payload s)) (JObj (cs_input r)) &&
  bool_decide (ss_schedule_type s = cs_schedule_type r) &&
  String.eqb (ss_timezone s) (cs_timezone r) &&
  (ss_start_at s =? cs_start_at r) && bool_decide (ss_end_at s = cs_end_at r) &&
  bool_decide (ss_recurrence_spec s = cs_recurrence r) &&
  bool_decide (ss_misfire_policy s = cs_misfire_policy r) &&
  (ss_max_catch_up s =? cs_max_catch_up r).

Definition bind_schedule_txn (org campaign_id run_id schedule_id : uuid) : M CampaignRecord :=
  tenant_transaction (
    _ ← bind_schedule org run_id schedule_id;
    campaign ← mark_campaign_scheduled org campaign_id;
    _ ← campaign_event org "campaign.scheduled" campaign None;
    mret campaign).

Definition schedule_campaign (org campaign_id : uuid) (request : ScheduleCampaignRequest)
    : M CampaignRecord :=
  if negb (bool_decide (sc_schedule_type request = ScheduleType.ONE_TIME)) ||
     negb (is_none (sc_recurrence request))
  then raise InvalidState
  else
    campaign ← get_campaign org campaign_id;
    if is_none (cp_prepared_revision_id campaign) ||
       negb (bool_decide (cp_state campaign ∈ [CampaignState.READY; CampaignState.SCHEDULED]))
    then raise InvalidState
    else
      created ← schedule_run_txn org campaign_id;
      let '(run, revision) := created in
      correlation ← gets w_correlation;
      let wanted := release_schedule campaign_id revision run request correlation in
      schedule ← try_with (create_schedule timezone_data_version org wanted)
        (λ e, match e with
              | Nxs (ScheduleErr ScheduleConflictError) =>
                  get_schedule_by_key org (cs_schedule_key wanted)
              | e => raise e
              end);
      if negb (schedule_matches schedule wanted) then raise Fenced
      else
        result ← bind_schedule_txn org campaign_id (rn_id run) (ss_id schedule);
        match ss_state schedule with
        | ScheduleState.DRAFT =>
            _ ← activate_schedule zoneinfo org (ss_id schedule);
            mret result
        | ScheduleState.ACTIVE => mret result
        | _ => raise Fenced
        end.

(** ** Release *)

Definition start_key (campaign : CampaignRecord) (idempotency_key : option string) : string :=
  match idempotency_key with
  | Some (String _ _ as k) => k
  | _ => "campaign:run:" +:+ uuid_str (cp_id campaign) +:+ ":" +:+ pretty (cp_revision campaign)
  end.

Definition start_run_txn (org campaign_id : uuid) (k : string)
    : M (CampaignRunRecord * CampaignRevisionRecord) :=
  tenant_transaction (
    row ← found_campaign org campaign_id;
    run ← create_run org row k;
    revision ← revision_row org (rn_campaign_revision_id run);
    match revision with None => raise InvalidState | Some revision => mret (run, revision) end).

Definition set_release_txn (org run_id workflow_run_id : uuid) : M CampaignRunRecord :=
  tenant_transaction (set_release_run org run_id workflow_run_id).

Definition start_campaign (org campaign_id : uuid) (idempotency_key : option string)
    : M CampaignRunRecord :=
  campaign ← get_campaign org campaign_id;
  created ← start_run_txn org campaign_id (start_key campaign idempotency_key);
  let '(run, revision) := created in
  correlation ← gets w_correlation;
  release ← WorkflowService.start_run fingerprint org {|
    sw_workflow_version_id := cv_release_workflow_version_id revision;
    sw_input := [("campaign_id", JStr (uuid_str campaign_id));
                 ("campaign_run_id", JStr (uuid_str (rn_id run)))];
    sw_idempotency_key := Some ("campaign:release:" +:+ uuid_str (rn_id run));
    sw_correlation_id := correlation |};
  set_release_txn org (rn_id run) (wr_id release).

(** The references of a scheduled release; the two lookups that may fail are fenced. *)
Definition release_references (org occurrence_id workflow_run_id : uuid)
    : M (SchedulerOccurrenceRecord * WorkflowRunRecord) :=
  try_with
    (occurrence ← get_occurrence org occurrence_id;
     workflow ← WorkflowService.get_run org workflow_run_id;
     mret (occurrence, workflow))
    (λ e, match e with
          | Nxs (ScheduleErr OccurrenceNotFoundError) | Nxs (WorkflowErr WorkflowRunNotFoundError) =>
              raise Fenced
          | e => raise e
          end).

Definition release_binding_txn (org campaign_run_id : uuid)
    : M (CampaignRunRecord * CampaignRevisionRecord) :=
  tenant_transaction (
    row ← run_row org campaign_run_id;
    match row with
    | None => raise CampaignRunNotFound
    | Some row =>
        revision ← revision_row org (rn_campaign_revision_id row);
        match revision with None => raise Fenced | Some revision => mret (row, revision) end
    end).

Definition bridge_scheduled_release (org campaign_run_id occurrence_id workflow_run_id : uuid)
    : M CampaignRunRecord :=
  references ← release_references org occurrence_id workflow_run_id;
  let '(occurrence, workflow) := references in
  binding ← release_binding_txn org campaign_run_id;
  let '(row, revision) := binding in
  let expected := JObj (release_input (rn_campaign_id row) (rn_campaign_revision_id row) (rn_id row)) in
  let version := cv_release_workflow_version_id revision in
  match rn_schedule_id row with
  | None => raise Fenced
  | Some schedule_id =>
      schedule ← get_schedule org schedule_id;
      if negb (bool_decide (so_state occurrence = OccurrenceState.DISPATCHED)) then raise InvalidState
      else if negb (N.eqb (so_schedule_id occurrence) schedule_id) ||
              negb (N.eqb (ss_id schedule) schedule_id) then raise Fenced
      else if negb (bool_decide (so_workflow_run_id occurrence = Some workflow_run_id)) ||
              negb (N.eqb (wr_id workflow) workflow_run_id) then raise Fenced
      else if negb (N.eqb (ss_workflow_version_id schedule) version) ||
              negb (N.eqb (so_workflow_version_id occurrence) version) ||
              negb (N.eqb (wr_version_id workflow) version) then raise Fenced
      else if negb (py_eq (JObj (ss_input_payload schedule)) expected) ||
              negb (py_eq (JObj (wr_input_payload workflow)) expected) then raise Fenced
      else if bool_decide (wr_state workflow ∈ [WorkflowRunState.FAILED; WorkflowRunState.CANCELLED])
      then raise InvalidState
      else
        tenant_transaction (bind_scheduled_release org campaign_run_id schedule_id (so_id occurrence)
          (wr_id workflow) (wr_version_id workflow))
  end.

(** ** Activation *)

Definition release_run_txn (org campaign_run_id : uuid) : M (option uuid) :=
  execution_transaction org (
    row ← run_row org campaign_run_id;
    match row with
    | None => raise CampaignRunNotFound
    | Some row => mret (rn_release_workflow_run_id row)
    end).

Definition activate_txn (org campaign_run_id : uuid) : M CampaignRunRecord :=
  execution_transaction org (begin_run_activation org campaign_run_id).

Definition materialize_attempts_txn (org campaign_run_id : uuid) : M CampaignRunRecord :=
  execution_transaction org (
    result ← materialize_attempt_batch digest org campaign_run_id MATERIALIZATION_BATCH;
    mret (fst result)).

Definition announce_started_txn (org campaign_id : uuid) : M unit :=
  execution_transaction org (
    campaign ← found_campaign org campaign_id;
    campaign_event org "campaign.started" campaign None).

Definition confirm_release (org campaign_run_id : uuid) : M CampaignRunRecord :=
  release_id ← release_run_txn org campaign_run_id;
  match release_id with
  | None => raise InvalidState
  | Some release_id =>
      release ← WorkflowService.get_run org release_id;
      if negb (bool_decide (wr_state release = WorkflowRunState.COMPLETED)) then raise InvalidState
      else
        run ← activate_txn org campaign_run_id;
        run ← (if rn_attempt_materialization_complete run then mret run
               else materialize_attempts_txn org campaign_run_id);
        if negb (rn_attempt_materialization_complete run) then mret run
        else
          _ ← announce_started_txn org (rn_campaign_id run);
          mret run
  end.

(** ** Recipients *)

Definition claim_recipient (locked : list uuid) (org campaign_run_id owner_id : uuid)
    : M (option RecipientClaim) :=
  execution_transaction org (
    claim ← CampaignRepository.claim_recipient locked org campaign_run_id owner_id;
    _ ← match claim with
        | Some c => recipient_event org "campaign.recipient.claimed" c
        | None => mret tt
        end;
    mret claim).

Definition claim_revision_txn (org : uuid) (claim : RecipientClaim) : M CampaignRevisionRecord :=
  execution_transaction org (
    revision ← revision_row org (rn_campaign_revision_id (cl_run claim));
    match revision with None => raise Fenced | Some revision => mret revision end).

Definition workflow_started_txn (org : uuid) (claim : RecipientClaim) (workflow_run_id : uuid)
    : M CampaignRecipientAttemptRecord :=
  execution_transaction org (
    attempt ← mark_workflow_started org claim workflow_run_id;
    _ ← recipient_event org "campaign.recipient.workflow_started"
          (mkRecipientClaim (cl_run claim) (cl_recipient claim) attempt (cl_owner_id claim)
             (cl_claim_token claim));
    mret attempt).

Definition start_recipient_workflow (org : uuid) (claim : RecipientClaim)
    : M CampaignRecipientAttemptRecord :=
  revision ← claim_revision_txn org claim;
  correlation ← gets w_correlation;
  workflow ← WorkflowService.start_run fingerprint org {|
    sw_workflow_version_id := cv_recipient_workflow_version_id revision;
    sw_input := [("campaign_id", JStr (uuid_str (rn_campaign_id (cl_run claim))));
                 ("campaign_run_id", JStr (uuid_str (rn_id (cl_run claim))));
                 ("recipient_id", JStr (uuid_str (rc_id (cl_recipient claim))))];
    sw_idempotency_key := Some (ra_p14_idempotency_key (cl_attempt claim));
    sw_correlation_id := correlation |};
  workflow_started_txn org claim (wr_id workflow).

Definition workflow_completed_txn (org : uuid) (claim : RecipientClaim)
    : M CampaignRecipientAttemptRecord :=
  execution_transaction org (mark_workflow_completed org claim).

Definition confirm_recipient_workflow (org : uuid) (claim : RecipientClaim)
    : M CampaignRecipientAttemptRecord :=
  workflow_run_id ← execution_transaction org (owned_workflow_run_id org claim);
  workflow ← WorkflowService.get_run org workflow_run_id;
  if negb (bool_decide (wr_state workflow = WorkflowRunState.COMPLETED)) then raise InvalidState
  else if match wr_output_payload workflow with
          | Some output => 16384 <? str_length output
          | None => false
          end
  then raise InvalidState
  else workflow_completed_txn org claim.

Definition authorize_txn (org : uuid) (claim : RecipientClaim)
    : M (option CampaignSendPermitRecord * option EligibilityReason) :=
  execution_transaction org (authorize_permit zoneinfo org claim).

Definition authorize_send (org : uuid) (claim : RecipientClaim) : M CampaignSendPermitRecord :=
  decision ← authorize_txn org claim;
  match decision with
  | (_, Some _) => raise InvalidState
  | (None, None) => raise Fenced
  | (Some permit, None) => mret permit
  end.

(** ** Sending *)

Definition send_context_txn (org permit_id : uuid)
    : M (CampaignSendPermitRecord * CampaignDraft * CampaignRecipientRecord *
         CampaignRecipientAttemptRecord * option CustomerIdentityRecord) :=
  tenant_transaction (
    context ← dispatch_context org permit_id;
    let '(permit, spec, recipient, attempt) := context in
    identity ← gets (λ w, List.find (λ i, N.eqb (ci_organization_id i) org &&
      N.eqb (ci_id i) (rc_identity_id recipient)) (cdb_identities (db_customer (w_db w))));
    mret (permit, spec, recipient, attempt, identity)).

Definition consume_txn (org : uuid) (permit : CampaignSendPermitRecord) (message_id : uuid)
    (recipient : CampaignRecipientRecord) (attempt : CampaignRecipientAttemptRecord)
    : M CampaignSendPermitRecord :=
  tenant_transaction (
    consumed ← consume_permit org (pm_id permit) (pm_permit_token permit) message_id;
    current ← run_row org (ra_campaign_run_id attempt);
    match current with
    | None => raise CampaignRunNotFound
    | Some run =>
        _ ← recipient_event org "campaign.recipient.dispatched"
              (mkRecipientClaim run recipient attempt (default 0%N (ra_owner_id attempt))
                 (default 0%N (ra_claim_token attempt)));
        _ ← (if bool_decide (rn_state run = CampaignRunState.COMPLETED) then
               campaign ← campaign_row org (rn_campaign_id run);
               match campaign with
               | Some campaign => campaign_event org "campaign.completed" campaign None
               | None => mret tt
               end
             else mret tt);
        mret consumed
    end).

Definition message_request (permit : CampaignSendPermitRecord) (spec : CampaignDraft)
    (recipient : CampaignRecipientRecord) (destination : string) (correlation : option string)
    : SendMessageRequest := {|
  sm_account_id := cd_account_id spec;
  sm_conversation_id := rc_conversation_id recipient;
  sm_to := [mkOutbound destination None];
  sm_content := cd_content spec;
  sm_subject := cd_subject spec;
  sm_reply_to_message_id := None;
  sm_idempotency_key := Some (pm_p09_idempotency_key permit);
  sm_correlation_id := correlation |}.

Definition dispatch_send (org permit_id : uuid) : M CampaignSendPermitRecord :=
  context ← send_context_txn org permit_id;
  let '(permit, spec, recipient, attempt, identity) := context in
  match pm_state permit, identity with
  | SendPermitState.CONSUMED, _ => mret permit
  | SendPermitState.AUTHORIZED, Some identity =>
      if negb (String.eqb (digest (ci_normalized_value identity)) (rc_destination_fingerprint recipient))
      then raise Fenced
      else
        correlation ← gets w_correlation;
        message_id ← try_with
          (messaging_send org (message_request permit spec recipient (ci_normalized_value identity)
             correlation))
          (λ e, match e with
                | Nxs exc => raise (Nxs (CampaignErr (CampaignDispatchFailedError (code exc))))
                | e => raise e
                end);
        consume_txn org permit message_id recipient attempt
  | _, _ => raise Fenced
  end.

(** ** Policies and lifecycle *)

Definition set_contact_preference (org : uuid) (r : ContactPreferenceRequest) : M Z :=
  tenant_transaction (set_preference org (cq_customer_id r) (cq_identity_id r) (cq_channel r)
    (cq_consent_granted r) (cq_unsubscribed r) (cq_do_not_contact r) (cq_evidence_ref r)).

Definition add_suppression (org : uuid) (request : SuppressionRequest) : M Z :=
  tenant_transaction (CampaignRepository.add_suppression org request).

(** [_transition] *)
Definition transition (org campaign_id : uuid) (target : CampaignState) (reason event_type : string)
    : M CampaignRecord :=
  tenant_transaction (
    _ ← found_campaign org campaign_id;
    campaign ← transition_campaign_state org campaign_id target reason;
    _ ← campaign_event org event_type campaign None;
    mret campaign).

Definition pause_campaign (org campaign_id : uuid) : M CampaignRecord :=
  transition org campaign_id CampaignState.PAUSED "CAMPAIGN_PAUSED" "campaign.paused".

Definition resume_campaign (org campaign_id : uuid) : M CampaignRecord :=
  tenant_transaction (
    campaign ← CampaignRepository.resume_campaign org campaign_id;
    _ ← campaign_event org "campaign.resumed" campaign None;
    mret campaign).

Definition begin_cancel_txn (org campaign_id : uuid) : M CampaignRecord :=
  tenant_transaction (begin_cancellation org campaign_id).

Definition cancel_batch_txn (locked : list uuid) (org campaign_id : uuid) : M CampaignRecord :=
  tenant_transaction (
    result ← cancel_attempt_batch locked org campaign_id CANCELLATION_BATCH;
    mret (fst (fst result))).

Definition cancel_campaign (locked : list uuid) (org campaign_id : uuid) : M CampaignRecord :=
  campaign ← begin_cancel_txn org campaign_id;
  campaign ← (if bool_decide (cp_state campaign = CampaignState.CANCELLED) then mret campaign
              else cancel_batch_txn locked org campaign_id);
  if negb (bool_decide (cp_state campaign = CampaignState.CANCELLED)) then mret campaign
  else
    _ ← tenant_transaction (campaign_event org "campaign.cancelled" campaign None);
    mret campaign.

(** ** Reads *)

Definition audience (org campaign_id : uuid) (limit offset : Z) : M (list CampaignRecipientRecord) :=
  _ ← get_campaign org campaign_id;
  tenant_transaction (CampaignRepository.audience org campaign_id limit offset).

Definition campaign_run_list (org campaign_id : uuid) (limit : Z) : M (list CampaignRunRecord) :=
  _ ← get_campaign org campaign_id;
  tenant_transaction (campaign_runs org campaign_id limit).

Definition transitions (org campaign_id : uuid) (limit : Z) : M (list CampaignTransitionHistoryRecord) :=
  _ ← get_campaign org campaign_id;
  tenant_transaction (CampaignRepository.transitions org campaign_id limit).

End service.
