(* ===== verification/CampaignSpec.v ===== *)
(** * CampaignSpec: what campaigns promise about their tables

    The abstract specification of [CampaignRepository]: [Core] are the tables that
    carry authority (campaigns, revisions, snapshots, recipients, runs, attempts and
    permits, not the policies, throttle windows and history), [effect] the changes a
    transaction may make to them, with the conditions under which it may, and [kinv]
    the invariant. [CampaignEffects] shows that every effect keeps the invariant,
    [CampaignOps] that every operation of the repository is a sequence of effects. *)

From S2P Require Import Prelude.
From S2P Require Import Errors.
From S2P Require Import Lifecycles.
From S2P Require Import MessagingStore.
From S2P Require Import CustomerStore.
From S2P Require Import CampaignStore.
From S2P Require Import Store.
From S2P Require Import Tables.
From S2P Require Import CampaignRepository.

Record Core : Type := mkCore {
  k_campaigns : list CampaignRecord;
  k_revisions : list CampaignRevisionRecord;
  k_snapshots : list CampaignAudienceSnapshotRecord;
  k_recipients : list CampaignRecipientRecord;
  k_runs : list CampaignRunRecord;
  k_attempts : list CampaignRecipientAttemptRecord;
  k_permits : list CampaignSendPermitRecord;
}.

Definition core (c : CampaignDB) : Core :=
  mkCore (cdb_campaigns c) (cdb_revisions c) (cdb_snapshots c) (cdb_recipients c) (cdb_runs c)
    (cdb_attempts c) (cdb_permits c).

Definition core_of (w : World) : Core := core (db_campaign (w_db w)).

(** ** Columns no operation assigns *)

Definition recipient_ident (r : CampaignRecipientRecord) :=
  (rc_id r, rc_organization_id r, rc_snapshot_id r, rc_customer_id r, rc_identity_id r,
   rc_conversation_id r, rc_channel r, rc_destination_fingerprint r, rc_created_at r).

Definition run_ident (r : CampaignRunRecord) :=
  (rn_id r, rn_organization_id r, rn_campaign_id r, rn_campaign_revision_id r,
   rn_audience_snapshot_id r, rn_idempotency_key r, rn_created_at r).

Definition attempt_ident (a : CampaignRecipientAttemptRecord) :=
  (ra_id a, ra_organization_id a, ra_campaign_run_id a, ra_recipient_id a, ra_logical_identity a,
   ra_p14_idempotency_key a, ra_p09_idempotency_key a, ra_created_at a).

Definition permit_ident (p : CampaignSendPermitRecord) :=
  (pm_id p, pm_organization_id p, pm_recipient_attempt_id p, pm_permit_token p, pm_consent_epoch p,
   pm_suppression_epoch p, pm_p09_idempotency_key p, pm_authorized_at p).

Definition snapshot_ident (s : CampaignAudienceSnapshotRecord) :=
  (sn_id s, sn_organization_id s, sn_campaign_revision_id s).

(** The progress of a run: its cursor, its completion and its counters. *)
Definition run_counts (r : CampaignRunRecord) :=
  (rn_claimed_count r, rn_dispatched_count r, rn_suppressed_count r, rn_authorized_count r,
   rn_cancellation_processed_count r).

Definition run_progress (r : CampaignRunRecord) :=
  (rn_attempt_materialization_cursor r, rn_attempt_materialization_complete r).

(** ** Derived views *)

Definition in_run (r : CampaignRunRecord) (a : CampaignRecipientAttemptRecord) : bool :=
  N.eqb (ra_campaign_run_id a) (rn_id r).

Definition attempts_of (k : Core) (r : CampaignRunRecord) : list CampaignRecipientAttemptRecord :=
  List.filter (in_run r) (k_attempts k).

Definition in_snapshot (s : CampaignAudienceSnapshotRecord) (r : CampaignRecipientRecord) : bool :=
  N.eqb (rc_snapshot_id r) (sn_id s).

Definition recipients_of (k : Core) (s : CampaignAudienceSnapshotRecord) : list CampaignRecipientRecord :=
  List.filter (in_snapshot s) (k_recipients k).

(** [sendable_recipients] of a run, on the core. *)
Definition sendable_of (k : Core) (r : CampaignRunRecord) : list CampaignRecipientRecord :=
  by_creation rc_created_at rc_id
    (List.filter (sendable (rn_organization_id r) (rn_audience_snapshot_id r)) (k_recipients k)).

Definition sendable_state (s : RecipientState) : bool :=
  bool_decide (s ∈ [RecipientState.ELIGIBLE; RecipientState.DEFERRED]).

(** The permit of an attempt exists exactly in these states. *)
Definition permitted (a : CampaignRecipientAttemptRecord) : bool :=
  bool_decide (ra_state a ∈ [RecipientAttemptState.DISPATCH_AUTHORIZED; RecipientAttemptState.DISPATCHED]).

Definition claimed (a : CampaignRecipientAttemptRecord) : bool :=
  match ra_claim_token a with Some _ => true | None => false end.

Definition in_state (s : RecipientAttemptState) (a : CampaignRecipientAttemptRecord) : bool :=
  bool_decide (ra_state a = s).

Definition settled (a : CampaignRecipientAttemptRecord) : bool :=
  bool_decide (ra_state a ∈ settled_states).

(** A run that was activated: it materialises, has materialised, or has attempts. *)
Definition active (k : Core) (r : CampaignRunRecord) : Prop :=
  rn_state r = CampaignRunState.MATERIALIZING ∨ rn_attempt_materialization_complete r = true ∨
  ∃ a, a ∈ k_attempts k ∧ ra_campaign_run_id a = rn_id r.

(** The states a campaign can have after one of its runs was activated. *)
Definition started (s : CampaignState) : bool :=
  bool_decide (s ∉ [CampaignState.DRAFT; CampaignState.PREPARING; CampaignState.READY;
                    CampaignState.SCHEDULED]).

(** What the counters of a run count. *)
Definition tally (k : Core) (r : CampaignRunRecord) :=
  let l := attempts_of k r in
  (countb claimed l, countb (in_state RecipientAttemptState.DISPATCHED) l,
   countb (in_state RecipientAttemptState.SUPPRESSED) l, countb permitted l,
   countb (in_state RecipientAttemptState.CANCELLED) l).

Definition member_of (r : CampaignRecipientRecord) : AudienceMemberInput :=
  {| am_customer_id := rc_customer_id r; am_identity_id := rc_identity_id r;
     am_conversation_id := rc_conversation_id r |}.

(** The permit agrees with its attempt. *)
Definition permit_matches (p : CampaignSendPermitRecord) (a : CampaignRecipientAttemptRecord) : Prop :=
  pm_p09_idempotency_key p = ra_p09_idempotency_key a ∧
  pm_message_id p = ra_message_id a ∧
  (pm_state p = SendPermitState.AUTHORIZED ∧ ra_state a = RecipientAttemptState.DISPATCH_AUTHORIZED ∧
     pm_message_id p = None ∨
   pm_state p = SendPermitState.CONSUMED ∧ ra_state a = RecipientAttemptState.DISPATCHED ∧
     is_Some (pm_message_id p)).

(** An attempt nobody claimed has no token, one without a permit no message. *)
Definition attempt_ok (a : CampaignRecipientAttemptRecord) : Prop :=
  (ra_state a = RecipientAttemptState.PENDING → ra_claim_token a = None) ∧
  (permitted a = false → ra_message_id a = None).

(** ** The invariant *)

(** The rows a run refers to. *)
Definition run_refers (k : Core) (r : CampaignRunRecord) : Prop :=
  ∃ p v s, p ∈ k_campaigns k ∧ v ∈ k_revisions k ∧ s ∈ k_snapshots k ∧
    cp_id p = rn_campaign_id r ∧ cp_organization_id p = rn_organization_id r ∧
    cv_id v = rn_campaign_revision_id r ∧ cv_organization_id v = rn_organization_id r ∧
    cv_campaign_id v = rn_campaign_id r ∧
    sn_id s = rn_audience_snapshot_id r ∧ sn_organization_id s = rn_organization_id r ∧
    sn_campaign_revision_id s = rn_campaign_revision_id r ∧ sn_state s = SnapshotState.SEALED.

Definition attempt_refers (k : Core) (a : CampaignRecipientAttemptRecord) : Prop :=
  ∃ r rc, r ∈ k_runs k ∧ rc ∈ k_recipients k ∧
    rn_id r = ra_campaign_run_id a ∧ rn_organization_id r = ra_organization_id a ∧
    rc_id rc = ra_recipient_id a ∧ rc_organization_id rc = ra_organization_id a ∧
    rc_snapshot_id rc = rn_audience_snapshot_id r.

(** While a run materialises, its attempts are the first [cursor] sendable recipients,
    none of them claimed. *)
Definition materializing_ok (k : Core) (r : CampaignRunRecord) : Prop :=
  rn_attempt_materialization_complete r = false ∧ 0 ≤ rn_attempt_materialization_cursor r ∧
  map ra_recipient_id (attempts_of k r) =
    map rc_id (take (Z.to_nat (rn_attempt_materialization_cursor r)) (sendable_of k r)) ∧
  ∀ a, a ∈ attempts_of k r → ra_state a = RecipientAttemptState.PENDING.

(** A materialised run has an attempt for every recipient that may still be sent to. *)
Definition complete_ok (k : Core) (r : CampaignRunRecord) : Prop :=
  rn_state r ∉ [CampaignRunState.PENDING_RELEASE; CampaignRunState.MATERIALIZING] ∧
  ∀ rc, rc ∈ k_recipients k → sendable (rn_organization_id r) (rn_audience_snapshot_id r) rc = true →
    ∃ a, a ∈ attempts_of k r ∧ ra_recipient_id a = rc_id rc.

(** The recipients of a snapshot are the members of the audience its cursor has passed. *)
Definition snapshot_ok (k : Core) (s : CampaignAudienceSnapshotRecord) : Prop :=
  ∃ v, v ∈ k_revisions k ∧ cv_id v = sn_campaign_revision_id s ∧
    cv_organization_id v = sn_organization_id s ∧
    0 ≤ sn_cursor s ≤ Z.of_nat (length (cd_audience (cv_specification v))) ∧
    map member_of (recipients_of k s) =
      take (Z.to_nat (sn_cursor s)) (cd_audience (cv_specification v)) ∧
    sn_resolved_count s = sn_cursor s ∧
    sn_eligible_count s + sn_rejected_count s = sn_resolved_count s ∧
    (sn_state s = SnapshotState.SEALED →
     sn_cursor s = Z.of_nat (length (cd_audience (cv_specification v)))).

Record kinv (k : Core) (n : uuid) : Prop := {
  ki_campaigns : keyed cp_id n (k_campaigns k);
  ki_revisions : keyed cv_id n (k_revisions k);
  ki_snapshots : keyed sn_id n (k_snapshots k);
  ki_recipients : keyed rc_id n (k_recipients k);
  ki_runs : keyed rn_id n (k_runs k);
  ki_attempts : keyed ra_id n (k_attempts k);
  ki_permits : keyed pm_id n (k_permits k);
  ki_recipient_unique : NoDup (map (λ r, (rc_snapshot_id r, rc_customer_id r, rc_channel r)) (k_recipients k));
  ki_attempt_unique : NoDup (map (λ a, (ra_campaign_run_id a, ra_recipient_id a)) (k_attempts k));
  ki_attempt_key : NoDup (map (λ a, (ra_organization_id a, ra_p09_idempotency_key a)) (k_attempts k));
  ki_permit_unique : NoDup (map pm_recipient_attempt_id (k_permits k));
  ki_recipient_ref : ∀ rc, rc ∈ k_recipients k →
    ∃ s, s ∈ k_snapshots k ∧ sn_id s = rc_snapshot_id rc ∧ sn_organization_id s = rc_organization_id rc;
  ki_run_ref : ∀ r, r ∈ k_runs k → run_refers k r;
  ki_attempt_ref : ∀ a, a ∈ k_attempts k → attempt_refers k a;
  ki_permit_ref : ∀ p, p ∈ k_permits k → ∃ a, a ∈ k_attempts k ∧ ra_id a = pm_recipient_attempt_id p ∧
    ra_organization_id a = pm_organization_id p ∧ permit_matches p a;
  ki_attempt_ok : ∀ a, a ∈ k_attempts k → attempt_ok a;
  ki_prepared : ∀ p id, p ∈ k_campaigns k → cp_prepared_revision_id p = Some id →
    ∃ v, v ∈ k_revisions k ∧ cv_id v = id ∧ cv_campaign_id v = cp_id p;
  ki_permitted : ∀ a, a ∈ k_attempts k → permitted a = true →
    ∃ p, p ∈ k_permits k ∧ pm_recipient_attempt_id p = ra_id a;
  ki_active : ∀ r p, r ∈ k_runs k → p ∈ k_campaigns k → cp_id p = rn_campaign_id r →
    active k r → started (cp_state p) = true;
  ki_one_active : ∀ r1 r2, r1 ∈ k_runs k → r2 ∈ k_runs k → rn_campaign_id r1 = rn_campaign_id r2 →
    active k r1 → active k r2 → r1 = r2;
  ki_pending : ∀ r, r ∈ k_runs k → rn_state r = CampaignRunState.PENDING_RELEASE → run_progress r = (0, false);
  ki_materializing : ∀ r, r ∈ k_runs k → rn_state r = CampaignRunState.MATERIALIZING → materializing_ok k r;
  ki_complete : ∀ r, r ∈ k_runs k → rn_attempt_materialization_complete r = true → complete_ok k r;
  ki_completed : ∀ r, r ∈ k_runs k → rn_state r = CampaignRunState.COMPLETED →
    ∀ a, a ∈ attempts_of k r → settled a = true;
  ki_counts : ∀ r, r ∈ k_runs k → run_counts r = tally k r;
  ki_snapshot_ok : ∀ s, s ∈ k_snapshots k → snapshot_ok k s;
}.

(** ** Effects *)

(** The moves of a run; the terminal states of [RUN_TERMINAL] have none. *)
Definition RUN_TERMINAL : list CampaignRunState :=
  [CampaignRunState.COMPLETED; CampaignRunState.FAILED; CampaignRunState.CANCELLED].

Definition run_moves (s : CampaignRunState) : list CampaignRunState :=
  match s with
  | CampaignRunState.PENDING_RELEASE =>
      [CampaignRunState.MATERIALIZING; CampaignRunState.PAUSED; CampaignRunState.FAILED;
       CampaignRunState.CANCELLING]
  | CampaignRunState.MATERIALIZING => [CampaignRunState.RUNNING; CampaignRunState.CANCELLING]
  | CampaignRunState.RUNNING =>
      [CampaignRunState.PAUSED; CampaignRunState.COMPLETED; CampaignRunState.FAILED;
       CampaignRunState.CANCELLING]
  | CampaignRunState.PAUSED => [CampaignRunState.RUNNING; CampaignRunState.CANCELLING]
  | CampaignRunState.CANCELLING => [CampaignRunState.CANCELLED]
  | CampaignRunState.COMPLETED | CampaignRunState.FAILED | CampaignRunState.CANCELLED => []
  end.

(** A new version of a campaign, in place. *)
Definition same_campaign (p0 p : CampaignRecord) : Prop :=
  cp_id p = cp_id p0 ∧ cp_organization_id p = cp_organization_id p0 ∧
  cp_campaign_key p = cp_campaign_key p0.

(** What happens to the permits when an attempt moves: nothing, a grant or a
    consumption. *)
Inductive permit_step (org n n' : uuid) (k : Core) (a0 a : CampaignRecipientAttemptRecord)
    : list CampaignSendPermitRecord → Prop :=
| PS_none :
    permitted a0 = permitted a → ra_message_id a = ra_message_id a0 →
    (permitted a = true → ra_state a = ra_state a0) → permit_step org n n' k a0 a (k_permits k)
| PS_grant p :
    permitted a0 = false → ra_state a = RecipientAttemptState.DISPATCH_AUTHORIZED →
    ra_message_id a = ra_message_id a0 → (n ≤ pm_id p < n')%N → pm_organization_id p = org →
    pm_recipient_attempt_id p = ra_id a0 → pm_p09_idempotency_key p = ra_p09_idempotency_key a0 →
    pm_state p = SendPermitState.AUTHORIZED → pm_message_id p = None →
    permit_step org n n' k a0 a (k_permits k ++ [p])
| PS_consume p0 p m :
    p0 ∈ k_permits k → pm_recipient_attempt_id p0 = ra_id a0 → permit_ident p = permit_ident p0 →
    pm_state p0 = SendPermitState.AUTHORIZED → pm_state p = SendPermitState.CONSUMED →
    ra_state a0 = RecipientAttemptState.DISPATCH_AUTHORIZED →
    ra_state a = RecipientAttemptState.DISPATCHED →
    pm_message_id p = Some m → ra_message_id a = Some m →
    permit_step org n n' k a0 a (upd pm_id p (k_permits k)).

(** The claim columns move once, when a pending attempt is claimed. *)
Definition claim_step (a0 a : CampaignRecipientAttemptRecord) : Prop :=
  ra_claim_token a = ra_claim_token a0 ∧ ra_owner_id a = ra_owner_id a0 ∧
    (ra_state a = RecipientAttemptState.PENDING → ra_state a0 = RecipientAttemptState.PENDING) ∨
  ra_state a0 = RecipientAttemptState.PENDING ∧ ra_state a = RecipientAttemptState.CLAIMED ∧
    is_Some (ra_claim_token a).

Definition gain (p : CampaignRecipientAttemptRecord → bool) (a0 a : CampaignRecipientAttemptRecord) : Z :=
  Z.b2z (p a) - Z.b2z (p a0).

(** The counters of a run follow the attempt. *)
Definition counts_step (r0 r : CampaignRunRecord) (a0 a : CampaignRecipientAttemptRecord) : Prop :=
  rn_claimed_count r = rn_claimed_count r0 + gain claimed a0 a ∧
  rn_dispatched_count r = rn_dispatched_count r0 + gain (in_state RecipientAttemptState.DISPATCHED) a0 a ∧
  rn_suppressed_count r = rn_suppressed_count r0 + gain (in_state RecipientAttemptState.SUPPRESSED) a0 a ∧
  rn_authorized_count r = rn_authorized_count r0 + gain permitted a0 a ∧
  rn_cancellation_processed_count r =
    rn_cancellation_processed_count r0 + gain (in_state RecipientAttemptState.CANCELLED) a0 a.

(** Claims and permits are given only while the run and its campaign run, permits only
    below the limit of the campaign. *)
Definition running (k : Core) (r : CampaignRunRecord) : Prop :=
  rn_state r = CampaignRunState.RUNNING ∧
  ∃ p, p ∈ k_campaigns k ∧ cp_id p = rn_campaign_id r ∧ cp_state p = CampaignState.RUNNING.

Definition campaign_limit (v : CampaignRevisionRecord) : Z := th_campaign_limit (cd_throttle (cv_specification v)).

Definition below_limit (k : Core) (r : CampaignRunRecord) : Prop :=
  ∃ v, v ∈ k_revisions k ∧ cv_id v = rn_campaign_revision_id r ∧ rn_authorized_count r < campaign_limit v.

(** The attempts of one batch of materialisation. *)
Definition fresh_attempt (org : uuid) (r : CampaignRunRecord) (a : CampaignRecipientAttemptRecord) : Prop :=
  ra_campaign_run_id a = rn_id r ∧ ra_organization_id a = org ∧
  ra_state a = RecipientAttemptState.PENDING ∧ ra_claim_token a = None ∧ ra_message_id a = None.

(** [effect org n n' k k']: a transaction of [org] that issues the UUIDs from [n] to
    [n'] may change the core from [k] to [k']. *)
Inductive effect (org n n' : uuid) (k : Core) : Core → Prop :=
| E_new_campaign p :
    (n ≤ cp_id p < n')%N → cp_organization_id p = org → cp_state p = CampaignState.DRAFT →
    cp_prepared_revision_id p = None →
    effect org n n' k (mkCore (k_campaigns k ++ [p]) (k_revisions k) (k_snapshots k) (k_recipients k)
      (k_runs k) (k_attempts k) (k_permits k))
| E_campaign p0 p :
    p0 ∈ k_campaigns k → cp_organization_id p0 = org → same_campaign p0 p →
    cp_prepared_revision_id p = cp_prepared_revision_id p0 →
    (cp_state p = cp_state p0 ∨ legal (cp_state p0) (cp_state p)) →
    (cp_draft_specification p ≠ cp_draft_specification p0 → cp_state p0 = CampaignState.DRAFT) →
    effect org n n' k (mkCore (upd cp_id p (k_campaigns k)) (k_revisions k) (k_snapshots k)
      (k_recipients k) (k_runs k) (k_attempts k) (k_permits k))
| E_prepare p0 p v s :
    p0 ∈ k_campaigns k → cp_organization_id p0 = org → same_campaign p0 p →
    cp_prepared_revision_id p = cp_prepared_revision_id p0 →
    cp_state p0 = CampaignState.DRAFT → cp_state p = CampaignState.PREPARING →
    (n ≤ cv_id v < n')%N → cv_organization_id v = org → cv_campaign_id v = cp_id p0 →
    cv_specification v = cp_draft_specification p0 →
    (n ≤ sn_id s < n')%N → sn_organization_id s = org → sn_campaign_revision_id s = cv_id v →
    sn_state s = SnapshotState.OPEN → sn_cursor s = 0 → sn_resolved_count s = 0 →
    sn_eligible_count s = 0 → sn_rejected_count s = 0 →
    effect org n n' k (mkCore (upd cp_id p (k_campaigns k)) (k_revisions k ++ [v]) (k_snapshots k ++ [s])
      (k_recipients k) (k_runs k) (k_attempts k) (k_permits k))
| E_audience s0 s v rcs :
    s0 ∈ k_snapshots k → sn_organization_id s0 = org → sn_state s0 = SnapshotState.OPEN →
    sn_state s = SnapshotState.OPEN → snapshot_ident s = snapshot_ident s0 →
    v ∈ k_revisions k → cv_id v = sn_campaign_revision_id s0 →
    Forall (λ rc, rc_snapshot_id rc = sn_id s0 ∧ rc_organization_id rc = org) rcs →
    keyed rc_id n' (k_recipients k ++ rcs) →
    NoDup (map (λ r, (rc_snapshot_id r, rc_customer_id r, rc_channel r)) (k_recipients k ++ rcs)) →
    map member_of rcs =
      take (length rcs) (drop (Z.to_nat (sn_cursor s0)) (cd_audience (cv_specification v))) →
    sn_cursor s = sn_cursor s0 + Z.of_nat (length rcs) →
    sn_resolved_count s = sn_resolved_count s0 + Z.of_nat (length rcs) →
    sn_eligible_count s + sn_rejected_count s =
      sn_eligible_count s0 + sn_rejected_count s0 + Z.of_nat (length rcs) →
    effect org n n' k (mkCore (k_campaigns k) (k_revisions k) (upd sn_id s (k_snapshots k))
      (k_recipients k ++ rcs) (k_runs k) (k_attempts k) (k_permits k))
| E_seal p0 p s0 s v :
    p0 ∈ k_campaigns k → cp_organization_id p0 = org → same_campaign p0 p →
    cp_state p0 = CampaignState.PREPARING → cp_state p = CampaignState.READY →
    v ∈ k_revisions k → cv_campaign_id v = cp_id p0 → cp_prepared_revision_id p = Some (cv_id v) →
    s0 ∈ k_snapshots k → sn_organization_id s0 = org → sn_campaign_revision_id s0 = cv_id v →
    snapshot_ident s = snapshot_ident s0 → sn_state s = SnapshotState.SEALED →
    sn_cursor s = sn_cursor s0 → sn_resolved_count s = sn_resolved_count s0 →
    sn_eligible_count s = sn_eligible_count s0 → sn_rejected_count s = sn_rejected_count s0 →
    sn_cursor s0 = Z.of_nat (length (cd_audience (cv_specification v))) →
    effect org n n' k (mkCore (upd cp_id p (k_campaigns k)) (k_revisions k) (upd sn_id s (k_snapshots k))
      (k_recipients k) (k_runs k) (k_attempts k) (k_permits k))
| E_new_run r :
    (n ≤ rn_id r < n')%N → rn_organization_id r = org → run_refers k r →
    rn_state r = CampaignRunState.PENDING_RELEASE → run_counts r = (0, 0, 0, 0, 0) →
    run_progress r = (0, false) →
    effect org n n' k (mkCore (k_campaigns k) (k_revisions k) (k_snapshots k) (k_recipients k)
      (k_runs k ++ [r]) (k_attempts k) (k_permits k))
| E_run r0 r :
    r0 ∈ k_runs k → rn_organization_id r0 = org → run_ident r = run_ident r0 →
    run_counts r = run_counts r0 → run_progress r = run_progress r0 →
    (rn_state r = rn_state r0 ∨ rn_state r ∈ run_moves (rn_state r0)) →
    (rn_state r = CampaignRunState.MATERIALIZING → rn_state r = rn_state r0) →
    (rn_state r = CampaignRunState.RUNNING → rn_state r0 ≠ CampaignRunState.MATERIALIZING) →
    (rn_state r = CampaignRunState.COMPLETED → rn_state r0 = CampaignRunState.COMPLETED) →
    effect org n n' k (mkCore (k_campaigns k) (k_revisions k) (k_snapshots k) (k_recipients k)
      (upd rn_id r (k_runs k)) (k_attempts k) (k_permits k))
| E_activate p0 p r0 r :
    p0 ∈ k_campaigns k → cp_organization_id p0 = org → same_campaign p0 p →
    cp_prepared_revision_id p = cp_prepared_revision_id p0 →
    cp_state p0 ∈ [CampaignState.READY; CampaignState.SCHEDULED] → cp_state p = CampaignState.RUNNING →
    r0 ∈ k_runs k → rn_campaign_id r0 = cp_id p0 → run_ident r = run_ident r0 →
    run_counts r = run_counts r0 → run_progress r = run_progress r0 →
    rn_state r0 = CampaignRunState.PENDING_RELEASE → rn_state r = CampaignRunState.MATERIALIZING →
    effect org n n' k (mkCore (upd cp_id p (k_campaigns k)) (k_revisions k) (k_snapshots k)
      (k_recipients k) (upd rn_id r (k_runs k)) (k_attempts k) (k_permits k))
| E_materialize r0 r new :
    r0 ∈ k_runs k → rn_organization_id r0 = org → run_ident r = run_ident r0 →
    run_counts r = run_counts r0 → rn_state r0 = CampaignRunState.MATERIALIZING →
    Forall (fresh_attempt org r0) new →
    map ra_recipient_id new = map rc_id
      (take (length new) (drop (Z.to_nat (rn_attempt_materialization_cursor r0)) (sendable_of k r0))) →
    keyed ra_id n' (k_attempts k ++ new) →
    NoDup (map (λ a, (ra_organization_id a, ra_p09_idempotency_key a)) (k_attempts k ++ new)) →
    rn_attempt_materialization_cursor r = rn_attempt_materialization_cursor r0 + Z.of_nat (length new) →
    (rn_state r = CampaignRunState.MATERIALIZING ∧ rn_attempt_materialization_complete r = false ∨
     rn_state r = CampaignRunState.RUNNING ∧ rn_attempt_materialization_complete r = true ∧
       Z.of_nat (length (sendable_of k r0)) ≤ rn_attempt_materialization_cursor r) →
    effect org n n' k (mkCore (k_campaigns k) (k_revisions k) (k_snapshots k) (k_recipients k)
      (upd rn_id r (k_runs k)) (k_attempts k ++ new) (k_permits k))
| E_attempt a0 a r0 r rc0 rc permits :
    a0 ∈ k_attempts k → ra_organization_id a0 = org → attempt_ident a = attempt_ident a0 →
    (ra_state a = ra_state a0 ∨ legal (ra_state a0) (ra_state a)) → claim_step a0 a →
    r0 ∈ k_runs k → rn_id r0 = ra_campaign_run_id a0 → run_ident r = run_ident r0 →
    run_progress r = run_progress r0 → rn_state r = rn_state r0 →
    rn_state r0 ≠ CampaignRunState.MATERIALIZING → counts_step r0 r a0 a →
    rc0 ∈ k_recipients k → rc_id rc0 = ra_recipient_id a0 → recipient_ident rc = recipient_ident rc0 →
    permit_step org n n' k a0 a permits →
    (claimed a0 = false → claimed a = true → running k r0) →
    (permitted a0 = false → permitted a = true → running k r0 ∧ below_limit k r0) →
    effect org n n' k (mkCore (k_campaigns k) (k_revisions k) (k_snapshots k)
      (upd rc_id rc (k_recipients k)) (upd rn_id r (k_runs k)) (upd ra_id a (k_attempts k)) permits)
| E_complete k1 a0 r0 r :
    effect org n n' k k1 → a0 ∈ k_attempts k → ra_state a0 = RecipientAttemptState.DISPATCH_AUTHORIZED →
    r0 ∈ k_runs k1 → rn_organization_id r0 = org → rn_id r0 = ra_campaign_run_id a0 →
    run_ident r = run_ident r0 → run_counts r = run_counts r0 → run_progress r = run_progress r0 →
    rn_state r0 = CampaignRunState.RUNNING → rn_state r = CampaignRunState.COMPLETED →
    (∀ a, a ∈ attempts_of k1 r0 → settled a = true) →
    effect org n n' k (mkCore (k_campaigns k1) (k_revisions k1) (k_snapshots k1) (k_recipients k1)
      (upd rn_id r (k_runs k1)) (k_attempts k1) (k_permits k1)).

(** One step of the specification: the UUID supply advances, an effect may happen. *)
Definition estep (org : uuid) (s s' : Core * uuid) : Prop :=
  (s.2 ≤ s'.2)%N ∧ (s'.1 = s.1 ∨ effect org s.2 s'.2 s.1 s'.1).

Definition esteps (org : uuid) : relation (Core * uuid) := rtc (estep org).
