(* ===== verification/CampaignEffects.v ===== *)
(** * CampaignEffects: every effect keeps the invariant

    One lemma per effect of [CampaignSpec]; [esteps_inv] puts them together. *)

From S2P Require Import Prelude.
From S2P Require Import Errors.
From S2P Require Import Lifecycles.
From S2P Require Import MessagingStore.
From S2P Require Import CustomerStore.
From S2P Require Import CampaignStore.
From S2P Require Import Store.
From S2P Require Import Tables.
From S2P Require Import CampaignRepository.
From S2P Require Import CampaignSpec.

(** Columns from the equality of two identities. *)
Ltac idents :=
  repeat match goal with
  | H : run_ident _ = run_ident _ |- _ => unfold run_ident in H; injection H as ? ? ? ? ? ? ?
  | H : attempt_ident _ = attempt_ident _ |- _ => unfold attempt_ident in H; injection H as ? ? ? ? ? ? ? ?
  | H : recipient_ident _ = recipient_ident _ |- _ =>
      unfold recipient_ident in H; injection H as ? ? ? ? ? ? ? ? ?
  | H : permit_ident _ = permit_ident _ |- _ => unfold permit_ident in H; injection H as ? ? ? ? ? ? ? ?
  | H : snapshot_ident _ = snapshot_ident _ |- _ => unfold snapshot_ident in H; injection H as ? ? ?
  | H : run_progress _ = run_progress _ |- _ => unfold run_progress in H; injection H as ? ?
  | H : same_campaign _ _ |- _ => destruct H as (? & ? & ?)
  end.

(** ** Frame lemmas *)

Lemma started_legal s t : legal s t → started s = true → started t = true.
Proof. unfold legal. destruct s, t; simpl; try done; set_solver. Qed.

Lemma active_frame k k' r r' :
  (rn_state r' = CampaignRunState.MATERIALIZING → rn_state r = CampaignRunState.MATERIALIZING) →
  rn_attempt_materialization_complete r' = rn_attempt_materialization_complete r → rn_id r' = rn_id r →
  (∀ a, a ∈ k_attempts k' → ra_campaign_run_id a = rn_id r →
     ∃ a0, a0 ∈ k_attempts k ∧ ra_campaign_run_id a0 = rn_id r) →
  active k' r' → active k r.
Proof.
  intros H1 H2 H3 H4 [H|[H|(a & Ha & Hr)]]; [left; auto|right; left; congruence|].
  right. right. apply (H4 a); [done|congruence].
Qed.

(** The sendable recipients of a run depend on its snapshot's recipients only. *)
Lemma sendable_of_eq k k' r r' :
  rn_organization_id r' = rn_organization_id r → rn_audience_snapshot_id r' = rn_audience_snapshot_id r →
  List.filter (sendable (rn_organization_id r) (rn_audience_snapshot_id r)) (k_recipients k') =
  List.filter (sendable (rn_organization_id r) (rn_audience_snapshot_id r)) (k_recipients k) →
  sendable_of k' r' = sendable_of k r.
Proof. intros H1 H2 H3. unfold sendable_of. by rewrite H1, H2, H3. Qed.

Lemma attempts_of_ident k r r' : rn_id r' = rn_id r → attempts_of k r' = attempts_of k r.
Proof. intros H. unfold attempts_of, in_run. by rewrite H. Qed.

Lemma elem_of_attempts_of k r a :
  a ∈ attempts_of k r ↔ a ∈ k_attempts k ∧ ra_campaign_run_id a = rn_id r.
Proof. unfold attempts_of. rewrite elem_of_filterb. unfold in_run. by rewrite N.eqb_eq. Qed.

Lemma elem_of_sendable_of k r rc :
  rc ∈ sendable_of k r ↔
  rc ∈ k_recipients k ∧ sendable (rn_organization_id r) (rn_audience_snapshot_id r) rc = true.
Proof.
  unfold sendable_of, by_creation. rewrite merge_sort_Permutation. apply elem_of_filterb.
Qed.

Lemma run_refers_frame k k' r r' :
  run_ident r' = run_ident r →
  (∀ p, p ∈ k_campaigns k → ∃ p', p' ∈ k_campaigns k' ∧ cp_id p' = cp_id p ∧
     cp_organization_id p' = cp_organization_id p) →
  k_revisions k' = k_revisions k ∨ (∃ v, k_revisions k' = k_revisions k ++ [v]) →
  (∀ s, s ∈ k_snapshots k → sn_state s = SnapshotState.SEALED → ∃ s', s' ∈ k_snapshots k' ∧
     snapshot_ident s' = snapshot_ident s ∧ sn_state s' = SnapshotState.SEALED) →
  run_refers k r → run_refers k' r'.
Proof.
  intros Hid Hp Hv Hs (p & v & s & H1 & H2 & H3 & H4 & H5 & H6 & H7 & H8 & H9 & H10 & H11 & H12).
  destruct (Hp p H1) as (p' & Hp' & E1 & E2). destruct (Hs s H3 H12) as (s' & Hs' & E3 & E4).
  assert (Hv' : v ∈ k_revisions k') by (destruct Hv as [-> | (v' & ->)]; [done|apply elem_of_app; auto]).
  idents. exists p', v, s'. repeat split; congruence.
Qed.

Lemma upd_campaign_lives l p0 p n x :
  keyed cp_id n l → p0 ∈ l → same_campaign p0 p → x ∈ l →
  ∃ p', p' ∈ upd cp_id p l ∧ cp_id p' = cp_id x ∧ cp_organization_id p' = cp_organization_id x.
Proof.
  intros Hl H0 (E1 & E2 & _) Hx. destruct (upd_lives cp_id p l x Hx) as (y & Hy & Hk & [-> | [-> Hxp]]); [by exists x|].
  exists p. split; [done|]. split; [done|]. rewrite E2. f_equal. eapply (keyed_inj cp_id); [done..|]. congruence.
Qed.

(** The tables of campaigns, revisions and snapshots change; runs, attempts,
    recipients and permits do not. *)
Lemma kinv_head k n n' camps revs snaps :
  kinv k n → (n ≤ n')%N → keyed cp_id n' camps → keyed cv_id n' revs → keyed sn_id n' snaps →
  let k' := mkCore camps revs snaps (k_recipients k) (k_runs k) (k_attempts k) (k_permits k) in
  (∀ s, s ∈ k_snapshots k → ∃ s', s' ∈ snaps ∧ sn_id s' = sn_id s ∧ sn_organization_id s' = sn_organization_id s) →
  (∀ r, r ∈ k_runs k → run_refers k r → run_refers k' r) →
  (∀ p id, p ∈ camps → cp_prepared_revision_id p = Some id → ∃ v, v ∈ revs ∧ cv_id v = id ∧ cv_campaign_id v = cp_id p) →
  (∀ r p, r ∈ k_runs k → p ∈ camps → cp_id p = rn_campaign_id r → active k r → started (cp_state p) = true) →
  (∀ s, s ∈ snaps → snapshot_ok k' s) →
  kinv k' n'.
Proof.
  intros HI Hn Hc Hv Hs k' Hlive Href Hprep Hact Hok.
  split; simpl; eauto using keyed_mono; try (apply HI); try (eapply keyed_mono; [done|apply HI]).
  { intros rc Hrc. destruct (ki_recipient_ref _ _ HI rc Hrc) as (s & Hs1 & Hs2 & Hs3). destruct (Hlive s Hs1) as (s' & H1 & H2 & H3).
    exists s'. split; [done|]. split; congruence. }
  intros r Hr. apply Href; [done|]. by apply HI.
Qed.

(** A snapshot keeps its recipients and its revision. *)
Lemma snapshot_ok_frame k k' s :
  k_recipients k' = k_recipients k → (∀ v, v ∈ k_revisions k → v ∈ k_revisions k') →
  snapshot_ok k s → snapshot_ok k' s.
Proof.
  intros E Hv (v & H1 & H2 & H3 & H4 & H5 & H6). exists v. unfold recipients_of. rewrite E.
  repeat split; try (by apply Hv); tauto.
Qed.

(** ** Effects on campaigns and audiences *)

Lemma new_campaign_inv org n n' k p :
  (n ≤ n')%N → kinv k n →
  (n ≤ cp_id p < n')%N → cp_organization_id p = org → cp_state p = CampaignState.DRAFT →
  cp_prepared_revision_id p = None →
  kinv (mkCore (k_campaigns k ++ [p]) (k_revisions k) (k_snapshots k) (k_recipients k) (k_runs k)
    (k_attempts k) (k_permits k)) n'.
Proof.
  intros Hn HI [Hid Hid'] Ho Hst Hpre. apply (kinv_head k n); [done|done|eapply keyed_snoc; [apply HI|done..]|eapply keyed_mono; [done|apply HI]|eapply keyed_mono; [done|apply HI]|..].
  - eauto.
  - intros r Hr Href. eapply run_refers_frame; [done|..|exact Href]; simpl; eauto.
    intros q Hq. exists q. split; [|done]. apply elem_of_app. auto.
  - intros q id [Hq| ->%list_elem_of_singleton]%elem_of_app Hq2; [by eapply ki_prepared|congruence].
  - intros r q Hr [Hq| ->%list_elem_of_singleton]%elem_of_app Hqr Ha; [by eapply ki_active|].
    destruct (ki_run_ref _ _ HI r Hr) as (q & _ & _ & Hq & _ & _ & Eq & _).
    apply (ki_campaigns _ _ HI) in Hq. lia.
  - intros s Hs. eapply snapshot_ok_frame, (ki_snapshot_ok _ _ HI), Hs; done.
Qed.

Lemma campaign_inv org n n' k p0 p :
  (n ≤ n')%N → kinv k n →
  p0 ∈ k_campaigns k → cp_organization_id p0 = org → same_campaign p0 p →
  cp_prepared_revision_id p = cp_prepared_revision_id p0 →
  (cp_state p = cp_state p0 ∨ legal (cp_state p0) (cp_state p)) →
  kinv (mkCore (upd cp_id p (k_campaigns k)) (k_revisions k) (k_snapshots k) (k_recipients k) (k_runs k)
    (k_attempts k) (k_permits k)) n'.
Proof.
  intros Hn HI Hp0 Ho Hsame Hprep Hst.
  apply (kinv_head k n); [done|done|apply keyed_upd; eapply keyed_mono; [done|apply HI]|eapply keyed_mono; [done|apply HI]|eapply keyed_mono; [done|apply HI]|..].
  - eauto.
  - intros r Hr Href. eapply run_refers_frame; [done|..|exact Href]; simpl; eauto.
    intros q Hq. eapply (upd_campaign_lives _ p0); [apply HI|done..].
  - intros q id [-> |[Hq _]]%elem_of_upd Hq2; [|by eapply ki_prepared].
    destruct Hsame as (-> & _). eapply (ki_prepared _ _ HI p0); [done|congruence].
  - intros r q Hr [-> |[Hq _]]%elem_of_upd Hqr Ha; [|by eapply ki_active].
    destruct Hsame as (E & _). assert (started (cp_state p0) = true) by (eapply (ki_active _ _ HI r p0); [done..|congruence|done]).
    destruct Hst as [-> |Hl]; [done|]. by eapply started_legal.
  - intros s Hs. eapply snapshot_ok_frame, (ki_snapshot_ok _ _ HI), Hs; done.
Qed.

Lemma prepare_inv org n n' k p0 p v s :
  (n ≤ n')%N → kinv k n →
  p0 ∈ k_campaigns k → cp_organization_id p0 = org → same_campaign p0 p →
  cp_prepared_revision_id p = cp_prepared_revision_id p0 →
  cp_state p0 = CampaignState.DRAFT → cp_state p = CampaignState.PREPARING →
  (n ≤ cv_id v < n')%N → cv_organization_id v = org → cv_campaign_id v = cp_id p0 →
  (n ≤ sn_id s < n')%N → sn_organization_id s = org → sn_campaign_revision_id s = cv_id v →
  sn_state s = SnapshotState.OPEN → sn_cursor s = 0 → sn_resolved_count s = 0 →
  sn_eligible_count s = 0 → sn_rejected_count s = 0 →
  kinv (mkCore (upd cp_id p (k_campaigns k)) (k_revisions k ++ [v]) (k_snapshots k ++ [s]) (k_recipients k)
    (k_runs k) (k_attempts k) (k_permits k)) n'.
Proof.
  intros Hn HI Hp0 Ho Hsame Hprep Hst0 Hst [Hv Hv'] Hvo Hvc [Hs Hs'] Hso Hsr Hss Hcur Hc1 Hc2 Hc3.
  apply (kinv_head k n); [done|done|apply keyed_upd; eapply keyed_mono; [done|apply HI]|eapply keyed_snoc; [apply HI|done..]|eapply keyed_snoc; [apply HI|done..]|..].
  - intros s0 H0. exists s0. split; [apply elem_of_app; auto|done].
  - intros r Hr Href. eapply run_refers_frame; [done|..|exact Href]; simpl; eauto.
    + intros q Hq. eapply (upd_campaign_lives _ p0); [apply HI|done..].
    + intros s0 H0 H1. exists s0. split; [apply elem_of_app; auto|done].
  - intros q id Hq Hq2. assert (∃ v', v' ∈ k_revisions k ∧ cv_id v' = id ∧ cv_campaign_id v' = cp_id q) as (v' & H1 & H2).
    { apply elem_of_upd in Hq as [-> |[Hq _]]; [|by eapply ki_prepared].
      destruct Hsame as (-> & _). eapply (ki_prepared _ _ HI p0); [done|congruence]. }
    exists v'. split; [apply elem_of_app; auto|done].
  - intros r q Hr [-> |[Hq _]]%elem_of_upd Hqr Ha; [|by eapply ki_active].
    destruct Hsame as (E & _). assert (started (cp_state p0) = true) as Hx by (eapply (ki_active _ _ HI r p0); [done..|congruence|done]).
    by rewrite Hst0 in Hx.
  - intros s0 [H0| ->%list_elem_of_singleton]%elem_of_app.
    + apply (ki_snapshot_ok _ _ HI) in H0. eapply snapshot_ok_frame; [..|exact H0]; [done|].
      intros v' H'. apply elem_of_app. auto.
    + exists v. simpl. split; [apply elem_of_app; right; by constructor|]. rewrite Hcur, Hc1, Hc2, Hc3, Hss.
      repeat split; try done; try congruence; try lia. simpl. unfold recipients_of. simpl.
      rewrite filter_nil_not_elem_of; [done|]. intros rc Hrc. apply N.eqb_neq.
      destruct (ki_recipient_ref _ _ HI rc Hrc) as (s1 & H1 & <- & _). apply (ki_snapshots _ _ HI) in H1. lia.
Qed.

Lemma seal_inv org n n' k p0 p s0 s v :
  (n ≤ n')%N → kinv k n →
  p0 ∈ k_campaigns k → cp_organization_id p0 = org → same_campaign p0 p →
  cp_state p0 = CampaignState.PREPARING → cp_state p = CampaignState.READY →
  v ∈ k_revisions k → cv_campaign_id v = cp_id p0 → cp_prepared_revision_id p = Some (cv_id v) →
  s0 ∈ k_snapshots k → sn_organization_id s0 = org → sn_campaign_revision_id s0 = cv_id v →
  snapshot_ident s = snapshot_ident s0 → sn_state s = SnapshotState.SEALED →
  sn_cursor s = sn_cursor s0 → sn_resolved_count s = sn_resolved_count s0 →
  sn_eligible_count s = sn_eligible_count s0 → sn_rejected_count s = sn_rejected_count s0 →
  sn_cursor s0 = Z.of_nat (length (cd_audience (cv_specification v))) →
  kinv (mkCore (upd cp_id p (k_campaigns k)) (k_revisions k) (upd sn_id s (k_snapshots k)) (k_recipients k)
    (k_runs k) (k_attempts k) (k_permits k)) n'.
Proof.
  intros Hn HI Hp0 Ho Hsame Hst0 Hst Hv Hvc Hprep Hs0 Hso Hsr Hid Hss Hcur Hc1 Hc2 Hc3 Hlen. idents.
  assert (Hsnap : ∀ s1, s1 ∈ k_snapshots k → ∃ s', s' ∈ upd sn_id s (k_snapshots k) ∧
            snapshot_ident s' = snapshot_ident s1 ∧ (s' = s1 ∨ s' = s)).
  { intros s1 Hs1. destruct (upd_lives sn_id s _ s1 Hs1) as (y & Hy & Hk & [-> | [-> E]]); [by exists s1; auto|].
    exists s. split; [done|]. assert (s1 = s0) as -> by (eapply (keyed_inj sn_id); [apply HI|done..|congruence]).
    split; [|auto]. unfold snapshot_ident. congruence. }
  apply (kinv_head k n); [done|done|apply keyed_upd; eapply keyed_mono; [done|apply HI]|eapply keyed_mono; [done|apply HI]|apply keyed_upd; eapply keyed_mono; [done|apply HI]|..].
  - intros s1 Hs1. destruct (Hsnap s1 Hs1) as (s' & H' & E & _). exists s'. idents. done.
  - intros r Hr Href. eapply run_refers_frame; [done|..|exact Href]; simpl; eauto.
    + intros q Hq. eapply (upd_campaign_lives _ p0); [apply HI|done..].
    + intros s1 Hs1 Hs2. destruct (Hsnap s1 Hs1) as (s' & H' & E & [-> | ->]); eauto.
  - intros q id [-> |[Hq _]]%elem_of_upd Hq2; [|by eapply ki_prepared].
    exists v. split; [done|]. split; congruence.
  - intros r q Hr [-> |[Hq _]]%elem_of_upd Hqr Ha; [|by eapply ki_active].
    assert (started (cp_state p0) = true) as Hx by (eapply (ki_active _ _ HI r p0); [done..|congruence|done]).
    by rewrite Hst0 in Hx.
  - intros s1 [-> |[Hs1 _]]%elem_of_upd; [|by eapply snapshot_ok_frame, (ki_snapshot_ok _ _ HI)].
    destruct (ki_snapshot_ok _ _ HI s0 Hs0) as (v' & V1 & V2 & V3 & V4 & V5 & V6 & V7 & V8).
    assert (v' = v) as -> by (eapply (keyed_inj cv_id); [apply HI|done..|congruence]).
    exists v. simpl. unfold recipients_of, in_snapshot in *. simpl. repeat split; try congruence; try lia.
    + rewrite Hcur. by match goal with E : sn_id s = _ |- _ => rewrite E end.
Qed.

(** A run never refers to an open snapshot. *)
Lemma run_snapshot_sealed k n r s :
  kinv k n → r ∈ k_runs k → s ∈ k_snapshots k → sn_state s = SnapshotState.OPEN →
  rn_audience_snapshot_id r ≠ sn_id s.
Proof.
  intros HI Hr Hs Hopen Heq.
  destruct (ki_run_ref _ _ HI r Hr) as (_ & _ & s' & _ & _ & Hs' & _ & _ & _ & _ & _ & E & _ & _ & Hsealed).
  assert (s' = s) as -> by (eapply (keyed_inj sn_id); [apply HI|done..|congruence]). congruence.
Qed.

(** New recipients of an open snapshot are sendable for no run. *)
Lemma sendable_new k n r s rcs org :
  kinv k n → r ∈ k_runs k → s ∈ k_snapshots k → sn_state s = SnapshotState.OPEN →
  Forall (λ rc, rc_snapshot_id rc = sn_id s ∧ rc_organization_id rc = org) rcs →
  List.filter (sendable (rn_organization_id r) (rn_audience_snapshot_id r)) rcs = [].
Proof.
  intros HI Hr Hs Hopen Hall. apply filter_nil_not_elem_of. intros rc Hrc.
  rewrite Forall_forall in Hall. destruct (Hall rc Hrc) as [E _].
  pose proof (run_snapshot_sealed _ _ _ _ HI Hr Hs Hopen). unfold sendable.
  rewrite (proj2 (N.eqb_neq (rc_snapshot_id rc) _)) by congruence. by rewrite andb_false_r.
Qed.

Lemma audience_snapshot_ok k n n' s0 s v rcs org :
  kinv k n → s0 ∈ k_snapshots k → snapshot_ident s = snapshot_ident s0 → sn_state s = SnapshotState.OPEN →
  v ∈ k_revisions k → cv_id v = sn_campaign_revision_id s0 →
  Forall (λ rc, rc_snapshot_id rc = sn_id s0 ∧ rc_organization_id rc = org) rcs →
  map member_of rcs =
    take (length rcs) (drop (Z.to_nat (sn_cursor s0)) (cd_audience (cv_specification v))) →
  sn_cursor s = sn_cursor s0 + Z.of_nat (length rcs) →
  sn_resolved_count s = sn_resolved_count s0 + Z.of_nat (length rcs) →
  sn_eligible_count s + sn_rejected_count s = sn_eligible_count s0 + sn_rejected_count s0 + Z.of_nat (length rcs) →
  keyed rc_id n' (k_recipients k ++ rcs) →
  snapshot_ok (mkCore (k_campaigns k) (k_revisions k) (upd sn_id s (k_snapshots k)) (k_recipients k ++ rcs)
    (k_runs k) (k_attempts k) (k_permits k)) s.
Proof.
  intros HI Hs0 Hid Hopen Hv Hvs Hall Hmem Hcur Hres Hcnt Hkey. idents.
  destruct (ki_snapshot_ok _ _ HI s0 Hs0) as (v' & V1 & V2 & V3 & V4 & V5 & V6 & V7 & V8).
  assert (v' = v) as -> by (eapply (keyed_inj cv_id); [apply HI|done..|congruence]).
  exists v. simpl. assert (Hlen : (length rcs ≤ length (cd_audience (cv_specification v)) - Z.to_nat (sn_cursor s0))%nat).
  { rewrite <- length_drop, <- (length_map member_of rcs), Hmem, length_take. lia. }
  split; [done|]. split; [congruence|]. split; [congruence|]. split; [lia|]. split; [|split; [congruence|split; [lia|congruence]]].
  unfold recipients_of, in_snapshot in *. simpl. rewrite filterb_app, map_app.
  match goal with E : sn_id s = _ |- _ => rewrite E end. rewrite V5.
  rewrite (filter_id _ rcs); [|intros rc Hrc; rewrite Forall_forall in Hall; apply N.eqb_eq; by apply Hall].
  rewrite Hmem, Hcur, take_take_drop. f_equal. lia.
Qed.

Lemma audience_inv org n n' k s0 s v rcs :
  (n ≤ n')%N → kinv k n →
  s0 ∈ k_snapshots k → sn_organization_id s0 = org → sn_state s0 = SnapshotState.OPEN →
  sn_state s = SnapshotState.OPEN → snapshot_ident s = snapshot_ident s0 →
  v ∈ k_revisions k → cv_id v = sn_campaign_revision_id s0 →
  Forall (λ rc, rc_snapshot_id rc = sn_id s0 ∧ rc_organization_id rc = org) rcs →
  keyed rc_id n' (k_recipients k ++ rcs) →
  NoDup (map (λ r, (rc_snapshot_id r, rc_customer_id r, rc_channel r)) (k_recipients k ++ rcs)) →
  map member_of rcs =
    take (length rcs) (drop (Z.to_nat (sn_cursor s0)) (cd_audience (cv_specification v))) →
  sn_cursor s = sn_cursor s0 + Z.of_nat (length rcs) →
  sn_resolved_count s = sn_resolved_count s0 + Z.of_nat (length rcs) →
  sn_eligible_count s + sn_rejected_count s = sn_eligible_count s0 + sn_rejected_count s0 + Z.of_nat (length rcs) →
  kinv (mkCore (k_campaigns k) (k_revisions k) (upd sn_id s (k_snapshots k)) (k_recipients k ++ rcs)
    (k_runs k) (k_attempts k) (k_permits k)) n'.
Proof.
  intros Hn HI Hs0 Ho Hopen0 Hopen Hid Hv Hvs Hall Hkey Huniq Hmem Hcur Hres Hcnt.
  pose proof (audience_snapshot_ok _ _ _ _ _ _ _ _ HI Hs0 Hid Hopen Hv Hvs Hall Hmem Hcur Hres Hcnt Hkey) as Hok.
  assert (Hsend : ∀ r, r ∈ k_runs k → List.filter (sendable (rn_organization_id r) (rn_audience_snapshot_id r))
            (k_recipients k ++ rcs) = List.filter (sendable (rn_organization_id r) (rn_audience_snapshot_id r)) (k_recipients k)).
  { intros r Hr. rewrite filterb_app. by erewrite (sendable_new _ _ _ _ rcs), app_nil_r. }
  assert (Hsnap : ∀ s1, s1 ∈ k_snapshots k → ∃ s', s' ∈ upd sn_id s (k_snapshots k) ∧
            snapshot_ident s' = snapshot_ident s1 ∧ (s' = s1 ∨ s1 = s0)).
  { intros s1 Hs1. destruct (upd_lives sn_id s _ s1 Hs1) as (y & Hy & Hk & [-> | [-> E]]); [by exists s1; auto|].
    exists s. split; [done|]. idents. assert (s1 = s0) as -> by (eapply (keyed_inj sn_id); [apply HI|done..|congruence]).
    split; [|auto]. unfold snapshot_ident. congruence. }
  split; simpl; try (by apply HI); try done; try (eapply keyed_mono; [done|apply HI]).
  - apply keyed_upd. eapply keyed_mono; [done|apply HI].
  - intros rc [Hrc|Hrc]%elem_of_app.
    + destruct (ki_recipient_ref _ _ HI rc Hrc) as (s1 & H1 & <- & <-). destruct (Hsnap s1 H1) as (s' & H' & E & _).
      exists s'. idents. done.
    + rewrite Forall_forall in Hall. destruct (Hall rc Hrc) as [-> ->]. exists s. idents.
      split; [by eapply upd_self|]. split; congruence.
  - intros r Hr. eapply run_refers_frame; [done|..|by apply (ki_run_ref _ _ HI)]; simpl; eauto.
    intros s1 Hs1 Hsealed. destruct (Hsnap s1 Hs1) as (s' & H' & E & [-> | ->]); [eauto|congruence].
  - intros a Ha. destruct (ki_attempt_ref _ _ HI a Ha) as (r & rc & H1 & H2 & H3). exists r, rc. simpl.
    split; [done|]. split; [apply elem_of_app; auto|done].
  - intros r Hr Hm. destruct (ki_materializing _ _ HI r Hr Hm) as (M1 & M2 & M3 & M4).
    split; [done|]. split; [done|]. split; [|done]. change (attempts_of (mkCore _ _ _ _ _ (k_attempts k) _) r) with (attempts_of k r).
    rewrite M3. f_equal. f_equal. symmetry. apply sendable_of_eq; simpl; auto.
  - intros r Hr Hc. destruct (ki_complete _ _ HI r Hr Hc) as (C1 & C2). split; [done|]. simpl. intros rc Hrc Hsd.
    apply C2; [|done]. assert (rc ∈ List.filter (sendable (rn_organization_id r) (rn_audience_snapshot_id r)) (k_recipients k ++ rcs))
      as Hin by by apply elem_of_filterb. rewrite Hsend in Hin by done. by apply elem_of_filterb in Hin as [? _].
  - intros s1 [-> |[Hs1 Hne]]%elem_of_upd; [done|].
    destruct (ki_snapshot_ok _ _ HI s1 Hs1) as (v1 & V1 & V2 & V3 & V4 & V5 & V6).
    exists v1. simpl. unfold recipients_of in *. simpl. rewrite filterb_app.
    rewrite (filter_nil_not_elem_of _ rcs), app_nil_r; [done|]. intros rc Hrc. rewrite Forall_forall in Hall.
    destruct (Hall rc Hrc) as [E _]. apply N.eqb_neq. idents. congruence.
Qed.

(** ** Effects on runs *)

Lemma new_run_inactive k n r :
  kinv k n → (n ≤ rn_id r)%N → ∀ a, a ∈ k_attempts k → ra_campaign_run_id a ≠ rn_id r.
Proof.
  intros HI Hn a Ha Heq. destruct (ki_attempt_ref _ _ HI a Ha) as (r1 & _ & H1 & _ & E & _).
  apply (ki_runs _ _ HI) in H1. lia.
Qed.

Lemma new_run_inv org n n' k r :
  (n ≤ n')%N → kinv k n →
  (n ≤ rn_id r < n')%N → rn_organization_id r = org → run_refers k r →
  rn_state r = CampaignRunState.PENDING_RELEASE → run_counts r = (0, 0, 0, 0, 0) →
  run_progress r = (0, false) →
  kinv (mkCore (k_campaigns k) (k_revisions k) (k_snapshots k) (k_recipients k) (k_runs k ++ [r])
    (k_attempts k) (k_permits k)) n'.
Proof.
  intros Hn HI [Hid Hid'] Ho Href Hst Hcnt Hprog.
  assert (Hno : ∀ k', k_attempts k' = k_attempts k → ¬ active k' r).
  { intros k' E [H|[H|(a & Ha & Hr)]]; [congruence|unfold run_progress in Hprog; congruence|].
    rewrite E in Ha. by eapply new_run_inactive. }
  assert (Hnil : attempts_of k r = []).
  { apply filter_nil_not_elem_of. intros a Ha. apply N.eqb_neq. by eapply new_run_inactive. }
  split; simpl; try (by apply HI); try (eapply keyed_mono; [done|apply HI]).
  - eapply keyed_snoc; [apply HI|done..].
  - intros r1 [H1| ->%list_elem_of_singleton]%elem_of_app; [by apply (ki_run_ref _ _ HI)|done].
  - intros a Ha. destruct (ki_attempt_ref _ _ HI a Ha) as (r1 & rc & H1 & H2). exists r1, rc. simpl.
    split; [apply elem_of_app; auto|done].
  - intros r1 p [H1| ->%list_elem_of_singleton]%elem_of_app Hp E Ha; [by eapply (ki_active _ _ HI)|].
    by apply Hno in Ha.
  - intros r1 r2 [H1| ->%list_elem_of_singleton]%elem_of_app [H2| ->%list_elem_of_singleton]%elem_of_app E A1 A2;
      [by eapply (ki_one_active _ _ HI)|by apply Hno in A2|by apply Hno in A1|done].
  - intros r1 [H1| ->%list_elem_of_singleton]%elem_of_app; [by apply HI|done].
  - intros r1 [H1| ->%list_elem_of_singleton]%elem_of_app E; [by apply (ki_materializing _ _ HI)|congruence].
  - intros r1 [H1| ->%list_elem_of_singleton]%elem_of_app E; [by apply (ki_complete _ _ HI)|].
    unfold run_progress in Hprog. congruence.
  - intros r1 [H1| ->%list_elem_of_singleton]%elem_of_app E; [by apply (ki_completed _ _ HI)|congruence].
  - intros r1 [H1| ->%list_elem_of_singleton]%elem_of_app; [by apply (ki_counts _ _ HI)|].
    rewrite Hcnt. unfold tally. change (attempts_of (mkCore _ _ _ _ _ (k_attempts k) _) r) with (attempts_of k r).
    by rewrite Hnil.
Qed.

(** A run row is replaced; it may start materialising only if nothing of its
    campaign was activated before. *)
Lemma run_upd_inv n n' k r0 r :
  (n ≤ n')%N → kinv k n →
  r0 ∈ k_runs k → run_ident r = run_ident r0 → run_counts r = run_counts r0 →
  run_progress r = run_progress r0 →
  (rn_state r = rn_state r0 ∨ rn_state r ∈ run_moves (rn_state r0)) →
  (rn_state r = CampaignRunState.MATERIALIZING → rn_state r0 = CampaignRunState.MATERIALIZING ∨
     rn_state r0 = CampaignRunState.PENDING_RELEASE ∧
     (∀ p, p ∈ k_campaigns k → cp_id p = rn_campaign_id r0 → started (cp_state p) = true) ∧
     (∀ r1, r1 ∈ k_runs k → rn_campaign_id r1 = rn_campaign_id r0 → ¬ active k r1)) →
  (rn_state r = CampaignRunState.RUNNING → rn_state r0 ≠ CampaignRunState.MATERIALIZING) →
  (rn_state r = CampaignRunState.COMPLETED → ∀ a, a ∈ attempts_of k r0 → settled a = true) →
  kinv (mkCore (k_campaigns k) (k_revisions k) (k_snapshots k) (k_recipients k) (upd rn_id r (k_runs k))
    (k_attempts k) (k_permits k)) n'.
Proof.
  intros Hn HI H0 Hid Hcnt Hprog Hmove Hmat Hrun Hcomp.
  set (k' := mkCore _ _ _ _ _ _ _).
  assert (Hat : ∀ r1, attempts_of k' r1 = attempts_of k r1) by done.
  assert (Hsd : ∀ r1, sendable_of k' r1 = sendable_of k r1) by done.
  assert (Hid' : rn_id r = rn_id r0) by (by idents).
  assert (Hsd0 : sendable_of k r = sendable_of k r0) by (idents; by apply sendable_of_eq).
  assert (Hat0 : attempts_of k r = attempts_of k r0) by (by apply attempts_of_ident).
  assert (Hact0 : active k' r → active k r0 ∨ rn_state r0 = CampaignRunState.PENDING_RELEASE ∧
     (∀ p, p ∈ k_campaigns k → cp_id p = rn_campaign_id r0 → started (cp_state p) = true) ∧
     (∀ r1, r1 ∈ k_runs k → rn_campaign_id r1 = rn_campaign_id r0 → ¬ active k r1)).
  { intros [H|[H|(a & Ha & E)]].
    - apply Hmat in H as [H|H]; [left; by left|by right].
    - left. right. left. idents. congruence.
    - left. right. right. exists a. split; [done|congruence]. }
  assert (Hcamp : rn_campaign_id r = rn_campaign_id r0) by (by idents).
  split; simpl; try (by apply HI); try (eapply keyed_mono; [done|apply HI]).
  - apply keyed_upd. eapply keyed_mono; [done|apply HI].
  - intros r1 [-> |[H1 _]]%elem_of_upd; [|by apply (ki_run_ref _ _ HI)].
    eapply run_refers_frame; [exact Hid|..|by apply (ki_run_ref _ _ HI)]; simpl; eauto.
  - intros a Ha. destruct (ki_attempt_ref _ _ HI a Ha) as (r1 & rc & H1 & H2 & H3 & H4 & H5).
    destruct (upd_lives rn_id r _ r1 H1) as (y & Hy & _ & [-> | [-> E]]); [by exists r1, rc|].
    assert (r1 = r0) as -> by (eapply (keyed_inj rn_id); [apply HI|done..|congruence]).
    exists r, rc. idents. repeat split; try done; try congruence; try tauto. destruct H5 as (_ & _ & ->). congruence.
  - intros r1 p [-> |[H1 Hne]]%elem_of_upd Hp E Ha; [|by eapply (ki_active _ _ HI)].
    apply Hact0 in Ha as [Ha|(_ & Ha & _)]; [|apply Ha; [done|congruence]].
    eapply (ki_active _ _ HI r0); [done..|congruence|done].
  - intros r1 r2 [-> |[H1 N1]]%elem_of_upd [-> |[H2 N2]]%elem_of_upd E A1 A2; [done|..|by eapply (ki_one_active _ _ HI)].
    + apply Hact0 in A1 as [A1|(_ & _ & A1)]; [|by apply (A1 r2) in A2; [|done|congruence]].
      destruct N2. rewrite Hid'. f_equal. symmetry. eapply (ki_one_active _ _ HI); [done..|congruence|done|done].
    + apply Hact0 in A2 as [A2|(_ & _ & A2)]; [|by apply (A2 r1) in A1; [|done|congruence]].
      destruct N1. rewrite Hid'. f_equal. eapply (ki_one_active _ _ HI); [done..|congruence|done|done].
  - intros r1 [-> |[H1 _]]%elem_of_upd E; [|by apply HI]. rewrite Hprog. apply (ki_pending _ _ HI); [done|].
    destruct Hmove as [<-|Hm]; [done|]. rewrite E in Hm. destruct (rn_state r0); set_solver.
  - intros r1 [-> |[H1 _]]%elem_of_upd E; [|by apply (ki_materializing _ _ HI)].
    destruct (Hmat E) as [Hm|(Hp & _ & Hna)].
    + destruct (ki_materializing _ _ HI r0 H0 Hm) as (M1 & M2 & M3 & M4).
      unfold materializing_ok. rewrite Hat, Hat0, Hsd, Hsd0. idents. repeat split; try congruence. all: congruence || done.
    + pose proof (ki_pending _ _ HI r0 H0 Hp) as Hp0. rewrite Hp0 in Hprog. unfold run_progress in Hprog, Hp0.
      injection Hprog as Hcu Hco. assert (Hnil : attempts_of k r0 = []).
      { apply filter_nil_not_elem_of. intros a Ha. apply N.eqb_neq. intros Ea.
        apply (Hna r0 H0 eq_refl). right. right. by exists a. }
      unfold materializing_ok. rewrite Hat, Hat0, Hnil, Hcu, Hco. repeat split; try done; try lia. all: by intros ? ?%not_elem_of_nil.
  - intros r1 [-> |[H1 _]]%elem_of_upd E; [|by apply (ki_complete _ _ HI)].
    assert (Hc0 : rn_attempt_materialization_complete r0 = true) by (idents; congruence).
    destruct (ki_complete _ _ HI r0 H0 Hc0) as (C1 & C2). unfold complete_ok. rewrite Hat, Hat0. split.
    + destruct Hmove as [->|Hm]; [done|]. clear -Hm C1 Hmat.
      destruct (rn_state r0), (rn_state r) eqn:Er; simpl in Hm; try set_solver.
    + idents. simpl. intros rc Hrc Hs. apply C2; [done|]. congruence.
  - intros r1 [-> |[H1 _]]%elem_of_upd E; [|by apply (ki_completed _ _ HI)]. rewrite Hat, Hat0. auto.
  - intros r1 [-> |[H1 _]]%elem_of_upd; [|by apply (ki_counts _ _ HI)].
    rewrite Hcnt. unfold tally. rewrite Hat, Hat0. by apply (ki_counts _ _ HI).
Qed.

Lemma run_inv org n n' k r0 r :
  (n ≤ n')%N → kinv k n →
  r0 ∈ k_runs k → rn_organization_id r0 = org → run_ident r = run_ident r0 →
  run_counts r = run_counts r0 → run_progress r = run_progress r0 →
  (rn_state r = rn_state r0 ∨ rn_state r ∈ run_moves (rn_state r0)) →
  (rn_state r = CampaignRunState.MATERIALIZING → rn_state r = rn_state r0) →
  (rn_state r = CampaignRunState.RUNNING → rn_state r0 ≠ CampaignRunState.MATERIALIZING) →
  (rn_state r = CampaignRunState.COMPLETED → ∀ a, a ∈ attempts_of k r0 → settled a = true) →
  kinv (mkCore (k_campaigns k) (k_revisions k) (k_snapshots k) (k_recipients k) (upd rn_id r (k_runs k))
    (k_attempts k) (k_permits k)) n'.
Proof.
  intros Hn HI H0 Ho Hid Hcnt Hprog Hmove Hmat Hrun Hcomp. apply (run_upd_inv n n' k r0 r); try done.
  intros E. left. rewrite <- Hmat; done.
Qed.

Lemma activate_inv org n n' k p0 p r0 r :
  (n ≤ n')%N → kinv k n →
  p0 ∈ k_campaigns k → cp_organization_id p0 = org → same_campaign p0 p →
  cp_prepared_revision_id p = cp_prepared_revision_id p0 →
  cp_state p0 ∈ [CampaignState.READY; CampaignState.SCHEDULED] → cp_state p = CampaignState.RUNNING →
  r0 ∈ k_runs k → rn_campaign_id r0 = cp_id p0 → run_ident r = run_ident r0 →
  run_counts r = run_counts r0 → run_progress r = run_progress r0 →
  rn_state r0 = CampaignRunState.PENDING_RELEASE → rn_state r = CampaignRunState.MATERIALIZING →
  kinv (mkCore (upd cp_id p (k_campaigns k)) (k_revisions k) (k_snapshots k) (k_recipients k)
    (upd rn_id r (k_runs k)) (k_attempts k) (k_permits k)) n'.
Proof.
  intros Hn HI Hp0 Ho Hsame Hprep Hst0 Hst H0 Hcamp Hid Hcnt Hprog Hs0 Hs.
  assert (HI' := campaign_inv org n n' k p0 p Hn HI Hp0 Ho Hsame Hprep).
  rewrite Hst in HI'. specialize (HI' ltac:(right; unfold legal; clear -Hst0; destruct (cp_state p0); simpl; set_solver)).
  apply (run_upd_inv n' n' (mkCore (upd cp_id p (k_campaigns k)) (k_revisions k) (k_snapshots k) (k_recipients k)
    (k_runs k) (k_attempts k) (k_permits k)) r0 r); try done; try lia; simpl.
  - right. rewrite Hs, Hs0. set_solver.
  - intros _. right. split; [done|]. split.
    + intros q [-> |[Hq Hne]]%elem_of_upd Eq; [by rewrite Hst|]. destruct Hsame as (E & _). congruence.
    + intros r1 H1 E1 A1. assert (Hx : started (cp_state p0) = true).
      { eapply (ki_active _ _ HI r1); [done..|congruence|]. exact A1. }
      clear -Hx Hst0. destruct (cp_state p0); set_solver.
  - congruence.
  - congruence.
Qed.

(** ** Materialising attempts *)

Lemma sendable_of_NoDup k n r : kinv k n → NoDup (map rc_id (sendable_of k r)).
Proof.
  intros HI. unfold sendable_of, by_creation. change (map rc_id) with (fmap (M := list) rc_id).
  rewrite merge_sort_Permutation. apply NoDup_map_filter. apply HI.
Qed.

Section materialize.
Context (org n n' : uuid) (k : Core) (r0 r : CampaignRunRecord) (new : list CampaignRecipientAttemptRecord).
Context (Hn : (n ≤ n')%N) (HI : kinv k n) (H0 : r0 ∈ k_runs k) (Ho : rn_organization_id r0 = org).
Context (Hid : run_ident r = run_ident r0) (Hcnt : run_counts r = run_counts r0).
Context (Hm0 : rn_state r0 = CampaignRunState.MATERIALIZING) (Hnew : Forall (fresh_attempt org r0) new).
Context (Hrec : map ra_recipient_id new = map rc_id
  (take (length new) (drop (Z.to_nat (rn_attempt_materialization_cursor r0)) (sendable_of k r0)))).
Context (Hkey : keyed ra_id n' (k_attempts k ++ new)).
Context (Hp09 : NoDup (map (λ a, (ra_organization_id a, ra_p09_idempotency_key a)) (k_attempts k ++ new))).
Context (Hcur : rn_attempt_materialization_cursor r =
  rn_attempt_materialization_cursor r0 + Z.of_nat (length new)).
Context (Hend : rn_state r = CampaignRunState.MATERIALIZING ∧ rn_attempt_materialization_complete r = false ∨
  rn_state r = CampaignRunState.RUNNING ∧ rn_attempt_materialization_complete r = true ∧
    Z.of_nat (length (sendable_of k r0)) ≤ rn_attempt_materialization_cursor r).

Let k' := mkCore (k_campaigns k) (k_revisions k) (k_snapshots k) (k_recipients k)
  (upd rn_id r (k_runs k)) (k_attempts k ++ new) (k_permits k).

Lemma new_in_run a : a ∈ new → fresh_attempt org r0 a.
Proof. rewrite Forall_forall in Hnew. auto. Qed.

Lemma mat_id : rn_id r = rn_id r0.
Proof. by idents. Qed.

Lemma mat_attempts_of_self : attempts_of k' r = attempts_of k r0 ++ new.
Proof.
  unfold attempts_of. simpl. rewrite filterb_app. unfold in_run. rewrite mat_id. f_equal.
  apply filter_id. intros a Ha%new_in_run. apply N.eqb_eq. by apply Ha.
Qed.

Lemma mat_attempts_of_other r1 : rn_id r1 ≠ rn_id r → attempts_of k' r1 = attempts_of k r1.
Proof.
  intros Hne. unfold attempts_of. simpl. rewrite filterb_app, (filter_nil_not_elem_of _ new), app_nil_r; [done|].
  intros a Ha%new_in_run. apply N.eqb_neq. destruct Ha as [-> _]. rewrite <- mat_id. congruence.
Qed.

Lemma mat_recipients :
  map ra_recipient_id (attempts_of k' r) =
  map rc_id (take (Z.to_nat (rn_attempt_materialization_cursor r)) (sendable_of k' r)).
Proof.
  destruct (ki_materializing _ _ HI r0 H0 Hm0) as (_ & M2 & M3 & _).
  assert (Hsd : sendable_of k' r = sendable_of k r0) by (idents; by apply sendable_of_eq).
  rewrite mat_attempts_of_self, map_app, M3, Hrec, Hsd, <- map_app, take_take_drop, Hcur. do 2 f_equal. lia.
Qed.

Lemma mat_unique : NoDup (map (λ a, (ra_campaign_run_id a, ra_recipient_id a)) (k_attempts k ++ new)).
Proof.
  assert (Hnd : NoDup (map ra_recipient_id (attempts_of k r0) ++ map ra_recipient_id new)).
  { rewrite <- map_app, <- mat_attempts_of_self, mat_recipients. rewrite <- firstn_map.
    assert (Hnd := sendable_of_NoDup k n r HI). change (sendable_of k' r) with (sendable_of k r).
    eapply sublist_NoDup; [exact Hnd|apply sublist_take]. }
  apply NoDup_app in Hnd as (_ & Hdis & Hnd). apply NoDup_map_app. split; [apply HI|]. split.
  - intros x y Hx Hy [= E1 E2]. pose proof (new_in_run y Hy) as (Ey & _). apply (Hdis (ra_recipient_id x)).
    + apply list_elem_of_fmap_2. apply elem_of_attempts_of. split; [done|congruence].
    + rewrite E2. by apply list_elem_of_fmap_2.
  - clear -Hnd. induction new as [|x l IH]; simpl in *; [constructor|]. apply NoDup_cons in Hnd as [Hx Hnd].
    apply NoDup_cons. split; [|auto]. contradict Hx. apply list_elem_of_fmap in Hx as (y & [= E1 E2] & Hy).
    rewrite E2. by apply list_elem_of_fmap_2.
Qed.

Lemma mat_new_refers a : a ∈ new → attempt_refers k' a.
Proof.
  intros Ha. assert (Hin : ra_recipient_id a ∈ map ra_recipient_id new) by by apply list_elem_of_fmap_2.
  rewrite Hrec in Hin. apply list_elem_of_fmap in Hin as (rc & E & Hin).
  apply elem_of_take in Hin as (i & Hin & _). apply list_elem_of_lookup_2 in Hin.
  assert (Hin' : rc ∈ sendable_of k r0).
  { rewrite <- (take_drop (Z.to_nat (rn_attempt_materialization_cursor r0)) (sendable_of k r0)). apply elem_of_app. auto. }
  apply elem_of_sendable_of in Hin' as [Hrc Hs]. unfold sendable in Hs. booleans.
  repeat match goal with H : N.eqb _ _ = true |- _ => apply N.eqb_eq in H end.
  destruct (new_in_run a Ha) as (E1 & E2 & _). exists r, rc. simpl. pose proof mat_id. idents.
  split; [by eapply upd_self|]. repeat split; congruence.
Qed.

Lemma mat_quiet p : (∀ a, fresh_attempt org r0 a → p a = false) → countb p new = 0.
Proof. intros Hp. apply countb_zero. intros a Ha%new_in_run. auto. Qed.

Lemma mat_active r1 : r1 ∈ k_runs k → rn_id r1 ≠ rn_id r → active k' r1 → active k r1.
Proof.
  intros H1 Hne. apply active_frame; auto. simpl. intros a [Ha|Ha]%elem_of_app E; [eauto|].
  apply new_in_run in Ha as [Ea _]. rewrite mat_id in Hne. congruence.
Qed.

Lemma materialize_inv : kinv k' n'.
Proof.
  pose proof mat_id as Eid. assert (Hact0 : active k r0) by by left.
  assert (Hcamp : rn_campaign_id r = rn_campaign_id r0) by (by idents).
  split; simpl; try (by apply HI); try done; try (eapply keyed_mono; [done|apply HI]).
  - apply keyed_upd. eapply keyed_mono; [done|apply HI].
  - apply mat_unique.
  - intros r1 [-> |[H1 _]]%elem_of_upd; [|by apply (ki_run_ref _ _ HI)].
    eapply run_refers_frame; [exact Hid|..|by apply (ki_run_ref _ _ HI)]; simpl; eauto.
  - intros a [Ha|Ha]%elem_of_app; [|by apply mat_new_refers].
    destruct (ki_attempt_ref _ _ HI a Ha) as (r1 & rc & H1 & H2 & H3 & H4 & H5 & H6 & H7).
    destruct (upd_lives rn_id r _ r1 H1) as (y & Hy & _ & [-> | [-> E]]); [by exists r1, rc|].
    assert (r1 = r0) as -> by (eapply (keyed_inj rn_id); [apply HI|done..|congruence]).
    exists r, rc. idents. repeat split; try done; congruence.
  - intros p Hp. destruct (ki_permit_ref _ _ HI p Hp) as (a & Ha & H). exists a. split; [apply elem_of_app; auto|done].
  - intros a [Ha|Ha]%elem_of_app; [by apply (ki_attempt_ok _ _ HI)|]. apply new_in_run in Ha as (_ & _ & _ & E1 & E2). done.
  - intros a [Ha|Ha]%elem_of_app Hp; [by apply (ki_permitted _ _ HI)|].
    apply new_in_run in Ha as (_ & _ & E & _). unfold permitted in Hp. by rewrite E in Hp.
  - intros r1 p [-> |[H1 Hne]]%elem_of_upd Hp E Ha.
    + eapply (ki_active _ _ HI r0); [done..|congruence|done].
    + eapply (ki_active _ _ HI r1); [done..|]. by apply mat_active.
  - intros r1 r2 [-> |[H1 N1]]%elem_of_upd [-> |[H2 N2]]%elem_of_upd E A1 A2; [done|..].
    + exfalso. apply N2. rewrite Eid. f_equal. symmetry. eapply (ki_one_active _ _ HI); [done..|congruence|done|]. by apply mat_active.
    + exfalso. apply N1. rewrite Eid. f_equal. eapply (ki_one_active _ _ HI); [done..|congruence| |done]. by apply mat_active.
    + eapply (ki_one_active _ _ HI); auto using mat_active.
  - intros r1 [-> |[H1 _]]%elem_of_upd E; [|by apply HI]. destruct Hend as [[Hs _]|[Hs _]]; congruence.
  - intros r1 [-> |[H1 Hne]]%elem_of_upd E.
    + destruct Hend as [[_ Hc]|[Hs _]]; [|congruence]. destruct (ki_materializing _ _ HI r0 H0 Hm0) as (_ & M2 & _ & M4).
      split; [done|]. split; [lia|]. split; [apply mat_recipients|]. rewrite mat_attempts_of_self.
      intros a [Ha|Ha%new_in_run]%elem_of_app; [auto|by apply Ha].
    + unfold materializing_ok. rewrite mat_attempts_of_other by done. by apply (ki_materializing _ _ HI).
  - intros r1 [-> |[H1 Hne]]%elem_of_upd E.
    + destruct Hend as [[_ Hc]|(Hs & _ & Hlen)]; [congruence|]. split; [rewrite Hs; set_solver|].
      intros rc Hrc Hsd. assert (Hin : rc_id rc ∈ map ra_recipient_id (attempts_of k' r)).
      { rewrite mat_recipients. apply list_elem_of_fmap_2. rewrite take_ge; [by apply elem_of_sendable_of|].
        assert (E' : sendable_of k' r = sendable_of k r0) by (idents; by apply sendable_of_eq). rewrite E'. lia. }
      apply list_elem_of_fmap in Hin as (a & Ea & Ha). by exists a.
    + unfold complete_ok. rewrite mat_attempts_of_other by done. by apply (ki_complete _ _ HI).
  - intros r1 [-> |[H1 Hne]]%elem_of_upd E; [destruct Hend as [[Hs _]|[Hs _]]; congruence|].
    rewrite mat_attempts_of_other by done. by apply (ki_completed _ _ HI).
  - intros r1 [-> |[H1 Hne]]%elem_of_upd.
    + rewrite Hcnt, (ki_counts _ _ HI r0 H0). unfold tally. rewrite mat_attempts_of_self, !countb_app.
      rewrite !mat_quiet, !Z.add_0_r; [done|..]; intros a (_ & _ & E1 & E2 & _); unfold claimed, in_state, permitted;
        by rewrite ?E1, ?E2.
    + unfold tally. rewrite mat_attempts_of_other by done. by apply (ki_counts _ _ HI).
Qed.
End materialize.

(** ** Moving an attempt *)

(** Runs that share a snapshot share their campaign. *)
Lemma same_snapshot_campaign k n r1 r2 :
  kinv k n → r1 ∈ k_runs k → r2 ∈ k_runs k →
  rn_audience_snapshot_id r1 = rn_audience_snapshot_id r2 → rn_campaign_id r1 = rn_campaign_id r2.
Proof.
  intros HI H1 H2 E.
  destruct (ki_run_ref _ _ HI r1 H1) as (p1 & v1 & s1 & A1 & A2 & A3 & A4 & A5 & A6 & A7 & A8 & A9 & A10 & A11 & A12).
  destruct (ki_run_ref _ _ HI r2 H2) as (p2 & v2 & s2 & B1 & B2 & B3 & B4 & B5 & B6 & B7 & B8 & B9 & B10 & B11 & B12).
  assert (s1 = s2) as -> by (eapply (keyed_inj sn_id); [apply HI|done..|congruence]).
  assert (v1 = v2) as -> by (eapply (keyed_inj cv_id); [apply HI|done..|congruence]). congruence.
Qed.

Section attempt.
Context (org n n' : uuid) (k : Core) (a0 a : CampaignRecipientAttemptRecord) (r0 r : CampaignRunRecord)
  (rc0 rc : CampaignRecipientRecord) (permits : list CampaignSendPermitRecord).
Context (Hn : (n ≤ n')%N) (HI : kinv k n).
Context (Ha0 : a0 ∈ k_attempts k) (Hao : ra_organization_id a0 = org)
  (Haid : attempt_ident a = attempt_ident a0)
  (Hast : ra_state a = ra_state a0 ∨ legal (ra_state a0) (ra_state a)) (Hclaim : claim_step a0 a).
Context (Hr0 : r0 ∈ k_runs k) (Hra : rn_id r0 = ra_campaign_run_id a0) (Hrid : run_ident r = run_ident r0)
  (Hprog : run_progress r = run_progress r0) (Hrst : rn_state r = rn_state r0)
  (Hnm : rn_state r0 ≠ CampaignRunState.MATERIALIZING) (Hcnt : counts_step r0 r a0 a).
Context (Hrc0 : rc0 ∈ k_recipients k) (Hrca : rc_id rc0 = ra_recipient_id a0)
  (Hrcid : recipient_ident rc = recipient_ident rc0) (Hps : permit_step org n n' k a0 a permits).

Let k' := mkCore (k_campaigns k) (k_revisions k) (k_snapshots k) (upd rc_id rc (k_recipients k))
  (upd rn_id r (k_runs k)) (upd ra_id a (k_attempts k)) permits.

Lemma att_map {B} (f : CampaignRecipientAttemptRecord → B) : f a = f a0 → map f (k_attempts k') = map f (k_attempts k).
Proof. intros Hf. apply (map_upd_keyed ra_id n f a a0); [apply HI|done| |done]. by idents. Qed.

Lemma att_attempts_of r1 : attempts_of k' r1 = upd ra_id a (attempts_of k r1).
Proof.
  unfold attempts_of. simpl. apply (filter_upd_in ra_id n _ a a0); [apply HI|done|by idents|].
  unfold in_run. idents. congruence.
Qed.

Lemma att_elem r1 a1 : a1 ∈ attempts_of k' r1 →
  a1 = a ∧ rn_id r1 = rn_id r0 ∨ a1 ∈ attempts_of k r1 ∧ ra_id a1 ≠ ra_id a0.
Proof.
  rewrite elem_of_attempts_of. simpl. intros [[-> |[H1 H2]]%elem_of_upd E].
  - left. split; [done|]. idents. congruence.
  - right. split; [by apply elem_of_attempts_of|]. idents. congruence.
Qed.

Lemma att_recipient_snapshot : rc_snapshot_id rc0 = rn_audience_snapshot_id r0.
Proof.
  destruct (ki_attempt_ref _ _ HI a0 Ha0) as (r1 & rc1 & H1 & H2 & H3 & H4 & H5 & H6 & H7).
  assert (r1 = r0) as -> by (eapply (keyed_inj rn_id); [apply HI|done..|congruence]).
  assert (rc1 = rc0) as -> by (eapply (keyed_inj rc_id); [apply HI|done..|congruence]). done.
Qed.

Lemma att_active_r0 : active k r0.
Proof. right. right. by exists a0. Qed.

(** The only activated run of the recipient's snapshot is the attempt's own. *)
Lemma att_snapshot_run r1 :
  r1 ∈ k_runs k → active k r1 → rn_audience_snapshot_id r1 = rc_snapshot_id rc0 → r1 = r0.
Proof.
  intros H1 A1 E. rewrite att_recipient_snapshot in E.
  eapply (ki_one_active _ _ HI); [done..| |done|apply att_active_r0]. by eapply same_snapshot_campaign.
Qed.

Lemma att_run_id : rn_id r = rn_id r0.
Proof. by idents. Qed.

(** A run of the new table has a version in the old one. *)
Lemma att_run r1 : r1 ∈ upd rn_id r (k_runs k) →
  ∃ r1', r1' ∈ k_runs k ∧ run_ident r1 = run_ident r1' ∧ run_progress r1 = run_progress r1' ∧
    rn_state r1 = rn_state r1' ∧ (r1 = r ∧ r1' = r0 ∨ r1 = r1' ∧ rn_id r1 ≠ rn_id r).
Proof. intros [-> |[H1 Hne]]%elem_of_upd; [exists r0|exists r1]; repeat split; auto. Qed.

Lemma att_active r1 r1' :
  run_ident r1 = run_ident r1' → run_progress r1 = run_progress r1' → rn_state r1 = rn_state r1' →
  active k' r1 → active k r1'.
Proof.
  intros E1 E2 E3. idents. apply active_frame; [congruence..|]. simpl.
  intros a1 [-> |[Hb _]]%elem_of_upd E; [|by exists a1]. exists a0. idents. split; [done|congruence].
Qed.

Lemma att_sendable r1 :
  r1 ∈ k_runs k → rn_audience_snapshot_id r1 ≠ rc_snapshot_id rc0 →
  List.filter (sendable (rn_organization_id r1) (rn_audience_snapshot_id r1)) (upd rc_id rc (k_recipients k)) =
  List.filter (sendable (rn_organization_id r1) (rn_audience_snapshot_id r1)) (k_recipients k).
Proof.
  intros H1 Hne. apply (filter_upd_out rc_id n _ rc rc0); [apply HI|done|by idents|..]; unfold sendable; idents.
  - rewrite (proj2 (N.eqb_neq (rc_snapshot_id rc0) _)) by congruence. by rewrite andb_false_r.
  - rewrite (proj2 (N.eqb_neq (rc_snapshot_id rc) _)) by congruence. by rewrite andb_false_r.
Qed.

Lemma att_materializing r1 :
  r1 ∈ upd rn_id r (k_runs k) → rn_state r1 = CampaignRunState.MATERIALIZING → materializing_ok k' r1.
Proof.
  intros H1 E. apply elem_of_upd in H1 as [-> |[H1 Hne]]; [congruence|].
  assert (A1 : active k r1) by by left.
  assert (Hsn : rn_audience_snapshot_id r1 ≠ rc_snapshot_id rc0) by (intros Hs; apply Hne; rewrite att_run_id; f_equal; by apply att_snapshot_run).
  destruct (ki_materializing _ _ HI r1 H1 E) as (M1 & M2 & M3 & M4). split; [done|]. split; [done|]. split.
  - rewrite (sendable_of_eq k k' r1 r1) by (try done; by apply att_sendable). rewrite <- M3, att_attempts_of.
    apply (map_upd ra_id ra_recipient_id a a0); [|by idents]. intros x Hx%elem_of_attempts_of Ex. f_equal.
    eapply (keyed_inj ra_id); [apply HI|tauto|done|]. idents. congruence.
  - intros a1 [[-> Er]|[Ha1 _]]%att_elem; [|auto]. by rewrite <- att_run_id in Er.
Qed.

Lemma att_complete r1 :
  r1 ∈ upd rn_id r (k_runs k) → rn_attempt_materialization_complete r1 = true → complete_ok k' r1.
Proof.
  intros H1 E. destruct (att_run r1 H1) as (r1' & H1' & I1 & I2 & I3 & _).
  assert (E' : rn_attempt_materialization_complete r1' = true) by (idents; congruence).
  destruct (ki_complete _ _ HI r1' H1' E') as (C1 & C2). split; [congruence|]. simpl.
  intros rc1 [-> |[Hrc1 Hne]]%elem_of_upd Hs.
  - exists a. rewrite elem_of_attempts_of. simpl. unfold sendable in Hs. booleans.
    repeat match goal with H : N.eqb _ _ = true |- _ => apply N.eqb_eq in H end.
    assert (r1' = r0) as ->. { apply att_snapshot_run; [done|right; by left|]. idents. congruence. }
    idents. repeat split; try congruence. by eapply upd_self.
  - destruct (C2 rc1 Hrc1) as (a1 & Ha1 & Ea1). { idents. congruence. }
    apply elem_of_attempts_of in Ha1 as [Ha1 Er].
    destruct (upd_lives ra_id a _ a1 Ha1) as (y & Hy & _ & [-> | [-> Ey]]).
    + exists a1. rewrite elem_of_attempts_of. idents. repeat split; try done. congruence.
    + assert (a1 = a0) as -> by (eapply (keyed_inj ra_id); [apply HI|done..|idents; congruence]).
      exists a. rewrite elem_of_attempts_of. idents. repeat split; try done; congruence.
Qed.

Lemma settled_stays : settled a0 = true → settled a = true.
Proof.
  unfold settled. destruct Hast as [-> |Hl]; [done|]. revert Hl. unfold legal.
  destruct (ra_state a0); simpl; try set_solver.
Qed.

Lemma att_counts r1 : r1 ∈ upd rn_id r (k_runs k) → run_counts r1 = tally k' r1.
Proof.
  intros [-> |[H1 Hne]]%elem_of_upd.
  - assert (Hk : keyed ra_id n (attempts_of k r)).
    { destruct (ki_attempts _ _ HI) as [Hk1 Hk2]. split; [by apply NoDup_map_filter|].
      intros x Hx%elem_of_attempts_of. apply Hk2, Hx. }
    assert (Hin : a0 ∈ attempts_of k r) by (apply elem_of_attempts_of; split; [done|idents; congruence]).
    assert (Eid : ra_id a = ra_id a0) by by idents.
    unfold tally. rewrite att_attempts_of, !(countb_upd ra_id n _ a a0) by done.
    pose proof (ki_counts _ _ HI r0 Hr0) as E. unfold tally, run_counts in *.
    rewrite (attempts_of_ident k r0 r) by (by idents). injection E as E1 E2 E3 E4 E5.
    destruct Hcnt as (C1 & C2 & C3 & C4 & C5). unfold gain in *. repeat f_equal; lia.
  - rewrite (ki_counts _ _ HI r1 H1). unfold tally.
    assert (attempts_of k' r1 = attempts_of k r1) as ->; [|done].
    unfold attempts_of. simpl. apply (filter_upd_out ra_id n _ a a0); [apply HI|done|by idents|..];
      apply N.eqb_neq; pose proof att_run_id; idents; congruence.
Qed.

Lemma att_permit_other p a1 :
  p ∈ k_permits k → a1 ∈ k_attempts k → ra_id a1 = pm_recipient_attempt_id p →
  ra_organization_id a1 = pm_organization_id p → permit_matches p a1 → ra_id a1 ≠ ra_id a0 →
  ∃ a2, a2 ∈ upd ra_id a (k_attempts k) ∧ ra_id a2 = pm_recipient_attempt_id p ∧
    ra_organization_id a2 = pm_organization_id p ∧ permit_matches p a2.
Proof. intros. exists a1. split; [apply upd_other; [done|idents; congruence]|done]. Qed.

Lemma matches_permitted p a1 : permit_matches p a1 → permitted a1 = true.
Proof. unfold permitted. intros (_ & _ & [(_ & -> & _)|(_ & -> & _)]); done. Qed.

Lemma att_permit_ref p : p ∈ permits → ∃ a1, a1 ∈ upd ra_id a (k_attempts k) ∧ ra_id a1 = pm_recipient_attempt_id p ∧
  ra_organization_id a1 = pm_organization_id p ∧ permit_matches p a1.
Proof.
  assert (Hself : a ∈ upd ra_id a (k_attempts k)) by (eapply upd_self; [exact Ha0|by idents]).
  destruct Hps as [E1 E2 E3|q G1 G2 G3 G4 G5 G6 G7 G8 G9|q0 q m G1 G2 G3 G4 G5 G6 G7 G8 G9]; intros Hp.
  - destruct (ki_permit_ref _ _ HI p Hp) as (a1 & A1 & A2 & A3 & A4).
    destruct (decide (ra_id a1 = ra_id a0)) as [E|E]; [|by eapply att_permit_other].
    assert (a1 = a0) as -> by (eapply (keyed_inj ra_id); [apply HI|done..]).
    exists a. pose proof (matches_permitted _ _ A4) as Hpm. rewrite E1 in Hpm. unfold permit_matches in *.
    rewrite E2, (E3 Hpm). idents. repeat split; try congruence; try tauto. destruct A4 as (-> & _). congruence.
  - apply elem_of_app in Hp as [Hp| ->%list_elem_of_singleton].
    + destruct (ki_permit_ref _ _ HI p Hp) as (a1 & A1 & A2 & A3 & A4).
      eapply att_permit_other; [done..|]. intros E.
      assert (a1 = a0) as -> by (eapply (keyed_inj ra_id); [apply HI|done..]).
      apply matches_permitted in A4. congruence.
    + exists a. destruct (ki_attempt_ok _ _ HI a0 Ha0) as [_ Hmsg]. specialize (Hmsg G1).
      unfold permit_matches. idents. repeat split; try congruence. left. auto.
  - apply elem_of_upd in Hp as [-> |[Hp Hne]].
    + exists a. destruct (ki_permit_ref _ _ HI q0 G1) as (a1 & A1 & A2 & A3 & A4).
      assert (a1 = a0) as -> by (eapply (keyed_inj ra_id); [apply HI|done..|congruence]).
      destruct A4 as (A4 & _). unfold permit_matches. idents. repeat split; try congruence. right. eauto.
    + destruct (ki_permit_ref _ _ HI p Hp) as (a1 & A1 & A2 & A3 & A4).
      eapply att_permit_other; [done..|]. intros E. apply Hne. assert (p = q0) as ->; [|by idents].
      eapply (NoDup_map_inj pm_recipient_attempt_id); [apply HI|done..|congruence].
Qed.

Lemma att_permits_keyed : keyed pm_id n' permits.
Proof.
  destruct Hps as [|q _ _ _ [G G'] _ _ _ _ _|]; [| |apply keyed_upd]; try (eapply keyed_mono; [done|apply HI]).
  eapply keyed_snoc; [apply HI|done..].
Qed.

Lemma att_permits_unique : NoDup (map pm_recipient_attempt_id permits).
Proof.
  destruct Hps as [|q G1 _ _ _ _ G6 _ _ _|q0 q m G1 _ G3]; [apply HI| |].
  - apply NoDup_map_snoc; [apply HI|]. intros p Hp E.
    destruct (ki_permit_ref _ _ HI p Hp) as (a1 & A1 & A2 & A3 & A4).
    assert (a1 = a0) as -> by (eapply (keyed_inj ra_id); [apply HI|done..|congruence]).
    apply matches_permitted in A4. congruence.
  - rewrite (map_upd_keyed pm_id n _ q q0); [apply HI|apply HI|done|by idents..].
Qed.

Lemma att_permitted a1 : a1 ∈ upd ra_id a (k_attempts k) → permitted a1 = true →
  ∃ p, p ∈ permits ∧ pm_recipient_attempt_id p = ra_id a1.
Proof.
  assert (Hlive : ∀ p, p ∈ k_permits k → ∃ p', p' ∈ permits ∧ pm_recipient_attempt_id p' = pm_recipient_attempt_id p).
  { intros p Hp. destruct Hps as [|q|q0 q m G1 _ G3]; [by exists p|exists p; split; [apply elem_of_app; auto|done]|].
    destruct (upd_lives pm_id q _ p Hp) as (y & Hy & _ & [-> | [-> E]]); [by exists p|]. exists q. split; [done|].
    assert (p = q0) as -> by (eapply (keyed_inj pm_id); [apply HI|done..|idents; congruence]). by idents. }
  intros [-> |[H1 _]]%elem_of_upd Hp.
  - destruct Hps as [E1 _ _|q G1 _ _ _ _ G6 _ _ _|q0 q m G1 G2 G3].
    + rewrite <- E1 in Hp. destruct (ki_permitted _ _ HI a0 Ha0 Hp) as (p & P1 & P2). exists p. split; [done|]. idents. congruence.
    + exists q. split; [apply elem_of_app; right; by constructor|]. idents. congruence.
    + exists q. split; [by eapply upd_self; [|idents]|]. idents. congruence.
  - destruct (ki_permitted _ _ HI a1 H1 Hp) as (p & P1 & P2). destruct (Hlive p P1) as (p' & P3 & P4).
    exists p'. split; [done|congruence].
Qed.

Lemma att_ok : attempt_ok a.
Proof.
  destruct (ki_attempt_ok _ _ HI a0 Ha0) as [O1 O2]. split.
  - intros E. destruct Hclaim as [(-> & _ & Hc)|(_ & Hc & _)]; [auto|congruence].
  - destruct Hps as [E1 -> _|q _ G2 _ _ _ _ _ _ _|q0 q m _ _ _ _ _ _ G7 _ _]; [rewrite <- E1; auto|..];
      unfold permitted; rewrite ?G2, ?G7; done.
Qed.

Lemma attempt_moved_inv : kinv k' n'.
Proof.
  pose proof att_run_id as Er. split; simpl; try (by apply HI); try (eapply keyed_mono; [done|apply HI]).
  - apply keyed_upd. eapply keyed_mono; [done|apply HI].
  - apply keyed_upd. eapply keyed_mono; [done|apply HI].
  - apply keyed_upd. eapply keyed_mono; [done|apply HI].
  - apply att_permits_keyed.
  - rewrite (map_upd_keyed rc_id n _ rc rc0); [apply HI|apply HI|done|by idents|]. idents. congruence.
  - rewrite att_map by (idents; congruence). apply HI.
  - rewrite att_map by (idents; congruence). apply HI.
  - apply att_permits_unique.
  - intros rc1 [-> |[H1 _]]%elem_of_upd; [|by apply (ki_recipient_ref _ _ HI)].
    destruct (ki_recipient_ref _ _ HI rc0 Hrc0) as (s & S1 & S2 & S3). exists s. idents. repeat split; congruence.
  - intros r1 H1. destruct (att_run r1 H1) as (r1' & H1' & I1 & _).
    eapply run_refers_frame; [exact I1|..|by apply (ki_run_ref _ _ HI)]; simpl; eauto.
  - assert (Hgen : ∀ a1, a1 ∈ k_attempts k → attempt_refers k' a1).
    { intros a1 H1. destruct (ki_attempt_ref _ _ HI a1 H1) as (r1 & rc1 & B1 & B2 & B3 & B4 & B5 & B6 & B7).
      destruct (upd_lives rn_id r _ r1 B1) as (r2 & R1 & R2 & R3), (upd_lives rc_id rc _ rc1 B2) as (rc2 & C1 & C2 & C3).
      exists r2, rc2. simpl. destruct R3 as [-> | [-> R3]], C3 as [-> | [-> C3]]; try done;
        try (assert (r1 = r0) as -> by (eapply (keyed_inj rn_id); [apply HI|done..|congruence]));
        try (assert (rc1 = rc0) as -> by (eapply (keyed_inj rc_id); [apply HI|done..|idents; congruence]));
        idents; repeat split; try done; congruence. }
    intros a1 [-> |[H1 _]]%elem_of_upd; [|by apply Hgen].
    destruct (Hgen a0 Ha0) as (r1 & rc1 & B1 & B2 & B3 & B4 & B5 & B6 & B7). exists r1, rc1. idents.
    repeat split; try done; congruence.
  - apply att_permit_ref.
  - intros a1 [-> |[H1 _]]%elem_of_upd; [apply att_ok|by apply (ki_attempt_ok _ _ HI)].
  - apply att_permitted.
  - intros r1 p H1 Hp E A1. destruct (att_run r1 H1) as (r1' & H1' & I1 & I2 & I3 & _).
    eapply (ki_active _ _ HI r1' p); [done..|idents; congruence|]. by apply (att_active r1).
  - intros r1 r2 H1 H2 E A1 A2. destruct (att_run r1 H1) as (r1' & H1' & I1 & I2 & I3 & J1).
    destruct (att_run r2 H2) as (r2' & H2' & I4 & I5 & I6 & J2).
    assert (r1' = r2') as ->.
    { eapply (ki_one_active _ _ HI); [done..| |by apply (att_active r1)|by apply (att_active r2)]. idents. congruence. }
    assert (rn_id r1 = rn_id r2) by (idents; congruence).
    destruct J1 as [[-> ->]|[-> J1]], J2 as [[-> J2]|[-> J2]]; try done; congruence.
  - intros r1 H1 E. destruct (att_run r1 H1) as (r1' & H1' & I1 & I2 & I3 & _). rewrite I2.
    apply (ki_pending _ _ HI); [done|congruence].
  - apply att_materializing.
  - apply att_complete.
  - intros r1 H1 E a1 Ha1. destruct (att_run r1 H1) as (r1' & H1' & I1 & I2 & I3 & _).
    apply att_elem in Ha1 as [[-> Eid]|[Ha1 _]].
    + apply settled_stays. apply (ki_completed _ _ HI r1' H1'); [congruence|].
      apply elem_of_attempts_of. split; [done|]. idents. congruence.
    + apply (ki_completed _ _ HI r1' H1'); [congruence|]. rewrite <- (attempts_of_ident k r1' r1) by (by idents). done.
  - apply att_counts.
  - intros s H1. destruct (ki_snapshot_ok _ _ HI s H1) as (v & V1 & V2 & V3 & V4 & V5 & V6). exists v.
    repeat split; try done; try tauto. rewrite <- V5. unfold recipients_of. simpl.
    rewrite (filter_upd_in rc_id n _ rc rc0); [|apply HI|done|by idents|unfold in_snapshot; idents; congruence].
    apply (map_upd rc_id member_of rc rc0); [|unfold member_of; idents; congruence].
    intros x [Hx _]%elem_of_filterb Ex. f_equal. eapply (keyed_inj rc_id); [apply HI|done..|idents; congruence].
Qed.
End attempt.

(** ** Every effect keeps the invariant *)

Lemma effect_inv org n n' k k' : (n ≤ n')%N → kinv k n → effect org n n' k k' → kinv k' n'.
Proof.
  intros Hn HI. induction 1 as [| | | | | |r0 r P1 P2 P3 P4 P5 P6 P7 P8 P9| | | |k1 a0 r0 r P0 IH P1 P2 P3 P4 P5 P6 P7 P8 P9 P10 P11].
  - by eapply new_campaign_inv.
  - by eapply campaign_inv.
  - by eapply prepare_inv.
  - by eapply audience_inv.
  - by eapply seal_inv.
  - by eapply new_run_inv.
  - eapply (run_inv org n n' k r0 r); try done. intros E. apply (ki_completed _ _ HI r0 P1). auto.
  - by eapply activate_inv.
  - by eapply materialize_inv.
  - by eapply attempt_moved_inv.
  - eapply (run_inv org n' n' k1 r0 r); try done; rewrite ?P9, ?P10; try done.
    right. set_solver.
Qed.

(** More UUIDs do not restrict an effect. *)
Lemma effect_mono org n n1 n' k k' : (n1 ≤ n')%N → effect org n n1 k k' → effect org n n' k k'.
Proof.
  intros Hn. induction 1 as [| | | | | | | | |a0 a r0 r rc0 rc ps P1 P2 P3 P4 P5 P6 P7 P8 P9 P10 P11 P12 P13 P14 P15 P16 P17 P18|].
  - apply E_new_campaign; try done. lia.
  - by eapply E_campaign.
  - eapply E_prepare; try done; lia.
  - eapply E_audience; try done. by eapply keyed_mono.
  - by eapply E_seal.
  - apply E_new_run; try done. lia.
  - by eapply E_run.
  - by eapply E_activate.
  - eapply E_materialize; try done. by eapply keyed_mono.
  - eapply (E_attempt _ _ _ _ a0 a r0 r rc0 rc); try done.
    destruct P16 as [|p G1 G2 G3 G4|]; [by apply PS_none|apply PS_grant; try done; lia|by eapply PS_consume].
  - by eapply E_complete.
Qed.

(** The invariant survives issuing more UUIDs. *)
Lemma kinv_mono k n n' : (n ≤ n')%N → kinv k n → kinv k n'.
Proof. intros Hn HI. split; try (by apply HI); (eapply keyed_mono; [done|apply HI]). Qed.

Lemma esteps_inv org s s' : esteps org s s' → (s.2 ≤ s'.2)%N ∧ (kinv s.1 s.2 → kinv s'.1 s'.2).
Proof.
  induction 1 as [|s1 s2 s3 [Hn He] _ [IH1 IH2]]; [done|]. split; [lia|]. intros HI. apply IH2.
  destruct He as [->|He]; [by eapply kinv_mono|by eapply effect_inv].
Qed.
