(* ===== verification/CampaignOps.v ===== *)
(** * CampaignOps: the repository implements its specification

    [refines org m]: from a state that satisfies the invariant, a normal return of
    [m] is a sequence of effects of [CampaignSpec]. This file proves it for the
    operations on campaigns, audiences and runs; [CampaignSends] for claims, permits
    and cancellation. *)

From S2P Require Import Prelude.
From S2P Require Import Errors.
From S2P Require Import Lifecycles.
From S2P Require Import ScheduleSpec.
From S2P Require Import MessagingStore.
From S2P Require Import CustomerStore.
From S2P Require Import CampaignStore.
From S2P Require Import Store.
From S2P Require Import StoreLemmas.
From S2P Require Import Tables.
From S2P Require Import CampaignRepository.
From S2P Require Import CampaignSpec.
From S2P Require Import CampaignEffects.

(** ** Reading and writing the core *)

Definition with_campaigns (l : list CampaignRecord) (k : Core) : Core :=
  mkCore l (k_revisions k) (k_snapshots k) (k_recipients k) (k_runs k) (k_attempts k) (k_permits k).
Definition with_revisions (l : list CampaignRevisionRecord) (k : Core) : Core :=
  mkCore (k_campaigns k) l (k_snapshots k) (k_recipients k) (k_runs k) (k_attempts k) (k_permits k).
Definition with_snapshots (l : list CampaignAudienceSnapshotRecord) (k : Core) : Core :=
  mkCore (k_campaigns k) (k_revisions k) l (k_recipients k) (k_runs k) (k_attempts k) (k_permits k).
Definition with_recipients (l : list CampaignRecipientRecord) (k : Core) : Core :=
  mkCore (k_campaigns k) (k_revisions k) (k_snapshots k) l (k_runs k) (k_attempts k) (k_permits k).
Definition with_runs (l : list CampaignRunRecord) (k : Core) : Core :=
  mkCore (k_campaigns k) (k_revisions k) (k_snapshots k) (k_recipients k) l (k_attempts k) (k_permits k).
Definition with_attempts (l : list CampaignRecipientAttemptRecord) (k : Core) : Core :=
  mkCore (k_campaigns k) (k_revisions k) (k_snapshots k) (k_recipients k) (k_runs k) l (k_permits k).
Definition with_permits (l : list CampaignSendPermitRecord) (k : Core) : Core :=
  mkCore (k_campaigns k) (k_revisions k) (k_snapshots k) (k_recipients k) (k_runs k) (k_attempts k) l.

Ltac spread :=
  unfold with_campaigns, with_revisions, with_snapshots, with_recipients, with_runs, with_attempts, with_permits;
  cbn [k_campaigns k_revisions k_snapshots k_recipients k_runs k_attempts k_permits].

(** [k_step f w w']: the core changes by [f] and the UUID supply only advances. *)
Definition k_step (f : Core → Core) (w w' : World) : Prop :=
  core_of w' = f (core_of w) ∧ (w_next_uuid w ≤ w_next_uuid w')%N.

(** The core is left alone. *)
Definition kquiet {A} (m : M A) : Prop := ∀ w a w', m w = (Ok a, w') → k_step (λ k, k) w w'.

Lemma kquiet_ret {A} (a : A) : kquiet (mret a).
Proof. intros w b w' [= _ <-]. split; [done|lia]. Qed.
Lemma kquiet_raise {A} e : kquiet (@raise A e).
Proof. by intros w b w'. Qed.
Lemma kquiet_lift {A} (r : result exn A) : kquiet (lift r).
Proof. intros w b w' [= _ <-]. split; [done|lia]. Qed.
Lemma kquiet_gets {A} (f : World → A) : kquiet (gets f).
Proof. intros w b w' [= _ <-]. split; [done|lia]. Qed.
Lemma kquiet_cgets {A} (f : CampaignDB → A) : kquiet (cgets f).
Proof. apply kquiet_gets. Qed.
Lemma kquiet_txn_now : kquiet txn_now.
Proof. apply kquiet_gets. Qed.
Lemma kquiet_utcnow : kquiet utcnow.
Proof. intros w b w' [= _ <-]. split; [done|simpl; lia]. Qed.
Lemma kquiet_database_now : kquiet database_now.
Proof. apply kquiet_utcnow. Qed.
Lemma kquiet_fresh : kquiet fresh_uuid.
Proof. intros w b w' [= _ <-]. split; [done|simpl; lia]. Qed.
Lemma kquiet_bind {A B} (m : M A) (f : A → M B) : kquiet m → (∀ a, kquiet (f a)) → kquiet (m ≫= f).
Proof.
  intros Hm Hf w b w' H. ran H as a w1 H1. apply Hm in H1 as [E1 N1]. apply Hf in H as [E2 N2].
  split; [congruence|lia].
Qed.
Lemma kquiet_cmodify f : (∀ c, core (f c) = core c) → kquiet (cmodify f).
Proof. intros Hf w b w' [= _ <-]. split; [apply Hf|simpl; lia]. Qed.
Lemma kquiet_modify_db f : (∀ d, db_campaign (f d) = db_campaign d) → kquiet (modify_db f).
Proof. intros Hf w b w' [= _ <-]. split; [|simpl; lia]. unfold core_of. simpl. by rewrite Hf. Qed.
Lemma kquiet_forM {A} (f : A → M unit) l : (∀ a, kquiet (f a)) → kquiet (forM_ f l).
Proof. intros Hf. induction l; simpl; [apply kquiet_ret|]. by apply kquiet_bind. Qed.

Create HintDb kquiet discriminated.
#[export] Hint Constants Opaque : kquiet.
#[export] Hint Resolve kquiet_ret kquiet_raise kquiet_lift kquiet_gets kquiet_cgets kquiet_txn_now
  kquiet_utcnow kquiet_database_now kquiet_fresh : kquiet.

Ltac kquietness :=
  repeat (intros; lazymatch goal with
  | |- kquiet (_ ≫= _) => apply kquiet_bind
  | |- kquiet (match ?x with _ => _ end) => destruct x
  | |- kquiet (forM_ _ _) => apply kquiet_forM
  | |- kquiet (cmodify _) => apply kquiet_cmodify; intros; repeat case_match; reflexivity
  | |- kquiet (modify_db _) => apply kquiet_modify_db; reflexivity
  | |- kquiet _ => solve [eauto with kquiet nocore]
  end).

Lemma kquiet_transition org t i f s r : kquiet (transition org t i f s r).
Proof. unfold transition. kquietness. Qed.
#[export] Hint Resolve kquiet_transition : kquiet.
Lemma kquiet_campaign_transition org i f t r : kquiet (campaign_transition org i f t r).
Proof. unfold campaign_transition. kquietness. Qed.
Lemma kquiet_run_transition org i f t r : kquiet (run_transition org i f t r).
Proof. unfold run_transition. kquietness. Qed.
Lemma kquiet_attempt_transition org i f t r : kquiet (attempt_transition org i f t r).
Proof. unfold attempt_transition. kquietness. Qed.
Lemma kquiet_policy_epoch org ch : kquiet (policy_epoch org ch).
Proof. unfold policy_epoch. kquietness. Qed.
#[export] Hint Resolve kquiet_campaign_transition kquiet_run_transition kquiet_attempt_transition
  kquiet_policy_epoch : kquiet.
Lemma kquiet_eligibility zi org c u i v ch q : kquiet (eligibility zi org c u i v ch q).
Proof. unfold eligibility. kquietness. Qed.
Lemma kquiet_reserve org run ch t : kquiet (reserve_throttle org run ch t).
Proof. unfold reserve_throttle, ensure_window, ensure_org_window. kquietness. Qed.
Lemma kquiet_recipient_one org id : kquiet (recipient_one org id).
Proof. unfold recipient_one. kquietness. Qed.
Lemma kquiet_campaign_row org id : kquiet (campaign_row org id).
Proof. apply kquiet_cgets. Qed.
Lemma kquiet_revision_row org id : kquiet (revision_row org id).
Proof. apply kquiet_cgets. Qed.
Lemma kquiet_run_row org id : kquiet (run_row org id).
Proof. apply kquiet_cgets. Qed.
#[export] Hint Resolve kquiet_campaign_row kquiet_revision_row kquiet_run_row : kquiet.
Lemma kquiet_set_preference org c i ch g u d e : kquiet (set_preference org c i ch g u d e).
Proof. unfold set_preference. kquietness. Qed.
Lemma kquiet_add_suppression org r : kquiet (add_suppression org r).
Proof. unfold add_suppression. kquietness. Qed.
Lemma kquiet_enqueue t a i o p : kquiet (enqueue_event t a i o p).
Proof. unfold enqueue_event. kquietness. Qed.
#[export] Hint Resolve kquiet_eligibility kquiet_reserve kquiet_recipient_one kquiet_set_preference
  kquiet_add_suppression kquiet_enqueue : kquiet.

(** Row writes. *)
Lemma ran_write_campaign row w u w' :
  write_campaign row w = (Ok u, w') → k_step (λ k, with_campaigns (upd cp_id row (k_campaigns k)) k) w w'.
Proof. intros [= _ <-]. split; [done|simpl; lia]. Qed.
Lemma ran_put_campaign row w a w' :
  put_campaign row w = (Ok a, w') → (∃ now, a = set_cp_updated_at now row) ∧
  k_step (λ k, with_campaigns (upd cp_id a (k_campaigns k)) k) w w'.
Proof. intros [= <- <-]. split; [by eexists|]. split; [done|simpl; lia]. Qed.
Lemma ran_put_snapshot row w u w' :
  put_snapshot row w = (Ok u, w') → k_step (λ k, with_snapshots (upd sn_id row (k_snapshots k)) k) w w'.
Proof. intros [= _ <-]. split; [done|simpl; lia]. Qed.
Lemma ran_put_recipient row w u w' :
  put_recipient row w = (Ok u, w') → k_step (λ k, with_recipients (upd rc_id row (k_recipients k)) k) w w'.
Proof. intros [= _ <-]. split; [done|simpl; lia]. Qed.
Lemma ran_put_run row w a w' :
  put_run row w = (Ok a, w') → (∃ now, a = set_rn_updated_at now row) ∧
  k_step (λ k, with_runs (upd rn_id a (k_runs k)) k) w w'.
Proof. intros [= <- <-]. split; [by eexists|]. split; [done|simpl; lia]. Qed.
Lemma ran_put_attempt row w a w' :
  put_attempt row w = (Ok a, w') → (∃ now, a = set_ra_updated_at now row) ∧
  k_step (λ k, with_attempts (upd ra_id a (k_attempts k)) k) w w'.
Proof. intros [= <- <-]. split; [by eexists|]. split; [done|simpl; lia]. Qed.
Lemma ran_put_permit row w u w' :
  put_permit row w = (Ok u, w') → k_step (λ k, with_permits (upd pm_id row (k_permits k)) k) w w'.
Proof. intros [= _ <-]. split; [done|simpl; lia]. Qed.
Lemma ran_fresh w a w' :
  fresh_uuid w = (Ok a, w') → core_of w' = core_of w ∧ w_next_uuid w = a ∧ w_next_uuid w' = N.succ a.
Proof. intros [= <- <-]. done. Qed.
Lemma ran_cmodify f w u w' :
  cmodify f w = (Ok u, w') → core_of w' = core (f (db_campaign (w_db w))) ∧ w_next_uuid w' = w_next_uuid w.
Proof. intros [= _ <-]. done. Qed.

(** A quiet part of a program leaves one equation on the core. *)
Ltac quiet H :=
  let Hq := fresh "Hq" in
  match type of H with
  | ?m ?w = (Ok ?a, ?w') =>
      assert (Hq : kquiet m) by kquietness; apply Hq in H; clear Hq
  end.

(** ** Refinement *)

Definition refines {A} (org : uuid) (m : M A) : Prop := ∀ w a w',
  kinv (core_of w) (w_next_uuid w) → m w = (Ok a, w') →
  esteps org (core_of w, w_next_uuid w) (core_of w', w_next_uuid w').

Lemma esteps_skip org k n n' : (n ≤ n')%N → esteps org (k, n) (k, n').
Proof. intros Hn. apply rtc_once. split; [done|by left]. Qed.

Lemma esteps_one org k k' n n' : (n ≤ n')%N → effect org n n' k k' → esteps org (k, n) (k', n').
Proof. intros Hn He. apply rtc_once. split; [done|by right]. Qed.

Lemma k_step_quiet org w w' : k_step (λ k, k) w w' →
  esteps org (core_of w, w_next_uuid w) (core_of w', w_next_uuid w').
Proof. intros [-> Hn]. by apply esteps_skip. Qed.

Lemma kquiet_refines {A} org (m : M A) : kquiet m → refines org m.
Proof. intros Hm w a w' _ H. apply k_step_quiet. by eapply Hm. Qed.

Lemma refines_bind {A B} org (m : M A) (f : A → M B) :
  refines org m → (∀ a, refines org (f a)) → refines org (m ≫= f).
Proof.
  intros Hm Hf w b w' HI H. ran H as a w1 H1. pose proof (Hm _ _ _ HI H1) as S1. etrans; [exact S1|].
  eapply Hf; [|exact H]. by apply (esteps_inv org _ _ S1).
Qed.

(** One effect, given what the program did to the core. *)
Lemma refine_effect org w w' k' n' :
  core_of w' = k' → n' = w_next_uuid w' → (w_next_uuid w ≤ n')%N → effect org (w_next_uuid w) n' (core_of w) k' →
  esteps org (core_of w, w_next_uuid w) (core_of w', w_next_uuid w').
Proof. intros -> -> Hn He. by apply esteps_one. Qed.

(** Open a bind of a normal return; dispose of reads. *)
Ltac read H := let a := fresh "x" in let w := fresh "w" in let E := fresh "Hr" in
  apply ran_bind in H as (a & w & E & H); injection E as E <-; cbv beta in E; subst a.

Lemma row_of {A} (p : A → bool) (key org_of : A → uuid) org id l x :
  (∀ y, p y = N.eqb (org_of y) org && N.eqb (key y) id) → List.find p l = Some x →
  x ∈ l ∧ org_of x = org ∧ key x = id.
Proof.
  intros Hp [Hx Hpx]%find_elem. rewrite Hp in Hpx. apply andb_true_iff in Hpx as [E1%N.eqb_eq E2%N.eqb_eq]. done.
Qed.

Lemma found_campaign_row org id w x :
  List.find (is_campaign org id) (cdb_campaigns (db_campaign (w_db w))) = Some x →
  x ∈ k_campaigns (core_of w) ∧ cp_organization_id x = org ∧ cp_id x = id.
Proof. by apply row_of. Qed.
Lemma found_revision_row org id w x :
  List.find (is_revision org id) (cdb_revisions (db_campaign (w_db w))) = Some x →
  x ∈ k_revisions (core_of w) ∧ cv_organization_id x = org ∧ cv_id x = id.
Proof. by apply row_of. Qed.
Lemma found_snapshot_row org id w x :
  List.find (λ s, N.eqb (sn_organization_id s) org && N.eqb (sn_campaign_revision_id s) id) (cdb_snapshots (db_campaign (w_db w))) = Some x →
  x ∈ k_snapshots (core_of w) ∧ sn_organization_id x = org ∧ sn_campaign_revision_id x = id.
Proof. by apply row_of. Qed.
Lemma found_run_row org id w x :
  List.find (is_run org id) (cdb_runs (db_campaign (w_db w))) = Some x →
  x ∈ k_runs (core_of w) ∧ rn_organization_id x = org ∧ rn_id x = id.
Proof. by apply row_of. Qed.
Lemma found_recipient_row org id w x :
  List.find (is_recipient org id) (cdb_recipients (db_campaign (w_db w))) = Some x →
  x ∈ k_recipients (core_of w) ∧ rc_organization_id x = org ∧ rc_id x = id.
Proof. by apply row_of. Qed.
Lemma found_attempt_row org id w x :
  List.find (is_attempt org id) (cdb_attempts (db_campaign (w_db w))) = Some x →
  x ∈ k_attempts (core_of w) ∧ ra_organization_id x = org ∧ ra_id x = id.
Proof. by apply row_of. Qed.
Lemma found_permit_row org id w x :
  List.find (is_permit org id) (cdb_permits (db_campaign (w_db w))) = Some x →
  x ∈ k_permits (core_of w) ∧ pm_organization_id x = org ∧ pm_id x = id.
Proof. by apply row_of. Qed.

(** ** Campaigns *)

Lemma create_campaign_refines org key name draft : refines org (create_campaign org key name draft).
Proof.
  intros w a w' HI H. unfold create_campaign in H. ran H as id w1 H1. apply ran_fresh in H1 as (E1 & N1 & N1').
  read H. read H. destruct (violates_campaign_key _ _); [done|].
  ran H as u w2 H2. apply ran_cmodify in H2 as [E2 N2]. ran H as u' w3 H3. quiet H3. destruct H3 as [E3 N3].
  injection H as <- <-.
  apply (refine_effect org w w3 (with_campaigns (k_campaigns (core_of w) ++
    [mkCampaign id org key name CampaignState.DRAFT 1 draft None (w_txn_now w1) (w_txn_now w1)]) (core_of w)) (w_next_uuid w3));
    [|done|lia|].
  - rewrite E3, E2. unfold with_campaigns. by rewrite <- E1.
  - apply E_new_campaign; simpl; try done. lia.
Qed.

(** A campaign row is written back. *)
Lemma campaign_write_refines org w w' p0 p :
  k_step (λ k, with_campaigns (upd cp_id p (k_campaigns k)) k) w w' →
  p0 ∈ k_campaigns (core_of w) → cp_organization_id p0 = org → same_campaign p0 p →
  cp_prepared_revision_id p = cp_prepared_revision_id p0 →
  (cp_state p = cp_state p0 ∨ legal (cp_state p0) (cp_state p)) →
  (cp_draft_specification p ≠ cp_draft_specification p0 → cp_state p0 = CampaignState.DRAFT) →
  esteps org (core_of w, w_next_uuid w) (core_of w', w_next_uuid w').
Proof.
  intros [E N] H1 H2 H3 H4 H5 H6. eapply refine_effect; [exact E|done|done|]. by eapply E_campaign.
Qed.

Lemma update_campaign_refines org row name draft w a w' :
  row ∈ k_campaigns (core_of w) → cp_organization_id row = org →
  update_campaign row name draft w = (Ok a, w') →
  esteps org (core_of w, w_next_uuid w) (core_of w', w_next_uuid w').
Proof.
  intros Hrow Ho H. unfold update_campaign in H. destruct (negb _) eqn:Hd; [done|]. booleans.
  ran H as now w1 H1. quiet H1. destruct H1 as [E1 N1]. ran H as u w2 H2. apply ran_write_campaign in H2 as [E2 N2].
  injection H as _ <-. rewrite E1 in E2.
  eapply campaign_write_refines; [split; [exact E2|lia]|exact Hrow|done|..]; destruct name, draft; simpl; auto; done.
Qed.

Lemma begin_preparation_refines dg cn ca org row w a w' :
  row ∈ k_campaigns (core_of w) → cp_organization_id row = org →
  begin_preparation dg cn ca org row w = (Ok a, w') →
  esteps org (core_of w, w_next_uuid w) (core_of w', w_next_uuid w').
Proof.
  intros Hrow Ho H. unfold begin_preparation in H. ran H as u w1 H1. injection H1 as Hg <-. destruct u.
  apply guard_transition_Ok in Hg. read H. ran H as vid w2 H2. apply ran_fresh in H2 as (E2 & N2 & N2').
  ran H as sid w3 H3. apply ran_fresh in H3 as (E3 & N3 & N3').
  ran H as row' w4 H4. apply ran_put_campaign in H4 as ((now & Er) & E4 & N4). subst row'. read H.
  destruct (violates_revision_number _ _); [done|]. ran H as u w5 H5. apply ran_cmodify in H5 as [E5 N5].
  ran H as u' w6 H6. quiet H6. destruct H6 as [E6 N6]. read H. destruct (violates_snapshot_revision _ _); [done|].
  ran H as u2 w7 H7. apply ran_cmodify in H7 as [E7 N7]. injection H as <- <-.
  assert (Hst : cp_state row = CampaignState.DRAFT).
  { revert Hg. unfold legal. clear. destruct (cp_state row); simpl; set_solver. }
  eapply (refine_effect org w w7); [reflexivity|reflexivity|lia|].
  assert (Ecore : core_of w7 = mkCore (upd cp_id (set_cp_updated_at now (set_cp_state CampaignState.PREPARING row))
      (k_campaigns (core_of w))) (k_revisions (core_of w) ++ [new_revision dg cn org vid
      (set_cp_state CampaignState.PREPARING row) (cp_draft_specification (set_cp_state CampaignState.PREPARING row)) (w_txn_now w)])
      (k_snapshots (core_of w) ++ [new_snapshot dg ca org sid vid
      (cp_draft_specification (set_cp_state CampaignState.PREPARING row)) (w_txn_now w)])
      (k_recipients (core_of w)) (k_runs (core_of w)) (k_attempts (core_of w)) (k_permits (core_of w))).
  { change (core_of w7 = with_snapshots (k_snapshots (core_of w6) ++ [new_snapshot dg ca org sid vid
      (cp_draft_specification (set_cp_state CampaignState.PREPARING row)) (w_txn_now w)]) (core_of w6)) in E7.
    change (core_of w5 = with_revisions (k_revisions (core_of w4) ++ [new_revision dg cn org vid
      (set_cp_state CampaignState.PREPARING row) (cp_draft_specification (set_cp_state CampaignState.PREPARING row)) (w_txn_now w)])
      (core_of w4)) in E5.
    rewrite E7, E6, E5, E4, E3, E2. done. }
  rewrite Ecore. eapply E_prepare; simpl; try done; lia.
Qed.

Lemma active_preparation_quiet org c n : kquiet (active_preparation org c n).
Proof. unfold active_preparation, snapshot_row. kquietness. Qed.
#[export] Hint Resolve active_preparation_quiet : kquiet.

(** ** The audience *)

(** The columns of a snapshot that one resolved member changes. *)
Definition resolved (n : Z) (s s' : CampaignAudienceSnapshotRecord) : Prop :=
  snapshot_ident s' = snapshot_ident s ∧ sn_state s' = sn_state s ∧ sn_cursor s' = sn_cursor s ∧
  sn_resolved_count s' = sn_resolved_count s + n ∧
  sn_eligible_count s' + sn_rejected_count s' = sn_eligible_count s + sn_rejected_count s + n.

Definition recipient_key (r : CampaignRecipientRecord) := (rc_snapshot_id r, rc_customer_id r, rc_channel r).

Lemma no_recipient_violation row c r :
  violates_recipient row c = false → r ∈ cdb_recipients c →
  (rc_snapshot_id r = rc_snapshot_id row → rc_organization_id r = rc_organization_id row) →
  recipient_key r ≠ recipient_key row.
Proof.
  unfold violates_recipient. rewrite existsb_none. intros Hv Hr Ho [= E1 E2 E3]. specialize (Hv r Hr).
  rewrite (Ho E1), E1, E2, E3, !N.eqb_refl, bool_decide_eq_true_2 in Hv by done. done.
Qed.

Lemma ran_materialize_member dg zi org cid spec s m w s' w' :
  (∀ r, r ∈ k_recipients (core_of w) → rc_snapshot_id r = sn_id s → rc_organization_id r = org) →
  materialize_member dg zi org cid spec s m w = (Ok s', w') →
  ∃ row, core_of w' = with_recipients (k_recipients (core_of w) ++ [row]) (core_of w) ∧
    (w_next_uuid w ≤ rc_id row < w_next_uuid w')%N ∧
    rc_snapshot_id row = sn_id s ∧ rc_organization_id row = org ∧ member_of row = m ∧
    (∀ r, r ∈ k_recipients (core_of w) → recipient_key r ≠ recipient_key row) ∧ resolved 1 s s'.
Proof.
  intros Ho H. unfold materialize_member in H. ran H as el w1 H1. quiet H1. destruct H1 as [E1 N1].
  ran H as id w2 H2. apply ran_fresh in H2 as (E2 & N2 & N2'). read H. read H.
  destruct (_ || _) eqn:Hv; [done|]. apply orb_false_iff in Hv as [Hv _].
  ran H as u w3 H3. apply ran_cmodify in H3 as [E3 N3]. injection H as <- <-.
  eexists. split; [rewrite E3; unfold with_recipients; rewrite <- E1, <- E2; reflexivity|].
  split; [simpl; lia|]. split; [done|]. split; [done|]. split; [by destruct m|]. split.
  - intros r Hr. eapply no_recipient_violation; [exact Hv| |].
    + rewrite <- E1, <- E2 in Hr. exact Hr.
    + intros E. apply Ho; [done|exact E].
  - unfold resolved. destruct (bool_decide _); simpl; repeat split; lia.
Qed.

Lemma ran_materialize_members dg zi org cid spec ms s w s' w' :
  keyed rc_id (w_next_uuid w) (k_recipients (core_of w)) → NoDup (map recipient_key (k_recipients (core_of w))) →
  (∀ r, r ∈ k_recipients (core_of w) → rc_snapshot_id r = sn_id s → rc_organization_id r = org) →
  materialize_members dg zi org cid spec s ms w = (Ok s', w') →
  ∃ rcs, core_of w' = with_recipients (k_recipients (core_of w) ++ rcs) (core_of w) ∧
    (w_next_uuid w ≤ w_next_uuid w')%N ∧
    Forall (λ rc, rc_snapshot_id rc = sn_id s ∧ rc_organization_id rc = org) rcs ∧ map member_of rcs = ms ∧
    keyed rc_id (w_next_uuid w') (k_recipients (core_of w) ++ rcs) ∧
    NoDup (map recipient_key (k_recipients (core_of w) ++ rcs)) ∧ resolved (Z.of_nat (length ms)) s s'.
Proof.
  revert s w. induction ms as [|m ms IH]; intros s w Hk Hu Ho H; simpl in H.
  - injection H as <- <-. exists []. rewrite app_nil_r. split; [by destruct (core_of w)|].
    split; [lia|]. split; [constructor|]. do 3 (split; [done|]). unfold resolved. simpl. repeat split; lia.
  - ran H as s1 w1 H1. apply (ran_materialize_member _ _ _ _ _ _ _ _ _ _ Ho) in H1
      as (row & E1 & N1 & Hs1 & Ho1 & Hm & Hn & (R1 & R2 & R3 & R4 & R5)).
    assert (Esn : sn_id s1 = sn_id s) by (unfold snapshot_ident in R1; congruence).
    apply IH in H as (rcs & E2 & N2 & Hf & Hms & Hk2 & Hu2 & (Q1 & Q2 & Q3 & Q4 & Q5)).
    + rewrite E1 in E2, Hk2, Hu2. simpl in E2, Hk2, Hu2. exists (row :: rcs).
      rewrite <- !app_assoc in *. rewrite Esn in Hf.
      split; [exact E2|]. split; [lia|]. split; [by constructor|]. split; [simpl; by rewrite Hm, Hms|].
      split; [done|]. split; [done|]. unfold resolved. rewrite Q1, Q2, Q3. simpl length. repeat split; try done; lia.
    + rewrite E1. simpl. apply (keyed_snoc _ _ _ _ _ Hk); lia.
    + rewrite E1. simpl. by apply NoDup_map_snoc.
    + rewrite E1, Esn. simpl. intros r [Hr| ->%list_elem_of_singleton]%elem_of_app ?; [by apply Ho|done].
Qed.

Lemma materialize_batch_refines dg zi org vid limit : refines org (materialize_batch dg zi org vid limit).
Proof.
  intros w a w' HI H. unfold materialize_batch in H. read H. read H.
  destruct (List.find _ (cdb_revisions _)) as [v|] eqn:Hv; [|done].
  destruct (List.find _ (cdb_snapshots _)) as [s|] eqn:Hs; [|done].
  apply found_revision_row in Hv as (Hv & Hvo & Hvi). apply found_snapshot_row in Hs as (Hs & Hso & Hsv).
  destruct (negb _) eqn:Hst; [done|]. destruct (negb (bool_decide (cd_audience_source _ = _))); [done|].
  ran H as s1 w1 H1. ran H as u w2 H2. apply ran_put_snapshot in H2 as [E2 N2]. injection H as <- <-.
  apply ran_materialize_members in H1 as (rcs & E1 & N1 & Hf & Hms & Hk & Hu & (R1 & R2 & R3 & R4 & R5));
    [|apply HI..|].
  2:{ intros r Hr Hrs. destruct (ki_recipient_ref _ _ HI r Hr) as (s2 & Hs2 & E & Eo).
      assert (s2 = s) as -> by (eapply (keyed_inj sn_id); [apply HI|done..|congruence]). congruence. }
  assert (Hlen : length rcs = length (page limit (sn_cursor s) (cd_audience (cv_specification v)))).
  { by rewrite <- Hms, length_map. }
  eapply refine_effect; [reflexivity|reflexivity|lia|]. rewrite E2, E1.
  spread. eapply (E_audience _ _ _ _ s _ v rcs); simpl; try done; try congruence.
  - apply negb_false_iff, bool_decide_eq_true in Hst. done.
  - apply negb_false_iff, bool_decide_eq_true in Hst. congruence.
  - by eapply keyed_mono.
  - rewrite Hms, Hlen. unfold page. apply take_self.
Qed.

Lemma seal_preparation_refines org cid vid w a w' :
  (∀ v, v ∈ k_revisions (core_of w) → cv_id v = vid → cv_campaign_id v = cid) →
  seal_preparation org cid vid w = (Ok a, w') →
  esteps org (core_of w, w_next_uuid w) (core_of w', w_next_uuid w').
Proof.
  intros Hgen H. unfold seal_preparation in H. read H. read H.
  destruct (List.find _ (cdb_campaigns _)) as [p|] eqn:Hp; [|done].
  destruct (List.find _ (cdb_snapshots _)) as [s|] eqn:Hs; [|done].
  apply found_campaign_row in Hp as (Hp & Hpo & Hpi). apply found_snapshot_row in Hs as (Hs & Hso & Hsv).
  destruct (negb _) eqn:Hst; [done|]. booleans. read H.
  destruct (List.find _ (cdb_revisions _)) as [v|] eqn:Hv; [|done].
  apply found_revision_row in Hv as (Hv & Hvo & Hvi). destruct (negb _) eqn:Hc; [done|]. booleans.
  ran H as now w1 H1. quiet H1. destruct H1 as [E1 N1].
  ran H as u w2 H2. apply ran_put_snapshot in H2 as [E2 N2].
  ran H as u2 w3 H3. quiet H3. destruct H3 as [E3 N3]. apply ran_put_campaign in H as ((t & ->) & E4 & N4).
  eapply refine_effect; [reflexivity|reflexivity|lia|]. rewrite E4, E3, E2, E1. spread.
  eapply (E_seal _ _ _ _ p _ s _ v); simpl; try done; try congruence.
  - rewrite Hpi. by apply Hgen.
  - by apply Z.eqb_eq.
Qed.

(** ** Runs *)

Lemma create_run_refines org p key w a w' :
  kinv (core_of w) (w_next_uuid w) → p ∈ k_campaigns (core_of w) → cp_organization_id p = org →
  create_run org p key w = (Ok a, w') →
  esteps org (core_of w, w_next_uuid w) (core_of w', w_next_uuid w').
Proof.
  intros HI Hp Hpo H. unfold create_run in H. destruct (cp_prepared_revision_id p) as [vid|] eqn:Hvid; [|done].
  destruct (negb _); [done|]. read H. destruct (List.find _ (cdb_snapshots _)) as [s|] eqn:Hs; [|done].
  apply found_snapshot_row in Hs as (Hs & Hso & Hsv). destruct (negb _) eqn:Hst; [done|]. booleans. read H.
  destruct (List.find _ (cdb_runs _)) as [r|] eqn:Hr.
  { injection H as <- <-. by apply esteps_skip. }
  ran H as id w1 H1. apply ran_fresh in H1 as (E1 & N1 & N1'). read H.
  ran H as u w2 H2. apply ran_cmodify in H2 as [E2 N2].
  ran H as u2 w3 H3. quiet H3. destruct H3 as [E3 N3]. injection H as <- <-.
  destruct (ki_prepared _ _ HI p vid Hp Hvid) as (v & Hv & Hvi & Hvc).
  destruct (ki_snapshot_ok _ _ HI s Hs) as (v' & Hv' & Ev & Evo & _).
  assert (v' = v) as -> by (eapply (keyed_inj cv_id); [apply HI|done..|congruence]).
  eapply refine_effect; [reflexivity|reflexivity|lia|]. rewrite E3, E2.
  change (core (set_cdb_runs ?l (db_campaign (w_db w1)))) with (with_runs l (core_of w1)).
  change (cdb_runs (db_campaign (w_db w1))) with (k_runs (core_of w1)). rewrite E1. spread.
  apply E_new_run; simpl; try done; [lia|]. exists p, v, s. simpl. repeat split; try done; congruence.
Qed.

(** A run row is written back in its state. *)
Lemma run_write_refines org w w' r0 r :
  k_step (λ k, with_runs (upd rn_id r (k_runs k)) k) w w' →
  r0 ∈ k_runs (core_of w) → rn_organization_id r0 = org → run_ident r = run_ident r0 →
  run_counts r = run_counts r0 → run_progress r = run_progress r0 → rn_state r = rn_state r0 →
  esteps org (core_of w, w_next_uuid w) (core_of w', w_next_uuid w').
Proof.
  intros [E N] H1 H2 H3 H4 H5 H6. eapply refine_effect; [exact E|done|done|].
  eapply E_run; try done; rewrite ?H6; auto; congruence.
Qed.

Lemma set_release_run_refines org rid wid : refines org (set_release_run org rid wid).
Proof.
  intros w a w' HI H. unfold set_release_run in H. read H.
  destruct (List.find _ _) as [r|] eqn:Hr; [|done]. apply found_run_row in Hr as (Hr & Hro & Hri).
  destruct (negb _); [done|]. destruct (rn_release_workflow_run_id r) as [c|].
  { destruct (N.eqb _ _); [|done]. injection H as _ <-. by apply esteps_skip. }
  apply ran_put_run in H as ((t & ->) & S). by eapply run_write_refines.
Qed.

Lemma put_bound_run_refines org r0 r w a w' :
  kinv (core_of w) (w_next_uuid w) → put_bound_run r w = (Ok a, w') →
  r0 ∈ k_runs (core_of w) → rn_organization_id r0 = org → run_ident r = run_ident r0 →
  run_counts r = run_counts r0 → run_progress r = run_progress r0 → rn_state r = rn_state r0 →
  esteps org (core_of w, w_next_uuid w) (core_of w', w_next_uuid w').
Proof.
  intros HI H. intros. unfold put_bound_run in H. read H. destruct (violates_run _ _); [done|].
  apply ran_put_run in H as ((t & ->) & S). by eapply run_write_refines.
Qed.

Lemma bind_schedule_refines org rid sid : refines org (bind_schedule org rid sid).
Proof.
  intros w a w' HI H. unfold bind_schedule in H. read H.
  destruct (List.find _ _) as [r|] eqn:Hr; [|done]. apply found_run_row in Hr as (Hr & Hro & Hri).
  destruct (rn_schedule_id r) as [c|].
  { destruct (N.eqb _ _); [|done]. injection H as _ <-. by apply esteps_skip. }
  by eapply put_bound_run_refines.
Qed.

Lemma bind_scheduled_release_refines org rid sid oid wid vid :
  refines org (bind_scheduled_release org rid sid oid wid vid).
Proof.
  intros w a w' HI H. unfold bind_scheduled_release in H. read H.
  destruct (List.find _ (cdb_runs _)) as [r|] eqn:Hr; [|done]. read H. read H. rewrite Hr in H.
  apply found_run_row in Hr as (Hr & Hro & Hri).
  destruct (List.find _ (cdb_campaigns _)) as [p|] eqn:Hp; [|done].
  destruct (bool_decide (_ = (Some _, _))). { injection H as _ <-. by apply esteps_skip. }
  do 4 (destruct (negb _); [done|]). read H. destruct (match _ with Some _ => _ | None => _ end); [done|].
  ran H as u w1 H1. quiet H1. destruct H1 as [E1 N1].
  etrans; [|eapply (put_bound_run_refines org r); [|exact H|by rewrite E1|done..]].
  - rewrite E1. by apply esteps_skip.
  - rewrite E1. by eapply kinv_mono.
Qed.

Lemma mark_campaign_scheduled_refines org cid : refines org (mark_campaign_scheduled org cid).
Proof.
  intros w a w' HI H. unfold mark_campaign_scheduled in H. read H.
  destruct (List.find _ _) as [p|] eqn:Hp; [|done]. apply found_campaign_row in Hp as (Hp & Hpo & Hpi).
  destruct (bool_decide _). { injection H as _ <-. by apply esteps_skip. }
  ran H as u w1 H1. injection H1 as Hg <-. destruct u. apply guard_transition_Ok in Hg.
  ran H as u w2 H2. quiet H2. destruct H2 as [E2 N2]. apply ran_put_campaign in H as ((t & ->) & E3 & N3).
  rewrite E2 in E3. eapply campaign_write_refines; [split; [exact E3|lia]|exact Hp|done..| |]; simpl; auto; done.
Qed.

Lemma begin_run_activation_refines org rid : refines org (begin_run_activation org rid).
Proof.
  intros w a w' HI H. unfold begin_run_activation in H. read H.
  destruct (List.find _ (cdb_runs _)) as [r|] eqn:Hr; [|done]. read H. read H. rewrite Hr in H.
  apply found_run_row in Hr as (Hr & Hro & Hri). destruct (rn_state r) eqn:Hst; try done.
  - destruct (List.find _ (cdb_campaigns _)) as [p|] eqn:Hp; [|done].
    apply found_campaign_row in Hp as (Hp & Hpo & Hpi). destruct (negb _) eqn:Hps; [done|]. booleans.
    ran H as u w1 H1. quiet H1. destruct H1 as [E1 N1]. ran H as u2 w2 H2. quiet H2. destruct H2 as [E2 N2].
    ran H as p' w3 H3. apply ran_put_campaign in H3 as ((t & ->) & E3 & N3).
    apply ran_put_run in H as ((t' & ->) & E4 & N4).
    eapply refine_effect; [reflexivity|reflexivity|lia|]. rewrite E4, E3, E2, E1. spread.
    eapply (E_activate _ _ _ _ p _ r); simpl; try done; congruence.
  - destruct (match _ with Some _ => _ | None => _ end); [|done]. injection H as _ <-. by apply esteps_skip.
  - injection H as _ <-. by apply esteps_skip.
Qed.

(** ** Attempts *)

Definition attempt_key (a : CampaignRecipientAttemptRecord) := (ra_organization_id a, ra_p09_idempotency_key a).

Lemma ran_add_attempt dg org run v rc w u w' :
  add_attempt dg org run v rc w = (Ok u, w') →
  ∃ a, core_of w' = with_attempts (k_attempts (core_of w) ++ [a]) (core_of w) ∧
    (w_next_uuid w ≤ ra_id a < w_next_uuid w')%N ∧ fresh_attempt org run a ∧ ra_recipient_id a = rc_id rc ∧
    ∀ b, b ∈ k_attempts (core_of w) → attempt_key b ≠ attempt_key a.
Proof.
  intros H. unfold add_attempt in H. ran H as id w1 H1. apply ran_fresh in H1 as (E1 & N1 & N1'). read H. read H.
  destruct (violates_attempt _ _) eqn:Hv; [done|]. apply ran_cmodify in H as [E2 N2].
  eexists. split; [rewrite E2; unfold with_attempts; rewrite <- E1; reflexivity|]. split; [simpl; lia|].
  split; [done|]. split; [done|]. intros b Hb [= Eo Ek]. unfold violates_attempt in Hv. rewrite existsb_none in Hv.
  rewrite <- E1 in Hb. specialize (Hv b Hb). unfold new_attempt in Hv. cbn in Hv.
  rewrite Eo, Ek, N.eqb_refl, String.eqb_refl, !orb_true_r in Hv. done.
Qed.

Lemma ran_add_attempts dg org run v rcs w u w' :
  keyed ra_id (w_next_uuid w) (k_attempts (core_of w)) → NoDup (map attempt_key (k_attempts (core_of w))) →
  forM_ (add_attempt dg org run v) rcs w = (Ok u, w') →
  ∃ new, core_of w' = with_attempts (k_attempts (core_of w) ++ new) (core_of w) ∧
    (w_next_uuid w ≤ w_next_uuid w')%N ∧ Forall (fresh_attempt org run) new ∧
    map ra_recipient_id new = map rc_id rcs ∧ keyed ra_id (w_next_uuid w') (k_attempts (core_of w) ++ new) ∧
    NoDup (map attempt_key (k_attempts (core_of w) ++ new)).
Proof.
  revert w. induction rcs as [|rc rcs IH]; intros w Hk Hu H; simpl in H.
  - injection H as _ <-. exists []. rewrite app_nil_r. split; [by destruct (core_of w)|].
    split; [lia|]. by split; [constructor|].
  - ran H as u1 w1 H1. apply ran_add_attempt in H1 as (a & E1 & N1 & Hf & Hr & Hn).
    apply IH in H as (new & E2 & N2 & Hf2 & Hr2 & Hk2 & Hu2).
    + rewrite E1 in E2, Hk2, Hu2. simpl in E2, Hk2, Hu2. exists (a :: new). rewrite <- !app_assoc in *.
      split; [exact E2|]. split; [lia|]. split; [by constructor|]. by split; [simpl; by rewrite Hr, Hr2|].
    + rewrite E1. simpl. apply (keyed_snoc _ _ _ _ _ Hk); lia.
    + rewrite E1. simpl. by apply NoDup_map_snoc.
Qed.

Lemma length_sendable_of k r :
  length (sendable_of k r) =
  length (List.filter (sendable (rn_organization_id r) (rn_audience_snapshot_id r)) (k_recipients k)).
Proof. unfold sendable_of, by_creation. by rewrite merge_sort_Permutation. Qed.

Lemma materialize_attempt_batch_refines dg org rid limit : refines org (materialize_attempt_batch dg org rid limit).
Proof.
  intros w a w' HI H. unfold materialize_attempt_batch in H. destruct (limit <? 1); [done|]. read H.
  destruct (List.find _ (cdb_runs _)) as [r|] eqn:Hr; [|done]. apply found_run_row in Hr as (Hr & Hro & Hri).
  destruct (negb _) eqn:Hst; [done|]. booleans. read H. read H. destruct (List.find _ (cdb_revisions _)) as [v|]; [|done].
  ran H as u w1 H1. apply ran_add_attempts in H1 as (new & E1 & N1 & Hf & Hids & Hk & Hu); [|apply HI..].
  set (rcs := page _ _ _) in *.
  assert (Hlen : length new = length rcs) by (by rewrite <- (length_map ra_recipient_id), Hids, length_map).
  assert (Hids' : map ra_recipient_id new = map rc_id (take (length new)
    (drop (Z.to_nat (rn_attempt_materialization_cursor r)) (sendable_of (core_of w) r)))).
  { rewrite Hids, Hlen. subst rcs. unfold sendable_of, sendable_recipients, page. rewrite Hro. by rewrite <- take_self. }
  destruct (ki_materializing _ _ HI r Hr Hst) as (Hmc & _).
  read H. ran H as r' w2 H2. injection H as <- <-.
  assert (Hstep : ∀ r' w2, k_step (λ k, with_runs (upd rn_id r' (k_runs k)) k) w1 w2 →
    run_ident r' = run_ident r → run_counts r' = run_counts r →
    rn_attempt_materialization_cursor r' = rn_attempt_materialization_cursor r + Z.of_nat (length rcs) →
    (rn_state r' = CampaignRunState.MATERIALIZING ∧ rn_attempt_materialization_complete r' = false ∨
     rn_state r' = CampaignRunState.RUNNING ∧ rn_attempt_materialization_complete r' = true ∧
       Z.of_nat (length (sendable_of (core_of w) r)) ≤ rn_attempt_materialization_cursor r') →
    esteps org (core_of w, w_next_uuid w) (core_of w2, w_next_uuid w2)).
  { intros r1 w3 [E2 N2] G1 G2 G3 G4. eapply refine_effect; [reflexivity|reflexivity|lia|]. rewrite E2, E1. spread.
    eapply (E_materialize _ _ _ _ r); try done; [by eapply keyed_mono|by rewrite Hlen]. }
  destruct (_ <=? _) eqn:Htot.
  - ran H2 as u2 w3 H3. quiet H3. destruct H3 as [E3 N3]. apply ran_put_run in H2 as ((t & ->) & E4 & N4).
    rewrite E3 in E4. eapply Hstep; [split; [exact E4|lia]|done..|]. right. split; [done|]. split; [done|].
    apply Z.leb_le in Htot. rewrite length_sendable_of, Hro. simpl in Htot |- *.
    change (cdb_recipients (db_campaign (w_db w1))) with (k_recipients (core_of w1)) in Htot. by rewrite E1 in Htot.
  - destruct (0 <? _) eqn:Hpos.
    + apply ran_put_run in H2 as ((t & ->) & S). eapply Hstep; [exact S|done..|]. left. by split.
    + injection H2 as _ <-. apply Z.ltb_ge in Hpos. destruct new; [|simpl in Hlen; lia].
      rewrite E1, app_nil_r. destruct (core_of w). by apply esteps_skip.
Qed.

(** ** Sets of runs *)

(** What the bulk updates do to one run. *)
Definition run_shift (org : uuid) (r r' : CampaignRunRecord) : Prop :=
  rn_organization_id r = org ∧ run_ident r' = run_ident r ∧ run_counts r' = run_counts r ∧
  run_progress r' = run_progress r ∧ rn_state r' ∈ run_moves (rn_state r) ∧
  rn_state r' ∉ [CampaignRunState.MATERIALIZING; CampaignRunState.COMPLETED] ∧
  (rn_state r' = CampaignRunState.RUNNING → rn_state r ≠ CampaignRunState.MATERIALIZING).

Lemma run_shift_effect org n n' k r r' :
  r ∈ k_runs k → run_shift org r r' → effect org n n' k (with_runs (upd rn_id r' (k_runs k)) k).
Proof.
  intros Hr (H1 & H2 & H3 & H4 & H5 & H6 & H7). apply (E_run org n n' k r); try done; [by right|..].
  - intros E. exfalso. apply H6. rewrite E. set_solver.
  - intros E. exfalso. apply H6. rewrite E. set_solver.
Qed.

(** A loop that writes back each of a set of runs. *)
Lemma run_loop_refines org (f : CampaignRunRecord → M unit) l w u w' :
  NoDup (map rn_id l) → (∀ r, r ∈ l → r ∈ k_runs (core_of w)) →
  (∀ r w u w', r ∈ l → f r w = (Ok u, w') → ∃ r',
     k_step (λ k, with_runs (upd rn_id r' (k_runs k)) k) w w' ∧ run_shift org r r') →
  forM_ f l w = (Ok u, w') →
  esteps org (core_of w, w_next_uuid w) (core_of w', w_next_uuid w').
Proof.
  revert w. induction l as [|r l IH]; intros w Hnd Hin Hf H; simpl in H.
  { injection H as _ <-. by apply esteps_skip. }
  simpl in Hnd. apply NoDup_cons in Hnd as [Hr Hnd]. ran H as u1 w1 H1.
  apply Hf in H1 as (r' & [E N] & S); [|by constructor]. etrans.
  - apply (refine_effect org w w1 _ _ E eq_refl N). eapply run_shift_effect; [apply Hin; by constructor|exact S].
  - apply (IH w1); [done| | |done].
    + intros x Hx. rewrite E. simpl. apply upd_other; [apply Hin; by constructor|].
      destruct S as (_ & S & _). unfold run_ident in S. intros Hk. apply Hr.
      assert (rn_id r = rn_id x) as -> by congruence. by apply (list_elem_of_fmap_2 rn_id).
    + intros. eapply Hf; [by constructor|done].
Qed.

Lemma upd_cons {A} (key : A → uuid) y x l :
  upd key y (x :: l) = (if N.eqb (key x) (key y) then y else x) :: upd key y l.
Proof. done. Qed.

(** A bulk update is the sequence of its row updates. *)
Lemma update_where_upds {A} (key : A → uuid) (p : A → bool) (g : A → A) l :
  NoDup (map key l) → (∀ r, key (g r) = key r) →
  update_where p g l = foldl (λ acc r, upd key (g r) acc) l (List.filter p l).
Proof.
  intros Hnd Hg. assert (Hskip : ∀ rs x t, key x ∉ map key rs →
    foldl (λ acc r, upd key (g r) acc) (x :: t) rs = x :: foldl (λ acc r, upd key (g r) acc) t rs).
  { induction rs as [|r rs IHr]; intros x t Hx; [done|]. simpl in Hx. cbn [foldl]. apply not_elem_of_cons in Hx as [Hx Hxs].
    by rewrite upd_cons, Hg, (proj2 (N.eqb_neq _ _) Hx), IHr. }
  assert (Hid : ∀ y t, key y ∉ map key t → upd key y t = t).
  { intros y. induction t as [|x t IHt]; intros Hy; [done|]. simpl in Hy. apply not_elem_of_cons in Hy as [Hx Hy].
    rewrite upd_cons, (proj2 (N.eqb_neq _ _)) by congruence. by rewrite IHt. }
  induction l as [|x l IH]; [done|]. simpl in Hnd. apply NoDup_cons in Hnd as [Hx Hnd].
  assert (Hxf : key x ∉ map key (List.filter p l)).
  { intros (y & E & Hy)%list_elem_of_fmap. apply elem_of_filterb in Hy as [Hy _]. apply Hx. rewrite E.
    by apply (list_elem_of_fmap_2 key). }
  change (update_where p g (x :: l)) with ((if p x then g x else x) :: update_where p g l).
  cbn [List.filter]. destruct (p x); cbn [foldl].
  - rewrite upd_cons, Hg, N.eqb_refl, Hid by by rewrite Hg.
    rewrite Hskip by by rewrite Hg. f_equal. by apply IH.
  - rewrite Hskip by done. f_equal. by apply IH.
Qed.

Lemma run_upds_refines org n k g l :
  NoDup (map rn_id l) → (∀ r, r ∈ l → r ∈ k_runs k) → (∀ r, r ∈ l → run_shift org r (g r)) →
  esteps org (k, n) (with_runs (foldl (λ acc r, upd rn_id (g r) acc) (k_runs k) l) k, n).
Proof.
  revert k. induction l as [|r l IH]; intros k Hnd Hin Hg; simpl in *.
  { destruct k. by apply esteps_skip. }
  apply NoDup_cons in Hnd as [Hr Hnd]. etrans.
  - apply esteps_one; [done|]. eapply run_shift_effect; [apply Hin|apply Hg]; by constructor.
  - apply (IH (with_runs (upd rn_id (g r) (k_runs k)) k)); [done| |intros; apply Hg; by constructor].
    intros x Hx. simpl. apply upd_other; [apply Hin; by constructor|].
    destruct (Hg r ltac:(constructor)) as (_ & S & _). unfold run_ident in S. intros Hk. apply Hr.
    assert (rn_id r = rn_id x) as -> by congruence. by apply (list_elem_of_fmap_2 rn_id).
Qed.

Lemma update_runs_refines org p f :
  (∀ r t, p r = true → run_shift org r (set_rn_updated_at t (f r))) → (∀ r, rn_id (f r) = rn_id r) →
  refines org (update_runs p f).
Proof.
  intros Hs Hid w a w' HI H. unfold update_runs in H. read H. apply ran_cmodify in H as [E N].
  rewrite N. assert (core_of w' = with_runs (foldl (λ acc r, upd rn_id (set_rn_updated_at (w_txn_now w) (f r)) acc)
    (k_runs (core_of w)) (List.filter p (k_runs (core_of w)))) (core_of w)) as ->.
  { rewrite E. unfold with_runs. simpl.
    rewrite <- (update_where_upds rn_id p (λ r, set_rn_updated_at (w_txn_now w) (f r))); [done|apply HI|done]. }
  apply run_upds_refines.
  - apply (NoDup_map_filter rn_id), HI.
  - intros r [Hr _]%elem_of_filterb. done.
  - intros r [_ Hr]%elem_of_filterb. by apply Hs.
Qed.

(** ** Stopping and resuming *)

(** A bulk update that moves the selected runs of a campaign to another state. *)
Lemma run_state_shift org cid (l : list CampaignRunState) s r t :
  N.eqb (rn_organization_id r) org && N.eqb (rn_campaign_id r) cid && bool_decide (rn_state r ∈ l) = true →
  Forall (λ x, s ∈ run_moves x ∧ (s = CampaignRunState.RUNNING → x ≠ CampaignRunState.MATERIALIZING)) l →
  s ∉ [CampaignRunState.MATERIALIZING; CampaignRunState.COMPLETED] →
  run_shift org r (set_rn_updated_at t (set_rn_state s r)).
Proof.
  intros [[Ho%N.eqb_eq _]%andb_true_iff Hl%bool_decide_eq_true]%andb_true_iff Hm Hs.
  rewrite Forall_forall in Hm. destruct (Hm _ Hl) as [H1 H2]. done.
Qed.

Ltac decided := apply (bool_decide_unpack _); vm_compute; exact I.

Lemma transition_campaign_state_refines org cid target reason :
  refines org (transition_campaign_state org cid target reason).
Proof.
  intros w a w' HI H. unfold transition_campaign_state in H. read H.
  destruct (List.find _ _) as [p|] eqn:Hp; [|done]. apply found_campaign_row in Hp as (Hp & Hpo & Hpi).
  ran H as u w1 H1. injection H1 as Hg <-. destruct u. apply guard_transition_Ok in Hg.
  ran H as u w2 H2. quiet H2. destruct H2 as [E2 N2].
  ran H as p' w3 H3. apply ran_put_campaign in H3 as ((t & ->) & E3 & N3). rewrite E2 in E3.
  assert (S1 : esteps org (core_of w, w_next_uuid w) (core_of w3, w_next_uuid w3)).
  { eapply campaign_write_refines; [split; [exact E3|lia]|exact Hp|done..| |]; simpl; auto; done. }
  etrans; [exact S1|]. apply esteps_inv in S1 as [_ S1]. specialize (S1 HI). ran H as u3 w4 H4. injection H as _ <-.
  destruct target; try (injection H4 as _ <-; by apply esteps_skip).
  all: revert H4; apply update_runs_refines; [|done|done]; intros r t' Hr.
  all: apply (run_state_shift _ _ _ _ _ _ Hr); decided.
Qed.

Lemma resume_campaign_refines org cid : refines org (resume_campaign org cid).
Proof.
  unfold resume_campaign. apply refines_bind; [apply transition_campaign_state_refines|]. intros p.
  apply refines_bind; [|intros; apply kquiet_refines; kquietness]. apply update_runs_refines; [|done].
  intros r t Hr. apply (run_state_shift org cid [CampaignRunState.PAUSED]); [|decided..].
  revert Hr. unfold is_paused_run. rewrite !andb_true_iff, !bool_decide_eq_true. set_solver.
Qed.

Lemma start_run_cancellation_shift org cid r w u w' :
  run_cancellable org cid r = true → start_run_cancellation org r w = (Ok u, w') →
  ∃ r', k_step (λ k, with_runs (upd rn_id r' (k_runs k)) k) w w' ∧ run_shift org r r'.
Proof.
  intros Hc H. unfold start_run_cancellation in H. ran H as u1 w1 H1. quiet H1. destruct H1 as [E1 N1].
  ran H as r' w2 H2. apply ran_put_run in H2 as ((t & ->) & E2 & N2). injection H as _ <-. rewrite E1 in E2.
  eexists. split; [split; [exact E2|lia]|].
  apply (run_state_shift _ _ _ CampaignRunState.CANCELLING _ t) in Hc; [exact Hc|decided..].
Qed.

Lemma begin_cancellation_refines org cid : refines org (begin_cancellation org cid).
Proof.
  intros w a w' HI H. unfold begin_cancellation in H. read H.
  destruct (List.find _ _) as [p|] eqn:Hp; [|done]. apply found_campaign_row in Hp as (Hp & Hpo & Hpi).
  destruct (bool_decide _). { injection H as _ <-. by apply esteps_skip. }
  ran H as p' w1 H1.
  assert (S1 : esteps org (core_of w, w_next_uuid w) (core_of w1, w_next_uuid w1)).
  { unfold mark_cancelling in H1. destruct (bool_decide _); [injection H1 as _ <-; by apply esteps_skip|].
    ran H1 as u w2 H2. injection H2 as Hg <-. destruct u. apply guard_transition_Ok in Hg.
    ran H1 as u w3 H3. quiet H3. destruct H3 as [E3 N3]. apply ran_put_campaign in H1 as ((t & ->) & E4 & N4).
    rewrite E3 in E4. eapply campaign_write_refines; [split; [exact E4|lia]|exact Hp|done..| |]; simpl; auto; done. }
  etrans; [exact S1|]. apply esteps_inv in S1 as [_ S1]. specialize (S1 HI). read H. ran H as u w4 H4. injection H as _ <-.
  eapply run_loop_refines; [|..|exact H4].
  - apply (NoDup_map_filter rn_id), S1.
  - intros r [Hr _]%elem_of_filterb. done.
  - intros r w5 u5 w5' [_ Hr]%elem_of_filterb. by eapply start_run_cancellation_shift.
Qed.
