(* ===== verification/CampaignSends.v ===== *)
(** * CampaignSends: claims, permits and cancellation implement the specification

    The second half of the refinement of [CampaignSpec] by [CampaignRepository]: the
    operations that move recipient attempts, which all are the effect [E_attempt],
    the completion of a run, and cancellation in batches, where the counters of the
    runs are updated after the attempts. *)

From S2P Require Import Prelude.
From S2P Require Import Errors.
From S2P Require Import Lifecycles.
From S2P Require Import MessagingStore.
From S2P Require Import CustomerStore.
From S2P Require Import CampaignStore.
From S2P Require Import Store.
From S2P Require Import StoreLemmas.
From S2P Require Import Tables.
From S2P Require Import CampaignRepository.
From S2P Require Import CampaignSpec.
From S2P Require Import CampaignEffects.
From S2P Require Import CampaignOps.

(** ** One attempt *)

Lemma upd_same {A} (key : A → uuid) n x l : keyed key n l → x ∈ l → upd key x l = l.
Proof.
  intros Hl Hx. unfold upd, update_where. rewrite <- (map_id l) at 2. apply map_ext_in.
  intros y Hy%list_elem_of_In. destruct (N.eqb_spec (key y) (key x)) as [E|]; [|done].
  symmetry. by eapply keyed_inj.
Qed.

(** The rows an attempt refers to. *)
Lemma attempt_rows k n a :
  kinv k n → a ∈ k_attempts k → ∃ r rc, r ∈ k_runs k ∧ rn_id r = ra_campaign_run_id a ∧
    rn_organization_id r = ra_organization_id a ∧ rc ∈ k_recipients k ∧ rc_id rc = ra_recipient_id a.
Proof. intros HI (r & rc & ? & ? & ? & ? & ? & _)%(ki_attempt_ref _ _ HI). by exists r, rc. Qed.

(** The attempts of a run that still materialises are pending. *)
Lemma attempt_materialized k n a r :
  kinv k n → a ∈ k_attempts k → ra_state a ≠ RecipientAttemptState.PENDING → r ∈ k_runs k →
  rn_id r = ra_campaign_run_id a → rn_state r ≠ CampaignRunState.MATERIALIZING.
Proof.
  intros HI Ha Hs Hr Hid Hm. destruct (ki_materializing _ _ HI r Hr Hm) as (_ & _ & _ & Hp).
  apply Hs, Hp, elem_of_attempts_of. done.
Qed.

(** The counters stay when none of the counted columns changes. *)
Definition same_tally (a0 a : CampaignRecipientAttemptRecord) : Prop :=
  claimed a = claimed a0 ∧
  in_state RecipientAttemptState.DISPATCHED a = in_state RecipientAttemptState.DISPATCHED a0 ∧
  in_state RecipientAttemptState.SUPPRESSED a = in_state RecipientAttemptState.SUPPRESSED a0 ∧
  permitted a = permitted a0 ∧
  in_state RecipientAttemptState.CANCELLED a = in_state RecipientAttemptState.CANCELLED a0.

Lemma same_tally_counts r a0 a : same_tally a0 a → counts_step r r a0 a.
Proof. intros (H1 & H2 & H3 & H4 & H5). unfold counts_step, gain. rewrite H1, H2, H3, H4, H5. lia. Qed.

(** Only the attempt (and possibly its recipient) is written. *)
Lemma attempt_write_refines org w w' a0 a rc0 rc :
  kinv (core_of w) (w_next_uuid w) →
  k_step (λ k, with_recipients (upd rc_id rc (k_recipients k)) (with_attempts (upd ra_id a (k_attempts k)) k)) w w' →
  a0 ∈ k_attempts (core_of w) → ra_organization_id a0 = org → attempt_ident a = attempt_ident a0 →
  ra_state a0 ≠ RecipientAttemptState.PENDING → ra_state a ≠ RecipientAttemptState.PENDING →
  (ra_state a = ra_state a0 ∨ legal (ra_state a0) (ra_state a)) → same_tally a0 a →
  ra_claim_token a = ra_claim_token a0 → ra_owner_id a = ra_owner_id a0 → ra_message_id a = ra_message_id a0 →
  (permitted a = true → ra_state a = ra_state a0) →
  rc0 ∈ k_recipients (core_of w) → rc_id rc0 = ra_recipient_id a0 → recipient_ident rc = recipient_ident rc0 →
  esteps org (core_of w, w_next_uuid w) (core_of w', w_next_uuid w').
Proof.
  intros HI [E N] Ha Ho Hid Hp0 Hp Hl Ht Hct How Hm Hpm Hrc Hrid Hri.
  destruct (attempt_rows _ _ _ HI Ha) as (r & _ & Hr & Er & _).
  eapply refine_effect; [exact E|done|exact N|]. spread.
  rewrite <- (upd_same rn_id _ r (k_runs (core_of w)) (ki_runs _ _ HI) Hr).
  eapply (E_attempt _ _ _ _ a0 a r r rc0 rc); try done.
  - left. done.
  - by eapply attempt_materialized.
  - by apply same_tally_counts.
  - constructor; [symmetry; apply Ht|done..].
  - destruct Ht as (Hc & _). congruence.
  - destruct Ht as (_ & _ & _ & Hc & _). congruence.
Qed.

(** A step of the recipient's workflow. *)
Lemma attempt_put_refines org a0 a w b w' :
  kinv (core_of w) (w_next_uuid w) → put_attempt a w = (Ok b, w') →
  a0 ∈ k_attempts (core_of w) → ra_organization_id a0 = org → attempt_ident a = attempt_ident a0 →
  ra_state a0 ≠ RecipientAttemptState.PENDING → ra_state a ≠ RecipientAttemptState.PENDING →
  legal (ra_state a0) (ra_state a) → same_tally a0 a →
  ra_claim_token a = ra_claim_token a0 → ra_owner_id a = ra_owner_id a0 → ra_message_id a = ra_message_id a0 →
  (permitted a = true → ra_state a = ra_state a0) →
  esteps org (core_of w, w_next_uuid w) (core_of w', w_next_uuid w').
Proof.
  intros HI H Ha. intros. apply ran_put_attempt in H as ((t & ->) & E & N).
  destruct (attempt_rows _ _ _ HI Ha) as (r & rc & Hr & Er & _ & Hrc & Erc).
  eapply (attempt_write_refines org w w' a0 (set_ra_updated_at t a) rc rc); try done; [|by right].
  split; [|done]. rewrite E. spread. by rewrite (upd_same rc_id _ rc _ (ki_recipients _ _ HI) Hrc).
Qed.

Lemma ran_owned_attempt org cl s w a w' :
  owned_attempt org cl s w = (Ok a, w') →
  w' = w ∧ a ∈ k_attempts (core_of w) ∧ ra_organization_id a = org ∧ ra_id a = ra_id (cl_attempt cl) ∧ ra_state a = s ∧
  ra_owner_id a = Some (cl_owner_id cl) ∧ ra_claim_token a = Some (cl_claim_token cl).
Proof.
  intros H. unfold owned_attempt in H. read H. destruct (List.find _ _) as [x|] eqn:Hx; [|done].
  destruct (holds_attempt _ _ _) eqn:Hh; [|done]. injection H as <- <-.
  apply found_attempt_row in Hx as (? & ? & ?). unfold holds_attempt in Hh.
  rewrite !andb_true_iff, !bool_decide_eq_true in Hh. by destruct Hh as [[? ?] ?].
Qed.

(** Decide the counted columns of two attempts in known states. *)
Ltac tallied Hs :=
  unfold same_tally, in_state, permitted, claimed; cbn -[bool_decide]; rewrite ?Hs; repeat split; try done.

(** Evaluate the tests on known states, then count. *)
Ltac counted :=
  repeat match goal with
  | |- context [bool_decide ?P] => let b := eval vm_compute in (bool_decide P) in change (bool_decide P) with b
  end; cbn; repeat split; lia.

Lemma mark_workflow_started_refines org cl wid : refines org (mark_workflow_started org cl wid).
Proof.
  intros w b w' HI H. unfold mark_workflow_started in H. ran H as a w1 H1.
  apply ran_owned_attempt in H1 as (-> & Ha & Ho & _ & Hs & _). ran H as u w2 H2. injection H2 as Hg <-. destruct u.
  apply guard_transition_Ok in Hg. ran H as u w3 H3. quiet H3. destruct H3 as [E3 N3].
  etrans; [apply esteps_skip, N3|]. rewrite <- E3. rewrite <- E3 in Ha. apply (kinv_mono _ _ _ N3) in HI. rewrite <- E3 in HI.
  eapply (attempt_put_refines org a); try done; try (simpl; congruence). tallied Hs.
Qed.

Lemma mark_workflow_completed_refines org cl : refines org (mark_workflow_completed org cl).
Proof.
  intros w b w' HI H. unfold mark_workflow_completed in H. ran H as a w1 H1.
  apply ran_owned_attempt in H1 as (-> & Ha & Ho & _ & Hs & _). ran H as u w2 H2. injection H2 as Hg <-. destruct u.
  apply guard_transition_Ok in Hg. ran H as u w3 H3. quiet H3. destruct H3 as [E3 N3].
  etrans; [apply esteps_skip, N3|]. rewrite <- E3. rewrite <- E3 in Ha. apply (kinv_mono _ _ _ N3) in HI. rewrite <- E3 in HI.
  eapply (attempt_put_refines org a); try done; try (simpl; congruence). tallied Hs.
Qed.

(** An attempt and the counters of its run are written. *)
Lemma attempt_run_refines org w w' a0 a r0 r rc0 rc :
  kinv (core_of w) (w_next_uuid w) →
  k_step (λ k, with_recipients (upd rc_id rc (k_recipients k))
    (with_runs (upd rn_id r (k_runs k)) (with_attempts (upd ra_id a (k_attempts k)) k))) w w' →
  a0 ∈ k_attempts (core_of w) → ra_organization_id a0 = org → attempt_ident a = attempt_ident a0 →
  legal (ra_state a0) (ra_state a) → claim_step a0 a →
  permitted a0 = false → permitted a = false → ra_message_id a = ra_message_id a0 →
  r0 ∈ k_runs (core_of w) → rn_id r0 = ra_campaign_run_id a0 → run_ident r = run_ident r0 →
  run_progress r = run_progress r0 → rn_state r = rn_state r0 → rn_state r0 ≠ CampaignRunState.MATERIALIZING →
  counts_step r0 r a0 a →
  rc0 ∈ k_recipients (core_of w) → rc_id rc0 = ra_recipient_id a0 → recipient_ident rc = recipient_ident rc0 →
  (claimed a0 = false → claimed a = true → running (core_of w) r0) →
  esteps org (core_of w, w_next_uuid w) (core_of w', w_next_uuid w').
Proof.
  intros HI [E N]. intros. eapply refine_effect; [exact E|done|exact N|]. spread.
  eapply (E_attempt _ _ _ _ a0 a r0 r rc0 rc); try done; [by right| |congruence].
  constructor; congruence.
Qed.

Lemma ran_recipient_one org id w rc w' :
  recipient_one org id w = (Ok rc, w') →
  w' = w ∧ rc ∈ k_recipients (core_of w) ∧ rc_organization_id rc = org ∧ rc_id rc = id.
Proof.
  intros H. unfold recipient_one in H. read H. destruct (List.find _ _) as [x|] eqn:Hx; [|done].
  injection H as <- <-. by apply found_recipient_row in Hx.
Qed.

Lemma claim_recipient_refines locked org rid owner : refines org (claim_recipient locked org rid owner).
Proof.
  intros w b w' HI H. unfold claim_recipient in H. read H.
  destruct (List.find _ (cdb_runs _)) as [r|] eqn:Hr; [|injection H as _ <-; by apply esteps_skip].
  apply found_run_row in Hr as (Hr & Hro & Hri). destruct (negb _) eqn:Hst; [injection H as _ <-; by apply esteps_skip|].
  booleans. read H. destruct (negb _) eqn:Hcamp; [injection H as _ <-; by apply esteps_skip|].
  assert (Hrun : running (core_of w) r).
  { split; [done|]. destruct (List.find _ (cdb_campaigns _)) as [p|] eqn:Hp; [|done].
    apply found_campaign_row in Hp as (Hp & _ & Hpi). booleans. by exists p. }
  ran H as now w1 H1. quiet H1. destruct H1 as [E1 N1]. read H.
  destruct (by_creation _ _ _) as [|a l] eqn:Hcand.
  { injection H as _ <-. rewrite E1. by apply esteps_skip. }
  assert (Ha : a ∈ a :: l) by constructor. rewrite <- Hcand in Ha. unfold by_creation in Ha.
  rewrite merge_sort_Permutation in Ha. apply elem_of_filterb in Ha as [Ha Hc].
  change (a ∈ k_attempts (core_of w1)) in Ha. rewrite E1 in Ha.
  apply andb_true_iff in Hc as [Hc _]. unfold claimable in Hc. rewrite !andb_true_iff, !N.eqb_eq, bool_decide_eq_true in Hc.
  destruct Hc as [[[Hao Har] Has] _].
  ran H as tok w2 H2. apply ran_fresh in H2 as (E2 & N2 & N2'). ran H as u w3 H3. injection H3 as Hg <-. destruct u.
  apply guard_transition_Ok in Hg. ran H as rc w4 H4. apply ran_recipient_one in H4 as (-> & Hrc & Hrco & Hrci).
  ran H as u w5 H5. quiet H5. destruct H5 as [E5 N5]. ran H as r' w6 H6. apply ran_put_run in H6 as ((t & ->) & E6 & N6).
  ran H as a' w7 H7. apply ran_put_attempt in H7 as ((t' & ->) & E7 & N7). injection H as _ <-.
  rewrite E2, E1 in Hrc.
  eapply (attempt_run_refines org w w7 a _ r _ rc rc);
    [exact HI|split; [rewrite E7, E6, E5, E2, E1; spread; by rewrite (upd_same rc_id _ rc _ (ki_recipients _ _ HI) Hrc)|lia]|..]; try done.
  - right. done.
  - unfold permitted. by rewrite Has.
  - by rewrite Hri, Har.
  - by rewrite Hst.
  - unfold counts_step, gain, in_state, permitted, claimed. cbn -[bool_decide]. rewrite Has.
    rewrite (proj1 (ki_attempt_ok _ _ HI a Ha) Has). counted.
Qed.

(** ** Permits *)

Lemma deny_refines org r rc a el w u w' :
  kinv (core_of w) (w_next_uuid w) → deny org r rc a el w = (Ok u, w') →
  r ∈ k_runs (core_of w) → rn_id r = ra_campaign_run_id a → rn_state r = CampaignRunState.RUNNING →
  a ∈ k_attempts (core_of w) → ra_organization_id a = org → ra_state a = RecipientAttemptState.READY_TO_SEND →
  rc ∈ k_recipients (core_of w) → rc_id rc = ra_recipient_id a →
  esteps org (core_of w, w_next_uuid w) (core_of w', w_next_uuid w').
Proof.
  intros HI H Hr Hri Hrs Ha Hao Has Hrc Hrci. unfold deny in H.
  ran H as u1 w1 H1. apply ran_put_recipient in H1 as [E1 N1]. destruct (bool_decide _).
  - ran H as u2 w2 H2. quiet H2. destruct H2 as [E2 N2]. ran H as a' w3 H3.
    apply ran_put_attempt in H3 as ((t & ->) & E3 & N3). injection H as _ <-.
    eapply (attempt_write_refines org w w3 a _ rc); [exact HI|split; [rewrite E3, E2, E1; by spread|lia]|..];
      try done; try (simpl; by rewrite ?Has). by left.
  - ran H as u2 w2 H2. injection H2 as Hg <-. destruct u2. apply guard_transition_Ok in Hg.
    ran H as r' w3 H3. apply ran_put_run in H3 as ((t & ->) & E3 & N3).
    ran H as u3 w4 H4. quiet H4. destruct H4 as [E4 N4]. ran H as a' w5 H5.
    apply ran_put_attempt in H5 as ((t' & ->) & E5 & N5). injection H as _ <-.
    eapply (attempt_run_refines org w w5 a _ r _ rc); [exact HI|split; [rewrite E5, E4, E3, E1; by spread|lia]|..]; try done.
    + left. done.
    + unfold permitted. by rewrite Has.
    + by rewrite Hrs.
    + unfold counts_step, gain, in_state, permitted, claimed. cbn -[bool_decide]. rewrite Has. counted.
    + unfold claimed. simpl. congruence.
Qed.

Lemma grant_refines org r a el w p w' :
  kinv (core_of w) (w_next_uuid w) → grant org r a el w = (Ok p, w') →
  r ∈ k_runs (core_of w) → rn_id r = ra_campaign_run_id a → rn_state r = CampaignRunState.RUNNING →
  a ∈ k_attempts (core_of w) → ra_organization_id a = org → ra_state a = RecipientAttemptState.READY_TO_SEND →
  running (core_of w) r → below_limit (core_of w) r →
  esteps org (core_of w, w_next_uuid w) (core_of w', w_next_uuid w').
Proof.
  intros HI H Hr Hri Hrs Ha Hao Has Hrun Hlim. unfold grant in H. destruct (attempt_rows _ _ _ HI Ha) as (_ & rc & _ & _ & _ & Hrc & Hrci).
  ran H as now w1 H1. quiet H1. destruct H1 as [E1 N1]. ran H as id w2 H2. apply ran_fresh in H2 as (E2 & N2 & N2').
  ran H as tok w3 H3. apply ran_fresh in H3 as (E3 & N3 & N3'). read H. destruct (existsb _ _); [done|].
  ran H as u w4 H4. apply ran_cmodify in H4 as [E4 N4]. ran H as u5 w5 H5. injection H5 as Hg <-. destruct u5.
  apply guard_transition_Ok in Hg. ran H as r' w6 H6. apply ran_put_run in H6 as ((t & ->) & E6 & N6).
  ran H as u7 w7 H7. quiet H7. destruct H7 as [E7 N7]. ran H as u8 w8 H8. quiet H8. destruct H8 as [E8 N8].
  ran H as a' w9 H9. apply ran_put_attempt in H9 as ((t' & ->) & E9 & N9). injection H as <- <-.
  eapply refine_effect; [reflexivity|reflexivity|lia|]. rewrite E9, E8, E7, E6, E4.
  change (core (set_cdb_permits ?l (db_campaign (w_db w3)))) with (with_permits l (core_of w3)).
  change (cdb_permits (db_campaign (w_db w3))) with (k_permits (core_of w3)). rewrite E3, E2, E1. spread.
  rewrite <- (upd_same rc_id _ rc (k_recipients (core_of w)) (ki_recipients _ _ HI) Hrc).
  eapply (E_attempt _ _ _ _ a _ r _ rc rc); try done.
  - by right.
  - left. done.
  - by rewrite Hrs.
  - unfold counts_step, gain, in_state, permitted, claimed. cbn -[bool_decide]. rewrite Has. counted.
  - eapply PS_grant; simpl; try done; [|lia]. unfold permitted. by rewrite Has.
Qed.

(** What [reserve_throttle] has checked when it returns. *)
Lemma ran_reserve org r ch pol w u w' :
  reserve_throttle org r ch pol w = (Ok u, w') → rn_authorized_count r < th_campaign_limit pol.
Proof.
  intros H. unfold reserve_throttle in H. ran H as now w1 H1. ran H as u2 w2 H2. read H.
  destruct (List.find _ _) as [tw|]; [|done]. ran H as u3 w3 H3. read H. destruct (List.find _ _) as [ow|]; [|done].
  destruct (th_campaign_limit pol <=? _) eqn:Hl; [done|]. by apply Z.leb_gt in Hl.
Qed.

(** A claim that names the run of its attempt, as the claims [claim_recipient] hands
    out do. *)
Definition genuine (k : Core) (cl : RecipientClaim) : Prop :=
  ∀ a, a ∈ k_attempts k → ra_id a = ra_id (cl_attempt cl) → ra_campaign_run_id a = rn_id (cl_run cl).

Lemma authorize_permit_refines zi org cl w d w' :
  kinv (core_of w) (w_next_uuid w) → genuine (core_of w) cl →
  authorize_permit zi org cl w = (Ok d, w') →
  esteps org (core_of w, w_next_uuid w) (core_of w', w_next_uuid w').
Proof.
  intros HI Hgen H. unfold authorize_permit in H. read H.
  destruct (List.find _ (cdb_runs _)) as [r|] eqn:Hr; [|done]. apply found_run_row in Hr as (Hr & Hro & Hri).
  destruct (negb _) eqn:Hst; [done|]. booleans. read H. destruct (List.find _ (cdb_campaigns _)) as [p|] eqn:Hp; [|done].
  apply found_campaign_row in Hp as (Hp & _ & Hpi). destruct (negb _) eqn:Hps; [done|]. booleans.
  assert (Hrun : running (core_of w) r) by (split; [done|]; by exists p). ran H as a w1 H1. apply ran_owned_attempt in H1 as (-> & Ha & Hao & Hai & Has & _).
  ran H as rc w2 H2. apply ran_recipient_one in H2 as (-> & Hrc & Hrco & Hrci). read H.
  destruct (List.find _ (cdb_revisions _)) as [v|] eqn:Hv; [|done]. apply found_revision_row in Hv as (Hv & _ & Hvi).
  ran H as el w3 H3. quiet H3. destruct H3 as [E3 N3].
  assert (Hra : rn_id r = ra_campaign_run_id a) by (rewrite Hri; symmetry; by apply Hgen).
  etrans; [apply esteps_skip, N3|]. apply (kinv_mono _ _ _ N3) in HI. rewrite <- E3 in *.
  destruct (negb _).
  - ran H as u w4 H4. injection H as _ <-. by eapply deny_refines.
  - ran H as u w4 H4. pose proof (ran_reserve _ _ _ _ _ _ _ H4) as Hlim. quiet H4. destruct H4 as [E4 N4]. read H.
    etrans; [apply esteps_skip, N4|]. apply (kinv_mono _ _ _ N4) in HI. rewrite <- E4 in *.
    destruct (List.find _ _) as [p'|]; [injection H as _ <-; by apply esteps_skip|].
    ran H as p' w5 H5. injection H as _ <-. eapply grant_refines; try done. by exists v.
Qed.

(** The completion of a run, right after the dispatch [k0 -> core_of w] of one of its
    attempts. *)
Lemma complete_run_refines org r k0 n0 a0 w u w' :
  (n0 ≤ w_next_uuid w)%N → kinv k0 n0 → effect org n0 (w_next_uuid w) k0 (core_of w) →
  a0 ∈ k_attempts k0 → ra_state a0 = RecipientAttemptState.DISPATCH_AUTHORIZED → rn_id r = ra_campaign_run_id a0 →
  r ∈ k_runs (core_of w) → rn_organization_id r = org →
  rn_state r = CampaignRunState.RUNNING → complete_run org r w = (Ok u, w') →
  esteps org (k0, n0) (core_of w', w_next_uuid w').
Proof.
  intros Hn HI0 He Ha0 Has0 Hra Hr Hro Hrs H. pose proof (effect_inv _ _ _ _ _ Hn HI0 He) as HI.
  unfold complete_run in H. read H.
  destruct (length _) eqn:Hlen; [|injection H as _ <-; by apply esteps_one].
  ran H as r' w1 H1. apply ran_put_run in H1 as ((t & ->) & E1 & N1).
  assert (S1 : esteps org (k0, n0) (core_of w1, w_next_uuid w1)).
  { apply esteps_one; [lia|]. rewrite E1.
    eapply (E_complete org n0 _ k0 (core_of w) a0 r); try done; [by eapply effect_mono|].
    intros a [Ha Har]%elem_of_attempts_of. unfold settled. apply bool_decide_eq_true.
    destruct (decide (ra_state a ∈ settled_states)) as [|Hnot]; [done|]. exfalso.
    assert (Hin : a ∈ List.filter (unsettled org (rn_id r)) (k_attempts (core_of w))).
    { apply elem_of_filterb. split; [done|]. unfold unsettled.
      destruct (ki_attempt_ref _ _ HI a Ha) as (r1 & rc1 & Hr1 & _ & E & Eo & _).
      assert (r1 = r) as -> by (eapply (keyed_inj rn_id); [apply HI|done..|congruence]).
      rewrite Har, <- Eo, Hro, !N.eqb_refl, bool_decide_eq_false_2 by done. done. }
    apply length_zero_iff_nil in Hlen. change (cdb_attempts _) with (k_attempts (core_of w)) in Hlen.
    rewrite Hlen in Hin. by apply not_elem_of_nil in Hin. }
  etrans; [exact S1|]. clear S1. read H.
  destruct (List.find _ (cdb_campaigns _)) as [p|] eqn:Hp; [|injection H as _ <-; by apply esteps_skip].
  apply found_campaign_row in Hp as (Hp & Hpo & Hpi).
  destruct (bool_decide _) eqn:Hps; [|injection H as _ <-; by apply esteps_skip]. booleans.
  ran H as p' w2 H2. apply ran_put_campaign in H2 as ((t' & ->) & E2 & N2). quiet H. destruct H as [E3 N3].
  rewrite E3. etrans; [|apply esteps_skip, N3].
  eapply campaign_write_refines; [split; [exact E2|exact N2]|exact Hp|done..| |done].
  right. rewrite Hps. unfold legal. decided.
Qed.

Lemma consume_permit_refines org pid tok mid : refines org (consume_permit org pid tok mid).
Proof.
  intros w b w' HI H. unfold consume_permit in H. read H.
  destruct (List.find _ (cdb_permits _)) as [p|] eqn:Hp; [|done]. apply found_permit_row in Hp as (Hp & Hpo & Hpi).
  destruct (bool_decide _ && _); [injection H as _ <-; by apply esteps_skip|].
  destruct (negb _ || _) eqn:Hps; [done|]. apply orb_false_iff in Hps as [Hps _]. booleans.
  ran H as a w1 H1. unfold attempt_one in H1. read H1. destruct (List.find _ (cdb_attempts _)) as [a0|] eqn:Ha; [|done].
  injection H1 as <- <-. apply found_attempt_row in Ha as (Ha & Hao & Hai). destruct (negb _) eqn:Has; [done|]. booleans.
  destruct (attempt_rows _ _ _ HI Ha) as (r & rc & Hr & Hri & Hro & Hrc & Hrci).
  ran H as now w2 H2. quiet H2. destruct H2 as [E2 N2]. ran H as u w3 H3. apply ran_put_permit in H3 as [E3 N3].
  ran H as a' w4 H4. apply ran_put_attempt in H4 as ((t & ->) & E4 & N4). read H.
  assert (E24 : k_runs (core_of w4) = k_runs (core_of w)) by (by rewrite E4, E3, E2).
  destruct (List.find _ (cdb_runs _)) as [r'|] eqn:Hr'.
  2:{ exfalso. assert (Hr4 : r ∈ k_runs (core_of w4)) by by rewrite E24.
      apply (find_none_elem _ _ r) in Hr'; [|done].
      unfold is_run in Hr'. rewrite Hro, Hao in Hr'. simpl in Hr'. by rewrite Hri, !N.eqb_refl in Hr'. }
  apply found_run_row in Hr' as (Hr' & Hro' & Hri'). change (r' ∈ k_runs (core_of w4)) in Hr'. rewrite E24 in Hr'.
  assert (r' = r) as -> by (eapply (keyed_inj rn_id); [apply HI|done..|]; simpl in Hri'; congruence).
  ran H as r1 w5 H5. ran H5 as r2 w6 H6. apply ran_put_run in H6 as ((t2 & ->) & E6 & N6). injection H5 as <- <-.
  ran H as u7 w7 H7. quiet H7. destruct H7 as [E7 N7]. ran H as u8 w8 H8. quiet H8. destruct H8 as [E8 N8].
  assert (S1 : effect org (w_next_uuid w) (w_next_uuid w8) (core_of w) (core_of w8)).
  { rewrite E8, E7, E6, E4, E3, E2. spread.
    rewrite <- (upd_same rc_id _ rc (k_recipients (core_of w)) (ki_recipients _ _ HI) Hrc).
    eapply (E_attempt _ _ _ _ a0 _ r _ rc rc); try done.
    - right. rewrite Has. unfold legal. decided.
    - left. done.
    - eapply (attempt_materialized _ _ a0); try done. by rewrite Has.
    - unfold counts_step, gain, in_state, permitted, claimed. cbn -[bool_decide]. rewrite Has. counted.
    - eapply (PS_consume _ _ _ _ _ _ p _ mid); try done.
    - unfold claimed. simpl. congruence.
    - unfold permitted. rewrite Has. done. }
  ran H as u9 w9 H9. injection H as _ <-. simpl in H9.
  destruct (bool_decide _) eqn:Hrs; [|injection H9 as _ <-; apply esteps_one; [lia|done]].
  booleans. refine (complete_run_refines org _ _ _ a0 w8 u9 w9 _ HI S1 Ha Has _ _ _ _ H9); [lia|done| |done..].
  rewrite E8, E7, E6. simpl. apply (upd_self _ _ _ r); [|done]. change (r ∈ k_runs (core_of w4)). by rewrite E24.
Qed.

(** ** Cancellation in batches *)

(** The counter update of a run, as [count_cancelled] makes it. *)
Definition add_cancelled (org : uuid) (t : Z) (id : uuid) (n : Z) : list CampaignRunRecord → list CampaignRunRecord :=
  update_where (is_run org id) (λ r, set_rn_updated_at t
    (set_rn_cancellation_processed_count (rn_cancellation_processed_count r + n) r)).

Lemma add_cancelled_comm org t i n j m l :
  add_cancelled org t i n (add_cancelled org t j m l) = add_cancelled org t j m (add_cancelled org t i n l).
Proof.
  unfold add_cancelled, update_where. rewrite !map_map. apply map_ext. intros r.
  destruct (is_run org j r) eqn:Hj, (is_run org i r) eqn:Hi; unfold is_run in *; simpl; rewrite ?Hi, ?Hj; try done.
  simpl. destruct r; simpl. f_equal. unfold set_rn_updated_at, set_rn_cancellation_processed_count. simpl. f_equal. lia.
Qed.

Lemma add_cancelled_fuse org t i n m l :
  add_cancelled org t i n (add_cancelled org t i m l) = add_cancelled org t i (m + n) l.
Proof.
  unfold add_cancelled, update_where. rewrite map_map. apply map_ext. intros r.
  destruct (is_run org i r) eqn:Hi; unfold is_run in *; simpl; rewrite Hi; [|done].
  destruct r; unfold set_rn_updated_at, set_rn_cancellation_processed_count; simpl. f_equal. lia.
Qed.

Definition add_counts org t := foldl (λ l (p : uuid * Z), add_cancelled org t p.1 p.2 l).

Lemma add_counts_comm org t i n ps l :
  add_counts org t (add_cancelled org t i n l) ps = add_cancelled org t i n (add_counts org t l ps).
Proof.
  unfold add_counts. revert l. induction ps as [|[j m] ps IH]; intros l; [done|]. cbn [foldl fst snd].
  by rewrite <- IH, add_cancelled_comm.
Qed.

(** Counting in the dictionary and then updating is updating one by one. *)
Lemma add_counts_bump org t i ps l :
  add_counts org t l (bump i ps) = add_cancelled org t i 1 (add_counts org t l ps).
Proof.
  revert l. induction ps as [|[j m] ps IH]; intros l; [done|]. cbn [bump].
  destruct (N.eqb_spec j i) as [->|]; unfold add_counts in *; cbn [foldl fst snd].
  - rewrite <- (add_cancelled_fuse org t i 1 m l). exact (add_counts_comm org t i 1 ps _).
  - apply IH.
Qed.

Lemma add_counts_bumps org t (atts : list CampaignRecipientAttemptRecord) ps l :
  add_counts org t l (foldl (λ acc a, bump (ra_campaign_run_id a) acc) ps atts) =
  foldl (λ acc a, add_cancelled org t (ra_campaign_run_id a) 1 acc) (add_counts org t l ps) atts.
Proof.
  revert ps. induction atts as [|a atts IH]; intros ps; [done|]. cbn [foldl]. by rewrite IH, add_counts_bump.
Qed.

(** The bulk update of one run. *)
Lemma add_cancelled_upd org t n l r m :
  keyed rn_id m l → r ∈ l → rn_organization_id r = org →
  add_cancelled org t (rn_id r) n l = upd rn_id (set_rn_updated_at t
    (set_rn_cancellation_processed_count (rn_cancellation_processed_count r + n) r)) l.
Proof.
  intros Hl Hr Ho. unfold add_cancelled, upd, update_where. apply map_ext_in. intros x Hx%list_elem_of_In.
  unfold is_run. simpl. destruct (N.eqb_spec (rn_id x) (rn_id r)) as [E|]; [|by rewrite andb_false_r].
  assert (x = r) as -> by by eapply keyed_inj. by rewrite Ho, N.eqb_refl.
Qed.

(** An attempt that waits for the cancellation of its run. *)
Definition doomed (org : uuid) (runs : list CampaignRunRecord) (a : CampaignRecipientAttemptRecord) : Prop :=
  ra_organization_id a = org ∧ ra_state a ∈ cancellable_states ∧
  ∃ r, r ∈ runs ∧ rn_id r = ra_campaign_run_id a ∧ rn_organization_id r = org ∧
       rn_state r = CampaignRunState.CANCELLING.

Lemma doomed_add org t i n runs a : doomed org runs a → doomed org (add_cancelled org t i n runs) a.
Proof.
  intros (H1 & H2 & r & Hr & H3 & H4 & H5). split; [done|]. split; [done|].
  exists (if is_run org i r then set_rn_updated_at t (set_rn_cancellation_processed_count
    (rn_cancellation_processed_count r + n) r) else r).
  split; [|by destruct (is_run org i r)]. unfold add_cancelled, update_where.
  apply list_elem_of_fmap. by exists r.
Qed.

(** One attempt, with its run's counter updated at the same time. *)
Lemma cancel_attempt_refines org t a runs w u w' :
  kinv (with_runs runs (core_of w)) (w_next_uuid w) → a ∈ k_attempts (core_of w) → doomed org runs a →
  cancel_attempt org a w = (Ok u, w') →
  k_runs (core_of w') = k_runs (core_of w) ∧
  (∀ x, x ∈ k_attempts (core_of w) → ra_id x ≠ ra_id a → x ∈ k_attempts (core_of w')) ∧
  esteps org (with_runs runs (core_of w), w_next_uuid w)
    (with_runs (add_cancelled org t (ra_campaign_run_id a) 1 runs) (core_of w'), w_next_uuid w').
Proof.
  intros HI Ha (Hao & Has & r & Hr & Hri & Hro & Hrs) H. unfold cancel_attempt in H.
  ran H as u1 w1 H1. injection H1 as Hg <-. destruct u1. apply guard_transition_Ok in Hg.
  ran H as rc w2 H2. apply ran_recipient_one in H2 as (-> & Hrc & Hrco & Hrci).
  ran H as u3 w3 H3. assert (∃ rc', k_step (λ k, with_recipients (upd rc_id rc' (k_recipients k)) k) w w3 ∧
    recipient_ident rc' = recipient_ident rc) as (rc' & [E3 N3] & Hrc').
  { destruct (bool_decide _); [apply ran_put_recipient in H3; by eexists|]. injection H3 as _ <-.
    exists rc. split; [|done]. split; [|lia].
    rewrite (upd_same rc_id _ rc (k_recipients (core_of w)) (ki_recipients _ _ HI) Hrc). by destruct (core_of w). }
  ran H as u4 w4 H4. quiet H4. destruct H4 as [E4 N4]. ran H as a' w5 H5.
  apply ran_put_attempt in H5 as ((t' & ->) & E5 & N5). injection H as _ <-.
  split; [by rewrite E5, E4, E3|]. split.
  { intros x Hx Hn. rewrite E5, E4, E3. simpl. by apply upd_other. }
  rewrite <- Hri, (add_cancelled_upd org t 1 runs r _ (ki_runs _ _ HI) Hr Hro).
  apply esteps_one; [lia|]. rewrite E5, E4, E3. spread.
  assert (Hst : ra_state a ∈ cancellable_states) by done. unfold cancellable_states in Hst.
  rewrite !elem_of_cons, elem_of_nil in Hst.
  set (k := with_runs runs (core_of w)).
  match goal with |- effect _ ?n ?n' _ (mkCore _ _ _ _ (upd _ ?r' _) (upd _ ?a' _) _) =>
    change (effect org n n' k (mkCore (k_campaigns k) (k_revisions k) (k_snapshots k)
      (upd rc_id rc' (k_recipients k)) (upd rn_id r' (k_runs k)) (upd ra_id a' (k_attempts k)) (k_permits k)))
  end.
  eapply (E_attempt _ _ _ _ a _ r _ rc rc'); try done.
  - by right.
  - left. done.
  - by rewrite Hrs.
  - unfold counts_step, gain, in_state, permitted, claimed. cbn -[bool_decide].
    destruct Hst as [-> |[-> |[-> |[-> |[]]]]]; counted.
  - apply PS_none; try done. unfold permitted. by destruct Hst as [-> |[-> |[-> |[-> |[]]]]].
  - unfold claimed. simpl. congruence.
Qed.

Lemma cancel_attempts_refines org t l runs w u w' :
  kinv (with_runs runs (core_of w)) (w_next_uuid w) → NoDup (map ra_id l) →
  (∀ a, a ∈ l → a ∈ k_attempts (core_of w) ∧ doomed org runs a) →
  forM_ (cancel_attempt org) l w = (Ok u, w') →
  k_runs (core_of w') = k_runs (core_of w) ∧
  esteps org (with_runs runs (core_of w), w_next_uuid w)
    (with_runs (foldl (λ acc a, add_cancelled org t (ra_campaign_run_id a) 1 acc) runs l) (core_of w'), w_next_uuid w').
Proof.
  revert runs w. induction l as [|a l IH]; intros runs w HI Hnd Hl H; cbn [forM_ foldl] in *.
  { injection H as _ <-. split; [done|]. by apply esteps_skip. }
  simpl in Hnd. apply NoDup_cons in Hnd as [Hna Hnd]. destruct (Hl a ltac:(constructor)) as [Ha Hd].
  ran H as u1 w1 H1. apply (cancel_attempt_refines org t _ runs) in H1 as (E1 & K1 & S1); [|done..].
  pose proof (esteps_inv org _ _ S1) as [_ HI1]. specialize (HI1 HI).
  apply (IH (add_cancelled org t (ra_campaign_run_id a) 1 runs)) in H as (E2 & S2); [|exact HI1|done|].
  - split; [congruence|]. etrans; [exact S1|exact S2].
  - intros x Hx. destruct (Hl x ltac:(by constructor)) as [Hxa Hxd]. split; [|by apply doomed_add].
    apply K1; [done|]. intros E. apply Hna. rewrite <- E. by apply (list_elem_of_fmap_2 ra_id).
Qed.

Lemma ran_count_cancelled org ps w u w' :
  forM_ (count_cancelled org) ps w = (Ok u, w') →
  core_of w' = with_runs (add_counts org (w_txn_now w) (k_runs (core_of w)) ps) (core_of w) ∧
  w_next_uuid w' = w_next_uuid w.
Proof.
  revert w. induction ps as [|[i n] ps IH]; intros w H; cbn [forM_] in H.
  { injection H as _ <-. split; [by destruct (core_of w)|done]. }
  ran H as u1 w1 H1. unfold count_cancelled, update_runs in H1. read H1.
  assert (Et : w_txn_now w1 = w_txn_now w) by by injection H1 as _ <-.
  apply ran_cmodify in H1 as [E1 N1]. apply IH in H as [E2 N2]. split; [|congruence].
  rewrite E2, Et. unfold with_runs. by rewrite E1.
Qed.

Lemma finish_run_cancellation_shift org r w u w' :
  rn_organization_id r = org → rn_state r = CampaignRunState.CANCELLING →
  finish_run_cancellation org r w = (Ok u, w') →
  ∃ r', k_step (λ k, with_runs (upd rn_id r' (k_runs k)) k) w w' ∧ run_shift org r r'.
Proof.
  intros Ho Hs H. unfold finish_run_cancellation in H. ran H as u1 w1 H1. quiet H1. destruct H1 as [E1 N1].
  ran H as r' w2 H2. apply ran_put_run in H2 as ((t & ->) & E2 & N2). injection H as _ <-. rewrite E1 in E2.
  eexists. split; [split; [exact E2|lia]|]. unfold run_shift. simpl. rewrite Hs.
  do 4 (split; [done|]). split; [decided|]. split; [decided|done].
Qed.

Lemma cancellable_doomed org cid w a :
  cancellable org cid (db_campaign (w_db w)) a = true → doomed org (k_runs (core_of w)) a.
Proof.
  unfold cancellable. rewrite !andb_true_iff, N.eqb_eq, bool_decide_eq_true, existsb_elem.
  intros [[Ho Hs] (r & Hr & Hb)]. rewrite !andb_true_iff, !N.eqb_eq, bool_decide_eq_true in Hb.
  destruct Hb as [[[H1 H2] _] H3]. split; [done|]. split; [done|]. exists r. repeat split; try done. congruence.
Qed.

(** Loops that leave a table alone. *)
Lemma forM_keeps {A X} (g : Core → X) (f : A → M unit) l :
  (∀ a w u w', f a w = (Ok u, w') → g (core_of w') = g (core_of w)) →
  ∀ w u w', forM_ f l w = (Ok u, w') → g (core_of w') = g (core_of w).
Proof.
  intros Hf. induction l as [|a l IH]; intros w u w' H; simpl in H; [by injection H as _ <-|].
  ran H as u1 w1 H1. apply Hf in H1. apply IH in H. congruence.
Qed.

Lemma cancel_attempt_keeps org a w u w' :
  cancel_attempt org a w = (Ok u, w') → k_campaigns (core_of w') = k_campaigns (core_of w).
Proof.
  intros H. unfold cancel_attempt in H. ran H as u1 w1 H1. injection H1 as _ <-. ran H as rc w2 H2.
  quiet H2. destruct H2 as [E2 _]. ran H as u3 w3 H3.
  assert (E3 : k_campaigns (core_of w3) = k_campaigns (core_of w2)).
  { destruct (bool_decide _); [by apply ran_put_recipient in H3 as [-> _]|by injection H3 as _ <-]. }
  ran H as u4 w4 H4. quiet H4. destruct H4 as [E4 _]. ran H as a' w5 H5.
  apply ran_put_attempt in H5 as (_ & E5 & _). injection H as _ <-. rewrite E5, E4.
  change (k_campaigns (core_of w3) = k_campaigns (core_of w)). by rewrite E3, E2.
Qed.

Lemma finish_run_cancellation_keeps org r w u w' :
  finish_run_cancellation org r w = (Ok u, w') → k_campaigns (core_of w') = k_campaigns (core_of w).
Proof.
  intros H. unfold finish_run_cancellation in H. ran H as u1 w1 H1. quiet H1. destruct H1 as [E1 _].
  ran H as r' w2 H2. apply ran_put_run in H2 as (_ & E2 & _). injection H as _ <-. by rewrite E2, E1.
Qed.

Lemma cancel_attempt_batch_refines locked org cid limit : refines org (cancel_attempt_batch locked org cid limit).
Proof.
  intros w b w' HI H. unfold cancel_attempt_batch in H. destruct (limit <? 1); [done|]. read H.
  destruct (List.find _ (cdb_campaigns _)) as [p|] eqn:Hp; [|done]. apply found_campaign_row in Hp as (Hp & Hpo & Hpi).
  destruct (bool_decide _); [injection H as _ <-; by apply esteps_skip|]. destruct (negb _) eqn:Hps; [done|]. booleans. read H.
  set (l := take _ _) in *. ran H as u1 w1 H1. pose proof (forM_keeps _ _ _ (cancel_attempt_keeps org) _ _ _ H1) as K1. ran H as u2 w2 H2. apply ran_count_cancelled in H2 as [E2 N2].
  assert (Hl : ∀ a, a ∈ l → a ∈ k_attempts (core_of w) ∧ doomed org (k_runs (core_of w)) a).
  { intros a Ha. assert (Ha' : a ∈ take (Z.to_nat limit) _) by exact Ha. apply elem_of_take in Ha' as (i & Hi & _).
    apply list_elem_of_lookup_2 in Hi. unfold by_creation in Hi. rewrite merge_sort_Permutation in Hi.
    apply elem_of_filterb in Hi as [Hi Hc]. apply andb_true_iff in Hc as [Hc _].
    split; [done|]. by eapply cancellable_doomed. }
  apply (cancel_attempts_refines org (w_txn_now w1) _ (k_runs (core_of w))) in H1 as (E1 & S1); [| | |exact Hl].
  2:{ by destruct (core_of w). }
  2:{ subst l. rewrite <- firstn_map. eapply sublist_NoDup; [|apply sublist_take]. unfold by_creation.
      rewrite merge_sort_Permutation. apply (NoDup_map_filter ra_id), HI. }
  assert (S2 : esteps org (core_of w, w_next_uuid w) (core_of w2, w_next_uuid w2)).
  { rewrite E2, N2, E1, (add_counts_bumps org (w_txn_now w1) l []).
    replace (core_of w, w_next_uuid w) with (with_runs (k_runs (core_of w)) (core_of w), w_next_uuid w) by by destruct (core_of w).
    exact S1. }
  etrans; [exact S2|]. pose proof (esteps_inv org _ _ S2) as [_ HI2]. specialize (HI2 HI). read H.
  destruct (length (List.filter _ _)); [|injection H as _ <-; by apply esteps_skip]. read H.
  ran H as u3 w3 H3. assert (S3 : esteps org (core_of w2, w_next_uuid w2) (core_of w3, w_next_uuid w3)).
  { eapply run_loop_refines; [|..|exact H3].
    - apply (NoDup_map_filter rn_id), HI2.
    - by intros r [Hr _]%elem_of_filterb.
    - intros r w4 u4 w4' [_ Hr]%elem_of_filterb. rewrite !andb_true_iff, !N.eqb_eq, bool_decide_eq_true in Hr.
      destruct Hr as [[Ho _] Hs]. by eapply finish_run_cancellation_shift. }
  pose proof (forM_keeps _ _ _ (finish_run_cancellation_keeps org) _ _ _ H3) as K3.
  etrans; [exact S3|]. ran H as u4 w4 H4. quiet H4. destruct H4 as [E4 N4]. ran H as p' w5 H5.
  apply ran_put_campaign in H5 as ((t & ->) & E5 & N5). injection H as _ <-. rewrite E4 in E5.
  eapply campaign_write_refines; [split; [exact E5|lia]| |done|done|done| |done].
  - rewrite K3, E2. simpl. rewrite <- K1 in Hp. exact Hp.
  - right. simpl. rewrite Hps. unfold legal. decided.
Qed.
