(* ===== verification/CampaignSystem.v ===== *)
(** * CampaignSystem: campaigns as a transition system

    One step is one transaction of [CampaignService], by any tenant and with any
    arguments, or a step of the environment that leaves the campaign tables alone
    (customers and conversations change, the scheduler, the workflow engine and the
    message gateway run, the clock advances). A worker may present a claim long after
    it was given, and any permit may be consumed at any time. Two conditions restrict
    the arguments to what the service passes: a preparation is sealed with a revision
    of its own campaign, and a claim names the run of its attempt. *)

From S2P Require Import Prelude.
From S2P Require Import Errors.
From S2P Require Import Lifecycles.
From S2P Require Import Recurrence.
From S2P Require Import MessagingStore.
From S2P Require Import CustomerStore.
From S2P Require Import CampaignStore.
From S2P Require Import Store.
From S2P Require Import StoreLemmas.
From S2P Require Import Tables.
From S2P Require Import CampaignRepository.
From S2P Require Import CampaignService.
From S2P Require Import CampaignSpec.
From S2P Require Import CampaignEffects.
From S2P Require Import CampaignOps.
From S2P Require Import CampaignSends.

(** ** The UUID supply only advances *)

Lemma mono_materialize_members d z org c s n ms : Monotone (materialize_members d z org c s n ms).
Proof. revert n. induction ms as [|m ms IH]; intros n; cbn [materialize_members]; [mono|]. apply monotone_bind; [mono|done]. Qed.
#[export] Hint Resolve mono_materialize_members : monotone.

(** The parameters of a deployment. *)
Record CampaignDeployment : Type := {
  cd_zoneinfo : string → option ZoneInfo;
  cd_digest : string → string;
  cd_canonical : CampaignDraft → string;
  cd_canonical_audience : list AudienceMemberInput → string;
}.

(** A revision of the campaign. *)
Definition revision_of (k : Core) (campaign_id revision_id : uuid) : Prop :=
  ∀ v, v ∈ k_revisions k → cv_id v = revision_id → cv_campaign_id v = campaign_id.

Section system.
Context (dep : CampaignDeployment).

Abbreviation zi := (cd_zoneinfo dep).
Abbreviation dg := (cd_digest dep).

Inductive camp_step (org : uuid) (w : World) : World → Prop :=
| ct_create request : camp_step org w (snd (create_txn org request w))
| ct_update id request : camp_step org w (snd (update_txn org id request w))
| ct_prepare id :
    camp_step org w (snd (prepare_txn dg (cd_canonical dep) (cd_canonical_audience dep) org id w))
| ct_materialize revision_id : camp_step org w (snd (materialize_txn zi dg org revision_id w))
| ct_seal id revision_id count :
    revision_of (core_of w) id revision_id → camp_step org w (snd (seal_txn org id revision_id count w))
| ct_schedule_run id : camp_step org w (snd (schedule_run_txn org id w))
| ct_bind_schedule id run_id schedule_id : camp_step org w (snd (bind_schedule_txn org id run_id schedule_id w))
| ct_start_run id key : camp_step org w (snd (start_run_txn org id key w))
| ct_set_release run_id workflow_run_id : camp_step org w (snd (set_release_txn org run_id workflow_run_id w))
| ct_bind_release run_id schedule_id occurrence_id workflow_run_id version_id :
    camp_step org w (snd (tenant_transaction
      (bind_scheduled_release org run_id schedule_id occurrence_id workflow_run_id version_id) w))
| ct_activate run_id : camp_step org w (snd (activate_txn org run_id w))
| ct_materialize_attempts run_id : camp_step org w (snd (materialize_attempts_txn dg org run_id w))
| ct_claim locked run_id owner : camp_step org w (snd (claim_recipient locked org run_id owner w))
| ct_workflow_started claim workflow_run_id :
    camp_step org w (snd (workflow_started_txn org claim workflow_run_id w))
| ct_workflow_completed claim : camp_step org w (snd (workflow_completed_txn org claim w))
| ct_authorize claim : genuine (core_of w) claim → camp_step org w (snd (authorize_txn zi org claim w))
| ct_consume permit message_id recipient attempt :
    camp_step org w (snd (consume_txn org permit message_id recipient attempt w))
| ct_preference request : camp_step org w (snd (set_contact_preference org request w))
| ct_suppression request : camp_step org w (snd (add_suppression org request w))
| ct_pause id : camp_step org w (snd (pause_campaign org id w))
| ct_resume id : camp_step org w (snd (resume_campaign org id w))
| ct_begin_cancel id : camp_step org w (snd (begin_cancel_txn org id w))
| ct_cancel_batch locked id : camp_step org w (snd (cancel_batch_txn locked org id w))
| ct_env w' :
    db_campaign (w_db w') = db_campaign (w_db w) → (w_next_uuid w ≤ w_next_uuid w')%N → camp_step org w w'.

Definition camp_steps : relation World := rtc (λ w w', ∃ org, camp_step org w w').

Definition camp_initial (w : World) : Prop := db_campaign (w_db w) = empty_campaign_db.

Definition camp_reachable (w : World) : Prop := ∃ w0, camp_initial w0 ∧ camp_steps w0 w.

(** ** Transactions *)

(** The state of the specification in a world. *)
Definition spec_of (w : World) : Core * uuid := (core_of w, w_next_uuid w).

Definition winv (w : World) : Prop := kinv (core_of w) (w_next_uuid w).

Lemma txn_refines {A} org (m : M A) `{!Monotone m} w :
  (∀ w0 a w1, core_of w0 = core_of w → w_next_uuid w0 = w_next_uuid w → m w0 = (Ok a, w1) →
     esteps org (spec_of w0) (spec_of w1)) →
  esteps org (spec_of w) (spec_of (snd (tenant_transaction m w))).
Proof.
  intros Hm. unfold tenant_transaction. destruct (m _) as [[a|e] w1] eqn:H; simpl.
  - by apply Hm in H.
  - apply esteps_skip. by apply ran_monotone in H.
Qed.

Lemma txn_refines_inv {A} org (m : M A) `{!Monotone m} w :
  winv w → refines org m → esteps org (spec_of w) (spec_of (snd (tenant_transaction m w))).
Proof.
  intros HI Hm. apply txn_refines; [done|]. intros w0 a w1 E N H. eapply Hm; [|exact H]. by rewrite E, N.
Qed.

Lemma guarded_refines {A} org (m : M A) w :
  (∀ w0 a w1, core_of w0 = core_of w → w_next_uuid w0 = w_next_uuid w → m w0 = (Ok a, w1) →
     esteps org (spec_of w0) (spec_of w1)) →
  ∀ w0 a w1, core_of w0 = core_of w → w_next_uuid w0 = w_next_uuid w →
    (execution_guard org ≫= λ _, m) w0 = (Ok a, w1) → esteps org (spec_of w0) (spec_of w1).
Proof. intros Hm w0 a w1 E N H. ran H as u w2 H2. apply ran_guard in H2 as ->. by eapply Hm. Qed.

Lemma guard_refines org : refines org (execution_guard org).
Proof. intros w u w' _ ->%ran_guard. by apply esteps_skip. Qed.

(** Commands that are quiet around one refining operation. *)
Lemma refines_then {A B} org (m : M A) (f : A → M B) : refines org m → (∀ a, kquiet (f a)) → refines org (m ≫= f).
Proof. intros Hm Hf. apply refines_bind; [done|]. intros a. by apply kquiet_refines. Qed.

Lemma kquiet_campaign_event org t c n : kquiet (campaign_event org t c n).
Proof. unfold campaign_event. kquietness. Qed.
Lemma kquiet_recipient_event org t c : kquiet (recipient_event org t c).
Proof. unfold recipient_event. kquietness. Qed.
Lemma kquiet_found_campaign org id : kquiet (found_campaign org id).
Proof. unfold found_campaign. kquietness. Qed.
#[local] Hint Resolve kquiet_campaign_event kquiet_recipient_event kquiet_found_campaign : kquiet.

Lemma ran_found_campaign org id w p w' :
  found_campaign org id w = (Ok p, w') → w' = w ∧ p ∈ k_campaigns (core_of w) ∧ cp_organization_id p = org ∧ cp_id p = id.
Proof.
  intros H. unfold found_campaign in H. read H. destruct (List.find _ _) as [x|] eqn:Hx; [|done].
  injection H as <- <-. by apply found_campaign_row in Hx.
Qed.

(** ** Every step implements the specification *)

Lemma start_run_refines org id key : refines org (
  row ← found_campaign org id; run ← create_run org row key;
  revision ← revision_row org (rn_campaign_revision_id run);
  match revision with None => raise CampaignService.InvalidState | Some revision => mret (run, revision) end).
Proof.
  intros w a w' HI H. ran H as p w1 H1. apply ran_found_campaign in H1 as (-> & Hp & Ho & _).
  ran H as r w2 H2. etrans; [by eapply create_run_refines|]. apply k_step_quiet. by quiet H.
Qed.

Lemma schedule_run_refines org id : refines org (
  row ← campaign_row org id;
  match row with
  | None => raise CampaignService.InvalidState
  | Some row =>
      match cp_prepared_revision_id row with
      | None => raise CampaignService.InvalidState
      | Some revision_id =>
          run ← create_run org row ("campaign:scheduled:" +:+ uuid_str id +:+ ":" +:+ uuid_str revision_id);
          revision ← revision_row org (rn_campaign_revision_id run);
          match revision with None => raise CampaignService.InvalidState | Some revision => mret (run, revision) end
      end
  end).
Proof.
  intros w a w' HI H. read H. destruct (List.find _ _) as [p|] eqn:Hp; [|done].
  apply found_campaign_row in Hp as (Hp & Ho & _). destruct (cp_prepared_revision_id p) as [v|]; [|done].
  ran H as r w2 H2. etrans; [by eapply create_run_refines|]. apply k_step_quiet. by quiet H.
Qed.

Lemma update_refines org id request : refines org (
  row ← found_campaign org id;
  if negb (cp_revision row =? uc_expected_revision request)
  then raise (Nxs (CampaignErr CampaignConflictError))
  else CampaignRepository.update_campaign row (uc_name request) (uc_draft request)).
Proof.
  intros w a w' HI H. ran H as p w1 H1. apply ran_found_campaign in H1 as (-> & Hp & Ho & _).
  destruct (negb _); [done|]. by eapply update_campaign_refines.
Qed.

Lemma prepare_refines dg0 cn ca org id : refines org (
  row ← found_campaign org id;
  match cp_state row with
  | CampaignState.DRAFT => begin_preparation dg0 cn ca org row
  | CampaignState.PREPARING => active_preparation org (cp_id row) (cp_revision row)
  | _ => raise CampaignService.InvalidState
  end).
Proof.
  intros w a w' HI H. ran H as p w1 H1. apply ran_found_campaign in H1 as (-> & Hp & Ho & _).
  destruct (cp_state p); try done; [by eapply begin_preparation_refines|].
  apply k_step_quiet. by eapply active_preparation_quiet.
Qed.

Lemma consume_refines org permit mid rc a : refines org (
  consumed ← consume_permit org (pm_id permit) (pm_permit_token permit) mid;
  current ← run_row org (ra_campaign_run_id a);
  match current with
  | None => raise CampaignRunNotFound
  | Some run =>
      _ ← recipient_event org "campaign.recipient.dispatched"
            (mkRecipientClaim run rc a (default 0%N (ra_owner_id a)) (default 0%N (ra_claim_token a)));
      _ ← (if bool_decide (rn_state run = CampaignRunState.COMPLETED) then
             campaign ← campaign_row org (rn_campaign_id run);
             match campaign with
             | Some campaign => campaign_event org "campaign.completed" campaign None
             | None => mret tt
             end
           else mret tt);
      mret consumed
  end).
Proof. apply refines_then; [apply consume_permit_refines|]. intros p. kquietness. Qed.

Lemma camp_step_refines org w w' : winv w → camp_step org w w' → esteps org (spec_of w) (spec_of w').
Proof.
  intros HI [request|id request|id|vid|id vid count Hv|id|id rid sid|id key|rid wid|rid sid oid wid vid|rid|rid
    |locked rid owner|cl wid|cl|cl Hcl|permit mid rc a|request|request|id|id|id|locked id|w1 E N].
  - apply txn_refines_inv; [mono|done|]. apply refines_then; [apply create_campaign_refines|]. intros. kquietness.
  - apply txn_refines_inv; [mono|done|]. apply update_refines.
  - apply txn_refines_inv; [mono|done|]. apply prepare_refines.
  - apply txn_refines_inv; [mono|done|]. apply materialize_batch_refines.
  - apply txn_refines; [mono|]. intros w0 a w1 E N H. ran H as p w2 H2.
    etrans; [eapply seal_preparation_refines; [|exact H2]; by rewrite E|]. apply k_step_quiet. by quiet H.
  - apply txn_refines_inv; [mono|done|]. apply schedule_run_refines.
  - apply txn_refines_inv; [mono|done|]. apply refines_bind; [apply bind_schedule_refines|]. intros r.
    apply refines_then; [apply mark_campaign_scheduled_refines|]. intros. kquietness.
  - apply txn_refines_inv; [mono|done|]. apply start_run_refines.
  - apply txn_refines_inv; [mono|done|]. apply set_release_run_refines.
  - apply txn_refines_inv; [mono|done|]. apply bind_scheduled_release_refines.
  - apply txn_refines_inv; [mono|done|]. apply refines_bind; [apply guard_refines|]. intros _.
    apply begin_run_activation_refines.
  - apply txn_refines_inv; [mono|done|]. apply refines_bind; [apply guard_refines|]. intros _.
    apply refines_then; [apply materialize_attempt_batch_refines|]. intros. kquietness.
  - apply txn_refines_inv; [mono|done|]. apply refines_bind; [apply guard_refines|]. intros _.
    apply refines_then; [apply claim_recipient_refines|]. intros. kquietness.
  - apply txn_refines_inv; [mono|done|]. apply refines_bind; [apply guard_refines|]. intros _.
    apply refines_then; [apply mark_workflow_started_refines|]. intros. kquietness.
  - apply txn_refines_inv; [mono|done|]. apply refines_bind; [apply guard_refines|]. intros _.
    apply mark_workflow_completed_refines.
  - apply txn_refines; [mono|]. apply guarded_refines. intros w0 a w1 E N H.
    eapply authorize_permit_refines; [|by rewrite E|exact H]. by rewrite E, N.
  - apply txn_refines_inv; [mono|done|]. apply consume_refines.
  - apply txn_refines_inv; [mono|done|]. apply kquiet_refines. kquietness.
  - apply txn_refines_inv; [mono|done|]. apply kquiet_refines. kquietness.
  - apply txn_refines_inv; [mono|done|]. apply refines_bind; [apply kquiet_refines; kquietness|]. intros p.
    apply refines_then; [apply transition_campaign_state_refines|]. intros. kquietness.
  - apply txn_refines_inv; [mono|done|]. apply refines_then; [apply resume_campaign_refines|]. intros. kquietness.
  - apply txn_refines_inv; [mono|done|]. apply begin_cancellation_refines.
  - apply txn_refines_inv; [mono|done|]. apply refines_then; [apply cancel_attempt_batch_refines|]. intros. kquietness.
  - unfold spec_of, core_of. rewrite E. by apply esteps_skip.
Qed.

(** ** The invariant of reachable states *)

Lemma winv_initial w : camp_initial w → winv w.
Proof.
  intros E. unfold winv, core_of, keyed. rewrite E. split; simpl; try (split; [apply NoDup_nil_2|]);
    try apply NoDup_nil_2; intros * ?%not_elem_of_nil; done.
Qed.

Lemma step_winv org w w' : winv w → camp_step org w w' → winv w'.
Proof. intros HI Hs. by apply (esteps_inv org _ _ (camp_step_refines _ _ _ HI Hs)). Qed.

Lemma steps_winv w w' : winv w → camp_steps w w' → winv w'.
Proof. intros HI Hs. revert HI. induction Hs as [|w1 w2 w3 (org & H) _ IH]; [done|]. intros HI. by eapply IH, step_winv. Qed.

Lemma camp_reachable_inv w : camp_reachable w → winv w.
Proof. intros (w0 & Hi & Hs). eapply steps_winv; [by apply winv_initial|done]. Qed.

Lemma camp_reachable_steps w w' : camp_reachable w → camp_steps w w' → camp_reachable w'.
Proof. intros (w0 & Hi & H0) Hs. exists w0. split; [done|]. by etrans. Qed.
End system.

(** A property of cores that every effect preserves holds along every execution. *)
Lemma steps_effects dep (R : relation Core) w w' :
  winv w → camp_steps dep w w' → (∀ k, R k k) → (∀ k1 k2 k3, R k1 k2 → R k2 k3 → R k1 k3) →
  (∀ org n n' k k', (n ≤ n')%N → kinv k n → effect org n n' k k' → R k k') → R (core_of w) (core_of w').
Proof.
  intros HI Hs Hrefl Htrans He.
  assert (Hes : ∀ org s s', esteps org s s' → kinv s.1 s.2 → R s.1 s'.1).
  { intros org s s' H. induction H as [|s1 s2 s3 Hst _ IH]; intros Hk; [apply Hrefl|].
    assert (Hk2 : kinv s2.1 s2.2) by (eapply (esteps_inv org s1 s2); [by apply rtc_once|done]).
    eapply Htrans; [|by apply IH]. destruct Hst as [Hn [->|H]]; [apply Hrefl|by eapply He]. }
  revert HI. induction Hs as [|w1 w2 w3 (org & H) _ IH]; intros HI; [apply Hrefl|].
  pose proof (camp_step_refines _ _ _ _ HI H) as S. eapply Htrans; [exact (Hes _ _ _ S HI)|].
  apply IH. by eapply step_winv.
Qed.
