(* ===== verification/CampaignTrace.v ===== *)
(** * CampaignTrace: rows along an execution

    What any number of transactions can do to the rows of a campaign: they are never
    deleted, their identifying columns stay, their states follow the tables of
    [Lifecycles], and claims and permits appear only while the campaign runs. *)

From S2P Require Import Prelude.
From S2P Require Import Errors.
From S2P Require Import Lifecycles.
From S2P Require Import MessagingStore.
From S2P Require Import CustomerStore.
From S2P Require Import CampaignStore.
From S2P Require Import Store.
From S2P Require Import Tables.
From S2P Require Import CampaignRepository.
From S2P Require Import CampaignSpec.
From S2P Require Import CampaignEffects.
From S2P Require Import CampaignOps.
From S2P Require Import CampaignSystem.

(** Every row of the first table is found, [R]-later, in the second. *)
Definition survives {A} (R : relation A) (l l' : list A) : Prop := ∀ x, x ∈ l → ∃ y, y ∈ l' ∧ R x y.

Lemma survives_refl {A} (R : relation A) l : (∀ x, R x x) → survives R l l.
Proof. intros HR x Hx. exists x. auto. Qed.

Lemma survives_trans {A} (R : relation A) l1 l2 l3 :
  (∀ x y z, R x y → R y z → R x z) → survives R l1 l2 → survives R l2 l3 → survives R l1 l3.
Proof. intros HR H1 H2 x (y & Hy & Rxy)%H1. apply H2 in Hy as (z & Hz & Ryz). exists z. eauto. Qed.

Lemma survives_app {A} (R : relation A) l k : (∀ x, R x x) → survives R l (l ++ k).
Proof. intros HR x Hx. exists x. split; [apply elem_of_app; auto|done]. Qed.

Lemma survives_upd {A} (R : relation A) (key : A → uuid) n x0 x l :
  (∀ y, R y y) → keyed key n l → x0 ∈ l → key x = key x0 → R x0 x → survives R l (upd key x l).
Proof.
  intros HR Hl H0 Hk Hx y Hy. destruct (upd_lives key x l y Hy) as (z & Hz & _ & [-> | [-> E]]); [by exists y|].
  exists x. split; [done|]. assert (y = x0) as ->; [|done]. eapply keyed_inj; [done..|congruence].
Qed.

Definition campaign_later (p p' : CampaignRecord) : Prop :=
  same_campaign p p' ∧ rtc legal (cp_state p) (cp_state p').

Definition run_later (r r' : CampaignRunRecord) : Prop :=
  run_ident r' = run_ident r ∧ rtc (λ s t, t ∈ run_moves s) (rn_state r) (rn_state r').

(** A claim, once given, stays with the attempt; so does the message. *)
Definition attempt_later (a a' : CampaignRecipientAttemptRecord) : Prop :=
  attempt_ident a' = attempt_ident a ∧ rtc legal (ra_state a) (ra_state a') ∧
  (claimed a = true → ra_claim_token a' = ra_claim_token a).

(** A consumed permit does not change any more. *)
Definition permit_later (p p' : CampaignSendPermitRecord) : Prop :=
  permit_ident p' = permit_ident p ∧ (pm_state p = SendPermitState.CONSUMED → p' = p).

Record core_later (k k' : Core) : Prop := {
  cl_campaigns : survives campaign_later (k_campaigns k) (k_campaigns k');
  cl_revisions : survives eq (k_revisions k) (k_revisions k');
  cl_recipients : survives (λ x y, recipient_ident y = recipient_ident x) (k_recipients k) (k_recipients k');
  cl_runs : survives run_later (k_runs k) (k_runs k');
  cl_attempts : survives attempt_later (k_attempts k) (k_attempts k');
  cl_permits : survives permit_later (k_permits k) (k_permits k');
}.

Lemma campaign_later_refl p : campaign_later p p.
Proof. by repeat split. Qed.
Lemma campaign_later_trans p1 p2 p3 : campaign_later p1 p2 → campaign_later p2 p3 → campaign_later p1 p3.
Proof. intros [(A1 & A2 & A3) A4] [(B1 & B2 & B3) B4]. split; [repeat split; congruence|by etrans]. Qed.
Lemma run_later_refl r : run_later r r.
Proof. by split. Qed.
Lemma run_later_trans r1 r2 r3 : run_later r1 r2 → run_later r2 r3 → run_later r1 r3.
Proof. intros [A1 A2] [B1 B2]. split; [congruence|by etrans]. Qed.
Lemma attempt_later_refl a : attempt_later a a.
Proof. by repeat split. Qed.
Lemma attempt_later_trans a1 a2 a3 : attempt_later a1 a2 → attempt_later a2 a3 → attempt_later a1 a3.
Proof.
  intros (A1 & A2 & A3) (B1 & B2 & B3). split; [congruence|]. split; [by etrans|]. intros Hc.
  rewrite B3, A3; [done|done|]. unfold claimed in *. by rewrite A3.
Qed.
Lemma permit_later_refl p : permit_later p p.
Proof. by repeat split. Qed.
Lemma permit_later_trans p1 p2 p3 : permit_later p1 p2 → permit_later p2 p3 → permit_later p1 p3.
Proof. intros [A1 A2] [B1 B2]. split; [congruence|]. intros Hc. rewrite B2; rewrite A2; done. Qed.
#[local] Hint Resolve campaign_later_refl run_later_refl attempt_later_refl permit_later_refl : core.

Lemma core_later_refl k : core_later k k.
Proof. split; by apply survives_refl. Qed.

Lemma core_later_trans k1 k2 k3 : core_later k1 k2 → core_later k2 k3 → core_later k1 k3.
Proof.
  intros [A1 A2 A3 A4 A5 A6] [B1 B2 B3 B4 B5 B6]. split; (eapply survives_trans; [|done..]).
  - apply campaign_later_trans.
  - by intros x y z -> ->.
  - intros x y z. congruence.
  - apply run_later_trans.
  - apply attempt_later_trans.
  - apply permit_later_trans.
Qed.

Lemma legal_once {St} `{Lifecycle St} (s t : St) : t = s ∨ legal s t → rtc legal s t.
Proof. intros [->|Hl]; [done|by apply rtc_once]. Qed.

Lemma claim_step_token a0 a : claim_step a0 a → attempt_ok a0 → claimed a0 = true → ra_claim_token a = ra_claim_token a0.
Proof.
  intros [[H _]|(Hp & _)] [Hok _] Hc; [done|]. unfold claimed in Hc. by rewrite Hok in Hc.
Qed.

Lemma permit_step_later org n n' k a0 a ps m :
  kinv k m → permit_step org n n' k a0 a ps → survives permit_later (k_permits k) ps.
Proof.
  intros HI [H1 H2 H3|p H1 H2 H3 H4 H5 H6 H7 H8 H9|p0 p x H1 H2 H3 H4 H5 H6 H7 H8 H9].
  - by apply survives_refl.
  - by apply survives_app.
  - apply (survives_upd _ _ m p0); [done|apply HI|done| |split; [done|congruence]].
    unfold permit_ident in H3. congruence.
Qed.

Lemma run_ident_id r r0 : run_ident r = run_ident r0 → rn_id r = rn_id r0.
Proof. unfold run_ident. congruence. Qed.
Lemma attempt_ident_id a a0 : attempt_ident a = attempt_ident a0 → ra_id a = ra_id a0.
Proof. unfold attempt_ident. congruence. Qed.
#[local] Hint Resolve run_ident_id attempt_ident_id : core.

Lemma run_survives k n r0 r :
  kinv k n → r0 ∈ k_runs k → run_ident r = run_ident r0 →
  (rn_state r = rn_state r0 ∨ rn_state r ∈ run_moves (rn_state r0)) →
  survives run_later (k_runs k) (upd rn_id r (k_runs k)).
Proof.
  intros HI H0 Hid Hst. apply (survives_upd _ _ n r0); [done|apply HI|done|auto|]. split; [done|].
  destruct Hst as [->|Hst]; [done|by apply rtc_once].
Qed.

Lemma campaign_survives k n p0 p :
  kinv k n → p0 ∈ k_campaigns k → same_campaign p0 p → (cp_state p = cp_state p0 ∨ legal (cp_state p0) (cp_state p)) →
  survives campaign_later (k_campaigns k) (upd cp_id p (k_campaigns k)).
Proof.
  intros HI H0 Hs Hst. apply (survives_upd _ _ n p0); [done|apply HI|done|apply Hs|]. split; [done|by apply legal_once].
Qed.

Lemma effect_later org n n' k k' : (n ≤ n')%N → kinv k n → effect org n n' k k' → core_later k k'.
Proof.
  intros Hn HI. induction 1 as [p P1 P2 P3 P4|p0 p P1 P2 P3 P4 P5 P6|p0 p v s P1 P2 P3 P4 P5 P6 P7 P8 P9
    |s0 s v rcs|p0 p s0 s v P1 P2 P3 P4 P5|r P1|r0 r P1 P2 P3 P4 P5 P6|p0 p r0 r P1 P2 P3 P4 P5 P6 P7 P8 P9 P10 P11 P12 P13
    |r0 r new P1 P2 P3 P4 P5 P6 P7 P8 P9 P10 P11|a0 a r0 r rc0 rc ps P1 P2 P3 P4 P5 P6 P7 P8 P9 P10 P11 P12 P13 P14 P15 P16 P17 P18
    |k1 a0 r0 r P0 IH P1 P2 P3 P4 P5 P6 P7 P8 P9 P10 P11].
  11:{ eapply core_later_trans; [exact IH|]. split; simpl; try (by apply survives_refl).
       eapply run_survives; [by eapply effect_inv|done..|]. right. rewrite P9, P10. decided. }
  all: split; simpl; try (by apply survives_refl); try (by apply survives_app).
  - by eapply campaign_survives.
  - eapply campaign_survives; [done..|]. right. rewrite P5, P6. unfold legal. decided.
  - eapply campaign_survives; [done..|]. right. rewrite P4, P5. unfold legal. decided.
  - by eapply run_survives.
  - eapply campaign_survives; [done..|]. right. rewrite P6. rewrite !elem_of_cons, elem_of_nil in P5.
    destruct P5 as [-> |[-> |[]]]; unfold legal; decided.
  - eapply run_survives; [done..|]. right. rewrite P12, P13. decided.
  - eapply run_survives; [done..|]. rewrite P5. destruct P11 as [[-> _]|[-> _]]; [by left|right; decided].
  - apply (survives_upd _ _ n rc0); [done|apply HI|done| |done]. unfold recipient_ident in P15. congruence.
  - eapply run_survives; [done..|]. by left.
  - apply (survives_upd _ _ n a0); [done|apply HI|done|auto|]. split; [done|]. split; [by apply legal_once|].
    apply claim_step_token; [done|]. by apply (ki_attempt_ok _ _ HI).
  - by eapply permit_step_later.
Qed.

(** ** New claims and permits *)

(** The campaign of a run is stopped for good. *)
Definition stopped (s : CampaignState) : bool :=
  bool_decide (s ∈ [CampaignState.CANCELLING; CampaignState.COMPLETED; CampaignState.FAILED; CampaignState.CANCELLED]).

Lemma stopped_legal s t : rtc legal s t → stopped s = true → stopped t = true.
Proof.
  induction 1 as [|s1 s2 s3 H _ IH]; [done|]. intros Hs. apply IH. revert H Hs. unfold legal, stopped. clear.
  destruct s1; simpl; try done; set_solver.
Qed.

(** The claims and permits of the runs of a campaign in [k'] were given before [k]. *)
Definition nothing_new (c : uuid) (k k' : Core) : Prop :=
  ∀ a r, a ∈ k_attempts k' → r ∈ k_runs k' → rn_id r = ra_campaign_run_id a → rn_campaign_id r = c →
    (claimed a = true → ∃ a0, a0 ∈ k_attempts k ∧ ra_id a0 = ra_id a ∧ claimed a0 = true) ∧
    (∀ p, p ∈ k_permits k' → pm_recipient_attempt_id p = ra_id a →
       ∃ p0, p0 ∈ k_permits k ∧ permit_ident p0 = permit_ident p).

Lemma running_not_stopped k n p r :
  kinv k n → p ∈ k_campaigns k → stopped (cp_state p) = true → rn_campaign_id r = cp_id p → running k r → False.
Proof.
  intros HI Hp Hs Hc (_ & q & Hq & Eq & Hrun).
  assert (q = p) as -> by (eapply (keyed_inj cp_id); [apply HI|done..|congruence]). by rewrite Hrun in Hs.
Qed.

(** When attempts and permits are the old ones, there is nothing new. *)
Lemma nothing_new_same c k k' :
  k_attempts k' = k_attempts k → k_permits k' = k_permits k → nothing_new c k k'.
Proof. intros E1 E2 a r Ha Hr _ _. rewrite E1 in Ha. rewrite E2. split; eauto. Qed.

Lemma effect_nothing_new org n n' k k' p :
  (n ≤ n')%N → kinv k n → p ∈ k_campaigns k → stopped (cp_state p) = true → effect org n n' k k' →
  nothing_new (cp_id p) k k'.
Proof.
  intros Hn HI Hp Hstop. induction 1 as [| | | | | | | |r0 r new P1 P2 P3 P4 P5 P6 P7 P8 P9 P10 P11
    |a0 a r0 r rc0 rc ps P1 P2 P3 P4 P5 P6 P7 P8 P9 P10 P11 P12 P13 P14 P15 P16 P17 P18
    |k1 a0 r0 r P0 IH P1 P2 P3 P4 P5 P6 P7 P8 P9 P10 P11];
    try by apply nothing_new_same.
  - intros x y Hx Hy _ _. simpl in *. split; [|eauto]. intros Hc.
    apply elem_of_app in Hx as [Hx|Hx]; [by exists x|]. rewrite Forall_forall in P6.
    destruct (P6 x Hx) as (_ & _ & _ & E & _). unfold claimed in Hc. by rewrite E in Hc.
  - assert (Hnot : ∀ y, y ∈ upd rn_id r (k_runs k) → rn_id y = ra_campaign_run_id a → rn_campaign_id y = cp_id p →
      running k r0 → False).
    { intros y Hy Ey Ec. eapply running_not_stopped; [done..|]. rewrite <- Ec. pose proof (attempt_ident_id _ _ P3).
      apply elem_of_upd in Hy as [-> |[_ Hne]].
      - unfold run_ident in P8. congruence.
      - exfalso. apply Hne. rewrite Ey, (run_ident_id _ _ P8), P7. unfold attempt_ident in P3. congruence. }
    intros x y Hx Hy Ey Ec. simpl in *. split.
    + intros Hc. apply elem_of_upd in Hx as [-> |[Hx _]]; [|by exists x]. exists a0. split; [done|].
      split; [symmetry; auto|]. destruct (claimed a0) eqn:Hc0; [done|]. exfalso. eauto.
    + intros q Hq Eq. destruct P16 as [|q1 G1 G2 G3 G4 G5 G6|q0 q1 m G1 G2 G3]; [eauto| |].
      * apply elem_of_app in Hq as [Hq| ->%list_elem_of_singleton]; [eauto|]. exfalso.
        assert (x = a) as ->.
        { apply elem_of_upd in Hx as [-> |[_ Hne]]; [done|]. exfalso. apply Hne.
          rewrite (attempt_ident_id _ _ P3). congruence. }
        apply (Hnot y); [done..|]. apply P18; [done|]. unfold permitted. by rewrite G2.
      * apply elem_of_upd in Hq as [-> |[Hq _]]; [|eauto]. by exists q0.
  - intros x y Hx Hy Ey Ec. simpl in *. apply elem_of_upd in Hy as [-> |[Hy _]]; [|by apply (IH x y)].
    unfold run_ident in P6. apply (IH x r0); [done|done|congruence..].
Qed.

(** Along an execution. *)
Definition trace (c : uuid) (k k' : Core) : Prop :=
  (∃ n, kinv k n) → (∃ n, kinv k' n) ∧ core_later k k' ∧
  ((∃ p, p ∈ k_campaigns k ∧ cp_id p = c ∧ stopped (cp_state p) = true) → nothing_new c k k').

Lemma trace_trans c k1 k2 k3 : trace c k1 k2 → trace c k2 k3 → trace c k1 k3.
Proof.
  intros H12 H23 HI1. destruct (H12 HI1) as (HI2 & L12 & N12). destruct (H23 HI2) as (HI3 & L23 & N23).
  split; [done|]. split; [by eapply core_later_trans|]. intros (p & Hp & Ec & Hs).
  destruct (cl_campaigns _ _ L12 p Hp) as (p2 & Hp2 & [(E2 & _) Hl]).
  assert (Hn12 : nothing_new c k1 k2) by (apply N12; by exists p).
  assert (Hn23 : nothing_new c k2 k3).
  { apply N23. exists p2. split; [done|]. split; [congruence|]. by eapply stopped_legal. }
  clear N12 N23. destruct HI2 as [n2 HI2], HI3 as [n3 HI3].
  assert (Hback : ∀ a2, a2 ∈ k_attempts k2 → ∀ a r, a ∈ k_attempts k3 → r ∈ k_runs k3 → ra_id a2 = ra_id a →
    rn_id r = ra_campaign_run_id a → rn_campaign_id r = c →
    ∃ r2, r2 ∈ k_runs k2 ∧ rn_id r2 = ra_campaign_run_id a2 ∧ rn_campaign_id r2 = c).
  { intros a2 Ha2 a r Ha Hr Eid Er Erc. destruct (ki_attempt_ref _ _ HI2 a2 Ha2) as (r2 & _ & Hr2 & _ & E & _).
    exists r2. split; [done|]. split; [done|]. destruct (cl_attempts _ _ L23 a2 Ha2) as (a3 & Ha3 & (I3 & _)).
    assert (a3 = a) as ->.
    { eapply (keyed_inj ra_id); [apply HI3|done..|]. rewrite (attempt_ident_id _ _ I3). done. }
    destruct (cl_runs _ _ L23 r2 Hr2) as (r3 & Hr3 & (J3 & _)).
    assert (r3 = r) as ->.
    { eapply (keyed_inj rn_id); [apply HI3|done..|]. rewrite (run_ident_id _ _ J3). unfold attempt_ident in I3. congruence. }
    unfold run_ident in J3. congruence. }
  intros a r Ha Hr Er Erc. destruct (Hn23 a r Ha Hr Er Erc) as [Hc Hpm]. split.
  - intros (a2 & Ha2 & E2a & Hc2)%Hc. destruct (Hback a2 Ha2 a r) as (r2 & Hr2 & Er2 & Erc2); [done..|].
    destruct (Hn12 a2 r2 Ha2 Hr2 Er2 Erc2) as [Hc' _]. destruct (Hc' Hc2) as (a1 & ? & ? & ?). exists a1. split; [done|]. split; [congruence|done].
  - intros q Hq Eq. destruct (Hpm q Hq Eq) as (q2 & Hq2 & I2).
    destruct (ki_permit_ref _ _ HI2 q2 Hq2) as (a2 & Ha2 & E2a & _).
    assert (Eid : ra_id a2 = ra_id a) by (unfold permit_ident in I2; congruence).
    destruct (Hback a2 Ha2 a r) as (r2 & Hr2 & Er2 & Erc2); [done..|].
    destruct (Hn12 a2 r2 Ha2 Hr2 Er2 Erc2) as [_ Hp']. destruct (Hp' q2 Hq2 ltac:(done)) as (q1 & Hq1 & I1).
    exists q1. split; [done|congruence].
Qed.

Lemma steps_trace dep c w w' : winv w → camp_steps dep w w' → trace c (core_of w) (core_of w').
Proof.
  intros HI Hs. apply (steps_effects dep (trace c)); [done..| | |].
  - intros k Hk. split; [done|]. split; [apply core_later_refl|]. intros _. by apply nothing_new_same.
  - apply trace_trans.
  - intros org n n' k k' Hn Hk He _. split; [exists n'; by eapply effect_inv|]. split; [by eapply effect_later|].
    intros (p & Hp & <- & Hst). by eapply effect_nothing_new.
Qed.

Lemma steps_later dep w w' : winv w → camp_steps dep w w' → core_later (core_of w) (core_of w').
Proof. intros HI Hs. destruct (steps_trace dep 0%N w w' HI Hs) as (_ & HL & _); [by eexists|done]. Qed.

(** ** The limit of a campaign *)

Definition limit_ok (k : Core) (r : CampaignRunRecord) : Prop :=
  ∃ v, v ∈ k_revisions k ∧ cv_id v = rn_campaign_revision_id r ∧
    rn_authorized_count r ≤ Z.max 0 (campaign_limit v).

Definition limits (k : Core) : Prop := ∀ r, r ∈ k_runs k → limit_ok k r.

Lemma effect_limits org n n' k k' : kinv k n → effect org n n' k k' → limits k → limits k'.
Proof.
  intros HI He HL.
  assert (Hupd : ∀ k k1 r0 r, limits k → k_revisions k1 = k_revisions k → k_runs k1 = upd rn_id r (k_runs k) → r0 ∈ k_runs k →
    run_ident r = run_ident r0 → run_counts r = run_counts r0 → limits k1).
  { clear. intros k k1 r0 r HL Ev Er H0 Hid Hc x Hx. unfold limit_ok. rewrite Ev. rewrite Er in Hx.
    apply elem_of_upd in Hx as [-> |[Hx _]]; [|by apply HL]. destruct (HL r0 H0) as (v & V1 & V2 & V3). exists v.
    unfold run_ident in Hid. unfold run_counts in Hc. split; [done|]. split; [congruence|]. injection Hc as _ _ _ -> _. done. }
  induction He as [| |p0 p v s| | |r P1 P2 P3 P4 P5|r0 r P1 P2 P3 P4|p0 p r0 r P1 P2 P3 P4 P5 P6 P7 P8 P9 P10
    |r0 r new P1 P2 P3 P4|a0 a r0 r rc0 rc ps P1 P2 P3 P4 P5 P6 P7 P8 P9 P10 P11 P12 P13 P14 P15 P16 P17 P18
    |k1 a0 r0 r P0 IH P1 P2 P3 P4 P5 P6 P7];
    try exact HL.
  - intros r Hr. destruct (HL r Hr) as (v' & V1 & V2). exists v'. split; [apply elem_of_app; by left|done].
  - intros x Hx. simpl in Hx. apply elem_of_app in Hx as [Hx| ->%list_elem_of_singleton]; [by apply HL|].
    destruct P3 as (_ & v & _ & _ & Hv & _ & _ & _ & Ev & _). exists v. split; [done|]. split; [done|].
    injection P5 as _ _ _ -> _. lia.
  - by apply (Hupd k _ r0 r).
  - by apply (Hupd k _ r0 r).
  - by apply (Hupd k _ r0 r).
  - intros x Hx. simpl in Hx. apply elem_of_upd in Hx as [-> |[Hx _]]; [|by apply HL].
    destruct P12 as (_ & _ & _ & Hcount & _). destruct (HL r0 P6) as (v & V1 & V2 & V3).
    exists v. split; [done|]. split; [unfold run_ident in P8; congruence|]. rewrite Hcount. unfold gain.
    destruct (permitted a0) eqn:H0, (permitted a) eqn:H1; simpl; try lia.
    destruct (P18 eq_refl eq_refl) as [_ (v' & V1' & V2' & V3')].
    assert (v' = v) as -> by (eapply (keyed_inj cv_id); [apply HI|done..|congruence]). lia.
  - by apply (Hupd k1 _ r0 r).
Qed.

Lemma reachable_limits dep w : camp_reachable dep w → limits (core_of w).
Proof.
  intros (w0 & Hi & Hs). pose proof (winv_initial w0 Hi) as H0.
  apply (steps_effects dep (λ k k', (∃ n, kinv k n) → (∃ n, kinv k' n) ∧ (limits k → limits k')) w0 w); try done.
  - intros k1 k2 k3 H12 H23 [H2 L12]%H12. destruct (H23 H2) as [H3 L23]. auto.
  - intros org n n' k k' Hn Hk He _. split; [exists n'; by eapply effect_inv|by eapply effect_limits].
  - by eexists.
  - intros x Hx. unfold core_of in Hx. rewrite Hi in Hx. by apply not_elem_of_nil in Hx.
Qed.

(** ** Completion needs a dispatch *)

(** All attempts of the run are settled, but it has not completed. *)
Definition stuck (k : Core) (id : uuid) : Prop :=
  ∃ r, r ∈ k_runs k ∧ rn_id r = id ∧ rn_attempt_materialization_complete r = true ∧
    rn_state r ≠ CampaignRunState.COMPLETED ∧
    ∀ a, a ∈ k_attempts k → ra_campaign_run_id a = id → settled a = true.

Lemma settled_forever a0 a :
  settled a0 = true → ra_state a = ra_state a0 ∨ legal (ra_state a0) (ra_state a) → settled a = true.
Proof.
  unfold settled. rewrite !bool_decide_eq_true. intros H0 [->|Hl]; [done|]. exfalso. revert H0 Hl.
  unfold settled_states, legal. rewrite !elem_of_cons, elem_of_nil.
  intros [-> |[-> |[-> |[-> |[]]]]]; simpl; apply not_elem_of_nil.
Qed.

(** A write to a run that does not complete it. *)
Lemma stuck_upd k k' n id r0 r :
  kinv k n → r0 ∈ k_runs k → rn_id r = rn_id r0 → run_progress r = run_progress r0 →
  (rn_state r = CampaignRunState.COMPLETED → rn_state r0 = CampaignRunState.COMPLETED) →
  k_runs k' = upd rn_id r (k_runs k) →
  (∀ a, a ∈ k_attempts k' → ra_campaign_run_id a = id → settled a = true) → stuck k id → stuck k' id.
Proof.
  intros HI H0 Hid Hp Hc Er Ha (x & Hx & Exi & Xc & Xs & Xa). unfold stuck. rewrite Er.
  destruct (upd_lives rn_id r (k_runs k) x Hx) as (y & Hy & Ey & [-> | [-> E]]); [by exists x|].
  assert (x = r0) as -> by (eapply (keyed_inj rn_id); [apply HI|done..|congruence]).
  exists r. unfold run_progress in Hp. split; [done|]. split; [congruence|]. split; [congruence|]. auto.
Qed.

Lemma effect_stuck org n n' k k' id : (n ≤ n')%N → kinv k n → effect org n n' k k' → stuck k id → stuck k' id.
Proof.
  intros Hn HI He Hst. assert (Hset : ∀ a, a ∈ k_attempts k → ra_campaign_run_id a = id → settled a = true).
  { by destruct Hst as (_ & _ & _ & _ & _ & H). }
  induction He as [| | | | |r P1 P2 P3 P4 P5|r0 r P1 P2 P3 P4 P5 P6 P7 P8 P9|p0 p r0 r P1 P2 P3 P4 P5 P6 P7 P8 P9 P10 P11 P12 P13
    |r0 r new P1 P2 P3 P4 P5 P6 P7 P8 P9 P10 P11|a0 a r0 r rc0 rc ps P1 P2 P3 P4 P5 P6 P7 P8 P9 P10
    |k1 a0 r0 r P0 IH P1 P2 P3 P4 P5 P6 P7 P8 P9 P10]; try exact Hst.
  - destruct Hst as (x & Hx & E). exists x. simpl. split; [apply elem_of_app; by left|done].
  - apply (stuck_upd k _ n id r0 r); try done. by apply run_ident_id.
  - apply (stuck_upd k _ n id r0 r); try done; [by apply run_ident_id|]. by rewrite P13.
  - assert (Hne : rn_id r0 ≠ id).
    { intros E. destruct Hst as (x & Hx & Exi & Xc & _).
      assert (x = r0) as -> by (eapply (keyed_inj rn_id); [apply HI|done..|congruence]).
      destruct (ki_complete _ _ HI r0 P1 Xc) as [Hns _]. apply Hns. rewrite P5. set_solver. }
    destruct Hst as (x & Hx & Exi & X). exists x. simpl. split.
    { apply upd_other; [done|]. rewrite (run_ident_id _ _ P3). congruence. }
    split; [done|]. destruct X as (X1 & X2 & _). split; [done|]. split; [done|].
    intros b Hb Eb. apply elem_of_app in Hb as [Hb|Hb]; [by apply Hset|]. rewrite Forall_forall in P6.
    destruct (P6 b Hb) as (Er & _). congruence.
  - apply (stuck_upd k _ n id r0 r); try done; [by apply run_ident_id|congruence|]. simpl.
    intros b [-> |[Hb _]]%elem_of_upd Eb; [|by apply Hset]. apply (settled_forever a0); [|done].
    apply Hset; [done|]. unfold attempt_ident in P3. congruence.
  - assert (Hne : rn_id r0 ≠ id).
    { intros E. pose proof (Hset a0 P1 ltac:(congruence)) as Hs. unfold settled in Hs. by rewrite P2 in Hs. }
    destruct IH as (x & Hx & Exi & X). exists x. simpl. split; [|done]. apply upd_other; [done|].
    rewrite (run_ident_id _ _ P6). congruence.
Qed.

Lemma steps_stuck dep w w' id : winv w → camp_steps dep w w' → stuck (core_of w) id → stuck (core_of w') id.
Proof.
  intros HI Hs.
  apply (steps_effects dep (λ k k', (∃ n, kinv k n) → (∃ n, kinv k' n) ∧ (stuck k id → stuck k' id)) w w'); try done.
  - intros k1 k2 k3 H12 H23 [H2 L12]%H12. destruct (H23 H2) as [H3 L23]. auto.
  - intros org n n' k k' Hn Hk He _. split; [exists n'; by eapply effect_inv|by eapply effect_stuck].
  - by eexists.
Qed.
