(* ===== verification/CampaignDemo.v ===== *)
(** * CampaignDemo: a concrete campaign

    Two customers who consented are prepared, a run is released and materialised;
    the first recipient is claimed, authorised and sent to; the second one
    unsubscribes after the claim and is suppressed at authorisation. The states are
    reachable, and the theorems about campaigns are instantiated at them. *)

From S2P Require Import Prelude.
From S2P Require Import Errors.
From S2P Require Import Lifecycles.
From S2P Require Import Conditions.
From S2P Require Import ScheduleSpec.
From S2P Require Import Calendar.
From S2P Require Import Recurrence.
From S2P Require Import RecurrenceLaws.
From S2P Require Import MessagingStore.
From S2P Require Import CustomerStore.
From S2P Require Import CampaignStore.
From S2P Require Import Store.
From S2P Require Import WorkflowDemo.
From S2P Require Import SchedulerDemo.
From S2P Require Import CampaignRepository.
From S2P Require Import CampaignService.
From S2P Require Import CampaignSpec.
From S2P Require Import CampaignSends.
From S2P Require Import CampaignSystem.

(** SHA-256 and the canonical texts are parameters; the identity is injective. *)
Definition camp_deployment : CampaignDeployment := {|
  cd_zoneinfo := tz_demo;
  cd_digest := λ s, s;
  cd_canonical := λ _, "draft";
  cd_canonical_audience := λ _, "audience" |}.

Definition demo_customer (id : uuid) (name : string) : CustomerRecord :=
  mkCustomer id demo_org name "ACTIVE" None 1 0 0.
Definition demo_phone (id customer : uuid) (value : string) : CustomerIdentityRecord :=
  mkIdentity id demo_org customer "PHONE" value "VERIFIED" true "manual" "ACTIVE" 0 0.
Definition demo_thread (id customer : uuid) : ConversationRecord :=
  mkConversation id demo_org (Some customer) "whatsapp" "OPEN" None None None 1 0 0 None.
Definition demo_account : MessagingAccountRecord :=
  mkAccount 80 demo_org MessageChannel.WHATSAPP "meta_cloud" "main" "1555" "+15559999" None AccountStatus.ACTIVE
    [] "token" 0 0.

Definition people : CustomerDB :=
  mkCustomerDB [demo_customer 51 "Ada"; demo_customer 52 "Alan"]
    [demo_phone 61 51 "+15550001"; demo_phone 62 52 "+15550002"] [demo_thread 71 51; demo_thread 72 52] [] [].

Definition with_people (d : DB) : DB :=
  mkDB (db_definitions d) (db_versions d) (db_version_steps d) (db_runs d) (db_step_runs d) (db_run_history d)
    (db_schedules d) (db_occurrences d) (db_schedule_history d) (db_cells d) (db_placements d) (db_outbox d)
    empty_campaign_db people (mkMessagingDB [demo_account] [] [] []).

(** The workflow of [WorkflowDemo] is published; noon of 12 March 2024 UTC. *)
Definition camp_world : World :=
  mkWorld (λ n, Z.of_nat n + noon) 0 noon 1000 None "nexus-ai" None None (with_people (w_db demo_published)) [].

Definition demo_members : list AudienceMemberInput :=
  [{| am_customer_id := 51; am_identity_id := 61; am_conversation_id := 71 |};
   {| am_customer_id := 52; am_identity_id := 62; am_conversation_id := 72 |}].

(** Quiet from 22:00 to 07:00 in New York. *)
Definition night : QuietHoursPolicy := {|
  qh_enabled := true; qh_timezone := "America/New_York"; qh_start_local := 22 * HOUR; qh_end_local := 7 * HOUR |}.

Definition demo_draft : CampaignDraft := {|
  cd_release_workflow_version_id := 3; cd_recipient_workflow_version_id := 3; cd_account_id := 80;
  cd_channel := MessageChannel.WHATSAPP; cd_content := mkContent MessageContentType.TEXT (Some "hello") None []; cd_subject := None;
  cd_audience_source := AudienceSourceType.EXPLICIT_CUSTOMERS; cd_audience := demo_members;
  cd_source_reference := None; cd_quiet_hours := night;
  cd_throttle := {| th_recipients_per_tick := 10; th_messages_per_minute := 30; th_campaign_limit := 100;
                    th_organization_messages_per_minute := 300 |} |}.

Definition consent (customer identity : uuid) (granted : bool) : ContactPreferenceRequest := {|
  cq_customer_id := customer; cq_identity_id := identity; cq_channel := MessageChannel.WHATSAPP;
  cq_consent_granted := granted; cq_unsubscribed := negb granted; cq_do_not_contact := false;
  cq_evidence_ref := if granted then Some "form" else None |}.

Definition demo_create : CreateCampaignRequest :=
  {| cc_campaign_key := "spring"; cc_name := "Spring"; cc_draft := demo_draft |}.

Abbreviation after m w := (snd (m w)).

Abbreviation demo_zi := (cd_zoneinfo camp_deployment).
Abbreviation demo_dg := (cd_digest camp_deployment).

Definition c_consented1 : World := after (set_contact_preference demo_org (consent 51 61 true)) camp_world.
Definition c_consented : World := after (set_contact_preference demo_org (consent 52 62 true)) c_consented1.
Definition c_created : World := after (create_txn demo_org demo_create) c_consented.

Definition demo_campaign_id : uuid := 1002.

Definition c_preparing : World :=
  after (prepare_txn demo_dg (cd_canonical camp_deployment) (cd_canonical_audience camp_deployment) demo_org demo_campaign_id) c_created.
Definition demo_revision_id : uuid :=
  match cdb_revisions (db_campaign (w_db c_preparing)) with v :: _ => cv_id v | [] => 0%N end.
Definition c_resolved : World := after (materialize_txn demo_zi demo_dg demo_org demo_revision_id) c_preparing.
Definition c_ready : World := after (seal_txn demo_org demo_campaign_id demo_revision_id 2) c_resolved.

Definition c_started : World := after (start_run_txn demo_org demo_campaign_id "run-1") c_ready.
Definition demo_run_id : uuid :=
  match cdb_runs (db_campaign (w_db c_started)) with r :: _ => rn_id r | [] => 0%N end.
Definition c_released : World := after (set_release_txn demo_org demo_run_id 5000) c_started.
Definition c_active : World := after (activate_txn demo_org demo_run_id) c_released.
Definition c_running : World := after (materialize_attempts_txn demo_dg demo_org demo_run_id) c_active.

Definition no_run : CampaignRunRecord :=
  mkCampaignRun 0 0 0 0 0 CampaignRunState.FAILED EmptyString None None None 0 0 0 0 0 0 false 0 false 0 0.
Definition no_recipient : CampaignRecipientRecord :=
  mkRecipient 0 0 0 0 0 0 MessageChannel.SMS EmptyString RecipientState.CANCELLED EligibilityReason.CANCELLED None 0 0 0.
Definition no_attempt : CampaignRecipientAttemptRecord :=
  mkAttempt 0 0 0 0 EmptyString RecipientAttemptState.FAILED 0 None None None EmptyString None EmptyString None None 0 0.
Definition no_permit : CampaignSendPermitRecord :=
  mkPermit 0 0 0 SendPermitState.FAILED 0 0 0 EmptyString 0 None None.

Definition claim_of (r : result exn (option RecipientClaim) * World) : RecipientClaim :=
  match fst r with Ok (Some c) => c | _ => mkRecipientClaim no_run no_recipient no_attempt 0 0 end.
Definition permit_of (r : result exn (option CampaignSendPermitRecord * option EligibilityReason) * World)
    : CampaignSendPermitRecord :=
  match fst r with Ok (Some p, _) => p | _ => no_permit end.

(** The first recipient: claimed by worker 100, its workflow run, permit, message 900. *)
Definition demo_claiming1 := claim_recipient [] demo_org demo_run_id 100 c_running.
Definition demo_claim1 : RecipientClaim := claim_of demo_claiming1.
Definition c_claimed1 : World := snd demo_claiming1.
Definition c_workflow1 : World := after (workflow_started_txn demo_org demo_claim1 6001) c_claimed1.
Definition c_ready1 : World := after (workflow_completed_txn demo_org demo_claim1) c_workflow1.
Definition demo_authorized1 := authorize_txn demo_zi demo_org demo_claim1 c_ready1.
Definition demo_permit1 : CampaignSendPermitRecord := permit_of demo_authorized1.
Definition c_permitted1 : World := snd demo_authorized1.
Definition c_sent1 : World :=
  after (consume_txn demo_org demo_permit1 900 (cl_recipient demo_claim1) (cl_attempt demo_claim1)) c_permitted1.

(** The second recipient unsubscribes before the send is authorised. *)
Definition demo_claiming2 := claim_recipient [] demo_org demo_run_id 100 c_sent1.
Definition demo_claim2 : RecipientClaim := claim_of demo_claiming2.
Definition c_claimed2 : World := snd demo_claiming2.
Definition c_workflow2 : World := after (workflow_started_txn demo_org demo_claim2 6002) c_claimed2.
Definition c_ready2 : World := after (workflow_completed_txn demo_org demo_claim2) c_workflow2.
Definition c_unsubscribed : World := after (set_contact_preference demo_org (consent 52 62 false)) c_ready2.
Definition demo_authorized2 := authorize_txn demo_zi demo_org demo_claim2 c_unsubscribed.
Definition c_settled : World := snd demo_authorized2.

(** Cancelled instead, while the second recipient waits. *)
Definition c_cancelling : World := after (begin_cancel_txn demo_org demo_campaign_id) c_ready2.
Definition c_cancelled : World := after (cancel_batch_txn [] demo_org demo_campaign_id) c_cancelling.

Definition campaign_states (w : World) : list CampaignState := map cp_state (cdb_campaigns (db_campaign (w_db w))).
Definition run_states (w : World) : list CampaignRunState := map rn_state (cdb_runs (db_campaign (w_db w))).
Definition attempt_states (w : World) : list RecipientAttemptState := map ra_state (cdb_attempts (db_campaign (w_db w))).

(** The execution, computed. *)
Example campaign_execution :
  campaign_states c_ready = [CampaignState.READY] ∧
  campaign_states c_running = [CampaignState.RUNNING] ∧ run_states c_running = [CampaignRunState.RUNNING] ∧
  attempt_states c_running = [RecipientAttemptState.PENDING; RecipientAttemptState.PENDING] ∧
  attempt_states c_sent1 = [RecipientAttemptState.DISPATCHED; RecipientAttemptState.PENDING] ∧
  attempt_states c_settled = [RecipientAttemptState.DISPATCHED; RecipientAttemptState.SUPPRESSED] ∧
  campaign_states c_cancelled = [CampaignState.CANCELLED] ∧ run_states c_cancelled = [CampaignRunState.CANCELLED] ∧
  attempt_states c_cancelled = [RecipientAttemptState.DISPATCHED; RecipientAttemptState.CANCELLED].
Proof. vm_compute. split_and!; reflexivity. Qed.

(** ** The states are reachable *)

Abbreviation demo_reachable := (camp_reachable camp_deployment).
Abbreviation demo_camp_steps := (camp_steps camp_deployment).

Lemma demo_step w w' : camp_step camp_deployment demo_org w w' → demo_camp_steps w w'.
Proof. intros H. apply rtc_once. by exists demo_org. Qed.

Lemma revision_of_decided k c v :
  bool_decide (Forall (λ r, cv_id r = v → cv_campaign_id r = c) (k_revisions k)) = true → revision_of k c v.
Proof. intros H%bool_decide_eq_true. by rewrite Forall_forall in H. Qed.

Lemma genuine_decided k cl :
  bool_decide (Forall (λ a, ra_id a = ra_id (cl_attempt cl) → ra_campaign_run_id a = rn_id (cl_run cl)) (k_attempts k)) = true →
  genuine k cl.
Proof. intros H%bool_decide_eq_true. by rewrite Forall_forall in H. Qed.

Lemma c_preparing_reachable : demo_reachable c_preparing.
Proof.
  exists camp_world. split; [done|].
  etrans; [exact (demo_step _ c_consented1 (ct_preference _ _ camp_world (consent 51 61 true)))|].
  etrans; [exact (demo_step _ c_consented (ct_preference _ _ c_consented1 (consent 52 62 true)))|].
  etrans; [exact (demo_step _ c_created (ct_create _ _ c_consented demo_create))|].
  exact (demo_step _ c_preparing (ct_prepare _ _ c_created demo_campaign_id)).
Qed.

Lemma c_resolved_reachable : demo_reachable c_resolved.
Proof.
  eapply camp_reachable_steps; [apply c_preparing_reachable|].
  exact (demo_step _ c_resolved (ct_materialize _ _ c_preparing demo_revision_id)).
Qed.

Lemma c_ready_revision : revision_of (core_of c_resolved) demo_campaign_id demo_revision_id.
Proof. apply revision_of_decided. vm_compute. reflexivity. Qed.

Lemma c_running_steps : demo_camp_steps c_resolved c_running.
Proof.
  etrans; [exact (demo_step _ c_ready (ct_seal _ _ _ demo_campaign_id demo_revision_id 2 c_ready_revision))|].
  etrans; [exact (demo_step _ c_started (ct_start_run _ _ c_ready demo_campaign_id "run-1"))|].
  etrans; [exact (demo_step _ c_released (ct_set_release _ _ c_started demo_run_id 5000))|].
  etrans; [exact (demo_step _ c_active (ct_activate _ _ c_released demo_run_id))|].
  exact (demo_step _ c_running (ct_materialize_attempts _ _ c_active demo_run_id)).
Qed.

Lemma c_running_reachable : demo_reachable c_running.
Proof. eapply camp_reachable_steps; [apply c_resolved_reachable|apply c_running_steps]. Qed.

Lemma c_ready1_steps : demo_camp_steps c_running c_ready1.
Proof.
  etrans; [exact (demo_step _ c_claimed1 (ct_claim _ _ c_running [] demo_run_id 100))|].
  etrans; [exact (demo_step _ c_workflow1 (ct_workflow_started _ _ c_claimed1 demo_claim1 6001))|].
  exact (demo_step _ c_ready1 (ct_workflow_completed _ _ c_workflow1 demo_claim1)).
Qed.

Lemma c_ready1_reachable : demo_reachable c_ready1.
Proof. eapply camp_reachable_steps; [apply c_running_reachable|apply c_ready1_steps]. Qed.

Lemma demo_claim1_genuine : genuine (core_of c_ready1) demo_claim1.
Proof. apply genuine_decided. vm_compute. reflexivity. Qed.

Lemma c_sent1_steps : demo_camp_steps c_ready1 c_sent1.
Proof.
  etrans; [exact (demo_step _ c_permitted1 (ct_authorize _ _ c_ready1 demo_claim1 demo_claim1_genuine))|].
  exact (demo_step _ c_sent1 (ct_consume _ _ c_permitted1 demo_permit1 900 (cl_recipient demo_claim1) (cl_attempt demo_claim1))).
Qed.

Lemma c_sent1_reachable : demo_reachable c_sent1.
Proof. eapply camp_reachable_steps; [apply c_ready1_reachable|apply c_sent1_steps]. Qed.

Lemma c_ready2_steps : demo_camp_steps c_sent1 c_ready2.
Proof.
  etrans; [exact (demo_step _ c_claimed2 (ct_claim _ _ c_sent1 [] demo_run_id 100))|].
  etrans; [exact (demo_step _ c_workflow2 (ct_workflow_started _ _ c_claimed2 demo_claim2 6002))|].
  exact (demo_step _ c_ready2 (ct_workflow_completed _ _ c_workflow2 demo_claim2)).
Qed.

Lemma c_ready2_reachable : demo_reachable c_ready2.
Proof. eapply camp_reachable_steps; [apply c_sent1_reachable|apply c_ready2_steps]. Qed.

Lemma demo_claim2_genuine : genuine (core_of c_unsubscribed) demo_claim2.
Proof. apply genuine_decided. vm_compute. reflexivity. Qed.

Lemma c_settled_reachable : demo_reachable c_settled.
Proof.
  eapply camp_reachable_steps; [apply c_ready2_reachable|].
  etrans; [exact (demo_step _ c_unsubscribed (ct_preference _ _ c_ready2 (consent 52 62 false)))|].
  exact (demo_step _ c_settled (ct_authorize _ _ c_unsubscribed demo_claim2 demo_claim2_genuine)).
Qed.

Lemma c_cancelling_reachable : demo_reachable c_cancelling.
Proof.
  eapply camp_reachable_steps; [apply c_ready2_reachable|].
  exact (demo_step _ c_cancelling (ct_begin_cancel _ _ c_ready2 demo_campaign_id)).
Qed.

Lemma c_cancelled_steps : demo_camp_steps c_cancelling c_cancelled.
Proof. exact (demo_step _ c_cancelled (ct_cancel_batch _ _ c_cancelling [] demo_campaign_id)). Qed.
