(* ===== verification/CampaignSafety.v ===== *)
(** * CampaignSafety: what holds in every reachable state of campaigns

    The refinement of the specification, the consistency of the tables, that a
    customer is contacted once per campaign, that a stopped campaign stays silent,
    that the limits hold and that a consumed permit is replayed. *)

From S2P Require Import Prelude.
From S2P Require Import PyText.
From S2P Require Import Errors.
From S2P Require Import Lifecycles.
From S2P Require Import Recurrence.
From S2P Require Import MessagingStore.
From S2P Require Import CustomerStore.
From S2P Require Import CampaignStore.
From S2P Require Import Store.
From S2P Require Import StoreLemmas.
From S2P Require Import Tables.
From S2P Require Import WorkflowDemo.
From S2P Require Import CampaignRepository.
From S2P Require Import CampaignService.
From S2P Require Import CampaignSpec.
From S2P Require Import CampaignEffects.
From S2P Require Import CampaignOps.
From S2P Require Import CampaignSends.
From S2P Require Import CampaignSystem.
From S2P Require Import CampaignTrace.
From S2P Require Import CampaignDemo.

Section safety.
Context (dep : CampaignDeployment).

Abbreviation reachable := (camp_reachable dep).
Abbreviation steps := (camp_steps dep).

(** ** Refinement *)

(** A claim names the run of its attempt when it is handed out, and from then on. *)
Lemma handed_claim_genuine locked org run owner w cl w1 w2 :
  winv w → claim_recipient locked org run owner w = (Ok (Some cl), w1) → steps w1 w2 → genuine (core_of w2) cl.
Proof.
  intros HI H Hs. assert (Hs0 : steps w w2).
  { eapply rtc_l; [|exact Hs]. exists org. pose proof (ct_claim dep org w locked run owner) as Hc. by rewrite H in Hc. }
  assert (∃ a, a ∈ k_attempts (core_of w) ∧ ra_id a = ra_id (cl_attempt cl) ∧ ra_campaign_run_id a = rn_id (cl_run cl))
    as (a & Ha & Ei & Er).
  { apply txn_committed in H. ran H as u w3 H3. apply ran_guard in H3 as ->. set (w0 := set_w_txn_now _ _) in *.
    change (core_of w) with (core_of w0). ran H as oc w4 H4. ran H as u5 w5 H5. injection H as -> _.
    unfold CampaignRepository.claim_recipient in H4. read H4.
    destruct (List.find _ (cdb_runs _)) as [r|] eqn:Hr; [|done]. apply found_run_row in Hr as (_ & _ & Hri).
    destruct (negb _); [done|]. read H4. destruct (negb _); [done|]. ran H4 as now w6 H6. injection H6 as _ <-. read H4.
    destruct (by_creation _ _ _) as [|a l] eqn:Hcand; [done|].
    assert (Ha : a ∈ a :: l) by constructor. rewrite <- Hcand in Ha. unfold by_creation in Ha.
    rewrite merge_sort_Permutation in Ha. apply elem_of_filterb in Ha as [Ha Hc].
    apply andb_true_iff in Hc as [Hc _]. unfold claimable in Hc. rewrite !andb_true_iff, !N.eqb_eq in Hc.
    destruct Hc as [[[_ Har] _] _]. ran H4 as tok w7 H7. ran H4 as u8 w8 H8. ran H4 as rc w9 H9. ran H4 as u10 w10 H10.
    ran H4 as r' w11 H11. apply ran_put_run in H11 as ((t & ->) & _). ran H4 as a' w12 H12.
    apply ran_put_attempt in H12 as ((t' & ->) & _). injection H4 as <- _. exists a. simpl. by rewrite Hri. }
  pose proof (steps_later _ _ _ HI Hs0) as HL. pose proof (steps_winv dep _ _ HI Hs0) as HI2.
  destruct (cl_attempts _ _ HL a Ha) as (a2 & Ha2 & [Hid _]). unfold attempt_ident in Hid.
  intros b Hb Eb. assert (b = a2) as -> by (eapply (keyed_inj ra_id); [apply HI2|done..|congruence]). congruence.
Qed.

(** The revision a preparation returns is one of its campaign, and stays so. *)
Lemma prepared_revision_of org id w v s w1 w2 :
  winv w → prepare_txn (cd_digest dep) (cd_canonical dep) (cd_canonical_audience dep) org id w = (Ok (v, s), w1) →
  steps w1 w2 → revision_of (core_of w2) id (cv_id v).
Proof.
  intros HI H Hs. assert (Hs1 : steps w w1).
  { apply rtc_once. exists org. pose proof (ct_prepare dep org w id) as Hc. by rewrite H in Hc. }
  assert (v ∈ k_revisions (core_of w1) ∧ cv_campaign_id v = id) as [Hv Ev].
  { apply txn_committed in H. ran H as row w3 H3. apply ran_found_campaign in H3 as (-> & _ & _ & Eid).
    destruct (cp_state row); try done.
    - unfold begin_preparation in H. ran H as u w4 H4. injection H4 as _ <-. read H. ran H as vid w5 H5. ran H as sid w6 H6.
      ran H as row' w7 H7. read H. destruct (violates_revision_number _ _); [done|]. ran H as u8 w8 H8.
      apply ran_cmodify in H8 as [E8 _]. ran H as u9 w9 H9. quiet H9. destruct H9 as [E9 _]. read H.
      destruct (violates_snapshot_revision _ _); [done|]. ran H as u10 w10 H10. apply ran_cmodify in H10 as [E10 _].
      injection H as <- _ <-. split; [|done].
      change (core (set_cdb_snapshots ?l (db_campaign (w_db w9)))) with (with_snapshots l (core_of w9)) in E10.
      rewrite E10. change (k_revisions (with_snapshots _ ?k)) with (k_revisions k). rewrite E9, E8. apply elem_of_app. right. by left.
    - unfold active_preparation in H. read H. destruct (List.find _ _) as [x|] eqn:Hx; [|done]. apply find_elem in Hx as [Hx Hp].
      unfold snapshot_row in H. read H. destruct (List.find _ _) as [y|]; [|done]. destruct (negb _); [done|].
      injection H as <- _ <-. split; [exact Hx|]. rewrite !andb_true_iff, !N.eqb_eq in Hp. destruct Hp as [[_ ->] _]. done. }
  pose proof (steps_winv dep _ _ HI Hs1) as HI1. pose proof (steps_winv dep _ _ HI1 Hs) as HI2.
  destruct (cl_revisions _ _ (steps_later _ _ _ HI1 Hs) v Hv) as (v2 & Hv2 & <-).
  intros x Hx Ex. by assert (x = v) as -> by (eapply (keyed_inj cv_id); [apply HI2|done..]).
Qed.

(** C7. Every transaction of the campaign service implements the abstract
    specification: from a reachable state, and whether the transaction commits or rolls
    back, the campaign tables change by a sequence of the effects the specification
    allows, and the UUID supply only advances. The arguments are arbitrary but for two:
    a preparation is sealed with a revision of its own campaign, and a permit is asked
    for with a claim that names the run of its attempt, which [authorize_permit] itself
    does not check. The service passes no others: the revision that [prepare_campaign]
    seals is one its preparation returned, claims come from [claim_recipient], and what
    those two return meets the conditions in every later state. *)
Theorem campaigns_refine_spec w :
  reachable w →
  (∀ org w', camp_step dep org w w' → esteps org (spec_of w) (spec_of w')) ∧
  (∀ org id v s w1 w2,
     prepare_txn (cd_digest dep) (cd_canonical dep) (cd_canonical_audience dep) org id w = (Ok (v, s), w1) →
     steps w1 w2 → revision_of (core_of w2) id (cv_id v)) ∧
  (∀ locked org run owner cl w1 w2,
     claim_recipient locked org run owner w = (Ok (Some cl), w1) → steps w1 w2 → genuine (core_of w2) cl).
Proof.
  intros HI%camp_reachable_inv. split_and!.
  - intros org w'. by apply camp_step_refines.
  - intros. by eapply prepared_revision_of.
  - intros. by eapply handed_claim_genuine.
Qed.

(** ** The invariant *)

(** C26. The campaign tables are consistent in every reachable state: the counters of a
    run are the numbers of its attempts that were claimed, authorised, dispatched,
    suppressed and cancelled; a permit exists exactly for the attempts in
    DISPATCH_AUTHORIZED and DISPATCHED, carries the idempotency key of its attempt and
    is CONSUMED exactly when the attempt is DISPATCHED, with the same message; a
    completed run has no unsettled attempt; a materialised run has an attempt for
    every recipient that may be sent to; of the runs of a campaign at most one
    materialises, has materialised or has attempts. *)
Theorem campaign_invariant w :
  reachable w →
  let k := core_of w in
  (∀ r, r ∈ k_runs k → run_counts r = tally k r) ∧
  (∀ a, a ∈ k_attempts k → permitted a = true ↔ ∃ p, p ∈ k_permits k ∧ pm_recipient_attempt_id p = ra_id a) ∧
  (∀ p, p ∈ k_permits k → ∃ a, a ∈ k_attempts k ∧ ra_id a = pm_recipient_attempt_id p ∧ permit_matches p a) ∧
  (∀ r a, r ∈ k_runs k → rn_state r = CampaignRunState.COMPLETED → a ∈ attempts_of k r → settled a = true) ∧
  (∀ r, r ∈ k_runs k → rn_attempt_materialization_complete r = true → complete_ok k r) ∧
  (∀ r1 r2, r1 ∈ k_runs k → r2 ∈ k_runs k → rn_campaign_id r1 = rn_campaign_id r2 → active k r1 → active k r2 → r1 = r2).
Proof.
  intros HI%camp_reachable_inv k. unfold winv in HI. fold k in HI. split_and!; try apply HI.
  - intros a Ha. split; [by apply HI|]. intros (p & Hp & E).
    destruct (ki_permit_ref _ _ HI p Hp) as (b & Hb & Eb & _ & _ & _ & Hm).
    assert (b = a) as -> by (eapply (keyed_inj ra_id); [apply HI|done..|congruence]).
    unfold permitted. by destruct Hm as [(_ & -> & _)|(_ & -> & _)].
  - intros p Hp. destruct (ki_permit_ref _ _ HI p Hp) as (a & ? & ? & _ & ?). by exists a.
  - intros r a Hr Hs. by apply (ki_completed _ _ HI).
Qed.

(** C27. Every row is well formed: the audience of a snapshot has been resolved up to
    its cursor and in order, with [eligible + rejected = resolved = cursor], and
    completely once it is sealed; a pending attempt has no claim token and an attempt
    without a permit no message; an authorised permit has no message and a consumed
    one has one; every run refers to a campaign, a revision of that campaign and the
    sealed snapshot of that revision, all of its own organisation. *)
Theorem campaign_rows_well_formed w :
  reachable w →
  let k := core_of w in
  (∀ s, s ∈ k_snapshots k → snapshot_ok k s) ∧ (∀ a, a ∈ k_attempts k → attempt_ok a) ∧
  (∀ p, p ∈ k_permits k →
     pm_state p = SendPermitState.AUTHORIZED ∧ pm_message_id p = None ∨
     pm_state p = SendPermitState.CONSUMED ∧ is_Some (pm_message_id p)) ∧
  (∀ r, r ∈ k_runs k → run_refers k r).
Proof.
  intros HI%camp_reachable_inv k. unfold winv in HI. fold k in HI. split_and!; try apply HI.
  intros p Hp. destruct (ki_permit_ref _ _ HI p Hp) as (a & _ & _ & _ & _ & _ & [(? & _ & ?)|(? & _ & ?)]); auto.
Qed.

(** ** One contact per customer *)

(** Permit [p] allows a message of campaign [c] to customer [cu] over channel [ch]. *)
Definition contacts (k : Core) (p : CampaignSendPermitRecord) (c cu : uuid) (ch : MessageChannel) : Prop :=
  p ∈ k_permits k ∧ ∃ a r rc, a ∈ k_attempts k ∧ r ∈ k_runs k ∧ rc ∈ k_recipients k ∧
    ra_id a = pm_recipient_attempt_id p ∧ rn_id r = ra_campaign_run_id a ∧ rc_id rc = ra_recipient_id a ∧
    rn_campaign_id r = c ∧ rc_customer_id rc = cu ∧ rc_channel rc = ch.

(** C8. A campaign contacts a customer over a channel at most once: over all runs of
    the campaign, all retries and interleavings, at most one send permit is ever
    issued for the customer; and no two attempts of an organization share the
    idempotency key under which the message is sent. *)
Theorem recipient_contacted_once w :
  reachable w →
  (∀ p1 p2 c cu ch, contacts (core_of w) p1 c cu ch → contacts (core_of w) p2 c cu ch → p1 = p2) ∧
  (∀ a1 a2, a1 ∈ k_attempts (core_of w) → a2 ∈ k_attempts (core_of w) →
     ra_organization_id a1 = ra_organization_id a2 → ra_p09_idempotency_key a1 = ra_p09_idempotency_key a2 → a1 = a2).
Proof.
  intros HI%camp_reachable_inv. split.
  2: { intros a1 a2 H1 H2 Eo Ek. apply (NoDup_map_inj _ _ _ _ (ki_attempt_key _ _ HI)); [done..|]. by rewrite Eo, Ek. }
  intros p1 p2 c cu ch (Hp1 & a1 & r1 & rc1 & Ha1 & Hr1 & Hc1 & E1 & F1 & G1 & <- & <- & <-)
    (Hp2 & a2 & r2 & rc2 & Ha2 & Hr2 & Hc2 & E2 & F2 & G2 & Ec & Ecu & Ech). unfold winv in HI.
  assert (r2 = r1) as ->.
  { apply (ki_one_active _ _ HI); [done..| |]; right; right; [by exists a2|by exists a1]. }
  assert (rc2 = rc1) as ->.
  { apply (NoDup_map_inj _ _ _ _ (ki_recipient_unique _ _ HI)); [done..|].
    destruct (ki_attempt_ref _ _ HI a1 Ha1) as (r & rc & Hr & Hrc & I1 & _ & I2 & _ & I3).
    destruct (ki_attempt_ref _ _ HI a2 Ha2) as (r' & rc' & Hr' & Hrc' & J1 & _ & J2 & _ & J3).
    assert (r = r1) as -> by (eapply (keyed_inj rn_id); [apply HI|done..|congruence]).
    assert (r' = r1) as -> by (eapply (keyed_inj rn_id); [apply HI|done..|congruence]).
    assert (rc = rc1) as -> by (eapply (keyed_inj rc_id); [apply HI|done..|congruence]).
    assert (rc' = rc2) as -> by (eapply (keyed_inj rc_id); [apply HI|done..|congruence]). congruence. }
  assert (a2 = a1) as ->.
  { apply (NoDup_map_inj _ _ _ _ (ki_attempt_unique _ _ HI)); [done..|]. congruence. }
  apply (NoDup_map_inj _ _ _ _ (ki_permit_unique _ _ HI)); [done..|congruence].
Qed.

(** ** A stopped campaign *)

(** C12. Once a campaign is being cancelled, or is cancelled, completed or failed, it
    stays in those states whatever happens, no recipient of any of its runs is claimed
    any more and no send permit is issued: every claim and every permit that a later
    state shows was there already. *)
Theorem stopped_campaign_is_silent w w' p :
  reachable w → steps w w' → p ∈ k_campaigns (core_of w) → stopped (cp_state p) = true →
  (∃ p', p' ∈ k_campaigns (core_of w') ∧ cp_id p' = cp_id p ∧ stopped (cp_state p') = true ∧
         (cp_state p = CampaignState.CANCELLING → cp_state p' ∈ [CampaignState.CANCELLING; CampaignState.CANCELLED])) ∧
  nothing_new (cp_id p) (core_of w) (core_of w').
Proof.
  intros HI%camp_reachable_inv Hs Hp Hst.
  destruct (steps_trace dep (cp_id p) w w' HI Hs) as (_ & HL & HN); [by eexists|]. split; [|apply HN; by exists p].
  destruct (cl_campaigns _ _ HL p Hp) as (p' & Hp' & [(E & _) Hl]). exists p'. split; [done|]. split; [done|].
  split; [by eapply stopped_legal|]. intros Hc. rewrite Hc in Hl. clear -Hl.
  assert (Hinv : ∀ s t : CampaignState, rtc legal s t → s ∈ [CampaignState.CANCELLING; CampaignState.CANCELLED] →
    t ∈ [CampaignState.CANCELLING; CampaignState.CANCELLED]).
  { intros s t H. induction H as [|s1 s2 s3 H _ IH]; [done|]. intros Hin. apply IH. revert H Hin. unfold legal.
    destruct s1; simpl; set_solver. }
  eapply Hinv; [exact Hl|]. set_solver.
Qed.

(** ** Limits *)

(** The number of messages a run was allowed to send is its counter, and never
    exceeds the campaign limit of the revision it executes. *)
Theorem campaign_limit_respected w r v :
  reachable w → r ∈ k_runs (core_of w) → v ∈ k_revisions (core_of w) → cv_id v = rn_campaign_revision_id r →
  countb permitted (attempts_of (core_of w) r) = rn_authorized_count r ∧
  0 ≤ rn_authorized_count r ≤ Z.max 0 (campaign_limit v).
Proof.
  intros Hreach Hr Hv Ev. pose proof (camp_reachable_inv _ _ Hreach) as HI. unfold winv in HI.
  pose proof (ki_counts _ _ HI r Hr) as Hc. unfold run_counts, tally in Hc. injection Hc as _ _ _ Hc _.
  split; [done|]. split; [rewrite Hc; apply countb_nonneg|].
  destruct (reachable_limits _ _ Hreach r Hr) as (v' & Hv' & Ev' & Hle).
  assert (v' = v) as -> by (eapply (keyed_inj cv_id); [apply HI|done..|congruence]). done.
Qed.

(** ** Replays *)

Lemma find_keyed {A} (key org_of : A → uuid) n l x (q : A → bool) :
  keyed key n l → x ∈ l → (∀ y, q y = N.eqb (org_of y) (org_of x) && N.eqb (key y) (key x)) → List.find q l = Some x.
Proof.
  intros Hl Hx Hq. destruct (List.find q l) as [y|] eqn:Hf.
  - apply find_elem in Hf as [Hy Hqy]. rewrite Hq in Hqy. apply andb_true_iff in Hqy as [_ E%N.eqb_eq].
    f_equal. by eapply keyed_inj.
  - apply (find_none_elem _ _ x) in Hf; [|done]. by rewrite Hq, !N.eqb_refl in Hf.
Qed.

(** The rows [dispatch_context] reads are there. *)
Lemma dispatch_context_found w p :
  winv w → p ∈ k_permits (core_of w) → ∃ spec rc a,
    dispatch_context (pm_organization_id p) (pm_id p) w = (Ok (p, spec, rc, a), w).
Proof.
  intros HI Hp. unfold winv in HI. destruct (ki_permit_ref _ _ HI p Hp) as (a & Ha & Ea & Eo & _).
  destruct (ki_attempt_ref _ _ HI a Ha) as (r & rc & Hr & Hrc & Er & Ero & Erc & Erco & _).
  destruct (ki_run_ref _ _ HI r Hr) as (_ & v & _ & _ & Hv & _ & _ & _ & Ev & Evo & _).
  exists (cv_specification v), rc, a. unfold dispatch_context, permit_row, attempt_one, recipient_one, run_row, revision_row, cgets, gets, lift, mbind, M_bind.
  change (cdb_permits (db_campaign (w_db w))) with (k_permits (core_of w)).
  rewrite (find_keyed pm_id pm_organization_id _ _ p _ (ki_permits _ _ HI) Hp) by done. cbv beta iota.
  change (cdb_attempts (db_campaign (w_db w))) with (k_attempts (core_of w)).
  rewrite (find_keyed ra_id ra_organization_id _ _ a _ (ki_attempts _ _ HI) Ha) by (intros; unfold is_attempt; by rewrite Ea, Eo).
  cbv beta iota. simpl of_option. cbv beta iota.
  change (cdb_recipients (db_campaign (w_db w))) with (k_recipients (core_of w)).
  rewrite (find_keyed rc_id rc_organization_id _ _ rc _ (ki_recipients _ _ HI) Hrc) by (intros; unfold is_recipient; by rewrite Erc, Erco, Eo).
  cbv beta iota. simpl of_option. cbv beta iota.
  change (cdb_runs (db_campaign (w_db w))) with (k_runs (core_of w)).
  rewrite (find_keyed rn_id rn_organization_id _ _ r _ (ki_runs _ _ HI) Hr) by (intros; unfold is_run; by rewrite Er, Ero, Eo).
  cbv beta iota.
  change (cdb_revisions (db_campaign (w_db w))) with (k_revisions (core_of w)).
  rewrite (find_keyed cv_id cv_organization_id _ _ v _ (ki_revisions _ _ HI) Hv) by (intros; unfold is_revision; by rewrite Ev, Evo, Ero, Eo).
  done.
Qed.

(** A message is sent once: after a permit has been consumed, dispatching it again,
    in any later state, returns the same permit with the same message and changes
    nothing, whatever the messaging service would have done; it is not called. *)
Theorem dispatch_replays_consumed dg messaging_send w w' p :
  reachable w → steps w w' → p ∈ k_permits (core_of w) → pm_state p = SendPermitState.CONSUMED →
  let r := dispatch_send dg messaging_send (pm_organization_id p) (pm_id p) w' in
  fst r = Ok p ∧ w_db (snd r) = w_db w'.
Proof.
  intros Hr Hs Hp Hc r. pose proof (camp_reachable_inv _ _ (camp_reachable_steps _ _ _ Hr Hs)) as HI'.
  destruct (cl_permits _ _ (steps_later _ _ _ (camp_reachable_inv _ _ Hr) Hs) p Hp) as (p' & Hp' & [_ E]).
  rewrite (E Hc) in Hp'. clear E p'.
  set (w1 := set_w_txn_now (w_clock w' (w_reads w')) (set_w_reads (S (w_reads w')) w')).
  destruct (dispatch_context_found w1 p HI' Hp') as (spec & rc & a & Ed).
  assert (Er : r = (Ok p, w1)); [|by rewrite Er]. subst r.
  unfold dispatch_send, send_context_txn, tenant_transaction, mbind, M_bind. fold w1. rewrite Ed. simpl. by rewrite Hc.
Qed.

(** ** Consent *)

(** The member may be contacted now: customer, identity and conversation are usable for
    the channel, the consent on record is affirmative, nothing suppresses the member
    and the local time is outside the quiet hours. *)
Record may_contact (zi : string → option ZoneInfo) (w : World) (org c cu ident conv : uuid)
    (ch : MessageChannel) (quiet : QuietHoursPolicy) (consent_epoch now : Z) : Prop := {
  mc_customer : ∃ r, customer_of org cu (db_customer (w_db w)) = Some r ∧ cu_status r = "ACTIVE";
  mc_identity : ∃ i, identity_of org cu ident (db_customer (w_db w)) = Some i ∧
    ci_status i = "ACTIVE" ∧ ci_identity_type i = expected_identity ch;
  mc_conversation : ∃ v, conversation_of org cu conv (db_customer (w_db w)) = Some v ∧
    cn_status v ≠ "CLOSED" ∧ upper (cn_channel v) = channel_value ch;
  mc_consent : ∃ p, preference_of org ident ch (db_campaign (w_db w)) = Some p ∧
    pf_consent_granted p = true ∧ pf_unsubscribed p = false ∧ pf_do_not_contact p = false ∧
    pf_consent_epoch p = consent_epoch;
  mc_suppressed : ∀ s, s ∈ cdb_suppressions (db_campaign (w_db w)) → suppresses org c cu ident ch s = false;
  mc_quiet : quiet_hours_next zi now quiet = Ok None;
}.

Lemma contact_verdict_none ch cu i v p :
  contact_verdict ch cu i v p = None ↔
  (∃ r, cu = Some r ∧ cu_status r = "ACTIVE") ∧
  (∃ r, i = Some r ∧ ci_status r = "ACTIVE" ∧ ci_identity_type r = expected_identity ch) ∧
  (∃ r, v = Some r ∧ cn_status r ≠ "CLOSED" ∧ upper (cn_channel r) = channel_value ch) ∧
  (∃ r, p = Some r ∧ pf_consent_granted r = true ∧ pf_unsubscribed r = false ∧ pf_do_not_contact r = false).
Proof.
  unfold contact_verdict. split.
  - destruct cu as [c|]; [|done]. destruct (String.eqb_spec (cu_status c) "ACTIVE"); [|done]. simpl.
    destruct i as [x'|]; [|done]. destruct (String.eqb_spec (ci_status x') "ACTIVE"); [|done].
    destruct (String.eqb_spec (ci_identity_type x') (expected_identity ch)); [|done]. simpl.
    destruct v as [y|]; [|done]. destruct (String.eqb_spec (cn_status y) "CLOSED"); [done|].
    destruct (String.eqb_spec (upper (cn_channel y)) (channel_value ch)); [|done]. simpl.
    destruct p as [q|]; [|done]. destruct (pf_unsubscribed q) eqn:?, (pf_do_not_contact q) eqn:?, (pf_consent_granted q) eqn:?; try done.
    intros _. split_and!; eauto 6.
  - intros ((c0 & -> & E1) & (i0 & -> & E2 & E3) & (v0 & -> & H1 & H2) & (q & -> & H3 & H4 & H5)).
    rewrite E1, E2, E3, H2, H3, H4, H5, !String.eqb_refl, (proj2 (String.eqb_neq _ _) H1). done.
Qed.

Lemma contact_verdict_rejects ch cu i v p : contact_verdict ch cu i v p ≠ Some EligibilityReason.ELIGIBLE.
Proof. unfold contact_verdict. intros H. repeat (simplify_eq || case_match). Qed.

Lemma ran_policy_epoch org ch w e w' :
  policy_epoch org ch w = (Ok e, w') →
  db_customer (w_db w') = db_customer (w_db w) ∧
  (∀ i c, preference_of org i c (db_campaign (w_db w')) = preference_of org i c (db_campaign (w_db w))) ∧
  cdb_suppressions (db_campaign (w_db w')) = cdb_suppressions (db_campaign (w_db w)) ∧
  w_clock w' (w_reads w') = w_clock w (w_reads w).
Proof.
  intros H. unfold policy_epoch in H. read H. destruct (List.find _ _); [by injection H as _ <-|].
  ran H as id w1 H1. injection H1 as _ <-. read H. ran H as u w2 H2. injection H2 as _ <-. by injection H as _ <-.
Qed.

(** [eligibility] says ELIGIBLE exactly when the member may be contacted at the time the
    clock is read. *)
Lemma eligibility_spec zi org c cu ident conv ch quiet w el w' :
  eligibility zi org c cu ident conv ch quiet w = (Ok el, w') →
  el_reason el = EligibilityReason.ELIGIBLE ↔
  may_contact zi w org c cu ident conv ch quiet (el_consent_epoch el) (w_clock w (w_reads w)).
Proof.
  intros H. unfold eligibility in H. read H. ran H as e w1 H1. apply ran_policy_epoch in H1 as (Ep & Epf & Es & Et).
  read H. rewrite Epf in H. set (cv := contact_verdict _ _ _ _ _) in *.
  destruct cv as [reason|] eqn:Hcv.
  - injection H as <- <-. split.
    + simpl. intros ->. by apply contact_verdict_rejects in Hcv.
    + intros [? ? ? (p & Hp & ? & ? & ? & _) _ _]. exfalso. enough (cv = None) by congruence.
      apply contact_verdict_none. split_and!; try done. by exists p.
  - apply contact_verdict_none in Hcv as (C1 & C2 & C3 & (p & Hp & C4)). read H. rewrite Es in H.
    destruct (List.find _ (cdb_suppressions _)) as [s|] eqn:Hs.
    + injection H as <- <-. split; [simpl; case_bool_decide; done|]. intros [_ _ _ _ Hno _]. exfalso.
      apply find_elem in Hs as [Hin Hsup]. by rewrite (Hno s Hin) in Hsup.
    + ran H as now w2 H2. injection H2 as Hnow <-. rewrite Et in Hnow. ran H as next w3 H3. injection H3 as Hq <-.
      assert (Hsup : ∀ s, s ∈ cdb_suppressions (db_campaign (w_db w)) → suppresses org c cu ident ch s = false).
      { intros s Hin. by eapply find_none_elem. }
      destruct next as [t|]; injection H as <- <-; simpl; rewrite Hp.
      * split; [done|]. intros [_ _ _ _ _ Hq']. congruence.
      * split; [|done]. intros _. split; try done; [exists p; naive_solver|congruence].
Qed.

Lemma may_contact_db zi w w' org c cu i v ch q e now :
  w_db w' = w_db w → may_contact zi w' org c cu i v ch q e now → may_contact zi w org c cu i v ch q e now.
Proof. intros E []. rewrite E in *. by split. Qed.

Lemma ran_grant org r a el w p w' :
  grant org r a el w = (Ok p, w') →
  pm_recipient_attempt_id p = ra_id a ∧ pm_p09_idempotency_key p = ra_p09_idempotency_key a ∧
  pm_consent_epoch p = el_consent_epoch el ∧ pm_state p = SendPermitState.AUTHORIZED ∧ (w_next_uuid w ≤ pm_id p)%N.
Proof.
  intros H. unfold grant in H. ran H as now w1 H1. injection H1 as _ <-. ran H as id w2 H2. injection H2 as E <-.
  ran H as tok w3 H3. read H. destruct (existsb _ _); [done|]. ran H as u4 w4 H4. ran H as u5 w5 H5. ran H as u6 w6 H6.
  ran H as u7 w7 H7. ran H as u8 w8 H8. ran H as u9 w9 H9. injection H as <- _. simpl in *. subst id. done.
Qed.

(** C11. A message is authorised only with consent: when [authorize_send] issues a permit,
    the claim still held the attempt in READY_TO_SEND, the run and its campaign were
    RUNNING, and at that moment the customer, the identity and the conversation were
    usable for the channel, the latest preference granted consent (its epoch is
    recorded in the permit) and was neither an unsubscription nor a do-not-contact, no
    active suppression applied and it was not quiet hours; the permit is new and
    carries the idempotency key of the attempt. *)
Theorem permit_needs_consent zi org cl w pm w' :
  reachable w → authorize_txn zi org cl w = (Ok (Some pm, None), w') →
  ∃ a rc r v, a ∈ k_attempts (core_of w) ∧ rc ∈ k_recipients (core_of w) ∧ r ∈ k_runs (core_of w) ∧
    v ∈ k_revisions (core_of w) ∧
    holds_attempt cl RecipientAttemptState.READY_TO_SEND a = true ∧ rc_id rc = ra_recipient_id a ∧
    rn_id r = rn_id (cl_run cl) ∧ running (core_of w) r ∧ cv_id v = rn_campaign_revision_id r ∧
    may_contact zi w org (rn_campaign_id r) (rc_customer_id rc) (rc_identity_id rc) (rc_conversation_id rc)
      (rc_channel rc) (cd_quiet_hours (cv_specification v)) (pm_consent_epoch pm) (w_clock w (S (w_reads w))) ∧
    pm_recipient_attempt_id pm = ra_id a ∧ pm_p09_idempotency_key pm = ra_p09_idempotency_key a ∧
    pm_state pm = SendPermitState.AUTHORIZED ∧ pm ∉ k_permits (core_of w).
Proof.
  intros HI%camp_reachable_inv H. unfold winv in HI. apply txn_committed in H.
  ran H as u w1 H1. apply ran_guard in H1 as ->. set (w0 := set_w_txn_now _ _) in *.
  change (core_of w) with (core_of w0) in *. change (w_next_uuid w) with (w_next_uuid w0) in HI.
  unfold authorize_permit in H. read H.
  destruct (List.find _ (cdb_runs _)) as [r|] eqn:Hr; [|done]. apply found_run_row in Hr as (Hr & Hro & Hri).
  destruct (negb _) eqn:Hst; [done|]. booleans. read H. destruct (List.find _ (cdb_campaigns _)) as [p|] eqn:Hp; [|done].
  apply found_campaign_row in Hp as (Hp & _ & Hpi). destruct (negb _) eqn:Hps; [done|]. booleans.
  ran H as a w2 H2. pose proof H2 as H2'. unfold owned_attempt in H2'. read H2'.
  destruct (List.find _ (cdb_attempts _)) as [a'|]; [|done]. destruct (holds_attempt _ _ a') eqn:Hh; [|done].
  injection H2' as -> _. apply ran_owned_attempt in H2 as (-> & Ha & Hao & Hai & Has & _).
  ran H as rc w3 H3. apply ran_recipient_one in H3 as (-> & Hrc & Hrco & Hrci). read H.
  destruct (List.find _ (cdb_revisions _)) as [v|] eqn:Hv; [|done]. apply found_revision_row in Hv as (Hv & _ & Hvi).
  ran H as el w4 H4. pose proof (eligibility_spec _ _ _ _ _ _ _ _ _ _ _ H4) as Hel. quiet H4. destruct H4 as [E4 N4].
  destruct (negb _) eqn:Hre; [ran H as ud w5 H5; done|]. booleans. apply Hel in Hre.
  ran H as u5 w5 H5. quiet H5. destruct H5 as [E5 N5]. read H.
  assert (Hnone : ∀ q, q ∈ k_permits (core_of w0) → pm_recipient_attempt_id q ≠ ra_id a).
  { intros q Hq Eq. destruct (ki_permit_ref _ _ HI q Hq) as (b & Hb & Eb & _ & _ & _ & Hm).
    assert (b = a) as -> by (eapply (keyed_inj ra_id); [apply HI|done..|congruence]).
    rewrite Has in Hm. by destruct Hm as [(_ & ? & _)|(_ & ? & _)]. }
  destruct (List.find _ (cdb_permits _)) as [q|] eqn:Hq.
  { exfalso. apply find_elem in Hq as [Hq Hb]. change (q ∈ k_permits (core_of w5)) in Hq. rewrite E5, E4 in Hq.
    apply andb_true_iff in Hb as [_ Hb%N.eqb_eq]. by apply (Hnone q). }
  ran H as pm' w6 H6. apply ran_grant in H6 as (G1 & G2 & G3 & G4 & G5). injection H as <- _.
  exists a, rc, r, v. split_and!; try done; [split; [done|by exists p]| |].
  - rewrite G3. eapply (may_contact_db _ _ w0); [done|]. rewrite <- Hpi. done.
  - intros Hin. by apply (Hnone _ Hin).
Qed.

(** ** Completion *)

(** Completion is only noticed by a dispatch: a run whose attempts are all settled,
    because the last ones were suppressed at authorisation (or were dispatched while
    the campaign was paused, or there are none), never becomes COMPLETED in any
    continuation, and so its campaign is not completed either; only cancellation ends
    it. The code means a run with no unsettled attempt to be complete. *)
Theorem settled_run_never_completes w w' r :
  reachable w → steps w w' → r ∈ k_runs (core_of w) → rn_attempt_materialization_complete r = true →
  rn_state r ≠ CampaignRunState.COMPLETED → (∀ a, a ∈ attempts_of (core_of w) r → settled a = true) →
  ∃ r', r' ∈ k_runs (core_of w') ∧ rn_id r' = rn_id r ∧ rn_state r' ≠ CampaignRunState.COMPLETED.
Proof.
  intros HI%camp_reachable_inv Hs Hr Hc Hn Ha.
  destruct (steps_stuck dep w w' (rn_id r) HI Hs) as (r' & Hr' & E & _ & Hn' & _); [|by exists r'].
  exists r. split_and!; try done. intros a Hin Ear. by apply Ha, elem_of_attempts_of.
Qed.
End safety.

(** ** The theorems at the demonstration *)

Lemma hd_elem {A} (d : A) l : l ≠ [] → hd d l ∈ l.
Proof. destruct l; [done|]. intros _. constructor. Qed.

Definition no_campaign : CampaignRecord :=
  mkCampaign 0 0 EmptyString EmptyString CampaignState.FAILED 0 demo_draft None 0 0.
Definition no_revision : CampaignRevisionRecord :=
  mkRevision 0 0 0 0 EmptyString 0 0 0 MessageChannel.SMS demo_draft 0.

Definition first_campaign (w : World) : CampaignRecord := hd no_campaign (k_campaigns (core_of w)).
Definition first_run (w : World) : CampaignRunRecord := hd no_run (k_runs (core_of w)).
Definition first_revision (w : World) : CampaignRevisionRecord := hd no_revision (k_revisions (core_of w)).
Definition first_permit (w : World) : CampaignSendPermitRecord := hd no_permit (k_permits (core_of w)).
Definition first_recipient (w : World) : CampaignRecipientRecord := hd no_recipient (k_recipients (core_of w)).
Definition first_attempt (w : World) : CampaignRecipientAttemptRecord := hd no_attempt (k_attempts (core_of w)).

Ltac first_row := apply hd_elem; vm_compute; discriminate.

Lemma campaigns_refine_spec_witness : esteps demo_org (spec_of c_running) (spec_of c_claimed1).
Proof.
  exact (proj1 (campaigns_refine_spec camp_deployment c_running c_running_reachable) demo_org c_claimed1
    (ct_claim _ _ c_running [] demo_run_id 100)).
Defined.

Lemma campaign_invariant_witness :
  run_counts (first_run c_sent1) = (1, 1, 0, 1, 0) ∧ run_counts (first_run c_sent1) = tally (core_of c_sent1) (first_run c_sent1).
Proof.
  split; [vm_compute; reflexivity|].
  apply (proj1 (campaign_invariant camp_deployment c_sent1 c_sent1_reachable)). first_row.
Defined.

Lemma campaign_rows_well_formed_witness : run_refers (core_of c_sent1) (first_run c_sent1).
Proof.
  apply (campaign_rows_well_formed camp_deployment c_sent1 c_sent1_reachable). first_row.
Defined.

Lemma demo_contact : contacts (core_of c_sent1) (first_permit c_sent1) demo_campaign_id 51 MessageChannel.WHATSAPP.
Proof.
  split; [first_row|]. exists (first_attempt c_sent1), (first_run c_sent1), (first_recipient c_sent1).
  split; [first_row|]. split; [first_row|]. split; [first_row|]. vm_compute. split_and!; reflexivity.
Qed.

Lemma recipient_contacted_once_witness :
  contacts (core_of c_sent1) (first_permit c_sent1) demo_campaign_id 51 MessageChannel.WHATSAPP ∧
  ∀ p, contacts (core_of c_sent1) p demo_campaign_id 51 MessageChannel.WHATSAPP → p = first_permit c_sent1.
Proof.
  split; [exact demo_contact|]. intros p Hp.
  exact (proj1 (recipient_contacted_once camp_deployment c_sent1 c_sent1_reachable) p (first_permit c_sent1) _ _ _ Hp demo_contact).
Defined.

Lemma stopped_campaign_is_silent_witness :
  nothing_new demo_campaign_id (core_of c_cancelling) (core_of c_cancelled).
Proof.
  apply (stopped_campaign_is_silent camp_deployment c_cancelling c_cancelled (first_campaign c_cancelling)).
  - exact c_cancelling_reachable.
  - exact c_cancelled_steps.
  - first_row.
  - vm_compute. reflexivity.
Defined.

Lemma campaign_limit_respected_witness :
  rn_authorized_count (first_run c_sent1) = 1 ∧ 0 ≤ rn_authorized_count (first_run c_sent1) ≤ Z.max 0 100.
Proof.
  split; [vm_compute; reflexivity|].
  apply (campaign_limit_respected camp_deployment c_sent1 (first_run c_sent1) (first_revision c_sent1)).
  - exact c_sent1_reachable.
  - first_row.
  - first_row.
  - vm_compute. reflexivity.
Defined.

(** A messaging service that fails when it is called. *)
Definition failing_send (org : uuid) (request : SendMessageRequest) : M uuid := raise ValueError.

Lemma dispatch_replays_consumed_witness :
  fst (dispatch_send (λ s, s) failing_send demo_org (pm_id (first_permit c_sent1)) c_ready2) = Ok (first_permit c_sent1).
Proof.
  apply (dispatch_replays_consumed camp_deployment (λ s, s) failing_send c_sent1 c_ready2 (first_permit c_sent1)).
  - exact c_sent1_reachable.
  - exact c_ready2_steps.
  - first_row.
  - vm_compute. reflexivity.
Defined.

Lemma permit_needs_consent_witness :
  ∃ a, a ∈ k_attempts (core_of c_ready1) ∧ pm_recipient_attempt_id demo_permit1 = ra_id a ∧
       holds_attempt demo_claim1 RecipientAttemptState.READY_TO_SEND a = true.
Proof.
  destruct (permit_needs_consent camp_deployment (cd_zoneinfo camp_deployment) demo_org demo_claim1 c_ready1 demo_permit1 c_permitted1)
    as (a & rc & r & v & H1 & _ & _ & _ & H2 & _ & _ & _ & _ & _ & H3 & _).
  - exact c_ready1_reachable.
  - vm_compute. reflexivity.
  - exists a. auto.
Defined.

Lemma settled_run_never_completes_witness :
  attempt_states c_settled = [RecipientAttemptState.DISPATCHED; RecipientAttemptState.SUPPRESSED] ∧
  ∃ r, r ∈ k_runs (core_of c_settled) ∧ rn_id r = rn_id (first_run c_settled) ∧ rn_state r ≠ CampaignRunState.COMPLETED.
Proof.
  split; [vm_compute; reflexivity|].
  apply (settled_run_never_completes camp_deployment c_settled c_settled (first_run c_settled)).
  - exact c_settled_reachable.
  - apply rtc_refl.
  - first_row.
  - vm_compute. reflexivity.
  - vm_compute. discriminate.
  - assert (Hall : Forall (λ a, settled a = true) (attempts_of (core_of c_settled) (first_run c_settled))).
    { vm_compute. repeat constructor. }
    by rewrite Forall_forall in Hall.
Defined.
