(* ===== verification/CampaignProgress.v ===== *)
(** * CampaignProgress: preparation and cancellation come to an end

    Repeated cancellation reaches CANCELLED in as many calls as there are batches of
    recipient attempts, and the preparation loop resolves the whole audience within
    its fuel. [returns m w] says that [m] returns normally from [w]. *)

From S2P Require Import Prelude.
From S2P Require Import Errors.
From S2P Require Import Lifecycles.
From S2P Require Import Calendar.
From S2P Require Import Recurrence.
From S2P Require Import MessagingStore.
From S2P Require Import CustomerStore.
From S2P Require Import CampaignStore.
From S2P Require Import Store.
From S2P Require Import StoreLemmas.
From S2P Require Import Tables.
From S2P Require Import WorkflowDemo.
From S2P Require Import CampaignRepository.
From S2P Require Import CampaignService.
From S2P Require Import CampaignSpec.
From S2P Require Import CampaignEffects.
From S2P Require Import CampaignOps.
From S2P Require Import CampaignSends.
From S2P Require Import CampaignSystem.
From S2P Require Import CampaignDemo.
From S2P Require Import CampaignSafety.

(** ** Normal returns *)

Definition returns {A} (m : M A) (w : World) : Prop := ∃ a w', m w = (Ok a, w').

Lemma returns_bind {A B} (m : M A) (f : A → M B) w :
  returns m w → (∀ a w', m w = (Ok a, w') → returns (f a) w') → returns (m ≫= f) w.
Proof.
  intros (a & w1 & Hm) Hf. destruct (Hf a w1 Hm) as (b & w2 & H). exists b, w2. apply ran_bind. eauto.
Qed.

(** Commands that always return. *)
Definition total {A} (m : M A) : Prop := ∀ w, returns m w.

Lemma total_bind {A B} (m : M A) (f : A → M B) : total m → (∀ a, total (f a)) → total (m ≫= f).
Proof. intros Hm Hf w. apply returns_bind; [done|]. intros a w' _. apply Hf. Qed.
Lemma total_ret {A} (a : A) : total (mret a).
Proof. intros w. by eexists _, _. Qed.
Lemma total_gets {A} (f : World → A) : total (gets f).
Proof. intros w. by eexists _, _. Qed.
Lemma total_cgets {A} (f : CampaignDB → A) : total (cgets f).
Proof. intros w. by eexists _, _. Qed.
Lemma total_cmodify f : total (cmodify f).
Proof. intros w. by eexists _, _. Qed.
Lemma total_utcnow : total utcnow.
Proof. intros w. by eexists _, _. Qed.
Lemma total_fresh : total fresh_uuid.
Proof. intros w. by eexists _, _. Qed.
Lemma total_forM {A} (f : A → M unit) l : (∀ a, total (f a)) → total (forM_ f l).
Proof. intros Hf. induction l; simpl; [apply total_ret|by apply total_bind]. Qed.

Create HintDb total.
#[export] Hint Resolve total_ret total_gets total_cgets total_cmodify total_utcnow total_fresh : total.

Ltac totality :=
  repeat (intros; cbv zeta; lazymatch goal with
  | |- total (_ ≫= _) => apply total_bind
  | |- total (match ?x with _ => _ end) => destruct x
  | |- total (forM_ _ _) => apply total_forM
  | |- total ?m => first [solve [eauto with total nocore] | let h := get_head m in unfold h]
  end).

Lemma total_enqueue t a i o p : total (enqueue_event t a i o p).
Proof.
  unfold enqueue_event. intros w. unfold returns, mbind, M_bind, gets, fresh_uuid, utcnow, modify_db. simpl.
  eauto.
Qed.
#[export] Hint Resolve total_enqueue : total.

(** A transaction whose body returns commits. *)
Lemma returns_txn {A} (m : M A) w : (∀ w0, w_db w0 = w_db w → w_next_uuid w0 = w_next_uuid w → returns m w0) →
  returns (tenant_transaction m) w.
Proof.
  intros Hm. unfold returns, tenant_transaction.
  destruct (Hm (set_w_txn_now (w_clock w (w_reads w)) (set_w_reads (S (w_reads w)) w))) as (a & w' & E); [done..|].
  rewrite E. by exists a, w'.
Qed.

(** ** Cancellation *)

(** [cancellable], on the core. *)
Definition awaiting (org cid : uuid) (runs : list CampaignRunRecord) (a : CampaignRecipientAttemptRecord) : bool :=
  N.eqb (ra_organization_id a) org && bool_decide (ra_state a ∈ cancellable_states) &&
  existsb (λ r, N.eqb (rn_id r) (ra_campaign_run_id a) && N.eqb (rn_organization_id r) (ra_organization_id a) &&
                N.eqb (rn_campaign_id r) cid && bool_decide (rn_state r = CampaignRunState.CANCELLING)) runs.

(** How many attempts a cancellation still has to settle. *)
Definition backlog (org cid : uuid) (k : Core) : Z := countb (awaiting org cid (k_runs k)) (k_attempts k).

Lemma recipient_one_returns w rc :
  rc ∈ k_recipients (core_of w) → returns (recipient_one (rc_organization_id rc) (rc_id rc)) w.
Proof.
  intros Hrc. unfold recipient_one, returns, cgets, gets, lift, mbind, M_bind.
  destruct (List.find _ _) as [x|] eqn:Hf; [by eexists _, _|].
  apply (find_none_elem _ _ rc) in Hf; [|done]. unfold is_recipient in Hf. by rewrite !N.eqb_refl in Hf.
Qed.

Lemma cancel_attempt_returns org a runs w n :
  kinv (with_runs runs (core_of w)) n → a ∈ k_attempts (core_of w) → doomed org runs a → returns (cancel_attempt org a) w.
Proof.
  intros HI Ha (Ho & Hs & _). unfold cancel_attempt. apply returns_bind.
  { exists tt, w. unfold lift. f_equal. apply guard_transition_Ok. revert Hs. unfold cancellable_states, legal.
    rewrite !elem_of_cons, elem_of_nil. intros [-> |[-> |[-> |[-> |[]]]]]; decided. }
  intros u w1 [= _ <-]. destruct (ki_attempt_ref _ _ HI a Ha) as (_ & rc & _ & Hrc & _ & _ & Erc & Eo & _).
  apply returns_bind.
  - simpl. rewrite <- Erc, <- Ho, <- Eo. by apply recipient_one_returns.
  - intros rc' w' _. revert w'. match goal with |- ∀ w', returns ?m w' => change (total m) end. totality.
Qed.

Lemma ran_cancel_attempt_row org a w u w' :
  cancel_attempt org a w = (Ok u, w') →
  ∃ a', k_attempts (core_of w') = upd ra_id a' (k_attempts (core_of w)) ∧ attempt_ident a' = attempt_ident a ∧
        ra_state a' = RecipientAttemptState.CANCELLED.
Proof.
  intros H. unfold cancel_attempt in H. ran H as u1 w1 H1. injection H1 as _ <-. ran H as rc w2 H2.
  quiet H2. destruct H2 as [E2 _]. ran H as u3 w3 H3.
  assert (E3 : k_attempts (core_of w3) = k_attempts (core_of w2)).
  { destruct (bool_decide _); [by apply ran_put_recipient in H3 as [-> _]|by injection H3 as _ <-]. }
  ran H as u4 w4 H4. quiet H4. destruct H4 as [E4 _]. ran H as a' w5 H5.
  apply ran_put_attempt in H5 as ((t & ->) & E5 & _). injection H as _ <-. eexists.
  split; [rewrite E5, E4; cbn [with_attempts k_attempts]; by rewrite E3, E2|by split].
Qed.

Lemma awaiting_ident org cid runs a a' :
  attempt_ident a' = attempt_ident a → ra_state a' = RecipientAttemptState.CANCELLED → awaiting org cid runs a' = false.
Proof. intros _ Hs. unfold awaiting. by rewrite Hs, andb_false_r. Qed.

Lemma awaiting_doomed org cid runs a : awaiting org cid runs a = true → doomed org runs a.
Proof.
  unfold awaiting. rewrite !andb_true_iff, N.eqb_eq, bool_decide_eq_true, existsb_elem.
  intros [[Ho Hs] (r & Hr & Hb)]. rewrite !andb_true_iff, !N.eqb_eq, bool_decide_eq_true in Hb.
  destruct Hb as [[[H1 H2] _] H3]. split; [done|]. split; [done|]. exists r. repeat split; try done. congruence.
Qed.

(** Counting does not change which attempts wait. *)
Lemma awaiting_add org cid org' t i n runs a :
  awaiting org cid (add_cancelled org' t i n runs) a = awaiting org cid runs a.
Proof.
  unfold awaiting. f_equal. unfold add_cancelled, update_where. induction runs as [|r runs IH]; [done|]. simpl. rewrite IH.
  by destruct (is_run org' i r).
Qed.

Lemma awaiting_counts org cid org' t runs ps a :
  awaiting org cid (add_counts org' t runs ps) a = awaiting org cid runs a.
Proof.
  revert runs. induction ps as [|[i n] ps IH]; intros runs; [done|]. unfold add_counts in *. cbn [foldl].
  rewrite IH. apply awaiting_add.
Qed.

(** The loop over a batch returns and settles every attempt of the batch. *)
Lemma cancel_attempts_return org cid (t : Z) l runs w :
  kinv (with_runs runs (core_of w)) (w_next_uuid w) → NoDup (map ra_id l) →
  (∀ a, a ∈ l → a ∈ k_attempts (core_of w) ∧ awaiting org cid runs a = true) →
  ∃ w', forM_ (cancel_attempt org) l w = (Ok tt, w') ∧
    countb (awaiting org cid runs) (k_attempts (core_of w')) =
    countb (awaiting org cid runs) (k_attempts (core_of w)) - Z.of_nat (length l).
Proof.
  revert runs w. induction l as [|a l IH]; intros runs w HI Hnd Hl.
  { exists w. split; [done|]. simpl. lia. }
  simpl in Hnd. apply NoDup_cons in Hnd as [Hna Hnd]. destruct (Hl a ltac:(constructor)) as [Ha Hw].
  pose proof (awaiting_doomed _ _ _ _ Hw) as Hd.
  destruct (cancel_attempt_returns org a runs w _ HI Ha Hd) as (u & w1 & H1).
  pose proof (ran_cancel_attempt_row _ _ _ _ _ H1) as (a' & Ea & Hid & Hst).
  destruct (cancel_attempt_refines org t _ runs _ _ _ HI Ha Hd H1) as (_ & K1 & S1).
  pose proof (esteps_inv org _ _ S1) as [_ HI1]. specialize (HI1 HI).
  destruct (IH (add_cancelled org t (ra_campaign_run_id a) 1 runs) w1 HI1 Hnd) as (w' & H2 & Hc).
  { intros x Hx. destruct (Hl x ltac:(by constructor)) as [Hxa Hxw]. split; [|by rewrite awaiting_add].
    apply K1; [done|]. intros E. apply Hna. rewrite <- E. by apply (list_elem_of_fmap_2 ra_id). }
  exists w'. split.
  { cbn [forM_]. apply ran_bind. by exists u, w1. }
  rewrite !(countb_ext (awaiting org cid (add_cancelled _ _ _ _ _)) (awaiting org cid runs)) in Hc
    by (intros; apply awaiting_add).
  rewrite Hc, Ea, (countb_upd ra_id _ _ a' a _ (ki_attempts _ _ HI) Ha).
  - rewrite Hw, (awaiting_ident _ _ _ _ _ Hid Hst). simpl length. cbn [Z.b2z with_runs k_attempts]. lia.
  - unfold attempt_ident in Hid. congruence.
Qed.

Lemma find_campaign w p n :
  kinv (core_of w) n → p ∈ k_campaigns (core_of w) →
  List.find (is_campaign (cp_organization_id p) (cp_id p)) (cdb_campaigns (db_campaign (w_db w))) = Some p.
Proof.
  intros HI Hp. destruct (List.find _ _) as [q|] eqn:Hq.
  - apply found_campaign_row in Hq as (Hq & _ & E). f_equal. by eapply (keyed_inj cp_id); [apply HI|..].
  - apply (find_none_elem _ _ p) in Hq; [|done]. unfold is_campaign in Hq. by rewrite !N.eqb_refl in Hq.
Qed.

(** Bind on a command whose result is known. *)
Lemma bind_of {A B} (m : M A) (f : A → M B) w a w1 r : m w = (Ok a, w1) → f a w1 = r → (m ≫= f) w = r.
Proof. unfold mbind, M_bind. by intros -> ->. Qed.

(** ** One batch *)

Definition batch_of (org cid : uuid) (w : World) : list CampaignRecipientAttemptRecord :=
  take (Z.to_nat CANCELLATION_BATCH) (by_creation ra_created_at ra_id
    (List.filter (λ a, cancellable org cid (db_campaign (w_db w)) a && negb (bool_decide (ra_id a ∈ [])))
      (cdb_attempts (db_campaign (w_db w))))).

(** What [cancel_attempt_batch] does after its two loops. *)
Definition finish_batch (org cid : uuid) (p : CampaignRecord) (n : Z) : M (CampaignRecord * Z * bool) :=
  remaining ← cgets (λ c, length (List.filter (cancellable org cid c) (cdb_attempts c)));
  match remaining with
  | S _ => mret (p, n, false)
  | O =>
      runs ← cgets (λ c, List.filter (λ r, N.eqb (rn_organization_id r) org && N.eqb (rn_campaign_id r) cid &&
        bool_decide (rn_state r = CampaignRunState.CANCELLING)) (cdb_runs c));
      _ ← forM_ (finish_run_cancellation org) runs;
      let campaign := set_cp_state CampaignState.CANCELLED p in
      _ ← campaign_transition org (cp_id campaign) CampaignState.CANCELLING (cp_state campaign) "CAMPAIGN_CANCELLED";
      campaign ← put_campaign campaign;
      mret (campaign, n, true)
  end.

Lemma batch_filter org cid w :
  batch_of org cid w = take (Z.to_nat CANCELLATION_BATCH) (by_creation ra_created_at ra_id
    (List.filter (awaiting org cid (k_runs (core_of w))) (k_attempts (core_of w)))).
Proof.
  unfold batch_of. do 2 f_equal. apply filterb_ext. intros a _.
  rewrite (bool_decide_eq_false_2 (ra_id a ∈ [])) by apply not_elem_of_nil. by rewrite andb_true_r.
Qed.

Lemma batch_length org cid w :
  Z.of_nat (length (batch_of org cid w)) = Z.min CANCELLATION_BATCH (backlog org cid (core_of w)).
Proof.
  rewrite batch_filter, length_take. unfold by_creation. rewrite merge_sort_Permutation.
  unfold backlog, countb, CANCELLATION_BATCH. lia.
Qed.

Lemma batch_elem org cid w a :
  a ∈ batch_of org cid w → a ∈ k_attempts (core_of w) ∧ awaiting org cid (k_runs (core_of w)) a = true.
Proof.
  rewrite batch_filter. intros (i & Hi & _)%elem_of_take. apply list_elem_of_lookup_2 in Hi.
  unfold by_creation in Hi. rewrite merge_sort_Permutation in Hi. by apply elem_of_filterb in Hi.
Qed.

Lemma batch_NoDup org cid w n : kinv (core_of w) n → NoDup (map ra_id (batch_of org cid w)).
Proof.
  intros HI. rewrite batch_filter, <- firstn_map. eapply sublist_NoDup; [|apply sublist_take]. unfold by_creation.
  rewrite merge_sort_Permutation. apply (NoDup_map_filter ra_id), HI.
Qed.

Lemma map_state_add org t i n runs : map rn_state (add_cancelled org t i n runs) = map rn_state runs.
Proof. unfold add_cancelled, update_where. rewrite map_map. apply map_ext. intros r. by destruct (is_run org i r). Qed.

(** The two loops: the batch is settled, nothing else that matters changes. *)
Lemma cancel_loops w org cid :
  winv w → ∃ w1 w2 u2, forM_ (cancel_attempt org) (batch_of org cid w) w = (Ok tt, w1) ∧
    forM_ (count_cancelled org) (foldl (λ acc a, bump (ra_campaign_run_id a) acc) [] (batch_of org cid w)) w1 = (Ok u2, w2) ∧
    backlog org cid (core_of w2) = backlog org cid (core_of w) - Z.of_nat (length (batch_of org cid w)) ∧
    k_campaigns (core_of w2) = k_campaigns (core_of w) ∧
    ∃ t ps, k_runs (core_of w2) = add_counts org t (k_runs (core_of w)) ps.
Proof.
  intros HI. unfold winv in HI. set (l := batch_of org cid w).
  assert (HI' : kinv (with_runs (k_runs (core_of w)) (core_of w)) (w_next_uuid w)) by by destruct (core_of w).
  pose proof (batch_NoDup org cid w _ HI) as Hnd.
  destruct (cancel_attempts_return org cid 0 l (k_runs (core_of w)) w HI' Hnd (batch_elem org cid w)) as (w1 & H1 & Hc1).
  pose proof (forM_keeps _ _ _ (cancel_attempt_keeps org) _ _ _ H1) as K1.
  destruct (cancel_attempts_refines org 0 l (k_runs (core_of w)) w _ _ HI' Hnd
    (λ a Ha, conj (proj1 (batch_elem _ _ _ _ Ha)) (awaiting_doomed _ _ _ _ (proj2 (batch_elem _ _ _ _ Ha)))) H1) as [R1 _].
  assert (Htot : total (forM_ (count_cancelled org) (foldl (λ acc a, bump (ra_campaign_run_id a) acc) [] l))) by totality.
  destruct (Htot w1) as (u2 & w2 & H2). pose proof (ran_count_cancelled _ _ _ _ _ H2) as [E2 N2].
  exists w1, w2, u2. split; [done|]. split; [done|]. split.
  { unfold backlog. rewrite E2. cbn [with_runs k_runs k_attempts].
    rewrite (countb_ext _ (awaiting org cid (k_runs (core_of w)))); [by rewrite Hc1|].
    intros a _. by rewrite awaiting_counts, R1. }
  rewrite E2. cbn [with_runs k_runs k_campaigns]. split; [done|]. rewrite R1. by eexists _, _.
Qed.

Lemma cancel_attempt_batch_eq w p w1 w2 u2 :
  winv w → p ∈ k_campaigns (core_of w) → cp_state p = CampaignState.CANCELLING →
  let org := cp_organization_id p in let cid := cp_id p in
  forM_ (cancel_attempt org) (batch_of org cid w) w = (Ok tt, w1) →
  forM_ (count_cancelled org) (foldl (λ acc a, bump (ra_campaign_run_id a) acc) [] (batch_of org cid w)) w1 = (Ok u2, w2) →
  cancel_attempt_batch [] org cid CANCELLATION_BATCH w = finish_batch org cid p (Z.of_nat (length (batch_of org cid w))) w2.
Proof.
  intros HI Hp Hst org cid H1 H2. unfold cancel_attempt_batch. change (CANCELLATION_BATCH <? 1) with false. cbv iota.
  eapply bind_of; [unfold campaign_row, cgets, gets; subst org cid; by rewrite (find_campaign w p _ HI Hp)|].
  cbv beta iota. rewrite Hst. simpl.
  eapply bind_of; [reflexivity|]. apply (bind_of _ _ _ _ _ _ H1). by apply (bind_of _ _ _ _ _ _ H2).
Qed.

(** Everything that fits into a batch is settled; when nothing is left the campaign is
    cancelled. *)
Lemma cancel_batch_returns w p :
  winv w → p ∈ k_campaigns (core_of w) → cp_state p = CampaignState.CANCELLING →
  let org := cp_organization_id p in let cid := cp_id p in let b := backlog org cid (core_of w) in
  ∃ q n fin w', cancel_attempt_batch [] org cid CANCELLATION_BATCH w = (Ok (q, n, fin), w') ∧
    (b ≤ CANCELLATION_BATCH → cp_state q = CampaignState.CANCELLED ∧ same_campaign p q ∧ q ∈ k_campaigns (core_of w')) ∧
    (CANCELLATION_BATCH < b → q = p ∧ k_campaigns (core_of w') = k_campaigns (core_of w) ∧
       (∃ t ps, k_runs (core_of w') = add_counts org t (k_runs (core_of w)) ps) ∧
       backlog org cid (core_of w') = b - CANCELLATION_BATCH).
Proof.
  intros HI Hp Hst org cid b. destruct (cancel_loops w org cid HI) as (w1 & w2 & u2 & H1 & H2 & Hb & Hk & Hr).
  pose proof (cancel_attempt_batch_eq w p w1 w2 u2 HI Hp Hst H1 H2) as Heq. fold org cid in Heq. rewrite Heq. clear Heq.
  pose proof (batch_length org cid w) as Hlen. fold b in Hlen, Hb.
  set (n := Z.of_nat (length (batch_of org cid w))) in *.
  assert (Hrem : Z.of_nat (length (List.filter (cancellable org cid (db_campaign (w_db w2)))
    (cdb_attempts (db_campaign (w_db w2))))) = b - n) by exact Hb.
  destruct (Z.le_gt_cases b CANCELLATION_BATCH) as [Hs|Hs].
  - assert (Hz : length (List.filter (cancellable org cid (db_campaign (w_db w2))) (cdb_attempts (db_campaign (w_db w2)))) = O) by lia.
    unfold finish_batch. unfold mbind at 1, M_bind at 1, cgets at 1, gets at 1. cbv beta iota. rewrite Hz.
    match goal with |- context [?m w2 = _] => assert (Ht : total m) by totality end.
    destruct (Ht w2) as ([[q n'] fin] & w' & E). exists q, n', fin, w'. split; [done|]. split; [|lia]. intros _.
    read E. ran E as u3 w3 E3. pose proof (forM_keeps _ _ _ (finish_run_cancellation_keeps org) _ _ _ E3) as K3.
    ran E as u4 w4 E4. quiet E4. destruct E4 as [E4 _]. ran E as q' w5 E5. apply ran_put_campaign in E5 as ((t & ->) & E5 & _).
    injection E as <- _ _ <-. split; [done|]. split; [done|]. rewrite E5. cbn [with_campaigns k_campaigns].
    apply (upd_self _ _ _ p); [|done]. by rewrite E4, K3, Hk.
  - unfold finish_batch. unfold mbind at 1, M_bind at 1, cgets at 1, gets at 1. cbv beta iota.
    destruct (length (List.filter (cancellable _ _ _) _)) eqn:Hz; [lia|]. exists p, n, false, w2. split; [done|]. split; [lia|]. intros _.
    split; [done|]. split; [done|]. split; [done|]. rewrite Hb. lia.
Qed.

(** ** Cancelling a whole campaign *)

Lemma start_run_cancellation_row org r w u w' :
  start_run_cancellation org r w = (Ok u, w') → ∃ r', rn_id r' = rn_id r ∧ rn_state r' = CampaignRunState.CANCELLING ∧
    core_of w' = with_runs (upd rn_id r' (k_runs (core_of w))) (core_of w).
Proof.
  intros H. unfold start_run_cancellation in H. ran H as u1 w1 H1. quiet H1. destruct H1 as [E1 _].
  ran H as r' w2 H2. apply ran_put_run in H2 as ((t & ->) & E2 & _). injection H as _ <-. rewrite E1 in E2.
  eexists. split; [|split; [|exact E2]]; done.
Qed.

Lemma start_loop org l w u w' :
  forM_ (start_run_cancellation org) l w = (Ok u, w') →
  core_of w' = with_runs (k_runs (core_of w')) (core_of w) ∧
  (l = [] → core_of w' = core_of w) ∧
  ∀ r, r ∈ k_runs (core_of w') → rn_state r = CampaignRunState.CANCELLING ∨
    r ∈ k_runs (core_of w) ∧ rn_id r ∉ map rn_id l.
Proof.
  revert w. induction l as [|x l IH]; intros w H; cbn [forM_] in H.
  { injection H as _ <-. split; [by destruct (core_of w)|]. split; [done|]. intros r Hr. right. split; [done|apply not_elem_of_nil]. }
  ran H as u1 w1 H1. apply start_run_cancellation_row in H1 as (x' & Ex & Hx & E1). apply IH in H as (E & _ & Hall).
  split; [rewrite E, E1; done|]. split; [done|]. intros r Hr. destruct (Hall r Hr) as [Hs|[Hr1 Hn]]; [by left|].
  rewrite E1 in Hr1. cbn [with_runs k_runs] in Hr1. apply elem_of_upd in Hr1 as [-> |[Hr1 Hne]]; [by left|].
  right. split; [done|]. simpl. apply not_elem_of_cons. split; [congruence|done].
Qed.

(** No run of the campaign can still be taken into cancellation. *)
Definition idle (org cid : uuid) (k : Core) : Prop := ∀ r, r ∈ k_runs k → run_cancellable org cid r = false.

Lemma mark_cancelling_returns w p n :
  kinv (core_of w) n → p ∈ k_campaigns (core_of w) →
  cp_state p ∉ [CampaignState.COMPLETED; CampaignState.FAILED; CampaignState.CANCELLED] →
  ∃ q w1, mark_cancelling (cp_organization_id p) p w = (Ok q, w1) ∧ cp_state q = CampaignState.CANCELLING ∧
    same_campaign p q ∧ core_of w1 = with_campaigns (upd cp_id q (k_campaigns (core_of w))) (core_of w) ∧
    (cp_state p = CampaignState.CANCELLING → q = p ∧ w1 = w).
Proof.
  intros HI Hp Hst. unfold mark_cancelling. case_bool_decide as Hc.
  - exists p, w. split; [done|]. split; [done|]. split; [done|]. split; [|done].
    rewrite (upd_same cp_id _ p _ (ki_campaigns _ _ HI) Hp). by destruct (core_of w).
  - assert (Hg : require_campaign_transition (cp_state p) CampaignState.CANCELLING = Ok tt).
    { apply guard_transition_Ok. revert Hst Hc. unfold legal. clear. destruct (cp_state p); simpl; set_solver. }
    rewrite Hg. match goal with |- context [?m w = _] => assert (Ht : total m) end.
    { apply total_bind; [intros w0; by exists tt, w0|]. totality. }
    destruct (Ht w) as (q & w1 & E). exists q, w1. split; [done|]. ran E as u2 w2 E2. injection E2 as _ <-.
    ran E as u3 w3 E3. quiet E3. destruct E3 as [E3 _]. apply ran_put_campaign in E as ((t & ->) & E & _).
    rewrite E3 in E. done.
Qed.

Lemma begin_cancellation_returns w p :
  winv w → p ∈ k_campaigns (core_of w) →
  cp_state p ∉ [CampaignState.COMPLETED; CampaignState.FAILED; CampaignState.CANCELLED] →
  let org := cp_organization_id p in let cid := cp_id p in
  ∃ q w', begin_cancellation org cid w = (Ok q, w') ∧ cp_state q = CampaignState.CANCELLING ∧ same_campaign p q ∧
    q ∈ k_campaigns (core_of w') ∧ idle org cid (core_of w') ∧ k_attempts (core_of w') = k_attempts (core_of w) ∧
    (cp_state p = CampaignState.CANCELLING → idle org cid (core_of w) → q = p ∧ core_of w' = core_of w).
Proof.
  intros HI Hp Hst org cid.
  assert (Hrow : campaign_row org cid w = (Ok (Some p), w)).
  { unfold campaign_row, cgets, gets. subst org cid. by rewrite (find_campaign w p _ HI Hp). }
  destruct (mark_cancelling_returns w p _ HI Hp Hst) as (q & w1 & Em & Hq & Hsame & E1 & Hid).
  set (runs := List.filter (run_cancellable org (cp_id q)) (k_runs (core_of w1))).
  assert (Ht : total (forM_ (start_run_cancellation org) runs)) by totality. destruct (Ht w1) as (u & w' & El).
  exists q, w'. destruct (start_loop _ _ _ _ _ El) as (E' & Hnil & Hall). split; [|split_and!; try done].
  - unfold begin_cancellation. apply (bind_of _ _ _ _ _ _ Hrow). cbv beta iota.
    rewrite (bool_decide_eq_false_2 (cp_state p = CampaignState.CANCELLED)) by set_solver.
    apply (bind_of _ _ _ _ _ _ Em). eapply bind_of; [reflexivity|]. by apply (bind_of _ _ _ _ _ _ El).
  - rewrite E', E1. cbn [with_runs with_campaigns k_campaigns]. apply (upd_self _ _ _ p); [done|]. symmetry. apply Hsame.
  - intros r Hr. destruct (run_cancellable org cid r) eqn:Hc; [|done]. destruct (Hall r Hr) as [Hs|[Hr1 Hn]].
    + unfold run_cancellable in Hc. rewrite Hs, andb_true_iff, bool_decide_eq_true in Hc. set_solver.
    + exfalso. apply Hn, (list_elem_of_fmap_2 rn_id), elem_of_filterb. split; [done|]. destruct Hsame as (-> & _). done.
  - rewrite E', E1. done.
  - intros Hc Hidle. destruct (Hid Hc) as [-> ->]. split; [done|]. apply Hnil. subst runs.
    apply filter_nil_not_elem_of. apply Hidle.
Qed.

(** The caller repeats [cancel_campaign] until the campaign is cancelled. *)
Fixpoint cancel_repeatedly (n : nat) (org campaign_id : uuid) : M CampaignRecord :=
  match n with
  | O => cancel_campaign [] org campaign_id
  | S n => _ ← cancel_campaign [] org campaign_id; cancel_repeatedly n org campaign_id
  end.

(** A cancellation with at most [b] attempts left. *)
Definition cancelling (org cid : uuid) (b : Z) (w : World) : Prop :=
  winv w ∧ ∃ p, p ∈ k_campaigns (core_of w) ∧ cp_organization_id p = org ∧ cp_id p = cid ∧
    (cp_state p = CampaignState.CANCELLED ∨
     cp_state p = CampaignState.CANCELLING ∧ idle org cid (core_of w) ∧ backlog org cid (core_of w) ≤ b).

Lemma backlog_bound org cid k : backlog org cid k ≤ Z.of_nat (length (k_attempts k)).
Proof. unfold backlog, countb. pose proof (filter_length_le (awaiting org cid (k_runs k)) (k_attempts k)). lia. Qed.

Lemma idle_counts org cid org' t k k' ps :
  k_runs k' = add_counts org' t (k_runs k) ps → idle org cid k → idle org cid k'.
Proof.
  intros E Hi r Hr. rewrite E in Hr. clear E. unfold idle in Hi. revert Hi Hr. generalize (k_runs k). clear.
  induction ps as [|[i n] ps IH]; intros l Hi Hr; unfold add_counts in *; cbn [foldl] in Hr; [by apply Hi|].
  apply (IH (add_cancelled org' t i n l)); [|done]. intros x Hx. unfold add_cancelled, update_where in Hx.
  apply list_elem_of_fmap in Hx as (y & -> & Hy). specialize (Hi y Hy). by destruct (is_run org' i y).
Qed.

(** The transaction's view of the world when it begins. *)
Definition opened (w : World) : World := set_w_txn_now (w_clock w (w_reads w)) (set_w_reads (S (w_reads w)) w).

Lemma txn_of {A} (m : M A) w a w' : m (opened w) = (Ok a, w') → tenant_transaction m w = (Ok a, w').
Proof. unfold tenant_transaction. fold (opened w). by intros ->. Qed.

Lemma announce_returns org (q : CampaignRecord) w :
  ∃ w', (_ ← tenant_transaction (campaign_event org "campaign.cancelled" q None); mret q) w = (Ok q, w') ∧
        core_of w' = core_of w ∧ (w_next_uuid w ≤ w_next_uuid w')%N.
Proof.
  assert (Ht : total (campaign_event org "campaign.cancelled" q None)) by totality.
  destruct (Ht (opened w)) as (u & w' & E). exists w'.
  split; [eapply bind_of; [by apply txn_of|done]|]. apply kquiet_campaign_event in E. exact E.
Qed.

(** One call makes progress by a batch. *)
Lemma cancel_campaign_step b w p :
  winv w → p ∈ k_campaigns (core_of w) →
  let org := cp_organization_id p in let cid := cp_id p in
  (cp_state p = CampaignState.CANCELLED ∨
   cp_state p ∉ [CampaignState.COMPLETED; CampaignState.FAILED; CampaignState.CANCELLED] ∧
   (Z.of_nat (length (k_attempts (core_of w))) ≤ b ∨
    cp_state p = CampaignState.CANCELLING ∧ idle org cid (core_of w) ∧ backlog org cid (core_of w) ≤ b)) →
  ∃ q w', cancel_campaign [] org cid w = (Ok q, w') ∧ cancelling org cid (b - CANCELLATION_BATCH) w' ∧
    (b ≤ CANCELLATION_BATCH → cp_state q = CampaignState.CANCELLED).
Proof.
  intros HI Hp org cid [Hc|[Hst Hb]].
  - destruct (announce_returns org p (opened w)) as (w' & E & Ek & En). exists p, w'. split; [|split; [|done]].
    + unfold cancel_campaign. eapply bind_of.
      { apply txn_of. unfold begin_cancellation. eapply bind_of; [reflexivity|].
        change (cdb_campaigns (db_campaign (w_db (opened w)))) with (cdb_campaigns (db_campaign (w_db w))). subst org cid.
        rewrite (find_campaign w p _ HI Hp), Hc. cbv beta iota. rewrite bool_decide_eq_true_2 by done. reflexivity. }
      eapply bind_of; [rewrite Hc, bool_decide_eq_true_2 by done; reflexivity|]. rewrite Hc. exact E.
    + split; [unfold winv; rewrite Ek; by eapply kinv_mono|]. exists p. rewrite Ek. auto.
  - destruct (begin_cancellation_returns (opened w) p HI Hp Hst) as (q & w1 & E1 & Hq & Hsame & Hqin & Hidle & Hatt & Hsam).
    fold org cid in E1, Hidle, Hsam. assert (T1 : begin_cancel_txn org cid w = (Ok q, w1)) by by apply txn_of.
    assert (HI1 : winv w1).
    { apply (step_winv camp_deployment org w); [done|]. pose proof (ct_begin_cancel camp_deployment org w cid) as S. by rewrite T1 in S. }
    assert (Hb1 : backlog org cid (core_of w1) ≤ b).
    { destruct Hb as [Hb|(Hc & Hi & Hb)]; [pose proof (backlog_bound org cid (core_of w1)) as Hbb; rewrite Hatt in Hbb; change (core_of (opened w)) with (core_of w) in Hbb; lia|].
      destruct (Hsam Hc Hi) as [_ ->]. done. }
    destruct Hsame as (Sid & Sorg & Skey).
    destruct (cancel_batch_returns (opened w1) q HI1 Hqin Hq) as (q2 & n & fin & w2 & E2 & Hsmall & Hbig).
    rewrite Sorg, Sid in E2, Hsmall, Hbig. fold org cid in E2, Hsmall, Hbig. change (core_of (opened w1)) with (core_of w1) in *.
    assert (T2 : cancel_batch_txn [] org cid w1 = (Ok q2, w2)).
    { apply txn_of. eapply bind_of; [exact E2|done]. }
    assert (HI2 : winv w2).
    { apply (step_winv camp_deployment org w1); [done|]. pose proof (ct_cancel_batch camp_deployment org w1 [] cid) as S. by rewrite T2 in S. }
    assert (Hrun : ∀ r, (if negb (bool_decide (cp_state q2 = CampaignState.CANCELLED)) then mret q2
        else _ ← tenant_transaction (campaign_event org "campaign.cancelled" q2 None); mret q2) w2 = r →
      cancel_campaign [] org cid w = r).
    { intros r Hr. unfold cancel_campaign. apply (bind_of _ _ _ _ _ _ T1). eapply bind_of; [|exact Hr].
      rewrite Hq. exact T2. }
    destruct (Z.le_gt_cases (backlog org cid (core_of w1)) CANCELLATION_BATCH) as [Hs|Hs].
    + destruct (Hsmall Hs) as (Hc2 & (Rid & Rorg & _) & Hin2). destruct (announce_returns org q2 w2) as (w' & E & Ek & En).
      exists q2, w'. split; [apply Hrun; by rewrite Hc2|]. split; [|done].
      split; [unfold winv; rewrite Ek; by eapply kinv_mono|]. exists q2. rewrite Ek. split; [done|]. split; [unfold org; congruence|]. split; [unfold cid; congruence|by left].
    + destruct (Hbig ltac:(lia)) as (-> & Hk2 & (t & ps & Hr2) & Hb2). exists q, w2.
      split; [apply Hrun; by rewrite Hq|]. split; [|lia]. split; [done|]. exists q. rewrite Hk2. split; [done|].
      split; [done|]. split; [done|]. right. split; [done|]. split; [by eapply idle_counts|lia].
Qed.

Lemma cancelling_step org cid b w :
  cancelling org cid b w → ∃ q w', cancel_campaign [] org cid w = (Ok q, w') ∧
    cancelling org cid (b - CANCELLATION_BATCH) w' ∧ (b ≤ CANCELLATION_BATCH → cp_state q = CampaignState.CANCELLED).
Proof.
  intros (HI & p & Hp & <- & <- & Hs). apply cancel_campaign_step; [done..|].
  destruct Hs as [Hc|(Hc & Hi & Hb)]; [by left|]. right. split; [rewrite Hc; set_solver|by right].
Qed.

Lemma cancelling_ends org cid n w :
  cancelling org cid (CANCELLATION_BATCH * (Z.of_nat n + 1)) w →
  ∃ q w', cancel_repeatedly n org cid w = (Ok q, w') ∧ cp_state q = CampaignState.CANCELLED.
Proof.
  revert w. induction n as [|n IH]; intros w Hc; destruct (cancelling_step _ _ _ _ Hc) as (q & w1 & E & Hc1 & Hq); simpl.
  - exists q, w1. split; [done|]. apply Hq. unfold CANCELLATION_BATCH. lia.
  - replace (CANCELLATION_BATCH * (Z.of_nat (S n) + 1) - CANCELLATION_BATCH) with (CANCELLATION_BATCH * (Z.of_nat n + 1)) in Hc1
      by (unfold CANCELLATION_BATCH; lia).
    destruct (IH w1 Hc1) as (q2 & w2 & E2 & Hq2). exists q2, w2. split; [|done]. by apply (bind_of _ _ _ _ _ _ E).
Qed.

(** Cancellation completes: for a campaign that has not completed or failed,
    calling [cancel_campaign] once per batch of a hundred recipient attempts returns
    normally every time, and the last call returns the campaign CANCELLED. *)
Theorem cancellation_completes dep w p n :
  camp_reachable dep w → p ∈ k_campaigns (core_of w) →
  cp_state p ∉ [CampaignState.COMPLETED; CampaignState.FAILED] →
  Z.of_nat (length (k_attempts (core_of w))) ≤ CANCELLATION_BATCH * (Z.of_nat n + 1) →
  ∃ q w', cancel_repeatedly n (cp_organization_id p) (cp_id p) w = (Ok q, w') ∧ cp_state q = CampaignState.CANCELLED.
Proof.
  intros HI%camp_reachable_inv Hp Hst Hn.
  destruct (cancel_campaign_step (CANCELLATION_BATCH * (Z.of_nat n + 1)) w p HI Hp) as (q & w1 & E & Hc1 & Hq).
  { destruct (decide (cp_state p = CampaignState.CANCELLED)); [by left|]. right. split; [set_solver|by left]. }
  destruct n as [|n]; simpl.
  - exists q, w1. split; [done|]. apply Hq. unfold CANCELLATION_BATCH. lia.
  - replace (CANCELLATION_BATCH * (Z.of_nat (S n) + 1) - CANCELLATION_BATCH) with (CANCELLATION_BATCH * (Z.of_nat n + 1)) in Hc1
      by (unfold CANCELLATION_BATCH; lia).
    destruct (cancelling_ends _ _ _ _ Hc1) as (q2 & w2 & E2 & Hq2). exists q2, w2. split; [|done]. by apply (bind_of _ _ _ _ _ _ E).
Qed.

(** ** Preparation *)

(** Commands that never run out of fuel. *)
Definition fueled {A} (m : M A) : Prop := ∀ w, fst (m w) ≠ Err OutOfFuel.

Lemma fueled_bind {A B} (m : M A) (f : A → M B) : fueled m → (∀ a, fueled (f a)) → fueled (m ≫= f).
Proof.
  intros Hm Hf w. specialize (Hm w). unfold mbind, M_bind. destruct (m w) as [[a|e] w1]; [apply Hf|].
  simpl in *. congruence.
Qed.
Lemma fueled_total {A} (m : M A) : total m → fueled m.
Proof. intros Ht w. destruct (Ht w) as (a & w' & E). by rewrite E. Qed.
Lemma fueled_raise {A} e : e ≠ OutOfFuel → fueled (@raise A e).
Proof. intros He w. simpl. congruence. Qed.
Lemma fueled_lift {A} (r : result exn A) : r ≠ Err OutOfFuel → fueled (lift r).
Proof. by intros Hr w. Qed.
Lemma fueled_txn {A} (m : M A) : fueled m → fueled (tenant_transaction m).
Proof. intros Hm w. specialize (Hm (opened w)). unfold tenant_transaction. fold (opened w). by destruct (m (opened w)) as [[]]. Qed.
Lemma fueled_guard err (s t : CampaignState) : guard_transition err s t ≠ Err OutOfFuel.
Proof. unfold guard_transition. by case_bool_decide. Qed.
Lemma fueled_result {A B} (r : result exn A) (f : A → result exn B) :
  r ≠ Err OutOfFuel → (∀ a, f a ≠ Err OutOfFuel) → (r ≫= f) ≠ Err OutOfFuel.
Proof. intros Hr Hf. destruct r as [a|e]; [apply Hf|]. unfold mbind, result_bind. congruence. Qed.
Lemma fueled_dt_add t d : dt_add t d ≠ Err OutOfFuel.
Proof. unfold dt_add. by case_match. Qed.
Lemma fueled_quiet_hours zi now q : quiet_hours_next zi now q ≠ Err OutOfFuel.
Proof.
  unfold quiet_hours_next. destruct (negb _); [done|]. apply fueled_result; [unfold zone_of; by destruct (zi _)|]. intros z.
  apply fueled_result; [apply fueled_dt_add|]. intros local. destruct (negb _); [done|].
  apply fueled_result; [case_match; [apply fueled_dt_add|done]|]. intros day. apply fueled_result; [apply fueled_dt_add|done].
Qed.

Create HintDb fueled.
#[export] Hint Resolve fueled_quiet_hours fueled_guard : fueled.
#[export] Hint Resolve total_ret total_gets total_cgets total_cmodify total_utcnow total_fresh total_enqueue : fueled.

Ltac fuelled :=
  repeat (intros; cbv zeta; lazymatch goal with
  | |- fueled (_ ≫= _) => apply fueled_bind
  | |- fueled (match ?x with _ => _ end) => destruct x
  | |- fueled (tenant_transaction _) => apply fueled_txn
  | |- fueled (raise _) => apply fueled_raise; done
  | |- fueled (lift _) => apply fueled_lift
  | |- of_option ?x _ ≠ _ => destruct x; done
  | |- fueled ?m => first [apply fueled_total; solve [eauto with fueled nocore]
                          |solve [eauto with fueled nocore] | let h := get_head m in unfold h]
  | |- _ => solve [eauto with fueled nocore]
  end).

Lemma fueled_members d z org c s n ms : fueled (materialize_members d z org c s n ms).
Proof. revert n. induction ms as [|m ms IH]; intros n; cbn [materialize_members]; [fuelled|]. apply fueled_bind; [fuelled|done]. Qed.
#[export] Hint Resolve fueled_members : fueled.

Lemma fueled_materialize zi dg org vid : fueled (materialize_txn zi dg org vid).
Proof. fuelled. Qed.
Lemma fueled_prepare dg cn ca org id : fueled (prepare_txn dg cn ca org id).
Proof. fuelled. Qed.
Lemma fueled_seal org id vid n : fueled (seal_txn org id vid n).
Proof. fuelled. Qed.

(** The snapshot a batch works on. *)
Definition snapshot_for (org vid : uuid) (k : Core) : option CampaignAudienceSnapshotRecord :=
  List.find (λ s, N.eqb (sn_organization_id s) org && N.eqb (sn_campaign_revision_id s) vid) (k_snapshots k).

Lemma find_upd {A} (key : A → uuid) (q : A → bool) n x0 x l :
  keyed key n l → List.find q l = Some x0 → key x = key x0 → q x = true → List.find q (upd key x l) = Some x.
Proof.
  intros [Hnd _] Hf Hk Hq. induction l as [|y l IH]; [done|]. rewrite upd_cons. simpl in Hf, Hnd.
  apply NoDup_cons in Hnd as [Hy Hnd]. destruct (N.eqb_spec (key y) (key x)) as [E|E]; simpl; [by rewrite Hq|].
  destruct (q y) eqn:Hqy; [injection Hf as ->; congruence|]. by apply IH.
Qed.

Lemma ran_materialize_batch zi dg org vid limit w s w' :
  winv w → materialize_batch dg zi org vid limit w = (Ok s, w') →
  ∃ v s0, v ∈ k_revisions (core_of w) ∧ cv_id v = vid ∧ snapshot_for org vid (core_of w) = Some s0 ∧
    snapshot_for org vid (core_of w') = Some s ∧ k_revisions (core_of w') = k_revisions (core_of w) ∧
    sn_cursor s = sn_cursor s0 + Z.of_nat (length (page limit (sn_cursor s0) (cd_audience (cv_specification v)))).
Proof.
  intros HI H. unfold winv in HI. unfold materialize_batch in H. read H. read H.
  destruct (List.find _ (cdb_revisions _)) as [v|] eqn:Hv; [|done].
  destruct (List.find _ (cdb_snapshots _)) as [s0|] eqn:Hs; [|done].
  apply found_revision_row in Hv as (Hv & Hvo & Hvi). pose proof (found_snapshot_row _ _ _ _ Hs) as (Hsin & Hso & Hsv).
  destruct (negb _); [done|]. destruct (negb _); [done|].
  ran H as s1 w1 H1. ran H as u w2 H2. apply ran_put_snapshot in H2 as [E2 N2]. injection H as <- <-.
  apply ran_materialize_members in H1 as (rcs & E1 & _ & _ & _ & _ & _ & (R1 & _ & R3 & _)); [|apply HI..|].
  2:{ intros r Hr Hrs. destruct (ki_recipient_ref _ _ HI r Hr) as (s2 & Hs2 & E & Eo).
      assert (s2 = s0) as -> by (eapply (keyed_inj sn_id); [apply HI|done..|congruence]). congruence. }
  exists v, s0. split; [done|]. split; [done|]. split; [done|].
  unfold snapshot_for. rewrite E2, E1. cbn [with_snapshots with_recipients k_snapshots k_revisions].
  unfold snapshot_ident in R1. injection R1 as I1 I2 I3. split; [|split; [done|simpl; by rewrite R3]].
  apply (find_upd _ _ _ s0 _ _ (ki_snapshots _ _ HI)); [done|done|]. simpl. by rewrite I2, I3, Hso, Hsv, !N.eqb_refl.
Qed.

(** The loop: [c] members are resolved at least, and the fuel exceeds what is left. *)
Lemma materialize_all_fueled dep fuel org v w c :
  winv w → v ∈ k_revisions (core_of w) →
  let len := Z.of_nat (length (cd_audience (cv_specification v))) in
  0 ≤ c ≤ len → (∀ s, snapshot_for org (cv_id v) (core_of w) = Some s → c ≤ sn_cursor s) → len - c < Z.of_nat fuel →
  fst (materialize_all (cd_zoneinfo dep) (cd_digest dep) fuel org v w) ≠ Err OutOfFuel ∧
  ∀ s w', materialize_all (cd_zoneinfo dep) (cd_digest dep) fuel org v w = (Ok s, w') →
    winv w' ∧ k_revisions (core_of w') = k_revisions (core_of w).
Proof.
  revert w c. induction fuel as [|fuel IH]; intros w c HI Hv len Hc Hcur Hf; [lia|]. cbn [materialize_all].
  pose proof (fueled_materialize (cd_zoneinfo dep) (cd_digest dep) org (cv_id v) w) as Hfu.
  unfold mbind, M_bind. destruct (materialize_txn _ _ _ _ w) as [[s|e] w1] eqn:Ht; [|split; [simpl in *; congruence|done]].
  assert (HI1 : winv w1).
  { apply (step_winv dep org w); [done|]. pose proof (ct_materialize dep org w (cv_id v)) as S. by rewrite Ht in S. }
  apply txn_committed in Ht. apply ran_materialize_batch in Ht as (v' & s0 & Hv' & Ev & Hs0 & Hs & Er & Hcs); [|done].
  change (core_of (set_w_txn_now _ _)) with (core_of w) in *.
  assert (v' = v) as -> by (eapply (keyed_inj cv_id); [apply HI|done..|congruence]).
  assert (Hs0c : c ≤ sn_cursor s0) by by apply Hcur.
  fold len. destruct (Z.leb_spec len (sn_cursor s)) as [Hle|Hlt].
  { split; [done|]. by intros s' w' [= _ <-]. }
  destruct (IH w1 (sn_cursor s) HI1) as [H1 H2]; [by rewrite Er|fold len; lia| | |].
  - intros s' Hs'. rewrite Hs in Hs'. injection Hs' as ->. done.
  - fold len. enough (1 ≤ Z.of_nat (length (page MATERIALIZATION_BATCH (sn_cursor s0) (cd_audience (cv_specification v))))) by lia.
    unfold page in *. rewrite length_take, length_drop in *. unfold MATERIALIZATION_BATCH in *. subst len. lia.
  - split; [done|]. intros s' w' E. destruct (H2 _ _ E). split; [done|]. congruence.
Qed.

Lemma prepare_txn_revision dep org cid w v s w' :
  winv w → prepare_txn (cd_digest dep) (cd_canonical dep) (cd_canonical_audience dep) org cid w = (Ok (v, s), w') →
  winv w' ∧ v ∈ k_revisions (core_of w') ∧ cv_campaign_id v = cid.
Proof.
  intros HI H. split.
  { apply (step_winv dep org w); [done|]. pose proof (ct_prepare dep org w cid) as S. by rewrite H in S. }
  apply txn_committed in H. ran H as p w1 H1. apply ran_found_campaign in H1 as (_ & _ & _ & Hid).
  destruct (cp_state p); try done.
  - unfold begin_preparation in H. ran H as u2 w2 H2. read H. ran H as vid w3 H3. ran H as sid w4 H4. ran H as p' w5 H5. apply ran_put_campaign in H5 as ((t & ->) & _). read H.
    destruct (violates_revision_number _ _); [done|]. ran H as u6 w6 H6. apply ran_cmodify in H6 as [E6 _].
    ran H as u7 w7 H7. quiet H7. destruct H7 as [E7 _]. read H. destruct (violates_snapshot_revision _ _); [done|].
    ran H as u8 w8 H8. apply ran_cmodify in H8 as [E8 _]. injection H as <- <- <-. rewrite E8.
    change (k_revisions (core (set_cdb_snapshots ?l ?c))) with (cdb_revisions c).
    change (cdb_revisions (db_campaign (w_db w7))) with (k_revisions (core_of w7)). rewrite E7, E6. simpl.
    split; [|done]. apply elem_of_app. right. by apply list_elem_of_singleton.
  - unfold active_preparation in H. read H. destruct (List.find _ (cdb_revisions _)) as [v'|] eqn:Hv; [|done]. read H.
    destruct (List.find _ (cdb_snapshots _)); [|done]. destruct (negb _); [done|]. injection H as <- _ <-.
    apply find_elem in Hv as [Hv Hb]. split; [done|]. apply andb_true_iff in Hb as [[_ Hb%N.eqb_eq]%andb_true_iff _]. congruence.
Qed.

Lemma ran_seal_preparation org cid vid w q w' :
  seal_preparation org cid vid w = (Ok q, w') →
  cp_state q = CampaignState.READY ∧ cp_prepared_revision_id q = Some vid ∧ cp_id q = cid ∧
  k_revisions (core_of w') = k_revisions (core_of w) ∧
  ∃ s, s ∈ k_snapshots (core_of w') ∧ sn_campaign_revision_id s = vid ∧ sn_state s = SnapshotState.SEALED.
Proof.
  intros H. unfold seal_preparation in H. read H. read H.
  destruct (List.find _ (cdb_campaigns _)) as [p|] eqn:Hp; [|done].
  destruct (List.find _ (cdb_snapshots _)) as [s|] eqn:Hs; [|done].
  apply found_campaign_row in Hp as (Hp & Hpo & Hpi). apply found_snapshot_row in Hs as (Hs & Hso & Hsv).
  destruct (negb _); [done|]. read H. destruct (List.find _ (cdb_revisions _)) as [v|]; [|done]. destruct (negb _); [done|].
  ran H as now w1 H1. quiet H1. destruct H1 as [E1 N1]. ran H as u w2 H2. apply ran_put_snapshot in H2 as [E2 N2].
  ran H as u2 w3 H3. quiet H3. destruct H3 as [E3 N3]. apply ran_put_campaign in H as ((t & ->) & E4 & N4).
  split_and!; try done; rewrite E4, E3, E2, E1; [done|]. eexists. split; [apply (upd_self _ _ _ s); [exact Hs|done]|by split].
Qed.

(** C32. Preparation terminates: [prepare_campaign] never exhausts the fuel the model
    gives its loop over the audience, one unit per member and one more, because every
    batch resolves a member; and when it returns, the campaign is READY for a revision
    of its own whose sealed snapshot holds exactly the members of the audience, in
    order. *)
Theorem preparation_terminates dep org cid w :
  camp_reachable dep w →
  let r := prepare_campaign (cd_zoneinfo dep) (cd_digest dep) (cd_canonical dep) (cd_canonical_audience dep) org cid w in
  fst r ≠ Err OutOfFuel ∧
  ∀ p, fst r = Ok p →
    cp_state p = CampaignState.READY ∧ ∃ v s, v ∈ k_revisions (core_of (snd r)) ∧ s ∈ k_snapshots (core_of (snd r)) ∧
      cp_prepared_revision_id p = Some (cv_id v) ∧ cv_campaign_id v = cp_id p ∧
      sn_campaign_revision_id s = cv_id v ∧ sn_state s = SnapshotState.SEALED ∧
      map member_of (recipients_of (core_of (snd r)) s) = cd_audience (cv_specification v).
Proof.
  intros HI%camp_reachable_inv r. subst r. unfold prepare_campaign, mbind, M_bind.
  pose proof (fueled_prepare (cd_digest dep) (cd_canonical dep) (cd_canonical_audience dep) org cid w) as Hfp.
  destruct (prepare_txn _ _ _ _ _ w) as [[[v s]|e] w1] eqn:Ht; [|split; [simpl in *; congruence|done]].
  apply prepare_txn_revision in Ht as (HI1 & Hv & Hvc); [|done]. cbn [fst].
  destruct (materialize_all_fueled dep (S (length (cd_audience (cv_specification v)))) org v w1 0 HI1 Hv) as [Hm1 Hm2]; [lia| |lia|].
  { intros s' Hs'. apply find_elem in Hs' as [Hs' _]. destruct (ki_snapshot_ok _ _ HI1 s' Hs') as (? & _ & _ & _ & ? & _). lia. }
  destruct (materialize_all _ _ _ _ _ w1) as [[s2|e] w2] eqn:Ha; [|split; [simpl in *; congruence|done]].
  destruct (Hm2 _ _ eq_refl) as [HI2 Er2]. pose proof (fueled_seal org cid (cv_id v) (sn_resolved_count s2) w2) as Hfs.
  destruct (seal_txn _ _ _ _ w2) as [[q|e] w3] eqn:Hseal; [|split; [simpl in *; congruence|done]].
  split; [done|]. intros p [= <-]. cbn [snd].
  assert (Hrev : revision_of (core_of w2) cid (cv_id v)).
  { intros v' Hv' E. rewrite Er2 in Hv'. assert (v' = v) as -> by (eapply (keyed_inj cv_id); [apply HI1|done..]). done. }
  assert (HI3 : winv w3).
  { apply (step_winv dep org w2); [done|]. pose proof (ct_seal dep org w2 cid (cv_id v) (sn_resolved_count s2) Hrev) as S.
    by rewrite Hseal in S. }
  apply txn_committed in Hseal. ran Hseal as q' w4 H4. apply ran_seal_preparation in H4 as (Q1 & Q2 & Q3 & Q4 & (s3 & Q5 & Q6 & Q7)).
  ran Hseal as u w5 H5. apply kquiet_campaign_event in H5 as [E5 _]. injection Hseal as <- <-. rewrite E5 in *.
  split; [done|]. exists v, s3. change (core_of (set_w_txn_now _ _)) with (core_of w2) in Q4.
  destruct (ki_snapshot_ok _ _ HI3 s3) as (v' & V1 & V2 & _ & _ & V5 & _ & _ & V8); [by rewrite E5|].
  rewrite E5 in V1, V5. assert (Hv3 : v ∈ k_revisions (core_of w4)) by by rewrite Q4, Er2.
  assert (v' = v) as ->.
  { eapply (keyed_inj cv_id); [apply HI3|rewrite E5; done|rewrite E5; done|congruence]. }
  split_and!; try done; [congruence|]. rewrite V5, (V8 Q7), Nat2Z.id. by rewrite take_ge.
Qed.

(** ** Members without a customer *)

(** The verdict on a member whose customer does not exist is returned... *)
Lemma eligibility_unknown zi org c cu i cv ch q w :
  customer_exists org cu (db_customer (w_db w)) = false →
  ∃ el w1, eligibility zi org c cu i cv ch q w = (Ok el, w1) ∧ db_customer (w_db w1) = db_customer (w_db w) ∧
           el_reason el = EligibilityReason.CUSTOMER_INACTIVE.
Proof.
  intros Hno. assert (Hcu : customer_of org cu (db_customer (w_db w)) = None).
  { unfold customer_of. destruct (List.find _ _) as [r|] eqn:Hf; [|done]. apply find_elem in Hf as [Hr Hb].
    unfold customer_exists in Hno. rewrite existsb_none in Hno. by rewrite (Hno r Hr) in Hb. }
  assert (Ht : total (policy_epoch org ch)) by totality. destruct (Ht w) as (e & w1 & E).
  unfold eligibility. eexists _, w1. split; [|split].
  - eapply bind_of; [reflexivity|]. apply (bind_of _ _ _ _ _ _ E). eapply bind_of; [reflexivity|].
    rewrite Hcu. reflexivity.
  - unfold policy_epoch in E. read E. destruct (List.find _ _); [by injection E as _ <-|].
    ran E as id w2 H2. injection H2 as _ <-. read E. ran E as u w3 H3. injection H3 as _ <-. by injection E as _ <-.
  - done.
Qed.

(** ... but the recipient row that would record it violates the foreign key. *)
Lemma materialize_member_unknown dg zi org c spec s m w :
  customer_exists org (am_customer_id m) (db_customer (w_db w)) = false →
  ∃ w1, materialize_member dg zi org c spec s m w = (Err IntegrityError, w1).
Proof.
  intros Hno. destruct (eligibility_unknown zi org c _ (am_identity_id m) (am_conversation_id m) (cd_channel spec)
    (cd_quiet_hours spec) w Hno) as (el & w1 & E & Ed & _). unfold materialize_member. eexists.
  apply (bind_of _ _ _ _ _ _ E). eapply bind_of; [reflexivity|]. eapply bind_of; [reflexivity|]. eapply bind_of; [reflexivity|].
  cbv beta zeta. unfold recipient_references. cbn [rc_organization_id rc_customer_id w_db set_w_next_uuid]. rewrite Ed, Hno. simpl.
  rewrite orb_true_r. reflexivity.
Qed.

(** A member whose customer does not exist stops the preparation: [eligibility] has
    a verdict for it, CUSTOMER_INACTIVE, but the recipient row that records the verdict
    refers to the customer, so the batch raises IntegrityError and rolls back, however
    often it is repeated; the campaign stays PREPARING. *)
Theorem unknown_customer_blocks_preparation dep w v s m :
  camp_reachable dep w → v ∈ k_revisions (core_of w) →
  cd_audience_source (cv_specification v) = AudienceSourceType.EXPLICIT_CUSTOMERS →
  snapshot_for (cv_organization_id v) (cv_id v) (core_of w) = Some s → sn_state s = SnapshotState.OPEN →
  cd_audience (cv_specification v) !! Z.to_nat (sn_cursor s) = Some m →
  customer_exists (cv_organization_id v) (am_customer_id m) (db_customer (w_db w)) = false →
  let r := materialize_txn (cd_zoneinfo dep) (cd_digest dep) (cv_organization_id v) (cv_id v) w in
  fst r = Err IntegrityError ∧ w_db (snd r) = w_db w.
Proof.
  intros HI%camp_reachable_inv Hv Hsrc Hs Hopen Hm Hno r. unfold winv in HI.
  assert (Hfr : List.find (is_revision (cv_organization_id v) (cv_id v)) (cdb_revisions (db_campaign (w_db w))) = Some v).
  { destruct (List.find _ _) as [v'|] eqn:Hf.
    - apply found_revision_row in Hf as (Hv' & _ & E). f_equal. by eapply (keyed_inj cv_id); [apply HI|..].
    - apply (find_none_elem _ _ v) in Hf; [|done]. unfold is_revision in Hf. by rewrite !N.eqb_refl in Hf. }
  assert (Hpage : ∃ rest, page MATERIALIZATION_BATCH (sn_cursor s) (cd_audience (cv_specification v)) = m :: rest).
  { apply drop_S in Hm. unfold page. rewrite Hm. unfold MATERIALIZATION_BATCH. simpl. by eexists. }
  destruct Hpage as [rest Hpage].
  destruct (materialize_member_unknown (cd_digest dep) (cd_zoneinfo dep) (cv_organization_id v) (cv_campaign_id v)
    (cv_specification v) s m (opened w) Hno) as [w1 E].
  assert (Er : r = (Err IntegrityError, set_w_db (w_db w) w1)); [|by rewrite Er].
  subst r. unfold materialize_txn, tenant_transaction. fold (opened w). unfold materialize_batch, revision_row, snapshot_row, cgets, gets, mbind, M_bind.
  change (w_db (opened w)) with (w_db w). rewrite Hfr. change (cdb_snapshots (db_campaign (w_db w))) with (k_snapshots (core_of w)).
  unfold snapshot_for in Hs. rewrite Hs. rewrite (bool_decide_eq_true_2 _ Hopen), (bool_decide_eq_true_2 _ Hsrc). cbn [negb].
  rewrite Hpage. cbn [materialize_members]. unfold mbind, M_bind. by rewrite E.
Qed.

(** ** The theorems at the demonstration *)

Lemma cancellation_completes_witness :
  ∃ q w', cancel_repeatedly 0 demo_org demo_campaign_id c_ready2 = (Ok q, w') ∧ cp_state q = CampaignState.CANCELLED.
Proof.
  apply (cancellation_completes camp_deployment c_ready2 (first_campaign c_ready2) 0).
  - exact c_ready2_reachable.
  - first_row.
  - apply (bool_decide_unpack _). vm_compute. exact I.
  - vm_compute. discriminate.
Defined.

Lemma preparation_terminates_witness :
  fst (prepare_campaign (cd_zoneinfo camp_deployment) (cd_digest camp_deployment) (cd_canonical camp_deployment)
    (cd_canonical_audience camp_deployment) demo_org demo_campaign_id c_resolved) ≠ Err OutOfFuel.
Proof. apply (preparation_terminates camp_deployment demo_org demo_campaign_id c_resolved). exact c_resolved_reachable. Defined.

(** The customers are deleted: a step of the environment. *)
Definition desert (w : World) : World :=
  set_w_db (mkDB [] [] [] [] [] [] [] [] [] [] [] [] (db_campaign (w_db w)) empty_customer_db empty_messaging_db) w.

Lemma desert_step dep org w : camp_step dep org w (desert w).
Proof. apply ct_env; [done|]. apply N.le_refl. Qed.

Definition c_deserted : World := desert c_preparing.

Lemma c_deserted_reachable : demo_reachable c_deserted.
Proof.
  eapply camp_reachable_steps; [apply c_preparing_reachable|].
  exact (demo_step _ c_deserted (desert_step _ _ c_preparing)).
Qed.

Definition deserted_revision : CampaignRevisionRecord := first_revision c_deserted.

Lemma unknown_customer_blocks_preparation_witness :
  fst (materialize_txn (cd_zoneinfo camp_deployment) (cd_digest camp_deployment) (cv_organization_id deserted_revision)
    (cv_id deserted_revision) c_deserted) = Err IntegrityError.
Proof.
  refine (proj1 (unknown_customer_blocks_preparation camp_deployment c_deserted deserted_revision
    (hd (new_snapshot (λ s, s) (λ _, EmptyString) 0 0 0 demo_draft 0) (k_snapshots (core_of c_deserted)))
    {| am_customer_id := 51; am_identity_id := 61; am_conversation_id := 71 |} c_deserted_reachable _ _ _ _ _ _)).
  - first_row.
  - vm_compute. reflexivity.
  - vm_compute. reflexivity.
  - vm_compute. reflexivity.
  - vm_compute. reflexivity.
  - vm_compute. reflexivity.
Defined.
