(* ===== verification/CampaignThrottle.v ===== *)
(** * CampaignThrottle: the per-minute windows of a run

    [authorize_permit] is the only operation that touches the windows or adds a permit:
    [keeps] shows it for every other transaction by its structure. A window is unique for
    its run, channel and minute, counts the permits reserved in it and never exceeds the
    limit of the revision. *)

From S2P Require Import Prelude.
From S2P Require Import Errors.
From S2P Require Import Lifecycles.
From S2P Require Import ScheduleSpec.
From S2P Require Import Recurrence.
From S2P Require Import MessagingStore.
From S2P Require Import CustomerStore.
From S2P Require Import CampaignStore.
From S2P Require Import Store.
From S2P Require Import StoreLemmas.
From S2P Require Import Tables.
From S2P Require Import CampaignRepository.
From S2P Require Import CampaignService.
From S2P Require Import CampaignSpec.
From S2P Require Import CampaignEffects.
From S2P Require Import CampaignOps.
From S2P Require Import CampaignSends.
From S2P Require Import CampaignSystem.
From S2P Require Import CampaignTrace.
From S2P Require Import CampaignDemo.
From S2P Require Import CampaignSafety.

(** ** Commands that leave a table alone *)

Section keeps.
Context {X : Type} (g : CampaignDB → X).

Definition keeps {A} (m : M A) : Prop := ∀ w, g (db_campaign (w_db (snd (m w)))) = g (db_campaign (w_db w)).

Lemma keeps_bind {A B} (m : M A) (f : A → M B) : keeps m → (∀ a, keeps (f a)) → keeps (m ≫= f).
Proof.
  intros Hm Hf w. specialize (Hm w). unfold mbind, M_bind. destruct (m w) as [[a|e] w1]; [|done].
  rewrite (Hf a w1). exact Hm.
Qed.
Lemma keeps_ret {A} (a : A) : keeps (mret a).
Proof. done. Qed.
Lemma keeps_raise {A} e : keeps (@raise A e).
Proof. done. Qed.
Lemma keeps_lift {A} (r : result exn A) : keeps (lift r).
Proof. done. Qed.
Lemma keeps_gets {A} (f : World → A) : keeps (gets f).
Proof. done. Qed.
Lemma keeps_cgets {A} (f : CampaignDB → A) : keeps (cgets f).
Proof. done. Qed.
Lemma keeps_utcnow : keeps utcnow.
Proof. done. Qed.
Lemma keeps_fresh : keeps fresh_uuid.
Proof. done. Qed.
Lemma keeps_cmodify f : (∀ c, g (f c) = g c) → keeps (cmodify f).
Proof. intros Hf w. apply Hf. Qed.
Lemma keeps_modify_db f : (∀ d, db_campaign (f d) = db_campaign d) → keeps (modify_db f).
Proof. intros Hf w. simpl. by rewrite Hf. Qed.
Lemma keeps_txn {A} (m : M A) : keeps m → keeps (tenant_transaction m).
Proof.
  intros Hm w. unfold tenant_transaction. set (w0 := set_w_txn_now _ _). specialize (Hm w0).
  by destruct (m w0) as [[a|e] w1].
Qed.
Lemma keeps_forM {A} (f : A → M unit) l : (∀ a, keeps (f a)) → keeps (forM_ f l).
Proof. intros Hf. induction l; simpl; [apply keeps_ret|by apply keeps_bind]. Qed.
End keeps.

Create HintDb keeps.
#[export] Hint Resolve keeps_ret keeps_raise keeps_lift keeps_gets keeps_cgets keeps_utcnow keeps_fresh : keeps.

Ltac kept :=
  repeat (intros; cbv zeta; lazymatch goal with
  | |- keeps _ (_ ≫= _) => apply keeps_bind
  | |- keeps _ (match ?x with _ => _ end) => destruct x
  | |- keeps _ (forM_ _ _) => apply keeps_forM
  | |- keeps _ (tenant_transaction _) => apply keeps_txn
  | |- keeps _ (cmodify _) => apply keeps_cmodify; intros; repeat case_match; reflexivity
  | |- keeps _ (modify_db _) => apply keeps_modify_db; reflexivity
  | |- keeps _ ?m => first [solve [eauto with keeps nocore] | let h := get_head m in unfold h]
  end).

Abbreviation same_windows := (keeps cdb_windows).

(** The windows and which permits there are. *)
Definition ledger (c : CampaignDB) : list CampaignThrottleWindowRecord * list uuid :=
  (cdb_windows c, map pm_id (cdb_permits c)).

Abbreviation same_ledger := (keeps ledger).
Abbreviation ledger_of w := (ledger (db_campaign (w_db w))).

Lemma keeps_members d z org c s n ms : same_ledger (materialize_members d z org c s n ms).
Proof. revert n. induction ms as [|m ms IH]; intros n; cbn [materialize_members]; [kept|]. apply keeps_bind; [kept|done]. Qed.

Lemma keeps_put_permit p : same_ledger (put_permit p).
Proof.
  apply keeps_cmodify. intros c. unfold ledger. f_equal. apply (map_upd pm_id pm_id p p); [|done]. by intros x _ ->.
Qed.
#[export] Hint Resolve keeps_members keeps_put_permit : keeps.


(** ** Reserving *)



Abbreviation windows w := (cdb_windows (db_campaign (w_db w))).






(** ** The invariant of the windows *)


















