(* ===== verification/EventPlatform.v ===== *)
(** * EventPlatform: errors, backoff and subjects of the event platform

    [events/errors.py] (the failure classes), [events/backoff.py] and
    [events/subjects.py]. Seconds are rationals: the code scales a float by a power
    of two, which is exact, and takes minima. *)

From Stdlib Require Import QArith Qminmax.
From S2P Require Import Prelude.
From S2P Require Import PyText.
From S2P Require Import Conditions.

Open Scope Z_scope.

(** ** Errors *)

Inductive FailureClass : Type := RETRYABLE | TERMINAL.

(** [EventInternalError] is the base class raised as such. *)
Inductive EventPlatformError : Type :=
| EventInternalError
| EventContractError
| UnknownEventTypeError
| UnsupportedEventVersionError
| SubjectValidationError
| EventTenantScopeError
| EventPublishError
| DurableTransportUnavailableError
| HandlerRetryableError
| HandlerTerminalError.

Definition event_error_code (e : EventPlatformError) : string :=
  match e with
  | EventInternalError => "NXS_EVENT_INTERNAL"
  | EventContractError => "NXS_EVENT_CONTRACT_INVALID"
  | UnknownEventTypeError => "NXS_EVENT_TYPE_UNKNOWN"
  | UnsupportedEventVersionError => "NXS_EVENT_VERSION_UNSUPPORTED"
  | SubjectValidationError => "NXS_EVENT_SUBJECT_INVALID"
  | EventTenantScopeError => "NXS_EVENT_TENANT_SCOPE"
  | EventPublishError => "NXS_EVENT_PUBLISH_FAILED"
  | DurableTransportUnavailableError => "NXS_EVENT_DURABLE_TRANSPORT_UNAVAILABLE"
  | HandlerRetryableError => "NXS_EVENT_HANDLER_RETRYABLE"
  | HandlerTerminalError => "NXS_EVENT_HANDLER_TERMINAL"
  end.

Definition failure_class (e : EventPlatformError) : FailureClass :=
  match e with
  | EventPublishError | DurableTransportUnavailableError | HandlerRetryableError => RETRYABLE
  | _ => TERMINAL
  end.

(** A failure the pipeline sees: an error of the platform, another [NxsError] with
    its code, or any other exception; the latter two with the class names of their
    [__mro__], the first of which is the name of the type. *)
Inductive failure : Type :=
| Platform (e : EventPlatformError)
| OtherNxs (code : string) (mro : list string)
| Foreign (mro : list string).

Definition RETRYABLE_NAMES : list string :=
  ["TimeoutError"; "ConnectionError"; "ConnectionResetError"; "ConnectionRefusedError"; "OSError";
   "BrokenPipeError"; "NoRespondersError"; "ServiceUnavailableError"; "DisconnectedError";
   "OperationalError"; "InterfaceError"; "DBAPIError"; "InternalError_"].

Definition classify_names (mro : list string) : FailureClass :=
  if existsb (λ n, bool_decide (n ∈ RETRYABLE_NAMES)) mro then RETRYABLE else TERMINAL.

Definition classify_failure (exc : failure) : FailureClass :=
  match exc with
  | Platform e => failure_class e
  | OtherNxs _ mro | Foreign mro => classify_names mro
  end.

Definition safe_error_code (exc : failure) : string :=
  match exc with
  | Platform e => event_error_code e
  | OtherNxs code _ => code
  | Foreign mro => String.substring 0 64 (hd EmptyString mro)
  end.

(** ** Backoff *)

Definition MAX_EXPONENT : Z := 20.

Definition backoff_delay (attempt : Z) (base_seconds max_seconds : Q) : Q :=
  if attempt <? 1 then 0%Q
  else Qmin max_seconds (base_seconds * inject_Z (2 ^ Z.min (attempt - 1) MAX_EXPONENT))%Q.

Definition should_dead_letter (attempt max_attempts : Z) : bool := max_attempts <=? attempt.

(** Backoff is bounded and never shrinks: with a positive base not above the
    maximum, which the settings validate, every retry waits at least the base and at
    most the maximum, and a later attempt waits at least as long as an earlier one. *)
Theorem backoff_bounded (base max : Q) (attempt : Z) :
  (0 < base)%Q → (base <= max)%Q → 1 ≤ attempt →
  (base <= backoff_delay attempt base max <= max)%Q ∧
  ∀ later, attempt ≤ later → (backoff_delay attempt base max <= backoff_delay later base max)%Q.
Proof.
  intros Hb Hm Ha. unfold backoff_delay.
  assert (Hscale : ∀ a b, 1 ≤ a → a ≤ b → (base * inject_Z a <= base * inject_Z b)%Q).
  { intros a b _ Hab. apply Qmult_le_l; [done|]. by rewrite <- Zle_Qle. }
  assert (Hpow : ∀ a, 1 ≤ a → 1 ≤ 2 ^ Z.min (a - 1) MAX_EXPONENT).
  { intros a H. unfold MAX_EXPONENT. assert (0 < 2 ^ Z.min (a - 1) 20) by (apply Z.pow_pos_nonneg; lia). lia. }
  rewrite (proj2 (Z.ltb_ge attempt 1)) by done. split; [split|].
  - apply Q.min_glb; [done|]. eapply Qle_trans; [|apply (Hscale 1); [lia|by apply Hpow]].
    change (inject_Z 1) with 1%Q. rewrite Qmult_1_r. apply Qle_refl.
  - apply Q.le_min_l.
  - intros later Hl. rewrite (proj2 (Z.ltb_ge later 1)) by lia.
    apply Q.min_le_compat_l, Hscale; [by apply Hpow|].
    apply Z.pow_le_mono_r; [lia|]. unfold MAX_EXPONENT. lia.
Qed.

(** The default settings: 1 s doubling up to 300 s. *)
Lemma backoff_bounded_witness :
  (1 <= backoff_delay 5 1 300 <= 300)%Q ∧ (backoff_delay 5 1 300 == 16)%Q ∧ (backoff_delay 40 1 300 == 300)%Q.
Proof.
  split; [|by vm_compute].
  exact (proj1 (backoff_bounded 1 300 5 ltac:(done) ltac:(done) ltac:(done))).
Defined.

(** ** Subjects *)

Inductive SubjectScope : Type := TENANT | GLOBAL.

Definition scope_value (s : SubjectScope) : string :=
  match s with TENANT => "tenant" | GLOBAL => "global" end.

(** [SubjectScope(value)] *)
Definition scope_of (value : string) : option SubjectScope :=
  if String.eqb value "tenant" then Some TENANT
  else if String.eqb value "global" then Some GLOBAL else None.

Record Subject : Type := mkSubject {
  prefix : string;
  environment : string;
  scope : SubjectScope;
  domain : string;
  event : string;
}.

(** [str(subject)] *)
Definition subject_str (s : Subject) : string :=
  prefix s +:+ "." +:+ environment s +:+ "." +:+ scope_value (scope s) +:+ "." +:+
  domain s +:+ "." +:+ event s.

Definition MAX_SUBJECT_LEN : Z := 240.

Definition MAX_TOKEN_LEN : Z := 48.

Definition is_lower (c : ascii) : bool := between "a" "z" c.

Definition is_alnum (c : ascii) : bool := between "a" "z" c || between "0" "9" c.

(** The rest of [_TOKEN] after its first letter: runs of [a-z0-9] separated by single
    underscores. [pending] says that an underscore has just been read. *)
Fixpoint token_rest (pending : bool) (s : string) : bool :=
  match s with
  | EmptyString => negb pending
  | String c s =>
      if Ascii.eqb c "_" then negb pending && token_rest true s
      else is_alnum c && token_rest false s
  end.

(** [_TOKEN.match] *)
Definition token_match (s : string) : bool :=
  match s with
  | EmptyString => false
  | String c s => is_lower c && token_rest false s
  end.

(** [_EVENT.match]: one to five tokens separated by dots. *)
Definition event_match (s : string) : bool :=
  forallb token_match (split_dots s) && (length (split_dots s) <=? 5)%nat.

Abbreviation bad_subject := (Platform SubjectValidationError).

(** [_token] and [_event_token] *)
Definition token (value : string) : result failure string :=
  let candidate := strip value in
  if (slen candidate =? 0) || (MAX_TOKEN_LEN <? slen candidate) || negb (token_match candidate)
  then Err bad_subject else Ok candidate.

Definition event_token (value : string) : result failure string :=
  let candidate := strip value in
  if (slen candidate =? 0) || (MAX_TOKEN_LEN * 3 <? slen candidate) || negb (event_match candidate)
  then Err bad_subject else Ok candidate.

Definition wildcard (c : ascii) : bool := Ascii.eqb c "*" || Ascii.eqb c ">" || Ascii.eqb c " ".

Definition build_subject (prefix environment : string) (scope : SubjectScope) (domain event : string)
    : result failure Subject :=
  prefix ← token prefix;
  environment ← token environment;
  domain ← token domain;
  event ← event_token event;
  let subject := mkSubject prefix environment scope domain event in
  let rendered := subject_str subject in
  if MAX_SUBJECT_LEN <? slen rendered then Err bad_subject
  else if has_char wildcard rendered then Err bad_subject
  else Ok subject.

Definition parse_subject (raw : string) : result failure Subject :=
  if (slen raw =? 0) || (MAX_SUBJECT_LEN <? slen raw) then Err bad_subject
  else
    match split_dots raw with
    | prefix :: environment :: scope :: domain :: ((_ :: _) as event_parts) =>
        match scope_of scope with
        | None => Err bad_subject
        | Some resolved =>
            build_subject prefix environment resolved domain (String.concat "." event_parts)
        end
    | _ => Err bad_subject
    end.

(** [subscribe_filter] *)
Definition subscribe_filter (prefix environment : string) (scope : option SubjectScope)
    (domain : option string) : result failure string :=
  prefix ← token prefix;
  environment ← token environment;
  let segments := [prefix; environment] in
  segments ← match scope, domain with
             | Some s, Some d => d ← token d; Ok (segments ++ [scope_value s; d])
             | Some s, None => Ok (segments ++ [scope_value s])
             | None, Some _ => Err bad_subject
             | None, None => Ok segments
             end;
  Ok (String.concat "." (segments ++ [">"%string])).

(** *** Tokens are already stripped and free of dots *)

(** The characters of a token. *)
Definition token_char (c : ascii) : bool := Ascii.eqb c "_" || is_alnum c.

Lemma token_char_plain c : token_char c = true → is_space c = false ∧ Ascii.eqb c "." = false.
Proof. destruct c as [[] [] [] [] [] [] [] []]; vm_compute; (by intros) || done. Qed.

Lemma token_rest_chars pending s : token_rest pending s = true → has_char (λ c, negb (token_char c)) s = false.
Proof.
  revert pending. induction s as [|c s IH]; intros pending; [done|]. cbn. unfold token_char.
  destruct (Ascii.eqb c "_"); rewrite andb_true_iff; intros [H1 H2]; [by eapply IH|].
  rewrite H1. by eapply IH.
Qed.

Lemma token_match_chars s : token_match s = true → has_char (λ c, negb (token_char c)) s = false.
Proof.
  destruct s as [|c s]; [done|]. cbn. rewrite andb_true_iff. intros [H1 H2%token_rest_chars].
  rewrite H2, orb_false_r. unfold token_char, is_alnum. unfold is_lower in H1. by rewrite H1, orb_true_r.
Qed.

Lemma has_dot_char s : has_dot s = has_char (λ c, Ascii.eqb c ".") s.
Proof. induction s as [|c s IH]; [done|]. cbn. by rewrite IH. Qed.

Lemma token_match_plain s : token_match s = true → has_char is_space s = false ∧ has_dot s = false.
Proof.
  intros H%token_match_chars. rewrite has_dot_char. split.
  - eapply has_char_impl; [|exact H]. intros c Hc. apply negb_true_iff. apply not_true_iff_false.
    intros [H1 _]%token_char_plain. congruence.
  - eapply has_char_impl; [|exact H]. intros c Hc. apply negb_true_iff. apply not_true_iff_false.
    intros [_ H1]%token_char_plain. cbn in Hc. congruence.
Qed.

(** *** Splitting what was joined *)

Lemma split_dots_cons a b : has_dot a = false → split_dots (a +:+ "." +:+ b) = a :: split_dots b.
Proof.
  induction a as [|c a IH]; [done|]. intros H. change (has_dot (String c a)) with (Ascii.eqb c "." || has_dot a) in H.
  apply orb_false_iff in H as [Hc Ha].
  change (String c a +:+ "." +:+ b) with (String c (a +:+ "." +:+ b)). cbn [split_dots].
  by rewrite Hc, IH.
Qed.

Lemma concat_split s : String.concat "." (split_dots s) = s.
Proof.
  induction s as [|c s IH]; [done|]. cbn [split_dots]. pose proof (split_dots_not_nil s) as Hn.
  destruct (Ascii.eqb_spec c ".") as [->|_].
  - destruct (split_dots s) as [|w ws]; [done|]. rewrite <- IH. done.
  - destruct (split_dots s) as [|w ws]; [done|]. rewrite <- IH. by destruct ws.
Qed.

Lemma has_char_split (p : ascii → bool) s :
  p "."%char = false → (∀ w, w ∈ split_dots s → has_char p w = false) → has_char p s = false.
Proof.
  intros Hp. induction s as [|c s IH]; [done|]. cbn [split_dots has_char].
  pose proof (split_dots_not_nil s) as Hn. destruct (Ascii.eqb_spec c ".") as [->|_].
  - intros Hw. rewrite Hp. apply IH. intros w Hin. apply Hw. by constructor.
  - destruct (split_dots s) as [|w ws]; [done|]. intros Hw.
    pose proof (Hw (String c w) ltac:(by constructor)) as H. cbn in H. apply orb_false_iff in H as [-> H].
    apply IH. intros w' [->|Hin]%elem_of_cons; [done|]. apply Hw. by constructor.
Qed.

(** ** Round trip *)

Lemma token_Ok value t :
  token value = Ok t → token_match t = true ∧ has_dot t = false ∧ token t = Ok t.
Proof.
  unfold token. destruct (_ || _ || _) eqn:H; [done|]. intros [= <-].
  rewrite !orb_false_iff, negb_false_iff in H. destruct H as [[H1 H2] H3].
  destruct (token_match_plain _ H3) as [Hs Hd]. rewrite (strip_plain _ Hs). by rewrite H1, H2, H3.
Qed.

Lemma event_token_Ok value t : event_token value = Ok t → event_token t = Ok t.
Proof.
  unfold event_token. destruct (_ || _ || _) eqn:H; [done|]. intros [= <-].
  rewrite !orb_false_iff, negb_false_iff in H. destruct H as [[H1 H2] H3].
  assert (Hs : has_char is_space (strip value) = false).
  { apply has_char_split; [done|]. intros w Hw. apply token_match_plain.
    unfold event_match in H3. apply andb_true_iff in H3 as [H3 _]. rewrite forallb_forall in H3.
    by apply H3, list_elem_of_In. }
  rewrite (strip_plain _ Hs). by rewrite H1, H2, H3.
Qed.

Lemma scope_of_value s : scope_of (scope_value s) = Some s ∧ has_dot (scope_value s) = false.
Proof. by destruct s. Qed.

(** Subjects survive the trip through the broker: a subject that [build_subject]
    accepted is recovered, segment by segment, by [parse_subject] from its string. *)
Theorem subject_roundtrip prefix0 environment0 sc domain0 event0 s :
  build_subject prefix0 environment0 sc domain0 event0 = Ok s → parse_subject (subject_str s) = Ok s.
Proof.
  unfold build_subject. rewrite bind_Ok. intros (p & Hp & H). rewrite bind_Ok in H. destruct H as (e & He & H).
  rewrite bind_Ok in H. destruct H as (d & Hd & H). rewrite bind_Ok in H. destruct H as (v & Hv & H).
  apply token_Ok in Hp as (_ & Dp & Hp), He as (_ & De & He), Hd as (_ & Dd & Hd). apply event_token_Ok in Hv.
  destruct (MAX_SUBJECT_LEN <? _) eqn:Hl; [done|]. destruct (has_char _ _) eqn:Hw; [done|]. injection H as <-.
  unfold parse_subject. rewrite Hl, orb_false_r.
  assert (Hne : (slen (subject_str (mkSubject p e sc d v)) =? 0) = false).
  { unfold subject_str, slen. cbn [prefix]. destruct p as [|c p]; [done|]. apply Z.eqb_neq.
    match goal with |- context [String c p +:+ ?x] => change (String c p +:+ x) with (String c (p +:+ x)) end.
    cbn [String.length]. lia. }
  rewrite Hne. unfold subject_str at 1. cbn [prefix environment scope domain event].
  destruct (scope_of_value sc) as [Hsc Dsc].
  rewrite !split_dots_cons by done.
  pose proof (split_dots_not_nil v) as Hn. pose proof (concat_split v) as Hc.
  destruct (split_dots v) as [|w ws]; [done|]. rewrite Hsc, Hc.
  unfold build_subject. rewrite Hp, He, Hd, Hv. cbn [mbind result_bind]. by rewrite Hl, Hw.
Qed.

Lemma subject_roundtrip_witness :
  parse_subject "nxs.production.tenant.workflow.run.started" =
  Ok (mkSubject "nxs" "production" TENANT "workflow" "run.started").
Proof.
  exact (subject_roundtrip "nxs" " production" TENANT "workflow" "run.started"
    (mkSubject "nxs" "production" TENANT "workflow" "run.started") ltac:(vm_compute; reflexivity)).
Defined.
