(* ===== verification/EventOutbox.v ===== *)
(** * EventOutbox: the transactional outbox and its relay

    [infrastructure/event_outbox.py], [infrastructure/event_dead_letter.py] and the
    [OutboxRelay] of [events/publisher.py]. A row of the outbox is claimed under a
    lease, published to the broker outside any transaction, and only then marked.
    [relay_step] interleaves the transactions of any number of relay workers,
    crashes included, with enqueuing and with the clock.

    Pydantic is a parameter: [model_dump] and [model_validate] are the JSON form of an
    envelope and its validation; what is used of them is that a dumped envelope
    validates to itself. The broker is an oracle: whether it stored the message, and
    whether the call returned an acknowledgement or raised. The human-readable
    [error_summary] of a dead letter is left out. *)

From Stdlib Require Import QArith Qround.
From S2P Require Import Prelude.
From S2P Require Import PyText.
From S2P Require Import Conditions.
From S2P Require Import Store.
From S2P Require Import EventPlatform.

Open Scope Z_scope.

(** ** Tables *)

Module OutboxStatus.
Inductive OutboxStatus : Type := PENDING | PUBLISHING | PUBLISHED | FAILED | DEAD.
#[global] Instance eq_dec : EqDecision OutboxStatus.
Proof. solve_decision. Defined.
End OutboxStatus.
Abbreviation OutboxStatus := OutboxStatus.OutboxStatus.

Record EventOutboxRecord : Type := mkOutbox {
  ob_id : uuid;
  ob_organization_id : uuid;
  ob_event_type : string;
  ob_event_version : Z;
  ob_subject : string;
  ob_envelope : json;
  ob_status : OutboxStatus;
  ob_attempt_count : Z;
  ob_available_at : Z;
  ob_last_error_code : option string;
  ob_lease_owner : option string;
  ob_lease_expires_at : option Z;
  ob_published_at : option Z;
  ob_updated_at : Z;
}.

Record EventDeadLetterRecord : Type := mkDeadLetter {
  dl_organization_id : uuid;
  dl_event_id : uuid;
  dl_event_type : string;
  dl_event_version : Z;
  dl_origin : string;
  dl_consumer_name : option string;
  dl_failure_class : FailureClass;
  dl_error_code : string;
  dl_attempt_count : Z;
  dl_envelope : json;
}.

Record OutboxItem : Type := mkItem {
  it_id : uuid;
  it_organization_id : uuid;
  it_event_type : string;
  it_event_version : Z;
  it_subject : string;
  it_envelope : json;
  it_attempt_count : Z;
}.

(** The settings of [EventsSettings] the relay reads. *)
Record EventsSettings : Type := {
  publisher_batch_size : Z;
  publisher_lease_seconds : Z;
  max_publish_attempts : Z;
  retry_base_delay_seconds : Q;
  retry_max_delay_seconds : Q;
}.

(** ** Time *)

Definition round_half_even (q : Q) : Z :=
  let f := Qfloor q in
  match Qcompare (q - inject_Z f) (1 # 2) with
  | Lt => f
  | Gt => f + 1
  | Eq => if Z.even f then f else f + 1
  end.

(** [dt.timedelta(seconds=q)], in microseconds. *)
Definition timedelta (q : Q) : Z := round_half_even (q * inject_Z 1000000)%Q.

(** [code[:64]] *)
Definition clip (s : string) : string := String.substring 0 64 s.

Section outbox.
Context (model_dump : EventEnvelope → json).
Context (model_validate : json → option EventEnvelope).

(** ** [OutboxRepository] *)

(** [enqueue] in a transaction bound to [tenant]: row-level security refuses another
    tenant's row; a duplicate primary key is swallowed. *)
Definition enqueue (tenant : uuid) (now : Z) (envelope : EventEnvelope) (subject : string)
    (outbox : list EventOutboxRecord) : result failure (bool * list EventOutboxRecord) :=
  if negb (N.eqb (ev_organization_id envelope) tenant) then Err (Platform EventTenantScopeError)
  else if existsb (λ r, N.eqb (ob_id r) (ev_event_id envelope)) outbox then Ok (false, outbox)
  else Ok (true, outbox ++ [mkOutbox (ev_event_id envelope) (ev_organization_id envelope)
    (ev_event_type envelope) (ev_event_version envelope) subject (model_dump envelope)
    OutboxStatus.PENDING 0 now None None None None now]).

(** The [where] clause of [claim_batch]; a NULL lease is not due. *)
Definition publishable (now : Z) (r : EventOutboxRecord) : bool :=
  bool_decide (ob_status r ∈ [OutboxStatus.PENDING; OutboxStatus.FAILED]) && (ob_available_at r <=? now) ||
  bool_decide (ob_status r = OutboxStatus.PUBLISHING) &&
    match ob_lease_expires_at r with Some t => t <=? now | None => false end.

(** [order_by(available_at.asc())] *)
Definition available_before (a b : EventOutboxRecord) : Prop := ob_available_at a ≤ ob_available_at b.
#[export] Instance available_before_dec a b : Decision (available_before a b).
Proof. unfold available_before. apply _. Defined.

Definition item_of (r : EventOutboxRecord) : OutboxItem :=
  mkItem (ob_id r) (ob_organization_id r) (ob_event_type r) (ob_event_version r) (ob_subject r)
    (ob_envelope r) (ob_attempt_count r).

(** The [values] of the claim. *)
Definition leased (owner : string) (now lease_until : Z) (r : EventOutboxRecord) : EventOutboxRecord :=
  mkOutbox (ob_id r) (ob_organization_id r) (ob_event_type r) (ob_event_version r) (ob_subject r)
    (ob_envelope r) OutboxStatus.PUBLISHING (ob_attempt_count r + 1) (ob_available_at r)
    (ob_last_error_code r) (Some owner) (Some lease_until) (ob_published_at r) now.

Definition claim_batch (now : Z) (owner : string) (batch_size lease_seconds : Z)
    (outbox : list EventOutboxRecord) : list OutboxItem * list EventOutboxRecord :=
  let lease_until := now + lease_seconds * 1000000 in
  let ids := map ob_id (take (Z.to_nat batch_size)
    (merge_sort available_before (List.filter (publishable now) outbox))) in
  let claimed r := bool_decide (ob_id r ∈ ids) in
  let outbox := update_where claimed (leased owner now lease_until) outbox in
  (map item_of (List.filter claimed outbox), outbox).

(** The three ways a published row is closed; none looks at the lease. *)
Definition published (now : Z) (r : EventOutboxRecord) : EventOutboxRecord :=
  mkOutbox (ob_id r) (ob_organization_id r) (ob_event_type r) (ob_event_version r) (ob_subject r)
    (ob_envelope r) OutboxStatus.PUBLISHED (ob_attempt_count r) (ob_available_at r)
    None None None (Some now) now.

Definition rescheduled (now available_at : Z) (error_code : string) (r : EventOutboxRecord)
    : EventOutboxRecord :=
  mkOutbox (ob_id r) (ob_organization_id r) (ob_event_type r) (ob_event_version r) (ob_subject r)
    (ob_envelope r) OutboxStatus.FAILED (ob_attempt_count r) available_at
    (Some (clip error_code)) None None (ob_published_at r) now.

Definition dead (now : Z) (error_code : string) (r : EventOutboxRecord) : EventOutboxRecord :=
  mkOutbox (ob_id r) (ob_organization_id r) (ob_event_type r) (ob_event_version r) (ob_subject r)
    (ob_envelope r) OutboxStatus.DEAD (ob_attempt_count r) (ob_available_at r)
    (Some (clip error_code)) None None (ob_published_at r) now.

Definition has_id (id : uuid) (r : EventOutboxRecord) : bool := N.eqb (ob_id r) id.

Definition mark_published (now : Z) (id : uuid) : list EventOutboxRecord → list EventOutboxRecord :=
  update_where (has_id id) (published now).

Definition reschedule (now : Z) (id : uuid) (error_code : string) (available_at : Z)
    : list EventOutboxRecord → list EventOutboxRecord :=
  update_where (has_id id) (rescheduled now available_at error_code).

Definition mark_dead (now : Z) (id : uuid) (error_code : string)
    : list EventOutboxRecord → list EventOutboxRecord :=
  update_where (has_id id) (dead now error_code).

(** [pending_count] *)
Definition pending_count (outbox : list EventOutboxRecord) : Z :=
  Z.of_nat (length (List.filter (λ r, bool_decide (ob_status r ∈
    [OutboxStatus.PENDING; OutboxStatus.PUBLISHING; OutboxStatus.FAILED])) outbox)).

(** ** [DeadLetterRepository.record] for a tenant-scoped envelope *)

Definition same_letter (event_id : uuid) (origin : string) (consumer : option string)
    (d : EventDeadLetterRecord) : bool :=
  N.eqb (dl_event_id d) event_id && String.eqb (dl_origin d) origin &&
  bool_decide (dl_consumer_name d = consumer).

Definition record_dead_letter (envelope : EventEnvelope) (origin : string) (fc : FailureClass)
    (error_code : string) (attempt_count : Z) (consumer : option string)
    (letters : list EventDeadLetterRecord) : list EventDeadLetterRecord :=
  if existsb (same_letter (ev_event_id envelope) origin consumer) letters then letters
  else letters ++ [mkDeadLetter (ev_organization_id envelope) (ev_event_id envelope)
    (ev_event_type envelope) (ev_event_version envelope) origin consumer fc (clip error_code)
    attempt_count (model_dump envelope)].

(** ** [OutboxRelay] *)

(** The database, and the stream: the messages the broker has stored. *)
Record Relay : Type := mkRelay {
  rl_outbox : list EventOutboxRecord;
  rl_letters : list EventDeadLetterRecord;
  rl_stream : list (string * EventEnvelope);
}.

(** What [transport.publish] does: an acknowledgement means the broker holds the
    message; an error or a crash of the worker leaves that open ([stored]). *)
Inductive PublishOutcome : Type :=
| Acknowledged
| Raised (stored : bool) (e : EventPlatformError)
| Crashed (stored : bool).

Definition stores (o : PublishOutcome) : bool :=
  match o with Acknowledged => true | Raised s _ | Crashed s => s end.

(** [_dead_letter] *)
Definition dead_letter (now : Z) (item : OutboxItem) (classified cause : failure)
    (envelope : option EventEnvelope) (r : Relay) : Relay :=
  let error_code := safe_error_code cause in
  mkRelay (mark_dead now (it_id item) error_code (rl_outbox r))
    (match envelope with
     | Some e => record_dead_letter e "OUTBOX_PUBLISH" (classify_failure classified) error_code
                   (it_attempt_count item) None (rl_letters r)
     | None => rl_letters r
     end)
    (rl_stream r).

(** [_handle_transient] *)
Definition handle_transient (settings : EventsSettings) (now : Z) (item : OutboxItem)
    (envelope : EventEnvelope) (exc : failure) (r : Relay) : Relay :=
  if should_dead_letter (it_attempt_count item) (max_publish_attempts settings)
  then dead_letter now item exc exc (Some envelope) r
  else
    let delay := backoff_delay (it_attempt_count item) (retry_base_delay_seconds settings)
                   (retry_max_delay_seconds settings) in
    mkRelay (reschedule now (it_id item) (safe_error_code exc) (now + timedelta delay) (rl_outbox r))
      (rl_letters r) (rl_stream r).

(** [_publish_one]; [invalid] is the exception of a failed validation. *)
Definition publish_one (settings : EventsSettings) (now : Z) (invalid : failure)
    (outcome : PublishOutcome) (item : OutboxItem) (r : Relay) : Relay :=
  match model_validate (it_envelope item) with
  | None => dead_letter now item (Platform EventContractError) invalid None r
  | Some envelope =>
      let r := if stores outcome
               then mkRelay (rl_outbox r) (rl_letters r) (rl_stream r ++ [(it_subject item, envelope)])
               else r in
      match outcome with
      | Acknowledged =>
          mkRelay (mark_published now (it_id item) (rl_outbox r)) (rl_letters r) (rl_stream r)
      | Raised _ e =>
          match classify_failure (Platform e) with
          | RETRYABLE => handle_transient settings now item envelope (Platform e) r
          | TERMINAL => dead_letter now item (Platform e) (Platform e) (Some envelope) r
          end
      | Crashed _ => r
      end
  end.

(** [run_once]: one claim, then the items in turn; [oracle] gives for the i-th item the
    time, the validation exception and the outcome. A crash abandons the rest. *)
Fixpoint publish_items (settings : EventsSettings) (oracle : nat → Z * failure * PublishOutcome)
    (i : nat) (items : list OutboxItem) (r : Relay) : Relay :=
  match items with
  | [] => r
  | item :: items =>
      let '(now, invalid, outcome) := oracle i in
      let r := publish_one settings now invalid outcome item r in
      match outcome with
      | Crashed _ => if bool_decide (is_Some (model_validate (it_envelope item)))
                     then r else publish_items settings oracle (S i) items r
      | _ => publish_items settings oracle (S i) items r
      end
  end.

Definition run_once (settings : EventsSettings) (worker : string) (now : Z)
    (oracle : nat → Z * failure * PublishOutcome) (r : Relay) : Z * Relay :=
  let '(items, outbox) := claim_batch now worker (publisher_batch_size settings)
                            (publisher_lease_seconds settings) (rl_outbox r) in
  (Z.of_nat (length items),
   publish_items settings oracle 0 items (mkRelay outbox (rl_letters r) (rl_stream r))).
End outbox.
