(* ===== verification/EventRelay.v ===== *)
(** * EventRelay: committed events are never lost

    The relay as a transition system: enqueuing transactions, claims by any worker and
    the closing of any claimed item, in any order and however late. *)

From Stdlib Require Import QArith.
From S2P Require Import Prelude.
From S2P Require Import PyText.
From S2P Require Import Conditions.
From S2P Require Import Store.
From S2P Require Import StoreLemmas.
From S2P Require Import SchedulerInvariant.
From S2P Require Import EventPlatform.
From S2P Require Import EventOutbox.

Open Scope Z_scope.

Section relay.
Context (model_dump : EventEnvelope → json).
Context (model_validate : json → option EventEnvelope).

(** A relay and the items its workers hold. *)
Record RelaySystem : Type := mkRelaySystem {
  rs_relay : Relay;
  rs_flight : list OutboxItem;
}.

Abbreviation outbox_of s := (rl_outbox (rs_relay s)).

Inductive relay_step (s : RelaySystem) : RelaySystem → Prop :=
| rs_enqueue tenant now envelope subject fresh outbox :
    enqueue model_dump tenant now envelope subject (outbox_of s) = Ok (fresh, outbox) →
    relay_step s (mkRelaySystem
      (mkRelay outbox (rl_letters (rs_relay s)) (rl_stream (rs_relay s))) (rs_flight s))
| rs_claim now owner batch_size lease_seconds items outbox :
    claim_batch now owner batch_size lease_seconds (outbox_of s) = (items, outbox) →
    relay_step s (mkRelaySystem
      (mkRelay outbox (rl_letters (rs_relay s)) (rl_stream (rs_relay s))) (rs_flight s ++ items))
| rs_publish settings now invalid outcome item :
    item ∈ rs_flight s →
    relay_step s (mkRelaySystem
      (publish_one model_dump model_validate settings now invalid outcome item (rs_relay s)) (rs_flight s)).

Definition relay_reachable (s : RelaySystem) : Prop :=
  rtc relay_step (mkRelaySystem (mkRelay [] [] []) []) s.

(** ** Rows *)

(** The columns no operation assigns. *)
Definition outbox_ident (r : EventOutboxRecord) :=
  (ob_id r, ob_organization_id r, ob_event_type r, ob_event_version r, ob_subject r, ob_envelope r).

Definition kept (l l' : list EventOutboxRecord) : Prop :=
  ∀ r, r ∈ l → ∃ r', r' ∈ l' ∧ outbox_ident r' = outbox_ident r.

(** The row of an item. *)
Definition row_of (item : OutboxItem) (r : EventOutboxRecord) : Prop :=
  ob_id r = it_id item ∧ ob_subject r = it_subject item ∧ ob_envelope r = it_envelope item.

(** Where a row stands: handed over, given up with a record, or still to be sent. *)
Definition accounted_row (r : Relay) (row : EventOutboxRecord) : Prop :=
  match ob_status row with
  | OutboxStatus.PUBLISHED =>
      ∃ e, model_validate (ob_envelope row) = Some e ∧ (ob_subject row, e) ∈ rl_stream r
  | OutboxStatus.DEAD =>
      ∃ d, d ∈ rl_letters r ∧ dl_event_id d = ob_id row ∧ dl_envelope d = ob_envelope row
  | OutboxStatus.PUBLISHING => is_Some (ob_lease_expires_at row)
  | _ => True
  end.

(** A dead letter carries the envelope of a row. *)
Definition letter_of (l : list EventOutboxRecord) (d : EventDeadLetterRecord) : Prop :=
  ∃ row, row ∈ l ∧ ob_id row = dl_event_id d ∧ ob_envelope row = dl_envelope d.

Record relay_inv (s : RelaySystem) : Prop := {
  ri_ids : NoDup (map ob_id (outbox_of s));
  ri_envelopes : ∀ row, row ∈ outbox_of s →
    ∃ e, ob_envelope row = model_dump e ∧ ob_id row = ev_event_id e ∧
         ob_organization_id row = ev_organization_id e;
  ri_items : ∀ item, item ∈ rs_flight s → ∃ row, row ∈ outbox_of s ∧ row_of item row;
  ri_letters : ∀ d, d ∈ rl_letters (rs_relay s) → letter_of (outbox_of s) d;
  ri_rows : ∀ row, row ∈ outbox_of s → accounted_row (rs_relay s) row;
}.

Lemma update_where_kept (p : EventOutboxRecord → bool) f l :
  (∀ r, outbox_ident (f r) = outbox_ident r) → kept l (update_where p f l).
Proof.
  intros Hf r Hr. exists (if p r then f r else r). split.
  - apply list_elem_of_fmap. by exists r.
  - by destruct (p r).
Qed.

Lemma ident_ids (p : EventOutboxRecord → bool) f l :
  (∀ r, outbox_ident (f r) = outbox_ident r) → map ob_id (update_where p f l) = map ob_id l.
Proof. intros Hf. apply update_where_map. intros r _ _. specialize (Hf r). by injection Hf. Qed.

Lemma kept_rows item l l' : kept l l' → (∃ row, row ∈ l ∧ row_of item row) → ∃ row, row ∈ l' ∧ row_of item row.
Proof.
  intros Hk (row & Hin & Hrow). destruct (Hk _ Hin) as (row' & Hin' & E). exists row'. split; [done|].
  unfold outbox_ident in E. injection E as E1 _ _ _ E2 E3. unfold row_of in *. by rewrite E1, E2, E3.
Qed.

Lemma kept_letter d l l' : kept l l' → letter_of l d → letter_of l' d.
Proof.
  intros Hk (row & Hin & E1 & E2). destruct (Hk _ Hin) as (row' & Hin' & E). exists row'.
  unfold outbox_ident in E. split; [done|]. split; congruence.
Qed.

(** Updating the rows of one table: the general case of [publish_one] and of a claim. *)
Lemma update_inv s (p : EventOutboxRecord → bool) f letters stream flight :
  relay_inv s → (∀ r, outbox_ident (f r) = outbox_ident r) →
  (∀ x, x ∈ rl_letters (rs_relay s) → x ∈ letters) → (∀ d, d ∈ letters → letter_of (outbox_of s) d) →
  (∀ x, x ∈ rl_stream (rs_relay s) → x ∈ stream) →
  (∀ row, row ∈ outbox_of s → p row = true →
     accounted_row (mkRelay (update_where p f (outbox_of s)) letters stream) (f row)) →
  (∀ item, item ∈ flight → ∃ row, row ∈ update_where p f (outbox_of s) ∧ row_of item row) →
  relay_inv (mkRelaySystem (mkRelay (update_where p f (outbox_of s)) letters stream) flight).
Proof.
  intros [H1 H2 H3 HL H4] Hf Hlet HL' Hstr Hacc Hfl. split; cbn [rs_relay rl_outbox rs_flight rl_letters].
  - by rewrite ident_ids.
  - intros row Hrow. apply update_where_elem in Hrow as (r & Hin & [[-> _]|[-> _]]); [by apply H2|].
    destruct (H2 _ Hin) as (e & E). exists e. specialize (Hf r). unfold outbox_ident in Hf.
    injection Hf as F1 F2 _ _ _ F3. by rewrite F1, F2, F3.
  - done.
  - intros d Hd. eapply kept_letter; [by apply update_where_kept|]. by apply HL'.
  - intros row Hrow. apply update_where_elem in Hrow as (r & Hin & [[-> _]|[-> Hp]]); [|by apply Hacc].
    specialize (H4 _ Hin). unfold accounted_row in *. cbn [rl_stream rl_letters].
    destruct (ob_status r); try done; [destruct H4 as (e & ? & ?)|destruct H4 as (d & ? & ?)]; eauto 10.
Qed.

(** ** Every step keeps the invariant *)

Context (Hround : ∀ e, model_validate (model_dump e) = Some e).

Lemma enqueue_inv s tenant now envelope subject fresh outbox :
  relay_inv s → enqueue model_dump tenant now envelope subject (outbox_of s) = Ok (fresh, outbox) →
  relay_inv (mkRelaySystem (mkRelay outbox (rl_letters (rs_relay s)) (rl_stream (rs_relay s))) (rs_flight s)) ∧
  kept (outbox_of s) outbox.
Proof.
  intros [H1 H2 H3 HL H4]. unfold enqueue. destruct (negb _); [done|].
  destruct (existsb _ _) eqn:Hex; intros [= <- <-].
  { split; [by split|]. intros r Hr. by exists r. }
  assert (Hk : kept (outbox_of s) (outbox_of s ++ [mkOutbox (ev_event_id envelope) (ev_organization_id envelope)
    (ev_event_type envelope) (ev_event_version envelope) subject (model_dump envelope)
    OutboxStatus.PENDING 0 now None None None None now])).
  { intros r Hr. exists r. split; [|done]. apply elem_of_app. by left. }
  assert (Hnew : ∀ r, r ∈ outbox_of s → ob_id r ≠ ev_event_id envelope).
  { intros r Hr Heq. assert (existsb (λ r, N.eqb (ob_id r) (ev_event_id envelope)) (outbox_of s) = true); [|congruence].
    apply existsb_exists. exists r. split; [by apply list_elem_of_In|by apply N.eqb_eq]. }
  split; [split; cbn [rs_relay rl_outbox rs_flight rl_letters]|done].
  - rewrite map_app. apply NoDup_app. split_and!; [done| |apply NoDup_singleton].
    intros id (r & -> & Hr)%list_elem_of_fmap Hid%list_elem_of_singleton. by apply (Hnew r).
  - intros row [Hr | Hr%list_elem_of_singleton]%elem_of_app; [by apply H2|]. subst row. by exists envelope.
  - intros item Hi. eapply kept_rows; [exact Hk|]. by apply H3.
  - intros d Hd. eapply kept_letter; [exact Hk|]. by apply HL.
  - intros row [Hr | Hr%list_elem_of_singleton]%elem_of_app; [by apply H4|]. by subst row.
Qed.

Lemma relay_claim_inv s now owner batch lease items outbox :
  relay_inv s → claim_batch now owner batch lease (outbox_of s) = (items, outbox) →
  relay_inv (mkRelaySystem (mkRelay outbox (rl_letters (rs_relay s)) (rl_stream (rs_relay s)))
    (rs_flight s ++ items)) ∧ kept (outbox_of s) outbox.
Proof.
  intros HI. unfold claim_batch. set (ids := map ob_id _). set (claimed := λ r, bool_decide (ob_id r ∈ ids)).
  set (f := leased owner now (now + lease * 1000000)). intros [= <- <-].
  split; [|by apply update_where_kept]. apply update_inv; try done; [by apply HI| |].
  - intros row _ _. unfold accounted_row. by eexists.
  - intros item [Hi|Hi]%elem_of_app.
    + eapply kept_rows; [by apply update_where_kept|]. by apply HI.
    + apply list_elem_of_fmap in Hi as (row & -> & Hr). exists row.
      rewrite list_elem_of_In, List.filter_In in Hr. destruct Hr as [Hr _]. split; [by apply list_elem_of_In|done].
Qed.

(** The letter a terminal failure leaves. *)
Lemma record_dead_letter_spec e origin fc code n consumer letters :
  let letters' := record_dead_letter model_dump e origin fc code n consumer letters in
  (∀ d, d ∈ letters → d ∈ letters') ∧
  (∀ d, d ∈ letters' → d ∈ letters ∨ dl_event_id d = ev_event_id e ∧ dl_envelope d = model_dump e) ∧
  ∃ d, d ∈ letters' ∧ dl_event_id d = ev_event_id e ∧ dl_origin d = origin ∧ dl_consumer_name d = consumer.
Proof.
  unfold record_dead_letter. destruct (existsb _ _) eqn:Hex; cbv zeta; split_and!; try done.
  - intros d Hd. by left.
  - apply existsb_exists in Hex as (d & Hin & Hd). unfold same_letter in Hd.
    rewrite !andb_true_iff, N.eqb_eq, String.eqb_eq, bool_decide_eq_true in Hd. destruct Hd as [[? ?] ?].
    exists d. split; [by apply list_elem_of_In|done].
  - intros d Hd. apply elem_of_app. by left.
  - intros d [Hd | Hd%list_elem_of_singleton]%elem_of_app; [by left|]. subst d. by right.
  - eexists. split; [apply elem_of_app; right; by constructor|done].
Qed.

Lemma dead_letter_inv s now item cls cause e :
  relay_inv s → item ∈ rs_flight s → model_validate (it_envelope item) = Some e →
  relay_inv (mkRelaySystem (dead_letter model_dump now item cls cause (Some e) (rs_relay s)) (rs_flight s)) ∧
  kept (outbox_of s) (rl_outbox (dead_letter model_dump now item cls cause (Some e) (rs_relay s))).
Proof.
  intros HI Hi Hval. unfold dead_letter. cbv zeta.
  destruct (record_dead_letter_spec e "OUTBOX_PUBLISH" (classify_failure cls) (safe_error_code cause)
    (it_attempt_count item) None (rl_letters (rs_relay s))) as (Hkeep & Hnew & d & Hd & Hid & _).
  destruct (ri_items _ HI _ Hi) as (row & Hrow & Rid & _ & Renv).
  destruct (ri_envelopes _ HI _ Hrow) as (e' & E1 & E2 & _).
  assert (e' = e) as -> by (rewrite <- Renv, E1, Hround in Hval; congruence).
  set (letters := record_dead_letter _ _ _ _ _ _ _ _) in *.
  assert (HL : ∀ d, d ∈ letters → letter_of (outbox_of s) d).
  { intros d' [Hd'|[F1 F2]]%Hnew; [by apply HI|]. exists row. split; [done|]. split; congruence. }
  split; [|by apply update_where_kept]. apply update_inv; try done.
  - intros r Hr Hp%N.eqb_eq. unfold accounted_row. cbn. exists d.
    destruct (HL _ Hd) as (r' & Hr' & F1 & F2).
    assert (r' = r) as -> by (apply (NoDup_map_inj ob_id (outbox_of s)); [apply HI|done..|congruence]).
    split_and!; [done|congruence|done].
  - intros item' Hi'. eapply kept_rows; [by apply update_where_kept|]. by apply HI.
Qed.

Lemma with_stream s x :
  relay_inv s →
  relay_inv (mkRelaySystem (mkRelay (outbox_of s) (rl_letters (rs_relay s)) (rl_stream (rs_relay s) ++ [x]))
    (rs_flight s)).
Proof.
  intros [H1 H2 H3 HL H4]. split; try done. intros row Hr. specialize (H4 _ Hr). unfold accounted_row in *. cbn.
  destruct (ob_status row); try done. destruct H4 as (e & ? & ?). exists e. split; [done|].
  apply elem_of_app. by left.
Qed.

Lemma transient_inv s settings now item e exc :
  relay_inv s → item ∈ rs_flight s → model_validate (it_envelope item) = Some e →
  let r' := handle_transient model_dump settings now item e exc (rs_relay s) in
  relay_inv (mkRelaySystem r' (rs_flight s)) ∧ kept (outbox_of s) (rl_outbox r').
Proof.
  intros HI Hi Hval. unfold handle_transient. destruct (should_dead_letter _ _); [by apply dead_letter_inv|].
  cbv zeta. split; [|by apply update_where_kept]. apply update_inv; try done; [by apply HI|].
  intros item' Hi'. eapply kept_rows; [by apply update_where_kept|]. by apply HI.
Qed.

Lemma publish_inv s settings now invalid outcome item :
  relay_inv s → item ∈ rs_flight s →
  let r' := publish_one model_dump model_validate settings now invalid outcome item (rs_relay s) in
  relay_inv (mkRelaySystem r' (rs_flight s)) ∧ kept (outbox_of s) (rl_outbox r').
Proof.
  intros HI Hi. destruct (ri_items _ HI _ Hi) as (row & Hrow & Rid & Rsub & Renv).
  destruct (ri_envelopes _ HI _ Hrow) as (e & E1 & E2 & E3).
  assert (Hval : model_validate (it_envelope item) = Some e) by (by rewrite <- Renv, E1).
  unfold publish_one. rewrite Hval. cbv zeta.
  set (r0 := if stores outcome
             then mkRelay (outbox_of s) (rl_letters (rs_relay s)) (rl_stream (rs_relay s) ++ [(it_subject item, e)])
             else rs_relay s).
  set (s' := mkRelaySystem r0 (rs_flight s)).
  assert (HI' : relay_inv s' ∧ outbox_of s' = outbox_of s).
  { unfold s', r0. destruct (stores outcome); [split; [by apply with_stream|done]|by destruct s]. }
  destruct HI' as [HI' Eo]. change r0 with (rs_relay s').
  assert (Hstream : outcome = Acknowledged → (it_subject item, e) ∈ rl_stream (rs_relay s')).
  { intros ->. cbn. apply elem_of_app. right. by constructor. }
  destruct outcome as [|stored exc|stored].
  - rewrite <- Eo. split; [|by apply update_where_kept]. apply update_inv; try done; [by apply HI'| |].
    + intros r Hr Hp%N.eqb_eq. unfold accounted_row. cbn [ob_status published rl_stream].
      assert (r = row) as -> by (apply (NoDup_map_inj ob_id (outbox_of s)); [apply HI|by rewrite <- Eo|done|congruence]).
      exists e. split; [cbn; by rewrite E1|]. cbn [ob_subject published]. rewrite Rsub. auto.
    + intros item' Hi'. eapply kept_rows; [by apply update_where_kept|]. by apply HI'.
  - rewrite <- Eo. destruct (classify_failure _); [by apply (transient_inv s')|by apply (dead_letter_inv s')].
  - rewrite <- Eo. split; [done|]. intros r Hr. by exists r.
Qed.

Lemma relay_step_inv s s' : relay_step s s' → relay_inv s → relay_inv s' ∧ kept (outbox_of s) (outbox_of s').
Proof.
  destruct 1; intros HI; [by eapply enqueue_inv|by eapply relay_claim_inv|by apply publish_inv].
Qed.

Lemma relay_steps_inv s s' :
  rtc relay_step s s' → relay_inv s → relay_inv s' ∧ kept (outbox_of s) (outbox_of s').
Proof.
  induction 1 as [s|s1 s2 s3 Hstep _ IH]; intros HI; [split; [done|]; intros r Hr; by exists r|].
  destruct (relay_step_inv _ _ Hstep HI) as [HI2 Hk1]. destruct (IH HI2) as [HI3 Hk2]. split; [done|].
  intros r Hr. destruct (Hk1 _ Hr) as (r1 & Hr1 & E1). destruct (Hk2 _ Hr1) as (r2 & Hr2 & E2).
  exists r2. split; [done|congruence].
Qed.

Lemma relay_reachable_inv s : relay_reachable s → relay_inv s.
Proof.
  intros Hr. apply (relay_steps_inv _ _ Hr). split; cbn; [constructor|by intros ? ?%not_elem_of_nil..].
Qed.

(** ** Guarantees *)

(** C10. Committed events are never lost: whatever the relay workers do afterwards, in
    any interleaving, with failed or unacknowledged publications, crashes and expired
    leases, the row of an enqueued event stays in the outbox with its envelope, and it
    stands in one of three ways: it is marked published and the broker holds its
    message on its subject; it is marked dead and a dead letter carries its envelope; or
    it is still to be sent, and then if a worker holds it the lease has an end. *)
Theorem events_are_never_lost s s' row :
  relay_reachable s → rtc relay_step s s' → row ∈ outbox_of s →
  ∃ row', row' ∈ outbox_of s' ∧ outbox_ident row' = outbox_ident row ∧ accounted_row (rs_relay s') row'.
Proof.
  intros Hr%relay_reachable_inv Hs Hin. destruct (relay_steps_inv _ _ Hs Hr) as [HI Hk].
  destruct (Hk _ Hin) as (row' & Hin' & E). exists row'. split_and!; [done..|]. by apply HI.
Qed.

(** When a row that is still to be sent may be claimed again. *)
Definition due_at (row : EventOutboxRecord) : Z :=
  match ob_status row with
  | OutboxStatus.PUBLISHING => default 0 (ob_lease_expires_at row)
  | _ => ob_available_at row
  end.

Lemma due_publishable s row now :
  relay_inv s → row ∈ outbox_of s → ob_status row ≠ OutboxStatus.PUBLISHED → ob_status row ≠ OutboxStatus.DEAD →
  due_at row ≤ now → publishable now row = true.
Proof.
  intros HI Hin Hp Hd. specialize (ri_rows _ HI _ Hin) as Hacc. unfold accounted_row in Hacc. unfold due_at, publishable.
  destruct (ob_status row); try done; [|destruct Hacc as [t ->]|]; intros H%Z.leb_le; cbn in H |- *; by rewrite ?H.
Qed.

Lemma claim_takes_due now owner batch lease outbox row :
  row ∈ outbox → publishable now row = true → Z.of_nat (length outbox) ≤ batch →
  leased owner now (now + lease * 1000000) row ∈ (claim_batch now owner batch lease outbox).2 ∧
  item_of (leased owner now (now + lease * 1000000) row) ∈ (claim_batch now owner batch lease outbox).1.
Proof.
  intros Hin Hp Hb. unfold claim_batch. cbv zeta. set (due := List.filter (publishable now) outbox).
  assert (Hid : ob_id row ∈ map ob_id (take (Z.to_nat batch) (merge_sort available_before due))).
  { rewrite take_ge.
    - apply list_elem_of_fmap. exists row. split; [done|]. rewrite merge_sort_Permutation.
      apply list_elem_of_In, filter_In. split; [by apply list_elem_of_In|done].
    - rewrite (Permutation_length (merge_sort_Permutation available_before due)).
      assert (length due ≤ length outbox)%nat by apply filter_length_le. lia. }
  set (ids := map ob_id _) in *. set (claimed := λ r, bool_decide (ob_id r ∈ ids)).
  assert (Hl : leased owner now (now + lease * 1000000) row ∈
               update_where claimed (leased owner now (now + lease * 1000000)) outbox).
  { apply list_elem_of_fmap. exists row. split; [|done].
    assert (claimed row = true) as -> by (by apply bool_decide_eq_true). done. }
  split; [done|]. apply list_elem_of_fmap. eexists. split; [done|].
  apply list_elem_of_In, filter_In. split; [by apply list_elem_of_In|]. by apply bool_decide_eq_true.
Qed.

(** C31. No event is stuck: in every reachable state, a row that is neither published
    nor dead is claimed by the first [claim_batch] large enough that runs once the row
    is due, also when a crashed worker left it PUBLISHING, and if the broker then
    acknowledges, the row ends PUBLISHED with its message in the stream. *)
Theorem relay_makes_progress s row now owner batch lease settings invalid :
  relay_reachable s → row ∈ outbox_of s →
  ob_status row ≠ OutboxStatus.PUBLISHED → ob_status row ≠ OutboxStatus.DEAD →
  due_at row ≤ now → Z.of_nat (length (outbox_of s)) ≤ batch →
  let '(items, outbox) := claim_batch now owner batch lease (outbox_of s) in
  ∃ item row' e, item ∈ items ∧ it_attempt_count item = ob_attempt_count row + 1 ∧
    model_validate (ob_envelope row) = Some e ∧
    let r' := publish_one model_dump model_validate settings now invalid Acknowledged item
                (mkRelay outbox (rl_letters (rs_relay s)) (rl_stream (rs_relay s))) in
    row' ∈ rl_outbox r' ∧ outbox_ident row' = outbox_ident row ∧
    ob_status row' = OutboxStatus.PUBLISHED ∧ (ob_subject row, e) ∈ rl_stream r'.
Proof.
  intros HI%relay_reachable_inv Hin Hp Hd Hdue Hb.
  pose proof (due_publishable _ _ _ HI Hin Hp Hd Hdue) as Hpub.
  pose proof (claim_takes_due now owner batch lease _ _ Hin Hpub Hb) as [Hrow Hitem].
  destruct (claim_batch now owner batch lease (outbox_of s)) as [items outbox]. cbn [fst snd] in *.
  destruct (ri_envelopes _ HI _ Hin) as (e & E & _).
  set (row1 := leased owner now (now + lease * 1000000) row) in *.
  exists (item_of row1), (published now row1), e.
  assert (Hv : model_validate (ob_envelope row) = Some e) by (by rewrite E).
  do 3 (split; [done|]). unfold publish_one. cbn [it_envelope item_of row1 leased ob_envelope]. rewrite Hv.
  cbn [stores rl_outbox rl_stream rl_letters]. split_and!; try done.
  - apply list_elem_of_fmap. exists row1. split; [|done]. unfold has_id. by rewrite N.eqb_refl.
  - apply elem_of_app. right. by constructor.
Qed.
End relay.

(** ** A concrete run *)

(** A JSON form of envelopes, for the theorems' examples. *)
Definition json_dump (e : EventEnvelope) : json :=
  JArr [JInt (Z.of_N (ev_event_id e)); JStr (ev_event_type e); JInt (ev_event_version e);
    JInt (ev_occurred_at e); JInt (Z.of_N (ev_organization_id e)); JStr (ev_aggregate_type e);
    JStr (ev_aggregate_id e); JStr (ev_correlation_id e); JStr (ev_producer e); JObj (ev_payload e)].

Definition json_validate (j : json) : option EventEnvelope :=
  match j with
  | JArr [JInt id; JStr type; JInt version; JInt at_; JInt org; JStr agg; JStr agg_id; JStr corr;
          JStr producer; JObj payload] =>
      Some (mkEnvelope (Z.to_N id) type version at_ (Z.to_N org) agg agg_id corr producer payload)
  | _ => None
  end.

Lemma json_round e : json_validate (json_dump e) = Some e.
Proof. destruct e. cbn. by rewrite !N2Z.id. Qed.

Definition demo_settings : EventsSettings := Build_EventsSettings 32 30 10 1 300.

Definition demo_envelope : EventEnvelope :=
  mkEnvelope 77 "workflow.run.started" 1 0 5 "workflow_run" "9" "c" "nexus-ai" [].

Definition demo_subject : string := "nxs.production.tenant.workflow.run.started".

(** Worker [a] claims the event and stalls; its lease ends and worker [b] claims and
    publishes it; then [a] reports that its own publication timed out. *)
Definition demo_enqueued : RelaySystem :=
  mkRelaySystem (mkRelay [mkOutbox 77 5 "workflow.run.started" 1 demo_subject (json_dump demo_envelope)
    OutboxStatus.PENDING 0 0 None None None None 0] [] []) [].

Definition claim_at (now : Z) (owner : string) (s : RelaySystem) : RelaySystem :=
  let '(items, outbox) := claim_batch now owner 32 30 (rl_outbox (rs_relay s)) in
  mkRelaySystem (mkRelay outbox (rl_letters (rs_relay s)) (rl_stream (rs_relay s))) (rs_flight s ++ items).

Definition publish_at (now : Z) (outcome : PublishOutcome) (i : nat) (s : RelaySystem) : RelaySystem :=
  match rs_flight s !! i with
  | Some item => mkRelaySystem (publish_one json_dump json_validate demo_settings now
                   (Foreign ["ValidationError"]) outcome item (rs_relay s)) (rs_flight s)
  | None => s
  end.

Definition demo_claimed : RelaySystem :=
  Eval vm_compute in claim_at 31000000 "b" (claim_at 0 "a" demo_enqueued).

Definition demo_published : RelaySystem := Eval vm_compute in publish_at 31000000 Acknowledged 1 demo_claimed.

Definition demo_stale : RelaySystem :=
  Eval vm_compute in publish_at 32000000 (Raised false EventPublishError) 0 demo_published.

Abbreviation demo_step := (relay_step json_dump json_validate).
Abbreviation demo_reachable := (relay_reachable json_dump json_validate).

Lemma claim_at_step now owner s : demo_step s (claim_at now owner s).
Proof. unfold claim_at. destruct (claim_batch _ _ _ _ _) as [items outbox] eqn:E. by eapply rs_claim. Qed.

Lemma publish_at_steps now outcome i s : rtc demo_step s (publish_at now outcome i s).
Proof.
  unfold publish_at. destruct (rs_flight s !! i) as [item|] eqn:E; [|done].
  apply rtc_once, rs_publish. by apply list_elem_of_lookup_2 in E.
Qed.

Lemma relay_enqueued_reachable : demo_reachable demo_enqueued.
Proof.
  apply rtc_once. by apply (rs_enqueue _ _ (mkRelaySystem (mkRelay [] [] []) []) 5%N 0 demo_envelope demo_subject true).
Qed.

Lemma demo_published_steps : rtc demo_step demo_enqueued demo_published.
Proof.
  change demo_published with (publish_at 31000000 Acknowledged 1 (claim_at 31000000 "b" (claim_at 0 "a" demo_enqueued))).
  eapply rtc_l; [apply claim_at_step|]. eapply rtc_l; [apply claim_at_step|]. apply publish_at_steps.
Qed.

(** The run from the enqueued event to the published one: one row, one message. *)
Lemma events_are_never_lost_witness :
  length (rl_stream (rs_relay demo_published)) = 1%nat ∧
  ∃ row', row' ∈ rl_outbox (rs_relay demo_published) ∧
    ob_envelope row' = json_dump demo_envelope ∧ accounted_row json_validate (rs_relay demo_published) row'.
Proof.
  split; [done|].
  destruct (events_are_never_lost json_dump json_validate json_round demo_enqueued demo_published _
    relay_enqueued_reachable demo_published_steps ltac:(by constructor)) as (row' & H1 & H2 & H3).
  exists row'. split_and!; [done| |done]. by injection H2.
Defined.

Lemma relay_claimed_reachable : demo_reachable demo_claimed.
Proof.
  unfold relay_reachable. etrans; [exact relay_enqueued_reachable|].
  change demo_claimed with (claim_at 31000000 "b" (claim_at 0 "a" demo_enqueued)).
  eapply rtc_l; [apply claim_at_step|]. eapply rtc_l; [apply claim_at_step|]. done.
Qed.

(** Both workers crashed: the event is claimed a third time once the lease has ended. *)
Lemma relay_makes_progress_witness :
  ∃ row, rl_outbox (rs_relay demo_claimed) = [row] ∧ ob_status row = OutboxStatus.PUBLISHING ∧
  let '(items, outbox) := claim_batch 61000000 "c" 32 30 [row] in
  ∃ item row' e, item ∈ items ∧ it_attempt_count item = ob_attempt_count row + 1 ∧
    json_validate (ob_envelope row) = Some e ∧
    let r' := publish_one json_dump json_validate demo_settings 61000000 (Foreign ["ValidationError"])
                Acknowledged item (mkRelay outbox [] []) in
    row' ∈ rl_outbox r' ∧ outbox_ident row' = outbox_ident row ∧
    ob_status row' = OutboxStatus.PUBLISHED ∧ (ob_subject row, e) ∈ rl_stream r'.
Proof.
  eexists. split; [done|]. split; [done|].
  exact (relay_makes_progress json_dump json_validate json_round demo_claimed _ 61000000 "c" 32 30
    demo_settings (Foreign ["ValidationError"]) relay_claimed_reachable ltac:(by constructor)
    ltac:(done) ltac:(done) ltac:(done) ltac:(done)).
Defined.

(** The closing transactions are not fenced by the lease: [mark_published],
    [reschedule] and [mark_dead] select the row by its id alone, so a worker that lost
    its lease puts an event that another worker has already published back to FAILED,
    and the relay publishes it again. *)
Theorem stale_worker_unpublishes :
  demo_reachable demo_published ∧ rtc demo_step demo_published demo_stale ∧
  map ob_status (rl_outbox (rs_relay demo_published)) = [OutboxStatus.PUBLISHED] ∧
  map ob_status (rl_outbox (rs_relay demo_stale)) = [OutboxStatus.FAILED] ∧
  length (rl_stream (rs_relay (publish_at 40000000 Acknowledged 2 (claim_at 40000000 "c" demo_stale)))) = 2%nat.
Proof.
  split_and!; [|by apply (publish_at_steps 32000000 (Raised false EventPublishError) 0)|by vm_compute..].
  unfold relay_reachable. etrans; [exact relay_enqueued_reachable|exact demo_published_steps].
Qed.
