(* ===== verification/EventConsumer.v ===== *)
(** * EventConsumer: durable consumers and their receipts

    [events/idempotency.py], [events/registry.py] and the message processing of
    [events/consumer.py]. The claim of the receipt, the handler's effect on the
    business tables and the mark happen in one transaction; the acknowledgement follows
    the commit. Tenant-scoped envelopes only: a global event has no dead-letter row.

    The handler is a parameter (a callback), as are pydantic's validation of a message
    ([from_json]) and of a payload (the registered models). The faults of the database,
    the broker and the clock are an oracle per delivery. Logging and the human-readable
    summaries are left out. *)

From Stdlib Require Import QArith.
From S2P Require Import Prelude.
From S2P Require Import PyText.
From S2P Require Import Conditions.
From S2P Require Import Store.
From S2P Require Import EventPlatform.
From S2P Require Import EventOutbox.

Open Scope Z_scope.

(** ** Receipts *)

Module ReceiptStatus.
Inductive ReceiptStatus : Type := PROCESSING | PROCESSED | FAILED | DEAD.
#[global] Instance eq_dec : EqDecision ReceiptStatus.
Proof. solve_decision. Defined.
End ReceiptStatus.
Abbreviation ReceiptStatus := ReceiptStatus.ReceiptStatus.

Record ConsumerReceiptRecord : Type := mkReceipt {
  cr_consumer_name : string;
  cr_event_id : uuid;
  cr_organization_id : uuid;
  cr_event_type : string;
  cr_status : ReceiptStatus;
  cr_attempt_count : Z;
  cr_last_error_code : option string;
  cr_updated_at : Z;
  cr_processed_at : option Z;
}.

Record ReceiptClaim : Type := mkClaim {
  should_process : bool;
  already_finished : bool;
  claim_attempt : Z;
}.

Definition is_receipt (consumer : string) (event_id : uuid) (r : ConsumerReceiptRecord) : bool :=
  String.eqb (cr_consumer_name r) consumer && N.eqb (cr_event_id r) event_id.

Definition finished (s : ReceiptStatus) : bool :=
  bool_decide (s ∈ [ReceiptStatus.PROCESSED; ReceiptStatus.DEAD]).

(** The assignments of the three operations. *)
Definition taken_over (now attempt : Z) (r : ConsumerReceiptRecord) : ConsumerReceiptRecord :=
  mkReceipt (cr_consumer_name r) (cr_event_id r) (cr_organization_id r) (cr_event_type r)
    ReceiptStatus.PROCESSING attempt (cr_last_error_code r) now (cr_processed_at r).

Definition processed (now : Z) (r : ConsumerReceiptRecord) : ConsumerReceiptRecord :=
  mkReceipt (cr_consumer_name r) (cr_event_id r) (cr_organization_id r) (cr_event_type r)
    ReceiptStatus.PROCESSED (cr_attempt_count r) None now (Some now).

Definition terminated (now : Z) (error_code : string) (r : ConsumerReceiptRecord) : ConsumerReceiptRecord :=
  mkReceipt (cr_consumer_name r) (cr_event_id r) (cr_organization_id r) (cr_event_type r)
    ReceiptStatus.DEAD (cr_attempt_count r) (Some (clip error_code)) now (cr_processed_at r).

(** [claim]. A transaction sees no other one's uncommitted rows, so a conflicting insert
    finds the row and the loop runs once. *)
Definition claim (now : Z) (consumer_name : string) (envelope : EventEnvelope) (delivery_count : Z)
    (receipts : list ConsumerReceiptRecord) : ReceiptClaim * list ConsumerReceiptRecord :=
  let attempt := Z.max 1 delivery_count in
  let mine := is_receipt consumer_name (ev_event_id envelope) in
  match List.find mine receipts with
  | None =>
      (mkClaim true false attempt,
       receipts ++ [mkReceipt consumer_name (ev_event_id envelope) (ev_organization_id envelope)
         (ev_event_type envelope) ReceiptStatus.PROCESSING attempt None now None])
  | Some row =>
      if finished (cr_status row) then (mkClaim false true (cr_attempt_count row), receipts)
      else
        let next_attempt := cr_attempt_count row + 1 in
        (mkClaim true false next_attempt, update_where mine (taken_over now next_attempt) receipts)
  end.

Definition mark_processed (now : Z) (consumer_name : string) (event_id : uuid)
    : list ConsumerReceiptRecord → list ConsumerReceiptRecord :=
  update_where (is_receipt consumer_name event_id) (processed now).

(** [record_terminal]: an upsert; the update overwrites whatever status is there. *)
Definition record_terminal (now : Z) (consumer_name : string) (envelope : EventEnvelope)
    (error_code : string) (attempt : Z) (receipts : list ConsumerReceiptRecord)
    : list ConsumerReceiptRecord :=
  let mine := is_receipt consumer_name (ev_event_id envelope) in
  match List.find mine receipts with
  | None => receipts ++ [mkReceipt consumer_name (ev_event_id envelope) (ev_organization_id envelope)
      (ev_event_type envelope) ReceiptStatus.DEAD (Z.max 1 attempt) (Some (clip error_code)) now None]
  | Some _ => update_where mine (terminated now error_code) receipts
  end.

Section consumer.
(** [B] is the business state the handler works on, [P] the typed payloads. *)
Context {B P : Type}.
Context (model_dump : EventEnvelope → json).
Context (from_json : string → option EventEnvelope).

(** ** [EventRegistry] *)

(** The registered models, by type and version; a model validates a payload. *)
Definition registry : Type := list ((string * Z) * (list (string * json) → option P)).

Definition key_eqb (a b : string * Z) : bool := String.eqb a.1 b.1 && Z.eqb a.2 b.2.

Definition lookup_model (r : registry) (key : string * Z) : option (list (string * json) → option P) :=
  snd <$> List.find (λ m, key_eqb (fst m) key) r.

(** [register]; a second registration raises [ValueError]. *)
Definition register (r : registry) (event_type : string) (version : Z)
    (model : list (string * json) → option P) : result failure registry :=
  match lookup_model r (event_type, version) with
  | Some _ => Err (Foreign ["ValueError"; "Exception"; "BaseException"; "object"])
  | None => Ok (r ++ [((event_type, version), model)])
  end.

Definition is_known_type (r : registry) (event_type : string) : bool :=
  existsb (λ m, String.eqb (fst (fst m)) event_type) r.

Definition model_for (r : registry) (event_type : string) (version : Z)
    : result failure (list (string * json) → option P) :=
  match lookup_model r (event_type, version) with
  | Some model => Ok model
  | None => if negb (is_known_type r event_type) then Err (Platform UnknownEventTypeError)
            else Err (Platform UnsupportedEventVersionError)
  end.

Definition decode (r : registry) (envelope : EventEnvelope) : result failure P :=
  model ← model_for r (ev_event_type envelope) (ev_event_version envelope);
  match model (ev_payload envelope) with
  | Some payload => Ok payload
  | None => Err (Platform EventContractError)
  end.

(** ** [DurableConsumer] *)

(** [envelope.domain] *)
Definition envelope_domain (envelope : EventEnvelope) : string :=
  hd EmptyString (split_dots (ev_event_type envelope)).

(** [str(payload_org) != str(envelope.organization_id)]: the text of a JSON value that is
    not a string never is that of a UUID. *)
Definition payload_agrees (envelope : EventEnvelope) : bool :=
  match assoc "organization_id" (ev_payload envelope) with
  | None | Some JNull => true
  | Some (JStr s) => String.eqb s (uuid_str (ev_organization_id envelope))
  | Some _ => false
  end.

Definition scope_eqb (a b : SubjectScope) : bool := String.eqb (scope_value a) (scope_value b).

Definition check_provenance (raw_subject : string) (envelope : EventEnvelope) : result failure () :=
  subject ← parse_subject raw_subject;
  if negb (scope_eqb (scope subject) TENANT) then Err (Platform EventTenantScopeError)
  else if negb (String.eqb (domain subject) (envelope_domain envelope)) then Err (Platform EventTenantScopeError)
  else if negb (payload_agrees envelope) then Err (Platform EventTenantScopeError)
  else Ok ().

Record EventContext : Type := mkContext {
  cx_envelope : EventEnvelope;
  cx_payload : P;
  cx_attempt : Z;
}.

Record ConsumerSpec : Type := {
  sp_name : string;
  sp_handler : EventContext → B → result failure B;
  sp_event_types : list string;
  sp_max_delivery_attempts : option Z;
}.

(** The settings the consumer reads. *)
Record ConsumerSettings : Type := {
  cs_max_delivery_attempts : Z;
  cs_retry_base_delay_seconds : Q;
  cs_retry_max_delay_seconds : Q;
}.

(** [max_attempts]; [None] and 0 are falsy. *)
Definition max_attempts (spec : ConsumerSpec) (settings : ConsumerSettings) : Z :=
  match sp_max_delivery_attempts spec with
  | Some n => if n =? 0 then cs_max_delivery_attempts settings else n
  | None => cs_max_delivery_attempts settings
  end.

Record ConsumerStats : Type := mkStats {
  st_processed : Z;
  st_duplicates : Z;
  st_retried : Z;
  st_dead_lettered : Z;
}.

(** A message; [None] when its metadata cannot be read. *)
Record Msg : Type := {
  msg_subject : string;
  msg_data : string;
  msg_num_delivered : option Z;
}.

Definition message_delivery_count (m : Msg) : Z := default 1 (msg_num_delivered m).

(** The last thing said to the broker about a message. *)
Inductive Disposition : Type :=
| Acked
| Naked (delay : Q)
| Termed.

(** What the environment does to a delivery: the handling transaction is rolled back,
    before or after the receipt is claimed, by an exception other than the handler's own
    (a timeout of the handler, a lost connection), or commits and the exception comes after; the acknowledgement raises;
    the dead-letter transaction raises. *)
Inductive TxnFault : Type :=
| NoFault
| RolledBack (claimed : bool) (exc : failure)
| CommittedThen (exc : failure).

Record Faults : Type := {
  fl_txn : TxnFault;
  fl_ack : option failure;
  fl_terminal : option failure;
}.

(** The tables, the business state and the dead-letter stream. *)
Record ConsumerDB : Type := mkConsumerDB {
  cd_receipts : list ConsumerReceiptRecord;
  cd_letters : list EventDeadLetterRecord;
  cd_business : B;
  cd_dlq : list EventEnvelope;
}.

Definition outcome : Type := Disposition * ConsumerStats * ConsumerDB.

Definition add_stats (p d r l : Z) (s : ConsumerStats) : ConsumerStats :=
  mkStats (st_processed s + p) (st_duplicates s + d) (st_retried s + r) (st_dead_lettered s + l).

(** [_terminal]. The publication to the dead-letter stream is best effort; the model
    keeps the attempt. *)
Definition terminal (spec : ConsumerSpec) (settings : ConsumerSettings) (now : Z) (fl : Faults)
    (envelope : EventEnvelope) (exc : failure) (delivery : Z) (s : ConsumerStats) (d : ConsumerDB)
    : outcome :=
  let error_code := safe_error_code exc in
  match fl_terminal fl with
  | Some _ => (Naked (cs_retry_max_delay_seconds settings), s, d)
  | None =>
      (Termed, add_stats 0 0 0 1 s,
       mkConsumerDB (record_terminal now (sp_name spec) envelope error_code delivery (cd_receipts d))
         (record_dead_letter model_dump envelope "CONSUMER" (classify_failure exc) error_code delivery
            (Some (sp_name spec)) (cd_letters d))
         (cd_business d) (cd_dlq d ++ [envelope]))
  end.

(** [_retry_or_terminal] *)
Definition retry_or_terminal (spec : ConsumerSpec) (settings : ConsumerSettings) (now : Z) (fl : Faults)
    (envelope : EventEnvelope) (exc : failure) (delivery : Z) (s : ConsumerStats) (d : ConsumerDB)
    : outcome :=
  if should_dead_letter delivery (max_attempts spec settings)
  then terminal spec settings now fl envelope exc delivery s d
  else
    (Naked (backoff_delay delivery (cs_retry_base_delay_seconds settings) (cs_retry_max_delay_seconds settings)),
     add_stats 0 0 1 0 s, d).

(** [except (TimeoutError, HandlerRetryableError)] *)
Definition is_timeout (exc : failure) : bool :=
  match exc with
  | Platform _ => false
  | OtherNxs _ mro | Foreign mro => bool_decide ("TimeoutError"%string ∈ mro)
  end.

(** The [except] clauses of [_process]. *)
Definition route (spec : ConsumerSpec) (settings : ConsumerSettings) (now : Z) (fl : Faults)
    (envelope : EventEnvelope) (exc : failure) (delivery : Z) (s : ConsumerStats) (d : ConsumerDB)
    : outcome :=
  match exc with
  | Platform HandlerTerminalError => terminal spec settings now fl envelope exc delivery s d
  | Platform HandlerRetryableError => retry_or_terminal spec settings now fl envelope exc delivery s d
  | _ =>
      if is_timeout exc then retry_or_terminal spec settings now fl envelope exc delivery s d
      else
        match classify_failure exc with
        | RETRYABLE => retry_or_terminal spec settings now fl envelope exc delivery s d
        | TERMINAL => terminal spec settings now fl envelope exc delivery s d
        end
  end.

(** The body of the transaction [_process] opens. *)
Definition handle (spec : ConsumerSpec) (now : Z) (envelope : EventEnvelope) (payload : P) (delivery : Z)
    (d : ConsumerDB) : result failure (ReceiptClaim * ConsumerDB) :=
  let '(c, receipts) := claim now (sp_name spec) envelope delivery (cd_receipts d) in
  if already_finished c then Ok (c, mkConsumerDB receipts (cd_letters d) (cd_business d) (cd_dlq d))
  else
    business ← sp_handler spec (mkContext envelope payload (claim_attempt c)) (cd_business d);
    Ok (c, mkConsumerDB (mark_processed now (sp_name spec) (ev_event_id envelope) receipts)
             (cd_letters d) business (cd_dlq d)).

(** The transaction: what it leaves, and what it returns or raises. *)
Definition transact (fl : Faults) (body : result failure (ReceiptClaim * ConsumerDB)) (d : ConsumerDB)
    : ConsumerDB * result failure ReceiptClaim :=
  match fl_txn fl, body with
  | RolledBack _ exc, _ => (d, Err exc)
  | _, Err exc => (d, Err exc)
  | NoFault, Ok (c, d') => (d', Ok c)
  | CommittedThen exc, Ok (c, d') => (d', Err exc)
  end.

(** The duplicates counted inside the transaction. *)
Definition duplicates (fl : Faults) (body : result failure (ReceiptClaim * ConsumerDB)) : Z :=
  match fl_txn fl, body with
  | RolledBack false _, _ | _, Err _ => 0
  | _, Ok (c, _) => if already_finished c then 1 else 0
  end.

(** [_process]; [_malformed] is its first branch. *)
Definition process (spec : ConsumerSpec) (settings : ConsumerSettings) (reg : registry) (now : Z)
    (fl : Faults) (m : Msg) (s : ConsumerStats) (d : ConsumerDB) : outcome :=
  match from_json (msg_data m) with
  | None => (Termed, add_stats 0 0 0 1 s, d)
  | Some envelope =>
      let delivery := message_delivery_count m in
      match (_ ← check_provenance (msg_subject m) envelope; decode reg envelope) with
      | Err exc => terminal spec settings now fl envelope exc delivery s d
      | Ok payload =>
          if negb (bool_decide (ev_event_type envelope ∈ sp_event_types spec))
          then terminal spec settings now fl envelope (Platform EventContractError) delivery s d
          else
            let body := handle spec now envelope payload delivery d in
            let s := add_stats 0 (duplicates fl body) 0 0 s in
            match transact fl body d with
            | (d', Err exc) => route spec settings now fl envelope exc delivery s d'
            | (d', Ok c) =>
                match fl_ack fl with
                | Some exc => route spec settings now fl envelope exc delivery s d'
                | None => (Acked, if already_finished c then s else add_stats 1 0 0 0 s, d')
                end
            end
      end
  end.
End consumer.
