(* ===== verification/EventDelivery.v ===== *)
(** * EventDelivery: at-least-once delivery, exactly-once effects

    Consumers as a transition system: any message is delivered any number of times, to
    any consumer, with any fault. *)

From Stdlib Require Import QArith.
From S2P Require Import Prelude.
From S2P Require Import PyText.
From S2P Require Import Conditions.
From S2P Require Import Store.
From S2P Require Import SchedulerInvariant.
From S2P Require Import EventPlatform.
From S2P Require Import EventOutbox.
From S2P Require Import EventRelay.
From S2P Require Import EventConsumer.

Open Scope Z_scope.

(** ** Receipts *)

Definition receipt_key (r : ConsumerReceiptRecord) : string * uuid := (cr_consumer_name r, cr_event_id r).

Lemma is_receipt_spec consumer id r : is_receipt consumer id r = true ↔ receipt_key r = (consumer, id).
Proof.
  unfold is_receipt, receipt_key. rewrite andb_true_iff, String.eqb_eq, N.eqb_eq.
  split; [by intros [-> ->]|by intros [= -> ->]].
Qed.

(** The receipt of [k] is put into status [st]; no other one is touched. *)
Record settles (k : string * uuid) (st : ReceiptStatus) (l l' : list ConsumerReceiptRecord) : Prop := {
  se_keys : NoDup (map receipt_key l) → NoDup (map receipt_key l');
  se_there : ∃ r, r ∈ l' ∧ receipt_key r = k;
  se_status : ∀ r, r ∈ l' → receipt_key r = k → cr_status r = st;
  se_others : ∀ r, receipt_key r ≠ k → (r ∈ l ↔ r ∈ l');
}.

Lemma find_receipt_None consumer id l :
  List.find (is_receipt consumer id) l = None → ∀ r, r ∈ l → receipt_key r ≠ (consumer, id).
Proof.
  intros H r Hr Hk%is_receipt_spec. rewrite list_elem_of_In in Hr.
  pose proof (find_none _ _ H _ Hr). congruence.
Qed.

Lemma settles_insert new l :
  (∀ r, r ∈ l → receipt_key r ≠ receipt_key new) →
  settles (receipt_key new) (cr_status new) l (l ++ [new]).
Proof.
  intros Hnew. split.
  - intros Hl. rewrite map_app. apply NoDup_app. split_and!; [done| |apply NoDup_singleton].
    intros k (r & -> & Hr)%list_elem_of_fmap Hk%list_elem_of_singleton. by apply (Hnew r).
  - exists new. split; [|done]. apply elem_of_app. right. by constructor.
  - intros r [Hr | Hr%list_elem_of_singleton]%elem_of_app Hk; [by apply Hnew in Hr|by subst].
  - intros r Hk. rewrite elem_of_app, list_elem_of_singleton. split; [by left|]. intros [H | H]; [done|by subst].
Qed.

Lemma settles_update consumer id f st l :
  (∀ r, receipt_key (f r) = receipt_key r) → (∀ r, cr_status (f r) = st) →
  (∃ r, r ∈ l ∧ receipt_key r = (consumer, id)) →
  settles (consumer, id) st l (update_where (is_receipt consumer id) f l).
Proof.
  intros Hf Hst (r0 & Hr0 & Hk0). split.
  - intros Hl. rewrite (update_where_map receipt_key); [done|]. intros r _ _. apply Hf.
  - exists (f r0). split; [|by rewrite Hf]. apply list_elem_of_fmap. exists r0. split; [|done].
    apply is_receipt_spec in Hk0. by rewrite Hk0.
  - intros r (x & Hx & [[-> Hp]|[-> _]])%update_where_elem Hk; [|done].
    apply is_receipt_spec in Hk. congruence.
  - intros r Hk. split.
    + intros Hr. apply list_elem_of_fmap. exists r. split; [|done].
      destruct (is_receipt consumer id r) eqn:E; [by apply is_receipt_spec in E|done].
    + intros (x & Hx & [[-> _]|[-> Hp]])%update_where_elem; [done|]. apply is_receipt_spec in Hp.
      exfalso. apply Hk. by rewrite Hf.
Qed.

Lemma settles_trans k st1 st2 l1 l2 l3 : settles k st1 l1 l2 → settles k st2 l2 l3 → settles k st2 l1 l3.
Proof.
  intros [A1 A2 A3 A4] [B1 B2 B3 B4]. split; [auto|done..|]. intros r Hk. rewrite A4 by done. auto.
Qed.

Lemma find_receipt_Some consumer id l r :
  List.find (is_receipt consumer id) l = Some r → r ∈ l ∧ receipt_key r = (consumer, id).
Proof. intros [H1 H2]%find_some. split; [by apply list_elem_of_In|by apply is_receipt_spec]. Qed.

Lemma record_terminal_settles now consumer e code n l :
  settles (consumer, ev_event_id e) ReceiptStatus.DEAD l (record_terminal now consumer e code n l).
Proof.
  unfold record_terminal. destruct (List.find _ _) as [r|] eqn:E.
  - apply settles_update; [done..|]. exists r. by apply find_receipt_Some.
  - apply (settles_insert (mkReceipt consumer (ev_event_id e) (ev_organization_id e) (ev_event_type e)
      ReceiptStatus.DEAD _ _ now None)). by apply find_receipt_None.
Qed.

Lemma claim_spec now consumer e delivery l c l' :
  NoDup (map receipt_key l) → claim now consumer e delivery l = (c, l') →
  let k := (consumer, ev_event_id e) in
  if already_finished c
  then l' = l ∧ ∃ r, r ∈ l ∧ receipt_key r = k ∧ finished (cr_status r) = true
  else settles k ReceiptStatus.PROCESSING l l' ∧
       ∀ r, r ∈ l → receipt_key r = k → finished (cr_status r) = false.
Proof.
  intros Hl. unfold claim. destruct (List.find _ _) as [r|] eqn:E; [destruct (finished _) eqn:F|]; intros [= <- <-].
  - apply find_receipt_Some in E as [? ?]. cbn. eauto 10.
  - apply find_receipt_Some in E as [Hr Hk]. split; [apply settles_update; [done..|by exists r]|].
    intros r' Hr' Hk'. assert (r' = r) as -> by (apply (NoDup_map_inj receipt_key l); congruence). done.
  - pose proof (find_receipt_None _ _ _ E) as Hn. split.
    + by apply (settles_insert (mkReceipt consumer (ev_event_id e) (ev_organization_id e) (ev_event_type e)
        ReceiptStatus.PROCESSING _ None now None)).
    + intros r Hr Hk. by apply Hn in Hr.
Qed.

(** ** Deliveries *)

Section delivery.
Context {B P : Type}.
Context (model_dump : EventEnvelope → json).
Context (from_json : string → option EventEnvelope).

Abbreviation spec := (@ConsumerSpec B P).
Abbreviation db := (@ConsumerDB B).

(** One delivery to a consumer. *)
Inductive delivery_step (d : db) : db → Prop :=
| delivery_processed (c : spec) settings reg now fl m s disposition s' d' :
    process model_dump from_json c settings reg now fl m s d = (disposition, s', d') →
    delivery_step d d'.

Definition empty_db (b : B) : db := mkConsumerDB [] [] b [].

(** The specification: each entry of a log runs its consumer's handler once. *)
Definition entry : Type := spec * @EventContext P.

Definition entry_key (x : entry) : string * uuid := (sp_name x.1, ev_event_id (cx_envelope x.2)).

Fixpoint replay (log : list entry) (b : B) : result failure B :=
  match log with
  | [] => Ok b
  | x :: log => b' ← sp_handler x.1 x.2 b; replay log b'
  end.

Lemma replay_snoc log x b b1 b2 :
  replay log b = Ok b1 → sp_handler x.1 x.2 b1 = Ok b2 → replay (log ++ [x]) b = Ok b2.
Proof.
  revert b. induction log as [|y log IH]; intros b; cbn [replay app].
  - intros [= ->] ->. done.
  - rewrite !bind_Ok. intros (b' & Hy & Hlog) Hx. eauto.
Qed.

(** The database realises the log: the business state is the log's, and the receipts
    know which events are in it. *)
Record realises (b0 : B) (log : list entry) (d : db) : Prop := {
  rz_business : replay log b0 = Ok (cd_business d);
  rz_once : NoDup (map entry_key log);
  rz_receipts : NoDup (map receipt_key (cd_receipts d));
  rz_finished : ∀ k, k ∈ map entry_key log →
    ∃ r, r ∈ cd_receipts d ∧ receipt_key r = k ∧ finished (cr_status r) = true;
  rz_processed : ∀ r, r ∈ cd_receipts d → cr_status r = ReceiptStatus.PROCESSED →
    receipt_key r ∈ map entry_key log;
}.

(** Settling one more receipt for good, with the log extended or not. *)
Lemma realises_settles b0 log log' d k st receipts letters dlq business :
  realises b0 log d → settles k st (cd_receipts d) receipts → finished st = true →
  replay log' b0 = Ok business → NoDup (map entry_key log') →
  (∀ k', k' ∈ map entry_key log → k' ∈ map entry_key log') →
  (∀ k', k' ∈ map entry_key log' → k' ∈ map entry_key log ∨ k' = k) →
  (st = ReceiptStatus.PROCESSED → k ∈ map entry_key log') →
  realises b0 log' (mkConsumerDB receipts letters business dlq).
Proof.
  intros [H1 H2 H3 H4 H5] [S1 S2 S3 S4] Hst Hb Hnd Hsub Hnew Hp. split; cbn [cd_business cd_receipts]; [auto..| |].
  - intros k' Hk'. destruct (decide (k' = k)) as [->|Hne].
    + destruct S2 as (r & Hr & Hk). exists r. split_and!; [done..|]. by rewrite (S3 _ Hr Hk).
    + destruct (Hnew _ Hk') as [Hold|]; [|done]. destruct (H4 _ Hold) as (r & Hr & Hk & Hf).
      exists r. split_and!; [|done..]. apply S4; congruence.
  - intros r Hr Hs. destruct (decide (receipt_key r = k)) as [Hk|Hne].
    + rewrite Hk. apply Hp. by rewrite <- (S3 _ Hr Hk).
    + apply Hsub, H5; [by apply S4|done].
Qed.

(** ** The operations *)

Lemma terminal_realises b0 log d (c : spec) settings now fl e exc n s :
  realises b0 log d → realises b0 log (terminal model_dump c settings now fl e exc n s d).2.
Proof.
  intros HR. unfold terminal. destruct (fl_terminal fl); [done|]. cbn [snd].
  eapply realises_settles; [done|apply record_terminal_settles|done|apply HR|apply HR|done|auto|done].
Qed.

Lemma retry_realises b0 log d (c : spec) settings now fl e exc n s :
  realises b0 log d → realises b0 log (retry_or_terminal model_dump c settings now fl e exc n s d).2.
Proof.
  intros HR. unfold retry_or_terminal. destruct (should_dead_letter _ _); [by apply terminal_realises|done].
Qed.

(** A failure is retried or is terminal. *)
Lemma route_cases (c : spec) settings now fl e exc n s (d : db) :
  route model_dump c settings now fl e exc n s d = terminal model_dump c settings now fl e exc n s d ∨
  route model_dump c settings now fl e exc n s d = retry_or_terminal model_dump c settings now fl e exc n s d.
Proof.
  unfold route. destruct exc as [[]|code mro|mro]; cbn; auto;
    destruct (bool_decide _); auto; destruct (classify_names _); auto.
Qed.

Lemma route_realises b0 log d (c : spec) settings now fl e exc n s :
  realises b0 log d → realises b0 log (route model_dump c settings now fl e exc n s d).2.
Proof.
  intros HR. destruct (route_cases c settings now fl e exc n s d) as [-> | ->];
    [by apply terminal_realises|by apply retry_realises].
Qed.

(** What the transaction does when its body succeeds. *)
Lemma handle_spec (c : spec) now e payload delivery (d : db) claimed d' :
  NoDup (map receipt_key (cd_receipts d)) → handle c now e payload delivery d = Ok (claimed, d') →
  let k := (sp_name c, ev_event_id e) in
  cd_letters d' = cd_letters d ∧
  if already_finished claimed
  then d' = d ∧ ∃ r, r ∈ cd_receipts d ∧ receipt_key r = k ∧ finished (cr_status r) = true
  else sp_handler c (mkContext e payload (claim_attempt claimed)) (cd_business d) = Ok (cd_business d') ∧
       settles k ReceiptStatus.PROCESSED (cd_receipts d) (cd_receipts d') ∧
       ∀ r, r ∈ cd_receipts d → receipt_key r = k → finished (cr_status r) = false.
Proof.
  intros Hnd. unfold handle. destruct (claim _ _ _ _ _) as [c0 receipts] eqn:Hc.
  pose proof (claim_spec _ _ _ _ _ _ _ Hnd Hc) as Hspec. cbv zeta in Hspec.
  destruct (already_finished c0) eqn:F.
  - intros [= <- <-]. rewrite F. destruct Hspec as [-> Hr]. split; [done|]. by destruct d.
  - rewrite bind_Ok. intros (b & Hb & [= <- <-]). rewrite F. destruct Hspec as [Hs Hn].
    split_and!; [done..| |done]. eapply settles_trans; [exact Hs|]. apply settles_update; [done..|].
    apply Hs.
Qed.

Lemma handle_realises b0 log (c : spec) now e payload delivery d claimed d' :
  realises b0 log d → handle c now e payload delivery d = Ok (claimed, d') →
  ∃ log', realises b0 (log ++ log') d'.
Proof.
  intros HR Hh. destruct (handle_spec _ _ _ _ _ _ _ _ (rz_receipts _ _ _ HR) Hh) as [Hlet Hcase]. cbv zeta in Hcase.
  destruct (already_finished claimed).
  - destruct Hcase as [-> _]. exists []. by rewrite app_nil_r.
  - destruct Hcase as (Hrun & Hset & Hnot). set (x := (c, mkContext e payload (claim_attempt claimed)) : entry).
    exists [x]. assert (Hfresh : entry_key x ∉ map entry_key log).
    { intros (r & Hr & Hk & Hf)%(rz_finished _ _ _ HR). by rewrite (Hnot r Hr Hk) in Hf. }
    destruct d' as [receipts letters business dlq].
    eapply realises_settles; [exact HR|exact Hset|done|..].
    + eapply replay_snoc; [apply HR|exact Hrun].
    + rewrite map_app. apply NoDup_app. split_and!; [apply HR| |apply NoDup_singleton].
      intros k Hk ->%list_elem_of_singleton. done.
    + intros k Hk. rewrite map_app. apply elem_of_app. by left.
    + intros k. rewrite map_app. intros [Hk | Hk%list_elem_of_singleton]%elem_of_app; auto.
    + intros _. rewrite map_app. apply elem_of_app. right. by constructor.
Qed.

Lemma transact_realises b0 log (c : spec) now e payload delivery fl d :
  realises b0 log d → ∃ log', realises b0 (log ++ log') (transact fl (handle c now e payload delivery d) d).1.
Proof.
  intros HR. assert (Hsame : ∃ log', realises b0 (log ++ log') d) by (exists []; by rewrite app_nil_r).
  unfold transact. destruct (handle c now e payload delivery d) as [[claimed d']|exc] eqn:Hh, (fl_txn fl); try done;
    by eapply handle_realises.
Qed.

Lemma process_realises b0 log (c : spec) settings reg now fl m s d :
  realises b0 log d →
  ∃ log', realises b0 (log ++ log') (process model_dump from_json c settings reg now fl m s d).2.
Proof.
  intros HR. assert (Hkeep : ∀ o : outcome, realises b0 log o.2 → ∃ log', realises b0 (log ++ log') o.2).
  { intros o Ho. exists []. by rewrite app_nil_r. }
  unfold process. destruct (from_json _) as [e|]; [|by apply Hkeep].
  destruct (mbind _ _) as [payload|exc]; [|by apply Hkeep, terminal_realises].
  destruct (negb _); [by apply Hkeep, terminal_realises|]. cbv zeta.
  destruct (transact_realises b0 log c now e payload (message_delivery_count m) fl d HR) as [log' HR'].
  exists log'. destruct (transact _ _ _) as [d' [claimed|exc]]; [|by apply route_realises].
  destruct (fl_ack fl); [by apply route_realises|done].
Qed.

(** C9. Effects happen once per consumer and event: after any sequence of deliveries,
    redeliveries, handler failures, rolled back or ambiguous commits, lost
    acknowledgements and dead letterings, to any number of consumers, the business
    state is the one a log of handler runs produces from the initial state in which no
    pair of consumer and event occurs twice; a processed receipt means that the
    handler's effect is in the state, and an event whose effect is in the state has a
    receipt that makes every further delivery a duplicate. *)
Theorem effects_happen_once b0 (d : db) :
  rtc delivery_step (empty_db b0) d → ∃ log, realises b0 log d.
Proof.
  intros Hr. assert (H0 : realises b0 [] (empty_db b0)).
  { split; cbn; [done|constructor|constructor|by intros ? ?%not_elem_of_nil..]. }
  revert H0. generalize (@nil entry). induction Hr as [d|d1 d2 d3 [c settings reg now fl m s disp s' d' Hp] _ IH];
    intros log HR; [by exists log|].
  destruct (process_realises b0 log c settings reg now fl m s d1 HR) as [log' HR']. rewrite Hp in HR'. eauto.
Qed.

(** ** One delivery *)

Definition settled (c : spec) (st : ReceiptStatus → bool) (e : EventEnvelope) (d : db) : Prop :=
  ∃ r, r ∈ cd_receipts d ∧ receipt_key r = (sp_name c, ev_event_id e) ∧ st (cr_status r) = true.

(** What a disposition guarantees of the database it leaves. *)
Definition disposed (c : spec) (settings : ConsumerSettings) (fl : Faults) (m : Msg) (o : @outcome B) : Prop :=
  let '(disposition, _, d) := o in
  match disposition, from_json (msg_data m) with
  | Acked, Some e => settled c finished e d
  | Acked, None => False
  | Termed, None => True
  | Termed, Some e =>
      settled c (λ st, bool_decide (st = ReceiptStatus.DEAD)) e d ∧
      ∃ l, l ∈ cd_letters d ∧ dl_event_id l = ev_event_id e ∧ dl_origin l = "CONSUMER"%string ∧
           dl_consumer_name l = Some (sp_name c)
  | Naked delay, _ =>
      is_Some (fl_terminal fl) ∧ delay = cs_retry_max_delay_seconds settings ∨
      message_delivery_count m < max_attempts c settings ∧
      delay = backoff_delay (message_delivery_count m) (cs_retry_base_delay_seconds settings)
                (cs_retry_max_delay_seconds settings)
  end.

Lemma terminal_disposed (c : spec) settings now fl m e exc s (d : db) :
  from_json (msg_data m) = Some e →
  disposed c settings fl m (terminal model_dump c settings now fl e exc (message_delivery_count m) s d).
Proof.
  intros He. unfold terminal. cbv zeta. destruct (fl_terminal fl) eqn:F.
  - left. by rewrite F.
  - unfold disposed. rewrite He. cbn [cd_letters cd_receipts]. split.
    + destruct (record_terminal_settles now (sp_name c) e (safe_error_code exc) (message_delivery_count m)
        (cd_receipts d)) as [_ (r & Hr & Hk) Hst _].
      exists r. split_and!; [done..|]. apply bool_decide_eq_true. by apply Hst.
    + destruct (record_dead_letter_spec model_dump e "CONSUMER" (classify_failure exc) (safe_error_code exc)
        (message_delivery_count m) (Some (sp_name c)) (cd_letters d)) as (_ & _ & l & Hl). by exists l.
Qed.

Lemma route_disposed (c : spec) settings now fl m e exc s (d : db) :
  from_json (msg_data m) = Some e →
  disposed c settings fl m (route model_dump c settings now fl e exc (message_delivery_count m) s d).
Proof.
  intros He. destruct (route_cases c settings now fl e exc (message_delivery_count m) s d) as [-> | ->];
    [by apply terminal_disposed|].
  unfold retry_or_terminal. destruct (should_dead_letter _ _) eqn:F; [by apply terminal_disposed|].
  right. unfold should_dead_letter in F. split; [lia|done].
Qed.

(** C33. Every delivery is settled safely: a message is acknowledged only when the
    committed receipt of its event is final, so that a redelivery cannot run the handler
    again; it is terminated only when it could not be parsed, or when the receipt is DEAD
    and a dead letter names the event and the consumer; otherwise it goes back to the
    broker, with the backoff of its delivery count while attempts remain, or with the
    maximal delay when the dead letter could not be stored. *)
Theorem deliveries_are_settled (c : spec) settings reg now fl m s (d : db) :
  NoDup (map receipt_key (cd_receipts d)) →
  disposed c settings fl m (process model_dump from_json c settings reg now fl m s d).
Proof.
  intros Hnd. unfold process. destruct (from_json (msg_data m)) as [e|] eqn:He; [|by cbn; rewrite He].
  destruct (mbind _ _) as [payload|exc]; [|by apply terminal_disposed].
  destruct (negb _); [by apply terminal_disposed|]. cbv zeta.
  destruct (transact _ _ _) as [d' [claimed|exc]] eqn:Ht; [|by apply route_disposed].
  destruct (fl_ack fl); [by apply route_disposed|]. unfold disposed. rewrite He.
  unfold transact in Ht. destruct (handle _ _ _ _ _ _) as [[claimed' d'']|] eqn:Hh; [|by destruct (fl_txn fl)].
  assert (d'' = d' ∧ claimed' = claimed) as [-> ->] by (by destruct (fl_txn fl); injection Ht).
  pose proof (handle_spec _ _ _ _ _ _ _ _ Hnd Hh) as [_ Hcase]. cbv zeta in Hcase. unfold settled.
  destruct (already_finished claimed); [by destruct Hcase as [-> ?]|].
  destruct Hcase as (_ & [_ (r & Hr & Hk) Hst _] & _). exists r. split_and!; [done..|]. by rewrite (Hst r Hr Hk).
Qed.

Lemma business_kept (c : spec) settings now fl e exc n s (d : db) :
  cd_business (terminal model_dump c settings now fl e exc n s d).2 = cd_business d ∧
  cd_business (route model_dump c settings now fl e exc n s d).2 = cd_business d.
Proof.
  assert (H1 : cd_business (terminal model_dump c settings now fl e exc n s d).2 = cd_business d).
  { unfold terminal. by destruct (fl_terminal fl). }
  split; [done|]. destruct (route_cases c settings now fl e exc n s d) as [-> | ->]; [done|].
  unfold retry_or_terminal. by destruct (should_dead_letter _ _).
Qed.

Lemma check_provenance_Ok raw e :
  check_provenance raw e = Ok () →
  ∃ subject, parse_subject raw = Ok subject ∧ scope subject = TENANT ∧
    domain subject = envelope_domain e ∧ payload_agrees e = true.
Proof.
  intros (subject & Hsub & Hp)%bind_Ok. destruct (scope subject) eqn:Hsc; [|done]. cbn in Hp.
  destruct (String.eqb_spec (domain subject) (envelope_domain e)); [|done]. cbn in Hp.
  destruct (payload_agrees e); [|done]. by exists subject.
Qed.

Lemma transact_business (c : spec) now e payload n fl (d d' : db) res :
  transact fl (handle c now e payload n d) d = (d', res) →
  cd_business d' = cd_business d ∨
  ∃ attempt, sp_handler c (mkContext e payload attempt) (cd_business d) = Ok (cd_business d').
Proof.
  unfold transact, handle. destruct (claim _ _ _ _ _) as [c0 receipts].
  destruct (already_finished c0); [destruct (fl_txn fl); intros [= <- _]; by left|].
  destruct (sp_handler _ _ _) as [b|] eqn:Hb; cbn; [|destruct (fl_txn fl); intros [= <- _]; by left].
  destruct (fl_txn fl); intros [= <- _]; [right|left|right]; eauto.
Qed.

(** Effects need provenance: a delivery changes the business state only through the
    consumer's handler, on an event that parsed, whose type the consumer declares, whose
    payload its registered model accepts, whose subject is a tenant subject of the
    event's own domain, and whose payload does not name another organization. *)
Theorem effects_need_provenance (c : spec) settings reg now fl m s (d : db) :
  let d' := (process model_dump from_json c settings reg now fl m s d).2 in
  cd_business d' = cd_business d ∨
  ∃ e payload attempt subject,
    from_json (msg_data m) = Some e ∧ decode reg e = Ok payload ∧ ev_event_type e ∈ sp_event_types c ∧
    parse_subject (msg_subject m) = Ok subject ∧ scope subject = TENANT ∧
    domain subject = envelope_domain e ∧ payload_agrees e = true ∧
    sp_handler c (mkContext e payload attempt) (cd_business d) = Ok (cd_business d').
Proof.
  cbv zeta. unfold process. destruct (from_json (msg_data m)) as [e|] eqn:He; [|by left].
  destruct (mbind _ _) as [payload|exc] eqn:Hm; [|left; by apply business_kept].
  destruct (negb _) eqn:Ht; [left; by apply business_kept|].
  cbv zeta. rewrite negb_false_iff, bool_decide_eq_true in Ht.
  apply bind_Ok in Hm as ([] & (subject & Hsub & Hsc & Hdom & Hpay)%check_provenance_Ok & Hdec).
  destruct (transact _ _ _) as [d1 res] eqn:Htr. apply transact_business in Htr.
  assert (Hlast : ∀ d' : db, cd_business d' = cd_business d1 → cd_business d' = cd_business d ∨
    ∃ attempt, sp_handler c (mkContext e payload attempt) (cd_business d) = Ok (cd_business d')).
  { by intros d' ->. }
  match goal with |- cd_business (snd ?o) = _ ∨ _ =>
    destruct (Hlast (snd o)) as [|[attempt Hrun]]; [|by left|right; by exists e, payload, attempt, subject] end.
  destruct res as [claimed|exc]; [destruct (fl_ack fl) as [exc|]; [|done]|]; apply business_kept.
Qed.
End delivery.

(** ** Concrete deliveries *)

Definition demo_model : list (string * json) → option () := λ payload, if payload is [] then Some () else None.

Definition demo_registry : @registry () := [(("workflow.run.started"%string, 1), demo_model)].

(** A handler that counts. *)
Definition counter : @ConsumerSpec nat () :=
  Build_ConsumerSpec "counter" (λ _ n, Ok (S n)) ["workflow.run.started"%string] (Some 2).

Definition demo_consumer_settings : ConsumerSettings := Build_ConsumerSettings 10 1 300.

Definition demo_msg (delivered : Z) : Msg := Build_Msg demo_subject "{}" (Some delivered).

Definition demo_from_json : string → option EventEnvelope := λ _, Some demo_envelope.

(** The acknowledgement is lost: the broker connection breaks after the commit. *)
Definition ack_lost : Faults :=
  Build_Faults NoFault (Some (Foreign ["ConnectionResetError"; "ConnectionError"; "OSError"])) None.

Definition no_faults : Faults := Build_Faults NoFault None None.

Definition deliver (fl : Faults) (n : Z) (d : @ConsumerDB nat) : @outcome nat :=
  process json_dump demo_from_json counter demo_consumer_settings demo_registry 0 fl (demo_msg n) (mkStats 0 0 0 0) d.

Abbreviation demo_delivery := (@delivery_step nat () json_dump demo_from_json).

Lemma deliver_step fl n d : demo_delivery d (deliver fl n d).2.
Proof. destruct (deliver fl n d) as [[x y] d'] eqn:E. by eapply delivery_processed. Qed.

(** Delivered twice, the first acknowledgement lost: one effect. *)
Definition demo_twice : @ConsumerDB nat := (deliver no_faults 2 (deliver ack_lost 1 (empty_db 0%nat)).2).2.

Lemma effects_happen_once_witness :
  cd_business demo_twice = 1%nat ∧ ∃ log : list (@entry nat ()), realises 0%nat log demo_twice.
Proof.
  split; [by vm_compute|]. apply (effects_happen_once json_dump demo_from_json 0%nat demo_twice).
  eapply rtc_l; [apply (deliver_step ack_lost 1)|]. apply rtc_once. apply deliver_step.
Defined.

Lemma deliveries_are_settled_witness :
  (deliver no_faults 1 (empty_db 0%nat)).1.1 = Acked ∧
  disposed demo_from_json counter demo_consumer_settings no_faults (demo_msg 1) (deliver no_faults 1 (empty_db 0%nat)).
Proof.
  split; [by vm_compute|]. apply (deliveries_are_settled json_dump demo_from_json). constructor.
Defined.

(** A processed event can be dead-lettered: when the acknowledgement of the last
    allowed delivery fails, the handler's committed effect stays while [record_terminal]
    overwrites the PROCESSED receipt with DEAD and a dead letter asks for a replay. *)
Theorem processed_event_dead_lettered :
  let '(disposition, _, d) := deliver ack_lost 2 (empty_db 0%nat) in
  disposition = Termed ∧ cd_business d = 1%nat ∧
  map cr_status (cd_receipts d) = [ReceiptStatus.DEAD] ∧
  map dl_event_id (cd_letters d) = [ev_event_id demo_envelope].
Proof. by vm_compute. Qed.
