(* ===== verification/Resilience.v ===== *)
(** * Resilience: retry policy, circuit breakers and rate limiters

    [integrations/backoff.py], [integrations/circuit.py], [integrations/ratelimit.py]
    and the local backend of [domain/auth/ratelimit.py]. Each is a pure state machine:
    the clock readings, the jitter and the answers of the shared cache are arguments.
    The body of every breaker method runs under the breaker's lock and is one step.
    Seconds are rationals. *)

From Stdlib Require Import QArith Qminmax.
From S2P Require Import Prelude.
From S2P Require Import PyText.
From S2P Require Import Store.
From S2P Require Import EventPlatform.
From S2P Require Import EventOutbox.

Open Scope Z_scope.

(** The settings of [IntegrationsSettings] used here and by the hub. *)
Record IntegrationsSettings : Type := mkIntegrationsSettings {
  retry_max_attempts : Z;
  is_retry_base : Q;
  is_retry_max_delay : Q;
  is_retry_max_elapsed : Q;
  circuit_failure_threshold : Z;
  circuit_reset_seconds : Q;
  circuit_half_open_max_calls : Z;
  outbound_rate_limit_per_minute : Z;
  idempotency_retention_seconds : Z;
}.

(** The [Field] bounds the proofs use. *)
Record settings_valid (s : IntegrationsSettings) : Prop := {
  sv_attempts : 1 ≤ retry_max_attempts s;
  sv_base : (0 < is_retry_base s)%Q;
  sv_max_delay : (0 < is_retry_max_delay s)%Q;
  sv_threshold : 1 ≤ circuit_failure_threshold s;
  sv_half_open : 1 ≤ circuit_half_open_max_calls s;
}.

(** ** Retry policy *)

Inductive RetryClass : Type := SAFE | IDEMPOTENT | NON_IDEMPOTENT.

Module FailureKind.
Inductive FailureKind : Type := PRE_SEND | IN_FLIGHT | UPSTREAM_5XX | UPSTREAM_429 | TERMINAL.
#[global] Instance eq_dec : EqDecision FailureKind.
Proof. solve_decision. Defined.
End FailureKind.
Abbreviation FailureKind := FailureKind.FailureKind.

Inductive RetryReason : Type :=
| max_attempts_reached
| max_elapsed_reached
| terminal_failure
| not_retryable (c : RetryClass) (f : FailureKind)
| would_exceed_budget
| retry.

Record RetryDecision : Type := mkDecision {
  should_retry : bool;
  delay_seconds : Q;
  reason : RetryReason;
}.

(** [round(x, 4)] *)
Definition round4 (q : Q) : Q := (inject_Z (round_half_even (q * inject_Z 10000)) / inject_Z 10000)%Q.

(** [_backoff]; [draw] is [secrets.randbelow(1_000_000)]. *)
Definition retry_backoff (s : IntegrationsSettings) (attempt draw : Z) : Q :=
  let ceiling := Qmin (is_retry_max_delay s) (is_retry_base s * inject_Z (2 ^ (attempt - 1)))%Q in
  round4 (ceiling * (inject_Z draw / inject_Z 1000000)).

Definition retry_safe (c : RetryClass) (f : FailureKind) : bool :=
  match f, c with
  | FailureKind.PRE_SEND, _ => true
  | _, SAFE => true
  | f, IDEMPOTENT => bool_decide (f ∈ [FailureKind.IN_FLIGHT; FailureKind.UPSTREAM_5XX; FailureKind.UPSTREAM_429])
  | _, NON_IDEMPOTENT => false
  end.

(** [decide] *)
Definition decide_retry (s : IntegrationsSettings) (retry_class : RetryClass) (failure : FailureKind)
    (attempt : Z) (elapsed : Q) (retry_after : option Q) (draw : Z) : RetryDecision :=
  if retry_max_attempts s <=? attempt then mkDecision false 0 max_attempts_reached
  else if Qle_bool (is_retry_max_elapsed s) elapsed then mkDecision false 0 max_elapsed_reached
  else if bool_decide (failure = FailureKind.TERMINAL) then mkDecision false 0 terminal_failure
  else if negb (retry_safe retry_class failure) then mkDecision false 0 (not_retryable retry_class failure)
  else
    let delay := match retry_after with
                 | Some q => Qmax 0 (Qmin q (is_retry_max_delay s))
                 | None => retry_backoff s attempt draw
                 end in
    if Qle_bool (is_retry_max_elapsed s) (elapsed + delay) then mkDecision false 0 would_exceed_budget
    else mkDecision true delay retry.

Lemma decide_retry_true s c f attempt elapsed after draw :
  should_retry (decide_retry s c f attempt elapsed after draw) = true →
  attempt < retry_max_attempts s ∧ retry_safe c f = true ∧ f ≠ FailureKind.TERMINAL ∧
  (elapsed + delay_seconds (decide_retry s c f attempt elapsed after draw) < is_retry_max_elapsed s)%Q.
Proof.
  unfold decide_retry. destruct (_ <=? _) eqn:H1; [done|]. destruct (Qle_bool _ elapsed); [done|].
  destruct (bool_decide _) eqn:H2; [done|]. destruct (retry_safe c f); [|done]. cbn [negb]. cbv zeta.
  destruct (Qle_bool _ (elapsed + _)) eqn:H3; [done|]. intros _. cbn [delay_seconds].
  split_and!; [lia|done|by apply bool_decide_eq_false in H2|].
  apply Qnot_le_lt. intros H%Qle_bool_iff. congruence.
Qed.

(** ** Circuit breakers *)

Module CircuitState.
Inductive CircuitState : Type := CLOSED | OPEN | HALF_OPEN.
#[global] Instance eq_dec : EqDecision CircuitState.
Proof. solve_decision. Defined.
End CircuitState.
Abbreviation CircuitState := CircuitState.CircuitState.

Definition CircuitKey : Type := uuid * uuid * string.

Record Breaker : Type := mkBreaker {
  br_state : CircuitState;
  br_failures : Z;
  br_opened_at : Q;
  br_half_open_calls : Z;
}.

Definition fresh_breaker : Breaker := mkBreaker CircuitState.CLOSED 0 0 0.

(** The key table: a dict in insertion order. *)
Definition breakers : Type := list (CircuitKey * Breaker).

Definition MAX_KEYS : Z := 50000.

Definition lookup_breaker (key : CircuitKey) (t : breakers) : option Breaker :=
  snd <$> List.find (λ e, bool_decide (fst e = key)) t.

Definition is_closed (e : CircuitKey * Breaker) : bool :=
  bool_decide (br_state (snd e) = CircuitState.CLOSED).

(** The key to evict: the first CLOSED breaker, or the first one. *)
Definition calmest (t : breakers) : option CircuitKey :=
  match List.find is_closed t with
  | Some e => Some (fst e)
  | None => fst <$> head t
  end.

Definition remove_key (key : CircuitKey) (t : breakers) : breakers :=
  List.filter (λ e, negb (bool_decide (fst e = key))) t.

(** [_get] *)
Definition get_breaker (key : CircuitKey) (t : breakers) : Breaker * breakers :=
  match lookup_breaker key t with
  | Some b => (b, t)
  | None =>
      let t := if MAX_KEYS <=? Z.of_nat (length t)
               then match calmest t with Some k => remove_key k t | None => t end else t in
      (fresh_breaker, t ++ [(key, fresh_breaker)])
  end.

Definition set_breaker (key : CircuitKey) (b : Breaker) (t : breakers) : breakers :=
  map (λ e, if bool_decide (fst e = key) then (key, b) else e) t.

(** [before_call] on one breaker: whether the call is admitted. *)
Definition admit_call (s : IntegrationsSettings) (now : Q) (b : Breaker) : bool * Breaker :=
  let trial b :=
    if circuit_half_open_max_calls s <=? br_half_open_calls b then (false, b)
    else (true, mkBreaker (br_state b) (br_failures b) (br_opened_at b) (br_half_open_calls b + 1)) in
  match br_state b with
  | CircuitState.OPEN =>
      if negb (Qle_bool (circuit_reset_seconds s) (now - br_opened_at b)) then (false, b)
      else trial (mkBreaker CircuitState.HALF_OPEN (br_failures b) (br_opened_at b) 0)
  | CircuitState.HALF_OPEN => trial b
  | CircuitState.CLOSED => (true, b)
  end.

Definition succeeded (b : Breaker) : Breaker := mkBreaker CircuitState.CLOSED 0 (br_opened_at b) 0.

Definition failed (s : IntegrationsSettings) (now : Q) (b : Breaker) : Breaker :=
  match br_state b with
  | CircuitState.HALF_OPEN => mkBreaker CircuitState.OPEN (br_failures b) now (br_half_open_calls b)
  | st =>
      let failures := br_failures b + 1 in
      if circuit_failure_threshold s <=? failures
      then mkBreaker CircuitState.OPEN failures now (br_half_open_calls b)
      else mkBreaker st failures (br_opened_at b) (br_half_open_calls b)
  end.

Definition before_call (s : IntegrationsSettings) (now : Q) (key : CircuitKey) (t : breakers)
    : bool * breakers :=
  let '(b, t) := get_breaker key t in
  let '(admitted, b) := admit_call s now b in
  (admitted, set_breaker key b t).

Definition record_success (key : CircuitKey) (t : breakers) : breakers :=
  let '(b, t) := get_breaker key t in set_breaker key (succeeded b) t.

Definition record_call_failure (s : IntegrationsSettings) (now : Q) (key : CircuitKey) (t : breakers)
    : breakers :=
  let '(b, t) := get_breaker key t in set_breaker key (failed s now b) t.

(** ** Fixed-window counters *)

Definition window_key : Type := string * Z.

(** An [OrderedDict] of counts. *)
Definition counts : Type := list (window_key * Z).

Definition count_of (e : window_key) (c : counts) : Z :=
  default 0 (snd <$> List.find (λ x, bool_decide (fst x = e)) c).

Definition drop_entry (e : window_key) (c : counts) : counts :=
  List.filter (λ x, negb (bool_decide (fst x = e))) c.

(** [c[e] = c.get(e, 0) + 1; c.move_to_end(e)] *)
Definition bump (e : window_key) (c : counts) : counts := drop_entry e c ++ [(e, count_of e c + 1)].

(** *** [OutboundRateLimiter] *)

Definition MAX_LOCAL_KEYS : Z := 100000.

Definition WINDOW : Z := 60.

(** [int(self._now()) // self._window] for a non-negative clock. *)
Definition window_start (now : Z) : Z := now / WINDOW.

Definition limiter_key (organization_id : uuid) (integration_id : option uuid) : string :=
  uuid_str organization_id +:+ ":" +:+
  match integration_id with None => "all" | Some i => uuid_str i end.

(** The first 1024 entries of older windows are dropped. *)
Fixpoint prune_stale (budget : nat) (window : Z) (c : counts) : counts :=
  match c with
  | [] => []
  | x :: c =>
      if (snd (fst x) <? window) then
        match budget with
        | O => x :: prune_stale O window c
        | S budget => prune_stale budget window c
        end
      else x :: prune_stale budget window c
  end.

(** [_increment]; [cached] is the shared counter's answer when the cache works. *)
Definition increment (cached : option Z) (key : string) (window : Z) (c : counts) : Z * counts :=
  match cached with
  | Some n => (n, c)
  | None =>
      let c := bump (key, window) (prune_stale 1024 window c) in
      (count_of (key, window) c, drop (length c - Z.to_nat MAX_LOCAL_KEYS) c)
  end.

Definition check_and_consume (s : IntegrationsSettings) (now : Z) (cached : option Z)
    (organization_id : uuid) (integration_id : option uuid) (c : counts) : bool * counts :=
  let '(count, c) := increment cached (limiter_key organization_id integration_id) (window_start now) c in
  (count <=? outbound_rate_limit_per_minute s, c).

(** *** [LocalWindowRateLimiter] *)

Record LoginLimits : Type := mkLoginLimits {
  max_failures : Z;
  window_seconds : Z;
  max_keys : nat;
}.

Definition login_window (l : LoginLimits) (now : Z) : Z := now / window_seconds l * window_seconds l.

(** [_prune]: from the newest end while its window is over. *)
Fixpoint prune_front (window : Z) (c : counts) : counts :=
  match c with
  | [] => []
  | x :: c' => if snd (fst x) <? window then prune_front window c' else c
  end.

Definition prune (window : Z) (c : counts) : counts := rev (prune_front window (rev c)).

(** [check] *)
Definition login_admitted (l : LoginLimits) (now : Z) (key : string) (c : counts) : bool * counts :=
  let window := login_window l now in
  let c := prune window c in
  (count_of (key, window) c <? max_failures l, c).

Definition record_login_failure (l : LoginLimits) (now : Z) (key : string) (c : counts) : counts :=
  let window := login_window l now in
  take (max_keys l) (bump (key, window) (prune window c)).

Definition reset_login (l : LoginLimits) (now : Z) (key : string) (c : counts) : counts :=
  let window := login_window l now in drop_entry (key, window) (prune window c).
