(* ===== verification/IntegrationHub.v ===== *)
(** * IntegrationHub: the governed path to an external system

    [integrations/errors.py], [integrations/result.py], the failure classification of
    [integrations/executor.py], [IntegrationIdempotencyRepository] and
    [integrations/service.py]. Registry, request building and the vault are inputs of
    [execute]: their results are arguments. The transport is an oracle with httpx's
    exception classes; json, jsonschema, sha256 and pydantic are parameters. The hub's
    own database transactions succeed. *)

From Stdlib Require Import QArith Qround.
From S2P Require Import Prelude.
From S2P Require Import PyText.
From S2P Require Import Conditions.
From S2P Require Import Store.
From S2P Require Import EventPlatform.
From S2P Require Import Resilience.

Open Scope Z_scope.

(** ** Errors *)

Inductive IntegrationError : Type :=
| IntegrationNotFoundError
| IntegrationOperationNotFoundError
| IntegrationConflictError
| IntegrationDisabledError
| IntegrationConfigInvalidError
| IntegrationAuthProfileInvalidError
| IntegrationOperationInputInvalidError
| IntegrationOpenApiInvalidError
| IntegrationGraphQLInvalidError
| IntegrationDestinationBlockedError
| IntegrationCredentialUnavailableError
| IntegrationTimeoutError
| IntegrationConnectionError
| IntegrationTlsError
| IntegrationRedirectBlockedError
| IntegrationResponseTooLargeError
| IntegrationResponseInvalidError
| IntegrationUpstreamClientError (upstream_status : Z)
| IntegrationUpstreamServerError (upstream_status : Z)
| IntegrationUpstreamRateLimitedError (retry_after_seconds : option Q)
| IntegrationCircuitOpenError
| IntegrationOutboundRateLimitedError
| IntegrationIdempotencyConflictError
| IntegrationExecutionInProgressError
| IntegrationExecutionFailedError.

(** [code], [status] and [retryable] of the classes. *)
Definition integration_error_code (e : IntegrationError) : string :=
  match e with
  | IntegrationNotFoundError => "NXS_INT_NOT_FOUND"
  | IntegrationOperationNotFoundError => "NXS_INT_OPERATION_NOT_FOUND"
  | IntegrationConflictError => "NXS_INT_CONFLICT"
  | IntegrationDisabledError => "NXS_INT_DISABLED"
  | IntegrationConfigInvalidError => "NXS_INT_CONFIG_INVALID"
  | IntegrationAuthProfileInvalidError => "NXS_INT_AUTH_PROFILE_INVALID"
  | IntegrationOperationInputInvalidError => "NXS_INT_OPERATION_INPUT_INVALID"
  | IntegrationOpenApiInvalidError => "NXS_INT_OPENAPI_INVALID"
  | IntegrationGraphQLInvalidError => "NXS_INT_GRAPHQL_INVALID"
  | IntegrationDestinationBlockedError => "NXS_INT_DESTINATION_BLOCKED"
  | IntegrationCredentialUnavailableError => "NXS_INT_CREDENTIAL_UNAVAILABLE"
  | IntegrationTimeoutError => "NXS_INT_TIMEOUT"
  | IntegrationConnectionError => "NXS_INT_CONNECTION_ERROR"
  | IntegrationTlsError => "NXS_INT_TLS_ERROR"
  | IntegrationRedirectBlockedError => "NXS_INT_REDIRECT_BLOCKED"
  | IntegrationResponseTooLargeError => "NXS_INT_RESPONSE_TOO_LARGE"
  | IntegrationResponseInvalidError => "NXS_INT_RESPONSE_INVALID"
  | IntegrationUpstreamClientError _ => "NXS_INT_UPSTREAM_CLIENT_ERROR"
  | IntegrationUpstreamServerError _ => "NXS_INT_UPSTREAM_SERVER_ERROR"
  | IntegrationUpstreamRateLimitedError _ => "NXS_INT_UPSTREAM_RATE_LIMITED"
  | IntegrationCircuitOpenError => "NXS_INT_CIRCUIT_OPEN"
  | IntegrationOutboundRateLimitedError => "NXS_INT_OUTBOUND_RATE_LIMITED"
  | IntegrationIdempotencyConflictError => "NXS_INT_IDEMPOTENCY_CONFLICT"
  | IntegrationExecutionInProgressError => "NXS_INT_EXECUTION_IN_PROGRESS"
  | IntegrationExecutionFailedError => "NXS_INT_EXECUTION_FAILED"
  end.

Definition integration_error_status (e : IntegrationError) : Z :=
  match e with
  | IntegrationNotFoundError | IntegrationOperationNotFoundError => 404
  | IntegrationConflictError | IntegrationDisabledError | IntegrationCredentialUnavailableError
  | IntegrationIdempotencyConflictError | IntegrationExecutionInProgressError => 409
  | IntegrationConfigInvalidError | IntegrationAuthProfileInvalidError
  | IntegrationOperationInputInvalidError | IntegrationOpenApiInvalidError
  | IntegrationGraphQLInvalidError | IntegrationDestinationBlockedError => 422
  | IntegrationTimeoutError => 504
  | IntegrationUpstreamRateLimitedError _ | IntegrationOutboundRateLimitedError => 429
  | IntegrationCircuitOpenError => 503
  | _ => 502
  end.

Definition integration_error_retryable (e : IntegrationError) : bool :=
  match e with
  | IntegrationTimeoutError | IntegrationConnectionError | IntegrationUpstreamServerError _
  | IntegrationUpstreamRateLimitedError _ | IntegrationCircuitOpenError
  | IntegrationOutboundRateLimitedError | IntegrationExecutionInProgressError => true
  | _ => false
  end.

Module ResultClass.
Inductive ResultClass : Type :=
| SUCCESS | UPSTREAM_CLIENT_ERROR | UPSTREAM_SERVER_ERROR | UPSTREAM_RATE_LIMITED | TRANSPORT_ERROR
| RESPONSE_INVALID | POLICY_BLOCKED | CIRCUIT_OPEN | RATE_LIMITED | IDEMPOTENCY_CONFLICT
| CONFIG_ERROR | EXECUTION_FAILED.
End ResultClass.
Abbreviation ResultClass := ResultClass.ResultClass.

(** [_RESULT_CLASS_FOR_ERROR.get(code, EXECUTION_FAILED)] *)
Definition RESULT_CLASS_FOR_ERROR : list (string * ResultClass) :=
  [("NXS_INT_UPSTREAM_CLIENT_ERROR"%string, ResultClass.UPSTREAM_CLIENT_ERROR);
   ("NXS_INT_UPSTREAM_SERVER_ERROR"%string, ResultClass.UPSTREAM_SERVER_ERROR);
   ("NXS_INT_UPSTREAM_RATE_LIMITED"%string, ResultClass.UPSTREAM_RATE_LIMITED);
   ("NXS_INT_TIMEOUT"%string, ResultClass.TRANSPORT_ERROR);
   ("NXS_INT_CONNECTION_ERROR"%string, ResultClass.TRANSPORT_ERROR);
   ("NXS_INT_TLS_ERROR"%string, ResultClass.TRANSPORT_ERROR);
   ("NXS_INT_REDIRECT_BLOCKED"%string, ResultClass.TRANSPORT_ERROR);
   ("NXS_INT_RESPONSE_TOO_LARGE"%string, ResultClass.RESPONSE_INVALID);
   ("NXS_INT_RESPONSE_INVALID"%string, ResultClass.RESPONSE_INVALID);
   ("NXS_INT_DESTINATION_BLOCKED"%string, ResultClass.POLICY_BLOCKED);
   ("NXS_INT_CIRCUIT_OPEN"%string, ResultClass.CIRCUIT_OPEN);
   ("NXS_INT_OUTBOUND_RATE_LIMITED"%string, ResultClass.RATE_LIMITED);
   ("NXS_INT_IDEMPOTENCY_CONFLICT"%string, ResultClass.IDEMPOTENCY_CONFLICT);
   ("NXS_INT_CREDENTIAL_UNAVAILABLE"%string, ResultClass.CONFIG_ERROR);
   ("NXS_INT_AUTH_PROFILE_INVALID"%string, ResultClass.CONFIG_ERROR);
   ("NXS_INT_OPERATION_INPUT_INVALID"%string, ResultClass.CONFIG_ERROR)].

Definition result_class_for (e : IntegrationError) : ResultClass :=
  default ResultClass.EXECUTION_FAILED (assoc (integration_error_code e) RESULT_CLASS_FOR_ERROR).

(** ** The executor's failures *)

Record RawResponse : Type := mkRaw {
  raw_status : Z;
  raw_headers : list (string * string);
  raw_body : string;
}.

(** httpx's exception classes; [ConnectError], [ReadError], [WriteError] and
    [CloseError] are the subclasses of [NetworkError], all are [HTTPError]s. *)
Inductive HttpxError : Type :=
| ConnectTimeout | ReadTimeout | WriteTimeout | PoolTimeout
| ConnectError | ReadError | WriteError | CloseError
| ProtocolError | OtherHTTPError.

Definition is_network_error (e : HttpxError) : bool :=
  match e with ConnectError | ReadError | WriteError | CloseError => true | _ => false end.

(** The [except] clauses of [_send_once]; [tls] is [_looks_like_tls]. *)
Definition classify_httpx (e : HttpxError) (tls : bool) : FailureKind * IntegrationError :=
  match e with
  | ConnectTimeout => (FailureKind.PRE_SEND, IntegrationTimeoutError)
  | _ =>
      if is_network_error e then
        if tls then (FailureKind.TERMINAL, IntegrationTlsError)
        else (FailureKind.PRE_SEND, IntegrationConnectionError)
      else match e with
           | ReadTimeout => (FailureKind.IN_FLIGHT, IntegrationTimeoutError)
           | _ => (FailureKind.IN_FLIGHT, IntegrationConnectionError)
           end
  end.

(** What [send] meets: a final response, a failure of [_send_once], a drop while the
    response is read, the total timeout, an error of the policy, the size or redirect
    limits, or an exception of another kind. *)
Inductive SendOutcome : Type :=
| Responded (raw : RawResponse)
| SendError (e : HttpxError) (tls : bool)
| BodyDropped
| TotalTimeout
| Rejected (e : IntegrationError)
| Exploded.

(** [send]'s exceptions: [ExecutorFailure] with its kind, or an [NxsError]. *)
Definition transport_failure (o : SendOutcome) : option (FailureKind * IntegrationError) :=
  match o with
  | SendError e tls => Some (classify_httpx e tls)
  | BodyDropped => Some (FailureKind.IN_FLIGHT, IntegrationConnectionError)
  | TotalTimeout => Some (FailureKind.IN_FLIGHT, IntegrationTimeoutError)
  | Rejected e => Some (FailureKind.TERMINAL, e)
  | Responded _ | Exploded => None
  end.

(** ** Response validation *)

(** [value.split(";", 1)[0]] *)
Fixpoint before_semicolon (s : string) : string :=
  match s with
  | EmptyString => EmptyString
  | String c s => if Ascii.eqb c ";" then EmptyString else String c (before_semicolon s)
  end.

Definition media_type (s : string) : string := lower (strip (before_semicolon s)).

Definition content_type_matches (actual : option string) (expected : string) : bool :=
  if String.eqb expected EmptyString then true
  else match actual with
       | None => false
       | Some a => String.eqb (media_type a) (media_type expected)
       end.

Definition MAX_JSON_TEXT : Z := 8 * 1024 * 1024.

Module IdempotencyStatus.
Inductive IdempotencyStatus : Type := PENDING | COMPLETED | FAILED.
#[global] Instance eq_dec : EqDecision IdempotencyStatus.
Proof. solve_decision. Defined.
End IdempotencyStatus.
Abbreviation IdempotencyStatus := IdempotencyStatus.IdempotencyStatus.

(** The specs: what of them execution reads. A schema is opaque. *)
Inductive OperationSpec {Schema : Type} : Type :=
| RestOperationSpec (success_status : list Z) (response_content_type : string)
    (response_schema : option Schema)
| GraphQLOperationSpec (response_schema : option Schema).
Arguments OperationSpec : clear implicits.

Section hub.
Context {Schema : Type}.
(** [float(text)] when finite, [json.loads(body.decode())], and whether the validator of a
    schema reports no error. *)
Context (py_float : string → option Q).
Context (json_loads : string → option json).
Context (schema_valid : Schema → json → bool).

Definition parse_retry_after (value : option string) : option Q :=
  match value with
  | None => None
  | Some v =>
      match py_float (strip v) with
      | Some seconds => if Qle_bool 0 seconds && Qle_bool seconds 86400 then Some seconds else None
      | None => None
      end
  end.

(** [classify_status]: the error raised, if any. *)
Definition classify_status (r : RawResponse) : option IntegrationError :=
  let status := raw_status r in
  if status =? 429
  then Some (IntegrationUpstreamRateLimitedError (parse_retry_after (assoc "retry-after" (raw_headers r))))
  else if (500 <=? status) && (status <=? 599) then Some (IntegrationUpstreamServerError status)
  else if (400 <=? status) && (status <=? 499) then Some (IntegrationUpstreamClientError status)
  else None.

Definition check_schema (value : json) (schema : option Schema) : result IntegrationError () :=
  match schema with
  | None => Ok ()
  | Some s => if schema_valid s value then Ok () else Err IntegrationResponseInvalidError
  end.

Definition unexpected_status (r : RawResponse) : IntegrationError :=
  default IntegrationResponseInvalidError (classify_status r).

Definition validate_rest_response (r : RawResponse) (success_status : list Z) (content_type : string)
    (schema : option Schema) : result IntegrationError json :=
  if negb (bool_decide (raw_status r ∈ success_status)) then Err (unexpected_status r)
  else if (raw_status r =? 204) || String.eqb (raw_body r) EmptyString
  then _ ← check_schema JNull schema; Ok JNull
  else if negb (content_type_matches (assoc "content-type" (raw_headers r)) content_type)
  then Err IntegrationResponseInvalidError
  else if MAX_JSON_TEXT <? slen (raw_body r) then Err IntegrationResponseInvalidError
  else match json_loads (raw_body r) with
       | None => Err IntegrationResponseInvalidError
       | Some decoded => _ ← check_schema decoded schema; Ok decoded
       end.

Definition validate_graphql_response (r : RawResponse) (schema : option Schema)
    : result IntegrationError json :=
  if negb (raw_status r =? 200) then Err (unexpected_status r)
  else match json_loads (raw_body r) with
       | Some (JObj fields) =>
           if json_truthy (default JNull (assoc "errors" fields)) then Err IntegrationResponseInvalidError
           else let data := default JNull (assoc "data" fields) in
                _ ← check_schema data schema; Ok data
       | _ => Err IntegrationResponseInvalidError
       end.

(** [_validate] *)
Definition validate_response (spec : OperationSpec Schema) (r : RawResponse) : result IntegrationError json :=
  match spec with
  | GraphQLOperationSpec schema => validate_graphql_response r schema
  | RestOperationSpec success content_type schema => validate_rest_response r success content_type schema
  end.

(** ** One attempt *)

Inductive Attempt : Type :=
| AttemptOk (raw : RawResponse) (output : json)
| AttemptFailed (raw : option RawResponse) (kind : FailureKind) (e : IntegrationError) (retry_after : option Q)
| AttemptExploded.

(** [_attempt] *)
Definition attempt_outcome (spec : OperationSpec Schema) (o : SendOutcome) : Attempt :=
  match o with
  | Exploded => AttemptExploded
  | Responded raw =>
      match validate_response spec raw with
      | Ok output => AttemptOk raw output
      | Err (IntegrationUpstreamRateLimitedError after as e) =>
          AttemptFailed (Some raw) FailureKind.UPSTREAM_429 e after
      | Err (IntegrationUpstreamServerError _ as e) =>
          AttemptFailed (Some raw) FailureKind.UPSTREAM_5XX e None
      | Err e => AttemptFailed (Some raw) FailureKind.TERMINAL e None
      end
  | _ =>
      match transport_failure o with
      | Some (kind, e) => AttemptFailed None kind e None
      | None => AttemptExploded
      end
  end.

(** ** State *)

Record IntegrationIdempotencyRecord : Type := mkIdem {
  ii_organization_id : uuid;
  ii_integration_id : uuid;
  ii_operation_key : string;
  ii_idempotency_key : string;
  ii_request_fingerprint : string;
  ii_status : IdempotencyStatus;
  ii_result_json : option json;
  ii_error_code : option string;
  ii_updated_at : Z;
  ii_expires_at : Z;
}.

(** The human-readable [error_detail] is left out. *)
Record IntegrationResult : Type := mkIntegrationResult {
  ir_integration_id : uuid;
  ir_operation_key : string;
  ir_result_class : ResultClass;
  ir_ok : bool;
  ir_status_code : Z;
  ir_output : json;
  ir_upstream_status : option Z;
  ir_error_code : option string;
  ir_retry_count : Z;
  ir_duration_ms : Z;
  ir_config_revision : Z;
  ir_correlation_id : option string;
  ir_idempotency_key : option string;
  ir_replayed : bool;
}.

(** The hub: its in-process tables, the database rows, the failure events it enqueued,
    and every request that went to the transport with what came of it. *)
Record Hub : Type := mkHub {
  hub_breakers : breakers;
  hub_counts : counts;
  hub_idem : list IntegrationIdempotencyRecord;
  hub_executions : list (uuid * IntegrationResult);
  hub_events : list (uuid * IntegrationResult);
  hub_sent : list SendOutcome;
}.

Definition set_hub_breakers (b : breakers) (h : Hub) : Hub :=
  mkHub b (hub_counts h) (hub_idem h) (hub_executions h) (hub_events h) (hub_sent h).
Definition set_hub_counts (c : counts) (h : Hub) : Hub :=
  mkHub (hub_breakers h) c (hub_idem h) (hub_executions h) (hub_events h) (hub_sent h).
Definition set_hub_idem (i : list IntegrationIdempotencyRecord) (h : Hub) : Hub :=
  mkHub (hub_breakers h) (hub_counts h) i (hub_executions h) (hub_events h) (hub_sent h).
Definition add_execution (x : uuid * IntegrationResult) (h : Hub) : Hub :=
  mkHub (hub_breakers h) (hub_counts h) (hub_idem h) (hub_executions h ++ [x]) (hub_events h) (hub_sent h).
Definition add_failure_event (x : uuid * IntegrationResult) (h : Hub) : Hub :=
  mkHub (hub_breakers h) (hub_counts h) (hub_idem h) (hub_executions h) (hub_events h ++ [x]) (hub_sent h).
Definition log_sent (o : SendOutcome) (h : Hub) : Hub :=
  mkHub (hub_breakers h) (hub_counts h) (hub_idem h) (hub_executions h) (hub_events h) (hub_sent h ++ [o]).

(** ** [IntegrationIdempotencyRepository] *)

Definition idem_key : Type := uuid * uuid * string * string.

Definition key_of (r : IntegrationIdempotencyRecord) : idem_key :=
  (ii_organization_id r, ii_integration_id r, ii_operation_key r, ii_idempotency_key r).

Definition get_idem (k : idem_key) (rows : list IntegrationIdempotencyRecord)
    : option IntegrationIdempotencyRecord :=
  List.find (λ r, bool_decide (key_of r = k)) rows.

(** [claim]: the insert wins or the unique constraint refuses it. *)
Definition claim_idem (now : Z) (k : idem_key) (fingerprint : string) (expires_at : Z)
    (rows : list IntegrationIdempotencyRecord)
    : option IntegrationIdempotencyRecord * list IntegrationIdempotencyRecord :=
  match get_idem k rows with
  | Some r => (Some r, rows)
  | None =>
      let '(org, integration, operation, key) := k in
      (None, rows ++ [mkIdem org integration operation key fingerprint IdempotencyStatus.PENDING None None
         now expires_at])
  end.

Definition finalize_idem (now : Z) (k : idem_key) (status : IdempotencyStatus) (result_json : option json)
    (error_code : option string) : list IntegrationIdempotencyRecord → list IntegrationIdempotencyRecord :=
  update_where (λ r, bool_decide (key_of r = k)) (λ r,
    mkIdem (ii_organization_id r) (ii_integration_id r) (ii_operation_key r) (ii_idempotency_key r)
      (ii_request_fingerprint r) status result_json error_code now (ii_expires_at r)).

(** ** [IntegrationHubService] *)

(** Pydantic's dump and validation of a result, the request fingerprint. *)
Context (result_dump : IntegrationResult → json).
Context (result_validate : json → option IntegrationResult).
Context (request_fingerprint : string → json → string).
Context (settings : IntegrationsSettings).

(** What the registry resolved: the integration and its operation. *)
Record Resolved : Type := {
  rs_integration_id : uuid;
  rs_operation_key : string;
  rs_config_revision : Z;
  rs_retry_class : RetryClass;
  rs_spec : OperationSpec Schema;
}.

Record ExecutionRequest : Type := {
  rq_operation_key : string;
  rq_integration_id : uuid;
  rq_input : json;
  rq_idempotency_key : option string;
  rq_correlation_id : option string;
}.

(** The vault: credentials are applied, or an error is raised. *)
Inductive AuthOutcome : Type :=
| Prepared
| AuthFailed (e : IntegrationError)
| AuthExploded.

(** The environment of one attempt: what the transport does, the seconds elapsed since the
    run started when the outcome is known, and the jitter drawn. *)
Record AttemptEnv : Type := {
  ae_outcome : SendOutcome;
  ae_elapsed : Q;
  ae_draw : Z;
}.

(** The environment of one execution: the clocks, the shared counter, the vault and the
    attempts, numbered from 1; [current_context()]'s correlation. *)
Record ExecEnv : Type := {
  ee_now : Z;
  ee_cached : option Z;
  ee_monotonic : Q;
  ee_auth : AuthOutcome;
  ee_attempts : nat → AttemptEnv;
  ee_correlation : option string;
}.

(** An exception leaving [execute]: an [NxsError] of the hub, or another one. *)
Inductive HubError : Type :=
| HubRaised (e : IntegrationError)
| HubExploded.

Definition circuit_key (org : uuid) (rs : Resolved) : CircuitKey := (org, rs_integration_id rs, rs_operation_key rs).

Definition or_else (a b : option string) : option string :=
  match a with Some s => if String.eqb s EmptyString then b else a | None => b end.

(** [int(seconds * 1000)] *)
Definition duration_ms (elapsed : Q) : Z := Qfloor (elapsed * inject_Z 1000).

Definition success_result (rs : Resolved) (rq : ExecutionRequest) (env : ExecEnv) (raw : RawResponse)
    (output : json) (retry_count : Z) (elapsed : Q) : IntegrationResult :=
  mkIntegrationResult (rs_integration_id rs) (rs_operation_key rs) ResultClass.SUCCESS true (raw_status raw)
    output (Some (raw_status raw)) None (Z.max 0 retry_count) (duration_ms elapsed) (rs_config_revision rs)
    (or_else (rq_correlation_id rq) (ee_correlation env)) (rq_idempotency_key rq) false.

Definition failure_result (rs : Resolved) (rq : ExecutionRequest) (env : ExecEnv) (e : IntegrationError)
    (upstream_status : option Z) (retry_count : Z) (elapsed : Q) : IntegrationResult :=
  mkIntegrationResult (rs_integration_id rs) (rs_operation_key rs) (result_class_for e) false
    (integration_error_status e) JNull upstream_status (Some (integration_error_code e))
    (Z.max 0 retry_count) (duration_ms elapsed) (rs_config_revision rs)
    (or_else (rq_correlation_id rq) (ee_correlation env)) (rq_idempotency_key rq) false.

(** [_finish_failure] *)
Definition finish_failure (is_test : bool) (org : uuid) (r : IntegrationResult) (h : Hub) : Hub :=
  if is_test then h else add_failure_event (org, r) (add_execution (org, r) h).

(** The loop of [_run]; [None] when the fuel ends. *)
Fixpoint run_loop (fuel : nat) (attempt : nat) (org : uuid) (rs : Resolved) (rq : ExecutionRequest)
    (is_test : bool) (env : ExecEnv) (h : Hub) : option (result HubError IntegrationResult * Hub) :=
  match fuel with
  | O => None
  | S fuel =>
      let a := ee_attempts env attempt in
      let retries := Z.of_nat attempt - 1 in
      let h := log_sent (ae_outcome a) h in
      match attempt_outcome (rs_spec rs) (ae_outcome a) with
      | AttemptExploded => Some (Err HubExploded, h)
      | AttemptOk raw output =>
          let h := set_hub_breakers (record_success (circuit_key org rs) (hub_breakers h)) h in
          let r := success_result rs rq env raw output retries (ae_elapsed a) in
          Some (Ok r, if is_test then h else add_execution (org, r) h)
      | AttemptFailed raw kind e after =>
          let d := decide_retry settings (rs_retry_class rs) kind (Z.of_nat attempt) (ae_elapsed a) after (ae_draw a) in
          if should_retry d then run_loop fuel (S attempt) org rs rq is_test env h
          else
            let now := (ee_monotonic env + ae_elapsed a)%Q in
            let h := set_hub_breakers (record_call_failure settings now (circuit_key org rs) (hub_breakers h)) h in
            let r := failure_result rs rq env e (raw_status <$> raw) retries (ae_elapsed a) in
            Some (Err (HubRaised e), finish_failure is_test org r h)
      end
  end.

(** [_run] *)
Definition run (org : uuid) (rs : Resolved) (rq : ExecutionRequest) (is_test : bool) (env : ExecEnv) (h : Hub)
    : option (result HubError IntegrationResult * Hub) :=
  let '(admitted, c) := check_and_consume settings (ee_now env / 1000000) (ee_cached env) org
                          (Some (rs_integration_id rs)) (hub_counts h) in
  let h := set_hub_counts c h in
  if negb admitted then Some (Err (HubRaised IntegrationOutboundRateLimitedError), h)
  else
    let '(allowed, b) := before_call settings (ee_monotonic env) (circuit_key org rs) (hub_breakers h) in
    let h := set_hub_breakers b h in
    if negb allowed then Some (Err (HubRaised IntegrationCircuitOpenError), h)
    else
      match ee_auth env with
      | AuthFailed e => Some (Err (HubRaised e), h)
      | AuthExploded => Some (Err HubExploded, h)
      | Prepared => run_loop (Z.to_nat (retry_max_attempts settings)) 1 org rs rq is_test env h
      end.

(** [_claim]: [None] when the caller owns the execution. *)
Definition replay_or_own (rq : ExecutionRequest) (fingerprint : string)
    (existing : option IntegrationIdempotencyRecord) : option (result HubError IntegrationResult) :=
  match existing with
  | None => None
  | Some r =>
      Some (
        if negb (String.eqb (ii_request_fingerprint r) fingerprint)
        then Err (HubRaised IntegrationIdempotencyConflictError)
        else match ii_status r with
             | IdempotencyStatus.COMPLETED =>
                 match ii_result_json r with
                 | None => Err HubExploded
                 | Some j =>
                     match result_validate j with
                     | None => Err HubExploded
                     | Some x =>
                         Ok (mkIntegrationResult (ir_integration_id x) (ir_operation_key x) (ir_result_class x)
                           (ir_ok x) (ir_status_code x) (ir_output x) (ir_upstream_status x) (ir_error_code x)
                           (ir_retry_count x) (ir_duration_ms x) (ir_config_revision x) (ir_correlation_id x)
                           (ir_idempotency_key x) true)
                     end
                 end
             | IdempotencyStatus.FAILED => Err (HubRaised IntegrationExecutionFailedError)
             | IdempotencyStatus.PENDING => Err (HubRaised IntegrationExecutionInProgressError)
             end)
  end.

(** [execute] from the resolved operation and the built request on. *)
Definition execute (org : uuid) (rs : Resolved) (rq : ExecutionRequest) (is_test : bool) (env : ExecEnv)
    (h : Hub) : option (result HubError IntegrationResult * Hub) :=
  match rq_idempotency_key rq, is_test with
  | Some key, false =>
      let k := (org, rq_integration_id rq, rq_operation_key rq, key) in
      let fingerprint := request_fingerprint (rq_operation_key rq) (rq_input rq) in
      let expires_at := ee_now env + idempotency_retention_seconds settings * 1000000 in
      let '(existing, rows) := claim_idem (ee_now env) k fingerprint expires_at (hub_idem h) in
      let h := set_hub_idem rows h in
      match replay_or_own rq fingerprint existing with
      | Some r => Some (r, h)
      | None =>
          match run org rs rq is_test env h with
          | None => None
          | Some (Ok r, h) =>
              Some (Ok r, set_hub_idem (finalize_idem (ee_now env) k IdempotencyStatus.COMPLETED
                (Some (result_dump r)) None (hub_idem h)) h)
          | Some (Err (HubRaised e), h) =>
              Some (Err (HubRaised e), set_hub_idem (finalize_idem (ee_now env) k IdempotencyStatus.FAILED
                None (Some (integration_error_code e)) (hub_idem h)) h)
          | Some (Err HubExploded, h) => Some (Err HubExploded, h)
          end
      end
  | _, _ => run org rs rq is_test env h
  end.
End hub.
