(* ===== verification/IntegrationSafety.v ===== *)
(** * IntegrationSafety: what the hub guarantees

    Bounded, retry-safe and idempotent execution, and load shedding by the breakers. *)

From Stdlib Require Import QArith.
From S2P Require Import Prelude.
From S2P Require Import Conditions.
From S2P Require Import Store.
From S2P Require Import SchedulerInvariant.
From S2P Require Import Resilience.
From S2P Require Import IntegrationHub.

Open Scope Z_scope.

(** ** Breakers *)

Lemma lookup_set key b t : is_Some (lookup_breaker key t) → lookup_breaker key (set_breaker key b t) = Some b.
Proof.
  unfold lookup_breaker, set_breaker. induction t as [|[k x] t IH]; [by intros []|]. cbn.
  destruct (decide (k = key)) as [->|Hne].
  - rewrite bool_decide_eq_true_2 by done. intros _. cbn. by rewrite bool_decide_eq_true_2.
  - rewrite bool_decide_eq_false_2 by done. cbn. by rewrite bool_decide_eq_false_2.
Qed.

Lemma get_breaker_found key b t : lookup_breaker key t = Some b → get_breaker key t = (b, t).
Proof. unfold get_breaker. by intros ->. Qed.

Lemma before_call_found s now key b t :
  lookup_breaker key t = Some b →
  (before_call s now key t).1 = (admit_call s now b).1 ∧
  lookup_breaker key (before_call s now key t).2 = Some (admit_call s now b).2.
Proof.
  intros H. unfold before_call. rewrite (get_breaker_found _ _ _ H).
  destruct (admit_call s now b) as [a b']. split; [done|]. apply lookup_set. by rewrite H.
Qed.

(** Successive calls with no outcome in between: how many are admitted. *)
Fixpoint admitted_calls (s : IntegrationsSettings) (key : CircuitKey) (times : list Q) (t : breakers)
    : Z * breakers :=
  match times with
  | [] => (0, t)
  | now :: times =>
      let '(a, t) := before_call s now key t in
      let '(n, t) := admitted_calls s key times t in
      ((if a then 1 else 0) + n, t)
  end.

(** Successive failures. *)
Fixpoint record_failures (s : IntegrationsSettings) (key : CircuitKey) (times : list Q) (t : breakers) : breakers :=
  match times with
  | [] => t
  | now :: times => record_failures s key times (record_call_failure s now key t)
  end.

Lemma half_open_calls_bounded s key times b t :
  lookup_breaker key t = Some b → br_state b = CircuitState.HALF_OPEN →
  br_half_open_calls b ≤ circuit_half_open_max_calls s →
  (admitted_calls s key times t).1 ≤ circuit_half_open_max_calls s - br_half_open_calls b.
Proof.
  revert b t. induction times as [|now times IH]; intros b t Hb Hst Hle; cbn; [lia|].
  destruct (before_call_found s now key b t Hb) as [H1 H2].
  destruct (before_call s now key t) as [a t1]. cbn [fst snd] in *.
  unfold admit_call in H1, H2. rewrite Hst in H1, H2. destruct (_ <=? _) eqn:E; cbn [fst snd] in *.
  - subst a. specialize (IH _ _ H2 Hst Hle). destruct (admitted_calls s key times t1). cbn in *. lia.
  - subst a. specialize (IH _ _ H2 eq_refl). cbn [br_half_open_calls] in IH.
    destruct (admitted_calls s key times t1). cbn in *. lia.
Qed.

Lemma open_calls_bounded s key times b t :
  settings_valid s → lookup_breaker key t = Some b → br_state b = CircuitState.OPEN →
  (admitted_calls s key times t).1 ≤ circuit_half_open_max_calls s ∧
  (Forall (λ now, (now - br_opened_at b < circuit_reset_seconds s)%Q) times → (admitted_calls s key times t).1 = 0).
Proof.
  intros Hv. revert t. induction times as [|now times IH]; intros t Hb Hst; cbn.
  { split; [|done]. destruct Hv. lia. }
  destruct (before_call_found s now key b t Hb) as [H1 H2].
  destruct (before_call s now key t) as [a t1]. cbn [fst snd] in *.
  unfold admit_call in H1, H2. rewrite Hst in H1, H2. cbn zeta in H1, H2.
  destruct (Qle_bool _ _) eqn:E; cbn [negb] in H1, H2.
  - split.
    + destruct Hv as [_ _ _ _ Hv]. cbn [br_half_open_calls] in H1, H2.
      rewrite (proj2 (Z.leb_gt _ _)) in H1, H2 by lia. cbn [fst snd] in H1, H2. subst a. pose proof (half_open_calls_bounded s key times _ _ H2) as Hh. cbn in Hh.
      destruct (admitted_calls s key times t1). cbn in *. specialize (Hh eq_refl). lia.
    + intros Hall%Forall_cons. destruct Hall as [Hlt _]. apply Qle_bool_iff in E.
      by apply Qlt_not_le in Hlt.
  - cbn [fst snd] in *. subst a. destruct (IH _ H2 Hst) as [IH1 IH2].
    destruct (admitted_calls s key times t1) as [n t2]. cbn in *. split; [lia|].
    intros [_ Hall]%Forall_cons. rewrite IH2 by done. done.
Qed.

Lemma failure_found s now key b t :
  lookup_breaker key t = Some b → lookup_breaker key (record_call_failure s now key t) = Some (failed s now b).
Proof.
  intros H. unfold record_call_failure. rewrite (get_breaker_found _ _ _ H). apply lookup_set. by rewrite H.
Qed.

Lemma failures_trip s key times b t :
  lookup_breaker key t = Some b → br_state b ≠ CircuitState.HALF_OPEN → times ≠ [] →
  circuit_failure_threshold s ≤ br_failures b + Z.of_nat (length times) →
  ∃ b', lookup_breaker key (record_failures s key times t) = Some b' ∧ br_state b' = CircuitState.OPEN ∧
        Some (br_opened_at b') = last times.
Proof.
  revert b t. induction times as [|now times IH]; intros b t Hb Hst Hne Hth; [done|].
  pose proof (failure_found s now key b t Hb) as Hf. cbn [record_failures].
  assert (Hst' : br_state (failed s now b) ≠ CircuitState.HALF_OPEN ∧ br_failures (failed s now b) = br_failures b + 1).
  { unfold failed. destruct (br_state b) eqn:E; [|..]; try done; destruct (_ <=? _); cbn; by rewrite ?E. }
  destruct Hst' as [Hst' Hfl]. destruct times as [|now' times].
  - exists (failed s now b). split; [done|]. unfold failed. cbn [length] in Hth.
    rewrite (proj2 (Z.leb_le _ _)) by lia. destruct (br_state b); done.
  - destruct (IH _ _ Hf Hst' ltac:(done)) as (b' & H1 & H2 & H3); [cbn [length] in *; lia|].
    exists b'. split_and!; [done..|]. rewrite H3. done.
Qed.

(** An open circuit sheds load: once the consecutive failures of an operation reach
    the threshold, no call is admitted until the reset window since the last failure
    has passed, and from then on, until an outcome is recorded, at most
    [circuit_half_open_max_calls] trial calls are. *)
Theorem circuit_sheds_load s key failures opened calls b t :
  settings_valid s → lookup_breaker key t = Some b → br_state b = CircuitState.CLOSED →
  last failures = Some opened → circuit_failure_threshold s ≤ br_failures b + Z.of_nat (length failures) →
  let n := (admitted_calls s key calls (record_failures s key failures t)).1 in
  n ≤ circuit_half_open_max_calls s ∧
  (Forall (λ now, (now - opened < circuit_reset_seconds s)%Q) calls → n = 0).
Proof.
  intros Hv Hb Hst Hlast Hth. cbv zeta.
  destruct (failures_trip s key failures b t Hb) as (b' & H1 & H2 & H3); [by rewrite Hst|by intros ->|done|].
  rewrite Hlast in H3. injection H3 as <-. by apply open_calls_bounded.
Qed.

Definition demo_int_settings : IntegrationsSettings := mkIntegrationsSettings 3 (1 # 5) 10 30 5 30 1 600 86400.

Lemma demo_int_settings_valid : settings_valid demo_int_settings.
Proof. by split. Qed.

Definition demo_circuit : CircuitKey := (1%N, 2%N, "orders.create"%string).

(** Five failures in the first five seconds; three calls before second 35, two after. *)
Lemma circuit_sheds_load_witness :
  let t := record_failures demo_int_settings demo_circuit [1; 2; 3; 4; 5]%Q [(demo_circuit, fresh_breaker)] in
  (admitted_calls demo_int_settings demo_circuit [6; 20; 34]%Q t).1 = 0 ∧
  (admitted_calls demo_int_settings demo_circuit [36; 37]%Q t).1 = 1.
Proof.
  split; [|by vm_compute].
  apply (circuit_sheds_load demo_int_settings demo_circuit [1; 2; 3; 4; 5]%Q 5 [6; 20; 34]%Q fresh_breaker
    [(demo_circuit, fresh_breaker)] demo_int_settings_valid); [by vm_compute..|].
  repeat constructor; by vm_compute.
Defined.

(** ** Executions *)

Section hub.
Context {Schema : Type}.
Context (py_float : string → option Q).
Context (json_loads : string → option json).
Context (schema_valid : Schema → json → bool).
Context (result_dump : IntegrationResult → json).
Context (result_validate : json → option IntegrationResult).
Context (request_fingerprint : string → json → string).
Context (settings : IntegrationsSettings).

Abbreviation outcome_of := (attempt_outcome py_float json_loads schema_valid).
Abbreviation hub_loop := (run_loop py_float json_loads schema_valid settings).
Abbreviation hub_run := (run py_float json_loads schema_valid settings).
Abbreviation hub_execute :=
  (execute py_float json_loads schema_valid result_dump result_validate request_fingerprint settings).

(** A failed attempt the policy may retry. *)
Definition retried (rs : @Resolved Schema) (o : SendOutcome) : Prop :=
  ∃ raw kind e after, outcome_of (rs_spec rs) o = AttemptFailed raw kind e after ∧
    retry_safe (rs_retry_class rs) kind = true.

(** The requests one execution hands to the transport. *)
Definition requests (rs : @Resolved Schema) (h h' : Hub) (bound : nat) : Prop :=
  hub_sent h' = hub_sent h ∨
  ∃ l o, hub_sent h' = hub_sent h ++ l ++ [o] ∧ (length l < bound)%nat ∧ ∀ x, x ∈ l → retried rs x.

Lemma run_loop_requests fuel attempt org rs rq is_test env h r h' :
  hub_loop fuel attempt org rs rq is_test env h = Some (r, h') →
  ∃ l o, hub_sent h' = hub_sent h ++ l ++ [o] ∧ (length l < fuel)%nat ∧ ∀ x, x ∈ l → retried rs x.
Proof.
  revert attempt h. induction fuel as [|fuel IH]; intros attempt h; [done|]. cbn [run_loop].
  set (o := ae_outcome (ee_attempts env attempt)). destruct (outcome_of (rs_spec rs) o) as [raw out|raw kind e after|] eqn:E.
  - intros [= <- <-]. exists [], o. split_and!; [by destruct is_test|cbn; lia|by intros ? ?%not_elem_of_nil].
  - cbv zeta. destruct (should_retry _) eqn:Hd.
    + intros (l & o' & H1 & H2 & H3)%IH. exists (o :: l), o'. cbn [hub_sent log_sent length] in *.
      split_and!; [by rewrite H1, <- app_assoc|lia|]. intros x [->|Hx]%elem_of_cons; [|auto].
      apply decide_retry_true in Hd as (_ & Hs & _). by exists raw, kind, e, after.
    + intros [= <- <-]. exists [], o. split_and!; [by destruct is_test|cbn; lia|by intros ? ?%not_elem_of_nil].
  - intros [= <- <-]. exists [], o. split_and!; [done|cbn; lia|by intros ? ?%not_elem_of_nil].
Qed.

Lemma run_requests org rs rq is_test env h r h' :
  hub_run org rs rq is_test env h = Some (r, h') → requests rs h h' (Z.to_nat (retry_max_attempts settings)).
Proof.
  unfold run, requests. destruct (check_and_consume _ _ _ _ _ _) as [admitted c].
  destruct admitted; [|intros [= <- <-]; by left]. cbn [negb].
  destruct (before_call _ _ _ _) as [allowed b]. destruct allowed; [|intros [= <- <-]; by left]. cbn [negb].
  destruct (ee_auth env); [|intros [= <- <-]; by left..]. intros H%run_loop_requests. by right.
Qed.

Lemma execute_requests org rs rq is_test env h r h' :
  hub_execute org rs rq is_test env h = Some (r, h') → requests rs h h' (Z.to_nat (retry_max_attempts settings)).
Proof.
  unfold execute. destruct (rq_idempotency_key rq) as [key|]; [destruct is_test|]; [apply run_requests| |apply run_requests].
  cbv zeta. destruct (claim_idem _ _ _ _ _) as [existing rows].
  destruct (replay_or_own _ _ _ _); [intros [= <- <-]; by left|].
  destruct (hub_run _ _ _ _ _ _) as [[r1 h1]|] eqn:Hrun; [|done]. apply run_requests in Hrun.
  intros H. assert (hub_sent h' = hub_sent h1) as E by (destruct r1 as [|[]]; by injection H as <- <-).
  unfold requests in *. rewrite E. exact Hrun.
Qed.



Lemma run_loop_total fuel attempt org rs rq is_test env h :
  (1 ≤ fuel)%nat → retry_max_attempts settings < Z.of_nat attempt + Z.of_nat fuel →
  is_Some (hub_loop fuel attempt org rs rq is_test env h).
Proof.
  revert attempt h. induction fuel as [|fuel IH]; intros attempt h Hf Hm; [lia|]. cbn [run_loop].
  destruct (outcome_of _ _) as [raw out|raw kind e after|]; [by eexists| |by eexists].
  cbv zeta. destruct (should_retry _) eqn:Hd; [|by eexists].
  apply decide_retry_true in Hd as (Hlt & _). apply IH; lia.
Qed.

Lemma run_total org rs rq is_test env h :
  settings_valid settings → is_Some (hub_run org rs rq is_test env h).
Proof.
  intros [Hv _ _ _ _]. unfold run. destruct (check_and_consume _ _ _ _ _ _) as [[] c]; [|by eexists]. cbn [negb].
  destruct (before_call _ _ _ _) as [[] b]; [|by eexists]. cbn [negb].
  destruct (ee_auth env); [|by eexists..]. apply run_loop_total; lia.
Qed.

(** Executions end: whatever the upstream, the vault, the clocks and the jitter do,
    an execution returns or raises after at most [retry_max_attempts] requests. *)
Theorem execution_terminates org rs rq is_test env h :
  settings_valid settings →
  ∃ r h', hub_execute org rs rq is_test env h = Some (r, h') ∧
    Z.of_nat (length (hub_sent h')) ≤ Z.of_nat (length (hub_sent h)) + retry_max_attempts settings.
Proof.
  intros Hv. assert (is_Some (hub_execute org rs rq is_test env h)) as [[r h'] Hx].
  { unfold execute. destruct (rq_idempotency_key rq) as [key|]; [destruct is_test|]; [by apply run_total| |by apply run_total].
    cbv zeta. destruct (claim_idem _ _ _ _ _) as [existing rows]. destruct (replay_or_own _ _ _ _); [by eexists|].
    match goal with |- context [run _ _ _ _ _ _ _ _ _ ?h1] =>
      destruct (run_total org rs rq false env h1 Hv) as [[r1 h1'] ->] end.
    destruct r1 as [|[]]; by eexists. }
  exists r, h'. split; [done|]. destruct Hv as [Hv _ _ _ _].
  apply execute_requests in Hx as [-> | (l & o & -> & Hl & _)]; [lia|]. rewrite !length_app. cbn [length]. lia.
Qed.

(** ** Idempotency keys *)

(** A transaction on the idempotency records: a claim or a finalization of some key, by
    any execution. *)
Inductive idem_step (rows : list IntegrationIdempotencyRecord) : list IntegrationIdempotencyRecord → Prop :=
| idem_claim now k fingerprint expires_at :
    idem_step rows (claim_idem now k fingerprint expires_at rows).2
| idem_finalize now k status result_json error_code :
    idem_step rows (finalize_idem now k status result_json error_code rows).

Lemma get_idem_app k rows rows' r : get_idem k rows = Some r → get_idem k (rows ++ rows') = Some r.
Proof.
  unfold get_idem. induction rows as [|x rows IH]; cbn; [done|]. destruct (bool_decide _); [done|]. exact IH.
Qed.

Lemma get_idem_new r rows : get_idem (key_of r) rows = None → get_idem (key_of r) (rows ++ [r]) = Some r.
Proof.
  unfold get_idem. induction rows as [|x rows IH]; cbn; [by rewrite bool_decide_eq_true_2|].
  destruct (bool_decide _); [done|]. exact IH.
Qed.

(** The columns of a claim that nothing assigns. *)
Definition claim_ident (r : IntegrationIdempotencyRecord) := (key_of r, ii_request_fingerprint r, ii_expires_at r).

Definition finalized (now : Z) (st : IdempotencyStatus) (j : option json) (c : option string)
    (r : IntegrationIdempotencyRecord) : IntegrationIdempotencyRecord :=
  mkIdem (ii_organization_id r) (ii_integration_id r) (ii_operation_key r) (ii_idempotency_key r)
    (ii_request_fingerprint r) st j c now (ii_expires_at r).

Lemma get_finalize k k' now st j c rows :
  get_idem k (finalize_idem now k' st j c rows) =
  (if bool_decide (k = k') then finalized now st j c else id) <$> get_idem k rows.
Proof.
  unfold get_idem, finalize_idem, update_where. induction rows as [|x rows IH]; cbn [map List.find]; [done|].
  rewrite IH. destruct (decide (key_of x = k')) as [Hx|Hx].
  - rewrite (bool_decide_eq_true_2 _ Hx). change (key_of (mkIdem _ _ _ _ _ _ _ _ _ _)) with (key_of x).
    destruct (decide (key_of x = k)) as [Hk|Hk]; [|by rewrite !(bool_decide_eq_false_2 _ Hk)].
    rewrite !(bool_decide_eq_true_2 _ Hk). cbn. by rewrite bool_decide_eq_true_2 by congruence.
  - rewrite (bool_decide_eq_false_2 _ Hx).
    destruct (decide (key_of x = k)) as [Hk|Hk]; [|by rewrite !(bool_decide_eq_false_2 _ Hk)].
    rewrite !(bool_decide_eq_true_2 _ Hk). cbn. by rewrite bool_decide_eq_false_2 by congruence.
Qed.

Lemma idem_steps_keep k rows rows' r :
  rtc idem_step rows rows' → get_idem k rows = Some r →
  ∃ r', get_idem k rows' = Some r' ∧ claim_ident r' = claim_ident r.
Proof.
  intros Hs. revert r. induction Hs as [rows|rows1 rows2 rows3 Hstep _ IH]; intros r Hr; [by exists r|].
  assert (∃ r1, get_idem k rows2 = Some r1 ∧ claim_ident r1 = claim_ident r) as (r1 & Hr1 & E1).
  { destruct Hstep as [now k' fp ex|now k' st j c].
    - unfold claim_idem. destruct (get_idem k' rows1); [by exists r|]. destruct k' as [[[? ?] ?] ?].
      exists r. split; [by apply get_idem_app|done].
    - rewrite get_finalize, Hr. cbn. destruct (bool_decide _); by eexists. }
  destruct (IH _ Hr1) as (r' & Hr' & E'). exists r'. split; [done|congruence].
Qed.

Lemma get_claimed now k fp ex rows rows' :
  claim_idem now k fp ex rows = (None, rows') →
  ∃ r, get_idem k rows' = Some r ∧ ii_request_fingerprint r = fp ∧ ii_status r = IdempotencyStatus.PENDING.
Proof.
  unfold claim_idem. destruct (get_idem k rows) as [r|] eqn:E; [done|].
  destruct k as [[[org integration] operation] key]. intros [= <-].
  eexists. split; [by apply (get_idem_new (mkIdem org integration operation key fp IdempotencyStatus.PENDING None None now ex))|done].
Qed.

Definition request_key (org : uuid) (rq : ExecutionRequest) (key : string) : idem_key :=
  (org, rq_integration_id rq, rq_operation_key rq, key).

Lemma execute_claimed org rs rq env h key row :
  rq_idempotency_key rq = Some key → get_idem (request_key org rq key) (hub_idem h) = Some row →
  ∃ r, replay_or_own result_validate rq (request_fingerprint (rq_operation_key rq) (rq_input rq)) (Some row) = Some r ∧
    hub_execute org rs rq false env h = Some (r, h).
Proof.
  intros Hk Hrow. unfold execute. rewrite Hk. cbv zeta. unfold claim_idem, request_key in *. rewrite Hrow.
  destruct (replay_or_own _ _ _ _) as [r|] eqn:E; [|done]. exists r. split; [done|]. by destruct h.
Qed.

(** C22. An idempotency key is executed once: after a claim of the key has succeeded, and
    whatever claims and finalizations of any keys follow, an execution with that key
    sends nothing and changes nothing. It reports a conflict when its request differs
    from the claimed one; otherwise the stored outcome, or that the execution is still
    running. There is no time in the statement because the code looks at none: a pending
    claim is reported as running also after its retention window, although the module's
    documentation lets it lapse then (the [expires_at] it stores is never read). *)
Theorem idempotency_key_runs_once org (rs : @Resolved Schema) rq env h key now fp ex rows rows1 :
  rq_idempotency_key rq = Some key → claim_idem now (request_key org rq key) fp ex rows = (None, rows1) →
  rtc idem_step rows1 (hub_idem h) →
  ∃ r row, hub_execute org rs rq false env h = Some (r, h) ∧
    get_idem (request_key org rq key) (hub_idem h) = Some row ∧
    (request_fingerprint (rq_operation_key rq) (rq_input rq) ≠ fp →
       r = Err (HubRaised IntegrationIdempotencyConflictError)) ∧
    (request_fingerprint (rq_operation_key rq) (rq_input rq) = fp →
       match ii_status row with
       | IdempotencyStatus.PENDING => r = Err (HubRaised IntegrationExecutionInProgressError)
       | IdempotencyStatus.FAILED => r = Err (HubRaised IntegrationExecutionFailedError)
       | IdempotencyStatus.COMPLETED => ∀ j x, ii_result_json row = Some j → result_validate j = Some x →
           ∃ y, r = Ok y ∧ ir_output y = ir_output x ∧ ir_status_code y = ir_status_code x ∧ ir_replayed y = true
       end).
Proof.
  intros Hk (row0 & Hrow0 & Hfp & _)%get_claimed Hsteps.
  destruct (idem_steps_keep _ _ _ _ Hsteps Hrow0) as (row & Hrow & E).
  assert (Efp : ii_request_fingerprint row = ii_request_fingerprint row0) by (unfold claim_ident in E; congruence).
  destruct (execute_claimed org rs rq env h key row Hk Hrow) as (r & Hr & Hx). exists r, row.
  split_and!; [done..| |]; unfold replay_or_own in Hr; rewrite Efp, Hfp in Hr; injection Hr as <-.
  - intros Hne. destruct (String.eqb_spec fp (request_fingerprint (rq_operation_key rq) (rq_input rq))); [by subst|done].
  - intros <-. rewrite String.eqb_refl. cbn [negb]. destruct (ii_status row); [done| |done].
    intros j x -> Hx'. rewrite Hx'. by eexists.
Qed.

(** ** Replays *)

Definition as_replay (x : IntegrationResult) : IntegrationResult :=
  mkIntegrationResult (ir_integration_id x) (ir_operation_key x) (ir_result_class x)
    (ir_ok x) (ir_status_code x) (ir_output x) (ir_upstream_status x) (ir_error_code x)
    (ir_retry_count x) (ir_duration_ms x) (ir_config_revision x) (ir_correlation_id x)
    (ir_idempotency_key x) true.

(** A transaction of an execution with another key. *)
Inductive other_step (k : idem_key) (rows : list IntegrationIdempotencyRecord) : list IntegrationIdempotencyRecord → Prop :=
| other_claim now k' fingerprint expires_at :
    k' ≠ k → other_step k rows (claim_idem now k' fingerprint expires_at rows).2
| other_finalize now k' status result_json error_code :
    k' ≠ k → other_step k rows (finalize_idem now k' status result_json error_code rows).

Lemma other_steps_keep k rows rows' r :
  rtc (other_step k) rows rows' → get_idem k rows = Some r → get_idem k rows' = Some r.
Proof.
  induction 1 as [rows|rows1 rows2 rows3 Hstep _ IH]; intros Hr; [done|]. apply IH.
  destruct Hstep as [now k' fp ex Hne|now k' st j c Hne].
  - unfold claim_idem. destruct (get_idem k' rows1); [done|]. destruct k' as [[[? ?] ?] ?]. by apply get_idem_app.
  - rewrite get_finalize, Hr. cbn. by rewrite bool_decide_eq_false_2 by congruence.
Qed.

Lemma run_keeps_idem org rs rq is_test env h r h' :
  hub_run org rs rq is_test env h = Some (r, h') → hub_idem h' = hub_idem h.
Proof.
  unfold run. destruct (check_and_consume _ _ _ _ _ _) as [[] c]; [|by intros [= <- <-]]. cbn [negb].
  destruct (before_call _ _ _ _) as [[] b]; [|by intros [= <- <-]]. cbn [negb].
  destruct (ee_auth env); [|by intros [= <- <-]..].
  set (h1 := set_hub_breakers _ _). change (hub_idem h) with (hub_idem h1). clearbody h1. generalize 1%nat.
  revert h1. induction (Z.to_nat _) as [|fuel IH]; intros h1 n; [done|]. cbn [run_loop].
  destruct (outcome_of _ _) as [raw out|raw kind e after|]; [intros [= <- <-]; by destruct is_test| |by intros [= <- <-]].
  cbv zeta. destruct (should_retry _); [by intros ->%IH|]. intros [= <- <-]. by destruct is_test.
Qed.

Context (Hround : ∀ r, result_validate (result_dump r) = Some r).

(** What a successful execution with a key leaves in its record. *)
Lemma execute_stores org rs rq env h key r h1 :
  rq_idempotency_key rq = Some key → hub_execute org rs rq false env h = Some (Ok r, h1) →
  ∃ row j x, get_idem (request_key org rq key) (hub_idem h1) = Some row ∧
    ii_request_fingerprint row = request_fingerprint (rq_operation_key rq) (rq_input rq) ∧
    ii_status row = IdempotencyStatus.COMPLETED ∧ ii_result_json row = Some j ∧
    result_validate j = Some x ∧ as_replay x = as_replay r.
Proof.
  intros Hk. unfold execute. rewrite Hk. cbv zeta. fold (request_key org rq key).
  destruct (claim_idem _ _ _ _ _) as [existing rows] eqn:Hc. destruct existing as [row|].
  - assert (rows = hub_idem h ∧ get_idem (request_key org rq key) (hub_idem h) = Some row) as [-> Hrow].
    { unfold claim_idem in Hc. destruct (get_idem _ _); [|by destruct (request_key org rq key) as [[[? ?] ?] ?]].
      by injection Hc as -> <-. }
    unfold replay_or_own. destruct (String.eqb_spec (ii_request_fingerprint row)
      (request_fingerprint (rq_operation_key rq) (rq_input rq))) as [Hfp|]; [|done]. cbn [negb].
    destruct (ii_status row) eqn:Hst; [done| |done]. destruct (ii_result_json row) as [j|] eqn:Hj; [|done].
    destruct (result_validate j) as [x|] eqn:Hv; [|done]. intros [= <- <-]. by exists row, j, x.
  - cbn [replay_or_own]. destruct (hub_run _ _ _ _ _ _) as [[r1 h2]|] eqn:Hrun; [|done].
    destruct r1 as [r1|[]]; [|done..]. intros [= <- <-]. apply run_keeps_idem in Hrun. cbn [hub_idem set_hub_idem] in *.
    apply get_claimed in Hc as (row & Hrow & Hfp & _). rewrite get_finalize, Hrun, Hrow.
    rewrite bool_decide_eq_true_2 by done. by eexists _, _, r1.
Qed.

(** Replays return the original result: after an execution with an idempotency key
    succeeded, the same request with the same key, at any later time and whatever other
    keys were used in between, returns that result marked as replayed, without sending
    anything. *)
Theorem execution_replayed org (rs rs' : @Resolved Schema) rq env env' h h1 h2 key r :
  rq_idempotency_key rq = Some key → hub_execute org rs rq false env h = Some (Ok r, h1) →
  rtc (other_step (request_key org rq key)) (hub_idem h1) (hub_idem h2) →
  hub_execute org rs' rq false env' h2 = Some (Ok (as_replay r), h2).
Proof.
  intros Hk (row & j & x & Hrow & Hfp & Hst & Hj & Hv & Hx)%(execute_stores _ _ _ _ _ key) Hsteps; [|done].
  pose proof (other_steps_keep _ _ _ _ Hsteps Hrow) as Hrow2.
  destruct (execute_claimed org rs' rq env' h2 key row Hk Hrow2) as (r' & Hr & ->).
  unfold replay_or_own in Hr. rewrite Hfp, String.eqb_refl, Hst, Hj, Hv in Hr. cbn [negb] in Hr.
  injection Hr as <-. fold (as_replay x). by rewrite Hx.
Qed.

(** ** A trial without an outcome *)

(** Successive executions of one operation. *)
Fixpoint run_many (org : uuid) (rs : @Resolved Schema) (rq : ExecutionRequest) (envs : list ExecEnv) (h : Hub)
    : option Hub :=
  match envs with
  | [] => Some h
  | env :: envs =>
      match hub_run org rs rq false env h with
      | Some (_, h) => run_many org rs rq envs h
      | None => None
      end
  end.

Lemma exhausted_refuses org rs rq is_test env b h r h' :
  lookup_breaker (circuit_key org rs) (hub_breakers h) = Some b → br_state b = CircuitState.HALF_OPEN →
  circuit_half_open_max_calls settings ≤ br_half_open_calls b →
  hub_run org rs rq is_test env h = Some (r, h') →
  hub_sent h' = hub_sent h ∧ lookup_breaker (circuit_key org rs) (hub_breakers h') = Some b.
Proof.
  intros Hb Hst Hle. unfold run. destruct (check_and_consume _ _ _ _ _ _) as [[] c]; [|by intros [= <- <-]].
  cbn [negb hub_breakers set_hub_counts].
  destruct (before_call_found settings (ee_monotonic env) _ _ _ Hb) as [H1 H2].
  unfold admit_call in H1, H2. rewrite Hst in H1, H2. cbv zeta in H1, H2.
  rewrite (proj2 (Z.leb_le _ _) Hle) in H1, H2.
  destruct (before_call _ _ _ _) as [a t]. cbn [fst snd] in H1, H2. subst a. intros [= <- <-]. done.
Qed.

Lemma exhausted_forever org rs rq envs b h h' :
  lookup_breaker (circuit_key org rs) (hub_breakers h) = Some b → br_state b = CircuitState.HALF_OPEN →
  circuit_half_open_max_calls settings ≤ br_half_open_calls b →
  run_many org rs rq envs h = Some h' → hub_sent h' = hub_sent h.
Proof.
  intros Hb Hst Hle. revert h Hb. induction envs as [|env envs IH]; intros h Hb; cbn; [by intros [= <-]|].
  destruct (hub_run _ _ _ _ _ _) as [[r h1]|] eqn:E; [|done].
  destruct (exhausted_refuses _ _ _ _ _ _ _ _ _ Hb Hst Hle E) as [E1 Hb1]. intros H%IH; [congruence|done].
Qed.

(** A half-open circuit can stay shut for good: when the trial call that an open
    circuit admits after its reset window fails in the vault, before any request is
    sent, no outcome is recorded; with one trial allowed, every later execution of the
    operation, at any time and with a healthy upstream, is refused. *)
Theorem half_open_trial_lost org rs rq env envs e b h r h1 h2 :
  circuit_half_open_max_calls settings = 1 →
  lookup_breaker (circuit_key org rs) (hub_breakers h) = Some b → br_state b = CircuitState.OPEN →
  (circuit_reset_seconds settings <= ee_monotonic env - br_opened_at b)%Q →
  ee_auth env = AuthFailed e → hub_run org rs rq false env h = Some (r, h1) → r = Err (HubRaised e) →
  e ≠ IntegrationOutboundRateLimitedError →
  run_many org rs rq envs h1 = Some h2 → hub_sent h2 = hub_sent h.
Proof.
  intros Hmax Hb Hst Hreset%Qle_bool_iff Hauth Hrun -> Hne Hmany.
  unfold run in Hrun. destruct (check_and_consume _ _ _ _ _ _) as [[] c]; [|by injection Hrun as Hrun _].
  cbn [negb hub_breakers set_hub_counts] in Hrun.
  destruct (before_call_found settings (ee_monotonic env) _ _ _ Hb) as [H1 H2].
  unfold admit_call in H1, H2. rewrite Hst, Hreset in H1, H2. cbn [negb] in H1, H2. cbv zeta in H1, H2.
  rewrite Hmax in H1, H2. cbn in H1, H2.
  destruct (before_call _ _ _ _) as [a t]. cbn [fst snd] in H1, H2. subst a. cbn [negb] in Hrun.
  rewrite Hauth in Hrun. injection Hrun as <-.
  apply (exhausted_forever org rs rq envs _ (set_hub_breakers t (set_hub_counts c h)) h2 H2) in Hmany; [done|done|].
  cbn. lia.
Qed.
End hub.

(** ** Concrete executions *)

Definition demo_float : string → option Q := λ _, None.
Definition demo_loads : string → option json := λ _, Some (JObj []).
Definition demo_schema_valid : () → json → bool := λ _ _, true.

(** A JSON form of results. *)
Definition all_classes : list ResultClass :=
  [ResultClass.SUCCESS; ResultClass.UPSTREAM_CLIENT_ERROR; ResultClass.UPSTREAM_SERVER_ERROR;
   ResultClass.UPSTREAM_RATE_LIMITED; ResultClass.TRANSPORT_ERROR; ResultClass.RESPONSE_INVALID;
   ResultClass.POLICY_BLOCKED; ResultClass.CIRCUIT_OPEN; ResultClass.RATE_LIMITED;
   ResultClass.IDEMPOTENCY_CONFLICT; ResultClass.CONFIG_ERROR; ResultClass.EXECUTION_FAILED].

Definition class_index (c : ResultClass) : Z :=
  match c with
  | ResultClass.SUCCESS => 0 | ResultClass.UPSTREAM_CLIENT_ERROR => 1 | ResultClass.UPSTREAM_SERVER_ERROR => 2
  | ResultClass.UPSTREAM_RATE_LIMITED => 3 | ResultClass.TRANSPORT_ERROR => 4 | ResultClass.RESPONSE_INVALID => 5
  | ResultClass.POLICY_BLOCKED => 6 | ResultClass.CIRCUIT_OPEN => 7 | ResultClass.RATE_LIMITED => 8
  | ResultClass.IDEMPOTENCY_CONFLICT => 9 | ResultClass.CONFIG_ERROR => 10 | ResultClass.EXECUTION_FAILED => 11
  end.

Definition dump_opt {A} (f : A → json) (o : option A) : json := JArr (match o with Some a => [f a] | None => [] end).

Definition load_opt {A} (f : json → option A) (j : json) : option (option A) :=
  match j with
  | JArr [] => Some None
  | JArr [x] => Some <$> f x
  | _ => None
  end.

Definition load_int (j : json) : option Z := if j is JInt z then Some z else None.
Definition load_str (j : json) : option string := if j is JStr s then Some s else None.

Definition demo_result_dump (r : IntegrationResult) : json :=
  JArr [JInt (Z.of_N (ir_integration_id r)); JStr (ir_operation_key r); JInt (class_index (ir_result_class r));
    JBool (ir_ok r); JInt (ir_status_code r); ir_output r; dump_opt JInt (ir_upstream_status r);
    dump_opt JStr (ir_error_code r); JInt (ir_retry_count r); JInt (ir_duration_ms r);
    JInt (ir_config_revision r); dump_opt JStr (ir_correlation_id r); dump_opt JStr (ir_idempotency_key r);
    JBool (ir_replayed r)].

Definition demo_validate (j : json) : option IntegrationResult :=
  match j with
  | JArr [JInt i; JStr op; JInt c; JBool ok; JInt st; out; up; err; JInt rc; JInt dur; JInt rev; corr; key; JBool rep] =>
      match all_classes !! Z.to_nat c, load_opt load_int up, load_opt load_str err, load_opt load_str corr,
            load_opt load_str key with
      | Some c, Some up, Some err, Some corr, Some key =>
          Some (mkIntegrationResult (Z.to_N i) op c ok st out up err rc dur rev corr key rep)
      | _, _, _, _, _ => None
      end
  | _ => None
  end.

Lemma demo_result_round r : demo_validate (demo_result_dump r) = Some r.
Proof.
  destruct r as [i op c ok st out up err rc dur rev corr key rep]. unfold demo_validate, demo_result_dump.
  destruct c, up, err, corr, key; cbn -[Z.of_N Z.to_N]; by rewrite N2Z.id.
Qed.

Definition demo_fingerprint : string → json → string := λ op _, op.

Definition demo_resolved : @Resolved () :=
  {| rs_integration_id := 2; rs_operation_key := "orders.create"; rs_config_revision := 1;
     rs_retry_class := NON_IDEMPOTENT; rs_spec := RestOperationSpec [201] "application/json" None |}.

Definition demo_request (key : option string) : ExecutionRequest :=
  {| rq_operation_key := "orders.create"; rq_integration_id := 2; rq_input := JObj [];
     rq_idempotency_key := key; rq_correlation_id := None |}.

Definition created : RawResponse := mkRaw 201 [("content-type"%string, "application/json; charset=utf-8"%string)] "{}".

Definition demo_env (now : Q) (auth : AuthOutcome) (outcomes : nat → SendOutcome) : ExecEnv :=
  {| ee_now := 0; ee_cached := None; ee_monotonic := now; ee_auth := auth;
     ee_attempts := λ n, {| ae_outcome := outcomes n; ae_elapsed := 1; ae_draw := 500000 |};
     ee_correlation := None |}.

Definition empty_hub : Hub := mkHub [] [] [] [] [] [].

Definition demo_execute_with (key : option string) (env : ExecEnv) (h : Hub) :=
  execute demo_float demo_loads demo_schema_valid demo_result_dump demo_validate demo_fingerprint
    demo_int_settings 1%N demo_resolved (demo_request key) false env h.

Definition demo_execute := demo_execute_with None.



(** An upstream that always times out: three requests would be allowed, a NON_IDEMPOTENT
    operation gets one. *)
Lemma execution_terminates_witness :
  ∃ r h', demo_execute (demo_env 0 Prepared (λ _, TotalTimeout)) empty_hub = Some (r, h') ∧
    Z.of_nat (length (hub_sent h')) ≤ 0 + 3.
Proof.
  exact (execution_terminates demo_float demo_loads demo_schema_valid demo_result_dump demo_validate
    demo_fingerprint demo_int_settings 1%N demo_resolved (demo_request None) false
    (demo_env 0 Prepared (λ _, TotalTimeout)) empty_hub demo_int_settings_valid).
Defined.

(** The order is created with key ["k1"]. *)
Definition demo_keyed : ExecEnv := demo_env 0 Prepared (λ _, Responded created).

Definition demo_key : idem_key := request_key 1%N (demo_request (Some "k1"%string)) "k1".

Definition demo_row (st : IdempotencyStatus) : IntegrationIdempotencyRecord :=
  mkIdem 1 2 "orders.create" "k1" "orders.create" st None None 0 86400000000.

(** The owner crashed: long after the record expired the key is still refused. *)
Lemma idempotency_key_runs_once_witness :
  ∃ r row, demo_execute_with (Some "k1"%string) demo_keyed (set_hub_idem [demo_row IdempotencyStatus.PENDING] empty_hub) =
      Some (r, set_hub_idem [demo_row IdempotencyStatus.PENDING] empty_hub) ∧
    get_idem demo_key [demo_row IdempotencyStatus.PENDING] = Some row ∧
    r = Err (HubRaised IntegrationExecutionInProgressError).
Proof.
  destruct (idempotency_key_runs_once demo_float demo_loads demo_schema_valid demo_result_dump demo_validate
    demo_fingerprint demo_int_settings 1%N demo_resolved (demo_request (Some "k1"%string)) demo_keyed
    (set_hub_idem [demo_row IdempotencyStatus.PENDING] empty_hub) "k1" 0 "orders.create" 86400000000 []
    [demo_row IdempotencyStatus.PENDING] eq_refl eq_refl (rtc_refl _ _)) as (r & row & H1 & H2 & _ & H3).
  exists r, row. split; [exact H1|]. split; [exact H2|].
  specialize (H3 eq_refl). vm_compute in H2. injection H2 as <-. exact H3.
Defined.

Lemma execution_replayed_witness :
  ∃ r h1, demo_execute_with (Some "k1"%string) demo_keyed empty_hub = Some (Ok r, h1) ∧
    demo_execute_with (Some "k1"%string) (demo_env 99 AuthExploded (λ _, Exploded)) h1 = Some (Ok (as_replay r), h1).
Proof.
  eexists _, _. split; [reflexivity|].
  exact (execution_replayed demo_float demo_loads demo_schema_valid demo_result_dump demo_validate
    demo_fingerprint demo_int_settings demo_result_round 1%N demo_resolved demo_resolved
    (demo_request (Some "k1"%string)) demo_keyed (demo_env 99 AuthExploded (λ _, Exploded)) empty_hub _ _ "k1" _
    eq_refl eq_refl (rtc_refl _ _)).
Defined.

(** The circuit opened at second 5; at second 40 the vault is briefly unavailable. *)
Definition open_hub : Hub :=
  set_hub_breakers [(circuit_key 1%N demo_resolved, mkBreaker CircuitState.OPEN 5 5 0)] empty_hub.

Lemma half_open_trial_lost_witness :
  ∃ h1 h2, run demo_float demo_loads demo_schema_valid demo_int_settings 1%N demo_resolved (demo_request None) false
      (demo_env 40 (AuthFailed IntegrationCredentialUnavailableError) (λ _, Responded created)) open_hub =
      Some (Err (HubRaised IntegrationCredentialUnavailableError), h1) ∧
    run_many demo_float demo_loads demo_schema_valid demo_int_settings 1%N demo_resolved (demo_request None)
      [demo_env 1000 Prepared (λ _, Responded created); demo_env 100000 Prepared (λ _, Responded created)] h1 = Some h2 ∧
    hub_sent h2 = [].
Proof.
  eexists _, _. split; [reflexivity|]. split; [reflexivity|].
  exact (half_open_trial_lost demo_float demo_loads demo_schema_valid demo_int_settings 1%N demo_resolved
    (demo_request None) (demo_env 40 (AuthFailed IntegrationCredentialUnavailableError) (λ _, Responded created))
    [demo_env 1000 Prepared (λ _, Responded created); demo_env 100000 Prepared (λ _, Responded created)]
    IntegrationCredentialUnavailableError (mkBreaker CircuitState.OPEN 5 5 0) open_hub _ _ _
    eq_refl eq_refl eq_refl ltac:(by vm_compute) eq_refl eq_refl eq_refl ltac:(done) eq_refl).
Defined.

(** A request that may have been processed is sent again: httpx's [ReadError], the
    loss of the connection while the response is awaited, is a [NetworkError] and so is
    classified as never having reached the server; a NON_IDEMPOTENT operation whose
    first request met it is sent a second time. *)
Theorem read_error_resends :
  ∃ r h', demo_execute (demo_env 0 Prepared (λ n, if Nat.eqb n 1 then SendError ReadError false else Responded created))
      empty_hub = Some (Ok r, h') ∧
    hub_sent h' = [SendError ReadError false; Responded created] ∧ rs_retry_class demo_resolved = NON_IDEMPOTENT.
Proof. by eexists _, _. Qed.
