(* ===== verification/Otp.v ===== *)
(** * Otp: one-time passcodes

    [otp/errors.py], [otp/entities.py], [otp/purposes.py], [otp/codes.py],
    [domain/otp/repository.py] and [otp/service.py]. HMAC and SHA-256 are parameters, as
    is the random draw. What other services answer is an argument: the messaging account,
    the normalized destination and what became of the delivery. The challenge rows, the
    audit events and, for the theorems, the codes issued and sent and the comparisons made
    are one world; each transaction is a function on it and takes one reading of the
    clock. *)

From stdpp Require Import pretty.
From S2P Require Import Prelude.
From S2P Require Import PyText.
From S2P Require Import Conditions.
From S2P Require Import Store.
From S2P Require Import Identity.
From S2P Require Import EventPlatform.

Open Scope Z_scope.

(** ** Vocabulary *)

Inductive OtpError : Type :=
| OtpChallengeNotFoundError
| OtpInvalidError
| OtpExpiredError
| OtpAlreadyUsedError
| OtpLockedError
| OtpRateLimitedError
| OtpResendTooSoonError
| OtpDeliveryFailedError
| OtpPurposeInvalidError
| OtpConfigInvalidError
| OtpIdempotencyConflictError.

Definition otp_error_code (e : OtpError) : string :=
  match e with
  | OtpChallengeNotFoundError => "NXS_OTP_CHALLENGE_NOT_FOUND"
  | OtpInvalidError => "NXS_OTP_INVALID"
  | OtpExpiredError => "NXS_OTP_EXPIRED"
  | OtpAlreadyUsedError => "NXS_OTP_ALREADY_USED"
  | OtpLockedError => "NXS_OTP_LOCKED"
  | OtpRateLimitedError => "NXS_OTP_RATE_LIMITED"
  | OtpResendTooSoonError => "NXS_OTP_RESEND_TOO_SOON"
  | OtpDeliveryFailedError => "NXS_OTP_DELIVERY_FAILED"
  | OtpPurposeInvalidError => "NXS_OTP_PURPOSE_INVALID"
  | OtpConfigInvalidError => "NXS_OTP_CONFIG_INVALID"
  | OtpIdempotencyConflictError => "NXS_OTP_IDEMPOTENCY_CONFLICT"
  end.

Definition otp_error_status (e : OtpError) : Z :=
  match e with
  | OtpChallengeNotFoundError => 404
  | OtpInvalidError => 401
  | OtpExpiredError => 410
  | OtpAlreadyUsedError | OtpIdempotencyConflictError => 409
  | OtpLockedError => 423
  | OtpRateLimitedError | OtpResendTooSoonError => 429
  | OtpDeliveryFailedError => 502
  | OtpPurposeInvalidError | OtpConfigInvalidError => 422
  end.

Definition otp_error_retryable (e : OtpError) : bool :=
  match e with OtpRateLimitedError | OtpResendTooSoonError => true | _ => false end.

Module OtpChannel.
Inductive OtpChannel : Type := SMS | EMAIL.
#[global] Instance eq_dec : EqDecision OtpChannel.
Proof. solve_decision. Defined.
End OtpChannel.
Abbreviation OtpChannel := OtpChannel.OtpChannel.

Definition channel_value (c : OtpChannel) : string :=
  match c with OtpChannel.SMS => "SMS" | OtpChannel.EMAIL => "EMAIL" end.

Module OtpStatus.
Inductive OtpStatus : Type := ACTIVE | VERIFIED | EXPIRED | REVOKED | LOCKED.
#[global] Instance eq_dec : EqDecision OtpStatus.
Proof. solve_decision. Defined.
End OtpStatus.
Abbreviation OtpStatus := OtpStatus.OtpStatus.

Inductive OtpDeliveryStatus : Type := SENT | SKIPPED | UNCONFIRMED.

Record OtpSettings : Type := mkOtpSettings {
  otp_enabled : bool;
  code_length : Z;
  ttl_seconds : Z;
  otp_max_attempts : Z;
  resend_cooldown_seconds : Z;
  max_issues_per_window : Z;
  issue_window_seconds : Z;
}.

(** The [Field] bounds the proofs use. *)
Record otp_settings_valid (s : OtpSettings) : Prop := {
  os_ttl : 60 ≤ ttl_seconds s;
  os_attempts : 1 ≤ otp_max_attempts s;
  os_issues : 1 ≤ max_issues_per_window s;
}.

Definition CURRENT_HASH_VERSION : Z := 1.

(** The columns an issuance fixes; [subject_type] is always DESTINATION. *)
Record OtpChallengeCreate : Type := mkCreate {
  oc_id : uuid;
  oc_organization_id : uuid;
  oc_destination : string;
  oc_destination_fingerprint : string;
  oc_purpose : string;
  oc_channel : OtpChannel;
  oc_messaging_account_id : uuid;
  oc_code_hash : string;
  oc_hash_version : Z;
  oc_max_attempts : Z;
  oc_request_fingerprint : string;
  oc_idempotency_key : option string;
  oc_correlation_id : option string;
  oc_issued_at : Z;
  oc_expires_at : Z;
  oc_resend_after : Z;
}.

(** A row: those columns, and the ones the lifecycle assigns. *)
Record OtpChallenge : Type := mkChallenge {
  ch_create : OtpChallengeCreate;
  ch_status : OtpStatus;
  ch_attempts : Z;
  ch_delivery_message_id : option uuid;
  ch_verified_at : option Z;
  ch_revoked_at : option Z;
  ch_locked_at : option Z;
  ch_last_attempt_at : option Z;
  ch_updated_at : Z;
}.

Definition ch_id (c : OtpChallenge) : uuid := oc_id (ch_create c).
Definition ch_organization_id (c : OtpChallenge) : uuid := oc_organization_id (ch_create c).

(** ** Purposes *)

Definition PURPOSES : list (string * list OtpChannel) :=
  [("GENERIC_VERIFICATION"%string, [OtpChannel.SMS; OtpChannel.EMAIL]);
   ("VERIFY_EMAIL"%string, [OtpChannel.EMAIL]);
   ("VERIFY_PHONE"%string, [OtpChannel.SMS])].

Definition resolve_purpose (key : string) (channel : OtpChannel) : result OtpError string :=
  match assoc key PURPOSES with
  | None => Err OtpPurposeInvalidError
  | Some allowed => if bool_decide (channel ∈ allowed) then Ok key else Err OtpPurposeInvalidError
  end.

(** ** Codes *)

(** [f"{draw:0{length}d}"] for a draw below [10 ** length]. *)
Definition generate_code (length draw : Z) : string := padded (Z.to_nat length) draw.

Definition US : string := String (ascii_of_N 31) EmptyString.

Definition canonical_context (organization_id challenge_id : uuid) (purpose channel destination : string)
    (hash_version : Z) : string :=
  ("nxs-otp:v" +:+ pretty hash_version) +:+ US +:+ uuid_str organization_id +:+ US +:+
  uuid_str challenge_id +:+ US +:+ purpose +:+ US +:+ channel +:+ US +:+ destination.

(** [destination.partition("@")]: what precedes and what follows the first one. *)
Fixpoint partition_at (s : string) : option (string * string) :=
  match s with
  | EmptyString => None
  | String c s =>
      if Ascii.eqb c "@" then Some (EmptyString, s)
      else '(a, b) ← partition_at s; Some (String c a, b)
  end.

Fixpoint lstrip_plus (s : string) : string :=
  match s with
  | String c s' => if Ascii.eqb c "+" then lstrip_plus s' else s
  | EmptyString => EmptyString
  end.

Definition first_char (s : string) : string :=
  match s with EmptyString => "*" | String c _ => String c EmptyString end.

Fixpoint stars (n : nat) : string :=
  match n with O => EmptyString | S n => String "*" (stars n) end.

Definition mask_destination (channel : OtpChannel) (destination : string) : string :=
  let phone :=
    let digits := lstrip_plus destination in
    let keep := Nat.min 4 (String.length digits) in
    (match destination with String "+" _ => "+" | _ => EmptyString end) +:+
    stars (Nat.max (String.length digits - 4) 2) +:+
    String.substring (String.length digits - keep) keep digits in
  match channel, partition_at destination with
  | OtpChannel.EMAIL, Some (local, domain) =>
      let local_masked := first_char local +:+ "***" in
      match split_dots domain with
      | first :: ((_ :: _) as labels) =>
          local_masked +:+ "@" +:+ String.concat "." ((first_char first +:+ "***") :: labels)
      | _ => local_masked +:+ "@***"
      end
  | _, _ => phone
  end.

(** ** The world *)

Record OtpEvent : Type := mkOtpEvent {
  oe_type : string;
  oe_organization_id : uuid;
  oe_challenge_id : uuid;
  oe_purpose : string;
  oe_channel : string;
  oe_masked_destination : string;
  oe_extra : list (string * json);
}.

(** [ow_issued] keeps every code that was stored with its challenge, [ow_sent] the codes
    handed to the messaging service, [ow_guesses] every comparison of a submitted code. *)
Record OtpWorld : Type := mkOtpWorld {
  ow_rows : list OtpChallenge;
  ow_events : list OtpEvent;
  ow_issued : list (OtpChallengeCreate * string);
  ow_sent : list (uuid * string);
  ow_guesses : list (uuid * bool);
}.

Definition set_ow_rows (rows : list OtpChallenge) (w : OtpWorld) : OtpWorld :=
  mkOtpWorld rows (ow_events w) (ow_issued w) (ow_sent w) (ow_guesses w).
Definition add_event (e : OtpEvent) (w : OtpWorld) : OtpWorld :=
  mkOtpWorld (ow_rows w) (ow_events w ++ [e]) (ow_issued w) (ow_sent w) (ow_guesses w).
Definition log_issued (x : OtpChallengeCreate * string) (w : OtpWorld) : OtpWorld :=
  mkOtpWorld (ow_rows w) (ow_events w) (ow_issued w ++ [x]) (ow_sent w) (ow_guesses w).
Definition log_code (x : uuid * string) (w : OtpWorld) : OtpWorld :=
  mkOtpWorld (ow_rows w) (ow_events w) (ow_issued w) (ow_sent w ++ [x]) (ow_guesses w).
Definition log_guess (x : uuid * bool) (w : OtpWorld) : OtpWorld :=
  mkOtpWorld (ow_rows w) (ow_events w) (ow_issued w) (ow_sent w) (ow_guesses w ++ [x]).

(** [_enqueue_event]; the envelope's correlation is left out. *)
Definition otp_event (event_type : string) (c : OtpChallengeCreate) (extra : list (string * json)) : OtpEvent :=
  mkOtpEvent event_type (oc_organization_id c) (oc_id c) (oc_purpose c) (channel_value (oc_channel c))
    (mask_destination (oc_channel c) (oc_destination c)) extra.

(** ** [OtpChallengeRepository] *)

Definition is_challenge (org id : uuid) (c : OtpChallenge) : bool :=
  N.eqb (ch_organization_id c) org && N.eqb (ch_id c) id.

Definition by_id (org id : uuid) (rows : list OtpChallenge) : option OtpChallenge :=
  List.find (is_challenge org id) rows.

Definition by_idempotency_key (org : uuid) (key : string) (rows : list OtpChallenge) : option OtpChallenge :=
  List.find (λ c, N.eqb (ch_organization_id c) org && bool_decide (oc_idempotency_key (ch_create c) = Some key)) rows.

Definition of_subject (org : uuid) (fingerprint purpose : string) (c : OtpChallengeCreate) : bool :=
  N.eqb (oc_organization_id c) org && String.eqb (oc_destination_fingerprint c) fingerprint &&
  String.eqb (oc_purpose c) purpose.

Definition is_active (c : OtpChallenge) : bool := bool_decide (ch_status c = OtpStatus.ACTIVE).

Definition active_for_subject (org : uuid) (fingerprint purpose : string) (rows : list OtpChallenge)
    : option OtpChallenge :=
  List.find (λ c, of_subject org fingerprint purpose (ch_create c) && is_active c) rows.

Definition issued_since (org : uuid) (fingerprint purpose : string) (since : Z) (c : OtpChallenge) : bool :=
  of_subject org fingerprint purpose (ch_create c) && (since <=? oc_issued_at (ch_create c)).

Definition count_issued_since (org : uuid) (fingerprint purpose : string) (since : Z)
    (rows : list OtpChallenge) : Z :=
  Z.of_nat (length (List.filter (issued_since org fingerprint purpose since) rows)).

(** [apply] with the changes as a function of the row. *)
Definition apply_changes (org id : uuid) (f : OtpChallenge → OtpChallenge) : list OtpChallenge → list OtpChallenge :=
  update_where (is_challenge org id) f.

(** [insert]: the primary key, the idempotency key and the one-active index. *)
Definition violates_otp (c : OtpChallengeCreate) (rows : list OtpChallenge) : bool :=
  existsb (λ r, N.eqb (ch_id r) (oc_id c)) rows ||
  match oc_idempotency_key c with
  | Some key => match by_idempotency_key (oc_organization_id c) key rows with Some _ => true | None => false end
  | None => false
  end ||
  match active_for_subject (oc_organization_id c) (oc_destination_fingerprint c) (oc_purpose c) rows with
  | Some _ => true | None => false
  end.

Definition new_challenge (now : Z) (c : OtpChallengeCreate) : OtpChallenge :=
  mkChallenge c OtpStatus.ACTIVE 0 None None None None None now.

Definition purge_terminal_before (org : uuid) (cutoff : Z) (rows : list OtpChallenge) : list OtpChallenge :=
  List.filter (λ c, negb (N.eqb (ch_organization_id c) org && negb (is_active c) && (ch_updated_at c <? cutoff))) rows.

(** The changes the service applies. *)
Definition expired (now : Z) (c : OtpChallenge) : OtpChallenge :=
  mkChallenge (ch_create c) OtpStatus.EXPIRED (ch_attempts c) (ch_delivery_message_id c) (ch_verified_at c)
    (ch_revoked_at c) (ch_locked_at c) (ch_last_attempt_at c) now.
Definition verified (now attempts : Z) (c : OtpChallenge) : OtpChallenge :=
  mkChallenge (ch_create c) OtpStatus.VERIFIED attempts (ch_delivery_message_id c) (Some now)
    (ch_revoked_at c) (ch_locked_at c) (Some now) now.
Definition wrong_attempt (now attempts : Z) (locked : bool) (c : OtpChallenge) : OtpChallenge :=
  if locked
  then mkChallenge (ch_create c) OtpStatus.LOCKED attempts (ch_delivery_message_id c) (ch_verified_at c)
         (ch_revoked_at c) (Some now) (Some now) now
  else mkChallenge (ch_create c) (ch_status c) attempts (ch_delivery_message_id c) (ch_verified_at c)
         (ch_revoked_at c) (ch_locked_at c) (Some now) now.
Definition revoked (now : Z) (c : OtpChallenge) : OtpChallenge :=
  mkChallenge (ch_create c) OtpStatus.REVOKED (ch_attempts c) (ch_delivery_message_id c) (ch_verified_at c)
    (Some now) (ch_locked_at c) (ch_last_attempt_at c) now.
Definition with_delivery (now : Z) (message : uuid) (c : OtpChallenge) : OtpChallenge :=
  mkChallenge (ch_create c) (ch_status c) (ch_attempts c) (Some message) (ch_verified_at c)
    (ch_revoked_at c) (ch_locked_at c) (ch_last_attempt_at c) now.

(** ** [OtpService] *)

Record IssueOtpRequest : Type := mkIssueRequest {
  iq_purpose : string;
  iq_channel : OtpChannel;
  iq_messaging_account_id : uuid;
  iq_idempotency_key : option string;
  iq_correlation_id : option string;
}.

Record IssueOtpResult : Type := mkIssueResult {
  io_challenge_id : uuid;
  io_status : OtpStatus;
  io_purpose : string;
  io_channel : OtpChannel;
  io_masked_destination : string;
  io_expires_at : Z;
  io_resend_after : Z;
  io_max_attempts : Z;
  io_delivery : OtpDeliveryStatus;
  io_replayed : bool;
}.

Record IssueClaim : Type := mkIssueClaim {
  ic_challenge : OtpChallenge;
  ic_is_owner : bool;
}.

(** [_result] *)
Definition issue_result (c : OtpChallenge) (delivery : OtpDeliveryStatus) (replayed : bool) : IssueOtpResult :=
  let k := ch_create c in
  mkIssueResult (oc_id k) (ch_status c) (oc_purpose k) (oc_channel k)
    (mask_destination (oc_channel k) (oc_destination k)) (oc_expires_at k) (oc_resend_after k)
    (oc_max_attempts k) delivery replayed.

(** The messaging account of the request, if there is one: its channel and whether it is
    ACTIVE. *)
Definition MessagingAccount : Type := string * bool.

(** [_require_account] *)
Definition require_account (account : option MessagingAccount) (channel : OtpChannel) : result OtpError () :=
  match account with
  | None => Err OtpConfigInvalidError
  | Some (c, active) =>
      if negb (String.eqb c (channel_value channel)) then Err OtpConfigInvalidError
      else if negb active then Err OtpConfigInvalidError
      else Ok ()
  end.

(** What the messaging service does with the message of an owner. *)
Inductive DeliveryOutcome : Type :=
| Delivered (message : uuid)
| DeliveryTimedOut
| DeliveryFailed (error_code : string).

Section otp.
Context (hmac : string → string → string).
Context (sha256 : string → string).
Context (cfg : OtpSettings).
Context (pepper : string).

Definition hash_code (context code : string) : string := hmac pepper (context +:+ US +:+ code).

(** [verify_code]; the comparison takes constant time. *)
Definition verify_code (context code expected_hash : string) : bool := String.eqb (hash_code context code) expected_hash.

Definition destination_fingerprint (channel destination : string) : string :=
  hmac pepper ("nxs-otp-dest" +:+ US +:+ channel +:+ US +:+ destination).

Definition otp_request_fingerprint (purpose channel destination : string) (account_id : uuid) : string :=
  sha256 (json_object [("account_id", json_string (uuid_str account_id)); ("channel", json_string channel);
    ("destination", json_string destination); ("purpose", json_string purpose)]).

(** The context of a stored challenge. *)
Definition context_of (org : uuid) (c : OtpChallengeCreate) : string :=
  canonical_context org (oc_id c) (oc_purpose c) (channel_value (oc_channel c)) (oc_destination c) (oc_hash_version c).

Definition seconds (n : Z) : Z := n * 1000000.

(** The challenge [issue] builds for a fresh id and a drawn code. *)
Definition make_create (org id : uuid) (now : Z) (purpose destination code : string) (rq : IssueOtpRequest)
    : OtpChallengeCreate :=
  let channel := channel_value (iq_channel rq) in
  let context := canonical_context org id purpose channel destination CURRENT_HASH_VERSION in
  mkCreate id org destination (destination_fingerprint channel destination) purpose (iq_channel rq)
    (iq_messaging_account_id rq) (hash_code context code) CURRENT_HASH_VERSION (otp_max_attempts cfg)
    (otp_request_fingerprint purpose channel destination (iq_messaging_account_id rq))
    (iq_idempotency_key rq) (iq_correlation_id rq) now (now + seconds (ttl_seconds cfg))
    (now + seconds (resend_cooldown_seconds cfg)).

(** The exceptions of a transaction: an error of the service, or [IntegrityError]. *)
Inductive TxnError : Type :=
| OtpRaised (e : OtpError)
| IntegrityError.

(** The transaction of [_persist_issued], as it commits. Its first two statements take no
    lock: [keyed] and [counted] are the rows they saw, which others may have changed since.
    From [active_for_subject] on, which locks, the rows are the current ones. [raced]: the
    INSERT loses against a concurrent transaction. Nothing is kept when it raises. *)
Definition persist_txn (now : Z) (create : OtpChallengeCreate) (code : string) (keyed counted : list OtpChallenge)
    (raced : bool) (w : OtpWorld)
    : result TxnError (IssueClaim * OtpWorld) :=
  let org := oc_organization_id create in
  let fp := oc_destination_fingerprint create in
  let purpose := oc_purpose create in
  let insert w :=
    if raced || violates_otp create (ow_rows w) then Err IntegrityError
    else
      let c := new_challenge now create in
      let event := otp_event "otp.challenge.issued" create
        [("expires_at"%string, JStr (isoformat_utc (oc_expires_at create))); ("replayed"%string, JBool false)] in
      Ok (mkIssueClaim c true,
          log_issued (create, code) (add_event event (set_ow_rows (ow_rows w ++ [c]) w))) in
  match (key ← oc_idempotency_key create; by_idempotency_key org key keyed) with
  | Some prior =>
      if negb (String.eqb (oc_request_fingerprint (ch_create prior)) (oc_request_fingerprint create))
      then Err (OtpRaised OtpIdempotencyConflictError)
      else Ok (mkIssueClaim prior false, w)
  | None =>
      if max_issues_per_window cfg <=? count_issued_since org fp purpose (now - seconds (issue_window_seconds cfg)) counted
      then Err (OtpRaised OtpRateLimitedError)
      else
        match active_for_subject org fp purpose (ow_rows w) with
        | None => insert w
        | Some active =>
            if negb (bool_decide (oc_idempotency_key create = None)) &&
               bool_decide (oc_idempotency_key (ch_create active) = oc_idempotency_key create)
            then Ok (mkIssueClaim active false, w)
            else if now <? oc_resend_after (ch_create active) then Err (OtpRaised OtpResendTooSoonError)
            else
              insert (add_event (otp_event "otp.challenge.revoked" (ch_create active)
                        [("reason"%string, JStr "superseded_by_new_issuance")])
                (set_ow_rows (apply_changes org (ch_id active) (revoked now) (ow_rows w)) w))
        end
  end.

(** [_load_idempotency_winner] *)
Definition load_winner (org : uuid) (key request_fp : string) (w : OtpWorld) : result OtpError (option OtpChallenge) :=
  match by_idempotency_key org key (ow_rows w) with
  | None => Ok None
  | Some existing =>
      if negb (String.eqb (oc_request_fingerprint (ch_create existing)) request_fp)
      then Err OtpIdempotencyConflictError
      else Ok (Some existing)
  end.

(** [_persist_issued] when nothing is written between its statements; the winner of a race
    is looked up once it has committed. *)
Definition persist_issued (now : Z) (create : OtpChallengeCreate) (code : string) (raced : bool) (w : OtpWorld)
    : result OtpError IssueClaim * OtpWorld :=
  match persist_txn now create code (ow_rows w) (ow_rows w) raced w with
  | Ok (c, w') => (Ok c, w')
  | Err (OtpRaised OtpRateLimitedError) =>
      (Err OtpRateLimitedError,
       add_event (otp_event "otp.challenge.rate_limited" create [("reason"%string, JStr "issue_window_exceeded")]) w)
  | Err (OtpRaised e) => (Err e, w)
  | Err IntegrityError =>
      match oc_idempotency_key create with
      | None => (Err OtpResendTooSoonError, w)
      | Some key =>
          match load_winner (oc_organization_id create) key (oc_request_fingerprint create) w with
          | Err e => (Err e, w)
          | Ok (Some winner) => (Ok (mkIssueClaim winner false), w)
          | Ok None => (Err OtpResendTooSoonError, w)
          end
      end
  end.

(** [_unwind_failed_delivery] *)
Definition unwind_failed_delivery (now : Z) (challenge : OtpChallenge) (error_code : string) (w : OtpWorld) : OtpWorld :=
  let org := ch_organization_id challenge in
  let rows :=
    match by_id org (ch_id challenge) (ow_rows w) with
    | Some current =>
        if is_active current then apply_changes org (ch_id challenge) (revoked now) (ow_rows w) else ow_rows w
    | None => ow_rows w
    end in
  add_event (otp_event "otp.challenge.delivery_failed" (ch_create challenge)
    [("error_code"%string, JStr error_code)]) (set_ow_rows rows w).

(** [_deliver_or_unwind]: the code leaves the service here only. *)
Definition deliver_or_unwind (now : Z) (challenge : OtpChallenge) (code : string) (outcome : DeliveryOutcome)
    (w : OtpWorld) : result OtpError OtpDeliveryStatus * OtpWorld :=
  match ch_delivery_message_id challenge with
  | Some _ => (Ok SKIPPED, w)
  | None =>
      let w := log_code (ch_id challenge, code) w in
      match outcome with
      | Delivered message =>
          (Ok SENT, set_ow_rows (apply_changes (ch_organization_id challenge) (ch_id challenge)
             (with_delivery now message) (ow_rows w)) w)
      | DeliveryTimedOut => (Ok UNCONFIRMED, w)
      | DeliveryFailed error_code => (Err OtpDeliveryFailedError, unwind_failed_delivery now challenge error_code w)
      end
  end.

(** [issue] when nothing interferes between its transactions; [id] and [draw] are the
    fresh UUID and the random number. *)
Definition issue (org : uuid) (rq : IssueOtpRequest) (account : option MessagingAccount)
    (normalized : option string) (now : Z) (id : uuid) (draw : Z) (raced : bool) (outcome : DeliveryOutcome)
    (w : OtpWorld) : result OtpError IssueOtpResult * OtpWorld :=
  let prepared :=
    if negb (otp_enabled cfg) then Err OtpConfigInvalidError
    else
      purpose ← resolve_purpose (iq_purpose rq) (iq_channel rq);
      _ ← require_account account (iq_channel rq);
      destination ← of_option normalized OtpConfigInvalidError;
      replay ← match iq_idempotency_key rq with
               | Some key =>
                   load_winner org key (otp_request_fingerprint purpose (channel_value (iq_channel rq)) destination
                     (iq_messaging_account_id rq)) w
               | None => Ok None
               end;
      Ok (purpose, destination, replay) in
  match prepared with
  | Err e => (Err e, w)
  | Ok (_, _, Some existing) => (Ok (issue_result existing SKIPPED true), w)
  | Ok (purpose, destination, None) =>
      let code := generate_code (code_length cfg) draw in
      match persist_issued now (make_create org id now purpose destination code rq) code raced w with
      | (Err e, w) => (Err e, w)
      | (Ok claim, w) =>
          if negb (ic_is_owner claim) then (Ok (issue_result (ic_challenge claim) SKIPPED true), w)
          else
            match deliver_or_unwind now (ic_challenge claim) code outcome w with
            | (Err e, w) => (Err e, w)
            | (Ok delivery, w) => (Ok (issue_result (ic_challenge claim) delivery false), w)
            end
      end
  end.

(** [_terminal_failure] *)
Definition otp_terminal_failure (c : OtpChallenge) : option OtpError :=
  match ch_status c with
  | OtpStatus.VERIFIED => Some OtpAlreadyUsedError
  | OtpStatus.LOCKED => Some OtpLockedError
  | OtpStatus.EXPIRED => Some OtpExpiredError
  | OtpStatus.REVOKED => Some OtpInvalidError
  | OtpStatus.ACTIVE => None
  end.

(** [_apply_attempt] *)
Definition apply_attempt (org : uuid) (c : OtpChallenge) (code : string) (now : Z) (w : OtpWorld)
    : option OtpError * OtpWorld :=
  let create := ch_create c in
  let attempts := ch_attempts c + 1 in
  let ok := verify_code (context_of org create) code (oc_code_hash create) in
  let w := log_guess (ch_id c, ok) w in
  if ok then
    (None, add_event (otp_event "otp.challenge.verified" create [("attempts"%string, JInt attempts)])
       (set_ow_rows (apply_changes org (ch_id c) (verified now attempts) (ow_rows w)) w))
  else
    let locked := oc_max_attempts create <=? attempts in
    let w := add_event (otp_event "otp.challenge.failed_attempt" create
               [("attempts"%string, JInt attempts); ("max_attempts"%string, JInt (oc_max_attempts create))])
               (set_ow_rows (apply_changes org (ch_id c) (wrong_attempt now attempts locked) (ow_rows w)) w) in
    if locked
    then (Some OtpLockedError, add_event (otp_event "otp.challenge.locked" create [("attempts"%string, JInt attempts)]) w)
    else (Some OtpInvalidError, w).

(** [verify]: [Ok] is the outcome VERIFIED. *)
Definition verify (org challenge_id : uuid) (code : string) (now : Z) (w : OtpWorld)
    : result OtpError () * OtpWorld :=
  if negb (otp_enabled cfg) then (Err OtpConfigInvalidError, w)
  else
    match by_id org challenge_id (ow_rows w) with
    | None => (Err OtpChallengeNotFoundError, w)
    | Some c =>
        match otp_terminal_failure c with
        | Some e => (Err e, w)
        | None =>
            if oc_expires_at (ch_create c) <=? now then
              (Err OtpExpiredError,
               add_event (otp_event "otp.challenge.expired" (ch_create c) [])
                 (set_ow_rows (apply_changes org challenge_id (expired now) (ow_rows w)) w))
            else
              match apply_attempt org c code now w with
              | (None, w) => (Ok (), w)
              | (Some e, w) => (Err e, w)
              end
        end
    end.

(** [resend] issues again for the stored subject; the destination is normalized anew. *)
Definition resend_request (c : OtpChallenge) (correlation_id : option string) : IssueOtpRequest :=
  mkIssueRequest (oc_purpose (ch_create c)) (oc_channel (ch_create c)) (oc_messaging_account_id (ch_create c)) None
    (match correlation_id with
     | Some (String _ _) => correlation_id
     | _ => oc_correlation_id (ch_create c)
     end).

Definition resend (org challenge_id : uuid) (correlation_id : option string) (account : option MessagingAccount)
    (normalize : string → option string) (now : Z) (id : uuid) (draw : Z) (raced : bool)
    (outcome : DeliveryOutcome) (w : OtpWorld) : result OtpError IssueOtpResult * OtpWorld :=
  match by_id org challenge_id (ow_rows w) with
  | None => (Err OtpChallengeNotFoundError, w)
  | Some original =>
      issue org (resend_request original correlation_id) account (normalize (oc_destination (ch_create original)))
        now id draw raced outcome w
  end.

(** [purge_expired] *)
Definition purge_expired (org : uuid) (now older_than_seconds : Z) (w : OtpWorld) : Z * OtpWorld :=
  let rows := purge_terminal_before org (now - seconds (Z.max older_than_seconds 3600)) (ow_rows w) in
  (Z.of_nat (length (ow_rows w)) - Z.of_nat (length rows), set_ow_rows rows w).
End otp.
