(* ===== verification/OtpSafety.v ===== *)
(** * OtpSafety: what the passcode service guarantees

    The service as a transition system: issuances, deliveries, verifications and purges
    of any tenant in any order, at any times. Issuances may overlap: one may have counted
    the window before others committed. *)

From S2P Require Import Prelude.
From S2P Require Import Conditions.
From S2P Require Import Store.
From S2P Require Import SchedulerInvariant.
From S2P Require Import Otp.

Open Scope Z_scope.

Section otp.
Context (hmac : string → string → string).
Context (sha256 : string → string).
Context (cfg : OtpSettings).
Context (pepper : string).
(** Whether an issuance may commit although what it first read has changed since. *)
Context (overlapping : bool).

Abbreviation created := (make_create hmac sha256 cfg pepper).
Abbreviation persist := (persist_txn cfg).
Abbreviation otp_verify := (verify hmac cfg pepper).

Definition issued_ids (w : OtpWorld) : list uuid := map (λ x, oc_id (fst x)) (ow_issued w).

(** One transaction; [uuid7] never repeats an id. *)
Inductive otp_step (w : OtpWorld) : OtpWorld → Prop :=
| otp_persist org id now purpose destination code rq keyed counted raced claim w' :
    id ∉ issued_ids w → (overlapping = false → keyed = ow_rows w ∧ counted = ow_rows w) →
    persist now (created org id now purpose destination code rq) code keyed counted raced w = Ok (claim, w') → otp_step w w'
| otp_audit event : otp_step w (add_event event w)
| otp_deliver now challenge code outcome : otp_step w (deliver_or_unwind now challenge code outcome w).2
| otp_check org id code now : otp_step w (otp_verify org id code now w).2
| otp_purge org now older : otp_step w (purge_expired org now older w).2.

Definition empty_world : OtpWorld := mkOtpWorld [] [] [] [] [].

Definition otp_reachable (w : OtpWorld) : Prop := rtc otp_step empty_world w.

(** ** The invariant *)

Definition guesses_of (id : uuid) (gs : list (uuid * bool)) : Z :=
  Z.of_nat (length (List.filter (λ g, N.eqb (fst g) id) gs)).

Definition successes_of (id : uuid) (gs : list (uuid * bool)) : Z :=
  guesses_of id (List.filter (λ g : uuid * bool, snd g) gs).

(** The counters of a row are the comparisons made. *)
Definition row_ok (gs : list (uuid * bool)) (c : OtpChallenge) : Prop :=
  ch_attempts c = guesses_of (ch_id c) gs ∧
  successes_of (ch_id c) gs = (if bool_decide (ch_status c = OtpStatus.VERIFIED) then 1 else 0) ∧
  ch_attempts c ≤ otp_max_attempts cfg ∧ (is_active c = true → ch_attempts c < otp_max_attempts cfg).

Definition subject (c : OtpChallengeCreate) : uuid * string * string :=
  (oc_organization_id c, oc_destination_fingerprint c, oc_purpose c).

(** Issued for [s] in the window that starts at [t]. *)
Definition in_window (s : uuid * string * string) (t : Z) (c : OtpChallenge) : bool :=
  bool_decide (subject (ch_create c) = s) && (t <=? oc_issued_at (ch_create c)) &&
  (oc_issued_at (ch_create c) <=? t + seconds (issue_window_seconds cfg)).

Definition in_window_count (s : uuid * string * string) (t : Z) (rows : list OtpChallenge) : Z :=
  Z.of_nat (length (List.filter (in_window s t) rows)).

Record otp_inv (w : OtpWorld) : Prop := {
  oi_ids : NoDup (map ch_id (ow_rows w));
  oi_issued_ids : NoDup (issued_ids w);
  oi_issued : ∀ c, c ∈ ow_rows w → ∃ code, (ch_create c, code) ∈ ow_issued w;
  oi_hash : ∀ c code, (c, code) ∈ ow_issued w →
    oc_code_hash c = hash_code hmac pepper (context_of (oc_organization_id c) c) code ∧
    oc_max_attempts c = otp_max_attempts cfg ∧ oc_expires_at c = oc_issued_at c + seconds (ttl_seconds cfg);
  oi_guesses : ∀ g, g ∈ ow_guesses w → fst g ∈ issued_ids w;
  oi_rows : ∀ c, c ∈ ow_rows w → row_ok (ow_guesses w) c;
  oi_bounds : ∀ id, guesses_of id (ow_guesses w) ≤ otp_max_attempts cfg ∧ successes_of id (ow_guesses w) ≤ 1;
  oi_active : ∀ c c', c ∈ ow_rows w → c' ∈ ow_rows w → is_active c = true → is_active c' = true →
    subject (ch_create c) = subject (ch_create c') → ch_id c = ch_id c';
  oi_rate : overlapping = false → ∀ s t, in_window_count s t (ow_rows w) ≤ max_issues_per_window cfg;
}.

(** ** Counting *)

Lemma guesses_app id gs x : guesses_of id (gs ++ [x]) = guesses_of id gs + (if N.eqb (fst x) id then 1 else 0).
Proof. unfold guesses_of. rewrite List.filter_app, length_app. cbn. destruct (N.eqb _ _); cbn; lia. Qed.

Lemma successes_app id gs x :
  successes_of id (gs ++ [x]) = successes_of id gs + (if snd x && N.eqb (fst x) id then 1 else 0).
Proof.
  unfold successes_of. rewrite List.filter_app. cbn. destruct (snd x); cbn [andb]; [apply guesses_app|].
  rewrite app_nil_r. lia.
Qed.

Lemma guesses_none id gs : (∀ g, g ∈ gs → fst g ≠ id) → guesses_of id gs = 0 ∧ successes_of id gs = 0.
Proof.
  intros H. induction gs as [|g gs IH] using rev_ind; [done|].
  rewrite guesses_app, successes_app. destruct IH as [-> ->]; [intros g' Hg'; apply H, elem_of_app; by left|].
  assert (fst g ≠ id) as Hg by (apply H, elem_of_app; right; by constructor).
  destruct (N.eqb_spec (fst g) id); [done|]. by rewrite andb_false_r.
Qed.

(** Counting by the fixed columns ignores the others. *)
Lemma filter_creates (p : OtpChallengeCreate → bool) rows rows' :
  map ch_create rows' = map ch_create rows →
  length (List.filter (λ c, p (ch_create c)) rows') = length (List.filter (λ c, p (ch_create c)) rows).
Proof.
  revert rows'. induction rows as [|c rows IH]; intros [|c' rows'] H; try done.
  cbn in H. injection H as Hc Hr. cbn [List.filter]. rewrite Hc. destruct (p (ch_create c)); cbn [length]; auto.
Qed.

Lemma window_count_create s t rows rows' :
  map ch_create rows' = map ch_create rows → in_window_count s t rows' = in_window_count s t rows.
Proof.
  intros H. unfold in_window_count. f_equal. exact (filter_creates (λ c, bool_decide (subject c = s) &&
    (t <=? oc_issued_at c) && (oc_issued_at c <=? t + seconds (issue_window_seconds cfg))) _ _ H).
Qed.

Lemma count_create org fp purpose since rows rows' :
  map ch_create rows' = map ch_create rows →
  count_issued_since org fp purpose since rows' = count_issued_since org fp purpose since rows.
Proof.
  intros H. unfold count_issued_since. f_equal.
  exact (filter_creates (λ c, of_subject org fp purpose c && (since <=? oc_issued_at c)) _ _ H).
Qed.

Lemma window_count_filter s t (p : OtpChallenge → bool) rows :
  in_window_count s t (List.filter p rows) ≤ in_window_count s t rows.
Proof.
  unfold in_window_count. induction rows as [|c rows IH]; [done|]. cbn.
  destruct (p c), (in_window s t c) eqn:E; cbn; rewrite ?E; cbn [length]; lia.
Qed.

(** ** Updating one row *)

Definition keeps_create (f : OtpChallenge → OtpChallenge) : Prop := ∀ c, ch_create (f c) = ch_create c.

Lemma is_challenge_spec org id c :
  is_challenge org id c = true ↔ ch_organization_id c = org ∧ ch_id c = id.
Proof. unfold is_challenge. by rewrite andb_true_iff, !N.eqb_eq. Qed.

Lemma apply_creates org id f rows : keeps_create f → map ch_create (apply_changes org id f rows) = map ch_create rows.
Proof. intros Hf. apply update_where_map. intros c _ _. apply Hf. Qed.

Lemma apply_ids org id f rows : keeps_create f → map ch_id (apply_changes org id f rows) = map ch_id rows.
Proof. intros Hf. apply update_where_map. intros c _ _. unfold ch_id. by rewrite Hf. Qed.

(** The general update: the rows of one challenge change, and comparisons of it may be
    added. *)
Lemma apply_inv w org id f gs events sent :
  otp_inv w → keeps_create f →
  (∀ i, i ≠ id → guesses_of i gs = guesses_of i (ow_guesses w) ∧ successes_of i gs = successes_of i (ow_guesses w)) →
  (gs ≠ ow_guesses w → ∃ c, c ∈ ow_rows w ∧ is_challenge org id c = true) →
  (∀ g, g ∈ gs → fst g ∈ issued_ids w) →
  guesses_of id gs ≤ otp_max_attempts cfg ∧ successes_of id gs ≤ 1 →
  (∀ c, c ∈ ow_rows w → is_challenge org id c = true → row_ok gs (f c) ∧ (is_active (f c) = true → is_active c = true)) →
  otp_inv (mkOtpWorld (apply_changes org id f (ow_rows w)) events (ow_issued w) sent gs).
Proof.
  intros [H1 H2 H3 H4 H5 H6 H7 H8 H9] Hf Hgs Hhas Hids Hid Hrow. split; cbn [ow_rows ow_issued ow_guesses]; try done.
  - by rewrite apply_ids.
  - intros c (x & Hx & [[-> _]|[-> _]])%update_where_elem; [auto|]. rewrite Hf. auto.
  - intros c (x & Hx & [[-> Hp]|[-> Hp]])%update_where_elem; [|by apply Hrow].
    destruct (decide (ch_id x = id)) as [Hxid|Hne].
    + destruct (decide (gs = ow_guesses w)) as [->|Hg]; [auto|]. destruct (Hhas Hg) as (y & Hy & Hyp).
      pose proof (proj1 (is_challenge_spec _ _ _) Hyp) as [_ Hyid].
      assert (y = x) as -> by (apply (NoDup_map_inj ch_id (ow_rows w)); congruence).
      congruence.
    + destruct (H6 _ Hx) as (R1 & R2 & R3 & R4). destruct (Hgs _ Hne) as [E1 E2].
      split_and!; [by rewrite E1|by rewrite E2|done..].
  - intros i. destruct (decide (i = id)) as [->|Hne]; [done|]. destruct (Hgs _ Hne) as [-> ->]. auto.
  - assert (Hsrc : ∀ c, c ∈ apply_changes org id f (ow_rows w) → is_active c = true →
      ∃ x, x ∈ ow_rows w ∧ is_active x = true ∧ ch_create c = ch_create x).
    { intros c (x & Hx & [[-> _]|[-> Hp]])%update_where_elem Ha; [by exists x|]. exists x.
      split_and!; [done|by apply Hrow|apply Hf]. }
    intros c c' Hc Hc' Ha Ha' Hs. destruct (Hsrc _ Hc Ha) as (x & Hx & Hxa & E).
    destruct (Hsrc _ Hc' Ha') as (x' & Hx' & Hxa' & E'). unfold ch_id. rewrite E, E' in Hs |- *. by apply H8.
  - intros Ho s t. rewrite (window_count_create s t (ow_rows w)) by (by apply apply_creates). by apply H9.
Qed.

(** A change that touches neither counters nor comparisons and does not reactivate. *)
Lemma quiet_apply_inv w org id f events sent :
  otp_inv w → keeps_create f →
  (∀ c, c ∈ ow_rows w → is_challenge org id c = true →
     ch_attempts (f c) = ch_attempts c ∧ (is_active (f c) = true → is_active c = true) ∧
     (ch_status (f c) = OtpStatus.VERIFIED ↔ ch_status c = OtpStatus.VERIFIED)) →
  otp_inv (mkOtpWorld (apply_changes org id f (ow_rows w)) events (ow_issued w) sent (ow_guesses w)).
Proof.
  intros HI Hf Hrow. apply apply_inv; try done; [apply HI|apply HI|].
  intros c Hc Hp. destruct (Hrow c Hc Hp) as (E1 & E2 & E3). split; [|done].
  destruct (oi_rows _ HI c Hc) as (R1 & R2 & R3 & R4). unfold row_ok.
  assert (Eid : ch_id (f c) = ch_id c) by (unfold ch_id; by rewrite Hf).
  rewrite E1, Eid. split_and!; [done| |done|auto]. rewrite R2. by rewrite (bool_decide_ext _ _ E3).
Qed.

Lemma events_inv w events sent :
  otp_inv w → otp_inv (mkOtpWorld (ow_rows w) events (ow_issued w) sent (ow_guesses w)).
Proof. by intros []. Qed.

Lemma by_id_spec org id rows c : by_id org id rows = Some c → c ∈ rows ∧ ch_organization_id c = org ∧ ch_id c = id.
Proof. intros [H1 H2%is_challenge_spec]%find_some. split; [by apply list_elem_of_In|done]. Qed.

(** In a table without repeated ids, the matching row is the one found. *)
Lemma by_id_unique org id rows c c' :
  NoDup (map ch_id rows) → by_id org id rows = Some c → c' ∈ rows → is_challenge org id c' = true → c' = c.
Proof.
  intros Hnd (Hc & _ & Hid)%by_id_spec Hc' [_ Hid']%is_challenge_spec.
  apply (NoDup_map_inj ch_id rows); congruence.
Qed.

(** ** Verification *)

Lemma attempt_inv w org c code now :
  otp_inv w → by_id org (ch_id c) (ow_rows w) = Some c → is_active c = true →
  otp_inv (apply_attempt hmac pepper org c code now w).2.
Proof.
  intros HI Hfind Ha. destruct (by_id_spec _ _ _ _ Hfind) as (Hc & Horg & _).
  destruct (oi_rows _ HI c Hc) as (R1 & R2 & R3 & R4). specialize (R4 Ha).
  assert (Hnv : ch_status c ≠ OtpStatus.VERIFIED).
  { unfold is_active in Ha. rewrite bool_decide_eq_true in Ha. by rewrite Ha. }
  rewrite bool_decide_eq_false_2 in R2 by done.
  destruct (oi_issued _ HI c Hc) as (code0 & Hiss). destruct (oi_hash _ HI _ _ Hiss) as (_ & Hmax & _).
  unfold apply_attempt. cbv zeta. set (ok := verify_code _ _ _ _ _).
  assert (Hgid : ∀ g, g ∈ ow_guesses w ++ [(ch_id c, ok)] → fst g ∈ issued_ids w).
  { intros g [Hg | Hg%list_elem_of_singleton]%elem_of_app; [by apply HI|]. subst g. cbn.
    apply list_elem_of_fmap. by exists (ch_create c, code0). }
  assert (Hupd : ∀ f events sent, keeps_create f →
    (∀ x, x ∈ ow_rows w → is_challenge org (ch_id c) x = true → x = c → row_ok (ow_guesses w ++ [(ch_id c, ok)]) (f x)) →
    otp_inv (mkOtpWorld (apply_changes org (ch_id c) f (ow_rows w)) events (ow_issued w) sent (ow_guesses w ++ [(ch_id c, ok)]))).
  { intros f events sent Hf Hrow. apply apply_inv; try done.
    - intros i Hi. rewrite guesses_app, successes_app. cbn. destruct (N.eqb_spec (ch_id c) i); [congruence|].
      rewrite andb_false_r. lia.
    - intros _. exists c. split; [done|]. by apply is_challenge_spec.
    - rewrite guesses_app, successes_app. cbn. rewrite N.eqb_refl, andb_true_r. destruct ok; lia.
    - intros x Hx Hp. pose proof (by_id_unique _ _ _ _ _ (oi_ids _ HI) Hfind Hx Hp) as ->. auto. }
  destruct ok; cbn [snd]; [|destruct (_ <=? _) eqn:Hlock]; apply Hupd; try done; intros x Hx Hp ->;
    unfold row_ok; cbn [ch_id ch_create verified wrong_attempt ch_attempts ch_status is_active];
    change (ch_id (mkChallenge (ch_create c) _ _ _ _ _ _ _ _)) with (ch_id c);
    rewrite guesses_app, successes_app; cbn [fst snd andb]; rewrite N.eqb_refl.
  - change (ch_id (verified now (ch_attempts c + 1) c)) with (ch_id c). split_and!; [lia| |lia|done]. by rewrite R2.
  - split_and!; [lia|rewrite R2; done|lia|done].
  - split_and!; [lia| |lia|intros _; lia]. rewrite bool_decide_eq_false_2 by done. lia.
Qed.

Lemma verify_inv w org id code now : otp_inv w → otp_inv (otp_verify org id code now w).2.
Proof.
  intros HI. unfold verify. destruct (negb _); [done|]. destruct (by_id org id (ow_rows w)) as [c|] eqn:Hf; [|done].
  destruct (otp_terminal_failure c) eqn:Ht; [done|].
  assert (Ha : is_active c = true).
  { unfold otp_terminal_failure in Ht. apply bool_decide_eq_true. by destruct (ch_status c). }
  destruct (_ <=? now).
  - cbn [snd]. apply (quiet_apply_inv w org id (expired now)); [done|done|]. intros x Hx Hp.
    pose proof (by_id_unique _ _ _ _ _ (oi_ids _ HI) Hf Hx Hp) as ->. split_and!; [done|done|].
    cbn. unfold is_active in Ha. rewrite bool_decide_eq_true in Ha. by rewrite Ha.
  - destruct (by_id_spec _ _ _ _ Hf) as (_ & _ & <-). pose proof (attempt_inv w org c code now HI Hf Ha) as H.
    destruct (apply_attempt _ _ _ _ _ _ _) as [[e|] w']; done.
Qed.

(** ** Delivery and purging *)

Lemma revoke_active_inv w org id c now events sent :
  otp_inv w → by_id org id (ow_rows w) = Some c → is_active c = true →
  otp_inv (mkOtpWorld (apply_changes org id (revoked now) (ow_rows w)) events (ow_issued w) sent (ow_guesses w)).
Proof.
  intros HI Hf Ha. apply quiet_apply_inv; [done|done|]. intros x Hx Hp.
  pose proof (by_id_unique _ _ _ _ _ (oi_ids _ HI) Hf Hx Hp) as ->. split_and!; [done|done|].
  cbn. unfold is_active in Ha. rewrite bool_decide_eq_true in Ha. by rewrite Ha.
Qed.

Lemma deliver_inv w now challenge code outcome :
  otp_inv w → otp_inv (deliver_or_unwind now challenge code outcome w).2.
Proof.
  intros HI. unfold deliver_or_unwind. destruct (ch_delivery_message_id challenge); [done|]. cbv zeta.
  destruct outcome as [message| |error]; cbn [snd].
  - by apply (quiet_apply_inv w _ _ (with_delivery now message)).
  - by apply (events_inv w).
  - unfold unwind_failed_delivery. cbv zeta. cbn [ow_rows log_code].
    destruct (by_id _ _ _) as [c|] eqn:Hf; [destruct (is_active c) eqn:Ha|]; [|by apply (events_inv w)..].
    by eapply (revoke_active_inv w).
Qed.

Lemma filter_inv w p :
  otp_inv w → otp_inv (set_ow_rows (List.filter p (ow_rows w)) w).
Proof.
  assert (Hin : ∀ c, c ∈ List.filter p (ow_rows w) → c ∈ ow_rows w).
  { intros c. rewrite !list_elem_of_In, List.filter_In. by intros []. }
  intros [H1 H2 H3 H4 H5 H6 H7 H8 H9]. split; cbn [ow_rows set_ow_rows ow_issued ow_guesses]; try done; auto.
  - by apply NoDup_map_filter.
  - intros Ho s t. etrans; [apply window_count_filter|]. by apply H9.
Qed.

(** ** Issuance *)

Lemma of_subject_spec org fp purpose c : of_subject org fp purpose c = true ↔ subject c = (org, fp, purpose).
Proof.
  unfold of_subject, subject. rewrite !andb_true_iff, N.eqb_eq, !String.eqb_eq.
  split; [by intros [[-> ->] ->]|by intros [= -> -> ->]].
Qed.

Lemma active_none c rows :
  active_for_subject (oc_organization_id c) (oc_destination_fingerprint c) (oc_purpose c) rows = None →
  ∀ x, x ∈ rows → is_active x = true → subject (ch_create x) ≠ subject c.
Proof.
  intros H x Hx Ha Hs. apply list_elem_of_In in Hx. pose proof (find_none _ _ H _ Hx) as Hp. cbn in Hp.
  rewrite Ha, andb_true_r in Hp. apply not_true_iff_false in Hp. by apply Hp, of_subject_spec.
Qed.

Lemma active_some org fp purpose rows c :
  active_for_subject org fp purpose rows = Some c → c ∈ rows ∧ is_active c = true ∧ ch_organization_id c = org.
Proof.
  intros [H1 H2]%find_some. rewrite andb_true_iff, of_subject_spec in H2. destruct H2 as [[= H2 _ _] H3].
  split; [by apply list_elem_of_In|done].
Qed.

Lemma by_id_found rows c :
  NoDup (map ch_id rows) → c ∈ rows → by_id (ch_organization_id c) (ch_id c) rows = Some c.
Proof.
  intros Hnd Hc. destruct (by_id (ch_organization_id c) (ch_id c) rows) as [x|] eqn:E.
  - f_equal. symmetry. eapply by_id_unique; [done..|]. by apply is_challenge_spec.
  - apply list_elem_of_In in Hc. pose proof (find_none _ _ E _ Hc) as H. apply not_true_iff_false in H.
    exfalso. by apply H, is_challenge_spec.
Qed.

(** The rows of a window ending with a new issuance are those the throttle counts. *)
Lemma window_counted s t now org fp purpose rows :
  s = (org, fp, purpose) → t ≤ now ≤ t + seconds (issue_window_seconds cfg) →
  in_window_count s t rows ≤ count_issued_since org fp purpose (now - seconds (issue_window_seconds cfg)) rows.
Proof.
  intros -> Ht. unfold in_window_count, count_issued_since.
  assert (Himp : ∀ c, in_window (org, fp, purpose) t c = true →
    issued_since org fp purpose (now - seconds (issue_window_seconds cfg)) c = true).
  { intros c. unfold in_window, issued_since. rewrite !andb_true_iff, bool_decide_eq_true, of_subject_spec, !Z.leb_le.
    intros [[-> ?] ?]. split; [done|]. lia. }
  induction rows as [|c rows IH]; [done|]. cbn [List.filter]. specialize (Himp c).
  destruct (in_window _ t c), (issued_since _ _ _ _ c); cbn [length]; lia || by specialize (Himp eq_refl).
Qed.

Context (Hvalid : otp_settings_valid cfg).

Lemma insert_inv w org id now purpose destination code rq events sent :
  let c := created org id now purpose destination code rq in
  otp_inv w → id ∉ issued_ids w → violates_otp c (ow_rows w) = false →
  (overlapping = false → count_issued_since org (oc_destination_fingerprint c) purpose
    (now - seconds (issue_window_seconds cfg)) (ow_rows w) < max_issues_per_window cfg) →
  otp_inv (mkOtpWorld (ow_rows w ++ [new_challenge now c]) events (ow_issued w ++ [(c, code)]) sent (ow_guesses w)).
Proof.
  intros c HI Hfresh Hviol Hcount. destruct HI as [H1 H2 H3 H4 H5 H6 H7 H8 H9].
  unfold violates_otp in Hviol. rewrite !orb_false_iff in Hviol. destruct Hviol as [[V1 _] V3].
  assert (Hact : ∀ x, x ∈ ow_rows w → is_active x = true → subject (ch_create x) ≠ subject c).
  { apply active_none. by destruct (active_for_subject _ _ _ _). }
  assert (Hids : issued_ids (mkOtpWorld (ow_rows w ++ [new_challenge now c]) events (ow_issued w ++ [(c, code)]) sent
    (ow_guesses w)) = issued_ids w ++ [id]) by (unfold issued_ids; cbn [ow_issued]; by rewrite map_app).
  split; cbn [ow_rows ow_issued ow_guesses].
  - rewrite map_app. apply NoDup_app. split_and!; [done| |apply NoDup_singleton].
    intros i (x & -> & Hx)%list_elem_of_fmap Hi%list_elem_of_singleton.
    assert (existsb (λ r, N.eqb (ch_id r) (oc_id c)) (ow_rows w) = true); [|congruence].
    apply existsb_exists. exists x. split; [by apply list_elem_of_In|by apply N.eqb_eq].
  - rewrite Hids. apply NoDup_app. split_and!; [done| |apply NoDup_singleton].
    intros i Hi Hi'%list_elem_of_singleton. by subst i.
  - intros x [Hx | Hx%list_elem_of_singleton]%elem_of_app.
    + destruct (H3 _ Hx) as (k & Hk). exists k. apply elem_of_app. by left.
    + subst x. exists code. apply elem_of_app. right. by constructor.
  - intros x k [Hx | Hx%list_elem_of_singleton]%elem_of_app; [auto|]. by injection Hx as -> ->.
  - intros g Hg. rewrite Hids. apply elem_of_app. left. auto.
  - intros x [Hx | Hx%list_elem_of_singleton]%elem_of_app; [auto|]. subst x.
    destruct (guesses_none id (ow_guesses w)) as [G1 G2]; [by intros g Hg <-; apply Hfresh, H5|].
    destruct Hvalid as [_ Hm _]. unfold row_ok. change (ch_id (new_challenge now c)) with id.
    rewrite G1, G2. cbn. split_and!; lia || done.
  - done.
  - intros x y [Hx | Hx%list_elem_of_singleton]%elem_of_app [Hy | Hy%list_elem_of_singleton]%elem_of_app Ax Ay Hs;
      [auto|subst y; by apply Hact in Hs|subst x; symmetry in Hs; by apply Hact in Hs|by subst].
  - intros Ho s t. specialize (Hcount Ho). unfold in_window_count. rewrite List.filter_app, length_app. cbn [List.filter].
    destruct (in_window s t (new_challenge now c)) eqn:E; cbn [length].
    + unfold in_window in E. rewrite !andb_true_iff, bool_decide_eq_true in E. destruct E as [[Es E1] E2].
      pose proof (window_counted s t now org (oc_destination_fingerprint c) purpose (ow_rows w)) as Hw.
      unfold in_window_count in Hw. specialize (Hw (eq_sym Es)). cbn in E1, E2. lia.
    + specialize (H9 Ho s t). unfold in_window_count in H9. lia.
Qed.

Lemma persist_inv w org id now purpose destination code rq keyed counted raced claim w' :
  otp_inv w → id ∉ issued_ids w → (overlapping = false → counted = ow_rows w) →
  persist now (created org id now purpose destination code rq) code keyed counted raced w = Ok (claim, w') → otp_inv w'.
Proof.
  intros HI Hfresh Hcur. unfold persist_txn. cbv zeta. set (c := created org id now purpose destination code rq).
  destruct (mbind _ _) as [prior|]; [destruct (negb _); [done|by intros [= _ <-]]|].
  destruct (_ <=? _) eqn:Hcount; [done|]. apply Z.leb_gt in Hcount.
  destruct (active_for_subject _ _ _ _) as [active|] eqn:Hact.
  - destruct (_ && _); [by intros [= _ <-]|]. destruct (now <? _); [done|].
    destruct (active_some _ _ _ _ _ Hact) as (Hin & Ha & Horg).
    pose proof (by_id_found _ _ (oi_ids _ HI) Hin) as Hfind. rewrite Horg in Hfind.
    set (w1 := add_event _ _). assert (HI1 : otp_inv w1) by (by eapply (revoke_active_inv w)).
    destruct (_ || _) eqn:Hv; [done|]. apply orb_false_iff in Hv as [_ Hv]. intros [= _ <-].
    apply (insert_inv w1); [done|done|exact Hv|].
    intros Ho. rewrite (count_create _ _ _ _ (ow_rows w)) by (by apply apply_creates). rewrite <- (Hcur Ho). exact Hcount.
  - destruct (_ || _) eqn:Hv; [done|]. apply orb_false_iff in Hv as [_ Hv]. intros [= _ <-].
    apply (insert_inv w); [done..|]. intros Ho. rewrite <- (Hcur Ho). exact Hcount.
Qed.

Lemma otp_step_inv w w' : otp_step w w' → otp_inv w → otp_inv w'.
Proof.
  destruct 1 as [? ? ? ? ? ? ? ? ? ? ? ? ? Hcur| | | |]; intros HI;
    [eapply persist_inv; [done..| |done]; apply Hcur|by apply (events_inv w)|by apply deliver_inv|by apply verify_inv|].
  by apply filter_inv.
Qed.

Lemma otp_steps_inv w w' : rtc otp_step w w' → otp_inv w → otp_inv w'.
Proof. induction 1 as [|w1 w2 w3 Hs _ IH]; eauto using otp_step_inv. Qed.

Lemma otp_reachable_inv w : otp_reachable w → otp_inv w.
Proof.
  intros Hr. apply (otp_steps_inv _ _ Hr). destruct Hvalid as [_ Hm Hi].
  split; cbn [ow_rows ow_guesses ow_issued empty_world]; [apply NoDup_nil_2|apply NoDup_nil_2|..].
  all: try by intros ? ?%not_elem_of_nil.
  - by intros ? ? ?%not_elem_of_nil.
  - intros id. unfold successes_of, guesses_of. cbn. lia.
  - by intros ? ? ?%not_elem_of_nil.
  - intros _ s t. unfold in_window_count. cbn. lia.
Qed.

(** ** Guarantees *)

(** C30. Guessing is bounded: in every reachable state, over all verifications so far,
    a challenge's code has been compared with at most [max_attempts] submissions, of
    which at most one matched; and a subject (organization, destination, purpose) has at
    most one active challenge. The issuances of a window are counted before anything is
    locked, so the throttle holds only for issuances that do not overlap: then no window of
    [issue_window_seconds] has more than [max_issues_per_window] stored challenges of a
    subject. *)
Theorem otp_guessing_bounded w :
  otp_reachable w →
  (∀ id, guesses_of id (ow_guesses w) ≤ otp_max_attempts cfg ∧ successes_of id (ow_guesses w) ≤ 1) ∧
  (∀ c c', c ∈ ow_rows w → c' ∈ ow_rows w → is_active c = true → is_active c' = true →
     subject (ch_create c) = subject (ch_create c') → c = c') ∧
  (overlapping = false → ∀ s t, in_window_count s t (ow_rows w) ≤ max_issues_per_window cfg).
Proof.
  intros HI%otp_reachable_inv. split_and!; [apply HI| |apply HI].
  intros c c' Hc Hc' Ha Ha' Hs. apply (NoDup_map_inj ch_id (ow_rows w)); [apply HI|done..|]. by apply HI.
Qed.

(** Comparisons are never forgotten. *)
Lemma otp_step_guesses w w' : otp_step w w' → ∃ l, ow_guesses w' = ow_guesses w ++ l.
Proof.
  assert (H0 : ∀ gs : list (uuid * bool), ∃ l, gs = gs ++ l) by (intros gs; exists []; by rewrite app_nil_r).
  destruct 1 as [org id now purpose destination code rq keyed counted raced claim w' _ _ H|event|now challenge code outcome|org id code now|org now older]; try apply H0.
  - unfold persist_txn in H. cbv zeta in H. destruct (mbind _ _); [destruct (negb _); [done|injection H as _ <-; apply H0]|].
    destruct (_ <=? _); [done|]. destruct (active_for_subject _ _ _ _).
    + destruct (_ && _); [injection H as _ <-; apply H0|]. destruct (_ <? _); [done|].
      destruct (_ || _); [done|]. injection H as _ <-. apply H0.
    + destruct (_ || _); [done|]. injection H as _ <-. apply H0.
  - unfold deliver_or_unwind. destruct (ch_delivery_message_id challenge), outcome; apply H0.
  - unfold verify. destruct (negb _); [apply H0|]. destruct (by_id _ _ _) as [c|]; [|apply H0].
    destruct (otp_terminal_failure c); [apply H0|]. destruct (_ <=? _); [apply H0|]. unfold apply_attempt. cbv zeta.
    destruct (verify_code _ _ _ _ _); [by eexists|]. destruct (_ <=? _); by eexists.
Qed.

Lemma otp_steps_successes w w' id :
  rtc otp_step w w' → successes_of id (ow_guesses w) ≤ successes_of id (ow_guesses w').
Proof.
  induction 1 as [|w1 w2 w3 Hs _ IH]; [done|]. destruct (otp_step_guesses _ _ Hs) as [l E]. etrans; [|exact IH].
  rewrite E. unfold successes_of, guesses_of. rewrite !List.filter_app, length_app. lia.
Qed.

Lemma verify_Ok_success w org id code now w' :
  otp_verify org id code now w = (Ok (), w') → successes_of id (ow_guesses w) + 1 = successes_of id (ow_guesses w').
Proof.
  unfold verify. destruct (negb _); [done|]. destruct (by_id org id (ow_rows w)) as [c|] eqn:Hf; [|done].
  destruct (by_id_spec _ _ _ _ Hf) as (_ & _ & Hid).
  destruct (otp_terminal_failure c); [done|]. destruct (_ <=? _); [done|]. unfold apply_attempt. cbv zeta.
  destruct (verify_code _ _ _ _ _); [|destruct (_ <=? _); done]. intros [= <-]. cbn [ow_guesses add_event set_ow_rows log_guess].
  rewrite successes_app. cbn [fst snd andb]. rewrite Hid, N.eqb_refl. done.
Qed.

Lemma guesses_nonneg id gs : 0 ≤ successes_of id gs.
Proof. unfold successes_of, guesses_of. lia. Qed.

(** C29. A passcode works once: after a verification of a challenge succeeded, every later
    verification of it, by any tenant, with any code and at any time, is refused without
    comparing a code or changing anything. *)
Theorem otp_single_use w w1 w2 org id code now org' code' now' :
  otp_reachable w → otp_verify org id code now w = (Ok (), w1) → rtc otp_step w1 w2 →
  ∃ e, otp_verify org' id code' now' w2 = (Err e, w2) ∧
    e ∈ [OtpAlreadyUsedError; OtpChallengeNotFoundError; OtpConfigInvalidError].
Proof.
  intros Hr Hv Hs.
  assert (Hr2 : otp_reachable w2).
  { unfold otp_reachable. etrans; [exact Hr|]. eapply rtc_l; [|exact Hs].
    pose proof (otp_check w org id code now) as Hstep. by rewrite Hv in Hstep. }
  pose proof (verify_Ok_success _ _ _ _ _ _ Hv) as Hsucc. pose proof (otp_steps_successes _ _ id Hs) as Hmono.
  pose proof (guesses_nonneg id (ow_guesses w)) as Hnn.
  unfold verify. destruct (negb _); [eexists; split; [done|]; by right; right; left|].
  destruct (by_id org' id (ow_rows w2)) as [c|] eqn:Hf; [|eexists; split; [done|]; by right; left].
  destruct (by_id_spec _ _ _ _ Hf) as (Hc & _ & Hid).
  destruct (oi_rows _ (otp_reachable_inv _ Hr2) c Hc) as (_ & R2 & _). rewrite Hid in R2.
  destruct (decide (ch_status c = OtpStatus.VERIFIED)) as [Hst|Hst].
  - unfold otp_terminal_failure. rewrite Hst. eexists. split; [done|]. by left.
  - rewrite bool_decide_eq_false_2 in R2 by done. lia.
Qed.

(** The issued code is the one accepted: while a challenge is active and not expired,
    verifying it with the code it was issued with succeeds and marks it VERIFIED; a
    submission whose keyed digest differs is refused, counted, and locks the challenge
    when it uses up the attempts. *)
Theorem otp_code_accepted w row code code' now :
  otp_reachable w → row ∈ ow_rows w → (ch_create row, code) ∈ ow_issued w → is_active row = true →
  otp_enabled cfg = true → now < oc_expires_at (ch_create row) →
  let org := ch_organization_id row in
  (let '(r, w') := otp_verify org (ch_id row) code now w in
   r = Ok () ∧ verified now (ch_attempts row + 1) row ∈ ow_rows w') ∧
  (hash_code hmac pepper (context_of org (ch_create row)) code' ≠ hash_code hmac pepper (context_of org (ch_create row)) code →
   let '(r, w') := otp_verify org (ch_id row) code' now w in
   let locked := otp_max_attempts cfg <=? ch_attempts row + 1 in
   r = Err (if locked then OtpLockedError else OtpInvalidError) ∧
   wrong_attempt now (ch_attempts row + 1) locked row ∈ ow_rows w').
Proof.
  intros HI%otp_reachable_inv Hrow Hiss Ha Hen Hexp. cbv zeta.
  pose proof (by_id_found _ _ (oi_ids _ HI) Hrow) as Hfind. destruct (oi_hash _ HI _ _ Hiss) as (Hhash & Hmax & _).
  assert (Hterm : otp_terminal_failure row = None).
  { unfold is_active in Ha. rewrite bool_decide_eq_true in Ha. unfold otp_terminal_failure. by rewrite Ha. }
  assert (Hin : ∀ f, f row ∈ apply_changes (ch_organization_id row) (ch_id row) f (ow_rows w)).
  { intros f. apply list_elem_of_fmap. exists row. split; [|done].
    by rewrite (proj2 (is_challenge_spec _ _ _)) by done. }
  unfold verify. rewrite Hen. cbn [negb]. rewrite Hfind, Hterm, (proj2 (Z.leb_gt _ _)) by lia.
  unfold apply_attempt, verify_code. cbv zeta.
  change (context_of (oc_organization_id (ch_create row))) with (context_of (ch_organization_id row)) in Hhash. split.
  - rewrite <- Hhash, String.eqb_refl. split; [done|]. apply Hin.
  - intros Hne. rewrite Hhash. destruct (String.eqb_spec (hash_code hmac pepper (context_of (ch_organization_id row) (ch_create row)) code')
      (hash_code hmac pepper (context_of (ch_organization_id row) (ch_create row)) code)); [done|].
    rewrite Hmax. destruct (otp_max_attempts cfg <=? _) eqn:E; split; try done; apply Hin.
Qed.
End otp.

(** ** A concrete challenge *)

Definition demo_hmac (key message : string) : string := key +:+ message.

Definition demo_sha (message : string) : string := message.

Definition demo_otp : OtpSettings := mkOtpSettings true 6 300 5 60 1 86400.

Lemma demo_otp_valid : otp_settings_valid demo_otp.
Proof. by split. Qed.

Definition demo_issue : IssueOtpRequest := mkIssueRequest "VERIFY_PHONE" OtpChannel.SMS 9 None None.

Definition issue_at (id : uuid) (now : Z) (w : OtpWorld) : result TxnError (IssueClaim * OtpWorld) :=
  persist_txn demo_otp now (make_create demo_hmac demo_sha demo_otp "pepper" 1 id now "VERIFY_PHONE" "+15551234567" "000042" demo_issue)
    "000042" (ow_rows w) (ow_rows w) false w.

Definition world_of {A} (r : result TxnError (A * OtpWorld)) : OtpWorld :=
  match r with Ok (_, w) => w | Err _ => empty_world end.

Definition demo_challenge : OtpWorld := Eval vm_compute in world_of (issue_at 7 0 empty_world).

Abbreviation demo_otp_verify := (verify demo_hmac demo_otp "pepper").

Lemma demo_challenge_step overlapping : otp_step demo_hmac demo_sha demo_otp "pepper" overlapping empty_world demo_challenge.
Proof.
  eapply (otp_persist _ _ _ _ _ empty_world 1%N 7%N 0 "VERIFY_PHONE" "+15551234567" "000042" demo_issue [] [] false).
  - by apply not_elem_of_nil.
  - done.
  - by vm_compute.
Qed.

Lemma demo_challenge_reachable overlapping : otp_reachable demo_hmac demo_sha demo_otp "pepper" overlapping demo_challenge.
Proof. apply rtc_once, demo_challenge_step. Qed.

Lemma otp_guessing_bounded_witness :
  length (ow_rows demo_challenge) = 1%nat ∧
  ∀ s t, in_window_count demo_otp s t (ow_rows demo_challenge) ≤ 1.
Proof.
  split; [done|]. intros s t.
  exact (proj2 (proj2 (otp_guessing_bounded demo_hmac demo_sha demo_otp "pepper" false demo_otp_valid demo_challenge
    (demo_challenge_reachable false))) eq_refl s t).
Defined.

Definition demo_used : OtpWorld := Eval vm_compute in (demo_otp_verify 1 7 "000042" 1000000 demo_challenge).2.

Lemma otp_single_use_witness :
  demo_otp_verify 1 7 "000042" 1000000 demo_challenge = (Ok (), demo_used) ∧
  ∃ e, demo_otp_verify 1 7 "000042" 2000000 demo_used = (Err e, demo_used) ∧
    e ∈ [OtpAlreadyUsedError; OtpChallengeNotFoundError; OtpConfigInvalidError].
Proof.
  split; [by vm_compute|].
  exact (otp_single_use demo_hmac demo_sha demo_otp "pepper" true demo_otp_valid demo_challenge demo_used demo_used 1 7 "000042"
    1000000 1 "000042" 2000000 (demo_challenge_reachable true) ltac:(by vm_compute) (rtc_refl _ _)).
Defined.

Lemma otp_code_accepted_witness :
  ∃ row, ow_rows demo_challenge = [row] ∧
    let '(r, w') := demo_otp_verify (ch_organization_id row) (ch_id row) "000042" 1000000 demo_challenge in
    r = Ok () ∧ verified 1000000 (ch_attempts row + 1) row ∈ ow_rows w'.
Proof.
  eexists. split; [done|].
  exact (proj1 (otp_code_accepted demo_hmac demo_sha demo_otp "pepper" true demo_otp_valid demo_challenge _ "000042" "111111" 1000000
    (demo_challenge_reachable true) ltac:(by constructor) ltac:(by constructor) ltac:(done) ltac:(done) ltac:(by vm_compute))).
Defined.

(** Purging lifts the issuance limit: with a window longer than the purge's
    retention, here one challenge a day and the shortest retention of an hour, a used
    challenge is deleted while its window still counts it, and the subject gets a second
    code that the limit refuses without the purge. *)
Theorem purge_resets_throttle :
  let two_hours := 7200 * 1000000 in
  let purged := (purge_expired 1 two_hours 0 demo_used).2 in
  issue_at 8 two_hours demo_used = Err (OtpRaised OtpRateLimitedError) ∧
  match issue_at 8 two_hours purged with Ok (claim, _) => ic_is_owner claim = true | Err _ => False end.
Proof. by vm_compute. Qed.

(** Two issuances that overlap exceed the limit. Both count the window while it is empty;
    the first commits, its delivery fails and its challenge is revoked; the second, which
    finds no active challenge to wait for, commits too: two stored challenges in a window
    that admits one. *)
Definition demo_failed : OtpWorld :=
  Eval vm_compute in match ow_rows demo_challenge with
                     | c :: _ => (deliver_or_unwind 1000000 c "000042" (DeliveryFailed "NXS_MSG_UNAVAILABLE") demo_challenge).2
                     | [] => demo_challenge
                     end.

Definition second_create : OtpChallengeCreate :=
  make_create demo_hmac demo_sha demo_otp "pepper" 1 8 500000 "VERIFY_PHONE" "+15551234567" "000043" demo_issue.

Definition demo_second : OtpWorld :=
  Eval vm_compute in world_of (persist_txn demo_otp 500000 second_create "000043" [] [] false demo_failed).

Theorem overlapping_exceeds_limit :
  otp_reachable demo_hmac demo_sha demo_otp "pepper" true demo_second ∧
  max_issues_per_window demo_otp < in_window_count demo_otp (subject second_create) 0 (ow_rows demo_second).
Proof.
  split; [|by vm_compute]. unfold otp_reachable.
  apply (rtc_l _ _ demo_challenge); [apply demo_challenge_step|]. apply (rtc_l _ _ demo_failed).
  - destruct (ow_rows demo_challenge) as [|c rows] eqn:E; [done|].
    pose proof (otp_deliver demo_hmac demo_sha demo_otp "pepper" true demo_challenge 1000000 c "000042"
      (DeliveryFailed "NXS_MSG_UNAVAILABLE")) as H. vm_compute in E. injection E as <- <-. exact H.
  - apply rtc_once. eapply (otp_persist _ _ _ _ _ demo_failed 1%N 8%N 500000 "VERIFY_PHONE" "+15551234567" "000043" demo_issue [] [] false).
    + vm_compute. intros H. apply list_elem_of_singleton in H. discriminate.
    + done.
    + by vm_compute.
Qed.
