(* ===== verification/AuthTokens.v ===== *)
(** * AuthTokens: refresh and access tokens

    [domain/auth/tokens.py]. A refresh token is the organization in base32hex, a point and
    random text; the server keeps its SHA-256. An access token is a signed set of claims:
    PyJWT, SHA-256, the parser of UUIDs and the random source are a library of functions
    with the laws the proofs use. *)

From S2P Require Import Prelude.
From S2P Require Import PyText.
From S2P Require Import Errors.
From S2P Require Import Conditions.
From S2P Require Import ScheduleSpec.
From S2P Require Import Calendar.
From S2P Require Import Store.
From S2P Require Import Identity.
From S2P Require Import IdentityLaws.

(** ** The library *)

(** [token_urlsafe n]: the text of the [n]-th draw of [secrets.token_urlsafe(48)];
    [jwt_encode payload kid] signs with the key [kid] under the header of
    [issue_access_token]; [jwt_decode kid issuer audience token] checks the signature, the
    issuer, the audience and that the required claims are present. *)
Class AuthLibrary : Type := {
  sha256_hex : string → string;
  token_urlsafe : nat → string;
  argon2_hash : nat → string → string;
  argon2_verify : string → string → bool;
  uuid_of_text : string → option uuid;
  jwt_encode : list (string * json) → string → string;
  jwt_header : string → option (list (string * json));
  jwt_decode : string → string → string → string → option (list (string * json));
}.

Definition REQUIRED_CLAIMS : list string := ["exp"; "iat"; "nbf"; "sub"; "org"; "sid"; "jti"].

(** The claims the platform signs are texts and integers. *)
Definition simple (v : json) : bool := match v with JStr _ | JInt _ => true | _ => false end.

Class AuthLaws (L : AuthLibrary) : Prop := {
  sha256_injective : ∀ s t, sha256_hex s = sha256_hex t → s = t;
  draws_distinct : ∀ n m, token_urlsafe n = token_urlsafe m → n = m;
}.

Class JwtLaws (L : AuthLibrary) : Prop := {
  uuid_of_str : ∀ u, (u < 2 ^ 128)%N → uuid_of_text (uuid_str u) = Some u;
  jwt_header_encode : ∀ payload kid, Forall (λ c, simple c.2) payload →
    ∃ h, jwt_header (jwt_encode payload kid) = Some h ∧
         assoc "kid" h = Some (JStr kid) ∧ assoc "typ" h = Some (JStr "access");
  jwt_decode_encode : ∀ payload kid issuer audience, Forall (λ c, simple c.2) payload →
    assoc "iss" payload = Some (JStr issuer) → assoc "aud" payload = Some (JStr audience) →
    Forall (λ k, is_Some (assoc k payload)) REQUIRED_CLAIMS →
    jwt_decode kid issuer audience (jwt_encode payload kid) = Some payload;
}.

(** ** Base32hex *)

Definition b32_digit (n : N) : ascii := ascii_of_N (if (n <? 10)%N then 48 + n else 55 + n).

(** The last [k] digits of a number, the most significant first. *)
Fixpoint b32_digits (k : nat) (n : N) : string :=
  match k with
  | O => EmptyString
  | S k => String (b32_digit (n / 32 ^ N.of_nat k mod 32)) (b32_digits k n)
  end.

Definition b32_value (c : ascii) : option N :=
  if between "0" "9" c then Some (N_of_ascii c - 48)%N
  else if between "A" "V" c then Some (N_of_ascii c - 55)%N else None.

Fixpoint b32_number (acc : N) (s : string) : option N :=
  match s with
  | EmptyString => Some acc
  | String c s => v ← b32_value c; b32_number (acc * 32 + v) s
  end.

(** [str.upper], where the sharp s has two letters. *)
Fixpoint upper_text (s : string) : string :=
  match s with
  | EmptyString => EmptyString
  | String c s =>
      if (N_of_ascii c =? 223)%N then String "S" (String "S" (upper_text s)) else String (upper_char c) (upper_text s)
  end.

Fixpoint pads (n : nat) : string := match n with O => EmptyString | S n => String "=" (pads n) end.

(** [uuid.UUID(bytes=base64.b32hexdecode(padded))]: 16 bytes are 26 digits and six pads, of
    whose 130 bits the last two are dropped; every other text raises. *)
Definition uuid_of_b32 (prefix : string) : option uuid :=
  let padded := upper_text prefix +:+ pads (Z.to_nat (- slen prefix mod 8)) in
  let data := rstrip_char "=" padded in
  if (slen padded =? 32) && (slen data =? 26) then v ← b32_number 0 data; Some (v / 4)%N else None.

(** ** Refresh tokens *)

Record RefreshTokenParts : Type := mkParts {
  tp_organization_id : uuid;
  tp_token_hash : string;
}.

(** [token.split(".", 1)] of a token with a point *)
Fixpoint split_point (s : string) : option (string * string) :=
  match s with
  | EmptyString => None
  | String c s =>
      if Ascii.eqb c "." then Some (EmptyString, s) else '(a, b) ← split_point s; Some (String c a, b)
  end.

Definition empty_text (s : string) : bool := String.eqb s EmptyString.

Section tokens.
Context {L : AuthLibrary}.

Definition new_refresh_token (organization_id : uuid) (random : string) : string :=
  lower (b32_digits 26 (4 * organization_id)) +:+ "." +:+ random.

Definition hash_refresh_token (token : string) : string := sha256_hex token.

(** [None]: [TokenValidationError]. *)
Definition parse_refresh_token (token : string) : option RefreshTokenParts :=
  if 256 <? slen token then None
  else
    match split_point token with
    | None => None
    | Some (prefix, rest) =>
        if empty_text prefix || empty_text rest then None
        else
          organization_id ← uuid_of_b32 prefix;
          Some (mkParts organization_id (hash_refresh_token token))
    end.

(** ** Access tokens *)

Record AccessClaims : Type := mkClaims {
  cl_subject : uuid;
  cl_organization_id : uuid;
  cl_session_id : uuid;
  cl_jti : uuid;
  cl_issued_at : Z;
  cl_expires_at : Z;
}.

Record TokenService : Type := mkTokenService {
  ts_issuer : string;
  ts_audience : string;
  ts_ttl : Z;
  ts_skew : Z;
  ts_signing_kid : string;
  ts_verification_kids : list string;
}.

(** PyJWT writes a datetime as whole seconds. *)
Definition issue_access_token (ts : TokenService) (subject organization_id session_id jti : uuid) (now : Z) : string :=
  jwt_encode
    [("iss", JStr (ts_issuer ts)); ("aud", JStr (ts_audience ts)); ("sub", JStr (uuid_str subject));
     ("org", JStr (uuid_str organization_id)); ("sid", JStr (uuid_str session_id)); ("jti", JStr (uuid_str jti));
     ("iat", JInt (now / SECOND)); ("nbf", JInt (now / SECOND)); ("exp", JInt ((now + ts_ttl ts * SECOND) / SECOND))]
    (ts_signing_kid ts).

(** [_require_time_claim]; of the numeric claims the integers, which is what
    [issue_access_token] signs. *)
Definition require_time_claim (ts : TokenService) (payload : list (string * json)) (name : string) (now : Z) : option Z :=
  match assoc name payload with
  | Some (JInt raw) =>
      let bound := raw * SECOND in
      let skew := ts_skew ts * SECOND in
      if String.eqb name "exp" && (bound + skew <? now) then None
      else if (String.eqb name "nbf" || String.eqb name "iat") && (now <? bound - skew) then None
      else Some bound
  | _ => None
  end.

Definition uuid_claim (payload : list (string * json)) (name : string) : option uuid :=
  match assoc name payload with Some (JStr s) => uuid_of_text s | _ => None end.

Definition verify_access_token (ts : TokenService) (token : string) (now : Z) : option AccessClaims :=
  if empty_text token || (16384 <? slen token) then None
  else
    unverified ← jwt_header token;
    match assoc "kid" unverified, assoc "typ" unverified with
    | Some (JStr (String _ _ as kid)), Some (JStr typ) =>
        if negb (String.eqb typ "access") then None
        else if negb (bool_decide (kid ∈ ts_verification_kids ts)) then None
        else
          payload ← jwt_decode kid (ts_issuer ts) (ts_audience ts) token;
          issued_at ← require_time_claim ts payload "iat" now;
          expires_at ← require_time_claim ts payload "exp" now;
          _ ← require_time_claim ts payload "nbf" now;
          subject ← uuid_claim payload "sub";
          organization_id ← uuid_claim payload "org";
          session_id ← uuid_claim payload "sid";
          jti ← uuid_claim payload "jti";
          Some (mkClaims subject organization_id session_id jti issued_at expires_at)
    | _, _ => None
    end.
End tokens.

(** ** Base32hex is read back *)

Definition digit_ok (n : N) : bool :=
  Ascii.eqb (upper_char (lower_char (b32_digit n))) (b32_digit n) &&
  negb (N_of_ascii (lower_char (b32_digit n)) =? 223)%N &&
  negb (Ascii.eqb (lower_char (b32_digit n)) ".") && negb (Ascii.eqb (b32_digit n) "=") &&
  bool_decide (b32_value (b32_digit n) = Some n).

Lemma digits_ok n : (n < 32)%N → digit_ok n = true.
Proof.
  intros Hn. assert (forallb (λ k, digit_ok (N.of_nat k)) (seq 0 32) = true) as Hall by (vm_compute; reflexivity).
  rewrite forallb_forall in Hall. rewrite <- (N2Nat.id n). apply Hall, in_seq. lia.
Qed.

Lemma b32_digits_length k n : slen (b32_digits k n) = Z.of_nat k.
Proof. induction k as [|k IH]; [done|]. unfold slen in *. cbn [b32_digits String.length]. lia. Qed.

Lemma slen_lower s : slen (lower s) = slen s.
Proof. unfold slen. f_equal. induction s as [|c s IH]; [done|]. cbn. f_equal. exact IH. Qed.

Ltac digit k n := pose proof (digits_ok (n / 32 ^ N.of_nat k mod 32)%N ltac:(apply N.mod_lt; lia)) as Hdig;
  unfold digit_ok in Hdig; booleans.

Lemma b32_upper k n : upper_text (lower (b32_digits k n)) = b32_digits k n.
Proof.
  induction k as [|k IH]; [done|]. cbn [b32_digits lower map_chars upper_text]. digit k n.
  match goal with H : (_ =? 223)%N = false |- _ => rewrite H end. f_equal; [|exact IH]. by apply Ascii.eqb_eq.
Qed.

Lemma b32_split k n rest : split_point (lower (b32_digits k n) +:+ "." +:+ rest) = Some (lower (b32_digits k n), rest).
Proof.
  induction k as [|k IH]; [done|]. cbn [b32_digits lower map_chars]. rewrite append_cons. cbn [split_point]. digit k n.
  match goal with H : Ascii.eqb _ "." = false |- _ => rewrite H end. by rewrite IH.
Qed.

Lemma rstrip_pads k n m : rstrip_char "=" (b32_digits k n +:+ pads m) = b32_digits k n.
Proof.
  induction k as [|k IH]; cbn [b32_digits].
  - induction m as [|m IH]; [done|]. cbn [pads]. change (rstrip_char "=" (String "=" (pads m)) = EmptyString). cbn [rstrip_char]. change (EmptyString +:+ pads m) with (pads m) in IH. by rewrite IH.
  - rewrite append_cons. cbn [rstrip_char]. rewrite IH. digit k n. match goal with H : Ascii.eqb _ "=" = false |- _ => rewrite H end.
    by destruct (b32_digits k n).
Qed.

Lemma b32_number_digits k acc n : b32_number acc (b32_digits k n) = Some (acc * 32 ^ N.of_nat k + n mod 32 ^ N.of_nat k)%N.
Proof.
  revert acc. induction k as [|k IH]; intros acc.
  - cbn [b32_digits b32_number]. rewrite N.pow_0_r, N.mod_1_r. f_equal. lia.
  - cbn [b32_digits b32_number]. digit k n. match goal with H : b32_value _ = _ |- _ => rewrite H end. cbn [mbind option_bind].
    rewrite IH. f_equal. rewrite Nat2N.inj_succ, N.pow_succ_r'. 
    rewrite (N.mul_comm 32 (32 ^ N.of_nat k)), N.Div0.mod_mul_r. lia.
Qed.

Lemma slen_pads n : slen (pads n) = Z.of_nat n.
Proof. induction n as [|n IH]; [done|]. unfold slen in *. cbn [pads String.length]. lia. Qed.

Lemma uuid_of_b32_encode u : (u < 2 ^ 128)%N → uuid_of_b32 (lower (b32_digits 26 (4 * u))) = Some u.
Proof.
  intros Hu. unfold uuid_of_b32. rewrite slen_lower, b32_digits_length, b32_upper.
  change (Z.to_nat (- Z.of_nat 26 mod 8)) with 6%nat. rewrite rstrip_pads, slen_app, b32_digits_length, slen_pads.
  cbn [andb]. change (Z.of_nat 26 + Z.of_nat 6 =? 32) with true. change (Z.of_nat 26 =? 26) with true. cbn [andb].
  rewrite b32_number_digits. cbn [mbind option_bind]. rewrite N.mul_0_l, N.add_0_l.
  rewrite N.mod_small by (change (32 ^ N.of_nat 26)%N with (4 * 2 ^ 128)%N; lia).
  f_equal. rewrite N.mul_comm. by apply N.div_mul.
Qed.

Section laws.
Context {L : AuthLibrary} {Laws : AuthLaws L}.

Lemma token_hash_draw org org' n m :
  hash_refresh_token (new_refresh_token org' (token_urlsafe m)) =
    hash_refresh_token (new_refresh_token org (token_urlsafe n)) → m = n.
Proof.
  intros H%sha256_injective. unfold new_refresh_token in H. apply (f_equal split_point) in H. rewrite !b32_split in H.
  injection H as _ H. by apply draws_distinct.
Qed.

(** C37. A refresh token is read back as the organization it was made for and the hash the
    server stores: [parse_refresh_token] after [new_refresh_token]. Two tokens with one
    hash are of one draw. *)
Theorem refresh_token_roundtrip org n :
  (org < 2 ^ 128)%N → slen (token_urlsafe n) = 64 →
  parse_refresh_token (new_refresh_token org (token_urlsafe n)) =
    Some (mkParts org (hash_refresh_token (new_refresh_token org (token_urlsafe n)))) ∧
  (∀ org' m, hash_refresh_token (new_refresh_token org' (token_urlsafe m)) =
     hash_refresh_token (new_refresh_token org (token_urlsafe n)) → m = n).
Proof.
  intros Hu Hn. split; [|intros org' m; apply token_hash_draw]. unfold new_refresh_token.
  unfold parse_refresh_token. rewrite slen_app, slen_lower, b32_digits_length.
  change ("." +:+ token_urlsafe n) with (String "." EmptyString +:+ token_urlsafe n).
  rewrite slen_app, Hn. change (256 <? Z.of_nat 26 + (slen "." + 64)) with false. cbn iota.
  rewrite b32_split.
  assert (empty_text (lower (b32_digits 26 (4 * org))) = false) as ->.
  { apply String.eqb_neq. intros H0%(f_equal slen). by rewrite slen_lower, b32_digits_length in H0. }
  assert (empty_text (token_urlsafe n) = false) as ->. { apply String.eqb_neq. intros H0. by rewrite H0 in Hn. }
  cbn [orb]. by rewrite uuid_of_b32_encode.
Qed.

End laws.

Section access.
Context {L : AuthLibrary} {Laws : JwtLaws L}.

(** C36. An access token is accepted while it is valid and names whom it was issued for:
    [verify_access_token] after [issue_access_token] yields the subject, the organization,
    the session and the identifier from the second of issue on until the lifetime and the
    tolerated clock skew are over, and nothing after that. *)
Theorem access_token_roundtrip ts subject org session jti now t :
  (subject < 2 ^ 128)%N → (org < 2 ^ 128)%N → (session < 2 ^ 128)%N → (jti < 2 ^ 128)%N →
  ts_signing_kid ts ∈ ts_verification_kids ts → ts_signing_kid ts ≠ EmptyString → 0 ≤ ts_skew ts → now ≤ t →
  0 < slen (issue_access_token ts subject org session jti now) ≤ 16384 →
  verify_access_token ts (issue_access_token ts subject org session jti now) t =
  if t <=? (now + ts_ttl ts * SECOND) / SECOND * SECOND + ts_skew ts * SECOND
  then Some (mkClaims subject org session jti (now / SECOND * SECOND) ((now + ts_ttl ts * SECOND) / SECOND * SECOND))
  else None.
Proof.
  intros H1 H2 H3 H4 Hk Hkid Hskew Ht. unfold verify_access_token, issue_access_token. set (payload := [_; _; _; _; _; _; _; _; _]).
  intros [Hne Hlen]. assert (Forall (λ c, simple c.2) payload) as Hs by (repeat constructor).
  destruct (jwt_header_encode payload (ts_signing_kid ts) Hs) as (h & Hh & Hhk & Hht).
  assert (empty_text (jwt_encode payload (ts_signing_kid ts)) = false) as ->.
  { apply String.eqb_neq. intros E. by rewrite E in Hne. }
  rewrite (proj2 (Z.ltb_ge _ _) Hlen), Hh. cbn [orb mbind option_bind]. rewrite Hhk, Hht. destruct (ts_signing_kid ts) as [|c s] eqn:Ekid; [done|]. rewrite <- Ekid in *.
  change (String.eqb "access" "access") with true. rewrite (bool_decide_eq_true_2 _ Hk). cbn [negb].
  rewrite jwt_decode_encode by (first [exact Hs | reflexivity | repeat constructor; eexists; reflexivity]). cbn [mbind option_bind].
  assert (now / SECOND * SECOND ≤ now) as Hnow. { pose proof (Z.mod_pos_bound now SECOND ltac:(done)). pose proof (Z.div_mod now SECOND ltac:(done)). lia. }
  assert (0 ≤ ts_skew ts * SECOND) by (unfold SECOND; lia).
  change (require_time_claim ts payload "iat" t) with (if t <? now / SECOND * SECOND - ts_skew ts * SECOND then None else Some (now / SECOND * SECOND)).
  change (require_time_claim ts payload "nbf" t) with (if t <? now / SECOND * SECOND - ts_skew ts * SECOND then None else Some (now / SECOND * SECOND)).
  change (require_time_claim ts payload "exp" t) with
    (let e := (now + ts_ttl ts * SECOND) / SECOND * SECOND in if e + ts_skew ts * SECOND <? t then None else Some e). cbv zeta.
  rewrite (proj2 (Z.ltb_ge _ _)) by lia. cbn [mbind option_bind]. rewrite Z.leb_antisym.
  destruct (_ <? t); [done|]. cbn [mbind option_bind negb].
  change (uuid_claim payload "sub") with (uuid_of_text (uuid_str subject)). change (uuid_claim payload "org") with (uuid_of_text (uuid_str org)).
  change (uuid_claim payload "sid") with (uuid_of_text (uuid_str session)). change (uuid_claim payload "jti") with (uuid_of_text (uuid_str jti)).
  by rewrite !uuid_of_str.
Qed.
End access.
