(* ===== verification/Auth.v ===== *)
(** * Auth: users, memberships, sessions and permissions

    [domain/auth/repository.py], [domain/auth/service.py], [domain/auth/state.py],
    [domain/auth/administration.py], the authorization of [domain/auth/rbac.py], the
    password policy of [domain/auth/identity.py] and the gate of
    [domain/auth/ratelimit.py]. The tables of [domain/auth/models.py], the login counters
    and the supplies of identifiers and random text are one world. Row-level security
    confines a tenant transaction to its organization; the users and the catalogue of roles
    are global. *)

From S2P Require Import Prelude.
From S2P Require Import PyText.
From S2P Require Import Errors.
From S2P Require Import Lifecycles.
From S2P Require Import Conditions.
From S2P Require Import ScheduleSpec.
From S2P Require Import Calendar.
From S2P Require Import Normalization.
From S2P Require Import Store.
From S2P Require Import Identity.
From S2P Require Import Resilience.
From S2P Require Import AuthTokens.

Open Scope Z_scope.

(** ** Vocabulary *)

Module AuthError.
Inductive AuthError : Type :=
| ValidationFailedError
| AuthenticationFailedError
| SessionRevokedError
| MembershipRequiredError
| MembershipInactiveError
| MembershipConflictError
| UserConflictError
| UserInactiveError
| MultipleOrganizationsError
| OrganizationInactiveError
| OrganizationNotFoundError
| TenantScopeMismatchError
| PermissionDeniedError
| RateLimitedError
| IntegrityError
| MultipleResultsFound.
#[global] Instance eq_dec : EqDecision AuthError.
Proof. solve_decision. Defined.
End AuthError.
Abbreviation AuthError := AuthError.AuthError.

(** The [code] of the platform's errors. *)
Definition auth_error_code (e : AuthError) : option string :=
  match e with
  | AuthError.ValidationFailedError => Some "NXS_CORE_VALIDATION_FAILED"
  | AuthError.AuthenticationFailedError => Some "NXS_AUTH_CREDENTIALS_REJECTED"
  | AuthError.SessionRevokedError => Some "NXS_AUTH_SESSION_REVOKED"
  | AuthError.MembershipRequiredError => Some "NXS_AUTH_MEMBERSHIP_REQUIRED"
  | AuthError.MembershipInactiveError => Some "NXS_AUTH_MEMBERSHIP_INACTIVE"
  | AuthError.MembershipConflictError => Some "NXS_AUTH_MEMBERSHIP_CONFLICT"
  | AuthError.UserConflictError => Some "NXS_AUTH_USER_CONFLICT"
  | AuthError.UserInactiveError => Some "NXS_AUTH_USER_INACTIVE"
  | AuthError.MultipleOrganizationsError => Some "NXS_AUTH_MULTIPLE_ORGS"
  | AuthError.OrganizationInactiveError => Some "NXS_ORG_INACTIVE"
  | AuthError.OrganizationNotFoundError => Some "NXS_ORG_NOT_FOUND"
  | AuthError.TenantScopeMismatchError => Some "NXS_TENANT_SCOPE_MISMATCH"
  | AuthError.PermissionDeniedError => Some "NXS_CORE_PERMISSION_DENIED"
  | AuthError.RateLimitedError => Some "NXS_CORE_RATE_LIMITED"
  | AuthError.IntegrityError | AuthError.MultipleResultsFound => None
  end.

Module UserStatus.
Inductive UserStatus : Type := ACTIVE | SUSPENDED.
#[global] Instance eq_dec : EqDecision UserStatus.
Proof. solve_decision. Defined.
End UserStatus.
Abbreviation UserStatus := UserStatus.UserStatus.

Module MembershipStatus.
Inductive MembershipStatus : Type := ACTIVE | SUSPENDED | REVOKED.
#[global] Instance eq_dec : EqDecision MembershipStatus.
Proof. solve_decision. Defined.
End MembershipStatus.
Abbreviation MembershipStatus := MembershipStatus.MembershipStatus.

Module RoleAssignmentStatus.
Inductive RoleAssignmentStatus : Type := ACTIVE | SUSPENDED.
#[global] Instance eq_dec : EqDecision RoleAssignmentStatus.
Proof. solve_decision. Defined.
End RoleAssignmentStatus.
Abbreviation RoleAssignmentStatus := RoleAssignmentStatus.RoleAssignmentStatus.

(** ** The tables *)

Record UserRecord : Type := mkUser {
  us_id : uuid;
  us_email : string;
  us_email_verified : bool;
  us_display_name : option string;
  us_status : UserStatus;
  us_version : Z;
  us_created_at : Z;
  us_updated_at : Z;
}.

(** Its timestamps are never read. *)
Record UserCredentialRecord : Type := mkCredential {
  uc_user_id : uuid;
  uc_credential_version : Z;
  uc_algorithm : string;
  uc_parameters : list (string * Z);
  uc_password_hash : string;
}.

Record MembershipRecord : Type := mkMembership {
  mb_id : uuid;
  mb_organization_id : uuid;
  mb_user_id : uuid;
  mb_status : MembershipStatus;
  mb_created_at : Z;
  mb_updated_at : Z;
  mb_revoked_at : option Z;
}.

Record RefreshSessionRecord : Type := mkSession {
  rs_id : uuid;
  rs_organization_id : uuid;
  rs_user_id : uuid;
  rs_token_hash : string;
  rs_previous_token_hash : option string;
  rs_generation : Z;
  rs_expires_at : Z;
  rs_revoked_at : option Z;
  rs_created_at : Z;
  rs_updated_at : Z;
  rs_last_used_at : option Z;
}.

Record RoleAssignmentRecord : Type := mkAssignment {
  ra_id : uuid;
  ra_organization_id : uuid;
  ra_user_id : uuid;
  ra_role_id : uuid;
  ra_status : RoleAssignmentStatus;
  ra_created_at : Z;
  ra_updated_at : Z;
}.

Record RoleRecord : Type := mkRole { ro_id : uuid; ro_role_key : string }.
Record PermissionRecord : Type := mkPermission { pm_id : uuid; pm_permission_key : string }.
Record RolePermissionRecord : Type := mkRolePermission { rp_role_id : uuid; rp_permission_id : uuid }.

Record AuthDB : Type := mkAuthDB {
  ad_users : list UserRecord;
  ad_credentials : list UserCredentialRecord;
  ad_memberships : list MembershipRecord;
  ad_sessions : list RefreshSessionRecord;
  ad_assignments : list RoleAssignmentRecord;
  ad_roles : list RoleRecord;
  ad_permissions : list PermissionRecord;
  ad_role_permissions : list RolePermissionRecord;
  ad_organizations : list (uuid * OrganizationStatus);
}.

Definition set_ad_users (v : list UserRecord) (d : AuthDB) : AuthDB :=
  mkAuthDB v (ad_credentials d) (ad_memberships d) (ad_sessions d) (ad_assignments d) (ad_roles d) (ad_permissions d)
    (ad_role_permissions d) (ad_organizations d).
Definition set_ad_credentials (v : list UserCredentialRecord) (d : AuthDB) : AuthDB :=
  mkAuthDB (ad_users d) v (ad_memberships d) (ad_sessions d) (ad_assignments d) (ad_roles d) (ad_permissions d)
    (ad_role_permissions d) (ad_organizations d).
Definition set_ad_memberships (v : list MembershipRecord) (d : AuthDB) : AuthDB :=
  mkAuthDB (ad_users d) (ad_credentials d) v (ad_sessions d) (ad_assignments d) (ad_roles d) (ad_permissions d)
    (ad_role_permissions d) (ad_organizations d).
Definition set_ad_sessions (v : list RefreshSessionRecord) (d : AuthDB) : AuthDB :=
  mkAuthDB (ad_users d) (ad_credentials d) (ad_memberships d) v (ad_assignments d) (ad_roles d) (ad_permissions d)
    (ad_role_permissions d) (ad_organizations d).
Definition set_ad_assignments (v : list RoleAssignmentRecord) (d : AuthDB) : AuthDB :=
  mkAuthDB (ad_users d) (ad_credentials d) (ad_memberships d) (ad_sessions d) v (ad_roles d) (ad_permissions d)
    (ad_role_permissions d) (ad_organizations d).

(** [aw_limiter] is the counter of [LocalWindowRateLimiter], [aw_cache] those of the shared
    cache, of which the [n]-th call succeeds when [aw_cache_up n]. *)
Record AuthWorld : Type := mkAuthWorld {
  aw_db : AuthDB;
  aw_clock : nat → Z;
  aw_reads : nat;
  aw_next_uuid : uuid;
  aw_draws : nat;
  aw_limiter : counts;
  aw_cache : list (string * Z);
  aw_cache_up : nat → bool;
  aw_cache_calls : nat;
}.

Definition set_aw_db (v : AuthDB) (w : AuthWorld) : AuthWorld :=
  mkAuthWorld v (aw_clock w) (aw_reads w) (aw_next_uuid w) (aw_draws w) (aw_limiter w) (aw_cache w) (aw_cache_up w) (aw_cache_calls w).
Definition set_aw_reads (v : nat) (w : AuthWorld) : AuthWorld :=
  mkAuthWorld (aw_db w) (aw_clock w) v (aw_next_uuid w) (aw_draws w) (aw_limiter w) (aw_cache w) (aw_cache_up w) (aw_cache_calls w).
Definition set_aw_next_uuid (v : uuid) (w : AuthWorld) : AuthWorld :=
  mkAuthWorld (aw_db w) (aw_clock w) (aw_reads w) v (aw_draws w) (aw_limiter w) (aw_cache w) (aw_cache_up w) (aw_cache_calls w).
Definition set_aw_draws (v : nat) (w : AuthWorld) : AuthWorld :=
  mkAuthWorld (aw_db w) (aw_clock w) (aw_reads w) (aw_next_uuid w) v (aw_limiter w) (aw_cache w) (aw_cache_up w) (aw_cache_calls w).
Definition set_aw_limiter (v : counts) (w : AuthWorld) : AuthWorld :=
  mkAuthWorld (aw_db w) (aw_clock w) (aw_reads w) (aw_next_uuid w) (aw_draws w) v (aw_cache w) (aw_cache_up w) (aw_cache_calls w).
Definition set_aw_cache (v : list (string * Z)) (calls : nat) (w : AuthWorld) : AuthWorld :=
  mkAuthWorld (aw_db w) (aw_clock w) (aw_reads w) (aw_next_uuid w) (aw_draws w) (aw_limiter w) v (aw_cache_up w) calls.

(** ** Effects *)

Definition AuthM (T : Type) : Type := AuthWorld → result AuthError T * AuthWorld.

#[export] Instance AuthM_ret : MRet AuthM := λ T a w, (Ok a, w).
#[export] Instance AuthM_bind : MBind AuthM := λ T U f m w,
  match m w with (Ok a, w) => f a w | (Err e, w) => (Err e, w) end.

Definition araise {T} (e : AuthError) : AuthM T := λ w, (Err e, w).
Definition alift {T} (r : result AuthError T) : AuthM T := λ w, (r, w).
Definition agets {T} (f : AuthDB → T) : AuthM T := λ w, (Ok (f (aw_db w)), w).
Definition amodify (f : AuthDB → AuthDB) : AuthM unit := λ w, (Ok tt, set_aw_db (f (aw_db w)) w).
Definition anow : AuthM Z := λ w, (Ok (aw_clock w (aw_reads w)), set_aw_reads (S (aw_reads w)) w).
Definition auuid : AuthM uuid := λ w, (Ok (aw_next_uuid w), set_aw_next_uuid (N.succ (aw_next_uuid w)) w).

(** [try: m except: h(e)] *)
Definition atry {T} (m : AuthM T) (h : AuthError → AuthM T) : AuthM T := λ w,
  match m w with (Ok a, w) => (Ok a, w) | (Err e, w) => h e w end.

(** A unit of work: the tables are kept when it returns and restored when it raises. *)
Definition atransaction {T} (m : AuthM T) : AuthM T := λ w,
  match m w with (Ok a, w') => (Ok a, w') | (Err e, w') => (Err e, set_aw_db (aw_db w) w') end.

(** [scalars().one_or_none()] *)
Definition one_or_none {T} (l : list T) : AuthM (option T) :=
  match l with
  | [] => mret None
  | [x] => mret (Some x)
  | _ => araise AuthError.MultipleResultsFound
  end.

(** ** [UserRepository] and [CredentialRepository] *)

Definition user_by_email (email : string) : AuthM (option UserRecord) :=
  agets (λ d, List.find (λ u, String.eqb (us_email u) email) (ad_users d)).

Definition user_by_id (user_id : uuid) : AuthM (option UserRecord) :=
  agets (λ d, List.find (λ u, N.eqb (us_id u) user_id) (ad_users d)).

Definition insert_user (user_id : uuid) (email : string) (display_name : option string) (email_verified : bool)
    : AuthM UserRecord :=
  now ← anow;
  let record := mkUser user_id email email_verified display_name UserStatus.ACTIVE 1 now now in
  users ← agets ad_users;
  if existsb (λ u, String.eqb (us_email u) email || N.eqb (us_id u) user_id) users
  then araise AuthError.UserConflictError
  else _ ← amodify (set_ad_users (users ++ [record])); mret record.

Definition set_suspended (user_id : uuid) (suspended : bool) : AuthM unit :=
  now ← anow;
  amodify (λ d, set_ad_users (update_where (λ u, N.eqb (us_id u) user_id)
    (λ u, mkUser (us_id u) (us_email u) (us_email_verified u) (us_display_name u)
            (if suspended then UserStatus.SUSPENDED else UserStatus.ACTIVE) (us_version u + 1) (us_created_at u) now)
    (ad_users d)) d).

(** [ORDER BY credential_version DESC] *)
Definition newer_credential (a b : UserCredentialRecord) : Prop := uc_credential_version b ≤ uc_credential_version a.
#[export] Instance newer_credential_dec : RelDecision newer_credential := λ a b, Z_le_dec _ _.

Definition get_latest (user_id : uuid) : AuthM (option UserCredentialRecord) :=
  agets (λ d, hd_error (merge_sort newer_credential (List.filter (λ c, N.eqb (uc_user_id c) user_id) (ad_credentials d)))).

Definition insert_credential (record : UserCredentialRecord) : AuthM unit :=
  d ← agets (λ d, d);
  if existsb (λ c, N.eqb (uc_user_id c) (uc_user_id record) && (uc_credential_version c =? uc_credential_version record)) (ad_credentials d)
     || negb (existsb (λ u, N.eqb (us_id u) (uc_user_id record)) (ad_users d))
  then araise AuthError.IntegrityError
  else amodify (set_ad_credentials (ad_credentials d ++ [record])).

(** ** [MembershipRepository] *)

Definition membership_active (m : MembershipRecord) : bool := bool_decide (mb_status m = MembershipStatus.ACTIVE).

Definition older_membership (a b : MembershipRecord) : Prop := mb_created_at a ≤ mb_created_at b.
#[export] Instance older_membership_dec : RelDecision older_membership := λ a b, Z_le_dec _ _.

(** In the principal's own session: the memberships of the user in every organization. *)
Definition memberships_for_user (user_id : uuid) : AuthM (list MembershipRecord) :=
  agets (λ d, merge_sort older_membership (List.filter (λ m, N.eqb (mb_user_id m) user_id) (ad_memberships d))).

Definition is_member (org user_id : uuid) (m : MembershipRecord) : bool :=
  N.eqb (mb_organization_id m) org && N.eqb (mb_user_id m) user_id.

Definition for_user_in_organization (org user_id : uuid) : AuthM (option MembershipRecord) :=
  agets (λ d, List.find (is_member org user_id) (ad_memberships d)).

(** [tenant]: the organization of the transaction. *)
Definition insert_membership (tenant membership_id organization_id user_id : uuid) : AuthM MembershipRecord :=
  if negb (N.eqb organization_id tenant) then araise AuthError.TenantScopeMismatchError
  else
    now ← anow;
    let record := mkMembership membership_id organization_id user_id MembershipStatus.ACTIVE now now None in
    d ← agets (λ d, d);
    if existsb (λ m, is_member organization_id user_id m || N.eqb (mb_id m) membership_id) (ad_memberships d)
       || negb (existsb (λ u, N.eqb (us_id u) user_id) (ad_users d))
       || negb (existsb (λ o, N.eqb o.1 organization_id) (ad_organizations d))
    then araise AuthError.MembershipConflictError
    else _ ← amodify (set_ad_memberships (ad_memberships d ++ [record])); mret record.

Definition set_membership_status (org membership_id : uuid) (status : MembershipStatus) : AuthM unit :=
  now ← anow;
  later ← (if bool_decide (status = MembershipStatus.REVOKED) then t ← anow; mret (Some t) else mret None);
  amodify (λ d, set_ad_memberships (update_where (λ m, N.eqb (mb_organization_id m) org && N.eqb (mb_id m) membership_id)
    (λ m, mkMembership (mb_id m) (mb_organization_id m) (mb_user_id m) status (mb_created_at m) now later)
    (ad_memberships d)) d).

(** ** [RefreshSessionRepository] *)

Definition has_hash (org : uuid) (h : string) (s : RefreshSessionRecord) : bool :=
  N.eqb (rs_organization_id s) org && String.eqb (rs_token_hash s) h.

Definition had_hash (org : uuid) (h : string) (s : RefreshSessionRecord) : bool :=
  N.eqb (rs_organization_id s) org && bool_decide (rs_previous_token_hash s = Some h).

Definition is_session (org id : uuid) (s : RefreshSessionRecord) : bool :=
  N.eqb (rs_organization_id s) org && N.eqb (rs_id s) id.

Definition live (s : RefreshSessionRecord) : bool := match rs_revoked_at s with None => true | Some _ => false end.

Definition by_token_hash (org : uuid) (h : string) : AuthM (option RefreshSessionRecord) :=
  rows ← agets (λ d, List.filter (has_hash org h) (ad_sessions d)); one_or_none rows.

Definition by_previous_token_hash (org : uuid) (h : string) : AuthM (option RefreshSessionRecord) :=
  rows ← agets (λ d, List.filter (had_hash org h) (ad_sessions d)); one_or_none rows.

Definition session_by_id (org id : uuid) : AuthM (option RefreshSessionRecord) :=
  agets (λ d, List.find (is_session org id) (ad_sessions d)).

(** The primary key, [uq_refresh_sessions_token_hash] and the reference to the user. *)
Definition insert_session (org session_id user_id : uuid) (token_hash : string) (expires_at : Z) : AuthM unit :=
  created ← anow; updated ← anow;
  d ← agets (λ d, d);
  if existsb (λ s, N.eqb (rs_id s) session_id || String.eqb (rs_token_hash s) token_hash) (ad_sessions d)
     || negb (existsb (λ u, N.eqb (us_id u) user_id) (ad_users d))
  then araise AuthError.IntegrityError
  else amodify (set_ad_sessions (ad_sessions d ++ [mkSession session_id org user_id token_hash None 1 expires_at None created updated None])).

Definition rotatable (org session_id : uuid) (expected : string) (s : RefreshSessionRecord) : bool :=
  is_session org session_id s && String.eqb (rs_token_hash s) expected && live s.

Definition rotated (expected new : string) (now : Z) (s : RefreshSessionRecord) : RefreshSessionRecord :=
  mkSession (rs_id s) (rs_organization_id s) (rs_user_id s) new (Some expected) (rs_generation s + 1) (rs_expires_at s)
    (rs_revoked_at s) (rs_created_at s) now (Some now).

Definition rotate (org session_id : uuid) (expected new : string) (now : Z) : AuthM bool :=
  rows ← agets ad_sessions;
  if negb (existsb (rotatable org session_id expected) rows) then mret false
  else if existsb (λ s, negb (rotatable org session_id expected s) && String.eqb (rs_token_hash s) new) rows
  then araise AuthError.IntegrityError
  else _ ← amodify (set_ad_sessions (update_where (rotatable org session_id expected) (rotated expected new now) rows)); mret true.

Definition revoked_session (revoked now : Z) (s : RefreshSessionRecord) : RefreshSessionRecord :=
  mkSession (rs_id s) (rs_organization_id s) (rs_user_id s) (rs_token_hash s) (rs_previous_token_hash s) (rs_generation s)
    (rs_expires_at s) (Some revoked) (rs_created_at s) now (rs_last_used_at s).

Definition revoke_session (org session_id : uuid) : AuthM unit :=
  revoked ← anow; now ← anow;
  amodify (λ d, set_ad_sessions (update_where (λ s, is_session org session_id s && live s) (revoked_session revoked now)
    (ad_sessions d)) d).

(** ** [RoleAssignmentRepository] and [OrganizationScopeProbe] *)

Definition assign (assignment_id organization_id user_id role_id : uuid) : AuthM RoleAssignmentRecord :=
  now ← anow;
  let record := mkAssignment assignment_id organization_id user_id role_id RoleAssignmentStatus.ACTIVE now now in
  d ← agets (λ d, d);
  if existsb (λ a, N.eqb (ra_organization_id a) organization_id && N.eqb (ra_user_id a) user_id && N.eqb (ra_role_id a) role_id
                   || N.eqb (ra_id a) assignment_id) (ad_assignments d)
     || negb (existsb (λ u, N.eqb (us_id u) user_id) (ad_users d))
     || negb (existsb (λ r, N.eqb (ro_id r) role_id) (ad_roles d))
  then araise AuthError.MembershipConflictError
  else _ ← amodify (set_ad_assignments (ad_assignments d ++ [record])); mret record.

Definition set_assignment_status (org assignment_id : uuid) (status : RoleAssignmentStatus) : AuthM unit :=
  now ← anow;
  amodify (λ d, set_ad_assignments (update_where (λ a, N.eqb (ra_organization_id a) org && N.eqb (ra_id a) assignment_id)
    (λ a, mkAssignment (ra_id a) (ra_organization_id a) (ra_user_id a) (ra_role_id a) status (ra_created_at a) now)
    (ad_assignments d)) d).

Definition role_id_by_key (role_key : string) : AuthM (option uuid) :=
  agets (λ d, option_map ro_id (List.find (λ r, String.eqb (ro_role_key r) role_key) (ad_roles d))).

Definition current_status (org : uuid) : AuthM OrganizationStatus :=
  status ← agets (λ d, List.find (λ o : uuid * OrganizationStatus, N.eqb o.1 org) (ad_organizations d));
  match status with
  | Some o => mret o.2
  | None => araise AuthError.OrganizationNotFoundError
  end.

(** ** Authorization *)

(** [_CATALOG_SQL]: the permissions of the user's active assignments in the organization. *)
Definition permissions_for (org user_id : uuid) : AuthM (list string) :=
  agets (λ d,
    ra ← List.filter (λ a, N.eqb (ra_organization_id a) org && N.eqb (ra_user_id a) user_id &&
                           bool_decide (ra_status a = RoleAssignmentStatus.ACTIVE)) (ad_assignments d);
    r ← List.filter (λ r, N.eqb (ro_id r) (ra_role_id ra)) (ad_roles d);
    rp ← List.filter (λ rp, N.eqb (rp_role_id rp) (ro_id r)) (ad_role_permissions d);
    p ← List.filter (λ p, N.eqb (pm_id p) (rp_permission_id rp)) (ad_permissions d);
    [pm_permission_key p]).

Definition has_permission (org user_id : uuid) (permission : string) : AuthM bool :=
  granted ← permissions_for org user_id; mret (bool_decide (permission ∈ granted)).

Definition require_permission (org user_id : uuid) (permission : string) : AuthM unit :=
  ok ← has_permission org user_id permission;
  if ok : bool then mret tt else araise AuthError.PermissionDeniedError.

Definition MEMBERSHIP_MANAGE : string := "membership:manage".

(** ** Values of the services *)

Record AuthSettings : Type := mkAuthSettings {
  as_access_token_ttl_seconds : Z;
  as_refresh_token_ttl_seconds : Z;
  as_min_password_length : Z;
  as_max_password_length : Z;
  as_limits : LoginLimits;
  as_cache_backend : bool;
  as_parameters : list (string * Z);
}.

Record LoginRequest : Type := mkLogin {
  lg_email : string;
  lg_password : string;
  lg_organization_id : option uuid;
}.

Record RegistrationDraft : Type := mkDraft {
  rd_email : string;
  rd_password : string;
  rd_display_name : option string;
}.

Record AuthSession : Type := mkAuthSession {
  se_user_id : uuid;
  se_organization_id : uuid;
  se_session_id : uuid;
  se_access_token : string;
  se_refresh_token : string;
  se_expires_in : Z;
}.

Record Principal : Type := mkPrincipal {
  pr_user_id : uuid;
  pr_session_id : uuid;
  pr_organization_id : uuid;
}.

Record SessionView : Type := mkSessionView {
  sv_user_id : uuid;
  sv_email : string;
  sv_email_verified : bool;
  sv_display_name : option string;
  sv_organization_id : uuid;
  sv_session_id : uuid;
}.

(** [validate_password] *)
Definition password_acceptable (cfg : AuthSettings) (value : string) : bool :=
  negb ((slen value <? as_min_password_length cfg) || (as_max_password_length cfg <? slen value)) && negb (has_char control value).

Definition validate_password (cfg : AuthSettings) (value : string) : result AuthError string :=
  if password_acceptable cfg value then Ok value else Err AuthError.ValidationFailedError.

(** ** [RateLimitGate] *)

Section gate.
Context (cfg : AuthSettings).

(** A call of the cache's client; [None] when it raises. *)
Definition cache_call {T} (f : list (string * Z) → T * list (string * Z)) : AuthM (option T) := λ w,
  if aw_cache_up w (aw_cache_calls w)
  then let '(a, c) := f (aw_cache w) in (Ok (Some a), set_aw_cache c (S (aw_cache_calls w)) w)
  else (Ok None, set_aw_cache (aw_cache w) (S (aw_cache_calls w)) w).

Definition cache_put (k : string) (v : Z) (c : list (string * Z)) : list (string * Z) :=
  (k, v) :: List.filter (λ e, negb (String.eqb e.1 k)) c.

(** [CacheRateLimiter._store_key] *)
Definition store_key (key : string) : AuthM string :=
  now ← anow;
  mret ("nxs:auth:login:" +:+ key +:+ ":" +:+ pretty.pretty (now / SECOND / window_seconds (as_limits cfg))).

(** The local counter, whose clock is in seconds. *)
Definition on_limiter {T} (f : counts → T * counts) : AuthM T := λ w,
  let '(a, c) := f (aw_limiter w) in (Ok a, set_aw_limiter c w).

Definition local_check (key : string) : AuthM unit :=
  now ← anow;
  ok ← on_limiter (login_admitted (as_limits cfg) (now / SECOND) key);
  if ok : bool then mret tt else araise AuthError.RateLimitedError.

Definition local_update (f : Z → counts → counts) : AuthM unit :=
  now ← anow; on_limiter (λ c, (tt, f (now / SECOND) c)).

Definition local_failure (key : string) : AuthM unit :=
  local_update (λ now, record_login_failure (as_limits cfg) now key).

Definition local_reset (key : string) : AuthM unit := local_update (λ now, reset_login (as_limits cfg) now key).

Definition gate_check (key : string) : AuthM unit :=
  if as_cache_backend cfg then
    k ← store_key key;
    current ← cache_call (λ c, (assoc k c, c));
    match current with
    | None => local_check key
    | Some (Some count) => if max_failures (as_limits cfg) <=? count then araise AuthError.RateLimitedError else mret tt
    | Some None => mret tt
    end
  else local_check key.

(** [incr] and, for the first failure of a window, [expire]: the key names its window, so
    that an entry that expires is never asked for again. *)
Definition gate_failure (key : string) : AuthM unit :=
  if as_cache_backend cfg then
    k ← store_key key;
    count ← cache_call (λ c, let n := default 0 (assoc k c) + 1 in (n, cache_put k n c));
    match count with
    | None => local_failure key
    | Some count =>
        if count =? 1 then
          expired ← cache_call (λ c, (tt, c));
          match expired with None => local_failure key | Some _ => mret tt end
        else mret tt
    end
  else local_failure key.

Definition gate_reset (key : string) : AuthM unit :=
  if as_cache_backend cfg then
    k ← store_key key;
    deleted ← cache_call (λ c, (tt, List.filter (λ e, negb (String.eqb e.1 k)) c));
    match deleted with None => local_reset key | Some _ => mret tt end
  else local_reset key.
End gate.

(** ** [AuthService] *)

Section service.
Context `{UnicodeForms} {L : AuthLibrary} (cfg : AuthSettings) (ts : TokenService).

Definition email_of (raw : string) : result AuthError string :=
  match normalize_email raw with Ok email => Ok email | Err _ => Err AuthError.ValidationFailedError end.

Definition adraw : AuthM nat := λ w, (Ok (aw_draws w), set_aw_draws (S (aw_draws w)) w).

Definition register_user (draft : RegistrationDraft) (verify_email : bool) : AuthM UserRecord :=
  email ← alift (email_of (rd_email draft));
  password ← alift (validate_password cfg (rd_password draft));
  user_id ← auuid;
  atransaction (
    user ← insert_user user_id email (rd_display_name draft) verify_email;
    salt ← adraw;
    _ ← insert_credential (mkCredential user_id 1 "argon2id" (as_parameters cfg) (argon2_hash salt password));
    mret user).

Definition authenticate (email password : string) : AuthM uuid :=
  atransaction (
    user ← user_by_email email;
    match user with
    | None => araise AuthError.AuthenticationFailedError
    | Some user =>
        credential ← get_latest (us_id user);
        let verified := match credential with Some c => argon2_verify (uc_password_hash c) password | None => false end in
        if negb verified || negb (bool_decide (us_status user = UserStatus.ACTIVE))
        then araise AuthError.AuthenticationFailedError
        else mret (us_id user)
    end).

Definition active_memberships (user_id : uuid) : AuthM (list MembershipRecord) :=
  memberships ← memberships_for_user user_id; mret (List.filter membership_active memberships).

Definition select_organization (memberships : list MembershipRecord) (requested : option uuid) : result AuthError uuid :=
  match memberships with
  | [] => Err AuthError.MembershipRequiredError
  | m :: rest =>
      match requested with
      | Some org =>
          if forallb (λ m, negb (N.eqb (mb_organization_id m) org)) memberships then Err AuthError.AuthenticationFailedError
          else Ok org
      | None => match rest with [] => Ok (mb_organization_id m) | _ => Err AuthError.MultipleOrganizationsError end
      end
  end.

(** [issue_access_token] with its fresh identifier *)
Definition access_token (user_id org session_id : uuid) (now : Z) : AuthM string :=
  jti ← auuid; mret (issue_access_token ts user_id org session_id jti now).

Definition draw_refresh_token (org : uuid) : AuthM string := n ← adraw; mret (new_refresh_token org (token_urlsafe n)).

Definition establish_session (user_id org : uuid) : AuthM AuthSession :=
  session_id ← auuid;
  refresh_token ← draw_refresh_token org;
  now ← anow;
  _ ← atransaction (
    status ← current_status org;
    if negb (is_operational status) then araise AuthError.OrganizationInactiveError
    else
      membership ← for_user_in_organization org user_id;
      if negb (match membership with Some m => membership_active m | None => false end)
      then araise AuthError.MembershipInactiveError
      else insert_session org session_id user_id (hash_refresh_token refresh_token)
             (now + as_refresh_token_ttl_seconds cfg * SECOND));
  token ← access_token user_id org session_id now;
  mret (mkAuthSession user_id org session_id token refresh_token (as_access_token_ttl_seconds cfg)).

(** [login_rate_key] *)
Definition login_rate_key (email client_ip : string) : string := sha256_hex (email +:+ "|" +:+ client_ip).

Definition login (request : LoginRequest) (client_ip : string) : AuthM AuthSession :=
  email ← alift (email_of (lg_email request));
  if negb (password_acceptable cfg (lg_password request)) then araise AuthError.AuthenticationFailedError
  else
    let rate_key := login_rate_key email client_ip in
    _ ← gate_check cfg rate_key;
    session ← atry
      (user_id ← authenticate email (lg_password request);
       memberships ← active_memberships user_id;
       org ← alift (select_organization memberships (lg_organization_id request));
       establish_session user_id org)
      (λ e, match e with
            | AuthError.AuthenticationFailedError | AuthError.MembershipInactiveError =>
                _ ← gate_failure cfg rate_key; araise e
            | e => araise e
            end);
    _ ← gate_reset cfg rate_key;
    mret session.

(** *** Refresh *)

(** No session has the token: the session whose previous token it is gets revoked. *)
Definition refresh_missing (parts : RefreshTokenParts) : AuthM unit :=
  previous ← by_previous_token_hash (tp_organization_id parts) (tp_token_hash parts);
  match previous with
  | Some s => revoke_session (tp_organization_id parts) (rs_id s)
  | None => mret tt
  end.

(** Whether the session may be rotated; that of an inactive user is revoked. *)
Definition refresh_admitted (now : Z) (parts : RefreshTokenParts) (row : RefreshSessionRecord) : AuthM bool :=
  if negb (live row) || (rs_expires_at row <=? now) then mret false
  else
    user ← user_by_id (rs_user_id row);
    if negb (match user with Some u => bool_decide (us_status u = UserStatus.ACTIVE) | None => false end)
    then _ ← revoke_session (tp_organization_id parts) (rs_id row); mret false
    else
      membership ← for_user_in_organization (tp_organization_id parts) (rs_user_id row);
      mret (match membership with Some m => membership_active m | None => false end).

(** The conditional rotation; the loser of a race revokes the session. *)
Definition refresh_rotate (now : Z) (parts : RefreshTokenParts) (row : RefreshSessionRecord)
    : AuthM (option (uuid * uuid * string)) :=
  next ← draw_refresh_token (tp_organization_id parts);
  ok ← rotate (tp_organization_id parts) (rs_id row) (tp_token_hash parts) (hash_refresh_token next) now;
  if ok : bool then mret (Some (rs_user_id row, rs_id row, next))
  else _ ← revoke_session (tp_organization_id parts) (rs_id row); mret None.

Definition refresh_answer (now : Z) (org : uuid) (issued : option (uuid * uuid * string)) : AuthM AuthSession :=
  match issued with
  | None => araise AuthError.AuthenticationFailedError
  | Some (user_id, session_id, token) =>
      access ← access_token user_id org session_id now;
      mret (mkAuthSession user_id org session_id access token (as_access_token_ttl_seconds cfg))
  end.

Definition refresh (raw_token : string) : AuthM AuthSession :=
  match parse_refresh_token raw_token with
  | None => araise AuthError.AuthenticationFailedError
  | Some parts =>
      now ← anow;
      issued ← atransaction (
        row ← by_token_hash (tp_organization_id parts) (tp_token_hash parts);
        match row with
        | None => _ ← refresh_missing parts; mret None
        | Some row =>
            ok ← refresh_admitted now parts row;
            if ok : bool then refresh_rotate now parts row else mret None
        end);
      refresh_answer now (tp_organization_id parts) issued
  end.

Definition logout (raw_token : string) : AuthM unit :=
  match parse_refresh_token raw_token with
  | None => mret tt
  | Some parts =>
      atransaction (
        current ← by_token_hash (tp_organization_id parts) (tp_token_hash parts);
        row ← (match current with
               | Some s => mret (Some s)
               | None => by_previous_token_hash (tp_organization_id parts) (tp_token_hash parts)
               end);
        match row with
        | Some s => if live s then revoke_session (tp_organization_id parts) (rs_id s) else mret tt
        | None => mret tt
        end)
  end.

(** ** [PrincipalStateValidator] *)

Definition require_valid_in (org user_id session_id : uuid) : AuthM UserRecord :=
  now ← anow;
  session ← session_by_id org session_id;
  if negb (match session with Some s => live s && (now <? rs_expires_at s) | None => false end)
  then araise AuthError.SessionRevokedError
  else
    user ← user_by_id user_id;
    match user with
    | Some u =>
        if negb (bool_decide (us_status u = UserStatus.ACTIVE)) then araise AuthError.UserInactiveError
        else
          membership ← for_user_in_organization org user_id;
          if negb (match membership with Some m => membership_active m | None => false end)
          then araise AuthError.MembershipInactiveError
          else
            status ← current_status org;
            if negb (is_operational status) then araise AuthError.OrganizationInactiveError else mret u
    | None => araise AuthError.UserInactiveError
    end.

Definition require_valid (org user_id session_id : uuid) : AuthM UserRecord :=
  atransaction (require_valid_in org user_id session_id).

Definition session_view (principal : Principal) : AuthM SessionView :=
  user ← require_valid (pr_organization_id principal) (pr_user_id principal) (pr_session_id principal);
  mret (mkSessionView (us_id user) (us_email user) (us_email_verified user) (us_display_name user)
          (pr_organization_id principal) (pr_session_id principal)).

Definition list_memberships (principal : Principal) : AuthM (list (uuid * MembershipStatus * Z)) :=
  _ ← require_valid (pr_organization_id principal) (pr_user_id principal) (pr_session_id principal);
  memberships ← memberships_for_user (pr_user_id principal);
  mret (map (λ m, (mb_organization_id m, mb_status m, mb_created_at m)) memberships).
End service.

(** ** [MembershipService] *)

Definition require_manage (actor : Principal) (org : uuid) : AuthM unit :=
  atransaction (require_permission org (pr_user_id actor) MEMBERSHIP_MANAGE).

Definition assign_by_key (org user_id : uuid) (role : string) : AuthM unit :=
  role_id ← role_id_by_key role;
  match role_id with
  | None => araise AuthError.PermissionDeniedError
  | Some role_id => assignment_id ← auuid; _ ← assign assignment_id org user_id role_id; mret tt
  end.

Definition create_membership (actor : option Principal) (org user_id : uuid) (role : string) : AuthM MembershipRecord :=
  atransaction (
    _ ← (match actor with
         | Some actor => require_permission org (pr_user_id actor) MEMBERSHIP_MANAGE
         | None => mret tt
         end);
    membership_id ← auuid;
    membership ← insert_membership org membership_id org user_id;
    _ ← assign_by_key org user_id role;
    mret membership).

(** The common body of [suspend], [revoke] and [restore]. *)
Definition change_membership (status : MembershipStatus) (actor : Principal) (org user_id : uuid) : AuthM unit :=
  _ ← require_manage actor org;
  atransaction (
    membership ← for_user_in_organization org user_id;
    match membership with
    | None => araise AuthError.MembershipRequiredError
    | Some m => set_membership_status org (mb_id m) status
    end).

Definition suspend_membership : Principal → uuid → uuid → AuthM unit := change_membership MembershipStatus.SUSPENDED.
Definition revoke_membership : Principal → uuid → uuid → AuthM unit := change_membership MembershipStatus.REVOKED.
Definition restore_membership : Principal → uuid → uuid → AuthM unit := change_membership MembershipStatus.ACTIVE.

Definition assign_role (actor : Principal) (org user_id : uuid) (role : string) : AuthM unit :=
  _ ← require_manage actor org;
  atransaction (
    membership ← for_user_in_organization org user_id;
    if negb (match membership with Some m => membership_active m | None => false end)
    then araise AuthError.MembershipInactiveError
    else assign_by_key org user_id role).

Definition suspend_assignment (actor : Principal) (org assignment_id : uuid) : AuthM unit :=
  _ ← require_manage actor org;
  atransaction (set_assignment_status org assignment_id RoleAssignmentStatus.SUSPENDED).
