(* ===== verification/AuthSafety.v ===== *)
(** * AuthSafety: refresh sessions, whose tokens are used once

    What the operations of [Auth] do to the table of sessions. [still]: they leave it
    alone. [SessionInv n]: its rows have distinct identifiers and every hash that is or was
    a row's is that of a token drawn before the [n]-th, none of them twice. [evolves n]:
    what any operation keeps, in particular that a token drawn before the [n]-th that is no
    session's current token never becomes one.

    Callers of [refresh] pass through stages, since another transaction may commit between
    any two of its statements; [refresh_is_stages] shows that the stages in sequence are
    [refresh]. In the system any number of callers advance in any order and interleave with
    logins, logouts, revocations and everything that leaves the sessions alone (registration,
    administration, suspension of users). *)

From S2P Require Import Prelude.
From S2P Require Import PyText.
From S2P Require Import Lifecycles.
From S2P Require Import Normalization.
From S2P Require Import Store.
From S2P Require Import Tables.
From S2P Require Import Resilience.
From S2P Require Import AuthTokens.
From S2P Require Import Auth.

Abbreviation sessions w := (ad_sessions (aw_db w)).

(** ** Operations that leave the sessions alone *)

Definition still {T} (m : AuthM T) : Prop := ∀ w,
  sessions (m w).2 = sessions w ∧ (aw_draws w ≤ aw_draws (m w).2)%nat.

Create HintDb still discriminated.
#[export] Hint Constants Opaque : still.

Lemma still_bind {T U} (m : AuthM T) (f : T → AuthM U) : still m → (∀ a, still (f a)) → still (m ≫= f).
Proof.
  intros Hm Hf w. specialize (Hm w). unfold mbind, AuthM_bind. destruct (m w) as [[a|e] w1]; simpl in *; [|done].
  specialize (Hf a w1). destruct Hm, Hf. split; [congruence|lia].
Qed.
Lemma still_try {T} (m : AuthM T) h : still m → (∀ e, still (h e)) → still (atry m h).
Proof.
  intros Hm Hh w. specialize (Hm w). unfold atry. destruct (m w) as [[a|e] w1]; simpl in *; [done|].
  specialize (Hh e w1). destruct Hm, Hh. split; [congruence|lia].
Qed.
Lemma still_txn {T} (m : AuthM T) : still m → still (atransaction m).
Proof.
  intros Hm w. specialize (Hm w). unfold atransaction. destruct (m w) as [[a|e] w1]; [done|]. split; [done|apply Hm].
Qed.
Lemma still_ret {T} (a : T) : still (mret a).
Proof. by intros w. Qed.
Lemma still_raise {T} e : still (@araise T e).
Proof. by intros w. Qed.
Lemma still_lift {T} (r : result AuthError T) : still (alift r).
Proof. by intros w. Qed.
Lemma still_gets {T} (f : AuthDB → T) : still (agets f).
Proof. by intros w. Qed.
Lemma still_now : still anow.
Proof. by intros w. Qed.
Lemma still_uuid : still auuid.
Proof. by intros w. Qed.
Lemma still_draw : still adraw.
Proof. intros w. split; [done|simpl; lia]. Qed.
Lemma still_limiter {T} (f : counts → T * counts) : still (on_limiter f).
Proof. intros w. unfold on_limiter. by destruct (f _). Qed.
Lemma still_cache {T} (f : list (string * Z) → T * list (string * Z)) : still (cache_call f).
Proof. intros w. unfold cache_call. destruct (aw_cache_up _ _); [|done]. by destruct (f _). Qed.
Lemma still_modify f : (∀ d, ad_sessions (f d) = ad_sessions d) → still (amodify f).
Proof. intros Hf w. split; [apply Hf|done]. Qed.
Lemma still_one {T} (l : list T) : still (one_or_none l).
Proof. by destruct l as [|? []]. Qed.
#[export] Hint Resolve still_ret still_raise still_lift still_gets still_now still_uuid still_draw still_limiter still_cache
  still_one : still.

(** A program is still when what it calls is. *)
Ltac keep_still :=
  repeat (intros; lazymatch goal with
  | |- still (_ ≫= _) => apply still_bind
  | |- still (match ?x with _ => _ end) => destruct x
  | |- still (atransaction _) => apply still_txn
  | |- still (atry _ _) => apply still_try
  | |- still (amodify _) => apply still_modify; reflexivity
  | |- still ?m => first [solve [eauto with still nocore] | let h := get_head m in unfold h]
  end).

Lemma still_membership m actor org user : still (change_membership m actor org user).
Proof. keep_still. Qed.
Lemma still_create actor org user role : still (create_membership actor org user role).
Proof. keep_still. Qed.
Lemma still_assign_role actor org user role : still (assign_role actor org user role).
Proof. keep_still. Qed.
Lemma still_suspend_assignment actor org id : still (suspend_assignment actor org id).
Proof. keep_still. Qed.
Lemma still_suspended user b : still (set_suspended user b).
Proof. keep_still. Qed.
Lemma still_require_valid org user session : still (require_valid org user session).
Proof. keep_still. Qed.
Lemma still_check cfg key : still (gate_check cfg key).
Proof. keep_still. Qed.
Lemma still_failure cfg key : still (gate_failure cfg key).
Proof. keep_still. Qed.
Lemma still_reset cfg key : still (gate_reset cfg key).
Proof. keep_still. Qed.
#[export] Hint Resolve still_require_valid still_check still_failure still_reset : still.

Section still.
Context `{UnicodeForms} {L : AuthLibrary} (cfg : AuthSettings) (ts : TokenService).

Lemma still_register draft b : still (register_user cfg draft b).
Proof. keep_still. Qed.
Lemma still_authenticate email password : still (authenticate email password).
Proof. keep_still. Qed.
Lemma still_access user org session now : still (access_token ts user org session now).
Proof. keep_still. Qed.
Lemma still_answer now org issued : still (refresh_answer cfg ts now org issued).
Proof. keep_still. Qed.
Lemma still_by_hash org h : still (by_token_hash org h).
Proof. keep_still. Qed.
Lemma still_by_previous org h : still (by_previous_token_hash org h).
Proof. keep_still. Qed.
End still.
#[export] Hint Resolve still_authenticate still_access still_answer still_by_hash still_by_previous : still.

(** ** The invariant of the sessions *)

Definition hashes (s : RefreshSessionRecord) : list string := rs_token_hash s :: option_list (rs_previous_token_hash s).

Definition ident (s : RefreshSessionRecord) : uuid * uuid * uuid := (rs_id s, rs_organization_id s, rs_user_id s).

Lemma elem_of_update_where {T} (p : T → bool) f l x :
  x ∈ update_where p f l ↔ ∃ y, y ∈ l ∧ x = if p y then f y else y.
Proof. unfold update_where. rewrite list_elem_of_fmap. naive_solver. Qed.

Section sessions.
Context {L : AuthLibrary} {Laws : AuthLaws L}.

Definition token_hash (org : uuid) (n : nat) : string := hash_refresh_token (new_refresh_token org (token_urlsafe n)).

Definition drawn (n : nat) (h : string) : Prop := ∃ org k, (k < n)%nat ∧ h = token_hash org k.

Record SessionInv (n : nat) (l : list RefreshSessionRecord) : Prop := {
  si_ids : NoDup (map rs_id l);
  si_drawn : ∀ s h, s ∈ l → h ∈ hashes s → drawn n h;
  si_unique : ∀ s s' h, s ∈ l → s' ∈ l → h ∈ hashes s → h ∈ hashes s' → s = s';
}.

Record evolves (n : nat) (l l' : list RefreshSessionRecord) : Prop := {
  ev_spent : ∀ h, drawn n h → (∀ s, s ∈ l → rs_token_hash s ≠ h) → ∀ s, s ∈ l' → rs_token_hash s ≠ h;
  ev_rows : ∀ s, s ∈ l → ∃ s', s' ∈ l' ∧ ident s' = ident s ∧ (rs_revoked_at s ≠ None → rs_revoked_at s' = rs_revoked_at s);
}.

#[export] Instance evolves_preorder n : PreOrder (evolves n).
Proof.
  split.
  - intros l. split; [done|]. intros s Hs. by exists s.
  - intros l1 l2 l3 [S1 R1] [S2 R2]. split; [naive_solver|].
    intros s (s' & Hs' & I' & K')%R1. destruct (R2 s' Hs') as (s'' & Hs'' & I'' & K''). exists s''.
    split; [done|]. split; [congruence|]. intros Hr. rewrite K''; [by apply K'|]. by rewrite K'.
Qed.

Lemma drawn_mono n n' h : (n ≤ n')%nat → drawn n h → drawn n' h.
Proof. intros Hn (org & k & Hk & E). exists org, k. split; [lia|done]. Qed.

Lemma drawn_new org n : ¬ drawn n (token_hash org n).
Proof. intros (org' & k & Hk & E). apply token_hash_draw in E. lia. Qed.

Lemma evolves_mono n n' l l' : (n ≤ n')%nat → evolves n' l l' → evolves n l l'.
Proof. intros Hn [S R]. split; [|done]. intros h Hh. apply S. by eapply drawn_mono. Qed.

Lemma SessionInv_mono n n' l : (n ≤ n')%nat → SessionInv n l → SessionInv n' l.
Proof. intros Hn [I D U]. split; [done| |done]. intros s h Hs Hh. eapply drawn_mono; [done|]. by eapply D. Qed.

(** A statement on one row that brings at most hashes of new tokens. *)
Lemma auth_update_inv p f n N l :
  SessionInv n l → (n ≤ N)%nat →
  (∀ s, s ∈ l → p s = true → ident (f s) = ident s) →
  (∀ s h, s ∈ l → p s = true → h ∈ hashes (f s) → h ∈ hashes s ∨ drawn N h ∧ ¬ drawn n h) →
  (∀ s s', s ∈ l → s' ∈ l → p s = true → p s' = true → s = s') →
  SessionInv N (update_where p f l).
Proof.
  intros [I D U] Hn Hid Hh Hone. split.
  - assert (map rs_id (update_where p f l) = map rs_id l) as ->; [|done].
    unfold update_where. rewrite map_map. apply map_ext_in. intros s Hs%list_elem_of_In.
    destruct (p s) eqn:Ep; [|done]. specialize (Hid s Hs Ep). unfold ident in Hid. congruence.
  - intros s h (y & Hy & ->)%elem_of_update_where. destruct (p y) eqn:Ep.
    + intros [Hin | [? _]]%(Hh y h Hy Ep); [|done]. eapply drawn_mono; [done|]. by eapply D.
    + intros Hin. eapply drawn_mono; [done|]. by eapply D.
  - intros s s' h (y & Hy & ->)%elem_of_update_where (y' & Hy' & ->)%elem_of_update_where.
    destruct (p y) eqn:Ep, (p y') eqn:Ep'.
    + intros _ _. by rewrite (Hone y y').
    + intros [Hin | [_ Hold]]%(Hh y h Hy Ep) Hin'; [|by destruct Hold; apply (D y')].
      rewrite (U y y' h) in Ep by done. congruence.
    + intros Hin [Hin' | [_ Hold]]%(Hh y' h Hy' Ep'); [|by destruct Hold; apply (D y)].
      rewrite (U y y' h) in Ep by done. congruence.
    + by apply U.
Qed.

Lemma auth_update_evolves p f n l :
  (∀ s, s ∈ l → p s = true → ident (f s) = ident s ∧ (rs_revoked_at s ≠ None → rs_revoked_at (f s) = rs_revoked_at s) ∧
     (rs_token_hash (f s) = rs_token_hash s ∨ ¬ drawn n (rs_token_hash (f s)))) →
  evolves n l (update_where p f l).
Proof.
  intros Hf. split.
  - intros h Hh Hno s (y & Hy & ->)%elem_of_update_where. destruct (p y) eqn:Ep; [|by apply Hno].
    destruct (Hf y Hy Ep) as (_ & _ & [-> | Hn]); [by apply Hno|]. intros <-. done.
  - intros s Hs. exists (if p s then f s else s). split; [apply elem_of_update_where; eauto|].
    destruct (p s) eqn:Ep; [|done]. destruct (Hf s Hs Ep) as (? & ? & _). done.
Qed.

Lemma is_session_spec org id s : is_session org id s = true ↔ rs_organization_id s = org ∧ rs_id s = id.
Proof. unfold is_session. by rewrite andb_true_iff, !N.eqb_eq. Qed.

Lemma one_session n l org id s s' :
  SessionInv n l → s ∈ l → s' ∈ l → is_session org id s = true → is_session org id s' = true → s = s'.
Proof.
  intros HI Hs Hs' [_ E]%is_session_spec [_ E']%is_session_spec.
  eapply (NoDup_map_inj rs_id); [apply HI|done..|congruence].
Qed.

(** ** Statements on the sessions *)

(** [follows n w w']: the invariant and what is kept, from a state in which the draws before
    the [n]-th may be in use. *)
Definition follows (n : nat) (w w' : AuthWorld) : Prop :=
  SessionInv (aw_draws w') (sessions w') ∧ evolves n (sessions w) (sessions w') ∧ (aw_draws w ≤ aw_draws w')%nat.

Definition tame {T} (m : AuthM T) : Prop := ∀ w,
  SessionInv (aw_draws w) (sessions w) → follows (aw_draws w) w (m w).2.

(** [m] may use the [n]-th draw once. *)
Definition tame_from {T} (n : nat) (m : AuthM T) : Prop := ∀ w,
  SessionInv n (sessions w) → (n < aw_draws w)%nat → follows n w (m w).2.

Lemma follows_still n w w' :
  sessions w' = sessions w → (aw_draws w ≤ aw_draws w')%nat → (n ≤ aw_draws w')%nat → SessionInv n (sessions w) → follows n w w'.
Proof. intros E Hd Hn HI. split; [rewrite E; by eapply SessionInv_mono|]. split; [by rewrite E|done]. Qed.

Lemma still_tame {T} (m : AuthM T) : still m → tame m.
Proof. intros Hm w HI. destruct (Hm w) as [E D]. by apply follows_still. Qed.

Lemma still_tame_from {T} n (m : AuthM T) : still m → tame_from n m.
Proof. intros Hm w HI Hn. destruct (Hm w) as [E D]. apply follows_still; [done..|lia|done]. Qed.

Lemma auth_tame_bind {T U} (m : AuthM T) (f : T → AuthM U) : tame m → (∀ a, tame (f a)) → tame (m ≫= f).
Proof.
  intros Hm Hf w HI. specialize (Hm w HI). unfold mbind, AuthM_bind. destruct (m w) as [[a|e] w1]; simpl in *; [|done].
  destruct Hm as (I1 & E1 & D1). destruct (Hf a w1 I1) as (I2 & E2 & D2). split; [done|]. split; [|lia].
  etrans; [done|]. by eapply evolves_mono.
Qed.

(** The draw stays unused through operations that leave the sessions alone. *)
Lemma tame_from_still_bind {T U} n (m : AuthM T) (f : T → AuthM U) :
  still m → (∀ a, tame_from n (f a)) → tame_from n (m ≫= f).
Proof.
  intros Hm Hf w HI Hn. specialize (Hm w). unfold mbind, AuthM_bind. destruct (m w) as [[a|e] w1]; simpl in *; destruct Hm as [E D].
  - destruct (Hf a w1) as (I2 & E2 & D2); [by rewrite E|lia|]. split; [done|]. split; [by rewrite <- E|lia].
  - apply follows_still; [done..|lia|done].
Qed.

Lemma tame_from_bind {T U} n (m : AuthM T) (f : T → AuthM U) :
  tame_from n m → (∀ a, tame (f a)) → tame_from n (m ≫= f).
Proof.
  intros Hm Hf w HI Hn. specialize (Hm w HI Hn). unfold mbind, AuthM_bind. destruct (m w) as [[a|e] w1]; simpl in *; [|done].
  destruct Hm as (I1 & E1 & D1). destruct (Hf a w1 I1) as (I2 & E2 & D2). split; [done|]. split; [|lia].
  etrans; [done|]. eapply evolves_mono; [|done]. lia.
Qed.

Lemma tame_draw {U} (f : nat → AuthM U) : (∀ n, tame_from n (f n)) → tame (adraw ≫= f).
Proof.
  intros Hf w HI. unfold mbind, AuthM_bind. cbn [adraw]. set (w1 := set_aw_draws _ w).
  destruct (Hf (aw_draws w) w1) as (I2 & E2 & D2); [done|simpl; lia|]. split; [done|]. split; [done|]. simpl in D2. lia.
Qed.

Lemma auth_tame_txn {T} (m : AuthM T) : tame m → tame (atransaction m).
Proof.
  intros Hm w HI. specialize (Hm w HI). unfold atransaction. destruct (m w) as [[a|e] w1]; simpl in *; [done|].
  destruct Hm as (I1 & E1 & D1). by apply follows_still.
Qed.

Lemma tame_from_txn {T} n (m : AuthM T) : tame_from n m → tame_from n (atransaction m).
Proof.
  intros Hm w HI Hn. specialize (Hm w HI Hn). unfold atransaction. destruct (m w) as [[a|e] w1]; simpl in *; [done|].
  destruct Hm as (I1 & E1 & D1). apply follows_still; [done| |simpl; lia|done]. simpl. lia.
Qed.

Lemma auth_tame_try {T} (m : AuthM T) h : tame m → (∀ e, tame (h e)) → tame (atry m h).
Proof.
  intros Hm Hh w HI. specialize (Hm w HI). unfold atry. destruct (m w) as [[a|e] w1]; simpl in *; [done|].
  destruct Hm as (I1 & E1 & D1). destruct (Hh e w1 I1) as (I2 & E2 & D2). split; [done|]. split; [|lia].
  etrans; [done|]. by eapply evolves_mono.
Qed.

Lemma tame_insert n org id user exp : tame_from n (insert_session org id user (token_hash org n) exp).
Proof.
  unfold insert_session. apply tame_from_still_bind; [keep_still|intros created].
  apply tame_from_still_bind; [keep_still|intros updated]. intros w HI Hn. unfold mbind, AuthM_bind. cbn [agets].
  destruct (_ || _) eqn:Hc; [apply follows_still; [done..|simpl; lia|done]|]. booleans.
  set (new := mkSession _ _ _ _ _ _ _ _ _ _ _). cbn [amodify snd].
  assert (drawn (aw_draws w) (token_hash org n)) as Hd by (by exists org, n).
  pose proof (drawn_new org n) as Hnew. destruct HI as [I D U]. split; [split|split; [split|done]]; cbn [sessions aw_db set_aw_db set_ad_sessions ad_sessions aw_draws].
  - apply NoDup_map_snoc; [done|]. intros s Hs. simpl.
    match goal with H : existsb _ _ = false |- _ => pose proof (proj1 (existsb_none _ _) H s Hs) as Hne end.
    cbn beta in Hne. apply orb_false_iff in Hne as [Hne _]. by apply N.eqb_neq.
  - intros s h [Hs | ->%list_elem_of_singleton]%elem_of_app.
    + intros Hh. apply (drawn_mono n); [lia|]. by eapply D.
    + intros ->%list_elem_of_singleton. done.
  - intros s s' h [Hs | ->%list_elem_of_singleton]%elem_of_app [Hs' | ->%list_elem_of_singleton]%elem_of_app; [by apply U| | |done].
    + intros Hh ->%list_elem_of_singleton. destruct Hnew. by eapply D.
    + intros ->%list_elem_of_singleton Hh. destruct Hnew. by eapply D.
  - intros h Hh Hno s [Hs | ->%list_elem_of_singleton]%elem_of_app; [by apply Hno|]. simpl. intros <-. done.
  - intros s Hs. exists s. split; [apply elem_of_app; by left|done].
Qed.

Lemma tame_revoke org id : tame (revoke_session org id).
Proof.
  unfold revoke_session. apply auth_tame_bind; [apply still_tame; keep_still|intros t].
  apply auth_tame_bind; [apply still_tame; keep_still|intros t'].
  intros w HI. split; [|split; [|done]].
  - apply (auth_update_inv _ _ (aw_draws w)); [done..| |].
    + intros s h _ _ Hh. by left.
    + intros s s' Hs Hs' [E _]%andb_true_iff [E' _]%andb_true_iff. by eapply one_session.
  - apply auth_update_evolves. intros s Hs [_ Hl]%andb_true_iff. split; [done|]. split; [|by left].
    unfold live in Hl. by destruct (rs_revoked_at s).
Qed.

Lemma rotatable_spec org id h s :
  rotatable org id h s = true ↔ is_session org id s = true ∧ rs_token_hash s = h ∧ rs_revoked_at s = None.
Proof.
  unfold rotatable, live. rewrite !andb_true_iff, String.eqb_eq. destruct (rs_revoked_at s); naive_solver.
Qed.

Lemma tame_rotate n org id h now : tame_from n (rotate org id h (token_hash org n) now).
Proof.
  intros w HI Hn. unfold rotate, mbind, AuthM_bind. cbn [agets].
  destruct (existsb _ _) eqn:He; cbn [negb]; [|apply follows_still; [done..|simpl; lia|done]].
  match goal with |- context [if ?b then araise _ else _] => destruct b eqn:Hc end;
    [apply follows_still; [done..|simpl; lia|done]|].
  cbn [amodify snd mret AuthM_ret]. split; [|split; [|done]].
  - apply (auth_update_inv _ _ n); [done|simpl; lia|done| |].
    + intros s h' Hs (_ & E & _)%rotatable_spec. unfold hashes. cbn [rotated rs_token_hash rs_previous_token_hash option_list].
      intros [-> | ->%list_elem_of_singleton]%elem_of_cons; [|left; rewrite <- E; by left].
      right. split; [by exists org, n|]. apply drawn_new.
    + intros s s' Hs Hs' (E & _)%rotatable_spec (E' & _)%rotatable_spec. by eapply one_session.
  - apply auth_update_evolves. intros s Hs (_ & E & R)%rotatable_spec. split; [done|]. split; [done|]. right. apply drawn_new.
Qed.

Lemma tame_draw_token {U} org (f : string → AuthM U) :
  (∀ n, tame_from n (f (new_refresh_token org (token_urlsafe n)))) → tame (draw_refresh_token org ≫= f).
Proof. intros Hf w HI. exact (tame_draw (λ n, f (new_refresh_token org (token_urlsafe n))) Hf w HI). Qed.

Lemma tame_missing parts : tame (refresh_missing parts).
Proof.
  unfold refresh_missing. apply auth_tame_bind; [apply still_tame; keep_still|]. intros [s|]; [apply tame_revoke|apply still_tame; keep_still].
Qed.

Lemma tame_admitted now parts row : tame (refresh_admitted now parts row).
Proof.
  unfold refresh_admitted. destruct (_ || _); [apply still_tame; keep_still|].
  apply auth_tame_bind; [apply still_tame; keep_still|]. intros user. destruct (negb _).
  - apply auth_tame_bind; [apply tame_revoke|]. intros _. apply still_tame. keep_still.
  - apply still_tame. keep_still.
Qed.

Lemma tame_refresh_rotate now parts row : tame (refresh_rotate now parts row).
Proof.
  unfold refresh_rotate. apply tame_draw_token. intros n. apply tame_from_bind; [apply tame_rotate|].
  intros []; [apply still_tame; keep_still|]. apply auth_tame_bind; [apply tame_revoke|]. intros _. apply still_tame. keep_still.
Qed.

Section services.
Context `{UnicodeForms} (cfg : AuthSettings) (ts : TokenService).

Lemma tame_refresh raw : tame (refresh cfg ts raw).
Proof.
  unfold refresh. destruct (parse_refresh_token raw) as [parts|]; [|apply still_tame; keep_still].
  apply auth_tame_bind; [apply still_tame; keep_still|]. intros now. apply auth_tame_bind; [|intros; apply still_tame; keep_still].
  apply auth_tame_txn, auth_tame_bind; [apply still_tame; keep_still|]. intros [row|].
  - apply auth_tame_bind; [apply tame_admitted|]. intros []; [apply tame_refresh_rotate|apply still_tame; keep_still].
  - apply auth_tame_bind; [apply tame_missing|]. intros _. apply still_tame. keep_still.
Qed.

Lemma tame_logout raw : tame (logout raw).
Proof.
  unfold logout. destruct (parse_refresh_token raw) as [parts|]; [|apply still_tame; keep_still].
  apply auth_tame_txn, auth_tame_bind; [apply still_tame; keep_still|]. intros current.
  apply auth_tame_bind; [apply still_tame; keep_still|]. intros [s|]; [|apply still_tame; keep_still].
  destruct (live s); [apply tame_revoke|apply still_tame; keep_still].
Qed.

Lemma tame_establish user org : tame (establish_session cfg ts user org).
Proof.
  unfold establish_session. apply auth_tame_bind; [apply still_tame; keep_still|]. intros id.
  apply tame_draw_token. intros n. apply tame_from_still_bind; [keep_still|]. intros now.
  apply tame_from_bind; [|intros; apply still_tame; keep_still].
  apply tame_from_txn, tame_from_still_bind; [keep_still|]. intros status.
  destruct (negb _); [apply still_tame_from; keep_still|]. apply tame_from_still_bind; [keep_still|]. intros m.
  destruct (negb _); [apply still_tame_from; keep_still|apply tame_insert].
Qed.

Lemma tame_login request ip : tame (login cfg ts request ip).
Proof.
  unfold login. apply auth_tame_bind; [apply still_tame; keep_still|]. intros email.
  destruct (negb _); [apply still_tame; keep_still|]. apply auth_tame_bind; [apply still_tame; keep_still|]. intros _.
  apply auth_tame_bind; [|intros; apply still_tame; keep_still]. apply auth_tame_try.
  - apply auth_tame_bind; [apply still_tame; keep_still|]. intros user. apply auth_tame_bind; [apply still_tame; keep_still|]. intros ms.
    apply auth_tame_bind; [apply still_tame; keep_still|]. intros org. apply tame_establish.
  - intros e. apply still_tame. keep_still.
Qed.
End services.
End sessions.

(** ** The system of callers *)

Inductive refresh_stage : Type :=
| Presented
| Missing (parts : RefreshTokenParts)
| Found (now : Z) (parts : RefreshTokenParts) (row : RefreshSessionRecord)
| Vetted (now : Z) (parts : RefreshTokenParts) (row : RefreshSessionRecord)
| Done (r : result AuthError AuthSession).

Definition proceed {T} (next : T → refresh_stage) (r : result AuthError T * AuthWorld) : refresh_stage * AuthWorld :=
  match r with
  | (Ok a, w) => (next a, w)
  | (Err e, w) => (Done (Err e), w)
  end.

Abbreviation refused := (Done (Err AuthError.AuthenticationFailedError)).

Section system.
Context `{UnicodeForms} {L : AuthLibrary} (cfg : AuthSettings) (ts : TokenService).

Definition look (parts : RefreshTokenParts) : AuthM (Z * option RefreshSessionRecord) :=
  now ← anow; row ← by_token_hash (tp_organization_id parts) (tp_token_hash parts); mret (now, row).

Definition exchange (now : Z) (parts : RefreshTokenParts) (row : RefreshSessionRecord) : AuthM AuthSession :=
  issued ← atransaction (refresh_rotate now parts row); refresh_answer cfg ts now (tp_organization_id parts) issued.

Definition refresh_step (raw : string) (s : refresh_stage) (w : AuthWorld) : refresh_stage * AuthWorld :=
  match s with
  | Presented =>
      match parse_refresh_token raw with
      | None => (refused, w)
      | Some parts =>
          proceed (λ '(now, row), match row with None => Missing parts | Some row => Found now parts row end) (look parts w)
      end
  | Missing parts => proceed (λ _, refused) (atransaction (refresh_missing parts) w)
  | Found now parts row =>
      proceed (λ ok : bool, if ok then Vetted now parts row else refused) (atransaction (refresh_admitted now parts row) w)
  | Vetted now parts row => let '(r, w') := exchange now parts row w in (Done r, w')
  | Done r => (Done r, w)
  end.

Fixpoint run_refresh (n : nat) (raw : string) (s : refresh_stage) (w : AuthWorld) : refresh_stage * AuthWorld :=
  match n with O => (s, w) | S n => let '(s', w') := refresh_step raw s w in run_refresh n raw s' w' end.

Inductive auth_step : AuthWorld * list (string * refresh_stage) → AuthWorld * list (string * refresh_stage) → Prop :=
| au_refresh w callers i raw s :
    callers !! i = Some (raw, s) →
    auth_step (w, callers) ((refresh_step raw s w).2, <[i := (raw, (refresh_step raw s w).1)]> callers)
| au_present w callers raw : auth_step (w, callers) (w, callers ++ [(raw, Presented)])
| au_login w callers request ip : auth_step (w, callers) ((login cfg ts request ip w).2, callers)
| au_logout w callers raw : auth_step (w, callers) ((logout raw w).2, callers)
| au_revoke w callers org id : auth_step (w, callers) ((revoke_session org id w).2, callers)
| au_other w callers w' :
    sessions w' = sessions w → (aw_draws w ≤ aw_draws w')%nat → auth_step (w, callers) (w', callers).

Definition auth_reachable (st : AuthWorld * list (string * refresh_stage)) : Prop :=
  ∃ w0, sessions w0 = [] ∧ rtc auth_step (w0, []) st.

(** ** The stages are [refresh] *)

Lemma by_hash_db org h w r w' : by_token_hash org h w = (r, w') → w' = w.
Proof.
  unfold by_token_hash, agets, mbind, AuthM_bind. cbn. by destruct (List.filter _ _) as [|s [|]]; intros [= _ <-].
Qed.

Lemma admitted_db now parts row w w' : refresh_admitted now parts row w = (Ok true, w') → aw_db w' = aw_db w.
Proof.
  unfold refresh_admitted. destruct (_ || _); [done|]. unfold mbind, AuthM_bind. cbn [user_by_id agets].
  destruct (negb _); [done|]. cbn. by intros [= _ <-].
Qed.

Lemma set_db_self w : set_aw_db (aw_db w) w = w.
Proof. by destruct w. Qed.

Lemma refresh_is_stages raw w : run_refresh 3 raw Presented w = (Done (refresh cfg ts raw w).1, (refresh cfg ts raw w).2).
Proof.
  cbn [run_refresh refresh_step]. unfold refresh, look. destruct (parse_refresh_token raw) as [parts|]; [|done].
  unfold mbind, AuthM_bind, atransaction. cbn [anow]. set (w1 := set_aw_reads _ w).
  destruct (by_token_hash _ _ w1) as [[[row|]|e] w2] eqn:Hb; apply by_hash_db in Hb as ->; cbn [mret AuthM_ret proceed refresh_step].
  - unfold atransaction. destruct (refresh_admitted _ _ row w1) as [[[]|e] w3] eqn:Ha; cbn [proceed refresh_step]; [|done..].
    apply admitted_db in Ha. unfold exchange, mbind, AuthM_bind, atransaction. rewrite Ha.
    destruct (refresh_rotate _ _ row w3) as [[issued|e] w4]; [|done]. by destruct (refresh_answer _ _ _ _ issued w4) as [r w5].
  - unfold atransaction. by destruct (refresh_missing parts w1) as [[u|e] w3].
  - by rewrite set_db_self.
Qed.

(** ** Selecting a session *)

Context {Laws : AuthLaws L}.

Lemma one_or_none_filter n l (p : RefreshSessionRecord → bool) h w :
  SessionInv n l → (∀ s, s ∈ l → p s = true → h ∈ hashes s) →
  (∃ s, s ∈ l ∧ p s = true ∧ one_or_none (List.filter p l) w = (Ok (Some s), w)) ∨
  ((∀ s, s ∈ l → p s = false) ∧ one_or_none (List.filter p l) w = (Ok None, w)).
Proof.
  intros HI Hp. destruct (List.filter p l) as [|s [|s' rest]] eqn:E.
  - right. split; [|done]. intros s Hs. destruct (p s) eqn:Ep; [|done]. assert (s ∈ List.filter p l) as Hin by by apply elem_of_filterb.
    rewrite E in Hin. by apply not_elem_of_nil in Hin.
  - left. exists s. assert (s ∈ List.filter p l) as [? ?]%elem_of_filterb; [rewrite E; by left|done].
  - exfalso. assert (s ∈ List.filter p l) as [Hs Ps]%elem_of_filterb by (rewrite E; by left).
    assert (s' ∈ List.filter p l) as [Hs' Ps']%elem_of_filterb by (rewrite E; right; by left).
    assert (s = s') as <- by (eapply (si_unique _ _ HI); eauto).
    pose proof (NoDup_map_filter rs_id p l (si_ids _ _ HI)) as Hn. rewrite E in Hn. cbn in Hn. apply NoDup_cons in Hn as [Hn _].
    apply Hn. by left.
Qed.

Lemma has_hash_spec org h s : has_hash org h s = true ↔ rs_organization_id s = org ∧ rs_token_hash s = h.
Proof. unfold has_hash. by rewrite andb_true_iff, N.eqb_eq, String.eqb_eq. Qed.
Lemma had_hash_spec org h s : had_hash org h s = true ↔ rs_organization_id s = org ∧ rs_previous_token_hash s = Some h.
Proof. unfold had_hash. by rewrite andb_true_iff, N.eqb_eq, bool_decide_eq_true. Qed.

Lemma by_hash_spec n org h w :
  SessionInv n (sessions w) →
  (∃ s, s ∈ sessions w ∧ rs_organization_id s = org ∧ rs_token_hash s = h ∧ by_token_hash org h w = (Ok (Some s), w)) ∨
  ((∀ s, s ∈ sessions w → rs_organization_id s = org → rs_token_hash s ≠ h) ∧ by_token_hash org h w = (Ok None, w)).
Proof.
  intros HI. destruct (one_or_none_filter n _ (has_hash org h) h w HI) as [(s & Hs & [E1 E2]%has_hash_spec & E)|[Hno E]].
  - intros s Hs [_ <-]%has_hash_spec. by left.
  - left. by exists s.
  - right. split; [|done]. intros s Hs E1 E2. specialize (Hno s Hs). by rewrite (proj2 (has_hash_spec org h s)) in Hno.
Qed.

Lemma by_previous_spec n org h w :
  SessionInv n (sessions w) →
  (∃ s, s ∈ sessions w ∧ rs_organization_id s = org ∧ rs_previous_token_hash s = Some h ∧
        by_previous_token_hash org h w = (Ok (Some s), w)) ∨
  ((∀ s, s ∈ sessions w → rs_organization_id s = org → rs_previous_token_hash s ≠ Some h) ∧
   by_previous_token_hash org h w = (Ok None, w)).
Proof.
  intros HI. destruct (one_or_none_filter n _ (had_hash org h) h w HI) as [(s & Hs & [E1 E2]%had_hash_spec & E)|[Hno E]].
  - intros s Hs [_ E]%had_hash_spec. unfold hashes. rewrite E. right. by left.
  - left. by exists s.
  - right. split; [|done]. intros s Hs E1 E2. specialize (Hno s Hs). by rewrite (proj2 (had_hash_spec org h s)) in Hno.
Qed.

(** ** Rotation *)

Lemma rotate_spec now parts row w :
  SessionInv (aw_draws w) (sessions w) →
  let new := new_refresh_token (tp_organization_id parts) (token_urlsafe (aw_draws w)) in
  (∃ s w', s ∈ sessions w ∧ rotatable (tp_organization_id parts) (rs_id row) (tp_token_hash parts) s = true ∧
     refresh_rotate now parts row w = (Ok (Some (rs_user_id row, rs_id row, new)), w') ∧
     ∀ s', s' ∈ sessions w' → rs_token_hash s' ≠ tp_token_hash parts) ∨
  ((∀ s, s ∈ sessions w → rotatable (tp_organization_id parts) (rs_id row) (tp_token_hash parts) s = false) ∧
   ∃ w', refresh_rotate now parts row w = (Ok None, w')).
Proof.
  intros HI new. unfold refresh_rotate, draw_refresh_token, rotate, mbind, AuthM_bind. cbn [adraw mret AuthM_ret agets].
  set (w1 := set_aw_draws _ w). change (ad_sessions (aw_db w1)) with (sessions w).
  destruct (existsb (rotatable _ _ _) (sessions w)) eqn:He; cbn [negb].
  - left. apply existsb_elem in He as (s & Hs & Hr). pose proof (drawn_new (tp_organization_id parts) (aw_draws w)) as Hnew.
    destruct (existsb _ _) eqn:Hc.
    { exfalso. apply existsb_elem in Hc as (s' & Hs' & [_ E%String.eqb_eq]%andb_true_iff). apply Hnew.
      assert (token_hash (tp_organization_id parts) (aw_draws w) = rs_token_hash s') as -> by (symmetry; exact E).
      apply (si_drawn _ _ HI s'); [done|by left]. }
    eexists s, _. split; [done|]. split; [done|]. split; [reflexivity|].
    intros s' (y & Hy & ->)%elem_of_update_where. pose proof (proj1 (rotatable_spec _ _ _ _) Hr) as (Hid & Eh & Hl).
    assert (drawn (aw_draws w) (tp_token_hash parts)) as Hd. { rewrite <- Eh. apply (si_drawn _ _ HI s); [done|by left]. }
    destruct (rotatable _ _ _ y) eqn:Ey.
    + intros E. apply Hnew.
      assert (token_hash (tp_organization_id parts) (aw_draws w) = tp_token_hash parts) as -> by exact E. done.
    + intros E. rewrite (si_unique _ _ HI y s (tp_token_hash parts)) in Ey; [congruence|done|done|rewrite <- E; by left|rewrite <- Eh; by left].
  - right. split; [by apply existsb_none|]. by eexists.
Qed.

(** ** Executions *)

Abbreviation session_inv w := (SessionInv (aw_draws w) (sessions w)).

Lemma proceed_world {T} (next : T → refresh_stage) r : (proceed next r).2 = r.2.
Proof. by destruct r as [[]]. Qed.

Lemma refresh_step_follows raw s w : session_inv w → follows (aw_draws w) w (refresh_step raw s w).2.
Proof.
  intros HI. destruct s as [|parts|now parts row|now parts row|r]; cbn [refresh_step].
  - destruct (parse_refresh_token raw) as [parts|]; [|by apply follows_still].
    rewrite proceed_world. apply (still_tame (look parts)); [|done]. keep_still.
  - rewrite proceed_world. exact (auth_tame_txn _ (tame_missing parts) w HI).
  - rewrite proceed_world. exact (auth_tame_txn _ (tame_admitted now parts row) w HI).
  - assert (tame (exchange now parts row)) as Ht.
    { apply auth_tame_bind; [apply auth_tame_txn, tame_refresh_rotate|]. intros issued. apply still_tame. keep_still. }
    specialize (Ht w HI). by destruct (exchange now parts row w).
  - by apply follows_still.
Qed.

Lemma auth_step_follows st st' : auth_step st st' → session_inv st.1 → follows (aw_draws st.1) st.1 st'.1.
Proof.
  destruct 1 as [w cs i raw s Hi|w cs raw|w cs request ip|w cs raw|w cs org id|w cs w' E D]; cbn [fst]; intros HI.
  - by apply refresh_step_follows.
  - by apply follows_still.
  - by apply tame_login.
  - by apply tame_logout.
  - by apply tame_revoke.
  - by apply follows_still.
Qed.

Lemma follows_trans n w1 w2 w3 : (n ≤ aw_draws w2)%nat → follows n w1 w2 → follows (aw_draws w2) w2 w3 → follows n w1 w3.
Proof.
  intros Hn (I1 & E1 & D1) (I2 & E2 & D2). split; [done|]. split; [|lia]. etrans; [done|]. by eapply evolves_mono.
Qed.

Lemma auth_steps_follow st st' : rtc auth_step st st' → session_inv st.1 → follows (aw_draws st.1) st.1 st'.1.
Proof.
  induction 1 as [st|st1 st2 st3 Hs Hr IH]; intros HI; [by apply follows_still|].
  pose proof (auth_step_follows _ _ Hs HI) as H1. eapply follows_trans; [|done|apply IH, H1]. apply H1.
Qed.

(** ** Callers *)

Definition stage_ok (w : AuthWorld) (raw : string) (s : refresh_stage) : Prop :=
  match s with
  | Presented => True
  | Missing parts => parse_refresh_token raw = Some parts
  | Found now parts row | Vetted now parts row =>
      parse_refresh_token raw = Some parts ∧ rs_organization_id row = tp_organization_id parts ∧
      ∃ s, s ∈ sessions w ∧ ident s = ident row
  | Done (Ok a) =>
      ∃ parts, parse_refresh_token raw = Some parts ∧ drawn (aw_draws w) (tp_token_hash parts) ∧
        (∀ s, s ∈ sessions w → rs_token_hash s ≠ tp_token_hash parts) ∧
        ∃ s, s ∈ sessions w ∧ ident s = (se_session_id a, se_organization_id a, se_user_id a)
  | Done (Err _) => True
  end.

Lemma auth_stage_ok_kept w w' raw s : follows (aw_draws w) w w' → stage_ok w raw s → stage_ok w' raw s.
Proof.
  intros (_ & [S R] & D). destruct s as [|parts|now parts row|now parts row|[a|e]]; cbn [stage_ok]; [done..| | | |done].
  1,2: intros (? & ? & s & (s' & Hs' & E & _)%R & Ei); split; [done|]; split; [done|]; exists s'; split; [done|congruence].
  intros (parts & Hp & Hd & Hno & s & (s' & Hs' & E & _)%R & Ei). exists parts. split; [done|]. split; [by eapply drawn_mono|].
  split; [by apply S|]. exists s'. split; [done|congruence].
Qed.

(** A step of a caller; when it is answered, the session had the token until then. *)
Lemma refresh_step_ok raw s w :
  session_inv w → stage_ok w raw s →
  stage_ok (refresh_step raw s w).2 raw (refresh_step raw s w).1 ∧
  (∀ a, (refresh_step raw s w).1 = Done (Ok a) → s = Done (Ok a) ∨
     ∃ parts row, parse_refresh_token raw = Some parts ∧ row ∈ sessions w ∧ rs_token_hash row = tp_token_hash parts).
Proof.
  intros HI Hok. destruct s as [|parts|now parts row|now parts row|r]; cbn [refresh_step].
  - destruct (parse_refresh_token raw) as [parts|] eqn:Hp; [|done]. unfold look, mbind, AuthM_bind. cbn [anow].
    set (w1 := set_aw_reads _ w).
    destruct (by_hash_spec (aw_draws w1) (tp_organization_id parts) (tp_token_hash parts) w1 HI)
      as [(s & Hs & E1 & E2 & E)|[Hno E]]; rewrite E; cbn [mret AuthM_ret proceed fst snd stage_ok]; [|done].
    split; [|done]. split; [done|]. split; [done|]. by exists s.
  - destruct (atransaction (refresh_missing parts) w) as [[u|e] w']; cbn; done.
  - pose proof (auth_tame_txn _ (tame_admitted now parts row) w HI) as Hf.
    destruct (atransaction (refresh_admitted now parts row) w) as [[[]|e] w']; cbn [proceed fst snd] in *; [|done..].
    split; [|done]. by apply (auth_stage_ok_kept w w' raw (Found now parts row)).
  - destruct Hok as (Hp & Eo & s0 & Hs0 & Ei). unfold exchange, mbind, AuthM_bind, atransaction.
    pose proof (tame_refresh_rotate now parts row w HI) as (I1 & [_ R1] & D1).
    destruct (rotate_spec now parts row w HI) as [(s & w' & Hs & Hr & E & Hno)|[_ (w' & E)]]; rewrite E in *; [|done].
    cbn [refresh_answer snd] in *. unfold access_token, mbind, AuthM_bind. cbn [auuid mret AuthM_ret fst snd].
    apply rotatable_spec in Hr as (_ & Eh & _). split; [|intros a _; right; by exists parts, s].
    cbn [stage_ok]. exists parts. split; [done|]. split; [|split; [done|]].
    + eapply drawn_mono; [exact D1|]. rewrite <- Eh. apply (si_drawn _ _ HI s); [done|by left].
    + destruct (R1 s0 Hs0) as (s' & Hs' & E' & _). exists s'. split; [done|]. rewrite E', Ei. unfold ident. by rewrite Eo.
  - split; [done|]. intros a [= ->]. by left.
Qed.

Record AuthInv (w : AuthWorld) (callers : list (string * refresh_stage)) : Prop := {
  av_sessions : session_inv w;
  av_stages : ∀ i raw s, callers !! i = Some (raw, s) → stage_ok w raw s;
  av_once : ∀ i j raw a b, callers !! i = Some (raw, Done (Ok a)) → callers !! j = Some (raw, Done (Ok b)) → i = j;
}.

Lemma world_inv w w' callers : follows (aw_draws w) w w' → AuthInv w callers → AuthInv w' callers.
Proof.
  intros Hf [I S O]. split; [apply Hf| |done]. intros i raw s Hi. eapply auth_stage_ok_kept; [done|]. by eapply S.
Qed.

Lemma auth_step_inv st st' : auth_step st st' → AuthInv st.1 st.2 → AuthInv st'.1 st'.2.
Proof.
  intros Hstep HA. pose proof (auth_step_follows _ _ Hstep (av_sessions _ _ HA)) as Hf.
  destruct Hstep as [w cs i raw s Hi|w cs raw|w cs request ip|w cs raw|w cs org id|w cs w' E D]; cbn [fst snd] in *;
    try by eapply world_inv.
  - destruct HA as [I S O]. pose proof (lookup_lt_Some _ _ _ Hi) as Hlt.
    destruct (refresh_step_ok raw s w I (S _ _ _ Hi)) as [Hok Hnew].
    assert (∀ j raw' s', <[i:=(raw, (refresh_step raw s w).1)]> cs !! j = Some (raw', s') →
      j = i ∧ raw' = raw ∧ s' = (refresh_step raw s w).1 ∨ j ≠ i ∧ cs !! j = Some (raw', s')) as Hcase.
    { intros j raw' s' Hj. destruct (decide (j = i)) as [-> | Hne].
      - rewrite list_lookup_insert_eq in Hj by done. injection Hj as <- <-. by left.
      - rewrite list_lookup_insert_ne in Hj by done. by right. }
    assert (∀ j a b, cs !! j = Some (raw, Done (Ok b)) → j ≠ i → (refresh_step raw s w).1 = Done (Ok a) → False) as Hother.
    { intros j a b Hj Hne [-> | (parts & row & Hp & Hrow & E)]%Hnew; [by destruct Hne; eapply O|].
      destruct (S _ _ _ Hj) as (parts' & Hp' & _ & Hno & _). rewrite Hp in Hp'. injection Hp' as <-. by apply (Hno row). }
    split; [apply Hf| |].
    + intros j raw' s' [(-> & -> & ->)|[_ Hj]]%Hcase; [done|]. eapply auth_stage_ok_kept; [done|]. by eapply S.
    + intros j k raw' a b [(Ej & Er & Ea)|[Hj Hj']]%Hcase [(Ek & Er' & Eb)|[Hk Hk']]%Hcase; subst; [done| | |by eapply O].
      * destruct (Hother k a b Hk' Hk). by rewrite <- Ea.
      * destruct (Hother j b a Hj' Hj). by rewrite <- Eb.
  - destruct HA as [I S O]. split; [done| |].
    + intros i raw' s [Hi|[_ Hi]]%lookup_app_Some; [by eapply S|]. apply list_lookup_singleton_Some in Hi as [_ [= _ <-]]. done.
    + assert (∀ i raw' a, (cs ++ [(raw, Presented)]) !! i = Some (raw', Done (Ok a)) → cs !! i = Some (raw', Done (Ok a))) as Hold.
      { intros i raw' a [Hi|[_ Hi]]%lookup_app_Some; [done|]. by apply list_lookup_singleton_Some in Hi as [_ Hi]. }
      intros i j raw' a b Hi%Hold Hj%Hold. by eapply O.
Qed.

Lemma auth_reachable_inv w callers : auth_reachable (w, callers) → AuthInv w callers.
Proof.
  intros (w0 & E & Hr). assert (AuthInv w0 []) as H0.
  { split; [|done..]. rewrite E. split; [apply NoDup_nil_2|by intros *; intros ?%not_elem_of_nil..]. }
  remember (w0, []) as st0 eqn:E0. remember (w, callers) as st eqn:E1.
  assert (AuthInv st0.1 st0.2 → AuthInv st.1 st.2) as Hinv.
  { clear -Hr Laws. induction Hr as [|x y z Hxy _ IH]; [done|]. intros Hx. by apply IH, (auth_step_inv x). }
  rewrite E0, E1 in Hinv. by apply Hinv.
Qed.

(** ** Theorems on sessions *)

(** [refresh] when no session has the token. *)
Lemma refresh_unmatched raw parts w :
  session_inv w → parse_refresh_token raw = Some parts →
  (∀ s, s ∈ sessions w → rs_organization_id s = tp_organization_id parts → rs_token_hash s ≠ tp_token_hash parts) →
  refresh cfg ts raw w = (Err AuthError.AuthenticationFailedError, (refresh_missing parts (anow w).2).2).
Proof.
  intros HI Hp Hno. unfold refresh. rewrite Hp. unfold mbind at 1 2, AuthM_bind at 1 2. cbn [anow]. set (w1 := set_aw_reads _ w).
  unfold atransaction, mbind at 1, AuthM_bind at 1.
  destruct (by_hash_spec (aw_draws w1) (tp_organization_id parts) (tp_token_hash parts) w1 HI)
    as [(s & Hs & E1 & E2 & _)|[_ ->]]; [by destruct (Hno s Hs)|].
  unfold mbind, AuthM_bind. change (anow w).2 with w1. unfold refresh_missing, mbind, AuthM_bind.
  destruct (by_previous_spec (aw_draws w1) (tp_organization_id parts) (tp_token_hash parts) w1 HI) as [(s & Hs & E1 & E2 & E)|[_ E]];
    rewrite E; [|done]. done.
Qed.

(** [refresh] when a session has it. *)
Lemma refresh_matched raw parts w s :
  session_inv w → parse_refresh_token raw = Some parts →
  s ∈ sessions w → rs_organization_id s = tp_organization_id parts → rs_token_hash s = tp_token_hash parts →
  let now := aw_clock w (aw_reads w) in let w1 := set_aw_reads (S (aw_reads w)) w in
  refresh cfg ts raw w =
  match refresh_admitted now parts s w1 with
  | (Ok true, w2) =>
      match refresh_rotate now parts s w2 with
      | (Ok issued, w3) => refresh_answer cfg ts now (tp_organization_id parts) issued w3
      | (Err e, w3) => (Err e, set_aw_db (aw_db w1) w3)
      end
  | (Ok false, w2) => (Err AuthError.AuthenticationFailedError, w2)
  | (Err e, w2) => (Err e, set_aw_db (aw_db w1) w2)
  end.
Proof.
  intros HI Hp Hs Eo Eh now w1. unfold refresh. rewrite Hp. unfold mbind at 1 2, AuthM_bind at 1 2. cbn [anow]. fold now w1.
  unfold atransaction, mbind at 1, AuthM_bind at 1.
  destruct (by_hash_spec (aw_draws w1) (tp_organization_id parts) (tp_token_hash parts) w1 HI)
    as [(s' & Hs' & E1 & E2 & ->)|[Hno _]]; [|by destruct (Hno s Hs)].
  assert (s' = s) as -> by (apply (si_unique _ _ HI s' s (tp_token_hash parts)); [done..|rewrite <- E2; by left|rewrite <- Eh; by left]).
  unfold mbind, AuthM_bind. destruct (refresh_admitted now parts s w1) as [[[]|e] w2]; [|done..].
  by destruct (refresh_rotate now parts s w2) as [[issued|e] w3].
Qed.

Lemma revoked_refused raw parts w s :
  session_inv w → parse_refresh_token raw = Some parts →
  s ∈ sessions w → rs_organization_id s = tp_organization_id parts → rs_token_hash s = tp_token_hash parts →
  rs_revoked_at s ≠ None → (refresh cfg ts raw w).1 = Err AuthError.AuthenticationFailedError.
Proof.
  intros HI Hp Hs Eo Eh Hr. rewrite (refresh_matched raw parts w s) by done. unfold refresh_admitted, live.
  by destruct (rs_revoked_at s).
Qed.

Lemma find_session n w org id s :
  SessionInv n (sessions w) → s ∈ sessions w → rs_organization_id s = org → rs_id s = id →
  List.find (is_session org id) (sessions w) = Some s.
Proof.
  intros HI Hs Eo Ei. assert (is_session org id s = true) as Hp by by apply is_session_spec.
  destruct (List.find _ _) as [s'|] eqn:Hf.
  - apply find_elem in Hf as [Hs' Hp']. f_equal. by eapply one_session.
  - by rewrite (find_none_elem _ _ s Hf Hs) in Hp.
Qed.

Lemma revoked_invalid n w s user :
  SessionInv n (sessions w) → s ∈ sessions w → rs_revoked_at s ≠ None →
  (require_valid (rs_organization_id s) user (rs_id s) w).1 = Err AuthError.SessionRevokedError.
Proof.
  intros HI Hs Hr. unfold require_valid, require_valid_in, atransaction, mbind, AuthM_bind. cbn [anow session_by_id agets].
  set (w1 := set_aw_reads _ w). change (ad_sessions (aw_db w1)) with (sessions w). rewrite (find_session n w _ _ s) by done.
  unfold live. by destruct (rs_revoked_at s).
Qed.

(** The row of a session after its revocation. *)
Lemma revoked_row n w org id s :
  SessionInv n (sessions w) → s ∈ sessions w → rs_organization_id s = org → rs_id s = id →
  ∃ s', s' ∈ sessions (revoke_session org id w).2 ∧ ident s' = ident s ∧ rs_revoked_at s' ≠ None.
Proof.
  intros HI Hs Eo Ei. unfold revoke_session, mbind, AuthM_bind. cbn [anow amodify snd].
  eexists. split; [apply elem_of_update_where; by exists s|]. rewrite (proj2 (is_session_spec org id s)) by done.
  unfold live. by destruct (rs_revoked_at s) eqn:E; cbn; rewrite ?E.
Qed.

(** C6. A refresh token buys at most one pair of tokens. In every reachable state, with any
    number of callers in any interleaving with each other, with logins and logouts and
    with everything else, two callers that presented one token are not both answered with
    a session; and whoever presents a token that was exchanged is refused. The session a
    caller was answered with is a row of the table with that user and organization. *)
Theorem refresh_token_single_use w callers :
  auth_reachable (w, callers) →
  (∀ i j raw a b, callers !! i = Some (raw, Done (Ok a)) → callers !! j = Some (raw, Done (Ok b)) → i = j) ∧
  (∀ i raw a, callers !! i = Some (raw, Done (Ok a)) →
     (refresh cfg ts raw w).1 = Err AuthError.AuthenticationFailedError ∧
     ∃ s, s ∈ sessions w ∧ rs_id s = se_session_id a ∧ rs_organization_id s = se_organization_id a ∧ rs_user_id s = se_user_id a).
Proof.
  intros [HI HS HO]%auth_reachable_inv. split; [done|]. intros i raw a Hi.
  destruct (HS i raw _ Hi) as (parts & Hp & _ & Hno & s & Hs & E). split.
  - rewrite (refresh_unmatched raw parts w HI Hp); [done|]. intros s' Hs' _. by apply Hno.
  - exists s. unfold ident in E. injection E as ? ? ?. done.
Qed.

(** C15. Presenting the predecessor of a session's token revokes the session for good: the
    caller is refused, and in every later state the session is revoked, no request that
    names it passes the check of live state, and its current token is refused as well. *)
Theorem reuse_revokes_family w callers raw parts s w2 callers2 :
  auth_reachable (w, callers) → parse_refresh_token raw = Some parts →
  s ∈ sessions w → rs_organization_id s = tp_organization_id parts → rs_previous_token_hash s = Some (tp_token_hash parts) →
  rs_token_hash s ≠ tp_token_hash parts →
  rtc auth_step ((refresh cfg ts raw w).2, callers) (w2, callers2) →
  (refresh cfg ts raw w).1 = Err AuthError.AuthenticationFailedError ∧
  ∃ s2, s2 ∈ sessions w2 ∧ rs_id s2 = rs_id s ∧ rs_revoked_at s2 ≠ None ∧
    (∀ user, (require_valid (rs_organization_id s) user (rs_id s) w2).1 = Err AuthError.SessionRevokedError) ∧
    (∀ raw' parts', parse_refresh_token raw' = Some parts' → tp_organization_id parts' = rs_organization_id s →
       tp_token_hash parts' = rs_token_hash s2 → (refresh cfg ts raw' w2).1 = Err AuthError.AuthenticationFailedError).
Proof.
  intros HI%auth_reachable_inv Hp Hs Eo Eprev Ene Hsteps. apply av_sessions in HI.
  assert (∀ s', s' ∈ sessions w → rs_organization_id s' = tp_organization_id parts → rs_token_hash s' ≠ tp_token_hash parts) as Hno.
  { intros s' Hs' _ E. apply Ene. rewrite (si_unique _ _ HI s s' (tp_token_hash parts)); [done..| |].
    - unfold hashes. rewrite Eprev. right. by left.
    - rewrite <- E. by left. }
  rewrite (refresh_unmatched raw parts w HI Hp Hno) in *. cbn [fst snd] in *. split; [done|].
  set (w1 := (anow w).2) in *. assert (session_inv w1) as HI1 by exact HI.
  pose proof (tame_missing parts w1 HI1) as (HI' & _ & _).
  assert (∃ s1, s1 ∈ sessions (refresh_missing parts w1).2 ∧ ident s1 = ident s ∧ rs_revoked_at s1 ≠ None) as (s1 & Hs1 & Ei & Hr).
  { unfold refresh_missing, mbind, AuthM_bind.
    destruct (by_previous_spec (aw_draws w1) (tp_organization_id parts) (tp_token_hash parts) w1 HI1)
      as [(s' & Hs' & E1 & E2 & ->)|[Hnone _]]; [|by destruct (Hnone s Hs)].
    assert (s' = s) as ->.
    { apply (si_unique _ _ HI s' s (tp_token_hash parts)); [done..| |]; unfold hashes; rewrite ?E2, ?Eprev; right; by left. }
    by eapply (revoked_row (aw_draws w1) w1). }
  destruct (auth_steps_follow _ _ Hsteps HI') as (HI2 & [_ HR] & _). cbn [fst] in *.
  destruct (HR s1 Hs1) as (s2 & Hs2 & Ei2 & Hr2). specialize (Hr2 Hr). rewrite Ei in Ei2. injection Ei2 as E1 E2 E3.
  assert (rs_revoked_at s2 ≠ None) as Hrev by congruence.
  exists s2. split; [done|]. split; [done|]. split; [done|]. split.
  - intros user. rewrite <- E1, <- E2. by eapply revoked_invalid.
  - intros raw' parts' Hp' Eo' Eh'. apply (revoked_refused raw' parts' w2 s2); [done..|congruence|done|done].
Qed.

(** What lets a session be rotated. *)
Definition admissible (now : Z) (org : uuid) (d : AuthDB) (s : RefreshSessionRecord) : Prop :=
  rs_revoked_at s = None ∧ now < rs_expires_at s ∧
  (∃ u, List.find (λ u, N.eqb (us_id u) (rs_user_id s)) (ad_users d) = Some u ∧ us_status u = UserStatus.ACTIVE) ∧
  (∃ m, List.find (is_member org (rs_user_id s)) (ad_memberships d) = Some m ∧ mb_status m = MembershipStatus.ACTIVE).

Lemma admitted_decides now parts s w :
  refresh_admitted now parts s w = (Ok true, w) ∧ admissible now (tp_organization_id parts) (aw_db w) s ∨
  (∃ w', refresh_admitted now parts s w = (Ok false, w')) ∧ ¬ admissible now (tp_organization_id parts) (aw_db w) s.
Proof.
  unfold refresh_admitted, live, admissible. destruct (rs_revoked_at s) eqn:Er; cbn [negb orb].
  { right. split; [by eexists|naive_solver]. }
  destruct (Z.leb_spec (rs_expires_at s) now).
  { right. split; [by eexists|]. intros (_ & ? & _). lia. }
  unfold mbind, AuthM_bind. cbn [user_by_id for_user_in_organization agets mret AuthM_ret].
  destruct (List.find _ (ad_users _)) as [u|] eqn:Hu; cbn [negb]; [|right; split; [by eexists|naive_solver]].
  case_bool_decide; cbn [negb]; [|right; split; [by eexists|naive_solver]].
  destruct (List.find _ (ad_memberships _)) as [m|] eqn:Hm; [|right; split; [by eexists|naive_solver]].
  unfold membership_active. case_bool_decide; [left|right; split; [by eexists|naive_solver]].
  split; [done|]. by eauto 10.
Qed.

(** C34. [refresh] decides and never breaks. In every reachable state a token is answered with
    a session exactly when some session of its organization has it as its current token, is
    neither revoked nor expired, and its user and that user's membership are active; in
    every other case the error is [AuthenticationFailedError], the same for all of them.
    The status of the organization is not among the conditions: contrary to ADR-0046 and
    the runbook, the code renews sessions of a suspended organization (whose access tokens
    [require_valid] still refuses). *)
Theorem refresh_decides w callers raw :
  auth_reachable (w, callers) →
  ((∃ a, (refresh cfg ts raw w).1 = Ok a) ↔
   ∃ parts s, parse_refresh_token raw = Some parts ∧ s ∈ sessions w ∧
     rs_organization_id s = tp_organization_id parts ∧ rs_token_hash s = tp_token_hash parts ∧
     admissible (aw_clock w (aw_reads w)) (tp_organization_id parts) (aw_db w) s) ∧
  (∀ e, (refresh cfg ts raw w).1 = Err e → e = AuthError.AuthenticationFailedError).
Proof.
  intros HI%auth_reachable_inv%av_sessions.
  assert (∀ (c : Prop), ¬ c → (refresh cfg ts raw w).1 = Err AuthError.AuthenticationFailedError →
    ((∃ a, (refresh cfg ts raw w).1 = Ok a) ↔ c) ∧ (∀ e, (refresh cfg ts raw w).1 = Err e → e = AuthError.AuthenticationFailedError)) as Hno.
  { intros c Hc ->. split; [|congruence]. split; [by intros [? ?]|done]. }
  destruct (parse_refresh_token raw) as [parts|] eqn:Hp.
  2:{ apply Hno; [naive_solver|]. unfold refresh. by rewrite Hp. }
  destruct (by_hash_spec _ (tp_organization_id parts) (tp_token_hash parts) w HI) as [(s & Hs & Eo & Eh & _)|[Hnone _]].
  2:{ apply Hno; [naive_solver|]. by rewrite (refresh_unmatched raw parts w HI Hp Hnone). }
  pose proof (refresh_matched raw parts w s HI Hp Hs Eo Eh) as E. cbv zeta in E. set (w1 := set_aw_reads _ w) in E.
  destruct (admitted_decides (aw_clock w (aw_reads w)) parts s w1) as [[Ea Hadm]|[[w2 Ea] Hadm]]; rewrite Ea in E.
  - destruct (rotate_spec (aw_clock w (aw_reads w)) parts s w1 HI) as [(s' & w' & _ & _ & Er & _)|[Hrot _]].
    + rewrite Er in E. unfold refresh_answer, access_token, mbind, AuthM_bind in E. rewrite E. cbn. split; [|done]. split; [|by eauto]. intros _. by exists parts, s.
    + specialize (Hrot s Hs). rewrite (proj2 (rotatable_spec _ _ _ _)) in Hrot; [done|]. split; [by apply is_session_spec|by destruct Hadm].
  - apply Hno; [|by rewrite E]. intros (parts' & s' & [= <-] & Hs' & Eo' & Eh' & Hadm'). apply Hadm.
    rewrite <- (si_unique _ _ HI s' s (tp_token_hash parts)); [done..|rewrite <- Eh'; by left|rewrite <- Eh; by left].
Qed.
End system.
