(* ===== verification/AuthLogin.v ===== *)
(** * AuthLogin: what a login needs and tells, and who may restore a membership

    The first part is the brute-force limit of the login path: the local backend of
    [domain/auth/ratelimit.py], defined in [Resilience]. *)

From S2P Require Import Prelude.
From S2P Require Import PyText.
From S2P Require Import Lifecycles.
From S2P Require Import Normalization.
From S2P Require Import ScheduleSpec.
From S2P Require Import Calendar.
From S2P Require Import Store.
From S2P Require Import Tables.
From S2P Require Import Resilience.
From S2P Require Import AuthTokens.
From S2P Require Import Auth.
From S2P Require Import AuthSafety.

Open Scope Z_scope.

(** ** The failure counter *)

(** A failed login: its key and its time. *)
Definition login_failure : Type := string * Z.

Definition record_all (l : LoginLimits) (fails : list login_failure) (c : counts) : counts :=
  fold_left (λ c f, record_login_failure l f.2 f.1 c) fails c.

Definition attempts_of (key : string) (fails : list login_failure) : Z :=
  Z.of_nat (length (List.filter (λ f, String.eqb f.1 key) fails)).

(** ** Counters *)

Lemma count_of_drop e e' c : e ≠ e' → count_of e (drop_entry e' c) = count_of e c.
Proof.
  intros Hne. unfold count_of, drop_entry. f_equal. f_equal. induction c as [|[x n] c IH]; [done|]. cbn.
  destruct (decide (x = e')) as [->|Hx].
  - rewrite bool_decide_eq_true_2 by done. cbn. rewrite (bool_decide_eq_false_2 (e' = e)) by done. exact IH.
  - rewrite (bool_decide_eq_false_2 (x = e')) by done. cbn. by rewrite IH.
Qed.

Lemma find_dropped e c : List.find (λ x, bool_decide (fst x = e)) (drop_entry e c) = None.
Proof.
  induction c as [|[x n] c IH]; [done|]. cbn. destruct (decide (x = e)) as [->|Hx].
  - by rewrite bool_decide_eq_true_2.
  - rewrite bool_decide_eq_false_2 by done. cbn. by rewrite bool_decide_eq_false_2.
Qed.

Lemma count_bump e e' c : count_of e (bump e' c) = count_of e c + (if bool_decide (e = e') then 1 else 0).
Proof.
  unfold bump. destruct (decide (e = e')) as [->|Hne].
  - rewrite bool_decide_eq_true_2 by done. unfold count_of at 1. rewrite find_app, find_dropped. cbn.
    by rewrite bool_decide_eq_true_2.
  - rewrite bool_decide_eq_false_2 by done. rewrite Z.add_0_r, <- (count_of_drop e e' c) by done.
    unfold count_of at 1. rewrite find_app. cbn [List.find fst]. rewrite (bool_decide_eq_false_2 (e' = e)) by done.
    unfold count_of. by destruct (List.find _ _).
Qed.

Lemma length_bump e c : (length (bump e c) ≤ S (length c))%nat.
Proof.
  unfold bump, drop_entry. rewrite length_app. cbn. pose proof (filter_length_le (λ x : window_key * Z, negb (bool_decide (fst x = e))) c). lia.
Qed.

(** ** Pruning *)

Lemma prune_front_spec w c :
  (∀ k, count_of (k, w) (rev (prune_front w c)) = count_of (k, w) (rev c)) ∧
  (length (prune_front w c) ≤ length c)%nat.
Proof.
  induction c as [|[[k0 w0] n] c [IH1 IH2]]; [done|]. cbn [prune_front fst snd].
  destruct (w0 <? w) eqn:E; [|done]. split; [|cbn; lia]. intros k. rewrite IH1. cbn [rev].
  unfold count_of. rewrite find_app. cbn [List.find fst]. rewrite bool_decide_eq_false_2.
  - by destruct (List.find _ _).
  - intros [= _ ->]. lia.
Qed.

(** Pruning keeps the counts of the current window. *)
Lemma prune_spec w c :
  (∀ k, count_of (k, w) (prune w c) = count_of (k, w) c) ∧ (length (prune w c) ≤ length c)%nat.
Proof.
  unfold prune. destruct (prune_front_spec w (rev c)) as [H1 H2]. rewrite rev_involutive in H1.
  rewrite length_rev in H2 |- *. done.
Qed.

Lemma record_failure_spec l now key c k :
  (S (length c) ≤ max_keys l)%nat →
  let c' := record_login_failure l now key c in
  count_of (k, login_window l now) c' = count_of (k, login_window l now) c + (if String.eqb key k then 1 else 0) ∧
  (length c' ≤ S (length c))%nat.
Proof.
  intros Hlen. unfold record_login_failure. cbv zeta. set (w := login_window l now).
  destruct (prune_spec w c) as [H1 H2]. pose proof (length_bump (key, w) (prune w c)) as H3.
  rewrite take_ge by lia. rewrite count_bump, H1. split; [|lia]. f_equal.
  destruct (String.eqb_spec key k) as [->|Hne]; [by rewrite bool_decide_eq_true_2|].
  rewrite bool_decide_eq_false_2; [done|]. by intros [= ->].
Qed.

Lemma record_all_count l w fails c key :
  (∀ f, f ∈ fails → login_window l f.2 = w) → (length c + length fails ≤ max_keys l)%nat →
  count_of (key, w) (record_all l fails c) = count_of (key, w) c + attempts_of key fails.
Proof.
  revert c. induction fails as [|[k t] fails IH]; intros c Hw Hlen; [symmetry; apply Z.add_0_r|].
  cbn [record_all fold_left]. change (fold_left _ fails ?x) with (record_all l fails x). cbn [fst snd].
  assert (Ht : login_window l t = w) by (apply (Hw (k, t)); by constructor). cbn [length] in Hlen.
  destruct (record_failure_spec l t k c key) as [H1 H2]; [lia|]. cbv zeta in H1, H2. rewrite Ht in H1.
  rewrite IH; [|intros f Hf; apply Hw; by constructor|lia].
  rewrite H1. unfold attempts_of. cbn [List.filter fst]. destruct (String.eqb k key); cbn [length]; lia.
Qed.

Lemma count_of_nonneg e c : Forall (λ x : window_key * Z, 0 ≤ x.2) c → 0 ≤ count_of e c.
Proof.
  intros Hc. unfold count_of. destruct (List.find _ _) as [x|] eqn:E; cbn; [|lia].
  apply find_some in E as [Hin _]. rewrite List.Forall_forall in Hc. by apply Hc.
Qed.

(** Repeated login failures lock the key out: within one window, and while the table
    has room for the keys that fail in it, the failures of a key are counted exactly,
    whatever other keys fail in between, so that once there are [max_failures] of them
    every further check of the key in that window is refused. *)
Theorem login_lockout l w fails c key now :
  (∀ f, f ∈ fails → login_window l f.2 = w) → login_window l now = w →
  Forall (λ x : window_key * Z, 0 ≤ x.2) c →
  (length c + length fails ≤ max_keys l)%nat → max_failures l ≤ attempts_of key fails →
  (login_admitted l now key (record_all l fails c)).1 = false.
Proof.
  intros Hw Hnow Hpos Hlen Hmax. unfold login_admitted. cbn [fst]. rewrite Hnow.
  rewrite (proj1 (prune_spec w _)), (record_all_count l w) by done.
  pose proof (count_of_nonneg (key, w) c Hpos). apply Z.ltb_ge. lia.
Qed.

Definition demo_limits : LoginLimits := mkLoginLimits 3 900 4.

Lemma login_lockout_witness :
  (login_admitted demo_limits 100 "a" (record_all demo_limits [("a", 1); ("b", 2); ("a", 3); ("a", 90)]%string [])).1 = false ∧
  (login_admitted demo_limits 100 "b" (record_all demo_limits [("a", 1); ("b", 2); ("a", 3); ("a", 90)]%string [])).1 = true.
Proof.
  split; [|by vm_compute]. apply (login_lockout demo_limits 0); [|done|constructor|cbn; lia|by vm_compute].
  intros f Hf. repeat (apply elem_of_cons in Hf as [-> | Hf]; [by vm_compute|]). by apply not_elem_of_nil in Hf.
Defined.

(** ** A full table *)

(** A full table locks nobody else out: when [max_keys] other keys have failed in the
    current window, [record_failure] of a further key evicts the entry it has just
    written, so the key is admitted however often it fails. *)
Theorem full_table_never_locks l w c key times now :
  login_window l now = w → (∀ t, t ∈ times → login_window l t = w) → 0 < max_failures l →
  length c = max_keys l → (∀ x, x ∈ c → x.1.1 ≠ key ∧ x.1.2 = w) →
  record_all l (map (λ t, (key, t)) times) c = c ∧ (login_admitted l now key c).1 = true.
Proof.
  intros Hnow Hw Hmax Hlen Hc.
  assert (Hprune : prune w c = c).
  { unfold prune. destruct (rev c) as [|x r] eqn:E; [by rewrite <- (rev_involutive c), E|].
    assert (Hx : x ∈ c) by (rewrite <- (rev_involutive c), E; apply list_elem_of_In, in_rev; rewrite rev_involutive; by left).
    cbn [prune_front]. destruct (Hc x Hx) as [_ Hxw].
    destruct x as [[k0 w0] n0]. cbn [fst snd] in *. rewrite (proj2 (Z.ltb_ge _ _)) by lia.
    rewrite <- E. apply rev_involutive. }
  assert (Hdrop : drop_entry (key, w) c = c).
  { unfold drop_entry. clear -Hc. induction c as [|x c IH]; [done|]. cbn.
    rewrite bool_decide_eq_false_2.
    - cbn. f_equal. apply IH. intros y Hy. apply Hc. by constructor.
    - intros E. destruct (Hc x ltac:(by constructor)) as [Hk _]. apply Hk. destruct x as [[k0 w0] n0]. cbn in E |- *. congruence. }
  split.
  - induction times as [|t times IH]; [done|]. cbn [map record_all fold_left].
    assert (record_login_failure l t key c = c) as E.
    { unfold record_login_failure. rewrite (Hw t) by constructor. rewrite Hprune. unfold bump. rewrite Hdrop.
      rewrite <- Hlen. by rewrite take_app_length. }
    cbn [fst snd]. rewrite E. apply IH. intros t' Ht'. apply Hw. by constructor.
  - unfold login_admitted. cbn [fst]. rewrite Hnow, Hprune, <- Hdrop.
    unfold count_of. rewrite find_dropped. cbn. lia.
Qed.

Definition small_limits : LoginLimits := mkLoginLimits 3 900 2.

Definition full_table : counts := [(("a"%string, 0), 1); (("b"%string, 0), 1)].

Lemma full_table_never_locks_witness :
  record_all small_limits (map (λ t, ("z"%string, t)) [5; 6; 7; 8]) full_table = full_table ∧
  (login_admitted small_limits 9 "z" full_table).1 = true.
Proof.
  apply (full_table_never_locks small_limits 0); [done| |done|done|].
  - intros t Ht. repeat (apply elem_of_cons in Ht as [-> | Ht]; [by vm_compute|]). by apply not_elem_of_nil in Ht.
  - intros x Hx. repeat (apply elem_of_cons in Hx as [-> | Hx]; [done|]). by apply not_elem_of_nil in Hx.
Defined.

(** ** Operations that leave the tables alone *)

Definition quiet {T} (m : AuthM T) : Prop := ∀ w, aw_db (m w).2 = aw_db w.

Lemma auth_quiet_bind {T U} (m : AuthM T) (f : T → AuthM U) : quiet m → (∀ a, quiet (f a)) → quiet (m ≫= f).
Proof.
  intros Hm Hf w. specialize (Hm w). unfold mbind, AuthM_bind. destruct (m w) as [[a|e] w1]; simpl in *; [|done].
  by rewrite Hf.
Qed.
Lemma quiet_limiter {T} (f : counts → T * counts) : quiet (on_limiter f).
Proof. intros w. unfold on_limiter. by destruct (f _). Qed.
Lemma quiet_cache {T} (f : list (string * Z) → T * list (string * Z)) : quiet (cache_call f).
Proof. intros w. unfold cache_call. destruct (aw_cache_up _ _); [|done]. by destruct (f _). Qed.

Ltac keep_quiet :=
  repeat (intros; lazymatch goal with
  | |- quiet (_ ≫= _) => apply auth_quiet_bind
  | |- quiet (match ?x with _ => _ end) => destruct x
  | |- quiet (on_limiter _) => apply quiet_limiter
  | |- quiet (cache_call _) => apply quiet_cache
  | |- quiet ?m => first [solve [by intros w] | let h := get_head m in unfold h]
  end).

Lemma quiet_check cfg key : quiet (gate_check cfg key).
Proof. keep_quiet. Qed.
Lemma quiet_failure cfg key : quiet (gate_failure cfg key).
Proof. keep_quiet. Qed.
Lemma quiet_reset cfg key : quiet (gate_reset cfg key).
Proof. keep_quiet. Qed.

Section login.
Context `{UnicodeForms} {L : AuthLibrary} (cfg : AuthSettings) (ts : TokenService).

(** The user, credential and password that authenticate. *)
Definition proves (d : AuthDB) (email password : string) (u : UserRecord) : Prop :=
  List.find (λ u, String.eqb (us_email u) email) (ad_users d) = Some u ∧ us_status u = UserStatus.ACTIVE ∧
  ∃ c, hd_error (merge_sort newer_credential (List.filter (λ c, N.eqb (uc_user_id c) (us_id u)) (ad_credentials d))) = Some c ∧
       argon2_verify (uc_password_hash c) password = true.

Lemma set_db_same w d : aw_db w = d → set_aw_db d w = w.
Proof. intros <-. by destruct w. Qed.

Lemma authenticate_decides email password w :
  (∃ u, proves (aw_db w) email password u ∧ authenticate email password w = (Ok (us_id u), w)) ∨
  (∀ u, ¬ proves (aw_db w) email password u) ∧ authenticate email password w = (Err AuthError.AuthenticationFailedError, w).
Proof.
  unfold authenticate, atransaction, proves, mbind, AuthM_bind. cbn [user_by_email get_latest agets].
  destruct (List.find _ _) as [u|]; [|right; split; [naive_solver|by cbn; rewrite set_db_same]].
  destruct (hd_error _) as [c|] eqn:Ec; cbn [negb].
  2:{ right. split; [|by cbn; rewrite set_db_same]. intros u' ([= <-] & _ & c & Ec' & _). congruence. }
  destruct (argon2_verify _ _) eqn:Ev; cbn [negb orb].
  2:{ right. split; [|by cbn; rewrite set_db_same]. intros u' ([= <-] & _ & c' & Ec' & Ev'). congruence. }
  case_bool_decide as Ha; cbn [negb].
  - left. exists u. by eauto 10.
  - right. split; [|by cbn; rewrite set_db_same]. intros u' ([= <-] & ? & _). done.
Qed.

(** C35. A refused login does not tell why. For a well-formed request, whether the address is
    unknown, the password is wrong or the user is suspended, [login] does the same: it asks
    the rate limit of the address and client, counts a failure there and raises
    [AuthenticationFailedError]; nothing else of the world changes. *)
Theorem login_refusals_alike request ip w email :
  normalize_email (lg_email request) = Ok email → password_acceptable cfg (lg_password request) = true →
  (∀ u, ¬ proves (aw_db w) email (lg_password request) u) →
  let key := login_rate_key email ip in
  login cfg ts request ip w =
    (_ ← gate_check cfg key; _ ← gate_failure cfg key; araise AuthError.AuthenticationFailedError) w ∧
  aw_db (login cfg ts request ip w).2 = aw_db w.
Proof.
  intros He Hp Hno key.
  assert (login cfg ts request ip w =
    (_ ← gate_check cfg key; _ ← gate_failure cfg key; araise AuthError.AuthenticationFailedError) w) as ->.
  { unfold login, email_of. rewrite He, Hp. unfold mbind, AuthM_bind. cbn [alift negb]. fold key.
    pose proof (quiet_check cfg key w) as Hq. destruct (gate_check cfg key w) as [[u|e] w1]; [|done]. cbn in Hq. unfold atry.
    destruct (authenticate_decides email (lg_password request) w1) as [(u' & Hu & _)|[_ ->]]; [rewrite Hq in Hu; by destruct (Hno u')|].
    by destruct (gate_failure cfg key w1) as [[?|?] ?]. }
  split; [done|]. assert (quiet (_ ← gate_check cfg key; _ ← gate_failure cfg key; @araise AuthSession AuthError.AuthenticationFailedError)) as Hq.
  { apply auth_quiet_bind; [apply quiet_check|]. intros _. apply auth_quiet_bind; [apply quiet_failure|]. by intros _ w'. }
  apply Hq.
Qed.

(** What [establish_session] needs and writes. *)
Lemma establish_spec user org w a w' :
  establish_session cfg ts user org w = (Ok a, w') →
  (∃ status, List.find (λ o : uuid * OrganizationStatus, N.eqb o.1 org) (ad_organizations (aw_db w)) = Some status ∧
     is_operational status.2 = true) ∧
  (∃ m, List.find (is_member org user) (ad_memberships (aw_db w)) = Some m ∧ mb_status m = MembershipStatus.ACTIVE) ∧
  se_user_id a = user ∧ se_organization_id a = org ∧
  (∃ s, sessions w' = sessions w ++ [s] ∧ (∀ x, x ∈ sessions w → rs_id x ≠ rs_id s ∧ rs_token_hash x ≠ rs_token_hash s) ∧
     ident s = (se_session_id a, org, user) ∧ rs_token_hash s = hash_refresh_token (se_refresh_token a) ∧
     rs_revoked_at s = None).
Proof.
  unfold establish_session, draw_refresh_token, mbind, AuthM_bind. cbn [auuid adraw mret AuthM_ret anow].
  set (w1 := set_aw_reads _ _). unfold atransaction. unfold current_status, for_user_in_organization, mbind, AuthM_bind. cbn [agets].
  change (aw_db w1) with (aw_db w).
  destruct (List.find _ (ad_organizations _)) as [status|] eqn:Ho; [|done]. cbn [mret AuthM_ret].
  destruct (is_operational status.2) eqn:Hop; [|done]. cbn [negb]. change (aw_db w1) with (aw_db w).
  destruct (List.find _ (ad_memberships _)) as [m|] eqn:Hm; [|done].
  unfold membership_active. case_bool_decide as Hma; [|done]. cbn [negb].
  unfold insert_session, mbind, AuthM_bind. cbn [anow agets].
  destruct (existsb _ _ || _) eqn:Hnew; [done|]. cbn [amodify]. apply orb_false_iff in Hnew as [Hnew _]. rewrite existsb_none in Hnew.
  unfold access_token, mbind, AuthM_bind. cbn [auuid mret AuthM_ret]. intros [= <- <-].
  split; [by eauto|]. split; [by eauto|]. split; [done|]. split; [done|].
  eexists. split; [done|]. split; [|done]. intros x Hx. specialize (Hnew x Hx).
  apply orb_false_iff in Hnew as [E1%N.eqb_neq E2%String.eqb_neq]. done.
Qed.

Lemma select_member memberships requested org :
  select_organization memberships requested = Ok org →
  (∃ m, m ∈ memberships ∧ mb_organization_id m = org) ∧ (∀ o, requested = Some o → org = o).
Proof.
  unfold select_organization. destruct memberships as [|m rest]; [done|]. destruct requested as [o|].
  - destruct (forallb _ _) eqn:Hf; [done|]. intros [= ->]. split; [|congruence].
    apply not_true_iff_false in Hf. destruct (existsb (λ m, N.eqb (mb_organization_id m) org) (m :: rest)) eqn:He.
    + apply existsb_elem in He as (x & Hx & E%N.eqb_eq). eauto.
    + destruct Hf. apply forallb_forall. intros x Hx%list_elem_of_In. by rewrite (proj1 (existsb_none _ _) He x Hx).
  - destruct rest; [|done]. intros [= <-]. split; [|done]. exists m. split; [by left|done].
Qed.

(** C16. A login is granted only to who proves to be an active user with an active membership
    in an organization that operates: the password verifies against the newest credential
    of the user with the normalized address, the organization is the one asked for, if one
    was, and the answer is for a new session of that user there: one row is added to the
    sessions, with an identifier and a hash that none of them had, and the hash is that of
    the refresh token handed out. *)
Theorem login_requires_credentials request ip w a w' :
  login cfg ts request ip w = (Ok a, w') →
  ∃ email u m status,
    normalize_email (lg_email request) = Ok email ∧ password_acceptable cfg (lg_password request) = true ∧
    proves (aw_db w) email (lg_password request) u ∧ se_user_id a = us_id u ∧
    List.find (is_member (se_organization_id a) (us_id u)) (ad_memberships (aw_db w)) = Some m ∧
    mb_status m = MembershipStatus.ACTIVE ∧
    List.find (λ o : uuid * OrganizationStatus, N.eqb o.1 (se_organization_id a)) (ad_organizations (aw_db w)) = Some status ∧
    is_operational status.2 = true ∧
    (∀ o, lg_organization_id request = Some o → se_organization_id a = o) ∧
    ∃ s, sessions w' = sessions w ++ [s] ∧ (∀ x, x ∈ sessions w → rs_id x ≠ rs_id s ∧ rs_token_hash x ≠ rs_token_hash s) ∧
      ident s = (se_session_id a, se_organization_id a, us_id u) ∧
      rs_token_hash s = hash_refresh_token (se_refresh_token a) ∧ rs_revoked_at s = None.
Proof.
  unfold login, email_of. unfold mbind at 1, AuthM_bind at 1. cbn [alift]. destruct (normalize_email _) as [email|] eqn:He; [|done].
  destruct (password_acceptable _ _) eqn:Hp; [|done]. cbn [negb]. set (key := login_rate_key email ip).
  unfold mbind at 1, AuthM_bind at 1. pose proof (quiet_check cfg key w) as Hq. destruct (gate_check cfg key w) as [[[]|] w1]; [|done].
  cbn in Hq. unfold mbind at 1, AuthM_bind at 1, atry. unfold mbind at 1, AuthM_bind at 1.
  destruct (authenticate_decides email (lg_password request) w1) as [(u & Hu & ->)|[_ ->]].
  2:{ unfold mbind, AuthM_bind. by destruct (gate_failure cfg key w1) as [[?|?] ?]. }
  unfold active_memberships, memberships_for_user, mbind, AuthM_bind. cbn [agets mret AuthM_ret alift].
  destruct (select_organization _ _) as [org|e] eqn:Hsel; [|by destruct e; cbn; try destruct (gate_failure _ _ _) as [[?|?] ?]].
  destruct (establish_session cfg ts (us_id u) org w1) as [[a'|e] w2] eqn:Hest.
  2:{ by destruct e; cbn; try destruct (gate_failure _ _ _) as [[?|?] ?]. }
  pose proof (quiet_reset cfg key w2) as Hq2. destruct (gate_reset cfg key w2) as [[[]|] w3]; [|done]. cbn in Hq2. intros [= <- <-].
  apply establish_spec in Hest as ((status & Ho & Hop) & (m & Hm & Hma) & Eu & Eorg & s & Hs & Hnew & Hid & Hh & Hr).
  apply select_member in Hsel as [_ Hreq]. rewrite Hq in *. exists email, u, m, status. rewrite Eorg.
  split; [done|]. split; [done|]. split; [done|]. split; [done|]. split; [done|]. split; [done|]. split; [done|]. split; [done|].
  split; [by intros o ?; apply Hreq|]. exists s. by rewrite Hq2.
Qed.
End login.

(** ** Administration *)

Lemma find_update_where {T} (p q : T → bool) f l :
  (∀ x, p (f x) = p x) → List.find p (update_where q f l) = option_map (λ x, if q x then f x else x) (List.find p l).
Proof.
  intros Hf. induction l as [|x l IH]; [done|]. cbn. destruct (q x) eqn:Eq; rewrite ?Hf; (destruct (p x); [cbn; by rewrite Eq|exact IH]).
Qed.

(** The membership a status change reaches. *)
Lemma change_membership_spec status actor org user w m granted :
  (permissions_for org (pr_user_id actor) w).1 = Ok granted → MEMBERSHIP_MANAGE ∈ granted →
  List.find (is_member org user) (ad_memberships (aw_db w)) = Some m →
  ∃ w' m', change_membership status actor org user w = (Ok tt, w') ∧
    List.find (is_member org user) (ad_memberships (aw_db w')) = Some m' ∧ mb_status m' = status ∧
    (permissions_for org (pr_user_id actor) w').1 = Ok granted.
Proof.
  intros Hg Hin Hm. unfold change_membership, require_manage, require_permission, has_permission, mbind, AuthM_bind, atransaction.
  unfold permissions_for in *. cbn [agets fst] in *. injection Hg as Hg. rewrite Hg.
  cbn [mret AuthM_ret]. rewrite bool_decide_eq_true_2 by done. cbn [mret AuthM_ret for_user_in_organization agets].
  rewrite Hm. unfold set_membership_status, mbind, AuthM_bind. cbn [anow].
  assert (is_member org user m = true) as Hmem by by apply find_elem in Hm as [_ ?].
  assert ((N.eqb (mb_organization_id m) org && N.eqb (mb_id m) (mb_id m)) = true) as Hself.
  { apply andb_true_iff in Hmem as [-> _]. by rewrite N.eqb_refl. }
  case_bool_decide; cbn [anow mret AuthM_ret amodify]; (eexists _, _; split; [reflexivity|]; split;
    [cbn; rewrite find_update_where by done; rewrite Hm; cbn; rewrite Hself; reflexivity|]; split; [done|exact (f_equal Ok Hg)]).
Qed.

(** Revoking a membership leaves the permissions it came with: a manager whose membership
    is revoked keeps an active role assignment, which is all that [AuthorizationService]
    looks at, and may restore the membership through the same service. *)
Theorem revoked_manager_restores actor org w m granted :
  (permissions_for org (pr_user_id actor) w).1 = Ok granted → MEMBERSHIP_MANAGE ∈ granted →
  List.find (is_member org (pr_user_id actor)) (ad_memberships (aw_db w)) = Some m →
  ∃ w1 m1 w2 m2,
    revoke_membership actor org (pr_user_id actor) w = (Ok tt, w1) ∧
    List.find (is_member org (pr_user_id actor)) (ad_memberships (aw_db w1)) = Some m1 ∧ mb_status m1 = MembershipStatus.REVOKED ∧
    restore_membership actor org (pr_user_id actor) w1 = (Ok tt, w2) ∧
    List.find (is_member org (pr_user_id actor)) (ad_memberships (aw_db w2)) = Some m2 ∧ mb_status m2 = MembershipStatus.ACTIVE.
Proof.
  intros Hg Hin Hm. destruct (change_membership_spec MembershipStatus.REVOKED actor org _ w m granted Hg Hin Hm)
    as (w1 & m1 & E1 & Hm1 & Hs1 & Hg1).
  destruct (change_membership_spec MembershipStatus.ACTIVE actor org _ w1 m1 granted Hg1 Hin Hm1) as (w2 & m2 & E2 & Hm2 & Hs2 & _).
  by exists w1, m1, w2, m2.
Qed.
