(* ===== verification/AuthDemo.v ===== *)
(** * AuthDemo: a session from login to reuse

    [SignedTokens]: a concrete instance of the laws on access tokens, in which a token spells
    out its claims and its key, and identifiers are read back from their text. Then
    concrete libraries that satisfy the laws, and the witnesses of the theorems on
    authentication: a user logs in, the refresh token is presented by two callers at once,
    and the loser's retry revokes the session. *)

From Stdlib Require Import Bool.
From stdpp Require Import countable.
From S2P Require Import Prelude.
From S2P Require Import PyText.
From S2P Require Import Errors.
From S2P Require Import Lifecycles.
From S2P Require Import Conditions.
From S2P Require Import Normalization.
From S2P Require Import ScheduleSpec.
From S2P Require Import Calendar.
From S2P Require Import Store.
From S2P Require Import Tables.
From S2P Require Import Identity.
From S2P Require Import IdentityLaws.
From S2P Require Import Resilience.
From S2P Require Import AuthTokens.
From S2P Require Import Auth.
From S2P Require Import AuthSafety.
From S2P Require Import AuthLogin.

Module SignedTokens.

(** ** Identifiers *)

Definition hex_value (c : ascii) : option N :=
  if between "0" "9" c then Some (N_of_ascii c - 48)%N
  else if between "a" "f" c then Some (N_of_ascii c - 87)%N else None.

Fixpoint hex_number (acc : N) (s : string) : option N :=
  match s with EmptyString => Some acc | String c s => v ← hex_value c; hex_number (acc * 16 + v) s end.

Definition not_dash (c : ascii) : bool := negb (Ascii.eqb c "-").

Definition read_uuid (s : string) : option uuid := hex_number 0 (keep_chars not_dash s).

Lemma hex_digit_ok n : (n < 16)%N → hex_value (hex_digit n) = Some n ∧ not_dash (hex_digit n) = true.
Proof.
  intros Hn. assert (forallb (λ k, bool_decide (hex_value (hex_digit (N.of_nat k)) = Some (N.of_nat k)) &&
    not_dash (hex_digit (N.of_nat k))) (seq 0 16) = true) as Hall by (vm_compute; reflexivity).
  rewrite forallb_forall in Hall. specialize (Hall (N.to_nat n)). rewrite N2Nat.id in Hall.
  apply andb_true_iff in Hall as [H1 H2]; [|apply in_seq; lia]. by apply bool_decide_eq_true in H1.
Qed.

Lemma hex_number_digits k n acc rest :
  hex_number acc (hex_digits k n rest) = hex_number (acc * 16 ^ N.of_nat k + n mod 16 ^ N.of_nat k) rest.
Proof.
  revert n acc rest. induction k as [|k IH]; intros n acc rest.
  - cbn [hex_digits]. rewrite N.pow_0_r, N.mod_1_r. f_equal. lia.
  - cbn [hex_digits]. rewrite IH. cbn [hex_number]. destruct (hex_digit_ok (n mod 16)) as [-> _]; [by apply N.mod_lt|].
    cbn [mbind option_bind]. f_equal. rewrite Nat2N.inj_succ, N.pow_succ_r', N.Div0.mod_mul_r. lia.
Qed.

Lemma hex_digits_plain k n rest : all_chars not_dash rest = true → all_chars not_dash (hex_digits k n rest) = true.
Proof.
  revert n rest. induction k as [|k IH]; intros n rest Hr; [done|]. cbn [hex_digits]. apply IH. cbn.
  by rewrite (proj2 (hex_digit_ok (n mod 16) ltac:(by apply N.mod_lt))).
Qed.

Lemma substring_plain p i m s : all_chars p s = true → all_chars p (String.substring i m s) = true.
Proof.
  revert i m. induction s as [|c s IH]; intros i m; [by destruct i, m|]. cbn. rewrite andb_true_iff. intros [Hc Hs].
  destruct i, m; cbn; rewrite ?andb_true_iff; auto.
Qed.

Lemma keep_uuid_str u : keep_chars not_dash (uuid_str u) = uuid_hex u.
Proof.
  unfold uuid_str. cbv zeta. pose proof (hex_digits_plain 32 u EmptyString eq_refl) as Hp. fold (uuid_hex u) in Hp.
  assert (String.length (uuid_hex u) = 32%nat) as Hl by apply hex_length.
  rewrite !keep_chars_app. rewrite !(keep_chars_all not_dash (String.substring _ _ _)) by by apply substring_plain.
  change (keep_chars not_dash "-") with EmptyString. generalize (uuid_hex u) Hl. clear. intros a Ha.
  do 32 (destruct a as [|? a]; [discriminate Ha|]; apply eq_add_S in Ha). destruct a; [reflexivity|discriminate Ha].
Qed.

Lemma read_uuid_str u : (u < 2 ^ 128)%N → read_uuid (uuid_str u) = Some u.
Proof.
  intros Hu. unfold read_uuid. rewrite keep_uuid_str. unfold uuid_hex. rewrite hex_number_digits. cbn [hex_number].
  rewrite N.mul_0_l, N.add_0_l, N.mod_small; [done|exact Hu].
Qed.

(** ** Tokens *)

Definition plain_claim (v : json) : string + Z := match v with JStr s => inl s | JInt z => inr z | _ => inl EmptyString end.
Definition claim_json (v : string + Z) : json := match v with inl s => JStr s | inr z => JInt z end.

Fixpoint bits (p : positive) : string :=
  match p with xH => EmptyString | xO p => String "0" (bits p) | xI p => String "1" (bits p) end.
Fixpoint of_bits (s : string) : positive :=
  match s with EmptyString => xH | String c s => if Ascii.eqb c "1" then xI (of_bits s) else xO (of_bits s) end.

Lemma of_bits_bits p : of_bits (bits p) = p.
Proof. induction p as [p IH|p IH|]; cbn; by rewrite ?IH. Qed.

Definition open_token (s : string) : option (list (string * (string + Z)) * string) :=
  match s with EmptyString => None | String _ s => decode (of_bits s) end.

Definition seal_token (payload : list (string * json)) (kid : string) : string :=
  String "j" (bits (encode (map (λ c, (c.1, plain_claim c.2)) payload, kid))).

Lemma open_seal payload kid :
  open_token (seal_token payload kid) = Some (map (λ c, (c.1, plain_claim c.2)) payload, kid).
Proof. unfold open_token, seal_token. by rewrite of_bits_bits, decode_encode. Qed.

Lemma claims_back (payload : list (string * json)) :
  Forall (λ c, simple c.2) payload → map (λ c, (c.1, claim_json c.2)) (map (λ c, (c.1, plain_claim c.2)) payload) = payload.
Proof.
  induction 1 as [|[k v] l Hv _ IH]; [done|]. cbn. f_equal; [|exact IH]. by destruct v.
Qed.

Definition token_auth : AuthLibrary := {|
  sha256_hex := λ s, s;
  token_urlsafe := λ n, pads (64 + n);
  argon2_hash := λ _ p, p;
  argon2_verify := String.eqb;
  uuid_of_text := read_uuid;
  jwt_encode := seal_token;
  jwt_header := λ t, '(_, kid) ← open_token t; Some [("kid", JStr kid); ("typ", JStr "access")];
  jwt_decode := λ _ _ _ t, '(claims, _) ← open_token t; Some (map (λ c, (c.1, claim_json c.2)) claims) |}.

Lemma token_auth_laws : JwtLaws token_auth.
Proof.
  split.
  - exact read_uuid_str.
  - intros payload kid Hs. cbn -[open_token seal_token]. rewrite open_seal. cbn. by eexists.
  - intros payload kid issuer audience Hs _ _ _. cbn -[open_token seal_token]. rewrite open_seal. cbn. by rewrite claims_back.
Qed.

Definition token_service : TokenService := {|
  ts_issuer := "n"; ts_audience := "a"; ts_ttl := 900; ts_skew := 30; ts_signing_kid := "k"; ts_verification_kids := ["k"] |}.

Lemma access_token_roundtrip_witness :
  @verify_access_token token_auth token_service (@issue_access_token token_auth token_service 1 7 101 102 5000000) 6000000 =
  Some (mkClaims 1 7 101 102 5000000 905000000).
Proof.
  refine (@access_token_roundtrip token_auth token_auth_laws token_service 1 7 101 102 5000000 6000000 _ _ _ _ _ _ _ _ _).
  1-4: reflexivity.
  - constructor.
  - discriminate.
  - discriminate.
  - discriminate.
  - split; [reflexivity|]. vm_compute. discriminate.
Defined.
End SignedTokens.

#[local] Existing Instance plain_forms.

(** ** A library for sessions *)

(** The texts of the draws differ in length; passwords are stored as they are, and an access
    token is the name of its key. *)
Definition plain_auth : AuthLibrary := {|
  sha256_hex := λ s, s;
  token_urlsafe := λ n, pads (64 + n);
  argon2_hash := λ _ p, p;
  argon2_verify := String.eqb;
  uuid_of_text := λ _, None;
  jwt_encode := λ _ kid, kid;
  jwt_header := λ _, None;
  jwt_decode := λ _ _ _ _, None |}.

Lemma plain_auth_laws : AuthLaws plain_auth.
Proof.
  split; [done|]. intros n m E. change (pads (64 + n) = pads (64 + m)) in E. apply (f_equal slen) in E.
  rewrite !slen_pads in E. lia.
Qed.
#[local] Existing Instance plain_auth.
#[local] Existing Instance plain_auth_laws.

Lemma refresh_token_roundtrip_witness :
  @parse_refresh_token plain_auth (new_refresh_token 7 (pads 64)) =
    Some (mkParts 7 (new_refresh_token 7 (pads 64))).
Proof. exact (proj1 (@refresh_token_roundtrip plain_auth plain_auth_laws 7 0 eq_refl eq_refl)). Defined.

(** ** Two callers with one token *)

Definition demo_auth_settings : AuthSettings := {|
  as_access_token_ttl_seconds := 900; as_refresh_token_ttl_seconds := 3600; as_min_password_length := 12;
  as_max_password_length := 128; as_limits := mkLoginLimits 5 300 1000; as_cache_backend := true; as_parameters := [] |}.

Definition demo_tokens : TokenService := {|
  ts_issuer := "nexus"; ts_audience := "api"; ts_ttl := 900; ts_skew := 30; ts_signing_kid := "k1"; ts_verification_kids := ["k1"] |}.

Definition secret_text : string := "correct horse battery".

(** An owner of organization 7. *)
Definition signed_up : AuthWorld :=
  mkAuthWorld
    (mkAuthDB [mkUser 1 "ann@example.com" true None UserStatus.ACTIVE 1 0 0]
       [mkCredential 1 1 "argon2id" [] secret_text]
       [mkMembership 2 7 1 MembershipStatus.ACTIVE 0 0 None] []
       [mkAssignment 3 7 1 11 RoleAssignmentStatus.ACTIVE 0 0]
       [mkRole 11 "org_owner"] [mkPermission 21 MEMBERSHIP_MANAGE] [mkRolePermission 11 21]
       [(7%N, OrganizationStatus.ACTIVE)])
    (λ n, Z.of_nat n) 0 100 0 [] [] (λ _, true) 0.

Definition sign_in : LoginRequest := mkLogin "Ann@Example.com" secret_text None.
Definition mistyped : LoginRequest := mkLogin "Ann@Example.com" "incorrect horse" None.

Abbreviation auth_steps := (rtc (auth_step demo_auth_settings demo_tokens)).

Definition signed_in : AuthWorld := Eval vm_compute in (login demo_auth_settings demo_tokens sign_in "ip" signed_up).2.
Definition first_token : string := Eval vm_compute in new_refresh_token 7 (pads 64).

Lemma signed_in_eq : (login demo_auth_settings demo_tokens sign_in "ip" signed_up).2 = signed_in.
Proof. vm_compute. reflexivity. Qed.

(** The callers advance in the given order. *)
Fixpoint run_callers (order : list nat) (st : AuthWorld * list (string * refresh_stage)) : AuthWorld * list (string * refresh_stage) :=
  match order with
  | [] => st
  | i :: order =>
      match st.2 !! i with
      | None => st
      | Some (raw, s) =>
          let '(s', w') := refresh_step demo_auth_settings demo_tokens raw s st.1 in
          run_callers order (w', <[i := (raw, s')]> st.2)
      end
  end.

Lemma run_callers_steps order st : auth_steps st (run_callers order st).
Proof.
  revert st. induction order as [|i order IH]; intros [w cs]; [done|]. cbn [run_callers fst snd].
  destruct (cs !! i) as [[raw s]|] eqn:Hi; [|done].
  pose proof (au_refresh demo_auth_settings demo_tokens w cs i raw s Hi) as Hs.
  destruct (refresh_step _ _ raw s w) as [s' w']. eapply rtc_l; [exact Hs|apply IH].
Qed.

Abbreviation two_callers := (signed_in, [(first_token, Presented); (first_token, Presented)]).

(** Both are admitted; the first exchanges the token. *)
Definition exchanged : AuthWorld * list (string * refresh_stage) := Eval vm_compute in run_callers [0; 1; 0; 1; 0]%nat two_callers.
Definition exchanged_world : AuthWorld := Eval vm_compute in exchanged.1.
Definition exchanged_callers : list (string * refresh_stage) := Eval vm_compute in exchanged.2.

Lemma exchanged_eq : run_callers [0; 1; 0; 1; 0]%nat two_callers = (exchanged_world, exchanged_callers).
Proof. vm_compute. reflexivity. Qed.

Lemma exchanged_reachable : auth_reachable demo_auth_settings demo_tokens (exchanged_world, exchanged_callers).
Proof.
  exists signed_up. split; [done|].
  pose proof (au_login demo_auth_settings demo_tokens signed_up [] sign_in "ip") as H1. rewrite signed_in_eq in H1.
  eapply rtc_l; [exact H1|]. eapply rtc_l; [apply au_present|]. eapply rtc_l; [apply au_present|].
  rewrite <- exchanged_eq. apply run_callers_steps.
Qed.

Definition answered : AuthSession :=
  match exchanged_callers with (_, Done (Ok a)) :: _ => a | _ => mkAuthSession 0 0 0 EmptyString EmptyString 0 end.

Lemma answered_first : exchanged_callers !! 0%nat = Some (first_token, Done (Ok answered)).
Proof. vm_compute. reflexivity. Qed.

Lemma refresh_token_single_use_witness :
  (refresh demo_auth_settings demo_tokens first_token exchanged_world).1 = Err AuthError.AuthenticationFailedError.
Proof.
  exact (proj1 (proj2 (refresh_token_single_use demo_auth_settings demo_tokens _ _ exchanged_reachable) _ _ _ answered_first)).
Defined.

(** The loser of the race and whoever presents the token again revoke the session. *)
Definition ann_session : RefreshSessionRecord :=
  match sessions exchanged_world with s :: _ => s | [] => mkSession 0 0 0 EmptyString None 0 0 None 0 0 None end.

Definition first_parts : RefreshTokenParts := mkParts 7 first_token.

Lemma ann_sessions : sessions exchanged_world = [ann_session] ∧ rs_organization_id ann_session = 7%N ∧
  rs_previous_token_hash ann_session = Some first_token ∧ rs_token_hash ann_session ≠ first_token ∧
  parse_refresh_token first_token = Some first_parts.
Proof. vm_compute. repeat split; congruence. Qed.

Lemma reuse_revokes_family_witness :
  let w2 := (refresh demo_auth_settings demo_tokens first_token exchanged_world).2 in
  ∃ s2, s2 ∈ sessions w2 ∧ rs_id s2 = rs_id ann_session ∧ rs_revoked_at s2 ≠ None.
Proof.
  intros w2. destruct ann_sessions as (Es & Eo & Ep & En & Eparse).
  destruct (reuse_revokes_family demo_auth_settings demo_tokens exchanged_world exchanged_callers first_token first_parts
    ann_session w2 exchanged_callers exchanged_reachable Eparse) as (_ & s2 & Hs2 & Hid & Hr & _).
  - rewrite Es. constructor.
  - exact Eo.
  - exact Ep.
  - exact En.
  - apply rtc_refl.
  - exists s2. exact (conj Hs2 (conj Hid Hr)).
Defined.

(** The token the first caller was answered with is the session's, and buys the next one. *)
Lemma refresh_decides_witness :
  ∃ a, (refresh demo_auth_settings demo_tokens (se_refresh_token answered) exchanged_world).1 = Ok a.
Proof.
  apply (proj1 (refresh_decides demo_auth_settings demo_tokens _ _ (se_refresh_token answered) exchanged_reachable)).
  exists (mkParts 7 (se_refresh_token answered)), ann_session.
  split; [vm_compute; reflexivity|]. split; [rewrite (proj1 ann_sessions); constructor|].
  split; [reflexivity|]. split; [vm_compute; reflexivity|]. split; [reflexivity|]. split; [vm_compute; reflexivity|].
  split; (eexists; split; [vm_compute; reflexivity|reflexivity]).
Defined.

(** The organization is suspended: the session is renewed all the same, and the live check
    of the access token refuses. *)
Definition suspended_world : AuthWorld :=
  let d := aw_db exchanged_world in
  set_aw_db (mkAuthDB (ad_users d) (ad_credentials d) (ad_memberships d) (ad_sessions d) (ad_assignments d) (ad_roles d)
    (ad_permissions d) (ad_role_permissions d) [(7%N, OrganizationStatus.SUSPENDED)]) exchanged_world.

Theorem suspended_organization_refreshes :
  auth_reachable demo_auth_settings demo_tokens (suspended_world, exchanged_callers) ∧
  (∃ a, (refresh demo_auth_settings demo_tokens (se_refresh_token answered) suspended_world).1 = Ok a) ∧
  (require_valid 7 (rs_user_id ann_session) (rs_id ann_session) suspended_world).1 = Err AuthError.OrganizationInactiveError.
Proof.
  split; [|split; [eexists|]; vm_compute; reflexivity]. destruct exchanged_reachable as (w0 & H0 & Hs). exists w0.
  split; [done|]. eapply rtc_r; [exact Hs|]. by apply au_other.
Qed.

(** ** Logins *)

Lemma mistyped_refused : ∀ u, ¬ proves (aw_db signed_up) "ann@example.com" (lg_password mistyped) u.
Proof. intros u (Hu & _ & c & Hc & Hv). vm_compute in Hu. injection Hu as <-. vm_compute in Hc. injection Hc as <-. vm_compute in Hv. discriminate Hv. Qed.

Lemma login_refusals_alike_witness :
  aw_db (login demo_auth_settings demo_tokens mistyped "ip" signed_up).2 = aw_db signed_up.
Proof.
  refine (proj2 (login_refusals_alike demo_auth_settings demo_tokens mistyped "ip" signed_up "ann@example.com" _ _ mistyped_refused)).
  - vm_compute. reflexivity.
  - vm_compute. reflexivity.
Defined.

Definition ann_login : AuthSession :=
  match (login demo_auth_settings demo_tokens sign_in "ip" signed_up).1 with
  | Ok a => a | Err _ => mkAuthSession 0 0 0 EmptyString EmptyString 0
  end.

Lemma signed_in_ok : login demo_auth_settings demo_tokens sign_in "ip" signed_up = (Ok ann_login, signed_in).
Proof. vm_compute. reflexivity. Qed.

Lemma login_requires_credentials_witness :
  ∃ email u, normalize_email (lg_email sign_in) = Ok email ∧ proves (aw_db signed_up) email (lg_password sign_in) u ∧
    se_user_id ann_login = us_id u.
Proof.
  destruct (login_requires_credentials demo_auth_settings demo_tokens sign_in "ip" signed_up ann_login signed_in signed_in_ok)
    as (email & u & m & status & He & _ & Hp & Hu & _).
  exists email, u. exact (conj He (conj Hp Hu)).
Defined.

(** ** A manager *)

Definition manager : Principal := mkPrincipal 1 101 7.

Lemma revoked_manager_restores_witness :
  ∃ w1 w2, revoke_membership manager 7 1 signed_up = (Ok tt, w1) ∧ restore_membership manager 7 1 w1 = (Ok tt, w2).
Proof.
  destruct (revoked_manager_restores manager 7 signed_up (mkMembership 2 7 1 MembershipStatus.ACTIVE 0 0 None) [MEMBERSHIP_MANAGE])
    as (w1 & m1 & w2 & m2 & H1 & _ & _ & H2 & _).
  - vm_compute. reflexivity.
  - constructor.
  - vm_compute. reflexivity.
  - exists w1, w2. exact (conj H1 H2).
Defined.
